(* ===== verification/_CoqProject ===== *)
-Q . S2P
Prelude.v
Int32.v
UVectr32.v
UVector.v
InversionList.v
Utf16.v
BMPSet.v
StringVector.v
UnicodeSet.v
UnicodeSetSample.v
UnicodeSetStrings.v
UnicodeSetQueries.v
UnicodeSetLife.v
UnicodeSetProperties.v
USerializedSet.v
Double.v
Grego.v
Calendar.v
CalendarSystem.v
CECalendar.v
CopticCalendar.v
EthiopicCalendar.v
PersianCalendar.v
IndianCalendar.v
HebrewCalendar.v
CalendarFields.v
CalendarDays.v
CalendarTime.v
CalendarArithmetic.v
CalendarAdd.v
HebrewArithmetic.v
GregorianCalendar.v
UString.v
Punycode.v
PunycodeDecoding.v
PunycodeEncoding.v
UArrSort.v
UVectorSort.v
UHash.v
UHashTable.v
UHashMap.v
UHashRun.v
TimeZoneRules.v
SimpleTimeZone.v
SimpleTimeZoneOffset.v
SimpleTimeZoneTransitions.v
SimpleTimeZoneState.v
SimpleTimeZoneCalendar.v
Utf8.v
Utf8Decoding.v
UStrTrns.v
UStrTrnsRest.v
UStrTrnsFromUtf8.v
UStrTrnsLoops.v
UStrTrnsToUtf8.v
UStrTrnsFit.v
UStrTrnsToUtf8Loops.v
UStrTrnsProperties.v
UStrTrnsUtf32.v
UStrTrnsUtf32Loops.v
UStrTrnsUtf32Properties.v
UStrTrnsJava.v
UStrTrnsToJava.v
UStrTrnsFromJava.v
UStrTrnsJavaProperties.v
UStrTrnsLenient.v
