(* ===== verification/Prelude.v ===== *)
(** * Verification of the ICU common and calendar libraries

    ICU is a library of text and calendar services.  This development models
    parts of it that are algorithms rather than data: the sets of code points
    of src/common, with the vectors and the UTF-16 text they are built on, the
    conversions of Unicode text, sorting and hashing, and the calendars and time
    zones of src/i18n, with the clock mathematics below them and the
    field and time arithmetic above them.

    ** Conventions

    A value of a C++ integer type is a [Z].  Conversions between types are
    written where the source converts ([uint16], [int32], ...).  Arithmetic on
    [int32_t] that the source expects not to overflow is checked: the
    operations of Int32.v give [None] on overflow, as array accesses outside
    the array ([aget], [aset] below) and uses of a null pointer do.  [None]
    is undefined behaviour; a theorem with [Some] on its left side says that
    there is none.  An error that the source reports is a [UErrorCode] in the
    result.  Objects are records, methods take and return them.  A loop is a
    structural recursion over what it reads, or a [Fixpoint] with fuel whose
    exhaustion is also [None]: the fuel of a loop is the length of the array
    it walks, the distance of its bounds or a constant number of rounds that
    the lemma on the loop shows to be enough, so a result [Some] is also a
    proof that the loop ends.  The allocator is a parameter that may fail.
    U_ASSERT does nothing, as in a build where U_DEBUG is 0; it is written out
    in [computeZoneOffset], where it would fail ([U_ASSERT] of
    CalendarTime.v).

    ** Sets of code points (src/common)

    - Prelude.v (this file): machine integers, bit fields, error codes,
      arrays and the loops that open and close gaps in them, the allocator.
    - UVectr32.v, Module UVector32: uvectr32.cpp, the vector of integers.
    - UVector.v, Module UVector: uvector.cpp, the vector of pointers with
      deleter, comparer and assigner.
    - InversionList.v: the loops of uniset.cpp over inversion lists
      ([findCodePoint], [add], [retain], [exclusiveOr]) against membership
      [mem].
    - Utf16.v: the macros of unicode/utf16.h and the accessors of
      unistr.cpp that the sets call.
    - BMPSet.v: bmpset.cpp, the tables of a frozen set and the spans over
      text.
    - StringVector.v: the strings of a set.  The class [StringVector] is what
      a set expects of its vector; [UVector] with the callbacks of uniset.cpp
      is an instance.
    - UnicodeSet.v: uniset.cpp, one definition per method, over any
      [StringVector] and allocator.  UnicodeSetStrings.v, UnicodeSetQueries.v
      and UnicodeSetLife.v prove the methods against the representation
      [rep s la strs] (the object [s] is well-formed, with the inversion list
      [la] and the sorted strings [strs]); UnicodeSetProperties.v has the
      results, UnicodeSetSample.v the concrete sets the examples run on.
    - USerializedSet.v: [UnicodeSet::serialize] and the readers of uset.cpp.

    The main result is [history_refines]: every sequence of modifying
    operations computes the abstract set operations or reports that it ran out
    of memory.  The operands are other sets; the strings under retain(start, end)
    and removeAll of the set itself are those that the code leaves, not those
    that uniset.h documents.

    ** Text (src/common)

    - Utf16.v, as above, for every string, with unpaired surrogates too.
    - UString.v: ustring.cpp, the length of a string, the termination of output
      buffers and what writing to a buffer leaves of it.
    - Utf8.v: the macros of unicode/utf8.h that read, utf_impl.c, and [decode], the
      reference decoder, which takes an ill-formed sequence as one error;
      Utf8Decoding.v proves the macros and both variants of the function for
      the cases that are not handled inline against it.
    - ustrtrns.cpp: every conversion, with its loops near and away from the ends of the
      buffers.  UStrTrns.v has the state of a conversion, [Conv], the conversion
      from UTF-8 and what conversions promise: [converted], or
      [converted_whole] where sequences are not split.  The proofs go through
      [rest_ok] of UStrTrnsRest.v, what remains to be done from a state that has
      written and counted some output; each loop preserves it
      (UStrTrnsFromUtf8.v, UStrTrnsLoops.v), so that the same lemmas serve the
      loops for sources with a length and with a NUL, which differ in a
      [Reader].  UStrTrnsToUtf8.v has the conversion to UTF-8
      (UStrTrnsFit.v, UStrTrnsToUtf8Loops.v), UStrTrnsProperties.v the theorems
      of both and their round trip; UStrTrnsUtf32.v, UStrTrnsUtf32Loops.v and
      UStrTrnsUtf32Properties.v UTF-32; UStrTrnsJava.v, UStrTrnsToJava.v,
      UStrTrnsFromJava.v and UStrTrnsJavaProperties.v Java's modified UTF-8;
      UStrTrnsLenient.v the lenient conversion.  The fuel is one more than the
      length of the source, since every step reads a unit.
    - Punycode.v: punycode.cpp, the encoder and the decoder with their limits of
      200 code points and of the output buffers; PunycodeDecoding.v and
      PunycodeEncoding.v prove that the decoder accepts only sources of
      well-formed text and is the inverse of the encoder.  A variable-length
      integer has at most 12 digits since each digit but the last multiplies
      the weight by at least 10, and [adaptBias] divides at most 5 times.

    ** Sorting and hashing (src/common)

    - UArrSort.v: uarrsort.c, insertion sort and quicksort over any comparator
      with the laws of the class [Comparator], with a proof that both end within
      the array; UVectorSort.v: the sorts of UVector.
    - UHash.v: uhash.c, the hash table with double hashing and deleters.
      UHashTable.v has its invariant and what a search finds, with the class
      [KeyLaws] of hash functions and comparators; UHashMap.v what each
      operation does to the entries; UHashRun.v compares sequences of calls with
      an association list, and the instances of [KeyLaws] for integers and
      strings.

    ** Calendars (src/i18n)

    - Int32.v, Double.v: checked 32-bit integers and exact rational doubles
      rounded to 53 bits.
    - Grego.v: gregoimp.cpp, floor divisions ([ClockMath]) and days of the
      proleptic Gregorian calendar ([Grego]); [Gregorian] is the reference.
    - Calendar.v: the fields and stamps of calendar.cpp, [set] and the choice
      of the fields that define a date ([resolveFields]).
    - CalendarSystem.v: the interface between [Calendar] and its subclasses.
      [CalendarSystem] has the virtual functions; [MonthLayout] is an abstract
      calendar of consecutive months, [Implements] says that a system computes
      a layout.
    - CalendarFields.v: days to fields and fields to days; CalendarDays.v
      proves them inverse for any system that implements a layout.
    - CalendarTime.v: [setTimeInMillis], [set], [clear], [get] and the time
      zone, the class [TimeZone].
    - CalendarArithmetic.v: actual limits, [add], [roll] and
      [fieldDifference]; CalendarAdd.v: what adding does to the date.
    - CECalendar.v with CopticCalendar.v and EthiopicCalendar.v,
      PersianCalendar.v, IndianCalendar.v, HebrewCalendar.v: the subclasses
      (cecal.cpp, coptccal.cpp, ethpccal.cpp, persncal.cpp, indiancal.cpp,
      hebrwcal.cpp), each with its [Implements] theorem; HebrewArithmetic.v:
      the overrides of [add] and [roll].
    - GregorianCalendar.v: gregocal.cpp.  Its calendar changes from Julian to
      Gregorian, so it is not an instance of [Implements]: its override of
      [handleComputeJulianDay] computes the day again in the other calendar when
      the first result is on the wrong side of the cutover.  It is modelled with
      the flags that the passes leave in the object and proved against the two
      calendars.

    The theorems of CalendarDays.v, CalendarTime.v and CalendarAdd.v hold for
    every instance of the two interfaces; the calendars discharge the first and
    SimpleTimeZone the second.

    ** Time zones (src/i18n)

    - TimeZoneRules.v: dtrule.cpp, tzrule.cpp and tztrans.cpp, the rule for a
      time of the year, the initial and the annual rules, transitions.
      [RuleDays] is the reference: the day number of a rule in a year.
    - SimpleTimeZone.v: simpletz.cpp and the getOffset of timezone.cpp.
      SimpleTimeZoneOffset.v proves the offset of every time against the days of
      the rules; SimpleTimeZoneTransitions.v that the search for transitions
      finds the changes of this offset; SimpleTimeZoneState.v the decoding of
      rules and that the rules kept in the zone cannot be observed, but for the
      names that setID leaves in them;
      SimpleTimeZoneCalendar.v that calendars with such a zone find times again.
      The loops that carry milliseconds into the date have fuel 32, more than
      the 25 days in an [int32_t].

    ** Bounds

    The theorems on calendars state the years for which the arithmetic stays
    in [int32_t] (ten million years for the Coptic calendar, 178000 for the
    Persian one, up to 88366 for the Hebrew one): outside them the source
    overflows or is wrong, as theorems and notes beside them say.  Doubles
    are exact where the theorems need it.  Sets have no bound besides the
    length of arrays an [int32_t] can index.  The runs of the hash table are
    at most 2^28 calls long, so that it never takes the last size of the
    table of primes, with which [theIndex + jump] overflows.  Offsets and
    savings of a zone are at most a day, and its times within 130000 years; its
    rules are in their months and steady ([zone_ok]), since the code goes wrong
    for others.  Bytes that U8_NEXT reads are at most INT32_MAX - 5, ranges of a
    serialized set are read at indices below 2^29, and fieldDifference doubles
    its step up to 2^30 forward and 2^31 backward; beyond, the source overflows.

    ** Not modelled

    Property data, normalization, collation, conversion tables, locales and
    resources, which interpret generated data files; formatting and parsing of
    dates and numbers; platform code.  In the modelled classes: the patterns
    and closures of UnicodeSet, its spans over strings, the spans of BMPSet
    over UTF-8, the macros that append UTF-8 or read it backwards, the default
    centuries of the calendars (which read the clock),
    calendar creation from locales and the weekend data, and of
    GregorianCalendar the parts that only call Calendar (roll of other fields)
    and the search for the actual maximum of a year.  Of uhash.c the hash
    functions of char strings.  Of the time zones those read from data files
    (olsontz.cpp) or made of many rules (rbtz.cpp, vtzone.cpp), their formats,
    and SimpleTimeZone::inDaylightTime. *)
From Stdlib Require Export ZArith Lia Bool.
From stdpp Require Export base tactics numbers list list_numbers option sorting.

Declare Scope icu_scope.
Delimit Scope icu_scope with icu.

Local Open Scope Z_scope.

(** ** Machine integers

    A value of a w-bit C++ type is a [Z]; a conversion to that type is written
    out where the source converts (or where its arithmetic may leave the type). *)

Definition INT32_MAX : Z := 2147483647.
Definition INT32_MIN : Z := -2147483648.

Definition uint8 (x : Z) : Z := x mod 256.
Definition uint16 (x : Z) : Z := x mod 65536.
Definition uint32 (x : Z) : Z := x mod 4294967296.
Definition int8 (x : Z) : Z := (x + 128) mod 256 - 128.
Definition int32 (x : Z) : Z := (x + 2147483648) mod 4294967296 - 2147483648.

Definition is_int32 (x : Z) : Prop := INT32_MIN <= x <= INT32_MAX.
Definition is_uint8 (x : Z) : Prop := 0 <= x < 256.
Definition is_uint16 (x : Z) : Prop := 0 <= x < 65536.

(** Code points: the values a [UChar32] takes in a valid string or set. *)
Definition is_code_point (c : Z) : Prop := 0 <= c < 0x110000.

Ltac unfold_int :=
  unfold is_int32, is_uint8, is_uint16, is_code_point, int32, int8,
    uint8, uint16, uint32, INT32_MAX, INT32_MIN in *.

(** [lia] with the euclidean division and modulo equations. *)
Ltac dlia := unfold_int; Z.to_euclidean_division_equations; lia.

Lemma int32_id x : is_int32 x -> int32 x = x.
Proof. intros; dlia. Qed.

Lemma int32_range x : is_int32 (int32 x).
Proof. dlia. Qed.

Lemma int32_int32 x : int32 (int32 x) = int32 x.
Proof. apply int32_id, int32_range. Qed.

Lemma uint8_id x : is_uint8 x -> uint8 x = x.
Proof. intros; dlia. Qed.

Lemma uint8_range x : is_uint8 (uint8 x).
Proof. dlia. Qed.

Lemma uint16_id x : is_uint16 x -> uint16 x = x.
Proof. intros; dlia. Qed.

Lemma uint16_range x : is_uint16 (uint16 x).
Proof. dlia. Qed.

(** ** Bit fields *)

Lemma land_high_mask c n m :
  0 <= n -> 0 <= m -> 0 <= c < 2 ^ (n + m) ->
  Z.land c (Z.shiftl (Z.ones m) n) = c / 2 ^ n * 2 ^ n.
Proof.
  intros Hn Hm Hc. rewrite <- (Z.shiftl_mul_pow2 (c / 2 ^ n)), <- Z.shiftr_div_pow2 by lia.
  apply Z.bits_inj'. intros i Hi. rewrite Z.land_spec.
  destruct (Z.lt_ge_cases i n) as [Hlt|Hge].
  - rewrite !Z.shiftl_spec_low by lia. apply andb_false_r.
  - rewrite !Z.shiftl_spec, Z.shiftr_spec by lia.
    replace (i - n + n) with i by lia. destruct (Z.lt_ge_cases (i - n) m).
    + rewrite Z.ones_spec_low by lia. apply andb_true_r.
    + rewrite Z.ones_spec_high by lia. rewrite andb_false_r. symmetry.
      destruct (Z.eq_dec c 0) as [->|]; [apply Z.bits_0|].
      apply Z.bits_above_log2; [lia|]. apply Z.log2_lt_pow2; [lia|].
      eapply Z.lt_le_trans; [apply Hc|]. apply Z.pow_le_mono_r; lia.
Qed.

Lemma land_low_mask c n : 0 <= n -> Z.land c (2 ^ n - 1) = c mod 2 ^ n.
Proof. intros. rewrite <- Z.land_ones, Z.ones_equiv by done. f_equal. Qed.

(** Or-ing fields that do not overlap adds them. *)
Lemma lor_fields a b n : 0 <= n -> 0 <= b < 2 ^ n -> Z.lor (a * 2 ^ n) b = a * 2 ^ n + b.
Proof.
  intros Hn Hb. assert (Hz : Z.land (a * 2 ^ n) b = 0).
  { apply Z.bits_inj'. intros i Hi. rewrite Z.land_spec, Z.bits_0.
    destruct (Z.lt_ge_cases i n).
    - by rewrite Z.mul_pow2_bits_low.
    - destruct (Z.eq_dec b 0) as [->|]; [by rewrite Z.bits_0, andb_false_r|].
      rewrite (Z.bits_above_log2 b); [apply andb_false_r|lia|].
      apply Z.log2_lt_pow2; [lia|]. eapply Z.lt_le_trans; [apply Hb|].
      apply Z.pow_le_mono_r; lia. }
  by rewrite Z.add_nocarry_lxor, Z.lxor_lor by done.
Qed.

(** Length goals on lists. *)
Ltac len :=
  repeat first
    [ rewrite length_app | rewrite length_take | rewrite length_drop
    | rewrite length_insert | rewrite length_replicate | rewrite length_cons
    | rewrite length_nil ];
  lia.

(** A decidable property of the integers below [n], checked by evaluation. *)
Definition all_below (n : Z) (f : Z -> bool) : bool := forallb f (seqZ 0 n).

Lemma all_below_spec n f : all_below n f = true -> forall x, 0 <= x < n -> f x = true.
Proof.
  unfold all_below. intros H x Hx. rewrite forallb_forall in H. apply H.
  apply list_elem_of_In, elem_of_seqZ. lia.
Qed.

(** ** Error codes (common/unicode/utypes.h) *)

Inductive UErrorCode :=
  | U_STRING_NOT_TERMINATED_WARNING
  | U_ZERO_ERROR
  | U_ILLEGAL_ARGUMENT_ERROR
  | U_INTERNAL_PROGRAM_ERROR
  | U_MEMORY_ALLOCATION_ERROR
  | U_INDEX_OUTOFBOUNDS_ERROR
  | U_INVALID_CHAR_FOUND
  | U_TRUNCATED_CHAR_FOUND
  | U_ILLEGAL_CHAR_FOUND
  | U_BUFFER_OVERFLOW_ERROR
  | U_UNSUPPORTED_ERROR.

#[export] Instance UErrorCode_eq_dec : EqDecision UErrorCode.
Proof. solve_decision. Defined.

(** The numeric values of the enumeration. *)
Definition UErrorCode_value (c : UErrorCode) : Z :=
  match c with
  | U_STRING_NOT_TERMINATED_WARNING => -124
  | U_ZERO_ERROR => 0
  | U_ILLEGAL_ARGUMENT_ERROR => 1
  | U_INTERNAL_PROGRAM_ERROR => 5
  | U_MEMORY_ALLOCATION_ERROR => 7
  | U_INDEX_OUTOFBOUNDS_ERROR => 8
  | U_INVALID_CHAR_FOUND => 10
  | U_TRUNCATED_CHAR_FOUND => 11
  | U_ILLEGAL_CHAR_FOUND => 12
  | U_BUFFER_OVERFLOW_ERROR => 15
  | U_UNSUPPORTED_ERROR => 16
  end.

Definition U_SUCCESS (c : UErrorCode) : bool := UErrorCode_value c <=? 0.
Definition U_FAILURE (c : UErrorCode) : bool := 0 <? UErrorCode_value c.

Lemma U_FAILURE_SUCCESS c : U_FAILURE c = negb (U_SUCCESS c).
Proof. by destruct c. Qed.

(** ** Arrays

    A C++ array is the list of its cells.  Reading or writing a cell that does
    not exist is undefined behaviour: the accessors return [None] for it, and
    the theorems about an operation show that it never happens. *)

Section Arrays.
Context {A : Type}.
Implicit Types l : list A.

Definition aget l (i : Z) : option A :=
  if 0 <=? i then l !! Z.to_nat i else None.

Definition aset l (i : Z) (x : A) : option (list A) :=
  if (0 <=? i) && (i <? Z.of_nat (length l)) then Some (<[Z.to_nat i := x]> l) else None.

Lemma aget_nat l (n : nat) : aget l (Z.of_nat n) = l !! n.
Proof. unfold aget. by rewrite (proj2 (Z.leb_le _ _)), Nat2Z.id by lia. Qed.

Lemma aget_Some l i x : aget l i = Some x -> 0 <= i < Z.of_nat (length l).
Proof.
  unfold aget. destruct (Z.leb_spec 0 i); [|done].
  intros Hx%lookup_lt_Some. lia.
Qed.

Lemma aget_is_Some l i : 0 <= i < Z.of_nat (length l) -> exists x, aget l i = Some x.
Proof.
  intros. unfold aget. rewrite (proj2 (Z.leb_le _ _)) by lia.
  apply lookup_lt_is_Some_2. lia.
Qed.

Lemma aset_nat l (n : nat) x :
  (n < length l)%nat -> aset l (Z.of_nat n) x = Some (<[n := x]> l).
Proof.
  intros. unfold aset.
  rewrite (proj2 (Z.leb_le _ _)), (proj2 (Z.ltb_lt _ _)), Nat2Z.id by lia. done.
Qed.

(** [for (i = count; i > index; --i) elements[i] = elements[i-1];]
    the loop that opens a gap at [index]; the fuel is the distance. *)
Fixpoint shift_up_loop (fuel : nat) (elements : list A) (i index : Z) : option (list A) :=
  if i >? index then
    match fuel with
    | O => None
    | S fuel' =>
        x ← aget elements (i - 1);
        elements' ← aset elements i x;
        shift_up_loop fuel' elements' (i - 1) index
    end
  else Some elements.

Definition shift_up (elements : list A) (count index : Z) : option (list A) :=
  shift_up_loop (Z.to_nat (count - index)) elements count index.

(** [for (i = index; i < count-1; ++i) elements[i] = elements[i+1];]
    the loop that closes the gap at [index]. *)
Fixpoint shift_down_loop (fuel : nat) (elements : list A) (i last : Z) : option (list A) :=
  if i <? last then
    match fuel with
    | O => None
    | S fuel' =>
        x ← aget elements (i + 1);
        elements' ← aset elements i x;
        shift_down_loop fuel' elements' (i + 1) last
    end
  else Some elements.

Definition shift_down (elements : list A) (index count : Z) : option (list A) :=
  shift_down_loop (Z.to_nat (count - 1 - index)) elements index (count - 1).

Lemma shift_up_loop_spec k : forall l (index : nat),
  (index + k < length l)%nat ->
  shift_up_loop k l (Z.of_nat (index + k)) (Z.of_nat index) =
    Some (take (S index) l ++ take k (drop index l) ++ drop (S (index + k)) l).
Proof.
  induction k as [|k IH]; intros l index Hlen; cbn [shift_up_loop].
  - rewrite Nat.add_0_r. rewrite Z.gtb_ltb, Z.ltb_irrefl. simpl.
    by rewrite take_drop.
  - rewrite Z.gtb_ltb, (proj2 (Z.ltb_lt _ _)) by lia.
    replace (Z.of_nat (index + S k) - 1) with (Z.of_nat (index + k)) by lia.
    rewrite aget_nat.
    destruct (lookup_lt_is_Some_2 l (index + k)) as [x Hx]; [lia|].
    rewrite Hx. cbn [mbind option_bind]. rewrite aset_nat by lia. cbn [mbind option_bind].
    rewrite IH by (rewrite length_insert; lia). f_equal.
    rewrite take_insert_ge by lia. f_equal.
    rewrite drop_insert_ge, take_insert_ge by lia.
    rewrite (take_S_r (drop index l) k x) by (by rewrite lookup_drop).
    rewrite <- app_assoc. f_equal.
    replace (index + S k)%nat with (S (index + k)) by lia.
    rewrite (drop_S (<[S (index + k):=x]> l) x (S (index + k)));
      [|by apply list_lookup_insert_eq; lia].
    simpl. f_equal. by rewrite drop_insert_lt by lia.
Qed.

Lemma shift_up_spec l (count index : nat) :
  (index <= count < length l)%nat ->
  shift_up l (Z.of_nat count) (Z.of_nat index) =
    Some (take (S index) l ++ take (count - index) (drop index l) ++ drop (S count) l).
Proof.
  intros. unfold shift_up.
  replace (Z.to_nat (Z.of_nat count - Z.of_nat index)) with (count - index)%nat by lia.
  replace count with (index + (count - index))%nat at 2 3 by lia.
  rewrite shift_up_loop_spec by lia. by replace (index + (count - index))%nat with count by lia.
Qed.

Lemma shift_down_loop_spec k : forall l (index : nat),
  (index + k < length l)%nat ->
  shift_down_loop k l (Z.of_nat index) (Z.of_nat (index + k)) =
    Some (take index l ++ take k (drop (S index) l) ++ drop (index + k) l).
Proof.
  induction k as [|k IH]; intros l index Hlen; cbn [shift_down_loop].
  - rewrite Nat.add_0_r, Z.ltb_irrefl. simpl. by rewrite take_drop.
  - rewrite (proj2 (Z.ltb_lt _ _)) by lia.
    replace (Z.of_nat index + 1) with (Z.of_nat (S index)) by lia.
    rewrite aget_nat.
    destruct (lookup_lt_is_Some_2 l (S index)) as [x Hx]; [lia|].
    rewrite Hx. cbn [mbind option_bind]. rewrite aset_nat by lia. cbn [mbind option_bind].
    replace (index + S k)%nat with (S index + k)%nat by lia.
    rewrite IH by (rewrite length_insert; lia). f_equal.
    rewrite (take_S_r (<[index:=x]> l) index x) by (apply list_lookup_insert_eq; lia).
    rewrite take_insert_ge by lia. rewrite <- app_assoc. f_equal.
    rewrite (drop_S l x (S index) Hx). simpl. f_equal.
    rewrite !drop_insert_lt by lia. done.
Qed.

Lemma shift_down_spec l (count index : nat) :
  (index < count <= length l)%nat ->
  shift_down l (Z.of_nat index) (Z.of_nat count) =
    Some (take index l ++ take (count - 1 - index) (drop (S index) l) ++ drop (count - 1) l).
Proof.
  intros. unfold shift_down.
  replace (Z.to_nat (Z.of_nat count - 1 - Z.of_nat index)) with (count - 1 - index)%nat by lia.
  replace (Z.of_nat count - 1) with (Z.of_nat (index + (count - 1 - index))) by lia.
  rewrite shift_down_loop_spec by lia.
  by replace (index + (count - 1 - index))%nat with (count - 1)%nat by lia.
Qed.
End Arrays.

(** ** Insertion and removal in the first [count] cells

    What the gap loops do to the prefix of an array that a vector uses. *)

Section Prefix.
Context {A : Type}.
Implicit Types l : list A.

Definition insert_at (i : nat) (x : A) l : list A := take i l ++ x :: drop i l.
Definition remove_at (i : nat) l : list A := take i l ++ drop (S i) l.

Lemma length_insert_at i x l : length (insert_at i x l) = S (length l).
Proof.
  unfold insert_at. rewrite length_app. simpl. rewrite length_take, length_drop. lia.
Qed.

Lemma insert_at_Permutation i x l : insert_at i x l ≡ₚ x :: l.
Proof. unfold insert_at. by rewrite <- Permutation_middle, take_drop. Qed.

Lemma remove_at_Permutation i x l : l !! i = Some x -> x :: remove_at i l ≡ₚ l.
Proof.
  intros Hx. unfold remove_at. rewrite Permutation_middle.
  by rewrite take_drop_middle.
Qed.

Lemma length_remove_at i l : (i < length l)%nat -> S (length (remove_at i l)) = length l.
Proof.
  intros [x Hx]%lookup_lt_is_Some_2.
  apply (Permutation_length (remove_at_Permutation i x l Hx)).
Qed.

Lemma shift_up_insert l count index x :
  0 <= index <= count -> count < Z.of_nat (length l) ->
  exists e0 e,
    shift_up l count index = Some e0 /\ aset e0 index x = Some e /\
    length e = length l /\
    take (Z.to_nat (count + 1)) e = insert_at (Z.to_nat index) x (take (Z.to_nat count) l).
Proof.
  intros Hi Hc.
  destruct (Z_of_nat_complete index) as [i ->]; [lia|].
  destruct (Z_of_nat_complete count) as [c ->]; [lia|].
  rewrite shift_up_spec by lia. eexists _, _. split; [done|].
  set (e0 := _ ++ _ ++ _).
  assert (Hl0 : length e0 = length l).
  { unfold e0. rewrite !length_app, !length_take, !length_drop. lia. }
  rewrite aset_nat by lia. split; [done|]. split; [by rewrite length_insert|].
  replace (Z.to_nat (Z.of_nat c + 1)) with (S c) by lia. rewrite !Nat2Z.id.
  rewrite take_insert_lt by lia. unfold insert_at, e0.
  rewrite take_app_ge by len. rewrite take_app_le by len.
  rewrite length_take, (Nat.min_l (S i)) by lia.
  rewrite (take_ge (take (c - i) _)) by len.
  rewrite take_take, (Nat.min_l i), skipn_firstn_comm by lia.
  destruct (lookup_lt_is_Some_2 l i) as [y Hy]; [lia|].
  rewrite (take_S_r l i y Hy), <- app_assoc.
  rewrite insert_app_r_alt by len.
  by rewrite length_take, Nat.min_l, Nat.sub_diag by lia.
Qed.

Lemma shift_down_remove l count index :
  0 <= index < count -> count <= Z.of_nat (length l) ->
  exists e,
    shift_down l index count = Some e /\ length e = length l /\
    take (Z.to_nat (count - 1)) e = remove_at (Z.to_nat index) (take (Z.to_nat count) l).
Proof.
  intros Hi Hc.
  destruct (Z_of_nat_complete index) as [i ->]; [lia|].
  destruct (Z_of_nat_complete count) as [c ->]; [lia|].
  rewrite shift_down_spec by lia. eexists. split; [done|]. split.
  { rewrite !length_app, !length_take, !length_drop. lia. }
  replace (Z.to_nat (Z.of_nat c - 1)) with (c - 1)%nat by lia. rewrite !Nat2Z.id.
  unfold remove_at. rewrite take_app_ge, take_app_le by len.
  rewrite length_take, Nat.min_l by lia.
  rewrite (take_ge (take (c - 1 - i) _)) by len.
  rewrite take_take, Nat.min_l, skipn_firstn_comm by lia. do 2 f_equal. lia.
Qed.
End Prefix.

(** ** Searching a list *)

Section Find.
Context {A : Type} `{EqDecision A}.
Implicit Types l : list A.

(** The index of the first element equal to [x], or -1. *)
Definition index_of (x : A) l : Z :=
  match list_find (fun y => x = y) l with Some (i, _) => Z.of_nat i | None => -1 end.

Definition remove_first (x : A) l : list A :=
  match list_find (fun y => x = y) l with Some (i, _) => remove_at i l | None => l end.

Lemma index_of_nonneg x l : 0 <= index_of x l <-> x ∈ l.
Proof.
  unfold index_of. destruct (list_find _ l) as [[i y]|] eqn:H.
  - apply list_find_Some in H as (H & <- & _).
    split; [intros _; by eapply list_elem_of_lookup_2|lia].
  - apply list_find_None in H. rewrite Forall_forall in H.
    split; [lia|]. intros Hin. by destruct (H x Hin).
Qed.

Lemma index_of_cons x y l :
  index_of x (y :: l) =
    if decide (x = y) then 0 else if index_of x l <? 0 then -1 else index_of x l + 1.
Proof.
  unfold index_of. simpl.
  destruct (decide (x = y)); [done|].
  destruct (list_find _ l) as [[i z]|]; simpl; [|done].
  rewrite (proj2 (Z.ltb_ge _ _)); lia.
Qed.

Lemma index_of_ge x l : -1 <= index_of x l < Z.of_nat (length l).
Proof.
  unfold index_of. destruct (list_find _ l) as [[i y]|] eqn:H; [|lia].
  apply list_find_Some in H as (H & _). apply lookup_lt_Some in H. lia.
Qed.

Lemma index_of_neg x l : index_of x l < 0 <-> x ∉ l.
Proof. rewrite <- index_of_nonneg. lia. Qed.

Lemma index_of_spec x l i :
  index_of x l = Z.of_nat i ->
  l !! i = Some x /\ forall j, (j < i)%nat -> l !! j <> Some x.
Proof.
  unfold index_of. destruct (list_find _ l) as [[k y]|] eqn:H; [|lia].
  apply list_find_Some in H as (H & <- & Hj). intros Heq.
  assert (k = i) as <- by lia. split; [done|].
  intros j Hlt Hx. by eapply (Hj j x).
Qed.

Lemma remove_first_index_of x l :
  remove_first x l = if index_of x l <? 0 then l else remove_at (Z.to_nat (index_of x l)) l.
Proof.
  unfold remove_first, index_of. destruct (list_find _ l) as [[i y]|]; [|done].
  rewrite (proj2 (Z.ltb_ge _ _)), Nat2Z.id by lia. done.
Qed.

Lemma foldl_remove_first_nil (o : list A) : foldl (fun l x => remove_first x l) [] o = [].
Proof. by induction o. Qed.

Lemma filter_id (P : A -> Prop) `{forall x, Decision (P x)} l :
  (forall x, x ∈ l -> P x) -> filter P l = l.
Proof.
  induction l as [|y l IH]; intros HP; [done|].
  rewrite filter_cons_True by (apply HP; by left).
  f_equal. apply IH. intros x Hx. apply HP. by right.
Qed.

Lemma remove_first_filter x l : NoDup l -> remove_first x l = filter (fun y => x <> y) l.
Proof.
  intros Hnd. unfold remove_first.
  destruct (list_find _ l) as [[i y]|] eqn:H.
  - apply list_find_Some in H as (H & <- & _).
    rewrite <- (take_drop_middle l i x H) in Hnd |- * at 2.
    apply NoDup_app in Hnd as (_ & Hd & Hnd2). apply NoDup_cons in Hnd2 as [Hnot _].
    rewrite filter_app, filter_cons_False by (intros Hx; by destruct Hx).
    unfold remove_at. f_equal; symmetry; apply filter_id; intros z Hz <-.
    + by apply (Hd x Hz); left.
    + done.
  - apply list_find_None in H. rewrite Forall_forall in H.
    symmetry. apply filter_id. intros z Hz <-. by apply (H x Hz).
Qed.

Lemma foldl_remove_first_filter l (o : list A) :
  NoDup l -> foldl (fun l x => remove_first x l) l o = filter (fun x => x ∉ o) l.
Proof.
  revert l. induction o as [|y o IH]; intros l Hnd; cbn [foldl].
  - symmetry. apply filter_id. intros x _. apply not_elem_of_nil.
  - rewrite remove_first_filter by done. rewrite IH by (by apply NoDup_filter).
    rewrite list_filter_filter. apply list_filter_iff. intros x.
    rewrite not_elem_of_cons. split; intros []; split; congruence || done.
Qed.

Lemma filter_complement_Permutation (P : A -> Prop) `{forall x, Decision (P x)} l :
  filter P l ++ filter (fun x => ~ P x) l ≡ₚ l.
Proof.
  induction l as [|x l IH]; [done|]. destruct (decide (P x)).
  - rewrite filter_cons_True, filter_cons_False by tauto. simpl. by rewrite IH.
  - rewrite filter_cons_False, filter_cons_True by done.
    by rewrite <- Permutation_middle, IH.
Qed.
End Find.

(** ** Sorted lists *)

Section Sorted.
Context {A : Type} (R : A -> A -> Prop) `{!Transitive R}.

Lemma Sorted_lookup (l : list A) (i j : nat) x y :
  Sorted R l -> (i < j)%nat -> l !! i = Some x -> l !! j = Some y -> R x y.
Proof.
  intros Hs%Sorted_StronglySorted; [|done]. revert i j.
  induction Hs as [|z l _ IH Hall]; intros [|i] [|j] ? Hi Hj; try done; try lia.
  - simplify_eq/=. rewrite Forall_forall in Hall.
    by apply Hall, (list_elem_of_lookup_2 _ j).
  - by apply (IH i j); [lia| |].
Qed.

Lemma Sorted_insert_at (l : list A) i t :
  Sorted R l -> Forall (fun x => R x t) (take i l) -> Forall (fun x => R t x) (drop i l) ->
  Sorted R (insert_at i t l).
Proof.
  intros Hs Hlo Hhi. apply StronglySorted_Sorted. unfold insert_at.
  apply Sorted_StronglySorted in Hs; [|done].
  rewrite <- (take_drop i l) in Hs. apply StronglySorted_app in Hs as (Hx & H1 & H2).
  rewrite Forall_forall in Hlo, Hhi. apply StronglySorted_app. split_and!; [|done|].
  - intros x y Hin [->|Hin2]%elem_of_cons; auto.
  - constructor; [done|by apply Forall_forall].
Qed.
End Sorted.

(** ** Memory allocation

    The C library's allocator is outside the program.  What the code relies on
    is that a successful call returns a block of the requested size, whose cells
    hold unspecified values; the call may fail.  [fresh n] is the outcome for a
    block of [n] cells. *)

Class Allocator (A : Type) := {
  fresh : Z -> option (list A);
  fresh_length : forall n l, fresh n = Some l -> Z.of_nat (length l) = Z.max 0 n
}.

Section Allocation.
Context {A : Type} {alloc : Allocator A}.

(** [uprv_malloc] (common/cmemory.c): a block of zero bytes always succeeds. *)
Definition uprv_malloc (n : Z) : option (list A) :=
  if 0 <? n then fresh n else Some [].

(** [uprv_realloc] (common/cmemory.c): the old contents are kept up to the new
    size. *)
Definition uprv_realloc (old : list A) (n : Z) : option (list A) :=
  if 0 <? n then
    l ← fresh n; Some (take (Z.to_nat n) old ++ drop (length old) l)
  else Some [].

Lemma uprv_malloc_length n l :
  uprv_malloc n = Some l -> Z.of_nat (length l) = Z.max 0 n.
Proof.
  unfold uprv_malloc. destruct (Z.ltb_spec 0 n).
  - apply fresh_length.
  - intros [= <-]. simpl. lia.
Qed.

Lemma uprv_realloc_length old n l :
  uprv_realloc old n = Some l -> Z.of_nat (length l) = Z.max 0 n.
Proof.
  unfold uprv_realloc. destruct (Z.ltb_spec 0 n); [|intros [= <-]; simpl; lia].
  destruct (fresh n) as [f|] eqn:Hf; [|done]. intros [= <-].
  apply fresh_length in Hf. rewrite length_app, length_take, length_drop. lia.
Qed.

Lemma uprv_realloc_take old n l k :
  uprv_realloc old n = Some l -> Z.of_nat k <= n -> (k <= length old)%nat ->
  take k l = take k old.
Proof.
  unfold uprv_realloc. destruct (Z.ltb_spec 0 n).
  - destruct (fresh n) as [f|]; [|done]. intros [= <-] ??.
    rewrite take_app_le by (rewrite length_take; lia).
    rewrite take_take. f_equal. lia.
  - intros [= <-] ??. by replace k with 0%nat by lia.
Qed.
End Allocation.

(** An allocator that never fails and clears its blocks: the instance the
    witnesses compute with. *)
Definition zero_allocator : Allocator Z.
Proof.
  refine {| fresh n := Some (replicate (Z.to_nat n) 0) |}.
  intros n l [= <-]. rewrite length_replicate. lia.
Defined.

(** An allocator that fails for blocks of more than [limit] cells. *)
Definition limited_allocator (limit : Z) : Allocator Z.
Proof.
  refine {| fresh n := if n <=? limit then Some (replicate (Z.to_nat n) 0) else None |}.
  intros n l. destruct (n <=? limit); [|done]. intros [= <-]. rewrite length_replicate. lia.
Defined.

(** ** Automation *)

(** Case analysis on the boolean comparisons and connectives of the goal. *)
Ltac zcase :=
  match goal with
  | |- context [ ?a <? ?b ] => destruct (Z.ltb_spec a b)
  | |- context [ ?a <=? ?b ] => destruct (Z.leb_spec a b)
  | |- context [ ?a =? ?b ] => destruct (Z.eqb_spec a b)
  | |- context [ ?a >? ?b ] => rewrite (Z.gtb_ltb a b)
  | |- context [ ?a >=? ?b ] => rewrite (Z.geb_leb a b)
  end.

Ltac zcases := repeat (zcase; try lia).

(** The same for a hypothesis. *)
Ltac zcase_in H :=
  match type of H with
  | context [ ?a <? ?b ] => destruct (Z.ltb_spec a b)
  | context [ ?a <=? ?b ] => destruct (Z.leb_spec a b)
  | context [ ?a =? ?b ] => destruct (Z.eqb_spec a b)
  | context [ ?a >? ?b ] => rewrite (Z.gtb_ltb a b) in H
  | context [ ?a >=? ?b ] => rewrite (Z.geb_leb a b) in H
  end.

Ltac zcases_in H := repeat (zcase_in H; try lia).

Create HintDb icu discriminated.
#[export] Hint Resolve int32_range uint8_range uint16_range : icu.
