(* ===== verification/Int32.v ===== *)
(** * Checked 32-bit arithmetic

    The calendar code computes with [int32_t] and relies on no sum or product
    leaving the type: signed overflow is undefined behaviour in C++.  A value
    of [I32] is the result of such an expression, [None] when an operation of
    it overflows (or divides by zero).  The theorems about a function that
    returns an [I32] therefore also show that it computes without overflow. *)
From S2P Require Import Prelude.
Local Open Scope Z_scope.

Definition I32 : Type := option Z.

Definition int : Z -> I32 := Some.
Coercion int : Z >-> I32.

Definition in_int32 (x : Z) : bool := (INT32_MIN <=? x) && (x <=? INT32_MAX).

(** The value of an expression whose mathematical result is [x]. *)
Definition checked (x : Z) : I32 := if in_int32 x then Some x else None.

(** Sequencing, with the bound expression elaborated first. *)
Definition obind {A B} (e : option A) (f : A -> option B) : option B :=
  match e with Some x => f x | None => None end.

Notation "'let!' x := e 'in' k" := (obind e (fun x => k))
  (at level 10, x name, k at level 200).
Notation "'let!' ' p := e 'in' k" := (obind e (fun x => match x with p => k end))
  (at level 10, p strict pattern, k at level 200).

Definition iadd (x y : I32) : I32 := let! a := x in let! b := y in checked (a + b).
Definition isub (x y : I32) : I32 := let! a := x in let! b := y in checked (a - b).
Definition imul (x y : I32) : I32 := let! a := x in let! b := y in checked (a * b).

(** [/] and [%] of C++ truncate toward zero. *)
Definition idiv (x y : I32) : I32 :=
  let! a := x in let! b := y in if b =? 0 then None else checked (Z.quot a b).
Definition imod (x y : I32) : I32 :=
  let! a := x in let! b := y in
  if (b =? 0) || negb (in_int32 (Z.quot a b)) then None else Some (Z.rem a b).

Infix "+!" := iadd (at level 50, left associativity).
Infix "-!" := isub (at level 50, left associativity).
Infix "*!" := imul (at level 40, left associativity).
Infix "/!" := idiv (at level 40, left associativity).
Infix "%!" := imod (at level 40, left associativity).

Lemma obind_Some {A B} (e : option A) (f : A -> option B) y :
  obind e f = Some y <-> exists x, e = Some x /\ f x = Some y.
Proof. destruct e; cbn; [|split; [done|by intros (?&?&?)]]. split; [eauto|by intros (x & [= <-] & ?)]. Qed.

Lemma in_int32_spec x : in_int32 x = true <-> is_int32 x.
Proof. unfold in_int32, is_int32. rewrite andb_true_iff, !Z.leb_le. done. Qed.

Lemma checked_ok x : is_int32 x -> checked x = Some x.
Proof. intros H%in_int32_spec. unfold checked. by rewrite H. Qed.

Lemma checked_Some x y : checked x = Some y -> y = x /\ is_int32 x.
Proof.
  unfold checked. destruct (in_int32 x) eqn:E; [|done]. intros [= <-].
  by apply in_int32_spec in E.
Qed.

Lemma iadd_ok a b : is_int32 (a + b) -> iadd (Some a) (Some b) = Some (a + b).
Proof. apply checked_ok. Qed.
Lemma isub_ok a b : is_int32 (a - b) -> isub (Some a) (Some b) = Some (a - b).
Proof. apply checked_ok. Qed.
Lemma imul_ok a b : is_int32 (a * b) -> imul (Some a) (Some b) = Some (a * b).
Proof. apply checked_ok. Qed.

Lemma quot_int32 a b : 0 < b -> is_int32 a -> is_int32 (Z.quot a b).
Proof.
  unfold is_int32, INT32_MIN, INT32_MAX. intros Hb Ha.
  pose proof (Z.quot_rem' a b). pose proof (Z.rem_sign_mul a b).
  pose proof (Z.rem_bound_abs a b). nia.
Qed.

(** Division of an [int32_t] by a positive constant. *)
Lemma idiv_ok a b : 0 < b -> is_int32 a -> idiv (Some a) (Some b) = Some (Z.quot a b).
Proof.
  intros Hb Ha. cbn. rewrite (proj2 (Z.eqb_neq b 0)) by lia. by apply checked_ok, quot_int32.
Qed.
Lemma imod_ok a b : 0 < b -> is_int32 a -> imod (Some a) (Some b) = Some (Z.rem a b).
Proof.
  intros Hb Ha. cbn. rewrite (proj2 (Z.eqb_neq b 0)) by lia.
  rewrite (proj2 (in_int32_spec _)); [done|by apply quot_int32].
Qed.

(** Where the operands are not negative, division is the euclidean one. *)
Lemma idiv_nonneg a b : 0 < b -> 0 <= a <= INT32_MAX -> idiv (Some a) (Some b) = Some (a / b).
Proof.
  intros. rewrite idiv_ok by (unfold is_int32, INT32_MIN; lia). by rewrite Z.quot_div_nonneg by lia.
Qed.
Lemma imod_nonneg a b : 0 < b -> 0 <= a <= INT32_MAX -> imod (Some a) (Some b) = Some (a mod b).
Proof.
  intros. rewrite imod_ok by (unfold is_int32, INT32_MIN; lia). by rewrite Z.rem_mod_nonneg by lia.
Qed.

(** [ibound] proves that a value stays in the type; [icalc] evaluates an
    expression whose operands are known, innermost operation first. *)
Ltac ibound :=
  unfold is_int32, INT32_MIN, INT32_MAX in *;
  first [lia | Z.to_euclidean_division_equations; lia].

Ltac istep :=
  match goal with
  | |- context [iadd (Some ?a) (Some ?b)] => rewrite (iadd_ok a b) by ibound
  | |- context [isub (Some ?a) (Some ?b)] => rewrite (isub_ok a b) by ibound
  | |- context [imul (Some ?a) (Some ?b)] => rewrite (imul_ok a b) by ibound
  | |- context [idiv (Some ?a) (Some ?b)] => rewrite (idiv_nonneg a b) by ibound
  | |- context [imod (Some ?a) (Some ?b)] => rewrite (imod_nonneg a b) by ibound
  | |- context [idiv (Some ?a) (Some ?b)] => rewrite (idiv_ok a b) by ibound
  | |- context [imod (Some ?a) (Some ?b)] => rewrite (imod_ok a b) by ibound
  | |- context [obind (Some ?x) ?f] => change (obind (Some x) f) with (f x); cbv beta iota
  end.

Ltac icalc := unfold int in *; repeat istep.

(** The difference of two days, where it is small. *)
Lemma isub_small a b k : a - b = k -> 0 <= k <= 400 -> Some a -! Some b = Some k.
Proof. intros <- ?. apply isub_ok. ibound. Qed.
