(* ===== verification/UVectr32.v ===== *)
(** * UVector32: the growable array of 32-bit integers
    (src/common/uvectr32.cpp, src/common/uvectr32.h)

    The state keeps the physical array: [elements] is the list of the [capacity]
    cells, of which the first [count] hold the vector ([contents]).  Element
    moves are the loops of the source over the cells, an access outside the
    array gives [None]; the allocator is a parameter. *)
From S2P Require Import Prelude.

Local Open Scope Z_scope.

Module UVector32.

Record UVector32 := mk {
  count : Z;
  capacity : Z;
  maxCapacity : Z;
  elements : list Z
}.

Definition DEFAULT_CAPACITY : Z := 8.

(** [(int32_t)(INT32_MAX / sizeof(int32_t))] *)
Definition MAX_CELLS : Z := INT32_MAX / 4.

Definition set_count (v : UVector32) (n : Z) : UVector32 :=
  mk n v.(capacity) v.(maxCapacity) v.(elements).

Definition set_elements (v : UVector32) (e : list Z) : UVector32 :=
  mk v.(count) v.(capacity) v.(maxCapacity) e.

(** The vector as its users see it. *)
Definition contents (v : UVector32) : list Z := take (Z.to_nat v.(count)) v.(elements).

Section Operations.
Context {alloc : Allocator Z}.

(** ** Construction *)

Definition _init (v : UVector32) (initialCapacity : Z) (status : UErrorCode) : UVector32 * UErrorCode :=
  let initialCapacity := if initialCapacity <? 1 then DEFAULT_CAPACITY else initialCapacity in
  let initialCapacity :=
    if (0 <? v.(maxCapacity)) && (v.(maxCapacity) <? initialCapacity)
    then v.(maxCapacity) else initialCapacity in
  let initialCapacity :=
    if MAX_CELLS <? initialCapacity
    then Z.min DEFAULT_CAPACITY v.(maxCapacity) else initialCapacity in
  match uprv_malloc initialCapacity with
  | None => (mk v.(count) v.(capacity) v.(maxCapacity) [], U_MEMORY_ALLOCATION_ERROR)
  | Some e => (mk v.(count) initialCapacity v.(maxCapacity) e, status)
  end.

Definition new (initialCapacity : Z) (status : UErrorCode) : UVector32 * UErrorCode :=
  _init (mk 0 0 0 []) initialCapacity status.

Definition new_default (status : UErrorCode) : UVector32 * UErrorCode :=
  _init (mk 0 0 0 []) DEFAULT_CAPACITY status.

(** ** Capacity *)

Definition expandCapacity (v : UVector32) (minimumCapacity : Z) (status : UErrorCode)
  : bool * UVector32 * UErrorCode :=
  if minimumCapacity <? 0 then (false, v, U_ILLEGAL_ARGUMENT_ERROR)
  else if v.(capacity) >=? minimumCapacity then (true, v, status)
  else if (0 <? v.(maxCapacity)) && (minimumCapacity >? v.(maxCapacity))
  then (false, v, U_BUFFER_OVERFLOW_ERROR)
  else if v.(capacity) >? (INT32_MAX - 1) / 2 then (false, v, U_ILLEGAL_ARGUMENT_ERROR)
  else
    let newCap := v.(capacity) * 2 in
    let newCap := if newCap <? minimumCapacity then minimumCapacity else newCap in
    let newCap :=
      if (0 <? v.(maxCapacity)) && (newCap >? v.(maxCapacity)) then v.(maxCapacity) else newCap in
    if newCap >? MAX_CELLS then (false, v, U_ILLEGAL_ARGUMENT_ERROR)
    else
      match uprv_realloc v.(elements) newCap with
      | None => (false, v, U_MEMORY_ALLOCATION_ERROR)
      | Some newElems => (true, mk v.(count) newCap v.(maxCapacity) newElems, status)
      end.

Definition ensureCapacity (v : UVector32) (minimumCapacity : Z) (status : UErrorCode)
  : bool * UVector32 * UErrorCode :=
  if (minimumCapacity >=? 0) && (v.(capacity) >=? minimumCapacity)
  then (true, v, status)
  else expandCapacity v minimumCapacity status.

Definition setMaxCapacity (v : UVector32) (limit : Z) : UVector32 :=
  let limit := if limit <? 0 then 0 else limit in
  if limit >? MAX_CELLS then v
  else
    let v := mk v.(count) v.(capacity) limit v.(elements) in
    if (v.(capacity) <=? v.(maxCapacity)) || (v.(maxCapacity) =? 0) then v
    else
      match uprv_realloc v.(elements) v.(maxCapacity) with
      | None => v
      | Some newElems =>
          let v := mk v.(count) v.(maxCapacity) v.(maxCapacity) newElems in
          if v.(count) >? v.(capacity) then set_count v v.(capacity) else v
      end.

(** [for (i = i; i < newSize; ++i) elements[i] = 0;] *)
Fixpoint clear_loop (fuel : nat) (e : list Z) (i newSize : Z) : option (list Z) :=
  if i <? newSize then
    match fuel with
    | O => None
    | S fuel' => e' ← aset e i 0; clear_loop fuel' e' (i + 1) newSize
    end
  else Some e.

Definition setSize (v : UVector32) (newSize : Z) : option UVector32 :=
  if newSize <? 0 then Some v
  else if newSize >? v.(count) then
    match ensureCapacity v newSize U_ZERO_ERROR with
    | (false, v, _) => Some v
    | (true, v, _) =>
        e ← clear_loop (Z.to_nat (newSize - v.(count))) v.(elements) v.(count) newSize;
        Some (set_count (set_elements v e) newSize)
    end
  else Some (set_count v newSize).

(** ** Element access *)

Definition size (v : UVector32) : Z := v.(count).
Definition isEmpty (v : UVector32) : bool := v.(count) =? 0.

Definition elementAti (v : UVector32) (index : Z) : option Z :=
  if (index >=? 0) && (v.(count) >? 0) && (v.(count) - index >? 0)
  then aget v.(elements) index else Some 0.

Definition lastElementi (v : UVector32) : option Z := elementAti v (v.(count) - 1).

Definition setElementAt (v : UVector32) (elem index : Z) : option UVector32 :=
  if (0 <=? index) && (index <? v.(count)) then
    e ← aset v.(elements) index elem; Some (set_elements v e)
  else Some v.

Fixpoint indexOf_loop (fuel : nat) (v : UVector32) (key i : Z) : option Z :=
  if i <? v.(count) then
    match fuel with
    | O => None
    | S fuel' =>
        x ← aget v.(elements) i;
        if key =? x then Some i else indexOf_loop fuel' v key (i + 1)
    end
  else Some (-1).

Definition indexOf (v : UVector32) (key startIndex : Z) : option Z :=
  indexOf_loop (Z.to_nat (v.(count) - startIndex)) v key startIndex.

Definition contains (v : UVector32) (obj : Z) : option bool :=
  i ← indexOf v obj 0; Some (i >=? 0).

Fixpoint equals_loop (fuel : nat) (v other : UVector32) (i : Z) : option bool :=
  if i <? v.(count) then
    match fuel with
    | O => None
    | S fuel' =>
        x ← aget v.(elements) i;
        y ← aget other.(elements) i;
        if negb (x =? y) then Some false else equals_loop fuel' v other (i + 1)
    end
  else Some true.

Definition equals (v other : UVector32) : option bool :=
  if negb (v.(count) =? other.(count)) then Some false
  else equals_loop (Z.to_nat v.(count)) v other 0.

(** [operator==] has the same text as [equals]. *)
Definition operator_eq (v other : UVector32) : option bool :=
  if negb (v.(count) =? other.(count)) then Some false
  else equals_loop (Z.to_nat v.(count)) v other 0.

(** ** Insertion and removal *)

Definition addElement (v : UVector32) (elem : Z) (status : UErrorCode) : option (UVector32 * UErrorCode) :=
  match ensureCapacity v (int32 (v.(count) + 1)) status with
  | (false, v, status) => Some (v, status)
  | (true, v, status) =>
      e ← aset v.(elements) v.(count) elem;
      Some (set_count (set_elements v e) (v.(count) + 1), status)
  end.

Definition insertElementAt (v : UVector32) (elem index : Z) (status : UErrorCode)
  : option (UVector32 * UErrorCode) :=
  if (0 <=? index) && (index <=? v.(count)) then
    match ensureCapacity v (int32 (v.(count) + 1)) status with
    | (false, v, status) => Some (v, status)
    | (true, v, status) =>
        e ← shift_up v.(elements) v.(count) index;
        e ← aset e index elem;
        Some (set_count (set_elements v e) (v.(count) + 1), status)
    end
  else Some (v, status).

Definition removeElementAt (v : UVector32) (index : Z) : option UVector32 :=
  if index >=? 0 then
    e ← shift_down v.(elements) index v.(count);
    Some (set_count (set_elements v e) (v.(count) - 1))
  else Some v.

Definition removeAllElements (v : UVector32) : UVector32 := set_count v 0.

Fixpoint copy_loop (fuel : nat) (e : list Z) (other : UVector32) (i : Z) : option (list Z) :=
  if i <? other.(count) then
    match fuel with
    | O => None
    | S fuel' =>
        x ← aget other.(elements) i;
        e' ← aset e i x;
        copy_loop fuel' e' other (i + 1)
    end
  else Some e.

Definition assign (v other : UVector32) (ec : UErrorCode) : option (UVector32 * UErrorCode) :=
  match ensureCapacity v other.(count) ec with
  | (false, v, ec) => Some (v, ec)
  | (true, v, ec) =>
      v ← setSize v other.(count);
      e ← copy_loop (Z.to_nat other.(count)) v.(elements) other 0;
      Some (set_elements v e, ec)
  end.

(** ** Operations on two vectors

    The argument of [removeAll] and [retainAll] is a reference: it may be the
    vector itself, and then the loop sees its own removals. *)

Inductive vec_ref := Self | Other (v : UVector32).

Definition deref (this : UVector32) (r : vec_ref) : UVector32 :=
  match r with Self => this | Other v => v end.

Fixpoint containsAll_loop (fuel : nat) (v other : UVector32) (i : Z) : option bool :=
  if i <? other.(count) then
    match fuel with
    | O => None
    | S fuel' =>
        x ← aget other.(elements) i;
        j ← indexOf v x 0;
        if j <? 0 then Some false else containsAll_loop fuel' v other (i + 1)
    end
  else Some true.

Definition containsAll (v other : UVector32) : option bool :=
  containsAll_loop (Z.to_nat other.(count)) v other 0.

Fixpoint containsNone_loop (fuel : nat) (v other : UVector32) (i : Z) : option bool :=
  if i <? other.(count) then
    match fuel with
    | O => None
    | S fuel' =>
        x ← aget other.(elements) i;
        j ← indexOf v x 0;
        if j >=? 0 then Some false else containsNone_loop fuel' v other (i + 1)
    end
  else Some true.

Definition containsNone (v other : UVector32) : option bool :=
  containsNone_loop (Z.to_nat other.(count)) v other 0.

Fixpoint removeAll_loop (fuel : nat) (v : UVector32) (other : vec_ref) (i : Z) (changed : bool)
  : option (UVector32 * bool) :=
  if i <? (deref v other).(count) then
    match fuel with
    | O => None
    | S fuel' =>
        x ← aget (deref v other).(elements) i;
        j ← indexOf v x 0;
        if j >=? 0 then
          v' ← removeElementAt v j; removeAll_loop fuel' v' other (i + 1) true
        else removeAll_loop fuel' v other (i + 1) changed
    end
  else Some (v, changed).

Definition removeAll (v : UVector32) (other : vec_ref) : option (UVector32 * bool) :=
  removeAll_loop (Z.to_nat (deref v other).(count)) v other 0 false.

Fixpoint retainAll_loop (fuel : nat) (v : UVector32) (other : vec_ref) (j : Z) (changed : bool)
  : option (UVector32 * bool) :=
  if j >=? 0 then
    match fuel with
    | O => None
    | S fuel' =>
        x ← aget v.(elements) j;
        i ← indexOf (deref v other) x 0;
        if i <? 0 then
          v' ← removeElementAt v j; retainAll_loop fuel' v' other (j - 1) true
        else retainAll_loop fuel' v other (j - 1) changed
    end
  else Some (v, changed).

Definition retainAll (v : UVector32) (other : vec_ref) : option (UVector32 * bool) :=
  retainAll_loop (Z.to_nat v.(count)) v other (v.(count) - 1) false.

(** ** Sorted insertion *)

Fixpoint sortedInsert_search (fuel : nat) (e : list Z) (tok min max : Z) : option Z :=
  if negb (min =? max) then
    match fuel with
    | O => None
    | S fuel' =>
        let probe := Z.quot (min + max) 2 in
        x ← aget e probe;
        if x >? tok then sortedInsert_search fuel' e tok min probe
        else sortedInsert_search fuel' e tok (probe + 1) max
    end
  else Some min.

Definition sortedInsert (v : UVector32) (tok : Z) (ec : UErrorCode) : option (UVector32 * UErrorCode) :=
  min ← sortedInsert_search (Z.to_nat v.(count)) v.(elements) tok 0 v.(count);
  match ensureCapacity v (int32 (v.(count) + 1)) ec with
  | (false, v, ec) => Some (v, ec)
  | (true, v, ec) =>
      e ← shift_up v.(elements) v.(count) min;
      e ← aset e min tok;
      Some (set_count (set_elements v e) (v.(count) + 1), ec)
  end.

(** ** Stack operations; a returned pointer is its offset in [elements] *)

Definition push (v : UVector32) (i : Z) (status : UErrorCode) : option (Z * UVector32 * UErrorCode) :=
  '(v, status) ← addElement v i status; Some (i, v, status).

Definition popi (v : UVector32) : option (Z * UVector32) :=
  if v.(count) >? 0 then
    let v := set_count v (v.(count) - 1) in
    result ← aget v.(elements) v.(count); Some (result, v)
  else Some (0, v).

Definition peeki (v : UVector32) : option Z := lastElementi v.

Definition reserveBlock (v : UVector32) (size : Z) (status : UErrorCode)
  : option Z * UVector32 * UErrorCode :=
  match ensureCapacity v (int32 (v.(count) + size)) status with
  | (false, v, status) => (None, v, status)
  | (true, v, status) => (Some v.(count), set_count v (v.(count) + size), status)
  end.

Definition popFrame (v : UVector32) (size : Z) : Z * UVector32 :=
  let v := set_count v (v.(count) - size) in
  let v := if v.(count) <? 0 then set_count v 0 else v in
  (v.(count) - size, v).

End Operations.

(** ** Well-formed vectors *)

Record wf (v : UVector32) : Prop := {
  wf_count : 0 <= v.(count) <= v.(capacity);
  wf_length : Z.of_nat (length v.(elements)) = v.(capacity);
  wf_capacity : v.(capacity) <= MAX_CELLS;
  wf_maxCapacity : 0 <= v.(maxCapacity) <= MAX_CELLS
}.

Ltac wf_lia :=
  repeat match goal with H : wf _ |- _ => destruct H end;
  unfold MAX_CELLS, INT32_MAX, DEFAULT_CAPACITY in *; simpl in *;
  try Z.to_euclidean_division_equations; lia.

Lemma v32_int32_succ_count v : wf v -> int32 (count v + 1) = count v + 1.
Proof. intros. apply int32_id. unfold is_int32, INT32_MIN. wf_lia. Qed.

Lemma v32_length_contents v : wf v -> length (contents v) = Z.to_nat (count v).
Proof. intros []. unfold contents. rewrite length_take. lia. Qed.

Lemma contents_lookup v (n : nat) : Z.of_nat n < count v -> contents v !! n = elements v !! n.
Proof. intros. unfold contents. apply lookup_take_lt. lia. Qed.

Lemma v32_aget_contents v i :
  0 <= i < count v -> aget (elements v) i = contents v !! Z.to_nat i.
Proof.
  intros. unfold aget. rewrite (proj2 (Z.leb_le _ _)), contents_lookup by lia. done.
Qed.

(** Two vectors that hold the same elements. *)
Definition same (v v' : UVector32) : Prop :=
  count v' = count v /\ contents v' = contents v.

Section Theorems.
Context {alloc : Allocator Z}.

Lemma new_wf initialCapacity v st :
  new initialCapacity U_ZERO_ERROR = (v, st) -> U_SUCCESS st = true ->
  wf v /\ contents v = [].
Proof.
  unfold new, _init. cbn [maxCapacity count].
  rewrite Z.ltb_irrefl. cbn [andb].
  match goal with |- context [uprv_malloc ?n] => set (n0 := n) end.
  destruct (uprv_malloc n0) as [e|] eqn:He; intros [= <- <-] Hst; [|done].
  apply uprv_malloc_length in He. split; [|done].
  subst n0. revert He. zcases; intros He; constructor; wf_lia.
Qed.

(** The outcome of the two capacity functions: on success the vector has room
    and is otherwise unchanged, on failure it is unchanged and the status says so. *)
Lemma expandCapacity_spec v n st :
  wf v ->
  match expandCapacity v n st with
  | (true, v', st') =>
      0 <= n <= capacity v' /\ wf v' /\ same v v' /\ maxCapacity v' = maxCapacity v /\ st' = st
  | (false, v', st') => v' = v /\ U_FAILURE st' = true
  end.
Proof.
  intros Hwf. unfold expandCapacity. zcases; cbn [andb]; zcases; cbn; try done.
  all: match goal with |- context [uprv_realloc ?e ?c] =>
         destruct (uprv_realloc e c) as [e'|] eqn:He; [|done] end.
  all: pose proof (uprv_realloc_length _ _ _ He).
  all: split; [wf_lia|]; split; [constructor; wf_lia|]; split; [|done].
  all: split; [done|]; unfold contents; cbn.
  all: eapply uprv_realloc_take; [exact He| |]; wf_lia.
Qed.

Lemma v32_ensureCapacity_spec v n st :
  wf v ->
  match ensureCapacity v n st with
  | (true, v', st') =>
      0 <= n <= capacity v' /\ wf v' /\ same v v' /\ maxCapacity v' = maxCapacity v /\ st' = st
  | (false, v', st') => v' = v /\ U_FAILURE st' = true
  end.
Proof.
  intros Hwf. unfold ensureCapacity.
  destruct ((n >=? 0) && (capacity v >=? n)) eqn:Hn; [|by apply expandCapacity_spec].
  apply andb_prop in Hn as [??]. split_and!; try done; lia.
Qed.

(** Changing the count and the cells of a vector that has room for it. *)
Lemma v32_wf_update v n e :
  wf v -> 0 <= n <= capacity v -> length e = length (elements v) ->
  wf (set_count (set_elements v e) n).
Proof. intros. constructor; wf_lia. Qed.

(** [(x ← ensureCapacity ...; body)]: the two outcomes of the insertions. *)
Inductive insert_result (v v' : UVector32) (st st' : UErrorCode) (c : list Z) : Prop :=
  | insert_done : st' = st -> contents v' = c -> insert_result v v' st st' c
  | insert_no_room : v' = v -> U_FAILURE st' = true -> insert_result v v' st st' c.

(** Opening a gap at [index] and storing [elem] there. *)
Definition insert_cells (v : UVector32) (elem index : Z) : option UVector32 :=
  e ← shift_up v.(elements) v.(count) index;
  e ← aset e index elem;
  Some (set_count (set_elements v e) (v.(count) + 1)).

Lemma insert_cells_spec v elem index :
  wf v -> count v + 1 <= capacity v -> 0 <= index <= count v ->
  exists v', insert_cells v elem index = Some v' /\ wf v' /\
    contents v' = insert_at (Z.to_nat index) elem (contents v).
Proof.
  intros Hwf Hroom Hi. unfold insert_cells.
  destruct (shift_up_insert (elements v) (count v) index elem)
    as (e0 & e & -> & He & Hlen & Htake); [lia|wf_lia|].
  cbn [mbind option_bind]. rewrite He. cbn [mbind option_bind].
  eexists. split; [done|]. split; [apply v32_wf_update; [done|wf_lia|done]|exact Htake].
Qed.

Lemma v32_insertElementAt_spec v elem index st :
  wf v -> 0 <= index <= count v ->
  exists v' st', insertElementAt v elem index st = Some (v', st') /\ wf v' /\
    insert_result v v' st st' (insert_at (Z.to_nat index) elem (contents v)).
Proof.
  intros Hwf Hi. unfold insertElementAt.
  rewrite (proj2 (Z.leb_le _ _)), (proj2 (Z.leb_le _ _)), v32_int32_succ_count by (done || lia).
  cbn [andb]. pose proof (v32_ensureCapacity_spec v (count v + 1) st Hwf) as Hcap.
  destruct (ensureCapacity _ _ _) as [[[] v1] st1].
  - destruct Hcap as (Hcap & Hwf1 & [Hc Hcont] & _ & ->).
    destruct (insert_cells_spec v1 elem index) as (v' & Hv' & Hwf' & Hct'); [done|lia|lia|].
    unfold insert_cells in Hv'.
    destruct (shift_up _ _ _) as [e0|]; [|done]. cbn [mbind option_bind] in Hv' |- *.
    destruct (aset e0 _ _) as [e|]; [|done]. simplify_eq/=.
    eexists _, st. split; [done|]. split; [done|].
    apply insert_done; [done|]. by rewrite Hct', Hcont.
  - destruct Hcap as [-> Hf]. eexists _, _. split; [done|]. split; [done|].
    by apply insert_no_room.
Qed.

Lemma insertElementAt_out_of_range v elem index st :
  ~ (0 <= index <= count v) -> insertElementAt v elem index st = Some (v, st).
Proof. intros. unfold insertElementAt. zcases; done. Qed.

Lemma addElement_insert v elem st :
  wf v -> exists v' st', addElement v elem st = Some (v', st') /\ wf v' /\
    insert_result v v' st st' (contents v ++ [elem]).
Proof.
  intros Hwf. unfold addElement. rewrite v32_int32_succ_count by done.
  pose proof (v32_ensureCapacity_spec v (count v + 1) st Hwf) as Hcap.
  destruct (ensureCapacity _ _ _) as [[[] v1] st1].
  - destruct Hcap as (Hcap & Hwf1 & [Hc Hcont] & _ & ->).
    unfold aset. rewrite (proj2 (Z.leb_le _ _)), (proj2 (Z.ltb_lt _ _)) by wf_lia.
    cbn. eexists _, st. split; [done|]. split; [apply v32_wf_update; [done|wf_lia|len]|].
    apply insert_done; [done|]. unfold contents at 1; cbn.
    replace (Z.to_nat (count v1 + 1)) with (S (Z.to_nat (count v1))) by wf_lia.
    erewrite take_S_r by (apply list_lookup_insert_eq; wf_lia).
    rewrite take_insert_ge by lia. by rewrite <- Hcont.
  - destruct Hcap as [-> Hf]. eexists _, _. split; [done|]. split; [done|].
    by apply insert_no_room.
Qed.

Lemma v32_removeElementAt_spec v index :
  wf v -> 0 <= index < count v ->
  exists v', removeElementAt v index = Some v' /\ wf v' /\ count v' = count v - 1 /\
    contents v' = remove_at (Z.to_nat index) (contents v).
Proof.
  intros Hwf Hi. unfold removeElementAt.
  rewrite Z.geb_leb, (proj2 (Z.leb_le _ _)) by lia.
  destruct (shift_down_remove (elements v) (count v) index)
    as (e & -> & Hlen & Htake); [lia|wf_lia|].
  cbn [mbind option_bind]. eexists. split; [done|].
  split; [apply v32_wf_update; [done|wf_lia|done]|]. split; [done|exact Htake].
Qed.

(** An index at or past the end is not rejected by [removeElementAt]: the last
    element goes, and an empty vector gets the count -1. *)
Theorem removeElementAt_past_end v index :
  wf v -> count v <= index ->
  removeElementAt v index = Some (set_count v (count v - 1)).
Proof.
  intros Hwf Hi. unfold removeElementAt, shift_down.
  rewrite Z.geb_leb, (proj2 (Z.leb_le _ _)) by wf_lia.
  replace (Z.to_nat (count v - 1 - index)) with 0%nat by lia. cbn.
  rewrite (proj2 (Z.ltb_ge _ _)) by lia. done.
Qed.

(** ** Searching and comparing *)

Lemma v32_indexOf_loop_spec v key : wf v -> forall n i,
  0 <= i -> Z.of_nat n = count v - i ->
  indexOf_loop n v key i =
    Some (let k := index_of key (drop (Z.to_nat i) (contents v)) in
          if k <? 0 then -1 else i + k).
Proof.
  intros Hwf n. induction n as [|n IH]; intros i Hi Hn; cbn [indexOf_loop].
  - rewrite (proj2 (Z.ltb_ge _ _)) by lia.
    by rewrite drop_ge by (rewrite v32_length_contents by done; lia).
  - rewrite (proj2 (Z.ltb_lt _ _)) by lia. rewrite v32_aget_contents by lia.
    destruct (lookup_lt_is_Some_2 (contents v) (Z.to_nat i)) as [x Hx].
    { rewrite v32_length_contents by done. lia. }
    rewrite Hx. cbn [mbind option_bind]. rewrite (drop_S _ x), index_of_cons by done.
    rewrite IH by lia. replace (Z.to_nat (i + 1)) with (S (Z.to_nat i)) by lia.
    destruct (Z.eqb_spec key x); destruct (decide (key = x)); try done.
    + f_equal. cbn. lia.
    + pose proof (index_of_ge key (drop (S (Z.to_nat i)) (contents v))).
      cbn zeta. f_equal. destruct (index_of key _ <? 0) eqn:Hlt; [done|].
      rewrite (proj2 (Z.ltb_ge _ _)); lia.
Qed.

Lemma v32_indexOf_spec v key :
  wf v -> indexOf v key 0 = Some (index_of key (contents v)).
Proof.
  intros Hwf. unfold indexOf. rewrite v32_indexOf_loop_spec by (done || wf_lia).
  cbn zeta. change (Z.to_nat 0) with 0%nat. rewrite drop_0.
  pose proof (index_of_ge key (contents v)). f_equal.
  destruct (Z.ltb_spec (index_of key (contents v)) 0); lia.
Qed.

Lemma equals_loop_spec v o : wf v -> wf o -> count o = count v -> forall n i,
  0 <= i -> Z.of_nat n = count v - i ->
  equals_loop n v o i =
    Some (bool_decide (drop (Z.to_nat i) (contents v) = drop (Z.to_nat i) (contents o))).
Proof.
  intros Hv Ho Hc n. induction n as [|n IH]; intros i Hi Hn; cbn [equals_loop].
  - rewrite (proj2 (Z.ltb_ge _ _)) by lia.
    by rewrite !drop_ge by (rewrite v32_length_contents by done; lia).
  - rewrite (proj2 (Z.ltb_lt _ _)) by lia. rewrite !v32_aget_contents by lia.
    destruct (lookup_lt_is_Some_2 (contents v) (Z.to_nat i)) as [x Hx].
    { rewrite v32_length_contents by done. lia. }
    destruct (lookup_lt_is_Some_2 (contents o) (Z.to_nat i)) as [y Hy].
    { rewrite v32_length_contents by done. lia. }
    rewrite Hx, Hy. cbn [mbind option_bind].
    rewrite (drop_S (contents v) x _ Hx), (drop_S (contents o) y _ Hy), IH by lia.
    replace (Z.to_nat (i + 1)) with (S (Z.to_nat i)) by lia.
    destruct (Z.eqb_spec x y) as [->|Hne]; cbn [negb]; f_equal.
    + apply bool_decide_ext. split; congruence.
    + symmetry. apply bool_decide_eq_false_2. congruence.
Qed.

Lemma equals_spec v o :
  wf v -> wf o -> equals v o = Some (bool_decide (contents v = contents o)).
Proof.
  intros Hv Ho. unfold equals. destruct (Z.eqb_spec (count v) (count o)) as [Hc|Hne]; cbn [negb].
  - rewrite equals_loop_spec by (done || wf_lia). done.
  - f_equal. symmetry. apply bool_decide_eq_false_2. intros Heq.
    apply (f_equal length) in Heq. rewrite !v32_length_contents in Heq by done. wf_lia.
Qed.

(** ** Set-like operations *)

Lemma v32_removeAll_loop_spec o : wf o -> forall n v i ch,
  wf v -> 0 <= i -> Z.of_nat n = count o - i ->
  exists v' ch', removeAll_loop n v (Other o) i ch = Some (v', ch') /\ wf v' /\
    contents v' = foldl (fun l x => remove_first x l) (contents v) (drop (Z.to_nat i) (contents o)).
Proof.
  intros Ho n. induction n as [|n IH]; intros v i ch Hv Hi Hn; cbn [removeAll_loop deref].
  - rewrite (proj2 (Z.ltb_ge _ _)), drop_ge by (rewrite ?v32_length_contents; done || lia).
    by eexists _, _.
  - rewrite (proj2 (Z.ltb_lt _ _)), v32_aget_contents by lia.
    destruct (lookup_lt_is_Some_2 (contents o) (Z.to_nat i)) as [x Hx].
    { rewrite v32_length_contents by done. lia. }
    rewrite Hx, (drop_S (contents o) x _ Hx). cbn [mbind option_bind foldl].
    replace (S (Z.to_nat i)) with (Z.to_nat (i + 1)) by lia.
    rewrite v32_indexOf_spec by done. cbn [mbind option_bind].
    rewrite remove_first_index_of, Z.geb_leb.
    pose proof (index_of_ge x (contents v)) as Hge. rewrite v32_length_contents in Hge by done.
    destruct (Z.leb_spec 0 (index_of x (contents v))).
    + destruct (v32_removeElementAt_spec v (index_of x (contents v)))
        as (v1 & -> & Hv1 & _ & Hc1); [done|wf_lia|]. cbn [mbind option_bind].
      rewrite (proj2 (Z.ltb_ge _ _)), <- Hc1 by lia. apply IH; [done|lia|lia].
    + rewrite (proj2 (Z.ltb_lt _ _)) by lia. apply IH; [done|lia|lia].
Qed.

Lemma removeAll_fold v o :
  wf v -> wf o ->
  exists v' ch, removeAll v (Other o) = Some (v', ch) /\ wf v' /\
    contents v' = foldl (fun l x => remove_first x l) (contents v) (contents o).
Proof. intros Hv Ho. apply v32_removeAll_loop_spec; [done|done|lia|wf_lia]. Qed.

Lemma v32_retainAll_loop_spec o : wf o -> forall n v j ch,
  wf v -> Z.of_nat n = j + 1 -> j < count v ->
  exists v' ch', retainAll_loop n v (Other o) j ch = Some (v', ch') /\ wf v' /\
    contents v' = filter (fun x => x ∈ contents o) (take n (contents v)) ++ drop n (contents v).
Proof.
  intros Ho n. induction n as [|n IH]; intros v j ch Hv Hn Hj; cbn [retainAll_loop deref].
  - rewrite Z.geb_leb, (proj2 (Z.leb_gt _ _)) by lia. by eexists _, _.
  - rewrite Z.geb_leb, (proj2 (Z.leb_le _ _)), v32_aget_contents by lia.
    replace (Z.to_nat j) with n by lia.
    destruct (lookup_lt_is_Some_2 (contents v) n) as [x Hx].
    { rewrite v32_length_contents by done. lia. }
    rewrite Hx, (take_S_r _ _ _ Hx), filter_app. cbn [mbind option_bind].
    rewrite v32_indexOf_spec by done. cbn [mbind option_bind].
    destruct (Z.ltb_spec (index_of x (contents o)) 0) as [Hlt|Hge].
    + destruct (v32_removeElementAt_spec v j) as (v1 & -> & Hv1 & Hcnt & Hc1); [done|lia|].
      cbn [mbind option_bind].
      destruct (IH v1 (j - 1) true) as (v' & ch' & Heq & Hwf & Hc); [done|lia|lia|].
      exists v', ch'. split; [done|]. split; [done|]. rewrite Hc, Hc1.
      rewrite (filter_cons_False _ x) by (by rewrite <- index_of_neg).
      replace (Z.to_nat j) with n by lia. unfold remove_at.
      assert (length (take n (contents v)) = n) by (rewrite length_take, v32_length_contents; lia || done).
      rewrite take_app_length', drop_app_length' by done. by rewrite app_nil_r.
    + destruct (IH v (j - 1) ch) as (v' & ch' & Heq & Hwf & Hc); [done|lia|lia|].
      exists v', ch'. split; [done|]. split; [done|]. rewrite Hc.
      rewrite (filter_cons_True _ x) by (by apply index_of_nonneg).
      by rewrite <- app_assoc, (drop_S _ _ _ Hx).
Qed.

Lemma retainAll_filter v o :
  wf v -> wf o ->
  exists v' ch, retainAll v (Other o) = Some (v', ch) /\ wf v' /\
    contents v' = filter (fun x => x ∈ contents o) (contents v).
Proof.
  intros Hv Ho. unfold retainAll.
  destruct (v32_retainAll_loop_spec o Ho (Z.to_nat (count v)) v (count v - 1) false)
    as (v' & ch & Heq & Hwf & Hc); [done|wf_lia|lia|].
  exists v', ch. split; [done|]. split; [done|].
  rewrite Hc, take_ge, drop_ge by (rewrite v32_length_contents by done; lia). by rewrite app_nil_r.
Qed.

(** ** Sorted insertion *)

(** The binary search ends within its fuel, reads inside the vector, and finds
    the boundary between the elements at most [tok] and the ones above it. *)
Lemma v32_sortedInsert_search_spec v tok : wf v -> Sorted Z.le (contents v) -> forall n min max,
  0 <= min <= max -> max <= count v -> max - min <= Z.of_nat n ->
  Forall (fun x => x <= tok) (take (Z.to_nat min) (contents v)) ->
  Forall (fun x => tok < x) (drop (Z.to_nat max) (contents v)) ->
  exists r, sortedInsert_search n (elements v) tok min max = Some r /\ min <= r <= max /\
    Forall (fun x => x <= tok) (take (Z.to_nat r) (contents v)) /\
    Forall (fun x => tok < x) (drop (Z.to_nat r) (contents v)).
Proof.
  intros Hwf Hs n. induction n as [|n IH]; intros min max Hm Hmax Hn Hlo Hhi;
    cbn [sortedInsert_search]; destruct (Z.eqb_spec min max) as [<-|Hne]; cbn [negb].
  1,3: exists min; split_and!; done || lia.
  { lia. }
  set (probe := Z.quot (min + max) 2).
  assert (Hp : min <= probe < max) by (unfold probe; Z.to_euclidean_division_equations; lia).
  rewrite v32_aget_contents by lia.
  destruct (lookup_lt_is_Some_2 (contents v) (Z.to_nat probe)) as [x Hx].
  { rewrite v32_length_contents by done. lia. }
  rewrite Hx. cbn [mbind option_bind]. rewrite Z.gtb_ltb.
  destruct (Z.ltb_spec tok x) as [Hgt|Hle].
  - destruct (IH min probe) as (r & Hr & Hrange & ?); [lia..|done| |].
    + apply Forall_lookup. intros k y Hy. rewrite lookup_drop in Hy.
      destruct k as [|k]; [rewrite Nat.add_0_r in Hy; simplify_eq; lia|].
      pose proof (Sorted_lookup Z.le _ (Z.to_nat probe) (Z.to_nat probe + S k) x y Hs ltac:(lia) Hx Hy). lia.
    + exists r. split; [done|]. split; [lia|done].
  - destruct (IH (probe + 1) max) as (r & Hr & Hrange & ?); [lia..| |done|].
    + apply Forall_lookup. intros k y Hy.
      assert (k < Z.to_nat (probe + 1))%nat
        by (apply lookup_lt_Some in Hy; rewrite length_take in Hy; lia).
      rewrite lookup_take_lt in Hy by done.
      destruct (decide (k = Z.to_nat probe)) as [->|]; [simplify_eq; lia|].
      pose proof (Sorted_lookup Z.le _ k (Z.to_nat probe) y x Hs ltac:(lia) Hy Hx). lia.
    + exists r. split; [done|]. split; [lia|done].
Qed.

(** [sortedInsert] inserts the element in a sorted vector so that it stays
    sorted, or reports an error and changes nothing. *)
Theorem sortedInsert_result v tok st :
  wf v -> Sorted Z.le (contents v) ->
  exists v' st', sortedInsert v tok st = Some (v', st') /\ wf v' /\
    ((st' = st /\ contents v' ≡ₚ tok :: contents v /\ Sorted Z.le (contents v')) \/
     (v' = v /\ U_FAILURE st' = true)).
Proof.
  intros Hwf Hs. unfold sortedInsert.
  destruct (v32_sortedInsert_search_spec v tok Hwf Hs (Z.to_nat (count v)) 0 (count v))
    as (r & -> & Hr & Hlo & Hhi); [wf_lia|lia|lia|constructor| |].
  { rewrite drop_ge by (rewrite v32_length_contents by done; lia). constructor. }
  cbn [mbind option_bind]. rewrite v32_int32_succ_count by done.
  pose proof (v32_ensureCapacity_spec v (count v + 1) st Hwf) as Hcap.
  destruct (ensureCapacity _ _ _) as [[[] v1] st1].
  - destruct Hcap as (Hcap & Hwf1 & [Hc Hcont] & _ & ->).
    destruct (insert_cells_spec v1 tok r) as (v' & Hv' & Hwf' & Hct'); [done|lia|lia|].
    unfold insert_cells in Hv'. destruct (shift_up _ _ _) as [e0|]; [|done].
    cbn [mbind option_bind] in Hv' |- *.
    destruct (aset e0 _ _) as [e|]; [|done]. simplify_eq/=.
    eexists _, st. split; [done|]. split; [done|]. left. rewrite Hct', Hcont.
    split_and!; [done|apply insert_at_Permutation|].
    apply Sorted_insert_at; [apply _|done|done|]. eapply Forall_impl; [exact Hhi|]. simpl. lia.
  - destruct Hcap as [-> Hf]. eexists _, _. split; [done|]. split; [done|]. by right.
Qed.

(** ** Size changes *)

Lemma clear_loop_spec newSize : forall n e i,
  0 <= i -> Z.of_nat n = newSize - i -> newSize <= Z.of_nat (length e) ->
  clear_loop n e i newSize =
    Some (take (Z.to_nat i) e ++ replicate n 0 ++ drop (Z.to_nat newSize) e).
Proof.
  induction n as [|n IH]; intros e i Hi Hn Hlen; cbn [clear_loop].
  - rewrite (proj2 (Z.ltb_ge _ _)) by lia. replace i with newSize by lia.
    cbn [replicate app]. by rewrite take_drop.
  - rewrite (proj2 (Z.ltb_lt _ _)) by lia. unfold aset.
    rewrite (proj2 (Z.leb_le _ _)), (proj2 (Z.ltb_lt _ _)) by lia. cbn [andb mbind option_bind].
    rewrite IH by (rewrite ?length_insert; lia).
    replace (Z.to_nat (i + 1)) with (S (Z.to_nat i)) by lia.
    rewrite (take_S_r _ _ 0) by (apply list_lookup_insert_eq; lia).
    rewrite take_insert_ge, drop_insert_lt by lia. by rewrite <- app_assoc.
Qed.

(** Truncation, or growth with zeros; nothing happens for a negative size or
    when there is no memory. *)
Lemma v32_setSize_spec v newSize :
  wf v ->
  exists v', setSize v newSize = Some v' /\ wf v' /\
    (v' = v \/
     count v' = newSize /\
     contents v' = take (Z.to_nat newSize) (contents v) ++
       replicate (Z.to_nat (newSize - count v)) 0).
Proof.
  intros Hwf. unfold setSize. destruct (Z.ltb_spec newSize 0); [by exists v; auto|].
  rewrite Z.gtb_ltb. destruct (Z.ltb_spec (count v) newSize) as [Hgt|Hle].
  - pose proof (v32_ensureCapacity_spec v newSize U_ZERO_ERROR Hwf) as Hcap.
    destruct (ensureCapacity _ _ _) as [[[] v1] st1]; [|by destruct Hcap as [-> _]; exists v; auto].
    destruct Hcap as (Hcap & Hwf1 & [Hc Hcont] & _ & _).
    rewrite clear_loop_spec by wf_lia. cbn [mbind option_bind].
    eexists. split; [done|]. split.
    { apply v32_wf_update; [done|wf_lia|]. destruct Hwf1. len. }
    right. split; [done|]. rewrite <- Hcont. unfold contents; cbn.
    rewrite take_take, Nat.min_r, <- Hc by lia.
    assert (0 <= count v1 <= Z.of_nat (length (elements v1))) by wf_lia.
    rewrite take_app_ge by len. f_equal. rewrite take_app_le by len.
    rewrite (take_ge (replicate _ _)) by len. done.
  - exists (set_count v newSize). split; [done|]. split; [constructor; wf_lia|].
    right. split; [done|]. replace (Z.to_nat (newSize - count v)) with 0%nat by lia.
    rewrite app_nil_r. unfold contents; cbn. rewrite take_take. f_equal. lia.
Qed.

Lemma setMaxCapacity_spec v limit :
  wf v ->
  wf (setMaxCapacity v limit) /\
  contents (setMaxCapacity v limit) =
    take (Z.to_nat (count (setMaxCapacity v limit))) (contents v).
Proof.
  intros Hwf. unfold setMaxCapacity.
  set (l := if limit <? 0 then 0 else limit).
  assert (0 <= l) by (unfold l; zcases). clearbody l. rewrite Z.gtb_ltb.
  assert (Htriv : contents v = take (Z.to_nat (count v)) (contents v)).
  { by rewrite take_ge by (rewrite v32_length_contents; lia || done). }
  destruct (Z.ltb_spec MAX_CELLS l); [by split|]. cbn [capacity maxCapacity].
  destruct ((capacity v <=? l) || (l =? 0)) eqn:Hb.
  { split; [constructor; wf_lia|exact Htriv]. }
  apply orb_false_elim in Hb as [?%Z.leb_gt ?%Z.eqb_neq].
  destruct (uprv_realloc _ _) as [e|] eqn:He; cycle 1.
  { split; [constructor; wf_lia|exact Htriv]. }
  pose proof (uprv_realloc_length _ _ _ He). cbn. rewrite Z.gtb_ltb.
  destruct (Z.ltb_spec l (count v)); cbn;
    (split; [constructor; wf_lia|]); unfold contents; cbn; rewrite take_take.
  - rewrite Nat.min_l by lia. eapply uprv_realloc_take; [exact He|lia|wf_lia].
  - rewrite Nat.min_id. eapply uprv_realloc_take; [exact He|lia|wf_lia].
Qed.

(** ** Stack operations *)

Lemma push_popi v i :
  wf v -> forall v' st', push v i U_ZERO_ERROR = Some (i, v', st') -> U_SUCCESS st' = true ->
  exists v'', popi v' = Some (i, v'') /\ same v v'' /\ wf v''.
Proof.
  intros Hwf v' st' Hp Hst. unfold push in Hp.
  destruct (addElement_insert v i U_ZERO_ERROR Hwf) as (v1 & st1 & Ha & Hwf1 & Hr).
  rewrite Ha in Hp. cbn in Hp. simplify_eq.
  destruct Hr as [-> Hc| -> Hf]; [|by rewrite U_FAILURE_SUCCESS, Hst in Hf].
  assert (Hcnt : count v' = count v + 1).
  { apply (f_equal length) in Hc. rewrite length_app, !v32_length_contents in Hc by done.
    simpl in Hc. wf_lia. }
  unfold popi. rewrite Z.gtb_ltb, (proj2 (Z.ltb_lt _ _)) by wf_lia.
  cbn [count set_count elements]. rewrite v32_aget_contents, Hc by wf_lia.
  rewrite lookup_app_r by (rewrite v32_length_contents by done; lia).
  rewrite v32_length_contents, Hcnt by done. replace (_ - _)%nat with 0%nat by lia.
  cbn. eexists. split; [done|]. split.
  - split; cbn; [lia|]. unfold contents at 1; cbn.
    replace (Z.to_nat (count v + 1 - 1)) with (Z.to_nat (count v)) by lia.
    transitivity (take (Z.to_nat (count v)) (contents v')).
    + unfold contents. rewrite take_take. f_equal. lia.
    + rewrite Hc, take_app_le, take_ge by (rewrite v32_length_contents by done; lia). done.
  - constructor; wf_lia.
Qed.

End Theorems.

(** ** Instances *)

#[local] Existing Instance zero_allocator.

Definition three : UVector32 := mk 3 3 0 [2; 5; 9].

Lemma three_wf : wf three.
Proof. constructor; unfold MAX_CELLS, INT32_MAX; cbn; dlia. Qed.

Lemma removeElementAt_past_end_witness :
  removeElementAt three 7 = Some (set_count three 2) /\
  removeElementAt (set_count three 0) 0 = Some (set_count (set_count three 0) (-1)).
Proof.
  split.
  - apply (removeElementAt_past_end three 7 three_wf). cbn. lia.
  - apply (removeElementAt_past_end (set_count three 0) 0); [|cbn; lia].
    constructor; unfold MAX_CELLS, INT32_MAX; cbn; dlia.
Defined.

Lemma sortedInsert_result_witness :
  exists v' st', sortedInsert three 7 U_ZERO_ERROR = Some (v', st') /\ wf v' /\
    ((st' = U_ZERO_ERROR /\ contents v' ≡ₚ 7 :: contents three /\ Sorted Z.le (contents v')) \/
     (v' = three /\ U_FAILURE st' = true)).
Proof.
  apply (sortedInsert_result three 7 U_ZERO_ERROR three_wf).
  cbn. do 2 (constructor; [|constructor; lia]). constructor; [constructor|constructor].
Defined.

End UVector32.
