(* ===== verification/UVector.v ===== *)
(** * UVector: the growable array of pointers or integers
    (src/common/uvector.cpp, src/common/uvector.h)

    A cell is a [UElement]: a null pointer, a pointer to an object of type [A]
    (the object itself stands for the pointer: the vector owns its objects), or
    an integer.  The vector may own its elements through a [deleter]; the model
    records the cells handed to the deleter, in order, in the ghost field
    [freed].  Elements are compared with the vector's [comparer]. *)
From S2P Require Import Prelude.

Local Open Scope Z_scope.

Module UVector.

Inductive UElement (A : Type) := Null | Pointer (a : A) | Integer (n : Z).
Arguments Null {A}.
Arguments Pointer {A} a.
Arguments Integer {A} n.

#[export] Instance UElement_eq_dec {A} `{EqDecision A} : EqDecision (UElement A).
Proof. solve_decision. Defined.

Section Definitions.
Context {A : Type} `{EqDecision A} {alloc : Allocator (UElement A)}.

Record UVector := mk {
  count : Z;
  capacity : Z;
  elements : list (UElement A);
  deleter : bool;
  comparer : option (UElement A -> UElement A -> bool);
  freed : list (UElement A)
}.

Definition DEFAULT_CAPACITY : Z := 8.

(** [(int32_t)(INT32_MAX / sizeof(UElement))], with 8-byte pointers *)
Definition MAX_CELLS : Z := INT32_MAX / 8.

Definition set_count (v : UVector) (n : Z) : UVector :=
  mk n v.(capacity) v.(elements) v.(deleter) v.(comparer) v.(freed).
Definition set_elements (v : UVector) (e : list (UElement A)) : UVector :=
  mk v.(count) v.(capacity) e v.(deleter) v.(comparer) v.(freed).
Definition set_block (v : UVector) (cap : Z) (e : list (UElement A)) : UVector :=
  mk v.(count) cap e v.(deleter) v.(comparer) v.(freed).

Definition contents (v : UVector) : list (UElement A) := take (Z.to_nat v.(count)) v.(elements).

(** [e.pointer != 0] *)
Definition pointer_nonnull (e : UElement A) : bool :=
  match e with Null => false | Pointer _ => true | Integer n => negb (n =? 0) end.

(** [e.integer]; the bits of a pointer are unspecified *)
Definition integer (e : UElement A) : option Z :=
  match e with Null => Some 0 | Integer n => Some n | Pointer _ => None end.

(** [if (e != 0 && deleter != 0)], call the deleter on [e]. *)
Definition delete (v : UVector) (e : UElement A) : UVector :=
  if pointer_nonnull e && v.(deleter)
  then mk v.(count) v.(capacity) v.(elements) v.(deleter) v.(comparer) (v.(freed) ++ [e])
  else v.

(** ** Construction *)

Definition _init (v : UVector) (initialCapacity : Z) (status : UErrorCode) : UVector * UErrorCode :=
  if U_FAILURE status then (v, status)
  else
    let initialCapacity :=
      if (initialCapacity <? 1) || (initialCapacity >? MAX_CELLS)
      then DEFAULT_CAPACITY else initialCapacity in
    match uprv_malloc initialCapacity with
    | None => (set_elements v [], U_MEMORY_ALLOCATION_ERROR)
    | Some e => (set_block v initialCapacity e, status)
    end.

Definition new (d : bool) (c : option (UElement A -> UElement A -> bool))
    (initialCapacity : Z) (status : UErrorCode) : UVector * UErrorCode :=
  _init (mk 0 0 [] d c []) initialCapacity status.

(** ** Capacity *)

Definition ensureCapacity (v : UVector) (minimumCapacity : Z) (status : UErrorCode)
  : bool * UVector * UErrorCode :=
  if minimumCapacity <? 0 then (false, v, U_ILLEGAL_ARGUMENT_ERROR)
  else if v.(capacity) <? minimumCapacity then
    if v.(capacity) >? (INT32_MAX - 1) / 2 then (false, v, U_ILLEGAL_ARGUMENT_ERROR)
    else
      let newCap := v.(capacity) * 2 in
      let newCap := if newCap <? minimumCapacity then minimumCapacity else newCap in
      if newCap >? MAX_CELLS then (false, v, U_ILLEGAL_ARGUMENT_ERROR)
      else
        match uprv_realloc v.(elements) newCap with
        | None => (false, v, U_MEMORY_ALLOCATION_ERROR)
        | Some newElems => (true, set_block v newCap newElems, status)
        end
  else (true, v, status).

(** ** Access *)

Definition size (v : UVector) : Z := v.(count).
Definition isEmpty (v : UVector) : bool := v.(count) =? 0.

Definition elementAt (v : UVector) (index : Z) : option (UElement A) :=
  if (0 <=? index) && (index <? v.(count)) then aget v.(elements) index else Some Null.

Definition elementAti (v : UVector) (index : Z) : option Z :=
  if (0 <=? index) && (index <? v.(count))
  then e ← aget v.(elements) index; integer e else Some 0.

Definition setElementAt (v : UVector) (obj : UElement A) (index : Z) : option UVector :=
  if (0 <=? index) && (index <? v.(count)) then
    old ← aget v.(elements) index;
    let v := delete v old in
    e ← aset v.(elements) index obj; Some (set_elements v e)
  else Some v.

(** The comparison of [indexOf]: the comparer if there is one, otherwise the
    pointers or the integers, as the hint says. *)
Definition indexOf_equal (v : UVector) (hint_pointer : bool) (key e : UElement A) : option bool :=
  match v.(comparer) with
  | Some c => Some (c key e)
  | None =>
      if hint_pointer then Some (bool_decide (key = e))
      else x ← integer key; y ← integer e; Some (x =? y)
  end.

Fixpoint indexOf_loop (fuel : nat) (v : UVector) (key : UElement A) (i : Z) (hint_pointer : bool)
  : option Z :=
  if i <? v.(count) then
    match fuel with
    | O => None
    | S fuel' =>
        x ← aget v.(elements) i;
        b ← indexOf_equal v hint_pointer key x;
        if (b : bool) then Some i else indexOf_loop fuel' v key (i + 1) hint_pointer
    end
  else Some (-1).

Definition indexOf (v : UVector) (key : UElement A) (startIndex : Z) (hint_pointer : bool) : option Z :=
  indexOf_loop (Z.to_nat (v.(count) - startIndex)) v key startIndex hint_pointer.

Definition contains (v : UVector) (obj : UElement A) : option bool :=
  i ← indexOf v obj 0 true; Some (i >=? 0).

(** [operator==] compares with this vector's comparer, and only the counts when
    there is none. *)
Fixpoint operator_eq_loop (fuel : nat) (c : UElement A -> UElement A -> bool) (v other : UVector) (i : Z)
  : option bool :=
  if i <? v.(count) then
    match fuel with
    | O => None
    | S fuel' =>
        x ← aget v.(elements) i;
        y ← aget other.(elements) i;
        if negb (c x y) then Some false else operator_eq_loop fuel' c v other (i + 1)
    end
  else Some true.

Definition operator_eq (v other : UVector) : option bool :=
  if negb (v.(count) =? other.(count)) then Some false
  else match v.(comparer) with
       | Some c => operator_eq_loop (Z.to_nat v.(count)) c v other 0
       | None => Some true
       end.

(** ** Insertion and removal *)

Definition addElement (v : UVector) (obj : UElement A) (status : UErrorCode) : option (UVector * UErrorCode) :=
  match ensureCapacity v (int32 (v.(count) + 1)) status with
  | (false, v, status) => Some (v, status)
  | (true, v, status) =>
      e ← aset v.(elements) v.(count) obj;
      Some (set_count (set_elements v e) (v.(count) + 1), status)
  end.

Definition insertElementAt (v : UVector) (obj : UElement A) (index : Z) (status : UErrorCode)
  : option (UVector * UErrorCode) :=
  if (0 <=? index) && (index <=? v.(count)) then
    match ensureCapacity v (int32 (v.(count) + 1)) status with
    | (false, v, status) => Some (v, status)
    | (true, v, status) =>
        e ← shift_up v.(elements) v.(count) index;
        e ← aset e index obj;
        Some (set_count (set_elements v e) (v.(count) + 1), status)
    end
  else Some (v, status).

(** Removes the element at [index] and hands it to the caller. *)
Definition orphanElementAt (v : UVector) (index : Z) : option (UElement A * UVector) :=
  if (0 <=? index) && (index <? v.(count)) then
    e ← aget v.(elements) index;
    el ← shift_down v.(elements) index v.(count);
    Some (e, set_count (set_elements v el) (v.(count) - 1))
  else Some (Null, v).

Definition removeElementAt (v : UVector) (index : Z) : option UVector :=
  '(e, v) ← orphanElementAt v index; Some (delete v e).

Definition removeElement (v : UVector) (obj : UElement A) : option (bool * UVector) :=
  i ← indexOf v obj 0 true;
  if i >=? 0 then v ← removeElementAt v i; Some (true, v) else Some (false, v).

Fixpoint delete_loop (fuel : nat) (v : UVector) (i : Z) : option UVector :=
  if i <? v.(count) then
    match fuel with
    | O => None
    | S fuel' => e ← aget v.(elements) i; delete_loop fuel' (delete v e) (i + 1)
    end
  else Some v.

Definition removeAllElements (v : UVector) : option UVector :=
  v ← (if v.(deleter) then delete_loop (Z.to_nat v.(count)) v 0 else Some v);
  Some (set_count v 0).

(** ** Operations on two vectors; the argument may be the vector itself *)

Inductive vec_ref := Self | Other (v : UVector).

Definition deref (this : UVector) (r : vec_ref) : UVector :=
  match r with Self => this | Other v => v end.

Fixpoint containsAll_loop (fuel : nat) (v other : UVector) (i : Z) : option bool :=
  if i <? other.(count) then
    match fuel with
    | O => None
    | S fuel' =>
        x ← aget other.(elements) i;
        j ← indexOf v x 0 false;
        if j <? 0 then Some false else containsAll_loop fuel' v other (i + 1)
    end
  else Some true.

Definition containsAll (v other : UVector) : option bool :=
  containsAll_loop (Z.to_nat other.(count)) v other 0.

Fixpoint containsNone_loop (fuel : nat) (v other : UVector) (i : Z) : option bool :=
  if i <? other.(count) then
    match fuel with
    | O => None
    | S fuel' =>
        x ← aget other.(elements) i;
        j ← indexOf v x 0 false;
        if j >=? 0 then Some false else containsNone_loop fuel' v other (i + 1)
    end
  else Some true.

Definition containsNone (v other : UVector) : option bool :=
  containsNone_loop (Z.to_nat other.(count)) v other 0.

Fixpoint removeAll_loop (fuel : nat) (v : UVector) (other : vec_ref) (i : Z) (changed : bool)
  : option (UVector * bool) :=
  if i <? (deref v other).(count) then
    match fuel with
    | O => None
    | S fuel' =>
        x ← aget (deref v other).(elements) i;
        j ← indexOf v x 0 false;
        if j >=? 0 then
          v' ← removeElementAt v j; removeAll_loop fuel' v' other (i + 1) true
        else removeAll_loop fuel' v other (i + 1) changed
    end
  else Some (v, changed).

Definition removeAll (v : UVector) (other : vec_ref) : option (UVector * bool) :=
  removeAll_loop (Z.to_nat (deref v other).(count)) v other 0 false.

Fixpoint retainAll_loop (fuel : nat) (v : UVector) (other : vec_ref) (j : Z) (changed : bool)
  : option (UVector * bool) :=
  if j >=? 0 then
    match fuel with
    | O => None
    | S fuel' =>
        x ← aget v.(elements) j;
        i ← indexOf (deref v other) x 0 false;
        if i <? 0 then
          v' ← removeElementAt v j; retainAll_loop fuel' v' other (j - 1) true
        else retainAll_loop fuel' v other (j - 1) changed
    end
  else Some (v, changed).

Definition retainAll (v : UVector) (other : vec_ref) : option (UVector * bool) :=
  retainAll_loop (Z.to_nat v.(count)) v other (v.(count) - 1) false.

(** ** Size and assignment *)

Fixpoint fill_loop (fuel : nat) (e : list (UElement A)) (i newSize : Z) : option (list (UElement A)) :=
  if i <? newSize then
    match fuel with
    | O => None
    | S fuel' => e' ← aset e i Null; fill_loop fuel' e' (i + 1) newSize
    end
  else Some e.

Fixpoint remove_down_loop (fuel : nat) (v : UVector) (i newSize : Z) : option UVector :=
  if i >=? newSize then
    match fuel with
    | O => None
    | S fuel' => v' ← removeElementAt v i; remove_down_loop fuel' v' (i - 1) newSize
    end
  else Some v.

Definition setSize (v : UVector) (newSize : Z) (status : UErrorCode) : option (UVector * UErrorCode) :=
  if newSize <? 0 then Some (v, status)
  else if newSize >? v.(count) then
    match ensureCapacity v newSize status with
    | (false, v, status) => Some (v, status)
    | (true, v, status) =>
        e ← fill_loop (Z.to_nat (newSize - v.(count))) v.(elements) v.(count) newSize;
        Some (set_count (set_elements v e) newSize, status)
    end
  else
    v ← remove_down_loop (Z.to_nat (v.(count) - newSize)) v (v.(count) - 1) newSize;
    Some (set_count v newSize, status).

(** [assign] copies with an element assigner, which may clone the object. *)
Fixpoint assign_loop (fuel : nat) (v other : UVector) (assigner : UElement A -> UElement A) (i : Z)
  : option UVector :=
  if i <? other.(count) then
    match fuel with
    | O => None
    | S fuel' =>
        old ← aget v.(elements) i;
        let v := delete v old in
        src ← aget other.(elements) i;
        e ← aset v.(elements) i (assigner src);
        assign_loop fuel' (set_elements v e) other assigner (i + 1)
    end
  else Some v.

Definition assign (v other : UVector) (assigner : UElement A -> UElement A) (ec : UErrorCode)
  : option (UVector * UErrorCode) :=
  match ensureCapacity v other.(count) ec with
  | (false, v, ec) => Some (v, ec)
  | (true, v, ec) =>
      '(v, ec) ← setSize v other.(count) ec;
      if U_SUCCESS ec then
        v ← assign_loop (Z.to_nat other.(count)) v other assigner 0; Some (v, ec)
      else Some (v, ec)
  end.

(** ** Sorted insertion *)

Fixpoint sortedInsert_search (fuel : nat) (el : list (UElement A)) (e : UElement A)
    (compare : UElement A -> UElement A -> Z) (min max : Z) : option Z :=
  if negb (min =? max) then
    match fuel with
    | O => None
    | S fuel' =>
        let probe := Z.quot (min + max) 2 in
        x ← aget el probe;
        if compare x e >? 0 then sortedInsert_search fuel' el e compare min probe
        else sortedInsert_search fuel' el e compare (probe + 1) max
    end
  else Some min.

Definition sortedInsert (v : UVector) (e : UElement A) (compare : UElement A -> UElement A -> Z)
    (ec : UErrorCode) : option (UVector * UErrorCode) :=
  min ← sortedInsert_search (Z.to_nat v.(count)) v.(elements) e compare 0 v.(count);
  match ensureCapacity v (int32 (v.(count) + 1)) ec with
  | (false, v, ec) => Some (v, ec)
  | (true, v, ec) =>
      el ← shift_up v.(elements) v.(count) min;
      el ← aset el min e;
      Some (set_count (set_elements v el) (v.(count) + 1), ec)
  end.

End Definitions.

Arguments UVector A : clear implicits.
Arguments vec_ref A : clear implicits.

(** ** Well-formed vectors *)

Section Theorems.
Context {A : Type} `{EqDecision A} {alloc : Allocator (UElement A)}.
Implicit Types v o : UVector A.

Record wf v : Prop := {
  wf_count : 0 <= count v <= capacity v;
  wf_length : Z.of_nat (length (elements v)) = capacity v;
  wf_capacity : capacity v <= MAX_CELLS
}.

Ltac wf_lia :=
  repeat match goal with H : wf _ |- _ => destruct H end;
  unfold MAX_CELLS, INT32_MAX, DEFAULT_CAPACITY in *; simpl in *;
  try Z.to_euclidean_division_equations; lia.

Lemma int32_succ_count v : wf v -> int32 (count v + 1) = count v + 1.
Proof. intros. apply int32_id. unfold is_int32, INT32_MIN. wf_lia. Qed.

Lemma length_contents v : wf v -> length (contents v) = Z.to_nat (count v).
Proof. intros []. unfold contents. rewrite length_take. lia. Qed.

Lemma aget_contents v i :
  0 <= i < count v -> aget (elements v) i = contents v !! Z.to_nat i.
Proof.
  intros. unfold aget, contents.
  rewrite (proj2 (Z.leb_le _ _)), lookup_take_lt by lia. done.
Qed.

Lemma aget_contents_Some v i :
  wf v -> 0 <= i < count v ->
  exists x, aget (elements v) i = Some x /\ contents v !! Z.to_nat i = Some x.
Proof.
  intros Hwf Hi. rewrite aget_contents by done.
  destruct (lookup_lt_is_Some_2 (contents v) (Z.to_nat i)) as [x Hx]; [|by exists x].
  rewrite length_contents by done. lia.
Qed.

Lemma wf_update v n e :
  wf v -> 0 <= n <= capacity v -> length e = length (elements v) ->
  wf (set_count (set_elements v e) n).
Proof. intros. constructor; wf_lia. Qed.

(** The fields that no list operation touches. *)
Definition same_kind v v' : Prop :=
  deleter v' = deleter v /\ comparer v' = comparer v.

Lemma delete_fields v e :
  count (delete v e) = count v /\ elements (delete v e) = elements v /\
  capacity (delete v e) = capacity v /\ same_kind v (delete v e).
Proof. unfold delete, same_kind. by destruct (_ && _). Qed.

Lemma wf_delete v e : wf v -> wf (delete v e).
Proof.
  intros. destruct (delete_fields v e) as (? & He & ? & _).
  constructor; rewrite ?He; wf_lia.
Qed.

Lemma contents_delete v e : contents (delete v e) = contents v.
Proof. unfold contents. by destruct (delete_fields v e) as (-> & -> & _). Qed.

(** What the deleter receives for the cell [e]. *)
Definition deleted v (e : UElement A) : list (UElement A) :=
  if pointer_nonnull e && deleter v then [e] else [].

Lemma freed_delete v e : freed (delete v e) = freed v ++ deleted v e.
Proof. unfold delete, deleted. destruct (_ && _); [done|by rewrite app_nil_r]. Qed.

Lemma ensureCapacity_spec v n st :
  wf v ->
  match ensureCapacity v n st with
  | (true, v', st') =>
      0 <= n <= capacity v' /\ wf v' /\ count v' = count v /\ contents v' = contents v /\
      same_kind v v' /\ freed v' = freed v /\ st' = st
  | (false, v', st') => v' = v /\ U_FAILURE st' = true
  end.
Proof.
  intros Hwf. unfold ensureCapacity. destruct (Z.ltb_spec n 0); [done|].
  destruct (Z.ltb_spec (capacity v) n); [|by split_and!].
  rewrite Z.gtb_ltb. destruct (Z.ltb_spec ((INT32_MAX - 1) / 2) (capacity v)); [done|].
  set (c := if capacity v * 2 <? n then n else capacity v * 2).
  assert (Hc : capacity v < c /\ n <= c) by (unfold c; zcases; wf_lia). clearbody c.
  rewrite Z.gtb_ltb. destruct (Z.ltb_spec MAX_CELLS c); [done|].
  destruct (uprv_realloc (elements v) c) as [e|] eqn:He; [|done].
  pose proof (uprv_realloc_length _ _ _ He).
  split_and!; try done; try wf_lia; [constructor; wf_lia|].
  unfold contents; cbn. eapply uprv_realloc_take; [exact He|wf_lia|wf_lia].
Qed.

(** The outcome of an insertion. *)
Inductive insert_result v v' (st st' : UErrorCode) (c : list (UElement A)) : Prop :=
  | insert_done : st' = st -> contents v' = c -> same_kind v v' -> freed v' = freed v ->
      insert_result v v' st st' c
  | insert_no_room : v' = v -> U_FAILURE st' = true -> insert_result v v' st st' c.

Lemma insert_body v v1 e index :
  wf v1 -> count v1 + 1 <= capacity v1 -> count v1 = count v -> contents v1 = contents v ->
  0 <= index <= count v ->
  exists e0 e1, shift_up (elements v1) (count v1) index = Some e0 /\ aset e0 index e = Some e1 /\
    wf (set_count (set_elements v1 e1) (count v1 + 1)) /\
    contents (set_count (set_elements v1 e1) (count v1 + 1)) =
      insert_at (Z.to_nat index) e (contents v).
Proof.
  intros Hwf Hroom Hc Hct Hi.
  destruct (shift_up_insert (elements v1) (count v1) index e)
    as (e0 & e1 & H0 & H1 & Hlen & Htake); [lia|wf_lia|].
  exists e0, e1. split_and!; [done|done|apply wf_update; [done|wf_lia|done]|].
  rewrite <- Hct. exact Htake.
Qed.

Lemma insertElementAt_spec v obj index st :
  wf v -> 0 <= index <= count v ->
  exists v' st', insertElementAt v obj index st = Some (v', st') /\ wf v' /\
    insert_result v v' st st' (insert_at (Z.to_nat index) obj (contents v)).
Proof.
  intros Hwf Hi. unfold insertElementAt.
  rewrite (proj2 (Z.leb_le _ _)), (proj2 (Z.leb_le _ _)), int32_succ_count by (done || lia).
  cbn [andb]. pose proof (ensureCapacity_spec v (count v + 1) st Hwf) as Hcap.
  destruct (ensureCapacity _ _ _) as [[[] v1] st1].
  - destruct Hcap as (Hcap & Hwf1 & Hc & Hcont & Hk & Hf & ->).
    destruct (insert_body v v1 obj index) as (e0 & e1 & -> & H1 & ? & ?); [done|lia|done..|].
    cbn [mbind option_bind]. rewrite H1. eexists _, st. split; [done|]. split; [done|].
    by apply insert_done.
  - destruct Hcap as [-> Hf]. eexists _, _. split; [done|]. split; [done|].
    by apply insert_no_room.
Qed.

Lemma addElement_spec v obj st :
  wf v -> exists v' st', addElement v obj st = Some (v', st') /\ wf v' /\
    insert_result v v' st st' (contents v ++ [obj]).
Proof.
  intros Hwf. unfold addElement. rewrite int32_succ_count by done.
  pose proof (ensureCapacity_spec v (count v + 1) st Hwf) as Hcap.
  destruct (ensureCapacity _ _ _) as [[[] v1] st1].
  - destruct Hcap as (Hcap & Hwf1 & Hc & Hcont & Hk & Hf & ->).
    unfold aset. rewrite (proj2 (Z.leb_le _ _)), (proj2 (Z.ltb_lt _ _)) by wf_lia.
    cbn. eexists _, st. split; [done|]. split; [apply wf_update; [done|wf_lia|len]|].
    apply insert_done; [done| |done|done]. unfold contents at 1; cbn.
    replace (Z.to_nat (count v1 + 1)) with (S (Z.to_nat (count v1))) by wf_lia.
    erewrite take_S_r by (apply list_lookup_insert_eq; wf_lia).
    rewrite take_insert_ge by lia. by rewrite <- Hcont.
  - destruct Hcap as [-> Hf]. eexists _, _. split; [done|]. split; [done|].
    by apply insert_no_room.
Qed.

Lemma orphanElementAt_spec v index :
  wf v -> 0 <= index < count v ->
  exists e v', orphanElementAt v index = Some (e, v') /\ wf v' /\ count v' = count v - 1 /\
    contents v !! Z.to_nat index = Some e /\
    contents v' = remove_at (Z.to_nat index) (contents v) /\ same_kind v v' /\ freed v' = freed v.
Proof.
  intros Hwf Hi. unfold orphanElementAt.
  rewrite (proj2 (Z.leb_le _ _)), (proj2 (Z.ltb_lt _ _)) by lia. cbn [andb].
  destruct (aget_contents_Some v index) as (x & -> & Hx); [done|done|]. cbn [mbind option_bind].
  destruct (shift_down_remove (elements v) (count v) index)
    as (e & -> & Hlen & Htake); [lia|wf_lia|].
  cbn [mbind option_bind]. eexists _, _. split; [done|].
  split_and!; try done. apply wf_update; [done|wf_lia|done].
Qed.

Lemma removeElementAt_spec v index :
  wf v -> 0 <= index < count v ->
  exists e v', removeElementAt v index = Some v' /\ wf v' /\ count v' = count v - 1 /\
    contents v !! Z.to_nat index = Some e /\
    contents v' = remove_at (Z.to_nat index) (contents v) /\ same_kind v v' /\
    freed v' = freed v ++ deleted v e.
Proof.
  intros Hwf Hi. unfold removeElementAt.
  destruct (orphanElementAt_spec v index) as (e & v1 & -> & Hwf1 & Hc & He & Hct & [Hk1 Hk2] & Hf);
    [done..|].
  cbn [mbind option_bind]. exists e, (delete v1 e). split; [done|].
  destruct (delete_fields v1 e) as (Hdc & _ & _ & [Hd1 Hd2]).
  split_and!; [by apply wf_delete|lia|done|by rewrite contents_delete| |].
  - split; congruence.
  - rewrite freed_delete, Hf. unfold deleted. by rewrite Hk1.
Qed.

(** ** Searching; the comparer decides equality of the elements *)

Definition compares_equal v : Prop :=
  exists c, comparer v = Some c /\ forall x y, c x y = bool_decide (x = y).

Lemma compares_equal_kind v v' : same_kind v v' -> compares_equal v -> compares_equal v'.
Proof. intros [_ Hc] (c & Hv & ?). exists c. by rewrite Hc. Qed.

Lemma indexOf_loop_spec v key h : wf v -> compares_equal v -> forall n i,
  0 <= i -> Z.of_nat n = count v - i ->
  indexOf_loop n v key i h =
    Some (let k := index_of key (drop (Z.to_nat i) (contents v)) in
          if k <? 0 then -1 else i + k).
Proof.
  intros Hwf (c & Hc & Heq) n. induction n as [|n IH]; intros i Hi Hn; cbn [indexOf_loop].
  - rewrite (proj2 (Z.ltb_ge _ _)) by lia.
    by rewrite drop_ge by (rewrite length_contents by done; lia).
  - rewrite (proj2 (Z.ltb_lt _ _)) by lia.
    destruct (aget_contents_Some v i) as (x & -> & Hx); [done|lia|].
    cbn [mbind option_bind]. rewrite (drop_S _ x), index_of_cons by done.
    unfold indexOf_equal. rewrite Hc, Heq. cbn [mbind option_bind].
    rewrite IH by lia. replace (Z.to_nat (i + 1)) with (S (Z.to_nat i)) by lia.
    rewrite decide_bool_decide. case_bool_decide; cbn zeta; f_equal; [cbn; lia|].
    pose proof (index_of_ge key (drop (S (Z.to_nat i)) (contents v))).
    destruct (Z.ltb_spec (index_of key (drop (S (Z.to_nat i)) (contents v))) 0); [done|].
    rewrite (proj2 (Z.ltb_ge _ _)); lia.
Qed.

Lemma indexOf_spec v key h :
  wf v -> compares_equal v -> indexOf v key 0 h = Some (index_of key (contents v)).
Proof.
  intros Hwf Hc. unfold indexOf. rewrite indexOf_loop_spec by (done || wf_lia).
  cbn zeta. change (Z.to_nat 0) with 0%nat. rewrite drop_0.
  pose proof (index_of_ge key (contents v)). f_equal.
  destruct (Z.ltb_spec (index_of key (contents v)) 0); lia.
Qed.

Lemma contains_spec v obj :
  wf v -> compares_equal v -> contains v obj = Some (bool_decide (obj ∈ contents v)).
Proof.
  intros Hwf Hc. unfold contains. rewrite indexOf_spec by done. cbn. f_equal.
  rewrite Z.geb_leb. case_bool_decide as Hin.
  - apply index_of_nonneg in Hin. lia.
  - apply index_of_neg in Hin. lia.
Qed.

Lemma operator_eq_loop_spec c v o :
  (forall x y, c x y = bool_decide (x = y)) ->
  wf v -> wf o -> count o = count v -> forall n i,
  0 <= i -> Z.of_nat n = count v - i ->
  operator_eq_loop n c v o i =
    Some (bool_decide (drop (Z.to_nat i) (contents v) = drop (Z.to_nat i) (contents o))).
Proof.
  intros Hcmp Hv Ho Hc n. induction n as [|n IH]; intros i Hi Hn; cbn [operator_eq_loop].
  - rewrite (proj2 (Z.ltb_ge _ _)) by lia.
    by rewrite !drop_ge by (rewrite length_contents by done; lia).
  - rewrite (proj2 (Z.ltb_lt _ _)) by lia.
    destruct (aget_contents_Some v i) as (x & -> & Hx); [done|lia|].
    destruct (aget_contents_Some o i) as (y & -> & Hy); [done|lia|].
    cbn [mbind option_bind].
    rewrite (drop_S (contents v) x _ Hx), (drop_S (contents o) y _ Hy), IH, Hcmp by lia.
    replace (Z.to_nat (i + 1)) with (S (Z.to_nat i)) by lia.
    case_bool_decide as Hxy; cbn [negb]; f_equal.
    + apply bool_decide_ext. split; congruence.
    + symmetry. apply bool_decide_eq_false_2. congruence.
Qed.

Lemma operator_eq_spec v o :
  wf v -> wf o -> compares_equal v ->
  operator_eq v o = Some (bool_decide (contents v = contents o)).
Proof.
  intros Hv Ho (c & Hc & Heq). unfold operator_eq.
  destruct (Z.eqb_spec (count v) (count o)) as [Hcnt|Hne]; cbn [negb].
  - rewrite Hc, operator_eq_loop_spec by (done || wf_lia). done.
  - f_equal. symmetry. apply bool_decide_eq_false_2. intros Hco.
    apply (f_equal length) in Hco. rewrite !length_contents in Hco by done. wf_lia.
Qed.

Lemma containsAll_loop_spec v o : wf v -> wf o -> compares_equal v -> forall n i,
  0 <= i -> Z.of_nat n = count o - i ->
  containsAll_loop n v o i =
    Some (bool_decide (Forall (fun x => x ∈ contents v) (drop (Z.to_nat i) (contents o)))).
Proof.
  intros Hv Ho Hc n. induction n as [|n IH]; intros i Hi Hn; cbn [containsAll_loop].
  - rewrite (proj2 (Z.ltb_ge _ _)), drop_ge by (rewrite ?length_contents; done || lia).
    f_equal; symmetry; apply bool_decide_eq_true_2; constructor.
  - rewrite (proj2 (Z.ltb_lt _ _)) by lia.
    destruct (aget_contents_Some o i) as (x & -> & Hx); [done|lia|].
    cbn [mbind option_bind]. rewrite indexOf_spec by done. cbn [mbind option_bind].
    rewrite (drop_S _ x), IH by (done || lia).
    replace (Z.to_nat (i + 1)) with (S (Z.to_nat i)) by lia.
    destruct (Z.ltb_spec (index_of x (contents v)) 0) as [Hlt|Hge]; f_equal.
    + symmetry. apply bool_decide_eq_false_2. rewrite Forall_cons. intros [Hin _].
      by apply index_of_neg in Hlt.
    + apply index_of_nonneg in Hge. apply bool_decide_ext. rewrite Forall_cons.
      split; [done|by intros []].
Qed.

Lemma containsNone_loop_spec v o : wf v -> wf o -> compares_equal v -> forall n i,
  0 <= i -> Z.of_nat n = count o - i ->
  containsNone_loop n v o i =
    Some (bool_decide (Forall (fun x => x ∉ contents v) (drop (Z.to_nat i) (contents o)))).
Proof.
  intros Hv Ho Hc n. induction n as [|n IH]; intros i Hi Hn; cbn [containsNone_loop].
  - rewrite (proj2 (Z.ltb_ge _ _)), drop_ge by (rewrite ?length_contents; done || lia).
    f_equal; symmetry; apply bool_decide_eq_true_2; constructor.
  - rewrite (proj2 (Z.ltb_lt _ _)) by lia.
    destruct (aget_contents_Some o i) as (x & -> & Hx); [done|lia|].
    cbn [mbind option_bind]. rewrite indexOf_spec by done. cbn [mbind option_bind].
    rewrite (drop_S _ x), IH, Z.geb_leb by (done || lia).
    replace (Z.to_nat (i + 1)) with (S (Z.to_nat i)) by lia.
    destruct (Z.leb_spec 0 (index_of x (contents v))) as [Hge|Hlt]; f_equal.
    + symmetry. apply bool_decide_eq_false_2. rewrite Forall_cons. intros [Hin _].
      by apply index_of_nonneg in Hge.
    + apply index_of_neg in Hlt. apply bool_decide_ext. rewrite Forall_cons.
      split; [done|by intros []].
Qed.

Lemma containsAll_spec v o :
  wf v -> wf o -> compares_equal v ->
  containsAll v o = Some (bool_decide (Forall (fun x => x ∈ contents v) (contents o))).
Proof. intros. unfold containsAll. by rewrite containsAll_loop_spec by (done || wf_lia). Qed.

Lemma containsNone_spec v o :
  wf v -> wf o -> compares_equal v ->
  containsNone v o = Some (bool_decide (Forall (fun x => x ∉ contents v) (contents o))).
Proof. intros. unfold containsNone. by rewrite containsNone_loop_spec by (done || wf_lia). Qed.

(** ** Removal by value, and the deleter's log *)

(** The deleted cells of a list, in the order of the log. *)
Definition deleted_all v (l : list (UElement A)) : list (UElement A) := l ≫= deleted v.

(** [v'] is [v] without the elements [gone], which went to the deleter. *)
Definition removed v v' (c gone : list (UElement A)) : Prop :=
  wf v' /\ same_kind v v' /\ contents v' = c /\ c ++ gone ≡ₚ contents v /\
  freed v' = freed v ++ deleted_all v gone.

Lemma removed_refl v : wf v -> removed v v (contents v) [].
Proof. intros. split_and!; try done; by rewrite app_nil_r. Qed.

Lemma removed_trans v v1 v2 c1 c2 g1 g2 :
  removed v v1 c1 g1 -> removed v1 v2 c2 g2 -> removed v v2 c2 (g1 ++ g2).
Proof.
  intros (Hw1 & [Hd1 Hk1] & Hc1 & Hp1 & Hf1) (Hw2 & [Hd2 Hk2] & Hc2 & Hp2 & Hf2).
  split_and!; [done|split; congruence|done| |].
  - rewrite <- Hp1, <- Hc1, <- Hp2. solve_Permutation.
  - rewrite Hf2, Hf1, <- app_assoc. f_equal. unfold deleted_all. rewrite bind_app. f_equal.
    apply list_bind_ext; [|done]. intros e. unfold deleted. by rewrite Hd1.
Qed.

Lemma removeElementAt_removed v index :
  wf v -> 0 <= index < count v ->
  exists e v', removeElementAt v index = Some v' /\ contents v !! Z.to_nat index = Some e /\
    removed v v' (remove_at (Z.to_nat index) (contents v)) [e].
Proof.
  intros Hwf Hi. destruct (removeElementAt_spec v index) as (e & v' & Hr & ? & _ & He & ? & ? & Hf);
    [done..|].
  exists e, v'. split; [done|]. split; [done|]. split_and!; [done|done|done| |].
  - rewrite <- (remove_at_Permutation _ _ _ He) at 2. by rewrite Permutation_app_comm.
  - rewrite Hf. unfold deleted_all. simpl. by rewrite app_nil_r.
Qed.

Lemma removeElement_spec v obj :
  wf v -> compares_equal v ->
  exists v', removeElement v obj = Some (bool_decide (obj ∈ contents v), v') /\
    removed v v' (remove_first obj (contents v))
      (if bool_decide (obj ∈ contents v) then [obj] else []).
Proof.
  intros Hwf Hc. unfold removeElement. rewrite indexOf_spec by done. cbn [mbind option_bind].
  rewrite remove_first_index_of, Z.geb_leb. pose proof (index_of_ge obj (contents v)) as Hge.
  rewrite length_contents in Hge by done.
  destruct (Z.leb_spec 0 (index_of obj (contents v))) as [Hin|Hlt].
  - destruct (removeElementAt_removed v (index_of obj (contents v)))
      as (e & v1 & -> & He & Hr); [done|wf_lia|]. cbn [mbind option_bind].
    rewrite (bool_decide_eq_true_2 _ (proj1 (index_of_nonneg _ _) Hin)).
    exists v1. split; [done|]. rewrite (proj2 (Z.ltb_ge _ _)) by lia.
    destruct (index_of_spec obj (contents v) (Z.to_nat (index_of obj (contents v))))
      as [Hx _]; [lia|]. by simplify_eq.
  - rewrite (bool_decide_eq_false_2 _ (proj1 (index_of_neg _ _) Hlt)).
    exists v. split; [done|]. rewrite (proj2 (Z.ltb_lt _ _)) by lia. by apply removed_refl.
Qed.

Lemma removeAll_loop_spec o : wf o -> forall n v i ch,
  wf v -> compares_equal v -> 0 <= i -> Z.of_nat n = count o - i ->
  exists v' ch' gone, removeAll_loop n v (Other o) i ch = Some (v', ch') /\
    removed v v' (foldl (fun l x => remove_first x l) (contents v)
                    (drop (Z.to_nat i) (contents o))) gone.
Proof.
  intros Ho n. induction n as [|n IH]; intros v i ch Hv Hcmp Hi Hn; cbn [removeAll_loop deref].
  - rewrite (proj2 (Z.ltb_ge _ _)), drop_ge by (rewrite ?length_contents; done || lia).
    eexists _, _, []. split; [done|]. by apply removed_refl.
  - rewrite (proj2 (Z.ltb_lt _ _)) by lia.
    destruct (aget_contents_Some o i) as (x & -> & Hx); [done|lia|].
    rewrite (drop_S (contents o) x _ Hx). cbn [mbind option_bind foldl].
    replace (S (Z.to_nat i)) with (Z.to_nat (i + 1)) by lia.
    rewrite indexOf_spec by done. cbn [mbind option_bind].
    rewrite remove_first_index_of, Z.geb_leb.
    pose proof (index_of_ge x (contents v)) as Hge. rewrite length_contents in Hge by done.
    destruct (Z.leb_spec 0 (index_of x (contents v))).
    + destruct (removeElementAt_removed v (index_of x (contents v)))
        as (e & v1 & -> & _ & Hr); [done|wf_lia|]. cbn [mbind option_bind].
      destruct Hr as (Hw1 & Hk1 & Hc1 & Hp1 & Hf1).
      destruct (IH v1 (i + 1) true) as (v' & ch' & gone & -> & Hr');
        [done|by eapply compares_equal_kind|lia|lia|].
      rewrite (proj2 (Z.ltb_ge _ _)), <- Hc1 by lia.
      eexists _, _, _. split; [done|]. eapply removed_trans; [|exact Hr']. by split_and!.
    + rewrite (proj2 (Z.ltb_lt _ _)) by lia. apply IH; [done|done|lia|lia].
Qed.

Lemma removeAll_spec v o :
  wf v -> wf o -> compares_equal v -> NoDup (contents v) ->
  exists v' ch gone, removeAll v (Other o) = Some (v', ch) /\
    removed v v' (filter (fun x => x ∉ contents o) (contents v)) gone.
Proof.
  intros Hv Ho Hcmp Hnd. unfold removeAll.
  destruct (removeAll_loop_spec o Ho (Z.to_nat (count o)) v 0 false)
    as (v' & ch & gone & Heq & Hr); [done|done|lia|wf_lia|].
  exists v', ch, gone. split; [done|].
  change (drop (Z.to_nat 0) (contents o)) with (contents o) in Hr.
  by rewrite foldl_remove_first_filter in Hr.
Qed.

Lemma retainAll_loop_spec o : wf o -> compares_equal o -> forall n v j ch,
  wf v -> Z.of_nat n = j + 1 -> j < count v ->
  exists v' ch' gone, retainAll_loop n v (Other o) j ch = Some (v', ch') /\
    removed v v' (filter (fun x => x ∈ contents o) (take n (contents v)) ++ drop n (contents v)) gone.
Proof.
  intros Ho Hcmp n. induction n as [|n IH]; intros v j ch Hv Hn Hj; cbn [retainAll_loop deref].
  - rewrite Z.geb_leb, (proj2 (Z.leb_gt _ _)) by lia. eexists _, _, [].
    split; [done|]. by apply removed_refl.
  - rewrite Z.geb_leb, (proj2 (Z.leb_le _ _)) by lia.
    destruct (aget_contents_Some v j) as (x & -> & Hx); [done|lia|].
    replace (Z.to_nat j) with n in Hx by lia.
    rewrite (take_S_r _ _ _ Hx), filter_app. cbn [mbind option_bind].
    rewrite indexOf_spec by done. cbn [mbind option_bind].
    destruct (Z.ltb_spec (index_of x (contents o)) 0) as [Hlt|Hge].
    + destruct (removeElementAt_removed v j) as (e & v1 & -> & He & Hr); [done|lia|].
      cbn [mbind option_bind]. pose proof Hr as (Hv1 & _ & Hc1 & _ & _).
      assert (Hcnt : count v1 = count v - 1).
      { apply (f_equal length) in Hc1.
        pose proof (length_remove_at (Z.to_nat j) (contents v)) as Hl.
        rewrite !length_contents in * by done. wf_lia. }
      destruct (IH v1 (j - 1) true) as (v' & ch' & gone & -> & Hr'); [done|lia|lia|].
      eexists _, _, _. split; [done|]. eapply removed_trans in Hr'; [|exact Hr].
      rewrite Hc1 in Hr'. replace (Z.to_nat j) with n in Hr' by lia. unfold remove_at in Hr'.
      assert (length (take n (contents v)) = n) by (rewrite length_take, length_contents; lia || done).
      rewrite take_app_length', drop_app_length' in Hr' by done.
      rewrite (filter_cons_False _ x), app_nil_r by (by rewrite <- index_of_neg). exact Hr'.
    + destruct (IH v (j - 1) ch) as (v' & ch' & gone & -> & Hr'); [done|lia|lia|].
      eexists _, _, _. split; [done|].
      rewrite (filter_cons_True _ x) by (by apply index_of_nonneg).
      rewrite (drop_S _ _ _ Hx) in Hr'. by rewrite <- app_assoc.
Qed.

Lemma retainAll_spec v o :
  wf v -> wf o -> compares_equal o ->
  exists v' ch gone, retainAll v (Other o) = Some (v', ch) /\
    removed v v' (filter (fun x => x ∈ contents o) (contents v)) gone.
Proof.
  intros Hv Ho Hcmp. unfold retainAll.
  destruct (retainAll_loop_spec o Ho Hcmp (Z.to_nat (count v)) v (count v - 1) false)
    as (v' & ch & gone & Heq & Hr); [done|wf_lia|lia|].
  exists v', ch, gone. split; [done|].
  rewrite take_ge, drop_ge, app_nil_r in Hr by (rewrite length_contents by done; lia). done.
Qed.

Lemma delete_loop_spec : forall n v i,
  wf v -> 0 <= i -> Z.of_nat n = count v - i ->
  exists v', delete_loop n v i = Some v' /\ wf v' /\ same_kind v v' /\
    count v' = count v /\ elements v' = elements v /\
    freed v' = freed v ++ deleted_all v (drop (Z.to_nat i) (contents v)).
Proof.
  induction n as [|n IH]; intros v i Hv Hi Hn; cbn [delete_loop].
  - rewrite (proj2 (Z.ltb_ge _ _)), drop_ge by (rewrite ?length_contents; done || lia).
    exists v. split_and!; try done. by rewrite app_nil_r.
  - rewrite (proj2 (Z.ltb_lt _ _)) by lia.
    destruct (aget_contents_Some v i) as (x & -> & Hx); [done|lia|]. cbn [mbind option_bind].
    destruct (delete_fields v x) as (Hc & He & Hcap & [Hk1 Hk2]).
    destruct (IH (delete v x) (i + 1)) as (v' & -> & ? & [Hk3 Hk4] & Hc' & He' & Hf);
      [by apply wf_delete|lia|lia|].
    exists v'. split_and!; [done|done|split; congruence|congruence|congruence|].
    rewrite Hf, freed_delete, contents_delete, (drop_S _ _ _ Hx).
    replace (S (Z.to_nat i)) with (Z.to_nat (i + 1)) by lia.
    unfold deleted_all. rewrite bind_cons, <- app_assoc. do 2 f_equal.
    apply list_bind_ext; [|done]. intros e. unfold deleted. by rewrite Hk1.
Qed.

Lemma deleted_all_false v l : deleter v = false -> deleted_all v l = [].
Proof.
  intros Hd. unfold deleted_all. induction l as [|e l IH]; [done|].
  rewrite bind_cons, IH. unfold deleted. by rewrite Hd, andb_false_r.
Qed.

Lemma removeAllElements_spec v :
  wf v -> exists v', removeAllElements v = Some v' /\ removed v v' [] (contents v).
Proof.
  intros Hv. unfold removeAllElements. destruct (deleter v) eqn:Hd.
  - destruct (delete_loop_spec (Z.to_nat (count v)) v 0)
      as (v' & -> & Hw & Hk & Hc & He & Hf); [done|lia|wf_lia|].
    cbn [mbind option_bind]. eexists. split; [done|]. split_and!; try done.
    constructor; wf_lia.
  - cbn [mbind option_bind]. eexists. split; [done|]. split_and!; try done.
    + constructor; wf_lia.
    + cbn. by rewrite deleted_all_false, app_nil_r.
Qed.

(** ** [removeAll] on the vector itself

    The loop reads the vector while it shrinks: each round removes an element
    and steps over the next one. *)

Fixpoint odds (l : list (UElement A)) : list (UElement A) :=
  match l with _ :: y :: l' => y :: odds l' | _ => [] end.

Lemma index_of_app_middle (p l : list (UElement A)) x :
  x ∉ p -> index_of x (p ++ x :: l) = Z.of_nat (length p).
Proof.
  induction p as [|y p IH]; intros Hp; simpl app; rewrite index_of_cons.
  - by rewrite decide_True.
  - apply not_elem_of_cons in Hp as [??]. rewrite decide_False, IH by done.
    rewrite (proj2 (Z.ltb_ge _ _)), length_cons by lia. lia.
Qed.

Lemma removeAll_loop_self : forall n v p l ch,
  wf v -> compares_equal v -> contents v = p ++ l -> NoDup (p ++ l) -> (length l <= n)%nat ->
  exists v' ch', removeAll_loop n v Self (Z.of_nat (length p)) ch = Some (v', ch') /\
    wf v' /\ same_kind v v' /\ contents v' = p ++ odds l.
Proof.
  induction n as [|n IH]; intros v p l ch Hv Hcmp Hct Hnd Hlen; cbn [removeAll_loop deref];
    (assert (Hcnt : count v = Z.of_nat (length p + length l));
     [pose proof (length_contents v Hv) as Hl; rewrite Hct, length_app in Hl; wf_lia|]).
  - destruct l; [|simpl in Hlen; lia].
    rewrite (proj2 (Z.ltb_ge _ _)) by (simpl in Hcnt; lia).
    by exists v, ch.
  - destruct l as [|x l].
    { rewrite (proj2 (Z.ltb_ge _ _)) by (simpl in Hcnt; lia). by exists v, ch. }
    rewrite (proj2 (Z.ltb_lt _ _)), aget_contents, Nat2Z.id, Hct by (simpl in Hcnt; lia).
    rewrite list_lookup_middle by done. cbn [mbind option_bind].
    apply NoDup_app in Hnd as Hnd'. destruct Hnd' as (Hp & Hd & Hl).
    rewrite indexOf_spec, Hct, index_of_app_middle by
      (done || (intros Hin; apply (Hd x Hin); by left)).
    cbn [mbind option_bind]. rewrite Z.geb_leb, (proj2 (Z.leb_le _ _)) by lia.
    destruct (removeElementAt_removed v (Z.of_nat (length p)))
      as (e & v1 & -> & _ & Hv1 & Hk1 & Hc1 & _); [done|simpl in Hcnt; lia|].
    cbn [mbind option_bind].
    rewrite Nat2Z.id, Hct in Hc1. unfold remove_at in Hc1.
    rewrite take_app_length in Hc1.
    rewrite drop_app_ge in Hc1 by lia.
    replace (S (length p) - length p)%nat with 1%nat in Hc1 by lia. simpl in Hc1.
    apply (compares_equal_kind _ v1) in Hcmp; [|done].
    destruct l as [|y l]; simpl odds.
    + exists v1, true. split; [|by rewrite Hc1, !app_nil_r; split_and!; try apply Hk1].
      rewrite app_nil_r in Hc1.
      destruct n; cbn [removeAll_loop deref]; rewrite (proj2 (Z.ltb_ge _ _)); try done.
      all: pose proof (length_contents v1 Hv1) as Hl1; rewrite Hc1 in Hl1; wf_lia.
    + replace (Z.of_nat (length p) + 1) with (Z.of_nat (length (p ++ [y])))
        by (rewrite length_app; simpl; lia).
      destruct (IH v1 (p ++ [y]) l true) as (v' & ch' & Heq & Hw & [Hk2 Hk3] & Hct'); try done.
      * by rewrite <- app_assoc.
      * rewrite <- app_assoc. simpl. rewrite NoDup_app. apply NoDup_cons in Hl as [_ Hl].
        split_and!; [done| |done]. intros z Hz Hin. apply (Hd z Hz). by right.
      * simpl in Hlen. lia.
      * exists v', ch'. rewrite <- app_assoc in Hct'. destruct Hk1 as [Hk1 Hk1'].
        split_and!; [done|done|split; congruence|done].
Qed.

Lemma removeAll_self v :
  wf v -> compares_equal v -> NoDup (contents v) ->
  exists v' ch, removeAll v Self = Some (v', ch) /\ wf v' /\ same_kind v v' /\
    contents v' = odds (contents v).
Proof.
  intros Hv Hcmp Hnd. unfold removeAll. cbn [deref].
  destruct (removeAll_loop_self (Z.to_nat (count v)) v [] (contents v) false)
    as (v' & ch & Heq & Hw & Hk & Hc); try done.
  - rewrite length_contents by done. done.
  - by exists v', ch.
Qed.

(** ** Sorted insertion *)

Section SortedInsert.
Context (compare : UElement A -> UElement A -> Z).
Let le x y : Prop := compare x y <= 0.
Context (le_trans : Transitive le) (le_total : forall x y, le x y \/ le y x).

Lemma sortedInsert_search_spec v e : wf v -> Sorted le (contents v) -> forall n min max,
  0 <= min <= max -> max <= count v -> max - min <= Z.of_nat n ->
  Forall (fun x => le x e) (take (Z.to_nat min) (contents v)) ->
  Forall (fun x => ~ le x e) (drop (Z.to_nat max) (contents v)) ->
  exists r, sortedInsert_search n (elements v) e compare min max = Some r /\ min <= r <= max /\
    Forall (fun x => le x e) (take (Z.to_nat r) (contents v)) /\
    Forall (fun x => ~ le x e) (drop (Z.to_nat r) (contents v)).
Proof.
  intros Hwf Hs n. induction n as [|n IH]; intros min max Hm Hmax Hn Hlo Hhi;
    cbn [sortedInsert_search]; destruct (Z.eqb_spec min max) as [<-|Hne]; cbn [negb].
  1,3: exists min; split_and!; done || lia.
  { lia. }
  set (probe := Z.quot (min + max) 2).
  assert (Hp : min <= probe < max) by (unfold probe; Z.to_euclidean_division_equations; lia).
  destruct (aget_contents_Some v probe) as (x & -> & Hx); [done|lia|].
  cbn [mbind option_bind]. rewrite Z.gtb_ltb.
  destruct (Z.ltb_spec 0 (compare x e)) as [Hgt|Hle].
  - destruct (IH min probe) as (r & Hr & Hrange & ?); [lia..|done| |].
    + apply Forall_lookup. intros k y Hy. rewrite lookup_drop in Hy.
      destruct k as [|k]; [rewrite Nat.add_0_r in Hy; simplify_eq; unfold le; lia|].
      intros Hye. pose proof (Sorted_lookup le _ (Z.to_nat probe) (Z.to_nat probe + S k) x y Hs
        ltac:(lia) Hx Hy) as Hxy. pose proof (le_trans _ _ _ Hxy Hye). unfold le in *. lia.
    + exists r. split; [done|]. split; [lia|done].
  - destruct (IH (probe + 1) max) as (r & Hr & Hrange & ?); [lia..| |done|].
    + apply Forall_lookup. intros k y Hy.
      assert (k < Z.to_nat (probe + 1))%nat
        by (apply lookup_lt_Some in Hy; rewrite length_take in Hy; lia).
      rewrite lookup_take_lt in Hy by done.
      destruct (decide (k = Z.to_nat probe)) as [->|]; [simplify_eq; unfold le; lia|].
      eapply le_trans; [|exact Hle].
      apply (Sorted_lookup le _ k (Z.to_nat probe) y x Hs ltac:(lia) Hy Hx).
    + exists r. split; [done|]. split; [lia|done].
Qed.

Lemma sortedInsert_spec v e st :
  wf v -> Sorted le (contents v) ->
  exists v' st' i, sortedInsert v e compare st = Some (v', st') /\ wf v' /\
    insert_result v v' st st' (insert_at i e (contents v)) /\
    Sorted le (insert_at i e (contents v)).
Proof.
  intros Hwf Hs. unfold sortedInsert.
  destruct (sortedInsert_search_spec v e Hwf Hs (Z.to_nat (count v)) 0 (count v))
    as (r & -> & Hr & Hlo & Hhi); [wf_lia|lia|lia|constructor| |].
  { rewrite drop_ge by (rewrite length_contents by done; lia). constructor. }
  assert (Hins : Sorted le (insert_at (Z.to_nat r) e (contents v))).
  { apply Sorted_insert_at; [done|done|done|]. eapply Forall_impl; [exact Hhi|].
    intros x Hx. by destruct (le_total x e). }
  cbn [mbind option_bind]. rewrite int32_succ_count by done.
  pose proof (ensureCapacity_spec v (count v + 1) st Hwf) as Hcap.
  destruct (ensureCapacity _ _ _) as [[[] v1] st1].
  - destruct Hcap as (Hcap & Hwf1 & Hc & Hcont & Hk & Hf & ->).
    destruct (insert_body v v1 e r) as (e0 & e1 & -> & H1 & ? & ?); [done|lia|done|done|lia|].
    cbn [mbind option_bind]. rewrite H1. eexists _, st, _. split; [done|].
    split; [done|]. split; [by apply insert_done|done].
  - destruct Hcap as [-> Hf]. eexists _, _, _. split; [done|]. split; [done|].
    split; [by apply insert_no_room|exact Hins].
Qed.

End SortedInsert.

(** ** Size changes and assignment *)

Lemma fill_loop_spec newSize : forall n (e : list (UElement A)) i,
  0 <= i -> Z.of_nat n = newSize - i -> newSize <= Z.of_nat (length e) ->
  fill_loop n e i newSize =
    Some (take (Z.to_nat i) e ++ replicate n Null ++ drop (Z.to_nat newSize) e).
Proof.
  induction n as [|n IH]; intros e i Hi Hn Hlen; cbn [fill_loop].
  - rewrite (proj2 (Z.ltb_ge _ _)) by lia. replace i with newSize by lia.
    cbn [replicate app]. by rewrite take_drop.
  - rewrite (proj2 (Z.ltb_lt _ _)) by lia. unfold aset.
    rewrite (proj2 (Z.leb_le _ _)), (proj2 (Z.ltb_lt _ _)) by lia. cbn [andb mbind option_bind].
    rewrite IH by (rewrite ?length_insert; lia).
    replace (Z.to_nat (i + 1)) with (S (Z.to_nat i)) by lia.
    rewrite (take_S_r _ _ Null) by (apply list_lookup_insert_eq; lia).
    rewrite take_insert_ge, drop_insert_lt by lia. by rewrite <- app_assoc.
Qed.

Lemma remove_down_loop_spec newSize : 0 <= newSize -> forall n v,
  wf v -> Z.of_nat n = count v - newSize ->
  exists v' gone, remove_down_loop n v (count v - 1) newSize = Some v' /\ count v' = newSize /\
    removed v v' (take (Z.to_nat newSize) (contents v)) gone.
Proof.
  intros Hs. induction n as [|n IH]; intros v Hv Hn; cbn [remove_down_loop]; rewrite Z.geb_leb.
  - rewrite (proj2 (Z.leb_gt _ _)) by lia. exists v, []. split; [done|]. split; [lia|].
    rewrite take_ge by (rewrite length_contents by done; lia). by apply removed_refl.
  - rewrite (proj2 (Z.leb_le _ _)) by lia.
    destruct (removeElementAt_spec v (count v - 1)) as (e & v1 & Hr & Hv1 & Hc1 & _);
      [done|lia|].
    destruct (removeElementAt_removed v (count v - 1)) as (e' & v1' & Hr' & _ & Hrem);
      [done|lia|].
    assert (v1' = v1) as -> by congruence.
    rewrite Hr. cbn [mbind option_bind]. rewrite <- Hc1.
    destruct (IH v1) as (v' & gone & -> & Hc' & Hrem'); [done|lia|].
    eexists v', _. split; [done|]. split; [done|].
    pose proof Hrem as (_ & _ & Hct1 & _ & _).
    replace (take (Z.to_nat newSize) (contents v)) with (take (Z.to_nat newSize) (contents v1));
      [by eapply removed_trans|].
    rewrite Hct1. unfold remove_at.
    rewrite take_app_le by (rewrite length_take, length_contents by done; lia).
    rewrite take_take. f_equal. lia.
Qed.

Lemma setSize_spec v newSize st :
  wf v -> 0 <= newSize ->
  exists v' st', setSize v newSize st = Some (v', st') /\ wf v' /\ same_kind v v' /\
    ((v' = v /\ U_FAILURE st' = true /\ count v < newSize) \/
     (st' = st /\ count v' = newSize /\
      contents v' = take (Z.to_nat newSize) (contents v) ++
        replicate (Z.to_nat (newSize - count v)) Null /\
      exists gone, freed v' = freed v ++ deleted_all v gone /\
        take (Z.to_nat newSize) (contents v) ++ gone ≡ₚ contents v)).
Proof.
  intros Hwf Hs. unfold setSize. rewrite (proj2 (Z.ltb_ge _ _)) by lia.
  rewrite Z.gtb_ltb. destruct (Z.ltb_spec (count v) newSize) as [Hgt|Hle].
  - pose proof (ensureCapacity_spec v newSize st Hwf) as Hcap.
    destruct (ensureCapacity _ _ _) as [[[] v1] st1].
    + destruct Hcap as (Hcap & Hwf1 & Hc & Hcont & Hk & Hf & ->).
      rewrite fill_loop_spec by wf_lia. cbn [mbind option_bind].
      assert (0 <= count v1 <= Z.of_nat (length (elements v1))) by wf_lia.
      eexists _, _. split; [done|].
      split; [apply wf_update; [done|wf_lia|destruct Hwf1; len]|].
      split; [done|]. right. split_and!; [done|done| |exists []].
      * rewrite <- Hcont. unfold contents; cbn. rewrite take_take, Nat.min_r, <- Hc by lia.
        rewrite take_app_ge by len. f_equal. rewrite take_app_le by len.
        rewrite (take_ge (replicate _ _)) by len. done.
      * rewrite !app_nil_r. split; [done|].
        by rewrite take_ge by (rewrite length_contents by done; lia).
    + destruct Hcap as [-> Hf]. eexists _, _. split_and!; try done. by left.
  - destruct (remove_down_loop_spec newSize Hs (Z.to_nat (count v - newSize)) v)
      as (v1 & gone & -> & Hc1 & Hw1 & Hk1 & Hct1 & Hp1 & Hf1); [done|lia|].
    cbn [mbind option_bind]. eexists _, _. split; [done|].
    split; [constructor; wf_lia|]. split; [done|]. right. split_and!; try done.
    + replace (Z.to_nat (newSize - count v)) with 0%nat by lia. rewrite app_nil_r, <- Hct1.
      unfold contents; cbn. by rewrite Hc1.
    + by exists gone.
Qed.

Lemma assign_loop_spec o assigner : wf o -> forall n v i,
  wf v -> count v = count o -> 0 <= i -> Z.of_nat n = count o - i ->
  exists v', assign_loop n v o assigner i = Some v' /\ wf v' /\ same_kind v v' /\
    count v' = count o /\
    contents v' = take (Z.to_nat i) (contents v) ++ (assigner <$> drop (Z.to_nat i) (contents o)) /\
    freed v' = freed v ++ deleted_all v (drop (Z.to_nat i) (contents v)).
Proof.
  intros Ho n. induction n as [|n IH]; intros v i Hv Hc Hi Hn; cbn [assign_loop].
  - rewrite (proj2 (Z.ltb_ge _ _)) by lia. exists v.
    rewrite !drop_ge, take_ge by (rewrite length_contents by done; lia).
    by rewrite !app_nil_r.
  - rewrite (proj2 (Z.ltb_lt _ _)) by lia.
    destruct (aget_contents_Some v i) as (x & -> & Hx); [done|lia|]. cbn [mbind option_bind].
    destruct (aget_contents_Some o i) as (y & -> & Hy); [done|lia|]. cbn [mbind option_bind].
    destruct (delete_fields v x) as (Hdc & Hde & Hdcap & [Hk1 Hk2]).
    unfold aset. rewrite Hde, (proj2 (Z.leb_le _ _)), (proj2 (Z.ltb_lt _ _)) by wf_lia.
    cbn [andb mbind option_bind].
    set (v1 := set_elements (delete v x) _).
    assert (Hct1 : contents v1 = <[Z.to_nat i := assigner y]> (contents v)).
    { unfold contents, v1; cbn. rewrite Hdc, take_insert_lt by lia. done. }
    destruct (IH v1 (i + 1)) as (v' & -> & Hw & [Hk3 Hk4] & Hc' & Hct & Hf).
    + unfold v1. constructor; cbn; rewrite ?length_insert, ?Hdc, ?Hdcap; wf_lia.
    + cbn. lia.
    + lia.
    + lia.
    + exists v'. split; [done|]. split; [done|].
      split; [split; [rewrite Hk3|rewrite Hk4]; done|]. split; [done|].
      replace (Z.to_nat (i + 1)) with (S (Z.to_nat i)) in Hct, Hf by lia.
      assert (Z.to_nat i < length (contents v))%nat by (by apply lookup_lt_Some in Hx).
      split.
      * rewrite Hct, Hct1, (drop_S (contents o) y _ Hy).
        rewrite (take_S_r _ _ (assigner y)) by (by apply list_lookup_insert_eq).
        rewrite take_insert_ge, <- app_assoc by lia. done.
      * rewrite Hf. cbn. rewrite freed_delete, Hct1, drop_insert_lt, (drop_S _ _ _ Hx) by lia.
        unfold deleted_all. rewrite bind_cons, <- app_assoc. do 2 f_equal.
        apply list_bind_ext; [|done]. intros e. unfold deleted, v1; cbn. by rewrite Hk1.
Qed.

Lemma assign_spec v o assigner st :
  wf v -> wf o -> U_SUCCESS st = true ->
  exists v' st', assign v o assigner st = Some (v', st') /\ wf v' /\ same_kind v v' /\
    (U_SUCCESS st' = true -> contents v' = assigner <$> contents o) /\
    (U_SUCCESS st' = false -> contents v' = contents v).
Proof.
  intros Hv Ho Hst. unfold assign.
  pose proof (ensureCapacity_spec v (count o) st Hv) as Hcap.
  destruct (ensureCapacity _ _ _) as [[[] v1] st1].
  - destruct Hcap as (Hcap & Hwf1 & Hc & Hcont & [Hk1 Hk2] & Hf & ->).
    destruct (setSize_spec v1 (count o) st Hwf1) as (v2 & st2 & -> & Hw2 & [Hk3 Hk4] & Hcase);
      [wf_lia|]. cbn [mbind option_bind].
    destruct Hcase as [(-> & Hfail & _)|(-> & Hc2 & Hct2 & _)].
    + rewrite U_FAILURE_SUCCESS in Hfail. apply negb_true_iff in Hfail. rewrite Hfail.
      eexists _, _. split; [done|]. split_and!; [done|split; congruence| |done]. by rewrite Hfail.
    + rewrite Hst.
      destruct (assign_loop_spec o assigner Ho (Z.to_nat (count o)) v2 0)
        as (v' & -> & Hw & [Hk5 Hk6] & _ & Hct & _); [done|done|lia|wf_lia|].
      cbn [mbind option_bind]. eexists _, _. split; [done|].
      split_and!; [done|split; congruence| |by rewrite Hst]. intros _. exact Hct.
  - destruct Hcap as [-> Hf]. eexists _, _. split; [done|]. split; [done|]. split; [done|].
    rewrite U_FAILURE_SUCCESS in Hf. apply negb_true_iff in Hf. split; [by rewrite Hf|done].
Qed.

Lemma new_spec d c n v st :
  new d c n U_ZERO_ERROR = (v, st) -> U_SUCCESS st = true ->
  wf v /\ contents v = [] /\ comparer v = c /\ deleter v = d /\ freed v = [].
Proof.
  unfold new, _init. cbn [U_FAILURE].
  set (n0 := if _ : bool then DEFAULT_CAPACITY else n).
  assert (1 <= n0 <= MAX_CELLS).
  { unfold n0, MAX_CELLS, DEFAULT_CAPACITY, INT32_MAX. zcases; cbn [orb]; zcases; dlia. }
  destruct (uprv_malloc n0) as [e|] eqn:He; cbn; intros [= <- <-] Hst; [|done].
  apply uprv_malloc_length in He. split_and!; try done. constructor; wf_lia.
Qed.

End Theorems.
End UVector.
