(* ===== verification/InversionList.v ===== *)
(** * Inversion lists: the array algorithms of UnicodeSet
    (src/common/uniset.cpp)

    A set of code points is a strictly increasing array that ends with
    [UNICODESET_HIGH]: the elements at even positions start a range, the ones at
    odd positions end it.  The loops below are those of [findCodePoint],
    [exclusiveOr], [add(const UChar32*, ...)] and [retain]: they index the
    arrays as the source does, and an access outside an array gives [None]. *)
From S2P Require Import Prelude.

Local Open Scope Z_scope.

Definition UNICODESET_HIGH : Z := 0x110000.
Definition UNICODESET_LOW : Z := 0.

(** ** Search *)

Fixpoint findCodePoint_loop (fuel : nat) (list : list Z) (c lo hi : Z) : option Z :=
  match fuel with
  | O => None
  | S fuel' =>
      let i := Z.shiftr (lo + hi) 1 in
      if i =? lo then Some hi
      else
        x ← aget list i;
        if c <? x then findCodePoint_loop fuel' list c lo i
        else findCodePoint_loop fuel' list c i hi
  end.

Definition findCodePoint (list : list Z) (len c : Z) : option Z :=
  l0 ← aget list 0;
  if c <? l0 then Some 0
  else
    let lo := 0 in
    let hi := len - 1 in
    if lo >=? hi then Some hi
    else
      lh ← aget list (hi - 1);
      if c >=? lh then Some hi
      else findCodePoint_loop (Z.to_nat len) list c lo hi.

(** ** The merge loops

    [list] and [other] are the two arrays, [buffer] the array written; the
    result is the buffer and the number [k] of cells written.  Each round
    advances [i] or [j], and the fuel given by the callers is the sum of the two
    lengths. *)

Section Loops.
Context (list other : list Z).

Fixpoint exclusiveOr_loop (fuel : nat) (buffer : Datatypes.list Z) (i j k a b : Z)
  : option (Datatypes.list Z * Z) :=
  match fuel with
  | O => None
  | S fuel' =>
      if a <? b then
        buffer ← aset buffer k a; a' ← aget list i;
        exclusiveOr_loop fuel' buffer (i + 1) j (k + 1) a' b
      else if b <? a then
        buffer ← aset buffer k b; b' ← aget other j;
        exclusiveOr_loop fuel' buffer i (j + 1) (k + 1) a b'
      else if negb (a =? UNICODESET_HIGH) then
        a' ← aget list i; b' ← aget other j;
        exclusiveOr_loop fuel' buffer (i + 1) (j + 1) k a' b'
      else
        buffer ← aset buffer k UNICODESET_HIGH; Some (buffer, k + 1)
  end.

(** [loop_end: buffer[k++] = UNICODESET_HIGH;] *)
Definition loop_end (buffer : Datatypes.list Z) (k : Z) : option (Datatypes.list Z * Z) :=
  buffer ← aset buffer k UNICODESET_HIGH; Some (buffer, k + 1).

Fixpoint add_loop (fuel : nat) (buffer : Datatypes.list Z) (i j k a b polarity : Z)
  : option (Datatypes.list Z * Z) :=
  match fuel with
  | O => None
  | S fuel' =>
      match polarity with
      | 0 =>
          if a <? b then
            top ← (if 0 <? k then aget buffer (k - 1) else Some (-1));
            li ← aget list i;
            if (0 <? k) && (a <=? top) then
              add_loop fuel' buffer (i + 1) j (k - 1) (Z.max li top) b (Z.lxor polarity 1)
            else
              buffer ← aset buffer k a;
              add_loop fuel' buffer (i + 1) j (k + 1) li b (Z.lxor polarity 1)
          else if b <? a then
            top ← (if 0 <? k then aget buffer (k - 1) else Some (-1));
            oj ← aget other j;
            if (0 <? k) && (b <=? top) then
              add_loop fuel' buffer i (j + 1) (k - 1) a (Z.max oj top) (Z.lxor polarity 2)
            else
              buffer ← aset buffer k b;
              add_loop fuel' buffer i (j + 1) (k + 1) a oj (Z.lxor polarity 2)
          else if a =? UNICODESET_HIGH then loop_end buffer k
          else
            top ← (if 0 <? k then aget buffer (k - 1) else Some (-1));
            li ← aget list i;
            if (0 <? k) && (a <=? top) then
              b' ← aget other j;
              add_loop fuel' buffer (i + 1) (j + 1) (k - 1) (Z.max li top) b'
                (Z.lxor (Z.lxor polarity 1) 2)
            else
              buffer ← aset buffer k a;
              b' ← aget other j;
              add_loop fuel' buffer (i + 1) (j + 1) (k + 1) li b' (Z.lxor (Z.lxor polarity 1) 2)
      | 3 =>
          if b <=? a then
            if a =? UNICODESET_HIGH then loop_end buffer k
            else
              buffer ← aset buffer k a; a' ← aget list i; b' ← aget other j;
              add_loop fuel' buffer (i + 1) (j + 1) (k + 1) a' b' (Z.lxor (Z.lxor polarity 1) 2)
          else
            if b =? UNICODESET_HIGH then loop_end buffer k
            else
              buffer ← aset buffer k b; a' ← aget list i; b' ← aget other j;
              add_loop fuel' buffer (i + 1) (j + 1) (k + 1) a' b' (Z.lxor (Z.lxor polarity 1) 2)
      | 1 =>
          if a <? b then
            buffer ← aset buffer k a; a' ← aget list i;
            add_loop fuel' buffer (i + 1) j (k + 1) a' b (Z.lxor polarity 1)
          else if b <? a then
            b' ← aget other j;
            add_loop fuel' buffer i (j + 1) k a b' (Z.lxor polarity 2)
          else if a =? UNICODESET_HIGH then loop_end buffer k
          else
            a' ← aget list i; b' ← aget other j;
            add_loop fuel' buffer (i + 1) (j + 1) k a' b' (Z.lxor (Z.lxor polarity 1) 2)
      | 2 =>
          if b <? a then
            buffer ← aset buffer k b; b' ← aget other j;
            add_loop fuel' buffer i (j + 1) (k + 1) a b' (Z.lxor polarity 2)
          else if a <? b then
            a' ← aget list i;
            add_loop fuel' buffer (i + 1) j k a' b (Z.lxor polarity 1)
          else if a =? UNICODESET_HIGH then loop_end buffer k
          else
            a' ← aget list i; b' ← aget other j;
            add_loop fuel' buffer (i + 1) (j + 1) k a' b' (Z.lxor (Z.lxor polarity 1) 2)
      | _ => add_loop fuel' buffer i j k a b polarity
      end
  end.

Fixpoint retain_loop (fuel : nat) (buffer : Datatypes.list Z) (i j k a b polarity : Z)
  : option (Datatypes.list Z * Z) :=
  match fuel with
  | O => None
  | S fuel' =>
      match polarity with
      | 0 =>
          if a <? b then
            a' ← aget list i; retain_loop fuel' buffer (i + 1) j k a' b (Z.lxor polarity 1)
          else if b <? a then
            b' ← aget other j; retain_loop fuel' buffer i (j + 1) k a b' (Z.lxor polarity 2)
          else if a =? UNICODESET_HIGH then loop_end buffer k
          else
            buffer ← aset buffer k a; a' ← aget list i; b' ← aget other j;
            retain_loop fuel' buffer (i + 1) (j + 1) (k + 1) a' b' (Z.lxor (Z.lxor polarity 1) 2)
      | 3 =>
          if a <? b then
            buffer ← aset buffer k a; a' ← aget list i;
            retain_loop fuel' buffer (i + 1) j (k + 1) a' b (Z.lxor polarity 1)
          else if b <? a then
            buffer ← aset buffer k b; b' ← aget other j;
            retain_loop fuel' buffer i (j + 1) (k + 1) a b' (Z.lxor polarity 2)
          else if a =? UNICODESET_HIGH then loop_end buffer k
          else
            buffer ← aset buffer k a; a' ← aget list i; b' ← aget other j;
            retain_loop fuel' buffer (i + 1) (j + 1) (k + 1) a' b' (Z.lxor (Z.lxor polarity 1) 2)
      | 1 =>
          if a <? b then
            a' ← aget list i; retain_loop fuel' buffer (i + 1) j k a' b (Z.lxor polarity 1)
          else if b <? a then
            buffer ← aset buffer k b; b' ← aget other j;
            retain_loop fuel' buffer i (j + 1) (k + 1) a b' (Z.lxor polarity 2)
          else if a =? UNICODESET_HIGH then loop_end buffer k
          else
            a' ← aget list i; b' ← aget other j;
            retain_loop fuel' buffer (i + 1) (j + 1) k a' b' (Z.lxor (Z.lxor polarity 1) 2)
      | 2 =>
          if b <? a then
            b' ← aget other j; retain_loop fuel' buffer i (j + 1) k a b' (Z.lxor polarity 2)
          else if a <? b then
            buffer ← aset buffer k a; a' ← aget list i;
            retain_loop fuel' buffer (i + 1) j (k + 1) a' b (Z.lxor polarity 1)
          else if a =? UNICODESET_HIGH then loop_end buffer k
          else
            a' ← aget list i; b' ← aget other j;
            retain_loop fuel' buffer (i + 1) (j + 1) k a' b' (Z.lxor (Z.lxor polarity 1) 2)
      | _ => retain_loop fuel' buffer i j k a b polarity
      end
  end.

(** The initial values of the three loops. *)
Definition exclusiveOr_run (buffer : Datatypes.list Z) (len otherLen polarity : Z)
  : option (Datatypes.list Z * Z) :=
  let fuel := Z.to_nat (len + otherLen) in
  a ← aget list 0;
  if (polarity =? 1) || (polarity =? 2) then
    o0 ← aget other 0;
    if o0 =? UNICODESET_LOW then
      b ← aget other 1; exclusiveOr_loop fuel buffer 1 1 0 a b
    else exclusiveOr_loop fuel buffer 1 0 0 a UNICODESET_LOW
  else
    b ← aget other 0; exclusiveOr_loop fuel buffer 1 1 0 a b.

Definition add_run (buffer : Datatypes.list Z) (len otherLen polarity : Z)
  : option (Datatypes.list Z * Z) :=
  a ← aget list 0; b ← aget other 0;
  add_loop (Z.to_nat (len + otherLen)) buffer 1 1 0 a b polarity.

Definition retain_run (buffer : Datatypes.list Z) (len otherLen polarity : Z)
  : option (Datatypes.list Z * Z) :=
  a ← aget list 0; b ← aget other 0;
  retain_loop (Z.to_nat (len + otherLen)) buffer 1 1 0 a b polarity.

End Loops.

(** ** The set an inversion list stands for *)

(** The number of elements up to [c] is odd. *)
Fixpoint par (l : list Z) (c : Z) : bool :=
  match l with [] => false | x :: l' => xorb (x <=? c) (par l' c) end.

Definition mem (l : list Z) (c : Z) : bool := (c <? UNICODESET_HIGH) && par l c.

(** A strictly increasing list of code points, ended by HIGH. *)
Definition hsorted (l : list Z) : Prop :=
  StronglySorted Z.lt l /\ last l = Some UNICODESET_HIGH.

Definition wf_list (l : list Z) : Prop := hsorted l /\ Forall (fun x => 0 <= x) l.

Lemma par_app l1 l2 c : par (l1 ++ l2) c = xorb (par l1 c) (par l2 c).
Proof. induction l1 as [|x l IH]; simpl; [by destruct (par l2 c)|]. by rewrite IH, xorb_assoc. Qed.

Lemma par_cons a l c : par (a :: l) c = xorb (a <=? c) (par l c).
Proof. done. Qed.

Lemma par_above l c : Forall (fun x => c < x) l -> par l c = false.
Proof. induction 1; simpl; [done|]. rewrite (proj2 (Z.leb_gt _ _)) by done. done. Qed.

Lemma hsorted_cons a x l : hsorted (a :: x :: l) <-> a < x /\ hsorted (x :: l).
Proof.
  unfold hsorted. split.
  - intros [Hs Hl]. inversion_clear Hs as [|? ? Hs' Ha]. split_and!; [by inversion Ha|done|done].
  - intros (Hlt & Hs & Hl). split_and!; [|done]. constructor; [done|].
    inversion_clear Hs as [|? ? Hs' Hx]. constructor; [done|].
    eapply Forall_impl; [exact Hx|]. simpl. lia.
Qed.

Lemma hsorted_single a : hsorted [a] <-> a = UNICODESET_HIGH.
Proof. unfold hsorted. split; [intros [_ H]; by injection H|intros ->]. split; repeat constructor. Qed.

Lemma hsorted_head a l : hsorted (a :: l) -> a <= UNICODESET_HIGH.
Proof.
  revert a. induction l as [|x l IH]; intros a; [by intros ->%hsorted_single|].
  intros [? ?%IH]%hsorted_cons. lia.
Qed.

(** Below HIGH there is a next element. *)
Lemma hsorted_next a l :
  hsorted (a :: l) -> a <> UNICODESET_HIGH -> exists x l', l = x :: l' /\ a < x /\ hsorted l.
Proof.
  destruct l as [|x l]; [by intros ->%hsorted_single|].
  intros [? ?]%hsorted_cons _. by exists x, l.
Qed.

Lemma hsorted_above a l : hsorted (a :: l) -> Forall (fun x => a < x) l.
Proof. intros [Hs _]. by inversion Hs. Qed.

Lemma hsorted_not_nil l : hsorted l -> l <> [].
Proof. by intros [_ H] ->. Qed.

(** ** Reading a suffix, writing the buffer

    [suffix l i xs]: [xs] are the cells of [l] from [i] on, up to HIGH.
    [written buf k b]: the first [k] cells of [buf] hold [b]. *)

Definition suffix (l : list Z) (i : Z) (xs : list Z) : Prop :=
  0 <= i /\ exists junk, drop (Z.to_nat i) l = xs ++ junk.

Definition written (buf : list Z) (k : Z) (b : list Z) : Prop :=
  k = Z.of_nat (length b) /\ take (length b) buf = b /\ (length b <= length buf)%nat.

Lemma suffix_read l i x xs :
  suffix l i (x :: xs) -> aget l i = Some x /\ suffix l (i + 1) xs.
Proof.
  intros (Hi & junk & Hd). split.
  - unfold aget. rewrite (proj2 (Z.leb_le _ _)) by done.
    rewrite <- (Nat.add_0_r (Z.to_nat i)), <- lookup_drop, Hd. done.
  - split; [lia|]. exists junk. replace (Z.to_nat (i + 1)) with (Z.to_nat i + 1)%nat by lia.
    by rewrite <- drop_drop, Hd.
Qed.

Lemma written_push buf k b x :
  written buf k b -> (length b < length buf)%nat ->
  exists buf', aset buf k x = Some buf' /\ written buf' (k + 1) (b ++ [x]) /\
    length buf' = length buf.
Proof.
  intros (-> & Ht & Hlen) Hroom. exists (<[length b := x]> buf).
  rewrite aset_nat by done. split; [done|]. split; [|by rewrite length_insert].
  split; [rewrite length_app; simpl; lia|]. rewrite length_app, length_insert. simpl.
  replace (length b + 1)%nat with (S (length b)) by lia. split; [|lia].
  rewrite (take_S_r _ _ x) by (by apply list_lookup_insert_eq).
  by rewrite take_insert_ge, Ht by lia.
Qed.

Lemma written_top buf k b x : written buf k (b ++ [x]) -> aget buf (k - 1) = Some x.
Proof.
  intros (-> & Ht & Hlen). rewrite length_app in *. simpl in *.
  replace (Z.of_nat (length b + 1) - 1) with (Z.of_nat (length b)) by lia.
  rewrite aget_nat, <- (lookup_take_lt buf (length b + 1)), Ht by lia.
  by rewrite list_lookup_middle.
Qed.

Lemma written_pop buf k b x : written buf k (b ++ [x]) -> written buf (k - 1) b.
Proof.
  intros (-> & Ht & Hlen). rewrite length_app in *. simpl in *. split; [lia|]. split; [|lia].
  apply (f_equal (take (length b))) in Ht. rewrite take_take, Nat.min_l in Ht by lia.
  by rewrite take_app_length in Ht.
Qed.

Lemma written_start buf : written buf 0 [].
Proof. split; [done|]. by split; [|simpl; lia]. Qed.

(** ** The loops: shared invariant and proof steps *)

(** What a loop delivers: the buffer holds a sorted list ended by HIGH, whose
    elements come from the arguments, and which toggles where [f] says. *)
Definition delivers (res : option (list Z * Z)) (buffer buf la lb : list Z)
    (f : Z -> bool) : Prop :=
  exists buffer' k' out,
    res = Some (buffer', k') /\ length buffer' = length buffer /\
    written buffer' k' out /\ hsorted out /\
    (forall P : Z -> Prop, Forall P buf -> Forall P la -> Forall P lb -> Forall P out) /\
    forall c, c < UNICODESET_HIGH -> par out c = f c.

Lemma StronglySorted_snoc (l : list Z) x :
  StronglySorted Z.lt l -> Forall (fun y => y < x) l -> StronglySorted Z.lt (l ++ [x]).
Proof.
  intros Hs Hl. rewrite Forall_forall in Hl. apply StronglySorted_app. split_and!; [|done|].
  - intros y z Hy [->|[]%not_elem_of_nil]%elem_of_cons. by apply Hl.
  - repeat constructor.
Qed.

Lemma hsorted_snoc l :
  StronglySorted Z.lt l -> Forall (fun y => y < UNICODESET_HIGH) l ->
  hsorted (l ++ [UNICODESET_HIGH]).
Proof. intros. split; [by apply StronglySorted_snoc|apply last_snoc]. Qed.

Lemma par_snoc_high l c : c < UNICODESET_HIGH -> par (l ++ [UNICODESET_HIGH]) c = par l c.
Proof.
  intros. rewrite par_app. simpl. rewrite (proj2 (Z.leb_gt _ _)) by done.
  by destruct (par l c).
Qed.

Lemma Forall_lt_weaken (l : list Z) a b :
  a <= b -> Forall (fun y => y < a) l -> Forall (fun y => y < b) l.
Proof. intros ? H. eapply Forall_impl; [exact H|]. simpl. lia. Qed.

(** The exit of a loop: both cursors are at HIGH. *)
Lemma delivers_end buffer k buf la lb f :
  written buffer k buf -> (length buf < length buffer)%nat ->
  StronglySorted Z.lt buf -> Forall (fun y => y < UNICODESET_HIGH) buf ->
  UNICODESET_HIGH ∈ la \/ UNICODESET_HIGH ∈ lb -> (forall c, c < UNICODESET_HIGH -> par buf c = f c) ->
  delivers (loop_end buffer k) buffer buf la lb f.
Proof.
  intros Hw Hroom Hs Hhi Hin Hf. unfold loop_end.
  destruct (written_push buffer k buf UNICODESET_HIGH) as (buf' & -> & Hw' & Hl); [done|done|].
  cbn. exists buf', (k + 1), (buf ++ [UNICODESET_HIGH]).
  split_and!; [done|done|done|by apply hsorted_snoc| |].
  - intros P H1 H2 H3. rewrite Forall_app, Forall_singleton. rewrite Forall_forall in H2, H3.
    destruct Hin; auto.
  - intros c Hc. by rewrite par_snoc_high, Hf.
Qed.

(** Facts of a comparison point [v] that is at or below both cursors: before it
    neither list toggles. *)
Lemma par_below a l v c : hsorted (a :: l) -> v <= a -> c < v -> par (a :: l) c = false.
Proof.
  intros Hl ? Hc. apply par_above. constructor; [lia|].
  eapply Forall_impl; [by apply hsorted_above|]. simpl. lia.
Qed.

Lemma hsorted_from a l : hsorted (a :: l) -> Forall (fun x => a <= x) (a :: l).
Proof.
  intros H. constructor; [lia|]. eapply Forall_impl; [by apply hsorted_above|]. simpl. lia.
Qed.

Section LoopTheorems.
Context (list other : Datatypes.list Z).
Local Abbreviation zlist := (Datatypes.list Z).

(** The cursors and the buffer between two rounds. *)
Record cursors (buffer : zlist) (i j k a b : Z) (xs ys buf : zlist) (n : nat) : Prop := {
  cur_a : hsorted (a :: xs);
  cur_b : hsorted (b :: ys);
  cur_list : suffix list i xs;
  cur_other : suffix other j ys;
  cur_written : written buffer k buf;
  cur_sorted : StronglySorted Z.lt buf;
  cur_fuel : (length xs + length ys < n)%nat;
  cur_room : (length buf + length xs + length ys < length buffer)%nat
}.

(** Taking the next element of [list] or [other], with or without writing. *)
Lemma cursors_next_a buffer i j k a b xs ys buf n :
  cursors buffer i j k a b xs ys buf n -> a <> UNICODESET_HIGH ->
  exists x xs', xs = x :: xs' /\ a < x /\ aget list i = Some x /\
    (S (length buf + length xs' + length ys) < length buffer)%nat /\
    cursors buffer (i + 1) j k x b xs' ys buf (pred n).
Proof.
  intros [Ha Hb Hl Ho Hw Hs Hn Hr] Hne.
  destruct (hsorted_next a xs Ha Hne) as (x & xs' & -> & Hlt & Hx).
  destruct (suffix_read _ _ _ _ Hl) as [Hget Hl']. exists x, xs'.
  simpl in *. split_and!; [done|done|done|lia|]. constructor; try done; lia.
Qed.

Lemma cursors_next_b buffer i j k a b xs ys buf n :
  cursors buffer i j k a b xs ys buf n -> b <> UNICODESET_HIGH ->
  exists y ys', ys = y :: ys' /\ b < y /\ aget other j = Some y /\
    (S (length buf + length xs + length ys') < length buffer)%nat /\
    cursors buffer i (j + 1) k a y xs ys' buf (pred n).
Proof.
  intros [Ha Hb Hl Ho Hw Hs Hn Hr] Hne.
  destruct (hsorted_next b ys Hb Hne) as (y & ys' & -> & Hlt & Hy).
  destruct (suffix_read _ _ _ _ Ho) as [Hget Ho']. exists y, ys'.
  simpl in *. split_and!; [done|done|done|lia|]. constructor; try done; lia.
Qed.

(** Writing needs a spare cell: it is granted together with an advance. *)
Lemma cursors_push buffer i j k a b xs ys buf n v :
  cursors buffer i j k a b xs ys buf n -> Forall (fun y => y < v) buf ->
  (S (length buf + length xs + length ys) < length buffer)%nat ->
  exists buffer', aset buffer k v = Some buffer' /\ length buffer' = length buffer /\
    cursors buffer' i j (k + 1) a b xs ys (buf ++ [v]) n.
Proof.
  intros [Ha Hb Hl Ho Hw Hs Hn Hr] Hv Hroom.
  destruct (written_push buffer k buf v Hw) as (buffer' & Hset & Hw' & Hlen); [lia|].
  exists buffer'. split_and!; [done|done|]. constructor; try done.
  - by apply StronglySorted_snoc.
  - rewrite length_app, Hlen. simpl. lia.
Qed.

Lemma cursors_weaken buffer i j k a b xs ys buf n m :
  cursors buffer i j k a b xs ys buf n -> (n <= m)%nat -> cursors buffer i j k a b xs ys buf m.
Proof. intros [] ?. constructor; try done; lia. Qed.

(** A delivery after a step is a delivery before it. *)
Lemma delivers_step res buffer buffer' buf buf' la la' lb lb' f f' :
  delivers res buffer' buf' la' lb' f' -> length buffer' = length buffer ->
  (forall P : Z -> Prop, Forall P buf -> Forall P la -> Forall P lb ->
     Forall P buf' /\ Forall P la' /\ Forall P lb') ->
  (forall c, c < UNICODESET_HIGH -> f' c = f c) ->
  delivers res buffer buf la lb f.
Proof.
  intros (b & k & out & Hres & Hlen & Hw & Hs & HP & Hf) Hl HP' Hff.
  exists b, k, out. split_and!; [done|congruence|done|done| |].
  - intros P H1 H2 H3. destruct (HP' P H1 H2 H3) as (? & ? & ?). auto.
  - intros c Hc. by rewrite Hf, Hff.
Qed.

(** ** Intersection: [retain] *)

(** What is toggled from the current point on, for the cursor positions [a :: xs]
    and [b :: ys] when the polarity says on which side the walk is. *)
Definition retain_spec (polarity : Z) (la lb buf : zlist) (c : Z) : bool :=
  xorb (xorb (par buf c) (Z.testbit polarity 0 && Z.testbit polarity 1))
    (xorb (Z.testbit polarity 0) (par la c) && xorb (Z.testbit polarity 1) (par lb c)).

(** The steps shared by the branches of the loops: the bounds on the buffer, the
    origin of the elements, and the toggles at the point [v]. *)
Ltac buf_bounds :=
  rewrite ?Forall_app, ?Forall_singleton;
  repeat match goal with |- _ /\ _ => split end;
  try lia;
  try match goal with H : Forall (fun y => y < _) ?l |- Forall _ ?l =>
        eapply Forall_lt_weaken; [|exact H]; lia end.

Ltac origins :=
  let P := fresh "P" in intros P ? ? ?;
  rewrite ?Forall_app, ?Forall_cons, ?Forall_nil in *; tauto.

Ltac toggles v Hlow :=
  let c := fresh "c" in
  intros c ?; rewrite ?par_app, ?(par_cons v); change (par [] c) with false;
  destruct (Z.leb_spec v c);
  [|let H1 := fresh in let H2 := fresh in
    destruct (Hlow c) as [H1 H2]; [lia|]; rewrite ?H1, ?H2; clear H1 H2];
  repeat match goal with |- context [par ?l c] => destruct (par l c) end; reflexivity.

Lemma retain_loop_spec : forall n buffer i j k a b polarity xs ys buf,
  cursors buffer i j k a b xs ys buf n ->
  Forall (fun y => y < a) buf -> Forall (fun y => y < b) buf ->
  0 <= polarity < 4 ->
  delivers (retain_loop list other n buffer i j k a b polarity) buffer buf (a :: xs) (b :: ys)
    (retain_spec polarity (a :: xs) (b :: ys) buf).
Proof.
  induction n as [|n IH]; intros buffer i j k a b polarity xs ys buf C Hba Hbb Hpol.
  { destruct C as [? ? ? ? ? ? ? ?]. lia. }
  pose proof (hsorted_head _ _ (cur_a _ _ _ _ _ _ _ _ _ _ C)) as HaH.
  pose proof (hsorted_head _ _ (cur_b _ _ _ _ _ _ _ _ _ _ C)) as HbH.
  assert (Hcase : polarity = 0 \/ polarity = 1 \/ polarity = 2 \/ polarity = 3) by lia.
  destruct (Z.lt_trichotomy a b) as [Hab|[Hab|Hab]].
  - (* the next point is a *)
    destruct (cursors_next_a _ _ _ _ _ _ _ _ _ _ C) as (x & xs' & -> & Hlt & Hget & Hroom & C');
      [lia|]. cbn [pred] in C'.
    destruct (cursors_push _ _ _ _ _ _ _ _ _ _ a C') as (buffer' & Hset & Hlen & C''); [done|done|].
    assert (Hlow : forall c, c < a -> par (x :: xs') c = false /\ par (b :: ys) c = false).
    { intros c Hc. destruct C'. split; eapply par_below; try done; lia. }
    destruct Hcase as [->|[->|[->| ->]]]; cbn [retain_loop];
      rewrite ?(proj2 (Z.ltb_lt a b) Hab), ?(proj2 (Z.ltb_ge b a)), ?Hset by lia;
      cbn [mbind option_bind]; rewrite Hget; cbn [mbind option_bind];
      (eapply delivers_step;
        [eapply IH; [first [exact C''|exact C']|buf_bounds|buf_bounds|done]|done|origins
        |unfold retain_spec; toggles a Hlow]).
  - (* both lists toggle here *)
    subst b. destruct (Z.eq_dec a UNICODESET_HIGH) as [->|Hne].
    + pose proof (cur_room _ _ _ _ _ _ _ _ _ _ C).
      assert (Hend : forall l, hsorted (UNICODESET_HIGH :: l) -> l = []).
      { intros [|x l]; [done|]. intros [? ?%hsorted_head]%hsorted_cons. lia. }
      rewrite (Hend _ (cur_a _ _ _ _ _ _ _ _ _ _ C)), (Hend _ (cur_b _ _ _ _ _ _ _ _ _ _ C)).
      destruct Hcase as [->|[->|[->| ->]]]; cbn [retain_loop];
        rewrite !Z.ltb_irrefl, Z.eqb_refl;
        (eapply delivers_end; [exact (cur_written _ _ _ _ _ _ _ _ _ _ C)|lia
          |exact (cur_sorted _ _ _ _ _ _ _ _ _ _ C)|done|left; by left|]);
        intros c Hc; unfold retain_spec; rewrite !(par_above [_]) by (by constructor);
        by destruct (par buf c).
    + destruct (cursors_next_a _ _ _ _ _ _ _ _ _ _ C) as (x & xs' & -> & Hlt & Hget & Hroom & C');
        [done|]. cbn [pred] in C'.
      destruct (cursors_next_b _ _ _ _ _ _ _ _ _ _ C')
        as (y & ys' & -> & Hlt' & Hget' & Hroom' & C''); [done|].
      apply (fun C => cursors_weaken _ _ _ _ _ _ _ _ _ _ n C) in C''; [|lia].
      destruct (cursors_push _ _ _ _ _ _ _ _ _ _ a C'') as (buffer' & Hset & Hlen & C3);
        [done|done|].
      assert (Hlow : forall c, c < a -> par (x :: xs') c = false /\ par (y :: ys') c = false).
      { intros c Hc. destruct C''. split; eapply par_below; try done; lia. }
      destruct Hcase as [->|[->|[->| ->]]]; cbn [retain_loop];
        rewrite !Z.ltb_irrefl, (proj2 (Z.eqb_neq _ _) Hne), ?Hset;
        cbn [mbind option_bind]; rewrite Hget; cbn [mbind option_bind]; rewrite Hget';
        cbn [mbind option_bind];
        (eapply delivers_step;
          [eapply IH; [first [exact C3|exact C'']|buf_bounds|buf_bounds|done]|done|origins
          |unfold retain_spec; toggles a Hlow]).
  - (* the next point is b *)
    destruct (cursors_next_b _ _ _ _ _ _ _ _ _ _ C) as (y & ys' & -> & Hlt & Hget & Hroom & C');
      [lia|]. cbn [pred] in C'.
    destruct (cursors_push _ _ _ _ _ _ _ _ _ _ b C') as (buffer' & Hset & Hlen & C''); [done|done|].
    assert (Hlow : forall c, c < b -> par (a :: xs) c = false /\ par (y :: ys') c = false).
    { intros c Hc. destruct C'. split; eapply par_below; try done; lia. }
    destruct Hcase as [->|[->|[->| ->]]]; cbn [retain_loop];
      rewrite ?(proj2 (Z.ltb_lt b a) Hab), ?(proj2 (Z.ltb_ge a b)), ?Hset by lia;
      cbn [mbind option_bind]; rewrite Hget; cbn [mbind option_bind];
      (eapply delivers_step;
        [eapply IH; [first [exact C''|exact C']|buf_bounds|buf_bounds|done]|done|origins
        |unfold retain_spec; toggles b Hlow]).
Qed.

(** ** Symmetric difference: [exclusiveOr] *)

Lemma exclusiveOr_loop_spec : forall n buffer i j k a b xs ys buf,
  cursors buffer i j k a b xs ys buf n ->
  Forall (fun y => y < a) buf -> Forall (fun y => y < b) buf ->
  delivers (exclusiveOr_loop list other n buffer i j k a b) buffer buf (a :: xs) (b :: ys)
    (fun c => xorb (par buf c) (xorb (par (a :: xs) c) (par (b :: ys) c))).
Proof.
  induction n as [|n IH]; intros buffer i j k a b xs ys buf C Hba Hbb; cbn [exclusiveOr_loop].
  { destruct C as [? ? ? ? ? ? ? ?]. lia. }
  pose proof (hsorted_head _ _ (cur_a _ _ _ _ _ _ _ _ _ _ C)) as HaH.
  pose proof (hsorted_head _ _ (cur_b _ _ _ _ _ _ _ _ _ _ C)) as HbH.
  destruct (Z.ltb_spec a b) as [Hab|Hab]; [|destruct (Z.ltb_spec b a) as [Hba'|Hba']].
  - destruct (cursors_next_a _ _ _ _ _ _ _ _ _ _ C) as (x & xs' & -> & Hlt & Hget & Hroom & C');
      [lia|]. cbn [pred] in C'.
    destruct (cursors_push _ _ _ _ _ _ _ _ _ _ a C') as (buffer' & -> & Hlen & C''); [done|done|].
    cbn [mbind option_bind]. rewrite Hget. cbn [mbind option_bind].
    eapply delivers_step; [eapply IH; [exact C''|buf_bounds..]|done|origins|].
    intros c _. cbv beta. rewrite par_app, (par_cons a), (par_cons a). change (par [] c) with false.
    destruct (a <=? c), (par buf c), (par (x :: xs') c), (par (b :: ys) c); done.
  - destruct (cursors_next_b _ _ _ _ _ _ _ _ _ _ C) as (y & ys' & -> & Hlt & Hget & Hroom & C');
      [lia|]. cbn [pred] in C'.
    destruct (cursors_push _ _ _ _ _ _ _ _ _ _ b C') as (buffer' & -> & Hlen & C''); [done|done|].
    cbn [mbind option_bind]. rewrite Hget. cbn [mbind option_bind].
    eapply delivers_step; [eapply IH; [exact C''|buf_bounds..]|done|origins|].
    intros c _. cbv beta. rewrite par_app, (par_cons b), (par_cons b). change (par [] c) with false.
    destruct (b <=? c), (par buf c), (par (a :: xs) c), (par (y :: ys') c); done.
  - assert (a = b) as <- by lia.
    destruct (Z.eqb_spec a UNICODESET_HIGH) as [->|Hne]; cbn [negb].
    + change (delivers (loop_end buffer k) buffer buf (UNICODESET_HIGH :: xs)
        (UNICODESET_HIGH :: ys) (fun c => xorb (par buf c)
          (xorb (par (UNICODESET_HIGH :: xs) c) (par (UNICODESET_HIGH :: ys) c)))).
      pose proof (cur_room _ _ _ _ _ _ _ _ _ _ C).
      eapply delivers_end; [exact (cur_written _ _ _ _ _ _ _ _ _ _ C)|lia
          |exact (cur_sorted _ _ _ _ _ _ _ _ _ _ C)|done|left; by left|].
      intros c Hc. destruct C.
      rewrite !(par_below UNICODESET_HIGH _ UNICODESET_HIGH c) by (done || lia).
      by destruct (par buf c).
    + destruct (cursors_next_a _ _ _ _ _ _ _ _ _ _ C) as (x & xs' & -> & Hlt & Hget & Hroom & C');
        [done|]. cbn [pred] in C'.
      destruct (cursors_next_b _ _ _ _ _ _ _ _ _ _ C')
        as (y & ys' & -> & Hlt' & Hget' & Hroom' & C''); [done|].
      apply (fun C => cursors_weaken _ _ _ _ _ _ _ _ _ _ n C) in C''; [|lia].
      rewrite Hget. cbn [mbind option_bind]. rewrite Hget'. cbn [mbind option_bind].
      eapply delivers_step; [eapply IH; [exact C''|buf_bounds..]|done|origins|].
      intros c _. cbv beta. rewrite !(par_cons a).
      destruct (a <=? c), (par buf c), (par (x :: xs') c), (par (y :: ys') c); done.
Qed.

End LoopTheorems.

(** ** Union: [add]

    The walk holds the union so far as closed ranges [buf'] and possibly an open
    range that starts at [s].  When both cursors are ends ([polarity] 3) the
    higher end is written and both lists advance, so that the next start may lie
    before the end written: then the source takes the end back. *)

Section Union.
Context (list other : Datatypes.list Z).
Local Abbreviation zlist := (Datatypes.list Z).

Definition between (s e c : Z) : bool := (s <=? c) && (c <? e).

(** No range of [buf] is open at or after [s]. *)
Definition closed (buf : zlist) (s : Z) : Prop := forall c, s <= c -> par buf c = false.

(** The cursor stands at a start. *)
Definition first_side (a : Z) (xs : zlist) (s : Z) : Prop := hsorted (a :: xs) /\ s <= a.

(** The cursor stands at an end, which may have been moved up past [x0]. *)
Definition second_side (a : Z) (xs : zlist) (s : Z) : Prop :=
  exists x0, hsorted (x0 :: xs) /\ s < x0 <= a /\ a <= UNICODESET_HIGH /\
    (a = UNICODESET_HIGH -> x0 = UNICODESET_HIGH).

(** All ranges are closed, the last one is [s, e). *)
Definition ready (buf : zlist) (s : Z) : Prop :=
  buf = [] \/ exists buf' e, buf = buf' ++ [s; e] /\ closed buf' s /\ s < e.

Inductive ustate (xs ys : zlist) (f : Z -> bool) : Z -> Z -> Z -> zlist -> Prop :=
  | U0 a b s buf : ready buf s -> first_side a xs s -> first_side b ys s ->
      (forall c, c < UNICODESET_HIGH -> f c = par buf c || (par (a :: xs) c || par (b :: ys) c)) ->
      ustate xs ys f 0 a b buf
  | U1 a b s buf : closed buf s -> second_side a xs s -> first_side b ys s ->
      (forall c, c < UNICODESET_HIGH ->
         f c = par buf c || ((between s a c || par xs c) || par (b :: ys) c)) ->
      ustate xs ys f 1 a b (buf ++ [s])
  | U2 a b s buf : closed buf s -> first_side a xs s -> second_side b ys s ->
      (forall c, c < UNICODESET_HIGH ->
         f c = par buf c || (par (a :: xs) c || (between s b c || par ys c))) ->
      ustate xs ys f 2 a b (buf ++ [s])
  | U3 a b s buf : closed buf s -> second_side a xs s -> second_side b ys s ->
      (forall c, c < UNICODESET_HIGH ->
         f c = par buf c || ((between s a c || par xs c) || (between s b c || par ys c))) ->
      ustate xs ys f 3 a b (buf ++ [s]).

Lemma par_pair a x l c :
  hsorted (a :: x :: l) -> par (a :: x :: l) c = between a x c || par l c.
Proof.
  intros [Hlt Hx]%hsorted_cons. rewrite !par_cons. unfold between.
  destruct (Z.leb_spec a c), (Z.ltb_spec c x), (Z.leb_spec x c); try lia; cbn.
  - rewrite par_above; [done|]. eapply Forall_impl; [by apply hsorted_above|]. simpl. lia.
  - by destruct (par l c).
  - rewrite par_above; [done|]. eapply Forall_impl; [by apply hsorted_above|]. simpl. lia.
Qed.

Lemma par_close buf s e c :
  closed buf s -> s < e -> par (buf ++ [s; e]) c = par buf c || between s e c.
Proof.
  intros Hcl Hlt. rewrite par_app, !par_cons. change (par [] c) with false. unfold between.
  specialize (Hcl c). destruct (Z.leb_spec s c), (Z.ltb_spec c e), (Z.leb_spec e c); try lia.
  - by rewrite Hcl.
  - by rewrite Hcl.
  - cbn. by destruct (par buf c).
Qed.

Lemma closed_close buf s e : closed buf s -> s < e -> closed (buf ++ [s; e]) e.
Proof.
  intros Hcl Hlt c Hc. rewrite par_close by done. unfold between. rewrite Hcl by lia.
  zcases; done.
Qed.

Lemma second_side_xs a xs s c : second_side a xs s -> c <= s -> par xs c = false.
Proof.
  intros (x0 & Hx & ? & _) Hc. apply par_above.
  eapply Forall_impl; [by apply hsorted_above|]. simpl. lia.
Qed.

Lemma second_side_high xs s : second_side UNICODESET_HIGH xs s -> xs = [].
Proof.
  intros (x0 & Hx & _ & _ & Heq). rewrite (Heq eq_refl) in Hx.
  destruct xs as [|x xs]; [done|].
  apply hsorted_cons in Hx as [? ?%hsorted_head]. lia.
Qed.

Lemma second_side_next a xs s :
  second_side a xs s -> a <> UNICODESET_HIGH ->
  exists x xs', xs = x :: xs' /\ first_side x xs' s.
Proof.
  intros (x0 & Hx & ? & ? & Heq) Hne.
  assert (Hne0 : x0 <> UNICODESET_HIGH \/ x0 = UNICODESET_HIGH) by lia.
  destruct Hne0 as [Hne0| ->]; [|lia].
  destruct (hsorted_next x0 xs Hx Hne0) as (x & xs' & -> & Hlt & Hs).
  exists x, xs'. split; [done|]. split; [done|lia].
Qed.

Lemma first_side_next a xs s :
  first_side a xs s -> a <> UNICODESET_HIGH ->
  exists x xs', xs = x :: xs' /\ a < x /\
    (forall s' e, s' <= a -> e < UNICODESET_HIGH -> second_side (Z.max x e) xs' s').
Proof.
  intros [Ha Hs] Hne. destruct (hsorted_next a xs Ha Hne) as (x & xs' & -> & Hlt & Hx).
  exists x, xs'. split; [done|]. split; [done|]. intros s' e Hs' He.
  apply hsorted_head in Hx as Hxh. exists x. split_and!; [done|lia|lia|lia|lia].
Qed.

(** The cursors and the buffer between two rounds. *)
Record ucursors (buffer : zlist) (i j k : Z) (xs ys buf : zlist) (n : nat) : Prop := {
  ucur_list : suffix list i xs;
  ucur_other : suffix other j ys;
  ucur_written : written buffer k buf;
  ucur_sorted : StronglySorted Z.lt buf;
  ucur_high : Forall (fun y => y < UNICODESET_HIGH) buf;
  ucur_fuel : (length xs + length ys < n)%nat;
  ucur_room : (length buf + length xs + length ys < length buffer)%nat
}.

Lemma ucursors_a buffer i j k x xs ys buf n :
  ucursors buffer i j k (x :: xs) ys buf n ->
  aget list i = Some x /\ (S (length buf + length xs + length ys) < length buffer)%nat /\
  ucursors buffer (i + 1) j k xs ys buf (pred n).
Proof.
  intros [Hl Ho Hw Hs Hh Hn Hr]. destruct (suffix_read _ _ _ _ Hl) as [Hget Hl'].
  simpl in *. split_and!; [done|lia|]. constructor; try done; lia.
Qed.

Lemma ucursors_b buffer i j k y xs ys buf n :
  ucursors buffer i j k xs (y :: ys) buf n ->
  aget other j = Some y /\ (S (length buf + length xs + length ys) < length buffer)%nat /\
  ucursors buffer i (j + 1) k xs ys buf (pred n).
Proof.
  intros [Hl Ho Hw Hs Hh Hn Hr]. destruct (suffix_read _ _ _ _ Ho) as [Hget Ho'].
  simpl in *. split_and!; [done|lia|]. constructor; try done; lia.
Qed.

Lemma ucursors_push buffer i j k xs ys buf n v :
  ucursors buffer i j k xs ys buf n ->
  (S (length buf + length xs + length ys) < length buffer)%nat ->
  Forall (fun y => y < v) buf -> v < UNICODESET_HIGH ->
  exists buffer', aset buffer k v = Some buffer' /\ length buffer' = length buffer /\
    ucursors buffer' i j (k + 1) xs ys (buf ++ [v]) n.
Proof.
  intros [Hl Ho Hw Hs Hh Hn Hr] Hroom Hv Hvh.
  destruct (written_push buffer k buf v Hw) as (buffer' & Hset & Hw' & Hlen); [lia|].
  exists buffer'. split_and!; [done|done|]. constructor; try done.
  - by apply StronglySorted_snoc.
  - rewrite Forall_app, Forall_singleton. done.
  - rewrite length_app, Hlen. simpl. lia.
Qed.

Lemma ucursors_pop buffer i j k xs ys buf e n :
  ucursors buffer i j k xs ys (buf ++ [e]) n ->
  aget buffer (k - 1) = Some e /\ (0 <? k) = true /\
  ucursors buffer i j (k - 1) xs ys buf n /\
  (S (length buf + length xs + length ys) < length buffer)%nat.
Proof.
  intros [Hl Ho Hw Hs Hh Hn Hr]. split; [by eapply written_top|].
  rewrite length_app in Hr. simpl in Hr. split.
  { destruct Hw as (-> & _). rewrite length_app. simpl. apply Z.ltb_lt. lia. }
  split; [|lia]. constructor; try done.
  - by eapply written_pop.
  - by apply StronglySorted_app_1_l in Hs.
  - by apply Forall_app in Hh as [? _].
  - lia.
Qed.

Lemma ucursors_weaken buffer i j k xs ys buf n m :
  ucursors buffer i j k xs ys buf n -> (n <= m)%nat -> ucursors buffer i j k xs ys buf m.
Proof. intros [] ?. constructor; try done; lia. Qed.

(** Everything written is below a point above the last cell. *)
Lemma below_last (l : zlist) e v :
  StronglySorted Z.lt (l ++ [e]) -> e < v -> Forall (fun y => y < v) (l ++ [e]).
Proof.
  intros Hs Hlt. rewrite Forall_app, Forall_singleton. split; [|done].
  apply Forall_forall. intros y Hy.
  pose proof (StronglySorted_app_1_elem_of _ _ _ _ _ Hs Hy (list_elem_of_here e [])). lia.
Qed.

(** ** The rounds of the union, without the arrays *)

Ltac bsolve :=
  unfold between; repeat (zcase; try lia); cbn;
  repeat match goal with |- context [par ?l ?c] => destruct (par l c) end; reflexivity.

Lemma ready_closed buf s a :
  ready buf s -> (forall buf' e, buf = buf' ++ [s; e] -> e < a) -> closed buf a.
Proof.
  intros [->|(buf' & e & -> & Hcl & Hlt)] He c Hc; [done|].
  specialize (He buf' e eq_refl). apply (closed_close buf' s e Hcl Hlt). lia.
Qed.

Lemma second_here a x xs s : hsorted (x :: xs) -> s < x -> x = a -> second_side a xs s.
Proof. intros Hx Hs <-. exists x. pose proof (hsorted_head _ _ Hx). split_and!; done || lia. Qed.

Lemma hsorted_tail a x xs : hsorted (a :: x :: xs) -> a < x /\ hsorted (x :: xs).
Proof. by intros ?%hsorted_cons. Qed.

(** Both at starts. *)
Lemma round0_push_a a b x xs ys s buf f :
  ready buf s -> (forall buf' e, buf = buf' ++ [s; e] -> e < a) ->
  first_side a (x :: xs) s -> first_side b ys s -> a < b ->
  (forall c, c < UNICODESET_HIGH -> f c = par buf c || (par (a :: x :: xs) c || par (b :: ys) c)) ->
  ustate xs ys f 1 x b (buf ++ [a]).
Proof.
  intros Hr He [Ha ?] [Hb ?] Hab Hf. pose proof (hsorted_tail _ _ _ Ha) as [Hax Hx].
  apply U1; [by eapply ready_closed|by eapply second_here|split; [done|lia]|].
  intros c Hc. by rewrite Hf, par_pair.
Qed.

Lemma round0_push_b a b y xs ys s buf f :
  ready buf s -> (forall buf' e, buf = buf' ++ [s; e] -> e < b) ->
  first_side a xs s -> first_side b (y :: ys) s -> b < a ->
  (forall c, c < UNICODESET_HIGH -> f c = par buf c || (par (a :: xs) c || par (b :: y :: ys) c)) ->
  ustate xs ys f 2 a y (buf ++ [b]).
Proof.
  intros Hr He [Ha ?] [Hb ?] Hab Hf. pose proof (hsorted_tail _ _ _ Hb) as [Hby Hy].
  apply U2; [by eapply ready_closed|split; [done|lia]|by eapply second_here|].
  intros c Hc. by rewrite Hf, par_pair.
Qed.

Lemma round0_push_both a x y xs ys s buf f :
  ready buf s -> (forall buf' e, buf = buf' ++ [s; e] -> e < a) ->
  first_side a (x :: xs) s -> first_side a (y :: ys) s ->
  (forall c, c < UNICODESET_HIGH -> f c = par buf c || (par (a :: x :: xs) c || par (a :: y :: ys) c)) ->
  ustate xs ys f 3 x y (buf ++ [a]).
Proof.
  intros Hr He [Ha ?] [Hb ?] Hf. pose proof (hsorted_tail _ _ _ Ha) as [? ?].
  pose proof (hsorted_tail _ _ _ Hb) as [? ?].
  apply U3; [by eapply ready_closed|by eapply second_here|by eapply second_here|].
  intros c Hc. by rewrite Hf, !par_pair.
Qed.

(** The end [e] written last lies at or after the start: it is taken back. *)
Lemma second_max x e xs s :
  hsorted (x :: xs) -> s < x -> e < UNICODESET_HIGH -> second_side (Z.max x e) xs s.
Proof. intros Hx ??. exists x. pose proof (hsorted_head _ _ Hx). split_and!; done || lia. Qed.

Lemma round0_back_a a b x xs ys s e buf f :
  closed buf s -> s < e -> e < UNICODESET_HIGH -> a <= e ->
  first_side a (x :: xs) s -> first_side b ys s ->
  (forall c, c < UNICODESET_HIGH ->
     f c = par (buf ++ [s; e]) c || (par (a :: x :: xs) c || par (b :: ys) c)) ->
  ustate xs ys f 1 (Z.max x e) b (buf ++ [s]).
Proof.
  intros Hcl Hse HeH Hae [Ha ?] [Hb ?] Hf. pose proof (hsorted_tail _ _ _ Ha) as [Hax Hx].
  apply U1; [done|apply second_max; done || lia|done|].
  intros c Hc. rewrite Hf, par_pair, par_close by done. bsolve.
Qed.

Lemma round0_back_b a b y xs ys s e buf f :
  closed buf s -> s < e -> e < UNICODESET_HIGH -> b <= e ->
  first_side a xs s -> first_side b (y :: ys) s ->
  (forall c, c < UNICODESET_HIGH ->
     f c = par (buf ++ [s; e]) c || (par (a :: xs) c || par (b :: y :: ys) c)) ->
  ustate xs ys f 2 a (Z.max y e) (buf ++ [s]).
Proof.
  intros Hcl Hse HeH Hae [Ha ?] [Hb ?] Hf. pose proof (hsorted_tail _ _ _ Hb) as [Hby Hy].
  apply U2; [done|done|apply second_max; done || lia|].
  intros c Hc. rewrite Hf, par_pair, par_close by done. bsolve.
Qed.

Lemma round0_back_both a x y xs ys s e buf f :
  closed buf s -> s < e -> e < UNICODESET_HIGH -> a <= e ->
  first_side a (x :: xs) s -> first_side a (y :: ys) s ->
  (forall c, c < UNICODESET_HIGH ->
     f c = par (buf ++ [s; e]) c || (par (a :: x :: xs) c || par (a :: y :: ys) c)) ->
  ustate xs ys f 3 (Z.max x e) y (buf ++ [s]).
Proof.
  intros Hcl Hse HeH Hae [Ha ?] [Hb ?] Hf. pose proof (hsorted_tail _ _ _ Ha) as [Hax Hx].
  pose proof (hsorted_tail _ _ _ Hb) as [Hby Hy].
  apply U3; [done|apply second_max; done || lia|eapply second_here; done || lia|].
  intros c Hc. rewrite Hf, !par_pair, par_close by done. bsolve.
Qed.

(** The first list at an end, the second at a start. *)
Lemma ready_close buf s e : closed buf s -> s < e -> ready ((buf ++ [s]) ++ [e]) s.
Proof. intros. right. exists buf, e. by rewrite <- app_assoc. Qed.

Lemma par_close_snoc buf s e c :
  closed buf s -> s < e -> par ((buf ++ [s]) ++ [e]) c = par buf c || between s e c.
Proof. intros. rewrite <- app_assoc. by apply par_close. Qed.

Lemma round1_push a b x xs ys s buf f :
  closed buf s -> second_side a (x :: xs) s -> first_side x xs s -> first_side b ys s ->
  (forall c, c < UNICODESET_HIGH ->
     f c = par buf c || ((between s a c || par (x :: xs) c) || par (b :: ys) c)) ->
  ustate xs ys f 0 x b ((buf ++ [s]) ++ [a]).
Proof.
  intros Hcl Ha Hx Hb Hf. assert (s < a) by (destruct Ha; lia).
  apply (U0 _ _ _ _ _ s); [by apply ready_close|done|done|].
  intros c Hc. rewrite Hf, par_close_snoc by done. bsolve.
Qed.

Lemma round1_drop a b y xs ys s buf f :
  closed buf s -> second_side a xs s -> first_side b (y :: ys) s -> b < a ->
  (forall c, c < UNICODESET_HIGH ->
     f c = par buf c || ((between s a c || par xs c) || par (b :: y :: ys) c)) ->
  ustate xs ys f 3 a y (buf ++ [s]).
Proof.
  intros Hcl Ha [Hb ?] Hba Hf. pose proof (hsorted_tail _ _ _ Hb) as [Hby Hy].
  apply U3; [done|done|eapply second_here; done || lia|].
  intros c Hc. rewrite Hf, par_pair by done. bsolve.
Qed.

Lemma round1_both a x y xs ys s buf f :
  closed buf s -> second_side a (x :: xs) s -> first_side x xs s -> first_side a (y :: ys) s ->
  (forall c, c < UNICODESET_HIGH ->
     f c = par buf c || ((between s a c || par (x :: xs) c) || par (a :: y :: ys) c)) ->
  ustate xs ys f 2 x y (buf ++ [s]).
Proof.
  intros Hcl Ha Hx [Hb ?] Hf. pose proof (hsorted_tail _ _ _ Hb) as [Hby Hy].
  apply U2; [done|done|eapply second_here; done || lia|].
  intros c Hc. rewrite Hf, par_pair by done. bsolve.
Qed.

(** The mirror image. *)
Lemma round2_push a b y xs ys s buf f :
  closed buf s -> first_side a xs s -> second_side b (y :: ys) s -> first_side y ys s ->
  (forall c, c < UNICODESET_HIGH ->
     f c = par buf c || (par (a :: xs) c || (between s b c || par (y :: ys) c))) ->
  ustate xs ys f 0 a y ((buf ++ [s]) ++ [b]).
Proof.
  intros Hcl Ha Hb Hy Hf. assert (s < b) by (destruct Hb; lia).
  apply (U0 _ _ _ _ _ s); [by apply ready_close|done|done|].
  intros c Hc. rewrite Hf, par_close_snoc by done. bsolve.
Qed.

Lemma round2_drop a b x xs ys s buf f :
  closed buf s -> first_side a (x :: xs) s -> second_side b ys s -> a < b ->
  (forall c, c < UNICODESET_HIGH ->
     f c = par buf c || (par (a :: x :: xs) c || (between s b c || par ys c))) ->
  ustate xs ys f 3 x b (buf ++ [s]).
Proof.
  intros Hcl [Ha ?] Hb Hba Hf. pose proof (hsorted_tail _ _ _ Ha) as [Hax Hx].
  apply U3; [done|eapply second_here; done || lia|done|].
  intros c Hc. rewrite Hf, par_pair by done. bsolve.
Qed.

Lemma round2_both a x y xs ys s buf f :
  closed buf s -> first_side a (x :: xs) s -> second_side a (y :: ys) s -> first_side y ys s ->
  (forall c, c < UNICODESET_HIGH ->
     f c = par buf c || (par (a :: x :: xs) c || (between s a c || par (y :: ys) c))) ->
  ustate xs ys f 1 x y (buf ++ [s]).
Proof.
  intros Hcl [Ha ?] Hb Hy Hf. pose proof (hsorted_tail _ _ _ Ha) as [Hax Hx].
  apply U1; [done|eapply second_here; done || lia|done|].
  intros c Hc. rewrite Hf, par_pair by done. bsolve.
Qed.

(** Both at ends: the higher one is written. *)
Lemma round3_push a b x y xs ys s buf f :
  closed buf s -> second_side a (x :: xs) s -> first_side x xs s ->
  second_side b (y :: ys) s -> first_side y ys s ->
  (forall c, c < UNICODESET_HIGH ->
     f c = par buf c || ((between s a c || par (x :: xs) c) || (between s b c || par (y :: ys) c))) ->
  ustate xs ys f 0 x y ((buf ++ [s]) ++ [Z.max a b]).
Proof.
  intros Hcl Ha Hx Hb Hy Hf. assert (s < a) by (destruct Ha; lia).
  apply (U0 _ _ _ _ _ s); [apply ready_close; done || lia|done|done|].
  intros c Hc. rewrite Hf, par_close_snoc by (done || lia). bsolve.
Qed.

(** The exits: both lists are at HIGH, or an open range reaches HIGH. *)
Lemma par_open buf s c : closed buf s -> par (buf ++ [s]) c = par buf c || (s <=? c).
Proof.
  intros Hcl. rewrite par_app, par_cons. change (par [] c) with false.
  destruct (Z.leb_spec s c); [by rewrite Hcl|]. by destruct (par buf c).
Qed.

Lemma par_below_start a xs s c : first_side a xs s -> c < s -> par (a :: xs) c = false.
Proof. intros [Ha ?] ?. eapply par_below; done || lia. Qed.

(** ** The loop *)

Ltac uorigins :=
  let P := fresh "P" in intros P ? ? ?;
  repeat match goal with |- context [Z.max ?x ?e] =>
    let H := fresh in destruct (Z.max_spec x e) as [[_ H]|[_ H]]; rewrite H; clear H end;
  rewrite ?Forall_app, ?Forall_cons, ?Forall_nil in *; tauto.

Definition add_delivers (n : nat) : Prop := forall buffer i j k a b polarity xs ys buf f,
  ucursors buffer i j k xs ys buf n -> ustate xs ys f polarity a b buf ->
  delivers (add_loop list other n buffer i j k a b polarity) buffer buf (a :: xs) (b :: ys) f.

Lemma first_side_head a xs s : first_side a xs s -> a <= UNICODESET_HIGH.
Proof. intros [Ha _]. by eapply hsorted_head. Qed.

Lemma first_side_high xs s : first_side UNICODESET_HIGH xs s -> xs = [].
Proof.
  intros [Ha _]. destruct xs as [|x xs]; [done|].
  apply hsorted_cons in Ha as [? ?%hsorted_head]. lia.
Qed.

(** The top of the buffer, as the round reads it. *)
Lemma ready_top buffer i j k xs ys buf n s :
  ucursors buffer i j k xs ys buf n -> ready buf s ->
  exists top, (if 0 <? k then aget buffer (k - 1) else Some (-1)) = Some top /\
    ((buf = [] /\ (0 <? k) = false) \/
     exists buf', buf = buf' ++ [s; top] /\ (0 <? k) = true /\ closed buf' s /\ s < top /\
       top < UNICODESET_HIGH /\ ucursors buffer i j (k - 1) xs ys (buf' ++ [s]) n /\
       (S (length (buf' ++ [s]) + length xs + length ys) < length buffer)%nat).
Proof.
  intros C [->|(buf' & e & -> & Hcl & Hse)].
  - destruct (ucur_written _ _ _ _ _ _ _ _ C) as (-> & _). exists (-1). cbn. split; [done|by left].
  - pose proof (ucur_high _ _ _ _ _ _ _ _ C) as Hh. rewrite Forall_app, !Forall_cons in Hh.
    replace (buf' ++ [s; e]) with ((buf' ++ [s]) ++ [e]) in C by (by rewrite <- app_assoc).
    apply ucursors_pop in C as (Htop & -> & C' & Hroom). exists e. split; [done|].
    right. exists buf'. split_and!; try done. tauto.
Qed.

(** The new start lies above everything written. *)
Lemma ready_below buf s a :
  ready buf s -> StronglySorted Z.lt buf ->
  (forall buf' e, buf = buf' ++ [s; e] -> e < a) -> Forall (fun y => y < a) buf.
Proof.
  intros [->|(buf' & e & -> & _ & _)] Hs He; [constructor|].
  specialize (He _ _ eq_refl).
  replace (buf' ++ [s; e]) with ((buf' ++ [s]) ++ [e]) in * by (by rewrite <- app_assoc).
  by apply below_last.
Qed.

(** A start that is not taken back is above the last end. *)
Lemma ready_above buf s a top (k : Z) :
  (buf = [] /\ (0 <? k) = false) \/ (exists buf', buf = buf' ++ [s; top] /\ top < a) ->
  forall buf' e, buf = buf' ++ [s; e] -> e < a.
Proof.
  intros [[-> _]|(b1 & -> & Hlt)] buf' e Heq.
  - by destruct buf'.
  - apply (f_equal last) in Heq.
    change [s; top] with ([s] ++ [top]) in Heq. change [s; e] with ([s] ++ [e]) in Heq.
    rewrite !app_assoc, !last_snoc in Heq. by simplify_eq.
Qed.

Lemma add_round0_a n buffer i j k a b s xs ys buf f :
  add_delivers n -> ucursors buffer i j k xs ys buf (S n) ->
  ready buf s -> first_side a xs s -> first_side b ys s -> a < b ->
  (forall c, c < UNICODESET_HIGH -> f c = par buf c || (par (a :: xs) c || par (b :: ys) c)) ->
  delivers (add_loop list other (S n) buffer i j k a b 0) buffer buf (a :: xs) (b :: ys) f.
Proof.
  intros IH C Hr Ha Hb Hab Hf. cbn [add_loop]. rewrite (proj2 (Z.ltb_lt a b) Hab).
  pose proof (first_side_head _ _ _ Hb).
  destruct (first_side_next a xs s Ha) as (x & xs' & -> & Hax & _); [lia|].
  destruct (ready_top _ _ _ _ _ _ _ _ _ C Hr) as (top & -> & Htop). cbn [mbind option_bind].
  destruct (ucursors_a _ _ _ _ _ _ _ _ _ C) as (-> & Hroom & C'). cbn [mbind option_bind].
  cbn [pred] in C'. destruct ((0 <? k) && (a <=? top)) eqn:Hback.
  - apply andb_prop in Hback as [Hk Hle%Z.leb_le].
    destruct Htop as [[_ ?]|(buf' & -> & _ & Hcl & Hst & Hth & C1 & Hroom1)]; [congruence|].
    apply ucursors_a in C1 as (_ & _ & C2).
    eapply delivers_step; [eapply IH; [exact C2|by eapply round0_back_a]|done|uorigins|done].
  - assert (Habove : forall buf' e, buf = buf' ++ [s; e] -> e < a).
    { apply (ready_above buf s a top k). destruct Htop as [?|(buf' & -> & Hk & _)]; [by left|].
      right. exists buf'. split; [done|]. rewrite Hk in Hback. apply Z.leb_gt in Hback. lia. }
    destruct (ucursors_push _ _ _ _ _ _ _ _ a C') as (buffer' & -> & Hlen & C2);
      [done|eapply ready_below; [done|apply C|done]|lia|].
    cbn [mbind option_bind].
    eapply delivers_step; [eapply IH; [exact C2|by eapply round0_push_a]|done|uorigins|done].
Qed.

Lemma add_round0_b n buffer i j k a b s xs ys buf f :
  add_delivers n -> ucursors buffer i j k xs ys buf (S n) ->
  ready buf s -> first_side a xs s -> first_side b ys s -> b < a ->
  (forall c, c < UNICODESET_HIGH -> f c = par buf c || (par (a :: xs) c || par (b :: ys) c)) ->
  delivers (add_loop list other (S n) buffer i j k a b 0) buffer buf (a :: xs) (b :: ys) f.
Proof.
  intros IH C Hr Ha Hb Hab Hf. cbn [add_loop].
  rewrite (proj2 (Z.ltb_ge a b)), (proj2 (Z.ltb_lt b a) Hab) by lia.
  pose proof (first_side_head _ _ _ Ha).
  destruct (first_side_next b ys s Hb) as (y & ys' & -> & Hby & _); [lia|].
  destruct (ready_top _ _ _ _ _ _ _ _ _ C Hr) as (top & -> & Htop). cbn [mbind option_bind].
  destruct (ucursors_b _ _ _ _ _ _ _ _ _ C) as (-> & Hroom & C'). cbn [mbind option_bind].
  cbn [pred] in C'. destruct ((0 <? k) && (b <=? top)) eqn:Hback.
  - apply andb_prop in Hback as [Hk Hle%Z.leb_le].
    destruct Htop as [[_ ?]|(buf' & -> & _ & Hcl & Hst & Hth & C1 & Hroom1)]; [congruence|].
    apply ucursors_b in C1 as (_ & _ & C2).
    eapply delivers_step; [eapply IH; [exact C2|by eapply round0_back_b]|done|uorigins|done].
  - assert (Habove : forall buf' e, buf = buf' ++ [s; e] -> e < b).
    { apply (ready_above buf s b top k). destruct Htop as [?|(buf' & -> & Hk & _)]; [by left|].
      right. exists buf'. split; [done|]. rewrite Hk in Hback. apply Z.leb_gt in Hback. lia. }
    destruct (ucursors_push _ _ _ _ _ _ _ _ b C') as (buffer' & -> & Hlen & C2);
      [done|eapply ready_below; [done|apply C|done]|lia|].
    cbn [mbind option_bind].
    eapply delivers_step; [eapply IH; [exact C2|by eapply round0_push_b]|done|uorigins|done].
Qed.

Lemma add_round0_both n buffer i j k a s xs ys buf f :
  add_delivers n -> ucursors buffer i j k xs ys buf (S n) ->
  ready buf s -> first_side a xs s -> first_side a ys s -> a <> UNICODESET_HIGH ->
  (forall c, c < UNICODESET_HIGH -> f c = par buf c || (par (a :: xs) c || par (a :: ys) c)) ->
  delivers (add_loop list other (S n) buffer i j k a a 0) buffer buf (a :: xs) (a :: ys) f.
Proof.
  intros IH C Hr Ha Hb Hne Hf. cbn [add_loop].
  rewrite !Z.ltb_irrefl, (proj2 (Z.eqb_neq _ _) Hne).
  pose proof (first_side_head _ _ _ Ha).
  destruct (first_side_next a xs s Ha Hne) as (x & xs' & -> & Hax & _).
  destruct (first_side_next a ys s Hb Hne) as (y & ys' & -> & Hay & _).
  destruct (ready_top _ _ _ _ _ _ _ _ _ C Hr) as (top & -> & Htop). cbn [mbind option_bind].
  destruct (ucursors_a _ _ _ _ _ _ _ _ _ C) as (-> & _ & C'). cbn [mbind option_bind].
  cbn [pred] in C'. destruct ((0 <? k) && (a <=? top)) eqn:Hback.
  - apply andb_prop in Hback as [Hk Hle%Z.leb_le].
    destruct Htop as [[_ ?]|(buf' & -> & _ & Hcl & Hst & Hth & C1 & _)]; [congruence|].
    apply ucursors_a in C1 as (_ & _ & C2). cbn [pred] in C2.
    apply ucursors_b in C2 as (-> & _ & C3). cbn [mbind option_bind].
    apply (fun C => ucursors_weaken _ _ _ _ _ _ _ _ n C) in C3; [|lia].
    eapply delivers_step; [eapply IH; [exact C3|by eapply round0_back_both]|done|uorigins|done].
  - assert (Habove : forall buf' e, buf = buf' ++ [s; e] -> e < a).
    { apply (ready_above buf s a top k). destruct Htop as [?|(buf' & -> & Hk & _)]; [by left|].
      right. exists buf'. split; [done|]. rewrite Hk in Hback. apply Z.leb_gt in Hback. lia. }
    apply ucursors_b in C' as (Hgb & Hroom & C2).
    apply (fun C => ucursors_weaken _ _ _ _ _ _ _ _ n C) in C2; [|lia].
    destruct (ucursors_push _ _ _ _ _ _ _ _ a C2) as (buffer' & -> & Hlen & C3);
      [done|eapply ready_below; [done|apply C|done]|lia|].
    cbn [mbind option_bind]. rewrite Hgb. cbn [mbind option_bind].
    eapply delivers_step; [eapply IH; [exact C3|by eapply round0_push_both]|done|uorigins|done].
Qed.

(** The exit of the loop. *)
Lemma add_exit buffer i j k xs ys buf n la lb f :
  ucursors buffer i j k xs ys buf n ->
  UNICODESET_HIGH ∈ la \/ UNICODESET_HIGH ∈ lb ->
  (forall c, c < UNICODESET_HIGH -> par buf c = f c) ->
  delivers (loop_end buffer k) buffer buf la lb f.
Proof.
  intros C Hin Hf. pose proof (ucur_room _ _ _ _ _ _ _ _ C).
  eapply delivers_end; [apply C|lia|apply C|apply C|done|done].
Qed.

Lemma par_high xs c : xs = [] -> c < UNICODESET_HIGH -> par (UNICODESET_HIGH :: xs) c = false.
Proof. intros -> Hc. apply par_above. by constructor. Qed.

Lemma between_high s c : c < UNICODESET_HIGH -> between s UNICODESET_HIGH c = (s <=? c).
Proof. intros. unfold between. rewrite (proj2 (Z.ltb_lt _ _)) by done. apply andb_true_r. Qed.

Lemma add_round0 n buffer i j k a b s xs ys buf f :
  add_delivers n -> ucursors buffer i j k xs ys buf (S n) ->
  ready buf s -> first_side a xs s -> first_side b ys s ->
  (forall c, c < UNICODESET_HIGH -> f c = par buf c || (par (a :: xs) c || par (b :: ys) c)) ->
  delivers (add_loop list other (S n) buffer i j k a b 0) buffer buf (a :: xs) (b :: ys) f.
Proof.
  intros IH C Hr Ha Hb Hf. destruct (Z.lt_trichotomy a b) as [Hab|[<-|Hab]].
  - by eapply add_round0_a.
  - destruct (Z.eq_dec a UNICODESET_HIGH) as [->|Hne]; [|by eapply add_round0_both].
    cbn [add_loop]. rewrite Z.ltb_irrefl, Z.eqb_refl.
    eapply add_exit; [exact C|left; by left|]. intros c Hc.
    rewrite Hf, !par_high by (done || by eapply first_side_high). by destruct (par buf c).
  - by eapply add_round0_b.
Qed.

Lemma second_side_head a xs s : second_side a xs s -> s < a <= UNICODESET_HIGH.
Proof. intros (x0 & _ & ? & ? & _). lia. Qed.

Lemma add_round1 n buffer i j k a b s xs ys buf f :
  add_delivers n -> ucursors buffer i j k xs ys (buf ++ [s]) (S n) ->
  closed buf s -> second_side a xs s -> first_side b ys s ->
  (forall c, c < UNICODESET_HIGH ->
     f c = par buf c || ((between s a c || par xs c) || par (b :: ys) c)) ->
  delivers (add_loop list other (S n) buffer i j k a b 1) buffer (buf ++ [s]) (a :: xs) (b :: ys) f.
Proof.
  intros IH C Hcl Ha Hb Hf. cbn [add_loop].
  pose proof (first_side_head _ _ _ Hb). pose proof (second_side_head _ _ _ Ha).
  destruct (Z.ltb_spec a b) as [Hab|Hab]; [|destruct (Z.ltb_spec b a) as [Hba|Hba]].
  - destruct (second_side_next a xs s Ha) as (x & xs' & -> & Hx); [lia|].
    destruct (ucursors_a _ _ _ _ _ _ _ _ _ C) as (Hget & Hroom & C'). cbn [pred] in C'.
    destruct (ucursors_push _ _ _ _ _ _ _ _ a C') as (buffer' & -> & Hlen & C2);
      [done|apply below_last; [apply C|lia]|lia|].
    cbn [mbind option_bind]. rewrite Hget. cbn [mbind option_bind].
    eapply delivers_step; [eapply IH; [exact C2|by eapply round1_push]|done|uorigins|done].
  - destruct (first_side_next b ys s Hb) as (y & ys' & -> & Hby & _); [lia|].
    destruct (ucursors_b _ _ _ _ _ _ _ _ _ C) as (-> & Hroom & C'). cbn [mbind option_bind].
    eapply delivers_step; [eapply IH; [exact C'|by eapply round1_drop]|done|uorigins|done].
  - assert (a = b) as <- by lia. destruct (Z.eqb_spec a UNICODESET_HIGH) as [->|Hne].
    + eapply add_exit; [exact C|left; by left|]. intros c Hc.
      rewrite Hf, par_high, between_high, par_open by (done || by eapply first_side_high).
      rewrite (second_side_high _ _ Ha). change (par [] c) with false.
      by rewrite !orb_false_r.
    + destruct (second_side_next a xs s Ha Hne) as (x & xs' & -> & Hx).
      destruct (first_side_next a ys s Hb Hne) as (y & ys' & -> & Hay & _).
      destruct (ucursors_a _ _ _ _ _ _ _ _ _ C) as (-> & _ & C'). cbn [mbind option_bind].
      destruct (ucursors_b _ _ _ _ _ _ _ _ _ C') as (-> & _ & C2). cbn [mbind option_bind].
      apply (fun C => ucursors_weaken _ _ _ _ _ _ _ _ n C) in C2; [|cbn; lia].
      eapply delivers_step; [eapply IH; [exact C2|by eapply round1_both]|done|uorigins|done].
Qed.

Lemma add_round2 n buffer i j k a b s xs ys buf f :
  add_delivers n -> ucursors buffer i j k xs ys (buf ++ [s]) (S n) ->
  closed buf s -> first_side a xs s -> second_side b ys s ->
  (forall c, c < UNICODESET_HIGH ->
     f c = par buf c || (par (a :: xs) c || (between s b c || par ys c))) ->
  delivers (add_loop list other (S n) buffer i j k a b 2) buffer (buf ++ [s]) (a :: xs) (b :: ys) f.
Proof.
  intros IH C Hcl Ha Hb Hf. cbn [add_loop].
  pose proof (first_side_head _ _ _ Ha). pose proof (second_side_head _ _ _ Hb).
  destruct (Z.ltb_spec b a) as [Hba|Hba]; [|destruct (Z.ltb_spec a b) as [Hab|Hab]].
  - destruct (second_side_next b ys s Hb) as (y & ys' & -> & Hy); [lia|].
    destruct (ucursors_b _ _ _ _ _ _ _ _ _ C) as (Hget & Hroom & C'). cbn [pred] in C'.
    destruct (ucursors_push _ _ _ _ _ _ _ _ b C') as (buffer' & -> & Hlen & C2);
      [done|apply below_last; [apply C|lia]|lia|].
    cbn [mbind option_bind]. rewrite Hget. cbn [mbind option_bind].
    eapply delivers_step; [eapply IH; [exact C2|by eapply round2_push]|done|uorigins|done].
  - destruct (first_side_next a xs s Ha) as (x & xs' & -> & Hax & _); [lia|].
    destruct (ucursors_a _ _ _ _ _ _ _ _ _ C) as (-> & Hroom & C'). cbn [mbind option_bind].
    eapply delivers_step; [eapply IH; [exact C'|by eapply round2_drop]|done|uorigins|done].
  - assert (a = b) as <- by lia. destruct (Z.eqb_spec a UNICODESET_HIGH) as [->|Hne].
    + eapply add_exit; [exact C|left; by left|]. intros c Hc.
      rewrite Hf, par_high, between_high, par_open by (done || by eapply first_side_high).
      rewrite (second_side_high _ _ Hb). change (par [] c) with false.
      by rewrite !orb_false_r.
    + destruct (second_side_next a ys s Hb Hne) as (y & ys' & -> & Hy).
      destruct (first_side_next a xs s Ha Hne) as (x & xs' & -> & Hax & _).
      destruct (ucursors_a _ _ _ _ _ _ _ _ _ C) as (-> & _ & C'). cbn [mbind option_bind].
      destruct (ucursors_b _ _ _ _ _ _ _ _ _ C') as (-> & _ & C2). cbn [mbind option_bind].
      apply (fun C => ucursors_weaken _ _ _ _ _ _ _ _ n C) in C2; [|cbn; lia].
      eapply delivers_step; [eapply IH; [exact C2|by eapply round2_both]|done|uorigins|done].
Qed.

Lemma add_round3_exit a xs ys b s buf c :
  closed buf s -> second_side b ys s -> c < UNICODESET_HIGH -> a = UNICODESET_HIGH -> xs = [] ->
  par buf c || ((between s a c || par xs c) || (between s b c || par ys c)) = par (buf ++ [s]) c.
Proof.
  intros Hcl Hb Hc -> ->. rewrite between_high, par_open by done. change (par [] c) with false.
  pose proof (second_side_xs _ _ _ c Hb) as Hys. unfold between.
  destruct (Z.leb_spec s c); cbn; [by rewrite orb_true_r|].
  rewrite Hys by lia. by rewrite orb_false_r.
Qed.

Lemma add_round3 n buffer i j k a b s xs ys buf f :
  add_delivers n -> ucursors buffer i j k xs ys (buf ++ [s]) (S n) ->
  closed buf s -> second_side a xs s -> second_side b ys s ->
  (forall c, c < UNICODESET_HIGH ->
     f c = par buf c || ((between s a c || par xs c) || (between s b c || par ys c))) ->
  delivers (add_loop list other (S n) buffer i j k a b 3) buffer (buf ++ [s]) (a :: xs) (b :: ys) f.
Proof.
  intros IH C Hcl Ha Hb Hf. cbn [add_loop].
  pose proof (second_side_head _ _ _ Ha). pose proof (second_side_head _ _ _ Hb).
  assert (Hstep : a <> UNICODESET_HIGH -> b <> UNICODESET_HIGH ->
    delivers (buffer0 ← aset buffer k (Z.max a b); a' ← aget list i; b' ← aget other j;
      add_loop list other n buffer0 (i + 1) (j + 1) (k + 1) a' b' (Z.lxor (Z.lxor 3 1) 2))
      buffer (buf ++ [s]) (a :: xs) (b :: ys) f).
  { intros Hna Hnb. destruct (second_side_next a xs s Ha Hna) as (x & xs' & -> & Hx).
    destruct (second_side_next b ys s Hb Hnb) as (y & ys' & -> & Hy).
    destruct (ucursors_a _ _ _ _ _ _ _ _ _ C) as (Hga & _ & C'). cbn [pred] in C'.
    destruct (ucursors_b _ _ _ _ _ _ _ _ _ C') as (Hgb & Hroom & C2).
    apply (fun C => ucursors_weaken _ _ _ _ _ _ _ _ n C) in C2; [|lia].
    destruct (ucursors_push _ _ _ _ _ _ _ _ (Z.max a b) C2) as (buffer' & -> & Hlen & C3);
      [done|apply below_last; [apply C|lia]|lia|].
    cbn [mbind option_bind]. rewrite Hga. cbn [mbind option_bind]. rewrite Hgb.
    cbn [mbind option_bind].
    eapply delivers_step; [eapply IH; [exact C3|by eapply round3_push]|done|uorigins|done]. }
  destruct (Z.leb_spec b a) as [Hba|Hab].
  - destruct (Z.eqb_spec a UNICODESET_HIGH) as [->|Hne].
    + eapply add_exit; [exact C|left; by left|]. intros c Hc. rewrite Hf by done.
      symmetry. apply add_round3_exit; try done. by eapply second_side_high.
    + rewrite Z.max_l in Hstep by lia. apply Hstep; lia.
  - destruct (Z.eqb_spec b UNICODESET_HIGH) as [->|Hne].
    + eapply add_exit; [exact C|right; by left|]. intros c Hc. rewrite Hf by done.
      rewrite (orb_comm (between s a c || par xs c)).
      symmetry. apply add_round3_exit; try done. by eapply second_side_high.
    + rewrite Z.max_r in Hstep by lia. apply Hstep; lia.
Qed.

Lemma add_loop_spec n : add_delivers n.
Proof.
  induction n as [|n IH]; intros buffer i j k a b polarity xs ys buf f C Hst.
  { destruct C. lia. }
  destruct Hst.
  - by eapply add_round0.
  - by eapply add_round1.
  - by eapply add_round2.
  - by eapply add_round3.
Qed.
End Union.

(** ** What the operations deliver

    [holds l n la]: the array [l] holds the inversion list [la] of length [n],
    followed by cells that are not read. *)

Definition holds (l : list Z) (n : Z) (la : list Z) : Prop :=
  wf_list la /\ n = Z.of_nat (length la) /\ exists junk, l = la ++ junk.

(** A run succeeds, writes [k] cells of the buffer with an inversion list, and
    this list stands for the set [f]. *)
Definition computes (res : option (list Z * Z)) (buffer : list Z) (f : Z -> bool) : Prop :=
  exists buffer' k out, res = Some (buffer', k) /\ length buffer' = length buffer /\
    holds buffer' k out /\ forall c, 0 <= c < UNICODESET_HIGH -> mem out c = f c.

Lemma mem_par l c : c < UNICODESET_HIGH -> mem l c = par l c.
Proof. intros. unfold mem. by rewrite (proj2 (Z.ltb_lt _ _)). Qed.

Lemma mem_neg l c : wf_list l -> c < 0 -> mem l c = false.
Proof.
  intros [_ Hl] Hc. unfold mem. rewrite par_above; [apply andb_false_r|].
  eapply Forall_impl; [exact Hl|]. simpl. lia.
Qed.

Lemma mem_high l c : UNICODESET_HIGH <= c -> mem l c = false.
Proof. intros. unfold mem. by rewrite (proj2 (Z.ltb_ge _ _)). Qed.

Lemma holds_read l n la :
  holds l n la -> exists a xs, la = a :: xs /\ aget l 0 = Some a /\ suffix l 1 xs /\
    hsorted (a :: xs) /\ Forall (fun x => 0 <= x) (a :: xs) /\ n = Z.of_nat (S (length xs)).
Proof.
  intros ([Hs Hp] & -> & junk & ->). destruct la as [|a xs]; [by apply hsorted_not_nil in Hs|].
  exists a, xs. split_and!; [done|done| |done|done|done]. split; [lia|]. by exists junk.
Qed.

Lemma written_holds buf k out : written buf k out -> wf_list out -> holds buf k out.
Proof.
  intros (-> & Ht & _) Hwf. split; [done|]. split; [done|].
  exists (drop (length out) buf). by rewrite <- Ht at 1; rewrite take_drop.
Qed.

Lemma delivers_computes res buffer la lb f g :
  delivers res buffer [] la lb f ->
  Forall (fun x => 0 <= x) la -> Forall (fun x => 0 <= x) lb ->
  (forall c, 0 <= c < UNICODESET_HIGH -> f c = g c) ->
  computes res buffer g.
Proof.
  intros (buffer' & k & out & -> & Hlen & Hw & Hs & HP & Hf) Hla Hlb Hg.
  exists buffer', k, out. split_and!; [done|done| |].
  - apply written_holds; [done|]. split; [done|]. by apply HP.
  - intros c Hc. rewrite mem_par, Hf by lia. by apply Hg.
Qed.

(** The caller may pass an [otherLen] that leaves out the final HIGH, as the
    operations on one range do. *)

Section Runs.
Context (list other buffer la lb : list Z) (len otherLen m : Z).
Hypothesis list_holds : holds list len la.
Hypothesis other_holds : holds other m lb.
Hypothesis other_length : m <= otherLen + 1.
Hypothesis buffer_room : len + otherLen <= Z.of_nat (length buffer).

(** The four polarities of [retain]. *)
Definition retain_meaning (polarity : Z) (x y : bool) : bool :=
  match polarity with 0 => x && y | 1 => negb x && y | 2 => x && negb y | _ => x || y end.

Lemma retain_run_computes polarity :
  0 <= polarity < 4 ->
  computes (retain_run list other buffer len otherLen polarity) buffer
    (fun c => retain_meaning polarity (mem la c) (mem lb c)).
Proof.
  intros Hpol. unfold retain_run.
  destruct (holds_read _ _ _ list_holds) as (a & xs & -> & -> & Hxs & Ha & Hpa & Hn).
  destruct (holds_read _ _ _ other_holds) as (b & ys & -> & -> & Hys & Hb & Hpb & Hm).
  cbn [mbind option_bind]. eapply delivers_computes; [apply retain_loop_spec|done|done|].
  - constructor; try done; [apply written_start|constructor|lia|simpl; lia].
  - constructor.
  - constructor.
  - done.
  - intros c Hc. rewrite !mem_par by lia. unfold retain_spec.
    change (par [] c) with false.
    assert (Hcase : polarity = 0 \/ polarity = 1 \/ polarity = 2 \/ polarity = 3) by lia.
    destruct Hcase as [->|[->|[->| ->]]]; cbn -[par];
      destruct (par (a :: xs) c), (par (b :: ys) c); done.
Qed.

Lemma exclusiveOr_run_computes :
  computes (exclusiveOr_run list other buffer len otherLen 0) buffer
    (fun c => xorb (mem la c) (mem lb c)).
Proof.
  unfold exclusiveOr_run.
  destruct (holds_read _ _ _ list_holds) as (a & xs & -> & -> & Hxs & Ha & Hpa & Hn).
  destruct (holds_read _ _ _ other_holds) as (b & ys & -> & -> & Hys & Hb & Hpb & Hm).
  cbn [mbind option_bind Z.eqb orb].
  eapply delivers_computes; [apply exclusiveOr_loop_spec|done|done|].
  - constructor; try done; [apply written_start|constructor|lia|simpl; lia].
  - constructor.
  - constructor.
  - intros c Hc. by rewrite !mem_par by lia.
Qed.

(** Polarities 1 and 2 complement the second set, when it does not contain U+0000. *)
Lemma exclusiveOr_run_complement polarity :
  polarity = 1 \/ polarity = 2 -> m <= otherLen -> mem lb 0 = false ->
  computes (exclusiveOr_run list other buffer len otherLen polarity) buffer
    (fun c => xorb (mem la c) (negb (mem lb c))).
Proof.
  intros Hpol Hm' H0. unfold exclusiveOr_run.
  replace ((polarity =? 1) || (polarity =? 2)) with true by (by destruct Hpol as [->| ->]).
  destruct (holds_read _ _ _ list_holds) as (a & xs & -> & -> & Hxs & Ha & Hpa & Hn).
  destruct other_holds as (_ & _ & junk & Hother).
  destruct (holds_read _ _ _ other_holds) as (b & ys & -> & -> & Hys & Hb & Hpb & Hm).
  cbn [mbind option_bind].
  assert (Hpos : UNICODESET_LOW < b).
  { rewrite mem_par in H0 by done. inversion Hpb as [|? ? Hb0]; subst. unfold UNICODESET_LOW.
    destruct (Z.eq_dec b 0) as [->|]; [|lia]. rewrite par_cons, par_above in H0; [done|].
    by apply hsorted_above. }
  rewrite (proj2 (Z.eqb_neq _ _)) by lia.
  eapply delivers_computes; [apply exclusiveOr_loop_spec with (xs := xs) (ys := b :: ys)|done| |].
  - constructor; try done.
    + by apply hsorted_cons.
    + split; [lia|]. exists junk. by rewrite Hother.
    + apply written_start.
    + constructor.
    + cbn [length]. lia.
    + cbn [length]. lia.
  - constructor.
  - constructor.
  - by constructor.
  - intros c Hc. rewrite !mem_par by lia. change (par [] c) with false.
    rewrite (par_cons UNICODESET_LOW). unfold UNICODESET_LOW.
    rewrite (proj2 (Z.leb_le 0 c)) by lia. by destruct (par (b :: ys) c).
Qed.

Lemma add_run_computes :
  computes (add_run list other buffer len otherLen 0) buffer (fun c => mem la c || mem lb c).
Proof.
  unfold add_run.
  destruct (holds_read _ _ _ list_holds) as (a & xs & -> & -> & Hxs & Ha & Hpa & Hn).
  destruct (holds_read _ _ _ other_holds) as (b & ys & -> & -> & Hys & Hb & Hpb & Hm).
  cbn [mbind option_bind].
  eapply delivers_computes;
    [eapply (add_loop_spec list other) with (f := fun c => par (a :: xs) c || par (b :: ys) c)
    |done|done|].
  - constructor; [done|done|apply written_start|constructor|constructor|lia|simpl; lia].
  - apply (U0 _ _ _ _ _ 0); [by left| | |done].
    + split; [done|]. by inversion Hpa.
    + split; [done|]. by inversion Hpb.
  - intros c Hc. by rewrite !mem_par by lia.
Qed.
End Runs.

(** ** The search *)

(** The [i]-th cell is the first one above [c]. *)
Definition first_above (la : list Z) (c : Z) (i : Z) : Prop :=
  0 <= i < Z.of_nat (length la) /\
  (forall (m : nat) x, la !! m = Some x -> (Z.of_nat m < i <-> x <= c)).

Lemma wf_lookup_lt la (m n : nat) x y :
  wf_list la -> la !! m = Some x -> la !! n = Some y -> (m < n)%nat -> x < y.
Proof.
  intros [[Hs _] _] Hm Hn Hlt.
  rewrite <- (take_drop n la) in Hs.
  eapply (StronglySorted_app_1_elem_of _ (take n la) (drop n la)); [exact Hs| |].
  - apply list_elem_of_lookup. exists m. by rewrite lookup_take_lt.
  - apply list_elem_of_lookup. exists 0%nat. by rewrite lookup_drop, Nat.add_0_r.
Qed.

Lemma wf_last la : wf_list la -> la !! pred (length la) = Some UNICODESET_HIGH.
Proof. intros [[_ Hl] _]. by rewrite <- last_lookup. Qed.

Lemma holds_get l n la (m : nat) : holds l n la -> (m < length la)%nat ->
  exists x, la !! m = Some x /\ aget l (Z.of_nat m) = Some x.
Proof.
  intros (_ & _ & junk & ->) Hm. destruct (lookup_lt_is_Some_2 la m Hm) as [x Hx].
  exists x. split; [done|]. by rewrite aget_nat, lookup_app_l.
Qed.

(** The loop halves [hi - lo] and keeps [list[lo] <= c < list[hi]]. *)
Lemma findCodePoint_loop_spec l n la c : holds l n la ->
  forall fuel lo hi : nat, (lo < hi < length la)%nat -> (hi - lo < fuel)%nat ->
  (forall x, la !! lo = Some x -> x <= c) -> (forall x, la !! hi = Some x -> c < x) ->
  exists i, findCodePoint_loop fuel l c (Z.of_nat lo) (Z.of_nat hi) = Some i /\
    first_above la c i.
Proof.
  intros Hl. pose proof Hl as (Hwf & _ & _). induction fuel as [|fuel IH]; intros lo hi Hlh Hf Hlo Hhi; [lia|].
  cbn [findCodePoint_loop]. rewrite Z.shiftr_div_pow2 by lia. change (2 ^ 1) with 2.
  set (i := (Z.of_nat lo + Z.of_nat hi) / 2).
  assert (Hi : Z.of_nat lo <= i < Z.of_nat hi) by (unfold i; dlia).
  destruct (Z.eqb_spec i (Z.of_nat lo)) as [Heq|Hne].
  - exists (Z.of_nat hi). split; [done|]. split; [lia|]. intros m x Hx.
    assert (hi = S lo) as -> by (unfold i in *; dlia).
    destruct (lookup_lt_is_Some_2 la lo) as [xl Hxl]; [lia|].
    destruct (lookup_lt_is_Some_2 la (S lo)) as [xh Hxh]; [lia|].
    specialize (Hlo _ Hxl). specialize (Hhi _ Hxh).
    destruct (lt_eq_lt_dec m (S lo)) as [[Hlt| ->]|Hgt].
    + destruct (Nat.eq_dec m lo) as [->|]; [simplify_eq; lia|].
      pose proof (wf_lookup_lt _ _ _ _ _ Hwf Hx Hxl). lia.
    + simplify_eq; lia.
    + pose proof (wf_lookup_lt _ _ _ _ _ Hwf Hxh Hx). lia.
  - destruct (Z_of_nat_complete i) as [m Hm]; [lia|]. rewrite Hm in *.
    destruct (holds_get _ _ _ m Hl) as (x & Hx & ->); [lia|]. cbn [mbind option_bind].
    destruct (Z.ltb_spec c x).
    + apply IH; [lia|lia|done|]. intros y Hy. by simplify_eq.
    + apply IH; [lia|lia| |done]. intros y Hy. by simplify_eq.
Qed.

Lemma findCodePoint_spec l n la c :
  holds l n la -> c < UNICODESET_HIGH ->
  exists i, findCodePoint l n c = Some i /\ first_above la c i.
Proof.
  intros Hl Hc. pose proof Hl as (Hwf & Hn & _). pose proof (wf_last _ Hwf) as Hlast.
  apply lookup_lt_Some in Hlast as Hpos.
  unfold findCodePoint.
  destruct (holds_get _ _ _ 0%nat Hl) as (x0 & Hx0 & Hg0); [lia|]. change (Z.of_nat 0) with 0 in Hg0.
  rewrite Hg0. cbn [mbind option_bind].
  destruct (Z.ltb_spec c x0) as [Hc0|Hc0].
  { exists 0. split; [done|]. split; [lia|]. intros m x Hx.
    destruct m as [|m]; [simplify_eq; lia|].
    pose proof (wf_lookup_lt _ _ _ _ _ Hwf Hx0 Hx). lia. }
  assert (Hlen : (1 < length la)%nat).
  { destruct (decide (length la = 1)%nat) as [H1|]; [|lia]. rewrite H1 in Hlast. simpl in Hlast.
    simplify_eq. unfold UNICODESET_HIGH in *. lia. }
  rewrite Z.geb_leb, (proj2 (Z.leb_gt _ _)) by lia.
  replace (n - 1 - 1) with (Z.of_nat (length la - 2)) by lia.
  destruct (holds_get _ _ _ (length la - 2)%nat Hl) as (xh & Hxh & ->); [lia|].
  cbn [mbind option_bind]. rewrite Z.geb_leb. destruct (Z.leb_spec xh c).
  - exists (n - 1). split; [done|]. split; [lia|]. intros m x Hx.
    apply lookup_lt_Some in Hx as Hmlt.
    destruct (decide (m = length la - 2)%nat) as [->|]; [simplify_eq; lia|].
    destruct (decide (m = length la - 1)%nat) as [->|].
    + replace (pred (length la)) with (length la - 1)%nat in Hlast by lia. simplify_eq. lia.
    + assert (x < xh) by (eapply (wf_lookup_lt la m); [done|done|done|lia]). lia.
  - replace (n - 1) with (Z.of_nat (length la - 1)) by lia. change 0 with (Z.of_nat 0).
    eapply findCodePoint_loop_spec; [exact Hl|lia|lia| |].
    + intros x Hx. simplify_eq. lia.
    + intros x Hx. replace (pred (length la)) with (length la - 1)%nat in Hlast by lia.
      by simplify_eq.
Qed.

(** The parity of the index is membership. *)
Lemma par_first_above la c i :
  first_above la c i -> par la c = Z.odd i.
Proof.
  revert i. induction la as [|x la IH]; intros i [Hi Hm]; simpl in *; [lia|].
  destruct (Z.leb_spec x c) as [Hx|Hx].
  - pose proof (Hm 0%nat x eq_refl) as [_ H0]. specialize (H0 Hx).
    destruct (decide (i = 1)) as [->|Hne].
    + cbn. rewrite par_above; [done|]. apply Forall_lookup_2. intros m y Hy.
      specialize (Hm (S m) y Hy). lia.
    + replace (Z.odd i) with (negb (Z.odd (i - 1)))
        by (rewrite Z.odd_sub; by destruct (Z.odd i)).
      rewrite <- (IH (i - 1)); [by destruct (par la c)|].
      split; [lia|].
      intros m y Hy. specialize (Hm (S m) y Hy). lia.
  - pose proof (Hm 0%nat x eq_refl) as H0. assert (i = 0) as -> by lia. cbn.
    apply par_above. apply Forall_lookup_2. intros m y Hy. specialize (Hm (S m) y Hy). lia.
Qed.

Lemma mem_first_above la c i :
  c < UNICODESET_HIGH -> first_above la c i -> mem la c = Z.odd i.
Proof. intros. rewrite mem_par by done. by apply par_first_above. Qed.

(** ** Adding one code point to a list *)

(** The list around the first element above [c]. *)
Lemma split_first_above la c i :
  wf_list la -> first_above la c i ->
  exists p li q, la = p ++ li :: q /\ Z.of_nat (length p) = i /\ StronglySorted Z.lt p /\
    Forall (fun x => 0 <= x <= c) p /\ hsorted (li :: q) /\ c < li /\ 0 <= li.
Proof.
  intros [[Hs Hl] Hp] [Hi Hm]. set (k := Z.to_nat i).
  destruct (lookup_lt_is_Some_2 la k) as [li Hli]; [lia|].
  exists (take k la), li, (drop (S k) la).
  pose proof (take_drop_middle la k li Hli) as Heq.
  rewrite <- Heq in Hs. apply StronglySorted_app in Hs as (_ & Hs1 & Hs2).
  split_and!.
  - done.
  - rewrite length_take. lia.
  - done.
  - apply Forall_lookup_2. intros j x Hx. apply lookup_lt_Some in Hx as Hj.
    rewrite length_take in Hj. rewrite lookup_take_lt in Hx by lia.
    split; [by eapply (Forall_lookup_1 _ _ _ _ Hp)|]. apply (Hm j x Hx). lia.
  - split; [done|]. rewrite <- Heq, last_app_cons in Hl. done.
  - specialize (Hm k li Hli). lia.
  - by eapply (Forall_lookup_1 _ _ _ _ Hp).
Qed.

Lemma wf_join p q c :
  StronglySorted Z.lt p -> Forall (fun x => 0 <= x < c) p -> hsorted q -> Forall (fun x => c <= x) q ->
  0 <= c -> wf_list (p ++ q).
Proof.
  intros Hp Hpc [Hq Hl] Hqc H0. rewrite Forall_forall in Hpc, Hqc. split; [split|].
  - apply StronglySorted_app. split_and!; [|done|done]. intros x y Hx Hy.
    specialize (Hpc x Hx). specialize (Hqc y Hy). lia.
  - rewrite last_app. by rewrite Hl.
  - apply Forall_app. split; apply Forall_forall; intros x Hx;
      [specialize (Hpc x Hx)|specialize (Hqc x Hx)]; lia.
Qed.

(** The two points of a new range toggle the one code point. *)
Lemma two_points c x : xorb (c <=? x) (c + 1 <=? x) = (x =? c).
Proof. repeat (zcase; try lia); done. Qed.

Lemma even_par p c x :
  Forall (fun y => 0 <= y <= c) p -> Z.odd (Z.of_nat (length p)) = false -> c <= x -> par p x = false.
Proof.
  intros Hp Hodd Hx. assert (H : par p x = Z.odd (Z.of_nat (length p))); [|by rewrite H].
  clear Hodd. induction Hp as [|y p Hy Hp IH]; [done|]. rewrite par_cons, IH.
  rewrite (proj2 (Z.leb_le _ _)) by lia. rewrite length_cons, Nat2Z.inj_succ, Z.odd_succ, <- Z.negb_odd.
  by destruct (Z.odd _).
Qed.

Section AddPoint.
Context (p q : list Z) (c li : Z).
Hypothesis p_sorted : StronglySorted Z.lt p.
Hypothesis p_below : Forall (fun x => 0 <= x <= c) p.
Hypothesis q_sorted : hsorted (li :: q).
Hypothesis c_below : c < li.
Hypothesis c_range : 0 <= c < UNICODESET_HIGH.
Hypothesis p_even : Z.odd (Z.of_nat (length p)) = false.

Lemma absent : par (p ++ li :: q) c = false.
Proof.
  rewrite par_app, (even_par p c) by (done || lia).
  rewrite par_above; [done|]. constructor; [done|].
  eapply Forall_impl; [by apply hsorted_above|]. simpl. lia.
Qed.

(** The new list has the set with [c]. *)
Definition adds (la' : list Z) : Prop :=
  wf_list la' /\ forall x, 0 <= x < UNICODESET_HIGH -> mem la' x = (x =? c) || mem (p ++ li :: q) x.

Lemma adds_intro la' :
  wf_list la' ->
  (forall x, x < UNICODESET_HIGH -> par la' x = xorb (x =? c) (par (p ++ li :: q) x)) -> adds la'.
Proof.
  intros Hwf Hpar. split; [done|]. intros x Hx. rewrite !mem_par, Hpar by lia.
  destruct (Z.eqb_spec x c) as [->|]; [by rewrite absent|]. by destruct (par _ x).
Qed.

Lemma below_strict : (forall p0, p <> p0 ++ [c]) -> Forall (fun x => 0 <= x < c) p.
Proof.
  intros Hne. apply Forall_forall. intros x Hx. rewrite Forall_forall in p_below.
  pose proof (p_below x Hx). destruct (Z.eq_dec x c) as [->|]; [|lia]. exfalso.
  apply list_elem_of_split in Hx as (p1 & p2 & ->). destruct p2 as [|y p2]; [by apply (Hne p1)|].
  apply StronglySorted_app in p_sorted as (_ & _ & Hs). inversion_clear Hs as [|? ? _ Hc].
  inversion_clear Hc as [|? ? Hy _].
  destruct (p_below y) as [_ Hyc]; [apply elem_of_app; right; right; left|]. lia.
Qed.

Lemma add_new_range : (forall p0, p <> p0 ++ [c]) -> c + 1 <> li -> adds (p ++ c :: c + 1 :: li :: q).
Proof.
  intros Hprior Hnext. pose proof (hsorted_from _ _ q_sorted) as Hq.
  apply adds_intro.
  - apply (wf_join _ _ c); [done|by apply below_strict| | |lia].
    + apply hsorted_cons. split; [lia|]. apply hsorted_cons. split; [lia|done].
    + do 2 (constructor; [lia|]). eapply Forall_impl; [exact Hq|]. simpl. lia.
  - intros x Hx. rewrite !par_app, !(par_cons c), !(par_cons (c + 1)), <- two_points.
    by destruct (par p x), (c <=? x), (c + 1 <=? x), (par (li :: q) x).
Qed.

Lemma add_before_next : (forall p0, p <> p0 ++ [c]) -> li = c + 1 ->
  adds (if c =? UNICODESET_HIGH - 1 then p ++ [c; UNICODESET_HIGH] else p ++ c :: q).
Proof.
  intros Hprior Hnext. pose proof (below_strict Hprior) as Hlt.
  destruct (Z.eqb_spec c (UNICODESET_HIGH - 1)) as [Hhigh|Hne].
  - assert (q = []) as Hq0.
    { destruct q as [|y q']; [done|]. apply hsorted_cons in q_sorted as [? ?%hsorted_head]. lia. }
    apply adds_intro.
    + apply (wf_join _ _ c); [done|done| |repeat (constructor; [lia|]); constructor|lia].
      apply hsorted_cons. split; [lia|]. by apply hsorted_single.
    + intros x Hx. rewrite !par_app, par_cons, (par_cons li), Hq0, (par_above [UNICODESET_HIGH])
        by (constructor; [lia|constructor]).
      change (par [] x) with false. rewrite <- two_points, <- Hnext.
      by destruct (par p x), (c <=? x), (li <=? x).
  - apply adds_intro.
    + destruct (hsorted_next li q q_sorted) as (y & q' & -> & Hy & Hs);
        [intros ->; lia|].
      apply (wf_join _ _ c); [done|done| | |lia].
      * apply hsorted_cons. split; [lia|done].
      * constructor; [lia|]. eapply Forall_impl; [by apply hsorted_from|]. simpl. lia.
    + intros x Hx. rewrite !par_app, par_cons, (par_cons li), <- two_points, <- Hnext.
      by destruct (par p x), (c <=? x), (li <=? x), (par q x).
Qed.

(** The prior range ends at [c]. *)
Lemma add_after_prior p0 : p = p0 ++ [c] -> li <> c + 1 -> adds (p0 ++ c + 1 :: li :: q).
Proof.
  intros Hp Hnext. pose proof p_sorted as Hps. pose proof p_below as Hpb. rewrite Hp in Hps, Hpb.
  apply StronglySorted_app in Hps as (Hlt & Hs & _).
  pose proof (hsorted_from _ _ q_sorted) as Hq.
  apply Forall_app in Hpb as [Hp0 _]. rewrite Forall_forall in Hp0.
  apply adds_intro.
  - apply (wf_join _ _ (c + 1)); [done| | | |lia].
    + apply Forall_forall. intros x Hx. specialize (Hp0 x Hx). lia.
    + apply hsorted_cons. split; [lia|done].
    + constructor; [lia|]. eapply Forall_impl; [exact Hq|]. simpl. lia.
  - intros x Hx. rewrite Hp, !par_app, (par_cons c), (par_cons (c + 1)), <- two_points.
    change (par [] x) with false.
    by destruct (par p0 x), (c <=? x), (c + 1 <=? x), (par (li :: q) x).
Qed.

(** The point closes the gap between two ranges. *)
Lemma add_between p0 : p = p0 ++ [c] -> li = c + 1 ->
  adds (if c =? UNICODESET_HIGH - 1 then p0 ++ [UNICODESET_HIGH] else p0 ++ q).
Proof.
  intros Hp Hnext. pose proof p_sorted as Hps. pose proof p_below as Hpb. rewrite Hp in Hps, Hpb.
  apply StronglySorted_app in Hps as (Hlt & Hs & _).
  apply Forall_app in Hpb as [Hp0 _]. rewrite Forall_forall in Hp0.
  assert (Hp0c : Forall (fun x => 0 <= x < c + 1) p0).
  { apply Forall_forall. intros x Hx. specialize (Hp0 x Hx). lia. }
  destruct (Z.eqb_spec c (UNICODESET_HIGH - 1)) as [Hhigh|Hne].
  - assert (q = []) as Hq0.
    { destruct q as [|y q']; [done|]. apply hsorted_cons in q_sorted as [? ?%hsorted_head]. lia. }
    apply adds_intro.
    + apply (wf_join _ _ (c + 1)); [done|done|by apply hsorted_single| |lia].
      constructor; [lia|constructor].
    + intros x Hx. rewrite Hp, !par_app, (par_cons c), (par_cons li), Hq0, (par_above [UNICODESET_HIGH])
        by (constructor; [lia|constructor]).
      change (par [] x) with false. rewrite <- two_points, <- Hnext.
      by destruct (par p0 x), (c <=? x), (li <=? x).
  - apply adds_intro; destruct (hsorted_next li q q_sorted) as (y & q' & -> & Hy & Hs');
      try (intros ->; lia).
    + apply (wf_join _ _ (c + 1)); [done|done|done| |lia].
      eapply Forall_impl; [by apply hsorted_from|]. simpl. lia.
    + intros x Hx. rewrite Hp, !par_app, (par_cons c), (par_cons li), <- two_points, <- Hnext.
      change (par [] x) with false.
      by destruct (par p0 x), (c <=? x), (li <=? x), (par (y :: q') x).
Qed.
End AddPoint.

(** Two inversion lists of the same set are equal. *)
Lemma wf_list_canonical la lb :
  wf_list la -> wf_list lb -> (forall c, 0 <= c < UNICODESET_HIGH -> mem la c = mem lb c) -> la = lb.
Proof.
  assert (H : forall la lb : list Z, hsorted la -> hsorted lb ->
    (forall c, c < UNICODESET_HIGH -> par la c = par lb c) -> la = lb).
  { clear. induction la as [|a la IH]; intros lb Ha Hb Hpar; [by apply hsorted_not_nil in Ha|].
    destruct lb as [|b lb]; [by apply hsorted_not_nil in Hb|].
    pose proof (hsorted_head _ _ Ha). pose proof (hsorted_head _ _ Hb).
    assert (a = b) as <-.
    { destruct (Z.lt_trichotomy a b) as [Hlt|[?|Hlt]]; [|done|].
      - specialize (Hpar a ltac:(lia)). rewrite (par_below b lb b) in Hpar by (done || lia).
        rewrite par_cons, par_above, (proj2 (Z.leb_le _ _)) in Hpar by (lia || by apply hsorted_above).
        done.
      - specialize (Hpar b ltac:(lia)). rewrite (par_below a la a) in Hpar by (done || lia).
        rewrite par_cons, par_above, (proj2 (Z.leb_le _ _)) in Hpar by (lia || by apply hsorted_above).
        done. }
    f_equal. destruct (Z.eq_dec a UNICODESET_HIGH) as [->|Hne].
    - destruct la as [|x la]; [|apply hsorted_cons in Ha as [? ?%hsorted_head]; lia].
      destruct lb as [|y lb]; [done|]. apply hsorted_cons in Hb as [? ?%hsorted_head]; lia.
    - destruct (hsorted_next a la Ha Hne) as (x & la' & -> & ? & ?).
      destruct (hsorted_next a lb Hb Hne) as (y & lb' & -> & ? & ?).
      apply IH; [done|done|]. intros c Hc. specialize (Hpar c Hc). rewrite !(par_cons a) in Hpar.
      by destruct (a <=? c), (par (x :: la') c), (par (y :: lb') c). }
  intros [Ha Hpa] [Hb Hpb] Hm. apply H; [done|done|]. intros c Hc.
  destruct (Z.lt_ge_cases c 0) as [Hneg|Hpos].
  - rewrite !par_above; [done|..]; (eapply Forall_impl; [eassumption|]; simpl; lia).
  - specialize (Hm c ltac:(lia)). by rewrite !mem_par in Hm by done.
Qed.
