(* ===== verification/Utf16.v ===== *)
(** * UTF-16: the macros of src/common/unicode/utf16.h and the string functions
    of src/common/unistr.cpp that the sets use

    A UTF-16 string is the list of its code units, any 16-bit values: surrogates
    may be unpaired.  The macros that move an index return the index; an access
    outside the array gives [None]. *)
From S2P Require Import Prelude.

Local Open Scope Z_scope.

Definition U_IS_SURROGATE (c : Z) : bool := Z.land c 0xfffff800 =? 0xd800.
Definition U16_IS_LEAD (c : Z) : bool := Z.land c 0xfffffc00 =? 0xd800.
Definition U16_IS_TRAIL (c : Z) : bool := Z.land c 0xfffffc00 =? 0xdc00.
Definition U16_IS_SURROGATE_LEAD (c : Z) : bool := Z.land c 0x400 =? 0.
Definition U16_SURROGATE_OFFSET : Z := Z.shiftl 0xd800 10 + 0xdc00 - 0x10000.
Definition U16_GET_SUPPLEMENTARY (lead trail : Z) : Z :=
  Z.shiftl lead 10 + trail - U16_SURROGATE_OFFSET.
Definition U16_LEAD (supplementary : Z) : Z := uint16 (Z.shiftr supplementary 10 + 0xd7c0).
Definition U16_TRAIL (supplementary : Z) : Z := uint16 (Z.lor (Z.land supplementary 0x3ff) 0xdc00).
Definition U16_LENGTH (c : Z) : Z := if uint32 c <=? 0xffff then 1 else 2.

(** [U16_GET]: the code point that the unit at [i] belongs to. *)
Definition U16_GET (s : list Z) (start i length : Z) : option Z :=
  c ← aget s i;
  if U_IS_SURROGATE c then
    if U16_IS_SURROGATE_LEAD c then
      if negb (i + 1 =? length) then
        c2 ← aget s (i + 1);
        if U16_IS_TRAIL c2 then Some (U16_GET_SUPPLEMENTARY c c2) else Some c
      else Some c
    else
      if i >? start then
        c2 ← aget s (i - 1);
        if U16_IS_LEAD c2 then Some (U16_GET_SUPPLEMENTARY c2 c) else Some c
      else Some c
  else Some c.

(** [U16_NEXT]: the code point at [i] and the index after it. *)
Definition U16_NEXT (s : list Z) (i length : Z) : option (Z * Z) :=
  c ← aget s i;
  let i := i + 1 in
  if U16_IS_LEAD c then
    if negb (i =? length) then
      c2 ← aget s i;
      if U16_IS_TRAIL c2 then Some (U16_GET_SUPPLEMENTARY c c2, i + 1) else Some (c, i)
    else Some (c, i)
  else Some (c, i).

(** [U16_PREV]: the code point before [i] and its index. *)
Definition U16_PREV (s : list Z) (start i : Z) : option (Z * Z) :=
  let i := i - 1 in
  c ← aget s i;
  if U16_IS_TRAIL c then
    if i >? start then
      c2 ← aget s (i - 1);
      if U16_IS_LEAD c2 then Some (U16_GET_SUPPLEMENTARY c2 c, i - 1) else Some (c, i)
    else Some (c, i)
  else Some (c, i).

(** [U16_APPEND_UNSAFE], as the units it appends. *)
Definition U16_APPEND_UNSAFE (s : list Z) (c : Z) : list Z :=
  if uint32 c <=? 0xffff then s ++ [uint16 c] else s ++ [U16_LEAD c; U16_TRAIL c].

Definition U16_IS_SINGLE (c : Z) : bool := negb (U_IS_SURROGATE c).

(** [U16_FWD_1]: the index after the code point at [i]. *)
Definition U16_FWD_1 (s : list Z) (i length : Z) : option Z :=
  c ← aget s i;
  let i := i + 1 in
  if U16_IS_LEAD c then
    if negb (i =? length) then
      c2 ← aget s i;
      if U16_IS_TRAIL c2 then Some (i + 1) else Some i
    else Some i
  else Some i.

(** [U16_FWD_N] moves over [n] code points; the fuel is [n]. *)
Fixpoint U16_FWD_N_loop (n : nat) (s : list Z) (i length : Z) : option Z :=
  match n with
  | O => Some i
  | S n' =>
      more ← (if i <? length then Some true
              else if length <? 0 then c ← aget s i; Some (negb (c =? 0)) else Some false);
      if more : bool then i ← U16_FWD_1 s i length; U16_FWD_N_loop n' s i length else Some i
  end.

Definition U16_FWD_N (s : list Z) (i length n : Z) : option Z :=
  U16_FWD_N_loop (Z.to_nat n) s i length.

(** ** UnicodeString (common/unistr.cpp)

    The sets read the contents of a string object, never its storage. *)

Definition UnicodeString : Type := list Z.

#[export] Instance UnicodeString_eq_dec : EqDecision UnicodeString.
Proof. unfold UnicodeString. apply _. Defined.

Definition us_length (s : UnicodeString) : Z := Z.of_nat (List.length s).

Definition kInvalidUChar : Z := 0xffff.

Definition char32At (s : UnicodeString) (offset : Z) : option Z :=
  let len := us_length s in
  if uint32 offset <? uint32 len then U16_GET s 0 offset len else Some kInvalidUChar.

Definition charAt (s : UnicodeString) (offset : Z) : option Z :=
  if uint32 offset <? uint32 (us_length s) then aget s offset else Some kInvalidUChar.

(** [doCompare], for two valid strings: code unit order. *)
Fixpoint doCompare_loop (chars srcChars : list Z) (minLength : nat) (lengthResult : Z) : Z :=
  match minLength, chars, srcChars with
  | S n, c :: chars', d :: srcChars' =>
      let result := c - d in
      if negb (result =? 0) then int8 (Z.lor (Z.shiftr result 15) 1)
      else doCompare_loop chars' srcChars' n lengthResult
  | _, _, _ => lengthResult
  end.

Definition compare (s text : UnicodeString) : Z :=
  let '(minLength, lengthResult) :=
    if negb (us_length s =? us_length text) then
      if us_length s <? us_length text then (us_length s, -1) else (us_length text, 1)
    else (us_length s, 0) in
  doCompare_loop s text (Z.to_nat minLength) lengthResult.

Definition is_string (s : UnicodeString) : Prop := Forall is_uint16 s.

(** ** Code units *)

Lemma U_IS_SURROGATE_spec c :
  0 <= c < 0x110000 -> U_IS_SURROGATE c = (0xd800 <=? c) && (c <? 0xe000).
Proof.
  intros Hc. unfold U_IS_SURROGATE.
  change 0xfffff800 with (Z.shiftl (Z.ones 21) 11). rewrite land_high_mask by lia.
  zcases; cbn; dlia.
Qed.

Lemma U16_IS_LEAD_spec c : 0 <= c < 0x110000 -> U16_IS_LEAD c = (0xd800 <=? c) && (c <? 0xdc00).
Proof.
  intros Hc. unfold U16_IS_LEAD.
  change 0xfffffc00 with (Z.shiftl (Z.ones 22) 10). rewrite land_high_mask by lia.
  zcases; cbn; dlia.
Qed.

Lemma U16_IS_TRAIL_spec c : 0 <= c < 0x110000 -> U16_IS_TRAIL c = (0xdc00 <=? c) && (c <? 0xe000).
Proof.
  intros Hc. unfold U16_IS_TRAIL.
  change 0xfffffc00 with (Z.shiftl (Z.ones 22) 10). rewrite land_high_mask by lia.
  zcases; cbn; dlia.
Qed.

Lemma U16_IS_SURROGATE_LEAD_spec c :
  0xd800 <= c < 0xe000 -> U16_IS_SURROGATE_LEAD c = (c <? 0xdc00).
Proof.
  intros Hc. unfold U16_IS_SURROGATE_LEAD.
  change 0x400 with (Z.land (2 ^ 11 - 1) (Z.shiftl (Z.ones 1) 10)).
  rewrite Z.land_assoc, land_low_mask, land_high_mask by dlia. zcases; dlia.
Qed.

Lemma U16_LENGTH_spec c : 0 <= c < 0x110000 -> U16_LENGTH c = if c <? 0x10000 then 1 else 2.
Proof. intros. unfold U16_LENGTH. unfold uint32. rewrite Z.mod_small by lia. zcases; done. Qed.

Lemma U16_GET_SUPPLEMENTARY_eq lead trail :
  U16_GET_SUPPLEMENTARY lead trail = (lead - 0xd800) * 1024 + (trail - 0xdc00) + 0x10000.
Proof.
  unfold U16_GET_SUPPLEMENTARY, U16_SURROGATE_OFFSET.
  change (Z.shiftl 0xd800 10) with 56623104. rewrite Z.shiftl_mul_pow2 by lia.
  change (2 ^ 10) with 1024. lia.
Qed.

Lemma U16_LEAD_eq c : 0x10000 <= c < 0x110000 -> U16_LEAD c = c / 1024 + 0xd7c0.
Proof. intros. unfold U16_LEAD. rewrite Z.shiftr_div_pow2 by lia. change (2 ^ 10) with 1024. dlia. Qed.

Lemma U16_TRAIL_eq c : 0x10000 <= c < 0x110000 -> U16_TRAIL c = c mod 1024 + 0xdc00.
Proof.
  intros. unfold U16_TRAIL. change 0x3ff with (2 ^ 10 - 1). rewrite land_low_mask by lia.
  change 0xdc00 with (55 * 2 ^ 10) at 1. rewrite Z.lor_comm, lor_fields by dlia.
  change (2 ^ 10) with 1024. dlia.
Qed.

(** The surrogate pair of a supplementary code point reads back as the code point. *)
Lemma U16_pair_supplementary c :
  0x10000 <= c < 0x110000 ->
  U16_IS_LEAD (U16_LEAD c) = true /\ U16_IS_TRAIL (U16_TRAIL c) = true /\
  U16_GET_SUPPLEMENTARY (U16_LEAD c) (U16_TRAIL c) = c.
Proof.
  intros Hc. rewrite U16_LEAD_eq, U16_TRAIL_eq, U16_GET_SUPPLEMENTARY_eq by done.
  rewrite U16_IS_LEAD_spec, U16_IS_TRAIL_spec by dlia.
  split_and!; [..|dlia]; apply andb_true_intro; split; (apply Z.leb_le || apply Z.ltb_lt); dlia.
Qed.

(** ** The code points of a string *)

Fixpoint code_points (s : list Z) : list Z :=
  match s with
  | [] => []
  | c :: s' =>
      match s' with
      | t :: s'' =>
          if U16_IS_LEAD c && U16_IS_TRAIL t
          then U16_GET_SUPPLEMENTARY c t :: code_points s''
          else c :: code_points s'
      | [] => [c]
      end
  end.

Lemma code_points_cons c s :
  code_points (c :: s) =
    match s with
    | t :: s'' => if U16_IS_LEAD c && U16_IS_TRAIL t
                  then U16_GET_SUPPLEMENTARY c t :: code_points s'' else c :: code_points s
    | [] => [c]
    end.
Proof. done. Qed.

(** [U16_NEXT] reads the first code point of the rest. *)
Lemma U16_NEXT_spec s (i : nat) c rest :
  drop i s = c :: rest ->
  U16_NEXT s (Z.of_nat i) (us_length s) =
    Some (match rest with
          | t :: _ => if U16_IS_LEAD c && U16_IS_TRAIL t
                      then (U16_GET_SUPPLEMENTARY c t, Z.of_nat (i + 2))
                      else (c, Z.of_nat (i + 1))
          | [] => (c, Z.of_nat (i + 1))
          end).
Proof.
  intros Hd. assert (Hlen : (List.length s = i + S (List.length rest))%nat).
  { apply (f_equal List.length) in Hd. rewrite length_drop in Hd. simpl in Hd. lia. }
  assert (Hget : forall n, aget s (Z.of_nat (i + n)) = (c :: rest) !! n).
  { intros n. by rewrite aget_nat, <- lookup_drop, Hd. }
  unfold U16_NEXT, us_length. replace (Z.of_nat i) with (Z.of_nat (i + 0)) by lia.
  rewrite Hget. cbn [lookup list_lookup mbind option_bind].
  replace (Z.of_nat (i + 0) + 1) with (Z.of_nat (i + 1)) by lia. rewrite Hget.
  destruct rest as [|t rest]; cbn [lookup list_lookup].
  - rewrite (proj2 (Z.eqb_eq _ _)) by (simpl in Hlen; lia). by destruct (U16_IS_LEAD c).
  - rewrite (proj2 (Z.eqb_neq _ _)) by (simpl in Hlen; lia). cbn.
    destruct (U16_IS_LEAD c), (U16_IS_TRAIL t); cbn; do 2 f_equal; lia.
Qed.

Lemma lead_not_trail c : U16_IS_LEAD c = true -> U16_IS_TRAIL c = false.
Proof. unfold U16_IS_LEAD, U16_IS_TRAIL. intros ->%Z.eqb_eq. done. Qed.

(** A position between two code points: not inside a surrogate pair. *)
Definition boundary (p q : list Z) : Prop :=
  forall l t, last p = Some l -> head q = Some t -> U16_IS_LEAD l && U16_IS_TRAIL t = false.

Lemma code_points_app : forall p q,
  boundary p q -> code_points (p ++ q) = code_points p ++ code_points q.
Proof.
  intros p. induction p as [p IH] using (induction_ltof1 _ (@List.length Z)); unfold ltof in IH.
  intros q Hb. destruct p as [|c [|t p]]; [done|..].
  - cbn [app]. rewrite code_points_cons. destruct q as [|t q]; [done|].
    by rewrite (Hb c t eq_refl eq_refl).
  - cbn [app]. rewrite !(code_points_cons c). destruct (U16_IS_LEAD c && U16_IS_TRAIL t) eqn:Hct.
    + rewrite (IH p); [done|simpl; lia|]. intros l t' Hl Ht'.
      destruct p as [|x p]; [done|]. apply Hb; [|done]. by rewrite !last_cons_cons.
    + change (t :: p ++ q) with ((t :: p) ++ q). rewrite (IH (t :: p)); [done|simpl; lia|].
      intros l t' Hl Ht'. apply Hb; [|done]. by rewrite last_cons_cons.
Qed.

Lemma code_points_snoc p t :
  boundary p [t] -> code_points (p ++ [t]) = code_points p ++ [t].
Proof. by apply code_points_app. Qed.

Lemma code_points_snoc_pair p l t :
  U16_IS_LEAD l = true -> U16_IS_TRAIL t = true ->
  code_points (p ++ [l; t]) = code_points p ++ [U16_GET_SUPPLEMENTARY l t].
Proof.
  intros Hl Ht. rewrite code_points_app; [simpl; by rewrite Hl, Ht|].
  intros l' t' _ [= <-]. rewrite (lead_not_trail l) by done. apply andb_false_r.
Qed.

(** [U16_PREV] reads the last code point of what is before. *)
Lemma U16_PREV_spec s (i : nat) p c rest :
  s = (p ++ [c]) ++ rest -> i = S (List.length p) ->
  exists x j, U16_PREV s 0 (Z.of_nat i) = Some (x, Z.of_nat j) /\ (j < i)%nat /\
    code_points (take i s) = code_points (take j s) ++ [x].
Proof.
  intros -> ->. unfold U16_PREV.
  replace (Z.of_nat (S (List.length p)) - 1) with (Z.of_nat (List.length p)) by lia.
  assert (Htake : take (S (List.length p)) ((p ++ [c]) ++ rest) = p ++ [c]).
  { rewrite take_app_le by len. rewrite take_ge by len. done. }
  assert (Htake' : take (List.length p) ((p ++ [c]) ++ rest) = p).
  { by rewrite <- app_assoc, take_app_length. }
  rewrite aget_nat, lookup_app_l, list_lookup_middle by (done || len). cbn [mbind option_bind].
  assert (Hsingle : boundary p [c] -> exists x j,
    Some (c, Z.of_nat (List.length p)) = Some (x, Z.of_nat j) /\ (j < S (List.length p))%nat /\
    code_points (take (S (List.length p)) ((p ++ [c]) ++ rest)) =
      code_points (take j ((p ++ [c]) ++ rest)) ++ [x]).
  { intros Hb. exists c, (List.length p). split_and!; [done|lia|].
    rewrite Htake, Htake'. by apply code_points_snoc. }
  destruct (U16_IS_TRAIL c) eqn:Hc.
  2:{ apply Hsingle. intros ? ? _ [= <-]. by rewrite Hc, andb_false_r. }
  destruct p as [|l p _] using rev_ind; [by apply Hsingle|].
  rewrite Z.gtb_ltb, (proj2 (Z.ltb_lt _ _)) by len.
  rewrite length_app in *. simpl in *.
  replace (Z.of_nat (List.length p + 1) - 1) with (Z.of_nat (List.length p)) by lia.
  rewrite aget_nat, !lookup_app_l, list_lookup_middle by (done || len). cbn [mbind option_bind].
  destruct (U16_IS_LEAD l) eqn:Hl.
  - exists (U16_GET_SUPPLEMENTARY l c), (List.length p). split_and!; [done|lia|].
    rewrite Htake, <- !app_assoc, take_app_length. by apply code_points_snoc_pair.
  - apply Hsingle. intros l' t' Hl' _. rewrite last_snoc in Hl'. simplify_eq. by rewrite Hl.
Qed.

(** ** Iterating over a whole string, both ways *)

Fixpoint forward_loop (fuel : nat) (s : UnicodeString) (i : Z) : option (list Z) :=
  if i <? us_length s then
    match fuel with
    | O => None
    | S fuel' => '(c, i') ← U16_NEXT s i (us_length s); l ← forward_loop fuel' s i'; Some (c :: l)
    end
  else Some [].

Fixpoint backward_loop (fuel : nat) (s : UnicodeString) (i : Z) : option (list Z) :=
  if 0 <? i then
    match fuel with
    | O => None
    | S fuel' => '(c, i') ← U16_PREV s 0 i; l ← backward_loop fuel' s i'; Some (c :: l)
    end
  else Some [].

Lemma forward_loop_spec s : forall n (i : nat),
  (List.length s - i <= n)%nat ->
  forward_loop n s (Z.of_nat i) = Some (code_points (drop i s)).
Proof.
  induction n as [|n IH]; intros i Hn; cbn [forward_loop]; unfold us_length;
    (destruct (Z.ltb_spec (Z.of_nat i) (Z.of_nat (List.length s)));
      [|by rewrite drop_ge by lia]); [lia|].
  destruct (lookup_lt_is_Some_2 s i) as [c Hc]; [lia|].
  pose proof (drop_S s c i Hc) as Hd. fold (us_length s).
  rewrite (U16_NEXT_spec s i c (drop (S i) s) Hd). cbn [mbind option_bind].
  rewrite Hd, code_points_cons.
  destruct (drop (S i) s) as [|t rest] eqn:Hd'.
  - rewrite IH by lia. replace (i + 1)%nat with (S i) by lia. by rewrite Hd'.
  - assert (Hd2 : drop (i + 2) s = rest).
    { replace (i + 2)%nat with (S i + 1)%nat by lia. by rewrite <- drop_drop, Hd'. }
    destruct (_ && _); rewrite IH by lia.
    + by rewrite Hd2.
    + replace (i + 1)%nat with (S i) by lia. by rewrite Hd'.
Qed.

Lemma backward_loop_spec s : forall n (i : nat),
  (i <= n)%nat -> (i <= List.length s)%nat ->
  backward_loop n s (Z.of_nat i) = Some (rev (code_points (take i s))).
Proof.
  induction n as [|n IH]; intros i Hn Hi; cbn [backward_loop];
    (destruct (Z.ltb_spec 0 (Z.of_nat i)); [|by replace i with 0%nat by lia]); [lia|].
  destruct i as [|i]; [lia|]. destruct (lookup_lt_is_Some_2 s i) as [c Hc]; [lia|].
  destruct (U16_PREV_spec s (S i) (take i s) c (drop (S i) s)) as (x & j & -> & Hj & Heq).
  - rewrite <- app_assoc. symmetry. by apply take_drop_middle.
  - rewrite length_take. lia.
  - cbn [mbind option_bind]. rewrite IH by lia. cbn [mbind option_bind].
    by rewrite Heq, rev_unit.
Qed.

(** ** Comparison is the lexicographic order *)

Fixpoint lex (s t : list Z) : Z :=
  match s, t with
  | [], [] => 0
  | [], _ => -1
  | _, [] => 1
  | c :: s', d :: t' => if c <? d then -1 else if d <? c then 1 else lex s' t'
  end.

Lemma lex_refl s : lex s s = 0.
Proof. induction s as [|c s IH]; [done|]. simpl. by rewrite Z.ltb_irrefl. Qed.

Lemma lex_antisym s t : lex t s = - lex s t.
Proof.
  revert t. induction s as [|c s IH]; intros [|d t]; try done. simpl.
  destruct (Z.ltb_spec c d), (Z.ltb_spec d c); try lia; auto.
Qed.

Lemma lex_eq s t : lex s t = 0 <-> s = t.
Proof.
  split; [|intros ->; apply lex_refl]. revert t. induction s as [|c s IH]; intros [|d t]; try done.
  simpl. destruct (Z.ltb_spec c d), (Z.ltb_spec d c); try done.
  intros ->%IH. f_equal. lia.
Qed.

Lemma lex_total s t : lex s t <= 0 \/ lex t s <= 0.
Proof. rewrite (lex_antisym s t). lia. Qed.

#[export] Instance lex_trans : Transitive (fun s t => lex s t <= 0).
Proof.
  intros s. induction s as [|c s IH]; intros [|d t] [|e u]; simpl; try lia.
  zcases; try lia. by apply IH.
Qed.

Lemma sign_of_difference c d :
  is_uint16 c -> is_uint16 d -> c <> d ->
  int8 (Z.lor (Z.shiftr (c - d) 15) 1) = if c <? d then -1 else 1.
Proof.
  intros Hc Hd Hne. rewrite Z.shiftr_div_pow2 by lia. change (2 ^ 15) with 32768.
  assert (H : (c - d) / 32768 = -2 \/ (c - d) / 32768 = -1 \/
              (c - d) / 32768 = 0 \/ (c - d) / 32768 = 1) by dlia.
  destruct (Z.ltb_spec c d).
  - assert ((c - d) / 32768 < 0) by dlia. by destruct H as [->|[->|[Hz|Hz]]]; try lia.
  - assert (0 <= (c - d) / 32768) by dlia. destruct H as [Hz|[Hz|[->| ->]]]; done || lia.
Qed.

Lemma doCompare_loop_spec s t :
  is_string s -> is_string t ->
  doCompare_loop s t (List.length s `min` List.length t)
    (if us_length s <? us_length t then -1 else if us_length t <? us_length s then 1 else 0) = lex s t.
Proof.
  intros Hs. revert t. induction Hs as [|c s Hc Hs IH]; intros t Ht.
  { by destruct t. }
  destruct Ht as [|d t Hd Ht]; [done|].
  replace (us_length (c :: s) <? us_length (d :: t)) with (us_length s <? us_length t)
    by (unfold us_length; simpl; zcases; done).
  replace (us_length (d :: t) <? us_length (c :: s)) with (us_length t <? us_length s)
    by (unfold us_length; simpl; zcases; done).
  simpl. destruct (Z.eqb_spec (c - d) 0) as [Heq|Hne]; cbn [negb].
  - rewrite IH by done. zcases; done.
  - rewrite sign_of_difference by (done || lia). zcases; done.
Qed.

Lemma compare_lex s t : is_string s -> is_string t -> compare s t = lex s t.
Proof.
  intros Hs Ht. rewrite <- doCompare_loop_spec by done. unfold compare, us_length.
  destruct (Z.eqb_spec (Z.of_nat (List.length s)) (Z.of_nat (List.length t))) as [He|He]; cbn [negb].
  - rewrite He, Z.ltb_irrefl. f_equal. lia.
  - destruct (Z.ltb_spec (Z.of_nat (List.length s)) (Z.of_nat (List.length t))).
    + f_equal. lia.
    + rewrite (proj2 (Z.ltb_lt _ _)) by lia. f_equal. lia.
Qed.

(** ** Reading the code point at a boundary *)

Lemma char32At_spec s (i : nat) c rest :
  is_string s -> Z.of_nat (List.length s) <= INT32_MAX ->
  drop i s = c :: rest -> boundary (take i s) (drop i s) ->
  char32At s (Z.of_nat i) =
    Some (match rest with
          | t :: _ => if U16_IS_LEAD c && U16_IS_TRAIL t then U16_GET_SUPPLEMENTARY c t else c
          | [] => c
          end).
Proof.
  intros Hs Hmax Hd Hb. assert (Hlen : (List.length s = i + S (List.length rest))%nat).
  { apply (f_equal List.length) in Hd. rewrite length_drop in Hd. simpl in Hd. lia. }
  assert (Hget : forall n, aget s (Z.of_nat (i + n)) = (c :: rest) !! n).
  { intros n. by rewrite aget_nat, <- lookup_drop, Hd. }
  assert (Hc : 0 <= c < 0x10000).
  { apply (Forall_lookup_1 is_uint16 s i); [done|]. rewrite <- (Nat.add_0_r i), <- lookup_drop, Hd. done. }
  unfold char32At, us_length, INT32_MAX, uint32 in *. rewrite !Z.mod_small by lia.
  rewrite (proj2 (Z.ltb_lt _ _)) by lia.
  unfold U16_GET. replace (Z.of_nat i) with (Z.of_nat (i + 0)) by lia. rewrite Hget.
  cbn [lookup list_lookup mbind option_bind].
  rewrite U_IS_SURROGATE_spec, U16_IS_LEAD_spec by lia.
  destruct (Z.leb_spec 0xd800 c), (Z.ltb_spec c 0xe000); cbn [andb];
    [|by destruct rest; zcases..].
  rewrite U16_IS_SURROGATE_LEAD_spec by lia. destruct (Z.ltb_spec c 0xdc00).
  - replace (Z.of_nat (i + 0) + 1) with (Z.of_nat (i + 1)) by lia. rewrite Hget.
    destruct rest as [|t rest]; cbn [lookup list_lookup]; simpl in Hlen.
    + by rewrite (proj2 (Z.eqb_eq _ _)) by lia.
    + rewrite (proj2 (Z.eqb_neq _ _)) by lia. cbn. by destruct (U16_IS_TRAIL t).
  - destruct i as [|i]; [by destruct rest|].
    rewrite Z.gtb_ltb, (proj2 (Z.ltb_lt _ _)) by lia.
    replace (Z.of_nat (S i + 0) - 1) with (Z.of_nat i) by lia. rewrite aget_nat.
    destruct (lookup_lt_is_Some_2 s i) as [p Hp]; [lia|]. rewrite Hp. cbn [mbind option_bind].
    replace (match rest with [] => c | t :: _ => if false && U16_IS_TRAIL t
      then U16_GET_SUPPLEMENTARY c t else c end) with c by (by destruct rest).
    specialize (Hb p c). rewrite (take_S_r _ _ _ Hp), last_snoc, Hd in Hb.
    specialize (Hb eq_refl eq_refl). rewrite (U16_IS_TRAIL_spec c) in Hb by lia.
    rewrite (proj2 (Z.leb_le _ _)), (proj2 (Z.ltb_lt _ _)), !andb_true_r in Hb by lia.
    by rewrite Hb.
Qed.

(** ** Well-formed text: the UTF-16 form of scalar values *)

Definition is_scalar (c : Z) : Prop := is_code_point c /\ ~ (0xd800 <= c < 0xe000).

#[export] Instance is_scalar_dec c : Decision (is_scalar c).
Proof. unfold is_scalar, is_code_point. apply _. Defined.

Definition units (c : Z) : list Z := U16_APPEND_UNSAFE [] c.
Definition utf16 (s : list Z) : list Z := concat (map units s).

Lemma units_spec c : is_scalar c ->
  (c < 0x10000 /\ units c = [c] /\ U16_IS_LEAD c = false /\ U16_IS_TRAIL c = false) \/
  (0x10000 <= c /\ units c = [U16_LEAD c; U16_TRAIL c]).
Proof.
  intros [Hc Hs]. unfold is_code_point in Hc. unfold units, U16_APPEND_UNSAFE, uint32.
  rewrite Z.mod_small by lia. destruct (Z.leb_spec c 0xffff); [left|right; split; [lia|done]].
  rewrite uint16_id, U16_IS_LEAD_spec, U16_IS_TRAIL_spec by (unfold is_uint16; lia).
  split_and!; [lia|done|zcases; cbn; lia..].
Qed.

Lemma units_length c : is_scalar c -> Z.of_nat (List.length (units c)) = U16_LENGTH c.
Proof.
  intros Hc. rewrite U16_LENGTH_spec by (destruct Hc; unfold is_code_point in *; lia).
  destruct (units_spec c Hc) as [(? & -> & _)|(? & ->)]; zcases; simpl; lia.
Qed.

Lemma utf16_cons c s : utf16 (c :: s) = units c ++ utf16 s.
Proof. done. Qed.

Lemma utf16_app s t : utf16 (s ++ t) = utf16 s ++ utf16 t.
Proof. unfold utf16. by rewrite map_app, concat_app. Qed.

Lemma utf16_bmp s : Forall (fun c => 0 <= c < 0x10000) s -> utf16 s = s.
Proof.
  induction 1 as [|c s Hc Hs IH]; [done|]. rewrite utf16_cons, IH.
  unfold units, U16_APPEND_UNSAFE, uint32. rewrite Z.mod_small by lia.
  rewrite (proj2 (Z.leb_le _ _)), uint16_id by (unfold is_uint16; lia). done.
Qed.

Lemma code_points_units c s : is_scalar c -> code_points (units c ++ s) = c :: code_points s.
Proof.
  intros Hc. destruct (units_spec c Hc) as [(Hb & -> & Hl & _)|(Hb & ->)]; cbn [app].
  - rewrite code_points_cons, Hl. by destruct s.
  - destruct Hc as [Hc _]. unfold is_code_point in Hc.
    destruct (U16_pair_supplementary c) as (Hl & Ht & Hg); [lia|].
    by rewrite code_points_cons, Hl, Ht, Hg.
Qed.

Lemma code_points_utf16 s : Forall is_scalar s -> code_points (utf16 s) = s.
Proof. induction 1 as [|c s Hc Hs IH]; [done|]. by rewrite utf16_cons, code_points_units, IH. Qed.

Lemma utf16_length s : Forall is_scalar s ->
  (List.length s <= List.length (utf16 s) <= 2 * List.length s)%nat.
Proof.
  induction 1 as [|c s Hc Hs IH]; [simpl; lia|]. rewrite utf16_cons, length_app.
  destruct (units_spec c Hc) as [(_ & -> & _)|(_ & ->)]; simpl in *; lia.
Qed.

(** [U16_FWD_N] steps over that many scalar values. *)
Lemma U16_FWD_1_spec p c r length :
  is_scalar c -> Z.of_nat (List.length (p ++ units c)) <= length ->
  U16_FWD_1 (p ++ units c ++ r) (Z.of_nat (List.length p)) length =
    Some (Z.of_nat (List.length (p ++ units c))).
Proof.
  intros Hc Hlen. unfold U16_FWD_1. rewrite aget_nat, lookup_app_r, Nat.sub_diag by lia.
  destruct (units_spec c Hc) as [(Hb & Hu & Hl & _)|(Hb & Hu)]; rewrite Hu in *; cbn.
  - rewrite Hl, length_app. f_equal. simpl. lia.
  - destruct Hc as [Hc _]. unfold is_code_point in Hc.
    destruct (U16_pair_supplementary c) as (Hl & Ht & _); [lia|]. rewrite Hl.
    rewrite length_app in *. simpl in *. rewrite (proj2 (Z.eqb_neq _ _)) by lia. cbn.
    replace (Z.of_nat (List.length p) + 1) with (Z.of_nat (List.length p + 1)) by lia.
    rewrite aget_nat, lookup_app_r by lia.
    replace (List.length p + 1 - List.length p)%nat with 1%nat by lia. cbn. rewrite Ht. f_equal. lia.
Qed.

Lemma U16_FWD_N_spec L s : forall p q,
  Forall is_scalar s -> Z.of_nat (List.length (p ++ utf16 s)) <= L ->
  U16_FWD_N (p ++ utf16 s ++ q) (Z.of_nat (List.length p)) L (Z.of_nat (List.length s)) =
    Some (Z.of_nat (List.length (p ++ utf16 s))).
Proof.
  unfold U16_FWD_N. rewrite Nat2Z.id.
  induction s as [|c s IH]; intros p q Hs HL; cbn [U16_FWD_N_loop List.length].
  { by rewrite app_nil_r. }
  apply Forall_cons in Hs as [Hc Hs]. rewrite utf16_cons in *.
  assert (0 < List.length (units c))%nat
    by (destruct (units_spec c Hc) as [(_ & -> & _)|(_ & ->)]; simpl; lia).
  rewrite !length_app in HL. rewrite (proj2 (Z.ltb_lt _ _)) by lia. cbn [mbind option_bind].
  rewrite <- (app_assoc (units c)), U16_FWD_1_spec by (done || rewrite length_app; lia).
  cbn [mbind option_bind]. rewrite (app_assoc p (units c)), IH, <- app_assoc; [done..|].
  rewrite !length_app. lia.
Qed.

(** ** The results *)

(** Going over a string with [U16_NEXT] gives its code points, and going
    backwards with [U16_PREV] gives the same ones in reverse, for unpaired
    surrogates too. *)
Theorem utf16_iteration (s : UnicodeString) :
  forward_loop (List.length s) s 0 = Some (code_points s) /\
  backward_loop (List.length s) s (us_length s) = Some (rev (code_points s)).
Proof.
  split.
  - change 0 with (Z.of_nat 0). by rewrite forward_loop_spec by lia.
  - unfold us_length. rewrite backward_loop_spec by lia. by rewrite firstn_all.
Qed.

(** An appended code point is read back as it was, when it does not join a
    lead surrogate at the end of the string. *)
Theorem utf16_append (s : UnicodeString) c :
  is_code_point c -> boundary s (U16_APPEND_UNSAFE [] c) ->
  code_points (U16_APPEND_UNSAFE s c) = code_points s ++ [c].
Proof.
  intros Hc Hb. unfold is_code_point, U16_APPEND_UNSAFE in *. unfold uint32 in *.
  rewrite Z.mod_small in * by lia. destruct (Z.leb_spec c 0xffff).
  - rewrite uint16_id in * by (unfold is_uint16; lia). by apply code_points_snoc.
  - cbn [app] in Hb. rewrite code_points_app by done. f_equal.
    destruct (U16_pair_supplementary c) as (Hl & Ht & Hg); [lia|].
    rewrite code_points_cons, Hl, Ht, Hg. done.
Qed.

Lemma utf16_append_witness : code_points (U16_APPEND_UNSAFE [0x61; 0xd800] 0x1f600) = [0x61; 0xd800; 0x1f600].
Proof.
  apply (utf16_append [0x61; 0xd800] 0x1f600).
  - unfold is_code_point. lia.
  - intros l t Hl Ht. vm_compute in Hl, Ht. injection Hl as <-. injection Ht as <-. reflexivity.
Defined.
