(* ===== verification/BMPSet.v ===== *)
(** * BMPSet: the lookup tables of a frozen UnicodeSet
    (src/common/bmpset.cpp, src/common/bmpset.h)

    A [BMPSet] caches an inversion list in bit tables: one byte per code point
    below U+0080, one bit below U+0800, two bits per block of 64 code points
    below U+10000 (all the same, or look it up), and the indexes in the list of
    the 4k blocks for the slow search.  The word tables hold 32-bit words. *)
From S2P Require Import Prelude Utf16 InversionList.

Local Open Scope Z_scope.

Module BMPSet.

Record BMPSet := mk {
  asciiBytes : list Z;
  table7FF : list Z;
  bmpBlockBits : list Z;
  list4kStarts : list Z;
  list_ : list Z;
  listLength : Z
}.

(** ** Search in a part of the list *)

Definition findCodePoint (list : list Z) (c lo hi : Z) : option Z :=
  l0 ← aget list lo;
  if c <? l0 then Some lo
  else if lo >=? hi then Some hi
  else
    lh ← aget list (hi - 1);
    if c >=? lh then Some hi
    else findCodePoint_loop (Z.to_nat (hi - lo + 1)) list c lo hi.

Definition containsSlow (list : list Z) (c lo hi : Z) : option bool :=
  i ← findCodePoint list c lo hi; Some (negb (Z.land i 1 =? 0)).

(** ** Bit rectangles *)

(** [table[i]|=bits] *)
Definition or_at (table : list Z) (i bits : Z) : option (list Z) :=
  w ← aget table i; aset table i (Z.lor w bits).

(** [while(trail<limitTrail) table[trail++]|=bits;] *)
Fixpoint or_loop (fuel : nat) (table : list Z) (trail limitTrail bits : Z) : option (list Z) :=
  if trail <? limitTrail then
    match fuel with
    | O => None
    | S fuel' => table ← or_at table trail bits; or_loop fuel' table (trail + 1) limitTrail bits
    end
  else Some table.

Definition set32x64Bits (table : list Z) (start limit : Z) : option (list Z) :=
  let lead := Z.shiftr start 6 in
  let trail := Z.land start 0x3f in
  let bits := uint32 (Z.shiftl 1 lead) in
  if start + 1 =? limit then or_at table trail bits
  else
    let limitLead := Z.shiftr limit 6 in
    let limitTrail := Z.land limit 0x3f in
    if lead =? limitLead then or_loop 64 table trail limitTrail bits
    else
      '(table, lead) ←
        (if 0 <? trail then
           table ← or_at table trail bits;
           table ← or_loop 64 table (trail + 1) 64 bits;
           Some (table, lead + 1)
         else Some (table, lead));
      table ←
        (if lead <? limitLead then
           let bits := uint32 (Z.lnot (Z.shiftl 1 lead - 1)) in
           let bits := if limitLead <? 0x20 then Z.land bits (Z.shiftl 1 limitLead - 1) else bits in
           or_loop 64 table 0 64 bits
         else Some table);
      let bits := uint32 (Z.shiftl 1 (if limitLead =? 0x20 then limitLead - 1 else limitLead)) in
      or_loop 64 table 0 limitTrail bits.

(** ** Construction of the tables *)

(** [start=list[listIndex++]; if(listIndex<listLength) limit=list[listIndex++];
    else limit=0x110000;] *)
Definition next_range (list : list Z) (listLength listIndex : Z) : option (Z * Z * Z) :=
  start ← aget list listIndex;
  let listIndex := listIndex + 1 in
  if listIndex <? listLength then
    limit ← aget list listIndex; Some (start, limit, listIndex + 1)
  else Some (start, 0x110000, listIndex).

(** [do { asciiBytes[start++]=1; } while(start<limit && start<0x80);] *)
Fixpoint ascii_fill (fuel : nat) (bytes : list Z) (start limit : Z) : option (list Z * Z) :=
  match fuel with
  | O => None
  | S fuel' =>
      bytes ← aset bytes start 1;
      let start := start + 1 in
      if (start <? limit) && (start <? 0x80) then ascii_fill fuel' bytes start limit
      else Some (bytes, start)
  end.

(** The first loop: the bytes, and the range at hand. *)
Fixpoint initBits_ascii (fuel : nat) (list : list Z) (listLength : Z) (bytes : Datatypes.list Z)
    (listIndex : Z) : option (Datatypes.list Z * Z * Z * Z) :=
  match fuel with
  | O => None
  | S fuel' =>
      '(start, limit, listIndex) ← next_range list listLength listIndex;
      if start >=? 0x80 then Some (bytes, start, limit, listIndex)
      else
        '(bytes, start) ← ascii_fill 0x80 bytes start limit;
        if limit <=? 0x80 then initBits_ascii fuel' list listLength bytes listIndex
        else Some (bytes, start, limit, listIndex)
  end.

(** The second loop. *)
Fixpoint initBits_7FF (fuel : nat) (list : list Z) (listLength : Z) (table : Datatypes.list Z)
    (start limit listIndex : Z) : option (Datatypes.list Z * Z * Z * Z) :=
  if start <? 0x800 then
    match fuel with
    | O => None
    | S fuel' =>
        table ← set32x64Bits table start (if limit <=? 0x800 then limit else 0x800);
        if limit >? 0x800 then Some (table, 0x800, limit, listIndex)
        else
          '(start, limit, listIndex) ← next_range list listLength listIndex;
          initBits_7FF fuel' list listLength table start limit listIndex
    end
  else Some (table, start, limit, listIndex).

(** A mixed-value block of 64 code points. *)
Definition set_mixed (blocks : list Z) (block : Z) : option (list Z) :=
  or_at blocks (Z.land block 0x3f) (uint32 (Z.shiftl 0x10001 (Z.shiftr block 6))).

(** The body of the third loop for one range: the blocks, [minStart] and
    [limit]. *)
Definition initBits_range (blocks : list Z) (start limit minStart : Z) : option (list Z * Z * Z) :=
  let limit := if limit >? 0x10000 then 0x10000 else limit in
  let start := if start <? minStart then minStart else start in
  if start <? limit then
    '(blocks, start, minStart) ←
      (if negb (Z.land start 0x3f =? 0) then
         let start := Z.shiftr start 6 in
         blocks ← set_mixed blocks start;
         let start := Z.shiftl (start + 1) 6 in
         Some (blocks, start, start)
       else Some (blocks, start, minStart));
    if start <? limit then
      blocks ←
        (if start <? Z.land limit (Z.lnot 0x3f)
         then set32x64Bits blocks (Z.shiftr start 6) (Z.shiftr limit 6) else Some blocks);
      if negb (Z.land limit 0x3f =? 0) then
        let limit := Z.shiftr limit 6 in
        blocks ← set_mixed blocks limit;
        let limit := Z.shiftl (limit + 1) 6 in
        Some (blocks, limit, limit)
      else Some (blocks, minStart, limit)
    else Some (blocks, minStart, limit)
  else Some (blocks, minStart, limit).

(** The third loop. *)
Fixpoint initBits_blocks (fuel : nat) (list : list Z) (listLength : Z) (blocks : Datatypes.list Z)
    (start limit listIndex minStart : Z) : option (Datatypes.list Z) :=
  if start <? 0x10000 then
    match fuel with
    | O => None
    | S fuel' =>
        '(blocks, minStart, limit) ← initBits_range blocks start limit minStart;
        if limit =? 0x10000 then Some blocks
        else
          '(start, limit, listIndex) ← next_range list listLength listIndex;
          initBits_blocks fuel' list listLength blocks start limit listIndex minStart
    end
  else Some blocks.

Definition initBits (b : BMPSet) : option BMPSet :=
  let fuel := Z.to_nat b.(listLength) in
  '(bytes, start, limit, listIndex) ←
    initBits_ascii fuel b.(list_) b.(listLength) b.(asciiBytes) 0;
  '(table, start, limit, listIndex) ←
    initBits_7FF fuel b.(list_) b.(listLength) b.(table7FF) start limit listIndex;
  blocks ← initBits_blocks fuel b.(list_) b.(listLength) b.(bmpBlockBits) start limit listIndex 0x800;
  Some (mk bytes table blocks b.(list4kStarts) b.(list_) b.(listLength)).

(** ** Overrides for ill-formed UTF-8 *)

(** [for(i=first; i<limit; ++i) table[i]=f(table[i]);] *)
Fixpoint map_range (fuel : nat) (f : Z -> Z) (table : list Z) (i limit : Z) : option (list Z) :=
  if i <? limit then
    match fuel with
    | O => None
    | S fuel' => w ← aget table i; table ← aset table i (f w); map_range fuel' f table (i + 1) limit
    end
  else Some table.

Definition overrideIllegal (b : BMPSet) : option BMPSet :=
  s0 ← aget b.(list4kStarts) 0xf;
  s1 ← aget b.(list4kStarts) 0x10;
  fffd ← containsSlow b.(list_) 0xfffd s0 s1;
  let mask := uint32 (Z.lnot (Z.shiftl 0x10001 0xd)) in
  if (fffd : bool) then
    bytes ← map_range 64 (fun _ => 1) b.(asciiBytes) 0x80 0xc0;
    table ← map_range 64 (fun w => Z.lor w 3) b.(table7FF) 0 64;
    blocks ← map_range 64 (fun w => Z.lor w 1) b.(bmpBlockBits) 0 32;
    blocks ← map_range 64 (fun w => Z.lor (Z.land w mask) (Z.shiftl 1 0xd)) blocks 32 64;
    Some (mk bytes table blocks b.(list4kStarts) b.(list_) b.(listLength))
  else
    blocks ← map_range 64 (fun w => Z.land w mask) b.(bmpBlockBits) 32 64;
    Some (mk b.(asciiBytes) b.(table7FF) blocks b.(list4kStarts) b.(list_) b.(listLength)).

(** ** Constructors *)

(** [for(i=1; i<=0x10; ++i) list4kStarts[i]=findCodePoint(i<<12, list4kStarts[i-1], listLength-1);] *)
Fixpoint init4k_loop (fuel : nat) (list : list Z) (listLength : Z) (starts : Datatypes.list Z) (i : Z)
  : option (Datatypes.list Z) :=
  if i <=? 0x10 then
    match fuel with
    | O => None
    | S fuel' =>
        prev ← aget starts (i - 1);
        x ← findCodePoint list (Z.shiftl i 12) prev (listLength - 1);
        starts ← aset starts i x;
        init4k_loop fuel' list listLength starts (i + 1)
    end
  else Some starts.

Definition new (parentList : list Z) (parentListLength : Z) : option BMPSet :=
  x0 ← findCodePoint parentList 0x800 0 (parentListLength - 1);
  starts ← aset (replicate 18 0) 0 x0;
  starts ← init4k_loop 16 parentList parentListLength starts 1;
  starts ← aset starts 0x11 (parentListLength - 1);
  b ← initBits (mk (replicate 0xc0 0) (replicate 64 0) (replicate 64 0) starts
        parentList parentListLength);
  overrideIllegal b.

(** The copy constructor: the tables of another set with the same elements. *)
Definition copy (otherBMPSet : BMPSet) (newParentList : list Z) (newParentListLength : Z) : BMPSet :=
  mk otherBMPSet.(asciiBytes) otherBMPSet.(table7FF) otherBMPSet.(bmpBlockBits)
    otherBMPSet.(list4kStarts) newParentList newParentListLength.

(** ** Lookup *)

(** The bits of the 4k block: [(bmpBlockBits[(c>>6)&0x3f]>>lead)&0x10001]. *)
Definition contains_bmp (b : BMPSet) (c : Z) : option bool :=
  let lead := Z.shiftr c 12 in
  w ← aget b.(bmpBlockBits) (Z.land (Z.shiftr c 6) 0x3f);
  let twoBits := Z.land (Z.shiftr w lead) 0x10001 in
  if twoBits <=? 1 then Some (negb (twoBits =? 0))
  else
    lo ← aget b.(list4kStarts) lead;
    hi ← aget b.(list4kStarts) (lead + 1);
    containsSlow b.(list_) c lo hi.

Definition contains_7FF (b : BMPSet) (c : Z) : option bool :=
  w ← aget b.(table7FF) (Z.land c 0x3f);
  Some (negb (Z.land w (uint32 (Z.shiftl 1 (Z.shiftr c 6))) =? 0)).

Definition contains_ascii (b : BMPSet) (c : Z) : option bool :=
  x ← aget b.(asciiBytes) c; Some (negb (x =? 0)).

Definition containsSlow4k (b : BMPSet) (c lo hi : Z) : option bool :=
  lo ← aget b.(list4kStarts) lo;
  hi ← aget b.(list4kStarts) hi;
  containsSlow b.(list_) c lo hi.

Definition contains (b : BMPSet) (c : Z) : option bool :=
  if uint32 c <=? 0x7f then contains_ascii b c
  else if uint32 c <=? 0x7ff then contains_7FF b c
  else if (uint32 c <? 0xd800) || (c >=? 0xe000) && (c <=? 0xffff) then contains_bmp b c
  else if uint32 c <=? 0x10ffff then containsSlow4k b c 0xd 0x11
  else Some false.

(** ** Spans of UTF-16 text *)

(** The test of one round of [span]: whether the code point at [s] is in the
    set, and how many units it has. *)
Definition span_test (b : BMPSet) (text : list Z) (s limit : Z) : option (bool * Z) :=
  c ← aget text s;
  if c <=? 0x7f then r ← contains_ascii b c; Some (r, 1)
  else if c <=? 0x7ff then r ← contains_7FF b c; Some (r, 1)
  else if (c <? 0xd800) || (c >=? 0xe000) then r ← contains_bmp b c; Some (r, 1)
  else
    let single := r ← containsSlow4k b c 0xd 0xe; Some (r, 1) in
    if (c >=? 0xdc00) || (s + 1 =? limit) then single
    else
      c2 ← aget text (s + 1);
      if (c2 <? 0xdc00) || (c2 >=? 0xe000) then single
      else r ← containsSlow4k b (U16_GET_SUPPLEMENTARY c c2) 0x10 0x11; Some (r, 2).

(** The result is the index at which the span ends. *)
Fixpoint span_loop (fuel : nat) (b : BMPSet) (text : list Z) (s limit : Z) (spanCondition : bool)
  : option Z :=
  match fuel with
  | O => None
  | S fuel' =>
      '(r, n) ← span_test b text s limit;
      if negb (Bool.eqb r spanCondition) then Some s
      else
        let s := s + n in
        if s <? limit then span_loop fuel' b text s limit spanCondition else Some s
  end.

Definition span (b : BMPSet) (text : list Z) (s limit : Z) (spanCondition : bool) : option Z :=
  span_loop (Z.to_nat (limit - s)) b text s limit spanCondition.

(** The test of one round of [spanBack], for the code point before [limit]. *)
Definition spanBack_test (b : BMPSet) (text : list Z) (s limit : Z) : option (bool * Z) :=
  c ← aget text (limit - 1);
  if c <=? 0x7f then r ← contains_ascii b c; Some (r, 1)
  else if c <=? 0x7ff then r ← contains_7FF b c; Some (r, 1)
  else if (c <? 0xd800) || (c >=? 0xe000) then r ← contains_bmp b c; Some (r, 1)
  else
    let single := r ← containsSlow4k b c 0xd 0xe; Some (r, 1) in
    if (c <? 0xdc00) || (s =? limit - 1) then single
    else
      c2 ← aget text (limit - 2);
      if (c2 <? 0xd800) || (c2 >=? 0xdc00) then single
      else r ← containsSlow4k b (U16_GET_SUPPLEMENTARY c2 c) 0x10 0x11; Some (r, 2).

Fixpoint spanBack_loop (fuel : nat) (b : BMPSet) (text : list Z) (s limit : Z) (spanCondition : bool)
  : option Z :=
  match fuel with
  | O => None
  | S fuel' =>
      '(r, n) ← spanBack_test b text s limit;
      if negb (Bool.eqb r spanCondition) then Some limit
      else
        let limit := limit - n in
        if s =? limit then Some s else spanBack_loop fuel' b text s limit spanCondition
  end.

Definition spanBack (b : BMPSet) (text : list Z) (s limit : Z) (spanCondition : bool) : option Z :=
  spanBack_loop (Z.to_nat (limit - s)) b text s limit spanCondition.

(** ** The word tables as sets of bits

    [tb table y t]: bit [y] of word [t]; it stands for the code point (or block)
    [64 * y + t]. *)

Definition tb (table : list Z) (y t : Z) : bool :=
  match aget table t with Some w => Z.testbit w y | None => false end.

Lemma aget_aset (l l' : list Z) i j x :
  aset l i x = Some l' -> aget l' j = if j =? i then Some x else aget l j.
Proof.
  unfold aset. destruct (_ && _) eqn:Hb; [|done]. intros [= <-].
  apply andb_prop in Hb as [H1%Z.leb_le H2%Z.ltb_lt]. unfold aget.
  destruct (Z.leb_spec 0 j); [|by rewrite (proj2 (Z.eqb_neq _ _)) by lia].
  destruct (Z.eqb_spec j i) as [->|Hne].
  - apply list_lookup_insert_eq. lia.
  - apply list_lookup_insert_ne. lia.
Qed.

Lemma aset_length (l l' : list Z) i x : aset l i x = Some l' -> length l' = length l.
Proof. unfold aset. destruct (_ && _); [|done]. intros [= <-]. apply length_insert. Qed.

Lemma aset_is_Some (l : list Z) i x :
  0 <= i < Z.of_nat (List.length l) -> exists l', aset l i x = Some l'.
Proof.
  intros. unfold aset. rewrite (proj2 (Z.leb_le _ _)), (proj2 (Z.ltb_lt _ _)) by lia. by eexists.
Qed.

(** A table operation that sets the bits that [f] tells. *)
Definition sets (res : option (list Z)) (table : list Z) (f : Z -> Z -> bool) : Prop :=
  exists table', res = Some table' /\ List.length table' = List.length table /\
    forall y t, 0 <= y < 32 -> 0 <= t < 64 -> tb table' y t = tb table y t || f y t.

Lemma or_at_sets table i bits :
  List.length table = 64%nat -> 0 <= i < 64 ->
  sets (or_at table i bits) table (fun y t => (t =? i) && Z.testbit bits y).
Proof.
  intros Hlen Hi. unfold or_at. destruct (aget_is_Some table i) as [w Hw]; [lia|].
  rewrite Hw. cbn [mbind option_bind].
  destruct (aset_is_Some table i (Z.lor w bits)) as [table' Ht]; [lia|].
  exists table'. split; [done|]. split.
  { unfold aset in Ht. destruct (_ && _); [|done]. injection Ht as <-. apply length_insert. }
  intros y t Hy Ht'. unfold tb. rewrite (aget_aset _ _ _ t _ Ht).
  destruct (Z.eqb_spec t i) as [->|].
  - by rewrite Hw, Z.lor_spec.
  - by rewrite orb_false_r.
Qed.

Lemma sets_bind res table f (k : list Z -> option (list Z)) g h :
  sets res table f ->
  (forall table', List.length table' = List.length table -> sets (k table') table' g) ->
  (forall y t, 0 <= y < 32 -> 0 <= t < 64 -> f y t || g y t = h y t) ->
  sets (table' ← res; k table') table h.
Proof.
  intros (t1 & -> & Hl1 & H1) Hk Hh. destruct (Hk t1 Hl1) as (t2 & Ht2 & Hl2 & H2).
  exists t2. split; [done|]. split; [congruence|]. intros y t Hy Ht.
  by rewrite H2, H1, <- orb_assoc, Hh.
Qed.

Lemma sets_none table f :
  (forall y t, 0 <= y < 32 -> 0 <= t < 64 -> f y t = false) -> sets (Some table) table f.
Proof. intros Hf. exists table. split; [done|]. split; [done|]. intros. by rewrite Hf, orb_false_r. Qed.

Lemma sets_ext res table f g :
  sets res table f -> (forall y t, 0 <= y < 32 -> 0 <= t < 64 -> f y t = g y t) -> sets res table g.
Proof. intros (t' & -> & Hl & H) Hfg. exists t'. split_and!; [done|done|]. intros. by rewrite H, Hfg. Qed.

Lemma or_loop_sets bits limitTrail : limitTrail <= 64 -> forall n table trail,
  List.length table = 64%nat -> 0 <= trail -> limitTrail - trail <= Z.of_nat n ->
  sets (or_loop n table trail limitTrail bits) table
    (fun y t => (trail <=? t) && (t <? limitTrail) && Z.testbit bits y).
Proof.
  intros Hlim. induction n as [|n IH]; intros table trail Hlen Ht Hn; cbn [or_loop];
    destruct (Z.ltb_spec trail limitTrail); [lia| | |];
    try (apply sets_none; intros; zcases; done).
  eapply sets_bind; [apply or_at_sets; [done|lia]|intros; apply IH; [congruence|lia|lia]|].
  intros y t Hy Ht'. cbn. destruct (Z.testbit bits y); rewrite ?andb_false_r, ?andb_true_r; [|done].
  zcases; done.
Qed.

Lemma bit_single lead y : 0 <= lead < 32 -> 0 <= y < 32 ->
  Z.testbit (uint32 (Z.shiftl 1 lead)) y = (lead =? y).
Proof.
  intros. unfold uint32. rewrite Z.shiftl_1_l, Z.mod_small.
  - apply Z.pow2_bits_eqb. lia.
  - change 4294967296 with (2 ^ 32). split; [lia|]. apply Z.pow_lt_mono_r; lia.
Qed.

Lemma z_ones_pred n : Z.ones n = 2 ^ n - 1.
Proof. rewrite Z.ones_equiv. lia. Qed.

Lemma bit_above lead y : 0 <= lead < 32 -> 0 <= y < 32 ->
  Z.testbit (uint32 (Z.lnot (Z.shiftl 1 lead - 1))) y = (lead <=? y).
Proof.
  intros. unfold uint32. change 4294967296 with (2 ^ 32). rewrite Z.mod_pow2_bits_low by lia.
  rewrite Z.shiftl_1_l, <- z_ones_pred, Z.lnot_spec, Z.testbit_ones_nonneg by lia.
  zcases; done.
Qed.

Lemma bit_below limitLead y : 0 <= limitLead -> 0 <= y ->
  Z.testbit (Z.shiftl 1 limitLead - 1) y = (y <? limitLead).
Proof. intros. rewrite Z.shiftl_1_l, <- z_ones_pred, Z.testbit_ones_nonneg by lia. done. Qed.

(** The bit rectangle covers exactly the given range. *)
Definition in_range (start limit y t : Z) : bool := (start <=? 64 * y + t) && (64 * y + t <? limit).

Ltac bit_cases :=
  repeat match goal with
    | |- context [ ?a <? ?b ] => destruct (Z.ltb_spec a b)
    | |- context [ ?a <=? ?b ] => destruct (Z.leb_spec a b)
    | |- context [ ?a =? ?b ] => destruct (Z.eqb_spec a b)
    end; try lia; try reflexivity.

Lemma bit_split x : 0 <= x -> x = 64 * Z.shiftr x 6 + Z.land x 0x3f /\ 0 <= Z.land x 0x3f < 64 /\
  0 <= Z.shiftr x 6.
Proof.
  intros. change 0x3f with (2 ^ 6 - 1). rewrite land_low_mask, Z.shiftr_div_pow2 by lia.
  change (2 ^ 6) with 64. dlia.
Qed.

Lemma set32x64Bits_sets table start limit :
  List.length table = 64%nat -> 0 <= start < limit -> limit <= 0x800 ->
  sets (set32x64Bits table start limit) table (in_range start limit).
Proof.
  intros Hlen Hs Hl. unfold set32x64Bits.
  destruct (bit_split start) as (Es & Ht & Hy); [lia|].
  destruct (bit_split limit) as (El & Htl & Hyl); [lia|].
  set (lead := Z.shiftr start 6) in *. set (trail := Z.land start 0x3f) in *.
  set (limitLead := Z.shiftr limit 6) in *. set (limitTrail := Z.land limit 0x3f) in *.
  clearbody lead trail limitLead limitTrail.
  destruct (Z.eqb_spec (start + 1) limit) as [H1|H1].
  { eapply sets_ext; [apply or_at_sets; [done|lia]|]. intros y t Hy' Ht'. cbn.
    rewrite bit_single by lia. unfold in_range. bit_cases. }
  destruct (Z.eqb_spec lead limitLead) as [He|He].
  { eapply sets_ext; [apply or_loop_sets; lia|]. intros y t Hy' Ht'. cbn.
    rewrite bit_single by lia. unfold in_range. bit_cases. }
  set (lead' := if 0 <? trail then lead + 1 else lead).
  assert (Hlast : forall table, List.length table = 64%nat ->
    sets (or_loop 64 table 0 limitTrail
      (uint32 (Z.shiftl 1 (if limitLead =? 0x20 then limitLead - 1 else limitLead)))) table
      (in_range (64 * limitLead) limit)).
  { intros tb0 Hlen0. eapply sets_ext; [apply or_loop_sets; lia|]. intros y t Hy' Ht'. cbn.
    unfold in_range. destruct (Z.eqb_spec limitLead 0x20).
    - rewrite bit_single by lia. bit_cases.
    - rewrite bit_single by lia. bit_cases. }
  assert (Hmid : forall table, List.length table = 64%nat ->
    sets (if lead' <? limitLead then
      or_loop 64 table 0 64 (if limitLead <? 0x20
        then Z.land (uint32 (Z.lnot (Z.shiftl 1 lead' - 1))) (Z.shiftl 1 limitLead - 1)
        else uint32 (Z.lnot (Z.shiftl 1 lead' - 1))) else Some table) table
      (in_range (64 * lead') (64 * limitLead))).
  { intros tb0 Hlen0. destruct (Z.ltb_spec lead' limitLead).
    - assert (0 <= lead' < 32) by (unfold lead' in *; zcases).
      eapply sets_ext; [apply or_loop_sets; lia|]. intros y t Hy' Ht'. cbn.
      unfold in_range. destruct (Z.ltb_spec limitLead 0x20);
        rewrite ?Z.land_spec, ?bit_below, bit_above by lia; bit_cases.
    - apply sets_none. intros. unfold in_range. bit_cases. }
  assert (Hfirst : forall (k : list Z * Z -> option (list Z)) g,
    (forall table', List.length table' = 64%nat -> sets (k (table', lead')) table' g) ->
    sets (p ← (if 0 <? trail then
           table ← or_at table trail (uint32 (Z.shiftl 1 lead));
           table ← or_loop 64 table (trail + 1) 64 (uint32 (Z.shiftl 1 lead));
           Some (table, lead + 1) else Some (table, lead)); k p) table
      (fun y t => in_range start (64 * lead') y t || g y t)).
  { intros k g Hk. unfold lead' in *. destruct (Z.ltb_spec 0 trail) as [Hpos|Hz].
    - destruct (or_at_sets table trail (uint32 (Z.shiftl 1 lead)) Hlen) as (t1 & -> & Hl1 & Hb1);
        [lia|]. cbn [mbind option_bind].
      destruct (or_loop_sets (uint32 (Z.shiftl 1 lead)) 64 ltac:(lia) 64 t1 (trail + 1))
        as (t2 & -> & Hl2 & Hb2); [congruence|lia|lia|]. cbn [mbind option_bind].
      destruct (Hk t2) as (t3 & Ht3 & Hl3 & Hb3); [congruence|].
      exists t3. split; [done|]. split; [congruence|]. intros y t Hy' Ht'.
      rewrite Hb3, Hb2, Hb1 by done. rewrite !bit_single by lia. unfold in_range.
      destruct (tb table y t); [done|]. destruct (g y t); [by rewrite !orb_true_r|].
      bit_cases.
    - destruct (Hk table Hlen) as (t3 & Ht3 & Hl3 & Hb3). exists t3. split_and!; [done|done|].
      intros y t Hy' Ht'. rewrite Hb3 by done. unfold in_range. f_equal.
      destruct (g y t); [by rewrite orb_true_r|]. bit_cases. }
  eapply sets_ext.
  - apply Hfirst. intros t1 Hl1. cbn beta iota.
    eapply sets_bind; [apply Hmid, Hl1|intros t2 Hl2; apply Hlast; congruence|].
    intros y t Hy' Ht'. reflexivity.
  - intros y t Hy' Ht'. cbn beta. unfold in_range, lead' in *. bit_cases.
Qed.

(** ** The ranges of an inversion list *)

Fixpoint ranges (l : list Z) : list (Z * Z) :=
  match l with
  | [] => []
  | s :: l' => match l' with [] => [(s, UNICODESET_HIGH)] | e :: l'' => (s, e) :: ranges l'' end
  end.

Definition in_ranges (rs : list (Z * Z)) (c : Z) : bool :=
  existsb (fun '(s, e) => (s <=? c) && (c <? e)) rs.

(** Increasing ranges; the last one ends at HIGH, and may be empty. *)
Inductive rwf : Z -> list (Z * Z) -> Prop :=
  | rwf_last lo s : lo <= s <= UNICODESET_HIGH -> rwf lo [(s, UNICODESET_HIGH)]
  | rwf_cons lo s e rs : lo <= s < e -> e < UNICODESET_HIGH -> rwf (e + 1) rs ->
      rwf lo ((s, e) :: rs).

Lemma rwf_weaken lo lo' rs : rwf lo rs -> lo' <= lo -> rwf lo' rs.
Proof. intros [] ?; constructor; done || lia. Qed.

Lemma ranges_rwf : forall l, hsorted l -> forall lo, Forall (fun x => lo <= x) l -> rwf lo (ranges l).
Proof.
  intros l. induction l as [l IH] using (induction_ltof1 _ (@List.length Z)); unfold ltof in IH.
  intros Hl lo Hlo. destruct l as [|s [|e l]].
  - by destruct Hl.
  - apply hsorted_single in Hl as ->. cbn. constructor. inversion Hlo; lia.
  - apply hsorted_cons in Hl as [Hlt He]. inversion_clear Hlo as [|? ? Hs _]. cbn [ranges].
    destruct l as [|x l].
    + apply hsorted_single in He as ->. constructor. lia.
    + pose proof (hsorted_above _ _ He) as Hab. apply hsorted_cons in He as [Hex Hx].
      pose proof (hsorted_head _ _ Hx). constructor; [lia|lia|].
      apply IH; [simpl; lia|done|]. eapply Forall_impl; [exact Hab|]. simpl. lia.
Qed.

Lemma ranges_par : forall l c, hsorted l -> c < UNICODESET_HIGH -> par l c = in_ranges (ranges l) c.
Proof.
  intros l. induction l as [l IH] using (induction_ltof1 _ (@List.length Z)); unfold ltof in IH.
  intros c Hl Hc. destruct l as [|s [|e l]].
  - done.
  - cbn [ranges in_ranges existsb par]. rewrite (proj2 (Z.ltb_lt c _)) by done. by destruct (s <=? c).
  - rewrite par_pair by done. cbn [ranges in_ranges existsb]. unfold between. f_equal.
    destruct l as [|x l]; [done|]. apply IH; [simpl; lia| |done].
    apply hsorted_cons in Hl as [_ Hl]. by apply hsorted_cons in Hl as [_ ?].
Qed.

(** [next_range] reads the next range. *)
Lemma next_range_spec l n la (i : nat) s e rs :
  holds l n la -> ranges (drop i la) = (s, e) :: rs ->
  exists i', next_range l n (Z.of_nat i) = Some (s, e, Z.of_nat i') /\ ranges (drop i' la) = rs.
Proof.
  intros Hl Hr. pose proof Hl as (_ & Hn & _). unfold next_range.
  destruct (drop i la) as [|s' xs] eqn:Hd; [done|].
  assert (Hlen : (List.length la = i + S (List.length xs))%nat).
  { apply (f_equal List.length) in Hd. rewrite length_drop in Hd. simpl in Hd. lia. }
  assert (Hget : forall m, (m < S (List.length xs))%nat ->
    aget l (Z.of_nat (i + m)) = (s' :: xs) !! m).
  { intros m Hm. destruct (holds_get _ _ _ (i + m) Hl) as (x & Hx & ->); [lia|].
    by rewrite <- Hx, <- lookup_drop, Hd. }
  replace (Z.of_nat i) with (Z.of_nat (i + 0)) by lia. rewrite Hget by lia.
  cbn [lookup list_lookup mbind option_bind].
  replace (Z.of_nat (i + 0) + 1) with (Z.of_nat (i + 1)) by lia.
  destruct xs as [|e' xs]; cbn in Hr; simplify_eq.
  - rewrite (proj2 (Z.ltb_ge _ _)) by (simpl in Hlen; lia).
    exists (i + 1)%nat. split; [done|]. by rewrite <- drop_drop, Hd.
  - rewrite (proj2 (Z.ltb_lt _ _)), Hget by (simpl in Hlen |- *; lia).
    cbn [lookup list_lookup mbind option_bind].
    exists (i + 2)%nat. split; [do 2 f_equal; lia|]. by rewrite <- drop_drop, Hd.
Qed.

(** ** The range at hand

    [at_range f s e rs]: from [s] on, the set [f] is the range [s, e) and then
    the ranges [rs]. *)
Definition at_range (f : Z -> bool) (s e : Z) (rs : list (Z * Z)) : Prop :=
  rwf s ((s, e) :: rs) /\
  forall c, s <= c < UNICODESET_HIGH -> f c = (c <? e) || in_ranges rs c.

Lemma in_ranges_below lo rs c : rwf lo rs -> c < lo -> in_ranges rs c = false.
Proof.
  induction 1 as [lo s H|lo s e rs H1 H2 H3 IH]; intros Hc; cbn.
  - by rewrite (proj2 (Z.leb_gt _ _)) by lia.
  - rewrite (proj2 (Z.leb_gt s c)) by lia. cbn. apply IH. lia.
Qed.

Lemma at_range_next f s e s2 e2 rs :
  at_range f s e ((s2, e2) :: rs) ->
  at_range f s2 e2 rs /\ s < e < s2 /\ s2 <= UNICODESET_HIGH /\ e < UNICODESET_HIGH /\
  forall c, s <= c < s2 -> f c = (c <? e).
Proof.
  intros [Hw Hf]. inversion_clear Hw as [|? ? ? ? H1 H2 H3].
  assert (H4 : e + 1 <= s2 <= UNICODESET_HIGH) by (inversion_clear H3; lia).
  assert (H5 : rwf s2 ((s2, e2) :: rs)) by (inversion_clear H3; constructor; done || lia).
  split; [|split_and!; try lia].
  - split; [done|]. intros c Hc. rewrite Hf by lia. cbn.
    rewrite (proj2 (Z.ltb_ge c e)), (proj2 (Z.leb_le s2 c)) by lia. done.
  - intros c Hc. rewrite Hf by lia. rewrite (in_ranges_below s2); [apply orb_false_r|done|lia].
Qed.

Lemma at_range_last f s e : at_range f s e [] ->
  e = UNICODESET_HIGH /\ s <= UNICODESET_HIGH /\ forall c, s <= c < UNICODESET_HIGH -> f c = true.
Proof.
  intros [Hw Hf]. inversion Hw as [? ? H|? ? ? ? ? ? H]; subst; [|by inversion H].
  split_and!; [done|lia|]. intros c Hc. rewrite Hf by done. by rewrite (proj2 (Z.ltb_lt _ _)) by lia.
Qed.

Lemma at_range_in f s e rs : at_range f s e rs ->
  s <= e <= UNICODESET_HIGH /\ (s = e -> s = UNICODESET_HIGH) /\ forall c, s <= c < e -> f c = true.
Proof.
  intros [Hw Hf]. assert (H : s <= e <= UNICODESET_HIGH /\ (s = e -> s = UNICODESET_HIGH))
    by (inversion Hw; subst; lia).
  destruct H as [H1 H2]. split_and!; [lia..|done|]. intros c Hc. rewrite Hf by lia.
  by rewrite (proj2 (Z.ltb_lt _ _)) by lia.
Qed.

Lemma at_range_trim f s e rs s' : at_range f s e rs -> s <= s' < e -> at_range f s' e rs.
Proof.
  intros [Hw Hf] Hs. split; [|intros; apply Hf; lia].
  inversion Hw; subst; constructor; done || lia.
Qed.

(** Reading the next range at the cursor, which exists while [e] is below HIGH. *)
Lemma at_range_read f l n la (i : nat) s e :
  holds l n la -> at_range f s e (ranges (drop i la)) -> e < UNICODESET_HIGH ->
  exists s2 e2 i', next_range l n (Z.of_nat i) = Some (s2, e2, Z.of_nat i') /\
    at_range f s2 e2 (ranges (drop i' la)) /\ s < e < s2 /\ s2 <= UNICODESET_HIGH /\
    (forall c, s <= c < s2 -> f c = (c <? e)) /\
    S (List.length (ranges (drop i' la))) = List.length (ranges (drop i la)).
Proof.
  intros Hl Hat He. destruct (ranges (drop i la)) as [|[s2 e2] rs] eqn:Hr.
  { apply at_range_last in Hat as [-> _]. lia. }
  destruct (next_range_spec _ _ _ _ _ _ _ Hl Hr) as (i' & Hn & Hr').
  exists s2, e2, i'. rewrite Hr'. apply at_range_next in Hat as (? & ? & ? & ? & ?).
  split_and!; done || lia.
Qed.

(** The start of the list. *)
Lemma at_range_first l n la :
  holds l n la -> exists s e i, next_range l n 0 = Some (s, e, Z.of_nat i) /\
    at_range (mem la) s e (ranges (drop i la)) /\ 0 <= s /\
    (forall c, c < s -> mem la c = false) /\
    (S (List.length (ranges (drop i la))) <= List.length la)%nat.
Proof.
  intros Hl. pose proof Hl as ([Hs Hp] & _ & _).
  pose proof (ranges_rwf la Hs 0 Hp) as Hw.
  assert (Hlen : forall l, (List.length (ranges l) <= List.length l)%nat).
  { intros l0. induction l0 as [l0 IH] using (induction_ltof1 _ (@List.length Z)); unfold ltof in IH.
    destruct l0 as [|x [|y l0]]; simpl; [lia|lia|]. specialize (IH l0). simpl in IH. lia. }
  destruct (ranges la) as [|[s e] rs] eqn:Hr; [inversion Hw|].
  destruct (next_range_spec l n la 0 s e rs Hl) as (i & Hn & Hr'); [by rewrite drop_0|].
  exists s, e, i. rewrite Hr'. split; [done|].
  assert (Hse : 0 <= s /\ rwf s ((s, e) :: rs)) by (inversion_clear Hw; split; try constructor; done || lia).
  destruct Hse as [H0 Hw']. split_and!; [split; [done|]|done| |].
  - intros c Hc. rewrite mem_par, ranges_par, Hr by (done || lia). cbn [in_ranges existsb].
    by rewrite (proj2 (Z.leb_le _ _)) by lia.
  - intros c Hc. destruct (Z.lt_ge_cases c UNICODESET_HIGH); [|by apply mem_high].
    rewrite mem_par, ranges_par, Hr by done. by eapply in_ranges_below.
  - specialize (Hlen la). rewrite Hr in Hlen. simpl in Hlen. done.
Qed.

(** ** The three loops of [initBits] *)

Section Init.
Context (list : list Z) (n : Z) (la : Datatypes.list Z) (f : Z -> bool).
Hypothesis list_holds : holds list n la.

(** Below [lim], the bytes of the code points before [s] say what [f] says. *)
Definition ascii_inv (bytes : Datatypes.list Z) (s : Z) : Prop :=
  List.length bytes = 192%nat /\
  forall c, 0 <= c < 0xc0 ->
    aget bytes c = Some (if (c <? 0x80) && (c <? s) && f c then 1 else 0).

Lemma ascii_fill_spec limit : forall k bytes start,
  List.length bytes = 192%nat -> 0 <= start < 0x80 -> start < limit -> 0x80 - start <= Z.of_nat k ->
  exists bytes', ascii_fill k bytes start limit = Some (bytes', Z.min limit 0x80) /\
    List.length bytes' = 192%nat /\
    forall c, aget bytes' c = if (start <=? c) && (c <? Z.min limit 0x80) then Some 1 else aget bytes c.
Proof.
  induction k as [|k IH]; intros bytes start Hlen Hs Hlim Hk; [lia|]. cbn [ascii_fill].
  destruct (aset_is_Some bytes start 1) as [b1 Hb1]; [lia|]. rewrite Hb1. cbn [mbind option_bind].
  pose proof (aset_length _ _ _ _ Hb1) as Hl1.
  destruct (Z.ltb_spec (start + 1) limit), (Z.ltb_spec (start + 1) 0x80); cbn [andb].
  - destruct (IH b1 (start + 1)) as (b2 & -> & Hl2 & H2); [congruence|lia|lia|lia|].
    exists b2. split_and!; [done|done|]. intros c. rewrite H2, (aget_aset _ _ _ c _ Hb1).
    bit_cases; done.
  - exists b1. split_and!; [do 2 f_equal; lia|congruence|]. intros c.
    rewrite (aget_aset _ _ _ c _ Hb1). bit_cases; done.
  - exists b1. split_and!; [do 2 f_equal; lia|congruence|]. intros c.
    rewrite (aget_aset _ _ _ c _ Hb1). bit_cases; done.
  - exists b1. split_and!; [do 2 f_equal; lia|congruence|]. intros c.
    rewrite (aget_aset _ _ _ c _ Hb1). bit_cases; done.
Qed.

Lemma initBits_ascii_spec : forall k bytes (i i' : nat) s e,
  next_range list n (Z.of_nat i) = Some (s, e, Z.of_nat i') ->
  at_range f s e (ranges (drop i' la)) -> 0 <= s ->
  (List.length (ranges (drop i' la)) < k)%nat -> ascii_inv bytes s ->
  exists bytes' s' (j : nat) e',
    initBits_ascii k list n bytes (Z.of_nat i) = Some (bytes', s', e', Z.of_nat j) /\
    at_range f s' e' (ranges (drop j la)) /\ 0x80 <= s' /\ ascii_inv bytes' 0x80 /\
    (forall c, 0x80 <= c < s' -> s <= c -> f c = false) /\
    (List.length (ranges (drop j la)) < k)%nat.
Proof.
  induction k as [|k IH]; intros bytes i i' s e Hread Hat H0 Hk Hinv; [lia|].
  cbn [initBits_ascii]. rewrite Hread. cbn [mbind option_bind].
  rewrite Z.geb_leb. destruct (Z.leb_spec 0x80 s) as [Hs|Hs].
  { exists bytes, s, i', e. destruct Hinv as [Hlen Hinv].
    split; [done|]. split; [done|]. split; [done|]. split; [|split; [intros; lia|done]].
    split; [done|]. intros c Hc. rewrite Hinv by done. bit_cases; cbn; by destruct (f c). }
  destruct (at_range_in _ _ _ _ Hat) as (Hse & Hne & Hin).
  assert (s < e) by (unfold UNICODESET_HIGH in *; lia).
  destruct Hinv as [Hlen Hinv].
  destruct (ascii_fill_spec e 0x80 bytes s) as (b1 & -> & Hl1 & H1); [done|lia|done|lia|].
  cbn [mbind option_bind].
  assert (Hinv1 : forall s2, e <= s2 -> (forall c, e <= c < Z.min s2 0x80 -> f c = false) ->
    ascii_inv b1 s2).
  { intros s2 Hs2 Hgap. split; [done|]. intros c Hc. rewrite H1, Hinv by done.
    specialize (Hgap c). specialize (Hin c).
    bit_cases; cbn; try (rewrite Hin by lia; done); try (rewrite Hgap by lia; done);
      by destruct (f c). }
  destruct (Z.leb_spec e 0x80) as [He|He].
  - destruct (at_range_read f list n la i' s e) as (s2 & e2 & i2 & Hr2 & Hat2 & Hs2 & Hh & Hgap & Hk2);
      [done|done|unfold UNICODESET_HIGH; lia|].
    destruct (IH b1 i' i2 s2 e2 Hr2 Hat2) as (b' & s' & j & e' & -> & Hat' & Hs' & Hi' & Hg' & Hk');
      [lia|lia|apply Hinv1; [lia|]|].
    + intros c Hc. rewrite Hgap by lia. bit_cases.
    + exists b', s', j, e'. split; [done|]. split; [done|]. split; [done|].
      split; [done|]. split; [|lia].
      intros c Hc Hsc. destruct (Z.lt_ge_cases c s2); [|apply Hg'; lia].
      rewrite Hgap by lia. bit_cases.
  - exists b1, 0x80, i', e. rewrite Z.min_r by lia. split; [done|].
    split; [eapply at_range_trim; [done|lia]|]. split; [done|].
    split; [|split; [intros; lia|done]]. split; [done|].
    destruct (Hinv1 e) as [_ Hi]; [lia|intros; lia|]. intros c Hc. rewrite Hi by done.
      bit_cases; done.
Qed.
(** The same for the bit table of the code points below U+0800. *)
Definition inv7FF (table : Datatypes.list Z) (s : Z) : Prop :=
  List.length table = 64%nat /\
  forall y t, 0 <= y < 32 -> 0 <= t < 64 ->
    tb table y t = (0x80 <=? 64 * y + t) && (64 * y + t <? s) && f (64 * y + t).

Lemma initBits_7FF_spec : forall k table (i : nat) s e,
  at_range f s e (ranges (drop i la)) -> 0x80 <= s ->
  (List.length (ranges (drop i la)) < k)%nat -> inv7FF table s ->
  exists table' s' (j : nat) e',
    initBits_7FF k list n table s e (Z.of_nat i) = Some (table', s', e', Z.of_nat j) /\
    at_range f s' e' (ranges (drop j la)) /\ 0x800 <= s' /\ inv7FF table' 0x800 /\
    (forall c, 0x800 <= c < s' -> s <= c -> f c = false) /\
    (List.length (ranges (drop j la)) < k)%nat.
Proof.
  induction k as [|k IH]; intros table i s e Hat H0 Hk [Hlen Hinv]; [lia|]. cbn [initBits_7FF].
  destruct (Z.ltb_spec s 0x800) as [Hs|Hs].
  2:{ exists table, s, i, e. split; [done|]. split; [done|]. split; [done|].
      split; [|split; [intros; lia|done]]. split; [done|].
      intros y t Hy Ht. rewrite Hinv by done. bit_cases. }
  destruct (at_range_in _ _ _ _ Hat) as (Hse & Hne & Hin).
  assert (s < e) by (unfold UNICODESET_HIGH in *; lia).
  set (l := if e <=? 0x800 then e else 0x800).
  assert (Hl : s < l <= 0x800 /\ l <= e) by (unfold l; zcases).
  destruct (set32x64Bits_sets table s l) as (t1 & -> & Hl1 & Hb1); [done|lia|lia|].
  cbn [mbind option_bind].
  assert (Hinv1 : forall s2, l <= s2 -> (forall c, l <= c < s2 -> c < 0x800 -> f c = false) ->
    inv7FF t1 s2).
  { intros s2 Hs2 Hgap. split; [congruence|]. intros y t Hy Ht.
    rewrite Hb1, Hinv by done. unfold in_range.
    specialize (Hgap (64 * y + t)). specialize (Hin (64 * y + t)).
    bit_cases; cbn; try (rewrite Hin by lia; done); try (rewrite Hgap by lia; done);
      by destruct (f (64 * y + t)). }
  rewrite Z.gtb_ltb. destruct (Z.ltb_spec 0x800 e) as [He|He].
  - exists t1, 0x800, i, e. split; [done|]. split; [eapply at_range_trim; [done|lia]|].
    split; [done|]. split; [|split; [intros; lia|done]].
    apply Hinv1; [lia|]. intros c Hc. unfold l in Hc. zcase_in Hc; lia.
  - destruct (at_range_read f list n la i s e) as (s2 & e2 & i2 & -> & Hat2 & Hs2 & Hh & Hgap & Hk2);
      [done|done|unfold UNICODESET_HIGH; lia|]. cbn [mbind option_bind].
    assert (l = e) as Hle by (unfold l; zcases).
    destruct (IH t1 i2 s2 e2 Hat2) as (t' & s' & j & e' & -> & Hat' & Hs' & Hi' & Hg' & Hk');
      [lia|lia|apply Hinv1; [lia|]|].
    + intros c Hc _. rewrite Hgap by lia. bit_cases.
    + exists t', s', j, e'. split; [done|]. split; [done|]. split; [done|].
      split; [done|]. split; [|lia].
      intros c Hc Hsc. destruct (Z.lt_ge_cases c s2); [|apply Hg'; lia].
      rewrite Hgap by lia. bit_cases.
Qed.

(** The two bits of a block of 64 code points. *)
Definition blk_low (blocks : Datatypes.list Z) (B : Z) : bool := tb blocks (B / 64) (B mod 64).
Definition blk_up (blocks : Datatypes.list Z) (B : Z) : bool := tb blocks (B / 64 + 16) (B mod 64).

(** A block that is not marked as mixed has the same value throughout. *)
Definition blk_ok (blocks : Datatypes.list Z) (B : Z) : Prop :=
  blk_up blocks B = false -> forall c, 64 * B <= c < 64 * B + 64 -> f c = blk_low blocks B.

Definition blk_zero (blocks : Datatypes.list Z) (B : Z) : Prop :=
  blk_up blocks B = false /\ blk_low blocks B = false.

(** The blocks before [m] are done, the others are clear. *)
Definition inv_blocks (blocks : Datatypes.list Z) (m : Z) : Prop :=
  List.length blocks = 64%nat /\
  (forall B, 0x20 <= B < 0x400 -> B < m -> blk_ok blocks B) /\
  (forall B, 0 <= B < 0x400 -> B < 0x20 \/ m <= B -> blk_zero blocks B).

Lemma blk_sets res blocks g B :
  sets res blocks g -> 0 <= B < 0x400 ->
  exists blocks', res = Some blocks' /\ List.length blocks' = List.length blocks /\
    blk_low blocks' B = blk_low blocks B || g (B / 64) (B mod 64) /\
    blk_up blocks' B = blk_up blocks B || g (B / 64 + 16) (B mod 64).
Proof.
  intros (b' & -> & Hl & H) HB. exists b'. unfold blk_low, blk_up.
  split_and!; [done|done|apply H; dlia|apply H; dlia].
Qed.

(** Marking a block as mixed sets both its bits and no other. *)
Lemma set_mixed_spec blocks block :
  List.length blocks = 64%nat -> 0 <= block < 0x400 ->
  exists blocks', set_mixed blocks block = Some blocks' /\ List.length blocks' = 64%nat /\
    forall B, 0 <= B < 0x400 ->
      blk_low blocks' B = blk_low blocks B || (B =? block) /\
      blk_up blocks' B = blk_up blocks B || (B =? block).
Proof.
  intros Hlen Hb. destruct (bit_split block) as (Eb & Ht & Hy); [lia|]. unfold set_mixed.
  set (y0 := Z.shiftr block 6) in *. set (t0 := Z.land block 0x3f) in *. clearbody y0 t0.
  destruct (or_at_sets blocks t0 (uint32 (Z.shiftl 0x10001 y0)) Hlen Ht) as (b' & -> & Hl & H).
  exists b'. split; [done|]. split; [congruence|]. intros B HB.
  assert (Hbit : forall y, 0 <= y < 32 ->
    Z.testbit (uint32 (Z.shiftl 0x10001 y0)) y = (y =? y0) || (y =? y0 + 16)).
  { intros y Hy'. unfold uint32. change 4294967296 with (2 ^ 32).
    rewrite Z.mod_pow2_bits_low, Z.shiftl_spec by lia.
    change 0x10001 with (2 ^ 0 + 2 ^ 16).
    rewrite Z.add_nocarry_lxor, Z.lxor_spec by done.
    destruct (Z.lt_ge_cases (y - y0) 0).
    - rewrite !Z.testbit_neg_r by lia. bit_cases.
    - rewrite !Z.pow2_bits_eqb by lia. bit_cases. }
  unfold blk_low, blk_up. rewrite !H, !Hbit by dlia.
  destruct (tb blocks (B / 64) (B mod 64)), (tb blocks (B / 64 + 16) (B mod 64));
    cbn; split; try done; bit_cases; dlia.
Qed.
Lemma inv_gap blocks m m2 :
  inv_blocks blocks m -> m <= m2 -> (forall c, 64 * m <= c < 64 * m2 -> f c = false) ->
  inv_blocks blocks m2.
Proof.
  intros (Hlen & Hlo & Hhi) Hm Hgap. split_and!; [done| |].
  - intros B HB HBm. destruct (Z.lt_ge_cases B m); [by apply Hlo|].
    destruct (Hhi B) as [_ Hz]; [lia|lia|]. intros _ c Hc. rewrite Hz. apply Hgap. lia.
  - intros B HB HBm. apply Hhi; lia.
Qed.

Lemma inv_mixed blocks block :
  inv_blocks blocks block -> 0x20 <= block < 0x400 ->
  exists blocks', set_mixed blocks block = Some blocks' /\ inv_blocks blocks' (block + 1).
Proof.
  intros (Hlen & Hlo & Hhi) Hb.
  destruct (set_mixed_spec blocks block) as (b' & -> & Hl & H); [done|lia|].
  exists b'. split; [done|]. split_and!; [done| |].
  - intros B HB HBm. destruct (H B) as [Hlow Hup]; [lia|]. unfold blk_ok. rewrite Hup, Hlow.
    destruct (Z.eqb_spec B block) as [->|]; [by rewrite orb_true_r|]. rewrite !orb_false_r.
    apply Hlo; lia.
  - intros B HB HBm. destruct (H B) as [Hlow Hup]; [lia|]. unfold blk_zero. rewrite Hup, Hlow.
    rewrite (proj2 (Z.eqb_neq _ _)), !orb_false_r by lia. apply Hhi; lia.
Qed.

Lemma inv_full blocks m m2 :
  inv_blocks blocks m -> 0x20 <= m < m2 -> m2 <= 0x400 ->
  (forall c, 64 * m <= c < 64 * m2 -> f c = true) ->
  exists blocks', set32x64Bits blocks m m2 = Some blocks' /\ inv_blocks blocks' m2.
Proof.
  intros (Hlen & Hlo & Hhi) Hm Hm2 Hf.
  destruct (set32x64Bits_sets blocks m m2 Hlen) as (b' & -> & Hl & H); [lia|lia|].
  exists b'. split; [done|].
  assert (Hblk : forall B, 0 <= B < 0x400 -> blk_up b' B = blk_up blocks B /\
    blk_low b' B = blk_low blocks B || (m <=? B) && (B <? m2)).
  { intros B HB. unfold blk_up, blk_low. rewrite !H by dlia. unfold in_range.
    replace (64 * (B / 64) + B mod 64) with B by dlia.
    replace (64 * (B / 64 + 16) + B mod 64) with (B + 0x400) by dlia.
    split; [|done]. rewrite (proj2 (Z.ltb_ge _ _)) by lia. by rewrite andb_false_r, orb_false_r. }
  split_and!; [congruence| |].
  - intros B HB HBm. destruct (Hblk B) as [Hup Hlow]; [lia|]. unfold blk_ok. rewrite Hup, Hlow.
    destruct (Z.lt_ge_cases B m).
    + rewrite (proj2 (Z.leb_gt _ _)) by lia. rewrite andb_false_l, orb_false_r. apply Hlo; lia.
    + rewrite (proj2 (Z.leb_le _ _)), (proj2 (Z.ltb_lt _ _)) by lia. rewrite orb_true_r.
      intros _ c Hc. apply Hf. lia.
  - intros B HB HBm. destruct (Hblk B) as [Hup Hlow]; [lia|]. unfold blk_zero. rewrite Hup, Hlow.
    replace ((m <=? B) && (B <? m2)) with false by bit_cases. rewrite orb_false_r. apply Hhi; lia.
Qed.

(** What the body of the third loop leaves for the next range. *)
Definition range_done (blocks : Datatypes.list Z) (e minStart limit : Z) : Prop :=
  (limit = 0x10000 /\ inv_blocks blocks 0x400) \/
  (limit <> 0x10000 /\ e < 0x10000 /\ exists M, minStart = 64 * M /\ 0x20 <= M /\
    forall s2, e < s2 -> (forall c, e <= c < s2 -> f c = false) ->
      inv_blocks blocks (Z.max s2 minStart / 64)).

Lemma shiftr6 x : Z.shiftr x 6 = x / 64.
Proof. by rewrite Z.shiftr_div_pow2. Qed.

Lemma shiftl6 x : Z.shiftl x 6 = 64 * x.
Proof. rewrite Z.shiftl_mul_pow2 by lia. change (2 ^ 6) with 64. lia. Qed.

Lemma land63 x : Z.land x 0x3f = x mod 64.
Proof. change 0x3f with (2 ^ 6 - 1). by rewrite land_low_mask. Qed.

Lemma land_not63 x : 0 <= x -> Z.land x (Z.lnot 0x3f) = 64 * (x / 64).
Proof.
  intros. change 0x3f with (Z.ones 6). rewrite <- Z.ldiff_land, Z.ldiff_ones_r by lia.
  rewrite shiftr6, shiftl6. done.
Qed.

(** After the first partial block: the blocks from the aligned [s] on. *)
Lemma range_tail blocks s l e minStart M :
  inv_blocks blocks (s / 64) -> s mod 64 = 0 -> 0x800 <= s -> minStart = 64 * M -> 0x20 <= M ->
  minStart <= s -> l = Z.min e 0x10000 -> (s < l \/ (l <= s /\ minStart = s /\ s <= 0x10000)) ->
  (forall c, s <= c < e -> f c = true) ->
  exists blocks' minStart' limit',
    (if s <? l then
       blocks1 ← (if s <? Z.land l (Z.lnot 0x3f)
                  then set32x64Bits blocks (Z.shiftr s 6) (Z.shiftr l 6) else Some blocks);
       if negb (Z.land l 0x3f =? 0) then
         let limit := Z.shiftr l 6 in
         blocks2 ← set_mixed blocks1 limit;
         let limit := Z.shiftl (limit + 1) 6 in
         Some (blocks2, limit, limit)
       else Some (blocks1, minStart, l)
     else Some (blocks, minStart, l)) = Some (blocks', minStart', limit') /\
    range_done blocks' e minStart' limit'.
Proof.
  intros Hinv Hmod H0 HM HM20 Hms Hl Hcase Hf.
  destruct (Z.ltb_spec s l) as [Hsl|Hsl].
  - destruct Hcase as [_|]; [|lia].
    assert (Hb1 : exists b1, (if s <? Z.land l (Z.lnot 0x3f)
        then set32x64Bits blocks (Z.shiftr s 6) (Z.shiftr l 6) else Some blocks) = Some b1 /\
        inv_blocks b1 (l / 64)).
    { rewrite land_not63, !shiftr6 by lia. destruct (Z.ltb_spec s (64 * (l / 64))).
      - apply inv_full; [done|dlia|dlia|]. intros c Hc. apply Hf. dlia.
      - exists blocks. split; [done|]. by replace (l / 64) with (s / 64) by dlia. }
    destruct Hb1 as (b1 & -> & Hinv1). cbn [mbind option_bind]. rewrite land63.
    destruct (Z.eqb_spec (l mod 64) 0) as [Hz|Hnz]; cbn [negb].
    + exists b1, minStart, l. split; [done|]. destruct (Z.eq_dec l 0x10000) as [Hl1|Hl1].
      * left. split; [done|]. by rewrite Hl1 in Hinv1.
      * right. split; [done|]. split; [lia|]. exists M. split_and!; [done|done|].
        intros s2 Hs2 Hgap. rewrite Z.max_l by lia. apply (inv_gap _ (l / 64)); [done|dlia|].
        intros c Hc. apply Hgap. dlia.
    + rewrite shiftr6, shiftl6.
      destruct (inv_mixed b1 (l / 64) Hinv1) as (b2 & -> & Hinv2); [dlia|]. cbn [mbind option_bind].
      eexists _, _, _. split; [done|].
      destruct (Z.eq_dec (64 * (l / 64 + 1)) 0x10000) as [Hl1|Hl1].
      * left. split; [done|]. by replace 0x400 with (l / 64 + 1) by lia.
      * right. split; [done|]. split; [dlia|]. exists (l / 64 + 1). split_and!; [done|dlia|].
        intros s2 Hs2 Hgap. apply (inv_gap _ (l / 64 + 1)); [done|dlia|].
        intros c Hc. apply Hgap. dlia.
  - destruct Hcase as [|(_ & HsM & HsX)]; [lia|].
    exists blocks, minStart, l. split; [done|]. destruct (Z.eq_dec l 0x10000) as [Hl1|Hl1].
    + left. split; [done|]. by replace 0x400 with (s / 64) by dlia.
    + right. split; [done|]. split; [lia|]. exists M. split_and!; [done|done|].
      intros s2 Hs2 Hgap. apply (inv_gap _ (s / 64)); [done|dlia|].
      intros c Hc. apply Hgap. dlia.
Qed.

Lemma initBits_range_spec blocks s e minStart M :
  inv_blocks blocks (Z.max s minStart / 64) -> 0x800 <= s < 0x10000 -> s < e ->
  minStart = 64 * M -> 0x20 <= M -> (forall c, s <= c < e -> f c = true) ->
  exists blocks' minStart' limit', initBits_range blocks s e minStart = Some (blocks', minStart', limit') /\
    range_done blocks' e minStart' limit'.
Proof.
  intros Hinv Hs Hse HM HM20 Hf. unfold initBits_range.
  replace (if e >? 0x10000 then 0x10000 else e) with (Z.min e 0x10000) by (zcases).
  replace (if s <? minStart then minStart else s) with (Z.max s minStart) by zcases.
  set (l := Z.min e 0x10000). set (s' := Z.max s minStart) in *.
  destruct (Z.ltb_spec s' l) as [Hlt|Hge].
  - rewrite (land63 s'). destruct (Z.eqb_spec (s' mod 64) 0) as [Hz|Hnz]; cbn [negb].
    + cbn [mbind option_bind]. apply (range_tail _ _ _ _ _ M); try done; try lia.
      intros c Hc. apply Hf. lia.
    + assert (s' = s) as Hs' by dlia. rewrite (shiftr6 s').
      destruct (inv_mixed blocks (s' / 64) Hinv) as (b1 & -> & Hinv1); [dlia|].
      cbn [mbind option_bind]. rewrite (shiftl6 (s' / 64 + 1)).
      apply (range_tail _ _ _ _ _ (s' / 64 + 1));
        [by replace (64 * (s' / 64 + 1) / 64) with (s' / 64 + 1) by dlia
        |dlia|dlia|done|dlia|lia|done| |intros c Hc; apply Hf; dlia].
      destruct (Z.lt_ge_cases (64 * (s' / 64 + 1)) l); [by left|right].
      split; [lia|]. split; [done|dlia].
  - exists blocks, minStart, l. split; [done|]. destruct (Z.eq_dec l 0x10000) as [Hl1|Hl1].
    + left. split; [done|]. destruct Hinv as (Hlen & Hlo & Hhi). split_and!; [done| |intros; apply Hhi; dlia].
      intros B HB _. apply Hlo; [done|dlia].
    + right. split; [done|]. split; [lia|]. exists M. split_and!; [done|done|].
      intros s2 Hs2 Hgap. apply (inv_gap _ (s' / 64)); [done|dlia|].
      intros c Hc. apply Hgap. dlia.
Qed.

Lemma initBits_blocks_spec : forall k blocks (i : nat) s e minStart M,
  at_range f s e (ranges (drop i la)) -> 0x800 <= s -> minStart = 64 * M -> 0x20 <= M ->
  (List.length (ranges (drop i la)) < k)%nat -> inv_blocks blocks (Z.max s minStart / 64) ->
  exists blocks', initBits_blocks k list n blocks s e (Z.of_nat i) minStart = Some blocks' /\
    inv_blocks blocks' 0x400.
Proof.
  induction k as [|k IH]; intros blocks i s e minStart M Hat H0 HM HM20 Hk Hinv; [lia|].
  cbn [initBits_blocks]. destruct (Z.ltb_spec s 0x10000) as [Hs|Hs].
  2:{ exists blocks. split; [done|]. destruct Hinv as (Hlen & Hlo & Hhi).
      split_and!; [done| |intros; apply Hhi; dlia]. intros B HB _. apply Hlo; [done|dlia]. }
  destruct (at_range_in _ _ _ _ Hat) as (Hse & Hne & Hin).
  destruct (initBits_range_spec blocks s e minStart M) as (b1 & ms' & l' & -> & Hd);
    [done|lia|unfold UNICODESET_HIGH in *; lia|done|done|done|].
  cbn [mbind option_bind].
  destruct Hd as [[-> Hd]|(Hl' & He & M' & -> & HM' & Hd)].
  { exists b1. by rewrite Z.eqb_refl. }
  rewrite (proj2 (Z.eqb_neq _ _)) by done.
  destruct (at_range_read f list n la i s e) as (s2 & e2 & i2 & -> & Hat2 & Hs2 & Hh & Hgap & Hk2);
    [done|done|unfold UNICODESET_HIGH; lia|]. cbn [mbind option_bind].
  apply (IH b1 i2 s2 e2 _ M'); [done|lia|done|done|lia|].
  apply Hd; [lia|]. intros c Hc. rewrite Hgap by lia. bit_cases.
Qed.
End Init.

(** ** The indexes of the 4k blocks *)

Lemma odd_land i : negb (Z.land i 1 =? 0) = Z.odd i.
Proof.
  change 1 with (2 ^ 1 - 1) at 1. rewrite land_low_mask by lia.
  change (2 ^ 1) with 2. rewrite Zmod_odd. by destruct (Z.odd i).
Qed.

Lemma first_above_unique la c i j : first_above la c i -> first_above la c j -> i = j.
Proof.
  assert (H : forall i j, first_above la c i -> first_above la c j -> ~ i < j).
  { clear. intros i j [Hi Hi'] [Hj Hj'] Hlt.
    destruct (lookup_lt_is_Some_2 la (Z.to_nat i)) as [x Hx]; [lia|].
    specialize (Hi' _ _ Hx). specialize (Hj' _ _ Hx). lia. }
  intros Hi Hj. pose proof (H _ _ Hi Hj). pose proof (H _ _ Hj Hi). lia.
Qed.

Lemma first_above_mono la c d i j : first_above la c i -> first_above la d j -> c <= d -> i <= j.
Proof.
  intros [Hi Hi'] [Hj Hj'] Hcd. destruct (Z.lt_ge_cases j i); [|done].
  destruct (lookup_lt_is_Some_2 la (Z.to_nat j)) as [x Hx]; [lia|].
  specialize (Hi' _ _ Hx). specialize (Hj' _ _ Hx). lia.
Qed.

Lemma findCodePoint_part list n la c lo hi t :
  holds list n la -> first_above la c t -> 0 <= lo -> lo <= t <= hi -> hi < n ->
  findCodePoint list c lo hi = Some t.
Proof.
  intros Hl Ht H0 Hlo Hhi. pose proof Hl as (_ & Hn & _). pose proof Ht as [Htr Hta].
  unfold findCodePoint. assert (Hget : forall i, 0 <= i < n -> exists x,
    aget list i = Some x /\ la !! Z.to_nat i = Some x /\ (i < t <-> x <= c)).
  { intros i Hi. destruct (holds_get _ _ _ (Z.to_nat i) Hl) as (x & Hx & Hg); [lia|].
    rewrite Z2Nat.id in Hg by lia. exists x. split_and!; [done|done|..];
      specialize (Hta _ _ Hx); lia. }
  destruct (Hget lo) as (x & -> & Hx & Hlx); [lia|]. cbn [mbind option_bind].
  destruct (Z.ltb_spec c x); [f_equal; lia|]. rewrite Z.geb_leb.
  destruct (Z.leb_spec hi lo); [f_equal; lia|].
  destruct (Hget (hi - 1)) as (y & -> & Hy & Hly); [lia|]. cbn [mbind option_bind].
  rewrite Z.geb_leb. destruct (Z.leb_spec y c); [f_equal; lia|].
  destruct (Hget hi) as (z & _ & Hz & Hlz); [lia|].
  destruct (findCodePoint_loop_spec list n la c Hl (Z.to_nat (hi - lo + 1)) (Z.to_nat lo) (Z.to_nat hi))
    as (i & Hi & Hfa); [lia|lia|intros w Hw; simplify_eq; lia|intros w Hw; simplify_eq; lia|].
  rewrite !Z2Nat.id in Hi by lia. rewrite Hi. f_equal. by eapply first_above_unique.
Qed.

(** The least code point of a 4k block that is looked up in the list. *)
Definition key (k : Z) : Z := if k =? 0 then 0x800 else 4096 * k.

Definition starts_ok (la starts : list Z) (n m : Z) : Prop :=
  List.length starts = 18%nat /\
  forall k, 0 <= k < m -> exists x, aget starts k = Some x /\ 0 <= x < n /\
    (k <= 0x10 -> first_above la (key k) x) /\ (k = 0x11 -> x = n - 1).

Lemma starts_push la starts n k x :
  starts_ok la starts n k -> 0 <= k < 18 -> 0 <= x < n ->
  (k <= 0x10 -> first_above la (key k) x) -> (k = 0x11 -> x = n - 1) ->
  exists starts', aset starts k x = Some starts' /\ starts_ok la starts' n (k + 1).
Proof.
  intros [Hlen Hs] Hk Hx Hfa Hlast. destruct (aset_is_Some starts k x) as [s' Hs']; [lia|].
  exists s'. split; [done|]. split; [by rewrite (aset_length _ _ _ _ Hs')|].
  intros k' Hk'. rewrite (aget_aset _ _ _ k' _ Hs'). destruct (Z.eqb_spec k' k) as [->|Hne].
  - by exists x.
  - apply Hs. lia.
Qed.

Lemma first_above_exists list n la c :
  holds list n la -> c < UNICODESET_HIGH -> exists t, first_above la c t /\ 0 <= t < n.
Proof.
  intros Hl Hc. destruct (findCodePoint_spec list n la c Hl Hc) as (t & _ & Ht).
  exists t. destruct Hl as (_ & -> & _). split; [done|apply Ht].
Qed.

Lemma init4k_loop_spec list n la : holds list n la -> forall fuel starts i,
  starts_ok la starts n i -> 1 <= i <= 0x11 -> Z.of_nat fuel = 0x11 - i ->
  exists starts', init4k_loop fuel list n starts i = Some starts' /\ starts_ok la starts' n 0x11.
Proof.
  intros Hl. induction fuel as [|fuel IH]; intros starts i Hs Hi Hf; cbn [init4k_loop].
  { replace i with 0x11 in * by lia. by exists starts. }
  rewrite (proj2 (Z.leb_le _ _)) by lia. pose proof Hs as [_ Hs'].
  destruct (Hs' (i - 1)) as (p & -> & Hp & Hpf & _); [lia|]. cbn [mbind option_bind].
  rewrite Z.shiftl_mul_pow2 by lia. change (2 ^ 12) with 4096.
  destruct (first_above_exists list n la (i * 4096) Hl) as (t & Ht & Htn);
    [unfold UNICODESET_HIGH; lia|].
  assert (Hkey : key i = i * 4096) by (unfold key; zcase; lia).
  rewrite (findCodePoint_part list n la _ _ _ t); [|done|done|lia| |lia].
  2:{ split; [|lia]. eapply first_above_mono; [apply Hpf; lia|exact Ht|].
      unfold key. zcase; lia. }
  cbn [mbind option_bind].
  destruct (starts_push la starts n i t Hs) as (s2 & -> & Hs2); [lia|done|by rewrite Hkey|lia|].
  cbn [mbind option_bind]. apply IH; [done|lia|lia].
Qed.

(** ** The constructor *)

Definition illegal_block (B : Z) : bool := (B <? 0x20) || (0x360 <=? B) && (B <? 0x380).

(** The tables agree with the set: ill-formed UTF-8 lead bytes have the value of
    U+FFFD. *)
Record bmp_ok (b : BMPSet) (la : list Z) (n : Z) : Prop := {
  ok_list : holds b.(list_) n la;
  ok_length : b.(listLength) = n;
  ok_starts : starts_ok la b.(list4kStarts) n 18;
  ok_ascii : List.length b.(asciiBytes) = 192%nat /\ forall c, 0 <= c < 0xc0 ->
    aget b.(asciiBytes) c = Some (if mem la (if c <? 0x80 then c else 0xfffd) then 1 else 0);
  ok_7FF : List.length b.(table7FF) = 64%nat /\ forall y t, 0 <= y < 32 -> 0 <= t < 64 ->
    tb b.(table7FF) y t = mem la (if 64 * y + t <? 0x80 then 0xfffd else 64 * y + t);
  ok_blocks : List.length b.(bmpBlockBits) = 64%nat /\ forall B, 0 <= B < 0x400 ->
    if illegal_block B
    then blk_up b.(bmpBlockBits) B = false /\ blk_low b.(bmpBlockBits) B = mem la 0xfffd
    else blk_ok (mem la) b.(bmpBlockBits) B
}.

Lemma map_range_spec g limit : forall fuel table i,
  0 <= i -> limit <= Z.of_nat (List.length table) -> limit - i <= Z.of_nat fuel ->
  exists table', map_range fuel g table i limit = Some table' /\
    List.length table' = List.length table /\
    forall c, aget table' c = if (i <=? c) && (c <? limit) then g <$> aget table c else aget table c.
Proof.
  induction fuel as [|fuel IH]; intros table i Hi Hlim Hf; cbn [map_range];
    destruct (Z.ltb_spec i limit); [lia| | |];
    try (exists table; split_and!; [done|done|]; intros c; bit_cases; done).
  destruct (aget_is_Some table i) as [w Hw]; [lia|]. rewrite Hw. cbn [mbind option_bind].
  destruct (aset_is_Some table i (g w)) as [t1 Ht1]; [lia|]. rewrite Ht1. cbn [mbind option_bind].
  pose proof (aset_length _ _ _ _ Ht1) as Hl1.
  destruct (IH t1 (i + 1)) as (t2 & -> & Hl2 & H2); [lia|lia|lia|].
  exists t2. split_and!; [done|congruence|]. intros c. rewrite H2, (aget_aset _ _ _ c _ Ht1).
  destruct (Z.eqb_spec c i) as [->|].
  - rewrite Hw. bit_cases; done.
  - bit_cases; done.
Qed.

(** The bits of a table after [map_range]. *)
Lemma map_range_tb g limit fuel table i :
  List.length table = 64%nat -> 0 <= i -> limit <= 64 -> limit - i <= Z.of_nat fuel ->
  exists table', map_range fuel g table i limit = Some table' /\ List.length table' = 64%nat /\
    forall y t, 0 <= t < 64 -> exists w, tb table y t = Z.testbit w y /\
      tb table' y t = Z.testbit (if (i <=? t) && (t <? limit) then g w else w) y.
Proof.
  intros Hlen Hi Hlim Hf. destruct (map_range_spec g limit fuel table i) as (t' & -> & Hl & H);
    [lia|lia|lia|].
  exists t'. split_and!; [done|congruence|]. intros y t Ht.
  destruct (aget_is_Some table t) as [w Hw]; [lia|]. exists w. unfold tb. rewrite H, Hw.
  split; [done|]. by destruct (_ && _).
Qed.

Lemma containsSlow_spec list n la c lo hi t :
  holds list n la -> first_above la c t -> 0 <= lo -> lo <= t <= hi -> hi < n -> c < UNICODESET_HIGH ->
  containsSlow list c lo hi = Some (mem la c).
Proof.
  intros. unfold containsSlow. rewrite (findCodePoint_part list n la c lo hi t) by done.
  cbn [mbind option_bind]. by rewrite odd_land, (mem_first_above _ _ t).
Qed.

(** The slow search between two 4k indexes. *)
Lemma containsSlow4k_spec b la n c lo hi :
  holds b.(list_) n la -> starts_ok la b.(list4kStarts) n 18 ->
  0 <= lo < hi -> hi <= 0x11 -> key lo <= c -> (hi <= 0x10 -> c <= key hi) -> c < UNICODESET_HIGH ->
  containsSlow4k b c lo hi = Some (mem la c).
Proof.
  intros Hl [Hlen Hs] Hlo Hhi Hkl Hkh Hc. unfold containsSlow4k.
  destruct (Hs lo) as (x & -> & Hx & Hxf & _); [lia|].
  destruct (Hs hi) as (y & -> & Hy & Hyf & Hyl); [lia|]. cbn [mbind option_bind].
  destruct (first_above_exists _ n la c Hl Hc) as (t & Ht & Htn).
  apply (containsSlow_spec _ n la c x y t); try done; [lia| |lia]. split.
  - eapply first_above_mono; [apply Hxf; lia|exact Ht|done].
  - destruct (Z.eq_dec hi 0x11); [lia|].
    eapply first_above_mono; [exact Ht|apply Hyf; lia|apply Hkh; lia].
Qed.

(** ** Overriding the ill-formed values *)

Lemma bit_mask_d y : 0 <= y < 32 ->
  Z.testbit (uint32 (Z.lnot (Z.shiftl 0x10001 0xd))) y = negb ((y =? 0xd) || (y =? 0x1d)).
Proof.
  intros Hy. unfold uint32. change 4294967296 with (2 ^ 32).
  rewrite Z.mod_pow2_bits_low, Z.lnot_spec by lia. f_equal.
  change (Z.shiftl 0x10001 0xd) with (2 ^ 13 + 2 ^ 29).
  rewrite Z.add_nocarry_lxor, Z.lxor_spec, !Z.pow2_bits_eqb by (done || lia). bit_cases.
Qed.

Lemma bit_d y : Z.testbit (Z.shiftl 1 0xd) y = (0xd =? y).
Proof. change (Z.shiftl 1 0xd) with (2 ^ 13). by apply Z.pow2_bits_eqb. Qed.

Lemma bit_1 y : Z.testbit 1 y = (0 =? y).
Proof. change 1 with (2 ^ 0) at 1. by apply Z.pow2_bits_eqb. Qed.

Lemma bit_3 y : Z.testbit 3 y = (0 =? y) || (1 =? y).
Proof.
  change 3 with (2 ^ 0 + 2 ^ 1).
  rewrite Z.add_nocarry_lxor, Z.lxor_spec, !Z.pow2_bits_eqb by (done || lia). bit_cases.
Qed.

(** The second half of the 4k block of the surrogates. *)
Lemma override_surrogates (v : bool) blocks :
  List.length blocks = 64%nat ->
  let g w := if v then Z.lor (Z.land w (uint32 (Z.lnot (Z.shiftl 0x10001 0xd)))) (Z.shiftl 1 0xd)
             else Z.land w (uint32 (Z.lnot (Z.shiftl 0x10001 0xd))) in
  exists blocks', map_range 64 g blocks 32 64 = Some blocks' /\ List.length blocks' = 64%nat /\
    forall B, 0 <= B < 0x400 ->
      if (0x360 <=? B) && (B <? 0x380) then blk_up blocks' B = false /\ blk_low blocks' B = v
      else blk_up blocks' B = blk_up blocks B /\ blk_low blocks' B = blk_low blocks B.
Proof.
  intros Hlen g. destruct (map_range_tb g 64 64 blocks 32) as (b' & -> & Hl & H); [done|lia|lia|lia|].
  exists b'. split_and!; [done|done|]. intros B HB. unfold blk_up, blk_low.
  destruct (H (B / 64) (B mod 64)) as (w & -> & ->); [dlia|].
  destruct (H (B / 64 + 16) (B mod 64)) as (w' & -> & ->); [dlia|].
  rewrite (proj2 (Z.ltb_lt (B mod 64) 64)), andb_true_r by dlia.
  destruct (Z.leb_spec 32 (B mod 64)).
  - assert (Hbit : forall w y, 0 <= y < 32 -> Z.testbit (g w) y =
      if y =? 0xd then v else if y =? 0x1d then false else Z.testbit w y).
    { intros w0 y Hy. unfold g. destruct v; rewrite ?Z.lor_spec, Z.land_spec, bit_mask_d, ?bit_d by lia;
        destruct (Z.testbit w0 y); bit_cases. }
    rewrite !Hbit by dlia.
    destruct (Z.leb_spec 0x360 B), (Z.ltb_spec B 0x380); cbn [andb];
      repeat (zcase; try dlia); done.
  - rewrite (proj2 (andb_false_iff _ _)); [done|].
    destruct (Z.leb_spec 0x360 B), (Z.ltb_spec B 0x380); auto. exfalso; dlia.
Qed.

(** The first half of the first 4k block. *)
Lemma override_first blocks :
  List.length blocks = 64%nat ->
  exists blocks', map_range 64 (fun w => Z.lor w 1) blocks 0 32 = Some blocks' /\
    List.length blocks' = 64%nat /\
    forall B, 0 <= B < 0x400 ->
      blk_up blocks' B = blk_up blocks B /\ blk_low blocks' B = blk_low blocks B || (B <? 0x20).
Proof.
  intros Hlen. destruct (map_range_tb (fun w => Z.lor w 1) 32 64 blocks 0) as (b' & -> & Hl & H);
    [done|lia|lia|lia|].
  exists b'. split_and!; [done|done|]. intros B HB. unfold blk_up, blk_low.
  destruct (H (B / 64) (B mod 64)) as (w & -> & ->); [dlia|].
  destruct (H (B / 64 + 16) (B mod 64)) as (w' & -> & ->); [dlia|].
  rewrite (proj2 (Z.leb_le 0 (B mod 64))) by dlia. cbn [andb].
  destruct (Z.ltb_spec (B mod 64) 32); rewrite ?Z.lor_spec, ?bit_1.
  - split; [rewrite (proj2 (Z.eqb_neq _ _)), orb_false_r by dlia; done|]. f_equal. zcases; dlia.
  - split; [done|]. rewrite (proj2 (Z.ltb_ge _ _)), orb_false_r by dlia. done.
Qed.

Lemma overrideIllegal_ok bytes table blocks starts list n la :
  holds list n la -> starts_ok la starts n 18 -> ascii_inv (mem la) bytes 0x80 ->
  inv7FF (mem la) table 0x800 -> inv_blocks (mem la) blocks 0x400 ->
  exists b', overrideIllegal (mk bytes table blocks starts list n) = Some b' /\ bmp_ok b' la n.
Proof.
  intros Hl Hs [Hlb Hb] [Hlt Ht] (Hlk & Hlo & Hhi). unfold overrideIllegal.
  cbn [list4kStarts list_ asciiBytes table7FF bmpBlockBits listLength].
  pose proof (containsSlow4k_spec (mk bytes table blocks starts list n) la n 0xfffd 0xf 0x10 Hl Hs
    ltac:(lia) ltac:(lia) ltac:(by compute) ltac:(by compute) ltac:(by compute)) as Hslow.
  unfold containsSlow4k in Hslow. cbn [list4kStarts list_] in Hslow.
  destruct (aget starts 0xf) as [s0|]; [|done]. cbn [mbind option_bind] in Hslow |- *.
  destruct (aget starts 0x10) as [s1|]; [|done]. cbn [mbind option_bind] in Hslow |- *.
  rewrite Hslow. cbn [mbind option_bind].
  destruct (mem la 0xfffd) eqn:Hfffd.
  - destruct (map_range_spec (fun _ => 1) 0xc0 64 bytes 0x80) as (b1 & -> & Hl1 & H1);
      [lia|rewrite Hlb; lia|lia|]. cbn [mbind option_bind].
    destruct (map_range_tb (fun w => Z.lor w 3) 64 64 table 0) as (t1 & -> & Hl2 & H2);
      [done|lia|lia|lia|]. cbn [mbind option_bind].
    destruct (override_first blocks Hlk) as (k1 & -> & Hl3 & H3). cbn [mbind option_bind].
    destruct (override_surrogates true k1 Hl3) as (k2 & Hk2 & Hl4 & H4). cbn beta iota in Hk2.
    rewrite Hk2. cbn [mbind option_bind]. eexists. split; [done|].
    constructor; cbn [list_ list4kStarts asciiBytes table7FF bmpBlockBits listLength];
      try done; split; try congruence.
    + intros c Hc. rewrite H1. rewrite Hb by done.
      destruct (Z.ltb_spec c 0x80); bit_cases; cbn [andb fmap option_fmap option_map];
        rewrite ?Hfffd; done.
    + intros y t Hy Ht'. destruct (H2 y t Ht') as (w & Hw & ->). rewrite (proj2 (Z.leb_le 0 t)),
        (proj2 (Z.ltb_lt t 64)) by lia. cbn [andb]. rewrite Z.lor_spec, bit_3, <- Hw, Ht by done.
      destruct (Z.ltb_spec (64 * y + t) 0x80).
      * rewrite Hfffd. bit_cases; by rewrite ?orb_true_r.
      * bit_cases; by rewrite orb_false_r.
    + intros B HB. specialize (H4 B HB). destruct (H3 B HB) as [H3u H3l]. unfold illegal_block.
      destruct ((0x360 <=? B) && (B <? 0x380)); [by rewrite orb_true_r, Hfffd|].
      rewrite orb_false_r. destruct H4 as [H4u H4l]. unfold blk_ok. rewrite H4u, H4l, H3u, H3l.
      destruct (Z.ltb_spec B 0x20).
      * destruct (Hhi B) as [-> ->]; [done|by left|]. by rewrite Hfffd.
      * rewrite orb_false_r. apply Hlo; lia.
  - destruct (override_surrogates false blocks Hlk) as (k2 & Hk2 & Hl4 & H4). cbn beta iota in Hk2.
    rewrite Hk2. cbn [mbind option_bind]. eexists. split; [done|].
    constructor; cbn [list_ list4kStarts asciiBytes table7FF bmpBlockBits listLength];
      try done; split; try done.
    + intros c Hc. rewrite Hb by done. bit_cases; cbn [andb]; rewrite ?Hfffd; done.
    + intros y t Hy Ht'. rewrite Ht by done. destruct (Z.ltb_spec (64 * y + t) 0x80).
      * rewrite Hfffd. bit_cases; done.
      * bit_cases; done.
    + intros B HB. specialize (H4 B HB). unfold illegal_block.
      destruct ((0x360 <=? B) && (B <? 0x380)); [by rewrite orb_true_r, Hfffd|].
      rewrite orb_false_r. destruct H4 as [H4u H4l]. unfold blk_ok. rewrite H4u, H4l.
      destruct (Z.ltb_spec B 0x20).
      * destruct (Hhi B) as [-> ->]; [done|by left|]. by rewrite Hfffd.
      * apply Hlo; lia.
Qed.

Lemma aget_replicate m (x : Z) i : 0 <= i < Z.of_nat m -> aget (replicate m x) i = Some x.
Proof.
  intros. unfold aget. rewrite (proj2 (Z.leb_le _ _)) by lia. apply lookup_replicate_2. lia.
Qed.

Lemma tb_zero y t : 0 <= t < 64 -> tb (replicate 64 0) y t = false.
Proof. intros. unfold tb. rewrite aget_replicate by lia. apply Z.bits_0. Qed.

Lemma initBits_ok starts list n la :
  holds list n la ->
  exists bytes table blocks,
    initBits (mk (replicate 0xc0 0) (replicate 64 0) (replicate 64 0) starts list n) =
      Some (mk bytes table blocks starts list n) /\
    ascii_inv (mem la) bytes 0x80 /\ inv7FF (mem la) table 0x800 /\ inv_blocks (mem la) blocks 0x400.
Proof.
  intros Hl. unfold initBits. cbn [list_ listLength asciiBytes table7FF bmpBlockBits list4kStarts].
  destruct (at_range_first _ _ _ Hl) as (s & e & i & Hn & Hat & H0 & Hlow & Hk).
  pose proof Hl as (_ & Hnl & _). change 0 with (Z.of_nat 0) in Hn.
  destruct (initBits_ascii_spec list n la (mem la) Hl (Z.to_nat n) (replicate 0xc0 0) 0 i s e Hn Hat)
    as (bytes & s1 & j1 & e1 & Hrun & Hat1 & Hs1 & Hb1 & Hg1 & Hk1); [done|lia| |].
  { split; [done|]. intros c Hc. rewrite aget_replicate by lia.
    destruct (Z.ltb_spec c s); [by rewrite Hlow, andb_false_r|]. by rewrite andb_false_r. }
  change (Z.of_nat 0) with 0 in Hrun. rewrite Hrun. cbn [mbind option_bind].
  destruct (initBits_7FF_spec list n la (mem la) Hl (Z.to_nat n) (replicate 64 0) j1 s1 e1 Hat1)
    as (table & s2 & j2 & e2 & -> & Hat2 & Hs2 & Hb2 & Hg2 & Hk2); [done|done| |].
  { split; [done|]. intros y t Hy Ht. rewrite tb_zero by done.
    destruct (Z.leb_spec 0x80 (64 * y + t)), (Z.ltb_spec (64 * y + t) s1); cbn [andb]; try done.
    destruct (Z.lt_ge_cases (64 * y + t) s); [by rewrite Hlow|by rewrite Hg1]. }
  cbn [mbind option_bind].
  destruct (initBits_blocks_spec list n la (mem la) Hl (Z.to_nat n) (replicate 64 0) j2 s2 e2 0x800 0x20
    Hat2 Hs2 eq_refl) as (blocks & -> & Hb3); [lia|done| |].
  { rewrite Z.max_l by lia. split_and!; [done| |].
    - intros B HB HBs _ c Hc. unfold blk_low. rewrite tb_zero by dlia.
      assert (c < s2) by dlia.
      destruct (Z.lt_ge_cases c s); [by apply Hlow|].
      destruct (Z.lt_ge_cases c s1); [apply Hg1; lia|apply Hg2; lia].
    - intros B HB _. unfold blk_zero, blk_up, blk_low. by rewrite !tb_zero by dlia. }
  cbn [mbind option_bind]. by exists bytes, table, blocks.
Qed.

Lemma new_ok list n la : holds list n la -> exists b, new list n = Some b /\ bmp_ok b la n.
Proof.
  intros Hl. unfold new. pose proof Hl as (Hwf & Hn & _).
  assert (0 < n) by (destruct (holds_read _ _ _ Hl) as (? & ? & _ & _ & _ & _ & _ & ->); lia).
  destruct (first_above_exists list n la 0x800 Hl) as (t & Ht & Htn); [done|].
  rewrite (findCodePoint_part list n la _ _ _ t) by (done || lia). cbn [mbind option_bind].
  destruct (starts_push la (replicate 18 0) n 0 t) as (s1 & -> & Hs1);
    [split; [done|lia]|lia|lia|done|lia|]. cbn [mbind option_bind].
  destruct (init4k_loop_spec list n la Hl 16 s1 1) as (s2 & -> & Hs2); [done|lia|lia|].
  cbn [mbind option_bind].
  destruct (starts_push la s2 n 0x11 (n - 1)) as (s3 & -> & Hs3); [done|lia|lia|lia|done|].
  cbn [mbind option_bind].
  destruct (initBits_ok s3 list n la Hl) as (bytes & table & blocks & -> & H1 & H2 & H3).
  cbn [mbind option_bind]. by apply overrideIllegal_ok.
Qed.

(** ** Lookup *)

Lemma contains_ascii_spec b la n c :
  bmp_ok b la n -> 0 <= c < 0x80 -> contains_ascii b c = Some (mem la c).
Proof.
  intros Hok Hc. destruct (ok_ascii _ _ _ Hok) as [_ Hb]. unfold contains_ascii.
  rewrite Hb by lia. rewrite (proj2 (Z.ltb_lt _ _)) by lia. cbn. by destruct (mem la c).
Qed.

Lemma contains_7FF_spec b la n c :
  bmp_ok b la n -> 0x80 <= c < 0x800 -> contains_7FF b c = Some (mem la c).
Proof.
  intros Hok Hc. destruct (ok_7FF _ _ _ Hok) as [Hl Hb]. unfold contains_7FF.
  rewrite land63, shiftr6. specialize (Hb (c / 64) (c mod 64)). unfold tb in Hb.
  destruct (aget_is_Some b.(table7FF) (c mod 64)) as [w Hw]; [dlia|]. rewrite Hw in *.
  cbn [mbind option_bind]. replace (64 * (c / 64) + c mod 64) with c in Hb by dlia.
  rewrite (proj2 (Z.ltb_ge _ _)) in Hb by lia. rewrite <- Hb by dlia. f_equal.
  unfold uint32. rewrite Z.shiftl_1_l, Z.mod_small.
  2:{ change 4294967296 with (2 ^ 32). split; [lia|]. apply Z.pow_lt_mono_r; dlia. }
  assert (Hy : 0 <= c / 64) by dlia. revert Hy. generalize (c / 64). intros y Hy.
  destruct (Z.testbit w y) eqn:Hbit.
  - apply negb_true_iff, Z.eqb_neq. intros Hz. apply (f_equal (fun x => Z.testbit x y)) in Hz.
    rewrite Z.land_spec, Hbit, Z.pow2_bits_true, Z.bits_0 in Hz by lia. done.
  - apply negb_false_iff, Z.eqb_eq. apply Z.bits_inj'. intros k Hk.
    rewrite Z.land_spec, Z.pow2_bits_eqb, Z.bits_0 by lia.
    destruct (Z.eqb_spec y k) as [<-|]; [by rewrite Hbit|apply andb_false_r].
Qed.

(** The two bits of a block, as the lookup extracts them. *)
Lemma two_bits w lead :
  0 <= lead ->
  Z.land (Z.shiftr w lead) 0x10001 =
    (if Z.testbit w lead then 1 else 0) + (if Z.testbit w (lead + 16) then 0x10000 else 0).
Proof.
  intros Hl. set (p := Z.testbit w lead). set (q := Z.testbit w (lead + 16)).
  apply Z.bits_inj'. intros k Hk. rewrite Z.land_spec, Z.shiftr_spec by lia.
  assert (Hm : Z.testbit 0x10001 k = (0 =? k) || (16 =? k)).
  { change 0x10001 with (2 ^ 0 + 2 ^ 16).
    rewrite Z.add_nocarry_lxor, Z.lxor_spec, !Z.pow2_bits_eqb by (done || lia). bit_cases. }
  rewrite Hm.
  assert (Hr : Z.testbit ((if p then 1 else 0) + (if q then 0x10000 else 0)) k =
    (0 =? k) && p || (16 =? k) && q).
  { destruct p, q.
    - change (1 + 0x10000) with 0x10001. rewrite Hm. by rewrite !andb_true_r.
    - change (1 + 0) with 1. rewrite bit_1. by rewrite andb_true_r, andb_false_r, orb_false_r.
    - change (0 + 0x10000) with (2 ^ 16). rewrite Z.pow2_bits_eqb by lia.
      by rewrite andb_true_r, andb_false_r.
    - change (0 + 0) with 0. rewrite Z.bits_0. by rewrite !andb_false_r. }
  rewrite Hr. destruct (Z.eqb_spec 0 k) as [<-|].
  - cbn. replace (0 + lead) with lead by lia. fold p. by destruct p.
  - destruct (Z.eqb_spec 16 k) as [<-|]; cbn.
    + replace (16 + lead) with (lead + 16) by lia. fold q. by destruct q.
    + by rewrite andb_false_r.
Qed.

Lemma contains_bmp_spec b la n c :
  bmp_ok b la n -> 0x800 <= c < 0xd800 \/ 0xe000 <= c < 0x10000 -> contains_bmp b c = Some (mem la c).
Proof.
  intros Hok Hc. destruct (ok_blocks _ _ _ Hok) as [Hl Hb]. unfold contains_bmp.
  rewrite Z.shiftr_div_pow2, shiftr6, land63 by lia. change (2 ^ 12) with 4096.
  specialize (Hb (c / 64) ltac:(dlia)). unfold blk_ok, blk_up, blk_low, tb in Hb.
  replace (illegal_block (c / 64)) with false in Hb.
  2:{ unfold illegal_block. symmetry. bit_cases; dlia. }
  replace (c / 64 / 64) with (c / 4096) in Hb by dlia.
  destruct (aget_is_Some b.(bmpBlockBits) (c / 64 mod 64)) as [w Hw]; [dlia|]. rewrite Hw in *.
  cbn [mbind option_bind]. rewrite two_bits by dlia.
  destruct (Z.testbit w (c / 4096 + 16)) eqn:Hup.
  - assert (Hgt : ((if Z.testbit w (c / 4096) then 1 else 0) + 65536 <=? 1) = false)
      by (by destruct (Z.testbit w (c / 4096))).
    rewrite Hgt. apply (containsSlow4k_spec b la n c (c / 4096) (c / 4096 + 1)).
    + apply Hok.
    + apply Hok.
    + dlia.
    + dlia.
    + unfold key. zcase; dlia.
    + intros _. unfold key. zcase; dlia.
    + unfold UNICODESET_HIGH. lia.
  - rewrite (Hb eq_refl c) by dlia. by destruct (Z.testbit w (c / 4096)).
Qed.

Lemma bmp_contains_spec b la n c :
  bmp_ok b la n -> is_int32 c -> contains b c = Some (mem la c).
Proof.
  intros Hok Hc. unfold contains, is_int32, INT32_MIN, INT32_MAX in *.
  pose proof (ok_list _ _ _ Hok) as (Hwf & _ & _).
  destruct (Z.lt_ge_cases c 0) as [Hneg|Hpos].
  - assert (Hu : uint32 c = c + 4294967296) by (unfold uint32; dlia). rewrite Hu, mem_neg by done.
    rewrite Z.geb_leb. bit_cases.
  - assert (Hu : uint32 c = c) by (unfold uint32; dlia). rewrite Hu.
    destruct (Z.leb_spec c 0x7f); [apply (contains_ascii_spec b la n); done || lia|].
    destruct (Z.leb_spec c 0x7ff); [apply (contains_7FF_spec b la n); done || lia|].
    destruct (_ || _) eqn:Hbmp.
    { apply (contains_bmp_spec b la n); [done|].
      apply orb_true_iff in Hbmp as [H1%Z.ltb_lt|[H1 H2%Z.leb_le]%andb_prop]; [lia|].
      rewrite Z.geb_leb in H1. apply Z.leb_le in H1. lia. }
    apply orb_false_iff in Hbmp as [H1%Z.ltb_ge H2].
    destruct (Z.leb_spec c 0x10ffff).
    + apply (containsSlow4k_spec b la n); [apply Hok|apply Hok|lia|lia| |lia|unfold UNICODESET_HIGH; lia].
      change (key 0xd) with 0xd000. lia.
    + rewrite mem_high; [done|unfold UNICODESET_HIGH; lia].
Qed.

(** ** Spans *)

Fixpoint take_while (p : Z -> bool) (l : list Z) : list Z :=
  match l with [] => [] | x :: l' => if p x then x :: take_while p l' else [] end.

(** The number of UTF-16 units of some code points. *)
Definition units (l : list Z) : Z := foldr (fun c n => U16_LENGTH c + n) 0 l.

(** The part of the text between two indexes. *)
Definition part (text : list Z) (s limit : nat) : list Z := drop s (take limit text).

Lemma part_get text (s limit k : nat) x :
  part text s limit !! k = Some x -> aget text (Z.of_nat (s + k)) = Some x /\ (s + k < limit)%nat.
Proof.
  unfold part. rewrite lookup_drop. intros H. apply lookup_lt_Some in H as Hlt.
  rewrite length_take in Hlt. rewrite lookup_take_lt in H by lia. rewrite aget_nat. split; [done|lia].
Qed.

Lemma part_length text (s limit : nat) :
  (s <= limit <= List.length text)%nat -> List.length (part text s limit) = (limit - s)%nat.
Proof. intros. unfold part. rewrite length_drop, length_take. lia. Qed.

Lemma part_drop text (s limit k : nat) : drop k (part text s limit) = part text (s + k) limit.
Proof. unfold part. by rewrite drop_drop. Qed.

Section Spans.
Context (b : BMPSet) (la : list Z) (n : Z) (text : list Z).
Hypothesis b_ok : bmp_ok b la n.
Hypothesis text_units : is_string text.

Lemma part_unit (s limit k : nat) x : part text s limit !! k = Some x -> 0 <= x < 0x10000.
Proof.
  intros [H _]%part_get. rewrite aget_nat in H.
  by apply (Forall_lookup_1 is_uint16 text (s + k)).
Qed.

(** The lookup of a code point that is not a surrogate, shared by the spans. *)
Lemma span_bmp c (k : option (bool * Z)) :
  0 <= c < 0x10000 ->
  (if c <=? 0x7f then r ← contains_ascii b c; Some (r, 1)
   else if c <=? 0x7ff then r ← contains_7FF b c; Some (r, 1)
   else if (c <? 0xd800) || (c >=? 0xe000) then r ← contains_bmp b c; Some (r, 1) else k) =
  if U_IS_SURROGATE c then k else Some (mem la c, 1).
Proof.
  intros Hc. rewrite U_IS_SURROGATE_spec by lia.
  destruct (Z.leb_spec c 0x7f).
  { rewrite (contains_ascii_spec b la n) by (done || lia). by rewrite (proj2 (Z.leb_gt _ _)) by lia. }
  destruct (Z.leb_spec c 0x7ff).
  { rewrite (contains_7FF_spec b la n) by (done || lia). by rewrite (proj2 (Z.leb_gt _ _)) by lia. }
  rewrite Z.geb_leb.
  destruct (Z.ltb_spec c 0xd800), (Z.leb_spec 0xe000 c); cbn [orb]; try lia.
  - rewrite (contains_bmp_spec b la n) by (done || lia). by rewrite (proj2 (Z.leb_gt _ _)) by lia.
  - rewrite (contains_bmp_spec b la n) by (done || lia).
    by rewrite (proj2 (Z.ltb_ge c 0xe000)), andb_false_r by lia.
  - by rewrite (proj2 (Z.leb_le _ _)), (proj2 (Z.ltb_lt _ _)) by lia.
Qed.

Lemma surrogate_slow c hi :
  0xd000 <= c < 0xe000 -> hi = 0xe \/ hi = 0x11 ->
  containsSlow4k b c 0xd hi = Some (mem la c).
Proof.
  intros Hc Hhi. apply (containsSlow4k_spec b la n); [apply b_ok|apply b_ok|lia|lia| | |].
  - change (key 0xd) with 0xd000. lia.
  - intros. destruct Hhi as [->| ->]; [change (key 0xe) with 0xe000; lia|lia].
  - unfold UNICODESET_HIGH. lia.
Qed.

Lemma supplementary_slow c :
  0x10000 <= c < 0x110000 -> containsSlow4k b c 0x10 0x11 = Some (mem la c).
Proof.
  intros Hc. apply (containsSlow4k_spec b la n); [apply b_ok|apply b_ok|lia|lia| |lia|].
  - change (key 0x10) with 0x10000. lia.
  - unfold UNICODESET_HIGH. lia.
Qed.

Lemma supplementary_range l t :
  0xd800 <= l < 0xdc00 -> 0xdc00 <= t < 0xe000 -> 0x10000 <= U16_GET_SUPPLEMENTARY l t < 0x110000.
Proof. intros. rewrite U16_GET_SUPPLEMENTARY_eq. lia. Qed.

(** One round looks up the first code point. *)
Lemma span_test_spec (s limit : nat) :
  (s < limit <= List.length text)%nat ->
  exists x k, span_test b text (Z.of_nat s) (Z.of_nat limit) = Some (mem la x, Z.of_nat k) /\
    code_points (part text s limit) = x :: code_points (part text (s + k) limit) /\
    U16_LENGTH x = Z.of_nat k /\ (0 < k)%nat /\ (s + k <= limit)%nat.
Proof.
  intros Hs. pose proof (part_length text s limit ltac:(lia)) as Hlen.
  destruct (part text s limit) as [|c rest] eqn:Hp; [simpl in Hlen; lia|].
  destruct (part_get text s limit 0 c) as [Hc _]; [by rewrite Hp|].
  pose proof (part_unit s limit 0 c ltac:(by rewrite Hp)) as Hcu.
  rewrite Nat.add_0_r in Hc. unfold span_test. rewrite Hc. cbn [mbind option_bind].
  rewrite span_bmp by done. rewrite U_IS_SURROGATE_spec by lia.
  assert (Hsingle : code_points (c :: rest) = c :: code_points rest ->
    Some (mem la c, 1) = Some (mem la c, Z.of_nat 1) /\
    code_points (c :: rest) = c :: code_points (part text (s + 1) limit) /\
    U16_LENGTH c = Z.of_nat 1 /\ (0 < 1)%nat /\ (s + 1 <= limit)%nat).
  { intros Hcp. rewrite <- part_drop, Hp, U16_LENGTH_spec by lia.
    rewrite (proj2 (Z.ltb_lt _ _)) by lia. split_and!; done || lia. }
  assert (Hnl : U16_IS_LEAD c = false -> code_points (c :: rest) = c :: code_points rest).
  { intros Hl. rewrite code_points_cons. destruct rest; [done|]. by rewrite Hl. }
  pose proof (U16_IS_LEAD_spec c ltac:(lia)) as HL.
  destruct (Z.leb_spec 0xd800 c) as [H1|H1], (Z.ltb_spec c 0xe000) as [H2|H2]; cbn [andb] in HL |- *;
    [|exists c, 1%nat; apply Hsingle, Hnl; rewrite HL; zcases; done..].
  rewrite surrogate_slow by lia. cbn [mbind option_bind]. rewrite Z.geb_leb.
  destruct (Z.leb_spec 0xdc00 c) as [H3|H3]; cbn [orb].
  { exists c, 1%nat. rewrite (proj2 (Z.ltb_ge _ _)) in HL by lia. auto. }
  rewrite (proj2 (Z.ltb_lt _ _)) in HL by lia.
  destruct (Z.eqb_spec (Z.of_nat s + 1) (Z.of_nat limit)) as [He|Hne].
  { destruct rest; [|simpl in Hlen; lia]. exists c, 1%nat. auto. }
  destruct rest as [|t rest]; [simpl in Hlen; lia|].
  destruct (part_get text s limit 1 t) as [Ht _]; [by rewrite Hp|].
  pose proof (part_unit s limit 1 t ltac:(by rewrite Hp)) as Htu.
  replace (Z.of_nat (s + 1)) with (Z.of_nat s + 1) in Ht by lia. rewrite Ht. cbn [mbind option_bind].
  pose proof (U16_IS_TRAIL_spec t ltac:(lia)) as HT. rewrite Z.geb_leb.
  destruct (Z.ltb_spec t 0xdc00), (Z.leb_spec 0xe000 t); cbn [orb]; try lia.
  - exists c, 1%nat. apply Hsingle. rewrite code_points_cons, HT.
    rewrite (proj2 (Z.leb_gt _ _)) by lia. by rewrite andb_false_r.
  - exists c, 1%nat. apply Hsingle. rewrite code_points_cons, HT.
    rewrite (proj2 (Z.ltb_ge _ _)) by lia. by rewrite !andb_false_r.
  - pose proof (supplementary_range c t ltac:(lia) ltac:(lia)) as Hx.
    rewrite supplementary_slow by lia. cbn [mbind option_bind].
    rewrite (proj2 (Z.leb_le _ _)), (proj2 (Z.ltb_lt _ _)) in HT by lia.
    exists (U16_GET_SUPPLEMENTARY c t), 2%nat. rewrite <- part_drop, Hp.
    rewrite code_points_cons, HL, HT, U16_LENGTH_spec by lia.
    rewrite (proj2 (Z.ltb_ge _ _)) by lia. simpl in Hlen. split_and!; done || lia.
Qed.

Lemma span_loop_spec cond : forall fuel (s limit : nat),
  (s < limit <= List.length text)%nat -> (limit - s <= fuel)%nat ->
  span_loop fuel b text (Z.of_nat s) (Z.of_nat limit) cond =
    Some (Z.of_nat s +
      units (take_while (fun c => Bool.eqb (mem la c) cond) (code_points (part text s limit)))).
Proof.
  induction fuel as [|fuel IH]; intros s limit Hs Hf; [lia|]. cbn [span_loop].
  destruct (span_test_spec s limit Hs) as (x & k & -> & -> & Hk & Hk0 & Hkl). cbn [mbind option_bind].
  cbn [take_while]. destruct (Bool.eqb (mem la x) cond) eqn:Hx; cbn [negb].
  - cbn [units foldr]. rewrite Hk. replace (Z.of_nat s + Z.of_nat k) with (Z.of_nat (s + k)) by lia.
    destruct (Z.ltb_spec (Z.of_nat (s + k)) (Z.of_nat limit)).
    + rewrite IH by lia. f_equal. unfold units. lia.
    + assert (Hnil : part text (s + k) limit = []).
      { apply nil_length_inv. rewrite part_length by lia. lia. }
      rewrite Hnil. cbn. f_equal. lia.
  - cbn. f_equal. lia.
Qed.

Lemma part_take (s limit k : nat) :
  (s + k <= limit)%nat -> (limit <= List.length text)%nat ->
  take (limit - s - k) (part text s limit) = part text s (limit - k).
Proof.
  intros. unfold part. rewrite !skipn_firstn_comm, take_take. f_equal. lia.
Qed.

(** One round backwards looks up the last code point. *)
Lemma spanBack_test_spec (s limit : nat) :
  (s < limit <= List.length text)%nat ->
  exists x k, spanBack_test b text (Z.of_nat s) (Z.of_nat limit) = Some (mem la x, Z.of_nat k) /\
    code_points (part text s limit) = code_points (part text s (limit - k)) ++ [x] /\
    U16_LENGTH x = Z.of_nat k /\ (0 < k)%nat /\ (s + k <= limit)%nat.
Proof.
  intros Hs. pose proof (part_length text s limit ltac:(lia)) as Hlen.
  destruct (part text s limit) as [|c u _] eqn:Hp using rev_ind; [simpl in Hlen; lia|].
  rewrite length_app in Hlen. simpl in Hlen.
  pose proof (list_lookup_middle u [] c (List.length u) eq_refl) as Hu.
  destruct (part_get text s limit (List.length u) c) as [Hc _]; [by rewrite Hp|].
  pose proof (part_unit s limit (List.length u) c ltac:(by rewrite Hp)) as Hcu.
  assert (Hpu : forall k, (s + k <= limit)%nat -> part text s (limit - k) = take (limit - s - k) (u ++ [c])).
  { intros k Hk. rewrite <- Hp. symmetry. apply part_take; lia. }
  unfold spanBack_test. replace (Z.of_nat limit - 1) with (Z.of_nat (s + List.length u)) by lia.
  rewrite Hc. cbn [mbind option_bind]. rewrite span_bmp by done. rewrite U_IS_SURROGATE_spec by lia.
  assert (Hsingle : boundary u [c] ->
    Some (mem la c, 1) = Some (mem la c, Z.of_nat 1) /\
    code_points (u ++ [c]) = code_points (part text s (limit - 1)) ++ [c] /\
    U16_LENGTH c = Z.of_nat 1 /\ (0 < 1)%nat /\ (s + 1 <= limit)%nat).
  { intros Hb. rewrite Hpu, U16_LENGTH_spec, (proj2 (Z.ltb_lt _ _)) by lia.
    rewrite code_points_snoc by done. replace (limit - s - 1)%nat with (List.length u) by lia.
    rewrite take_app_length. split_and!; done || lia. }
  pose proof (U16_IS_TRAIL_spec c ltac:(lia)) as HT.
  assert (Hnt : U16_IS_TRAIL c = false -> boundary u [c]).
  { intros Hf l t _ [= <-]. by rewrite Hf, andb_false_r. }
  destruct (Z.leb_spec 0xd800 c) as [H1|H1], (Z.ltb_spec c 0xe000) as [H2|H2]; cbn [andb];
    [|exists c, 1%nat; apply Hsingle, Hnt; rewrite HT; zcases; done..].
  rewrite surrogate_slow by lia. cbn [mbind option_bind].
  destruct (Z.ltb_spec c 0xdc00) as [H3|H3]; cbn [orb].
  { exists c, 1%nat. apply Hsingle, Hnt. rewrite HT. zcases; done. }
  assert (HTt : U16_IS_TRAIL c = true) by (rewrite HT; bit_cases).
  destruct u as [|l u _] using rev_ind.
  { rewrite (proj2 (Z.eqb_eq _ _)) by (simpl in *; lia). exists c, 1%nat. by apply Hsingle. }
  rewrite length_app in *. simpl in Hlen, Hu.
  rewrite (proj2 (Z.eqb_neq _ _)) by (simpl in *; lia).
  destruct (part_get text s limit (List.length u) l) as [Hl _].
  { rewrite Hp, <- app_assoc. by apply list_lookup_middle. }
  pose proof (part_unit s limit (List.length u) l) as Hlu.
  rewrite Hp, <- app_assoc in Hlu. specialize (Hlu (list_lookup_middle u [c] l _ eq_refl)).
  replace (Z.of_nat limit - 2) with (Z.of_nat (s + List.length u)) by lia. rewrite Hl.
  cbn [mbind option_bind]. pose proof (U16_IS_LEAD_spec l ltac:(lia)) as HL. rewrite Z.geb_leb.
  destruct (U16_IS_LEAD l) eqn:HLl.
  - symmetry in HL. apply andb_prop in HL as [HL1%Z.leb_le HL2%Z.ltb_lt].
    rewrite (proj2 (Z.ltb_ge _ _)), (proj2 (Z.leb_gt _ _)) by lia. cbn [orb].
    pose proof (supplementary_range l c ltac:(lia) ltac:(lia)) as Hx.
    rewrite supplementary_slow by lia. cbn [mbind option_bind].
    exists (U16_GET_SUPPLEMENTARY l c), 2%nat. rewrite Hpu by lia.
    rewrite <- app_assoc. cbn [app]. rewrite code_points_snoc_pair, U16_LENGTH_spec by (done || lia).
    rewrite (proj2 (Z.ltb_ge _ _)) by lia.
    replace (limit - s - 2)%nat with (List.length u) by lia. rewrite take_app_length.
    split_and!; done || lia.
  - exists c, 1%nat.
    assert (Hb : boundary (u ++ [l]) [c]).
    { intros l' t Hl' _. rewrite last_snoc in Hl'. simplify_eq. by rewrite HLl. }
    destruct (Z.ltb_spec l 0xd800), (Z.leb_spec 0xdc00 l); cbn [orb];
      [by apply Hsingle..|].
    rewrite (proj2 (Z.leb_le _ _)), (proj2 (Z.ltb_lt _ _)) in HL by lia. done.
Qed.

Lemma spanBack_loop_spec cond : forall fuel (s limit : nat),
  (s < limit <= List.length text)%nat -> (limit - s <= fuel)%nat ->
  spanBack_loop fuel b text (Z.of_nat s) (Z.of_nat limit) cond =
    Some (Z.of_nat limit -
      units (take_while (fun c => Bool.eqb (mem la c) cond) (rev (code_points (part text s limit))))).
Proof.
  induction fuel as [|fuel IH]; intros s limit Hs Hf; [lia|]. cbn [spanBack_loop].
  destruct (spanBack_test_spec s limit Hs) as (x & k & -> & -> & Hk & Hk0 & Hkl).
  cbn [mbind option_bind]. rewrite rev_unit.
  cbn [take_while]. destruct (Bool.eqb (mem la x) cond) eqn:Hx; cbn [negb].
  - cbn [units foldr]. rewrite Hk.
    replace (Z.of_nat limit - Z.of_nat k) with (Z.of_nat (limit - k)) by lia.
    destruct (Z.eqb_spec (Z.of_nat s) (Z.of_nat (limit - k))) as [He|Hne].
    + assert (Hnil : part text s (limit - k) = []).
      { apply nil_length_inv. rewrite part_length by lia. lia. }
      rewrite Hnil. cbn. f_equal. lia.
    + rewrite IH by lia. f_equal. unfold units. lia.
  - cbn. f_equal. lia.
Qed.
End Spans.

(** ** The results *)

(** C2: the tables built from an inversion list answer [contains] for every
    argument as the list does. *)
Theorem bmp_contains_correct list n la c :
  holds list n la -> is_int32 c ->
  exists b, new list n = Some b /\ contains b c = Some (mem la c).
Proof.
  intros Hl Hc. destruct (new_ok list n la Hl) as (b & Hb & Hok). exists b. split; [done|].
  by eapply bmp_contains_spec.
Qed.

(** C27: [span] stops after the longest prefix of the text, in code points, that
    is in the set, or out of it. *)
Theorem bmp_span_correct list n la text (s limit : nat) cond :
  holds list n la -> is_string text -> (s < limit <= List.length text)%nat ->
  exists b, new list n = Some b /\
    span b text (Z.of_nat s) (Z.of_nat limit) cond =
      Some (Z.of_nat s +
        units (take_while (fun c => Bool.eqb (mem la c) cond) (code_points (part text s limit)))).
Proof.
  intros Hl Ht Hs. destruct (new_ok list n la Hl) as (b & Hb & Hok). exists b. split; [done|].
  unfold span. rewrite <- Nat2Z.inj_sub, Nat2Z.id by lia. by eapply span_loop_spec.
Qed.

(** [spanBack] stops before the longest suffix of the text, in code points,
    that is in the set, or out of it. *)
Theorem bmp_spanBack_correct list n la text (s limit : nat) cond :
  holds list n la -> is_string text -> (s < limit <= List.length text)%nat ->
  exists b, new list n = Some b /\
    spanBack b text (Z.of_nat s) (Z.of_nat limit) cond =
      Some (Z.of_nat limit -
        units (take_while (fun c => Bool.eqb (mem la c) cond) (rev (code_points (part text s limit))))).
Proof.
  intros Hl Ht Hs. destruct (new_ok list n la Hl) as (b & Hb & Hok). exists b. split; [done|].
  unfold spanBack. rewrite <- Nat2Z.inj_sub, Nat2Z.id by lia. by eapply spanBack_loop_spec.
Qed.

(** [[a-z\U00010400-\U0010044F]] *)
Definition letters : list Z := [0x61; 0x7b; 0x10400; 0x10450; UNICODESET_HIGH].

(** "ab" U+10400 "!" *)
Definition letters_text : list Z := [0x61; 0x62; 0xd801; 0xdc00; 0x21].

Lemma letters_holds : holds letters 5 letters.
Proof.
  unfold letters, UNICODESET_HIGH. split; [split; [split|]|].
  - repeat (constructor; [|repeat (constructor; [lia|]); constructor]). constructor.
  - reflexivity.
  - repeat (constructor; [lia|]). constructor.
  - split; [reflexivity|]. exists []. reflexivity.
Qed.

Lemma letters_text_units : is_string letters_text.
Proof. repeat (constructor; [unfold is_uint16; lia|]). constructor. Qed.

Lemma bmp_contains_correct_witness :
  exists b, new letters 5 = Some b /\ contains b 0x10401 = Some (mem letters 0x10401).
Proof.
  apply (bmp_contains_correct letters 5 letters 0x10401 letters_holds).
  unfold is_int32, INT32_MIN, INT32_MAX. lia.
Defined.

Lemma bmp_span_correct_witness :
  exists b, new letters 5 = Some b /\
    span b letters_text 0 5 true =
      Some (0 + units (take_while (fun c => Bool.eqb (mem letters c) true)
                         (code_points (part letters_text 0 5)))).
Proof.
  apply (bmp_span_correct letters 5 letters letters_text 0 5 true letters_holds letters_text_units).
  split; [lia|simpl; lia].
Defined.

Lemma bmp_spanBack_correct_witness :
  exists b, new letters 5 = Some b /\
    spanBack b letters_text 0 4 true =
      Some (4 - units (take_while (fun c => Bool.eqb (mem letters c) true)
                         (rev (code_points (part letters_text 0 4))))).
Proof.
  apply (bmp_spanBack_correct letters 5 letters letters_text 0 4 true letters_holds letters_text_units).
  split; [lia|simpl; lia].
Defined.

End BMPSet.
