(* ===== verification/StringVector.v ===== *)
(** * The vector of strings of a UnicodeSet
    (src/common/uniset.cpp, src/common/unistr.cpp)

    What the set relies on is the class [StringVector]: the operations of a
    [UVector] of [UnicodeString] objects with their laws.  [UVector] is an
    instance, with the deleter, comparer, assigner and comparator that the set
    passes to it. *)
From S2P Require Import Prelude Utf16 UVector.

Local Open Scope Z_scope.

#[export] Existing Instance UVector.UElement_eq_dec.

(** The elements at odd positions. *)
Fixpoint odds {B} (l : list B) : list B :=
  match l with _ :: y :: l' => y :: odds l' | _ => [] end.

(** Strings sorted by code units. *)
Definition lex_le (s t : UnicodeString) : Prop := lex s t <= 0.

Class StringVector (V : Type) := {
  sv_new : UErrorCode -> V * UErrorCode;
  sv_size : V -> Z;
  sv_elementAt : V -> Z -> option UnicodeString;
  sv_contains : V -> UnicodeString -> option bool;
  sv_containsAll : V -> V -> option bool;
  sv_containsNone : V -> V -> option bool;
  sv_eq : V -> V -> option bool;
  sv_sortedInsert : V -> UnicodeString -> UErrorCode -> option (V * UErrorCode);
  sv_removeElement : V -> UnicodeString -> option (bool * V);
  sv_removeAllElements : V -> option V;
  sv_removeAll : V -> option V -> option V;  (* None: the vector itself *)
  sv_retainAll : V -> option V -> option V;
  sv_assign : V -> V -> UErrorCode -> option (V * UErrorCode);

  sv_ok : V -> Prop;
  sv_contents : V -> list UnicodeString;

  sv_new_law v : forall st, sv_new U_ZERO_ERROR = (v, st) -> U_SUCCESS st = true ->
    sv_ok v /\ sv_contents v = [];
  sv_strings_law v : sv_ok v -> Forall is_string (sv_contents v);
  sv_size_law v : sv_ok v -> sv_size v = Z.of_nat (length (sv_contents v));
  sv_elementAt_law v i s : sv_ok v -> sv_contents v !! i = Some s ->
    sv_elementAt v (Z.of_nat i) = Some s;
  sv_contains_law v s : sv_ok v -> sv_contains v s = Some (bool_decide (s ∈ sv_contents v));
  sv_containsAll_law v o : sv_ok v -> sv_ok o ->
    sv_containsAll v o = Some (bool_decide (Forall (fun s => s ∈ sv_contents v) (sv_contents o)));
  sv_containsNone_law v o : sv_ok v -> sv_ok o ->
    sv_containsNone v o = Some (bool_decide (Forall (fun s => s ∉ sv_contents v) (sv_contents o)));
  sv_eq_law v o : sv_ok v -> sv_ok o ->
    sv_eq v o = Some (bool_decide (sv_contents v = sv_contents o));
  sv_sortedInsert_law v s st : sv_ok v -> is_string s -> Sorted lex_le (sv_contents v) ->
    exists v' st', sv_sortedInsert v s st = Some (v', st') /\ sv_ok v' /\
      ((st' = st /\ exists i, sv_contents v' = insert_at i s (sv_contents v) /\
         Sorted lex_le (sv_contents v')) \/
       (U_FAILURE st' = true /\ v' = v));
  sv_removeElement_law v s : sv_ok v ->
    exists v', sv_removeElement v s = Some (bool_decide (s ∈ sv_contents v), v') /\ sv_ok v' /\
      sv_contents v' = remove_first s (sv_contents v);
  sv_removeAllElements_law v : sv_ok v ->
    exists v', sv_removeAllElements v = Some v' /\ sv_ok v' /\ sv_contents v' = [];
  sv_removeAll_law v o : sv_ok v -> sv_ok o -> NoDup (sv_contents v) ->
    exists v', sv_removeAll v (Some o) = Some v' /\ sv_ok v' /\
      sv_contents v' = filter (fun s => s ∉ sv_contents o) (sv_contents v);
  sv_removeAll_self_law v : sv_ok v -> NoDup (sv_contents v) ->
    exists v', sv_removeAll v None = Some v' /\ sv_ok v' /\ sv_contents v' = odds (sv_contents v);
  sv_retainAll_law v o : sv_ok v -> sv_ok o ->
    exists v', sv_retainAll v (Some o) = Some v' /\ sv_ok v' /\
      sv_contents v' = filter (fun s => s ∈ sv_contents o) (sv_contents v);
  sv_assign_law v o st : sv_ok v -> sv_ok o -> U_SUCCESS st = true ->
    exists v' st', sv_assign v o st = Some (v', st') /\
      sv_ok v' /\ (U_SUCCESS st' = true -> sv_contents v' = sv_contents o) /\
      (U_SUCCESS st' = false -> sv_contents v' = sv_contents v)
}.

(** ** The functions the set passes to its UVector *)

(** [uhash_compareUnicodeString] (common/unistr.cpp); no cell of the vector is an
    integer. *)
Definition uhash_compareUnicodeString (key1 key2 : UVector.UElement UnicodeString) : bool :=
  match key1, key2 with
  | UVector.Pointer str1, UVector.Pointer str2 => bool_decide (str1 = str2)
  | UVector.Null, UVector.Null => true
  | UVector.Integer n, UVector.Integer m => bool_decide (n = m)
  | _, _ => false
  end.

(** [compareUnicodeString] (common/uniset.cpp); both elements are pointers. *)
Definition compareUnicodeString (t1 t2 : UVector.UElement UnicodeString) : Z :=
  match t1, t2 with
  | UVector.Pointer a, UVector.Pointer b => compare a b
  | _, _ => 0
  end.

(** [cloneUnicodeString] (common/uniset.cpp): a new string with the same
    contents. *)
Definition cloneUnicodeString (src : UVector.UElement UnicodeString)
  : UVector.UElement UnicodeString := src.

(** ** UVector implements the interface *)

Section Instance_.
Context {alloc : Allocator (UVector.UElement UnicodeString)}.
Local Abbreviation V := (UVector.UVector UnicodeString).

Definition element_string (e : UVector.UElement UnicodeString) : option UnicodeString :=
  match e with UVector.Pointer s => Some s | _ => None end.

Definition vec_ref_of (o : option V) : UVector.vec_ref UnicodeString :=
  match o with Some v => UVector.Other v | None => UVector.Self end.

Definition uv_contents (v : V) : list UnicodeString := omap element_string (UVector.contents v).

Record uv_ok (v : V) : Prop := {
  uv_wf : UVector.wf v;
  uv_comparer : UVector.comparer v = Some uhash_compareUnicodeString;
  uv_pointers : UVector.contents v = UVector.Pointer <$> uv_contents v;
  uv_strings : Forall is_string (uv_contents v)
}.

Lemma uv_equal v : uv_ok v -> UVector.compares_equal v.
Proof.
  intros Hok. exists uhash_compareUnicodeString. split; [apply Hok|].
  intros x y. symmetry. destruct x, y; simpl; try done.
  - apply bool_decide_ext. split; congruence.
  - apply bool_decide_ext. split; congruence.
Qed.

Lemma omap_pointers (l : list UnicodeString) : omap element_string (UVector.Pointer <$> l) = l.
Proof. induction l as [|s l IH]; [done|]. simpl. f_equal. exact IH. Qed.

(** A vector of the same kind whose cells are some strings. *)
Lemma uv_ok_intro v v' l :
  uv_ok v -> UVector.wf v' -> UVector.same_kind v v' -> UVector.contents v' = UVector.Pointer <$> l ->
  Forall is_string l -> uv_ok v' /\ uv_contents v' = l.
Proof.
  intros Hok Hw [_ Hk] Hc Hl. assert (Hl' : uv_contents v' = l).
  { unfold uv_contents. by rewrite Hc, omap_pointers. }
  split; [|done]. constructor; [done|rewrite Hk; apply Hok|by rewrite Hl'|by rewrite Hl'].
Qed.

Lemma pointer_in s l : UVector.Pointer s ∈ (UVector.Pointer <$> l : list (UVector.UElement UnicodeString)) <-> s ∈ l.
Proof.
  rewrite list_elem_of_fmap. split; [by intros (? & [= ->] & ?)|]. intros ?. by exists s.
Qed.

Lemma uv_in v s : uv_ok v -> UVector.Pointer s ∈ UVector.contents v <-> s ∈ uv_contents v.
Proof. intros Hok. rewrite (uv_pointers _ Hok). apply pointer_in. Qed.

Lemma fmap_filter_pointers (P : UnicodeString -> Prop) (Q : UVector.UElement UnicodeString -> Prop)
    `{forall s, Decision (P s)} `{forall e, Decision (Q e)}
    (l : list UnicodeString) :
  (forall s, Q (UVector.Pointer s) <-> P s) ->
  filter Q (UVector.Pointer <$> l) = UVector.Pointer <$> filter P l.
Proof.
  intros HPQ. induction l as [|s l IH]; [done|]. cbn [fmap list_fmap].
  destruct (decide (P s)).
  - rewrite !filter_cons_True by (done || by apply HPQ). cbn. f_equal. exact IH.
  - rewrite !filter_cons_False by (done || by rewrite HPQ). exact IH.
Qed.

Lemma index_of_pointers s (l : list UnicodeString) : index_of (UVector.Pointer s) (UVector.Pointer <$> l) = index_of s l.
Proof.
  induction l as [|t l IH]; [done|]. cbn [fmap list_fmap]. rewrite !index_of_cons, <- IH.
  destruct (decide (s = t)) as [->|Hne]; [by rewrite decide_True|].
  by rewrite decide_False by congruence.
Qed.

Lemma remove_first_pointers s (l : list UnicodeString) :
  remove_first (UVector.Pointer s) (UVector.Pointer <$> l) = UVector.Pointer <$> remove_first s l.
Proof.
  rewrite !remove_first_index_of, index_of_pointers. destruct (_ <? 0); [done|].
  unfold remove_at. by rewrite fmap_app, fmap_take, fmap_drop.
Qed.

Lemma insert_at_pointers i s l :
  insert_at i (UVector.Pointer s) (UVector.Pointer <$> l) = UVector.Pointer <$> insert_at i s l
    :> list (UVector.UElement UnicodeString).
Proof. unfold insert_at. by rewrite fmap_app, fmap_cons, fmap_take, fmap_drop. Qed.

Lemma odds_pointers (l : list UnicodeString) :
  UVector.odds (UVector.Pointer <$> l) = UVector.Pointer <$> odds l.
Proof.
  induction l as [l IH] using (induction_ltof1 _ (@length UnicodeString)); unfold ltof in IH.
  destruct l as [|x [|y l]]; [done|done|]. cbn. f_equal. apply IH. simpl. lia.
Qed.

Lemma odds_in {B} (x : B) l : x ∈ odds l -> x ∈ l.
Proof.
  induction l as [l IH] using (induction_ltof1 _ (@length B)); unfold ltof in IH.
  destruct l as [|a [|b l]]; [done|by intros ?%not_elem_of_nil|]. cbn.
  intros [->|Hin]%elem_of_cons; [right; left|].
  right; right. apply IH; [simpl; lia|done].
Qed.

(** The laws of one operation on a vector of strings. *)
Definition uv_result (v : V) (res : option V) (l : list UnicodeString) : Prop :=
  exists v', res = Some v' /\ uv_ok v' /\ uv_contents v' = l.

Lemma uv_removed v v' c gone l :
  uv_ok v -> UVector.removed v v' c gone -> c = UVector.Pointer <$> l -> Forall is_string l ->
  uv_ok v' /\ uv_contents v' = l.
Proof.
  intros Hok (Hw & Hk & Hc & _) -> Hl. by eapply uv_ok_intro.
Qed.

Lemma Forall_sub (P : UnicodeString -> Prop) l l' :
  Forall P l -> (forall x, x ∈ l' -> x ∈ l) -> Forall P l'.
Proof. rewrite !Forall_forall. auto. Qed.

Lemma uv_remove_first_sub s l x : x ∈ remove_first s l -> x ∈ (l : list UnicodeString).
Proof.
  rewrite remove_first_index_of. destruct (_ <? 0); [done|]. unfold remove_at.
  rewrite elem_of_app. intros [H|H].
  - rewrite <- (take_drop (Z.to_nat (index_of s l)) l). apply elem_of_app. by left.
  - rewrite <- (take_drop (S (Z.to_nat (index_of s l))) l). apply elem_of_app. by right.
Qed.

Definition uv_sortedInsert (v : V) (s : UnicodeString) (ec : UErrorCode) : option (V * UErrorCode) :=
  UVector.sortedInsert v (UVector.Pointer s) compareUnicodeString ec.

(** The comparator on all cells, as a total order. *)
Definition cell_rank (e : UVector.UElement UnicodeString) : list Z :=
  match e with UVector.Null => [] | UVector.Pointer s => s | UVector.Integer n => [n] end.
Definition cell_compare (x y : UVector.UElement UnicodeString) : Z := lex (cell_rank x) (cell_rank y).

Lemma sortedInsert_search_ext (c1 c2 : UVector.UElement UnicodeString -> UVector.UElement UnicodeString -> Z)
    (el : list (UVector.UElement UnicodeString)) e m :
  (forall i x, 0 <= i < m -> aget el i = Some x -> c1 x e = c2 x e) -> forall n min max,
  0 <= min <= max -> max <= m ->
  UVector.sortedInsert_search n el e c1 min max = UVector.sortedInsert_search n el e c2 min max.
Proof.
  intros Hc. induction n as [|n IH]; intros min max Hm Hmax; cbn [UVector.sortedInsert_search]; [done|].
  destruct (Z.eqb_spec min max) as [->|Hne]; [done|]. cbn [negb].
  assert (Hp : min <= Z.quot (min + max) 2 < max)
    by (rewrite Z.quot_div_nonneg by lia; dlia).
  destruct (aget el _) as [x|] eqn:Hx; [|done]. cbn [mbind option_bind].
  rewrite (Hc (Z.quot (min + max) 2) x) by (done || lia). destruct (_ >? 0); apply IH; lia.
Qed.

Lemma cell_compare_pointers s t :
  is_string s -> is_string t ->
  compareUnicodeString (UVector.Pointer s) (UVector.Pointer t) =
    cell_compare (UVector.Pointer s) (UVector.Pointer t).
Proof. intros. simpl. by apply compare_lex. Qed.

Lemma sortedInsert_ext v s ec :
  uv_ok v -> is_string s ->
  uv_sortedInsert v s ec = UVector.sortedInsert v (UVector.Pointer s) cell_compare ec.
Proof.
  intros Hok Hs. unfold uv_sortedInsert, UVector.sortedInsert.
  pose proof (UVector.wf_count _ (uv_wf _ Hok)) as Hcnt.
  rewrite (sortedInsert_search_ext compareUnicodeString cell_compare _ _ (UVector.count v));
    [done| |lia|lia].
  intros i x Hi Hx. rewrite UVector.aget_contents in Hx by done.
  rewrite (uv_pointers _ Hok), list_lookup_fmap in Hx.
  destruct (uv_contents v !! Z.to_nat i) as [t|] eqn:Ht; [|done]. simpl in Hx. simplify_eq.
  apply cell_compare_pointers; [|done]. by eapply Forall_lookup_1; [apply (uv_strings _ Hok)|].
Qed.

Lemma cell_compare_trans : Transitive (fun x y => cell_compare x y <= 0).
Proof. intros x y z. apply lex_trans. Qed.

Lemma Sorted_pointers (l : list UnicodeString) :
  Sorted (fun x y => cell_compare x y <= 0) (UVector.Pointer <$> l) <-> Sorted lex_le l.
Proof.
  split.
  - remember (UVector.Pointer <$> l) as l' eqn:Hl'. intros Hs. revert l Hl'.
    induction Hs as [|x l' Hs IH Hd]; intros [|s l] Hl'; try done. simplify_eq/=.
    constructor; [by apply IH|]. destruct l; [constructor|]. inversion Hd; subst. by constructor.
  - induction 1 as [|s l Hs IH Hd]; [constructor|]. constructor; [done|].
    destruct l; [constructor|]. inversion Hd; subst. by constructor.
Qed.

Lemma uv_sortedInsert_law v s st :
  uv_ok v -> is_string s -> Sorted lex_le (uv_contents v) ->
  exists v' st', uv_sortedInsert v s st = Some (v', st') /\ uv_ok v' /\
    ((st' = st /\ exists i, uv_contents v' = insert_at i s (uv_contents v) /\
       Sorted lex_le (uv_contents v')) \/
     (U_FAILURE st' = true /\ v' = v)).
Proof.
  intros Hok Hs Hsorted. rewrite sortedInsert_ext by done.
  destruct (UVector.sortedInsert_spec cell_compare cell_compare_trans
    (fun x y => lex_total _ _) v (UVector.Pointer s) st) as (v' & st' & i & -> & Hw & Hres & Hs').
  { apply Hok. }
  { rewrite (uv_pointers _ Hok). by apply Sorted_pointers. }
  exists v', st'. split; [done|]. destruct Hres as [-> Hc Hk _| -> Hf].
  - rewrite (uv_pointers _ Hok), insert_at_pointers in Hc, Hs'.
    destruct (uv_ok_intro v v' (insert_at i s (uv_contents v))) as [Hok' Hc']; try done.
    { eapply Forall_impl; [|by intros ? H]. unfold insert_at. rewrite Forall_app, Forall_cons.
      split_and!; [apply Forall_take|done|apply Forall_drop]; apply (uv_strings _ Hok). }
    split; [done|]. left. split; [done|]. exists i. split; [done|].
    rewrite Hc'. by apply Sorted_pointers.
  - split; [done|]. by right.
Qed.

(** ** The other operations *)

Definition uv_new (st : UErrorCode) : V * UErrorCode :=
  UVector.new true (Some uhash_compareUnicodeString) 1 st.

Definition uv_elementAt (v : V) (i : Z) : option UnicodeString :=
  e ← UVector.elementAt v i; element_string e.

Definition uv_removeElement (v : V) (s : UnicodeString) : option (bool * V) :=
  UVector.removeElement v (UVector.Pointer s).

Lemma uv_new_law v st : uv_new U_ZERO_ERROR = (v, st) -> U_SUCCESS st = true ->
  uv_ok v /\ uv_contents v = [].
Proof.
  intros Hn Hst. destruct (UVector.new_spec _ _ _ _ _ Hn Hst) as (Hw & Hc & Hcmp & _ & _).
  assert (Hl : uv_contents v = []) by (unfold uv_contents; by rewrite Hc).
  split; [|done]. constructor; [done|done|by rewrite Hc, Hl|rewrite Hl; constructor].
Qed.

Lemma uv_count v : uv_ok v -> UVector.count v = Z.of_nat (length (uv_contents v)).
Proof.
  intros Hok. pose proof (UVector.length_contents v (uv_wf _ Hok)) as Hl.
  rewrite (uv_pointers _ Hok), length_fmap in Hl.
  pose proof (UVector.wf_count _ (uv_wf _ Hok)). lia.
Qed.

Lemma uv_elementAt_law v i s :
  uv_ok v -> uv_contents v !! i = Some s -> uv_elementAt v (Z.of_nat i) = Some s.
Proof.
  intros Hok Hs. unfold uv_elementAt, UVector.elementAt. pose proof (lookup_lt_Some _ _ _ Hs).
  rewrite uv_count by done. rewrite (proj2 (Z.leb_le _ _)), (proj2 (Z.ltb_lt _ _)) by lia. cbn [andb].
  rewrite UVector.aget_contents, Nat2Z.id, (uv_pointers _ Hok), list_lookup_fmap by (rewrite uv_count; done || lia).
  by rewrite Hs.
Qed.

Lemma uv_contains_law v s :
  uv_ok v -> UVector.contains v (UVector.Pointer s) = Some (bool_decide (s ∈ uv_contents v)).
Proof.
  intros Hok. rewrite UVector.contains_spec by (apply Hok || by apply uv_equal). f_equal.
  apply bool_decide_ext. by apply uv_in.
Qed.

Lemma uv_containsAll_law v o :
  uv_ok v -> uv_ok o ->
  UVector.containsAll v o = Some (bool_decide (Forall (fun s => s ∈ uv_contents v) (uv_contents o))).
Proof.
  intros Hv Ho. rewrite UVector.containsAll_spec by (apply Hv || apply Ho || by apply uv_equal).
  f_equal. apply bool_decide_ext. rewrite (uv_pointers o Ho), Forall_fmap.
  apply Forall_iff. intros s. by apply uv_in.
Qed.

Lemma uv_containsNone_law v o :
  uv_ok v -> uv_ok o ->
  UVector.containsNone v o = Some (bool_decide (Forall (fun s => s ∉ uv_contents v) (uv_contents o))).
Proof.
  intros Hv Ho. rewrite UVector.containsNone_spec by (apply Hv || apply Ho || by apply uv_equal).
  f_equal. apply bool_decide_ext. rewrite (uv_pointers o Ho), Forall_fmap.
  apply Forall_iff. intros s. cbn. by rewrite uv_in.
Qed.

Lemma uv_eq_law v o :
  uv_ok v -> uv_ok o -> UVector.operator_eq v o = Some (bool_decide (uv_contents v = uv_contents o)).
Proof.
  intros Hv Ho. rewrite UVector.operator_eq_spec by (apply Hv || apply Ho || by apply uv_equal).
  f_equal. apply bool_decide_ext. rewrite (uv_pointers v Hv), (uv_pointers o Ho). split; [|congruence].
  intros H. apply (f_equal (omap element_string)) in H. by rewrite !omap_pointers in H.
Qed.

Lemma uv_removeElement_law v s :
  uv_ok v -> exists v', uv_removeElement v s = Some (bool_decide (s ∈ uv_contents v), v') /\
    uv_ok v' /\ uv_contents v' = remove_first s (uv_contents v).
Proof.
  intros Hok. unfold uv_removeElement.
  destruct (UVector.removeElement_spec v (UVector.Pointer s)) as (v' & -> & Hr);
    [apply Hok|by apply uv_equal|].
  exists v'. split; [do 2 f_equal; apply bool_decide_ext; by apply uv_in|].
  eapply uv_removed; [done|exact Hr| |].
  - by rewrite (uv_pointers _ Hok), remove_first_pointers.
  - eapply Forall_sub; [apply (uv_strings _ Hok)|apply uv_remove_first_sub].
Qed.

Lemma uv_removeAllElements_law v :
  uv_ok v -> uv_result v (UVector.removeAllElements v) [].
Proof.
  intros Hok. destruct (UVector.removeAllElements_spec v) as (v' & -> & Hr); [apply Hok|].
  exists v'. split; [done|]. by eapply uv_removed; [done|exact Hr|..].
Qed.

Definition uv_removeAll (v : V) (o : option V) : option V :=
  '(v, _) ← UVector.removeAll v (vec_ref_of o); Some v.

Definition uv_retainAll (v : V) (o : option V) : option V :=
  '(v, _) ← UVector.retainAll v (vec_ref_of o); Some v.

Lemma uv_NoDup v : uv_ok v -> NoDup (uv_contents v) -> NoDup (UVector.contents v).
Proof.
  intros Hok Hnd. rewrite (uv_pointers _ Hok). apply NoDup_fmap_2; [|done].
  intros x y. congruence.
Qed.

Lemma uv_removeAll_law v o :
  uv_ok v -> uv_ok o -> NoDup (uv_contents v) ->
  uv_result v (uv_removeAll v (Some o)) (filter (fun s => s ∉ uv_contents o) (uv_contents v)).
Proof.
  intros Hv Ho Hnd. unfold uv_removeAll. cbn [vec_ref_of].
  destruct (UVector.removeAll_spec v o) as (v' & ch & gone & -> & Hr);
    [apply Hv|apply Ho|by apply uv_equal|by apply uv_NoDup|].
  cbn [mbind option_bind]. exists v'. split; [done|]. eapply uv_removed; [first [exact Hv|done]|exact Hr| |].
  - rewrite (uv_pointers v Hv) at 1. apply fmap_filter_pointers. intros s. by rewrite uv_in.
  - eapply Forall_sub; [apply (uv_strings v Hv)|]. by intros x [_ ?]%list_elem_of_filter.
Qed.

Lemma uv_retainAll_law v o :
  uv_ok v -> uv_ok o ->
  uv_result v (uv_retainAll v (Some o)) (filter (fun s => s ∈ uv_contents o) (uv_contents v)).
Proof.
  intros Hv Ho. unfold uv_retainAll. cbn [vec_ref_of].
  destruct (UVector.retainAll_spec v o) as (v' & ch & gone & -> & Hr);
    [apply Hv|apply Ho|by apply uv_equal|].
  cbn [mbind option_bind]. exists v'. split; [done|]. eapply uv_removed; [first [exact Hv|done]|exact Hr| |].
  - rewrite (uv_pointers v Hv) at 1. apply fmap_filter_pointers. intros s. by rewrite uv_in.
  - eapply Forall_sub; [apply (uv_strings v Hv)|]. by intros x [_ ?]%list_elem_of_filter.
Qed.

Lemma uv_removeAll_self_law v :
  uv_ok v -> NoDup (uv_contents v) -> uv_result v (uv_removeAll v None) (odds (uv_contents v)).
Proof.
  intros Hv Hnd. unfold uv_removeAll. cbn [vec_ref_of].
  destruct (UVector.removeAll_self v) as (v' & ch & -> & Hw & Hk & Hc);
    [apply Hv|by apply uv_equal|by apply uv_NoDup|].
  cbn [mbind option_bind]. exists v'. split; [done|]. eapply uv_ok_intro; [done|done|done| |].
  - by rewrite Hc, (uv_pointers v Hv), odds_pointers.
  - eapply Forall_sub; [apply (uv_strings v Hv)|intros x; apply odds_in].
Qed.

Lemma uv_assign_law v o st :
  uv_ok v -> uv_ok o -> U_SUCCESS st = true ->
  exists v' st', UVector.assign v o cloneUnicodeString st = Some (v', st') /\
    uv_ok v' /\ (U_SUCCESS st' = true -> uv_contents v' = uv_contents o) /\
    (U_SUCCESS st' = false -> uv_contents v' = uv_contents v).
Proof.
  intros Hv Ho Hst.
  destruct (UVector.assign_spec v o cloneUnicodeString st) as (v' & st' & -> & Hw & Hk & Hc & Hf);
    [apply Hv|apply Ho|done|].
  exists v', st'. split; [done|]. destruct (U_SUCCESS st').
  - destruct (uv_ok_intro v v' (uv_contents o)) as [Hok Hct]; [done..| |apply Ho|done].
    rewrite Hc by done. unfold cloneUnicodeString. by rewrite list_fmap_id, <- (uv_pointers o Ho).
  - destruct (uv_ok_intro v v' (uv_contents v)) as [Hok Hct]; [done..| |apply Hv|done].
    rewrite Hf by done. apply (uv_pointers v Hv).
Qed.

#[export] Instance UVector_StringVector : StringVector V.
Proof.
  refine {|
    sv_new := uv_new; sv_size := UVector.size; sv_elementAt := uv_elementAt;
    sv_contains v s := UVector.contains v (UVector.Pointer s);
    sv_containsAll := UVector.containsAll; sv_containsNone := UVector.containsNone;
    sv_eq := UVector.operator_eq; sv_sortedInsert := uv_sortedInsert;
    sv_removeElement := uv_removeElement; sv_removeAllElements := UVector.removeAllElements;
    sv_removeAll := uv_removeAll; sv_retainAll := uv_retainAll;
    sv_assign v o st := UVector.assign v o cloneUnicodeString st;
    sv_ok := uv_ok; sv_contents := uv_contents
  |}.
  - exact uv_new_law.
  - intros v Hv. apply Hv.
  - exact uv_count.
  - exact uv_elementAt_law.
  - exact uv_contains_law.
  - exact uv_containsAll_law.
  - exact uv_containsNone_law.
  - exact uv_eq_law.
  - exact uv_sortedInsert_law.
  - exact uv_removeElement_law.
  - exact uv_removeAllElements_law.
  - exact uv_removeAll_law.
  - exact uv_removeAll_self_law.
  - exact uv_retainAll_law.
  - exact uv_assign_law.
Defined.
End Instance_.
