(* ===== verification/UnicodeSet.v ===== *)
(** * UnicodeSet: sets of code points and strings (src/common/uniset.cpp)

    A set is an inversion list in an allocated array [list] of which [len] cells
    are used, a spare array [buffer] that the set operations write and then swap
    with the list, a sorted vector of strings, and the tables of a frozen set.
    A null pointer is [None].  An operation gives [None] where the source would
    dereference a null pointer or leave an array. *)
From S2P Require Import Prelude Utf16 InversionList BMPSet UVector StringVector.

Local Open Scope Z_scope.

Module UnicodeSet.

Definition START_EXTRA : Z := 16.
Definition GROW_EXTRA : Z := START_EXTRA.
Definition MIN_VALUE : Z := 0.
Definition MAX_VALUE : Z := 0x10ffff.
Definition kIsBogus : Z := 1.

Section Definitions.
Context {V : Type} {sv : StringVector V} {alloc : Allocator Z}.

Record UnicodeSet := mk {
  len : Z;
  capacity : Z;
  list : option (list Z);
  bmpSet : option BMPSet.BMPSet;
  buffer : option (Datatypes.list Z);
  bufferCapacity : Z;
  pat : option UnicodeString;
  strings : option V;
  stringSpan : option BMPSet.BMPSet;  (* the tables of its frozen [spanSet] *)
  fFlags : Z
}.

Definition set_len (s : UnicodeSet) n :=
  mk n s.(capacity) s.(list) s.(bmpSet) s.(buffer) s.(bufferCapacity) s.(pat) s.(strings)
    s.(stringSpan) s.(fFlags).
Definition set_list (s : UnicodeSet) l :=
  mk s.(len) s.(capacity) l s.(bmpSet) s.(buffer) s.(bufferCapacity) s.(pat) s.(strings)
    s.(stringSpan) s.(fFlags).
Definition set_block (s : UnicodeSet) l cap :=
  mk s.(len) cap l s.(bmpSet) s.(buffer) s.(bufferCapacity) s.(pat) s.(strings)
    s.(stringSpan) s.(fFlags).
Definition set_buffer (s : UnicodeSet) b cap :=
  mk s.(len) s.(capacity) s.(list) s.(bmpSet) b cap s.(pat) s.(strings) s.(stringSpan) s.(fFlags).
Definition set_strings (s : UnicodeSet) v :=
  mk s.(len) s.(capacity) s.(list) s.(bmpSet) s.(buffer) s.(bufferCapacity) s.(pat) v
    s.(stringSpan) s.(fFlags).
Definition set_pat (s : UnicodeSet) p :=
  mk s.(len) s.(capacity) s.(list) s.(bmpSet) s.(buffer) s.(bufferCapacity) p s.(strings)
    s.(stringSpan) s.(fFlags).
Definition set_fFlags (s : UnicodeSet) f :=
  mk s.(len) s.(capacity) s.(list) s.(bmpSet) s.(buffer) s.(bufferCapacity) s.(pat) s.(strings)
    s.(stringSpan) f.
Definition set_frozen (s : UnicodeSet) b sp :=
  mk s.(len) s.(capacity) s.(list) b s.(buffer) s.(bufferCapacity) s.(pat) s.(strings)
    sp s.(fFlags).

Definition isFrozen (s : UnicodeSet) : bool :=
  match s.(bmpSet), s.(stringSpan) with None, None => false | _, _ => true end.

Definition isBogus (s : UnicodeSet) : bool := negb (Z.land s.(fFlags) kIsBogus =? 0).

Definition pinCodePoint (c : Z) : Z :=
  if c <? UNICODESET_LOW then UNICODESET_LOW
  else if c >? UNICODESET_HIGH - 1 then UNICODESET_HIGH - 1 else c.

Definition releasePattern (s : UnicodeSet) : UnicodeSet := set_pat s None.

(** ** Storage *)

Definition clear (s : UnicodeSet) : option UnicodeSet :=
  if isFrozen s then Some s
  else
    s ← match s.(list) with
        | Some l => l ← aset l 0 UNICODESET_HIGH; Some (set_list s (Some l))
        | None => Some s
        end;
    let s := releasePattern (set_len s 1) in
    s ← match s.(strings) with
        | Some v => v ← sv_removeAllElements v; Some (set_strings s (Some v))
        | None => Some s
        end;
    match s.(list), s.(strings) with
    | Some _, Some _ => Some (set_fFlags s 0)
    | _, _ => Some s
    end.

Definition setToBogus (s : UnicodeSet) : option UnicodeSet :=
  s ← clear s; Some (set_fFlags s kIsBogus).

(** [uprv_realloc] of a pointer that may be null. *)
Definition realloc (p : option (Datatypes.list Z)) (n : Z) : option (Datatypes.list Z) :=
  match p with Some l => uprv_realloc l n | None => uprv_malloc n end.

Definition ensureCapacity (s : UnicodeSet) (newLen : Z) (ec : UErrorCode)
  : option (UnicodeSet * UErrorCode) :=
  if newLen <=? s.(capacity) then Some (s, ec)
  else
    match realloc s.(list) (newLen + GROW_EXTRA) with
    | None => s ← setToBogus s; Some (s, U_MEMORY_ALLOCATION_ERROR)
    | Some temp => Some (set_block s (Some temp) (newLen + GROW_EXTRA), ec)
    end.

Definition ensureBufferCapacity (s : UnicodeSet) (newLen : Z) (ec : UErrorCode)
  : option (UnicodeSet * UErrorCode) :=
  if match s.(buffer) with Some _ => newLen <=? s.(bufferCapacity) | None => false end
  then Some (s, ec)
  else
    match realloc s.(buffer) (newLen + GROW_EXTRA) with
    | None => s ← setToBogus s; Some (s, U_MEMORY_ALLOCATION_ERROR)
    | Some temp => Some (set_buffer s (Some temp) (newLen + GROW_EXTRA), ec)
    end.

Definition swapBuffers (s : UnicodeSet) : UnicodeSet :=
  mk s.(len) s.(bufferCapacity) s.(buffer) s.(bmpSet) s.(list) s.(capacity) s.(pat) s.(strings)
    s.(stringSpan) s.(fFlags).

(** ** The merges *)

(** What [exclusiveOr], [add(list, len, polarity)] and [retain] share: room in the
    buffer, the merge loop, and the exchange of the arrays. *)
Definition merge
    (run : Datatypes.list Z -> Datatypes.list Z -> Datatypes.list Z -> Z -> Z -> Z ->
           option (Datatypes.list Z * Z))
    (s : UnicodeSet) (other : Datatypes.list Z) (otherLen polarity : Z) : option UnicodeSet :=
  '(s, status) ← ensureBufferCapacity s (s.(len) + otherLen) U_ZERO_ERROR;
  if U_FAILURE status then Some s
  else
    l ← s.(list);
    b ← s.(buffer);
    '(b, k) ← run l other b s.(len) otherLen polarity;
    Some (releasePattern (swapBuffers (set_len (set_buffer s (Some b) s.(bufferCapacity)) k))).

Definition exclusiveOr (s : UnicodeSet) (other : Datatypes.list Z) (otherLen polarity : Z)
  : option UnicodeSet :=
  if isFrozen s || isBogus s then Some s else merge exclusiveOr_run s other otherLen polarity.

Definition add_list (s : UnicodeSet) (other : option (Datatypes.list Z)) (otherLen polarity : Z)
  : option UnicodeSet :=
  if isFrozen s || isBogus s then Some s
  else match other with
       | None => Some s
       | Some other => merge add_run s other otherLen polarity
       end.

Definition retain_list (s : UnicodeSet) (other : Datatypes.list Z) (otherLen polarity : Z)
  : option UnicodeSet :=
  if isFrozen s || isBogus s then Some s else merge retain_run s other otherLen polarity.

(** ** Constructors *)

Definition allocateStrings (s : UnicodeSet) (status : UErrorCode) : bool * UnicodeSet * UErrorCode :=
  if U_FAILURE status then (false, s, status)
  else
    let '(v, status) := sv_new status in
    if U_FAILURE status then (false, set_strings s None, status)
    else (true, set_strings s (Some v), status).

Definition fresh_set (l cap : Z) : UnicodeSet := mk l cap None None None 0 None None None 0.

Definition new : option UnicodeSet :=
  let s := fresh_set 1 (1 + START_EXTRA) in
  let '(_, s, status) := allocateStrings s U_ZERO_ERROR in
  if U_FAILURE status then Some s
  else
    match uprv_malloc s.(capacity) with
    | Some l => l ← aset l 0 UNICODESET_HIGH; Some (set_list s (Some l))
    | None => setToBogus s
    end.

(** ** Ranges *)

Definition complement_range (s : UnicodeSet) (start end_ : Z) : option UnicodeSet :=
  if isFrozen s || isBogus s then Some s
  else
    let start := pinCodePoint start in
    let end_ := pinCodePoint end_ in
    s ← (if start <=? end_
         then exclusiveOr s [start; end_ + 1; UNICODESET_HIGH] 2 0 else Some s);
    Some (releasePattern s).

Definition new_range (start end_ : Z) : option UnicodeSet :=
  let s := fresh_set 1 (1 + START_EXTRA) in
  let '(_, s, status) := allocateStrings s U_ZERO_ERROR in
  if U_FAILURE status then Some s
  else
    match uprv_malloc s.(capacity) with
    | Some l =>
        l ← aset l 0 UNICODESET_HIGH; complement_range (set_list s (Some l)) start end_
    | None => setToBogus s
    end.

Definition set (s : UnicodeSet) (start end_ : Z) : option UnicodeSet :=
  s ← clear s; complement_range s start end_.

Definition getRangeCount (s : UnicodeSet) : Z := Z.quot s.(len) 2.

Definition getRangeStart (s : UnicodeSet) (index : Z) : option Z :=
  l ← s.(list); aget l (index * 2).

Definition getRangeEnd (s : UnicodeSet) (index : Z) : option Z :=
  l ← s.(list); x ← aget l (index * 2 + 1); Some (x - 1).

(** ** Queries *)

Definition find (s : UnicodeSet) (c : Z) : option Z :=
  l ← s.(list); findCodePoint l s.(len) c.

Definition contains (s : UnicodeSet) (c : Z) : option bool :=
  match s.(bmpSet) with
  | Some b => BMPSet.contains b c
  | None =>
      match s.(stringSpan) with
      | Some sp => BMPSet.contains sp c
      | None =>
          if c >=? UNICODESET_HIGH then Some false
          else i ← find s c; Some (negb (Z.land i 1 =? 0))
      end
  end.

Definition contains_range (s : UnicodeSet) (start end_ : Z) : option bool :=
  i ← find s start;
  l ← s.(list);
  if negb (Z.land i 1 =? 0) then x ← aget l i; Some (end_ <? x) else Some false.

Definition containsNone_range (s : UnicodeSet) (start end_ : Z) : option bool :=
  i ← find s start;
  l ← s.(list);
  if Z.land i 1 =? 0 then x ← aget l i; Some (end_ <? x) else Some false.

Definition getSingleCP (s : UnicodeString) : option Z :=
  if us_length s >? 2 then Some (-1)
  else if us_length s =? 1 then charAt s 0
  else cp ← char32At s 0; if cp >? 0xffff then Some cp else Some (-1).

Definition contains_string (s : UnicodeSet) (str : UnicodeString) : option bool :=
  if us_length str =? 0 then Some false
  else
    cp ← getSingleCP str;
    if cp <? 0 then v ← s.(strings); sv_contains v str else contains s cp.

Fixpoint containsAll_loop (fuel : nat) (s c : UnicodeSet) (i n : Z) : option bool :=
  if i <? n then
    match fuel with
    | O => None
    | S fuel' =>
        start ← getRangeStart c i; end_ ← getRangeEnd c i;
        b ← contains_range s start end_;
        if negb b then Some false else containsAll_loop fuel' s c (i + 1) n
    end
  else
    v ← s.(strings); o ← c.(strings); sv_containsAll v o.

Definition containsAll (s c : UnicodeSet) : option bool :=
  containsAll_loop (Z.to_nat (getRangeCount c)) s c 0 (getRangeCount c).

Fixpoint containsNone_loop (fuel : nat) (s c : UnicodeSet) (i n : Z) : option bool :=
  if i <? n then
    match fuel with
    | O => None
    | S fuel' =>
        start ← getRangeStart c i; end_ ← getRangeEnd c i;
        b ← containsNone_range s start end_;
        if negb b then Some false else containsNone_loop fuel' s c (i + 1) n
    end
  else
    v ← s.(strings); o ← c.(strings); sv_containsNone v o.

Definition containsNone (s c : UnicodeSet) : option bool :=
  containsNone_loop (Z.to_nat (getRangeCount c)) s c 0 (getRangeCount c).

Fixpoint size_loop (fuel : nat) (s : UnicodeSet) (n i count : Z) : option Z :=
  if i <? count then
    match fuel with
    | O => None
    | S fuel' =>
        e ← getRangeEnd s i; st ← getRangeStart s i;
        size_loop fuel' s (n + (e - st + 1)) (i + 1) count
    end
  else Some n.

Definition size (s : UnicodeSet) : option Z :=
  let count := getRangeCount s in
  n ← size_loop (Z.to_nat count) s 0 0 count;
  v ← s.(strings); Some (n + sv_size v).

Definition isEmpty (s : UnicodeSet) : option bool :=
  if s.(len) =? 1 then v ← s.(strings); Some (sv_size v =? 0) else Some false.

(** [int32_t] arithmetic, which wraps around in practice. *)
Fixpoint hashCode_loop (fuel : nat) (l : Datatypes.list Z) (result i len : Z) : option Z :=
  if i <? len then
    match fuel with
    | O => None
    | S fuel' =>
        x ← aget l i; hashCode_loop fuel' l (int32 (int32 (result * 1000003) + x)) (i + 1) len
    end
  else Some result.

Definition hashCode (s : UnicodeSet) : option Z :=
  match s.(list) with
  | Some l => hashCode_loop (Z.to_nat s.(len)) l s.(len) 0 s.(len)
  | None => if 0 <? s.(len) then None else Some s.(len)
  end.

Fixpoint operator_eq_loop (fuel : nat) (l o : Datatypes.list Z) (i len : Z) : option bool :=
  if i <? len then
    match fuel with
    | O => None
    | S fuel' =>
        x ← aget l i; y ← aget o i;
        if negb (x =? y) then Some false else operator_eq_loop fuel' l o (i + 1) len
    end
  else Some true.

Definition operator_eq (s o : UnicodeSet) : option bool :=
  if negb (s.(len) =? o.(len)) then Some false
  else
    l ← s.(list); l' ← o.(list);
    b ← operator_eq_loop (Z.to_nat s.(len)) l l' 0 s.(len);
    if negb b then Some false
    else v ← s.(strings); v' ← o.(strings); sv_eq v v'.

Fixpoint indexOf_loop (fuel : nat) (l : Datatypes.list Z) (c i n : Z) : option Z :=
  match fuel with
  | O => None
  | S fuel' =>
      start ← aget l i;
      if c <? start then Some (-1)
      else
        limit ← aget l (i + 1);
        if c <? limit then Some (n + c - start)
        else indexOf_loop fuel' l c (i + 2) (n + (limit - start))
  end.

Definition indexOf (s : UnicodeSet) (c : Z) : option Z :=
  if (c <? MIN_VALUE) || (c >? MAX_VALUE) then Some (-1)
  else l ← s.(list); indexOf_loop (Z.to_nat s.(len)) l c 0 0.

Fixpoint charAt_loop (fuel : nat) (l : Datatypes.list Z) (index i len2 : Z) : option Z :=
  if i <? len2 then
    match fuel with
    | O => None
    | S fuel' =>
        start ← aget l i;
        e ← aget l (i + 1);
        let count := e - start in
        if index <? count then Some (start + index)
        else charAt_loop fuel' l (index - count) (i + 2) len2
    end
  else Some (-1).

Definition charAt (s : UnicodeSet) (index : Z) : option Z :=
  if index >=? 0 then
    let len2 := Z.land s.(len) (Z.lnot 1) in
    match s.(list) with
    | Some l => charAt_loop (Z.to_nat len2) l index 0 len2
    | None => if 0 <? len2 then None else Some (-1)
    end
  else Some (-1).

(** ** Adding code points *)

(** [while (src < srclimit) *dst++ = *src++;] with [src = dst + 2] *)
Fixpoint move_down2 (fuel : nat) (l : Datatypes.list Z) (src srclimit : Z) : option (Datatypes.list Z) :=
  if src <? srclimit then
    match fuel with
    | O => None
    | S fuel' => x ← aget l src; l ← aset l (src - 2) x; move_down2 fuel' l (src + 1) srclimit
    end
  else Some l.

(** [while (src > srclimit) *--dst = *--src;] with [dst = src + 2] *)
Fixpoint move_up2 (fuel : nat) (l : Datatypes.list Z) (src srclimit : Z) : option (Datatypes.list Z) :=
  if src >? srclimit then
    match fuel with
    | O => None
    | S fuel' =>
        x ← aget l (src - 1); l ← aset l (src + 1) x; move_up2 fuel' l (src - 1) srclimit
    end
  else Some l.

(** [i > 0 && c == list[i-1]] *)
Definition after_prior (l : Datatypes.list Z) (i c : Z) : option bool :=
  if 0 <? i then x ← aget l (i - 1); Some (c =? x) else Some false.

Definition add (s : UnicodeSet) (c : Z) : option UnicodeSet :=
  let c := pinCodePoint c in
  i ← find s c;
  if negb (Z.land i 1 =? 0) || isFrozen s || isBogus s then Some s
  else
    l ← s.(list);
    li ← aget l i;
    if c =? li - 1 then
      (* c is before start of next range *)
      l ← aset l i c;
      let s := set_list s (Some l) in
      '(s, status) ←
        (if c =? UNICODESET_HIGH - 1 then
           '(s, status) ← ensureCapacity s (s.(len) + 1) U_ZERO_ERROR;
           if U_FAILURE status then Some (s, status)
           else
             l ← s.(list);
             l ← aset l s.(len) UNICODESET_HIGH;
             Some (set_len (set_list s (Some l)) (s.(len) + 1), status)
         else Some (s, U_ZERO_ERROR));
      if U_FAILURE status then Some (s : UnicodeSet)
      else
        l ← s.(list);
        prior ← after_prior l i c;
        s ← (if (prior : bool) then
               l ← move_down2 (Z.to_nat s.(len)) l (i + 1) s.(len);
               Some (set_len (set_list s (Some l)) (s.(len) - 2))
             else Some s);
        Some (releasePattern s)
    else
      prior ← after_prior l i c;
      if (prior : bool) then
        (* c is after end of prior range *)
        x ← aget l (i - 1);
        l ← aset l (i - 1) (x + 1);
        Some (releasePattern (set_list s (Some l)))
      else
      '(s, status) ← ensureCapacity s (s.(len) + 2) U_ZERO_ERROR;
      if U_FAILURE status then Some s
      else
        l ← s.(list);
        l ← move_up2 (Z.to_nat s.(len)) l s.(len) i;
        l ← aset l i c;
        l ← aset l (i + 1) (c + 1);
        Some (releasePattern (set_len (set_list s (Some l)) (s.(len) + 2))).

Definition add_range (s : UnicodeSet) (start end_ : Z) : option UnicodeSet :=
  let start := pinCodePoint start in
  let end_ := pinCodePoint end_ in
  if start <? end_ then add_list s (Some [start; end_ + 1; UNICODESET_HIGH]) 2 0
  else if start =? end_ then add s start else Some s.

(** ** Retaining, removing *)

Definition retain_range (s : UnicodeSet) (start end_ : Z) : option UnicodeSet :=
  let start := pinCodePoint start in
  let end_ := pinCodePoint end_ in
  if start <=? end_ then retain_list s [start; end_ + 1; UNICODESET_HIGH] 2 0 else clear s.

Definition retain (s : UnicodeSet) (c : Z) : option UnicodeSet := retain_range s c c.

Definition remove_range (s : UnicodeSet) (start end_ : Z) : option UnicodeSet :=
  let start := pinCodePoint start in
  let end_ := pinCodePoint end_ in
  if start <=? end_ then retain_list s [start; end_ + 1; UNICODESET_HIGH] 2 2 else Some s.

Definition remove (s : UnicodeSet) (c : Z) : option UnicodeSet := remove_range s c c.

Definition complement_cp (s : UnicodeSet) (c : Z) : option UnicodeSet := complement_range s c c.

(** [uprv_memcpy(dst + at, src, n)] *)
Definition memcpy (dst : Datatypes.list Z) (at_ : Z) (src : Datatypes.list Z) (n : Z)
  : option (Datatypes.list Z) :=
  if (0 <=? at_) && (0 <=? n) && (n <=? Z.of_nat (length src)) &&
     (at_ + n <=? Z.of_nat (length dst))
  then Some (take (Z.to_nat at_) dst ++ take (Z.to_nat n) src ++ drop (Z.to_nat (at_ + n)) dst)
  else None.

Definition complement (s : UnicodeSet) : option UnicodeSet :=
  if isFrozen s || isBogus s then Some s
  else
    l ← s.(list);
    l0 ← aget l 0;
    if l0 =? UNICODESET_LOW then
      '(s, status) ← ensureBufferCapacity s (s.(len) - 1) U_ZERO_ERROR;
      if U_FAILURE status then Some s
      else
        b ← s.(buffer);
        b ← memcpy b 0 (drop 1 l) (s.(len) - 1);
        Some (releasePattern (swapBuffers (set_len (set_buffer s (Some b) s.(bufferCapacity)) (s.(len) - 1))))
    else
      '(s, status) ← ensureBufferCapacity s (s.(len) + 1) U_ZERO_ERROR;
      if U_FAILURE status then Some s
      else
        b ← s.(buffer);
        b ← memcpy b 1 l s.(len);
        b ← aset b 0 UNICODESET_LOW;
        Some (releasePattern (swapBuffers (set_len (set_buffer s (Some b) s.(bufferCapacity)) (s.(len) + 1)))).

(** ** Strings *)

(** [_add]; a new string object is always available. *)
Definition _add (s : UnicodeSet) (str : UnicodeString) : option UnicodeSet :=
  if isFrozen s || isBogus s then Some s
  else
    v ← s.(strings);
    '(v, ec) ← sv_sortedInsert v str U_ZERO_ERROR;
    let s := set_strings s (Some v) in
    if U_FAILURE ec then setToBogus s else Some s.

Definition add_string (s : UnicodeSet) (str : UnicodeString) : option UnicodeSet :=
  if (us_length str =? 0) || isFrozen s || isBogus s then Some s
  else
    cp ← getSingleCP str;
    if cp <? 0 then
      v ← s.(strings);
      b ← sv_contains v str;
      if negb b then s ← _add s str; Some (releasePattern s) else Some s
    else add s cp.

Definition remove_string (s : UnicodeSet) (str : UnicodeString) : option UnicodeSet :=
  if (us_length str =? 0) || isFrozen s || isBogus s then Some s
  else
    cp ← getSingleCP str;
    if cp <? 0 then
      v ← s.(strings);
      '(_, v) ← sv_removeElement v str;
      Some (releasePattern (set_strings s (Some v)))
    else remove_range s cp cp.

Definition complement_string (s : UnicodeSet) (str : UnicodeString) : option UnicodeSet :=
  if (us_length str =? 0) || isFrozen s || isBogus s then Some s
  else
    cp ← getSingleCP str;
    if cp <? 0 then
      v ← s.(strings);
      b ← sv_contains v str;
      s ← (if (b : bool) then
             '(_, v) ← sv_removeElement v str; Some (set_strings s (Some v))
           else _add s str);
      Some (releasePattern s)
    else complement_range s cp cp.

Definition removeAllStrings (s : UnicodeSet) : option UnicodeSet :=
  v ← s.(strings); v ← sv_removeAllElements v; Some (set_strings s (Some v)).

(** [addAll(const UnicodeString&)]: each code point of the string. *)
Fixpoint addAll_string_loop (fuel : nat) (s : UnicodeSet) (str : UnicodeString) (i : Z)
  : option UnicodeSet :=
  if i <? us_length str then
    match fuel with
    | O => None
    | S fuel' =>
        cp ← char32At str i;
        s ← add s cp;
        addAll_string_loop fuel' s str (i + U16_LENGTH cp)
    end
  else Some s.

Definition addAll_string (s : UnicodeSet) (str : UnicodeString) : option UnicodeSet :=
  addAll_string_loop (length str) s str 0.

(** ** Two sets

    [retainAll] and [removeAll] may be called on the set itself ([None]). *)

Fixpoint addAll_strings (fuel : nat) (s : UnicodeSet) (o : V) (i : Z) : option UnicodeSet :=
  if i <? sv_size o then
    match fuel with
    | O => None
    | S fuel' =>
        str ← sv_elementAt o i;
        v ← s.(strings);
        b ← sv_contains v str;
        s ← (if negb b then _add s str else Some s);
        addAll_strings fuel' s o (i + 1)
    end
  else Some s.

Definition addAll (s c : UnicodeSet) : option UnicodeSet :=
  s ← match c.(list) with
      | Some l => if c.(len) >? 0 then add_list s (Some l) c.(len) 0 else Some s
      | None => Some s
      end;
  match c.(strings) with
  | Some o => addAll_strings (Z.to_nat (sv_size o)) s o 0
  | None => Some s
  end.

Definition this_or (s : UnicodeSet) (c : option UnicodeSet) : UnicodeSet :=
  match c with Some c => c | None => s end.

(** The strings of the argument, or [None] for the set itself. *)
Definition strings_of (c : option UnicodeSet) : option (option V) :=
  match c with Some c => o ← c.(strings); Some (Some o) | None => Some None end.

Definition retainAll (s : UnicodeSet) (c : option UnicodeSet) : option UnicodeSet :=
  if isFrozen s || isBogus s then Some s
  else
    l ← (this_or s c).(list);
    s ← retain_list s l (this_or s c).(len) 0;
    v ← s.(strings);
    o ← strings_of c;
    v ← sv_retainAll v o;
    Some (set_strings s (Some v)).

Definition removeAll (s : UnicodeSet) (c : option UnicodeSet) : option UnicodeSet :=
  if isFrozen s || isBogus s then Some s
  else
    l ← (this_or s c).(list);
    s ← retain_list s l (this_or s c).(len) 2;
    v ← s.(strings);
    o ← strings_of c;
    v ← sv_removeAll v o;
    Some (set_strings s (Some v)).

Fixpoint complementAll_strings (fuel : nat) (s : UnicodeSet) (o : V) (i : Z) : option UnicodeSet :=
  if i <? sv_size o then
    match fuel with
    | O => None
    | S fuel' =>
        e ← sv_elementAt o i;
        v ← s.(strings);
        '(b, v) ← sv_removeElement v e;
        let s := set_strings s (Some v) in
        s ← (if negb b then _add s e else Some s);
        complementAll_strings fuel' s o (i + 1)
    end
  else Some s.

(** For an argument other than the set itself. *)
Definition complementAll (s c : UnicodeSet) : option UnicodeSet :=
  if isFrozen s || isBogus s then Some s
  else
    l ← c.(list);
    s ← exclusiveOr s l c.(len) 0;
    o ← c.(strings);
    complementAll_strings (Z.to_nat (sv_size o)) s o 0.

Definition complementAll_string (s : UnicodeSet) (str : UnicodeString) : option UnicodeSet :=
  set ← new; set ← addAll_string set str; complementAll s set.

Definition retainAll_string (s : UnicodeSet) (str : UnicodeString) : option UnicodeSet :=
  set ← new; set ← addAll_string set str; retainAll s (Some set).

Definition removeAll_string (s : UnicodeSet) (str : UnicodeString) : option UnicodeSet :=
  set ← new; set ← addAll_string set str; removeAll s (Some set).

Definition createFrom (str : UnicodeString) : option UnicodeSet :=
  set ← new; add_string set str.

Definition createFromAll (str : UnicodeString) : option UnicodeSet :=
  set ← new; addAll_string set str.

(** ** Compaction *)

Definition compact (s : UnicodeSet) : option UnicodeSet :=
  if isFrozen s || isBogus s then Some s
  else
    let s := set_buffer s None s.(bufferCapacity) in
    if s.(len) <? s.(capacity) then
      let newCapacity := s.(len) + (if s.(len) =? 0 then 1 else 0) in
      match realloc s.(list) newCapacity with
      | Some temp => Some (set_block s (Some temp) newCapacity)
      | None => Some s
      end
    else Some s.

End Definitions.

Arguments UnicodeSet V : clear implicits.

(** ** What a set stands for *)

Section Theorems.
Context {V : Type} {sv : StringVector V} {alloc : Allocator Z}.
Implicit Types s o : UnicodeSet V.

Definition lex_lt (x y : UnicodeString) : Prop := lex x y < 0.

(** Only strings that are not one code point are kept in the vector. *)
Definition multi (str : UnicodeString) : Prop := 0 < us_length str /\ getSingleCP str = Some (-1).

(** The fields agree with an inversion list [la] and a sorted list of strings. *)
Record rep s (la : Datatypes.list Z) (strs : Datatypes.list UnicodeString) : Prop := {
  rep_list : exists l, list s = Some l /\ holds l (len s) la /\ capacity s = Z.of_nat (length l);
  rep_buffer : forall b, buffer s = Some b -> bufferCapacity s = Z.of_nat (length b);
  rep_strings : exists v, strings s = Some v /\ sv_ok v /\ sv_contents v = strs;
  rep_sorted : StronglySorted lex_lt strs;
  rep_multi : Forall multi strs;
  rep_bmpSet : forall b, bmpSet s = Some b -> exists n, BMPSet.bmp_ok b la n;
  rep_stringSpan : forall b, stringSpan s = Some b -> exists n, BMPSet.bmp_ok b la n
}.

Definition valid s la strs : Prop := rep s la strs /\ fFlags s = 0.

(** A bogus set is empty. *)
Definition bogus s : Prop := fFlags s = kIsBogus /\ rep s [UNICODESET_HIGH] [].

(** An operation yields the set [f] of code points and the strings [strs], or,
    without memory, a bogus set. *)
Definition yields (res : option (UnicodeSet V)) (f : Z -> bool) (strs : Datatypes.list UnicodeString)
  : Prop :=
  exists s', res = Some s' /\
    ((exists la', valid s' la' strs /\ isFrozen s' = false /\
        forall c, 0 <= c < UNICODESET_HIGH -> mem la' c = f c) \/
     (bogus s' /\ isFrozen s' = false)).

Lemma valid_not_bogus s la strs : valid s la strs -> isBogus s = false.
Proof. intros [_ Hf]. unfold isBogus. by rewrite Hf. Qed.

Lemma bogus_isBogus s : bogus s -> isBogus s = true.
Proof. intros [Hf _]. unfold isBogus. by rewrite Hf. Qed.

Lemma not_frozen s : isFrozen s = false -> bmpSet s = None /\ stringSpan s = None.
Proof. unfold isFrozen. by destruct (bmpSet s), (stringSpan s). Qed.

Lemma wf_empty : wf_list [UNICODESET_HIGH].
Proof. split; [by apply hsorted_single|]. by constructor. Qed.

Lemma yields_ext res f g strs :
  yields res f strs -> (forall c, 0 <= c < UNICODESET_HIGH -> f c = g c) -> yields res g strs.
Proof.
  intros (s' & -> & [(la' & Hv & Hf & Hm)|Hb]) Hfg; exists s'; (split; [done|]); [left|by right].
  exists la'. split; [done|]. split; [done|]. intros c Hc. by rewrite Hm, Hfg.
Qed.

(** ** Clearing *)

(** The allocated parts are there; the contents of the list do not matter. *)
Record shape s (strs : Datatypes.list UnicodeString) : Prop := {
  sh_list : exists l, list s = Some l /\ capacity s = Z.of_nat (length l) /\ 0 < capacity s;
  sh_buffer : forall b, buffer s = Some b -> bufferCapacity s = Z.of_nat (length b);
  sh_strings : exists v, strings s = Some v /\ sv_ok v /\ sv_contents v = strs;
  sh_sorted : StronglySorted lex_lt strs;
  sh_multi : Forall multi strs
}.

Lemma rep_shape s la strs : rep s la strs -> shape s strs.
Proof.
  intros [(l & Hl & Hh & Hc) Hb Hstr Hs Hm _ _]. constructor; try done.
  exists l. split_and!; [done|done|]. destruct (holds_read _ _ _ Hh) as (a & xs & _ & Hget & _).
  apply aget_Some in Hget. lia.
Qed.

Lemma clear_spec s strs :
  shape s strs -> isFrozen s = false ->
  exists s', clear s = Some s' /\ rep s' [UNICODESET_HIGH] [] /\ fFlags s' = 0 /\ isFrozen s' = false.
Proof.
  intros [(l & Hl & Hc & Hlen) Hb (v & Hv & Hok & Hct) Hs Hm] Hnf. unfold clear. rewrite Hnf, Hl.
  destruct (not_frozen s Hnf) as [Hbm Hsp].
  destruct (BMPSet.aset_is_Some l 0 UNICODESET_HIGH) as [l' Hl']; [lia|].
  rewrite Hl'. cbn [mbind option_bind releasePattern set_pat set_len set_list strings]. rewrite Hv.
  destruct (sv_removeAllElements_law v Hok) as (v' & -> & Hok' & Hct').
  cbn [mbind option_bind set_strings set_fFlags list strings]. eexists. split; [done|].
  split_and!; [|done|exact Hnf].
  constructor; cbn.
  - exists l'. split_and!; [done| |by rewrite (BMPSet.aset_length _ _ _ _ Hl')].
    split; [apply wf_empty|]. split; [done|]. exists (drop 1 l').
    unfold aset in Hl'. destruct (_ && _); [|done]. injection Hl' as <-.
    destruct l as [|y l]; [simpl in Hc; lia|]. done.
  - done.
  - by exists v'.
  - constructor.
  - constructor.
  - by rewrite Hbm.
  - by rewrite Hsp.
Qed.

Lemma setToBogus_spec s strs :
  shape s strs -> isFrozen s = false ->
  exists s', setToBogus s = Some s' /\ bogus s' /\ isFrozen s' = false.
Proof.
  intros Hr Hnf. destruct (clear_spec s strs Hr Hnf) as (s' & Hc & Hr' & _ & Hnf').
  unfold setToBogus. rewrite Hc. cbn [mbind option_bind]. eexists. split; [done|].
  split; [|exact Hnf']. split; [done|]. destruct Hr'. by constructor.
Qed.

(** ** Room *)

Lemma realloc_length p n l : realloc p n = Some l -> 0 <= n -> Z.of_nat (length l) = n.
Proof.
  unfold realloc. destruct p as [l0|]; intros H Hn.
  - apply uprv_realloc_length in H. lia.
  - apply uprv_malloc_length in H. lia.
Qed.

Lemma realloc_take l0 n l k :
  realloc (Some l0) n = Some l -> Z.of_nat k <= n -> (k <= length l0)%nat -> take k l = take k l0.
Proof. apply uprv_realloc_take. Qed.

Lemma holds_take l l' n la :
  holds l n la -> take (length la) l' = take (length la) l -> holds l' n la.
Proof.
  intros (Hw & Hn & junk & ->) Ht. split_and!; [done|done|]. exists (drop (length la) l').
  rewrite <- (take_drop (length la) l') at 1. by rewrite Ht, take_app_length.
Qed.

Lemma holds_length l n la : holds l n la -> n = Z.of_nat (length la) /\ (length la <= length l)%nat.
Proof. intros (_ & -> & junk & ->). split; [done|]. rewrite length_app. lia. Qed.

Lemma ensureBufferCapacity_spec s la strs newLen :
  valid s la strs -> isFrozen s = false -> 0 <= newLen ->
  (exists b cap, ensureBufferCapacity s newLen U_ZERO_ERROR =
     Some (set_buffer s (Some b) cap, U_ZERO_ERROR) /\ cap = Z.of_nat (length b) /\ newLen <= cap) \/
  (exists s', ensureBufferCapacity s newLen U_ZERO_ERROR = Some (s', U_MEMORY_ALLOCATION_ERROR) /\
     bogus s' /\ isFrozen s' = false).
Proof.
  intros [Hr Hf] Hnf Hn. unfold ensureBufferCapacity.
  destruct (match buffer s with Some _ => newLen <=? bufferCapacity s | None => false end) eqn:Hfit.
  - left. destruct (buffer s) as [b|] eqn:Hb; [|done]. apply Z.leb_le in Hfit.
    exists b, (bufferCapacity s). split; [|split; [by apply (rep_buffer _ _ _ Hr)|done]].
    destruct s; cbn in *. by rewrite Hb.
  - destruct (realloc (buffer s) (newLen + GROW_EXTRA)) as [b|] eqn:Hre.
    + left. apply realloc_length in Hre; [|unfold GROW_EXTRA, START_EXTRA; lia].
      exists b, (newLen + GROW_EXTRA). split_and!; [done|done|unfold GROW_EXTRA, START_EXTRA; lia].
    + right. destruct (setToBogus_spec s strs (rep_shape _ _ _ Hr) Hnf) as (s' & -> & ?). by exists s'.
Qed.

Lemma us_ensureCapacity_spec s strs newLen :
  shape s strs -> isFrozen s = false -> 0 <= newLen ->
  (exists l junk, list s = Some l /\
     ensureCapacity s newLen U_ZERO_ERROR =
       Some (set_block s (Some (l ++ junk)) (Z.of_nat (length (l ++ junk))), U_ZERO_ERROR) /\
     newLen <= Z.of_nat (length (l ++ junk))) \/
  (exists s', ensureCapacity s newLen U_ZERO_ERROR = Some (s', U_MEMORY_ALLOCATION_ERROR) /\
     bogus s' /\ isFrozen s' = false).
Proof.
  intros Hr Hnf Hn. unfold ensureCapacity. pose proof (sh_list _ _ Hr) as (l & Hl & Hc & _).
  destruct (Z.leb_spec newLen (capacity s)).
  - left. exists l, []. rewrite app_nil_r, <- Hc. split_and!; [done| |done].
    destruct s; cbn in *. by rewrite Hl.
  - rewrite Hl. destruct (realloc (Some l) (newLen + GROW_EXTRA)) as [b|] eqn:Hre.
    + left. unfold GROW_EXTRA, START_EXTRA in *.
      pose proof (realloc_length _ _ _ Hre ltac:(lia)) as Hlb.
      exists l, (drop (length l) b).
      assert (Heq : b = l ++ drop (length l) b).
      { rewrite <- (take_drop (length l) b) at 1. f_equal.
        rewrite (realloc_take l _ _ _ Hre) by lia. by apply take_ge. }
      rewrite <- Heq. split_and!; [done|do 3 f_equal; lia|lia].
    + right. destruct (setToBogus_spec s strs Hr Hnf) as (s' & -> & ?). by exists s'.
Qed.

(** ** The merges *)

Lemma merge_spec run s la strs other otherLen polarity f :
  valid s la strs -> isFrozen s = false -> 0 <= otherLen ->
  (forall l b, holds l (len s) la -> len s + otherLen <= Z.of_nat (length b) ->
     computes (run l other b (len s) otherLen polarity) b f) ->
  yields (merge run s other otherLen polarity) f strs.
Proof.
  intros Hv Hnf Hol Hrun. unfold merge. pose proof Hv as [Hr Hfl].
  pose proof (rep_list _ _ _ Hr) as (l & Hl & Hh & Hc).
  destruct (ensureBufferCapacity_spec s la strs (len s + otherLen) Hv Hnf)
    as [(b & cap & -> & Hcap & Hroom)|(s' & -> & Hb & Hnf')].
  { destruct (holds_length _ _ _ Hh). lia. }
  - cbn [mbind option_bind set_buffer list buffer len]. cbn [U_FAILURE UErrorCode_value Z.ltb Z.compare].
    rewrite Hl. cbn [mbind option_bind].
    destruct (Hrun l b Hh) as (b' & k & out & -> & Hlen & Hout & Hm); [lia|].
    cbn [mbind option_bind]. eexists. split; [done|]. left. exists out. split; [|split; [exact Hnf|done]].
    destruct (not_frozen s Hnf) as [Hbm Hsp]. destruct Hr as [_ Hbuf Hstr Hso Hmu _ _].
    split; [|done]. constructor; cbn; try done.
    + exists b'. split_and!; [done|done|]. by rewrite Hcap, Hlen.
    + intros b0 Hb0. rewrite Hl in Hb0. by simplify_eq.
    + by rewrite Hbm.
    + by rewrite Hsp.
  - cbn [mbind option_bind]. exists s'. split; [done|]. by right.
Qed.

Lemma exclusiveOr_spec s la strs other otherLen m lb :
  valid s la strs -> isFrozen s = false -> holds other m lb -> m <= otherLen + 1 -> 0 <= otherLen ->
  yields (exclusiveOr s other otherLen 0) (fun c => xorb (mem la c) (mem lb c)) strs.
Proof.
  intros Hv Hnf Ho Hm H0. unfold exclusiveOr. rewrite Hnf, (valid_not_bogus _ _ _ Hv). cbn [orb].
  eapply merge_spec; [done..|]. intros l b Hl Hb. by eapply exclusiveOr_run_computes.
Qed.

Lemma add_list_spec s la strs other otherLen m lb :
  valid s la strs -> isFrozen s = false -> holds other m lb -> m <= otherLen + 1 -> 0 <= otherLen ->
  yields (add_list s (Some other) otherLen 0) (fun c => mem la c || mem lb c) strs.
Proof.
  intros Hv Hnf Ho Hm H0. unfold add_list. rewrite Hnf, (valid_not_bogus _ _ _ Hv). cbn [orb].
  eapply merge_spec; [done..|]. intros l b Hl Hb. by eapply add_run_computes.
Qed.

Lemma retain_list_spec s la strs other otherLen m lb polarity :
  valid s la strs -> isFrozen s = false -> holds other m lb -> m <= otherLen + 1 -> 0 <= otherLen ->
  0 <= polarity < 4 ->
  yields (retain_list s other otherLen polarity)
    (fun c => retain_meaning polarity (mem la c) (mem lb c)) strs.
Proof.
  intros Hv Hnf Ho Hm H0 Hp. unfold retain_list. rewrite Hnf, (valid_not_bogus _ _ _ Hv). cbn [orb].
  eapply merge_spec; [done..|]. intros l b Hl Hb. by eapply retain_run_computes.
Qed.

(** ** One range *)

Definition in_pinned (start end_ x : Z) : bool :=
  (pinCodePoint start <=? x) && (x <=? pinCodePoint end_).

Lemma pinCodePoint_range x : 0 <= pinCodePoint x < UNICODESET_HIGH.
Proof. unfold pinCodePoint, UNICODESET_LOW, UNICODESET_HIGH. zcases. Qed.

Lemma pinCodePoint_id x : 0 <= x < UNICODESET_HIGH -> pinCodePoint x = x.
Proof. unfold pinCodePoint, UNICODESET_LOW, UNICODESET_HIGH. intros. zcases. Qed.

Lemma range_holds start end_ :
  0 <= start <= end_ -> end_ < UNICODESET_HIGH ->
  exists m lb, holds [start; end_ + 1; UNICODESET_HIGH] m lb /\ m <= 3 /\
    forall x, x < UNICODESET_HIGH -> mem lb x = (start <=? x) && (x <=? end_).
Proof.
  intros Hs He. destruct (Z.eq_dec (end_ + 1) UNICODESET_HIGH) as [Heq|Hne].
  - exists 2, [start; UNICODESET_HIGH]. split_and!; [|lia|].
    + split; [split|].
      * apply hsorted_cons. split; [lia|]. by apply hsorted_single.
      * repeat (constructor; [unfold UNICODESET_HIGH in *; lia|]). constructor.
      * split; [done|]. exists [UNICODESET_HIGH]. by rewrite Heq.
    + intros x Hx. rewrite mem_par by done. simpl.
      repeat (zcase; try lia); done.
  - exists 3, [start; end_ + 1; UNICODESET_HIGH]. split_and!; [|lia|].
    + split; [split|].
      * apply hsorted_cons. split; [lia|]. apply hsorted_cons. split; [lia|]. by apply hsorted_single.
      * repeat (constructor; [unfold UNICODESET_HIGH in *; lia|]). constructor.
      * split; [done|]. by exists [].
    + intros x Hx. rewrite mem_par by done. simpl.
      repeat (zcase; try lia); done.
Qed.

Lemma pinned_holds start end_ :
  pinCodePoint start <= pinCodePoint end_ ->
  exists m lb, holds [pinCodePoint start; pinCodePoint end_ + 1; UNICODESET_HIGH] m lb /\ m <= 2 + 1 /\
    forall x, 0 <= x < UNICODESET_HIGH -> mem lb x = in_pinned start end_ x.
Proof.
  intros Hle. pose proof (pinCodePoint_range start). pose proof (pinCodePoint_range end_).
  destruct (range_holds (pinCodePoint start) (pinCodePoint end_)) as (m & lb & Hh & Hm & Hmem);
    [lia|lia|].
  exists m, lb. split_and!; [done|lia|]. intros x Hx. by rewrite Hmem by lia.
Qed.

Lemma in_pinned_empty start end_ x :
  pinCodePoint end_ < pinCodePoint start -> in_pinned start end_ x = false.
Proof. intros. unfold in_pinned. repeat (zcase; try lia); done. Qed.

Lemma rep_set_pat s la strs p : rep s la strs -> rep (set_pat s p) la strs.
Proof. intros []. by constructor. Qed.

Lemma yields_release res f strs :
  yields res f strs -> yields (s ← res; Some (releasePattern s)) f strs.
Proof.
  intros (s' & -> & H). cbn [mbind option_bind]. exists (releasePattern s'). split; [done|].
  destruct H as [(la & [Hr Hf] & Hnf & Hm)|[[Hf Hr] Hnf]].
  - left. exists la. split; [|done]. split; [by apply rep_set_pat|done].
  - right. split; [|done]. split; [done|by apply rep_set_pat].
Qed.

Lemma yields_same s la strs f :
  valid s la strs -> isFrozen s = false ->
  (forall x, 0 <= x < UNICODESET_HIGH -> mem la x = f x) -> yields (Some s) f strs.
Proof. intros Hv Hnf Hf. exists s. split; [done|]. left. by exists la. Qed.

Lemma complement_range_spec s la strs start end_ :
  valid s la strs -> isFrozen s = false ->
  yields (complement_range s start end_) (fun x => xorb (mem la x) (in_pinned start end_ x)) strs.
Proof.
  intros Hv Hnf. unfold complement_range. rewrite Hnf, (valid_not_bogus _ _ _ Hv). cbn [orb].
  apply yields_release. destruct (Z.leb_spec (pinCodePoint start) (pinCodePoint end_)).
  - destruct (pinned_holds start end_) as (m & lb & Hh & Hm & Hmem); [done|].
    eapply yields_ext; [by eapply exclusiveOr_spec|]. intros x Hx. cbv beta. by rewrite Hmem.
  - eapply yields_same; [done|done|]. intros x Hx.
    by rewrite in_pinned_empty, xorb_false_r.
Qed.

Lemma retain_range_spec s la strs start end_ :
  valid s la strs -> isFrozen s = false ->
  yields (retain_range s start end_) (fun x => mem la x && in_pinned start end_ x)
    (if pinCodePoint start <=? pinCodePoint end_ then strs else []).
Proof.
  intros Hv Hnf. unfold retain_range.
  destruct (Z.leb_spec (pinCodePoint start) (pinCodePoint end_)).
  - destruct (pinned_holds start end_) as (m & lb & Hh & Hm & Hmem); [done|].
    eapply yields_ext; [by eapply retain_list_spec|]. intros x Hx. cbn. by rewrite Hmem.
  - destruct (clear_spec s strs (rep_shape _ _ _ (proj1 Hv)) Hnf) as (s' & -> & Hr & Hf & Hnf').
    exists s'. split; [done|]. left. exists [UNICODESET_HIGH]. split_and!; [done|done|].
    intros x Hx. rewrite in_pinned_empty, andb_false_r by done. rewrite mem_par, par_above; [done| |lia].
    constructor; [lia|constructor].
Qed.

Lemma remove_range_spec s la strs start end_ :
  valid s la strs -> isFrozen s = false ->
  yields (remove_range s start end_) (fun x => mem la x && negb (in_pinned start end_ x)) strs.
Proof.
  intros Hv Hnf. unfold remove_range.
  destruct (Z.leb_spec (pinCodePoint start) (pinCodePoint end_)).
  - destruct (pinned_holds start end_) as (m & lb & Hh & Hm & Hmem); [done|].
    eapply yields_ext; [by eapply retain_list_spec|]. intros x Hx. cbn. by rewrite Hmem.
  - eapply yields_same; [done|done|]. intros x Hx.
    by rewrite in_pinned_empty, andb_true_r.
Qed.

(** ** Adding one code point *)

Lemma move_down2_spec : forall n l src srclimit,
  2 <= src -> srclimit <= Z.of_nat (length l) -> srclimit - src <= Z.of_nat n ->
  exists l', move_down2 n l src srclimit = Some l' /\ length l' = length l /\
    forall j, aget l' j = if (src - 2 <=? j) && (j <? srclimit - 2) then aget l (j + 2) else aget l j.
Proof.
  induction n as [|n IH]; intros l src srclimit Hs Hl Hn; cbn [move_down2];
    destruct (Z.ltb_spec src srclimit); [lia| | |];
    try (exists l; split_and!; [done|done|]; intros j; repeat (zcase; try lia); done).
  destruct (aget_is_Some l src) as [x Hx]; [lia|]. rewrite Hx. cbn [mbind option_bind].
  destruct (BMPSet.aset_is_Some l (src - 2) x) as [l1 Hl1]; [lia|]. rewrite Hl1.
  cbn [mbind option_bind]. pose proof (BMPSet.aset_length _ _ _ _ Hl1) as Hlen1.
  destruct (IH l1 (src + 1) srclimit) as (l' & -> & Hlen & Hget); [lia|lia|lia|].
  exists l'. split_and!; [done|congruence|]. intros j. rewrite Hget.
  rewrite !(BMPSet.aget_aset _ _ _ _ _ Hl1).
  destruct (Z.eqb_spec j (src - 2)) as [->|Hj].
  - replace (src - 2 + 2) with src by lia. repeat (zcase; try lia); done.
  - repeat (zcase; try lia); done.
Qed.

Lemma move_up2_spec i : 0 <= i -> forall n l src,
  src + 2 <= Z.of_nat (length l) -> src - i <= Z.of_nat n ->
  exists l', move_up2 n l src i = Some l' /\ length l' = length l /\
    forall j, aget l' j = if (i + 2 <=? j) && (j <? src + 2) then aget l (j - 2) else aget l j.
Proof.
  intros Hi. induction n as [|n IH]; intros l src Hl Hn; cbn [move_up2];
    rewrite Z.gtb_ltb; destruct (Z.ltb_spec i src); [lia| | |];
    try (exists l; split_and!; [done|done|]; intros j; repeat (zcase; try lia); done).
  destruct (aget_is_Some l (src - 1)) as [x Hx]; [lia|]. rewrite Hx. cbn [mbind option_bind].
  destruct (BMPSet.aset_is_Some l (src + 1) x) as [l1 Hl1]; [lia|]. rewrite Hl1.
  cbn [mbind option_bind]. pose proof (BMPSet.aset_length _ _ _ _ Hl1) as Hlen1.
  destruct (IH l1 (src - 1)) as (l' & -> & Hlen & Hget); [lia|lia|].
  exists l'. split_and!; [done|congruence|]. intros j. rewrite Hget.
  rewrite !(BMPSet.aget_aset _ _ _ _ _ Hl1).
  destruct (Z.eqb_spec j (src + 1)) as [->|Hj].
  - replace (src + 1 - 2) with (src - 1) by lia. repeat (zcase; try lia); done.
  - repeat (zcase; try lia); done.
Qed.

(** An array holds a list when its first cells are the elements. *)
Lemma holds_intro l la :
  wf_list la -> (length la <= length l)%nat ->
  (forall j, 0 <= j < Z.of_nat (length la) -> aget l j = la !! Z.to_nat j) ->
  holds l (Z.of_nat (length la)) la.
Proof.
  intros Hw Hlen Hget. split_and!; [done|done|]. exists (drop (length la) l).
  rewrite <- (take_drop (length la) l) at 1. f_equal. apply list_eq. intros j.
  destruct (decide (j < length la)%nat).
  - rewrite lookup_take_lt by done. rewrite <- aget_nat, Hget by lia. by rewrite Nat2Z.id.
  - rewrite lookup_ge_None_2 by len. symmetry. apply lookup_ge_None_2. lia.
Qed.

Lemma holds_get_nat l n la j :
  holds l n la -> 0 <= j < n -> aget l j = la !! Z.to_nat j.
Proof.
  intros (_ & -> & junk & ->) Hj. unfold aget. rewrite (proj2 (Z.leb_le _ _)) by lia.
  apply lookup_app_l. lia.
Qed.

(** Lookups in [p ++ ws ++ q] by position. *)
Lemma lookup_parts (p ws q : Datatypes.list Z) (j : nat) :
  (p ++ ws ++ q) !! j =
    if decide (j < length p)%nat then p !! j
    else if decide (j - length p < length ws)%nat then ws !! (j - length p)%nat
    else q !! (j - length p - length ws)%nat.
Proof.
  destruct (decide _); [by rewrite lookup_app_l|]. rewrite lookup_app_r by lia.
  destruct (decide _); [by rewrite lookup_app_l|]. by rewrite lookup_app_r by lia.
Qed.

(** Replacing a set's list by another that its new array holds. *)
Lemma rep_new_list s la strs la' l' n cap :
  rep s la strs -> isFrozen s = false -> holds l' n la' -> cap = Z.of_nat (length l') ->
  rep (set_len (set_block s (Some l') cap) n) la' strs.
Proof.
  intros [_ Hb Hstr Hso Hmu _ _] Hnf Hh Hcap. destruct (not_frozen s Hnf) as [Hbm Hsp].
  constructor; cbn; try done.
  - by exists l'.
  - by rewrite Hbm.
  - by rewrite Hsp.
Qed.

Lemma set_block_list s l cap : capacity s = cap -> set_list s (Some l) = set_block s (Some l) cap.
Proof. by intros <-. Qed.

Lemma after_prior_spec l i c p rest :
  l = p ++ rest -> i = Z.of_nat (length p) ->
  exists b, after_prior l i c = Some b /\
    (b = true -> exists p0, p = p0 ++ [c]) /\ (b = false -> forall p0, p <> p0 ++ [c]).
Proof.
  intros -> ->. unfold after_prior. destruct (Z.ltb_spec 0 (Z.of_nat (length p))) as [Hpos|Hz].
  - destruct p as [|x p _] using rev_ind; [simpl in Hpos; lia|].
    rewrite length_app in *. simpl in *.
    replace (Z.of_nat (length p + 1) - 1) with (Z.of_nat (length p)) by lia.
    rewrite aget_nat, lookup_app_l, list_lookup_middle by (done || len). cbn [mbind option_bind].
    exists (c =? x). split; [done|]. split.
    + intros ->%Z.eqb_eq. by exists p.
    + intros Hne%Z.eqb_neq p0 Heq. apply app_inj_tail in Heq as [_ ?]. congruence.
  - destruct p; [|simpl in Hz; lia]. exists false. split; [done|]. split; [done|].
    intros _ p0. by destruct p0.
Qed.

Lemma aset_middle (p r : Datatypes.list Z) a x :
  aset (p ++ a :: r) (Z.of_nat (length p)) x = Some (p ++ x :: r).
Proof. rewrite aset_nat by len. f_equal. by rewrite insert_app_r_alt, Nat.sub_diag by lia. Qed.

Lemma aget_middle (p r : Datatypes.list Z) a : aget (p ++ a :: r) (Z.of_nat (length p)) = Some a.
Proof. rewrite aget_nat. by apply list_lookup_middle. Qed.

Lemma prefix_intro (l la : Datatypes.list Z) :
  (length la <= length l)%nat ->
  (forall j, (j < length la)%nat -> aget l (Z.of_nat j) = la !! j) -> exists junk, l = la ++ junk.
Proof.
  intros Hlen Hget. exists (drop (length la) l).
  rewrite <- (take_drop (length la) l) at 1. f_equal. apply list_eq. intros j.
  destruct (decide (j < length la)%nat).
  - rewrite lookup_take_lt by done. by rewrite <- aget_nat, Hget by lia.
  - rewrite lookup_ge_None_2 by len. symmetry. apply lookup_ge_None_2. lia.
Qed.

Lemma move_down2_list p0 a b tail junk :
  let n := Z.of_nat (length p0 + 2 + length tail) in
  exists l' junk', move_down2 (Z.to_nat n) (p0 ++ a :: b :: tail ++ junk) (Z.of_nat (length p0 + 2)) n =
    Some l' /\ length l' = length (p0 ++ a :: b :: tail ++ junk) /\ l' = (p0 ++ tail) ++ junk'.
Proof.
  intros n. set (l := p0 ++ a :: b :: tail ++ junk).
  assert (Hlen : length l = (length p0 + 2 + length tail + length junk)%nat).
  { unfold l. rewrite length_app. simpl. rewrite length_app. lia. }
  destruct (move_down2_spec (Z.to_nat n) l (Z.of_nat (length p0 + 2)) n) as (l' & Hm & Hl & Hget);
    [lia|lia|lia|].
  destruct (prefix_intro l' (p0 ++ tail)) as [junk' Hj]; [rewrite length_app; lia| |by exists l', junk'].
  intros j Hj. rewrite length_app in Hj. rewrite Hget.
  destruct (Z.leb_spec (Z.of_nat (length p0 + 2) - 2) (Z.of_nat j)); cbn [andb].
  - rewrite (proj2 (Z.ltb_lt _ _)) by lia.
    replace (Z.of_nat j + 2) with (Z.of_nat (j + 2)) by lia. rewrite aget_nat. unfold l.
    rewrite !lookup_app_r by lia. replace (j + 2 - length p0)%nat with (S (S (j - length p0))) by lia.
    change ((a :: b :: tail ++ junk) !! S (S (j - length p0))) with ((tail ++ junk) !! (j - length p0)%nat).
    by rewrite lookup_app_l by lia.
  - rewrite aget_nat. unfold l. by rewrite !lookup_app_l by lia.
Qed.

Lemma move_up2_list p rest junk :
  (2 <= length junk)%nat ->
  exists l' a b junk',
    move_up2 (length (p ++ rest)) (p ++ rest ++ junk) (Z.of_nat (length p + length rest))
      (Z.of_nat (length p)) = Some l' /\
    length l' = length (p ++ rest ++ junk) /\ l' = p ++ a :: b :: rest ++ junk'.
Proof.
  intros Hj. set (l := p ++ rest ++ junk).
  assert (Hlen : length l = (length p + length rest + length junk)%nat).
  { unfold l. rewrite !length_app. lia. }
  destruct (move_up2_spec (Z.of_nat (length p)) ltac:(lia) (length (p ++ rest)) l
    (Z.of_nat (length p + length rest))) as (l' & -> & Hl & Hget); [lia|rewrite length_app; lia|].
  destruct (aget_is_Some l (Z.of_nat (length p))) as [a Ha]; [lia|].
  destruct (aget_is_Some l (Z.of_nat (length p + 1))) as [b Hb]; [lia|].
  destruct (prefix_intro l' (p ++ a :: b :: rest)) as [junk' Hjk].
  - rewrite length_app. simpl. lia.
  - intros j Hjl. rewrite length_app in Hjl. simpl in Hjl. rewrite Hget.
    destruct (decide (j < length p)%nat).
    { rewrite (proj2 (Z.leb_gt _ _)) by lia. cbn [andb]. rewrite aget_nat. unfold l.
      by rewrite !lookup_app_l by lia. }
    rewrite lookup_app_r by lia.
    destruct (j - length p)%nat as [|[|k]] eqn:Hk.
    + rewrite (proj2 (Z.leb_gt _ _)) by lia. cbn. by replace j with (length p) by lia.
    + rewrite (proj2 (Z.leb_gt _ _)) by lia. cbn. by replace j with (length p + 1)%nat by lia.
    + rewrite (proj2 (Z.leb_le _ _)), (proj2 (Z.ltb_lt _ _)) by lia. cbn [andb].
      replace (Z.of_nat j - 2) with (Z.of_nat (length p + k)) by lia. rewrite aget_nat. unfold l.
      rewrite lookup_app_r by lia. replace (length p + k - length p)%nat with k by lia.
      change ((a :: b :: rest) !! S (S k)) with (rest !! k). by rewrite lookup_app_l by lia.
  - exists l', a, b, junk'. split_and!; [done|done|]. by rewrite Hjk, <- app_assoc.
Qed.

Lemma rep_of_parts s strs la l cap n :
  shape s strs -> isFrozen s = false -> fFlags s = 0 -> wf_list la ->
  (exists junk, l = la ++ junk) -> cap = Z.of_nat (length l) -> n = Z.of_nat (length la) ->
  valid (set_len (set_block s (Some l) cap) n) la strs.
Proof.
  intros [_ Hb Hstr Hso Hmu] Hnf Hf Hw Hl Hcap Hn. destruct (not_frozen s Hnf) as [Hbm Hsp].
  split; [|done]. constructor; cbn; try done.
  - by exists l.
  - by rewrite Hbm.
  - by rewrite Hsp.
Qed.

(** The step of [add] that appends a new HIGH when the old one was taken. *)
Lemma add_touch_high s strs p q c li junk :
  shape s strs -> isFrozen s = false -> list s = Some (p ++ c :: q ++ junk) ->
  capacity s = Z.of_nat (length (p ++ c :: q ++ junk)) ->
  len s = Z.of_nat (length p + 1 + length q) -> hsorted (li :: q) -> li = c + 1 ->
  let res := (if c =? UNICODESET_HIGH - 1 then
           '(s, status) ← ensureCapacity s (len s + 1) U_ZERO_ERROR;
           if U_FAILURE status then Some (s, status)
           else
             l ← list s;
             l ← aset l (len s) UNICODESET_HIGH;
             Some (set_len (set_list s (Some l)) (len s + 1), status)
         else Some (s, U_ZERO_ERROR)) in
  let tail := if c =? UNICODESET_HIGH - 1 then [UNICODESET_HIGH] else q in
  (exists l2 junk2 cap, res = Some (set_len (set_block s (Some l2) cap) (Z.of_nat (length p + 1 + length tail)), U_ZERO_ERROR) /\
     l2 = p ++ c :: tail ++ junk2 /\ cap = Z.of_nat (length l2)) \/
  (exists s', res = Some (s', U_MEMORY_ALLOCATION_ERROR) /\ bogus s' /\ isFrozen s' = false).
Proof.
  intros Hsh Hnf Hl Hcap Hlen Hq Hli res tail. subst res tail.
  destruct (Z.eqb_spec c (UNICODESET_HIGH - 1)) as [Hc|Hc].
  - assert (q = []) as ->.
    { destruct q as [|y q]; [done|]. apply hsorted_cons in Hq as [? ?%hsorted_head]. lia. }
    destruct (us_ensureCapacity_spec s strs (len s + 1) Hsh Hnf) as
      [(l & jk & Hl' & -> & Hroom)|(s' & -> & ?)]; [lia| |right; by exists s'].
    left. cbn [mbind option_bind]. change (U_FAILURE U_ZERO_ERROR) with false. cbn iota.
    cbn [set_block list len]. rewrite Hl in Hl'. injection Hl' as <-. cbn [app] in *.
    set (r := (p ++ c :: junk) ++ jk) in *.
    assert (Hr : exists x r', r = p ++ c :: x :: r').
    { unfold r. rewrite <- app_assoc. cbn [app]. destruct (junk ++ jk) as [|x r'] eqn:Hj; [|by exists x, r'].
      unfold r in Hroom. rewrite <- app_assoc in Hroom. cbn [app] in Hroom. rewrite Hj in Hroom.
      rewrite length_app in Hroom. simpl in Hroom, Hlen. lia. }
    destruct Hr as (x & r' & Hr).
    assert (Hset : aset r (len s) UNICODESET_HIGH = Some (p ++ c :: UNICODESET_HIGH :: r')).
    { rewrite Hr. change (c :: x :: r') with ([c] ++ x :: r'). rewrite app_assoc.
      replace (len s) with (Z.of_nat (length (p ++ [c]))) by (rewrite length_app; simpl in *; lia).
      rewrite aset_middle, <- app_assoc. done. }
    cbn [mbind option_bind]. rewrite Hset. cbn [mbind option_bind].
    exists (p ++ c :: UNICODESET_HIGH :: r'), r', (Z.of_nat (length r)). split_and!; [|done|].
    + do 2 f_equal. destruct s; cbn in *. f_equal. lia.
    + rewrite Hr. len.
  - left. exists (p ++ c :: q ++ junk), junk, (capacity s). split_and!; [|done|done].
    do 2 f_equal. destruct s; cbn in *. by subst.
Qed.

Lemma add_spec s la strs c :
  valid s la strs -> isFrozen s = false ->
  yields (add s c) (fun x => (x =? pinCodePoint c) || mem la x) strs.
Proof.
  intros Hv Hnf. pose proof Hv as [Hr Hf]. pose proof (rep_shape _ _ _ Hr) as Hsh.
  pose proof (rep_list _ _ _ Hr) as (l & Hl & Hh & Hcap).
  pose proof (pinCodePoint_range c) as Hpin. unfold add. set (c' := pinCodePoint c) in *. clearbody c'.
  destruct (findCodePoint_spec l (len s) la c' Hh) as (i & Hfind & Hfa); [lia|].
  unfold find. rewrite Hl. cbn [mbind option_bind]. rewrite Hfind. cbn [mbind option_bind].
  rewrite Hnf, (valid_not_bogus _ _ _ Hv), BMPSet.odd_land, !orb_false_r.
  pose proof (mem_first_above la c' i ltac:(lia) Hfa) as Hmem.
  destruct (Z.odd i) eqn:Hodd.
  { eapply yields_same; [done|done|]. intros x Hx. by destruct (Z.eqb_spec x c') as [->|]. }
  pose proof Hh as (Hwf & Hn & junk & Hlj).
  destruct (split_first_above la c' i Hwf Hfa) as (p & li & q & Hla & Hip & Hps & Hpb & Hqs & Hcli & _).
  rewrite <- Hip in Hodd.
  rewrite Hlj, Hla, <- Hip, <- app_assoc. cbn [app]. rewrite aget_middle. cbn [mbind option_bind].
  assert (Hadds : forall la' s', adds p q c' li la' -> valid s' la' strs -> isFrozen s' = false ->
    yields (Some (releasePattern s')) (fun x => (x =? c') || mem (p ++ li :: q) x) strs).
  { intros la' s' [_ Hm] [Hr' Hf'] Hnf'. exists (releasePattern s'). split; [done|]. left. exists la'.
    split; [split; [by apply rep_set_pat|done]|]. by split. }
  assert (Hlq : (length la = length p + 1 + length q)%nat).
  { rewrite Hla, length_app. simpl. lia. }
  destruct (Z.eqb_spec c' (li - 1)) as [Hnext|Hnext].
  - (* before the next range *)
    rewrite aset_middle. cbn [mbind option_bind].
    set (s1 := set_list s (Some (p ++ c' :: q ++ junk))).
    assert (Hcap1 : capacity s1 = Z.of_nat (length (p ++ c' :: q ++ junk))).
    { change (capacity s1) with (capacity s). rewrite Hcap, Hlj, Hla. len. }
    assert (Hsh1 : shape s1 strs).
    { destruct Hsh as [_ ? ? ? ?]. constructor; try done. eexists. split_and!; [done|done|].
      rewrite Hcap1, length_app. simpl. lia. }
    destruct (add_touch_high s1 strs p q c' li junk Hsh1 Hnf eq_refl Hcap1) as
      [(l2 & junk2 & cap & -> & Hl2 & Hcap2)|(s' & -> & Hb & Hnf')]; [cbn; lia|done|lia| |].
    2:{ cbn [mbind option_bind]. exists s'. split; [done|]. by right. }
    cbn [mbind option_bind]. change (U_FAILURE U_ZERO_ERROR) with false. cbn iota.
    cbn [set_len set_block list mbind option_bind].
    set (tail := if c' =? UNICODESET_HIGH - 1 then [UNICODESET_HIGH] else q) in *.
    destruct (after_prior_spec l2 (Z.of_nat (length p)) c' p (c' :: tail ++ junk2) Hl2 eq_refl)
      as (b & -> & Hbt & Hbf). cbn [mbind option_bind].
    destruct b.
    + destruct (Hbt eq_refl) as [p0 Hp0]. cbn [len].
      destruct (move_down2_list p0 c' c' tail junk2) as (l3 & junk3 & Hmv & Hlen3 & Hl3).
      assert (Hl2' : l2 = p0 ++ c' :: c' :: tail ++ junk2).
      { rewrite Hl2, Hp0, <- app_assoc. done. }
      assert (Hpl : length p = (length p0 + 1)%nat) by (by rewrite Hp0, length_app).
      replace (Z.of_nat (length p) + 1) with (Z.of_nat (length p0 + 2)) by lia.
      replace (length p + 1 + length tail)%nat with (length p0 + 2 + length tail)%nat by lia.
      repeat match goal with |- context [len (set_len ?a ?n)] => change (len (set_len a n)) with n end.
      rewrite Hl2', Hmv. cbn [mbind option_bind].
      apply (Hadds (p0 ++ tail)).
      * pose proof (add_between p q c' li Hps Hpb Hqs Hcli Hpin Hodd p0 Hp0) as Ha.
        unfold tail. destruct (c' =? UNICODESET_HIGH - 1); apply Ha; lia.
      * apply (rep_of_parts s strs (p0 ++ tail) l3 cap); try done.
        -- pose proof (add_between p q c' li Hps Hpb Hqs Hcli Hpin Hodd p0 Hp0) as Ha.
           unfold tail. destruct (c' =? UNICODESET_HIGH - 1); apply Ha; lia.
        -- by exists junk3.
        -- rewrite Hcap2, Hl2'. by rewrite Hlen3.
        -- rewrite length_app. lia.
      * exact Hnf.
    + specialize (Hbf eq_refl). cbn [mbind option_bind].
      pose proof (add_before_next p q c' li Hps Hpb Hqs Hcli Hpin Hodd Hbf) as Ha.
      assert (Ha' : adds p q c' li (p ++ c' :: tail)).
      { unfold tail. destruct (c' =? UNICODESET_HIGH - 1); apply Ha; lia. }
      apply (Hadds (p ++ c' :: tail)); [done| |exact Hnf].
      apply (rep_of_parts s strs (p ++ c' :: tail) l2 cap); try done.
      * apply Ha'.
      * exists junk2. rewrite Hl2, <- app_assoc. done.
      * rewrite length_app. simpl. lia.
  - destruct (after_prior_spec (p ++ li :: q ++ junk) (Z.of_nat (length p)) c' p (li :: q ++ junk)
      eq_refl eq_refl) as (b & -> & Hbt & Hbf). cbn [mbind option_bind]. destruct b.
    + (* after the prior range *)
      destruct (Hbt eq_refl) as [p0 Hp0].
      assert (Hpl : length p = (length p0 + 1)%nat) by (by rewrite Hp0, length_app).
      replace (Z.of_nat (length p) - 1) with (Z.of_nat (length p0)) by lia.
      assert (Harr : p ++ li :: q ++ junk = p0 ++ c' :: li :: q ++ junk).
      { rewrite Hp0, <- app_assoc. done. }
      rewrite Harr, aget_middle. cbn [mbind option_bind].
      rewrite aset_middle. cbn [mbind option_bind].
      pose proof (add_after_prior p q c' li Hps Hpb Hqs Hcli Hpin Hodd p0 Hp0) as Ha.
      apply (Hadds (p0 ++ c' + 1 :: li :: q)); [apply Ha; lia| |exact Hnf].
      assert (Hlens : length (p0 ++ c' + 1 :: li :: q ++ junk) = length l).
      { rewrite Hlj, Hla, Hp0. len. }
      replace (set_list s (Some (p0 ++ c' + 1 :: li :: q ++ junk))) with
        (set_len (set_block s (Some (p0 ++ c' + 1 :: li :: q ++ junk)) (capacity s)) (len s))
        by (by destruct s).
      apply (rep_of_parts s strs (p0 ++ c' + 1 :: li :: q)); try done.
      * apply Ha; lia.
      * exists junk. by rewrite <- app_assoc.
      * by rewrite Hcap, Hlens.
      * rewrite Hn, Hlq, length_app. simpl. lia.
    + (* a new range *)
      specialize (Hbf eq_refl).
      destruct (us_ensureCapacity_spec s strs (len s + 2) Hsh Hnf) as
        [(l1 & jk & Hl' & -> & Hroom)|(s' & -> & Hb & Hnf')]; [lia| |].
      2:{ cbn [mbind option_bind]. exists s'. split; [done|]. by right. }
      cbn [mbind option_bind]. change (U_FAILURE U_ZERO_ERROR) with false. cbn iota.
      cbn [set_block list len mbind option_bind]. rewrite Hl in Hl'. injection Hl' as <-.
      rewrite Hlj, Hla in Hroom |- *. rewrite <- !app_assoc in Hroom |- *. cbn [app] in Hroom |- *.
      set (junk2 := junk ++ jk) in *.
      assert (Hroom2 : (2 <= length junk2)%nat) by (revert Hroom; rewrite Hn, Hlq; len).
      destruct (move_up2_list p (li :: q) junk2 Hroom2) as (l3 & a & b & junk3 & Hmv & Hlen3 & Hl3).
      change ((li :: q) ++ junk2) with (li :: q ++ junk2) in Hmv. rewrite Hn, Hla.
      replace (Z.to_nat (Z.of_nat (length (p ++ li :: q)))) with (length (p ++ li :: q)) by lia.
      replace (Z.of_nat (length (p ++ li :: q))) with (Z.of_nat (length p + length (li :: q)))
        by (rewrite length_app; simpl; lia).
      rewrite Hmv. cbn [mbind option_bind]. rewrite Hl3, aset_middle. cbn [mbind option_bind].
      change (c' :: b :: (li :: q) ++ junk3) with ([c'] ++ b :: (li :: q) ++ junk3).
      rewrite app_assoc. replace (Z.of_nat (length p) + 1) with (Z.of_nat (length (p ++ [c'])))
        by (rewrite length_app; simpl; lia).
      rewrite aset_middle. cbn [mbind option_bind].
      pose proof (add_new_range p q c' li Hps Hpb Hqs Hcli Hpin Hodd Hbf) as Ha.
      apply (Hadds (p ++ c' :: c' + 1 :: li :: q)); [apply Ha; lia| |exact Hnf].
      apply (rep_of_parts s strs (p ++ c' :: c' + 1 :: li :: q)); try done.
      * apply Ha; lia.
      * exists junk3. rewrite <- !app_assoc. done.
      * assert (Hx : length l3 = length ((p ++ [c']) ++ c' + 1 :: (li :: q) ++ junk3)).
        { rewrite Hl3. len. }
        rewrite <- Hx, Hlen3. done.
      * rewrite !length_app. simpl. lia.
Qed.

(** ** Strings *)

Lemma length_code_points str : (length str <= 2 * length (code_points str))%nat.
Proof.
  induction str as [str IH] using (induction_ltof1 _ (@length Z)); unfold ltof in IH.
  destruct str as [|c [|t str]]; [simpl; lia|simpl; lia|]. rewrite code_points_cons.
  destruct (_ && _).
  - specialize (IH str). simpl in *. lia.
  - specialize (IH (t :: str)). rewrite (length_cons c (code_points _)). simpl in *. lia.
Qed.

Lemma getSingleCP_spec str :
  is_string str -> 0 < us_length str ->
  (exists c, getSingleCP str = Some c /\ code_points str = [c] /\ 0 <= c < UNICODESET_HIGH) \/
  (getSingleCP str = Some (-1) /\ (1 < length (code_points str))%nat).
Proof.
  intros Hs Hlen. unfold getSingleCP. pose proof (length_code_points str) as Hcp.
  destruct str as [|c [|t [|u str]]].
  - unfold us_length in Hlen. simpl in Hlen. lia.
  - left. exists c. cbn. split_and!; [done|done|..];
      inversion_clear Hs as [|? ? Hc _]; unfold is_uint16, UNICODESET_HIGH in *; lia.
  - assert (Hu : is_uint16 c /\ is_uint16 t) by (inversion_clear Hs as [|? ? ? Ht]; by inversion_clear Ht).
    destruct Hu as [Hc Ht]. unfold is_uint16 in *.
    change (us_length [c; t] >? 2) with false. change (us_length [c; t] =? 1) with false. cbn iota.
    pose proof (char32At_spec [c; t] 0 c [t] Hs) as Hat. change (Z.of_nat 0) with 0 in Hat.
    rewrite Hat; [|simpl; unfold INT32_MAX; lia|done|by intros ? ? ?]. cbn [mbind option_bind].
    rewrite code_points_cons.
    destruct (U16_IS_LEAD c && U16_IS_TRAIL t) eqn:Hpair.
    + left. exists (U16_GET_SUPPLEMENTARY c t).
      rewrite U16_IS_LEAD_spec, U16_IS_TRAIL_spec in Hpair by lia.
      apply andb_prop in Hpair as [[?%Z.leb_le ?%Z.ltb_lt]%andb_prop [?%Z.leb_le ?%Z.ltb_lt]%andb_prop].
      pose proof (BMPSet.supplementary_range c t ltac:(lia) ltac:(lia)).
      rewrite Z.gtb_ltb, (proj2 (Z.ltb_lt _ _)) by lia.
      split_and!; [done|done|lia|unfold UNICODESET_HIGH; lia].
    + right. rewrite Z.gtb_ltb, (proj2 (Z.ltb_ge _ _)) by lia. split; [done|]. simpl. lia.
  - right. unfold us_length. rewrite Z.gtb_ltb, (proj2 (Z.ltb_lt _ _)) by (simpl; lia).
    split; [done|]. simpl in Hcp |- *. simpl in *. lia.
Qed.

Lemma multi_not_single str c : is_string str -> multi str -> code_points str <> [c].
Proof.
  intros Hs [Hlen Hm] Hc. destruct (getSingleCP_spec str Hs Hlen) as [(c' & Heq & _ & Hr)|[_ Hl]].
  - rewrite Hm in Heq. simplify_eq. lia.
  - rewrite Hc in Hl. simpl in Hl. lia.
Qed.

(** An operation yields the set [f] of code points and the set [g] of strings. *)
Definition yields_set (res : option (UnicodeSet V)) (f : Z -> bool) (g : UnicodeString -> Prop) : Prop :=
  exists s', res = Some s' /\
    ((exists la' strs', valid s' la' strs' /\ isFrozen s' = false /\
        (forall c, 0 <= c < UNICODESET_HIGH -> mem la' c = f c) /\ (forall t, t ∈ strs' <-> g t)) \/
     (bogus s' /\ isFrozen s' = false)).

Lemma yields_yields_set res f strs : yields res f strs -> yields_set res f (fun t => t ∈ strs).
Proof.
  intros (s' & -> & [(la' & Hv & Hnf & Hm)|Hb]); exists s'; (split; [done|]); [left|by right].
  by exists la', strs.
Qed.

Lemma yields_set_ext res f f' (g g' : UnicodeString -> Prop) :
  yields_set res f g -> (forall c, 0 <= c < UNICODESET_HIGH -> f c = f' c) ->
  (forall t, g t <-> g' t) -> yields_set res f' g'.
Proof.
  intros (s' & -> & [(la' & strs' & Hv & Hnf & Hm & Hg)|Hb]) Hf Hgg; exists s';
    (split; [done|]); [left|by right].
  exists la', strs'. split; [done|]. split; [done|]. split.
  - intros c Hc. by rewrite Hm, Hf.
  - intros t. by rewrite Hg, Hgg.
Qed.

Lemma yields_set_release res f g :
  yields_set res f g -> yields_set (s ← res; Some (releasePattern s)) f g.
Proof.
  intros (s' & -> & H). cbn [mbind option_bind]. exists (releasePattern s'). split; [done|].
  destruct H as [(la & strs & [Hr Hf] & Hrest)|[[Hf Hr] Hnf]].
  - left. exists la, strs. split; [|exact Hrest]. split; [by apply rep_set_pat|done].
  - right. split; [|exact Hnf]. split; [done|by apply rep_set_pat].
Qed.

(** Running an operation on what another one yields: a bogus set stays bogus. *)
Lemma yields_set_bind res (k : UnicodeSet V -> option (UnicodeSet V)) f g f' g' :
  yields_set res f g ->
  (forall s la strs, valid s la strs -> isFrozen s = false ->
     (forall c, 0 <= c < UNICODESET_HIGH -> mem la c = f c) -> (forall t, t ∈ strs <-> g t) ->
     yields_set (k s) f' g') ->
  (forall s, bogus s -> isFrozen s = false -> exists s', k s = Some s' /\ bogus s' /\ isFrozen s' = false) ->
  yields_set (s ← res; k s) f' g'.
Proof.
  intros (s' & -> & [(la' & strs' & Hv & Hnf & Hm & Hg)|[Hb Hnf]]) Hk Hkb; cbn [mbind option_bind].
  - by eapply Hk.
  - destruct (Hkb s' Hb Hnf) as (s2 & -> & Hb2). exists s2. split; [done|]. by right.
Qed.

Lemma StronglySorted_sublist {B} (R : B -> B -> Prop) (l k : Datatypes.list B) :
  sublist l k -> StronglySorted R k -> StronglySorted R l.
Proof.
  induction 1 as [|x l k Hsub IH|x l k Hsub IH]; intros Hs; [constructor| |].
  - inversion_clear Hs as [|? ? Hk Hx]. constructor; [by apply IH|].
    rewrite Forall_forall in Hx |- *. intros y Hy. apply Hx. by eapply elem_of_sublist.
  - inversion_clear Hs. by apply IH.
Qed.

End Theorems.

End UnicodeSet.
