(* ===== verification/UnicodeSetSample.v ===== *)
(** * A concrete set, modifiable and frozen

    The instances of the properties of sets are about these.  The vectors of
    strings are those of UVector, with an allocator that clears its blocks. *)
From S2P Require Import Prelude Utf16 InversionList BMPSet UVector StringVector UnicodeSet.
Import UnicodeSet.UnicodeSet.

Local Open Scope Z_scope.

#[export] Instance cells : Allocator (UVector.UElement UnicodeString).
Proof.
  refine {| fresh n := Some (replicate (Z.to_nat n) UVector.Null) |}.
  intros n l [= <-]. rewrite length_replicate. lia.
Defined.

Definition StringSet : Type := UnicodeSet (UVector.UVector UnicodeString).

Definition ch : UnicodeString := [0x63; 0x68].
Definition ll : UnicodeString := [0x6c; 0x6c].

Definition vector_of (l : Datatypes.list UnicodeString) : UVector.UVector UnicodeString :=
  UVector.mk (Z.of_nat (length l)) (Z.of_nat (length l)) (UVector.Pointer <$> l) true
    (Some uhash_compareUnicodeString) [].

Definition sample_list : Datatypes.list Z := [0x61; 0x7b; 0x1f600; UNICODESET_HIGH].

(** [[a-z \U0001F600-\U0010FFFF {ch} {ll}]] *)
Definition sample : StringSet :=
  mk 4 6 (Some (sample_list ++ [0; 0])) None (Some [0; 0]) 2 None (Some (vector_of [ch; ll])) None 0.

(** The same set, frozen. *)
Definition frozen_sample : StringSet :=
  set_frozen (set_buffer sample None 0) (BMPSet.new (sample_list ++ [0; 0]) 4) None.

Lemma sample_holds : holds (sample_list ++ [0; 0]) 4 sample_list.
Proof.
  split; [split; [split|]|].
  - unfold sample_list, UNICODESET_HIGH. repeat (constructor; [|repeat (constructor; [lia|]); constructor]).
    constructor.
  - done.
  - unfold sample_list, UNICODESET_HIGH. repeat (constructor; [lia|]). constructor.
  - split; [done|]. by exists [0; 0].
Qed.

Lemma sample_strings : sv_ok (vector_of [ch; ll]) /\ sv_contents (vector_of [ch; ll]) = [ch; ll].
Proof.
  split; [|done]. constructor.
  - constructor; [done|done|]. unfold UVector.MAX_CELLS, INT32_MAX. cbn. dlia.
  - done.
  - done.
  - unfold ch, ll. repeat (constructor; [repeat (constructor; [unfold is_uint16; lia|]); constructor|]).
    constructor.
Qed.

Lemma sample_sorted : StronglySorted lex_lt [ch; ll] /\ Forall multi [ch; ll].
Proof.
  split.
  - constructor; [by repeat constructor|]. by constructor.
  - repeat (constructor; [done|]). constructor.
Qed.

Lemma sample_valid : valid sample sample_list [ch; ll].
Proof.
  destruct sample_sorted. split; [|done]. constructor; try done.
  - exists (sample_list ++ [0; 0]). split_and!; [done|exact sample_holds|done].
  - by intros b [= <-].
  - exists (vector_of [ch; ll]). split; [done|apply sample_strings].
Qed.

Lemma sample_rep : rep sample sample_list [ch; ll].
Proof. apply sample_valid. Qed.

Lemma frozen_sample_rep : rep frozen_sample sample_list [ch; ll].
Proof.
  destruct (BMPSet.new_ok _ _ _ sample_holds) as (b & Hb & Hok).
  unfold frozen_sample. rewrite Hb. destruct sample_rep as [H1 H2 H3 H4 H5 H6 H7].
  constructor; try done. intros b' [= <-]. by exists 4.
Qed.
