(* ===== verification/UnicodeSetStrings.v ===== *)
(** * The strings of a UnicodeSet, and operations between two sets
    (src/common/uniset.cpp)

    Adding, removing and complementing strings keeps the vector sorted and free
    of duplicates; the operations between two sets are union, intersection,
    difference and symmetric difference on code points and on strings. *)
From S2P Require Import Prelude Utf16 InversionList BMPSet UVector StringVector UnicodeSet.
Import UnicodeSet.UnicodeSet.

Local Open Scope Z_scope.

Section Strings.
Context {V : Type} {sv : StringVector V} {alloc : Allocator Z}.
Implicit Types s o : UnicodeSet V.

#[local] Instance lex_le_trans : Transitive lex_le.
Proof. exact lex_trans. Qed.

Lemma lex_lt_le_neq t u : lex_lt t u <-> lex_le t u /\ t <> u.
Proof.
  unfold lex_lt, lex_le. split.
  - intros H. split; [lia|]. intros ->. rewrite lex_refl in H. lia.
  - intros [H Hne]. destruct (Z.eq_dec (lex t u) 0) as [He|]; [|lia]. by apply lex_eq in He.
Qed.

Lemma sorted_strict l : StronglySorted lex_lt l <-> Sorted lex_le l /\ NoDup l.
Proof.
  split.
  - intros Hs. split.
    + apply StronglySorted_Sorted. induction Hs as [|x l Hs IH Hx]; [constructor|].
      constructor; [done|]. eapply Forall_impl; [exact Hx|]. by intros ? [? ?]%lex_lt_le_neq.
    + induction Hs as [|x l Hs IH Hx]; [constructor|]. constructor; [|done].
      intros Hin. rewrite Forall_forall in Hx. by destruct (proj1 (lex_lt_le_neq _ _) (Hx _ Hin)).
  - intros [Hs%Sorted_StronglySorted Hnd]; [|apply lex_le_trans].
    induction Hs as [|x l Hs IH Hx]; [constructor|]. apply NoDup_cons in Hnd as [Hn Hnd].
    constructor; [by apply IH|]. rewrite Forall_forall in Hx |- *. intros y Hy.
    apply lex_lt_le_neq. split; [by apply Hx|]. by intros ->.
Qed.

Lemma rep_NoDup s la strs : rep s la strs -> NoDup strs.
Proof. intros Hr. by apply sorted_strict, (rep_sorted _ _ _ Hr). Qed.

(** Replacing the vector of strings. *)
Lemma rep_set_strings s la strs v strs' :
  rep s la strs -> sv_ok v -> sv_contents v = strs' -> StronglySorted lex_lt strs' ->
  Forall multi strs' -> rep (set_strings s (Some v)) la strs'.
Proof. intros [] ? ? ? ?. constructor; try done. by exists v. Qed.

Lemma valid_set_strings s la strs v strs' :
  valid s la strs -> sv_ok v -> sv_contents v = strs' -> StronglySorted lex_lt strs' ->
  Forall multi strs' -> valid (set_strings s (Some v)) la strs'.
Proof. intros [Hr Hf] ? ? ? ?. split; [by eapply rep_set_strings|done]. Qed.

Lemma bogus_set_strings s v : bogus s -> sv_ok v -> sv_contents v = [] -> bogus (set_strings s (Some v)).
Proof.
  intros [Hf Hr] ? ?. split; [done|]. eapply rep_set_strings; [done..|constructor|constructor].
Qed.

Lemma valid_strings s la strs :
  valid s la strs -> exists v, strings s = Some v /\ sv_ok v /\ sv_contents v = strs.
Proof. intros [Hr _]. apply (rep_strings _ _ _ Hr). Qed.

Lemma valid_is_string s la strs t : valid s la strs -> t ∈ strs -> is_string t.
Proof.
  intros Hv Hin. destruct (valid_strings _ _ _ Hv) as (v & _ & Hok & <-).
  pose proof (sv_strings_law v Hok) as H. rewrite Forall_forall in H. by apply H.
Qed.

(** A sublist of the strings, as removals give. *)
Lemma valid_filter s la strs v strs' :
  valid s la strs -> sv_ok v -> sv_contents v = strs' -> sublist strs' strs ->
  valid (set_strings s (Some v)) la strs'.
Proof.
  intros Hv Hok Hc Hsub. pose proof (proj1 Hv) as Hr. eapply valid_set_strings; [done..| |].
  - eapply StronglySorted_sublist; [done|]. apply (rep_sorted _ _ _ Hr).
  - pose proof (rep_multi _ _ _ Hr) as Hm. rewrite Forall_forall in Hm |- *. intros t Ht.
    apply Hm. by eapply elem_of_sublist.
Qed.

Lemma yields_set_intro s la strs f (g : UnicodeString -> Prop) :
  valid s la strs -> isFrozen s = false ->
  (forall c, 0 <= c < UNICODESET_HIGH -> mem la c = f c) -> (forall t, t ∈ strs <-> g t) ->
  yields_set (Some s) f g.
Proof. intros. exists s. split; [done|]. left. by exists la, strs. Qed.

Lemma remove_first_in t u (l : Datatypes.list UnicodeString) :
  NoDup l -> u ∈ remove_first t l <-> u ∈ l /\ u <> t.
Proof. intros Hnd. rewrite remove_first_filter by done. rewrite list_elem_of_filter.
  split; intros [? ?]; (split; [done|congruence]). Qed.

Lemma remove_first_sublist t (l : Datatypes.list UnicodeString) : NoDup l -> sublist (remove_first t l) l.
Proof. intros Hnd. rewrite remove_first_filter by done. apply sublist_filter. Qed.

(** ** One string *)

Lemma _add_spec s la strs t :
  valid s la strs -> isFrozen s = false -> is_string t -> multi t -> t ∉ strs ->
  yields_set (_add s t) (mem la) (fun u => u = t \/ u ∈ strs).
Proof.
  intros Hv Hnf Ht Hm Hn. unfold _add. rewrite Hnf, (valid_not_bogus _ _ _ Hv). cbn [orb].
  destruct (valid_strings _ _ _ Hv) as (v & Hsv & Hok & Hc). rewrite Hsv. cbn [mbind option_bind].
  pose proof (proj1 Hv) as Hr. pose proof (rep_sorted _ _ _ Hr) as Hso.
  destruct (sv_sortedInsert_law v t U_ZERO_ERROR Hok Ht) as (v' & st & -> & Hok' & Hres).
  { rewrite Hc. by apply sorted_strict. }
  cbn [mbind option_bind]. destruct Hres as [(-> & i & Hc' & Hs')|[Hfail ->]].
  - change (U_FAILURE U_ZERO_ERROR) with false. cbn iota. rewrite Hc in Hc'.
    pose proof (insert_at_Permutation i t strs) as Hp.
    eapply yields_set_intro; [eapply valid_set_strings; [done..| |]|done|done|].
    + apply sorted_strict. split; [by rewrite <- Hc'|]. rewrite Hp. constructor; [done|].
      by eapply rep_NoDup.
    + rewrite Hp. constructor; [done|]. apply (rep_multi _ _ _ Hr).
    + intros u. by rewrite Hp, elem_of_cons.
  - rewrite Hfail. assert (Hsh : shape (set_strings s (Some v)) strs).
    { eapply rep_shape, rep_set_strings; [done..|]. apply (rep_multi _ _ _ Hr). }
    destruct (setToBogus_spec _ _ Hsh Hnf) as (s' & -> & Hb). exists s'. split; [done|]. by right.
Qed.

Lemma remove_element_spec s la strs v t :
  valid s la strs -> strings s = Some v -> sv_ok v -> sv_contents v = strs ->
  exists v', sv_removeElement v t = Some (bool_decide (t ∈ strs), v') /\
    valid (set_strings s (Some v')) la (remove_first t strs).
Proof.
  intros Hv Hsv Hok Hc. destruct (sv_removeElement_law v t Hok) as (v' & Hrm & Hok' & Hc').
  rewrite Hc in Hrm, Hc'. exists v'. split; [done|]. eapply valid_filter; [done..|].
  apply remove_first_sublist. by eapply rep_NoDup, (proj1 Hv).
Qed.

(** What a set holds: a string of one code point stands for the code point. *)
Definition has (f : Z -> bool) (g : UnicodeString -> Prop) (t : UnicodeString) : Prop :=
  match code_points t with
  | [] => False
  | [c] => f c = true
  | _ => g t
  end.

Lemma multi_spec t : is_string t -> multi t <-> 0 < us_length t /\ (1 < length (code_points t))%nat.
Proof.
  intros Ht. split.
  - intros [Hl Hm]. split; [done|]. destruct (getSingleCP_spec t Ht Hl) as [(c & Heq & _ & Hr)|[_ ?]]; [|done].
    rewrite Hm in Heq. injection Heq as <-. lia.
  - intros [Hl Hm]. split; [done|]. destruct (getSingleCP_spec t Ht Hl) as [(c & _ & Hc & _)|[? _]]; [|done].
    rewrite Hc in Hm. simpl in Hm. lia.
Qed.

Lemma single_empty t : us_length t = 0 <-> t = [].
Proof. unfold us_length. destruct t; simpl; split; (done || lia). Qed.

Lemma pos_length t : t <> [] -> 0 < us_length t.
Proof. intros. unfold us_length. destruct t; [done|simpl; lia]. Qed.

(** The three shapes of a string argument. *)
Lemma string_cases t :
  is_string t ->
  t = [] \/
  (0 < us_length t /\ exists c, getSingleCP t = Some c /\ code_points t = [c] /\
     0 <= c < UNICODESET_HIGH /\ ~ multi t) \/
  (0 < us_length t /\ getSingleCP t = Some (-1) /\ multi t /\ forall c, code_points t <> [c]).
Proof.
  intros Ht. destruct (decide (t = [])) as [->|Hne]; [by left|]. right.
  pose proof (pos_length t Hne) as Hl. destruct (getSingleCP_spec t Ht Hl) as [(c & Hg & Hc & Hr)|[Hg Hc]].
  - left. split; [done|]. exists c. split_and!; [done|done|lia|lia|].
    intros [_ Hm]. rewrite Hg in Hm. injection Hm as ->. lia.
  - right. split_and!; [done|done|done|]. intros c Heq. rewrite Heq in Hc. simpl in Hc. lia.
Qed.

(** The code points a string argument stands for, as a set. *)
Definition is_cp (t : UnicodeString) (c : Z) : bool := bool_decide (code_points t = [c]).

Lemma is_cp_single t c x : code_points t = [c] -> is_cp t x = (x =? c).
Proof.
  intros H. unfold is_cp. rewrite H. destruct (Z.eqb_spec x c) as [->|Hne].
  - by apply bool_decide_eq_true.
  - apply bool_decide_eq_false. congruence.
Qed.

Lemma is_cp_multi t x : (forall c, code_points t <> [c]) -> is_cp t x = false.
Proof. intros H. by apply bool_decide_eq_false. Qed.

Lemma not_multi_in s la strs t u : valid s la strs -> ~ multi t -> u ∈ strs -> u <> t.
Proof.
  intros [Hr _] Hm Hin ->. apply Hm. pose proof (rep_multi _ _ _ Hr) as H.
  rewrite Forall_forall in H. by apply H.
Qed.

Lemma in_pinned_single c x : 0 <= c < UNICODESET_HIGH -> in_pinned c c x = (x =? c).
Proof.
  intros Hc. unfold in_pinned. rewrite !pinCodePoint_id by done. repeat (zcase; try lia); done.
Qed.

Lemma us_length_nil : (us_length [] =? 0) = true.
Proof. done. Qed.

Lemma us_length_pos t : 0 < us_length t -> (us_length t =? 0) = false.
Proof. intros. by rewrite (proj2 (Z.eqb_neq _ _)) by lia. Qed.

Lemma multi_nil : ~ multi [].
Proof. intros [H _]. unfold us_length in H. simpl in H. lia. Qed.

(** An operation that does nothing. *)
Lemma yields_set_same s la strs f (g : UnicodeString -> Prop) :
  valid s la strs -> isFrozen s = false ->
  (forall c, 0 <= c < UNICODESET_HIGH -> mem la c = f c) -> (forall t, t ∈ strs <-> g t) ->
  yields_set (Some s) f g.
Proof. apply yields_set_intro. Qed.

Lemma add_string_yields s la strs t :
  valid s la strs -> isFrozen s = false -> is_string t ->
  yields_set (add_string s t) (fun c => is_cp t c || mem la c)
    (fun u => u = t /\ multi t \/ u ∈ strs).
Proof.
  intros Hv Hnf Ht. unfold add_string. rewrite Hnf, (valid_not_bogus _ _ _ Hv), !orb_false_r.
  destruct (string_cases t Ht) as [->|[(Hl & c & Hg & Hc & Hr & Hm)|(Hl & Hg & Hm & Hc)]].
  - rewrite us_length_nil. eapply yields_set_same; [done..|]. intros u.
    split; [by right|]. by intros [[_ []%multi_nil]|].
  - rewrite (us_length_pos _ Hl), Hg. cbn [mbind option_bind].
    rewrite (proj2 (Z.ltb_ge c 0)) by lia.
    eapply yields_set_ext; [by eapply yields_yields_set, add_spec|..].
    + intros x _. cbv beta. by rewrite (is_cp_single t c), pinCodePoint_id.
    + intros u. split; [by right|]. by intros [[_ ?]|].
  - rewrite (us_length_pos _ Hl), Hg. cbn [mbind option_bind].
    change (-1 <? 0) with true. cbn iota.
    destruct (valid_strings _ _ _ Hv) as (v & Hsv & Hok & Hct). rewrite Hsv. cbn [mbind option_bind].
    rewrite (sv_contains_law v t Hok), Hct. cbn [mbind option_bind].
    destruct (decide (t ∈ strs)) as [Hin|Hin].
    + rewrite bool_decide_eq_true_2 by done. cbn [negb].
      eapply yields_set_same; [done..|intros x _; by rewrite is_cp_multi|].
      intros u. split; [by right|]. by intros [[-> _]|].
    + rewrite bool_decide_eq_false_2 by done. cbn [negb]. apply yields_set_release.
      eapply yields_set_ext; [by eapply _add_spec|intros x _; by rewrite is_cp_multi|].
      intros u. split; (intros [?|?]; [left|by right]); [done|tauto].
Qed.

Lemma remove_string_yields s la strs t :
  valid s la strs -> isFrozen s = false -> is_string t ->
  yields_set (remove_string s t) (fun c => mem la c && negb (is_cp t c))
    (fun u => u ∈ strs /\ u <> t).
Proof.
  intros Hv Hnf Ht. unfold remove_string. rewrite Hnf, (valid_not_bogus _ _ _ Hv), !orb_false_r.
  destruct (string_cases t Ht) as [->|[(Hl & c & Hg & Hc & Hr & Hm)|(Hl & Hg & Hm & Hc)]].
  - rewrite us_length_nil. eapply yields_set_same; [done..| |].
    + intros x _. by rewrite andb_true_r.
    + intros u. split; [|by intros [? _]]. intros Hu. split; [done|].
      by eapply not_multi_in, Hu; [done|apply multi_nil].
  - rewrite (us_length_pos _ Hl), Hg. cbn [mbind option_bind].
    rewrite (proj2 (Z.ltb_ge c 0)) by lia.
    eapply yields_set_ext; [by eapply yields_yields_set, remove_range_spec|..].
    + intros x _. cbv beta. by rewrite (is_cp_single t c), in_pinned_single.
    + intros u. split; [|by intros [? _]]. intros Hu. split; [done|]. by eapply not_multi_in.
  - rewrite (us_length_pos _ Hl), Hg. cbn [mbind option_bind].
    change (-1 <? 0) with true. cbn iota.
    destruct (valid_strings _ _ _ Hv) as (v & Hsv & Hok & Hct). rewrite Hsv. cbn [mbind option_bind].
    destruct (remove_element_spec s la strs v t Hv Hsv Hok Hct) as (v' & -> & Hv').
    cbn [mbind option_bind]. apply (yields_set_release (Some (set_strings s (Some v')))).
    eapply yields_set_intro; [exact Hv'|done|intros x _; by rewrite is_cp_multi, andb_true_r|].
    intros u. apply remove_first_in. by eapply rep_NoDup, (proj1 Hv).
Qed.

Lemma complement_string_yields s la strs t :
  valid s la strs -> isFrozen s = false -> is_string t ->
  yields_set (complement_string s t) (fun c => xorb (mem la c) (is_cp t c))
    (fun u => u ∈ strs /\ u <> t \/ u = t /\ multi t /\ t ∉ strs).
Proof.
  intros Hv Hnf Ht. unfold complement_string. rewrite Hnf, (valid_not_bogus _ _ _ Hv), !orb_false_r.
  assert (Hsame : ~ multi t -> forall u, u ∈ strs <-> u ∈ strs /\ u <> t \/ u = t /\ multi t /\ t ∉ strs).
  { intros Hm u. split; [|by intros [[? _]|(_ & ? & _)]]. intros Hu. left. split; [done|].
    by eapply not_multi_in. }
  destruct (string_cases t Ht) as [->|[(Hl & c & Hg & Hc & Hr & Hm)|(Hl & Hg & Hm & Hc)]].
  - rewrite us_length_nil. eapply yields_set_same; [done..| |by apply Hsame, multi_nil].
    intros x _. by rewrite xorb_false_r.
  - rewrite (us_length_pos _ Hl), Hg. cbn [mbind option_bind].
    rewrite (proj2 (Z.ltb_ge c 0)) by lia.
    eapply yields_set_ext; [by eapply yields_yields_set, complement_range_spec| |by apply Hsame].
    intros x _. cbv beta. by rewrite (is_cp_single t c), in_pinned_single.
  - rewrite (us_length_pos _ Hl), Hg. cbn [mbind option_bind].
    change (-1 <? 0) with true. cbn iota.
    destruct (valid_strings _ _ _ Hv) as (v & Hsv & Hok & Hct). rewrite Hsv. cbn [mbind option_bind].
    rewrite (sv_contains_law v t Hok), Hct. cbn [mbind option_bind].
    apply yields_set_release. destruct (decide (t ∈ strs)) as [Hin|Hin].
    + rewrite bool_decide_eq_true_2 by done.
      destruct (remove_element_spec s la strs v t Hv Hsv Hok Hct) as (v' & -> & Hv').
      cbn [mbind option_bind].
      eapply yields_set_intro; [exact Hv'|done|intros x _; by rewrite is_cp_multi, xorb_false_r|].
      intros u. rewrite remove_first_in by (by eapply rep_NoDup, (proj1 Hv)).
      split; [by left|]. by intros [?|(_ & _ & ?)].
    + rewrite bool_decide_eq_false_2 by done.
      eapply yields_set_ext; [by eapply _add_spec|intros x _; by rewrite is_cp_multi, xorb_false_r|].
      intros u. split.
      * intros [->|Hu]; [by right|]. left. split; [done|]. by intros ->.
      * intros [[? _]|[? _]]; [by right|by left].
Qed.

(** ** Each code point of a string *)

Lemma mem_empty x : x < UNICODESET_HIGH -> mem [UNICODESET_HIGH] x = false.
Proof.
  intros Hx. rewrite mem_par by done. simpl. by rewrite (proj2 (Z.leb_gt _ _)) by lia.
Qed.

Lemma bogus_pin_find s c : bogus s -> exists i, find s (pinCodePoint c) = Some i.
Proof.
  intros [_ Hr]. pose proof (rep_list _ _ _ Hr) as (l & Hl & Hh & _).
  pose proof (pinCodePoint_range c) as Hp.
  destruct (findCodePoint_spec l (len s) _ (pinCodePoint c) Hh) as (i & Hf & Hfa); [lia|].
  exists i. unfold find. by rewrite Hl.
Qed.

Lemma add_bogus s c : bogus s -> add s c = Some s.
Proof.
  intros Hb. unfold add. destruct (bogus_pin_find s c Hb) as (i & ->).
  cbn [mbind option_bind]. by rewrite (bogus_isBogus _ Hb), !orb_true_r.
Qed.

(** One step over a string with [char32At]. *)
Lemma char32At_step str (i : nat) :
  is_string str -> Z.of_nat (length str) <= INT32_MAX -> (i < length str)%nat ->
  boundary (take i str) (drop i str) ->
  exists cp i', char32At str (Z.of_nat i) = Some cp /\ Z.of_nat i + U16_LENGTH cp = Z.of_nat i' /\
    code_points (drop i str) = cp :: code_points (drop i' str) /\ (i < i' <= length str)%nat /\
    boundary (take i' str) (drop i' str) /\ 0 <= cp < UNICODESET_HIGH.
Proof.
  intros Hs Hmax Hi Hbd. destruct (lookup_lt_is_Some_2 str i Hi) as [c Hc].
  pose proof (drop_S str c i Hc) as Hd. pose proof (take_S_r str i c Hc) as Ht.
  assert (Hc16 : 0 <= c < 0x10000) by (by apply (Forall_lookup_1 is_uint16 str i)).
  rewrite (char32At_spec str i c (drop (S i) str) Hs Hmax Hd Hbd). rewrite Hd, code_points_cons.
  destruct (drop (S i) str) as [|t rest] eqn:Hd'.
  - exists c, (S i). rewrite U16_LENGTH_spec, (proj2 (Z.ltb_lt _ _)) by lia.
    split_and!; [done|lia|by rewrite Hd'|lia|lia| |lia|unfold UNICODESET_HIGH; lia].
    rewrite Hd'. by intros ? ? ?.
  - pose proof (lookup_drop str (S i) 0) as Ht2. rewrite Hd', Nat.add_0_r in Ht2. symmetry in Ht2.
    cbn [lookup list_lookup] in Ht2.
    pose proof (lookup_lt_Some _ _ _ Ht2). pose proof (drop_S str t (S i) Ht2) as Hd2.
    rewrite Hd' in Hd2. injection Hd2 as Hd2.
    assert (Ht16 : 0 <= t < 0x10000) by (by apply (Forall_lookup_1 is_uint16 str (S i))).
    destruct (U16_IS_LEAD c && U16_IS_TRAIL t) eqn:Hp.
    + exists (U16_GET_SUPPLEMENTARY c t), (S (S i)).
      pose proof Hp as Hp'. rewrite U16_IS_LEAD_spec, U16_IS_TRAIL_spec in Hp' by lia.
      apply andb_prop in Hp' as [[?%Z.leb_le ?%Z.ltb_lt]%andb_prop [?%Z.leb_le ?%Z.ltb_lt]%andb_prop].
      pose proof (BMPSet.supplementary_range c t ltac:(lia) ltac:(lia)).
      rewrite U16_LENGTH_spec, (proj2 (Z.ltb_ge _ _)) by lia.
      split_and!; [done|lia|by rewrite <- Hd2|lia|lia| |lia|unfold UNICODESET_HIGH; lia].
      intros l x. rewrite (take_S_r _ _ _ Ht2), last_snoc. intros [= <-] _.
      apply andb_prop in Hp as [_ Hp]. destruct (U16_IS_LEAD t) eqn:Hl; [|done].
      by rewrite (lead_not_trail _ Hl) in Hp.
    + exists c, (S i). rewrite U16_LENGTH_spec, (proj2 (Z.ltb_lt _ _)) by lia.
      split_and!; [done|lia|by rewrite Hd'|lia|lia| |lia|unfold UNICODESET_HIGH; lia].
      intros l x. rewrite Ht, last_snoc, Hd'. by intros [= <-] [= <-].
Qed.

Lemma addAll_string_loop_yields str : is_string str -> Z.of_nat (length str) <= INT32_MAX ->
  forall n (i : nat), (length str - i <= n)%nat -> (i <= length str)%nat ->
  boundary (take i str) (drop i str) ->
  (forall s la strs, valid s la strs -> isFrozen s = false ->
    yields (addAll_string_loop n s str (Z.of_nat i))
      (fun c => mem la c || bool_decide (c ∈ code_points (drop i str))) strs) /\
  (forall s, bogus s -> addAll_string_loop n s str (Z.of_nat i) = Some s).
Proof.
  intros Hs Hmax. induction n as [|n IH]; intros i Hn Hi Hbd;
    cbn [addAll_string_loop]; unfold us_length;
    (destruct (Z.ltb_spec (Z.of_nat i) (Z.of_nat (length str)));
      [|split; [|done]; intros; rewrite drop_ge by lia;
        eapply yields_same; [done..|intros x _; by rewrite orb_false_r]]); [lia|].
  destruct (char32At_step str i) as (cp & i' & Hat & Hi' & Hcp & Hlt & Hbd' & Hr);
    [done|done|lia|done|].
  rewrite Hat. cbn [mbind option_bind].
  destruct (IH i') as [IHv IHb]; [lia|lia|done|]. split.
  - intros s la strs Hv Hnf.
    destruct (add_spec s la strs cp Hv Hnf) as (s' & -> & [(la' & Hv' & Hnf' & Hm)|[Hb' Hnf']]);
      cbn [mbind option_bind]; rewrite Hi'.
    + eapply yields_ext; [by eapply IHv|]. intros x Hx. cbv beta. rewrite Hm by done.
      rewrite (pinCodePoint_id cp) by done. rewrite Hcp.
      destruct (Z.eqb_spec x cp) as [->|Hne]; cbn [orb].
      * symmetry. apply orb_true_intro. right. apply bool_decide_eq_true. left.
      * f_equal. apply bool_decide_ext. rewrite elem_of_cons. split; [by right|]. by intros [?|?].
    + rewrite IHb by done. exists s'. split; [done|]. by right.
  - intros s Hb. rewrite (add_bogus s cp Hb). cbn [mbind option_bind]. rewrite Hi'. by apply IHb.
Qed.

Lemma addAll_string_yields s la strs str :
  valid s la strs -> isFrozen s = false -> is_string str -> Z.of_nat (length str) <= INT32_MAX ->
  yields (addAll_string s str) (fun c => mem la c || bool_decide (c ∈ code_points str)) strs.
Proof.
  intros Hv Hnf Hs Hmax. unfold addAll_string.
  destruct (addAll_string_loop_yields str Hs Hmax (length str) 0) as [H _]; [lia|lia|by intros ? ? ?|].
  by eapply H.
Qed.

(** ** Two sets *)

(** Union and symmetric difference go through the strings of the argument one by
    one; [k] is what one string does. *)
Lemma addAll_strings_yields ov strsb :
  sv_ok ov -> sv_contents ov = strsb -> Forall multi strsb ->
  forall n (i : nat), (length strsb - i <= n)%nat ->
  (forall s la strs, valid s la strs -> isFrozen s = false ->
    yields_set (addAll_strings n s ov (Z.of_nat i)) (mem la) (fun t => t ∈ strs \/ t ∈ drop i strsb)) /\
  (forall s, bogus s -> isFrozen s = false -> addAll_strings n s ov (Z.of_nat i) = Some s).
Proof.
  intros Hok Hc Hmu. induction n as [|n IH]; intros i Hn; cbn [addAll_strings];
    rewrite (sv_size_law ov Hok), Hc;
    (destruct (Z.ltb_spec (Z.of_nat i) (Z.of_nat (length strsb)));
      [|split; [|done]; intros; eapply yields_set_same; [done..|];
        intros t; rewrite drop_ge by lia; rewrite elem_of_nil; tauto]); [lia|].
  destruct (lookup_lt_is_Some_2 strsb i) as [t Ht]; [lia|].
  rewrite (sv_elementAt_law ov i t Hok) by (by rewrite Hc). cbn [mbind option_bind].
  destruct (IH (S i)) as [IHv IHb]; [lia|]. rewrite (drop_S _ _ _ Ht).
  replace (Z.of_nat i + 1) with (Z.of_nat (S i)) by lia.
  assert (Hmt : multi t) by (rewrite Forall_forall in Hmu; by eapply Hmu, list_elem_of_lookup_2).
  assert (Hst : is_string t).
  { pose proof (sv_strings_law ov Hok) as H'. rewrite Hc, Forall_forall in H'.
    by eapply H', list_elem_of_lookup_2. }
  split.
  - intros s la strs Hv Hnf. destruct (valid_strings _ _ _ Hv) as (v & Hsv & Hvok & Hvc).
    rewrite Hsv. cbn [mbind option_bind]. rewrite (sv_contains_law v t Hvok), Hvc.
    cbn [mbind option_bind]. destruct (decide (t ∈ strs)) as [Hin|Hin].
    + rewrite bool_decide_eq_true_2 by done. cbn [negb mbind option_bind].
      eapply yields_set_ext; [by apply IHv|done|]. intros u. cbv beta. rewrite elem_of_cons.
      split; [tauto|]. intros [?|[->|?]]; tauto.
    + rewrite bool_decide_eq_false_2 by done. cbn [negb].
      eapply yields_set_bind; [by eapply _add_spec| |intros s' Hb Hf'; exists s'; by rewrite IHb].
      intros s' la' strs' Hv' Hnf' Hm Hg. eapply yields_set_ext; [by apply IHv|done|].
      intros u. cbv beta. rewrite Hg, elem_of_cons. tauto.
  - intros s Hb Hnf. destruct Hb as [Hbf Hbr]. destruct (rep_strings _ _ _ Hbr) as (v & Hsv & Hvok & Hvc).
    rewrite Hsv. cbn [mbind option_bind]. rewrite (sv_contains_law v t Hvok), Hvc.
    cbn [mbind option_bind]. rewrite bool_decide_eq_false_2 by apply not_elem_of_nil. cbn [negb].
    unfold _add. rewrite (bogus_isBogus s), orb_true_r by done. cbn [mbind option_bind]. by apply IHb.
Qed.

Lemma rep_holds_len s la strs : rep s la strs -> 0 < len s.
Proof.
  intros Hr. destruct (rep_list _ _ _ Hr) as (l & _ & (Hw & -> & _) & _).
  destruct la; [|simpl; lia]. destruct Hw as [[_ Hl] _]. done.
Qed.

Lemma addAll_yields s la strs o lb strsb :
  valid s la strs -> isFrozen s = false -> rep o lb strsb ->
  yields_set (addAll s o) (fun c => mem la c || mem lb c) (fun t => t ∈ strs \/ t ∈ strsb).
Proof.
  intros Hv Hnf Ho. unfold addAll. destruct (rep_list _ _ _ Ho) as (l & Hl & Hh & _).
  pose proof (rep_holds_len _ _ _ Ho) as Hpos.
  rewrite Hl, Z.gtb_ltb, (proj2 (Z.ltb_lt _ _)) by done.
  destruct (rep_strings _ _ _ Ho) as (ov & Hov & Hok & Hc).
  destruct (addAll_strings_yields ov strsb Hok Hc (rep_multi _ _ _ Ho) (Z.to_nat (sv_size ov)) 0)
    as [IHv IHb]; [rewrite (sv_size_law ov Hok), Hc; lia|]. rewrite Hov.
  eapply yields_set_bind; [eapply yields_yields_set, add_list_spec; [done|done|done|lia|lia]|..].
  - intros s' la' strs' Hv' Hnf' Hm Hg. eapply yields_set_ext; [by apply (IHv s')|done|].
    intros u. cbv beta. by rewrite Hg.
  - intros s' Hb Hnf'. exists s'. split; [|done]. by apply (IHb s').
Qed.

(** Putting the result of an operation on the vector back. *)
Lemma yields_vector s la strs v' strs' f (g : UnicodeString -> Prop) :
  valid s la strs -> isFrozen s = false -> sv_ok v' -> sv_contents v' = strs' -> sublist strs' strs ->
  (forall c, 0 <= c < UNICODESET_HIGH -> mem la c = f c) -> (forall t, t ∈ strs' <-> g t) ->
  yields_set (Some (set_strings s (Some v'))) f g.
Proof. intros. eapply yields_set_intro; [by eapply valid_filter|done..]. Qed.

Lemma bogus_strings s : bogus s -> exists v, strings s = Some v /\ sv_ok v /\ sv_contents v = [].
Proof. intros [_ Hr]. apply (rep_strings _ _ _ Hr). Qed.

Lemma retainAll_yields s la strs o lb strsb :
  valid s la strs -> isFrozen s = false -> rep o lb strsb ->
  yields_set (retainAll s (Some o)) (fun c => mem la c && mem lb c) (fun t => t ∈ strs /\ t ∈ strsb).
Proof.
  intros Hv Hnf Ho. unfold retainAll. rewrite Hnf, (valid_not_bogus _ _ _ Hv). cbn [orb this_or strings_of].
  destruct (rep_list _ _ _ Ho) as (l & -> & Hh & _).
  pose proof (rep_holds_len _ _ _ Ho) as Hpos. cbn [mbind option_bind].
  destruct (rep_strings _ _ _ Ho) as (ov & -> & Hok & Hc). cbn [mbind option_bind].
  eapply yields_set_bind; [eapply yields_yields_set, retain_list_spec; [done|done|done|lia..]|..].
  - intros s' la' strs' Hv' Hnf' Hm Hg. destruct (valid_strings _ _ _ Hv') as (v & -> & Hvok & Hvc).
    cbn [mbind option_bind]. destruct (sv_retainAll_law v ov Hvok Hok) as (v' & -> & Hok' & Hc').
    rewrite Hvc, Hc in Hc'. cbn [mbind option_bind].
    eapply yields_vector; [exact Hv'|done|done|exact Hc'|apply sublist_filter|exact Hm|].
    intros t. rewrite list_elem_of_filter, Hg. tauto.
  - intros s' Hb Hnf'. destruct (bogus_strings s' Hb) as (v & -> & Hvok & Hvc).
    cbn [mbind option_bind]. destruct (sv_retainAll_law v ov Hvok Hok) as (v' & -> & Hok' & Hc').
    cbn [mbind option_bind]. eexists. split; [done|]. split; [|done].
    apply bogus_set_strings; [done|done|]. by rewrite Hc', Hvc.
Qed.

Lemma removeAll_yields s la strs o lb strsb :
  valid s la strs -> isFrozen s = false -> rep o lb strsb ->
  yields_set (removeAll s (Some o)) (fun c => mem la c && negb (mem lb c))
    (fun t => t ∈ strs /\ t ∉ strsb).
Proof.
  intros Hv Hnf Ho. unfold removeAll. rewrite Hnf, (valid_not_bogus _ _ _ Hv). cbn [orb this_or strings_of].
  destruct (rep_list _ _ _ Ho) as (l & -> & Hh & _).
  pose proof (rep_holds_len _ _ _ Ho) as Hpos. cbn [mbind option_bind].
  destruct (rep_strings _ _ _ Ho) as (ov & -> & Hok & Hc). cbn [mbind option_bind].
  eapply yields_set_bind; [eapply yields_yields_set, retain_list_spec; [done|done|done|lia..]|..].
  - intros s' la' strs' Hv' Hnf' Hm Hg. destruct (valid_strings _ _ _ Hv') as (v & -> & Hvok & Hvc).
    cbn [mbind option_bind].
    destruct (sv_removeAll_law v ov Hvok Hok) as (v' & -> & Hok' & Hc').
    { rewrite Hvc. by eapply rep_NoDup, (proj1 Hv'). }
    rewrite Hvc, Hc in Hc'. cbn [mbind option_bind].
    eapply yields_vector; [exact Hv'|done|done|exact Hc'|apply sublist_filter|exact Hm|].
    intros t. rewrite list_elem_of_filter, Hg. tauto.
  - intros s' Hb Hnf'. destruct (bogus_strings s' Hb) as (v & -> & Hvok & Hvc).
    cbn [mbind option_bind].
    destruct (sv_removeAll_law v ov Hvok Hok) as (v' & -> & Hok' & Hc'); [rewrite Hvc; constructor|].
    cbn [mbind option_bind]. eexists. split; [done|]. split; [|done].
    apply bogus_set_strings; [done|done|]. by rewrite Hc', Hvc.
Qed.

(** [removeAll] of the set itself: the loop of [UVector::removeAll] skips every
    other string. *)
Lemma odds_sublist {B} (l : Datatypes.list B) : sublist (odds l) l.
Proof.
  induction l as [l IH] using (induction_ltof1 _ (@length B)); unfold ltof in IH.
  destruct l as [|x [|y l]]; [apply sublist_nil|apply sublist_nil_l|].
  cbn. apply sublist_cons, sublist_skip, IH. simpl. lia.
Qed.

Lemma removeAll_self_yields s la strs :
  valid s la strs -> isFrozen s = false ->
  yields_set (removeAll s None) (fun _ => false) (fun t => t ∈ odds strs).
Proof.
  intros Hv Hnf. unfold removeAll. rewrite Hnf, (valid_not_bogus _ _ _ Hv). cbn [orb this_or strings_of].
  destruct (rep_list _ _ _ (proj1 Hv)) as (l & -> & Hh & _).
  pose proof (rep_holds_len _ _ _ (proj1 Hv)) as Hpos. cbn [mbind option_bind].
  pose proof (retain_list_spec s la strs l (len s) (len s) la 2 Hv Hnf Hh
    ltac:(lia) ltac:(lia) ltac:(lia)) as (s' & -> & [(la' & Hv' & Hnf' & Hm)|[Hb Hnf']]);
    cbn [mbind option_bind].
  - destruct (valid_strings _ _ _ Hv') as (v & -> & Hvok & Hvc). cbn [mbind option_bind].
    destruct (sv_removeAll_self_law v Hvok) as (v' & -> & Hok' & Hc').
    { rewrite Hvc. by eapply rep_NoDup, (proj1 Hv'). }
    rewrite Hvc in Hc'. cbn [mbind option_bind].
    eapply yields_vector; [exact Hv'|done|exact Hok'|exact Hc'|apply odds_sublist| |done].
    intros c Hc. rewrite Hm by done. cbn. apply andb_negb_r.
  - destruct (bogus_strings s' Hb) as (v & -> & Hvok & Hvc). cbn [mbind option_bind].
    destruct (sv_removeAll_self_law v Hvok) as (v' & -> & Hok' & Hc'); [rewrite Hvc; constructor|].
    cbn [mbind option_bind]. eexists. split; [done|]. right. split; [|done].
    apply bogus_set_strings; [done|done|]. by rewrite Hc', Hvc.
Qed.

Lemma complementAll_strings_bogus ov strsb :
  sv_ok ov -> sv_contents ov = strsb -> forall n (i : nat) s, (length strsb - i <= n)%nat ->
  bogus s -> isFrozen s = false ->
  exists s', complementAll_strings n s ov (Z.of_nat i) = Some s' /\ bogus s' /\ isFrozen s' = false.
Proof.
  intros Hok Hc. induction n as [|n IH]; intros i s Hn Hb Hnf; cbn [complementAll_strings];
    rewrite (sv_size_law ov Hok), Hc;
    (destruct (Z.ltb_spec (Z.of_nat i) (Z.of_nat (length strsb))); [|by exists s]); [lia|].
  destruct (lookup_lt_is_Some_2 strsb i) as [t Ht]; [lia|].
  rewrite (sv_elementAt_law ov i t Hok) by (by rewrite Hc). cbn [mbind option_bind].
  destruct (bogus_strings s Hb) as (v & Hsv & Hvok & Hvc). rewrite Hsv. cbn [mbind option_bind].
  destruct (sv_removeElement_law v t Hvok) as (v' & -> & Hok' & Hc'). rewrite Hvc in Hc' |- *.
  cbn [mbind option_bind]. rewrite bool_decide_eq_false_2 by apply not_elem_of_nil. cbn [negb].
  pose proof (bogus_set_strings s v' Hb Hok' Hc') as Hb'.
  unfold _add. rewrite (bogus_isBogus _ Hb'), orb_true_r. cbn [mbind option_bind].
  replace (Z.of_nat i + 1) with (Z.of_nat (S i)) by lia. apply IH; [lia|done|done].
Qed.

Lemma complementAll_strings_yields ov strsb :
  sv_ok ov -> sv_contents ov = strsb -> Forall multi strsb -> NoDup strsb ->
  forall n (i : nat) s la strs, (length strsb - i <= n)%nat -> valid s la strs -> isFrozen s = false ->
  yields_set (complementAll_strings n s ov (Z.of_nat i)) (mem la)
    (fun t => (t ∈ strs /\ t ∉ drop i strsb) \/ ((t ∉ strs) /\ t ∈ drop i strsb)).
Proof.
  intros Hok Hc Hmu Hnd. induction n as [|n IH]; intros i s la strs Hn Hv Hnf;
    cbn [complementAll_strings]; rewrite (sv_size_law ov Hok), Hc;
    (destruct (Z.ltb_spec (Z.of_nat i) (Z.of_nat (length strsb)));
      [|eapply yields_set_same; [done..|];
        intros t; rewrite drop_ge by lia; rewrite elem_of_nil; tauto]); [lia|].
  destruct (lookup_lt_is_Some_2 strsb i) as [t Ht]; [lia|].
  rewrite (sv_elementAt_law ov i t Hok) by (by rewrite Hc). cbn [mbind option_bind].
  pose proof (drop_S _ _ _ Ht) as Hd. rewrite Hd.
  assert (Hnt : t ∉ drop (S i) strsb).
  { assert (NoDup (drop i strsb)) as Hnd' by (eapply sublist_NoDup; [exact Hnd|apply sublist_drop]).
    rewrite Hd in Hnd'. by apply NoDup_cons in Hnd' as [? _]. }
  replace (Z.of_nat i + 1) with (Z.of_nat (S i)) by lia.
  assert (Hmt : multi t) by (rewrite Forall_forall in Hmu; by eapply Hmu, list_elem_of_lookup_2).
  assert (Hst : is_string t).
  { pose proof (sv_strings_law ov Hok) as H'. rewrite Hc, Forall_forall in H'.
    by eapply H', list_elem_of_lookup_2. }
  destruct (valid_strings _ _ _ Hv) as (v & Hsv & Hvok & Hvc).
  rewrite Hsv. cbn [mbind option_bind].
  destruct (remove_element_spec s la strs v t Hv Hsv Hvok Hvc) as (v' & -> & Hv').
  cbn [mbind option_bind]. pose proof (rep_NoDup _ _ _ (proj1 Hv)) as Hnds.
  destruct (decide (t ∈ strs)) as [Hin|Hin].
  - rewrite bool_decide_eq_true_2 by done. cbn [negb mbind option_bind].
    eapply yields_set_ext; [by eapply IH; [lia|exact Hv'|]|done|].
    intros u. cbv beta. rewrite remove_first_in, elem_of_cons by done.
    destruct (decide (u = t)) as [->|Hne]; tauto.
  - rewrite bool_decide_eq_false_2 by done. cbn [negb].
    assert (Hsame : forall u, u ∈ remove_first t strs <-> u ∈ strs).
    { intros u. rewrite remove_first_in by done. split; [by intros [? _]|]. intros Hu. split; [done|].
      by intros ->. }
    eapply yields_set_bind; [eapply _add_spec; [exact Hv'|done|done|done|by rewrite Hsame]|..].
    + intros s' la' strs' Hv'' Hnf' Hm Hg. eapply yields_set_ext; [by eapply IH; [lia|exact Hv''|]|done|].
      intros u. cbv beta. rewrite Hg, Hsame, elem_of_cons.
      destruct (decide (u = t)) as [->|Hne]; tauto.
    + intros s' Hb Hf'. eapply complementAll_strings_bogus; [done..|lia|done|done].
Qed.

Lemma complementAll_yields s la strs o lb strsb :
  valid s la strs -> isFrozen s = false -> rep o lb strsb ->
  yields_set (complementAll s o) (fun c => xorb (mem la c) (mem lb c))
    (fun t => (t ∈ strs /\ t ∉ strsb) \/ ((t ∉ strs) /\ t ∈ strsb)).
Proof.
  intros Hv Hnf Ho. unfold complementAll. rewrite Hnf, (valid_not_bogus _ _ _ Hv). cbn [orb].
  destruct (rep_list _ _ _ Ho) as (l & -> & Hh & _).
  pose proof (rep_holds_len _ _ _ Ho) as Hpos. cbn [mbind option_bind].
  destruct (rep_strings _ _ _ Ho) as (ov & -> & Hok & Hc). cbn [mbind option_bind].
  assert (Hsz : (length strsb - 0 <= Z.to_nat (sv_size ov))%nat) by (rewrite (sv_size_law ov Hok), Hc; lia).
  eapply yields_set_bind; [eapply yields_yields_set, exclusiveOr_spec; [done|done|done|lia..]|..].
  - intros s' la' strs' Hv' Hnf' Hm Hg. eapply yields_set_ext.
    + eapply (complementAll_strings_yields ov strsb Hok Hc (rep_multi _ _ _ Ho)
        (rep_NoDup _ _ _ Ho) _ 0); [exact Hsz|exact Hv'|done].
    + done.
    + intros u. cbv beta. rewrite drop_0, Hg. done.
  - intros s' Hb Hnf'. eapply (complementAll_strings_bogus ov strsb Hok Hc _ 0); done.
Qed.

End Strings.
