(* ===== verification/UnicodeSetQueries.v ===== *)
(** * Queries on a UnicodeSet (src/common/uniset.cpp)

    Membership, containment between sets, the sizes and the indexes of the code
    points, equality and the hash code, against the list of the code points of
    the set in increasing order. *)
From S2P Require Import Prelude Utf16 InversionList BMPSet UVector StringVector UnicodeSet.
From S2P Require Import UnicodeSetStrings.
Import UnicodeSet.UnicodeSet.

Local Open Scope Z_scope.

(** ** The code points of an inversion list, in order *)

Fixpoint pairs (l : Datatypes.list Z) : Datatypes.list (Z * Z) :=
  match l with s :: e :: l' => (s, e) :: pairs l' | _ => [] end.

Fixpoint cps (l : Datatypes.list Z) : Datatypes.list Z :=
  match l with s :: e :: l' => seqZ s (e - s) ++ cps l' | _ => [] end.

Lemma list_pair_ind (P : Datatypes.list Z -> Prop) :
  P [] -> (forall x, P [x]) -> (forall s e l, P l -> P (s :: e :: l)) -> forall l, P l.
Proof.
  intros H0 H1 H2 l. induction l as [l IH] using (induction_ltof1 _ (@length Z)); unfold ltof in IH.
  destruct l as [|s [|e l]]; [done|done|]. apply H2, IH. simpl. lia.
Qed.

(** A list is increasing up to HIGH, or empty. *)
Definition tail_ok (l : Datatypes.list Z) : Prop := l = [] \/ hsorted l.

Lemma tail_ok_pair s e l :
  tail_ok (s :: e :: l) -> s < e <= UNICODESET_HIGH /\ tail_ok l /\ Forall (fun x => e < x) l /\
    (l = [] -> e = UNICODESET_HIGH).
Proof.
  intros [|[Hlt He]%hsorted_cons]; [done|]. pose proof (hsorted_head _ _ He).
  split_and!; [lia|done| |by apply hsorted_above|].
  - destruct l as [|x l]; [by left|]. right. by apply hsorted_cons in He as [_ ?].
  - intros ->. by apply hsorted_single in He.
Qed.

Lemma cps_above l x : tail_ok l -> Forall (fun y => x < y) l -> forall c, c ∈ cps l -> x < c.
Proof.
  induction l as [|a|s e l IH] using list_pair_ind; intros Hok Hx c; cbn [cps];
    [by intros ?%not_elem_of_nil..|].
  apply tail_ok_pair in Hok as (Hlt & Hl & Hel & _).
  inversion_clear Hx as [|? ? Hs Hx']. inversion_clear Hx' as [|? ? He Hx].
  rewrite elem_of_app, elem_of_seqZ. intros [?|?]; [lia|]. by eapply IH.
Qed.

Lemma cps_mem l c : tail_ok l -> c < UNICODESET_HIGH -> c ∈ cps l <-> par l c = true.
Proof.
  induction l as [|a|s e l IH] using list_pair_ind; intros Hok Hc; cbn [cps].
  - split; [by intros ?%not_elem_of_nil|done].
  - destruct Hok as [|H%hsorted_single]; [done|]. subst. simpl.
    rewrite (proj2 (Z.leb_gt _ _)) by lia. split; [by intros ?%not_elem_of_nil|done].
  - pose proof Hok as Hok'. apply tail_ok_pair in Hok' as (Hlt & Hl & Hel & _).
    destruct Hok as [|Hok]; [done|]. rewrite par_pair, elem_of_app, elem_of_seqZ, IH by done.
    unfold between. rewrite orb_true_iff, andb_true_iff, Z.leb_le, Z.ltb_lt.
    split; (intros [?|?]; [left; lia|by right]).
Qed.

Lemma cps_below_high l c : tail_ok l -> c ∈ cps l -> c < UNICODESET_HIGH.
Proof.
  induction l as [|a|s e l IH] using list_pair_ind; intros Hok; cbn [cps];
    [by intros ?%not_elem_of_nil..|].
  apply tail_ok_pair in Hok as (Hlt & Hl & Hel & _).
  rewrite elem_of_app, elem_of_seqZ. intros [?|?]; [lia|]. by apply IH.
Qed.

Lemma wf_tail_ok la : wf_list la -> tail_ok la.
Proof. intros [H _]. by right. Qed.

Lemma cps_spec la c : wf_list la -> c ∈ cps la <-> mem la c = true.
Proof.
  intros Hwf. pose proof (wf_tail_ok _ Hwf) as Hok. destruct (Z.lt_ge_cases c UNICODESET_HIGH).
  - rewrite mem_par by done. by apply cps_mem.
  - rewrite mem_high by done. split; [|done]. intros Hc. apply cps_below_high in Hc; [lia|done].
Qed.

Lemma cps_sorted l : tail_ok l -> StronglySorted Z.lt (cps l).
Proof.
  induction l as [|a|s e l IH] using list_pair_ind; intros Hok; cbn [cps]; [constructor..|].
  apply tail_ok_pair in Hok as (Hlt & Hl & Hel & _). apply StronglySorted_app. split_and!.
  - intros x y Hx%elem_of_seqZ Hy. pose proof (cps_above l e Hl Hel y Hy). lia.
  - clear. remember (Z.to_nat (e - s)) as n eqn:Hn. revert s Hn.
    induction n as [|n IHn]; intros s Hn; [rewrite seqZ_nil by lia; constructor|].
    rewrite seqZ_cons by lia. constructor.
    + replace (Z.pred (e - s)) with (e - Z.succ s) by lia. apply IHn. lia.
    + apply Forall_forall. intros x Hx%elem_of_seqZ. lia.
  - by apply IH.
Qed.

(** ** Membership *)

Section Queries.
Context {V : Type} {sv : StringVector V} {alloc : Allocator Z}.
Implicit Types s o : UnicodeSet V.

Lemma find_spec s la strs c :
  rep s la strs -> c < UNICODESET_HIGH -> exists i, find s c = Some i /\ first_above la c i.
Proof.
  intros Hr Hc. destruct (rep_list _ _ _ Hr) as (l & Hl & Hh & _). unfold find. rewrite Hl.
  by apply findCodePoint_spec.
Qed.

Lemma contains_cp_spec s la strs c :
  rep s la strs -> is_int32 c -> contains s c = Some (mem la c).
Proof.
  intros Hr Hc. unfold contains.
  destruct (bmpSet s) as [b|] eqn:Hb.
  { destruct (rep_bmpSet _ _ _ Hr b Hb) as [n Hn]. by eapply BMPSet.bmp_contains_spec. }
  destruct (stringSpan s) as [b|] eqn:Hsp.
  { destruct (rep_stringSpan _ _ _ Hr b Hsp) as [n Hn]. by eapply BMPSet.bmp_contains_spec. }
  rewrite Z.geb_leb. destruct (Z.leb_spec UNICODESET_HIGH c).
  - by rewrite mem_high.
  - destruct (find_spec s la strs c Hr) as (i & -> & Hi); [lia|]. cbn [mbind option_bind].
    by rewrite BMPSet.odd_land, (mem_first_above la c i).
Qed.

Lemma contains_string_yields s la strs t :
  rep s la strs -> is_string t ->
  exists b, contains_string s t = Some b /\
    (b = true <-> has (mem la) (fun u => u ∈ strs) t).
Proof.
  intros Hr Ht. unfold contains_string, has.
  destruct (string_cases t Ht) as [->|[(Hl & c & Hg & Hc & Hrg & Hm)|(Hl & Hg & Hm & Hc)]].
  - by exists false.
  - rewrite (us_length_pos _ Hl), Hg, Hc. cbn [mbind option_bind].
    rewrite (proj2 (Z.ltb_ge c 0)) by lia.
    rewrite (contains_cp_spec s la strs c Hr) by (unfold is_int32, UNICODESET_HIGH in *; unfold_int; lia).
    by exists (mem la c).
  - rewrite (us_length_pos _ Hl), Hg. cbn [mbind option_bind]. change (-1 <? 0) with true. cbn iota.
    destruct (rep_strings _ _ _ Hr) as (v & -> & Hok & Hct). cbn [mbind option_bind].
    rewrite (sv_contains_law v t Hok), Hct. eexists. split; [done|].
    rewrite bool_decide_eq_true.
    apply multi_spec in Hm as [_ Hm]; [|done]. destruct (code_points t) as [|x [|y l]]; simpl in Hm; (lia || done).
Qed.

(** ** Ranges of one set in the other *)

(** What follows the [2 * k]-th cell of the list. *)
Lemma holds_suffix l n la (i : nat) : holds l n la -> suffix l (Z.of_nat i) (drop i la).
Proof.
  intros (_ & _ & junk & ->). split; [lia|]. rewrite Nat2Z.id.
  destruct (decide (i <= length la)%nat).
  - exists junk. by rewrite drop_app_le.
  - exists (drop (i - length la) junk). by rewrite drop_app, (drop_ge la) by lia.
Qed.

Lemma pairs_length l : length (pairs l) = (length l / 2)%nat.
Proof.
  induction l as [|a|s e l IH] using list_pair_ind; [done|done|]. cbn [pairs length]. rewrite IH.
  change (S (S (length l))) with (2 + length l)%nat.
  replace (2 + length l)%nat with (length l + 1 * 2)%nat by lia. rewrite Nat.div_add by lia. lia.
Qed.

Lemma getRangeCount_spec s la strs :
  rep s la strs -> getRangeCount s = Z.of_nat (length (pairs la)).
Proof.
  intros Hr. destruct (rep_list _ _ _ Hr) as (l & _ & (_ & Hn & _) & _). unfold getRangeCount.
  rewrite Hn, pairs_length, Z.quot_div_nonneg, Nat2Z.inj_div by lia. done.
Qed.

Lemma pairs_lookup : forall l (k : nat) p,
  pairs l !! k = Some p -> exists l', drop (2 * k) l = fst p :: snd p :: l'.
Proof.
  induction l as [|a|s e l IH] using list_pair_ind; intros k p; cbn [pairs]; [done|done|].
  destruct k as [|k]; [intros [= <-]; by exists l|]. intros Hp. destruct (IH k p Hp) as [l' Hl'].
  exists l'. by replace (2 * S k)%nat with (S (S (2 * k))) by lia.
Qed.

Lemma range_at s la strs (k : nat) p :
  rep s la strs -> pairs la !! k = Some p ->
  getRangeStart s (Z.of_nat k) = Some (fst p) /\ getRangeEnd s (Z.of_nat k) = Some (snd p - 1).
Proof.
  intros Hr Hp. destruct (rep_list _ _ _ Hr) as (l & Hl & Hh & _).
  destruct (pairs_lookup la k p Hp) as [l' Hd].
  pose proof (holds_suffix l _ la (2 * k) Hh) as Hs. rewrite Hd in Hs.
  apply suffix_read in Hs as [H0 Hs]. apply suffix_read in Hs as [H1 _].
  unfold getRangeStart, getRangeEnd. rewrite Hl. cbn [mbind option_bind].
  replace (Z.of_nat k * 2) with (Z.of_nat (2 * k)) by lia. by rewrite H0, H1.
Qed.

(** Between two neighbouring boundaries membership does not change. *)
Lemma first_above_same la c d i x :
  first_above la c i -> la !! Z.to_nat i = Some x -> c <= d < x -> wf_list la -> first_above la d i.
Proof.
  intros [Hi Hm] Hx Hd Hwf. split; [done|]. intros m y Hy. specialize (Hm m y Hy). split; [lia|].
  intros Hle. destruct (decide (Z.of_nat m < i)); [done|].
  destruct (decide (m = Z.to_nat i)) as [->|]; [simplify_eq; lia|].
  pose proof (wf_lookup_lt la (Z.to_nat i) m x y Hwf Hx Hy). lia.
Qed.

Lemma first_above_next la c i x :
  first_above la c i -> la !! Z.to_nat i = Some x -> x < UNICODESET_HIGH -> wf_list la ->
  first_above la x (i + 1).
Proof.
  intros [Hi Hm] Hx Hh Hwf. split.
  - pose proof (wf_last la Hwf) as Hl. split; [lia|].
    destruct (decide (Z.to_nat i = pred (length la))) as [He|]; [|lia].
    rewrite He in Hx. simplify_eq. lia.
  - intros m y Hy. destruct (decide (m = Z.to_nat i)) as [->|Hne]; [simplify_eq; lia|].
    destruct (decide (m < Z.to_nat i)%nat) as [Hlt|Hge].
    + pose proof (wf_lookup_lt la m (Z.to_nat i) y x Hwf Hy Hx ltac:(lia)). lia.
    + pose proof (wf_lookup_lt la (Z.to_nat i) m x y Hwf Hx Hy ltac:(lia)). lia.
Qed.

Lemma range_uniform s la strs start end_ :
  rep s la strs -> start <= end_ < UNICODESET_HIGH ->
  exists i l x, find s start = Some i /\ list s = Some l /\ aget l i = Some x /\
    mem la start = Z.odd i /\
    (end_ < x <-> forall c, start <= c <= end_ -> mem la c = Z.odd i).
Proof.
  intros Hr He. destruct (rep_list _ _ _ Hr) as (l & Hl & Hh & _). pose proof (proj1 Hh) as Hwf.
  destruct (find_spec s la strs start Hr) as (i & Hf & Hi); [lia|].
  pose proof (mem_first_above la start i ltac:(lia) Hi) as Hms.
  pose proof Hi as [Hib _].
  destruct (holds_get _ _ _ (Z.to_nat i) Hh) as (x & Hx & Hg); [lia|]. rewrite Z2Nat.id in Hg by lia.
  exists i, l, x. split_and!; [done|done|done|done|]. split.
  - intros Hlt c Hc. apply mem_first_above; [lia|]. by apply (first_above_same la start c i x); [..|lia|].
  - intros Hall. destruct (Z.lt_ge_cases end_ x) as [|Hge]; [done|].
    pose proof (proj2 Hi (Z.to_nat i) x Hx) as Hsx.
    pose proof (first_above_next la start i x Hi Hx ltac:(lia) Hwf) as Hn.
    apply mem_first_above in Hn; [|lia]. rewrite Hall, Z.odd_add in Hn by lia.
    by destruct (Z.odd i).
Qed.

Lemma contains_range_yields s la strs start end_ :
  rep s la strs -> start <= end_ < UNICODESET_HIGH ->
  exists b, contains_range s start end_ = Some b /\
    (b = true <-> forall c, start <= c <= end_ -> mem la c = true).
Proof.
  intros Hr He. destruct (range_uniform s la strs start end_ Hr He) as (i & l & x & Hf & Hl & Hx & Hms & Hu).
  unfold contains_range. rewrite Hf, Hl. cbn [mbind option_bind]. rewrite BMPSet.odd_land.
  destruct (Z.odd i).
  - rewrite Hx. cbn [mbind option_bind]. eexists. split; [done|]. by rewrite Z.ltb_lt, Hu.
  - exists false. split; [done|]. split; [done|]. intros H. by rewrite (H start) in Hms by lia.
Qed.

Lemma containsNone_range_yields s la strs start end_ :
  rep s la strs -> start <= end_ < UNICODESET_HIGH ->
  exists b, containsNone_range s start end_ = Some b /\
    (b = true <-> forall c, start <= c <= end_ -> mem la c = false).
Proof.
  intros Hr He. destruct (range_uniform s la strs start end_ Hr He) as (i & l & x & Hf & Hl & Hx & Hms & Hu).
  unfold containsNone_range. rewrite Hf, Hl. cbn [mbind option_bind].
  pose proof (BMPSet.odd_land i) as Ho. destruct (Z.land i 1 =? 0); destruct (Z.odd i); try done.
  - rewrite Hx. cbn [mbind option_bind]. eexists. split; [done|]. by rewrite Z.ltb_lt, Hu.
  - exists false. split; [done|]. split; [done|]. intros H. by rewrite (H start) in Hms by lia.
Qed.

(** The loop that [containsAll] and [containsNone] share. *)
Fixpoint range_loop (test : Z -> Z -> option bool) (strs : option bool) (fuel : nat) (c : UnicodeSet V)
    (i n : Z) : option bool :=
  if i <? n then
    match fuel with
    | O => None
    | S fuel' =>
        start ← getRangeStart c i; end_ ← getRangeEnd c i;
        b ← test start end_;
        if negb b then Some false else range_loop test strs fuel' c (i + 1) n
    end
  else strs.

Lemma containsAll_loop_eq s c : forall fuel i n,
  containsAll_loop fuel s c i n =
    range_loop (contains_range s) (v ← strings s; o ← strings c; sv_containsAll v o) fuel c i n.
Proof.
  induction fuel as [|fuel IH]; intros i n; cbn [containsAll_loop range_loop]; [done|].
  destruct (i <? n); [|done]. destruct (getRangeStart c i); [|done]. cbn [mbind option_bind].
  destruct (getRangeEnd c i); [|done]. cbn [mbind option_bind].
  destruct (contains_range s z z0) as [[]|]; cbn; [apply IH|done|done].
Qed.

Lemma containsNone_loop_eq s c : forall fuel i n,
  containsNone_loop fuel s c i n =
    range_loop (containsNone_range s) (v ← strings s; o ← strings c; sv_containsNone v o) fuel c i n.
Proof.
  induction fuel as [|fuel IH]; intros i n; cbn [containsNone_loop range_loop]; [done|].
  destruct (i <? n); [|done]. destruct (getRangeStart c i); [|done]. cbn [mbind option_bind].
  destruct (getRangeEnd c i); [|done]. cbn [mbind option_bind].
  destruct (containsNone_range s z z0) as [[]|]; cbn; [apply IH|done|done].
Qed.

Lemma tail_ok_drop (k : nat) l : hsorted l -> tail_ok (drop k l).
Proof.
  revert k. induction l as [|x l IH]; intros [|k] Hs; [by left..|by right|].
  cbn. destruct l as [|y l]; [left; by destruct k|]. apply IH. by apply hsorted_cons in Hs as [_ ?].
Qed.

Lemma no_more_pairs l : forall i : nat, (length (pairs l) <= i)%nat -> cps (drop (2 * i) l) = [].
Proof.
  induction l as [|a|s e l IH] using list_pair_ind; intros i Hi.
  - by rewrite drop_nil.
  - destruct i as [|i]; [done|]. by rewrite drop_ge by (simpl; lia).
  - destruct i as [|i]; [simpl in Hi; lia|]. replace (2 * S i)%nat with (S (S (2 * i))) by lia.
    apply IH. simpl in Hi. lia.
Qed.

Lemma range_loop_spec test (P : Z -> Prop) (bs : bool) o lb strsb :
  rep o lb strsb ->
  (forall st en, st <= en < UNICODESET_HIGH ->
     exists b, test st en = Some b /\ (b = true <-> forall c, st <= c <= en -> P c)) ->
  forall fuel (i : nat), (length (pairs lb) - i <= fuel)%nat ->
  exists b, range_loop test (Some bs) fuel o (Z.of_nat i) (Z.of_nat (length (pairs lb))) = Some b /\
    (b = true <-> (forall c, c ∈ cps (drop (2 * i) lb) -> P c) /\ bs = true).
Proof.
  intros Ho Htest. destruct (rep_list _ _ _ Ho) as (_ & _ & ([Hs _] & _) & _).
  pose proof (fun k => tail_ok_drop k lb Hs) as Htail.
  induction fuel as [|fuel IH]; intros i Hn; cbn [range_loop];
    (destruct (Z.ltb_spec (Z.of_nat i) (Z.of_nat (length (pairs lb))));
      [|exists bs; split; [done|]; rewrite no_more_pairs by lia;
        split; [intros ->; split; [by intros c ?%not_elem_of_nil|done]|by intros [_ ?]]]); [lia|].
  destruct (lookup_lt_is_Some_2 (pairs lb) i) as [p Hp]; [lia|].
  destruct (range_at o lb strsb i p Ho Hp) as [-> ->]. cbn [mbind option_bind].
  destruct (pairs_lookup lb i p Hp) as [l' Hd]. destruct p as [st en]. cbn [fst snd] in *.
  pose proof (Htail (2 * i)%nat) as Ht. rewrite Hd in Ht. apply tail_ok_pair in Ht as (Hlt & _).
  destruct (Htest st (en - 1)) as (b & -> & Hb); [lia|]. cbn [mbind option_bind].
  rewrite Hd. cbn [cps]. setoid_rewrite elem_of_app. setoid_rewrite elem_of_seqZ.
  destruct b; cbn [negb].
  - replace (Z.of_nat i + 1) with (Z.of_nat (S i)) by lia.
    destruct (IH (S i)) as (b & -> & Hb'); [lia|]. exists b. split; [done|]. rewrite Hb'.
    replace (2 * S i)%nat with (2 * i + 2)%nat by lia. rewrite <- drop_drop, Hd. cbn [drop].
    pose proof (proj1 Hb eq_refl) as Hb0. split; (intros [H1 H2]; split; [|done]).
    + intros c [Hc|Hc]; [apply Hb0; lia|by apply H1].
    + intros c Hc. apply H1. by right.
  - exists false. split; [done|]. split; [done|]. intros [H1 _].
    discriminate (proj2 Hb). intros c Hc. apply H1. left. lia.
Qed.

Lemma containsAll_yields s la strs o lb strsb :
  rep s la strs -> rep o lb strsb ->
  exists b, containsAll s o = Some b /\
    (b = true <-> (forall c, mem lb c = true -> mem la c = true) /\ (forall t, t ∈ strsb -> t ∈ strs)).
Proof.
  intros Hr Ho. unfold containsAll. rewrite containsAll_loop_eq.
  destruct (rep_strings _ _ _ Hr) as (v & -> & Hok & Hc).
  destruct (rep_strings _ _ _ Ho) as (ov & -> & Hok' & Hc').
  cbn [mbind option_bind]. rewrite (sv_containsAll_law v ov Hok Hok'), Hc, Hc'.
  rewrite (getRangeCount_spec o lb strsb Ho).
  destruct (range_loop_spec (contains_range s) (fun c => mem la c = true)
    (bool_decide (Forall (fun u => u ∈ strs) strsb)) o lb strsb Ho
    (fun st en => contains_range_yields s la strs st en Hr)
    (Z.to_nat (Z.of_nat (length (pairs lb)))) 0) as (b & Hb & Hiff); [lia|].
  exists b. split; [exact Hb|]. rewrite Hiff, bool_decide_eq_true, Forall_forall.
  destruct (rep_list _ _ _ Ho) as (l & _ & (Hwf & _) & _). by setoid_rewrite (cps_spec lb _ Hwf).
Qed.

Lemma containsNone_yields s la strs o lb strsb :
  rep s la strs -> rep o lb strsb ->
  exists b, containsNone s o = Some b /\
    (b = true <-> (forall c, mem lb c = true -> mem la c = false) /\ (forall t, t ∈ strsb -> t ∉ strs)).
Proof.
  intros Hr Ho. unfold containsNone. rewrite containsNone_loop_eq.
  destruct (rep_strings _ _ _ Hr) as (v & -> & Hok & Hc).
  destruct (rep_strings _ _ _ Ho) as (ov & -> & Hok' & Hc').
  cbn [mbind option_bind]. rewrite (sv_containsNone_law v ov Hok Hok'), Hc, Hc'.
  rewrite (getRangeCount_spec o lb strsb Ho).
  destruct (range_loop_spec (containsNone_range s) (fun c => mem la c = false)
    (bool_decide (Forall (fun u => u ∉ strs) strsb)) o lb strsb Ho
    (fun st en => containsNone_range_yields s la strs st en Hr)
    (Z.to_nat (Z.of_nat (length (pairs lb)))) 0) as (b & Hb & Hiff); [lia|].
  exists b. split; [exact Hb|]. rewrite Hiff, bool_decide_eq_true, Forall_forall.
  destruct (rep_list _ _ _ Ho) as (l & _ & (Hwf & _) & _). by setoid_rewrite (cps_spec lb _ Hwf).
Qed.

(** ** Counting and indexing *)

Lemma size_loop_spec s la strs : rep s la strs ->
  forall fuel (i : nat) n, (length (pairs la) - i <= fuel)%nat ->
  size_loop fuel s n (Z.of_nat i) (Z.of_nat (length (pairs la))) =
    Some (n + Z.of_nat (length (cps (drop (2 * i) la)))).
Proof.
  intros Hr. pose proof (rep_list _ _ _ Hr) as (_ & _ & ([Hs _] & _) & _).
  induction fuel as [|fuel IH]; intros i n Hn; cbn [size_loop];
    (destruct (Z.ltb_spec (Z.of_nat i) (Z.of_nat (length (pairs la))));
      [|rewrite no_more_pairs by lia; by rewrite Z.add_0_r]); [lia|].
  destruct (lookup_lt_is_Some_2 (pairs la) i) as [p Hp]; [lia|].
  destruct (range_at s la strs i p Hr Hp) as [-> ->]. cbn [mbind option_bind].
  destruct (pairs_lookup la i p Hp) as [l' Hd]. destruct p as [st en]. cbn [fst snd] in *.
  pose proof (tail_ok_drop (2 * i) la Hs) as Ht. rewrite Hd in Ht. apply tail_ok_pair in Ht as (Hlt & _).
  replace (Z.of_nat i + 1) with (Z.of_nat (S i)) by lia. rewrite IH by lia.
  replace (2 * S i)%nat with (2 * i + 2)%nat by lia. rewrite <- drop_drop, Hd. cbn [drop cps].
  rewrite drop_0, length_app, length_seqZ. f_equal. lia.
Qed.

Lemma index_of_app (c : Z) l1 l2 :
  index_of c (l1 ++ l2) =
    if decide (c ∈ l1) then index_of c l1
    else if index_of c l2 <? 0 then -1 else Z.of_nat (length l1) + index_of c l2.
Proof.
  induction l1 as [|x l1 IH]; cbn [app].
  - rewrite decide_False by apply not_elem_of_nil. pose proof (index_of_ge c l2).
    cbn [length]. destruct (Z.ltb_spec (index_of c l2) 0); lia.
  - rewrite !index_of_cons, IH. pose proof (index_of_ge c l2).
    pose proof (index_of_nonneg c l1) as Hn.
    destruct (decide (c = x)) as [->|Hne].
    + by rewrite decide_True by left.
    + destruct (decide (c ∈ l1)) as [Hin|Hin].
      * rewrite decide_True by (by right). done.
      * rewrite decide_False by (intros [?|?]%elem_of_cons; done).
        destruct (Z.ltb_spec (index_of c l2) 0); [done|]. cbn [length]. zcases.
Qed.

Lemma index_of_seqZ (c st n : Z) : st <= c < st + n -> index_of c (seqZ st n) = c - st.
Proof.
  intros Hc. pose proof (index_of_nonneg c (seqZ st n)) as Hn. rewrite elem_of_seqZ in Hn.
  destruct (Z_of_nat_complete (index_of c (seqZ st n))) as [k Hk]; [by apply Hn|].
  pose proof (index_of_spec c (seqZ st n) k Hk) as [Hl%lookup_seqZ _]. lia.
Qed.

Lemma us_indexOf_loop_spec l c : c < UNICODESET_HIGH ->
  forall fuel i n xs, suffix l i xs -> hsorted xs -> (length xs <= fuel)%nat ->
  indexOf_loop fuel l c i n =
    Some (if index_of c (cps xs) <? 0 then -1 else n + index_of c (cps xs)).
Proof.
  intros Hc. induction fuel as [|fuel IH]; intros i n xs Hx Hs Hf;
    (destruct xs as [|st xs]; [by apply hsorted_not_nil in Hs|]); [simpl in Hf; lia|].
  cbn [indexOf_loop]. apply suffix_read in Hx as [-> Hx]. cbn [mbind option_bind].
  destruct xs as [|en xs].
  { apply hsorted_single in Hs. rewrite (proj2 (Z.ltb_lt _ _)) by lia. done. }
  apply suffix_read in Hx as [-> Hx]. cbn [mbind option_bind cps].
  destruct (tail_ok_pair st en xs (or_intror Hs)) as (Hlt & Hok & Hab & Hnil).
  rewrite index_of_app. destruct (Z.ltb_spec c st) as [Hcs|Hcs].
  - rewrite decide_False by (rewrite elem_of_seqZ; lia).
    assert (Hneg : index_of c (cps xs) < 0).
    { apply index_of_neg. intros Hin. pose proof (cps_above xs en Hok Hab c Hin). lia. }
    by rewrite (proj2 (Z.ltb_lt _ _) Hneg).
  - destruct (Z.ltb_spec c en) as [Hce|Hce].
    + rewrite decide_True by (rewrite elem_of_seqZ; lia). rewrite index_of_seqZ by lia.
      rewrite (proj2 (Z.ltb_ge _ _)) by lia. f_equal. lia.
    + rewrite decide_False by (rewrite elem_of_seqZ; lia).
      destruct Hok as [->|Hok]; [specialize (Hnil eq_refl); lia|].
      replace (i + 2) with (i + 1 + 1) by lia. rewrite (IH _ _ xs) by (done || (simpl in Hf; lia)).
      rewrite length_seqZ. destruct (Z.ltb_spec (index_of c (cps xs)) 0); [done|].
      rewrite (proj2 (Z.ltb_ge _ _)) by lia. f_equal. lia.
Qed.

Lemma indexOf_yields s la strs c : rep s la strs -> indexOf s c = Some (index_of c (cps la)).
Proof.
  intros Hr. destruct (rep_list _ _ _ Hr) as (l & Hl & Hh & _). unfold indexOf, MIN_VALUE, MAX_VALUE.
  pose proof (cps_spec la c (proj1 Hh)) as Hcm. pose proof (index_of_ge c (cps la)) as Hge.
  destruct ((c <? 0) || (c >? 0x10ffff)) eqn:Hc.
  - assert (Hneg : index_of c (cps la) < 0); [|f_equal; lia]. apply index_of_neg. rewrite Hcm.
    rewrite Z.gtb_ltb, orb_true_iff, !Z.ltb_lt in Hc.
    destruct Hc; [rewrite mem_neg|rewrite mem_high]; try done; [apply Hh|unfold UNICODESET_HIGH; lia].
  - rewrite Z.gtb_ltb, orb_false_iff, !Z.ltb_ge in Hc. rewrite Hl. cbn [mbind option_bind].
    pose proof (holds_suffix l _ la 0 Hh) as Hs. rewrite drop_0 in Hs. pose proof Hh as ([Hso _] & Hn & _).
    change (Z.of_nat 0) with 0 in Hs.
    rewrite (us_indexOf_loop_spec l c ltac:(unfold UNICODESET_HIGH; lia) _ 0 0 la Hs Hso) by lia.
    f_equal. zcases.
Qed.

Lemma div2_pair (n : nat) : (S (S n) / 2 = S (n / 2))%nat.
Proof. replace (S (S n)) with (n + 1 * 2)%nat by lia. rewrite Nat.div_add by lia. lia. Qed.

Lemma charAt_loop_spec l len2 : forall fuel index i xs,
  suffix l i xs -> tail_ok xs -> (length xs / 2 <= fuel)%nat -> 0 <= index ->
  len2 = i + 2 * Z.of_nat (length xs / 2) ->
  charAt_loop fuel l index i len2 = Some (default (-1) (cps xs !! Z.to_nat index)).
Proof.
  intros fuel index i xs. revert fuel index i.
  induction xs as [|a|st en xs IH] using list_pair_ind; intros fuel index i Hx Hs Hf Hi Hlen.
  1,2: destruct fuel; cbn [charAt_loop];
    rewrite (proj2 (Z.ltb_ge _ _)) by (simpl in Hlen; lia); done.
  cbn [length] in Hf, Hlen. rewrite div2_pair in Hf, Hlen.
  destruct fuel as [|fuel]; [lia|]. cbn [charAt_loop]. rewrite (proj2 (Z.ltb_lt _ _)) by lia.
  apply suffix_read in Hx as [-> Hx]. cbn [mbind option_bind].
  apply suffix_read in Hx as [-> Hx]. cbn [mbind option_bind cps].
  apply tail_ok_pair in Hs as (Hlt & Hs & _).
  destruct (Z.ltb_spec index (en - st)).
  - rewrite lookup_app_l by (rewrite length_seqZ; lia). rewrite lookup_seqZ_lt by lia.
    cbn. f_equal. lia.
  - replace (i + 2) with (i + 1 + 1) by lia. rewrite IH by (done || lia).
    rewrite lookup_app_r by (rewrite length_seqZ; lia). rewrite length_seqZ. do 3 f_equal. lia.
Qed.

Lemma land_not1 x : 0 <= x -> Z.land x (Z.lnot 1) = 2 * (x / 2).
Proof.
  intros Hx. change 1 with (Z.ones 1) at 1. rewrite <- Z.ldiff_land, Z.ldiff_ones_r by lia.
  rewrite Z.shiftl_mul_pow2, Z.shiftr_div_pow2 by lia. change (2 ^ 1) with 2. lia.
Qed.

Lemma charAt_yields s la strs index :
  rep s la strs ->
  charAt s index = Some (if index <? 0 then -1 else default (-1) (cps la !! Z.to_nat index)).
Proof.
  intros Hr. destruct (rep_list _ _ _ Hr) as (l & Hl & Hh & _). unfold charAt. rewrite Z.geb_leb.
  destruct (Z.ltb_spec index 0) as [Hneg|Hpos]; [by rewrite (proj2 (Z.leb_gt _ _)) by lia|].
  rewrite (proj2 (Z.leb_le _ _)), Hl by lia. pose proof Hh as (Hwf & Hn & _).
  pose proof (holds_suffix l _ la 0 Hh) as Hs. rewrite drop_0 in Hs. change (Z.of_nat 0) with 0 in Hs.
  rewrite Hn, land_not1 by lia.
  apply (charAt_loop_spec l); [done|by apply wf_tail_ok| |done|rewrite Nat2Z.inj_div; lia].
  pose proof (Nat2Z.inj_div (length la) 2). lia.
Qed.

Lemma size_yields s la strs :
  rep s la strs -> size s = Some (Z.of_nat (length (cps la)) + Z.of_nat (length strs)).
Proof.
  intros Hr. unfold size. rewrite (getRangeCount_spec s la strs Hr), Nat2Z.id.
  pose proof (size_loop_spec s la strs Hr (length (pairs la)) 0 0 ltac:(lia)) as Hs.
  change (Z.of_nat 0) with 0 in Hs. rewrite Hs. cbn [mbind option_bind].
  destruct (rep_strings _ _ _ Hr) as (v & -> & Hok & Hc). cbn [mbind option_bind].
  by rewrite (sv_size_law v Hok), Hc.
Qed.

(** ** Equality *)

Lemma us_operator_eq_loop_spec l l' n la lb :
  holds l n la -> holds l' n lb -> forall fuel (i : nat), (length la - i <= fuel)%nat ->
  operator_eq_loop fuel l l' (Z.of_nat i) n = Some (bool_decide (drop i la = drop i lb)).
Proof.
  intros Hl Hl'. pose proof Hl as (_ & Hn & _). pose proof Hl' as (_ & Hn' & _).
  induction fuel as [|fuel IH]; intros i Hf; cbn [operator_eq_loop];
    (destruct (Z.ltb_spec (Z.of_nat i) n);
      [|rewrite !drop_ge by lia; by rewrite bool_decide_eq_true_2]); [lia|].
  destruct (holds_get l n la i Hl) as (x & Hx & ->); [lia|]. cbn [mbind option_bind].
  destruct (holds_get l' n lb i Hl') as (y & Hy & ->); [lia|]. cbn [mbind option_bind].
  rewrite (drop_S _ _ _ Hx), (drop_S _ _ _ Hy). destruct (Z.eqb_spec x y) as [->|Hne]; cbn [negb].
  - replace (Z.of_nat i + 1) with (Z.of_nat (S i)) by lia. rewrite IH by lia. f_equal.
    apply bool_decide_ext. split; [by intros ->|by intros [= ?]].
  - rewrite bool_decide_eq_false_2; [done|]. by intros [= ?].
Qed.

Lemma operator_eq_yields s la strs o lb strsb :
  rep s la strs -> rep o lb strsb ->
  operator_eq s o = Some (bool_decide (la = lb /\ strs = strsb)).
Proof.
  intros Hr Ho. unfold operator_eq.
  destruct (rep_list _ _ _ Hr) as (l & -> & Hh & _). destruct (rep_list _ _ _ Ho) as (l' & -> & Hh' & _).
  destruct (rep_strings _ _ _ Hr) as (v & -> & Hok & Hc).
  destruct (rep_strings _ _ _ Ho) as (ov & -> & Hok' & Hc').
  pose proof Hh as (_ & Hn & _). pose proof Hh' as (_ & Hn' & _).
  destruct (Z.eqb_spec (len s) (len o)) as [Heq|Hne]; cbn [negb mbind option_bind].
  - rewrite <- Heq in Hh'. pose proof (us_operator_eq_loop_spec l l' _ la lb Hh Hh' (Z.to_nat (len s)) 0) as He.
    change (Z.of_nat 0) with 0 in He. rewrite He by lia. cbn [mbind option_bind]. rewrite !drop_0.
    destruct (decide (la = lb)) as [->|Hla].
    + rewrite bool_decide_eq_true_2 by done. cbn [negb]. rewrite (sv_eq_law v ov Hok Hok'), Hc, Hc'.
      f_equal. apply bool_decide_ext. tauto.
    + rewrite bool_decide_eq_false_2 by done. cbn [negb]. rewrite bool_decide_eq_false_2; [done|tauto].
  - rewrite bool_decide_eq_false_2; [done|]. intros [-> _]. lia.
Qed.

Definition hash_of (la : Datatypes.list Z) : Z :=
  foldl (fun r x => int32 (int32 (r * 1000003) + x)) (Z.of_nat (length la)) la.

Lemma hashCode_loop_spec l n la : holds l n la -> forall fuel (i : nat) r, (length la - i <= fuel)%nat ->
  hashCode_loop fuel l r (Z.of_nat i) n =
    Some (foldl (fun r x => int32 (int32 (r * 1000003) + x)) r (drop i la)).
Proof.
  intros Hl. pose proof Hl as (_ & Hn & _).
  induction fuel as [|fuel IH]; intros i r Hf; cbn [hashCode_loop];
    (destruct (Z.ltb_spec (Z.of_nat i) n); [|by rewrite drop_ge by lia]); [lia|].
  destruct (holds_get l n la i Hl) as (x & Hx & ->); [lia|]. cbn [mbind option_bind].
  replace (Z.of_nat i + 1) with (Z.of_nat (S i)) by lia. rewrite IH by lia.
  by rewrite (drop_S _ _ _ Hx).
Qed.

Lemma hashCode_yields s la strs : rep s la strs -> hashCode s = Some (hash_of la).
Proof.
  intros Hr. unfold hashCode, hash_of. destruct (rep_list _ _ _ Hr) as (l & -> & Hh & _).
  pose proof Hh as (_ & Hn & _).
  pose proof (hashCode_loop_spec l _ la Hh (Z.to_nat (len s)) 0 (len s)) as H.
  change (Z.of_nat 0) with 0 in H. by rewrite H, Hn by lia.
Qed.

(** Sets with the same elements have the same representation. *)
Lemma rep_canonical s la strs o lb strsb :
  rep s la strs -> rep o lb strsb ->
  la = lb /\ strs = strsb <->
  (forall c, 0 <= c < UNICODESET_HIGH -> mem la c = mem lb c) /\ (forall t, t ∈ strs <-> t ∈ strsb).
Proof.
  intros Hr Ho. split; [by intros [-> ->]|]. intros [Hm Ht].
  destruct (rep_list _ _ _ Hr) as (_ & _ & (Hw & _) & _). destruct (rep_list _ _ _ Ho) as (_ & _ & (Hw' & _) & _).
  split; [by apply wf_list_canonical|].
  eapply (StronglySorted_unique_strong lex_lt); [|apply (rep_sorted _ _ _ Hr)|apply (rep_sorted _ _ _ Ho)|].
  - unfold lex_lt. intros x y _ _ H1 H2. rewrite (lex_antisym x y) in H2. lia.
  - apply NoDup_Permutation; [by eapply rep_NoDup|by eapply rep_NoDup|done].
Qed.

End Queries.
