(* ===== verification/UnicodeSetLife.v ===== *)
(** * The life of a UnicodeSet (src/common/uniset.cpp)

    Construction, whole ranges, the complement of a set, compaction, and the
    immutability of a frozen set. *)
From S2P Require Import Prelude Utf16 InversionList BMPSet UVector StringVector UnicodeSet.
From S2P Require Import UnicodeSetStrings.
Import UnicodeSet.UnicodeSet.

Local Open Scope Z_scope.

Section Life.
Context {V : Type} {sv : StringVector V} {alloc : Allocator Z}.
Implicit Types s o : UnicodeSet V.

(** ** Ranges *)

Lemma add_range_yields s la strs start end_ :
  valid s la strs -> isFrozen s = false ->
  yields (add_range s start end_) (fun x => mem la x || in_pinned start end_ x) strs.
Proof.
  intros Hv Hnf. unfold add_range.
  destruct (Z.ltb_spec (pinCodePoint start) (pinCodePoint end_)).
  - destruct (pinned_holds start end_) as (m & lb & Hh & Hm & Hmem); [lia|].
    eapply yields_ext; [by eapply add_list_spec|]. intros x Hx. cbv beta. by rewrite Hmem.
  - destruct (Z.eqb_spec (pinCodePoint start) (pinCodePoint end_)) as [He|Hne].
    + eapply yields_ext; [by eapply add_spec|]. intros x Hx. cbv beta.
      rewrite (pinCodePoint_id (pinCodePoint start)) by apply pinCodePoint_range.
      unfold in_pinned. rewrite <- He, orb_comm. f_equal. zcases; done.
    + eapply yields_same; [done|done|]. intros x Hx. rewrite in_pinned_empty by lia.
      by rewrite orb_false_r.
Qed.

(** ** The complement of a set *)

Lemma memcpy_front (b src : Datatypes.list Z) n :
  (n <= length src)%nat -> (n <= length b)%nat ->
  memcpy b 0 src (Z.of_nat n) = Some (take n src ++ drop n b).
Proof.
  intros. unfold memcpy. rewrite !(proj2 (Z.leb_le _ _)) by lia. cbn [andb].
  rewrite Nat2Z.id, Z.add_0_l, Nat2Z.id. done.
Qed.

Lemma memcpy_second (b src : Datatypes.list Z) n :
  (n <= length src)%nat -> (S n <= length b)%nat ->
  exists x, memcpy b 1 src (Z.of_nat n) = Some (x :: take n src ++ drop (S n) b).
Proof.
  intros. destruct b as [|x b]; [simpl in *; lia|]. exists x. unfold memcpy.
  rewrite !(proj2 (Z.leb_le _ _)) by (lia || (simpl in *; lia)). cbn [andb].
  rewrite Nat2Z.id. replace (Z.to_nat (1 + Z.of_nat n)) with (S n) by lia. done.
Qed.

Lemma set_swapped s la strs la' b cap :
  valid s la strs -> isFrozen s = false -> wf_list la' -> (exists junk, b = la' ++ junk) ->
  cap = Z.of_nat (length b) ->
  valid (releasePattern (swapBuffers (set_len (set_buffer s (Some b) cap) (Z.of_nat (length la')))))
    la' strs.
Proof.
  intros [Hr Hf] Hnf Hw Hb Hcap. destruct (not_frozen s Hnf) as [Hbm Hsp].
  pose proof (rep_list _ _ _ Hr) as (l & Hl & _ & Hc). destruct Hr as [_ _ Hstr Hso Hmu _ _].
  split; [|done]. constructor; cbn; try done.
  - by exists b.
  - intros b0 Hb0. rewrite Hl in Hb0. by simplify_eq.
  - by rewrite Hbm.
  - by rewrite Hsp.
Qed.

(** What [complement] writes: the list with a boundary at LOW added or removed. *)
Definition flip_low (la : Datatypes.list Z) : Datatypes.list Z :=
  match la with x :: la' => if x =? 0 then la' else 0 :: la | [] => [] end.

Lemma flip_low_spec la :
  wf_list la -> wf_list (flip_low la) /\
  forall c, 0 <= c < UNICODESET_HIGH -> mem (flip_low la) c = negb (mem la c).
Proof.
  intros [Hs Hp]. destruct la as [|x la]; [by apply hsorted_not_nil in Hs|]. cbn [flip_low].
  inversion_clear Hp as [|? ? Hx Hp']. destruct (Z.eqb_spec x 0) as [->|Hne]; split.
  - destruct (hsorted_next 0 la Hs ltac:(done)) as (y & la' & -> & _ & ?). done.
  - intros c Hc. rewrite !mem_par, par_cons, (proj2 (Z.leb_le _ _)) by lia.
    by destruct (par la c).
  - split; [|by repeat (constructor; [lia|])]. apply hsorted_cons. split; [lia|done].
  - intros c Hc. rewrite !mem_par, (par_cons 0), (proj2 (Z.leb_le 0 c)) by lia.
    by destruct (par (x :: la) c).
Qed.

Lemma complement_yields s la strs :
  valid s la strs -> isFrozen s = false -> yields (complement s) (fun c => negb (mem la c)) strs.
Proof.
  intros Hv Hnf. unfold complement. rewrite Hnf, (valid_not_bogus _ _ _ Hv). cbn [orb].
  destruct (rep_list _ _ _ (proj1 Hv)) as (l & Hl & Hh & _). pose proof Hh as (Hwf & Hn & junk & Hlj).
  destruct (flip_low_spec la Hwf) as [Hwf' Hm]. rewrite Hl. cbn [mbind option_bind].
  destruct la as [|x la]; [by destruct Hwf as [H%hsorted_not_nil]|].
  destruct (holds_length _ _ _ Hh) as [_ Hll].
  assert (H0 : aget l 0 = Some x) by (by rewrite Hlj). rewrite H0. cbn [mbind option_bind].
  unfold UNICODESET_LOW. cbn [flip_low] in Hwf', Hm.
  assert (Hout : forall la' s', valid s' la' strs -> isFrozen s' = false ->
    (forall c, 0 <= c < UNICODESET_HIGH -> mem la' c = negb (mem (x :: la) c)) ->
    yields (Some s') (fun c => negb (mem (x :: la) c)) strs).
  { intros la' s' ? ? ?. exists s'. split; [done|]. left. by exists la'. }
  destruct (Z.eqb_spec x 0) as [->|Hne].
  - destruct (ensureBufferCapacity_spec s _ strs (len s - 1) Hv Hnf)
      as [(b & cap & -> & Hcap & Hroom)|(s' & -> & Hb & Hnf')]; [simpl in Hn; lia| |].
    2:{ cbn [mbind option_bind]. exists s'. split; [done|]. by right. }
    cbn [mbind option_bind set_buffer buffer len]. change (U_FAILURE U_ZERO_ERROR) with false. cbn iota.
    replace (len s - 1) with (Z.of_nat (length la)) by (simpl in Hn; lia).
    rewrite memcpy_front by (rewrite ?length_drop; simpl in *; lia). cbn [mbind option_bind].
    eapply Hout; [|exact Hnf|exact Hm].
    refine (set_swapped s _ strs _ _ cap Hv Hnf Hwf' _ _).
    + rewrite Hlj. cbn [app drop]. rewrite drop_0, take_app_length. by eexists.
    + rewrite Hcap. rewrite length_app, length_take, !length_drop. simpl in *. lia.
  - destruct (ensureBufferCapacity_spec s _ strs (len s + 1) Hv Hnf)
      as [(b & cap & -> & Hcap & Hroom)|(s' & -> & Hb & Hnf')]; [simpl in Hn; lia| |].
    2:{ cbn [mbind option_bind]. exists s'. split; [done|]. by right. }
    cbn [mbind option_bind set_buffer buffer len]. change (U_FAILURE U_ZERO_ERROR) with false. cbn iota.
    destruct (memcpy_second b l (length (x :: la))) as [y Hmc]; [lia|lia|].
    rewrite Hn, Hmc. cbn [mbind option_bind].
    assert (Ht : take (length (x :: la)) l = x :: la) by (by rewrite Hlj, take_app_length).
    rewrite Ht. change (aset (y :: ?l) 0 0) with (Some (0 :: l)). cbn [mbind option_bind].
    replace (Z.of_nat (length (x :: la)) + 1) with (Z.of_nat (length (0 :: x :: la))) by (simpl; lia).
    eapply Hout; [|exact Hnf|exact Hm].
    refine (set_swapped s _ strs _ _ cap Hv Hnf Hwf' _ _).
    + by eexists.
    + rewrite Hcap. cbn [length app]. rewrite length_app, length_drop. simpl in *. lia.
Qed.

(** ** Construction *)

(** A constructor gives an empty set, or, without memory, a set without a list. *)
Lemma new_yields :
  exists s, new = Some s /\
    (valid s [UNICODESET_HIGH] [] /\ isFrozen s = false \/ list s = None).
Proof.
  unfold new, allocateStrings. change (U_FAILURE U_ZERO_ERROR) with false. cbn iota.
  destruct (sv_new U_ZERO_ERROR) as [v st] eqn:Hn.
  destruct (U_FAILURE st) eqn:Hf; rewrite ?Hf; [eexists; split; [done|by right]|].
  destruct (sv_new_law v st Hn) as [Hok Hc]; [rewrite U_FAILURE_SUCCESS in Hf; by destruct (U_SUCCESS st)|].
  cbn [set_strings capacity fresh_set]. destruct (uprv_malloc (1 + START_EXTRA)) as [l|] eqn:Hm.
  - apply uprv_malloc_length in Hm. unfold START_EXTRA in *.
    destruct l as [|x l]; [simpl in Hm; lia|].
    change (aset (x :: l) 0 UNICODESET_HIGH) with (Some (UNICODESET_HIGH :: l)). cbn [mbind option_bind].
    eexists. split; [done|]. left. split; [|done]. split; [|done].
    constructor; cbn; try done; try by constructor.
    + eexists. split_and!; [done|split; [apply wf_empty|split; [done|by exists l]]|].
      simpl in *. lia.
    + by exists v.
  - unfold setToBogus, clear. cbn. destruct (sv_removeAllElements_law v Hok) as (v' & -> & _).
    cbn. eexists. split; [done|]. by right.
Qed.

(** ** Compaction *)

Lemma compact_yields s la strs :
  valid s la strs -> isFrozen s = false -> yields (compact s) (mem la) strs.
Proof.
  intros Hv Hnf. unfold compact. rewrite Hnf, (valid_not_bogus _ _ _ Hv). cbn [orb].
  set (s1 := set_buffer s None (bufferCapacity s)).
  assert (Hv1 : valid s1 la strs).
  { destruct Hv as [[] Hf]. split; [|done]. by constructor. }
  assert (Hsame : yields (Some s1) (mem la) strs) by (by eapply yields_same).
  destruct (rep_list _ _ _ (proj1 Hv1)) as (l & Hl & Hh & Hcap).
  destruct (holds_length _ _ _ Hh) as [Hn Hle]. pose proof (rep_holds_len _ _ _ (proj1 Hv1)) as Hpos.
  destruct (Z.ltb_spec (len s1) (capacity s1)); [|done].
  rewrite (proj2 (Z.eqb_neq _ _)), Z.add_0_r, Hl by lia.
  destruct (realloc (Some l) (len s1)) as [l'|] eqn:Hre; [|done].
  pose proof (realloc_length _ _ _ Hre ltac:(lia)) as Hl'.
  exists (set_block s1 (Some l') (len s1)). split; [done|]. left. exists la. split; [|done].
  destruct Hv1 as [[_ ? ? ? ? ? ?] Hf]. split; [|done]. constructor; try done.
  exists l'. split_and!; [done| |by symmetry]. eapply holds_take; [exact Hh|].
  apply (realloc_take l (len s1)); [done|lia|lia].
Qed.

(** ** Histories

    What an operation does to the code points and the strings of a set.  The
    operands are other objects than the set itself.  [RetainRange] keeps the
    strings unless the range is empty, as the code does; uniset.h documents the
    intersection with the range. *)

Record set_arg := {
  arg_set : UnicodeSet V;
  arg_list : Datatypes.list Z;
  arg_strings : Datatypes.list UnicodeString;
  arg_rep : rep arg_set arg_list arg_strings
}.

Inductive op :=
  | Clear
  | Set_ (start end_ : Z)
  | Add (c : Z)
  | AddRange (start end_ : Z)
  | AddString (t : UnicodeString)
  | AddAllString (t : UnicodeString)
  | RetainRange (start end_ : Z)
  | RemoveRange (start end_ : Z)
  | RemoveString (t : UnicodeString)
  | ComplementRange (start end_ : Z)
  | Complement
  | ComplementString (t : UnicodeString)
  | AddAll (o : set_arg)
  | RetainAll (o : set_arg)
  | RemoveAll (o : set_arg)
  | ComplementAll (o : set_arg)
  | RemoveAllStrings
  | Compact.

Definition run (p : op) (s : UnicodeSet V) : option (UnicodeSet V) :=
  match p with
  | Clear => clear s
  | Set_ start end_ => set s start end_
  | Add c => add s c
  | AddRange start end_ => add_range s start end_
  | AddString t => add_string s t
  | AddAllString t => addAll_string s t
  | RetainRange start end_ => retain_range s start end_
  | RemoveRange start end_ => remove_range s start end_
  | RemoveString t => remove_string s t
  | ComplementRange start end_ => complement_range s start end_
  | Complement => complement s
  | ComplementString t => complement_string s t
  | AddAll o => addAll s (arg_set o)
  | RetainAll o => retainAll s (Some (arg_set o))
  | RemoveAll o => removeAll s (Some (arg_set o))
  | ComplementAll o => complementAll s (arg_set o)
  | RemoveAllStrings => removeAllStrings s
  | Compact => compact s
  end.

Fixpoint run_all (ps : Datatypes.list op) (s : UnicodeSet V) : option (UnicodeSet V) :=
  match ps with [] => Some s | p :: ps => s ← run p s; run_all ps s end.

(** The code points of a set. *)
Definition points (p : op) (f : Z -> bool) (c : Z) : bool :=
  match p with
  | Clear => false
  | Set_ start end_ => in_pinned start end_ c
  | Add x => (c =? pinCodePoint x) || f c
  | AddRange start end_ => f c || in_pinned start end_ c
  | AddString t => is_cp t c || f c
  | AddAllString t => f c || bool_decide (c ∈ code_points t)
  | RetainRange start end_ => f c && in_pinned start end_ c
  | RemoveRange start end_ => f c && negb (in_pinned start end_ c)
  | RemoveString t => f c && negb (is_cp t c)
  | ComplementRange start end_ => xorb (f c) (in_pinned start end_ c)
  | Complement => negb (f c)
  | ComplementString t => xorb (f c) (is_cp t c)
  | AddAll o => f c || mem (arg_list o) c
  | RetainAll o => f c && mem (arg_list o) c
  | RemoveAll o => f c && negb (mem (arg_list o) c)
  | ComplementAll o => xorb (f c) (mem (arg_list o) c)
  | RemoveAllStrings | Compact => f c
  end.

(** Its strings of more than one code point. *)
Definition texts (p : op) (g : UnicodeString -> Prop) (u : UnicodeString) : Prop :=
  match p with
  | Clear | Set_ _ _ | RemoveAllStrings => False
  | AddString t => u = t /\ multi t \/ g u
  | RetainRange start end_ => g u /\ pinCodePoint start <= pinCodePoint end_
  | RemoveString t => g u /\ u <> t
  | ComplementString t => g u /\ u <> t \/ u = t /\ multi t /\ ~ g t
  | AddAll o => g u \/ u ∈ arg_strings o
  | RetainAll o => g u /\ u ∈ arg_strings o
  | RemoveAll o => g u /\ u ∉ arg_strings o
  | ComplementAll o => (g u /\ u ∉ arg_strings o) \/ (~ g u /\ u ∈ arg_strings o)
  | _ => g u
  end.

(** String arguments consist of 16-bit units and have an [int32_t] length. *)
Definition op_ok (p : op) : Prop :=
  match p with
  | AddString t | AddAllString t | RemoveString t | ComplementString t =>
      is_string t /\ Z.of_nat (length t) <= INT32_MAX
  | _ => True
  end.

Lemma set_spec s strs start end_ :
  shape s strs -> isFrozen s = false -> yields (set s start end_) (in_pinned start end_) [].
Proof.
  intros Hs Hnf. unfold set. destruct (clear_spec s strs Hs Hnf) as (s' & -> & Hr & Hf & Hnf').
  cbn [mbind option_bind]. eapply yields_ext; [by eapply complement_range_spec|].
  intros c Hc. cbv beta. by rewrite mem_empty, xorb_false_l by lia.
Qed.

Lemma removeAllStrings_yields s la strs :
  valid s la strs -> isFrozen s = false -> yields (removeAllStrings s) (mem la) [].
Proof.
  intros Hv Hnf. unfold removeAllStrings. destruct (valid_strings _ _ _ Hv) as (v & -> & Hok & Hc).
  cbn [mbind option_bind]. destruct (sv_removeAllElements_law v Hok) as (v' & -> & Hok' & Hc').
  cbn [mbind option_bind]. eexists. split; [done|]. left. exists la. split; [|done].
  eapply valid_set_strings; [done..|constructor|constructor].
Qed.

Lemma clear_yields s strs : shape s strs -> isFrozen s = false -> yields (clear s) (fun _ => false) [].
Proof.
  intros Hs Hnf. destruct (clear_spec s strs Hs Hnf) as (s' & -> & Hr & Hf & Hnf').
  exists s'. split; [done|]. left. exists [UNICODESET_HIGH]. split_and!; [done|done|].
  intros c Hc. apply mem_empty; lia.
Qed.

Lemma run_yields p s la strs :
  op_ok p -> valid s la strs -> isFrozen s = false ->
  yields_set (run p s) (points p (mem la)) (texts p (fun u => u ∈ strs)).
Proof.
  intros Hp Hv Hnf. pose proof (rep_shape _ _ _ (proj1 Hv)) as Hsh.
  assert (Hempty : forall u, u ∈ ([] : Datatypes.list UnicodeString) <-> False).
  { intros u. split; [apply not_elem_of_nil|done]. }
  destruct p; cbn [run points texts op_ok] in *.
  - eapply yields_set_ext; [by eapply yields_yields_set, clear_yields|done|done].
  - eapply yields_set_ext; [by eapply yields_yields_set, set_spec|done|done].
  - by eapply yields_yields_set, add_spec.
  - by eapply yields_yields_set, add_range_yields.
  - apply add_string_yields; [done|done|apply Hp].
  - apply yields_yields_set, addAll_string_yields; [done|done|apply Hp|apply Hp].
  - eapply yields_set_ext; [by eapply yields_yields_set, retain_range_spec|done|].
    intros u. cbv beta. destruct (Z.leb_spec (pinCodePoint start) (pinCodePoint end_)).
    + split; [by intros ?|by intros [? _]].
    + rewrite Hempty. split; [done|intros [_ ?]; lia].
  - by eapply yields_yields_set, remove_range_spec.
  - apply remove_string_yields; [done|done|apply Hp].
  - by eapply yields_yields_set, complement_range_spec.
  - by eapply yields_yields_set, complement_yields.
  - apply complement_string_yields; [done|done|apply Hp].
  - apply addAll_yields; [done|done|apply arg_rep].
  - apply retainAll_yields; [done|done|apply arg_rep].
  - apply removeAll_yields; [done|done|apply arg_rep].
  - apply complementAll_yields; [done|done|apply arg_rep].
  - eapply yields_set_ext; [by eapply yields_yields_set, removeAllStrings_yields|done|done].
  - by eapply yields_yields_set, compact_yields.
Qed.

(** ** Sets without memory

    A bogus set stays as it is under the operations, but for those that clear
    it. *)

Definition well_formed s : Prop :=
  isFrozen s = false /\ ((exists la strs, valid s la strs) \/ bogus s).

Definition keeps (res : option (UnicodeSet V)) : Prop := exists s', res = Some s' /\ well_formed s'.

Lemma keeps_same s : bogus s -> isFrozen s = false -> keeps (Some s).
Proof. intros. exists s. split; [done|]. split; [done|by right]. Qed.

Lemma yields_keeps res f strs : yields res f strs -> keeps res.
Proof.
  intros (s' & -> & [(la & Hv & Hnf & _)|[Hb Hnf]]); exists s'; (split; [done|]); (split; [done|]).
  - left. by exists la, strs.
  - by right.
Qed.

Lemma yields_set_keeps res f g : yields_set res f g -> keeps res.
Proof.
  intros (s' & -> & [(la & strs & Hv & Hnf & _)|[Hb Hnf]]); exists s'; (split; [done|]); (split; [done|]).
  - left. by exists la, strs.
  - by right.
Qed.

Lemma run_bogus p s : op_ok p -> bogus s -> isFrozen s = false -> keeps (run p s).
Proof.
  intros Hp Hb Hnf. pose proof (bogus_isBogus _ Hb) as Hbo. pose proof (keeps_same s Hb Hnf) as Hk.
  pose proof (rep_shape _ _ _ (proj2 Hb)) as Hsh.
  destruct p; cbn [run op_ok] in *;
    unfold add_string, remove_string, complement_string, remove_range, complement_range, complement,
      retainAll, removeAll, complementAll, compact, retain_list; rewrite ?Hbo, ?orb_true_r; try exact Hk.
  - by eapply yields_keeps, clear_yields.
  - by eapply yields_keeps, set_spec.
  - by rewrite add_bogus.
  - unfold add_range, add_list. rewrite Hbo, orb_true_r. rewrite add_bogus by done. zcases; exact Hk.
  - destruct Hp as [Hp Hmax]. unfold addAll_string. pose proof (addAll_string_loop_yields t Hp Hmax
      (length t) 0 ltac:(lia) ltac:(lia) ltac:(by intros ? ? ?)) as [_ H].
    change 0 with (Z.of_nat 0). by rewrite H.
  - unfold retain_range, retain_list. rewrite Hbo, orb_true_r. zcases; [exact Hk|].
    by eapply yields_keeps, clear_yields.
  - zcases; exact Hk.
  - unfold addAll, add_list. rewrite Hbo, orb_true_r. destruct o as [o lb strsb Ho]. cbn [arg_set].
    destruct (rep_list _ _ _ Ho) as (l & -> & _).
    destruct (rep_strings _ _ _ Ho) as (ov & -> & Hok & Hc).
    assert (Hin : (if len o >? 0 then Some s else Some s) = Some s) by (by destruct (len o >? 0)).
    rewrite Hin. cbn [mbind option_bind].
    pose proof (addAll_strings_yields ov strsb Hok Hc (rep_multi _ _ _ Ho) (Z.to_nat (sv_size ov)) 0)
      as [_ H]; [rewrite (sv_size_law ov Hok), Hc; lia|].
    change 0 with (Z.of_nat 0). by rewrite H.
  - unfold removeAllStrings. destruct (bogus_strings s Hb) as (v & -> & Hok & Hc). cbn [mbind option_bind].
    destruct (sv_removeAllElements_law v Hok) as (v' & -> & Hok' & Hc'). cbn [mbind option_bind].
    apply keeps_same; [|done]. by apply bogus_set_strings.
Qed.

(** The abstract set after a history. *)
Definition points_all (ps : Datatypes.list op) (f : Z -> bool) : Z -> bool :=
  foldl (fun f p => points p f) f ps.

Definition texts_all (ps : Datatypes.list op) (g : UnicodeString -> Prop) : UnicodeString -> Prop :=
  foldl (fun g p => texts p g) g ps.

Lemma points_ext p f f' : (forall c, 0 <= c < UNICODESET_HIGH -> f c = f' c) ->
  forall c, 0 <= c < UNICODESET_HIGH -> points p f c = points p f' c.
Proof. intros H c Hc. destruct p; cbn; rewrite ?H; done. Qed.

Lemma texts_ext p (g g' : UnicodeString -> Prop) : (forall t, g t <-> g' t) ->
  forall t, texts p g t <-> texts p g' t.
Proof. intros H u. destruct p; cbn; rewrite ?H; done. Qed.

Lemma run_well_formed p s : op_ok p -> well_formed s -> keeps (run p s).
Proof.
  intros Hp [Hnf [(la & strs & Hv)|Hb]].
  - by eapply yields_set_keeps, run_yields.
  - by apply run_bogus.
Qed.

(** Some operation of the history left the set without memory. *)
Definition ran_out (ps : Datatypes.list op) s : Prop :=
  exists ps1 ps2 s1, ps = ps1 ++ ps2 /\ run_all ps1 s = Some s1 /\ bogus s1.

Lemma not_ran_out ps s :
  forallb (fun n => match run_all (take n ps) s with Some s1 => negb (isBogus s1) | None => true end)
    (seq 0 (S (length ps))) = true -> ~ ran_out ps s.
Proof.
  rewrite forallb_forall. intros H (ps1 & ps2 & s1 & -> & Hr & Hb). specialize (H (length ps1)).
  rewrite take_app_length, Hr, (bogus_isBogus _ Hb) in H. discriminate H. apply in_seq. rewrite length_app. lia.
Qed.

Lemma run_all_well_formed ps : forall s, Forall op_ok ps -> well_formed s -> keeps (run_all ps s).
Proof.
  induction ps as [|p ps IH]; intros s Hps Hw; cbn [run_all]; [by exists s|].
  inversion_clear Hps as [|? ? Hp Hps']. destruct (run_well_formed p s Hp Hw) as (s' & -> & Hw').
  by apply IH.
Qed.

Lemma run_all_refines ps : forall s la strs f g,
  Forall op_ok ps -> valid s la strs -> isFrozen s = false ->
  (forall c, 0 <= c < UNICODESET_HIGH -> mem la c = f c) -> (forall t, t ∈ strs <-> g t) ->
  exists s', run_all ps s = Some s' /\ well_formed s' /\
    ((exists la' strs', valid s' la' strs' /\
        (forall c, 0 <= c < UNICODESET_HIGH -> mem la' c = points_all ps f c) /\
        (forall t, t ∈ strs' <-> texts_all ps g t)) \/
     ran_out ps s).
Proof.
  induction ps as [|p ps IH]; intros s la strs f g Hps Hv Hnf Hf Hg; cbn [run_all].
  - exists s. split; [done|]. split; [split; [done|left; by exists la, strs]|]. left. by exists la, strs.
  - inversion_clear Hps as [|? ? Hp Hps'].
    destruct (run_yields p s la strs Hp Hv Hnf) as (s1 & Hr & [(la1 & strs1 & Hv1 & Hnf1 & Hf1 & Hg1)|[Hb Hnf1]]);
      rewrite Hr; cbn [mbind option_bind].
    + destruct (IH s1 la1 strs1 (points p f) (texts p g) Hps' Hv1 Hnf1) as (s' & Hs' & Hw & Hres).
      { intros c Hc. rewrite Hf1 by done. by apply points_ext. }
      { intros u. rewrite Hg1. by apply texts_ext. }
      exists s'. split; [done|]. split; [done|]. destruct Hres as [Hres|(ps1 & ps2 & s2 & -> & Hs2 & Hb)].
      * by left.
      * right. exists (p :: ps1), ps2, s2. cbn [run_all]. by rewrite Hr.
    + destruct (run_all_well_formed ps s1 Hps') as (s' & Hs' & Hw); [split; [done|by right]|].
      exists s'. split; [done|]. split; [done|]. right. exists [p], ps, s1. cbn [run_all]. by rewrite Hr.
Qed.

(** ** Frozen sets *)

Lemma add_frozen s la strs c : rep s la strs -> isFrozen s = true -> add s c = Some s.
Proof.
  intros Hr Hf. unfold add. destruct (rep_list _ _ _ Hr) as (l & Hl & Hh & _).
  pose proof (pinCodePoint_range c) as Hp.
  destruct (findCodePoint_spec l (len s) la (pinCodePoint c) Hh) as (i & Hfi & _); [lia|].
  unfold find. rewrite Hl. cbn [mbind option_bind]. rewrite Hfi. cbn [mbind option_bind].
  by rewrite Hf, orb_true_r.
Qed.

Lemma addAll_string_frozen s la strs str : rep s la strs -> isFrozen s = true ->
  is_string str -> Z.of_nat (length str) <= INT32_MAX ->
  forall n (i : nat), (length str - i <= n)%nat -> (i <= length str)%nat ->
  boundary (take i str) (drop i str) -> addAll_string_loop n s str (Z.of_nat i) = Some s.
Proof.
  intros Hr Hf Hs Hmax. induction n as [|n IH]; intros i Hn Hi Hbd; cbn [addAll_string_loop];
    unfold us_length; (destruct (Z.ltb_spec (Z.of_nat i) (Z.of_nat (length str))); [|done]); [lia|].
  destruct (char32At_step str i) as (cp & i' & Hat & Hi' & _ & Hlt & Hbd' & _); [done|done|lia|done|].
  rewrite Hat. cbn [mbind option_bind]. rewrite (add_frozen s la strs) by done. cbn [mbind option_bind].
  rewrite Hi'. apply IH; [lia|lia|done].
Qed.

Lemma addAll_strings_frozen s la strs ov strsb : rep s la strs -> isFrozen s = true ->
  sv_ok ov -> sv_contents ov = strsb -> forall n (i : nat), (length strsb - i <= n)%nat ->
  addAll_strings n s ov (Z.of_nat i) = Some s.
Proof.
  intros Hr Hf Hok Hc. induction n as [|n IH]; intros i Hn; cbn [addAll_strings];
    rewrite (sv_size_law ov Hok), Hc;
    (destruct (Z.ltb_spec (Z.of_nat i) (Z.of_nat (length strsb))); [|done]); [lia|].
  destruct (lookup_lt_is_Some_2 strsb i) as [t Ht]; [lia|].
  rewrite (sv_elementAt_law ov i t Hok) by (by rewrite Hc). cbn [mbind option_bind].
  destruct (rep_strings _ _ _ Hr) as (v & -> & Hvok & Hvc). cbn [mbind option_bind].
  rewrite (sv_contains_law v t Hvok). cbn [mbind option_bind].
  replace (Z.of_nat i + 1) with (Z.of_nat (S i)) by lia.
  unfold _add. rewrite Hf. cbn [orb].
  destruct (bool_decide _); cbn [negb mbind option_bind]; apply IH; lia.
Qed.

Lemma run_frozen p s la strs :
  op_ok p -> p <> RemoveAllStrings -> rep s la strs -> isFrozen s = true -> run p s = Some s.
Proof.
  intros Hp Hne Hr Hf. destruct p; cbn [run op_ok] in *;
    unfold clear, set, clear, complement_range, add_string, remove_string, complement_string,
      remove_range, complement_range, complement, retainAll, removeAll, complementAll, compact,
      retain_list;
    rewrite ?Hf, ?orb_true_r; cbn [orb mbind option_bind]; rewrite ?Hf; cbn [orb]; try done.
  - by eapply add_frozen.
  - unfold add_range, add_list. rewrite Hf. cbn [orb].
    rewrite (add_frozen s la strs) by done. zcases; done.
  - by apply (addAll_string_frozen s la strs t Hr Hf (proj1 Hp) (proj2 Hp) (length t) 0); [lia|lia|intros ? ? ?].
  - unfold retain_range, retain_list, clear. rewrite Hf. cbn [orb]. zcases; done.
  - zcases; done.
  - unfold addAll, add_list. rewrite Hf. cbn [orb]. destruct o as [o lb strsb Ho]. cbn [arg_set].
    destruct (rep_list _ _ _ Ho) as (l & -> & _).
    destruct (rep_strings _ _ _ Ho) as (ov & -> & Hok & Hc).
    assert (Hin : (if len o >? 0 then Some s else Some s) = Some s) by (by destruct (len o >? 0)).
    rewrite Hin. cbn [mbind option_bind].
    eapply (addAll_strings_frozen s la strs ov strsb Hr Hf Hok Hc _ 0).
    rewrite (sv_size_law ov Hok), Hc. lia.
Qed.

End Life.
