(* ===== verification/UnicodeSetProperties.v ===== *)
(** * What a UnicodeSet promises (src/common/uniset.cpp)

    The results of the library on sets, each with an instance on concrete sets.
    A [rep s la strs] hypothesis says that the object [s] is a well-formed set
    with the inversion list [la] and the sorted strings [strs]; [mem la] is the
    set of its code points. *)
From S2P Require Import Prelude Utf16 InversionList BMPSet UVector StringVector UnicodeSet.
From S2P Require Import UnicodeSetSample UnicodeSetStrings UnicodeSetQueries UnicodeSetLife.
Import UnicodeSet.UnicodeSet.

Local Open Scope Z_scope.

Section Properties.
Context {V : Type} {sv : StringVector V} {alloc : Allocator Z}.
Implicit Types s o : UnicodeSet V.

(** C1: after any sequence of modifications, whose operands are other sets, a new
    set is well formed and holds exactly what the abstract operations give,
    unless memory ran out on the way: the code points of the set operations, and
    the strings.  Two operations do not do to the strings what uniset.h says:
    [retain(start, end)] is documented to intersect with the range, but keeps all
    strings (unless the range is empty), and [removeAll] of the set from itself
    removes all code points, but keeps every other string. *)
Theorem history_refines ps :
  Forall op_ok ps ->
  exists s, new = Some s /\
    (list s = None \/
     exists s', run_all ps s = Some s' /\ well_formed s' /\
       ((exists la strs, valid s' la strs /\
           (forall c, 0 <= c < UNICODESET_HIGH -> mem la c = points_all ps (fun _ => false) c) /\
           (forall t, t ∈ strs <-> texts_all ps (fun _ => False) t) /\
           yields_set (removeAll s' None) (fun _ => false) (fun t => t ∈ odds strs)) \/
        ran_out ps s)).
Proof.
  intros Hps. destruct (new_yields (V := V)) as (s & Hn & [[Hv Hnf]|Hl]); exists s; (split; [done|]); [|by left]. right.
  destruct (run_all_refines ps s [UNICODESET_HIGH] [] (fun _ => false) (fun _ => False)) as (s' & E & Hw & H); [done|done|done| | |].
  - intros c Hc. apply mem_empty. lia.
  - intros t. split; [by intros ?%not_elem_of_nil|done].
  - exists s'. split; [done|]. split; [done|]. destruct H as [(la & strs & Hv' & Hp & Ht)|H]; [|by right].
    left. exists la, strs. split_and!; [done..|]. by apply (removeAll_self_yields _ la), (proj1 Hw).
Qed.

(** [contains] tells membership for every argument, of frozen sets too. *)
Theorem contains_correct s la strs c :
  rep s la strs -> is_int32 c -> contains s c = Some (mem la c).
Proof. apply contains_cp_spec. Qed.

(** [contains(const UnicodeString&)] is true for the strings of the set and
    for the strings of one code point that the set contains. *)
Theorem contains_string_correct s la strs t :
  rep s la strs -> is_string t ->
  exists b, contains_string s t = Some b /\ (b = true <-> has (mem la) (fun u => u ∈ strs) t).
Proof. apply contains_string_yields. Qed.

(** C28: [containsAll] is the subset relation and [containsNone] disjointness. *)
Theorem containment_correct s la strs o lb strsb :
  rep s la strs -> rep o lb strsb ->
  (exists b, containsAll s o = Some b /\
    (b = true <-> (forall c, mem lb c = true -> mem la c = true) /\ (forall t, t ∈ strsb -> t ∈ strs))) /\
  (exists b, containsNone s o = Some b /\
    (b = true <-> (forall c, mem lb c = true -> mem la c = false) /\ (forall t, t ∈ strsb -> t ∉ strs))).
Proof. intros Hr Ho. split; [by apply containsAll_yields|by apply containsNone_yields]. Qed.

(** C26: sets are equal under [operator==] exactly when they have the same code
    points and the same strings, and then their hash codes are equal. *)
Theorem equality_correct s la strs o lb strsb :
  rep s la strs -> rep o lb strsb ->
  exists b, operator_eq s o = Some b /\
    (b = true <-> (forall c, 0 <= c < UNICODESET_HIGH -> mem la c = mem lb c) /\
                  (forall t, t ∈ strs <-> t ∈ strsb)) /\
    (b = true -> hashCode s = hashCode o).
Proof.
  intros Hr Ho. rewrite (operator_eq_yields s la strs o lb strsb Hr Ho).
  rewrite (hashCode_yields s la strs Hr), (hashCode_yields o lb strsb Ho).
  eexists. split; [done|]. rewrite bool_decide_eq_true. split; [by eapply rep_canonical|].
  by intros [-> _].
Qed.

(** C38: the code points of a set are numbered in increasing order: [size] counts
    them (and the strings), [charAt] and [indexOf] are inverse to each other. *)
Theorem indexing_correct s la strs :
  rep s la strs ->
  StronglySorted Z.lt (cps la) /\ (forall c, c ∈ cps la <-> mem la c = true) /\
  size s = Some (Z.of_nat (length (cps la)) + Z.of_nat (length strs)) /\
  (forall c, indexOf s c = Some (index_of c (cps la))) /\
  (forall i, charAt s i = Some (if i <? 0 then -1 else default (-1) (cps la !! Z.to_nat i))).
Proof.
  intros Hr. destruct (rep_list _ _ _ Hr) as (l & _ & (Hwf & _) & _). split_and!.
  - by apply cps_sorted, wf_tail_ok.
  - intros c. by apply cps_spec.
  - by apply size_yields.
  - intros c. by eapply indexOf_yields.
  - intros i. by eapply charAt_yields.
Qed.

(** No modification changes a frozen set, but [removeAllStrings] removes the
    strings of a frozen set as of any other. *)
Theorem frozen_immutable p s la strs :
  op_ok p -> rep s la strs -> isFrozen s = true ->
  (p <> RemoveAllStrings -> run p s = Some s) /\
  (p = RemoveAllStrings -> exists s', run p s = Some s' /\ isFrozen s' = true /\ rep s' la []).
Proof.
  intros Hp Hr Hf. split; [intros Hne; by eapply run_frozen|intros ->]. cbn [run]. unfold removeAllStrings.
  destruct (rep_strings _ _ _ Hr) as (v & -> & Hok & Hc). cbn [mbind option_bind].
  destruct (sv_removeAllElements_law v Hok) as (v' & -> & Hok' & Hc'). cbn [mbind option_bind].
  eexists. split; [done|]. split; [done|]. eapply rep_set_strings; [done..|constructor|constructor].
Qed.

(** [removeAll] of a set from itself removes all code points, but keeps every
    other string. *)
Theorem removeAll_self_keeps s la strs :
  valid s la strs -> isFrozen s = false ->
  yields_set (removeAll s None) (fun _ => false) (fun t => t ∈ odds strs).
Proof. apply removeAll_self_yields. Qed.

End Properties.

(** ** The properties on concrete sets *)

#[local] Existing Instances cells zero_allocator.

Definition sample_arg : set_arg := Build_set_arg sample sample_list [ch; ll] sample_rep.

Definition sample_ops : Datatypes.list (op (V := UVector.UVector UnicodeString)) :=
  [AddRange 0x61 0x6d; AddAll sample_arg; RemoveRange 0x70 0x72; AddString ll; RemoveString ch;
   Complement; RetainRange 0x68 0x200; RemoveAll sample_arg; AddString ch; Compact].

Lemma sample_ops_ok : Forall op_ok sample_ops.
Proof.
  assert (is_string ch /\ is_string ll) as [? ?].
  { split; repeat (constructor; [unfold is_uint16; lia|]); constructor. }
  repeat (constructor; [done || (split; [done|done])|]). constructor.
Qed.

Lemma history_refines_witness :
  exists s s' la strs, new = Some s /\ run_all sample_ops s = Some s' /\ valid s' la strs /\
    (forall c, 0 <= c < UNICODESET_HIGH -> mem la c = points_all sample_ops (fun _ => false) c) /\
    (forall t, t ∈ strs <-> texts_all sample_ops (fun _ => False) t) /\
    yields_set (removeAll s' None) (fun _ => false) (fun t => t ∈ odds strs) /\
    (contains s' 0x7a, contains s' 0x7b, contains s' 0x201, contains_string s' ch, contains_string s' ll) =
      (Some false, Some true, Some false, Some true, Some false).
Proof.
  destruct (history_refines sample_ops sample_ops_ok) as (s & Hn & [H|(s' & H & _ & [(la & strs & Hv & Hp & Ht & Hd)|H'])]).
  - exfalso. revert H. vm_compute in Hn. injection Hn as <-. discriminate.
  - exists s, s', la, strs. split_and!; [exact Hn|exact H|exact Hv|exact Hp|exact Ht|exact Hd|].
    vm_compute in Hn. injection Hn as <-. vm_compute in H. injection H as <-. vm_compute. reflexivity.
  - exfalso. revert H'. apply not_ran_out. vm_compute in Hn. injection Hn as <-. vm_compute. reflexivity.
Defined.

Lemma contains_correct_witness :
  contains sample 0x64 = Some true /\ contains frozen_sample 0xac00 = Some false.
Proof.
  split.
  - apply (contains_correct sample sample_list [ch; ll] 0x64 sample_rep).
    unfold is_int32, INT32_MIN, INT32_MAX. lia.
  - apply (contains_correct frozen_sample sample_list [ch; ll] 0xac00 frozen_sample_rep).
    unfold is_int32, INT32_MIN, INT32_MAX. lia.
Defined.

Lemma contains_string_correct_witness :
  exists b, contains_string sample ll = Some b /\
    (b = true <-> has (mem sample_list) (fun u => u ∈ [ch; ll]) ll).
Proof.
  apply (contains_string_correct sample sample_list [ch; ll] ll sample_rep).
  repeat (constructor; [unfold is_uint16; lia|]); constructor.
Defined.

Lemma containment_correct_witness :
  exists b, containsAll sample frozen_sample = Some b /\
    (b = true <-> (forall c, mem sample_list c = true -> mem sample_list c = true) /\
                  (forall t, t ∈ [ch; ll] -> t ∈ [ch; ll])).
Proof.
  apply (containment_correct sample sample_list [ch; ll] frozen_sample sample_list [ch; ll]
    sample_rep frozen_sample_rep).
Defined.

Lemma equality_correct_witness :
  exists b, operator_eq sample frozen_sample = Some b /\
    (b = true <-> (forall c, 0 <= c < UNICODESET_HIGH -> mem sample_list c = mem sample_list c) /\
                  (forall t, t ∈ [ch; ll] <-> t ∈ [ch; ll])) /\
    (b = true -> hashCode sample = hashCode frozen_sample).
Proof.
  apply (equality_correct sample sample_list [ch; ll] frozen_sample sample_list [ch; ll]
    sample_rep frozen_sample_rep).
Defined.

Lemma indexing_correct_witness :
  size sample = Some (Z.of_nat (length (cps sample_list)) + Z.of_nat (length [ch; ll])).
Proof. apply (indexing_correct sample sample_list [ch; ll] sample_rep). Defined.

Lemma frozen_immutable_witness :
  run (AddRange 0x30 0x39) frozen_sample = Some frozen_sample /\
  exists s', run RemoveAllStrings frozen_sample = Some s' /\ isFrozen s' = true /\ rep s' sample_list [].
Proof.
  assert (Hf : isFrozen frozen_sample = true) by (vm_compute; reflexivity).
  split.
  - apply (frozen_immutable (AddRange 0x30 0x39) frozen_sample sample_list [ch; ll] I
      frozen_sample_rep Hf). discriminate.
  - apply (frozen_immutable RemoveAllStrings frozen_sample sample_list [ch; ll] I
      frozen_sample_rep Hf). reflexivity.
Defined.

Lemma removeAll_self_keeps_witness :
  odds [ch; ll] = [ll] /\
  yields_set (removeAll sample None) (fun _ => false) (fun t => t ∈ odds [ch; ll]).
Proof.
  split; [reflexivity|].
  apply (removeAll_self_keeps sample sample_list [ch; ll] sample_valid). reflexivity.
Defined.
