(* ===== verification/USerializedSet.v ===== *)
(** * Serialized sets (src/common/uniset.cpp, src/common/uset.cpp)

    [UnicodeSet::serialize] writes the inversion list of a set, without its last
    boundary, as 16-bit units; [uset_getSerializedSet] finds the list again in
    the units, and [uset_serializedContains], [uset_getSerializedRangeCount] and
    [uset_getSerializedRange] read it there. *)
From S2P Require Import Prelude Int32 Utf16 InversionList BMPSet UVector StringVector UnicodeSet.
From S2P Require Import UnicodeSetSample UnicodeSetStrings UnicodeSetQueries.

Local Open Scope Z_scope.

Module USerializedSet.

(** ** Writing *)

Section Definitions.
Context {V : Type}.

(** [for (; bmpLength<length && list[bmpLength]<=0xffff; ++bmpLength) {}] *)
Fixpoint count_bmp (fuel : nat) (l : list Z) (bmpLength length : Z) : option Z :=
  if bmpLength <? length then
    x ← aget l bmpLength;
    if x <=? 0xffff then
      match fuel with O => None | S fuel' => count_bmp fuel' l (bmpLength + 1) length end
    else Some bmpLength
  else Some bmpLength.

(** The BMP part; [dest] is at [d]. *)
Fixpoint write_bmp (fuel : nat) (dest : list Z) (d : Z) (l : list Z) (i bmpLength : Z)
  : option (list Z * Z) :=
  if i <? bmpLength then
    match fuel with
    | O => None
    | S fuel' =>
        x ← aget l i; dest ← aset dest d (uint16 x);
        write_bmp fuel' dest (d + 1) l (i + 1) bmpLength
    end
  else Some (dest, d).

(** The supplementary part. *)
Fixpoint write_supplementary (fuel : nat) (dest : list Z) (d : Z) (l : list Z) (p i length : Z)
  : option (list Z) :=
  if i <? length then
    match fuel with
    | O => None
    | S fuel' =>
        x ← aget l p;
        dest ← aset dest d (uint16 (Z.shiftr x 16));
        dest ← aset dest (d + 1) (uint16 x);
        write_supplementary fuel' dest (d + 2) l (p + 1) (i + 2) length
    end
  else Some dest.

Definition serialize (s : UnicodeSet.UnicodeSet V) (dest : list Z) (destCapacity : Z)
    (ec : UErrorCode) : option (Z * list Z * UErrorCode) :=
  if U_FAILURE ec then Some (0, dest, ec)
  else if destCapacity <? 0 then Some (0, dest, U_ILLEGAL_ARGUMENT_ERROR)
  else
    let length := UnicodeSet.len s - 1 in
    if length =? 0 then
      if destCapacity >? 0 then dest ← aset dest 0 0; Some (1, dest, ec)
      else Some (1, dest, U_BUFFER_OVERFLOW_ERROR)
    else
      l ← UnicodeSet.list s;
      last ← aget l (length - 1);
      first ← aget l 0;
      '(bmpLength, length) ←
        (if last <=? 0xffff then Some (length, length)
         else if first >=? 0x10000 then Some (0, length * 2)
         else
           bmpLength ← count_bmp (Z.to_nat length) l 0 length;
           Some (bmpLength, bmpLength + 2 * (length - bmpLength)));
      if length >? 0x7fff then Some (0, dest, U_INDEX_OUTOFBOUNDS_ERROR)
      else
        let destLength := length + (if length >? bmpLength then 2 else 1) in
        if destLength <=? destCapacity then
          dest ← aset dest 0
            (if length >? bmpLength then Z.lor (uint16 length) 0x8000 else uint16 length);
          '(dest, d) ← (if length >? bmpLength then
                          dest ← aset dest 1 (uint16 bmpLength); Some (dest, 2)
                        else Some (dest, 1));
          '(dest, d) ← write_bmp (Z.to_nat bmpLength) dest d l 0 bmpLength;
          dest ← write_supplementary (Z.to_nat length) dest d l bmpLength bmpLength length;
          Some (destLength, dest, ec)
        else Some (destLength, dest, U_BUFFER_OVERFLOW_ERROR).

End Definitions.

(** ** Reading

    The array of a serialized set is a place in the units it was read from. *)

Record USerializedSet := mk { units_ : list Z; array : Z; bmpLength : Z; length : Z }.

Definition at_ (set : USerializedSet) (i : Z) : option Z := aget set.(units_) (set.(array) + i).

Definition uset_getSerializedSet (src : list Z) (srcLength : Z) : option (bool * USerializedSet) :=
  let none := mk [] 0 0 0 in
  if srcLength <=? 0 then Some (false, none)
  else
    length ← aget src 0;
    if negb (Z.land length 0x8000 =? 0) then
      let length := Z.land length 0x7fff in
      if srcLength <? 2 + length then Some (false, none)
      else bmpLength ← aget src 1; Some (true, mk src 2 bmpLength length)
    else if srcLength <? 1 + length then Some (false, none)
    else Some (true, mk src 1 length length).

Definition uset_setSerializedToOne (set : USerializedSet) (c : Z) : USerializedSet :=
  if uint32 c >? 0x10ffff then set
  else if c <? 0xffff then mk [uint16 c; uint16 (uint16 c + 1); 0; 0; 0; 0; 0; 0] 0 2 2
  else if c =? 0xffff then mk [0xffff; 1; 0; 0; 0; 0; 0; 0] 0 1 3
  else if c <? 0x10ffff then
    mk [uint16 (Z.shiftr c 16); uint16 c; uint16 (Z.shiftr (c + 1) 16); uint16 (c + 1); 0; 0; 0; 0] 0 0 4
  else mk [0x10; 0xffff; 0; 0; 0; 0; 0; 0] 0 0 2.

Fixpoint find_bmp (fuel : nat) (set : USerializedSet) (c lo hi : Z) : option Z :=
  match fuel with
  | O => None
  | S fuel' =>
      let i := Z.shiftr (lo + hi) 1 in
      if i =? lo then Some hi
      else x ← at_ set i; if c <? x then find_bmp fuel' set c lo i else find_bmp fuel' set c i hi
  end.

(** [high < array[i] || (high==array[i] && low<array[i+1])] *)
Definition below (set : USerializedSet) (high low i : Z) : option bool :=
  x ← at_ set i;
  if high <? x then Some true
  else if high =? x then y ← at_ set (i + 1); Some (low <? y)
  else Some false.

Fixpoint find_supplementary (fuel : nat) (set : USerializedSet) (high low base lo hi : Z) : option Z :=
  match fuel with
  | O => None
  | S fuel' =>
      let i := Z.land (Z.shiftr (lo + hi) 1) (Z.lnot 1) in
      let iabs := i + base in
      if i =? lo then Some hi
      else b ← below set high low iabs;
           if b : bool then find_supplementary fuel' set high low base lo i
           else find_supplementary fuel' set high low base i hi
  end.

Definition uset_serializedContains (fuel : nat) (set : USerializedSet) (c : Z) : option bool :=
  if uint32 c >? 0x10ffff then Some false
  else if c <=? 0xffff then
    let lo := 0 in
    let hi := set.(bmpLength) - 1 in
    x ← at_ set 0;
    hi ← (if c <? x then Some 0
          else y ← at_ set hi; if c <? y then find_bmp fuel set c lo hi else Some (hi + 1));
    Some (negb (Z.land hi 1 =? 0))
  else
    let high := uint16 (Z.shiftr c 16) in
    let low := uint16 c in
    let base := set.(bmpLength) in
    let lo := 0 in
    let hi := set.(length) - 2 - base in
    b ← below set high low base;
    hi ← (if b : bool then Some 0
          else
            b ← below set high low (base + hi);
            if b : bool then find_supplementary fuel set high low base lo hi else Some (hi + 2));
    Some (negb (Z.land (hi + Z.shiftl base 1) 2 =? 0)).

Definition uset_getSerializedRangeCount (set : USerializedSet) : Z :=
  Z.quot (set.(bmpLength) + Z.quot (set.(length) - set.(bmpLength)) 2 + 1) 2.

(** [(((int32_t)array[i])<<16)|array[i+1]] *)
Definition pair_at (set : USerializedSet) (i : Z) : option Z :=
  x ← at_ set i; y ← at_ set (i + 1); Some (Z.lor (Z.shiftl x 16) y).

(** [None] in the result is the return value FALSE. *)
Definition uset_getSerializedRange (set : USerializedSet) (rangeIndex : Z) : option (option (Z * Z)) :=
  if rangeIndex <? 0 then Some None
  else
    let len := set.(length) in
    let bmpLength := set.(bmpLength) in
    let! rangeIndex := rangeIndex *! 2 in
    if rangeIndex <? bmpLength then
      start ← at_ set rangeIndex;
      let rangeIndex := rangeIndex + 1 in
      end_ ← (if rangeIndex <? bmpLength then x ← at_ set rangeIndex; Some (x - 1)
              else if rangeIndex <? len then x ← pair_at set rangeIndex; Some (x - 1)
              else Some 0x10ffff);
      Some (Some (start, end_))
    else
      let! rangeIndex := (rangeIndex -! bmpLength) *! 2 in
      let len := len - bmpLength in
      if rangeIndex <? len then
        start ← pair_at set (bmpLength + rangeIndex);
        let rangeIndex := rangeIndex + 2 in
        end_ ← (if rangeIndex <? len then x ← pair_at set (bmpLength + rangeIndex); Some (x - 1)
                else Some 0x10ffff);
        Some (Some (start, end_))
      else Some None.

(** ** The two parts of an inversion list *)

Record parts (la bmp supp : list Z) : Prop := {
  parts_eq : la = bmp ++ supp ++ [UNICODESET_HIGH];
  parts_bmp : Forall (fun x => 0 <= x < 0x10000) bmp;
  parts_supp : Forall (fun x => 0x10000 <= x < UNICODESET_HIGH) supp;
  parts_sorted : StronglySorted Z.lt (bmp ++ supp)
}.

Lemma parts_exist la : wf_list la -> exists bmp supp, parts la bmp supp.
Proof.
  intros [[Hs Hl] Hp]. destruct (last_Some la UNICODESET_HIGH) as [[body ->] _]; [done|].
  apply StronglySorted_app in Hs as (Hb & Hs & _). apply Forall_app in Hp as [Hp _]. clear Hl.
  assert (H : exists bmp supp, body = bmp ++ supp /\ Forall (fun x => 0 <= x < 0x10000) bmp /\
    Forall (fun x => 0x10000 <= x < UNICODESET_HIGH) supp).
  { assert (Hh : Forall (fun x => x < UNICODESET_HIGH) body).
    { apply Forall_forall. intros x Hx. apply Hb; [done|left]. }
    clear Hb. revert Hs Hp Hh. induction body as [|x body IH]; intros Hs Hp Hh; [by exists [], []|].
    inversion_clear Hs as [|? ? Hs' Hx]. inversion_clear Hp as [|? ? H0 Hp']. inversion_clear Hh as [|? ? Hxh Hh'].
    destruct (Z.lt_ge_cases x 0x10000).
    - destruct (IH Hs' Hp' Hh') as (bmp & supp & -> & ? & ?). exists (x :: bmp), supp.
      split_and!; [done|by constructor|done].
    - exists [], (x :: body). split_and!; [done|done|]. constructor; [done|].
      rewrite Forall_forall in Hx, Hh' |- *. intros y Hy. specialize (Hx y Hy). specialize (Hh' y Hy). lia. }
  destruct H as (bmp & supp & -> & H1 & H2). exists bmp, supp. split; [by rewrite <- app_assoc|done..].
Qed.

Definition units_of (supp : list Z) : list Z := flat_map (fun x => [x / 65536; x mod 65536]) supp.

Definition encode (bmp supp : list Z) : list Z :=
  (if decide (supp = []) then [Z.of_nat (List.length bmp)]
   else [Z.of_nat (List.length bmp + 2 * List.length supp) + 0x8000; Z.of_nat (List.length bmp)]) ++
  bmp ++ units_of supp.

Lemma units_of_length supp : List.length (units_of supp) = (2 * List.length supp)%nat.
Proof. induction supp as [|x supp IH]; [done|].
  change (units_of (x :: supp)) with (x / 65536 :: x mod 65536 :: units_of supp). simpl. rewrite IH. lia.
Qed.

(** ** What [serialize] writes *)

Lemma aset_at (pre : list Z) o old d x :
  d = Z.of_nat (List.length pre) -> aset (pre ++ o :: old) d x = Some ((pre ++ [x]) ++ old).
Proof. intros ->. rewrite UnicodeSet.aset_middle, <- app_assoc. done. Qed.

Lemma write_bmp_spec l bmpLength rest : forall xs fuel pre old d i,
  suffix l i (xs ++ rest) -> d = Z.of_nat (List.length pre) -> Forall (fun x => 0 <= x < 0x10000) xs ->
  bmpLength = i + Z.of_nat (List.length xs) -> (List.length xs <= fuel)%nat ->
  (List.length xs <= List.length old)%nat ->
  write_bmp fuel (pre ++ old) d l i bmpLength =
    Some ((pre ++ xs) ++ drop (List.length xs) old, Z.of_nat (List.length (pre ++ xs))).
Proof.
  induction xs as [|x xs IH]; intros fuel pre old d i Hx Hd Hb Hn Hf Ho.
  - destruct fuel; cbn [write_bmp]; rewrite (proj2 (Z.ltb_ge _ _)) by (simpl in Hn; lia);
      by rewrite app_nil_r, drop_0, Hd.
  - destruct fuel as [|fuel]; [simpl in Hf; lia|]. destruct old as [|o old]; [simpl in Ho; lia|].
    cbn [write_bmp]. rewrite (proj2 (Z.ltb_lt _ _)) by (simpl in Hn; lia).
    apply suffix_read in Hx as [-> Hx]. cbn [mbind option_bind].
    inversion_clear Hb as [|? ? Hx16 Hb']. rewrite uint16_id by exact Hx16.
    rewrite aset_at by done. cbn [mbind option_bind].
    rewrite IH; [|done|rewrite length_app; simpl; lia|done|simpl in Hn; lia|simpl in Hf; lia|simpl in Ho; lia].
    by rewrite <- !app_assoc.
Qed.

Lemma write_supplementary_spec l length rest : forall xs fuel pre old d p i,
  suffix l p (xs ++ rest) -> d = Z.of_nat (List.length pre) ->
  Forall (fun x => 0x10000 <= x < UNICODESET_HIGH) xs ->
  length = i + 2 * Z.of_nat (List.length xs) -> (List.length xs <= fuel)%nat ->
  (2 * List.length xs <= List.length old)%nat ->
  write_supplementary fuel (pre ++ old) d l p i length =
    Some ((pre ++ units_of xs) ++ drop (2 * List.length xs) old).
Proof.
  induction xs as [|x xs IH]; intros fuel pre old d p i Hx Hd Hb Hn Hf Ho.
  - destruct fuel; cbn [write_supplementary]; rewrite (proj2 (Z.ltb_ge _ _)) by (simpl in Hn; lia);
      cbn; by rewrite app_nil_r, drop_0.
  - destruct fuel as [|fuel]; [simpl in Hf; lia|]. destruct old as [|o [|o2 old]]; [simpl in Ho; lia..|].
    cbn [write_supplementary]. rewrite (proj2 (Z.ltb_lt _ _)) by (simpl in Hn; lia).
    apply suffix_read in Hx as [-> Hx]. cbn [mbind option_bind].
    inversion_clear Hb as [|? ? Hx16 Hb']. unfold UNICODESET_HIGH in Hx16.
    rewrite aset_at by done. cbn [mbind option_bind].
    rewrite aset_at by (rewrite length_app; simpl; lia). cbn [mbind option_bind].
    rewrite IH; [|done|rewrite !length_app; simpl; lia|done|simpl in Hn; lia|simpl in Hf; lia|simpl in Ho; lia].
    rewrite Z.shiftr_div_pow2 by lia. change (2 ^ 16) with 65536. unfold uint16.
    rewrite (Z.mod_small (x / 65536)) by dlia. change (units_of (x :: xs)) with (x / 65536 :: x mod 65536 :: units_of xs).
    rewrite <- !app_assoc. cbn [app]. do 3 f_equal.
    by replace (2 * List.length (x :: xs))%nat with (S (S (2 * List.length xs))) by (simpl; lia).
Qed.

Lemma count_bmp_spec l length rest : forall xs fuel i,
  suffix l i (xs ++ rest) -> Forall (fun x => 0 <= x < 0x10000) xs -> (List.length xs <= fuel)%nat ->
  i + Z.of_nat (List.length xs) <= length ->
  (i + Z.of_nat (List.length xs) < length -> exists y ys, rest = y :: ys /\ 0x10000 <= y) ->
  count_bmp fuel l i length = Some (i + Z.of_nat (List.length xs)).
Proof.
  induction xs as [|x xs IH]; intros fuel i Hx Hb Hf Hn Hr.
  - simpl in *. rewrite Z.add_0_r in *. destruct fuel; cbn [count_bmp];
      (destruct (Z.ltb_spec i length) as [Hlt|]; [|done]);
      destruct (Hr Hlt) as (y & ys & -> & Hy); apply suffix_read in Hx as [-> _];
      cbn [mbind option_bind]; by rewrite (proj2 (Z.leb_gt _ _)) by lia.
  - destruct fuel as [|fuel]; [simpl in Hf; lia|]. cbn [count_bmp].
    rewrite (proj2 (Z.ltb_lt _ _)) by (simpl in Hn; lia).
    apply suffix_read in Hx as [-> Hx]. cbn [mbind option_bind].
    inversion_clear Hb as [|? ? Hx16 Hb']. rewrite (proj2 (Z.leb_le _ _)) by lia.
    rewrite IH; [|done|done|simpl in Hf; lia|simpl in Hn; lia|].
    + f_equal. simpl. lia.
    + intros Hlt. apply Hr. simpl. lia.
Qed.

Definition lengths (bmp supp : list Z) : Z * Z :=
  (Z.of_nat (List.length bmp), Z.of_nat (List.length bmp) + 2 * Z.of_nat (List.length supp)).

(** The three ways of counting agree. *)
Lemma lengths_counted l la bmp supp length :
  suffix l 0 la -> parts la bmp supp -> bmp ++ supp <> [] ->
  length = Z.of_nat (List.length (bmp ++ supp)) ->
  exists last first, aget l (length - 1) = Some last /\ aget l 0 = Some first /\
    (if last <=? 0xffff then Some (length, length)
     else if first >=? 0x10000 then Some (0, length * 2)
     else
       bmpLength ← count_bmp (Z.to_nat length) l 0 length;
       Some (bmpLength, bmpLength + 2 * (length - bmpLength))) = Some (lengths bmp supp).
Proof.
  intros Hl [Heq Hb Hs Hso] Hne Hlen. unfold lengths.
  assert (Hget : forall i x, (bmp ++ supp) !! i = Some x -> aget l (Z.of_nat i) = Some x).
  { destruct Hl as (_ & junk & Hj). change (Z.to_nat 0) with 0%nat in Hj. rewrite drop_0 in Hj.
    intros i x Hi. rewrite aget_nat, Hj, Heq, app_assoc, <- app_assoc.
    rewrite lookup_app_l; [done|]. by apply lookup_lt_Some in Hi. }
  rewrite length_app in Hlen. destruct (bmp ++ supp) as [|first body] eqn:Hbody; [done|].
  destruct (last_is_Some (bmp ++ supp)) as [_ [z Hz]]; [by rewrite Hbody|].
  rewrite last_lookup, length_app in Hz.
  assert (Hlast : aget l (length - 1) = Some z).
  { replace (length - 1) with (Z.of_nat (Nat.pred (List.length bmp + List.length supp))).
    - apply Hget. by rewrite <- Hbody.
    - apply (f_equal List.length) in Hbody. rewrite length_app in Hbody. simpl in Hbody. lia. }
  exists z, first. rewrite Z.geb_leb. split; [done|]. split; [by apply (Hget 0%nat)|].
  destruct (decide (supp = [])) as [->|Hsupp].
  - rewrite app_nil_r in Hbody. rewrite (proj2 (Z.leb_le z _)).
    + do 2 f_equal; simpl in *; lia.
    + rewrite app_nil_r in Hz. apply (Forall_lookup_1 _ _ _ _ Hb) in Hz. lia.
  - rewrite (proj2 (Z.leb_gt z _)).
    2:{ rewrite lookup_app_r in Hz by (destruct supp; [done|simpl; lia]).
        apply (Forall_lookup_1 _ _ _ _ Hs) in Hz. lia. }
    destruct bmp as [|b bmp].
    + cbn [app] in Hbody. rewrite (proj2 (Z.leb_le _ first)).
      * do 2 f_equal; simpl in *; lia.
      * rewrite Hbody in Hs. inversion Hs; lia.
    + injection Hbody as -> Hbody. inversion_clear Hb as [|? ? Hf Hb'].
      rewrite (proj2 (Z.leb_gt _ first)) by lia.
      rewrite (count_bmp_spec l length (supp ++ [UNICODESET_HIGH]) (first :: bmp)); [|..].
      * cbn [mbind option_bind]. do 2 f_equal; simpl in *; lia.
      * by rewrite <- Heq.
      * by constructor.
      * simpl in *. lia.
      * simpl in *. lia.
      * intros _. destruct supp as [|y ys]; [done|]. exists y, (ys ++ [UNICODESET_HIGH]).
        split; [done|]. inversion Hs; lia.
Qed.

Lemma header_lor n : 0 <= n <= 0x7fff -> Z.lor (uint16 n) 0x8000 = n + 0x8000.
Proof.
  intros Hn. unfold uint16. rewrite Z.mod_small, Z.lor_comm by lia.
  change 0x8000 with (1 * 2 ^ 15) at 1. rewrite (lor_fields 1 n 15) by lia. lia.
Qed.

Lemma encode_length bmp supp :
  Z.of_nat (List.length (encode bmp supp)) =
    snd (lengths bmp supp) + (if snd (lengths bmp supp) >? fst (lengths bmp supp) then 2 else 1).
Proof.
  unfold encode, lengths. cbn [fst snd]. rewrite !length_app, units_of_length, Z.gtb_ltb.
  destruct (decide (supp = [])) as [->|Hne]; simpl.
  - rewrite (proj2 (Z.ltb_ge _ _)) by lia. lia.
  - destruct supp; [done|]. rewrite (proj2 (Z.ltb_lt _ _)) by (simpl; lia). simpl. lia.
Qed.

Lemma write_body {B} (k : list Z -> option B) l la bmp supp pre old d :
  suffix l 0 la -> parts la bmp supp -> d = Z.of_nat (List.length pre) ->
  (List.length bmp + 2 * List.length supp <= List.length old)%nat ->
  ('(dest, d) ← write_bmp (Z.to_nat (fst (lengths bmp supp))) (pre ++ old) d l 0 (fst (lengths bmp supp));
   dest ← write_supplementary (Z.to_nat (snd (lengths bmp supp))) dest d l (fst (lengths bmp supp))
     (fst (lengths bmp supp)) (snd (lengths bmp supp));
   k dest) =
  k ((pre ++ bmp ++ units_of supp) ++ drop (List.length bmp + 2 * List.length supp) old).
Proof.
  intros Hl [Heq Hb Hs _] Hd Ho. unfold lengths. cbn [fst snd].
  rewrite (write_bmp_spec l _ (supp ++ [UNICODESET_HIGH]) bmp); [|by rewrite <- Heq|done|done|lia|lia|lia].
  cbn [mbind option_bind].
  rewrite (write_supplementary_spec l _ [UNICODESET_HIGH] supp); [..|lia|lia|rewrite length_drop; lia].
  - cbn [mbind option_bind]. by rewrite drop_drop, <- !app_assoc.
  - destruct Hl as (_ & junk & Hj). change (Z.to_nat 0) with 0%nat in Hj. rewrite drop_0 in Hj.
    split; [lia|]. exists junk. rewrite Hj, Heq, Nat2Z.id, <- !app_assoc. apply drop_app_length.
  - done.
  - done.
Qed.

Lemma serialize_units {V} (s : UnicodeSet.UnicodeSet V) l la bmp supp dest destCapacity :
  UnicodeSet.list s = Some l -> holds l (UnicodeSet.len s) la -> parts la bmp supp ->
  destCapacity <= Z.of_nat (List.length dest) -> 0 <= destCapacity ->
  serialize s dest destCapacity U_ZERO_ERROR =
    Some (let units := encode bmp supp in let n := Z.of_nat (List.length units) in
          if 0x7fff <? snd (lengths bmp supp) then (0, dest, U_INDEX_OUTOFBOUNDS_ERROR)
          else if n <=? destCapacity then (n, units ++ drop (List.length units) dest, U_ZERO_ERROR)
          else (n, dest, U_BUFFER_OVERFLOW_ERROR)).
Proof.
  intros Hl Hh Hp Hcap H0. unfold serialize. change (U_FAILURE U_ZERO_ERROR) with false. cbn iota.
  rewrite (proj2 (Z.ltb_ge _ _)) by done. pose proof Hh as (_ & Hn & _).
  pose proof (parts_eq _ _ _ Hp) as Heq.
  assert (Hlen : UnicodeSet.len s - 1 = Z.of_nat (List.length (bmp ++ supp))).
  { rewrite Hn, Heq. rewrite !length_app. simpl. lia. }
  rewrite Hlen. cbv zeta. destruct (Z.eqb_spec (Z.of_nat (List.length (bmp ++ supp))) 0) as [Hz|Hnz].
  { assert (bmp = [] /\ supp = []) as [-> ->].
    { rewrite length_app in Hz. destruct bmp, supp; simpl in Hz; (done || lia). }
    assert (He : encode [] [] = [0]) by reflexivity. rewrite He. cbn. rewrite Z.gtb_ltb.
    destruct dest as [|x dest].
    - simpl in Hcap. rewrite (proj2 (Z.ltb_ge _ _)), (proj2 (Z.leb_gt _ _)) by lia. done.
    - destruct (Z.ltb_spec 0 destCapacity).
      + by rewrite (proj2 (Z.leb_le _ _)) by lia.
      + by rewrite (proj2 (Z.leb_gt _ _)) by lia. }
  rewrite Hl. cbn [mbind option_bind].
  assert (Hsuf : suffix l 0 la).
  { pose proof (holds_suffix l _ la 0 Hh) as Hs. by rewrite drop_0 in Hs. }
  destruct (lengths_counted l la bmp supp _ Hsuf Hp ltac:(intros He; by rewrite He in Hnz) eq_refl)
    as (last & first & -> & -> & Hcount). cbn [mbind option_bind]. cbn [mbind option_bind] in Hcount.
  rewrite Hcount. cbn [mbind option_bind]. rewrite encode_length. unfold lengths at 1. cbv zeta.
  set (nb := Z.of_nat (List.length bmp)). set (n := nb + 2 * Z.of_nat (List.length supp)).
  change (snd (lengths bmp supp)) with n. change (fst (lengths bmp supp)) with nb.
  rewrite (Z.gtb_ltb n 0x7fff). destruct (Z.ltb_spec 0x7fff n); [done|].
  destruct (Z.leb_spec (n + (if n >? nb then 2 else 1)) destCapacity) as [Hfit|]; [|done].
  pose proof (encode_length bmp supp) as Henc.
  change (snd (lengths bmp supp)) with n in Henc. change (fst (lengths bmp supp)) with nb in Henc.
  rewrite Z.gtb_ltb in Henc, Hfit |- *.
  destruct (decide (supp = [])) as [Hsupp|Hsupp].
  - assert (n = nb) as Hnn by (unfold n; rewrite Hsupp; simpl; lia).
    assert (Hlt : (nb <? n) = false) by (apply Z.ltb_ge; lia). rewrite Hlt in *.
    destruct dest as [|x0 dest]; [simpl in Hcap; lia|].
    change (aset (x0 :: dest) 0 ?v) with (Some ([v] ++ dest)). cbn [mbind option_bind].
    change nb with (fst (lengths bmp supp)). change n with (snd (lengths bmp supp)).
    rewrite (write_body (fun d => Some (_, d, _)) l la bmp supp [_] dest 1 Hsuf Hp eq_refl)
      by (simpl in Hcap; lia).
    assert (He : encode bmp supp = [uint16 (snd (lengths bmp supp))] ++ bmp ++ units_of supp).
    { unfold encode. rewrite decide_True by done. do 2 f_equal. cbn [lengths snd].
      rewrite Hsupp. unfold uint16. simpl. rewrite Z.mod_small; lia. }
    rewrite He, (length_app [_]), (length_app bmp), units_of_length. done.
  - assert (Hlt : (nb <? n) = true).
    { apply Z.ltb_lt. unfold n. destruct supp; [done|simpl; lia]. }
    rewrite Hlt in *. destruct dest as [|x0 [|x1 dest]]; [simpl in Hcap; lia..|].
    change (aset (x0 :: x1 :: dest) 0 ?v) with (Some ([v] ++ x1 :: dest)). cbn [mbind option_bind].
    rewrite (aset_at [_] x1 dest 1) by done. cbn [mbind option_bind]. cbn [app].
    match goal with |- context [write_bmp _ (?v :: ?w :: dest)] =>
      change (v :: w :: dest) with ([v; w] ++ dest) end.
    change nb with (fst (lengths bmp supp)). change n with (snd (lengths bmp supp)).
    rewrite (write_body (fun d => Some (_, d, _)) l la bmp supp [_; _] dest 2 Hsuf Hp eq_refl)
      by (simpl in Hcap; lia).
    assert (He : encode bmp supp = [Z.lor (uint16 (snd (lengths bmp supp))) 0x8000;
        uint16 (fst (lengths bmp supp))] ++ bmp ++ units_of supp).
    { unfold encode. rewrite decide_False by done.
      rewrite header_lor by (change (snd (lengths bmp supp)) with n; lia).
      unfold uint16. rewrite Z.mod_small by (change (fst (lengths bmp supp)) with nb; lia).
      do 2 f_equal. cbn [lengths snd]. lia. }
    rewrite He, (length_app [_; _]), (length_app bmp), units_of_length. done.
Qed.

(** ** Reading the units *)

Record reads (set : USerializedSet) (bmp supp : list Z) : Prop := {
  reads_bmp : bmpLength set = Z.of_nat (List.length bmp);
  reads_len : length set = Z.of_nat (List.length bmp + 2 * List.length supp);
  reads_units : suffix (units_ set) (array set) (bmp ++ units_of supp)
}.

Lemma suffix_get l i xs (k : nat) x : suffix l i xs -> xs !! k = Some x -> aget l (i + Z.of_nat k) = Some x.
Proof.
  intros (Hi & junk & Hd) Hk. replace (i + Z.of_nat k) with (Z.of_nat (Z.to_nat i + k)) by lia.
  rewrite aget_nat, <- lookup_drop, Hd. by apply lookup_app_l_Some.
Qed.

Lemma units_of_lookup supp (k : nat) x : supp !! k = Some x ->
  units_of supp !! (2 * k)%nat = Some (x / 65536) /\ units_of supp !! (2 * k + 1)%nat = Some (x mod 65536).
Proof.
  revert k. induction supp as [|y supp IH]; intros [|k] Hk; [done|done|by injection Hk as ->|].
  destruct (IH k Hk) as [H1 H2]. replace (2 * S k)%nat with (S (S (2 * k))) by lia. done.
Qed.

Lemma at_bmp set bmp supp (k : nat) x : reads set bmp supp -> bmp !! k = Some x ->
  at_ set (Z.of_nat k) = Some x.
Proof.
  intros Hr Hk. eapply suffix_get; [apply (reads_units _ _ _ Hr)|]. by apply lookup_app_l_Some.
Qed.

Lemma at_supp set bmp supp (k : nat) x i : reads set bmp supp -> supp !! k = Some x ->
  i = bmpLength set + 2 * Z.of_nat k ->
  at_ set i = Some (x / 65536) /\ at_ set (i + 1) = Some (x mod 65536).
Proof.
  intros Hr Hk ->. destruct (units_of_lookup supp k x Hk) as [H1 H2].
  rewrite (reads_bmp _ _ _ Hr). pose proof (reads_units _ _ _ Hr) as Hs.
  split; unfold at_.
  - replace (Z.of_nat (List.length bmp) + 2 * Z.of_nat k) with (Z.of_nat (List.length bmp + 2 * k)) by lia.
    eapply suffix_get; [exact Hs|]. rewrite lookup_app_r by lia. by replace (_ - _)%nat with (2 * k)%nat by lia.
  - replace (Z.of_nat (List.length bmp) + 2 * Z.of_nat k + 1) with
      (Z.of_nat (List.length bmp + (2 * k + 1))) by lia.
    eapply suffix_get; [exact Hs|]. rewrite lookup_app_r by lia. by replace (_ - _)%nat with (2 * k + 1)%nat by lia.
Qed.

Lemma pair_at_spec set bmp supp (k : nat) x i : reads set bmp supp -> supp !! k = Some x ->
  i = bmpLength set + 2 * Z.of_nat k -> pair_at set i = Some x.
Proof.
  intros Hr Hk Hi. unfold pair_at. destruct (at_supp set bmp supp k x i Hr Hk Hi) as [-> ->].
  cbn [mbind option_bind]. f_equal. rewrite Z.shiftl_mul_pow2, lor_fields by dlia. dlia.
Qed.

Lemma below_spec set bmp supp (k : nat) x i c : reads set bmp supp -> supp !! k = Some x ->
  i = bmpLength set + 2 * Z.of_nat k -> 0 <= c < UNICODESET_HIGH -> 0 <= x ->
  below set (uint16 (Z.shiftr c 16)) (uint16 c) i = Some (c <? x).
Proof.
  intros Hr Hk Hi Hc Hx. unfold below. destruct (at_supp set bmp supp k x i Hr Hk Hi) as [-> ->].
  cbn [mbind option_bind]. unfold UNICODESET_HIGH in Hc.
  rewrite Z.shiftr_div_pow2 by lia. change (2 ^ 16) with 65536. unfold uint16.
  rewrite (Z.mod_small (c / 65536)) by dlia.
  destruct (Z.ltb_spec (c / 65536) (x / 65536)); [f_equal; symmetry; apply Z.ltb_lt; dlia|].
  destruct (Z.eqb_spec (c / 65536) (x / 65536)); f_equal; zcases; dlia.
Qed.

(** ** Ranges *)

Lemma pairs_get : forall la (k : nat) s e,
  la !! (2 * k)%nat = Some s -> la !! (2 * k + 1)%nat = Some e -> pairs la !! k = Some (s, e).
Proof.
  induction la as [|a|a b la IH] using list_pair_ind; intros [|k] s e; cbn [pairs].
  - done.
  - done.
  - done.
  - by replace (2 * S k)%nat with (S (2 * k + 1)) by lia.
  - by intros [= ->] [= ->].
  - replace (2 * S k)%nat with (S (S (2 * k))) by lia. apply IH.
Qed.

Lemma range_spec set la bmp supp (k : nat) :
  parts la bmp supp -> reads set bmp supp -> Z.of_nat k < 2 ^ 29 ->
  uset_getSerializedRange set (Z.of_nat k) =
    Some (option_map (fun p => (fst p, snd p - 1)) (pairs la !! k)).
Proof.
  intros [Heq _ Hsu _] Hr Hk. unfold uset_getSerializedRange.
  rewrite (proj2 (Z.ltb_ge _ _)) by lia. cbv zeta. unfold int. rewrite imul_ok by ibound. cbn [obind].
  assert (Hla1 : forall j x, bmp !! j = Some x -> la !! j = Some x).
  { intros j x Hj. rewrite Heq. by apply lookup_app_l_Some. }
  assert (Hla2 : forall j x, supp !! j = Some x -> la !! (List.length bmp + j)%nat = Some x).
  { intros j x Hj. rewrite Heq, lookup_app_r by lia. replace (_ - _)%nat with j by lia.
    by apply lookup_app_l_Some. }
  assert (Hla3 : la !! (List.length bmp + List.length supp)%nat = Some UNICODESET_HIGH).
  { rewrite Heq, lookup_app_r by lia. replace (_ - _)%nat with (List.length supp) by lia.
    by rewrite lookup_app_r, Nat.sub_diag by lia. }
  assert (Hlen : List.length la = (List.length bmp + List.length supp + 1)%nat).
  { rewrite Heq, !length_app. simpl. lia. }
  pose proof (reads_bmp _ _ _ Hr) as Hb. pose proof (reads_len _ _ _ Hr) as Hl. rewrite Hb, Hl.
  assert (Hfin : forall s e, la !! (2 * k)%nat = Some s -> la !! (2 * k + 1)%nat = Some e ->
    Some (Some (s, e - 1)) = Some (option_map (fun p => (fst p, snd p - 1)) (pairs la !! k))).
  { intros s e Hs He. by rewrite (pairs_get la k s e Hs He). }
  destruct (Z.ltb_spec (Z.of_nat k * 2) (Z.of_nat (List.length bmp))) as [Hlt|Hge].
  - destruct (lookup_lt_is_Some_2 bmp (2 * k)) as [x Hx]; [lia|].
    replace (Z.of_nat k * 2) with (Z.of_nat (2 * k)) by lia.
    rewrite (at_bmp set bmp supp _ x Hr Hx). cbn [mbind option_bind].
    replace (Z.of_nat (2 * k) + 1) with (Z.of_nat (2 * k + 1)) by lia.
    destruct (Z.ltb_spec (Z.of_nat (2 * k + 1)) (Z.of_nat (List.length bmp))).
    + destruct (lookup_lt_is_Some_2 bmp (2 * k + 1)) as [y Hy]; [lia|].
      rewrite (at_bmp set bmp supp _ y Hr Hy). cbn [mbind option_bind]. apply Hfin; auto.
    + destruct supp as [|y supp'] eqn:Hsupp.
      * rewrite (proj2 (Z.ltb_ge _ _)) by (simpl; lia). cbn [mbind option_bind].
        apply (Hfin x UNICODESET_HIGH); [auto|]. simpl in Hla3. by replace (2 * k + 1)%nat with (List.length bmp + 0)%nat by lia.
      * rewrite (proj2 (Z.ltb_lt _ _)) by (simpl; lia).
        rewrite (pair_at_spec set bmp (y :: supp') 0 y _ Hr eq_refl) by lia. cbn [mbind option_bind].
        apply Hfin; [auto|]. replace (2 * k + 1)%nat with (List.length bmp + 0)%nat by lia. by apply Hla2.
  - set (j := (2 * k - List.length bmp)%nat). assert (Hj : (2 * k = List.length bmp + j)%nat) by lia.
    rewrite isub_ok, imul_ok by ibound. cbn [obind].
    replace ((Z.of_nat k * 2 - Z.of_nat (List.length bmp)) * 2) with (2 * Z.of_nat j) by lia.
    destruct (Z.ltb_spec (2 * Z.of_nat j)
      (Z.of_nat (List.length bmp + 2 * List.length supp) - Z.of_nat (List.length bmp))).
    + destruct (lookup_lt_is_Some_2 supp j) as [x Hx]; [lia|].
      rewrite (pair_at_spec set bmp supp j x (Z.of_nat (List.length bmp) + 2 * Z.of_nat j) Hr Hx) by lia. cbn [mbind option_bind].
      destruct (Z.ltb_spec (2 * Z.of_nat j + 2)
        (Z.of_nat (List.length bmp + 2 * List.length supp) - Z.of_nat (List.length bmp))).
      * destruct (lookup_lt_is_Some_2 supp (j + 1)) as [y Hy]; [lia|].
        rewrite (pair_at_spec set bmp supp (j + 1) y _ Hr Hy) by lia. cbn [mbind option_bind].
        apply Hfin; rewrite Hj; [auto|]. rewrite <- Nat.add_assoc. auto.
      * cbn [mbind option_bind]. apply (Hfin x UNICODESET_HIGH); rewrite Hj; [auto|].
        by replace (List.length bmp + j + 1)%nat with (List.length bmp + List.length supp)%nat by lia.
    + rewrite lookup_ge_None_2; [done|]. rewrite pairs_length, Hlen.
      apply Nat.lt_succ_r, Nat.Div0.div_lt_upper_bound. lia.
Qed.

Lemma range_count_spec set la bmp supp : parts la bmp supp -> reads set bmp supp ->
  uset_getSerializedRangeCount set = Z.of_nat (List.length (pairs la)).
Proof.
  intros [Heq _ _ _] Hr. unfold uset_getSerializedRangeCount.
  rewrite (reads_bmp _ _ _ Hr), (reads_len _ _ _ Hr), pairs_length, Heq, !length_app.
  change (List.length [UNICODESET_HIGH]) with 1%nat. rewrite Nat2Z.inj_div.
  replace (Z.of_nat (List.length bmp + _) - Z.of_nat (List.length bmp)) with
    (Z.of_nat (List.length supp) * 2) by lia.
  rewrite Z.quot_mul, Z.quot_div_nonneg by lia. f_equal. lia.
Qed.

(** ** Membership *)

Lemma find_bmp_eq set bmp supp c : reads set bmp supp -> forall fuel lo hi : nat,
  (lo < hi < List.length bmp)%nat ->
  find_bmp fuel set c (Z.of_nat lo) (Z.of_nat hi) =
    findCodePoint_loop fuel (bmp ++ [UNICODESET_HIGH]) c (Z.of_nat lo) (Z.of_nat hi).
Proof.
  intros Hr. induction fuel as [|fuel IH]; intros lo hi Hlh; [done|]. cbn [find_bmp findCodePoint_loop].
  assert (Hi : Z.of_nat lo <= Z.shiftr (Z.of_nat lo + Z.of_nat hi) 1 < Z.of_nat hi).
  { rewrite Z.shiftr_div_pow2 by lia. change (2 ^ 1) with 2. dlia. }
  destruct (Z_of_nat_complete (Z.shiftr (Z.of_nat lo + Z.of_nat hi) 1)) as [i Hie]; [lia|].
  rewrite Hie in *. destruct (Z.eqb_spec (Z.of_nat i) (Z.of_nat lo)); [done|].
  destruct (lookup_lt_is_Some_2 bmp i) as [x Hx]; [lia|].
  rewrite (at_bmp set bmp supp i x Hr Hx), aget_nat, (lookup_app_l_Some _ _ _ _ Hx).
  cbn [mbind option_bind]. destruct (c <? x); apply IH; lia.
Qed.

Lemma even_half (lo hi : Z) : 0 <= lo -> 0 <= hi ->
  Z.land (Z.shiftr (2 * lo + 2 * hi) 1) (Z.lnot 1) = 2 * Z.shiftr (lo + hi) 1.
Proof.
  intros. rewrite !Z.shiftr_div_pow2 by lia. change (2 ^ 1) with 2.
  rewrite land_not1 by dlia. f_equal. dlia.
Qed.

Lemma find_supplementary_eq set bmp supp c : reads set bmp supp ->
  Forall (fun x => 0x10000 <= x < UNICODESET_HIGH) supp -> 0 <= c < UNICODESET_HIGH ->
  forall fuel lo hi : nat, (lo < hi < List.length supp)%nat ->
  find_supplementary fuel set (uint16 (Z.shiftr c 16)) (uint16 c) (bmpLength set)
    (2 * Z.of_nat lo) (2 * Z.of_nat hi) =
    option_map (fun i => 2 * i)
      (findCodePoint_loop fuel (supp ++ [UNICODESET_HIGH]) c (Z.of_nat lo) (Z.of_nat hi)).
Proof.
  intros Hr Hs Hc. induction fuel as [|fuel IH]; intros lo hi Hlh; [done|].
  cbn [find_supplementary findCodePoint_loop]. rewrite even_half by lia.
  assert (Hi : Z.of_nat lo <= Z.shiftr (Z.of_nat lo + Z.of_nat hi) 1 < Z.of_nat hi).
  { rewrite Z.shiftr_div_pow2 by lia. change (2 ^ 1) with 2. dlia. }
  destruct (Z_of_nat_complete (Z.shiftr (Z.of_nat lo + Z.of_nat hi) 1)) as [i Hie]; [lia|].
  rewrite Hie in *. destruct (Z.eqb_spec (Z.of_nat i) (Z.of_nat lo)) as [He|Hne].
  { by rewrite He, Z.eqb_refl. }
  rewrite (proj2 (Z.eqb_neq _ _)) by lia.
  destruct (lookup_lt_is_Some_2 supp i) as [x Hx]; [lia|].
  pose proof (Forall_lookup_1 _ _ _ _ Hs Hx) as Hxr. cbn beta in Hxr.
  rewrite (below_spec set bmp supp i x _ c Hr Hx) by lia.
  rewrite aget_nat, (lookup_app_l_Some _ _ _ _ Hx).
  cbn [mbind option_bind]. destruct (c <? x); apply IH; lia.
Qed.

Lemma part_holds xs : StronglySorted Z.lt xs -> Forall (fun x => 0 <= x < UNICODESET_HIGH) xs ->
  holds (xs ++ [UNICODESET_HIGH]) (Z.of_nat (S (List.length xs))) (xs ++ [UNICODESET_HIGH]).
Proof.
  intros Hs Hb. rewrite Forall_forall in Hb. split; [split; [split|]|split].
  - apply StronglySorted_app. split_and!; [|done|by repeat constructor].
    intros x y Hx%Hb ->%list_elem_of_singleton. lia.
  - apply last_snoc.
  - apply Forall_app. split; [|by repeat constructor].
    apply Forall_forall. intros x Hx%Hb. lia.
  - rewrite length_app. simpl. lia.
  - exists []. by rewrite app_nil_r.
Qed.

(** The first test, the search, and the search not done. *)
Lemma search_cases xs c (n : nat) x y fuel :
  StronglySorted Z.lt xs -> Forall (fun x => 0 <= x < UNICODESET_HIGH) xs -> c < UNICODESET_HIGH ->
  List.length xs = S n -> xs !! 0%nat = Some x -> xs !! n = Some y -> (n < fuel)%nat ->
  let xs' := xs ++ [UNICODESET_HIGH] in
  (c < x -> first_above xs' c 0) /\
  (x <= c < y -> exists i, (0 < n)%nat /\ findCodePoint_loop fuel xs' c 0 (Z.of_nat n) = Some i /\
     first_above xs' c i) /\
  (y <= c -> first_above xs' c (Z.of_nat (S n))).
Proof.
  intros Hs Hb Hc Hn Hx Hy Hf xs'. pose proof (part_holds xs Hs Hb) as Hh.
  pose proof (proj1 Hh) as Hwf. fold xs' in Hh, Hwf.
  assert (Hx' : xs' !! 0%nat = Some x) by (by apply lookup_app_l_Some).
  assert (Hy' : xs' !! n = Some y) by (by apply lookup_app_l_Some).
  assert (Hlen : List.length xs' = S (S n)) by (unfold xs'; rewrite length_app; simpl; lia).
  split_and!.
  - intros Hlt. split; [lia|]. intros m z Hz. split; [lia|]. intros Hle.
    destruct m as [|m]; [simplify_eq; lia|].
    pose proof (wf_lookup_lt xs' 0 (S m) x z Hwf Hx' Hz ltac:(lia)). lia.
  - intros Hxy. assert (0 < n)%nat by (destruct n; [simplify_eq; lia|lia]).
    destruct (findCodePoint_loop_spec xs' _ xs' c Hh fuel 0 n) as (i & Hi & Hfa); [lia|lia| | |].
    + intros z Hz. simplify_eq. lia.
    + intros z Hz. simplify_eq. lia.
    + by exists i.
  - intros Hle. split; [lia|]. intros m z Hz. apply lookup_lt_Some in Hz as Hm.
    destruct (decide (m = S n)) as [->|Hne].
    + unfold xs' in Hz. rewrite lookup_app_r, Hn, Nat.sub_diag in Hz by lia. simplify_eq/=. lia.
    + split; [|lia]. intros _. destruct (decide (m = n)) as [->|]; [simplify_eq; lia|].
      pose proof (wf_lookup_lt xs' m n z y Hwf Hz Hy' ltac:(lia)). lia.
Qed.

Lemma uint32_cp c : 0 <= c < UNICODESET_HIGH -> (uint32 c >? 0x10ffff) = false.
Proof.
  unfold UNICODESET_HIGH. intros. unfold uint32. rewrite Z.mod_small, Z.gtb_ltb by lia.
  apply Z.ltb_ge. lia.
Qed.

Lemma parts_bounds la bmp supp : parts la bmp supp ->
  StronglySorted Z.lt bmp /\ StronglySorted Z.lt supp /\
  Forall (fun x => 0 <= x < UNICODESET_HIGH) bmp /\ Forall (fun x => 0 <= x < UNICODESET_HIGH) supp.
Proof.
  intros [_ Hb Hs Hso]. apply StronglySorted_app in Hso as (_ & H1 & H2).
  split_and!; [done|done|..]; (eapply Forall_impl; [eassumption|]); unfold UNICODESET_HIGH; simpl; lia.
Qed.

Lemma contains_bmp_part set la bmp supp c fuel :
  parts la bmp supp -> reads set bmp supp -> bmp <> [] -> 0 <= c <= 0xffff ->
  (List.length bmp <= fuel)%nat -> uset_serializedContains fuel set c = Some (mem la c).
Proof.
  intros Hp Hr Hne Hc Hf. destruct (parts_bounds la bmp supp Hp) as (Hs & _ & Hb & _).
  unfold uset_serializedContains. rewrite uint32_cp by (unfold UNICODESET_HIGH; lia).
  rewrite (proj2 (Z.leb_le c _)) by lia. cbv zeta. rewrite (reads_bmp _ _ _ Hr).
  assert (Hn : exists n, List.length bmp = S n) by (destruct bmp; [done|by eexists]).
  destruct Hn as [n Hn].
  destruct (lookup_lt_is_Some_2 bmp 0) as [x Hx]; [lia|].
  destruct (lookup_lt_is_Some_2 bmp n) as [y Hy]; [lia|].
  destruct (search_cases bmp c n x y fuel Hs Hb ltac:(unfold UNICODESET_HIGH; lia) Hn Hx Hy ltac:(lia))
    as (H1 & H2 & H3).
  pose proof (at_bmp set bmp supp 0 x Hr Hx) as Hax. change (Z.of_nat 0) with 0 in Hax.
  rewrite Hax. cbn [mbind option_bind]. replace (Z.of_nat (List.length bmp) - 1) with (Z.of_nat n) by lia.
  assert (Hmem : forall i, first_above (bmp ++ [UNICODESET_HIGH]) c i ->
    Some (negb (Z.land i 1 =? 0)) = Some (mem la c)).
  { intros i Hi. rewrite BMPSet.odd_land, <- (par_first_above _ _ _ Hi).
    rewrite mem_par by (unfold UNICODESET_HIGH; lia). rewrite (parts_eq _ _ _ Hp), !par_app.
    rewrite (par_above supp); [by rewrite xorb_false_l|].
    eapply Forall_impl; [apply (parts_supp _ _ _ Hp)|]. simpl. lia. }
  destruct (Z.ltb_spec c x); [by apply Hmem, H1|].
  rewrite (at_bmp set bmp supp n y Hr Hy). cbn [mbind option_bind].
  destruct (Z.ltb_spec c y).
  - destruct (H2 ltac:(lia)) as (i & Hn0 & Hi & Hfa).
    pose proof (find_bmp_eq set bmp supp c Hr fuel 0 n ltac:(lia)) as Heq.
    change (Z.of_nat 0) with 0 in Heq. rewrite Heq, Hi. cbn [mbind option_bind]. by apply Hmem.
  - apply Hmem. replace (Z.of_nat n + 1) with (Z.of_nat (S n)) by lia. apply H3. lia.
Qed.

Lemma land2 (i b : Z) : negb (Z.land (2 * i + Z.shiftl b 1) 2 =? 0) = xorb (Z.odd b) (Z.odd i).
Proof.
  replace (2 * i + Z.shiftl b 1) with (Z.shiftl (i + b) 1)
    by (rewrite !Z.shiftl_mul_pow2 by lia; change (2 ^ 1) with 2; lia).
  change 2 with (Z.shiftl 1 1). rewrite <- Z.shiftl_land.
  rewrite xorb_comm, <- Z.odd_add, <- BMPSet.odd_land. f_equal.
  rewrite Z.shiftl_mul_pow2 by lia. change (2 ^ 1) with 2. zcases; lia.
Qed.

Lemma par_all_below l c : Forall (fun x => x <= c) l -> par l c = Z.odd (Z.of_nat (List.length l)).
Proof.
  induction l as [|x l IH]; intros Hl; [done|]. inversion_clear Hl as [|? ? Hx Hl'].
  rewrite par_cons, (proj2 (Z.leb_le _ _)), IH by done.
  cbn [List.length]. rewrite Nat2Z.inj_succ, Z.odd_succ, <- Z.negb_odd.
  by destruct (Z.odd _).
Qed.

Lemma contains_supplementary_part set la bmp supp c fuel :
  parts la bmp supp -> reads set bmp supp -> supp <> [] -> 0x10000 <= c < UNICODESET_HIGH ->
  (List.length supp <= fuel)%nat -> uset_serializedContains fuel set c = Some (mem la c).
Proof.
  intros Hp Hr Hne Hc Hf. destruct (parts_bounds la bmp supp Hp) as (_ & Hs & _ & Hb).
  unfold uset_serializedContains. rewrite uint32_cp, (proj2 (Z.leb_gt c _)) by lia. cbv zeta.
  rewrite (reads_len _ _ _ Hr).
  assert (Hn : exists n, List.length supp = S n) by (destruct supp; [done|by eexists]).
  destruct Hn as [n Hn].
  destruct (lookup_lt_is_Some_2 supp 0) as [x Hx]; [lia|].
  destruct (lookup_lt_is_Some_2 supp n) as [y Hy]; [lia|].
  pose proof (Forall_lookup_1 _ _ _ _ Hb Hx) as Hxr. pose proof (Forall_lookup_1 _ _ _ _ Hb Hy) as Hyr.
  cbn beta in Hxr, Hyr.
  destruct (search_cases supp c n x y fuel Hs Hb ltac:(lia) Hn Hx Hy ltac:(lia)) as (H1 & H2 & H3).
  assert (Hmem : forall i, first_above (supp ++ [UNICODESET_HIGH]) c i ->
    Some (negb (Z.land (2 * i + Z.shiftl (bmpLength set) 1) 2 =? 0)) = Some (mem la c)).
  { intros i Hi. rewrite land2, <- (par_first_above _ _ _ Hi), (reads_bmp _ _ _ Hr).
    rewrite mem_par by lia. rewrite (parts_eq _ _ _ Hp), (par_app bmp), (par_all_below bmp).
    { done. }
    eapply Forall_impl; [apply (parts_bmp _ _ _ Hp)|]. cbn beta. intros z Hz. lia. }
  rewrite (below_spec set bmp supp 0 x (bmpLength set) c Hr Hx) by lia. cbn [mbind option_bind].
  destruct (Z.ltb_spec c x); [by apply (Hmem 0), H1|].
  replace (Z.of_nat (List.length bmp + 2 * List.length supp) - 2 - bmpLength set) with (2 * Z.of_nat n)
    by (rewrite (reads_bmp _ _ _ Hr); lia).
  rewrite (below_spec set bmp supp n y _ c Hr Hy) by lia. cbn [mbind option_bind].
  destruct (Z.ltb_spec c y).
  - destruct (H2 ltac:(lia)) as (i & Hn0 & Hi & Hfa).
    pose proof (find_supplementary_eq set bmp supp c Hr (parts_supp _ _ _ Hp) ltac:(lia) fuel 0 n ltac:(lia)) as Heq.
    change (2 * Z.of_nat 0) with 0 in Heq. change (Z.of_nat 0) with 0 in Heq.
    rewrite Heq, Hi. cbn [option_map mbind option_bind]. by apply Hmem.
  - replace (2 * Z.of_nat n + 2) with (2 * Z.of_nat (S n)) by lia. apply Hmem, H3. lia.
Qed.

(** ** The units of [serialize] are read back *)

Lemma land_bit15 n : 0 <= n <= 0x7fff -> Z.land n 0x8000 = 0.
Proof.
  intros Hn. apply Z.bits_inj'. intros i Hi. rewrite Z.land_spec, Z.bits_0. change 0x8000 with (2 ^ 15).
  destruct (Z.eq_dec 15 i) as [<-|]; [|by rewrite Z.pow2_bits_false, andb_false_r].
  rewrite Z.testbit_odd, Z.shiftr_div_pow2 by lia. change (2 ^ 15) with 32768.
  rewrite Z.div_small by lia. done.
Qed.

Lemma getSerializedSet_encode la bmp supp rest :
  parts la bmp supp -> snd (lengths bmp supp) <= 0x7fff ->
  exists set, uset_getSerializedSet (encode bmp supp ++ rest) (Z.of_nat (List.length (encode bmp supp))) =
      Some (true, set) /\ reads set bmp supp /\
    (bmp = [] -> supp <> [] -> at_ set (-1) = Some 0).
Proof.
  intros Hp Hlen. cbn [lengths snd] in Hlen. rewrite encode_length. unfold uset_getSerializedSet, encode.
  cbn [lengths fst snd]. rewrite Z.gtb_ltb. destruct (decide (supp = [])) as [->|Hne].
  - simpl List.length in *. rewrite (proj2 (Z.ltb_ge _ _)), (proj2 (Z.leb_gt _ _)) by lia.
    change (aget (([?x] ++ ?l) ++ ?m) 0) with (Some x). cbn [mbind option_bind].
    assert (Hz : Z.land (Z.of_nat (List.length bmp)) 0x8000 = 0).
    { apply land_bit15. lia. }
    rewrite Hz. change (negb (0 =? 0)) with false. cbn iota.
    rewrite (proj2 (Z.ltb_ge _ _)) by lia. eexists. split; [done|]. split; [|done].
    constructor; cbn; [done|lia|]. split; [lia|]. exists rest. by rewrite app_nil_r.
  - assert (Hs : (0 < List.length supp)%nat) by (destruct supp; [done|simpl; lia]).
    rewrite (proj2 (Z.ltb_lt _ _)), (proj2 (Z.leb_gt _ _)) by lia.
    change (aget (([?x; ?y] ++ ?l) ++ ?m) 0) with (Some x). cbn [mbind option_bind].
    set (n := Z.of_nat (List.length bmp + 2 * List.length supp)) in *.
    assert (Hor : n + 0x8000 = Z.lor (1 * 2 ^ 15) n) by (rewrite lor_fields by lia; lia).
    assert (Hh : Z.land (n + 0x8000) 0x8000 = 0x8000).
    { rewrite Hor, Z.land_lor_distr_l. change (1 * 2 ^ 15) with 0x8000. rewrite Z.land_diag.
      by rewrite land_bit15 by lia. }
    assert (Hl : Z.land (n + 0x8000) 0x7fff = n).
    { change 0x7fff with (2 ^ 15 - 1). rewrite land_low_mask by lia. change (2 ^ 15) with 32768.
      unfold n in *. dlia. }
    rewrite Hh, Hl. change (negb (0x8000 =? 0)) with true. cbn iota.
    rewrite (proj2 (Z.ltb_ge _ _)) by lia.
    assert (H1 : forall a b (l m : list Z), aget (([a; b] ++ l) ++ m) 1 = Some b) by done.
    rewrite H1. cbn [mbind option_bind]. eexists. split; [done|]. split.
    + constructor; cbn; [done|done|]. split; [lia|]. by exists rest.
    + intros -> _. done.
Qed.

Lemma contains_no_bmp_part set la supp c fuel :
  parts la [] supp -> reads set [] supp -> supp <> [] -> at_ set (-1) = Some 0 -> 0 <= c <= 0xffff ->
  uset_serializedContains fuel set c = Some (mem la c).
Proof.
  intros Hp Hr Hne Hm1 Hc. unfold uset_serializedContains. rewrite uint32_cp by (unfold UNICODESET_HIGH; lia).
  rewrite (proj2 (Z.leb_le c _)) by lia. cbv zeta.
  destruct supp as [|x supp]; [done|]. pose proof (reads_bmp _ _ _ Hr) as Hb. cbn in Hb. change (Z.of_nat 0) with 0 in Hb.
  destruct (at_supp set [] (x :: supp) 0 x 0 Hr eq_refl) as [-> _]; [by rewrite Hb|].
  cbn [mbind option_bind]. rewrite Hb. change (0 - 1) with (-1). rewrite Hm1. cbn [mbind option_bind].
  rewrite (proj2 (Z.ltb_ge c 0)) by lia.
  assert (Hmem : mem la c = false).
  { rewrite mem_par by (unfold UNICODESET_HIGH; lia). rewrite (parts_eq _ _ _ Hp), app_nil_l.
    apply par_above, Forall_app. split.
    - eapply Forall_impl; [apply (parts_supp _ _ _ Hp)|]. simpl. lia.
    - constructor; [unfold UNICODESET_HIGH; lia|constructor]. }
  rewrite Hmem. by destruct (c <? x / 65536).
Qed.

(** ** The results *)

(** [la] has a boundary on the side of the code point: BMP or supplementary. *)
Definition searchable (la : list Z) (c : Z) : bool :=
  if c <=? 0xffff then bool_decide (la <> [UNICODESET_HIGH])
  else existsb (fun x => (0x10000 <=? x) && (x <? UNICODESET_HIGH)) la.

Section Results.
Context {V : Type} {sv : StringVector V}.

(** [serialize] writes the units of the set, or tells how many there are. *)
Theorem serialize_correct (s : UnicodeSet.UnicodeSet V) la strs dest destCapacity :
  UnicodeSet.rep s la strs -> 0 <= destCapacity <= Z.of_nat (List.length dest) ->
  exists bmp supp, parts la bmp supp /\
    let units := encode bmp supp in
    let n := Z.of_nat (List.length units) in
    serialize s dest destCapacity U_ZERO_ERROR =
      Some (if 0x7fff <? Z.of_nat (List.length (bmp ++ units_of supp)) then (0, dest, U_INDEX_OUTOFBOUNDS_ERROR)
            else if n <=? destCapacity then (n, units ++ drop (List.length units) dest, U_ZERO_ERROR)
            else (n, dest, U_BUFFER_OVERFLOW_ERROR)).
Proof.
  intros Hr Hcap. destruct (UnicodeSet.rep_list _ _ _ Hr) as (l & Hl & Hh & _).
  destruct (parts_exist la (proj1 Hh)) as (bmp & supp & Hp). exists bmp, supp. split; [done|]. cbv zeta.
  rewrite (serialize_units s l la bmp supp dest destCapacity Hl Hh Hp) by lia.
  assert (Hn : snd (lengths bmp supp) = Z.of_nat (List.length (bmp ++ units_of supp))).
  { cbn [lengths snd]. rewrite length_app, units_of_length. lia. }
  by rewrite Hn.
Qed.

(** C25: what [serialize] writes is the same set for the readers: it has the range
    count and, at every index below 2^29, the ranges of the set, and the code
    points that can be searched.  (From 2^29 on the address of a range may not fit
    [int32_t]; a set has no so many ranges.) *)
Theorem serialize_roundtrip (s : UnicodeSet.UnicodeSet V) la strs dest destCapacity n dest' :
  UnicodeSet.rep s la strs -> 0 <= destCapacity <= Z.of_nat (List.length dest) ->
  serialize s dest destCapacity U_ZERO_ERROR = Some (n, dest', U_ZERO_ERROR) ->
  exists set, uset_getSerializedSet dest' n = Some (true, set) /\
    uset_getSerializedRangeCount set = UnicodeSet.getRangeCount s /\
    (forall k : nat, Z.of_nat k < 2 ^ 29 -> uset_getSerializedRange set (Z.of_nat k) =
       Some (option_map (fun p => (fst p, snd p - 1)) (pairs la !! k))) /\
    (forall c fuel, 0 <= c < UNICODESET_HIGH -> (List.length la <= fuel)%nat -> searchable la c = true ->
       uset_serializedContains fuel set c = Some (mem la c)).
Proof.
  intros Hr Hcap Hser. destruct (UnicodeSet.rep_list _ _ _ Hr) as (l & Hl & Hh & _).
  destruct (parts_exist la (proj1 Hh)) as (bmp & supp & Hp).
  rewrite (serialize_units s l la bmp supp dest destCapacity Hl Hh Hp) in Hser by lia. cbv zeta in Hser.
  destruct (Z.ltb_spec 0x7fff (snd (lengths bmp supp))); [done|].
  destruct (_ <=? destCapacity); [|done]. injection Hser as <- <-.
  destruct (getSerializedSet_encode la bmp supp (drop (List.length (encode bmp supp)) dest) Hp) as
    (set & Hget & Hreads & Hm1); [done|].
  exists set. split; [done|]. pose proof (parts_eq _ _ _ Hp) as Heq.
  assert (Hla : List.length la = (List.length bmp + List.length supp + 1)%nat).
  { rewrite Heq, !length_app. simpl. lia. }
  split; [|split].
  - rewrite (getRangeCount_spec s la strs Hr). by apply (range_count_spec set la bmp supp).
  - intros k Hk. by apply (range_spec set la bmp supp).
  - intros c fuel Hc Hf Hs. unfold searchable in Hs. destruct (Z.leb_spec c 0xffff).
    + destruct (decide (bmp = [])) as [->|Hne].
      * destruct (decide (supp = [])) as [->|Hne].
        { rewrite Heq in Hs. by rewrite bool_decide_eq_true in Hs. }
        apply (contains_no_bmp_part set la supp); [done..|by apply Hm1|lia].
      * apply (contains_bmp_part set la bmp supp); [done..|lia|lia].
    + apply (contains_supplementary_part set la bmp supp); [done|done| |lia|lia].
      intros ->. apply existsb_exists in Hs as (x & Hx & Hxr). rewrite Heq in Hx. cbn [app] in Hx.
      rewrite in_app_iff in Hx.
      apply andb_prop in Hxr as [?%Z.leb_le ?%Z.ltb_lt]. destruct Hx as [Hx|[<-|[]]]; [|lia].
      pose proof (parts_bmp _ _ _ Hp) as Hb. rewrite Forall_forall in Hb.
      specialize (Hb x ltac:(by apply list_elem_of_In)). lia.
Qed.

End Results.

(** C39: looking for a supplementary code point in the units of a set of BMP code
    points only, the search does not end. *)
Theorem serializedContains_diverges set c fuel :
  0x10000 <= c < UNICODESET_HIGH -> length set = bmpLength set ->
  below set (uint16 (Z.shiftr c 16)) (uint16 c) (bmpLength set) = Some false ->
  below set (uint16 (Z.shiftr c 16)) (uint16 c) (bmpLength set - 2) = Some true ->
  uset_serializedContains fuel set c = None.
Proof.
  intros Hc Hl H0 H1. unfold uset_serializedContains. rewrite uint32_cp, (proj2 (Z.leb_gt c _)) by lia.
  cbv zeta. rewrite H0. cbn [mbind option_bind]. rewrite Hl.
  replace (bmpLength set + (bmpLength set - 2 - bmpLength set)) with (bmpLength set - 2) by lia.
  rewrite H1. cbn [mbind option_bind]. replace (bmpLength set - 2 - bmpLength set) with (-2) by lia.
  assert (Hloop : find_supplementary fuel set (uint16 (Z.shiftr c 16)) (uint16 c) (bmpLength set) 0 (-2) = None);
    [|by rewrite Hloop].
  induction fuel as [|fuel IH]; [done|]. cbn [find_supplementary].
  change (Z.land (Z.shiftr (0 + -2) 1) (Z.lnot 1)) with (-2). change (-2 =? 0) with false. cbn iota.
  replace (-2 + bmpLength set) with (bmpLength set - 2) by lia. rewrite H1. cbn [mbind option_bind].
  exact IH.
Qed.

(** The set of one code point made by [uset_setSerializedToOne] has that range. *)
Theorem setSerializedToOne_range set c :
  0 <= c < UNICODESET_HIGH ->
  uset_getSerializedRangeCount (uset_setSerializedToOne set c) = 1 /\
  uset_getSerializedRange (uset_setSerializedToOne set c) 0 = Some (Some (c, c)) /\
  uset_getSerializedRange (uset_setSerializedToOne set c) 1 = Some None.
Proof.
  intros Hc. unfold uset_setSerializedToOne. rewrite uint32_cp by done. unfold UNICODESET_HIGH in Hc.
  destruct (Z.ltb_spec c 0xffff).
  { rewrite (uint16_id c), (uint16_id (c + 1)) by (unfold is_uint16; lia). split_and!; [done| |done].
    change (Some (Some (c, c + 1 - 1)) = Some (Some (c, c))). do 3 f_equal. lia. }
  destruct (Z.eqb_spec c 0xffff) as [->|]; [done|].
  destruct (Z.ltb_spec c 0x10ffff); [|by assert (c = 0x10ffff) as -> by lia].
  split_and!; [done| |done].
  change (Some (Some (Z.lor (Z.shiftl (uint16 (Z.shiftr c 16)) 16) (uint16 c),
    Z.lor (Z.shiftl (uint16 (Z.shiftr (c + 1) 16)) 16) (uint16 (c + 1)) - 1)) = Some (Some (c, c))).
  assert (Hpair : forall x, 0 <= x < 0x110000 ->
    Z.lor (Z.shiftl (uint16 (Z.shiftr x 16)) 16) (uint16 x) = x).
  { intros x Hx. rewrite Z.shiftr_div_pow2 by lia. change (2 ^ 16) with 65536. unfold uint16.
    rewrite (Z.mod_small (x / 65536)) by dlia. rewrite Z.shiftl_mul_pow2, lor_fields by dlia. dlia. }
  rewrite !Hpair by lia. do 3 f_equal. lia.
Qed.

(** ** The results on concrete sets *)

Definition blank : list Z := replicate 8 0.

Lemma serialize_correct_witness :
  exists bmp supp, parts sample_list bmp supp /\
    let units := encode bmp supp in
    let n := Z.of_nat (List.length units) in
    serialize sample blank 8 U_ZERO_ERROR =
      Some (if 0x7fff <? Z.of_nat (List.length (bmp ++ units_of supp))
            then (0, blank, U_INDEX_OUTOFBOUNDS_ERROR)
            else if n <=? 8 then (n, units ++ drop (List.length units) blank, U_ZERO_ERROR)
            else (n, blank, U_BUFFER_OVERFLOW_ERROR)).
Proof.
  apply (serialize_correct sample sample_list [ch; ll] blank 8 sample_rep). split; [lia|cbn; lia].
Defined.

Lemma serialize_roundtrip_witness :
  exists set, uset_getSerializedSet [0x8004; 2; 0x61; 0x7b; 1; 0xf600; 0; 0] 6 = Some (true, set) /\
    uset_getSerializedRangeCount set = UnicodeSet.getRangeCount sample /\
    uset_getSerializedRange set 1 = Some (Some (0x1f600, 0x10ffff)).
Proof.
  destruct (serialize_roundtrip sample sample_list [ch; ll] blank 8 6
    [0x8004; 2; 0x61; 0x7b; 1; 0xf600; 0; 0] sample_rep) as (set & Hget & Hcount & Hrange & _).
  - split; [lia|cbn; lia].
  - vm_compute. reflexivity.
  - exists set. split; [exact Hget|]. split; [exact Hcount|]. exact (Hrange 1%nat eq_refl).
Defined.

(** [[A-Z]] in a larger array of units. *)
Definition capitals : USerializedSet := mk [2; 0x41; 0x5b; 0] 1 2 2.

Lemma serializedContains_diverges_witness :
  uset_getSerializedSet [2; 0x41; 0x5b; 0] 4 = Some (true, capitals) /\
  uset_serializedContains 1000 capitals 0x10000 = None.
Proof.
  split; [reflexivity|]. apply (serializedContains_diverges capitals 0x10000 1000).
  - unfold UNICODESET_HIGH. lia.
  - reflexivity.
  - reflexivity.
  - reflexivity.
Defined.

Lemma setSerializedToOne_range_witness :
  uset_getSerializedRange (uset_setSerializedToOne capitals 0x1f600) 0 = Some (Some (0x1f600, 0x1f600)).
Proof. apply (setSerializedToOne_range capitals 0x1f600). unfold UNICODESET_HIGH. lia. Defined.

End USerializedSet.
