(* ===== verification/Double.v ===== *)
(** * Binary64 arithmetic

    The calendar code also computes with [double].  A finite double is the
    rational number it denotes; an operation returns the exact result rounded
    to the nearest 53-bit significand, ties to even.  Infinities, NaN, the
    sign of zero and the limits of the exponent do not occur in the modelled
    code, whose values are below 2^63 and, if not zero, above 2^-30. *)
From S2P Require Import Prelude Int32.
From Stdlib Require Export QArith Qround Qabs Lqa.
From Stdlib Require Qcanon.
Local Open Scope Z_scope.

Definition double : Type := Q.

(** ** Rounding *)

(** The integer nearest to [a / b]. *)
Definition nearest_even (a b : Z) : Z :=
  let q := a / b in
  let r := a mod b in
  if 2 * r <? b then q
  else if b <? 2 * r then q + 1
  else if Z.even q then q else q + 1.

(** [2 ^ 52 <= n / d * 2 ^ - exponent n d < 2 ^ 53] *)
Definition exponent (n d : Z) : Z :=
  let e := Z.log2 n - Z.log2 d - 52 in
  if n * 2 ^ Z.max 0 (- e) <? 2 ^ 52 * (d * 2 ^ Z.max 0 e) then e - 1 else e.

Definition round_pos (n d : Z) : Q :=
  let e := exponent n d in
  let m := nearest_even (n * 2 ^ Z.max 0 (- e)) (d * 2 ^ Z.max 0 e) in
  (m * 2 ^ Z.max 0 e) # (Z.to_pos (2 ^ Z.max 0 (- e))).

(** Fractions are kept in lowest terms, so that equal doubles are [=]. *)
Definition round (x : Q) : double :=
  let n := Qnum (Qred x) in
  let d := QDen (Qred x) in
  match n with
  | 0 => 0%Q
  | Zpos _ => Qred (round_pos n d)
  | Zneg _ => Qred (- round_pos (- n) d)
  end.

(** ** Operations *)

Definition of_int (z : Z) : double := inject_Z z.
Definition dadd (x y : double) : double := round (x + y)%Q.
Definition dsub (x y : double) : double := round (x - y)%Q.
Definition dmul (x y : double) : double := round (x * y)%Q.
Definition ddiv (x y : double) : double := round (x / y)%Q.

(** [uprv_floor] and [uprv_ceil] are exact: they return an integral double. *)
Definition uprv_floor (x : double) : double := inject_Z (Qfloor x).
Definition uprv_ceil (x : double) : double := inject_Z (Qceiling x).

(** The conversion to [int32_t] drops the fraction; it is undefined for a
    value outside of the type. *)
Definition to_int32 (x : double) : I32 := checked (Z.quot (Qnum x) (QDen x)).

Definition dlt (x y : double) : bool := negb (Qle_bool y x).
Definition deq (x y : double) : bool := Qeq_bool x y.

(** ** What rounding does *)

Lemma nearest_even_error a b : 0 < b -> 2 * Z.abs (nearest_even a b * b - a) <= b.
Proof.
  intros Hb. unfold nearest_even.
  pose proof (Z.div_mod a b ltac:(lia)) as Ha. pose proof (Z.mod_pos_bound a b Hb).
  set (q := a / b) in *. set (r := a mod b) in *. clearbody q r.
  assert (q * b - a = - r) by nia. assert ((q + 1) * b - a = b - r) by nia.
  destruct (Z.ltb_spec (2 * r) b); [lia|].
  destruct (Z.ltb_spec b (2 * r)); [lia|]. destruct (Z.even q); lia.
Qed.

Lemma nearest_even_exact c b : 0 < b -> nearest_even (c * b) b = c.
Proof.
  intros Hb. pose proof (nearest_even_error (c * b) b Hb).
  assert (2 * Z.abs (nearest_even (c * b) b - c) * b <= 1 * b).
  { replace (2 * Z.abs (nearest_even (c * b) b - c) * b)
      with (2 * (Z.abs (nearest_even (c * b) b - c) * Z.abs b)) by lia.
    rewrite <- Z.abs_mul. nia. }
  nia.
Qed.

Lemma exponent_spec n d :
  0 < n -> 0 < d ->
  2 ^ 52 * (d * 2 ^ Z.max 0 (exponent n d)) <= n * 2 ^ Z.max 0 (- exponent n d).
Proof.
  intros Hn Hd. unfold exponent.
  pose proof (Z.log2_spec n Hn) as [Hn1 Hn2]. pose proof (Z.log2_spec d Hd) as [Hd1 Hd2].
  pose proof (Z.log2_nonneg n). pose proof (Z.log2_nonneg d).
  set (e := Z.log2 n - Z.log2 d - 52) in *.
  destruct (Z.ltb_spec (n * 2 ^ Z.max 0 (- e)) (2 ^ 52 * (d * 2 ^ Z.max 0 e))); [|done].
  assert (Heq : 2 ^ 52 * (2 ^ Z.succ (Z.log2 d) * 2 ^ Z.max 0 (e - 1)) =
               2 ^ Z.log2 n * 2 ^ Z.max 0 (- (e - 1))).
  { rewrite <- !Z.pow_add_r by lia. f_equal. lia. }
  pose proof (Z.pow_pos_nonneg 2 (Z.max 0 (e - 1))).
  pose proof (Z.pow_pos_nonneg 2 (Z.max 0 (- (e - 1)))).
  set (p := 2 ^ Z.max 0 (e - 1)) in *. set (q := 2 ^ Z.max 0 (- (e - 1))) in *.
  transitivity (2 ^ 52 * (2 ^ Z.succ (Z.log2 d) * p)).
  - apply Z.mul_le_mono_nonneg_l; [lia|]. apply Z.mul_le_mono_nonneg_r; lia.
  - rewrite Heq. apply Z.mul_le_mono_nonneg_r; lia.
Qed.

(** The relative error of rounding a positive fraction, without denominators:
    the result is [v / 2 ^ s]. *)
Lemma round_pos_error n d :
  0 < n -> 0 < d ->
  let v := Qnum (round_pos n d) in
  let w := QDen (round_pos n d) in
  0 < w /\ 2 ^ 53 * Z.abs (v * d - n * w) <= n * w.
Proof.
  intros Hn Hd. unfold round_pos. cbn [Qnum Qden].
  set (e := exponent n d). pose proof (exponent_spec n d Hn Hd) as He. fold e in He.
  pose proof (Z.pow_pos_nonneg 2 (Z.max 0 e)). pose proof (Z.pow_pos_nonneg 2 (Z.max 0 (- e))).
  set (p := 2 ^ Z.max 0 e) in *. set (q := 2 ^ Z.max 0 (- e)) in *.
  rewrite Z2Pos.id by lia. split; [lia|].
  pose proof (nearest_even_error (n * q) (d * p) ltac:(nia)) as Herr.
  set (m := nearest_even _ _) in *.
  replace (m * p * d - n * q) with (m * (d * p) - n * q) by ring. lia.
Qed.

Lemma round_pos_exact n d k :
  0 < n < 2 ^ 53 -> 0 < d -> n = k * d -> (round_pos n d == inject_Z k)%Q.
Proof.
  intros Hn Hd Hk. unfold round_pos.
  set (e := exponent n d). pose proof (exponent_spec n d ltac:(lia) Hd) as He. fold e in He.
  destruct (Z.le_gt_cases e 0).
  - replace (Z.max 0 e) with 0 in * by lia. replace (Z.max 0 (- e)) with (- e) in * by lia.
    pose proof (Z.pow_pos_nonneg 2 (- e)).
    set (q := 2 ^ (- e)) in *. rewrite Z.pow_0_r, !Z.mul_1_r in *.
    replace (n * q) with (k * q * d) by nia. rewrite nearest_even_exact by lia.
    unfold Qeq. cbn [Qnum Qden inject_Z]. rewrite Z2Pos.id by lia. ring.
  - exfalso. replace (Z.max 0 (- e)) with 0 in He by lia. rewrite Z.pow_0_r, Z.mul_1_r in He.
    assert (2 <= 2 ^ Z.max 0 e).
    { change 2 with (2 ^ 1) at 1. apply Z.pow_le_mono_r; lia. }
    set (p := 2 ^ _) in *. nia.
Qed.

(** The rounded quotient of two integers compares with an integer the way the
    quotient does, as long as the numerator is below 2^53. *)
Lemma round_pos_compare n d k :
  0 < n < 2 ^ 53 -> 0 < d ->
  (round_pos n d ?= inject_Z k)%Q = (n ?= k * d).
Proof.
  intros Hn Hd. destruct (Z.compare_spec n (k * d)) as [Heq|Hlt|Hgt].
  - rewrite <- Qeq_alt. by apply round_pos_exact.
  - rewrite <- Qlt_alt. unfold Qlt. cbn [inject_Z Qnum Qden].
    destruct (round_pos_error n d ltac:(lia) Hd) as [Hw Herr].
    set (v := Qnum _) in *. set (w := QDen _) in *. nia.
  - rewrite <- Qgt_alt. unfold Qlt. cbn [inject_Z Qnum Qden].
    destruct (round_pos_error n d ltac:(lia) Hd) as [Hw Herr].
    set (v := Qnum _) in *. set (w := QDen _) in *. nia.
Qed.

#[export] Instance round_Proper : Proper (Qeq ==> eq) round.
Proof. intros x y Hxy. unfold round. by rewrite (Qred_complete x y Hxy). Qed.

Lemma Qred_fraction n d :
  0 < d -> exists g, 0 < g /\ n = g * Qnum (Qred (n # Z.to_pos d)) /\
                     d = g * QDen (Qred (n # Z.to_pos d)).
Proof.
  intros Hd. unfold Qred. rewrite Z2Pos.id by lia.
  pose proof (Z.ggcd_correct_divisors n d) as Hdiv. pose proof (Z.ggcd_gcd n d) as Hg.
  destruct (Z.ggcd n d) as [g [a b]]. cbn [fst snd Qnum Qden] in *.
  pose proof (Z.gcd_nonneg n d). destruct Hdiv as [Hn' Hd'].
  exists g. assert (g <> 0) by (intros ->; lia). assert (0 < g) by lia. assert (0 < b) by nia. rewrite Z2Pos.id by lia. done.
Qed.

Lemma round_neg x : (round (- x) == - round x)%Q.
Proof.
  unfold round. rewrite Qred_opp. destruct (Qred x) as [[|n|n] d]; cbn [Qopp Qnum Qden Z.opp].
  - reflexivity.
  - by setoid_rewrite Qred_correct.
  - setoid_rewrite Qred_correct. by setoid_rewrite Qopp_involutive.
Qed.

Lemma Qcompare_opp x y : (- x ?= - y)%Q = (y ?= x)%Q.
Proof.
  unfold Qcompare. cbn. by rewrite !Z.mul_opp_l, Z.compare_opp.
Qed.

(** The rounded quotient of two integers compares with an integer the way the
    quotient does, as long as the numerator is below 2^53. *)
Lemma round_compare n d k :
  Z.abs n < 2 ^ 53 -> 0 < d ->
  (round (n # Z.to_pos d) ?= inject_Z k)%Q = (n ?= k * d).
Proof.
  intros Hn Hd. unfold round. destruct (Qred_fraction n d Hd) as (g & Hg & Hgn & Hgd).
  set (y := Qred _) in *. pose proof (Pos2Z.is_pos (Qden y)).
  replace (n ?= k * d) with (Qnum y ?= k * QDen y)
    by (rewrite (Zmult_compare_compat_l _ _ g) by lia; f_equal; [lia|rewrite Hgd; ring]).
  assert (Hy : Z.abs (Qnum y) < 2 ^ 53) by nia.
  destruct (Qnum y) as [|p|p] eqn:E.
  - by destruct k.
  - setoid_rewrite Qred_correct. apply round_pos_compare; lia.
  - setoid_rewrite Qred_correct. replace (inject_Z k) with (- inject_Z (- k))%Q by (by destruct k).
    rewrite Qcompare_opp, <- Qcompare_antisym.
    rewrite round_pos_compare by lia. rewrite <- Z.compare_antisym, <- Z.compare_opp.
    f_equal; lia.
Qed.

Lemma round_reduced x : Qred (round x) = round x.
Proof.
  unfold round. destruct (Qnum (Qred x)); [done|apply Qred_complete, Qred_correct..].
Qed.

Lemma Qred_int z : Qred (inject_Z z) = inject_Z z.
Proof. apply Qcanon.Qred_identity. cbn. by rewrite Z.gcd_1_r. Qed.

(** Integers below 2^53 are doubles. *)
Lemma round_int z : Z.abs z < 2 ^ 53 -> round (inject_Z z) = inject_Z z.
Proof.
  intros Hz. rewrite <- round_reduced. transitivity (Qred (inject_Z z)); [|apply Qred_int].
  apply Qred_complete, Qeq_alt. change ((round (z # Z.to_pos 1) ?= inject_Z z)%Q = Eq).
  rewrite round_compare by lia. apply Z.compare_eq_iff. lia.
Qed.

Lemma dadd_int x y : Z.abs (x + y) < 2 ^ 53 -> dadd (of_int x) (of_int y) = of_int (x + y).
Proof.
  intros. unfold dadd, of_int. rewrite <- (round_int (x + y)) by done.
  apply round_Proper. by rewrite inject_Z_plus.
Qed.

Lemma dsub_int x y : Z.abs (x - y) < 2 ^ 53 -> dsub (of_int x) (of_int y) = of_int (x - y).
Proof.
  intros. unfold dsub, of_int. rewrite <- (round_int (x - y)) by done.
  apply round_Proper. unfold Qminus. by rewrite <- inject_Z_opp, <- inject_Z_plus.
Qed.

Lemma dmul_int x y : Z.abs (x * y) < 2 ^ 53 -> dmul (of_int x) (of_int y) = of_int (x * y).
Proof.
  intros. unfold dmul, of_int. rewrite <- (round_int (x * y)) by done.
  apply round_Proper. by rewrite inject_Z_mult.
Qed.

Lemma ddiv_compare n d k :
  Z.abs n < 2 ^ 53 -> 0 < d -> (ddiv (of_int n) (of_int d) ?= inject_Z k)%Q = (n ?= k * d).
Proof.
  intros Hn Hd. rewrite <- (round_compare n d k Hn Hd). unfold ddiv, of_int.
  rewrite (round_Proper (inject_Z n / inject_Z d)%Q (n # Z.to_pos d)); [done|].
  destruct d; [done| |done]. unfold Qdiv, Qmult, Qinv, Qeq. cbn. lia.
Qed.

Lemma Qfloor_unique x k : (inject_Z k <= x)%Q -> (x < inject_Z (k + 1))%Q -> Qfloor x = k.
Proof.
  intros H1 H2. pose proof (Qfloor_le x) as H3. pose proof (Qlt_floor x) as H4.
  pose proof (Qle_lt_trans _ _ _ H1 H4) as H5. pose proof (Qle_lt_trans _ _ _ H3 H2) as H6.
  rewrite <- Zlt_Qlt in H5, H6. lia.
Qed.

(** Floor and ceiling of the rounded quotient of two integers. *)
Lemma uprv_floor_ddiv n d :
  Z.abs n < 2 ^ 53 -> 0 < d -> uprv_floor (ddiv (of_int n) (of_int d)) = of_int (n / d).
Proof.
  intros Hn Hd. unfold uprv_floor, of_int at 3. f_equal. apply Qfloor_unique.
  - apply Qge_alt. rewrite ddiv_compare by done. apply Z.compare_ge_iff. dlia.
  - apply Qlt_alt. rewrite ddiv_compare by done. apply Z.compare_lt_iff. dlia.
Qed.

Lemma to_int32_int z : is_int32 z -> to_int32 (of_int z) = Some z.
Proof. intros. unfold to_int32. cbn. rewrite Z.quot_1_r. by apply checked_ok. Qed.

Lemma Qceiling_unique x k : (inject_Z (k - 1) < x)%Q -> (x <= inject_Z k)%Q -> Qceiling x = k.
Proof.
  intros H1 H2. pose proof (Qle_ceiling x) as H3. pose proof (Qceiling_lt x) as H4.
  pose proof (Qlt_le_trans _ _ _ H1 H3) as H5. pose proof (Qlt_le_trans _ _ _ H4 H2) as H6.
  rewrite <- Zlt_Qlt in H5, H6. lia.
Qed.

(** The relative error of an operation. *)
Definition ulp53 : Q := 1 # 9007199254740992.

Lemma round_error x :
  (0 <= x)%Q -> (x * (1 - ulp53) <= round x)%Q /\ (round x <= x * (1 + ulp53))%Q.
Proof.
  intros Hx. assert (Hy : (Qred x == x)%Q) by apply Qred_correct.
  assert (0 <= Qnum (Qred x)) as Hn.
  { unfold Qle in Hx. cbn in Hx. assert (0 <= Qred x)%Q as H by (by rewrite Hy).
    unfold Qle in H. cbn in H. lia. }
  enough ((Qred x * (1 - ulp53) <= round x)%Q /\ (round x <= Qred x * (1 + ulp53))%Q) as H
    by (by setoid_rewrite Hy in H).
  unfold round. set (y := Qred x) in *. clearbody y.
  destruct (Qnum y) as [|p|p] eqn:E; [|clear Hn|lia].
  - destruct y as [n d]. cbn in E. subst n. split; done.
  - setoid_rewrite (Qred_correct (round_pos (Z.pos p) (QDen y))).
    destruct (round_pos_error (Z.pos p) (QDen y)) as [Hw Herr]; [lia..|].
    destruct (round_pos (Z.pos p) (QDen y)) as [v w]. destruct y as [n d].
    cbn in E, Hw, Herr |- *. subst n. unfold ulp53, Qle. cbn. lia.
Qed.

(** ** Bounds

    Rounding keeps the order to an integer, whatever the other operand. *)
Lemma nearest_even_ge a b c : 0 < b -> c * b <= a -> c <= nearest_even a b.
Proof.
  intros Hb Hc. unfold nearest_even. assert (c <= a / b) by (apply Z.div_le_lower_bound; lia).
  repeat case_match; lia.
Qed.

Lemma nearest_even_le a b c : 0 < b -> a <= c * b -> nearest_even a b <= c.
Proof.
  intros Hb Hc. unfold nearest_even. pose proof (Z.div_mod a b ltac:(lia)) as Ha.
  pose proof (Z.mod_pos_bound a b Hb). set (q := a / b) in *. set (r := a mod b) in *.
  destruct (Z.lt_total q c) as [Hq|[->|Hq]].
  - repeat case_match; lia.
  - rewrite (proj2 (Z.ltb_lt (2 * r) b)) by lia. lia.
  - nia.
Qed.

Lemma round_pos_bounds n d k :
  0 < n -> 0 < d -> 0 <= k < 2 ^ 53 ->
  (k * d <= n -> (inject_Z k <= round_pos n d)%Q) /\ (n <= k * d -> (round_pos n d <= inject_Z k)%Q).
Proof.
  intros Hn Hd Hk. unfold round_pos. pose proof (exponent_spec n d Hn Hd) as He.
  set (e := exponent n d) in *. pose proof (Z.pow_pos_nonneg 2 (Z.max 0 e)) as Hp.
  pose proof (Z.pow_pos_nonneg 2 (Z.max 0 (- e))) as Hq.
  destruct (Z.le_gt_cases e 0) as [H0|H0].
  - replace (Z.max 0 e) with 0 in * by lia. set (q := 2 ^ Z.max 0 (- e)) in *.
    rewrite Z.pow_0_r, !Z.mul_1_r in *. unfold Qle; cbn [Qnum Qden inject_Z]. rewrite !Z2Pos.id, !Z.mul_1_r by lia.
    split; intros Hc; [apply nearest_even_ge|apply nearest_even_le]; nia.
  - replace (Z.max 0 (- e)) with 0 in * by lia.
    assert (2 <= 2 ^ Z.max 0 e) by (change 2 with (2 ^ 1) at 1; apply Z.pow_le_mono_r; lia).
    set (p := 2 ^ Z.max 0 e) in *. rewrite Z.pow_0_r, !Z.mul_1_r in *.
    unfold Qle; cbn [Qnum Qden inject_Z]. rewrite !Z.mul_1_r.
    assert (2 ^ 52 <= nearest_even n (d * p)) by (apply nearest_even_ge; nia).
    split; intros Hc; [nia|]. exfalso. assert (2 ^ 53 * d <= n) by nia. nia.
Qed.

Lemma round_bounds x a b :
  0 <= a < 2 ^ 53 -> 0 <= b < 2 ^ 53 -> (inject_Z a <= x)%Q -> (x <= inject_Z b)%Q ->
  (inject_Z a <= round x)%Q /\ (round x <= inject_Z b)%Q.
Proof.
  intros Ha Hb Hax Hxb. assert (Hy : (Qred x == x)%Q) by apply Qred_correct.
  setoid_rewrite <- Hy in Hax. setoid_rewrite <- Hy in Hxb. unfold round.
  destruct (Qred x) as [n d]. clear Hy x. cbn [Qnum Qden].
  unfold Qle in Hax, Hxb. cbn [Qnum Qden inject_Z] in Hax, Hxb. destruct n as [|p|p].
  - unfold Qle. cbn. nia.
  - setoid_rewrite Qred_correct.
    split; apply round_pos_bounds; lia.
  - nia.
Qed.

Lemma to_int32_bounds x a b :
  0 <= a -> b <= INT32_MAX -> (inject_Z a <= x)%Q -> (x <= inject_Z b)%Q ->
  exists z, to_int32 x = Some z /\ a <= z <= b.
Proof.
  unfold INT32_MAX. intros Ha Hb Hax Hxb. destruct x as [n d]. unfold Qle in *. cbn [Qnum Qden inject_Z] in *.
  unfold to_int32. cbn [Qnum Qden]. assert (0 < Zpos d) by lia.
  rewrite Z.quot_div_nonneg by nia.
  assert (a <= n / Zpos d <= b) by (split; [apply Z.div_le_lower_bound|apply Z.div_le_upper_bound]; lia).
  exists (n / Zpos d). split; [|done]. apply checked_ok. unfold is_int32, INT32_MIN, INT32_MAX. lia.
Qed.

(** Rounding keeps integer bounds. *)
Definition between (a : Z) (x : double) (b : Z) : Prop := (inject_Z a <= x)%Q /\ (x <= inject_Z b)%Q.

Lemma round_between a x b : 0 <= a -> b < 2 ^ 53 -> between a x b -> between a (round x) b.
Proof.
  intros Ha Hb [H1 H2]. assert (a <= b) by (rewrite Zle_Qle; eauto using Qle_trans).
  split; apply (round_bounds x a b); try done; lia.
Qed.

Lemma dadd_between a x b k :
  between a x b -> 0 <= a + k -> b + k < 2 ^ 53 -> between (a + k) (dadd x (of_int k)) (b + k).
Proof.
  intros [H1 H2] Ha Hb. apply round_between; [done..|]. unfold between, of_int. rewrite !inject_Z_plus.
  split; apply Qplus_le_compat; try done; apply Qle_refl.
Qed.

Lemma dmul_between a x b k :
  between a x b -> 0 <= k -> 0 <= k * a -> k * b < 2 ^ 53 -> between (k * a) (dmul (of_int k) x) (k * b).
Proof.
  intros [H1 H2] Hk Ha Hb. apply round_between; [done..|]. unfold between, of_int. rewrite !inject_Z_mult.
  assert (Hk' : (0 <= inject_Z k)%Q) by (rewrite Zle_Qle in Hk; done).
  split; rewrite !(Qmult_comm (inject_Z k)); by apply Qmult_le_compat_r.
Qed.

Lemma ddiv_between a x b k a' b' :
  between a x b -> 0 < k -> 0 <= a' -> a' * k <= a -> b <= b' * k -> b' < 2 ^ 53 ->
  between a' (ddiv x (of_int k)) b'.
Proof.
  intros [H1 H2] Hk Ha' Ha Hb Hb'. apply round_between; [done..|]. unfold between, of_int.
  rewrite Zlt_Qlt in Hk. rewrite Zle_Qle, inject_Z_mult in Ha, Hb.
  split; [apply Qle_shift_div_l|apply Qle_shift_div_r]; eauto using Qle_trans.
Qed.

Lemma to_int32_between a x b :
  0 <= a -> b <= INT32_MAX -> between a x b -> exists z, to_int32 x = Some z /\ a <= z <= b.
Proof. intros ? ? [? ?]. by apply to_int32_bounds. Qed.

Lemma between_int z : between z (of_int z) z.
Proof. split; apply Qle_refl. Qed.


Lemma deq_int a b : deq (of_int a) (of_int b) = (a =? b).
Proof.
  unfold deq, of_int. apply eq_iff_eq_true. rewrite Qeq_bool_iff, Z.eqb_eq.
  unfold Qeq. cbn. lia.
Qed.

(** ** Halves

    Julian days begin at noon, so the code also computes with half days. *)
Definition half (z : Z) : double := Qred (z # 2).

Lemma round_pos_exact_half n :
  0 < n < 2 ^ 53 -> (round_pos n 2 == n # 2)%Q.
Proof.
  intros Hn. unfold round_pos. set (e := exponent n 2).
  pose proof (exponent_spec n 2 ltac:(lia) ltac:(lia)) as He. fold e in He.
  assert (e < 0).
  { apply Z.nle_gt. intros He0. replace (Z.max 0 (- e)) with 0 in He by lia.
    rewrite Z.pow_0_r, Z.mul_1_r in He.
    assert (1 <= 2 ^ Z.max 0 e) by (pose proof (Z.pow_pos_nonneg 2 (Z.max 0 e)); lia). lia. }
  replace (Z.max 0 e) with 0 by lia. replace (Z.max 0 (- e)) with (Z.succ (- e - 1)) by lia.
  rewrite Z.pow_succ_r, Z.pow_0_r by lia. pose proof (Z.pow_pos_nonneg 2 (- e - 1)).
  set (q := 2 ^ (- e - 1)) in *. replace (n * (2 * q)) with (n * q * (2 * 1)) by ring.
  rewrite nearest_even_exact by lia. unfold Qeq. cbn [Qnum Qden].
  rewrite Z2Pos.id by lia. ring.
Qed.

Lemma half_even z : half (2 * z) = of_int z.
Proof. unfold half, of_int. rewrite <- Qred_int. apply Qred_complete. unfold Qeq. cbn. lia. Qed.

Lemma round_half z : Z.abs z < 2 ^ 53 -> round (z # 2) = half z.
Proof.
  intros Hz. rewrite <- round_reduced. apply Qred_complete. unfold round.
  destruct (Qred_fraction z 2 ltac:(lia)) as (g & Hg & Hz' & H2).
  change (Z.to_pos 2) with 2%positive in *.
  assert (Hred : (Qred (z # 2) == z # 2)%Q) by apply Qred_correct.
  set (y := Qred (z # 2)) in *. pose proof (Pos2Z.is_pos (Qden y)).
  assert (Hcase : QDen y = 1 \/ QDen y = 2) by nia.
  assert (Hexact : forall n, 0 < n < 2 ^ 53 -> (round_pos n (QDen y) == n # Qden y)%Q).
  { intros n Hn. destruct Hcase as [E|E].
    - assert (Qden y = 1%positive) as -> by lia. by apply round_pos_exact; [| |lia].
    - assert (Qden y = 2%positive) as -> by lia. by apply round_pos_exact_half. }
  destruct (Qnum y) as [|p|p] eqn:E.
  - rewrite <- Hred. unfold Qeq. cbn. lia.
  - setoid_rewrite Qred_correct. setoid_rewrite Hexact; [|nia]. setoid_rewrite <- Hred.
    destruct y as [n d]. cbn in E |- *. by rewrite E.
  - setoid_rewrite Qred_correct. setoid_rewrite Hexact; [|nia]. setoid_rewrite <- Hred.
    destruct y as [n d]. cbn in E |- *. by rewrite E.
Qed.

Lemma dadd_half a b : Z.abs (a + b) < 2 ^ 53 -> dadd (half a) (half b) = half (a + b).
Proof.
  intros. unfold dadd. rewrite <- (round_half (a + b)) by done. apply round_Proper. unfold half.
  setoid_rewrite Qred_correct. unfold Qeq, Qplus. cbn. lia.
Qed.

Lemma dsub_half a b : Z.abs (a - b) < 2 ^ 53 -> dsub (half a) (half b) = half (a - b).
Proof.
  intros. unfold dsub. rewrite <- (round_half (a - b)) by done. apply round_Proper. unfold half.
  setoid_rewrite Qred_correct. unfold Qeq, Qminus, Qplus. cbn. lia.
Qed.

Lemma uprv_floor_half z : uprv_floor (half z) = of_int (z / 2).
Proof.
  unfold uprv_floor, half, of_int. f_equal.
  rewrite (Qfloor_comp _ (z # 2)) by apply Qred_correct. reflexivity.
Qed.

Lemma to_int32_half z : is_int32 (Z.quot z 2) -> to_int32 (half z) = Some (Z.quot z 2).
Proof.
  intros Hz. unfold to_int32, half.
  destruct (Qred_fraction z 2 ltac:(lia)) as (g & Hg & Hz' & H2).
  change (Z.to_pos 2) with 2%positive in *. set (y := Qred _) in *.
  rewrite <- (Z.quot_mul_cancel_l _ _ g) by lia. rewrite <- Hz', <- H2. by apply checked_ok.
Qed.

Lemma dlt_half a b : dlt (half a) (half b) = (a <? b).
Proof.
  unfold dlt. rewrite Z.ltb_antisym. f_equal. apply eq_iff_eq_true.
  rewrite Qle_bool_iff, Z.leb_le. unfold half. rewrite !Qred_correct. unfold Qle. cbn. lia.
Qed.
