(* ===== verification/Grego.v ===== *)
(** * Clock mathematics and the proleptic Gregorian calendar (i18n/gregoimp.cpp, gregoimp.h)

    [ClockMath] holds the floor divisions, [Grego] the conversion between days
    and the fields of the Gregorian calendar.  [Gregorian] is the reference:
    the days of the calendar in order, each the successor of the one before. *)
From S2P Require Import Prelude Int32 Double.
Local Open Scope Z_scope.

Module ClockMath.

(** [floorDivide(int32_t, int32_t)] *)
Definition floorDivide (numerator denominator : I32) : I32 :=
  let! n := numerator in
  let! d := denominator in
  if n >=? 0 then n /! d else ((n +! 1) /! d) -! 1.

(** [floorDivide(double, int32_t, int32_t&)]: the quotient and the remainder *)
Definition floorDivide_int (numerator : double) (denominator : Z) : option (Z * Z) :=
  let quotient := uprv_floor (ddiv numerator (of_int denominator)) in
  let! remainder := to_int32 (dsub numerator (dmul quotient (of_int denominator))) in
  let! q := to_int32 quotient in
  Some (q, remainder).

(** [floorDivide(double, double)] *)
Definition floorDivide_double (numerator denominator : double) : double :=
  uprv_floor (ddiv numerator denominator).

(** [floorDivide(double, double, double&)]: the quotient and the remainder *)
Definition floorDivide_rem (dividend divisor : double) : double * double :=
  let quotient := floorDivide_double dividend divisor in
  let remainder := dsub dividend (dmul quotient divisor) in
  if dlt remainder (of_int 0) || negb (dlt remainder divisor) then
    let q := quotient in
    let quotient := dadd quotient (if dlt remainder (of_int 0) then of_int (-1) else of_int 1) in
    if Qeq_bool q quotient then (quotient, of_int 0)
    else (quotient, dsub dividend (dmul quotient divisor))
  else (quotient, remainder).

Lemma floorDivide_ok n d : 0 < d -> is_int32 n -> floorDivide (Some n) (Some d) = Some (n / d).
Proof.
  intros Hd Hn. unfold floorDivide, int. cbn [obind]. rewrite Z.geb_leb.
  unfold is_int32, INT32_MAX, INT32_MIN in Hn. destruct (Z.leb_spec 0 n).
  - by apply idiv_nonneg; [|unfold INT32_MAX; lia].
  - rewrite iadd_ok, idiv_ok by ibound.
    assert (Hq : Z.quot (n + 1) d - 1 = n / d) by (Z.to_euclidean_division_equations; nia).
    rewrite isub_ok, Hq; [done|]. rewrite Hq.
    unfold is_int32, INT32_MIN, INT32_MAX. Z.to_euclidean_division_equations. nia.
Qed.

Lemma mul_div_abs n d : 0 < d -> Z.abs (n / d * d) <= Z.abs n + d.
Proof. intros. Z.to_euclidean_division_equations. nia. Qed.

Lemma floorDivide_int_ok n d :
  0 < d <= INT32_MAX -> Z.abs n < 2 ^ 52 -> is_int32 (n / d) ->
  floorDivide_int (of_int n) d = Some (n / d, n mod d).
Proof.
  unfold INT32_MAX. intros Hd Hn Hq. unfold floorDivide_int.
  pose proof (mul_div_abs n d ltac:(lia)). pose proof (Z.mod_pos_bound n d ltac:(lia)).
  rewrite uprv_floor_ddiv, dmul_int, dsub_int by dlia.
  replace (n - n / d * d) with (n mod d) by dlia.
  by rewrite !to_int32_int by (unfold is_int32, INT32_MAX, INT32_MIN in *; lia).
Qed.

Lemma dlt_int a b : dlt (of_int a) (of_int b) = (a <? b).
Proof.
  unfold dlt, Qle_bool. cbn. rewrite !Z.mul_1_r, Z.leb_antisym. by rewrite negb_involutive.
Qed.

(** With exact operands the correction of the quotient is not needed. *)
Lemma floorDivide_rem_ok n d :
  0 < d <= INT32_MAX -> Z.abs n < 2 ^ 52 ->
  floorDivide_rem (of_int n) (of_int d) = (of_int (n / d), of_int (n mod d)).
Proof.
  unfold INT32_MAX. intros Hd Hn. unfold floorDivide_rem, floorDivide_double.
  pose proof (mul_div_abs n d ltac:(lia)). pose proof (Z.mod_pos_bound n d ltac:(lia)).
  rewrite uprv_floor_ddiv, dmul_int, dsub_int by dlia.
  replace (n - n / d * d) with (n mod d) by dlia. rewrite !dlt_int.
  rewrite (proj2 (Z.ltb_ge _ _)), (proj2 (Z.ltb_lt _ _)) by lia. done.
Qed.
End ClockMath.

Module Grego.
Import ClockMath.

Definition UCAL_SUNDAY : Z := 1.
Definition UCAL_THURSDAY : Z := 5.
Definition UCAL_SATURDAY : Z := 7.

Definition JULIAN_1_CE : Z := 1721426.
Definition JULIAN_1970_CE : Z := 2440588.
Definition U_MILLIS_PER_DAY : Z := 86400000.
Definition kEpochStartAsJulianDay : Z := 2440588.

Definition DAYS_BEFORE : list Z :=
  [0;31;59;90;120;151;181;212;243;273;304;334;
   0;31;60;91;121;152;182;213;244;274;305;335].

Definition MONTH_LENGTH : list Z :=
  [31;28;31;30;31;30;31;31;30;31;30;31;
   31;29;31;30;31;30;31;31;30;31;30;31].

Definition isLeapYear (year : Z) : bool :=
  (Z.land year 3 =? 0) && (negb (Z.rem year 100 =? 0) || (Z.rem year 400 =? 0)).

Definition monthLength (year month : Z) : I32 :=
  let! i := month +! (if isLeapYear year then 12 else 0) in
  aget MONTH_LENGTH i.

Definition previousMonthLength (y m : Z) : I32 :=
  if m >? 0 then let! m' := m -! 1 in monthLength y m' else Some 31.

Definition fieldsToDay (year month dom : Z) : option double :=
  let! y := year -! 1 in
  let! i := month +! (if isLeapYear year then 12 else 0) in
  let! before := aget DAYS_BEFORE i in
  let! julian := 365 *! y +! floorDivide y 4 +! (JULIAN_1_CE -! 3)
    +! floorDivide y 400 -! floorDivide y 100 +! 2 +! before +! dom in
  Some (dsub (of_int julian) (of_int JULIAN_1970_CE)).

(** The output parameters of [dayToFields]. *)
Record Fields := MkFields { year : Z; month : Z; dom : Z; dow : Z; doy : Z }.

(** [uprv_fmod]: exact, with the sign of the dividend *)
Definition uprv_fmod (x y : double) : double :=
  let q := (x / y)%Q in
  Qred (x - inject_Z (Z.quot (Qnum q) (QDen q)) * y)%Q.

Definition dayToFields (day : double) : option Fields :=
  let day := dadd day (of_int (JULIAN_1970_CE - JULIAN_1_CE)) in
  let! '(n400, doy) := floorDivide_int day 146097 in
  let! '(n100, doy) := floorDivide_int (of_int doy) 36524 in
  let! '(n4, doy) := floorDivide_int (of_int doy) 1461 in
  let! '(n1, doy) := floorDivide_int (of_int doy) 365 in
  let! year := 400 *! n400 +! 100 *! n100 +! 4 *! n4 +! n1 in
  let cycle_end := (n100 =? 4) || (n1 =? 4) in
  let doy := if cycle_end then 365 else doy in
  let! year := if cycle_end then Some year else year +! 1 in
  let isLeap := isLeapYear year in
  let! dow := to_int32 (uprv_fmod (dadd day (of_int 1)) (of_int 7)) in
  let! dow := dow +! (if dow <? 0 then UCAL_SUNDAY + 7 else UCAL_SUNDAY) in
  let march1 := if isLeap then 60 else 59 in
  let correction := if doy >=? march1 then (if isLeap then 1 else 2) else 0 in
  let! month := (12 *! (doy +! correction) +! 6) /! 367 in
  let! before := aget DAYS_BEFORE (month + (if isLeap then 12 else 0)) in
  let! dom := doy -! before +! 1 in
  let! doy := doy +! 1 in
  Some (MkFields year month dom dow doy).

(** The fields of a time in milliseconds, and the millisecond in the day. *)
Definition timeToFields (time : double) : option (Fields * Z) :=
  let '(day, millisInDay) := floorDivide_rem time (of_int U_MILLIS_PER_DAY) in
  let! mid := to_int32 millisInDay in
  let! f := dayToFields day in
  Some (f, mid).

Definition dayOfWeek (day : double) : I32 :=
  let! '(_, dow) := floorDivide_int (dadd day (of_int UCAL_THURSDAY)) 7 in
  Some (if dow =? 0 then UCAL_SATURDAY else dow).

Definition dayOfWeekInMonth (year month dom : Z) : I32 :=
  let! weekInMonth := (dom +! 6) /! 7 in
  if weekInMonth =? 4 then
    let! d := dom +! 7 in
    let! len := monthLength year month in
    if d >? len then Some (-1) else Some weekInMonth
  else if weekInMonth =? 5 then Some (-1)
  else Some weekInMonth.

Definition julianDayToMillis (julian : Z) : option double :=
  let! d := julian -! kEpochStartAsJulianDay in
  Some (dmul (of_int d) (of_int U_MILLIS_PER_DAY)).

Definition millisToJulianDay (millis : double) : I32 :=
  to_int32 (dadd (of_int kEpochStartAsJulianDay)
                 (floorDivide_double millis (of_int U_MILLIS_PER_DAY))).

Definition gregorianShift (eyear : Z) : I32 :=
  let! y := eyear -! 1 in
  floorDivide y 400 -! floorDivide y 100 +! 2.
End Grego.

(** ** The calendar as a sequence of days *)

Module Gregorian.

Definition leap (y : Z) : bool := (y mod 4 =? 0) && (negb (y mod 100 =? 0) || (y mod 400 =? 0)).

Definition month_length (y m : Z) : Z :=
  if m =? 1 then if leap y then 29 else 28
  else if bool_decide (m ∈ [3; 5; 8; 10]) then 30 else 31.

Record Date := MkDate { y : Z; m : Z; d : Z }.

Definition valid (t : Date) : Prop :=
  0 <= t.(m) <= 11 /\ 1 <= t.(d) <= month_length t.(y) t.(m).

Definition next (t : Date) : Date :=
  if t.(d) <? month_length t.(y) t.(m) then MkDate t.(y) t.(m) (t.(d) + 1)
  else if t.(m) <? 11 then MkDate t.(y) (t.(m) + 1) 1
  else MkDate (t.(y) + 1) 0 1.

(** Days from 1 January of the year 1 to 1 January of the year [y]. *)
Definition days_before_year (y : Z) : Z :=
  365 * (y - 1) + (y - 1) / 4 - (y - 1) / 100 + (y - 1) / 400.

Definition days_before_month (y m : Z) : Z :=
  nth (Z.to_nat m) [0;31;59;90;120;151;181;212;243;273;304;334] 0 +
  (if leap y && (1 <? m) then 1 else 0).

(** The number of the day, 0 for 1 January 1970. *)
Definition day_number (t : Date) : Z :=
  days_before_year t.(y) + days_before_month t.(y) t.(m) + t.(d) - 1 - 719162.

Definition year_length (y : Z) : Z := if leap y then 366 else 365.

Lemma leap_spec y : leap y = true <-> y mod 4 = 0 /\ (y mod 100 <> 0 \/ y mod 400 = 0).
Proof.
  unfold leap. rewrite andb_true_iff, orb_true_iff, negb_true_iff, Z.eqb_eq, Z.eqb_neq, Z.eqb_eq.
  done.
Qed.

Lemma days_before_year_step y : days_before_year (y + 1) = days_before_year y + year_length y.
Proof.
  unfold days_before_year, year_length. replace (y + 1 - 1) with y by lia.
  destruct (leap y) eqn:E.
  - apply leap_spec in E. dlia.
  - assert (~ (y mod 4 = 0 /\ (y mod 100 <> 0 \/ y mod 400 = 0))) as H
      by (rewrite <- leap_spec, E; done). dlia.
Qed.

(** Case analysis on the month. *)
Ltac month_cases m :=
  let H := fresh in
  assert (H : m = 0 \/ m = 1 \/ m = 2 \/ m = 3 \/ m = 4 \/ m = 5 \/ m = 6 \/ m = 7 \/ m = 8 \/
              m = 9 \/ m = 10 \/ m = 11) by lia;
  destruct H as [->|[->|[->|[->|[->|[->|[->|[->|[->|[->|[->| ->]]]]]]]]]]].

Lemma days_before_month_step y m :
  0 <= m < 11 -> days_before_month y (m + 1) = days_before_month y m + month_length y m.
Proof.
  intros Hm. unfold days_before_month, month_length. destruct (leap y); month_cases m; (reflexivity || lia).
Qed.

Lemma days_before_december y : days_before_month y 11 + month_length y 11 = year_length y.
Proof. unfold days_before_month, year_length. by destruct (leap y). Qed.

Lemma month_length_range y m : 28 <= month_length y m <= 31.
Proof. unfold month_length. repeat case_match; lia. Qed.

(** [day_number] counts the days one by one. *)
Lemma day_number_next t : valid t -> day_number (next t) = day_number t + 1.
Proof.
  intros [Hm Hd]. unfold next, day_number. destruct (Z.ltb_spec (d t) (month_length (y t) (m t))); cbn.
  { lia. }
  destruct (Z.ltb_spec (m t) 11); cbn.
  - rewrite days_before_month_step by lia. lia.
  - rewrite days_before_year_step. pose proof (days_before_december (y t)).
    replace (m t) with 11 in * by lia. change (days_before_month (y t + 1) 0) with
      (0 + (if leap (y t + 1) && (1 <? 0) then 1 else 0)). rewrite andb_false_r. lia.
Qed.

Lemma valid_next t : valid t -> valid (next t).
Proof.
  intros [Hm Hd]. unfold next, valid. destruct (Z.ltb_spec (d t) (month_length (y t) (m t))); cbn [y m d].
  { lia. }
  destruct (Z.ltb_spec (m t) 11); cbn [y m d]; split; try lia.
  - pose proof (month_length_range (y t) (m t + 1)). lia.
  - pose proof (month_length_range (y t + 1) 0). lia.
Qed.
End Gregorian.

(** ** The conversions *)

Module GregoFacts.
Import ClockMath Grego Gregorian.

Lemma isLeapYear_spec y : isLeapYear y = leap y.
Proof.
  unfold isLeapYear, leap. change 3 with (2 ^ 2 - 1). rewrite land_low_mask by lia.
  change (2 ^ 2) with 4. f_equal. f_equal; [f_equal|];
    apply eq_iff_eq_true; rewrite !Z.eqb_eq; dlia.
Qed.

Lemma days_before_spec y m :
  0 <= m <= 11 -> aget DAYS_BEFORE (m + (if leap y then 12 else 0)) = Some (days_before_month y m).
Proof.
  intros. unfold days_before_month. destruct (leap y); month_cases m; reflexivity.
Qed.

Lemma monthLength_spec y m : 0 <= m <= 11 -> monthLength y m = Some (month_length y m).
Proof.
  intros Hm. unfold monthLength, month_length. rewrite isLeapYear_spec.
  destruct (leap y); month_cases m; reflexivity.
Qed.

Definition year_ok (y : Z) : Prop := -5800000 <= y <= 5800000.

(** The day number of a date, computed without overflow. *)
Lemma fieldsToDay_spec y m d :
  year_ok y -> 0 <= m <= 11 -> -1000000 <= d <= 1000000 ->
  fieldsToDay y m d = Some (of_int (day_number (MkDate y m d))).
Proof.
  unfold year_ok. intros Hy Hm Hd. unfold fieldsToDay. rewrite isLeapYear_spec.
  icalc. replace (iadd (Some m) _) with (Some (m + (if leap y then 12 else 0)))
    by (symmetry; destruct (leap y); apply iadd_ok; ibound).
  cbn [obind]. rewrite days_before_spec by done. cbn [obind].
  assert (Hb : 0 <= days_before_month y m <= 335).
  { unfold days_before_month. destruct (leap y); month_cases m; split; vm_compute; discriminate. }
  rewrite !(floorDivide_ok (y - 1)) by (done || ibound).
  unfold JULIAN_1_CE. icalc. f_equal.
  rewrite dsub_int by (unfold JULIAN_1970_CE; dlia). unfold of_int, inject_Z.
  f_equal. unfold day_number, days_before_year, JULIAN_1970_CE; cbn [Gregorian.y Gregorian.m Gregorian.d]. lia.
Qed.

(** The multiple-radix representation of a day finds its year. *)
Lemma cycles_year D a r b r2 c r3 e r4 :
  a = D / 146097 -> r = D mod 146097 -> b = r / 36524 -> r2 = r mod 36524 ->
  c = r2 / 1461 -> r3 = r2 mod 1461 -> e = r3 / 365 -> r4 = r3 mod 365 ->
  let last := (b =? 4) || (e =? 4) in
  let y := 400 * a + 100 * b + 4 * c + e + (if last then 0 else 1) in
  let doy := if last then 365 else r4 in
  days_before_year y + doy = D /\ 0 <= doy < year_length y.
Proof.
  intros ? ? ? ? ? ? ? ? last yr doy.
  assert (H7 : 0 <= b <= 4) by dlia. assert (H8 : 0 <= c <= 24) by dlia.
  assert (H9 : 0 <= e <= 4) by dlia.
  assert (H10 : D = 146097 * a + 36524 * b + 1461 * c + 365 * e + r4) by dlia.
  assert (H11 : 0 <= r4 < 365) by dlia.
  assert (H12 : b = 4 -> c = 0 /\ e = 0 /\ r4 = 0) by dlia.
  assert (H13 : e = 4 -> r4 = 0) by dlia.
  assert (H14 : c = 24 -> e = 4 -> False) by dlia.
  subst yr doy last. unfold year_length, days_before_year.
  assert (Hl : forall z, leap z = true <-> z mod 4 = 0 /\ (z mod 100 <> 0 \/ z mod 400 = 0))
    by apply leap_spec.
  clear - H7 H8 H9 H10 H11 H12 H13 H14 Hl.
  destruct (Z.eqb_spec b 4); cbn [orb]; [|destruct (Z.eqb_spec e 4)].
  - assert (leap (400 * a + 100 * b + 4 * c + e + 0) = true) as ->; [apply Hl; dlia|dlia].
  - assert (leap (400 * a + 100 * b + 4 * c + e + 0) = true) as ->; [apply Hl; dlia|dlia].
  - split; [dlia|]. destruct (leap _); lia.
Qed.

(** The month of a zero-based day of the year, from the code's formula. *)
Definition month_of (isLeap : bool) (doy : Z) : Z :=
  let correction := if doy >=? (if isLeap then 60 else 59) then (if isLeap then 1 else 2) else 0 in
  (12 * (doy + correction) + 6) / 367.

Lemma month_of_spec y doy :
  0 <= doy < year_length y ->
  let m := month_of (leap y) doy in
  0 <= m <= 11 /\
  days_before_month y m <= doy < days_before_month y m + month_length y m.
Proof.
  intros Hd m. set (check := fun doy => let m := month_of (leap y) doy in
    (0 <=? m) && (m <=? 11) && (days_before_month y m <=? doy) &&
    (doy <? days_before_month y m + month_length y m)).
  assert (H : all_below (year_length y) check = true).
  { unfold check, year_length, days_before_month, month_length. destruct (leap y); vm_compute; done. }
  pose proof (all_below_spec _ _ H doy ltac:(lia)) as Hc. unfold check in Hc. fold m in Hc.
  rewrite !andb_true_iff, !Z.leb_le, Z.ltb_lt in Hc. lia.
Qed.

Lemma uprv_fmod_int x k :
  0 < k -> uprv_fmod (of_int x) (of_int k) = of_int (Z.rem x k).
Proof.
  intros Hk. unfold uprv_fmod, of_int. rewrite <- (Qred_int (Z.rem x k)). apply Qred_complete.
  assert (Hq : Z.quot (Qnum (inject_Z x / inject_Z k)) (QDen (inject_Z x / inject_Z k)) = Z.quot x k).
  { destruct k as [|p|p]; [lia| |lia]. cbn. by rewrite Z.mul_1_r. }
  rewrite Hq, <- inject_Z_mult. unfold Qminus. rewrite <- inject_Z_opp, <- inject_Z_plus.
  by replace (x + _) with (Z.rem x k) by (pose proof (Z.quot_rem' x k); lia).
Qed.

(** The day of the week, 1 for Sunday: 1 January 1970 is a Thursday. *)
Definition weekday (day : Z) : Z := (day + 4) mod 7 + 1.

Lemma dow_spec day :
  let r := Z.rem (day + 719162 + 1) 7 in
  r + (if r <? 0 then UCAL_SUNDAY + 7 else UCAL_SUNDAY) = weekday day.
Proof. cbn zeta. unfold weekday, UCAL_SUNDAY. case_match eqn:E; dlia. Qed.

(** [dayToFields] finds the date of every day of about 1.9 billion years. *)
Lemma dayToFields_spec day :
  Z.abs day <= 700000000000 ->
  exists f,
    dayToFields (of_int day) = Some f /\
    let t := MkDate f.(year) f.(month) f.(dom) in
    valid t /\ day_number t = day /\ f.(dow) = weekday day /\
    f.(doy) = day - day_number (MkDate f.(year) 0 1) + 1.
Proof.
  intros Hday. unfold dayToFields, JULIAN_1970_CE, JULIAN_1_CE.
  set (D := day + 719162). rewrite dadd_int by lia. replace (day + _) with D by (unfold D; lia).
  rewrite floorDivide_int_ok by dlia. cbn [obind].
  rewrite floorDivide_int_ok by dlia. cbn [obind].
  rewrite floorDivide_int_ok by dlia. cbn [obind].
  rewrite floorDivide_int_ok by dlia. cbn [obind].
  pose proof (cycles_year D _ _ _ _ _ _ _ _ eq_refl eq_refl eq_refl eq_refl eq_refl eq_refl eq_refl eq_refl)
    as [HD Hr].
  set (a := D / 146097) in *. set (r := D mod 146097) in *. set (b := r / 36524) in *.
  set (r2 := r mod 36524) in *. set (c := r2 / 1461) in *. set (r3 := r2 mod 1461) in *.
  set (e := r3 / 365) in *. set (r4 := r3 mod 365) in *.
  assert (Ha : -5000000 <= a <= 5000000) by (unfold a, D; dlia).
  assert (Hb : 0 <= b <= 4) by (unfold b, r; dlia). assert (Hc : 0 <= c <= 24) by (unfold c, r2; dlia).
  assert (He : 0 <= e <= 4) by (unfold e, r3; dlia).
  icalc.
  set (last := (b =? 4) || (e =? 4)) in *. set (doy0 := if last then 365 else r4) in *.
  set (yr := 400 * a + 100 * b + 4 * c + e + (if last then 0 else 1)) in *.
  replace (if last then _ else _) with (Some yr)
    by (unfold yr; destruct last; f_equal; lia).
  cbn [obind]. rewrite isLeapYear_spec, dadd_int by lia.
  rewrite uprv_fmod_int, to_int32_int by (lia || ibound). cbn [obind].
  replace (iadd (Some _) _) with (Some (weekday day)).
  2:{ rewrite <- dow_spec. unfold UCAL_SUNDAY. fold D. case_match; symmetry; apply iadd_ok; ibound. }
  cbn [obind]. clearbody yr doy0. clear - HD Hr Hday.
  pose proof (month_of_spec yr doy0 Hr) as [Hm Hb]. pose proof (month_length_range yr (month_of (leap yr) doy0)).
  assert (doy0 < 366) by (unfold year_length in Hr; destruct (leap yr); lia).
  unfold month_of in Hm, Hb, H. cbv zeta in Hm, Hb, H. set (corr := if doy0 >=? _ then _ else _) in *.
  assert (0 <= corr <= 2) by (unfold corr; repeat case_match; lia).
  icalc. set (mo := (12 * (doy0 + corr) + 6) / 367) in *.
  rewrite days_before_spec by done. icalc.
  eexists. split; [done|]. cbn [year month dom dow doy]. unfold valid, day_number. cbn [y m d].
  assert (days_before_month yr 0 = 0) as -> by (unfold days_before_month; by rewrite andb_false_r).
  repeat split; lia.
Qed.
End GregoFacts.

(** ** What the conversions promise *)

Module GregoProperties.
Import ClockMath Grego Gregorian GregoFacts.

Lemma days_before_month_bounds y m :
  0 <= m <= 11 -> 0 <= days_before_month y m /\ days_before_month y m + month_length y m <= year_length y.
Proof.
  intros Hm. unfold days_before_month, month_length, year_length.
  destruct (leap y); month_cases m; split; vm_compute; discriminate.
Qed.

Lemma days_before_month_later y m m' :
  0 <= m -> m < m' <= 11 -> days_before_month y m + month_length y m <= days_before_month y m'.
Proof.
  intros Hm Hm'. assert (H : forall k, 0 <= k -> m + 1 + k <= 11 ->
    days_before_month y m + month_length y m <= days_before_month y (m + 1 + k)).
  { apply (natlike_ind (fun k => m + 1 + k <= 11 -> _)); [|intros k Hk IH Hle].
    - intros _. rewrite Z.add_0_r, days_before_month_step by lia. lia.
    - replace (m + 1 + Z.succ k) with ((m + 1 + k) + 1) by lia.
      rewrite (days_before_month_step y (m + 1 + k)) by lia.
      pose proof (month_length_range y (m + 1 + k)). specialize (IH ltac:(lia)). lia. }
  specialize (H (m' - m - 1)). replace (m + 1 + (m' - m - 1)) with m' in H by lia. apply H; lia.
Qed.

Lemma days_before_year_later y y' :
  y < y' -> days_before_year y + year_length y <= days_before_year y'.
Proof. intros H. rewrite <- days_before_year_step. unfold days_before_year. dlia. Qed.

(** Different dates are different days. *)
Lemma day_number_inj t t' : valid t -> valid t' -> day_number t = day_number t' -> t = t'.
Proof.
  destruct t as [y m d], t' as [y' m' d']. unfold valid, day_number. cbn [Gregorian.y Gregorian.m Gregorian.d].
  intros [Hm Hd] [Hm' Hd'] Heq.
  pose proof (days_before_month_bounds y m Hm). pose proof (days_before_month_bounds y' m' Hm').
  assert (y = y') as <-.
  { destruct (Z.lt_trichotomy y y') as [Hlt|[|Hlt]]; [|done|];
      apply days_before_year_later in Hlt; lia. }
  assert (m = m') as <-.
  { destruct (Z.lt_trichotomy m m') as [Hlt|[|Hlt]]; [|done|].
    - pose proof (days_before_month_later y m m' ltac:(lia) ltac:(lia)). lia.
    - pose proof (days_before_month_later y m' m ltac:(lia) ltac:(lia)). lia. }
  f_equal. lia.
Qed.

(** The dates in range fit the range of [dayToFields]. *)
Lemma day_number_range y m d : year_ok y -> valid (MkDate y m d) -> Z.abs (day_number (MkDate y m d)) <= 2200000000.
Proof.
  unfold year_ok, valid, day_number. cbn [Gregorian.y Gregorian.m Gregorian.d]. intros Hy [Hm Hd].
  pose proof (days_before_month_bounds y m Hm). unfold year_length in *.
  unfold days_before_year. destruct (leap y); dlia.
Qed.

(** C31: The conversions between dates of the proleptic Gregorian calendar and
    days from 1 January 1970 are inverse to each other and free of overflow for
    the years up to 5.8 million; the day after a date is the next date of the
    calendar, and day 0 is Thursday, 1 January 1970. *)
Theorem grego_roundtrip :
  (forall t, year_ok t.(y) -> valid t ->
     exists day f, fieldsToDay t.(y) t.(m) t.(d) = Some (of_int day) /\
       dayToFields (of_int day) = Some f /\
       t = MkDate f.(year) f.(month) f.(dom) /\ f.(dow) = weekday day /\
       (year_ok (next t).(y) ->
        fieldsToDay (next t).(y) (next t).(m) (next t).(d) = Some (of_int (day + 1)))) /\
  (forall day, Z.abs day <= 2100000000 ->
     exists f, dayToFields (of_int day) = Some f /\
       valid (MkDate f.(year) f.(month) f.(dom)) /\
       fieldsToDay f.(year) f.(month) f.(dom) = Some (of_int day) /\
       1 <= f.(doy) /\ fieldsToDay f.(year) 0 f.(doy) = Some (of_int day)) /\
  fieldsToDay 1970 0 1 = Some (of_int 0).
Proof.
  split; [|split; [|reflexivity]].
  - intros t Hy Hv. exists (day_number t). destruct t as [y m d]. cbn [Gregorian.y Gregorian.m Gregorian.d] in *.
    pose proof (day_number_range y m d Hy Hv).
    destruct (dayToFields_spec (day_number (MkDate y m d)) ltac:(lia)) as (f & Hf & Hv' & Heq & Hdow & _).
    exists f. pose proof (month_length_range y m).
    assert (Hr : forall y m d, valid (MkDate y m d) -> 0 <= m <= 11 /\ 1 <= d <= 31).
    { intros y' m' d' [H1 H2]. cbn in *. pose proof (month_length_range y' m'). lia. }
    pose proof (Hr _ _ _ Hv).
    split; [apply fieldsToDay_spec; [done|lia|lia]|]. split; [done|].
    split; [by apply day_number_inj|]. split; [done|]. intros Hy'.
    rewrite <- day_number_next by done. pose proof (valid_next _ Hv) as Hvn.
    destruct (next _) as [y' m' d']. cbn [Gregorian.y Gregorian.m Gregorian.d] in *.
    pose proof (Hr _ _ _ Hvn). apply fieldsToDay_spec; [done|lia|lia].
  - intros day Hday. destruct (dayToFields_spec day ltac:(lia)) as (f & Hf & Hv & Heq & _ & Hdoy).
    exists f. split; [done|]. split; [done|].
    assert (year_ok (year f)) as Hy.
    { destruct Hv as [Hm Hd]. cbn in Hm, Hd. pose proof (days_before_month_bounds (year f) (month f) Hm).
      unfold day_number in Heq. cbn in Heq. unfold year_ok, days_before_year, year_length in *.
      destruct (leap (year f)); dlia. }
    destruct Hv as [Hm Hd]. cbn in Hm, Hd. pose proof (month_length_range (year f) (month f)).
    pose proof (days_before_month_bounds (year f) (month f) Hm) as Hb.
    assert (Hdoy' : doy f = days_before_month (year f) (month f) + dom f).
    { rewrite Hdoy, <- Heq. unfold day_number. cbn [Gregorian.y Gregorian.m Gregorian.d].
      change (days_before_month (year f) 0) with (0 + (if leap (year f) && (1 <? 0) then 1 else 0)).
      rewrite andb_false_r. lia. }
    assert (year_length (year f) <= 366) by (unfold year_length; case_match; lia).
    split; [rewrite fieldsToDay_spec by (done || lia); by rewrite Heq|]. split; [lia|].
    rewrite fieldsToDay_spec by (done || lia). do 2 f_equal. rewrite <- Heq.
    unfold day_number. cbn [Gregorian.y Gregorian.m Gregorian.d].
    change (days_before_month (year f) 0) with (0 + (if leap (year f) && (1 <? 0) then 1 else 0)).
    rewrite andb_false_r. lia.
Qed.

(** [timeToFields] splits every time of a whole number of milliseconds
    (within 140,000 years of 1970) into a date, the day of its week and the
    millisecond of the day. *)
Theorem timeToFields_correct time :
  Z.abs time < 2 ^ 52 ->
  exists f mid, timeToFields (of_int time) = Some (f, mid) /\
    let t := MkDate f.(year) f.(month) f.(dom) in
    valid t /\ 0 <= mid < U_MILLIS_PER_DAY /\ time = day_number t * U_MILLIS_PER_DAY + mid /\
    f.(dow) = weekday (day_number t) /\ dayOfWeek (of_int (day_number t)) = Some f.(dow).
Proof.
  intros Ht. unfold timeToFields, U_MILLIS_PER_DAY. rewrite floorDivide_rem_ok by (done || (unfold INT32_MAX; lia)).
  pose proof (Z.mod_pos_bound time 86400000 ltac:(lia)). pose proof (mul_div_abs time 86400000 ltac:(lia)).
  assert (Z.abs (time / 86400000) < 60000000) by dlia.
  rewrite to_int32_int by ibound. cbn [obind].
  destruct (dayToFields_spec (time / 86400000) ltac:(lia)) as (f & Hf & Hv & Heq & Hdow & _).
  rewrite Hf. cbn [obind]. exists f, (time mod 86400000). split; [done|]. cbn zeta. rewrite Heq.
  split; [done|]. split; [done|]. split; [dlia|]. split; [done|].
  unfold dayOfWeek. rewrite dadd_int by (unfold UCAL_THURSDAY; lia).
  rewrite floorDivide_int_ok by (unfold UCAL_THURSDAY, INT32_MAX; try lia; ibound). cbn [obind].
  rewrite Hdow. f_equal. unfold weekday, UCAL_THURSDAY, UCAL_SATURDAY. case_match eqn:E; dlia.
Qed.

Lemma timeToFields_correct_witness :
  Z.abs (-1) < 2 ^ 52 /\ exists f mid, timeToFields (of_int (-1)) = Some (f, mid) /\
    let t := MkDate f.(year) f.(month) f.(dom) in
    valid t /\ 0 <= mid < U_MILLIS_PER_DAY /\ -1 = day_number t * U_MILLIS_PER_DAY + mid /\
    f.(dow) = weekday (day_number t) /\ dayOfWeek (of_int (day_number t)) = Some f.(dow).
Proof. split; [lia|apply (timeToFields_correct (-1)); lia]. Defined.

(** [dayOfWeekInMonth] counts how often the weekday of a date has occurred
    in its month so far, and is -1 for the last occurrence from the fourth on. *)
Theorem dayOfWeekInMonth_correct t :
  valid t ->
  let n := Z.of_nat (length (filter (fun k => weekday (day_number (MkDate t.(y) t.(m) k)) =
                                              weekday (day_number t)) (seqZ 1 t.(d)))) in
  dayOfWeekInMonth t.(y) t.(m) t.(d) =
    Some (if (4 <=? n) && (month_length t.(y) t.(m) <? t.(d) + 7) then -1 else n).
Proof.
  destruct t as [y m d]. unfold valid. cbn [Gregorian.y Gregorian.m Gregorian.d]. intros [Hm Hd].
  pose proof (month_length_range y m) as Hl. cbn zeta.
  assert (Hn : forall N, day_number (MkDate y m d) = N + d ->
    Z.of_nat (length (filter (fun k => weekday (N + k) = weekday (N + d)) (seqZ 1 d))) = (d + 6) / 7).
  { intros N _. rewrite (list_filter_iff _ (fun k => (d - k) mod 7 = 0)).
    2:{ intros k. unfold weekday. dlia. }
    clear - Hd Hl. assert (Hd' : 0 <= d < 32) by lia. clear Hd Hl.
    set (check := fun d => Z.of_nat (length (filter (fun k => (d - k) mod 7 = 0) (seqZ 1 d))) =? (d + 6) / 7).
    assert (H : all_below 32 check = true) by (vm_compute; reflexivity).
    apply (all_below_spec 32 check H d) in Hd'. by apply Z.eqb_eq. }
  set (N := days_before_year y + days_before_month y m - 1 - 719162) in *.
  assert (HN : forall k, day_number (MkDate y m k) = N + k)
    by (intros k; unfold day_number, N; cbn [Gregorian.y Gregorian.m Gregorian.d]; lia).
  rewrite (list_filter_iff _ (fun k => weekday (N + k) = weekday (N + d))) by (intros k; by rewrite !HN).
  rewrite (Hn N) by apply HN. unfold dayOfWeekInMonth. icalc.
  assert (1 <= (d + 6) / 7 <= 5) by dlia.
  rewrite monthLength_spec by done. cbn [obind].
  destruct (Z.eqb_spec ((d + 6) / 7) 4) as [E|E]; [|destruct (Z.eqb_spec ((d + 6) / 7) 5) as [E'|E']].
  - rewrite E. cbn [Z.leb Z.compare Pos.compare Pos.compare_cont andb]. rewrite Z.gtb_ltb. by destruct (_ <? _).
  - rewrite E'. cbn [Z.leb Z.compare Pos.compare Pos.compare_cont andb]. rewrite (proj2 (Z.ltb_lt _ _)) by dlia. done.
  - rewrite (proj2 (Z.leb_gt 4 _)) by lia. done.
Qed.

Lemma dayOfWeekInMonth_correct_witness :
  valid (MkDate 2016 1 29) /\
  let t := MkDate 2016 1 29 in
  let n := Z.of_nat (length (filter (fun k => weekday (day_number (MkDate t.(y) t.(m) k)) =
                                              weekday (day_number t)) (seqZ 1 t.(d)))) in
  dayOfWeekInMonth t.(y) t.(m) t.(d) =
    Some (if (4 <=? n) && (month_length t.(y) t.(m) <? t.(d) + 7) then -1 else n).
Proof.
  split; [|apply (dayOfWeekInMonth_correct (MkDate 2016 1 29))]; (split; vm_compute; split; discriminate).
Defined.
End GregoProperties.
