(* ===== verification/Calendar.v ===== *)
(** * The fields of a calendar and their time stamps (i18n/calendar.cpp, unicode/calendar.h)

    A [Calendar] keeps the value of each field and a stamp that says when it
    was set: never, by the library, or by the user, in which case later stamps
    are newer.  This file has the state, the operations on single fields, the
    renumbering of stamps and the choice of the fields that define the date.
    [fIsSet], which the source marks for removal, repeats [fStamp != kUnset]. *)
From S2P Require Import Prelude Int32 Double.
Local Open Scope Z_scope.

(** ** Field numbers (unicode/ucal.h) *)

Definition UCAL_ERA : Z := 0.
Definition UCAL_YEAR : Z := 1.
Definition UCAL_MONTH : Z := 2.
Definition UCAL_WEEK_OF_YEAR : Z := 3.
Definition UCAL_WEEK_OF_MONTH : Z := 4.
Definition UCAL_DATE : Z := 5.
Definition UCAL_DAY_OF_MONTH : Z := UCAL_DATE.
Definition UCAL_DAY_OF_YEAR : Z := 6.
Definition UCAL_DAY_OF_WEEK : Z := 7.
Definition UCAL_DAY_OF_WEEK_IN_MONTH : Z := 8.
Definition UCAL_AM_PM : Z := 9.
Definition UCAL_HOUR : Z := 10.
Definition UCAL_HOUR_OF_DAY : Z := 11.
Definition UCAL_MINUTE : Z := 12.
Definition UCAL_SECOND : Z := 13.
Definition UCAL_MILLISECOND : Z := 14.
Definition UCAL_ZONE_OFFSET : Z := 15.
Definition UCAL_DST_OFFSET : Z := 16.
Definition UCAL_YEAR_WOY : Z := 17.
Definition UCAL_DOW_LOCAL : Z := 18.
Definition UCAL_EXTENDED_YEAR : Z := 19.
Definition UCAL_JULIAN_DAY : Z := 20.
Definition UCAL_MILLISECONDS_IN_DAY : Z := 21.
Definition UCAL_IS_LEAP_MONTH : Z := 22.
Definition UCAL_TIME_SEPARATOR : Z := 23.
Definition UCAL_FIELD_COUNT : Z := 24.

(** The field numbers, in order. *)
Definition fields : list Z := seqZ 0 UCAL_FIELD_COUNT.

Definition UCAL_SUNDAY : Z := 1.
Definition UCAL_SATURDAY : Z := 7.

Definition kUnset : Z := 0.
Definition kInternallySet : Z := 1.
Definition kMinimumUserStamp : Z := 2.
Definition STAMP_MAX : Z := 10000.

(** An array indexed by field. *)
Definition farray : Type := Z -> Z.
Definition fset (a : farray) (field value : Z) : farray :=
  fun i => if i =? field then value else a i.

Record Calendar := mkCalendar {
  fFields : farray;
  fStamp : farray;
  fNextStamp : Z;
  fIsTimeSet : bool;
  fAreFieldsSet : bool;
  fAreAllFieldsSet : bool;
  fAreFieldsVirtuallySet : bool;
  fTime : double;
  fLenient : bool;
  fFirstDayOfWeek : Z;
  fMinimalDaysInFirstWeek : Z;
  fGregorianYear : Z;
  fGregorianMonth : Z;
  fGregorianDayOfMonth : Z;
  fGregorianDayOfYear : Z
}.

(** Assignments to members. *)
Definition with_fields (c : Calendar) (f : farray) : Calendar :=
  mkCalendar f c.(fStamp) c.(fNextStamp) c.(fIsTimeSet) c.(fAreFieldsSet) c.(fAreAllFieldsSet)
    c.(fAreFieldsVirtuallySet) c.(fTime) c.(fLenient) c.(fFirstDayOfWeek)
    c.(fMinimalDaysInFirstWeek) c.(fGregorianYear) c.(fGregorianMonth) c.(fGregorianDayOfMonth)
    c.(fGregorianDayOfYear).
Definition with_stamps (c : Calendar) (s : farray) (next : Z) : Calendar :=
  mkCalendar c.(fFields) s next c.(fIsTimeSet) c.(fAreFieldsSet) c.(fAreAllFieldsSet)
    c.(fAreFieldsVirtuallySet) c.(fTime) c.(fLenient) c.(fFirstDayOfWeek)
    c.(fMinimalDaysInFirstWeek) c.(fGregorianYear) c.(fGregorianMonth) c.(fGregorianDayOfMonth)
    c.(fGregorianDayOfYear).
(** [isTimeSet], [areFieldsSet], [areAllFieldsSet], [areFieldsVirtuallySet] *)
Definition with_flags (c : Calendar) (t f a v : bool) : Calendar :=
  mkCalendar c.(fFields) c.(fStamp) c.(fNextStamp) t f a v
    c.(fTime) c.(fLenient) c.(fFirstDayOfWeek)
    c.(fMinimalDaysInFirstWeek) c.(fGregorianYear) c.(fGregorianMonth) c.(fGregorianDayOfMonth)
    c.(fGregorianDayOfYear).
Definition with_time (c : Calendar) (t : double) : Calendar :=
  mkCalendar c.(fFields) c.(fStamp) c.(fNextStamp) c.(fIsTimeSet) c.(fAreFieldsSet)
    c.(fAreAllFieldsSet) c.(fAreFieldsVirtuallySet) t c.(fLenient) c.(fFirstDayOfWeek)
    c.(fMinimalDaysInFirstWeek) c.(fGregorianYear) c.(fGregorianMonth) c.(fGregorianDayOfMonth)
    c.(fGregorianDayOfYear).
Definition with_week (c : Calendar) (first minimal : Z) : Calendar :=
  mkCalendar c.(fFields) c.(fStamp) c.(fNextStamp) c.(fIsTimeSet) c.(fAreFieldsSet)
    c.(fAreAllFieldsSet) c.(fAreFieldsVirtuallySet) c.(fTime) c.(fLenient) first minimal
    c.(fGregorianYear) c.(fGregorianMonth) c.(fGregorianDayOfMonth) c.(fGregorianDayOfYear).
Definition with_gregorian (c : Calendar) (year month dom doy : Z) : Calendar :=
  mkCalendar c.(fFields) c.(fStamp) c.(fNextStamp) c.(fIsTimeSet) c.(fAreFieldsSet)
    c.(fAreAllFieldsSet) c.(fAreFieldsVirtuallySet) c.(fTime) c.(fLenient) c.(fFirstDayOfWeek)
    c.(fMinimalDaysInFirstWeek) year month dom doy.

(** [fFields[field] = value] *)
Definition set_field (c : Calendar) (field value : Z) : Calendar :=
  with_fields c (fset c.(fFields) field value).

Definition internalGet (c : Calendar) (field : Z) : Z := c.(fFields) field.
Definition internalGet_default (c : Calendar) (field defaultValue : Z) : Z :=
  if c.(fStamp) field >? kUnset then c.(fFields) field else defaultValue.

Definition internalSet (c : Calendar) (field value : Z) : Calendar :=
  with_stamps (set_field c field value) (fset c.(fStamp) field kInternallySet) c.(fNextStamp).

Definition isSet (c : Calendar) (field : Z) : bool :=
  c.(fAreFieldsVirtuallySet) || negb (c.(fStamp) field =? kUnset).

(** ** Stamps *)

(** [for (i = first; i <= last; ++i)] *)
Definition newestStamp (c : Calendar) (first last bestStampSoFar : Z) : Z :=
  foldl (fun best i => if c.(fStamp) i >? best then c.(fStamp) i else best) bestStampSoFar
    (seqZ first (last - first + 1)).

(** The field with the smallest stamp above [next] and below [STAMP_MAX], or -1. *)
Definition next_in_order (stamp : farray) (next : Z) : Z :=
  snd (foldl (fun '(currentValue, index) i =>
    if (stamp i >? next) && (stamp i <? currentValue) then (stamp i, i) else (currentValue, index))
    (STAMP_MAX, -1) fields).

Fixpoint recalculate_loop (n : nat) (stamp : farray) (next : Z) : farray * Z :=
  match n with
  | O => (stamp, next)
  | S n' =>
      let index := next_in_order stamp next in
      if index >=? 0 then recalculate_loop n' (fset stamp index (next + 1)) (next + 1)
      else (stamp, next)
  end.

Definition recalculateStamp (c : Calendar) : Calendar :=
  let '(stamp, next) := recalculate_loop (Z.to_nat UCAL_FIELD_COUNT) c.(fStamp) 1 in
  with_stamps c stamp (next + 1).

(** The part of [set] after the fields have been computed. *)
Definition set_stamped (c : Calendar) (field value : Z) : Calendar :=
  let c := set_field c field value in
  let c := if c.(fNextStamp) =? STAMP_MAX then recalculateStamp c else c in
  let c := with_stamps c (fset c.(fStamp) field c.(fNextStamp)) (c.(fNextStamp) + 1) in
  with_flags c false false c.(fAreAllFieldsSet) false.

Definition clear (c : Calendar) : Calendar :=
  with_flags (with_stamps (with_fields c (fun _ => 0)) (fun _ => kUnset) c.(fNextStamp))
    false false false false.

(** The part of [clear(field)] after the fields have been computed. *)
Definition clear_stamped (c : Calendar) (field : Z) : Calendar :=
  with_flags (with_stamps (set_field c field 0) (fset c.(fStamp) field kUnset) c.(fNextStamp))
    false false false false.

(** ** Week data *)

Definition setFirstDayOfWeek (c : Calendar) (value : Z) : Calendar :=
  if negb (c.(fFirstDayOfWeek) =? value) && (value >=? UCAL_SUNDAY) && (value <=? UCAL_SATURDAY)
  then
    let c := with_week c value c.(fMinimalDaysInFirstWeek) in
    with_flags c c.(fIsTimeSet) false c.(fAreAllFieldsSet) c.(fAreFieldsVirtuallySet)
  else c.

(** [value] is a [uint8_t]. *)
Definition setMinimalDaysInFirstWeek (c : Calendar) (value : Z) : Calendar :=
  let value := if value <? 1 then 1 else if value >? 7 then 7 else value in
  if negb (c.(fMinimalDaysInFirstWeek) =? value) then
    let c := with_week c c.(fFirstDayOfWeek) value in
    with_flags c c.(fIsTimeSet) false c.(fAreAllFieldsSet) c.(fAreFieldsVirtuallySet)
  else c.

(** ** Field resolution *)

Definition newerField (c : Calendar) (defaultField alternateField : Z) : Z :=
  if c.(fStamp) alternateField >? c.(fStamp) defaultField then alternateField else defaultField.

Definition kResolveRemap : Z := 32.

(** A precedence table: groups of lines of fields.  The lists end where the
    arrays of the source have [kResolveSTOP]. *)
Definition UFieldResolutionTable : Type := list (list (list Z)).

Definition kDatePrecedence : UFieldResolutionTable :=
  [[[UCAL_DAY_OF_MONTH];
    [UCAL_WEEK_OF_YEAR; UCAL_DAY_OF_WEEK];
    [UCAL_WEEK_OF_MONTH; UCAL_DAY_OF_WEEK];
    [UCAL_DAY_OF_WEEK_IN_MONTH; UCAL_DAY_OF_WEEK];
    [UCAL_WEEK_OF_YEAR; UCAL_DOW_LOCAL];
    [UCAL_WEEK_OF_MONTH; UCAL_DOW_LOCAL];
    [UCAL_DAY_OF_WEEK_IN_MONTH; UCAL_DOW_LOCAL];
    [UCAL_DAY_OF_YEAR];
    [Z.lor kResolveRemap UCAL_DAY_OF_MONTH; UCAL_YEAR];
    [Z.lor kResolveRemap UCAL_WEEK_OF_YEAR; UCAL_YEAR_WOY]];
   [[UCAL_WEEK_OF_YEAR];
    [UCAL_WEEK_OF_MONTH];
    [UCAL_DAY_OF_WEEK_IN_MONTH];
    [Z.lor kResolveRemap UCAL_DAY_OF_WEEK_IN_MONTH; UCAL_DAY_OF_WEEK];
    [Z.lor kResolveRemap UCAL_DAY_OF_WEEK_IN_MONTH; UCAL_DOW_LOCAL]]].

Definition kDOWPrecedence : UFieldResolutionTable := [[[UCAL_DAY_OF_WEEK]; [UCAL_DOW_LOCAL]]].

Definition kYearPrecedence : UFieldResolutionTable :=
  [[[UCAL_YEAR]; [UCAL_EXTENDED_YEAR]; [UCAL_YEAR_WOY; UCAL_WEEK_OF_YEAR]]].

(** The newest stamp of the fields of a line; [None] if one of them is unset. *)
Fixpoint line_stamp (stamp : farray) (line : list Z) (lineStamp : Z) : option Z :=
  match line with
  | [] => Some lineStamp
  | f :: line' =>
      let s := stamp f in
      if s =? kUnset then None
      else line_stamp stamp line' (if s >? lineStamp then s else lineStamp)
  end.

Fixpoint resolve_lines (stamp : farray) (lines : list (list Z)) (bestField bestStamp : Z) : Z :=
  match lines with
  | [] => bestField
  | line :: lines' =>
      match line with
      | [] => bestField
      | first :: rest =>
          match line_stamp stamp (if first >=? kResolveRemap then rest else line) kUnset with
          | None => resolve_lines stamp lines' bestField bestStamp
          | Some lineStamp =>
              if lineStamp >? bestStamp then
                let '(tempBestField, bestField) :=
                  if first >=? kResolveRemap then
                    let t := Z.land first (kResolveRemap - 1) in
                    (t, if negb (t =? UCAL_DATE) || (stamp UCAL_WEEK_OF_MONTH <? stamp t)
                        then t else bestField)
                  else (first, first) in
                resolve_lines stamp lines' bestField
                  (if bestField =? tempBestField then lineStamp else bestStamp)
              else resolve_lines stamp lines' bestField bestStamp
          end
      end
  end.

Fixpoint resolve_groups (stamp : farray) (groups : UFieldResolutionTable) (bestField : Z) : Z :=
  match groups with
  | [] => bestField
  | lines :: groups' =>
      if bestField =? UCAL_FIELD_COUNT
      then resolve_groups stamp groups' (resolve_lines stamp lines bestField kUnset)
      else bestField
  end.

Definition resolveFields (c : Calendar) (precedenceTable : UFieldResolutionTable) : Z :=
  resolve_groups c.(fStamp) precedenceTable UCAL_FIELD_COUNT.

(** ** The time of the day *)

Definition computeMillisInDay (c : Calendar) : I32 :=
  let hourOfDayStamp := c.(fStamp) UCAL_HOUR_OF_DAY in
  let hourStamp := if c.(fStamp) UCAL_HOUR >? c.(fStamp) UCAL_AM_PM
                   then c.(fStamp) UCAL_HOUR else c.(fStamp) UCAL_AM_PM in
  let bestStamp := if hourStamp >? hourOfDayStamp then hourStamp else hourOfDayStamp in
  let! hours :=
    (if negb (bestStamp =? kUnset) then
       if bestStamp =? hourOfDayStamp then 0 +! internalGet c UCAL_HOUR_OF_DAY
       else (0 +! internalGet c UCAL_HOUR) +! 12 *! internalGet c UCAL_AM_PM
     else Some 0) in
  ((hours *! 60 +! internalGet c UCAL_MINUTE) *! 60 +! internalGet c UCAL_SECOND) *! 1000
    +! internalGet c UCAL_MILLISECOND.

(** ** Facts about stamps *)

(** What every history of the operations above keeps: the user's stamps are
    different numbers below the next one. *)
Definition stamps_ok (c : Calendar) : Prop :=
  kMinimumUserStamp <= c.(fNextStamp) <= STAMP_MAX /\
  (forall i, 0 <= i < UCAL_FIELD_COUNT -> 0 <= c.(fStamp) i < c.(fNextStamp)) /\
  (forall i j, 0 <= i < UCAL_FIELD_COUNT -> 0 <= j < UCAL_FIELD_COUNT ->
     kMinimumUserStamp <= c.(fStamp) i -> c.(fStamp) i = c.(fStamp) j -> i = j).

Lemma fset_eq a f v : fset a f v f = v.
Proof. unfold fset. by rewrite Z.eqb_refl. Qed.

Lemma fset_ne a f v i : i <> f -> fset a f v i = a i.
Proof. intros. unfold fset. by rewrite (proj2 (Z.eqb_neq _ _)). Qed.

Lemma elem_of_fields i : i ∈ fields <-> 0 <= i < UCAL_FIELD_COUNT.
Proof. unfold fields. rewrite elem_of_seqZ. lia. Qed.

(** What the scan for the next stamp finds. *)
Lemma next_in_order_spec stamp next :
  (forall i, 0 <= i < UCAL_FIELD_COUNT -> stamp i < STAMP_MAX) ->
  let index := next_in_order stamp next in
  (index = -1 /\ forall i, 0 <= i < UCAL_FIELD_COUNT -> stamp i <= next) \/
  (0 <= index < UCAL_FIELD_COUNT /\ next < stamp index /\
   forall i, 0 <= i < UCAL_FIELD_COUNT -> next < stamp i -> stamp index <= stamp i).
Proof.
  intros Hmax. unfold next_in_order.
  set (step := fun '(cur, idx) i => _).
  assert (H : forall l cur idx,
    (forall i, i ∈ l -> stamp i < STAMP_MAX) ->
    let '(cur', idx') := foldl step (cur, idx) l in
    cur' <= cur /\ (forall i, i ∈ l -> next < stamp i -> cur' <= stamp i) /\
    ((cur' = cur /\ idx' = idx) \/ (idx' ∈ l /\ cur' = stamp idx' /\ next < cur' < cur))).
  { induction l as [|i l IH]; intros cur idx Hl; cbn [foldl].
    { split; [lia|]. split; [|by left]. intros i Hi. by apply not_elem_of_nil in Hi. }
    set (p := step (cur, idx) i). pose proof (IH p.1 p.2) as H.
    rewrite <- surjective_pairing in H.
    destruct (foldl step p l) as [cur' idx'] eqn:E.
    destruct H as (Hle & Hmin & Hcase). { intros k Hk. apply Hl. by right. }
    unfold p, step in Hle, Hcase. rewrite Z.gtb_ltb in Hle, Hcase.
    destruct (Z.ltb_spec next (stamp i)); cbn [andb fst snd] in Hle, Hcase;
      [destruct (Z.ltb_spec (stamp i) cur); cbn [fst snd] in Hle, Hcase|].
    all: split; [lia|split].
    all: try (intros k [->|Hk]%elem_of_cons ?; [lia|by apply Hmin]).
    all: destruct Hcase as [[? ?]|(? & ? & ?)]; subst;
      first [by left | right; split; [by constructor|done] | right; split; [by constructor|lia]]. }
  specialize (H fields STAMP_MAX (-1)).
  destruct (foldl step (STAMP_MAX, -1) fields) as [cur idx] eqn:E. cbn [snd].
  destruct H as (Hle & Hmin & Hcase). { intros i Hi. apply Hmax. by apply elem_of_fields. }
  destruct Hcase as [[-> ->]|(Hidx & -> & Hlt)].
  - left. split; [done|]. intros i Hi. apply Z.le_ngt. intros Hlt.
    pose proof (Hmin i ltac:(by apply elem_of_fields) Hlt). pose proof (Hmax i Hi). lia.
  - right. apply elem_of_fields in Hidx. split; [done|]. split; [lia|].
    intros i Hi Hlti. apply Hmin; [by apply elem_of_fields|done].
Qed.

Section Renumber.
(** The stamps before renumbering. *)
Context (s0 : farray).
Context (Hmax : forall i, 0 <= i < UCAL_FIELD_COUNT -> s0 i < STAMP_MAX).
Context (Hdistinct : forall i j, 0 <= i < UCAL_FIELD_COUNT -> 0 <= j < UCAL_FIELD_COUNT ->
  kMinimumUserStamp <= s0 i -> s0 i = s0 j -> i = j).

(** The user stamps up to [t] have been renumbered to [2..n], in their order. *)
Record renumbered (s : farray) (n t : Z) : Prop := {
  ren_bounds : 1 <= n <= t;
  ren_low i : 0 <= i < UCAL_FIELD_COUNT -> s0 i <= 1 -> s i = s0 i;
  ren_done i : 0 <= i < UCAL_FIELD_COUNT -> 1 < s0 i <= t -> 1 < s i <= n /\ s i <= s0 i;
  ren_rest i : 0 <= i < UCAL_FIELD_COUNT -> t < s0 i -> s i = s0 i;
  ren_order i j : 0 <= i < UCAL_FIELD_COUNT -> 0 <= j < UCAL_FIELD_COUNT ->
    1 < s0 i <= t -> 1 < s0 j <= t -> (s0 i < s0 j <-> s i < s j)
}.

Definition remaining (t : Z) : list Z := filter (fun i => t < s0 i) fields.

Lemma remaining_step t k :
  0 <= k < UCAL_FIELD_COUNT -> t < s0 k ->
  (length (remaining (s0 k)) < length (remaining t))%nat.
Proof.
  intros Hk Ht. unfold remaining. apply elem_of_fields in Hk. revert Hk.
  induction fields as [|i l IH]; [by intros ?%not_elem_of_nil|].
  assert (Hmono : forall l', (length (filter (fun i => (s0 k < s0 i)%Z) l') <=
                              length (filter (fun i => (t < s0 i)%Z) l'))%nat).
  { induction l' as [|j l' IHl]; [done|]. rewrite !filter_cons. repeat case_decide; cbn; lia. }
  rewrite !filter_cons. intros [->|Hk]%elem_of_cons.
  - rewrite decide_False, decide_True by lia. cbn. specialize (Hmono l). lia.
  - specialize (IH Hk). repeat case_decide; cbn; lia.
Qed.

Lemma renumbered_step s n t :
  renumbered s n t -> 0 <= next_in_order s n ->
  let k := next_in_order s n in
  t < s0 k /\ 0 <= k < UCAL_FIELD_COUNT /\ renumbered (fset s k (n + 1)) (n + 1) (s0 k).
Proof.
  intros [Hb Hlow Hdone Hrest Hord] Hk k.
  assert (Hs : forall i, 0 <= i < UCAL_FIELD_COUNT -> s i < STAMP_MAX).
  { intros i Hi. pose proof (Hmax i Hi). destruct (Z.le_gt_cases (s0 i) 1).
    - by rewrite Hlow. - destruct (Z.le_gt_cases (s0 i) t).
      + pose proof (Hdone i Hi ltac:(lia)). lia. + by rewrite Hrest. }
  destruct (next_in_order_spec s n Hs) as [[E _]|(Hin & Hgt & Hmin)]; [lia|].
  fold k in Hin, Hgt, Hmin.
  assert (Hkt : t < s0 k).
  { apply Z.lt_nge. intros Hle. destruct (Z.le_gt_cases (s0 k) 1) as [H1|H1].
    - rewrite (Hlow k Hin H1) in Hgt. lia.
    - pose proof (Hdone k Hin ltac:(lia)). lia. }
  rewrite (Hrest k Hin Hkt) in Hgt, Hmin.
  assert (Hbetween : forall i, 0 <= i < UCAL_FIELD_COUNT -> t < s0 i -> s0 i <= s0 k -> i = k).
  { intros i Hi H1 H2. pose proof (Hmin i Hi) as H3. rewrite (Hrest i Hi H1) in H3.
    apply Hdistinct; unfold kMinimumUserStamp; lia. }
  split; [done|]. split; [done|]. constructor.
  - lia.
  - intros i Hi H1. rewrite fset_ne by (intros ->; lia). by apply Hlow.
  - intros i Hi H1. destruct (Z.eq_dec i k) as [->|]; [rewrite fset_eq; lia|].
    rewrite fset_ne by done. destruct (Z.le_gt_cases (s0 i) t).
    + pose proof (Hdone i Hi ltac:(lia)). lia.
    + by pose proof (Hbetween i Hi ltac:(lia) ltac:(lia)).
  - intros i Hi H1. rewrite fset_ne by (intros ->; lia). apply Hrest; [done|lia].
  - intros i j Hi Hj H1 H2.
    assert (Hcase : forall i, 0 <= i < UCAL_FIELD_COUNT -> 1 < s0 i <= s0 k ->
      i = k \/ (i <> k /\ 1 < s0 i <= t /\ 1 < s i <= n /\ s i <= s0 i)).
    { intros l Hl Hl'. destruct (Z.eq_dec l k) as [->|]; [by left|right]. split; [done|].
      destruct (Z.le_gt_cases (s0 l) t); [split; [lia|apply Hdone; [done|lia]]|].
      by pose proof (Hbetween l Hl ltac:(lia) ltac:(lia)). }
    destruct (Hcase i Hi H1) as [->|(Hik & Hi1 & Hi2)], (Hcase j Hj H2) as [->|(Hjk & Hj1 & Hj2)];
      rewrite ?fset_eq, ?(fset_ne _ _ _ i), ?(fset_ne _ _ _ j) by done; try lia.
    by apply Hord.
Qed.

Lemma recalculate_loop_spec fuel : forall s n t,
  renumbered s n t -> (length (remaining t) <= fuel)%nat ->
  let '(s', n') := recalculate_loop fuel s n in
  n' <= n + Z.of_nat fuel /\
  exists t', renumbered s' n' t' /\ forall i, 0 <= i < UCAL_FIELD_COUNT -> s0 i <= t'.
Proof.
  induction fuel as [|fuel IH]; intros s n t Hren Hlen; cbn [recalculate_loop].
  - split; [lia|]. exists t. split; [done|]. intros i Hi. apply Z.le_ngt. intros Hlt.
    pose proof (remaining_step t i Hi Hlt). lia.
  - rewrite Z.geb_leb. destruct (Z.leb_spec 0 (next_in_order s n)) as [Hk|Hk].
    + destruct (renumbered_step s n t Hren Hk) as (Ht & Hin & Hren').
      specialize (IH _ _ _ Hren'). destruct (recalculate_loop fuel _ _) as [s' n'].
      pose proof (remaining_step t _ Hin Ht). destruct IH as [Hn IH]; [lia|]. split; [lia|done].
    + split; [lia|]. exists t. split; [done|]. intros i Hi. apply Z.le_ngt. intros Hlt.
      destruct Hren as [Hb Hlow Hdone Hrest Hord].
      destruct (next_in_order_spec s n) as [[_ Hall]|(? & _)]; [|pose proof (Hall i Hi) as H; rewrite Hrest in H by done; lia|lia].
      intros j Hj. pose proof (Hmax j Hj). destruct (Z.le_gt_cases (s0 j) 1).
      * by rewrite Hlow.
      * destruct (Z.le_gt_cases (s0 j) t); [pose proof (Hdone j Hj ltac:(lia)); pose proof (Hmax i Hi); lia|by rewrite Hrest].
Qed.
End Renumber.

(** The order of the stamps, which is all that the resolution looks at. *)
Definition same_order (P : Z -> Prop) (s s' : farray) : Prop :=
  (forall i, P i -> (s i = kUnset <-> s' i = kUnset) /\ (s i = kInternallySet <-> s' i = kInternallySet)) /\
  (forall i j, P i -> P j -> (s i < s j <-> s' i < s' j)).

Lemma recalculateStamp_spec c :
  stamps_ok c ->
  stamps_ok (recalculateStamp c) /\ (recalculateStamp c).(fNextStamp) < STAMP_MAX /\
  same_order (fun i => 0 <= i < UCAL_FIELD_COUNT) c.(fStamp) (recalculateStamp c).(fStamp).
Proof.
  intros (Hn & Hlt & Hinj). unfold recalculateStamp.
  pose proof (recalculate_loop_spec (fStamp c)
    ltac:(intros i Hi; pose proof (Hlt i Hi); lia) Hinj (Z.to_nat UCAL_FIELD_COUNT) (fStamp c) 1 1) as H.
  destruct (recalculate_loop _ _ _) as [s n]. destruct H as [Hnext (t & Hren & Hall)].
  - constructor; intros; try lia; try done.
  - unfold remaining. etransitivity; [apply length_filter|]. done.
  - destruct Hren as [Hb Hlow Hdone Hrest Hord]. cbn [with_stamps fNextStamp fStamp].
    change (Z.of_nat (Z.to_nat UCAL_FIELD_COUNT)) with 24 in Hnext.
    assert (Hcase : forall i, 0 <= i < UCAL_FIELD_COUNT ->
      (0 <= fStamp c i <= 1 /\ s i = fStamp c i) \/ (1 < fStamp c i <= t /\ 1 < s i <= n)).
    { intros i Hi. pose proof (Hlt i Hi). pose proof (Hall i Hi).
      destruct (Z.le_gt_cases (fStamp c i) 1); [left; split; [lia|by apply Hlow]|right].
      split; [lia|]. by apply Hdone; [|lia]. }
    assert (Hsame : forall i j, 0 <= i < UCAL_FIELD_COUNT -> 0 <= j < UCAL_FIELD_COUNT ->
      (fStamp c i < fStamp c j <-> s i < s j)).
    { intros i j Hi Hj. destruct (Hcase i Hi) as [[? ->]|[? ?]], (Hcase j Hj) as [[? ->]|[? ?]];
        try lia. by apply Hord. }
    unfold stamps_ok, same_order, kUnset, kInternallySet, kMinimumUserStamp, STAMP_MAX in *.
    cbn [with_stamps fNextStamp fStamp].
    split; [split; [lia|split]|split; [lia|split]].
    + intros i Hi. destruct (Hcase i Hi); lia.
    + intros i j Hi Hj H1 H2. pose proof (Hsame i j Hi Hj). pose proof (Hsame j i Hj Hi).
      apply Hinj; [done..| |lia]. destruct (Hcase i Hi); lia.
    + intros i Hi. destruct (Hcase i Hi) as [[? ->]|]; lia.
    + done.
Qed.

Definition is_field (i : Z) : Prop := 0 <= i < UCAL_FIELD_COUNT.

Lemma set_stamped_newest c field value :
  stamps_ok c -> is_field field ->
  let c' := set_stamped c field value in
  stamps_ok c' /\ c'.(fFields) field = value /\
  (forall i, i <> field -> c'.(fFields) i = c.(fFields) i) /\
  kMinimumUserStamp <= c'.(fStamp) field /\
  (forall i, is_field i -> i <> field -> c'.(fStamp) i < c'.(fStamp) field) /\
  same_order (fun i => is_field i /\ i <> field) c.(fStamp) c'.(fStamp).
Proof.
  intros Hok Hf c'. unfold c', set_stamped.
  set (c1 := set_field c field value).
  assert (Hok1 : stamps_ok c1) by done.
  set (c2 := if fNextStamp c1 =? STAMP_MAX then recalculateStamp c1 else c1).
  assert (H2 : stamps_ok c2 /\ fNextStamp c2 < STAMP_MAX /\ fFields c2 = fFields c1 /\
               same_order is_field (fStamp c) (fStamp c2)).
  { unfold c2. destruct (Z.eqb_spec (fNextStamp c1) STAMP_MAX) as [E|E].
    - destruct (recalculateStamp_spec c1 Hok1) as (? & ? & ?). split; [done|]. split; [done|].
      split; [|done]. unfold recalculateStamp. by destruct (recalculate_loop _ _ _).
    - split; [done|]. destruct Hok1 as [[? ?] _]. split; [lia|]. split; [done|]. by split. }
  clearbody c2. destruct H2 as ((Hn & Hlt & Hinj) & Hn' & Hfields & Hz & Hord).
  unfold with_flags, with_stamps. cbn [fFields fStamp fNextStamp]. rewrite Hfields, fset_eq.
  unfold c1. cbn [set_field with_fields fFields]. rewrite fset_eq.
  assert (Hother : forall i, i <> field -> fset (fStamp c2) field (fNextStamp c2) i = fStamp c2 i)
    by (intros; by apply fset_ne).
  assert (Hself : fset (fStamp c2) field (fNextStamp c2) field = fNextStamp c2) by apply fset_eq.
  set (s := fset (fStamp c2) field (fNextStamp c2)) in *. clearbody s.
  assert (Hall : forall i, is_field i -> 0 <= s i <= fNextStamp c2).
  { intros i Hi. destruct (Z.eq_dec i field) as [->|]; [rewrite Hself; unfold kMinimumUserStamp in *; lia|].
    rewrite Hother by done. pose proof (Hlt i Hi). lia. }
  split; [split; [|split]; cbn [fNextStamp fStamp]|split; [done|split; [|split; [|split]]]].
  - lia.
  - intros i Hi. pose proof (Hall i Hi). lia.
  - intros i j Hi Hj. pose proof (Hlt i Hi). pose proof (Hlt j Hj).
    destruct (Z.eq_dec i field) as [->|], (Z.eq_dec j field) as [->|];
      rewrite ?Hself, ?(Hother i), ?(Hother j) by done; [done|lia|lia|by apply Hinj].
  - intros i Hi. by rewrite fset_ne.
  - lia.
  - intros i Hi Hne. rewrite Hother by done. by apply Hlt.
  - split; [intros i [Hi Hne]; rewrite Hother by done; by apply Hz|].
    intros i j [Hi Hni] [Hj Hnj]. rewrite !Hother by done. by apply Hord.
Qed.

(** C35: [set] makes its field the newest and keeps the order in which the
    other fields were set, also when the stamps run out and are renumbered. *)
Theorem set_newest c field value :
  stamps_ok c -> is_field field ->
  let c' := set_stamped c field value in
  stamps_ok c' /\ c'.(fFields) field = value /\
  (forall i, i <> field -> c'.(fFields) i = c.(fFields) i) /\
  kMinimumUserStamp <= c'.(fStamp) field /\
  (forall i, is_field i -> i <> field -> c'.(fStamp) i < c'.(fStamp) field) /\
  same_order (fun i => is_field i /\ i <> field) c.(fStamp) c'.(fStamp).
Proof. exact (set_stamped_newest c field value). Qed.

(** A calendar whose stamps have run out. *)
Definition worn_calendar : Calendar :=
  mkCalendar (fun _ => 0)
    (fun i => if i =? UCAL_MONTH then 9000 else if i =? UCAL_YEAR then 9999 else 0)
    STAMP_MAX false false false false (of_int 0) true 1 1 0 0 0 0.

Lemma set_newest_witness :
  stamps_ok worn_calendar /\ is_field UCAL_DATE /\
  let c := worn_calendar in
  let c' := set_stamped c UCAL_DATE 15 in
  stamps_ok c' /\ c'.(fFields) UCAL_DATE = 15 /\
  (forall i, i <> UCAL_DATE -> c'.(fFields) i = c.(fFields) i) /\
  kMinimumUserStamp <= c'.(fStamp) UCAL_DATE /\
  (forall i, is_field i -> i <> UCAL_DATE -> c'.(fStamp) i < c'.(fStamp) UCAL_DATE) /\
  same_order (fun i => is_field i /\ i <> UCAL_DATE) c.(fStamp) c'.(fStamp).
Proof.
  assert (Hok : stamps_ok worn_calendar).
  { unfold stamps_ok, worn_calendar, kMinimumUserStamp, STAMP_MAX, UCAL_MONTH, UCAL_YEAR.
    cbn [fStamp fNextStamp]. split; [lia|]. split; intros; repeat case_match; lia. }
  assert (Hf : is_field UCAL_DATE) by (vm_compute; split; [discriminate|done]).
  split; [done|]. split; [done|]. exact (set_newest worn_calendar UCAL_DATE 15 Hok Hf).
Defined.
