(* ===== verification/CalendarSystem.v ===== *)
(** * Calendar systems: the interface between [Calendar] and its subclasses

    i18n/calendar.cpp calls four functions of a subclass: the day before a
    month starts, the lengths of a month and of a year, and the fields of a
    Julian day.  [CalendarSystem] holds these operations as the code has them.
    [MonthLayout] is the abstract calendar, months that follow each other
    without overlap; [Implements] states that the operations compute it over a
    range of years, and implies that fields and days determine each other. *)
From S2P Require Import Prelude Int32 Double Grego Calendar.
Local Open Scope Z_scope.

Inductive ELimitType :=
  | UCAL_LIMIT_MINIMUM
  | UCAL_LIMIT_GREATEST_MINIMUM
  | UCAL_LIMIT_LEAST_MAXIMUM
  | UCAL_LIMIT_MAXIMUM.

Definition ELimitType_index (t : ELimitType) : Z :=
  match t with
  | UCAL_LIMIT_MINIMUM => 0
  | UCAL_LIMIT_GREATEST_MINIMUM => 1
  | UCAL_LIMIT_LEAST_MAXIMUM => 2
  | UCAL_LIMIT_MAXIMUM => 3
  end.

(** [LIMITS[field][limitType]] *)
Definition limit_at (limits : list (list Z)) (field : Z) (limitType : ELimitType) : option Z :=
  row ← aget limits field; aget row (ELimitType_index limitType).

(** The row of a field that has no limits of its own. *)
Definition N_A : list Z := [-1; -1; -1; -1].

(** The virtual functions of a subclass of [Calendar].  [None] is undefined
    behaviour. *)
Class CalendarSystem := {
  handleGetLimit : Z -> ELimitType -> option Z;
  handleComputeMonthStart : Z -> Z -> I32;
  handleGetMonthLength : Z -> Z -> I32;
  handleGetYearLength : Z -> I32;
  handleComputeFields : Calendar -> Z -> UErrorCode -> option (Calendar * UErrorCode);
  handleGetExtendedYear : Calendar -> I32
}.

(** The definitions a subclass inherits from [Calendar]. *)
Module Defaults.
Section Defaults.
Context (computeMonthStart : Z -> Z -> I32).

Definition handleGetMonthLength (extendedYear month : Z) : I32 :=
  (let! m := month +! 1 in computeMonthStart extendedYear m) -! computeMonthStart extendedYear month.

Definition handleGetYearLength (eyear : Z) : I32 :=
  (let! y := eyear +! 1 in computeMonthStart y 0) -! computeMonthStart eyear 0.
End Defaults.

(** The year of a calendar without eras: the newer of EXTENDED_YEAR and YEAR. *)
Definition handleGetExtendedYear (c : Calendar) : I32 :=
  if newerField c UCAL_EXTENDED_YEAR UCAL_YEAR =? UCAL_EXTENDED_YEAR
  then Some (internalGet_default c UCAL_EXTENDED_YEAR 1)
  else Some (internalGet_default c UCAL_YEAR 1).
End Defaults.

(** What the calendars of twelve months do with a month out of range. *)
(** [if (month < 0 || month > 11) year += ClockMath::floorDivide(month, 12, month);] *)
Definition adjust_month (year month : Z) : option (Z * Z) :=
  if (month <? 0) || (month >? 11) then
    let! '(q, m) := ClockMath.floorDivide_int (of_int month) 12 in
    let! y := year +! q in Some (y, m)
  else Some (year, month).

Lemma adjust_month_id y m : 0 <= m <= 11 -> adjust_month y m = Some (y, m).
Proof.
  intros. unfold adjust_month. rewrite Z.gtb_ltb. by rewrite !(proj2 (Z.ltb_ge _ _)) by lia.
Qed.

(** ** The abstract calendar *)

(** [start y m] is the day before the first day of the month [m] of the year
    [y]; a day is the Julian day number of its noon. *)
Class MonthLayout := {
  has_month : Z -> Z -> bool;
  start : Z -> Z -> Z;
  length : Z -> Z -> Z;
  has_month_0 y : has_month y 0 = true;
  has_month_nonneg y m : has_month y m = true -> 0 <= m;
  length_pos y m : has_month y m = true -> 0 < length y m;
  start_month y m m' :
    has_month y m = true -> has_month y m' = true -> m < m' -> start y m + length y m <= start y m';
  start_year y m : has_month y m = true -> start y m + length y m <= start (y + 1) 0;
  month_next y m : has_month y m = true ->
    exists y' m', has_month y' m' = true /\ (y' = y /\ m < m' \/ y' = y + 1 /\ m' = 0) /\
      start y m + length y m = start y' m'
}.

Section Layout.
Context `{L : MonthLayout}.

Definition valid_date (y m d : Z) : Prop := has_month y m = true /\ 1 <= d <= length y m.

Lemma start_0_le y m : has_month y m = true -> start y 0 <= start y m.
Proof.
  intros Hm. destruct (Z.eq_dec m 0) as [->|]; [lia|].
  pose proof (has_month_nonneg y m Hm).
  pose proof (start_month y 0 m (has_month_0 y) Hm ltac:(lia)).
  pose proof (length_pos y 0 (has_month_0 y)). lia.
Qed.

Lemma start_years y y' : y <= y' -> start y 0 <= start y' 0.
Proof.
  intros Hy. replace y' with (y + (y' - y)) by lia.
  apply (natlike_ind (fun k => start y 0 <= start (y + k) 0)); [by rewrite Z.add_0_r| |lia].
  intros k Hk IH. pose proof (start_year (y + k) 0 (has_month_0 _)).
  pose proof (length_pos (y + k) 0 (has_month_0 _)). rewrite Z.add_succ_r. unfold Z.succ. lia.
Qed.

(** A day of a year lies between the starts of the year and of the next. *)
Lemma date_in_year y m d :
  valid_date y m d -> start y 0 < start y m + d <= start (y + 1) 0.
Proof.
  intros [Hm Hd]. pose proof (start_0_le y m Hm). pose proof (start_year y m Hm). lia.
Qed.

(** No day has two dates. *)
Lemma date_unique y m d y' m' d' :
  valid_date y m d -> valid_date y' m' d' -> start y m + d = start y' m' + d' ->
  y = y' /\ m = m' /\ d = d'.
Proof.
  intros H1 H2 Heq. pose proof (date_in_year y m d H1). pose proof (date_in_year y' m' d' H2).
  assert (y = y') as <-.
  { destruct (Z.lt_trichotomy y y') as [|[|]]; [|done|].
    - pose proof (start_years (y + 1) y' ltac:(lia)). lia.
    - pose proof (start_years (y' + 1) y ltac:(lia)). lia. }
  destruct H1 as [Hm Hd], H2 as [Hm' Hd']. assert (m = m') as <-.
  { destruct (Z.lt_trichotomy m m') as [|[|]]; [|done|].
    - pose proof (start_month y m m' Hm Hm' ltac:(lia)). lia.
    - pose proof (start_month y m' m Hm' Hm ltac:(lia)). lia. }
  lia.
Qed.
End Layout.

(** ** Implementations *)

(** The fields that [handleComputeFields] sets. *)
Definition is_date_field (f : Z) : bool :=
  (f =? UCAL_ERA) || (f =? UCAL_YEAR) || (f =? UCAL_MONTH) || (f =? UCAL_DAY_OF_MONTH) ||
  (f =? UCAL_DAY_OF_YEAR) || (f =? UCAL_EXTENDED_YEAR).

(** [c'] is [c] with its date fields set to the date [y], [m], [d]. *)
Record date_set `{MonthLayout} (c c' : Calendar) (y m d : Z) : Prop := {
  set_year : c'.(fFields) UCAL_EXTENDED_YEAR = y;
  set_month : c'.(fFields) UCAL_MONTH = m;
  set_day : c'.(fFields) UCAL_DAY_OF_MONTH = d;
  set_day_of_year : c'.(fFields) UCAL_DAY_OF_YEAR = start y m + d - start y 0;
  set_stamps f : is_date_field f = true -> c'.(fStamp) f = kInternallySet;
  set_other f : is_date_field f = false ->
    c'.(fFields) f = c.(fFields) f /\ c'.(fStamp) f = c.(fStamp) f;
  set_rest : c' = with_stamps (with_fields c c'.(fFields)) c'.(fStamp) c.(fNextStamp)
}.

(** The operations of [C] compute the calendar [L] for the years [lo..hi]. *)
Class Implements (C : CalendarSystem) (L : MonthLayout) (lo hi : Z) := {
  month_start_ok y m :
    lo <= y <= hi -> has_month y m = true -> handleComputeMonthStart y m = Some (start y m);
  month_length_ok y m :
    lo <= y < hi -> has_month y m = true -> handleGetMonthLength y m = Some (length y m);
  year_length_ok y :
    lo <= y < hi -> handleGetYearLength y = Some (start (y + 1) 0 - start y 0);
  fields_ok c jd :
    start lo 0 < jd <= start hi 0 ->
    exists c' y m d, handleComputeFields c jd U_ZERO_ERROR = Some (c', U_ZERO_ERROR) /\
      lo <= y < hi /\ valid_date y m d /\ start y m + d = jd /\ date_set c c' y m d;
  extended_year_ok c :
    c.(fStamp) UCAL_YEAR <= c.(fStamp) UCAL_EXTENDED_YEAR ->
    handleGetExtendedYear c = Some (internalGet_default c UCAL_EXTENDED_YEAR 1)
}.

(** What the operations of a calendar promise: the day a date denotes has that
    date as its fields, and every day in range is the day its fields denote;
    the month and year lengths are what separates the starts of the months and
    of the years. *)
Definition fields_roundtrip (C : CalendarSystem) (L : MonthLayout) (lo hi : Z) : Prop :=
  (forall c y m d, lo <= y < hi -> valid_date y m d ->
     exists c' jd, handleComputeMonthStart y m = Some jd /\
       handleComputeFields c (jd + d) U_ZERO_ERROR = Some (c', U_ZERO_ERROR) /\
       date_set c c' y m d) /\
  (forall c jd, start lo 0 < jd <= start hi 0 ->
     exists c' y m d jd0 len,
       handleComputeFields c jd U_ZERO_ERROR = Some (c', U_ZERO_ERROR) /\
       date_set c c' y m d /\
       handleComputeMonthStart y m = Some jd0 /\ jd0 + d = jd /\
       handleGetMonthLength y m = Some len /\ 1 <= d <= len) /\
  (forall y m, lo <= y < hi -> has_month y m = true ->
     exists y' m' jd jd' len,
       has_month y' m' = true /\ (y' = y /\ m < m' \/ y' = y + 1 /\ m' = 0) /\
       handleComputeMonthStart y m = Some jd /\ handleGetMonthLength y m = Some len /\
       handleComputeMonthStart y' m' = Some jd' /\ jd + len = jd') /\
  (forall y, lo <= y < hi ->
     exists jd jd' len,
       handleComputeMonthStart y 0 = Some jd /\ handleGetYearLength y = Some len /\
       handleComputeMonthStart (y + 1) 0 = Some jd' /\ jd + len = jd').

Lemma implements_roundtrip C L lo hi {I : Implements C L lo hi} : fields_roundtrip C L lo hi.
Proof.
  split; [|split; [|split]].
  - intros c y m d Hy Hv. pose proof (date_in_year y m d Hv) as Hjd.
    pose proof (start_years lo y ltac:(lia)). pose proof (start_years (y + 1) hi ltac:(lia)).
    destruct (fields_ok c (start y m + d)) as (c' & y' & m' & d' & Hf & Hy' & Hv' & Heq & Hd); [lia|].
    destruct (date_unique y' m' d' y m d Hv' Hv Heq) as (-> & -> & ->).
    exists c', (start y m). split; [apply month_start_ok; [lia|apply Hv]|done].
  - intros c jd Hjd. destruct (fields_ok c jd Hjd) as (c' & y & m & d & Hf & Hy & [Hm Hd] & Heq & Hs).
    exists c', y, m, d, (start y m), (length y m). split; [done|]. split; [done|].
    split; [apply month_start_ok; [lia|done]|]. split; [done|]. by split; [apply month_length_ok|].
  - intros y m Hy Hm. destruct (month_next y m Hm) as (y' & m' & Hm' & Hn & Heq).
    exists y', m', (start y m), (start y' m'), (length y m).
    split; [done|]. split; [done|]. split; [apply month_start_ok; [lia|done]|].
    split; [by apply month_length_ok|]. split; [apply month_start_ok; [lia|done]|done].
  - intros y Hy. exists (start y 0), (start (y + 1) 0), (start (y + 1) 0 - start y 0).
    split; [apply month_start_ok; [lia|apply has_month_0]|]. split; [by apply year_length_ok|].
    split; [apply month_start_ok; [lia|apply has_month_0]|lia].
Qed.

(** The fields in the order a subclass sets them. *)
Definition internalSets (c : Calendar) (l : list (Z * Z)) : Calendar :=
  foldl (fun c '(f, v) => internalSet c f v) c l.

(** Proves [date_set] for the [internalSets] of the six date fields. *)
Ltac solve_date_set :=
  let f := fresh "f" in let H := fresh "H" in
  constructor;
  [ try done | try done | try done | try (cbn; lia)
  | intros f H; unfold is_date_field in H; rewrite !orb_true_iff, !Z.eqb_eq in H; destruct_or! H;
    subst f; reflexivity
  | intros f H; unfold is_date_field in H; rewrite !orb_false_iff, !Z.eqb_neq in H;
    destruct_and! H; unfold internalSets, internalSet; cbn [foldl with_stamps set_field with_fields
      fFields fStamp fNextStamp]; rewrite !fset_ne by done; done
  | reflexivity ].

Lemma newerField_default c f g : c.(fStamp) g <= c.(fStamp) f -> newerField c f g = f.
Proof. intros H. unfold newerField. by rewrite Z.gtb_ltb, (proj2 (Z.ltb_ge _ _)). Qed.

Lemma default_extended_year c :
  c.(fStamp) UCAL_YEAR <= c.(fStamp) UCAL_EXTENDED_YEAR ->
  Defaults.handleGetExtendedYear c = Some (internalGet_default c UCAL_EXTENDED_YEAR 1).
Proof. intros H. unfold Defaults.handleGetExtendedYear. by rewrite newerField_default. Qed.
