(* ===== verification/CECalendar.v ===== *)
(** * The calendars of thirteen months (i18n/cecal.cpp)

    Twelve months of 30 days and a thirteenth of 5 or 6: [CECalendar] converts
    between such a date and a Julian day for an epoch.  The subclasses, Coptic
    and Ethiopic, choose the epoch and number the eras; [ce_implements] reduces
    their correctness to that numbering. *)
From S2P Require Import Prelude Int32 Double Grego Calendar CalendarSystem.
Local Open Scope Z_scope.

Module CECalendar.
Import ClockMath.

Definition ceToJD (year month date jdEpochOffset : Z) : I32 :=
  let! '(year, month) :=
    (if month >=? 0 then
       let! y := year +! (month /! 13) in
       let! m := month %! 13 in Some (y, m)
     else
       let! month := month +! 1 in
       let! y := year +! ((month /! 13) -! 1) in
       let! m := (month %! 13) +! 12 in Some (y, m)) in
  jdEpochOffset +! 365 *! year +! floorDivide year 4 +! 30 *! month +! date -! 1.

(** The year, the month and the day of a Julian day. *)
Definition jdToCE (julianDay jdEpochOffset : Z) : option (Z * Z * Z) :=
  let! d := julianDay -! jdEpochOffset in
  let! '(c4, r4) := floorDivide_int (of_int d) 1461 in
  let! year := 4 *! c4 +! (r4 /! 365 -! r4 /! 1460) in
  let! doy := if r4 =? 1460 then Some 365 else r4 %! 365 in
  let! month := doy /! 30 in
  let! day := (doy %! 30) +! 1 in
  Some (year, month, day).

Definition LIMITS : list (list Z) :=
  [[0; 0; 1; 1]; (* ERA *)
   [1; 1; 5000000; 5000000]; (* YEAR *)
   [0; 0; 12; 12]; (* MONTH *)
   [1; 1; 52; 53]; (* WEEK_OF_YEAR *)
   N_A; (* WEEK_OF_MONTH *)
   [1; 1; 5; 30]; (* DAY_OF_MONTH *)
   [1; 1; 365; 366]; (* DAY_OF_YEAR *)
   N_A; (* DAY_OF_WEEK *)
   [-1; -1; 1; 5]; (* DAY_OF_WEEK_IN_MONTH *)
   N_A; N_A; N_A; N_A; N_A; N_A; N_A; N_A; (* AM_PM .. DST_OFFSET *)
   [-5000000; -5000000; 5000000; 5000000]; (* YEAR_WOY *)
   N_A; (* DOW_LOCAL *)
   [-5000000; -5000000; 5000000; 5000000]; (* EXTENDED_YEAR *)
   N_A; N_A; N_A; (* JULIAN_DAY, MILLISECONDS_IN_DAY, IS_LEAP_MONTH *)
   [0; 0; 0; 0]].

Definition handleGetLimit (field : Z) (limitType : ELimitType) : option Z :=
  limit_at LIMITS field limitType.

Section Subclass.
Context (getJDEpochOffset : Z).

Definition handleComputeMonthStart (eyear emonth : Z) : I32 :=
  ceToJD eyear emonth 0 getJDEpochOffset.

(** Inherited from [Calendar]. *)
Definition handleGetMonthLength : Z -> Z -> I32 :=
  Defaults.handleGetMonthLength handleComputeMonthStart.
Definition handleGetYearLength : Z -> I32 :=
  Defaults.handleGetYearLength handleComputeMonthStart.
End Subclass.
End CECalendar.

(** ** The abstract calendar *)

Module CEFacts.
Import CECalendar ClockMath.

Section Layout.
Context (offset : Z).

Definition ce_start (y m : Z) : Z := offset + 365 * y + y / 4 + 30 * m - 1.
Definition ce_length (y m : Z) : Z := if m <? 12 then 30 else if y mod 4 =? 3 then 6 else 5.
Definition ce_has (y m : Z) : bool := (0 <=? m) && (m <=? 12).

Lemma ce_has_spec y m : ce_has y m = true <-> 0 <= m <= 12.
Proof. unfold ce_has. rewrite andb_true_iff, !Z.leb_le. done. Qed.

#[refine] Definition layout : MonthLayout :=
  {| has_month := ce_has; start := ce_start; length := ce_length |}.
Proof.
  - done.
  - intros y m ?%ce_has_spec. lia.
  - intros y m _. unfold ce_length. repeat case_match; lia.
  - intros y m m' ?%ce_has_spec ?%ce_has_spec ?. unfold ce_start, ce_length. 
    destruct (Z.ltb_spec m 12); lia.
  - intros y m ?%ce_has_spec. unfold ce_start, ce_length.
    destruct (Z.ltb_spec m 12); [|destruct (Z.eqb_spec (y mod 4) 3)]; dlia.
  - intros y m Hm%ce_has_spec. unfold ce_start, ce_length. destruct (Z.ltb_spec m 12).
    + exists y, (m + 1). split; [apply ce_has_spec; lia|]. split; [lia|]. lia.
    + exists (y + 1), 0. split; [done|]. split; [lia|]. destruct (Z.eqb_spec (y mod 4) 3); dlia.
Defined.
End Layout.

Definition lo : Z := -5000000.
Definition hi : Z := 5000001.

Section Epoch.
Context (offset : Z) (Hoffset : 0 <= offset <= 2000000).
Local Existing Instance layout.

Lemma ce_monthStart_spec y m :
  lo <= y <= hi -> 0 <= m <= 13 ->
  handleComputeMonthStart offset y m =
    Some (if m =? 13 then ce_start offset (y + 1) 0 else ce_start offset y m).
Proof.
  unfold lo, hi. intros Hy Hm. unfold handleComputeMonthStart, ceToJD.
  rewrite Z.geb_leb, (proj2 (Z.leb_le 0 m)) by lia. icalc.
  set (y' := y + m / 13). set (m' := m mod 13).
  assert (Hy' : -5000000 <= y' <= 5000002) by (unfold y'; dlia).
  assert (Hm' : 0 <= m' <= 12) by (unfold m'; dlia).
  rewrite floorDivide_ok by ibound. icalc. f_equal. unfold y', m', ce_start.
  destruct (Z.eqb_spec m 13) as [->|]; [change (13 / 13) with 1; change (13 mod 13) with 0; lia|].
  rewrite (Z.div_small m 13), (Z.mod_small m 13), !Z.add_0_r by lia. lia.
Qed.

(** The code finds the cycle, the year of the cycle and the day of the year. *)
Lemma jdToCE_spec jd :
  ce_start offset lo 0 < jd <= ce_start offset hi 0 ->
  exists y m d, jdToCE jd offset = Some (y, m, d) /\ lo <= y < hi /\
    ce_has y m = true /\ 1 <= d <= ce_length y m /\ ce_start offset y m + d = jd /\
    30 * m + d = jd - ce_start offset y 0.
Proof.
  unfold ce_start, lo, hi. intros Hjd. unfold jdToCE.
  assert (Hd : -1826250001 < jd - offset <= 1826250364) by dlia. icalc.
  set (D := jd - offset). assert (HD : -1826250001 < D <= 1826250364) by (unfold D; lia).
  rewrite floorDivide_int_ok by dlia. icalc.
  set (c4 := D / 1461). set (r4 := D mod 1461).
  assert (Hc : D = 1461 * c4 + r4 /\ 0 <= r4 < 1461) by (unfold c4, r4; dlia).
  assert (Hc4 : -1400000 <= c4 <= 1400000) by lia.
  icalc. set (doy := if r4 =? 1460 then 365 else r4 mod 365).
  replace (if r4 =? 1460 then _ else _) with (Some doy)
    by (unfold doy; by destruct (r4 =? 1460)).
  set (yr := r4 / 365 - r4 / 1460).
  assert (Hdoy : 0 <= doy <= 365 /\ 0 <= yr <= 3 /\ r4 = 365 * yr + doy /\ (doy = 365 -> yr = 3)).
  { unfold doy, yr. destruct (Z.eqb_spec r4 1460); dlia. }
  clearbody c4 r4 doy yr. clear - Hc Hc4 Hdoy Hjd HD.
  icalc. eexists _, _, _. split; [done|].
  unfold ce_start, ce_length, ce_has. rewrite andb_true_iff, !Z.leb_le.
  split; [lia|]. split; [dlia|].
  assert (Hmod : (4 * c4 + yr) mod 4 = yr) by dlia. rewrite Hmod.
  split; [destruct (Z.ltb_spec (doy / 30) 12), (Z.eqb_spec yr 3); dlia|]. split; dlia.
Qed.

Lemma ce_monthLength_spec y m :
  lo <= y < hi -> ce_has y m = true ->
  handleGetMonthLength offset y m = Some (ce_length y m).
Proof.
  intros Hy Hm%ce_has_spec. unfold handleGetMonthLength, Defaults.handleGetMonthLength.
  icalc. rewrite !ce_monthStart_spec by lia. rewrite (proj2 (Z.eqb_neq m 13)) by lia.
  assert (0 <= ce_length y m <= 400) by (unfold ce_length; repeat case_match; lia).
  destruct (Z.eqb_spec (m + 1) 13); apply isub_small; try done; unfold ce_start, ce_length.
  - rewrite (proj2 (Z.ltb_ge m 12)) by lia. destruct (Z.eqb_spec (y mod 4) 3); dlia.
  - rewrite (proj2 (Z.ltb_lt m 12)) by lia. lia.
Qed.

Lemma ce_yearLength_spec y :
  lo <= y < hi ->
  handleGetYearLength offset y = Some (ce_start offset (y + 1) 0 - ce_start offset y 0).
Proof.
  intros Hy. unfold handleGetYearLength, Defaults.handleGetYearLength. unfold lo, hi in Hy.
  icalc. rewrite !ce_monthStart_spec by (unfold lo, hi; lia). cbn [Z.eqb].
  apply isub_small; [done|]. unfold ce_start. dlia.
Qed.

(** A subclass that numbers its eras its own way implements the calendar. *)
Lemma ce_implements (C : CalendarSystem) :
  CalendarSystem.handleComputeMonthStart = handleComputeMonthStart offset ->
  CalendarSystem.handleGetMonthLength = handleGetMonthLength offset ->
  CalendarSystem.handleGetYearLength = handleGetYearLength offset ->
  (forall c jd y m d, jdToCE jd offset = Some (y, m, d) -> lo <= y < hi -> 0 <= m <= 12 ->
     1 <= d <= 30 ->
     exists era year, CalendarSystem.handleComputeFields c jd U_ZERO_ERROR =
       Some (internalSets c [(UCAL_EXTENDED_YEAR, y); (UCAL_ERA, era); (UCAL_YEAR, year);
               (UCAL_MONTH, m); (UCAL_DATE, d); (UCAL_DAY_OF_YEAR, 30 * m + d)], U_ZERO_ERROR)) ->
  (forall c, fStamp c UCAL_YEAR <= fStamp c UCAL_EXTENDED_YEAR ->
     CalendarSystem.handleGetExtendedYear c = Some (internalGet_default c UCAL_EXTENDED_YEAR 1)) ->
  Implements C (layout offset) lo hi.
Proof.
  intros Hms Hml Hyl Hcf Hey. constructor; cbn [layout has_month start length].
  - intros y m Hy Hm%ce_has_spec. rewrite Hms, ce_monthStart_spec by (done || lia).
    by rewrite (proj2 (Z.eqb_neq m 13)) by lia.
  - intros. rewrite Hml. by apply ce_monthLength_spec.
  - intros. rewrite Hyl. by apply ce_yearLength_spec.
  - intros c jd Hjd. destruct (jdToCE_spec jd Hjd) as (y & m & d & Hce & Hy & Hm & Hd & Hjd' & Hdoy).
    assert (1 <= d <= 30) by (unfold ce_length in Hd; repeat case_match; lia).
    apply ce_has_spec in Hm as Hm'. destruct (Hcf c jd y m d Hce Hy Hm' ltac:(done)) as (era & yr & ->).
    eexists _, y, m, d. split; [done|]. split; [done|]. split; [by split|]. split; [done|].
    solve_date_set.
  - done.
Qed.
End Epoch.

(** The year that ERA and YEAR denote when they are newer than EXTENDED_YEAR. *)
Definition era_year_agrees (C : CalendarSystem) (offset : Z) : Prop :=
  forall c jd c' s n,
    ce_start offset lo 0 < jd <= ce_start offset hi 0 ->
    CalendarSystem.handleComputeFields c jd U_ZERO_ERROR = Some (c', U_ZERO_ERROR) ->
    kUnset <= s UCAL_EXTENDED_YEAR < s UCAL_YEAR -> kUnset < s UCAL_ERA ->
    CalendarSystem.handleGetExtendedYear (with_stamps c' s n) = Some (c'.(fFields) UCAL_EXTENDED_YEAR).

End CEFacts.
