(* ===== verification/CopticCalendar.v ===== *)
(** * The Coptic calendar (i18n/coptccal.cpp)

    [CECalendar] with the Coptic epoch and the eras BCE and CE. *)
From S2P Require Import Prelude Int32 Double Grego Calendar CalendarSystem CECalendar.
Local Open Scope Z_scope.

Module CopticCalendar.
Import CECalendar.

Definition BCE : Z := 0.
Definition CE : Z := 1.
Definition COPTIC_JD_EPOCH_OFFSET : Z := 1824665.

Definition handleGetExtendedYear (c : Calendar) : I32 :=
  if newerField c UCAL_EXTENDED_YEAR UCAL_YEAR =? UCAL_EXTENDED_YEAR
  then Some (internalGet_default c UCAL_EXTENDED_YEAR 1)
  else
    let era := internalGet_default c UCAL_ERA CE in
    if era =? BCE then 1 -! internalGet_default c UCAL_YEAR 1
    else Some (internalGet_default c UCAL_YEAR 1).

Definition handleComputeFields (c : Calendar) (julianDay : Z) (status : UErrorCode) :
    option (Calendar * UErrorCode) :=
  let! '(eyear, month, day) := jdToCE julianDay COPTIC_JD_EPOCH_OFFSET in
  let! '(era, year) :=
    (if eyear <=? 0 then let! y := 1 -! eyear in Some (BCE, y) else Some (CE, eyear)) in
  let! doy := 30 *! month +! day in
  Some (internalSets c [(UCAL_EXTENDED_YEAR, eyear); (UCAL_ERA, era); (UCAL_YEAR, year);
          (UCAL_MONTH, month); (UCAL_DATE, day); (UCAL_DAY_OF_YEAR, doy)], status).

Definition system : CalendarSystem := {|
  CalendarSystem.handleGetLimit := CECalendar.handleGetLimit;
  CalendarSystem.handleComputeMonthStart := CECalendar.handleComputeMonthStart COPTIC_JD_EPOCH_OFFSET;
  CalendarSystem.handleGetMonthLength := CECalendar.handleGetMonthLength COPTIC_JD_EPOCH_OFFSET;
  CalendarSystem.handleGetYearLength := CECalendar.handleGetYearLength COPTIC_JD_EPOCH_OFFSET;
  CalendarSystem.handleComputeFields := handleComputeFields;
  CalendarSystem.handleGetExtendedYear := handleGetExtendedYear
|}.
(** ** Correctness *)

Import CEFacts.

Lemma coptic_implements :
  Implements system (layout COPTIC_JD_EPOCH_OFFSET) lo hi.
Proof.
  apply ce_implements; try done.
  - unfold lo, hi. intros c jd y m d Hce Hy Hm Hd. cbn [system CalendarSystem.handleComputeFields].
    unfold handleComputeFields. rewrite Hce. cbn [obind].
    destruct (Z.leb_spec y 0); icalc; eauto.
  - intros c H. cbn. unfold handleGetExtendedYear. by rewrite newerField_default.
Qed.

(** C36: The Coptic calendar: fields and Julian days determine each other from
    the year -5000000 to the year 5000000, and no computation overflows; ERA and
    YEAR denote the extended year. *)
Theorem coptic_roundtrip :
  fields_roundtrip system (layout COPTIC_JD_EPOCH_OFFSET) lo hi /\
  era_year_agrees system COPTIC_JD_EPOCH_OFFSET.
Proof.
  split; [apply implements_roundtrip, coptic_implements|].
  intros c jd c' s n Hjd Hf Hs He. destruct (jdToCE_spec _ jd Hjd)
    as (y & m & d & Hce & Hy & Hm%ce_has_spec & Hd & _ & _). unfold lo, hi in Hy.
  assert (1 <= d <= 30) by (unfold ce_length in Hd; repeat case_match; lia).
  cbn in Hf. unfold handleComputeFields in Hf. rewrite Hce in Hf. cbn [obind] in Hf.
  cbn. unfold handleGetExtendedYear, newerField, internalGet_default.
  cbn [with_stamps fStamp fFields]. rewrite !Z.gtb_ltb. unfold kUnset in *.
  assert (forall a b, a < b -> (a <? b) = true) as Hlt by (intros; by apply Z.ltb_lt).
  rewrite (Hlt (s UCAL_EXTENDED_YEAR)), (Hlt 0 (s UCAL_ERA)), (Hlt 0 (s UCAL_YEAR)) by lia.
  revert Hf. destruct (Z.leb_spec y 0); icalc; intros [= <-]; cbn; [|done].
  rewrite checked_ok by ibound. f_equal. lia.
Qed.

End CopticCalendar.
