(* ===== verification/EthiopicCalendar.v ===== *)
(** * The Ethiopic calendar (i18n/ethpccal.cpp)

    [CECalendar] with the Ethiopic epoch.  A calendar numbers its years either
    in two eras, from the incarnation and from the creation, or all of them
    from the creation. *)
From S2P Require Import Prelude Int32 Double Grego Calendar CalendarSystem CECalendar.
Local Open Scope Z_scope.

Module EthiopicCalendar.
Import CECalendar.

Inductive EEraType := AMETE_MIHRET_ERA | AMETE_ALEM_ERA.

Definition AMETE_ALEM : Z := 0.
Definition AMETE_MIHRET : Z := 1.
Definition JD_EPOCH_OFFSET_AMETE_MIHRET : Z := 1723856.
Definition AMETE_MIHRET_DELTA : Z := 5500.

Definition isAmeteAlemEra (eraType : EEraType) : bool :=
  match eraType with AMETE_ALEM_ERA => true | AMETE_MIHRET_ERA => false end.

Definition handleGetExtendedYear (eraType : EEraType) (c : Calendar) : I32 :=
  if newerField c UCAL_EXTENDED_YEAR UCAL_YEAR =? UCAL_EXTENDED_YEAR
  then Some (internalGet_default c UCAL_EXTENDED_YEAR 1)
  else if isAmeteAlemEra eraType
  then internalGet_default c UCAL_YEAR (1 + AMETE_MIHRET_DELTA) -! AMETE_MIHRET_DELTA
  else
    let era := internalGet_default c UCAL_ERA AMETE_MIHRET in
    if era =? AMETE_MIHRET then Some (internalGet_default c UCAL_YEAR 1)
    else internalGet_default c UCAL_YEAR 1 -! AMETE_MIHRET_DELTA.

Definition handleComputeFields (eraType : EEraType) (c : Calendar) (julianDay : Z)
    (status : UErrorCode) : option (Calendar * UErrorCode) :=
  let! '(eyear, month, day) := jdToCE julianDay JD_EPOCH_OFFSET_AMETE_MIHRET in
  let! '(era, year) :=
    (if isAmeteAlemEra eraType then let! y := eyear +! AMETE_MIHRET_DELTA in Some (AMETE_ALEM, y)
     else if eyear >? 0 then Some (AMETE_MIHRET, eyear)
     else let! y := eyear +! AMETE_MIHRET_DELTA in Some (AMETE_ALEM, y)) in
  let! doy := 30 *! month +! day in
  Some (internalSets c [(UCAL_EXTENDED_YEAR, eyear); (UCAL_ERA, era); (UCAL_YEAR, year);
          (UCAL_MONTH, month); (UCAL_DATE, day); (UCAL_DAY_OF_YEAR, doy)], status).

Definition handleGetLimit (eraType : EEraType) (field : Z) (limitType : ELimitType) : option Z :=
  if isAmeteAlemEra eraType && (field =? UCAL_ERA) then Some 0
  else CECalendar.handleGetLimit field limitType.

Definition system (eraType : EEraType) : CalendarSystem := {|
  CalendarSystem.handleGetLimit := handleGetLimit eraType;
  CalendarSystem.handleComputeMonthStart :=
    CECalendar.handleComputeMonthStart JD_EPOCH_OFFSET_AMETE_MIHRET;
  CalendarSystem.handleGetMonthLength := CECalendar.handleGetMonthLength JD_EPOCH_OFFSET_AMETE_MIHRET;
  CalendarSystem.handleGetYearLength := CECalendar.handleGetYearLength JD_EPOCH_OFFSET_AMETE_MIHRET;
  CalendarSystem.handleComputeFields := handleComputeFields eraType;
  CalendarSystem.handleGetExtendedYear := handleGetExtendedYear eraType
|}.
(** ** Correctness *)

Import CEFacts.

Lemma ethiopic_implements eraType :
  Implements (system eraType) (layout JD_EPOCH_OFFSET_AMETE_MIHRET) lo hi.
Proof.
  apply ce_implements; try done.
  - unfold lo, hi. intros c jd y m d Hce Hy Hm Hd. cbn [system CalendarSystem.handleComputeFields].
    unfold handleComputeFields. rewrite Hce. cbn [obind].
    destruct eraType; cbn [isAmeteAlemEra]; rewrite ?Z.gtb_ltb;
      [destruct (Z.ltb_spec 0 y)|]; unfold AMETE_MIHRET_DELTA; icalc; eauto.
  - intros c H. cbn. unfold handleGetExtendedYear. by rewrite newerField_default.
Qed.
(** The Ethiopic calendar, with either numbering of the eras: fields and
    Julian days determine each other without overflow. *)
Theorem ethiopic_roundtrip eraType :
  fields_roundtrip (system eraType)
    (layout JD_EPOCH_OFFSET_AMETE_MIHRET) lo hi.
Proof. apply implements_roundtrip, ethiopic_implements. Qed.
End EthiopicCalendar.
