(* ===== verification/PersianCalendar.v ===== *)
(** * The Persian calendar (i18n/persncal.cpp)

    Six months of 31 days, five of 30 and a last one of 29 or 30; leap years
    follow a cycle of 33 years. *)
From S2P Require Import Prelude Int32 Double Grego Calendar CalendarSystem.
Local Open Scope Z_scope.

Module PersianCalendar.
Import ClockMath.

Definition kPersianNumDays : list Z := [0;31;62;93;124;155;186;216;246;276;306;336].
Definition kPersianMonthLength : list Z := [31;31;31;31;31;31;30;30;30;30;30;29].
Definition kPersianLeapMonthLength : list Z := [31;31;31;31;31;31;30;30;30;30;30;30].

Definition kPersianCalendarLimits : list (list Z) :=
  [[0; 0; 0; 0]; (* ERA *)
   [-5000000; -5000000; 5000000; 5000000]; (* YEAR *)
   [0; 0; 11; 11]; (* MONTH *)
   [1; 1; 52; 53]; (* WEEK_OF_YEAR *)
   N_A; (* WEEK_OF_MONTH *)
   [1; 1; 29; 31]; (* DAY_OF_MONTH *)
   [1; 1; 365; 366]; (* DAY_OF_YEAR *)
   N_A; (* DAY_OF_WEEK *)
   [1; 1; 5; 5]; (* DAY_OF_WEEK_IN_MONTH *)
   N_A; N_A; N_A; N_A; N_A; N_A; N_A; N_A; (* AM_PM .. DST_OFFSET *)
   [-5000000; -5000000; 5000000; 5000000]; (* YEAR_WOY *)
   N_A; (* DOW_LOCAL *)
   [-5000000; -5000000; 5000000; 5000000]; (* EXTENDED_YEAR *)
   N_A; N_A; N_A; (* JULIAN_DAY, MILLISECONDS_IN_DAY, IS_LEAP_MONTH *)
   [0; 0; 0; 0]].

Definition PERSIAN_EPOCH : Z := 1948320.

Definition handleGetLimit (field : Z) (limitType : ELimitType) : option Z :=
  limit_at kPersianCalendarLimits field limitType.

Definition isLeapYear (year : Z) : option bool :=
  let! n := 25 *! year +! 11 in
  let! '(_, remainder) := floorDivide_int (of_int n) 33 in
  Some (remainder <? 8).

Definition handleGetMonthLength (extendedYear month : Z) : I32 :=
  let! '(extendedYear, month) := adjust_month extendedYear month in
  let! leap := isLeapYear extendedYear in
  aget (if leap then kPersianLeapMonthLength else kPersianMonthLength) month.

Definition handleGetYearLength (extendedYear : Z) : I32 :=
  let! leap := isLeapYear extendedYear in
  Some (if leap then 366 else 365).

Definition handleComputeMonthStart (eyear month : Z) : I32 :=
  let! '(eyear, month) := adjust_month eyear month in
  let! julianDay := PERSIAN_EPOCH -! 1 +! 365 *! (eyear -! 1) +! floorDivide (8 *! eyear +! 21) 33 in
  if negb (month =? 0) then let! n := aget kPersianNumDays month in julianDay +! n
  else Some julianDay.

(** Offsets from the epoch. *)
Definition yearStart (year : Z) : I32 := handleComputeMonthStart year 0.
Definition monthStart (year month : Z) : I32 := handleComputeMonthStart year month.

Definition handleGetExtendedYear (c : Calendar) : I32 := Defaults.handleGetExtendedYear c.

Definition handleComputeFields (c : Calendar) (julianDay : Z) (status : UErrorCode) :
    option (Calendar * UErrorCode) :=
  let! daysSinceEpoch := julianDay -! PERSIAN_EPOCH in
  let! year := 1 +! floorDivide (33 *! daysSinceEpoch +! 3) 12053 in
  let! farvardin1 := 365 *! (year -! 1) +! floorDivide (8 *! year +! 21) 33 in
  let! dayOfYear := daysSinceEpoch -! farvardin1 in
  let! month := if dayOfYear <? 216 then dayOfYear /! 31 else (dayOfYear -! 6) /! 30 in
  let! n := aget kPersianNumDays month in
  let! dayOfMonth := dayOfYear -! n +! 1 in
  let! dayOfYear := dayOfYear +! 1 in
  Some (internalSets c [(UCAL_ERA, 0); (UCAL_YEAR, year); (UCAL_EXTENDED_YEAR, year);
          (UCAL_MONTH, month); (UCAL_DAY_OF_MONTH, dayOfMonth); (UCAL_DAY_OF_YEAR, dayOfYear)], status).

Definition system : CalendarSystem := {|
  CalendarSystem.handleGetLimit := handleGetLimit;
  CalendarSystem.handleComputeMonthStart := handleComputeMonthStart;
  CalendarSystem.handleGetMonthLength := handleGetMonthLength;
  CalendarSystem.handleGetYearLength := handleGetYearLength;
  CalendarSystem.handleComputeFields := handleComputeFields;
  CalendarSystem.handleGetExtendedYear := handleGetExtendedYear
|}.

(** ** The abstract calendar *)

Definition leap (y : Z) : bool := (25 * y + 11) mod 33 <? 8.
Definition year_start (y : Z) : Z := PERSIAN_EPOCH - 1 + 365 * (y - 1) + (8 * y + 21) / 33.
Definition num_days (m : Z) : Z := if m <? 6 then 31 * m else 30 * m + 6.
Definition p_start (y m : Z) : Z := year_start y + num_days m.
Definition p_length (y m : Z) : Z :=
  if m <? 6 then 31 else if m <? 11 then 30 else if leap y then 30 else 29.
Definition p_has (y m : Z) : bool := (0 <=? m) && (m <=? 11).

Lemma p_has_spec y m : p_has y m = true <-> 0 <= m <= 11.
Proof. unfold p_has. rewrite andb_true_iff, !Z.leb_le. done. Qed.

(** The leap years are those that the years' starts leave room for. *)
Lemma year_start_step y : year_start (y + 1) = year_start y + (if leap y then 366 else 365).
Proof.
  unfold year_start, leap. destruct (Z.ltb_spec ((25 * y + 11) mod 33) 8); dlia.
Qed.

#[refine] Definition layout : MonthLayout :=
  {| has_month := p_has; start := p_start; length := p_length |}.
Proof.
  - done.
  - intros y m ?%p_has_spec. lia.
  - intros y m _. unfold p_length. repeat case_match; lia.
  - intros y m m' ?%p_has_spec ?%p_has_spec ?. unfold p_start, p_length, num_days.
    destruct (Z.ltb_spec m 6), (Z.ltb_spec m' 6), (Z.ltb_spec m 11); try lia.
  - intros y m ?%p_has_spec. unfold p_start, p_length, num_days. rewrite year_start_step.
    destruct (Z.ltb_spec m 6), (Z.ltb_spec m 11), (leap y); cbn; lia.
  - intros y m Hm%p_has_spec. unfold p_start, p_length. destruct (Z.ltb_spec m 11).
    + exists y, (m + 1). split; [apply p_has_spec; lia|]. split; [lia|].
      unfold num_days. destruct (Z.ltb_spec m 6), (Z.ltb_spec (m + 1) 6); lia.
    + exists (y + 1), 0. split; [done|]. split; [lia|]. rewrite year_start_step.
      replace m with 11 by lia. cbn. destruct (leap y); lia.
Defined.

Definition lo : Z := -178000.
Definition hi : Z := 178000.

Definition year_in (y : Z) : Prop := lo <= y <= hi.

Lemma persian_isLeapYear_spec y : year_in y -> isLeapYear y = Some (leap y).
Proof.
  unfold year_in, lo, hi. intros. unfold isLeapYear. icalc.
  by rewrite floorDivide_int_ok by dlia.
Qed.

Lemma num_days_spec m : 0 <= m <= 11 -> aget kPersianNumDays m = Some (num_days m).
Proof. intros. Gregorian.month_cases m; reflexivity. Qed.

Lemma persian_monthStart_spec y m :
  year_in y -> 0 <= m <= 11 -> handleComputeMonthStart y m = Some (p_start y m).
Proof.
  unfold year_in, lo, hi. intros Hy Hm. unfold handleComputeMonthStart.
  rewrite adjust_month_id by done. unfold PERSIAN_EPOCH. icalc.
  rewrite floorDivide_ok by ibound. icalc.
  unfold p_start, year_start, PERSIAN_EPOCH.
  destruct (Z.eqb_spec m 0) as [->|]; cbn [negb].
  - change (num_days 0) with 0. f_equal. lia.
  - rewrite num_days_spec by done. assert (0 <= num_days m <= 400) by (unfold num_days; case_match; lia).
    icalc. f_equal; lia.
Qed.

(** The code's estimate of the year is exact. *)
Lemma year_of_day d :
  let y := 1 + (33 * d + 3) / 12053 in
  year_start y < d + PERSIAN_EPOCH <= year_start (y + 1).
Proof. unfold year_start. split; dlia. Qed.

Definition month_of (doy : Z) : Z := if doy <? 216 then doy / 31 else (doy - 6) / 30.

Lemma persian_month_of_spec y doy :
  0 <= doy < (if leap y then 366 else 365) ->
  0 <= month_of doy <= 11 /\ num_days (month_of doy) <= doy < num_days (month_of doy) + p_length y (month_of doy).
Proof.
  intros Hd. set (check := fun doy => let m := month_of doy in
    (0 <=? m) && (m <=? 11) && (num_days m <=? doy) && (doy <? num_days m + p_length y m)).
  assert (H : all_below (if leap y then 366 else 365) check = true).
  { unfold check, p_length. destruct (leap y); vm_compute; done. }
  pose proof (all_below_spec _ _ H doy Hd) as Hc. unfold check in Hc.
  rewrite !andb_true_iff, !Z.leb_le, Z.ltb_lt in Hc. lia.
Qed.

Lemma persian_implements : Implements system layout lo hi.
Proof.
  constructor; cbn [system layout CalendarSystem.handleComputeMonthStart
    CalendarSystem.handleGetMonthLength CalendarSystem.handleGetYearLength
    CalendarSystem.handleComputeFields CalendarSystem.handleGetExtendedYear has_month start length].
  - intros y m Hy Hm%p_has_spec. by apply persian_monthStart_spec.
  - intros y m Hy Hm%p_has_spec. unfold handleGetMonthLength. rewrite adjust_month_id by done.
    cbn [obind]. rewrite persian_isLeapYear_spec by (unfold year_in; lia). cbn [obind].
    unfold p_length. destruct (leap y); Gregorian.month_cases m; reflexivity.
  - intros y Hy. unfold handleGetYearLength. rewrite persian_isLeapYear_spec by (unfold year_in; lia).
    cbn [obind]. unfold p_start. rewrite year_start_step. f_equal. destruct (leap y); lia.
  - intros c jd Hjd. pose proof (year_of_day (jd - PERSIAN_EPOCH)) as Hy. cbn zeta in Hy.
    unfold handleComputeFields.
    change (p_start lo 0) with (-63065197) in Hjd. change (p_start hi 0) with 66961106 in Hjd.
    assert (Hr : -65013517 < jd - PERSIAN_EPOCH <= 65012786) by (unfold PERSIAN_EPOCH; lia).
    unfold PERSIAN_EPOCH in *. icalc. set (d := jd - 1948320) in *. assert (jd = d + 1948320) by (unfold d; lia). clearbody d.
    rewrite floorDivide_ok by ibound. icalc. set (y := 1 + (33 * d + 3) / 12053) in *.
    assert (Hyr : lo <= y < hi) by (unfold y, lo, hi; clear - Hr; dlia).
    clearbody y. unfold lo, hi in Hyr. icalc. rewrite floorDivide_ok by ibound. icalc.
    set (far := 365 * (y - 1) + (8 * y + 21) / 33) in *.
    assert (Hfar : year_start y = far + 1948319) by (unfold year_start, far, PERSIAN_EPOCH; lia).
    rewrite year_start_step, Hfar in Hy.
    assert (Hdoy : 0 <= d - far < if leap y then 366 else 365) by (destruct (leap y); lia).
    pose proof (persian_month_of_spec y _ Hdoy) as [Hm Hb].
    assert (d - far <= 365) by (destruct (leap y); lia).
    icalc. replace (if d - far <? 216 then _ else _) with (Some (month_of (d - far)))
      by (unfold month_of; destruct (Z.ltb_spec (d - far) 216);
          rewrite Z.quot_div_nonneg by lia; done).
    cbn [obind]. rewrite num_days_spec by done. set (m := month_of (d - far)) in *.
    assert (0 <= num_days m <= 400) by (unfold num_days; clear - Hm; case_match; lia). icalc.
    eexists _, y, m, (d - far - num_days m + 1). split; [done|]. split; [unfold lo, hi; lia|].
    split; [split; [by apply p_has_spec|cbn; lia]|].
    split; [cbn; unfold p_start; rewrite Hfar; lia|].
    solve_date_set. cbn. unfold p_start. change (num_days 0) with 0. lia.
  - intros c. apply default_extended_year.
Qed.

(** The Persian calendar: from the year -178000 to the year 177999 fields
    and Julian days determine each other, the month and year lengths separate
    the starts of months and years, and no computation overflows. *)
Theorem persian_roundtrip : fields_roundtrip system layout lo hi.
Proof. apply implements_roundtrip, persian_implements. Qed.

(** C40: The calendar accepts Julian days up to 0x7F000000 and years up to
    5000000, but [handleComputeFields] multiplies the days since the epoch by
    33 in 32 bits: every day from 67023583 on overflows. *)
Theorem persian_overflow c jd status :
  67023583 <= jd <= 0x7F000000 -> handleComputeFields c jd status = None.
Proof.
  intros Hjd. unfold handleComputeFields, PERSIAN_EPOCH. icalc.
  unfold imul at 1. cbn [obind]. unfold checked.
  assert (in_int32 (33 * (jd - 1948320)) = false) as ->; [|done].
  unfold in_int32, INT32_MIN, INT32_MAX. apply andb_false_iff. right. apply Z.leb_gt. lia.
Qed.

Lemma persian_overflow_witness :
  67023583 <= 100000000 <= 0x7F000000 /\
  handleComputeFields (mkCalendar (fun _ => 0) (fun _ => 0) 2 false false false false (of_int 0)
    true 1 1 0 0 0 0) 100000000 U_ZERO_ERROR = None.
Proof. split; [lia|apply persian_overflow; lia]. Defined.
End PersianCalendar.
