(* ===== verification/IndianCalendar.v ===== *)
(** * The Indian national calendar (i18n/indiancal.cpp)

    The year begins on 22 March, or 21 March in Gregorian leap years.  The
    source converts through the Gregorian calendar with Julian days that begin
    at midnight, that is with half-integral doubles. *)
From S2P Require Import Prelude Int32 Double Grego Calendar CalendarSystem.
Local Open Scope Z_scope.

Module IndianCalendar.
Import ClockMath.

Definition LIMITS : list (list Z) :=
  [[0; 0; 0; 0]; (* ERA *)
   [-5000000; -5000000; 5000000; 5000000]; (* YEAR *)
   [0; 0; 11; 11]; (* MONTH *)
   [1; 1; 52; 53]; (* WEEK_OF_YEAR *)
   N_A; (* WEEK_OF_MONTH *)
   [1; 1; 30; 31]; (* DAY_OF_MONTH *)
   [1; 1; 365; 366]; (* DAY_OF_YEAR *)
   N_A; (* DAY_OF_WEEK *)
   [-1; -1; 5; 5]; (* DAY_OF_WEEK_IN_MONTH *)
   N_A; N_A; N_A; N_A; N_A; N_A; N_A; N_A; (* AM_PM .. DST_OFFSET *)
   [-5000000; -5000000; 5000000; 5000000]; (* YEAR_WOY *)
   N_A; (* DOW_LOCAL *)
   [-5000000; -5000000; 5000000; 5000000]; (* EXTENDED_YEAR *)
   N_A; N_A; N_A; (* JULIAN_DAY, MILLISECONDS_IN_DAY, IS_LEAP_MONTH *)
   [0; 0; 0; 0]].

(** 1721425.5 *)
Definition JULIAN_EPOCH : double := half 3442851.
Definition INDIAN_ERA_START : Z := 78.
Definition INDIAN_YEAR_START : Z := 80.

Definition handleGetLimit (field : Z) (limitType : ELimitType) : option Z :=
  limit_at LIMITS field limitType.

Definition isGregorianLeap (year : Z) : bool :=
  (Z.rem year 4 =? 0) && negb ((Z.rem year 100 =? 0) && negb (Z.rem year 400 =? 0)).

Definition handleGetMonthLength (eyear month : Z) : I32 :=
  let! '(eyear, month) := adjust_month eyear month in
  let! g := eyear +! INDIAN_ERA_START in
  Some (if isGregorianLeap g && (month =? 0) then 31
        else if (month >=? 1) && (month <=? 5) then 31
        else 30).

Definition handleGetYearLength (eyear : Z) : I32 :=
  let! g := eyear +! INDIAN_ERA_START in
  Some (if isGregorianLeap g then 366 else 365).

(** [uprv_floor] of an [int32_t] expression *)
Definition floor_int (z : Z) : double := uprv_floor (of_int z).

Definition gregorianToJD (year month date : Z) : option double :=
  let! days := 365 *! (year -! 1) in
  let! q4 := (year -! 1) /! 4 in
  let! q100 := (year -! 1) /! 100 in
  let! q400 := (year -! 1) /! 400 in
  let! rest := (367 *! month -! 362) /! 12
    +! (if month <=? 2 then 0 else if isGregorianLeap year then -1 else -2) +! date in
  Some (dadd (dadd (dadd (dadd (dadd (dsub JULIAN_EPOCH (of_int 1)) (of_int days))
    (floor_int q4)) (dsub (of_int 0) (floor_int q100))) (floor_int q400)) (floor_int rest)).

(** The Gregorian year, month and day of a Julian day. *)
Definition jdToGregorian (jd : double) : option (Z * Z * Z) :=
  let wjd := dadd (uprv_floor (dsub jd (half 1))) (half 1) in
  let depoch := dsub wjd JULIAN_EPOCH in
  let quadricent := uprv_floor (ddiv depoch (of_int 146097)) in
  let! dqc := to_int32 (uprv_floor depoch) %! 146097 in
  let cent := uprv_floor (ddiv (of_int dqc) (of_int 36524)) in
  let! dcent := to_int32 (uprv_floor (of_int dqc)) %! 36524 in
  let quad := uprv_floor (ddiv (of_int dcent) (of_int 1461)) in
  let! dquad := to_int32 (uprv_floor (of_int dcent)) %! 1461 in
  let yindex := uprv_floor (ddiv (of_int dquad) (of_int 365)) in
  let! year := to_int32 (dadd (dadd (dadd (dmul quadricent (of_int 400)) (dmul cent (of_int 100)))
                                    (dmul quad (of_int 4))) yindex) in
  let! year := if negb (deq cent (of_int 4) || deq yindex (of_int 4)) then year +! 1 else Some year in
  let! jan1 := gregorianToJD year 1 1 in
  let! mar1 := gregorianToJD year 3 1 in
  let yearday := dsub wjd jan1 in
  let leapadj := if dlt wjd mar1 then 0 else if isGregorianLeap year then 1 else 2 in
  let! month := to_int32 (uprv_floor (ddiv (dadd (dmul (dadd yearday (of_int leapadj)) (of_int 12))
                                                 (of_int 373)) (of_int 367))) in
  let! first := gregorianToJD year month 1 in
  let! day := to_int32 (dsub wjd first) +! 1 in
  Some (year, month, day).

Definition IndianToJD (year month date : Z) : option double :=
  let! gyear := year +! INDIAN_ERA_START in
  let leapMonth := if isGregorianLeap gyear then 31 else 30 in
  let! start := if isGregorianLeap gyear then gregorianToJD gyear 3 21
                else gregorianToJD gyear 3 22 in
  if month =? 1 then
    let! d := date -! 1 in Some (dadd start (of_int d))
  else
    let jd := dadd start (of_int leapMonth) in
    let! m := month -! 2 in
    let m := if m >? 5 then 5 else m in
    let! md := m *! 31 in
    let jd := dadd jd (of_int md) in
    let! jd := (if month >=? 8 then
                  let! m := month -! 7 in let! md := m *! 30 in Some (dadd jd (of_int md))
                else Some jd) in
    let! d := date -! 1 in
    Some (dadd jd (of_int d)).

Definition handleComputeMonthStart (eyear month : Z) : I32 :=
  let! '(eyear, month) := adjust_month eyear month in
  let! imonth := if month =? 12 then Some 1 else month +! 1 in
  let! jd := IndianToJD eyear imonth 1 in
  to_int32 jd.

Definition handleGetExtendedYear (c : Calendar) : I32 := Defaults.handleGetExtendedYear c.

(** The month and the day of a day of the year, the first month having
    [leapMonth] days. *)
Definition month_and_day (yday leapMonth : Z) : option (Z * Z) :=
  if yday <? leapMonth then let! d := yday +! 1 in Some (0, d)
   else
     let! mday := yday -! leapMonth in
     if mday <? 31 * 5 then
       let! m := mday /! 31 in
       let! q := to_int32 (floor_int m) in
       let! month := q +! 1 in
       let! d := mday %! 31 +! 1 in
       Some (month, d)
     else
       let! mday := mday -! 31 * 5 in
       let! m := mday /! 30 in
       let! q := to_int32 (floor_int m) in
       let! month := q +! 6 in
       let! d := mday %! 30 +! 1 in
       Some (month, d).

Definition handleComputeFields (c : Calendar) (julianDay : Z) (status : UErrorCode) :
    option (Calendar * UErrorCode) :=
  let! '(gregorianYear, _, _) := jdToGregorian (of_int julianDay) in
  let! IndianYear := gregorianYear -! INDIAN_ERA_START in
  let! jdAtStartOfGregYear := gregorianToJD gregorianYear 1 1 in
  let! yday := to_int32 (dsub (of_int julianDay) jdAtStartOfGregYear) in
  let! '(IndianYear, leapMonth, yday) :=
    (if yday <? INDIAN_YEAR_START then
       let! IndianYear := IndianYear -! 1 in
       let! g := gregorianYear -! 1 in
       let leapMonth := if isGregorianLeap g then 31 else 30 in
       let! yday := yday +! (leapMonth +! 31 *! 5 +! 30 *! 3 +! 10) in
       Some (IndianYear, leapMonth, yday)
     else
       let leapMonth := if isGregorianLeap gregorianYear then 31 else 30 in
       let! yday := yday -! INDIAN_YEAR_START in
       Some (IndianYear, leapMonth, yday)) in
  let! '(IndianMonth, IndianDayOfMonth) := month_and_day yday leapMonth in
  let! doy := yday +! 1 in
  Some (internalSets c [(UCAL_ERA, 0); (UCAL_EXTENDED_YEAR, IndianYear); (UCAL_YEAR, IndianYear);
          (UCAL_MONTH, IndianMonth); (UCAL_DAY_OF_MONTH, IndianDayOfMonth);
          (UCAL_DAY_OF_YEAR, doy)], status).

Definition system : CalendarSystem := {|
  CalendarSystem.handleGetLimit := handleGetLimit;
  CalendarSystem.handleComputeMonthStart := handleComputeMonthStart;
  CalendarSystem.handleGetMonthLength := handleGetMonthLength;
  CalendarSystem.handleGetYearLength := handleGetYearLength;
  CalendarSystem.handleComputeFields := handleComputeFields;
  CalendarSystem.handleGetExtendedYear := handleGetExtendedYear
|}.

(** ** The abstract calendar *)

Import Gregorian.

Lemma isGregorianLeap_spec y : isGregorianLeap y = leap y.
Proof.
  apply eq_iff_eq_true. rewrite leap_spec. unfold isGregorianLeap.
  rewrite andb_true_iff, negb_true_iff, andb_false_iff, negb_false_iff, !Z.eqb_eq, Z.eqb_neq. dlia.
Qed.

(** The Julian day number of 1 January of the Gregorian year [g], less one. *)
Definition before_year (g : Z) : Z := days_before_year g + 1721425.

Lemma half_int z : of_int z = half (2 * z).
Proof. by rewrite half_even. Qed.

Lemma floor_int_half z : floor_int z = half (2 * z).
Proof. unfold floor_int. rewrite half_int, uprv_floor_half, half_int. f_equal. dlia. Qed.

Definition greg_in (g : Z) : Prop := 1 <= g <= 5002000.

Lemma gregorianToJD_spec g m d :
  greg_in g -> 1 <= m <= 12 -> 1 <= d <= 31 ->
  gregorianToJD g m d = Some (half (2 * (before_year g + days_before_month g (m - 1) + d) - 1)).
Proof.
  unfold greg_in. intros Hg Hm Hd. unfold gregorianToJD, JULIAN_EPOCH. rewrite isGregorianLeap_spec.
  icalc. set (corr := if m <=? 2 then 0 else if leap g then -1 else -2).
  replace (if m <=? 2 then _ else _) with (Some corr)
    by (unfold corr; destruct (m <=? 2), (leap g); done).
  assert (Hcorr : -2 <= corr <= 0) by (unfold corr; repeat case_match; lia).
  assert (Hdbm : (367 * m - 362) / 12 + corr = days_before_month g (m - 1)).
  { unfold corr, days_before_month. remember (m - 1) as m0. replace m with (m0 + 1) by lia.
    clear - Heqm0 Hm. assert (0 <= m0 <= 11) by lia.
    destruct (leap g); month_cases m0; reflexivity. }
  icalc. rewrite !floor_int_half, (half_int (365 * _)), (half_int 1), (half_int 0).
  rewrite !dsub_half by (clear - Hg; dlia).
  rewrite !dadd_half by (clear - Hg Hm Hd Hcorr; dlia).
  unfold before_year, days_before_year. do 2 f_equal. lia.
Qed.

Definition i_leap (y : Z) : bool := leap (y + 78).
Definition i_first (y : Z) : Z := if i_leap y then 31 else 30.
Definition i_days (y m : Z) : Z :=
  if m =? 0 then 0 else if m <? 7 then i_first y + 31 * (m - 1) else i_first y + 155 + 30 * (m - 6).
Definition i_start (y m : Z) : Z := before_year (y + 78) + 80 + i_days y m.
Definition i_length (y m : Z) : Z := if m =? 0 then i_first y else if m <? 6 then 31 else 30.
Definition i_has (y m : Z) : bool := (0 <=? m) && (m <=? 11).

Lemma i_has_spec y m : i_has y m = true <-> 0 <= m <= 11.
Proof. unfold i_has. rewrite andb_true_iff, !Z.leb_le. done. Qed.

Lemma i_start_step y : i_start (y + 1) 0 = i_start y 0 + (if i_leap y then 366 else 365).
Proof.
  unfold i_start, before_year. replace (y + 1 + 78) with (y + 78 + 1) by lia.
  rewrite days_before_year_step. unfold year_length, i_leap. cbn [i_days Z.eqb]. lia.
Qed.

Lemma i_first_range y : 30 <= i_first y <= 31.
Proof. unfold i_first. case_match; lia. Qed.

(** The months follow each other. *)
Lemma i_days_step y m : 0 <= m < 11 -> i_days y (m + 1) = i_days y m + i_length y m.
Proof.
  intros. unfold i_days, i_length. rewrite (proj2 (Z.eqb_neq (m + 1) 0)) by lia.
  destruct (Z.eqb_spec m 0); [rewrite (proj2 (Z.ltb_lt (m + 1) 7)) by lia; lia|].
  destruct (Z.ltb_spec (m + 1) 7), (Z.ltb_spec m 7), (Z.ltb_spec m 6); lia.
Qed.

Lemma i_days_mono y m m' : 0 <= m -> m < m' <= 11 -> i_days y m + i_length y m <= i_days y m'.
Proof.
  intros Hm Hm'. pose proof (i_first_range y). unfold i_days, i_length.
  rewrite (proj2 (Z.eqb_neq m' 0)) by lia. destruct (Z.eqb_spec m 0).
  - destruct (Z.ltb_spec m' 7); lia.
  - destruct (Z.ltb_spec m' 7), (Z.ltb_spec m 7), (Z.ltb_spec m 6); lia.
Qed.

Lemma i_start_last y : i_start y 11 + i_length y 11 = i_start (y + 1) 0.
Proof.
  rewrite i_start_step. unfold i_start. change (i_days y 11) with (i_first y + 155 + 30 * (11 - 6)).
  change (i_days y 0) with 0. change (i_length y 11) with 30. unfold i_first. case_match; lia.
Qed.

#[refine] Definition layout : MonthLayout :=
  {| has_month := i_has; start := i_start; CalendarSystem.length := i_length |}.
Proof.
  - done.
  - intros y m ?%i_has_spec. lia.
  - intros y m _. unfold i_length, i_first. repeat case_match; lia.
  - intros y m m' ?%i_has_spec ?%i_has_spec ?. unfold i_start.
    pose proof (i_days_mono y m m'). lia.
  - intros y m Hm%i_has_spec. rewrite <- i_start_last. unfold i_start.
    destruct (Z.eq_dec m 11) as [->|]; [lia|].
    pose proof (i_days_mono y m 11). change (i_length y 11) with 30. lia.
  - intros y m Hm%i_has_spec. destruct (Z.eq_dec m 11) as [->|].
    + exists (y + 1), 0. split; [done|]. split; [lia|]. apply i_start_last.
    + exists y, (m + 1). split; [apply i_has_spec; lia|]. split; [lia|].
      unfold i_start. rewrite i_days_step by lia. lia.
Defined.

(** From the Gregorian year 1. *)
Definition lo : Z := -77.
Definition hi : Z := 5000001.

Lemma indian_monthStart_spec y m :
  lo <= y <= hi -> 0 <= m <= 11 -> handleComputeMonthStart y m = Some (i_start y m).
Proof.
  unfold lo, hi. intros Hy Hm. unfold handleComputeMonthStart. rewrite adjust_month_id by done.
  cbn [obind]. rewrite (proj2 (Z.eqb_neq m 12)) by lia. icalc.
  unfold IndianToJD, INDIAN_ERA_START. icalc. rewrite isGregorianLeap_spec.
  set (g := y + 78). assert (Hg : greg_in g) by (unfold greg_in, g; lia).
  set (jdn := before_year g + 81).
  replace (if leap g then gregorianToJD g 3 21 else gregorianToJD g 3 22) with (Some (half (2 * jdn - 1))).
  2:{ assert (Hm2 : days_before_month g (3 - 1) = if leap g then 60 else 59)
        by (unfold days_before_month; destruct (leap g); reflexivity).
      destruct (leap g); rewrite gregorianToJD_spec, Hm2 by (done || lia); do 2 f_equal;
        unfold jdn; lia. }
  assert (Hjdn : 1700000 <= jdn <= 1900000000) by (unfold jdn, before_year, days_before_year; unfold greg_in in Hg; dlia).
  replace (if leap g then _ else _) with (i_first y) by (unfold i_first, i_leap; fold g; done).
  cbn [obind]. pose proof (i_first_range y).
  assert (Hfin : forall k, 0 <= k <= 400 -> jdn + k - 1 = i_start y m ->
    to_int32 (half (2 * (jdn + k) - 1)) = Some (i_start y m)).
  { intros k Hk <-. rewrite to_int32_half; [f_equal; dlia|ibound]. }
  destruct (Z.eqb_spec (m + 1) 1).
  - icalc. cbn [obind]. rewrite half_int, dadd_half by lia.
    replace (2 * jdn - 1 + 2 * (1 - 1)) with (2 * (jdn + 0) - 1) by lia. apply Hfin; [lia|].
    unfold i_start. fold g. replace m with 0 by lia. cbn. lia.
  - icalc. set (k := if m + 1 - 2 >? 5 then 5 else m + 1 - 2).
    assert (Hk : 0 <= k <= 5) by (unfold k; rewrite Z.gtb_ltb; destruct (Z.ltb_spec 5 (m + 1 - 2)); lia).
    icalc. rewrite Z.geb_leb.
    destruct (Z.leb_spec 8 (m + 1)); icalc; rewrite !half_int, !dadd_half by lia.
    + replace (_ + 2 * (1 - 1)) with (2 * (jdn + (i_first y + k * 31 + (m + 1 - 7) * 30)) - 1) by lia.
      assert (k = 5) by (unfold k; rewrite Z.gtb_ltb; destruct (Z.ltb_spec 5 (m + 1 - 2)); lia).
      apply Hfin; [lia|]. unfold i_start, i_days, jdn. fold g.
      rewrite (proj2 (Z.eqb_neq m 0)), (proj2 (Z.ltb_ge m 7)) by lia. lia.
    + replace (_ + 2 * (1 - 1)) with (2 * (jdn + (i_first y + k * 31)) - 1) by lia.
      apply Hfin; [lia|]. unfold i_start, i_days, jdn. fold g.
      rewrite (proj2 (Z.eqb_neq m 0)), (proj2 (Z.ltb_lt m 7)) by lia.
      unfold k. rewrite Z.gtb_ltb. destruct (Z.ltb_spec 5 (m + 1 - 2)); lia.
Qed.

Lemma uprv_floor_int z : uprv_floor (of_int z) = of_int z.
Proof. unfold uprv_floor, of_int. by rewrite Qfloor_Z. Qed.

(** The conversion to the Gregorian calendar, from the year 1. *)
Lemma jdToGregorian_spec J :
  1721426 <= J <= 1828250000 ->
  exists g m d, jdToGregorian (of_int J) = Some (g, m + 1, d) /\ greg_in g /\ 0 <= m <= 11 /\
    1 <= d <= month_length g m /\ before_year g + days_before_month g m + d = J.
Proof.
  intros HJ. unfold jdToGregorian, JULIAN_EPOCH.
  rewrite (half_int J), dsub_half, uprv_floor_half, half_int, dadd_half, dsub_half by dlia.
  replace (2 * ((2 * J - 1) / 2) + 1) with (2 * J - 1) by dlia.
  replace (2 * J - 1 - 3442851) with (2 * (J - 1721426)) by lia.
  set (D := J - 1721426). rewrite <- half_int. assert (HD : 0 <= D <= 1826600000) by (unfold D; lia).
  rewrite uprv_floor_ddiv by lia. rewrite uprv_floor_int, to_int32_int by ibound.
  cbv zeta. rewrite imod_nonneg by ibound. cbn [obind]. rewrite uprv_floor_ddiv by dlia.
  rewrite uprv_floor_int, to_int32_int by ibound. rewrite imod_nonneg by ibound. cbn [obind].
  rewrite uprv_floor_ddiv by dlia. rewrite uprv_floor_int, to_int32_int by ibound.
  rewrite imod_nonneg by ibound. cbn [obind]. rewrite uprv_floor_ddiv by dlia.
  pose proof (GregoFacts.cycles_year D _ _ _ _ _ _ _ _ eq_refl eq_refl eq_refl eq_refl eq_refl eq_refl eq_refl eq_refl)
    as [Hdoy Hr].
  set (a := D / 146097) in *. set (r := D mod 146097) in *. set (b := r / 36524) in *.
  set (r2 := r mod 36524) in *. set (c := r2 / 1461) in *. set (r3 := r2 mod 1461) in *.
  set (e := r3 / 365) in *. set (r4 := r3 mod 365) in *.
  assert (Ha : 0 <= a <= 12503) by (unfold a, D; dlia).
  assert (Hb : 0 <= b <= 4) by (unfold b, r; dlia). assert (Hc : 0 <= c <= 24) by (unfold c, r2; dlia).
  assert (He : 0 <= e <= 4) by (unfold e, r3; dlia).
  clearbody a r b r2 c r3 e r4.
  rewrite !dmul_int, !dadd_int, to_int32_int by (lia || ibound). cbn [obind]. rewrite !deq_int.
  set (last := (b =? 4) || (e =? 4)) in *. set (doy0 := if last then 365 else r4) in *.
  set (g := 400 * a + 100 * b + 4 * c + e + (if last then 0 else 1)) in *.
  replace (if negb last then _ else _) with (Some g)
    by (unfold g; destruct last; cbn [negb]; icalc; f_equal; lia).
  assert (Hg : greg_in g).
  { unfold greg_in. assert (1 <= g).
    { unfold g. destruct last eqn:El; [|lia]. unfold last in El. apply orb_true_iff in El.
      rewrite !Z.eqb_eq in El. lia. }
    split; [done|]. unfold g. destruct last; lia. }
  cbn [obind]. rewrite !gregorianToJD_spec by (done || lia). cbn [obind].
  assert (Hby : before_year g + doy0 = J - 1) by (unfold before_year, D in *; lia).
  clearbody g doy0. clear - HJ Hg Hr Hby.
  pose proof (GregoFacts.month_of_spec g doy0 Hr) as [Hm Hb].
  pose proof (month_length_range g (GregoFacts.month_of (leap g) doy0)).
  assert (Hd : doy0 < 366) by (unfold year_length in Hr; destruct (leap g); lia).
  assert (Hj : 1721425 <= before_year g <= 1830000000)
    by (unfold greg_in, before_year, days_before_year in *; dlia).
  replace (days_before_month g (1 - 1)) with 0 by (unfold days_before_month; by rewrite andb_false_r).
  replace (days_before_month g (3 - 1)) with (if leap g then 60 else 59)
    by (unfold days_before_month; by destruct (leap g)).
  rewrite dlt_half, isGregorianLeap_spec, dsub_half by lia.
  set (corr := if _ <? _ then 0 else _).
  assert (Hcorr : corr = if doy0 >=? (if leap g then 60 else 59) then (if leap g then 1 else 2) else 0).
  { unfold corr. rewrite Z.geb_leb.
    destruct (Z.ltb_spec (2 * J - 1) (2 * (before_year g + (if leap g then 60 else 59) + 1) - 1)),
      (Z.leb_spec (if leap g then 60 else 59) doy0); lia || done. }
  assert (Hmo : (12 * (doy0 + corr) + 6) / 367 = GregoFacts.month_of (leap g) doy0)
    by (unfold GregoFacts.month_of; rewrite Hcorr; done).
  assert (0 <= corr <= 2) by (rewrite Hcorr; repeat case_match; lia).
  clearbody corr. set (mo := GregoFacts.month_of (leap g) doy0) in *.
  replace (2 * J - 1 - _) with (2 * doy0) by lia. rewrite <- half_int.
  rewrite dadd_int, dmul_int, dadd_int, uprv_floor_ddiv by lia.
  replace (((doy0 + corr) * 12 + 373) / 367) with (mo + 1) by (rewrite <- Hmo; dlia).
  rewrite to_int32_int by ibound. cbn [obind].
  rewrite gregorianToJD_spec by (done || lia). cbn [obind]. replace (mo + 1 - 1) with mo by lia.
  rewrite dsub_half by lia.
  replace (2 * J - 1 - _) with (2 * (doy0 - days_before_month g mo)) by lia.
  rewrite <- half_int, to_int32_int by ibound. icalc.
  eexists g, mo, _. split; [done|]. split; [done|]. split; [done|]. split; lia.
Qed.

Lemma days_before_month_range g m :
  0 <= m <= 11 -> 0 <= days_before_month g m /\ days_before_month g m + month_length g m <= year_length g.
Proof.
  intros Hm. unfold days_before_month, month_length, year_length.
  destruct (leap g); month_cases m; split; vm_compute; discriminate.
Qed.

(** The month and the day of a day of the Indian year, as the code finds them. *)
Lemma month_day_spec y k :
  0 <= k < (if i_leap y then 366 else 365) ->
  exists m d,
    month_and_day k (i_first y) = Some (m, d) /\
    i_has y m = true /\ 1 <= d <= i_length y m /\ i_days y m + d = k + 1.
Proof.
  intros Hk. unfold month_and_day, floor_int, i_first in *. set (f := if i_leap y then 31 else 30).
  assert (Hf : 30 <= f <= 31 /\ k - f < 335) by (unfold f; destruct (i_leap y); lia).
  destruct (Z.ltb_spec k f).
  - icalc. exists 0, (k + 1). split; [done|]. split; [done|].
    change (i_days y 0) with 0. change (i_length y 0) with f. lia.
  - unfold int. rewrite isub_ok by ibound. cbn [obind]. set (j := k - f) in *.
    destruct (Z.ltb_spec j (31 * 5)).
    + icalc. rewrite uprv_floor_int, to_int32_int by ibound. icalc.
      exists (j / 31 + 1), (j mod 31 + 1). split; [done|].
      assert (0 <= j / 31 < 5) by dlia. unfold i_length, i_days, i_first. fold f.
      rewrite i_has_spec, (proj2 (Z.eqb_neq _ 0)), (proj2 (Z.ltb_lt _ 6)), (proj2 (Z.ltb_lt _ 7)) by lia.
      split; [lia|]. split; dlia.
    + icalc. rewrite uprv_floor_int, to_int32_int by ibound. icalc.
      exists ((j - 31 * 5) / 30 + 6), ((j - 31 * 5) mod 30 + 1). split; [done|].
      assert (0 <= (j - 31 * 5) / 30 < 6) by dlia. unfold i_length, i_days, i_first. fold f.
      rewrite i_has_spec, (proj2 (Z.eqb_neq _ 0)), (proj2 (Z.ltb_ge _ 6)) by lia.
      split; [lia|]. split; [dlia|].
      destruct (Z.ltb_spec ((j - 31 * 5) / 30 + 6) 7); dlia.
Qed.

Lemma indian_implements : Implements system layout lo hi.
Proof.
  constructor; cbn [system layout CalendarSystem.handleComputeMonthStart
    CalendarSystem.handleGetMonthLength CalendarSystem.handleGetYearLength
    CalendarSystem.handleComputeFields CalendarSystem.handleGetExtendedYear has_month start
    CalendarSystem.length].
  - intros y m Hy Hm%i_has_spec. by apply indian_monthStart_spec.
  - intros y m Hy Hm%i_has_spec. unfold lo, hi in Hy. unfold handleGetMonthLength, INDIAN_ERA_START.
    rewrite adjust_month_id by done. icalc. rewrite isGregorianLeap_spec.
    unfold i_length, i_first, i_leap. destruct (leap (y + 78)); month_cases m; reflexivity.
  - intros y Hy. unfold lo, hi in Hy. unfold handleGetYearLength, INDIAN_ERA_START. icalc.
    rewrite isGregorianLeap_spec, i_start_step. fold (i_leap y). f_equal. destruct (i_leap y); lia.
  - intros c J HJ. change (i_start lo 0) with 1721505 in HJ. change (i_start hi 0) with 1827962494 in HJ.
    destruct (jdToGregorian_spec J ltac:(lia)) as (g & m & d & Hg & Hgin & Hm & Hd & Heq).
    unfold handleComputeFields. rewrite Hg. cbn [obind].
    pose proof (days_before_month_range g m Hm) as Hr.
    set (doy0 := days_before_month g m + d - 1). assert (Hdoy : 0 <= doy0 < year_length g) by lia.
    assert (Hby : before_year g + 1 + doy0 = J) by lia. clearbody doy0.
    unfold greg_in in Hgin. unfold INDIAN_ERA_START. icalc.
    rewrite gregorianToJD_spec by (done || lia). cbn [obind].
    replace (days_before_month g (1 - 1)) with 0 by (unfold days_before_month; by rewrite andb_false_r).
    assert (Hylen : year_length g <= 366) by (unfold year_length; case_match; lia).
    rewrite (half_int J), dsub_half by lia.
    replace (2 * J - _) with (2 * doy0 + 1) by lia.
    rewrite to_int32_half by ibound. replace (Z.quot (2 * doy0 + 1) 2) with doy0 by dlia.
    cbn [obind].
    match goal with |- context [obind ?e _] =>
      enough (exists y k, e = Some (y, i_first y, k) /\ lo <= y < hi /\
        0 <= k < (if i_leap y then 366 else 365) /\ i_start y 0 + k + 1 = J)
        as (y & k & E & Hy & Hk & Hjd)
    end.
    { rewrite E. cbn [obind]. destruct (month_day_spec y k Hk) as (m' & d' & Hmd & Hm' & Hd' & Hk').
      rewrite Hmd. assert (0 <= k <= 366) by (destruct (i_leap y); lia). cbn [obind]. icalc.
      assert (Hjd' : i_start y m' + d' = J)
        by (rewrite <- Hjd; unfold i_start; change (i_days y 0) with 0; lia).
      eexists _, y, m', d'. split; [done|]. split; [done|]. split; [by split|]. split; [done|].
      solve_date_set. }
    rewrite !isGregorianLeap_spec. unfold i_start, INDIAN_YEAR_START. change (i_days _ 0) with 0.
    destruct (Z.ltb_spec doy0 80).
    + exists (g - 79), (doy0 + (i_first (g - 79) + 255)).
      assert (Hg0 : before_year g = before_year (g - 1) + year_length (g - 1)).
      { unfold before_year. replace g with (g - 1 + 1) at 1 by lia. rewrite days_before_year_step. lia. }
      unfold i_first, i_leap, lo, hi. replace (g - 79 + 78) with (g - 1) by lia.
      unfold year_length in Hg0. destruct (leap (g - 1)); icalc;
        (split; [match goal with |- Some (?a, _, ?b) = Some (?c, _, ?d) =>
                   replace c with a by lia; replace d with b by lia; reflexivity end|]);
        unfold before_year, days_before_year in *; (split; [dlia|]); lia.
    + exists (g - 78), (doy0 - 80). unfold i_first, i_leap, lo, hi.
      replace (g - 78 + 78) with g by lia. unfold year_length in Hdoy.
      destruct (leap g); icalc; (split; [done|]);
        unfold before_year, days_before_year in *; (split; [dlia|]); lia.
  - intros c. apply default_extended_year.
Qed.

(** The Indian calendar: from the Saka year -77, which begins in the
    Gregorian year 1, to the year 5000000 fields and Julian days determine each
    other without overflow. *)
Theorem indian_roundtrip : fields_roundtrip system layout lo hi.
Proof. apply implements_roundtrip, indian_implements. Qed.

(** Before the Gregorian year 1 the truncating divisions of
    [jdToGregorian] give no date: all days of the Gregorian year 0 (Saka year
    -78, within the limits of the calendar) get a month above 11. *)
Theorem indian_month_out_of_range c jd status :
  1721060 <= jd < 1721426 ->
  exists c', handleComputeFields c jd status = Some (c', status) /\ 11 < c'.(fFields) UCAL_MONTH.
Proof.
  intros Hjd.
  set (check := fun k => match handleComputeFields c (1721060 + k) status with
    | Some (c', _) => 11 <? c'.(fFields) UCAL_MONTH | None => false end).
  assert (H : all_below 366 check = true) by (vm_compute; reflexivity).
  pose proof (all_below_spec _ _ H (jd - 1721060) ltac:(lia)) as Hc. unfold check in Hc.
  replace (1721060 + (jd - 1721060)) with jd in Hc by lia.
  destruct (handleComputeFields c jd status) as [[c' st]|] eqn:E; [|done].
  apply Z.ltb_lt in Hc. exists c'. split; [|done]. f_equal. f_equal.
  unfold handleComputeFields in E. repeat (apply obind_Some in E as (? & _ & E); repeat case_match).
  all: by injection E.
Qed.

Lemma indian_month_out_of_range_witness :
  1721060 <= 1721100 < 1721426 /\
  exists c', handleComputeFields (mkCalendar (fun _ => 0) (fun _ => 0) 2 false false false false
    (of_int 0) true 1 1 0 0 0 0) 1721100 U_ZERO_ERROR = Some (c', U_ZERO_ERROR) /\
    11 < c'.(fFields) UCAL_MONTH.
Proof. split; [lia|apply indian_month_out_of_range; lia]. Defined.
End IndianCalendar.
