(* ===== verification/HebrewCalendar.v ===== *)
(** * The Hebrew calendar (i18n/hebrwcal.cpp)

    Months are numbered 0 to 12 in every year; the month 5, Adar I, exists in
    leap years only.  A year starts at the new moon of Tishri, postponed by the
    four rules of [startOfYear], which leaves six possible lengths.

    [startOfYear] keeps its results in a cache; [startOfYear_spec] shows that
    the cache does not change them, and the other operations use
    [computeStartOfYear] below it.  The failure to allocate the cache is not
    modelled.

    [HebrewFacts] compares the start of the year with the traditional rules,
    [HebrewLayout] proves that the operations compute a calendar. *)
From S2P Require Import Prelude Int32 Double Grego Calendar CalendarSystem.
From stdpp Require Import gmap.
Local Open Scope Z_scope.

Module HebrewCalendar.

Definition HESHVAN : Z := 1.
Definition KISLEV : Z := 2.
Definition ADAR_1 : Z := 5.
Definition ELUL : Z := 12.

Definition LIMITS : list (list Z) :=
  [[0; 0; 0; 0]; (* ERA *)
   [-5000000; -5000000; 5000000; 5000000]; (* YEAR *)
   [0; 0; 12; 12]; (* MONTH *)
   [1; 1; 51; 56]; (* WEEK_OF_YEAR *)
   N_A; (* WEEK_OF_MONTH *)
   [1; 1; 29; 30]; (* DAY_OF_MONTH *)
   [1; 1; 353; 385]; (* DAY_OF_YEAR *)
   N_A; (* DAY_OF_WEEK *)
   [-1; -1; 5; 5]; (* DAY_OF_WEEK_IN_MONTH *)
   N_A; N_A; N_A; N_A; N_A; N_A; N_A; N_A; (* AM_PM .. DST_OFFSET *)
   [-5000000; -5000000; 5000000; 5000000]; (* YEAR_WOY *)
   N_A; (* DOW_LOCAL *)
   [-5000000; -5000000; 5000000; 5000000]; (* EXTENDED_YEAR *)
   N_A; N_A; N_A; (* JULIAN_DAY, MILLISECONDS_IN_DAY, IS_LEAP_MONTH *)
   [0; 0; 0; 0]].

(** Columns: deficient, normal and complete years. *)
Definition MONTH_LENGTH : list (list Z) :=
  [[30; 30; 30]; [29; 29; 30]; [29; 30; 30]; [29; 29; 29]; [30; 30; 30]; [30; 30; 30]; [29; 29; 29];
   [30; 30; 30]; [29; 29; 29]; [30; 30; 30]; [29; 29; 29]; [30; 30; 30]; [29; 29; 29]].

Definition MONTH_START : list (list Z) :=
  [[0; 0; 0]; [30; 30; 30]; [59; 59; 60]; [88; 89; 90]; [117; 118; 119]; [147; 148; 149];
   [147; 148; 149]; [176; 177; 178]; [206; 207; 208]; [235; 236; 237]; [265; 266; 267];
   [294; 295; 296]; [324; 325; 326]; [353; 354; 355]].

Definition LEAP_MONTH_START : list (list Z) :=
  [[0; 0; 0]; [30; 30; 30]; [59; 59; 60]; [88; 89; 90]; [117; 118; 119]; [147; 148; 149];
   [177; 178; 179]; [206; 207; 208]; [236; 237; 238]; [265; 266; 267]; [295; 296; 297];
   [324; 325; 326]; [354; 355; 356]; [383; 384; 385]].

Definition handleGetLimit (field : Z) (limitType : ELimitType) : option Z :=
  limit_at LIMITS field limitType.

Definition HOUR_PARTS : Z := 1080.
Definition DAY_PARTS : Z := 24 * HOUR_PARTS.
Definition MONTH_DAYS : Z := 29.
Definition MONTH_FRACT : Z := 12 * HOUR_PARTS + 793.
Definition MONTH_PARTS : Z := MONTH_DAYS * DAY_PARTS + MONTH_FRACT.
Definition BAHARAD : Z := 11 * HOUR_PARTS + 204.

Definition isLeapYear (year : Z) : option bool :=
  let! x := (year *! 12 +! 17) %! 19 in
  Some (x >=? (if x <? 0 then -7 else 12)).

Definition monthsInYear (year : Z) : I32 :=
  let! leap := isLeapYear year in Some (if leap then 13 else 12).

(** The day before the first day of [year]; [frac] is an [int64_t]. *)
Definition computeStartOfYear (year : Z) : I32 :=
  let! months := (235 *! year -! 234) /! 19 in
  let frac := months * MONTH_FRACT + BAHARAD in
  let! whole := checked (Z.quot frac DAY_PARTS) in
  let! day := months *! 29 +! whole in
  let frac := Z.rem frac DAY_PARTS in
  let! wd := day %! 7 in
  let! day := if (wd =? 2) || (wd =? 4) || (wd =? 6) then day +! 1 else Some day in
  let! wd := day %! 7 in
  let! leap := isLeapYear year in
  if (wd =? 1) && (frac >? 15 * HOUR_PARTS + 204) && negb leap then day +! 2
  else
    let! previous := year -! 1 in
    let! previousLeap := isLeapYear previous in
    if (wd =? 0) && (frac >? 21 * HOUR_PARTS + 589) && previousLeap then day +! 1
    else Some day.

(** [CalendarCache::get] returns 0 for a key that is not in the table. *)
Definition startOfYear (cache : gmap Z Z) (year : Z) : option (Z * gmap Z Z) :=
  let day := default 0 (cache !! year) in
  if day =? 0 then
    let! day := computeStartOfYear year in
    Some (day, <[year := day]> cache)
  else Some (day, cache).

Definition absoluteDayToDayOfWeek (day : Z) : I32 := (day %! 7) +! 1.

Definition handleGetYearLength (eyear : Z) : I32 :=
  let! next := eyear +! 1 in
  computeStartOfYear next -! computeStartOfYear eyear.

Definition yearType (year : Z) : I32 :=
  let! yearLength := handleGetYearLength year in
  let! yearLength := if yearLength >? 380 then yearLength -! 30 else Some yearLength in
  Some (if yearLength =? 353 then 0 else if yearLength =? 354 then 1
        else if yearLength =? 355 then 2 else 1).

(** [while (month < 0) month += monthsInYear(--year);
     while (month > 12) month -= monthsInYear(year++);]
    A step changes the month by at least 12. *)
Fixpoint raise_month (fuel : nat) (year month : Z) : option (Z * Z) :=
  if month <? 0 then
    match fuel with
    | O => None
    | S fuel' =>
        let! year := year -! 1 in
        let! n := monthsInYear year in
        let! month := month +! n in
        raise_month fuel' year month
    end
  else Some (year, month).

Fixpoint lower_month (fuel : nat) (year month : Z) : option (Z * Z) :=
  if month >? 12 then
    match fuel with
    | O => None
    | S fuel' =>
        let! n := monthsInYear year in
        let! year := year +! 1 in
        let! month := month -! n in
        lower_month fuel' year month
    end
  else Some (year, month).

Definition resolve_month (year month : Z) : option (Z * Z) :=
  let! '(year, month) := raise_month (Z.to_nat (- month)) year month in
  lower_month (Z.to_nat month) year month.

(** [TABLE[month][type]] *)
Definition table_at (table : list (list Z)) (month type : Z) : I32 :=
  row ← aget table month; aget row type.

Definition handleGetMonthLength (extendedYear month : Z) : I32 :=
  let! '(extendedYear, month) := resolve_month extendedYear month in
  if (month =? HESHVAN) || (month =? KISLEV) then
    let! type := yearType extendedYear in table_at MONTH_LENGTH month type
  else table_at MONTH_LENGTH month 0.

Definition month_start_table (leap : bool) : list (list Z) :=
  if leap then LEAP_MONTH_START else MONTH_START.

Definition handleComputeMonthStart (eyear month : Z) : I32 :=
  let! '(eyear, month) := resolve_month eyear month in
  let! day := computeStartOfYear eyear in
  let! day :=
    (if negb (month =? 0) then
       let! leap := isLeapYear eyear in
       let! type := yearType eyear in
       let! n := table_at (month_start_table leap) month type in
       day +! n
     else Some day) in
  day +! 347997.

Definition handleGetExtendedYear (c : Calendar) : I32 := Defaults.handleGetExtendedYear c.

(** [while (dayOfYear < 1) { year--; ys = startOfYear(year); dayOfYear = d - ys; }] *)
Fixpoint year_loop (fuel : nat) (d year dayOfYear : Z) : option (Z * Z) :=
  if dayOfYear <? 1 then
    match fuel with
    | O => None
    | S fuel' =>
        let! year := year -! 1 in
        let! ys := computeStartOfYear year in
        let! dayOfYear := d -! ys in
        year_loop fuel' d year dayOfYear
    end
  else Some (year, dayOfYear).

(** [while (month < momax && dayOfYear > TABLE[month][type]) month++;] *)
Fixpoint month_loop (fuel : nat) (table : list (list Z)) (type dayOfYear month : Z) : I32 :=
  if month <? 14 then
    let! n := table_at table month type in
    if dayOfYear >? n then
      match fuel with
      | O => None
      | S fuel' => month_loop fuel' table type dayOfYear (month + 1)
      end
    else Some month
  else Some month.

(** The first estimate of the year of the day [d]. *)
Definition guess_year (d : Z) : I32 :=
  let m := ddiv (dmul (of_int d) (of_int DAY_PARTS)) (of_int MONTH_PARTS) in
  to_int32 (dadd (ddiv (dadd (dmul (of_int 19) m) (of_int 234)) (of_int 235)) (of_int 1)).

(** [fuel] bounds the corrections of the estimate. *)
Definition computeFields (fuel : nat) (c : Calendar) (julianDay : Z) (status : UErrorCode) :
    option (Calendar * UErrorCode) :=
  let! d := julianDay -! 347997 in
  let! year := guess_year d in
  let! ys := computeStartOfYear year in
  let! dayOfYear := d -! ys in
  let! '(year, dayOfYear) := year_loop fuel d year dayOfYear in
  let! type := yearType year in
  let! isLeap := isLeapYear year in
  let table := month_start_table isLeap in
  let! month := month_loop 14 table type dayOfYear 0 in
  if (month >=? 14) || (month <=? 0) then Some (c, U_ILLEGAL_ARGUMENT_ERROR)
  else
    let! month := month -! 1 in
    let! n := table_at table month type in
    let! dayOfMonth := dayOfYear -! n in
    Some (internalSets c [(UCAL_ERA, 0); (UCAL_YEAR, year); (UCAL_EXTENDED_YEAR, year);
            (UCAL_MONTH, month); (UCAL_DAY_OF_MONTH, dayOfMonth); (UCAL_DAY_OF_YEAR, dayOfYear)], status).

Definition handleComputeFields : Calendar -> Z -> UErrorCode -> option (Calendar * UErrorCode) :=
  computeFields 5.

Definition system : CalendarSystem := {|
  CalendarSystem.handleGetLimit := handleGetLimit;
  CalendarSystem.handleComputeMonthStart := handleComputeMonthStart;
  CalendarSystem.handleGetMonthLength := handleGetMonthLength;
  CalendarSystem.handleGetYearLength := handleGetYearLength;
  CalendarSystem.handleComputeFields := handleComputeFields;
  CalendarSystem.handleGetExtendedYear := handleGetExtendedYear
|}.
End HebrewCalendar.

(** ** The reference *)

Module HebrewFacts.
Import HebrewCalendar.

(** Seven years of nineteen are leap years. *)
Definition leap (y : Z) : bool := (7 * y + 1) mod 19 <? 7.

(** The new moon of Tishri of the year [y]: the months before it, the parts
    since the epoch, the day (counted from noon to noon, named after the
    weekday on which it ends, 0 for Monday) and the part of the day. *)
Definition months (y : Z) : Z := (235 * y - 234) / 19.
Definition molad (y : Z) : Z := months y * MONTH_PARTS + BAHARAD.
Definition molad_day (y : Z) : Z := molad y / DAY_PARTS.
Definition molad_weekday (y : Z) : Z := molad_day y mod 7.
Definition molad_part (y : Z) : Z := molad y mod DAY_PARTS.

(** The traditional postponements of the new year: it does not begin on a
    Sunday, a Wednesday or a Friday; nor, in a common year, on the Tuesday of a
    new moon from 15h 204p on; nor, after a leap year, on the Monday of a new
    moon from 21h 589p on. *)
Definition delay (wd frac : Z) (isLeap previousLeap : bool) : Z :=
  if (wd =? 2) || (wd =? 4) || (wd =? 6) then 1
  else if (wd =? 1) && (15 * HOUR_PARTS + 204 <=? frac) && negb isLeap then 2
  else if (wd =? 0) && (21 * HOUR_PARTS + 589 <=? frac) && previousLeap then 1
  else 0.

(** The day before the first day of the year. *)
Definition new_year (y : Z) : Z :=
  molad_day y + delay (molad_weekday y) (molad_part y) (leap y) (leap (y - 1)).

(** What the code adds: it applies the last rule to the weekday that results
    from the first one, so a new moon on Sunday may be postponed to Tuesday. *)
Definition second_delay (wd frac : Z) (previousLeap : bool) : Z :=
  if (wd =? 6) && (21 * HOUR_PARTS + 589 <? frac) && previousLeap then 1 else 0.

Definition year_start (y : Z) : Z :=
  new_year y + second_delay (molad_weekday y) (molad_part y) (leap (y - 1)).

Lemma hebrew_leap_spec y : -178000000 <= y <= 178000000 -> isLeapYear y = Some (leap y).
Proof.
  intros Hy. unfold isLeapYear. icalc.
  rewrite ?imod_ok by ibound. cbn [obind]. f_equal. unfold leap. rewrite Z.geb_leb.
  apply eq_iff_eq_true. rewrite Z.ltb_lt, Z.leb_le.
  destruct (Z.ltb_spec (Z.rem (y * 12 + 17) 19) 0); dlia.
Qed.

Lemma months_step y : months (y + 1) = months y + (if leap y then 13 else 12).
Proof. unfold months, leap. destruct (Z.ltb_spec ((7 * y + 1) mod 19) 7); dlia. Qed.

Lemma leap_apart y : leap y = true -> leap (y + 1) = false /\ leap (y - 1) = false.
Proof. unfold leap. rewrite !Z.ltb_lt, !Z.ltb_ge. dlia. Qed.

(** The rules compare with [<=], the code with [<].  Before the year 88370 no
    new moon falls exactly on a limit that matters: the months that begin at a
    given part of a day recur every 25920 months. *)
Lemma no_exact_molad y :
  1 <= y < 88370 ->
  (leap y = false -> molad_weekday y = 1 -> molad_part y <> 16404) /\
  (leap (y - 1) = true -> molad_weekday y = 0 -> molad_part y <> 23269).
Proof.
  intros Hy.
  set (cond := fun part y => if part =? 23269 then leap (y - 1) && (molad_weekday y =? 0)
                             else negb (leap y) && (molad_weekday y =? 1)).
  set (bad := fun part residue k =>
    let m := residue + 25920 * k in
    let y := (19 * m + 252) / 235 in (y <? 88370) && (months y =? m) && cond part y).
  assert (H : all_below 43 (fun k => negb (bad 16404 4320 k) && negb (bad 23269 4345 k)) = true) by (vm_compute; done).
  assert (Hm : 0 <= months y < 1114560) by (unfold months; dlia).
  assert (Hyear : y = (19 * months y + 252) / 235) by (unfold months; dlia).
  assert (Hp : molad_part y = (13753 * months y + 12084) mod 25920).
  { unfold molad_part, molad, MONTH_PARTS, MONTH_DAYS, MONTH_FRACT, BAHARAD, DAY_PARTS, HOUR_PARTS. clear. dlia. }
  assert (Hbad : forall part residue, molad_part y = part -> months y mod 25920 = residue ->
    negb (bad part residue (months y / 25920)) = true -> cond part y = false).
  { intros part residue _ Hres Hb. apply negb_true_iff in Hb. unfold bad in Hb.
    replace (residue + 25920 * (months y / 25920)) with (months y) in Hb by dlia.
    rewrite <- Hyear, Z.eqb_refl, (proj2 (Z.ltb_lt y 88370)) in Hb by lia. exact Hb. }
  assert (Hk : 0 <= months y / 25920 < 43) by dlia.
  pose proof (all_below_spec _ _ H _ Hk) as Hc. cbv beta in Hc. apply andb_true_iff in Hc as [Hc1 Hc2].
  split; intros Hl Hw Hx.
  - specialize (Hbad 16404 4320 Hx ltac:(clear - Hp Hx Hm; dlia) Hc1). unfold cond in Hbad. by rewrite Hl, Hw in Hbad.
  - specialize (Hbad 23269 4345 Hx ltac:(clear - Hp Hx Hm; dlia) Hc2). unfold cond in Hbad. by rewrite Hl, Hw in Hbad.
Qed.

(** The postponement that the code computes. *)
Definition code_delay (wd frac : Z) (isLeap previousLeap : bool) : Z :=
  let d := if (wd =? 2) || (wd =? 4) || (wd =? 6) then 1 else 0 in
  let wd := (wd + d) mod 7 in
  if (wd =? 1) && (15 * HOUR_PARTS + 204 <? frac) && negb isLeap then d + 2
  else if (wd =? 0) && (21 * HOUR_PARTS + 589 <? frac) && previousLeap then d + 1
  else d.

Lemma code_delay_spec wd frac l lp :
  0 <= wd < 7 -> (l = false -> wd = 1 -> frac <> 16404) -> (lp = true -> wd = 0 -> frac <> 23269) ->
  code_delay wd frac l lp = delay wd frac l lp + second_delay wd frac lp.
Proof.
  intros Hw H1 H2. unfold code_delay, delay, second_delay, HOUR_PARTS.
  assert (H7 : wd = 0 \/ wd = 1 \/ wd = 2 \/ wd = 3 \/ wd = 4 \/ wd = 5 \/ wd = 6) by lia.
  destruct_or! H7; subst wd; cbn [Z.eqb Pos.eqb orb andb negb];
    try (match goal with |- context [(?a mod 7)] => change (a mod 7) with (Z.modulo a 7) end); cbv zeta.
  all: repeat (match goal with |- context [?a mod 7] =>
      let v := eval vm_compute in (a mod 7) in change (a mod 7) with v end; cbn [Z.eqb Pos.eqb orb andb negb]).
  all: destruct l, lp; rewrite ?andb_false_r, ?andb_true_r; cbn [negb andb]; rewrite ?andb_false_r, ?andb_true_r;
    try specialize (H1 eq_refl eq_refl); try specialize (H2 eq_refl eq_refl);
    repeat match goal with |- context [?a <? ?b] => destruct (Z.ltb_spec a b) | |- context [?a <=? ?b] => destruct (Z.leb_spec a b) end;
    lia.
Qed.

Lemma year_start_spec y : 1 <= y < 88370 -> computeStartOfYear y = Some (year_start y).
Proof.
  intros Hy. unfold computeStartOfYear.
  assert (Hm : 0 <= months y <= 61842150) by (unfold months; dlia).
  icalc. rewrite ?idiv_nonneg by (unfold INT32_MAX; lia). fold (months y). cbn [obind].
  pose proof (no_exact_molad y Hy) as [Hx1 Hx2].
  assert (Hr : 0 <= molad_weekday y < 7) by (unfold molad_weekday; dlia).
  pose proof (code_delay_spec (molad_weekday y) (molad_part y) (leap y) (leap (y - 1)) Hr Hx1 Hx2) as Hcode.
  unfold year_start, new_year. rewrite <- Z.add_assoc, <- Hcode. clear Hcode Hx1 Hx2 Hr.
  assert (Hdiv : molad_day y = months y * 29 + (months y * (12 * 1080 + 793) + (11 * 1080 + 204)) / 25920 /\
                 molad_part y = (months y * (12 * 1080 + 793) + (11 * 1080 + 204)) mod 25920).
  { unfold molad_day, molad_part, molad, MONTH_PARTS, MONTH_DAYS, MONTH_FRACT, BAHARAD, DAY_PARTS, HOUR_PARTS. dlia. }
  unfold molad_weekday. destruct Hdiv as [-> ->].
  unfold MONTH_FRACT, BAHARAD, DAY_PARTS, HOUR_PARTS. change (24 * 1080) with 25920.
  set (m := months y) in *. set (frac := m * (12 * 1080 + 793) + (11 * 1080 + 204)) in *.
  assert (Hf : 0 <= frac <= 851000000000) by (unfold frac; lia). clearbody frac.
  rewrite Z.quot_div_nonneg, Z.rem_mod_nonneg by lia.
  assert (Hq : 0 <= frac / 25920 <= 32900000) by dlia.
  rewrite checked_ok by ibound. cbn [obind]. icalc.
  set (day := m * 29 + frac / 25920) in *. assert (Hday : 0 <= day <= 1830000000) by (unfold day; lia).
  set (fr := frac mod 25920). clearbody day fr.
  unfold code_delay. set (d := if (day mod 7 =? 2) || (day mod 7 =? 4) || (day mod 7 =? 6) then 1 else 0).
  assert (Hd : 0 <= d <= 1) by (unfold d; case_match; lia).
  replace (if (day mod 7 =? 2) || _ || _ then _ else _) with (Some (day + d))
    by (unfold d; case_match; f_equal; lia).
  cbn [obind]. icalc. rewrite !hebrew_leap_spec by lia. cbn [obind].
  rewrite !Z.gtb_ltb. unfold HOUR_PARTS.
  assert ((day mod 7 + d) mod 7 = (day + d) mod 7) as -> by dlia.
  destruct (_ && negb (leap y)); [icalc; f_equal; lia|]. icalc. rewrite ?hebrew_leap_spec by lia. cbn [obind].
  destruct (_ && leap (y - 1)); icalc; f_equal; lia.
Qed.
End HebrewFacts.

Module HebrewLayout.
Import HebrewCalendar HebrewFacts.

Definition total_delay (wd frac : Z) (l lp : bool) : Z := delay wd frac l lp + second_delay wd frac lp.

Ltac delay_cases :=
  repeat (match goal with
    | |- context [?a mod 7] => let v := eval vm_compute in (a mod 7) in change (a mod 7) with v
    end; cbn [Z.eqb Pos.eqb orb andb negb]);
  repeat match goal with
    | |- context [?a <? ?b] => destruct (Z.ltb_spec a b)
    | |- context [?a <=? ?b] => destruct (Z.leb_spec a b)
    end; cbn [andb]; lia.

(** From the new moon of a year to the next, 12 or 13 months later. *)
Lemma common_delays w f c ln lp :
  0 <= w < 7 -> 0 <= f < 25920 -> c = (if 25920 <=? f + 9516 then 1 else 0) ->
  353 <= 354 + c + total_delay ((w + 354 + c) mod 7) (f + 9516 - 25920 * c) ln false -
         total_delay w f false lp <= 355.
Proof.
  intros Hw Hf ->. unfold total_delay, delay, second_delay, HOUR_PARTS.
  assert (H7 : w = 0 \/ w = 1 \/ w = 2 \/ w = 3 \/ w = 4 \/ w = 5 \/ w = 6) by lia.
  destruct_or! H7; subst w; cbn [Z.eqb Pos.eqb orb andb negb];
    destruct (Z.leb_spec 25920 (f + 9516)); destruct ln, lp; rewrite ?andb_false_r, ?andb_true_r;
    cbn [negb]; rewrite ?andb_false_r, ?andb_true_r; delay_cases.
Qed.

Lemma leap_delays w f c :
  0 <= w < 7 -> 0 <= f < 25920 -> c = (if 25920 <=? f + 23269 then 1 else 0) ->
  383 <= 383 + c + total_delay ((w + 383 + c) mod 7) (f + 23269 - 25920 * c) false true -
         total_delay w f true false <= 385.
Proof.
  intros Hw Hf ->. unfold total_delay, delay, second_delay, HOUR_PARTS.
  assert (H7 : w = 0 \/ w = 1 \/ w = 2 \/ w = 3 \/ w = 4 \/ w = 5 \/ w = 6) by lia.
  destruct_or! H7; subst w; cbn [Z.eqb Pos.eqb orb andb negb];
    destruct (Z.leb_spec 25920 (f + 23269)); rewrite ?andb_false_r, ?andb_true_r;
    delay_cases.
Qed.

Definition year_length (y : Z) : Z := year_start (y + 1) - year_start y.

Lemma molad_step y :
  exists c, c = (if 25920 <=? molad_part y + (if leap y then 23269 else 9516) then 1 else 0) /\
    molad_part (y + 1) = molad_part y + (if leap y then 23269 else 9516) - 25920 * c /\
    molad_day (y + 1) = molad_day y + (if leap y then 383 else 354) + c.
Proof.
  unfold molad_part, molad_day, molad. rewrite months_step.
  unfold MONTH_PARTS, MONTH_DAYS, MONTH_FRACT, BAHARAD, DAY_PARTS, HOUR_PARTS.
  set (m := months y). clearbody m. eexists. split; [reflexivity|].
  destruct (leap y); (destruct (Z.leb_spec 25920 ((m * (29 * (24 * 1080) + (12 * 1080 + 793)) + (11 * 1080 + 204)) mod (24 * 1080) + 23269)) || idtac);
  repeat case_match; dlia.
Qed.

(** Six year lengths. *)
Lemma year_length_range y :
  if leap y then 383 <= year_length y <= 385 else 353 <= year_length y <= 355.
Proof.
  unfold year_length, year_start, new_year. destruct (molad_step y) as (c & Hc & Hp & Hd).
  replace (y + 1 - 1) with y by lia.
  assert (Hw : molad_weekday (y + 1) = (molad_weekday y + (if leap y then 383 else 354) + c) mod 7)
    by (unfold molad_weekday; rewrite Hd; clear; destruct (leap y); dlia).
  assert (0 <= molad_weekday y < 7) by (unfold molad_weekday; dlia).
  assert (0 <= molad_part y < 25920) by (unfold molad_part, DAY_PARTS, HOUR_PARTS; dlia).
  rewrite Hw, Hp, Hd. pose proof (leap_apart y) as Hl. destruct (leap y).
  - destruct (Hl eq_refl) as [-> ->]. pose proof (leap_delays (molad_weekday y) (molad_part y) c) as Hx.
    unfold total_delay in Hx. lia.
  - pose proof (common_delays (molad_weekday y) (molad_part y) c (leap (y + 1)) (leap (y - 1))) as Hx.
    unfold total_delay in Hx. lia.
Qed.

(** The months of a year with [t] days more than the shortest of its kind:
    Tishri, Heshvan, Kislev, Tevet, Shevat, Adar I (leap years), Adar, Nisan,
    Iyar, Sivan, Tamuz, Av, Elul. *)
Definition month_days (t m : Z) : Z :=
  nth (Z.to_nat m)
    [30; if t =? 2 then 30 else 29; if 1 <=? t then 30 else 29; 29; 30; 30; 29; 30; 29; 30; 29; 30; 29] 0.

Definition month_in (l : bool) (m : Z) : bool := (0 <=? m) && (m <=? 12) && (l || negb (m =? 5)).

Fixpoint days_before_month (l : bool) (t : Z) (m : nat) : Z :=
  match m with
  | O => 0
  | S m => days_before_month l t m + (if month_in l (Z.of_nat m) then month_days t (Z.of_nat m) else 0)
  end.

Definition shortest (l : bool) : Z := if l then 383 else 353.
Definition days_over (y : Z) : Z := year_length y - shortest (leap y).

Lemma days_over_range y : 0 <= days_over y < 3.
Proof. pose proof (year_length_range y). unfold days_over, shortest. destruct (leap y); lia. Qed.

Definition h_has (y m : Z) : bool := month_in (leap y) m.
Definition h_length (y m : Z) : Z := month_days (days_over y) m.
Definition h_start (y m : Z) : Z :=
  347997 + year_start y + days_before_month (leap y) (days_over y) (Z.to_nat m).

Lemma month_in_range l m : month_in l m = true -> 0 <= m < 13.
Proof. unfold month_in. rewrite !andb_true_iff, !Z.leb_le. lia. Qed.

(** A property of the months of the two kinds of years and three lengths. *)
Lemma months_all (P : bool -> Z -> Z -> bool) :
  forallb (fun l => all_below 3 (fun t => all_below 13 (fun m => negb (month_in l m) || P l t m))) [true; false] = true ->
  forall l t m, 0 <= t < 3 -> month_in l m = true -> P l t m = true.
Proof.
  intros H l t m Ht Hm. rewrite forallb_forall in H. specialize (H l ltac:(destruct l; cbn; tauto)).
  pose proof (all_below_spec _ _ (all_below_spec _ _ H t Ht) m (month_in_range l m Hm)) as Hp. cbn in Hp.
  by rewrite Hm in Hp.
Qed.

Ltac months_dec := apply months_all; vm_compute; reflexivity.

Definition dbm (l : bool) (t m : Z) : Z := days_before_month l t (Z.to_nat m).

Lemma month_days_pos : forall l t m, 0 <= t < 3 -> month_in l m = true -> (0 <? month_days t m) = true.
Proof. months_dec. Qed.

Lemma months_follow : forall l t m, 0 <= t < 3 -> month_in l m = true ->
  all_below 13 (fun m' => negb ((m <? m') && month_in l m') || (dbm l t m + month_days t m <=? dbm l t m')) = true.
Proof. months_dec. Qed.

Lemma months_fit : forall l t m, 0 <= t < 3 -> month_in l m = true ->
  (dbm l t m + month_days t m <=? shortest l + t) = true.
Proof. months_dec. Qed.

(** The next month, or the next year. *)
Definition next_month (l : bool) (m : Z) : Z := if l || negb (m =? 4) then m + 1 else 6.

Lemma months_next : forall l t m, 0 <= t < 3 -> month_in l m = true ->
  (if m =? 12 then dbm l t m + month_days t m =? shortest l + t
   else month_in l (next_month l m) && (m <? next_month l m) &&
        (dbm l t m + month_days t m =? dbm l t (next_month l m))) = true.
Proof. months_dec. Qed.

Lemma h_start_0 y : h_start y 0 = 347997 + year_start y.
Proof. unfold h_start. change (days_before_month _ _ (Z.to_nat 0)) with 0. lia. Qed.

Lemma h_start_next y : h_start (y + 1) 0 = h_start y 0 + shortest (leap y) + days_over y.
Proof. rewrite !h_start_0. unfold days_over, year_length. lia. Qed.

Lemma h_start_dbm y m : h_start y m = h_start y 0 + dbm (leap y) (days_over y) m.
Proof. rewrite h_start_0. unfold h_start, dbm. lia. Qed.

#[refine] Definition layout : MonthLayout :=
  {| has_month := h_has; start := h_start; CalendarSystem.length := h_length |}.
Proof.
  - intros y. unfold h_has, month_in. cbn. by rewrite orb_true_r.
  - intros y m ?%month_in_range. lia.
  - intros y m Hm. apply Z.ltb_lt, (month_days_pos (leap y)); [apply days_over_range|done].
  - intros y m m' Hm Hm' Hlt. rewrite (h_start_dbm y m), (h_start_dbm y m').
    pose proof (months_follow _ _ _ (days_over_range y) Hm) as H.
    pose proof (all_below_spec _ _ H m' (month_in_range _ _ Hm')) as Hp. cbn beta in Hp. fold (h_has y m') in Hp.
    rewrite (proj2 (Z.ltb_lt m m')), Hm' in Hp by done. apply Z.leb_le in Hp. unfold h_length. lia.
  - intros y m Hm. rewrite h_start_next, (h_start_dbm y m). unfold h_length.
    pose proof (months_fit _ _ _ (days_over_range y) Hm) as Hp%Z.leb_le. lia.
  - intros y m Hm. pose proof (months_next _ _ _ (days_over_range y) Hm) as Hp.
    destruct (Z.eqb_spec m 12) as [->|].
    + exists (y + 1), 0. split; [unfold h_has, month_in; cbn; by rewrite orb_true_r|]. split; [lia|].
      apply Z.eqb_eq in Hp. rewrite h_start_next, (h_start_dbm y 12). unfold h_length. lia.
    + rewrite !andb_true_iff, Z.ltb_lt, Z.eqb_eq in Hp. exists y, (next_month (leap y) m).
      split; [apply Hp|]. split; [lia|]. rewrite (h_start_dbm y m), (h_start_dbm y (next_month _ _)).
      unfold h_length. lia.
Defined.

Definition lo : Z := 1.
Definition hi : Z := 88367.

(** The starts of the years grow. *)
Lemma h_year_range y : lo <= y <= hi + 2 -> 0 <= year_start y <= 33000000.
Proof.
  unfold lo, hi. intros Hy.
  assert (Hd : 0 <= delay (molad_weekday y) (molad_part y) (leap y) (leap (y - 1)) <= 2)
    by (unfold delay; repeat case_match; lia).
  assert (0 <= second_delay (molad_weekday y) (molad_part y) (leap (y - 1)) <= 1)
    by (unfold second_delay; case_match; lia).
  unfold year_start, new_year. set (a := delay _ _ _ _) in *. set (b := second_delay _ _ _) in *. clearbody a b.
  unfold molad_day, molad, months, MONTH_PARTS, MONTH_DAYS, MONTH_FRACT, BAHARAD, DAY_PARTS, HOUR_PARTS. dlia.
Qed.

Lemma year_len_spec y : lo <= y <= hi -> handleGetYearLength y = Some (year_length y).
Proof.
  unfold lo, hi. intros Hy. unfold handleGetYearLength. icalc. rewrite !year_start_spec by lia.
  apply isub_small; [done|]. pose proof (year_length_range y) as Hr. destruct (leap y); lia.
Qed.

Lemma yearType_spec y : lo <= y <= hi -> yearType y = Some (days_over y).
Proof.
  intros Hy. unfold yearType. rewrite year_len_spec by done. cbn [obind].
  pose proof (year_length_range y) as Hr. unfold days_over, shortest. rewrite Z.gtb_ltb.
  set (n := year_length y) in *. clearbody n. destruct (leap y).
  - rewrite (proj2 (Z.ltb_lt _ _)) by lia. icalc. f_equal.
    assert (n = 383 \/ n = 384 \/ n = 385) by lia. destruct_or! H; by subst n.
  - rewrite (proj2 (Z.ltb_ge _ _)) by lia. cbn [obind]. f_equal.
    assert (n = 353 \/ n = 354 \/ n = 355) by lia. destruct_or! H; by subst n.
Qed.

(** The tables hold the layout. *)
Lemma month_start_table_ok : forall l t m, 0 <= t < 3 -> month_in l m = true ->
  bool_decide (table_at (month_start_table l) m t = Some (dbm l t m)) = true.
Proof. months_dec. Qed.

Lemma month_length_table_ok : forall l t m, 0 <= t < 3 -> month_in l m = true ->
  bool_decide (table_at MONTH_LENGTH m (if (m =? HESHVAN) || (m =? KISLEV) then t else 0) = Some (month_days t m)) = true.
Proof. months_dec. Qed.

Lemma resolve_month_id y m : 0 <= m <= 12 -> resolve_month y m = Some (y, m).
Proof.
  intros Hm. unfold resolve_month.
  assert (raise_month (Z.to_nat (- m)) y m = Some (y, m)) as ->.
  { destruct (Z.to_nat (- m)); cbn; by rewrite (proj2 (Z.ltb_ge m 0)) by lia. }
  cbn [obind]. destruct (Z.to_nat m); cbn; by rewrite Z.gtb_ltb, (proj2 (Z.ltb_ge 12 m)) by lia.
Qed.

Lemma hebrew_monthStart_spec y m :
  lo <= y <= hi -> h_has y m = true -> handleComputeMonthStart y m = Some (h_start y m).
Proof.
  intros Hy Hm. pose proof (month_in_range _ _ Hm). unfold handleComputeMonthStart.
  rewrite resolve_month_id by lia. cbn [obind]. unfold lo, hi in Hy. rewrite year_start_spec by lia. cbn [obind].
  pose proof (h_year_range y). unfold lo, hi in *. pose proof (days_over_range y) as Ht.
  assert (Hd : 0 <= dbm (leap y) (days_over y) m <= 400).
  { pose proof (months_fit _ _ _ Ht Hm) as Hp%Z.leb_le.
    pose proof (month_days_pos (leap y) _ _ Ht Hm) as Hq%Z.ltb_lt.
    assert (shortest (leap y) <= 383) by (unfold shortest; case_match; lia).
    assert (0 <= dbm (leap y) (days_over y) m); [|lia].
    apply Z.leb_le. refine (months_all (fun l t m => 0 <=? dbm l t m) _ (leap y) _ m Ht Hm). by vm_compute. }
  destruct (Z.eqb_spec m 0) as [->|]; cbn [negb obind].
  - icalc. f_equal. rewrite h_start_0. lia.
  - rewrite hebrew_leap_spec by lia. cbn [obind]. rewrite yearType_spec by (unfold lo, hi; lia). cbn [obind].
    pose proof (month_start_table_ok _ _ _ Ht Hm) as Htab%bool_decide_eq_true_1. rewrite Htab. cbn [obind].
    icalc. f_equal. unfold h_start, dbm. lia.
Qed.

Lemma hebrew_monthLength_spec y m :
  lo <= y <= hi -> h_has y m = true -> handleGetMonthLength y m = Some (h_length y m).
Proof.
  intros Hy Hm. pose proof (month_in_range _ _ Hm). unfold handleGetMonthLength.
  rewrite resolve_month_id by lia. cbn [obind].
  pose proof (month_length_table_ok _ _ _ (days_over_range y) Hm) as Htab%bool_decide_eq_true_1.
  destruct ((m =? HESHVAN) || (m =? KISLEV)); [|done].
  by rewrite yearType_spec by done.
Qed.

(** ** The fields of a day *)

Lemma delay_range y : year_start y - 2 <= molad_day y <= year_start y.
Proof.
  unfold year_start, new_year, delay, second_delay.
  destruct (Z.eqb_spec (molad_weekday y) 6) as [->|]; [cbn; case_match; lia|].
  cbn [andb]. repeat case_match; lia.
Qed.

Lemma year_start_mono y : lo <= y -> year_start y < year_start (y + 1).
Proof. intros _. pose proof (year_length_range y) as H. unfold year_length in H. destruct (leap y); lia. Qed.

Lemma year_start_le y y' : y <= y' -> year_start y <= year_start y'.
Proof.
  intros H. replace y' with (y + (y' - y)) by lia.
  apply (natlike_ind (fun k => year_start y <= year_start (y + k))); [by rewrite Z.add_0_r| |lia].
  intros k Hk IH. pose proof (year_length_range (y + k)) as Hl. unfold year_length in Hl.
  rewrite Z.add_succ_r. unfold Z.succ. destruct (leap (y + k)); lia.
Qed.

(** The estimate is at most three years late. *)
Lemma guess_year_spec Y d :
  lo <= Y < hi -> year_start Y < d <= year_start (Y + 1) ->
  exists k, guess_year d = Some (Y + k) /\ 0 <= k <= 3.
Proof.
  intros HY Hd. pose proof (delay_range Y). pose proof (delay_range (Y + 1)).
  pose proof (h_year_range Y). pose proof (h_year_range (Y + 1)). unfold lo, hi in *.
  assert (Hlow : months Y * 765433 <= d * 25920).
  { assert (molad_day Y + 1 <= d) by lia. revert H3. unfold molad_day, molad, MONTH_PARTS, MONTH_DAYS,
      MONTH_FRACT, BAHARAD, DAY_PARTS, HOUR_PARTS. clear. dlia. }
  assert (Hhigh : d * 25920 <= (months (Y + 1) + 1) * 765433).
  { assert (d <= molad_day (Y + 1) + 2) by lia. revert H3. unfold molad_day, molad, MONTH_PARTS, MONTH_DAYS,
      MONTH_FRACT, BAHARAD, DAY_PARTS, HOUR_PARTS. clear. dlia. }
  assert (Hm : 0 <= months Y /\ months (Y + 1) <= 1200000 /\ 235 * Y - 18 <= 19 * months Y + 234 /\
               19 * (months (Y + 1) + 1) + 234 <= 235 * Y + 254) by (unfold months; clear - HY; dlia).
  destruct Hm as (Hm0 & Hm1 & HmY & HmY').
  unfold guess_year. change (of_int DAY_PARTS) with (of_int 25920). change (of_int MONTH_PARTS) with (of_int 765433).
  rewrite dmul_int by lia. cbv zeta.
  pose proof (ddiv_between _ _ _ 765433 (months Y) (months (Y + 1) + 1) (between_int (d * 25920))
    ltac:(lia) ltac:(lia) ltac:(lia) ltac:(lia) ltac:(lia)) as B.
  apply (dmul_between _ _ _ 19) in B; [|lia..]. apply (dadd_between _ _ _ 234) in B; [|lia..].
  apply (ddiv_between _ _ _ 235 (Y - 1) (Y + 2)) in B; [|lia..].
  apply (dadd_between _ _ _ 1) in B; [|lia..].
  apply to_int32_between in B as (z & Hz & ?); [|unfold INT32_MAX; lia..].
  exists (z - Y). rewrite Hz. split; [f_equal; lia|lia].
Qed.

Lemma year_loop_spec Y d fuel (k : nat) :
  (k <= fuel)%nat -> lo <= Y -> Y + Z.of_nat k <= hi + 2 -> year_start Y < d <= year_start (Y + 1) ->
  year_loop fuel d (Y + Z.of_nat k) (d - year_start (Y + Z.of_nat k)) = Some (Y, d - year_start Y).
Proof.
  unfold lo, hi. intros Hk HY HYk Hd. revert k Hk HYk. induction fuel as [|fuel IH]; intros k Hk HYk.
  - replace k with 0%nat by lia. rewrite Z.add_0_r. cbn [year_loop]. by rewrite (proj2 (Z.ltb_ge _ _)) by lia.
  - cbn [year_loop]. destruct k as [|k].
    + rewrite Z.add_0_r. by rewrite (proj2 (Z.ltb_ge _ _)) by lia.
    + pose proof (year_start_le (Y + 1) (Y + Z.of_nat (S k)) ltac:(lia)).
      rewrite (proj2 (Z.ltb_lt _ _)) by lia. icalc.
      replace (Y + Z.of_nat (S k) - 1) with (Y + Z.of_nat k) by lia.
      rewrite year_start_spec by lia. cbn [obind].
      pose proof (h_year_range (Y + Z.of_nat k)). pose proof (h_year_range Y). pose proof (h_year_range (Y + 1)).
      unfold lo, hi in *. icalc. apply IH; lia.
Qed.

(** The month of a day of the year. *)
Definition month_found (l : bool) (t n : Z) : bool :=
  match month_loop 14 (month_start_table l) t n 0 with
  | Some month => (0 <? month) && (month <? 14) && month_in l (month - 1) &&
      (dbm l t (month - 1) <? n) && (n <=? dbm l t (month - 1) + month_days t (month - 1))
  | None => false
  end.

Lemma month_found_all :
  forallb (fun l => all_below 3 (fun t => all_below 386 (fun n =>
    negb ((1 <=? n) && (n <=? shortest l + t)) || month_found l t n))) [true; false] = true.
Proof. by vm_compute. Qed.

Lemma month_found_spec l t n : 0 <= t < 3 -> 1 <= n <= shortest l + t -> month_found l t n = true.
Proof.
  intros Ht Hn. pose proof month_found_all as H. rewrite forallb_forall in H.
  specialize (H l ltac:(destruct l; cbn; tauto)).
  assert (shortest l <= 383) by (unfold shortest; case_match; lia).
  pose proof (all_below_spec _ _ (all_below_spec _ _ H t Ht) n ltac:(lia)) as Hp. cbn beta in Hp.
  by rewrite !(proj2 (Z.leb_le _ _)) in Hp by lia.
Qed.

(** The year of a day. *)
Lemma hebrew_year_of_day d (n : nat) y :
  year_start y < d <= year_start (y + Z.of_nat n) ->
  exists Y, y <= Y < y + Z.of_nat n /\ year_start Y < d <= year_start (Y + 1).
Proof.
  induction n as [|n IH]; [rewrite Z.add_0_r; lia|]. intros Hd.
  destruct (Z.le_gt_cases d (year_start (y + Z.of_nat n))).
  - destruct IH as (Y & ? & ?); [lia|]. exists Y. split; [lia|done].
  - exists (y + Z.of_nat n). split; [lia|]. replace (y + Z.of_nat n + 1) with (y + Z.of_nat (S n)) by lia. lia.
Qed.

#[export] Instance hebrew_implements : Implements system layout lo hi.
Proof.
  constructor; cbn [layout has_month start CalendarSystem.length system CalendarSystem.handleComputeMonthStart
    CalendarSystem.handleGetMonthLength CalendarSystem.handleGetYearLength CalendarSystem.handleComputeFields
    CalendarSystem.handleGetExtendedYear].
  - intros. by apply hebrew_monthStart_spec.
  - intros. apply hebrew_monthLength_spec; [lia|done].
  - intros y Hy. rewrite year_len_spec by lia. f_equal. rewrite !h_start_0. unfold year_length. lia.
  - intros c jd Hjd. rewrite !h_start_0 in Hjd.
    destruct (hebrew_year_of_day (jd - 347997) (Z.to_nat (hi - lo)) lo) as (Y & HY & HYd).
    { replace (lo + Z.of_nat (Z.to_nat (hi - lo))) with hi by (unfold lo, hi; lia). lia. }
    rewrite Z2Nat.id in HY by (unfold lo, hi; lia). replace (lo + (hi - lo)) with hi in HY by lia.
    pose proof (h_year_range Y ltac:(lia)) as HrY. pose proof (h_year_range (Y + 1) ltac:(lia)).
    unfold handleComputeFields, computeFields. icalc.
    set (d := jd - 347997) in *. destruct (guess_year_spec Y d HY HYd) as (k & Hg & Hk). rewrite Hg. cbn [obind].
    pose proof (h_year_range (Y + k) ltac:(lia)).
    rewrite year_start_spec by (unfold lo, hi in *; lia). cbn [obind]. icalc.
    replace k with (Z.of_nat (Z.to_nat k)) by lia.
    rewrite year_loop_spec by (unfold lo, hi in *; lia). cbn [obind].
    rewrite yearType_spec by lia. cbn [obind]. rewrite hebrew_leap_spec by (unfold lo, hi in *; lia). cbn [obind].
    pose proof (days_over_range Y) as Ht. set (n := d - year_start Y).
    assert (Hn : 1 <= n <= shortest (leap Y) + days_over Y).
    { unfold n, days_over, year_length. lia. }
    assert (Hn' : n <= 385) by (unfold shortest in Hn; destruct (leap Y); lia).
    pose proof (month_found_spec _ _ _ Ht Hn) as Hmf. unfold month_found in Hmf.
    destruct (month_loop _ _ _ _ _) as [month|]; [|done]. cbn [obind].
    rewrite !andb_true_iff, !Z.ltb_lt, Z.leb_le in Hmf. destruct Hmf as ((((Hm1 & Hm2) & Hm3) & Hm4) & Hm5).
    rewrite Z.geb_leb, (proj2 (Z.leb_gt 14 month)), (proj2 (Z.leb_gt month 0)) by lia. cbn [orb].
    icalc. set (m := month - 1) in *.
    pose proof (month_start_table_ok _ _ _ Ht Hm3) as Htab%bool_decide_eq_true_1. rewrite Htab. cbn [obind].
    assert (0 <= dbm (leap Y) (days_over Y) m).
    { apply Z.leb_le. refine (months_all (fun l t m => 0 <=? dbm l t m) _ (leap Y) _ m Ht Hm3). by vm_compute. }
    icalc. assert (Hday : h_start Y m + (n - dbm (leap Y) (days_over Y) m) = jd).
    { rewrite h_start_dbm, h_start_0. unfold n, d. lia. }
    eexists _, Y, m, _. split; [done|]. split; [done|]. split; [split; [exact Hm3|]|]; [|split; [exact Hday|]].
    + cbn [layout CalendarSystem.length]. unfold h_length. lia.
    + solve_date_set. change (n = h_start Y m + (n - dbm (leap Y) (days_over Y) m) - h_start Y 0).
      rewrite (h_start_dbm Y m). lia.
  - intros c. apply default_extended_year.
Qed.

(** C37: The Hebrew calendar computes a calendar of twelve or thirteen months and
    six year lengths: for the years 1 to 88366 fields and Julian days determine
    each other, and the month and year lengths are what separates the starts of
    the months and years.  The double estimate of the year needs at most three
    corrections.

    It is the traditional calendar but for the start of some years: up to 88369,
    a year begins on the day of the traditional postponement rules ([new_year]),
    except that it begins one day later after a leap year when the new moon is on
    a Sunday later than 21h 589p.  There the code tests the weekday that results
    from the first postponement where the rule, and the comment in the code, mean
    that of the new moon (a Monday); 5807 is such a year. *)
Theorem hebrew_roundtrip :
  fields_roundtrip system layout lo hi /\
  (forall y, 1 <= y < 88370 -> computeStartOfYear y = Some
     (new_year y + if leap (y - 1) && (molad_weekday y =? 6) && (21 * 1080 + 589 <? molad_part y) then 1 else 0)) /\
  computeStartOfYear 5807 = Some (new_year 5807 + 1).
Proof.
  split; [apply implements_roundtrip, hebrew_implements|]. split; [|by vm_compute]. intros y Hy. rewrite year_start_spec by done.
  unfold year_start, second_delay, HOUR_PARTS. f_equal. f_equal. by destruct (leap (y - 1)); rewrite ?andb_true_r, ?andb_false_r.
Qed.

(** A calendar without fields. *)
Definition empty_calendar : Calendar := 
  mkCalendar (fun _ => 0) (fun _ => 0) kMinimumUserStamp false false false false (of_int 0) true 2 4 0 0 0 0.

(** 1 Tishri 5777, 3 October 2016, and the start of 5807 *)
Lemma hebrew_roundtrip_witness :
  (exists c' jd, handleComputeMonthStart 5777 0 = Some jd /\ jd + 1 = 2457665 /\
     handleComputeFields empty_calendar (jd + 1) U_ZERO_ERROR = Some (c', U_ZERO_ERROR) /\
     date_set (H := layout) empty_calendar c' 5777 0 1) /\
  computeStartOfYear 5777 = Some (new_year 5777) /\ computeStartOfYear 5807 = Some (new_year 5807 + 1).
Proof.
  destruct hebrew_roundtrip as ((H & _) & Hs & H5807). split; [|split; [|exact H5807]].
  - destruct (H empty_calendar 5777 0 1) as (c' & jd & H1 & H2 & H3).
    + unfold lo, hi. lia.
    + split; vm_compute; intuition discriminate.
    + exists c', jd. split; [exact H1|split; [|split; [exact H2|exact H3]]].
      assert (E : handleComputeMonthStart 5777 0 = Some 2457664) by (vm_compute; reflexivity).
      cbn in H1. rewrite E in H1. injection H1 as <-. reflexivity.
  - rewrite (Hs 5777) by lia. vm_compute. reflexivity.
Defined.

(** The entries of a cache are computed starts of years. *)
Definition cache_ok (cache : gmap Z Z) : Prop :=
  forall year day, cache !! year = Some day -> computeStartOfYear year = Some day.

Lemma startOfYear_spec cache year :
  cache_ok cache ->
  match startOfYear cache year with
  | Some r => computeStartOfYear year = Some (fst r) /\ cache_ok (snd r)
  | None => computeStartOfYear year = None
  end.
Proof.
  intros Hc. unfold startOfYear.
  assert (Hadd : forall day, computeStartOfYear year = Some day -> cache_ok (<[year := day]> cache)).
  { intros day Hd y d. rewrite lookup_insert_Some. intros [[<- <-]|[_ ?]]; eauto. }
  destruct (default 0 (cache !! year) =? 0) eqn:Ez.
  - destruct (computeStartOfYear year) as [day|]; [|done]. split; [done|by apply Hadd].
  - destruct (cache !! year) as [day|] eqn:E; [|done]. split; [by apply Hc|done].
Qed.
End HebrewLayout.
