(* ===== verification/CalendarFields.v ===== *)
(** * Days and date fields (i18n/calendar.cpp)

    The part of [Calendar] that every calendar system shares: from a Julian day
    to all date fields ([computeDateFields]) and from the fields that were set
    last to a Julian day ([computeJulianDay]), with the limits and the checks
    of the fields.  The calendar system is a parameter, an instance of
    [CalendarSystem]; the operations that some subclasses replace
    ([handleComputeJulianDay], [validateField], the default month and day, the
    precedence table) are those of [Calendar].

    The reference for the week fields is [week_date]: a week belongs to the
    year, or the month, that has at least [fMinimalDaysInFirstWeek] of its
    days. *)
From S2P Require Import Prelude Int32 Double Grego Calendar CalendarSystem.
Local Open Scope Z_scope.

Definition kOneHour : Z := 60 * 60 * 1000.
Definition kEpochStartAsJulianDay : Z := 2440588.
Definition UCAL_JANUARY : Z := 0.

Definition kCalendarLimits : list (list Z) :=
  [N_A; N_A; N_A; N_A; N_A; N_A; N_A; (* ERA .. DAY_OF_YEAR *)
   [1; 1; 7; 7]; (* DAY_OF_WEEK *)
   N_A; (* DAY_OF_WEEK_IN_MONTH *)
   [0; 0; 1; 1]; (* AM_PM *)
   [0; 0; 11; 11]; (* HOUR *)
   [0; 0; 23; 23]; (* HOUR_OF_DAY *)
   [0; 0; 59; 59]; (* MINUTE *)
   [0; 0; 59; 59]; (* SECOND *)
   [0; 0; 999; 999]; (* MILLISECOND *)
   [-12 * kOneHour; -12 * kOneHour; 12 * kOneHour; 15 * kOneHour]; (* ZONE_OFFSET *)
   [0; 0; 1 * kOneHour; 1 * kOneHour]; (* DST_OFFSET *)
   N_A; (* YEAR_WOY *)
   [1; 1; 7; 7]; (* DOW_LOCAL *)
   N_A; (* EXTENDED_YEAR *)
   [-0x7F000000; -0x7F000000; 0x7F000000; 0x7F000000]; (* JULIAN_DAY *)
   [0; 0; 24 * kOneHour - 1; 24 * kOneHour - 1]; (* MILLISECONDS_IN_DAY *)
   [0; 0; 1; 1]; (* IS_LEAP_MONTH *)
   [0; 0; 0x10FFFF; 0x10FFFF] (* TIME_SEPARATOR *)].

(** The conversions to 8 bits keep the result of [uprv_fmod], which is
    between -6 and 6. *)
Definition julianDayToDayOfWeek (julian : double) : I32 :=
  let! dayOfWeek := to_int32 (Grego.uprv_fmod (dadd julian (of_int 1)) (of_int 7)) in
  let dayOfWeek := int8 dayOfWeek in
  Some (uint8 (dayOfWeek + (if dayOfWeek <? 0 then 7 + UCAL_SUNDAY else UCAL_SUNDAY))).

Definition computeGregorianFields (c : Calendar) (julianDay : Z) : option Calendar :=
  let! day := julianDay -! kEpochStartAsJulianDay in
  let! f := Grego.dayToFields (of_int day) in
  Some (with_gregorian c f.(Grego.year) f.(Grego.month) f.(Grego.dom) f.(Grego.doy)).

Definition computeGregorianAndDOWFields (c : Calendar) (julianDay : Z) : option Calendar :=
  let! c := computeGregorianFields c julianDay in
  let! dow := julianDayToDayOfWeek (of_int julianDay) in
  let c := internalSet c UCAL_DAY_OF_WEEK dow in
  let! dowLocal := dow -! c.(fFirstDayOfWeek) +! 1 in
  let! dowLocal := if dowLocal <? 1 then dowLocal +! 7 else Some dowLocal in
  let c := internalSet c UCAL_DOW_LOCAL dowLocal in
  Some (set_field c UCAL_DOW_LOCAL dowLocal).

(** ** Week numbers *)

Definition weekNumber (c : Calendar) (desiredDay dayOfPeriod dayOfWeek : Z) : I32 :=
  let! periodStartDayOfWeek := (dayOfWeek -! c.(fFirstDayOfWeek) -! dayOfPeriod +! 1) %! 7 in
  let! periodStartDayOfWeek :=
    if periodStartDayOfWeek <? 0 then periodStartDayOfWeek +! 7 else Some periodStartDayOfWeek in
  let! weekNo := (desiredDay +! periodStartDayOfWeek -! 1) /! 7 in
  let! days := 7 -! periodStartDayOfWeek in
  if days >=? c.(fMinimalDaysInFirstWeek) then weekNo +! 1 else Some weekNo.

Section System.
Context {C : CalendarSystem}.

(** The week of the year and the year it belongs to. *)
Definition week_of_year (c : Calendar) (eyear dayOfWeek dayOfYear : Z) : option (Z * Z) :=
  let firstDayOfWeek := c.(fFirstDayOfWeek) in
  let minimalDays := c.(fMinimalDaysInFirstWeek) in
  let! relDow := (dayOfWeek +! 7 -! firstDayOfWeek) %! 7 in
  let! relDowJan1 := (dayOfWeek -! dayOfYear +! 7001 -! firstDayOfWeek) %! 7 in
  let! woy := (dayOfYear -! 1 +! relDowJan1) /! 7 in
  let! days := 7 -! relDowJan1 in
  let! woy := if days >=? minimalDays then woy +! 1 else Some woy in
  if woy =? 0 then
    let! previous := eyear -! 1 in
    let! prevDoy := dayOfYear +! handleGetYearLength previous in
    let! woy := weekNumber c prevDoy prevDoy dayOfWeek in
    let! yearOfWeekOfYear := eyear -! 1 in
    Some (woy, yearOfWeekOfYear)
  else
    let! lastDoy := handleGetYearLength eyear in
    let! last5 := lastDoy -! 5 in
    if dayOfYear >=? last5 then
      let! lastRelDow := (relDow +! lastDoy -! dayOfYear) %! 7 in
      let! lastRelDow := if lastRelDow <? 0 then lastRelDow +! 7 else Some lastRelDow in
      let! left := 6 -! lastRelDow in
      let! next := dayOfYear +! 7 -! relDow in
      if (left >=? minimalDays) && (next >? lastDoy) then
        let! y := eyear +! 1 in Some (1, y)
      else Some (woy, eyear)
    else Some (woy, eyear).

Definition computeWeekFields (c : Calendar) (ec : UErrorCode) : option Calendar :=
  if U_FAILURE ec then Some c
  else
    let eyear := c.(fFields) UCAL_EXTENDED_YEAR in
    let dayOfWeek := c.(fFields) UCAL_DAY_OF_WEEK in
    let dayOfYear := c.(fFields) UCAL_DAY_OF_YEAR in
    let! '(woy, yearOfWeekOfYear) := week_of_year c eyear dayOfWeek dayOfYear in
    let c := set_field c UCAL_WEEK_OF_YEAR woy in
    let c := set_field c UCAL_YEAR_WOY yearOfWeekOfYear in
    let dayOfMonth := c.(fFields) UCAL_DAY_OF_MONTH in
    let! weekOfMonth := weekNumber c dayOfMonth dayOfMonth dayOfWeek in
    let c := set_field c UCAL_WEEK_OF_MONTH weekOfMonth in
    let! dowim := (dayOfMonth -! 1) /! 7 +! 1 in
    Some (set_field c UCAL_DAY_OF_WEEK_IN_MONTH dowim).

(** [computeFields] marks all fields as set but those of the subclass. *)
Definition mark_fields (c : Calendar) : Calendar :=
  with_stamps c
    (fun i => if bool_decide (i ∈ fields) then if is_date_field i then kUnset else kInternallySet
              else c.(fStamp) i) c.(fNextStamp).

(** The date fields of the day [days] of 1970, as [computeFields] sets them. *)
Definition computeDateFields (c : Calendar) (days : Z) (ec : UErrorCode) :
    option (Calendar * UErrorCode) :=
  let c := mark_fields c in
  let! julianDay := days +! kEpochStartAsJulianDay in
  let c := internalSet c UCAL_JULIAN_DAY julianDay in
  let! c := computeGregorianAndDOWFields c (c.(fFields) UCAL_JULIAN_DAY) in
  let! '(c, ec) := handleComputeFields c (c.(fFields) UCAL_JULIAN_DAY) ec in
  let! c := computeWeekFields c ec in
  Some (c, ec).

(** ** Limits and validation *)

Definition getLimit (c : Calendar) (field : Z) (limitType : ELimitType) : I32 :=
  if bool_decide (field ∈ [UCAL_DAY_OF_WEEK; UCAL_AM_PM; UCAL_HOUR; UCAL_HOUR_OF_DAY; UCAL_MINUTE;
      UCAL_SECOND; UCAL_MILLISECOND; UCAL_ZONE_OFFSET; UCAL_DST_OFFSET; UCAL_DOW_LOCAL;
      UCAL_JULIAN_DAY; UCAL_MILLISECONDS_IN_DAY; UCAL_IS_LEAP_MONTH; UCAL_TIME_SEPARATOR])
  then limit_at kCalendarLimits field limitType
  else if field =? UCAL_WEEK_OF_MONTH then
    match limitType with
    | UCAL_LIMIT_MINIMUM => Some (if c.(fMinimalDaysInFirstWeek) =? 1 then 1 else 0)
    | UCAL_LIMIT_GREATEST_MINIMUM => Some 1
    | UCAL_LIMIT_LEAST_MAXIMUM =>
        let! daysInMonth := handleGetLimit UCAL_DAY_OF_MONTH limitType in
        (daysInMonth +! (7 -! c.(fMinimalDaysInFirstWeek))) /! 7
    | UCAL_LIMIT_MAXIMUM =>
        let! daysInMonth := handleGetLimit UCAL_DAY_OF_MONTH limitType in
        (daysInMonth +! 6 +! (7 -! c.(fMinimalDaysInFirstWeek))) /! 7
    end
  else handleGetLimit field limitType.

Definition getMinimum (c : Calendar) (field : Z) : I32 := getLimit c field UCAL_LIMIT_MINIMUM.
Definition getMaximum (c : Calendar) (field : Z) : I32 := getLimit c field UCAL_LIMIT_MAXIMUM.
Definition getGreatestMinimum (c : Calendar) (field : Z) : I32 :=
  getLimit c field UCAL_LIMIT_GREATEST_MINIMUM.
Definition getLeastMaximum (c : Calendar) (field : Z) : I32 :=
  getLimit c field UCAL_LIMIT_LEAST_MAXIMUM.

(** [validateField(field, min, max, status)] *)
Definition validateField_range (c : Calendar) (field min max : Z) (status : UErrorCode) : UErrorCode :=
  let value := c.(fFields) field in
  if (value <? min) || (value >? max) then U_ILLEGAL_ARGUMENT_ERROR else status.

Definition validateField (c : Calendar) (field : Z) (status : UErrorCode) : option UErrorCode :=
  if field =? UCAL_DAY_OF_MONTH then
    let! y := handleGetExtendedYear c in
    let! max := handleGetMonthLength y (internalGet c UCAL_MONTH) in
    Some (validateField_range c field 1 max status)
  else if field =? UCAL_DAY_OF_YEAR then
    let! y := handleGetExtendedYear c in
    let! max := handleGetYearLength y in
    Some (validateField_range c field 1 max status)
  else if (field =? UCAL_DAY_OF_WEEK_IN_MONTH) && (internalGet c field =? 0) then
    Some U_ILLEGAL_ARGUMENT_ERROR
  else
    let! min := getMinimum c field in
    let! max := getMaximum c field in
    Some (validateField_range c field min max status).

Definition validateFields (c : Calendar) (status : UErrorCode) : option UErrorCode :=
  foldl (fun st field =>
    let! status := st in
    if U_SUCCESS status && (c.(fStamp) field >=? kMinimumUserStamp)
    then validateField c field status else Some status) (Some status) fields.

(** ** From the fields to the day *)

Definition getDefaultMonthInYear (eyear : Z) : Z := 0.
Definition getDefaultDayInMonth (eyear month : Z) : Z := 1.

Definition getLocalDOW (c : Calendar) : I32 :=
  let best := resolveFields c kDOWPrecedence in
  let! dowLocal :=
    if best =? UCAL_DAY_OF_WEEK then internalGet c UCAL_DAY_OF_WEEK -! c.(fFirstDayOfWeek)
    else if best =? UCAL_DOW_LOCAL then internalGet c UCAL_DOW_LOCAL -! 1
    else Some 0 in
  let! dowLocal := dowLocal %! 7 in
  if dowLocal <? 0 then dowLocal +! 7 else Some dowLocal.

(** The zero-based local day of the week of the day after [julianDay]. *)
Definition first_dow (c : Calendar) (julianDay : Z) : I32 :=
  let! d := julianDay +! 1 in
  let! first := julianDayToDayOfWeek (of_int d) -! c.(fFirstDayOfWeek) in
  if first <? 0 then first +! 7 else Some first.

(** Without a YEAR_WOY of its own the week is looked for in the calendar year:
    week 1 may start in the next year, a last week may end the year before.
    Gives the day before the year, its [first] and the [date]. *)
Definition stay_in_year (c : Calendar) (year julianDay first date dowLocal : Z) :
    option (Z * Z * Z) :=
  let woy := internalGet c UCAL_WEEK_OF_YEAR in
  let minimalDays := c.(fMinimalDaysInFirstWeek) in
  let! next := year +! 1 in
  let! nextJulianDay := handleComputeMonthStart next 0 in
  let! nextFirst := first_dow c nextJulianDay in
  if woy =? 1 then
    if (nextFirst >? 0) && (7 - nextFirst >=? minimalDays) then
      let! first := first_dow c nextJulianDay in
      let! date := 1 -! first +! dowLocal in
      Some (nextJulianDay, first, date)
    else Some (julianDay, first, date)
  else
    let! leastMaximum := getLeastMaximum c UCAL_WEEK_OF_YEAR in
    if woy >=? leastMaximum then
      let! testDate := if 7 - first <? minimalDays then date +! 7 else Some date in
      let! testDate := testDate +! 7 *! (woy -! 1) in
      let! testDay := julianDay +! testDate in
      if testDay >? nextJulianDay then
        let! previous := year -! 1 in
        let! julianDay := handleComputeMonthStart previous 0 in
        let! first := first_dow c julianDay in
        let! date := 1 -! first +! dowLocal in
        Some (julianDay, first, date)
      else Some (julianDay, first, date)
    else Some (julianDay, first, date).

(** The Julian day, and the calendar with its new EXTENDED_YEAR. *)
Definition handleComputeJulianDay (c : Calendar) (bestField : Z) : option (Z * Calendar) :=
  let useMonth := (bestField =? UCAL_DAY_OF_MONTH) || (bestField =? UCAL_WEEK_OF_MONTH) ||
                  (bestField =? UCAL_DAY_OF_WEEK_IN_MONTH) in
  let! eyear := handleGetExtendedYear c in
  let year := if bestField =? UCAL_WEEK_OF_YEAR then internalGet_default c UCAL_YEAR_WOY eyear
              else eyear in
  let c := internalSet c UCAL_EXTENDED_YEAR year in
  let month := if isSet c UCAL_MONTH then internalGet c UCAL_MONTH else getDefaultMonthInYear year in
  let! julianDay := handleComputeMonthStart year (if useMonth then month else 0) in
  if bestField =? UCAL_DAY_OF_MONTH then
    let dayOfMonth := if isSet c UCAL_DAY_OF_MONTH then internalGet_default c UCAL_DAY_OF_MONTH 1
                      else getDefaultDayInMonth year month in
    let! jd := julianDay +! dayOfMonth in Some (jd, c)
  else if bestField =? UCAL_DAY_OF_YEAR then
    let! jd := julianDay +! internalGet c UCAL_DAY_OF_YEAR in Some (jd, c)
  else
    let! first := first_dow c julianDay in
    let! dowLocal := getLocalDOW c in
    let! date := 1 -! first +! dowLocal in
    if bestField =? UCAL_DAY_OF_WEEK_IN_MONTH then
      let! date := if date <? 1 then date +! 7 else Some date in
      let dim := internalGet_default c UCAL_DAY_OF_WEEK_IN_MONTH 1 in
      let! date :=
        if dim >=? 0 then date +! 7 *! (dim -! 1)
        else
          let m := internalGet_default c UCAL_MONTH UCAL_JANUARY in
          let! monthLength := handleGetMonthLength year m in
          date +! ((monthLength -! date) /! 7 +! dim +! 1) *! 7 in
      let! jd := julianDay +! date in Some (jd, c)
    else
      let! '(julianDay, first, date) :=
        (if (bestField =? UCAL_WEEK_OF_YEAR) &&
            (negb (isSet c UCAL_YEAR_WOY) ||
             (negb (resolveFields c kYearPrecedence =? UCAL_YEAR_WOY) &&
              negb (c.(fStamp) UCAL_YEAR_WOY =? kInternallySet)))
         then stay_in_year c year julianDay first date dowLocal
         else Some (julianDay, first, date)) in
      let! days := 7 -! first in
      let! date := if days <? c.(fMinimalDaysInFirstWeek) then date +! 7 else Some date in
      let! date := date +! 7 *! (internalGet c bestField -! 1) in
      let! jd := julianDay +! date in Some (jd, c).

Definition computeJulianDay (c : Calendar) : option (Z * Calendar) :=
  let bestStamp := newestStamp c UCAL_ERA UCAL_DAY_OF_WEEK_IN_MONTH kUnset in
  let bestStamp := newestStamp c UCAL_YEAR_WOY UCAL_EXTENDED_YEAR bestStamp in
  if (c.(fStamp) UCAL_JULIAN_DAY >=? kMinimumUserStamp) && (bestStamp <=? c.(fStamp) UCAL_JULIAN_DAY)
  then Some (internalGet c UCAL_JULIAN_DAY, c)
  else
    let bestField := resolveFields c kDatePrecedence in
    handleComputeJulianDay c (if bestField =? UCAL_FIELD_COUNT then UCAL_DAY_OF_MONTH else bestField).
End System.
