(* ===== verification/CalendarDays.v ===== *)
(** * Days and date fields: what the conversions promise

    The operations of [CalendarFields] for any calendar system that implements
    its calendar: [computeDateFields] gives the fields of a day, every way to
    resolve them gives the day back, and fields that the user sets choose the
    day they describe.  A week belongs to the year, or the month, that has at
    least [fMinimalDaysInFirstWeek] of its days ([week1]). *)
From S2P Require Import Prelude Int32 Double Grego Calendar CalendarSystem CECalendar CopticCalendar CalendarFields.
Local Open Scope Z_scope.

(** Decides the comparisons of constants. *)
Ltac eval_eqb :=
  repeat match goal with |- context [?a =? ?b] =>
    let v := eval vm_compute in (a =? b) in
    lazymatch v with
    | true => change (a =? b) with true
    | false => change (a =? b) with false
    end end; cbn [andb orb negb].

(** Membership in lists of constants. *)
Ltac by_elem := apply (bool_decide_eq_true_1 _); vm_compute; reflexivity.

(** ** Weeks *)

(** The day of the week of a Julian day, 1 for Sunday. *)
Definition weekday (jd : Z) : Z := (jd + 1) mod 7 + 1.

(** The same counted from the first day of the week, from 0. *)
Definition local_dow (c : Calendar) (jd : Z) : Z := (jd + 2 - c.(fFirstDayOfWeek)) mod 7.

(** The first day of the week 1 of the period after the day [s]: the first week
    with [fMinimalDaysInFirstWeek] of its days in the period. *)
Definition week1 (c : Calendar) (s : Z) : Z :=
  let f := local_dow c (s + 1) in
  s + 1 - f + (if c.(fMinimalDaysInFirstWeek) <=? 7 - f then 0 else 7).

(** The number of the week of [jd] in that period. *)
Definition week_in (c : Calendar) (s jd : Z) : Z := (jd - week1 c s) / 7 + 1.

Definition weeks_ok (c : Calendar) : Prop :=
  1 <= c.(fFirstDayOfWeek) <= 7 /\ 1 <= c.(fMinimalDaysInFirstWeek) <= 7.

Section Weeks.
Context (c : Calendar) (Hc : weeks_ok c).

(** What characterizes the week 1. *)
Lemma week1_spec s w :
  w = week1 c s <->
  local_dow c w = 0 /\
  c.(fMinimalDaysInFirstWeek) <= (w + 6) - s < c.(fMinimalDaysInFirstWeek) + 7.
Proof.
  destruct Hc. unfold week1, local_dow.
  destruct (Z.leb_spec (fMinimalDaysInFirstWeek c) (7 - (s + 1 + 2 - fFirstDayOfWeek c) mod 7)); dlia.
Qed.

Lemma week1_near s : s - 5 <= week1 c s <= s + 7.
Proof. destruct Hc. pose proof (proj1 (week1_spec s _) eq_refl). lia. Qed.

Lemma julianDayToDayOfWeek_spec jd :
  Z.abs jd < 2 ^ 52 -> julianDayToDayOfWeek (of_int jd) = Some (weekday jd).
Proof.
  intros. unfold julianDayToDayOfWeek. rewrite dadd_int, GregoFacts.uprv_fmod_int by lia.
  rewrite to_int32_int by ibound. cbn [obind].
  assert (int8 (Z.rem (jd + 1) 7) = Z.rem (jd + 1) 7) as -> by (unfold int8; dlia).
  unfold weekday, UCAL_SUNDAY, uint8. f_equal. case_match eqn:E; dlia.
Qed.

Lemma first_dow_spec s : is_int32 (s + 1) -> first_dow c s = Some (local_dow c (s + 1)).
Proof.
  intros Hs. destruct Hc. unfold first_dow. unfold is_int32, INT32_MIN, INT32_MAX in Hs.
  icalc. rewrite julianDayToDayOfWeek_spec by lia. unfold weekday.
  icalc. unfold local_dow. destruct (Z.ltb_spec ((s + 1 + 1) mod 7 + 1 - fFirstDayOfWeek c) 0).
  - try rewrite iadd_ok by ibound. f_equal. dlia.
  - f_equal. dlia.
Qed.

(** [weekNumber] for the [d]-th day of a period. *)
Lemma weekNumber_spec s d :
  1 <= d <= 20000 -> weekNumber c d d (weekday (s + d)) = Some (week_in c s (s + d)).
Proof.
  intros Hd. destruct Hc. unfold weekNumber, weekday, week_in, week1.
  icalc. set (f := local_dow c (s + 1)).
  set (r := Z.rem _ 7).
  assert (Hf : (if r <? 0 then Some (r + 7) else Some r) = Some f).
  { unfold f, local_dow. destruct (Z.ltb_spec r 0); f_equal; unfold r in *; dlia. }
  rewrite Hf. assert (0 <= f <= 6) by (unfold f, local_dow; dlia). clearbody f r. icalc.
  rewrite Z.geb_leb. destruct (Z.leb_spec (fMinimalDaysInFirstWeek c) (7 - f)); icalc; f_equal; dlia.
Qed.
End Weeks.

(** ** From the day to the fields *)

(** What the week computations assume of a calendar: years of two weeks to
    6900 days, and room for them in the type. *)
Class WeekBounds (L : MonthLayout) (lo hi : Z) := {
  year_length_bounds y : lo <= y < hi -> 14 <= start (y + 1) 0 - start y 0 <= 6900;
  days_bounds : INT32_MIN + 2500000 <= start lo 0 /\ start hi 0 <= INT32_MAX - 40000;
  years_bounds : INT32_MIN + 20000 <= lo /\ hi <= INT32_MAX - 20000
}.

Section Fields.
Context {C : CalendarSystem} {L : MonthLayout} {lo hi : Z}.
Context {I : Implements C L lo hi} {B : WeekBounds L lo hi}.
Context (c : Calendar) (Hc : weeks_ok c).

Lemma week_of_year_spec y doy :
  lo < y -> y + 1 < hi -> 1 <= doy <= start (y + 1) 0 - start y 0 ->
  let jd := start y 0 + doy in
  exists w yw, week_of_year c y (weekday jd) doy = Some (w, yw) /\ y - 1 <= yw <= y + 1 /\
    week1 c (start yw 0) <= jd < week1 c (start (yw + 1) 0) /\ w = week_in c (start yw 0) jd.
Proof.
  intros Hlo Hhi Hdoy jd. pose proof (year_length_bounds (lo:=lo) (hi:=hi) y ltac:(lia)) as Hyl.
  pose proof (year_length_bounds (lo:=lo) (hi:=hi) (y - 1) ltac:(lia)) as Hylp. rewrite Z.sub_add in Hylp.
  pose proof (year_length_bounds (lo:=lo) (hi:=hi) (y + 1) ltac:(lia)) as Hyln.
  pose proof (years_bounds (lo:=lo) (hi:=hi)) as Hyb. unfold INT32_MIN, INT32_MAX in Hyb.
  unfold week_of_year. destruct Hc as [Hf Hm].
  assert (Hwd : 1 <= weekday jd <= 7) by (unfold weekday; dlia).
  icalc. rewrite !(year_length_ok (lo:=lo) (hi:=hi)) by lia. rewrite Z.sub_add.
  set (s := start y 0) in *. set (sp := start (y - 1) 0) in *. set (sn := start (y + 1) 0) in *.
  set (relDow := (weekday jd + 7 - fFirstDayOfWeek c) mod 7).
  assert (Hrel : relDow = local_dow c jd) by (unfold relDow, local_dow, weekday; clear; dlia).
  set (relJan1 := (weekday jd - doy + 7001 - fFirstDayOfWeek c) mod 7).
  assert (Hjan : relJan1 = local_dow c (s + 1)) by (unfold relJan1, local_dow, weekday, jd; clear; dlia).
  assert (0 <= relDow < 7) by (unfold relDow; dlia). assert (0 <= relJan1 < 7) by (unfold relJan1; dlia).
  clearbody relDow relJan1. icalc.
  assert (Hw1 : week1 c s = s + 1 - relJan1 + (if fMinimalDaysInFirstWeek c <=? 7 - relJan1 then 0 else 7))
    by (unfold week1; by rewrite <- Hjan).
  set (woy := (doy - 1 + relJan1) / 7 + (if fMinimalDaysInFirstWeek c <=? 7 - relJan1 then 1 else 0)).
  replace (if 7 - relJan1 >=? fMinimalDaysInFirstWeek c then _ else _) with (Some woy)
    by (unfold woy; rewrite Z.geb_leb; case_match; f_equal; lia).
  assert (Hwoy : woy = week_in c s jd).
  { unfold woy, week_in, jd. rewrite Hw1. destruct (Z.leb_spec (fMinimalDaysInFirstWeek c) (7 - relJan1)); dlia. }
  assert (0 <= woy <= 1100) by (unfold woy; case_match; dlia). clearbody woy. cbn [obind].
  pose proof (week1_near c Hc sp). pose proof (week1_near c Hc sn). pose proof (week1_near c Hc (start (y + 1 + 1) 0)).
  destruct (Z.eqb_spec woy 0) as [E|E].
  - icalc. set (p := doy + (s - sp)). replace (weekday jd) with (weekday (sp + p)) by (f_equal; unfold p, jd; lia).
    rewrite weekNumber_spec by (done || (unfold p; lia)). cbn [obind].
    exists (week_in c sp (sp + p)), (y - 1). replace (sp + p) with jd by (unfold p, jd; lia).
    split; [done|]. split; [lia|]. fold sp. rewrite Z.sub_add. fold s. split; [|done].
    split; [unfold jd; lia|]. unfold week_in in Hwoy. pose proof (week1_near c Hc s).
    unfold jd in *. dlia.
  - assert (Hjd : week1 c s <= jd) by (unfold week_in in Hwoy; dlia).
    icalc. set (nextyear := week1 c sn <=? jd).
    destruct (Z.geb_spec doy (sn - s - 5)) as [Hd|Hd].
    + set (last := (relDow + (sn - s) - doy) mod 7). assert (Hlast : last = local_dow c sn).
      { unfold last. rewrite Hrel. unfold local_dow, jd. dlia. }
      assert (0 <= last < 7) by (rewrite Hlast; unfold local_dow; dlia). clearbody last.
      rewrite (proj2 (Z.ltb_ge last 0)) by lia. icalc.
      assert (Hn : (6 - last >=? fMinimalDaysInFirstWeek c) && (doy + 7 - relDow >? sn - s) = nextyear).
      { unfold nextyear, week1. apply eq_iff_eq_true. rewrite andb_true_iff, Z.geb_le, Z.gtb_lt, Z.leb_le.
        rewrite Hrel. unfold local_dow in *. unfold jd in *. rewrite Hlast.
        destruct (Z.leb_spec (fMinimalDaysInFirstWeek c) (7 - (sn + 1 + 2 - fFirstDayOfWeek c) mod 7)); dlia. }
      rewrite Hn. unfold nextyear. destruct (Z.leb_spec (week1 c sn) jd).
      * exists 1, (y + 1). split; [done|]. split; [lia|]. fold sn.
        split; [unfold jd in *; lia|]. unfold week_in, jd in *. dlia.
      * exists woy, y. split; [done|]. split; [lia|]. fold s sn. split; [lia|done].
    + exists woy, y. split; [done|]. split; [lia|]. fold s sn. split; [unfold jd in *; lia|done].
Qed.

(** All date fields of [c'] are those of the day [jd]: of its date in the
    calendar, in weeks, and in the Gregorian calendar. *)
Record date_computed (c' : Calendar) (jd y m d yw : Z) : Prop := {
  dc_valid : valid_date y m d;
  dc_day : start y m + d = jd;
  dc_year : c'.(fFields) UCAL_EXTENDED_YEAR = y;
  dc_month : c'.(fFields) UCAL_MONTH = m;
  dc_dom : c'.(fFields) UCAL_DAY_OF_MONTH = d;
  dc_doy : c'.(fFields) UCAL_DAY_OF_YEAR = jd - start y 0;
  dc_jd : c'.(fFields) UCAL_JULIAN_DAY = jd;
  dc_dow : c'.(fFields) UCAL_DAY_OF_WEEK = weekday jd;
  dc_dow_local : c'.(fFields) UCAL_DOW_LOCAL = local_dow c jd + 1;
  dc_year_woy : c'.(fFields) UCAL_YEAR_WOY = yw;
  dc_week_year : week1 c (start yw 0) <= jd < week1 c (start (yw + 1) 0);
  dc_woy : c'.(fFields) UCAL_WEEK_OF_YEAR = week_in c (start yw 0) jd;
  dc_wom : c'.(fFields) UCAL_WEEK_OF_MONTH = week_in c (start y m) jd;
  dc_dowim : c'.(fFields) UCAL_DAY_OF_WEEK_IN_MONTH = (d - 1) / 7 + 1;
  dc_gregorian :
    let t := Gregorian.MkDate c'.(fGregorianYear) c'.(fGregorianMonth) c'.(fGregorianDayOfMonth) in
    Gregorian.valid t /\ Gregorian.day_number t = jd - kEpochStartAsJulianDay;
  dc_stamps f : is_field f -> c'.(fStamp) f = kInternallySet;
  dc_rest : c'.(fFirstDayOfWeek) = c.(fFirstDayOfWeek) /\
    c'.(fMinimalDaysInFirstWeek) = c.(fMinimalDaysInFirstWeek) /\
    c'.(fNextStamp) = c.(fNextStamp) /\ c'.(fTime) = c.(fTime) /\ c'.(fLenient) = c.(fLenient) /\
    c'.(fIsTimeSet) = c.(fIsTimeSet) /\
    c'.(fAreFieldsVirtuallySet) = c.(fAreFieldsVirtuallySet)
}.

Lemma mark_fields_stamp f : is_field f ->
  (mark_fields c).(fStamp) f = if is_date_field f then kUnset else kInternallySet.
Proof.
  intros Hf. cbn. rewrite bool_decide_eq_true_2; [done|]. by apply elem_of_fields.
Qed.

(** The fields that do not depend on the calendar system. *)
Lemma computeGregorianAndDOWFields_spec c0 jd :
  weeks_ok c0 -> is_int32 (jd + 20000) -> is_int32 (jd - 20000) -> is_int32 (jd - kEpochStartAsJulianDay) ->
  exists gy gm gd gdoy,
    let t := Gregorian.MkDate gy gm gd in
    Gregorian.valid t /\ Gregorian.day_number t = jd - kEpochStartAsJulianDay /\
    computeGregorianAndDOWFields c0 jd =
      Some (set_field (internalSet (internalSet (with_gregorian c0 gy gm gd gdoy)
        UCAL_DAY_OF_WEEK (weekday jd)) UCAL_DOW_LOCAL (local_dow c0 jd + 1))
        UCAL_DOW_LOCAL (local_dow c0 jd + 1)).
Proof.
  intros [Hf Hm] Hhi Hlo Hep. unfold is_int32, INT32_MIN, INT32_MAX, kEpochStartAsJulianDay in *.
  unfold computeGregorianAndDOWFields, computeGregorianFields, kEpochStartAsJulianDay. icalc.
  destruct (GregoFacts.dayToFields_spec (jd - 2440588) ltac:(lia)) as (f & -> & Hv & Heq & _).
  exists f.(Grego.year), f.(Grego.month), f.(Grego.dom), f.(Grego.doy).
  split; [done|]. split; [done|]. cbn [obind]. rewrite julianDayToDayOfWeek_spec by lia. cbn [obind].
  cbn [internalSet with_stamps set_field with_fields with_gregorian fFirstDayOfWeek].
  assert (1 <= weekday jd <= 7) by (unfold weekday; dlia). icalc.
  assert (Hl : (if weekday jd - fFirstDayOfWeek c0 + 1 <? 1
                then Some (weekday jd - fFirstDayOfWeek c0 + 1 + 7)
                else Some (weekday jd - fFirstDayOfWeek c0 + 1)) = Some (local_dow c0 jd + 1)).
  { unfold local_dow, weekday. case_match eqn:E; f_equal; dlia. }
  rewrite Hl. done.
Qed.

Lemma computeDateFields_spec jd :
  start (lo + 1) 0 < jd <= start (hi - 1) 0 ->
  exists c' y m d yw,
    computeDateFields c (jd - kEpochStartAsJulianDay) U_ZERO_ERROR = Some (c', U_ZERO_ERROR) /\
    date_computed c' jd y m d yw /\ lo < y /\ y + 1 < hi /\ y - 1 <= yw <= y + 1.
Proof.
  intros Hjd. pose proof days_bounds as Hb. pose proof years_bounds as Hyb.
  unfold INT32_MIN, INT32_MAX in Hb, Hyb.
  assert (Hlohi : lo + 1 < hi - 1).
  { apply Z.lt_nge. intros Hle. apply start_years in Hle. lia. }
  pose proof (start_years lo (lo + 1) ltac:(lia)). pose proof (start_years (hi - 1) hi ltac:(lia)).
  unfold computeDateFields. unfold kEpochStartAsJulianDay at 1. 
  replace (iadd _ _) with (Some jd)
    by (symmetry; unfold int, kEpochStartAsJulianDay; rewrite iadd_ok by ibound; f_equal; lia).
  cbn [obind]. set (c0 := internalSet (mark_fields c) UCAL_JULIAN_DAY jd).
  change (fFields c0 UCAL_JULIAN_DAY) with jd.
  destruct (computeGregorianAndDOWFields_spec c0 jd) as (gy & gm & gd & gdoy & Hgv & Hgd & ->);
    [done|unfold kEpochStartAsJulianDay; ibound..|].
  cbn [obind]. set (c1 := set_field _ _ _). change (fFields c1 UCAL_JULIAN_DAY) with jd.
  destruct (fields_ok c1 jd) as (c2 & y & m & d & Hcf & Hy & Hv & Heq & Hset); [lia|].
  rewrite Hcf. cbn [obind].
  pose proof (date_in_year y m d Hv) as Hdy.
  assert (Hly : lo < y).
  { apply Z.nle_gt. intros Hle. pose proof (start_years (y + 1) (lo + 1) ltac:(lia)). lia. }
  assert (Hhy : y + 1 < hi).
  { apply Z.nle_gt. intros Hle. pose proof (start_years (hi - 1) y ltac:(lia)). lia. }
  destruct Hset as [Sy Sm Sd Sdoy Sst Sother Srest].
  assert (Hdow : fFields c2 UCAL_DAY_OF_WEEK = weekday jd)
    by (by rewrite (proj1 (Sother UCAL_DAY_OF_WEEK eq_refl))).
  assert (Hc2 : weeks_ok c2) by (rewrite Srest; exact Hc).
  unfold computeWeekFields. cbn [U_FAILURE UErrorCode_value Z.ltb Z.compare].
  rewrite Sy, Hdow, Sdoy.
  destruct (week_of_year_spec y (start y m + d - start y 0)) as (w & yw & Hw & Hyw & Hrange & Hwn); [lia..|].
  replace (start y 0 + (start y m + d - start y 0)) with jd in * by lia.
  replace (week_of_year c2 y) with (week_of_year c y) by (rewrite Srest; done).
  rewrite Hw. cbn [obind]. cbn [set_field with_fields fFields]. 
  rewrite !(fset_ne _ _ _ UCAL_DAY_OF_MONTH) by done. rewrite Sd.
  pose proof (year_length_bounds (lo:=lo) (hi:=hi) y ltac:(lia)).
  assert (Hd : 1 <= d <= 6900).
  { destruct Hv as [Hhas Hd]. pose proof (start_0_le y m Hhas). lia. }
  replace (weekday jd) with (weekday (start y m + d)) by (by rewrite Heq).
  match goal with |- context [weekNumber ?cc d d ?w] =>
    change (weekNumber cc d d w) with (weekNumber c2 d d w) end.
  rewrite (weekNumber_spec c2 Hc2 (start y m) d) by lia. cbn [obind]. icalc.
  eexists _, y, m, d, yw. split; [done|]. split; [|lia].
  assert (Hwk : forall s, week_in c2 s jd = week_in c s jd) by (intros; rewrite Srest; done).
  rewrite Heq. constructor; try done; cbn [set_field with_fields fFields fStamp fNextStamp fTime
    fLenient fIsTimeSet fAreFieldsVirtuallySet fFirstDayOfWeek fMinimalDaysInFirstWeek
    fGregorianYear fGregorianMonth fGregorianDayOfMonth].
  - cbn. lia.
  - rewrite !fset_ne by done. by apply Sother.
  - rewrite !fset_ne by done. rewrite (proj1 (Sother UCAL_DOW_LOCAL eq_refl)). done.
  - rewrite fset_ne, fset_eq by done. apply Hwk.
  - rewrite Srest. done.
  - intros f Hf. destruct (is_date_field f) eqn:E; [by apply Sst|].
    rewrite (proj2 (Sother f E)).
    change (fStamp c1 f) with (fset (fset (fset (fStamp (mark_fields c)) UCAL_JULIAN_DAY kInternallySet)
      UCAL_DAY_OF_WEEK kInternallySet) UCAL_DOW_LOCAL kInternallySet f).
    unfold fset. rewrite mark_fields_stamp, E by done. by repeat case_match.
  - rewrite Srest. done.
Qed.

(** The fields of the time of the day do not matter to [date_computed]. *)
Definition is_time_field (f : Z) : bool :=
  ((UCAL_AM_PM <=? f) && (f <=? UCAL_DST_OFFSET)) || (f =? UCAL_MILLISECONDS_IN_DAY).

Lemma date_computed_time c' jd y m d yw f' :
  date_computed c' jd y m d yw -> (forall f, is_time_field f = false -> f' f = c'.(fFields) f) ->
  date_computed (with_fields c' f') jd y m d yw.
Proof. intros [] Hf'. constructor; cbn; rewrite ?Hf' by reflexivity; done. Qed.

(** ** From the fields to the day *)

Lemma getLocalDOW_internal c' jd :
  weeks_ok c' ->
  c'.(fStamp) UCAL_DAY_OF_WEEK = kInternallySet -> c'.(fStamp) UCAL_DOW_LOCAL = kInternallySet ->
  c'.(fFields) UCAL_DAY_OF_WEEK = weekday jd ->
  getLocalDOW c' = Some (local_dow c' jd).
Proof.
  intros [Hf _] H1 H2 Hd. unfold getLocalDOW.
  assert (resolveFields c' kDOWPrecedence = UCAL_DAY_OF_WEEK) as ->.
  { unfold resolveFields, kDOWPrecedence. cbn. rewrite H1. cbn. by rewrite H2. }
  rewrite Z.eqb_refl. unfold internalGet. rewrite Hd.
  assert (1 <= weekday jd <= 7) by (unfold weekday; dlia).
  rewrite isub_ok by ibound. cbn [obind]. rewrite imod_ok by ibound. cbn [obind].
  unfold local_dow, weekday in *. case_match eqn:E; [rewrite iadd_ok by ibound|]; f_equal; dlia.
Qed.

Lemma local_dow_range c' jd : 0 <= local_dow c' jd < 7.
Proof. unfold local_dow. dlia. Qed.

(** The day of a weekday of a week. *)
Lemma week_day_spec {A} c' s w l (k : A) :
  weeks_ok c' -> Z.abs s <= 2147450000 -> -20 <= w <= 1100 -> 0 <= l < 7 ->
  let f := local_dow c' (s + 1) in
  (let! date := 1 -! f +! l in
   let! days := 7 -! f in
   let! date := if days <? c'.(fMinimalDaysInFirstWeek) then date +! 7 else Some date in
   let! date := date +! 7 *! (w -! 1) in
   let! jd := s +! date in Some (jd, k)) = Some (week1 c' s + l + 7 * (w - 1), k).
Proof.
  intros [Hf Hm] Hs Hw Hl f. pose proof (local_dow_range c' (s + 1)). fold f in H.
  unfold week1. fold f. icalc. destruct (Z.ltb_spec (7 - f) (fMinimalDaysInFirstWeek c')); icalc; do 2 f_equal.
  - rewrite (proj2 (Z.leb_gt _ _)) by lia. lia.
  - rewrite (proj2 (Z.leb_le _ _)) by lia. lia.
Qed.

Lemma week_in_inverse c' s jd :
  weeks_ok c' -> week1 c' s + local_dow c' jd + 7 * (week_in c' s jd - 1) = jd.
Proof.
  intros Hc'. pose proof (proj1 (week1_spec c' Hc' s _) eq_refl) as [H0 _].
  unfold week_in, local_dow in *. destruct Hc'. dlia.
Qed.

Definition date_bests : list Z :=
  [UCAL_DAY_OF_MONTH; UCAL_DAY_OF_YEAR; UCAL_WEEK_OF_YEAR; UCAL_WEEK_OF_MONTH; UCAL_DAY_OF_WEEK_IN_MONTH].

Lemma handleComputeJulianDay_inverse c' jd y m d yw best :
  date_computed c' jd y m d yw -> lo < y -> y + 1 < hi -> y - 1 <= yw <= y + 1 -> best ∈ date_bests ->
  handleComputeJulianDay c' best =
    Some (jd, internalSet c' UCAL_EXTENDED_YEAR (if best =? UCAL_WEEK_OF_YEAR then yw else y)).
Proof.
  intros [Hv Hday Hy Hm Hd Hdoy Hjd Hdow Hdowl Hyw Hwy Hwoy Hwom Hdowim _ Hst (Hfd & Hmd & _)] Hlo Hhi Hyw' Hbest.
  pose proof (proj1 Hv) as Hhas. pose proof (date_in_year y m d Hv) as Hdy.
  pose proof (start_0_le y m Hhas) as H0. pose proof (proj2 Hv) as Hd1.
  pose proof (year_length_bounds (lo:=lo) (hi:=hi) y ltac:(lia)) as Hyl.
  pose proof (days_bounds (lo:=lo) (hi:=hi)) as Hb. unfold INT32_MIN, INT32_MAX in Hb.
  pose proof (start_years lo y ltac:(lia)). pose proof (start_years (y + 1) hi ltac:(lia)).
  pose proof (start_years lo yw ltac:(lia)). pose proof (start_years yw hi ltac:(lia)).
  unfold handleComputeJulianDay.
  assert (Hey : handleGetExtendedYear c' = Some y).
  { rewrite (extended_year_ok (lo:=lo) (hi:=hi)) by (by rewrite !Hst by (vm_compute; intuition congruence)).
    unfold internalGet_default. by rewrite Hst, Hy by (vm_compute; intuition congruence). }
  assert (Hywd : internalGet_default c' UCAL_YEAR_WOY y = yw).
  { unfold internalGet_default. by rewrite Hst, Hyw by (vm_compute; intuition congruence). }
  rewrite Hey. cbn [obind]. rewrite Hywd. set (c1 := internalSet c' UCAL_EXTENDED_YEAR _).
  assert (Hs1 : forall f, is_field f -> fStamp c1 f = kInternallySet).
  { intros f Hf. cbn. unfold fset. case_match; [done|by apply Hst]. }
  assert (Hf1 : forall f, f <> UCAL_EXTENDED_YEAR -> fFields c1 f = fFields c' f).
  { intros f Hf. cbn. by apply fset_ne. }
  assert (Hc1 : weeks_ok c1) by (unfold weeks_ok; cbn; rewrite Hfd, Hmd; exact Hc).
  assert (Hw1 : forall s, week1 c1 s = week1 c s /\ week_in c1 s jd = week_in c s jd /\ local_dow c1 jd = local_dow c jd).
  { intros s. unfold week_in, week1, local_dow. cbn. by rewrite Hfd, Hmd. }
  clearbody c1.
  assert (Hset : forall f, is_field f -> isSet c1 f = true).
  { intros f Hf. unfold isSet. rewrite Hs1 by done. by destruct (fAreFieldsVirtuallySet c1). }
  assert (Hget : forall f v, is_field f -> internalGet_default c1 f v = fFields c1 f).
  { intros f v Hf. unfold internalGet_default. by rewrite Hs1. }
  rewrite !Hset, !Hget, !Hs1 by (vm_compute; intuition congruence). unfold internalGet.
  assert (Hld : getLocalDOW c1 = Some (local_dow c1 jd)).
  { apply getLocalDOW_internal; [done|apply Hs1; vm_compute; intuition congruence..|].
    rewrite Hf1 by done. done. }
  assert (Hfirst : forall s, -2147450000 <= s <= 2147450000 -> first_dow c1 s = Some (local_dow c1 (s + 1))).
  { intros s Hs. apply first_dow_spec; [done|]. unfold is_int32, INT32_MIN, INT32_MAX. lia. }
  unfold date_bests in Hbest. rewrite !elem_of_cons in Hbest.
  destruct Hbest as [->|[->|[->|[->|[->|[]%not_elem_of_nil]]]]]; eval_eqb; rewrite !Hf1 by done;
    rewrite ?Hm, ?Hd, ?Hdoy, ?Hwoy, ?Hwom, ?Hdowim.
  - rewrite month_start_ok by (done || lia). cbn [obind]. icalc. by rewrite Hday.
  - rewrite month_start_ok by (apply has_month_0 || lia). cbn [obind]. icalc. do 2 f_equal. lia.
  - rewrite month_start_ok by (apply has_month_0 || lia). cbn [obind].
    rewrite Hfirst by lia. rewrite Hld, andb_false_r. cbn [obind].
    assert (-20 <= week_in c (start yw 0) jd <= 1100).
    { pose proof (week1_near c Hc (start yw 0)). pose proof (week1_near c Hc (start (yw + 1) 0)).
      pose proof (year_length_bounds (lo:=lo) (hi:=hi) yw ltac:(lia)). unfold week_in. dlia. }
    rewrite week_day_spec by (done || apply local_dow_range || lia). do 2 f_equal.
    rewrite <- (proj1 (proj2 (Hw1 _))). by apply week_in_inverse.
  - rewrite month_start_ok by (done || lia). cbn [obind].
    rewrite Hfirst by lia. rewrite Hld. cbn [obind].
    assert (-20 <= week_in c (start y m) jd <= 1100).
    { pose proof (week1_near c Hc (start y m)). unfold week_in. dlia. }
    rewrite week_day_spec by (done || apply local_dow_range || lia). do 2 f_equal.
    rewrite <- (proj1 (proj2 (Hw1 _))). by apply week_in_inverse.
  - rewrite month_start_ok by (done || lia). cbn [obind].
    rewrite Hfirst by lia. rewrite Hld. cbn [obind].
    destruct Hc1 as [Hf1' Hm1]. set (f := local_dow c1 (start y m + 1)). set (l := local_dow c1 jd).
    assert (Hfl : 0 <= f < 7 /\ 0 <= l < 7 /\ (f - l + d - 1) mod 7 = 0).
    { unfold f, l, local_dow. rewrite <- Hday. clear. dlia. }
    clearbody f l. icalc. rewrite Z.geb_leb, (proj2 (Z.leb_le 0 _)) by dlia.
    destruct (Z.ltb_spec (1 - f + l) 1); icalc; do 2 f_equal; dlia.
Qed.

(** C4: For any calendar system that implements its calendar, and any week
    settings: the fields that [computeFields] derives from a day agree with the
    calendar, with the definition of weeks and with the Gregorian calendar, and
    each of the five ways to resolve them (day of the month, day of the year,
    week of the year, week of the month, occurrence of the weekday in the month)
    gives the day back. *)
Theorem date_fields_roundtrip jd :
  start (lo + 1) 0 < jd <= start (hi - 1) 0 ->
  exists c' y m d yw,
    computeDateFields c (jd - kEpochStartAsJulianDay) U_ZERO_ERROR = Some (c', U_ZERO_ERROR) /\
    date_computed c' jd y m d yw /\
    forall best, best ∈ date_bests -> exists c'', handleComputeJulianDay c' best = Some (jd, c'').
Proof.
  intros Hjd. destruct (computeDateFields_spec jd Hjd) as (c' & y & m & d & yw & Hcf & Hdc & Hlo & Hhi & Hyw).
  exists c', y, m, d, yw. split; [done|]. split; [done|]. intros best Hb.
  eexists. by apply (handleComputeJulianDay_inverse c' jd y m d yw).
Qed.

(** ** Fields set by the user *)

Lemma line_stamp_unset stamp line f n :
  f ∈ line -> stamp f = kUnset -> line_stamp stamp line n = None.
Proof.
  intros Hf Hs. revert n. induction line as [|g line IH]; intros n; [by apply not_elem_of_nil in Hf|].
  cbn. apply elem_of_cons in Hf as [->|Hf]; [by rewrite Hs|]. case_match; [done|by apply IH].
Qed.

(** A line is skipped if one of its fields is unset. *)
Lemma resolve_lines_skip stamp first rest lines f best n :
  f ∈ (if first >=? kResolveRemap then rest else first :: rest) -> stamp f = kUnset ->
  resolve_lines stamp ((first :: rest) :: lines) best n = resolve_lines stamp lines best n.
Proof. intros Hf Hs. cbn. by erewrite line_stamp_unset. Qed.

(** A line of fields that are newer is taken. *)
Lemma resolve_lines_take stamp first rest lines best n s :
  first < kResolveRemap -> line_stamp stamp (first :: rest) kUnset = Some s -> n < s ->
  resolve_lines stamp ((first :: rest) :: lines) best n = resolve_lines stamp lines first s.
Proof.
  intros Hf Hs Hn. cbn [resolve_lines]. rewrite Z.geb_leb, (proj2 (Z.leb_gt _ _)), Hs by done.
  by rewrite Z.gtb_ltb, (proj2 (Z.ltb_lt _ _)), Z.eqb_refl by done.
Qed.

(** A line that confirms the choice does not change it. *)
Lemma resolve_lines_remap stamp first rest lines best n s :
  kResolveRemap <= first -> Z.land first (kResolveRemap - 1) = best -> best <> UCAL_DATE ->
  line_stamp stamp rest kUnset = Some s ->
  exists n', resolve_lines stamp ((first :: rest) :: lines) best n = resolve_lines stamp lines best n'.
Proof.
  intros Hf Hb Hd Hs. cbn [resolve_lines]. rewrite Z.geb_leb, (proj2 (Z.leb_le _ _)), Hs by done.
  rewrite Hb, (proj2 (Z.eqb_neq _ _)), Z.eqb_refl by done. cbn [negb orb].
  destruct (s >? n); eauto.
Qed.

Lemma line_stamp_le stamp line n k :
  n <= k -> (forall f, f ∈ line -> stamp f <= k) ->
  match line_stamp stamp line n with Some s => s <= k | None => True end.
Proof.
  revert n. induction line as [|f line IH]; intros n Hn Hl; cbn; [done|].
  destruct (stamp f =? kUnset); [done|]. pose proof (Hl f ltac:(by left)). apply IH; [destruct (stamp f >? n); lia|].
  intros g Hg. apply Hl. by right.
Qed.

(** Lines without newer fields do not change the choice. *)
Lemma resolve_lines_old stamp lines best n :
  kUnset <= n ->
  (forall line f, line ∈ lines -> f ∈ line -> f < kResolveRemap -> stamp f <= n) ->
  (forall line f, line ∈ lines -> f ∈ tail line -> f < kResolveRemap) ->
  resolve_lines stamp lines best n = best.
Proof.
  intros Hn. induction lines as [|[|first rest] lines IH]; intros Hl Ht; [done..|]. cbn [resolve_lines].
  pose proof (line_stamp_le stamp (if first >=? kResolveRemap then rest else first :: rest) kUnset n Hn) as Hle.
  destruct (line_stamp _ _ _) as [s|].
  - rewrite Z.gtb_ltb, (proj2 (Z.ltb_ge n s)).
    + apply IH; intros line f Hline Hf; [apply (Hl line)|apply (Ht line)]; first [done | by right].
    + apply Hle. intros f Hf. apply (Hl (first :: rest)); [by left|case_match; [by right|done]|].
      revert Hf. rewrite Z.geb_leb. destruct (Z.leb_spec kResolveRemap first) as [|Hlt]; intros Hf.
      * apply (Ht (first :: rest)); [by left|done].
      * apply elem_of_cons in Hf as [->|Hf]; [done|]. apply (Ht (first :: rest)); [by left|done].
  - apply IH; intros line f Hline Hf; [apply (Hl line)|apply (Ht line)]; first [done | by right].
Qed.

(** The newest stamp of a line of set fields. *)
Lemma line_stamp_set stamp line n :
  (forall f, f ∈ line -> kUnset < stamp f) ->
  exists s, line_stamp stamp line n = Some s /\ n <= s /\ forall f, f ∈ line -> stamp f <= s.
Proof.
  revert n. induction line as [|g line IH]; intros n Hl; cbn.
  { exists n. split; [done|]. split; [lia|]. by intros f ?%not_elem_of_nil. }
  pose proof (Hl g ltac:(by left)). unfold kUnset in *.
  rewrite (proj2 (Z.eqb_neq (stamp g) 0)) by lia.
  destruct (IH (if stamp g >? n then stamp g else n)) as (s & -> & Hs & Hall).
  { intros f Hf. apply Hl. by right. }
  exists s. split; [done|]. rewrite Z.gtb_ltb in Hs. destruct (Z.ltb_spec n (stamp g)).
  all: split; [lia|]; intros f [->|Hf]%elem_of_cons; [lia|by apply Hall].
Qed.

(** The fields that take part in the choice of the day. *)
Definition day_fields : list Z :=
  [UCAL_ERA; UCAL_YEAR; UCAL_MONTH; UCAL_WEEK_OF_YEAR; UCAL_WEEK_OF_MONTH; UCAL_DATE; UCAL_DAY_OF_YEAR;
   UCAL_DAY_OF_WEEK; UCAL_DAY_OF_WEEK_IN_MONTH; UCAL_YEAR_WOY; UCAL_DOW_LOCAL; UCAL_EXTENDED_YEAR;
   UCAL_JULIAN_DAY].

(** After [clear] the fields of [l] have been set, in some order. *)
Record only_set (l : list Z) : Prop := {
  os_set f : f ∈ l -> kMinimumUserStamp <= c.(fStamp) f;
  os_unset f : f ∈ day_fields -> f ∉ l -> c.(fStamp) f = kUnset;
  os_virtual : c.(fAreFieldsVirtuallySet) = false
}.

Lemma line_set l line n :
  only_set l -> Forall (.∈ l) line -> n < kMinimumUserStamp -> line <> [] ->
  exists s, line_stamp c.(fStamp) line kUnset = Some s /\ n < s.
Proof.
  intros H Hall Hn Hne. rewrite Forall_forall in Hall.
  destruct (line_stamp_set c.(fStamp) line kUnset) as (s & Hs & _ & Hmax).
  { intros f Hf. pose proof (os_set _ H f (Hall f Hf)). unfold kMinimumUserStamp, kUnset in *. lia. }
  exists s. split; [done|]. destruct line as [|f line]; [done|].
  pose proof (Hmax f ltac:(by left)). pose proof (os_set _ H f (Hall f ltac:(by left))). lia.
Qed.

Lemma skip_unset l first rest lines f best n :
  only_set l -> f ∈ (if first >=? kResolveRemap then rest else first :: rest) -> f ∈ day_fields -> f ∉ l ->
  resolve_lines c.(fStamp) ((first :: rest) :: lines) best n = resolve_lines c.(fStamp) lines best n.
Proof. intros H H1 H2 H3. by apply (resolve_lines_skip _ _ _ _ f), (os_unset _ H). Qed.

Ltac skip_line H f := rewrite (skip_unset _ _ _ _ f _ _ H) by by_elem.

Lemma resolve_week_date :
  only_set [UCAL_YEAR_WOY; UCAL_WEEK_OF_YEAR; UCAL_DAY_OF_WEEK] ->
  resolveFields c kDatePrecedence = UCAL_WEEK_OF_YEAR.
Proof.
  intros H. unfold resolveFields, kDatePrecedence. cbn [resolve_groups]. rewrite (Z.eqb_refl UCAL_FIELD_COUNT).
  skip_line H UCAL_DAY_OF_MONTH.
  destruct (line_set _ [UCAL_WEEK_OF_YEAR; UCAL_DAY_OF_WEEK] kUnset H) as (s & Hs & Hlt); [by_elem|done|done|].
  rewrite (resolve_lines_take _ _ _ _ _ _ s) by done.
  skip_line H UCAL_WEEK_OF_MONTH. skip_line H UCAL_DAY_OF_WEEK_IN_MONTH. skip_line H UCAL_DOW_LOCAL.
  skip_line H UCAL_WEEK_OF_MONTH. skip_line H UCAL_DAY_OF_WEEK_IN_MONTH. skip_line H UCAL_DAY_OF_YEAR.
  skip_line H UCAL_YEAR.
  destruct (line_set _ [UCAL_YEAR_WOY] kUnset H) as (s' & Hs' & _); [by_elem|done|done|].
  destruct (resolve_lines_remap c.(fStamp) (Z.lor kResolveRemap UCAL_WEEK_OF_YEAR) [UCAL_YEAR_WOY] []
    UCAL_WEEK_OF_YEAR s s') as (n' & ->); try done.
Qed.

Lemma resolve_weekday_in_month :
  only_set [UCAL_EXTENDED_YEAR; UCAL_MONTH; UCAL_DAY_OF_WEEK_IN_MONTH; UCAL_DAY_OF_WEEK] ->
  resolveFields c kDatePrecedence = UCAL_DAY_OF_WEEK_IN_MONTH.
Proof.
  intros H. unfold resolveFields, kDatePrecedence. cbn [resolve_groups]. rewrite (Z.eqb_refl UCAL_FIELD_COUNT).
  skip_line H UCAL_DAY_OF_MONTH. skip_line H UCAL_WEEK_OF_YEAR. skip_line H UCAL_WEEK_OF_MONTH.
  destruct (line_set _ [UCAL_DAY_OF_WEEK_IN_MONTH; UCAL_DAY_OF_WEEK] kUnset H) as (s & Hs & Hlt); [by_elem|done|done|].
  rewrite (resolve_lines_take _ _ _ _ _ _ s) by done.
  skip_line H UCAL_WEEK_OF_YEAR. skip_line H UCAL_WEEK_OF_MONTH. skip_line H UCAL_DOW_LOCAL.
  skip_line H UCAL_DAY_OF_YEAR. skip_line H UCAL_YEAR. skip_line H UCAL_YEAR_WOY. done.
Qed.

Lemma resolve_dow l :
  only_set l -> UCAL_DAY_OF_WEEK ∈ l -> UCAL_DOW_LOCAL ∉ l ->
  resolveFields c kDOWPrecedence = UCAL_DAY_OF_WEEK.
Proof.
  intros H H1 H2. unfold resolveFields, kDOWPrecedence. cbn [resolve_groups]. rewrite (Z.eqb_refl UCAL_FIELD_COUNT).
  destruct (line_set _ [UCAL_DAY_OF_WEEK] kUnset H) as (s & Hs & Hlt); [by constructor|done|done|].
  rewrite (resolve_lines_take _ _ _ _ _ _ s) by done.
  by rewrite (skip_unset _ _ _ _ UCAL_DOW_LOCAL _ _ H) by (done || by_elem).
Qed.

Lemma resolve_year_woy :
  only_set [UCAL_YEAR_WOY; UCAL_WEEK_OF_YEAR; UCAL_DAY_OF_WEEK] ->
  forall y, resolveFields (internalSet c UCAL_EXTENDED_YEAR y) kYearPrecedence = UCAL_YEAR_WOY.
Proof.
  intros H y. unfold resolveFields, kYearPrecedence. cbn [resolve_groups]. rewrite (Z.eqb_refl UCAL_FIELD_COUNT).
  set (st := fStamp _).
  rewrite (resolve_lines_skip st _ _ _ UCAL_YEAR) by (by_elem || (change (st UCAL_YEAR) with (fStamp c UCAL_YEAR);
    apply (os_unset _ H); by_elem)).
  rewrite (resolve_lines_take st UCAL_EXTENDED_YEAR [] _ _ _ kInternallySet) by done.
  destruct (line_set _ [UCAL_YEAR_WOY; UCAL_WEEK_OF_YEAR] kInternallySet H) as (s & Hs & Hlt); [by_elem|done|done|].
  by rewrite (resolve_lines_take st _ _ _ _ _ s).
Qed.

(** What [computeJulianDay] does when no JULIAN_DAY has been set. *)
Lemma computeJulianDay_resolve l f :
  only_set l -> UCAL_JULIAN_DAY ∉ l -> resolveFields c kDatePrecedence = f -> f <> UCAL_FIELD_COUNT ->
  computeJulianDay c = handleComputeJulianDay c f.
Proof.
  intros H Hj Hf Hne. unfold computeJulianDay. rewrite (os_unset _ H UCAL_JULIAN_DAY) by (done || by_elem).
  cbn [andb]. rewrite Hf. by rewrite (proj2 (Z.eqb_neq _ _) Hne).
Qed.

Lemma weekday_local jd d : 1 <= d <= 7 -> local_dow c jd = (d - c.(fFirstDayOfWeek)) mod 7 -> weekday jd = d.
Proof. unfold local_dow, weekday. intros. dlia. Qed.

Lemma getLocalDOW_set l y dow :
  only_set l -> UCAL_DAY_OF_WEEK ∈ l -> UCAL_DOW_LOCAL ∉ l ->
  c.(fFields) UCAL_DAY_OF_WEEK = dow -> 1 <= dow <= 7 ->
  getLocalDOW (internalSet c UCAL_EXTENDED_YEAR y) = Some ((dow - fFirstDayOfWeek c) mod 7).
Proof.
  intros H H1 H2 Hdow Hr. unfold getLocalDOW. set (c1 := internalSet c _ _).
  change (resolveFields c1 kDOWPrecedence) with (resolveFields c kDOWPrecedence).
  rewrite (resolve_dow _ H), (Z.eqb_refl UCAL_DAY_OF_WEEK) by done.
  change (internalGet c1 UCAL_DAY_OF_WEEK) with (fFields c UCAL_DAY_OF_WEEK).
  change (fFirstDayOfWeek c1) with (fFirstDayOfWeek c). rewrite Hdow. destruct Hc.
  rewrite isub_ok by ibound. cbn [obind]. rewrite imod_ok by ibound. cbn [obind].
  case_match eqn:E; [rewrite iadd_ok by ibound|]; f_equal; dlia.
Qed.

(** C32: After [clear], setting YEAR_WOY, WEEK_OF_YEAR and DAY_OF_WEEK, in any
    order, chooses the day with that weekday in that week of that year, also
    for week numbers outside the year. *)
Theorem set_week_date yw w dow :
  only_set [UCAL_YEAR_WOY; UCAL_WEEK_OF_YEAR; UCAL_DAY_OF_WEEK] ->
  c.(fFields) UCAL_YEAR_WOY = yw -> c.(fFields) UCAL_WEEK_OF_YEAR = w -> c.(fFields) UCAL_DAY_OF_WEEK = dow ->
  lo <= yw <= hi -> -20 <= w <= 1100 -> 1 <= dow <= 7 ->
  exists jd c', computeJulianDay c = Some (jd, c') /\ weekday jd = dow /\ week_in c (start yw 0) jd = w.
Proof.
  intros H Hyw Hw Hdow Hywr Hwr Hdr.
  rewrite (computeJulianDay_resolve _ UCAL_WEEK_OF_YEAR H); [|by_elem|exact (resolve_week_date H)|done].
  unfold handleComputeJulianDay.
  assert (Hu : forall f, f ∈ day_fields -> f ∉ [UCAL_YEAR_WOY; UCAL_WEEK_OF_YEAR; UCAL_DAY_OF_WEEK] ->
    fStamp c f = kUnset) by apply H.
  rewrite (extended_year_ok (lo:=lo) (hi:=hi)) by (rewrite !Hu by by_elem; done). cbn [obind]. eval_eqb.
  assert (Hset : forall f, f ∈ [UCAL_YEAR_WOY; UCAL_WEEK_OF_YEAR; UCAL_DAY_OF_WEEK] -> 2 <= fStamp c f) by apply H.
  replace (internalGet_default c UCAL_YEAR_WOY _) with yw.
  2:{ unfold internalGet_default, kUnset. pose proof (Hset UCAL_YEAR_WOY ltac:(by_elem)).
      by rewrite Z.gtb_ltb, (proj2 (Z.ltb_lt _ _)) by lia. }
  rewrite (month_start_ok (lo:=lo) (hi:=hi)) by (apply has_month_0 || lia). cbn [obind].
  pose proof (days_bounds (lo:=lo) (hi:=hi)) as Hb. unfold INT32_MIN, INT32_MAX in Hb.
  pose proof (start_years lo yw ltac:(lia)). pose proof (start_years yw hi ltac:(lia)).
  set (c1 := internalSet c UCAL_EXTENDED_YEAR yw). assert (Hc1 : weeks_ok c1) by exact Hc.
  rewrite (first_dow_spec c1 Hc1) by (unfold is_int32, INT32_MIN, INT32_MAX; lia). cbn [obind].
  assert (Hld : getLocalDOW c1 = Some ((dow - fFirstDayOfWeek c) mod 7))
    by (apply (getLocalDOW_set _ yw dow H); done || by_elem).
  rewrite Hld. cbn [obind].
  assert (Hyws : isSet c1 UCAL_YEAR_WOY = true).
  { unfold isSet. change (fStamp c1 UCAL_YEAR_WOY) with (fStamp c UCAL_YEAR_WOY). unfold kUnset.
    pose proof (Hset UCAL_YEAR_WOY ltac:(by_elem)). rewrite (proj2 (Z.eqb_neq _ _)) by lia. apply orb_true_r. }
  pose proof (resolve_year_woy H yw) as Hry. fold c1 in Hry. rewrite Hyws, Hry. rewrite (Z.eqb_refl UCAL_YEAR_WOY). cbn [negb orb andb].
  change (internalGet c1 UCAL_WEEK_OF_YEAR) with (fFields c UCAL_WEEK_OF_YEAR). rewrite Hw. cbn [obind].
  rewrite week_day_spec by (done || lia || (apply Z.mod_pos_bound; lia)).
  eexists _, _. split; [done|].
  assert (Hjd : local_dow c (week1 c (start yw 0) + (dow - fFirstDayOfWeek c) mod 7 + 7 * (w - 1)) =
                (dow - fFirstDayOfWeek c) mod 7).
  { pose proof (proj1 (week1_spec c Hc (start yw 0) _) eq_refl) as [Hl _]. unfold local_dow in *. clear - Hl. dlia. }
  split; [by apply weekday_local|]. change (week1 c1) with (week1 c). unfold week_in. clear. dlia.
Qed.

(** After [clear], setting EXTENDED_YEAR, MONTH, DAY_OF_WEEK and
    DAY_OF_WEEK_IN_MONTH, in any order, chooses the [n]-th such weekday from the
    start of the month, or for a negative number from its end. *)
Theorem set_weekday_in_month y m dow n :
  only_set [UCAL_EXTENDED_YEAR; UCAL_MONTH; UCAL_DAY_OF_WEEK_IN_MONTH; UCAL_DAY_OF_WEEK] ->
  c.(fFields) UCAL_EXTENDED_YEAR = y -> c.(fFields) UCAL_MONTH = m ->
  c.(fFields) UCAL_DAY_OF_WEEK = dow -> c.(fFields) UCAL_DAY_OF_WEEK_IN_MONTH = n ->
  lo <= y < hi -> has_month y m = true -> 7 <= length y m -> 1 <= dow <= 7 -> -1000 <= n <= 1000 ->
  exists jd c', computeJulianDay c = Some (jd, c') /\ weekday jd = dow /\
    if n >=? 0 then start y m + 7 * (n - 1) < jd <= start y m + 7 * n
    else start y m + length y m + 7 * n < jd <= start y m + length y m + 7 * (n + 1).
Proof.
  intros H Hy Hm Hdow Hn Hyr Hhas Hlen Hdr Hnr.
  rewrite (computeJulianDay_resolve _ UCAL_DAY_OF_WEEK_IN_MONTH H);
    [|by_elem|exact (resolve_weekday_in_month H)|done].
  unfold handleComputeJulianDay.
  assert (Hset : forall f, f ∈ [UCAL_EXTENDED_YEAR; UCAL_MONTH; UCAL_DAY_OF_WEEK_IN_MONTH; UCAL_DAY_OF_WEEK] ->
    2 <= fStamp c f) by apply H.
  assert (Hget : forall f v, 2 <= fStamp c f -> internalGet_default c f v = fFields c f).
  { intros f v Hf. unfold internalGet_default, kUnset. by rewrite Z.gtb_ltb, (proj2 (Z.ltb_lt _ _)) by lia. }
  rewrite (extended_year_ok (lo:=lo) (hi:=hi)).
  2:{ rewrite (os_unset _ H UCAL_YEAR) by by_elem. pose proof (Hset UCAL_EXTENDED_YEAR ltac:(by_elem)).
      unfold kUnset. lia. }
  cbn [obind]. eval_eqb. rewrite Hget, Hy by (apply Hset; by_elem).
  set (c1 := internalSet c UCAL_EXTENDED_YEAR y). assert (Hc1 : weeks_ok c1) by exact Hc.
  change (internalGet_default c1 UCAL_DAY_OF_WEEK_IN_MONTH 1) with (internalGet_default c UCAL_DAY_OF_WEEK_IN_MONTH 1).
  change (internalGet_default c1 UCAL_MONTH UCAL_JANUARY) with (internalGet_default c UCAL_MONTH UCAL_JANUARY).
  change (isSet c1 UCAL_MONTH) with (isSet c UCAL_MONTH). change (internalGet c1 UCAL_MONTH) with (fFields c UCAL_MONTH).
  rewrite !Hget, Hm, Hn by (apply Hset; by_elem).
  assert (isSet c UCAL_MONTH = true) as ->.
  { unfold isSet, kUnset. pose proof (Hset UCAL_MONTH ltac:(by_elem)).
    rewrite (proj2 (Z.eqb_neq _ _)) by lia. apply orb_true_r. }
  rewrite (month_start_ok (lo:=lo) (hi:=hi)), (month_length_ok (lo:=lo) (hi:=hi)) by (done || lia). cbn [obind].
  pose proof (days_bounds (lo:=lo) (hi:=hi)) as Hb. unfold INT32_MIN, INT32_MAX in Hb.
  pose proof (start_years lo y ltac:(lia)). pose proof (start_years (y + 1) hi ltac:(lia)).
  pose proof (start_0_le y m Hhas). pose proof (start_year y m Hhas).
  pose proof (year_length_bounds (lo:=lo) (hi:=hi) y ltac:(lia)).
  rewrite (first_dow_spec c1 Hc1) by (unfold is_int32, INT32_MIN, INT32_MAX; lia).
  assert (Hld : getLocalDOW c1 = Some ((dow - fFirstDayOfWeek c) mod 7))
    by (apply (getLocalDOW_set _ y dow H); done || by_elem).
  rewrite Hld. cbn [obind].
  set (s := start y m) in *. set (len := length y m) in *.
  change (local_dow c1 (s + 1)) with (local_dow c (s + 1)).
  set (f := local_dow c (s + 1)). set (l := (dow - fFirstDayOfWeek c) mod 7).
  assert (Hfl : 0 <= f < 7 /\ 0 <= l < 7) by (unfold f, l, local_dow; clear; dlia).
  assert (Hwd : forall jd, (jd - s - 1 + f - l) mod 7 = 0 -> weekday jd = dow).
  { intros jd Hjd. apply weekday_local; [done|]. fold l. unfold f, l, local_dow in *. clear - Hjd. dlia. }
  clearbody s len f l. icalc.
  destruct (Z.ltb_spec (1 - f + l) 1) as [Hd|Hd]; icalc; rewrite !Z.geb_leb; destruct (Z.leb_spec 0 n); icalc;
    (eexists _, _; split; [done|]; split; [apply Hwd; clear; dlia|clear - Hfl Hlen Hd; dlia]).
Qed.
End Fields.

(** ** The Coptic calendar as a witness *)

Definition coptic_layout : MonthLayout := CEFacts.layout CopticCalendar.COPTIC_JD_EPOCH_OFFSET.

#[export] Instance coptic_weeks : WeekBounds coptic_layout CEFacts.lo CEFacts.hi.
Proof.
  constructor; cbn [coptic_layout CEFacts.layout start];
    unfold CEFacts.lo, CEFacts.hi, CEFacts.ce_start, CopticCalendar.COPTIC_JD_EPOCH_OFFSET, INT32_MIN, INT32_MAX.
  - intros y Hy. dlia.
  - dlia.
  - lia.
Qed.

(** A calendar with the given fields set, in this order, and the weeks of ISO 8601. *)
Definition calendar_with (l : list (Z * Z)) : Calendar :=
  foldl (fun c '(f, v) => set_stamped c f v)
    (clear (mkCalendar (fun _ => 0) (fun _ => 0) kMinimumUserStamp false false false false (of_int 0)
       true 2 4 0 0 0 0)) l.

Lemma date_fields_roundtrip_witness :
  let c := calendar_with [] in
  weeks_ok c /\ @start coptic_layout (CEFacts.lo + 1) 0 < 2457389 <= @start coptic_layout (CEFacts.hi - 1) 0 /\
  exists c' y m d yw,
    computeDateFields (C := CopticCalendar.system) c (2457389 - kEpochStartAsJulianDay) U_ZERO_ERROR =
      Some (c', U_ZERO_ERROR) /\
    date_computed (L := coptic_layout) c c' 2457389 y m d yw /\
    forall best, best ∈ date_bests ->
      exists c'', handleComputeJulianDay (C := CopticCalendar.system) c' best = Some (2457389, c'').
Proof.
  assert (H1 : weeks_ok (calendar_with [])) by (vm_compute; intuition discriminate).
  assert (H2 : @start coptic_layout (CEFacts.lo + 1) 0 < 2457389 <= @start coptic_layout (CEFacts.hi - 1) 0)
    by (vm_compute; intuition discriminate).
  split; [exact H1|split; [exact H2|]].
  exact (date_fields_roundtrip (I := CopticCalendar.coptic_implements) (B := coptic_weeks) _ H1 _ H2).
Defined.

(** Settles [only_set] for a calendar that [calendar_with] builds. *)
Ltac solve_only_set :=
  constructor;
  [ intros f Hf; rewrite !elem_of_cons, elem_of_nil in Hf; destruct_or! Hf; try done; subst f;
    vm_compute; discriminate
  | intros f Hf Hn; unfold day_fields in Hf; rewrite !elem_of_cons, elem_of_nil in Hf;
    destruct_or! Hf; try done; subst f;
    first [reflexivity | exfalso; apply Hn; by_elem]
  | reflexivity ].

Lemma set_week_date_witness :
  let c := calendar_with [(UCAL_DAY_OF_WEEK, 6); (UCAL_WEEK_OF_YEAR, 17); (UCAL_YEAR_WOY, 1732)] in
  weeks_ok c /\ only_set c [UCAL_YEAR_WOY; UCAL_WEEK_OF_YEAR; UCAL_DAY_OF_WEEK] /\
  exists jd c', computeJulianDay (C := CopticCalendar.system) c = Some (jd, c') /\ weekday jd = 6 /\
    week_in c (@start coptic_layout 1732 0) jd = 17.
Proof.
  set (c := calendar_with _).
  assert (H1 : weeks_ok c) by (vm_compute; intuition discriminate).
  assert (H2 : only_set c [UCAL_YEAR_WOY; UCAL_WEEK_OF_YEAR; UCAL_DAY_OF_WEEK]) by solve_only_set.
  split; [exact H1|split; [exact H2|]].
  refine (set_week_date (I := CopticCalendar.coptic_implements) (B := coptic_weeks) c H1 1732 17 6 H2 _ _ _ _ _ _);
    first [reflexivity | vm_compute; intuition discriminate].
Defined.

Lemma set_weekday_in_month_witness :
  let c := calendar_with [(UCAL_EXTENDED_YEAR, 1732); (UCAL_MONTH, 4); (UCAL_DAY_OF_WEEK, 6);
                          (UCAL_DAY_OF_WEEK_IN_MONTH, -1)] in
  weeks_ok c /\ only_set c [UCAL_EXTENDED_YEAR; UCAL_MONTH; UCAL_DAY_OF_WEEK_IN_MONTH; UCAL_DAY_OF_WEEK] /\
  exists jd c', computeJulianDay (C := CopticCalendar.system) c = Some (jd, c') /\ weekday jd = 6 /\
    if -1 >=? 0 then @start coptic_layout 1732 4 + 7 * (-1 - 1) < jd <= @start coptic_layout 1732 4 + 7 * -1
    else @start coptic_layout 1732 4 + @length coptic_layout 1732 4 + 7 * -1 < jd
      <= @start coptic_layout 1732 4 + @length coptic_layout 1732 4 + 7 * (-1 + 1).
Proof.
  set (c := calendar_with _).
  assert (H1 : weeks_ok c) by (vm_compute; intuition discriminate).
  assert (H2 : only_set c [UCAL_EXTENDED_YEAR; UCAL_MONTH; UCAL_DAY_OF_WEEK_IN_MONTH; UCAL_DAY_OF_WEEK])
    by solve_only_set.
  split; [exact H1|split; [exact H2|]].
  refine (set_weekday_in_month (I := CopticCalendar.coptic_implements) (B := coptic_weeks) c H1 1732 4 6 (-1)
    H2 _ _ _ _ _ _ _ _ _); first [reflexivity | vm_compute; intuition discriminate].
Defined.
