(* ===== verification/CalendarTime.v ===== *)
(** * Times and fields (i18n/calendar.cpp)

    The operations of [Calendar] that a user calls: [setTimeInMillis], [set],
    [clear], [get] and [getTimeInMillis], and the two conversions between the
    time and the fields that they trigger.  A calendar is lazy: [setTimeInMillis]
    only notes that the fields can be computed ([fAreFieldsVirtuallySet]), [set]
    only stamps its field, and the conversions run when a value is asked for.

    The time zone is a parameter, an instance of [TimeZone], as the calendar
    system is one of [CalendarSystem].  A time is a [double], a number of
    milliseconds since 1970. *)
From S2P Require Import Prelude Int32 Double Grego Calendar CalendarSystem CECalendar CopticCalendar CalendarFields CalendarDays.
Local Open Scope Z_scope.

(** ** Time zones *)

(** What the zones with known transitions add: [getOffsetFromLocal] with its
    options for skipped and repeated times, and the time of the transition at
    or before a time. *)
Record BasicTimeZone := {
  getOffsetFromLocal : double -> Z -> Z -> UErrorCode -> option (Z * Z * UErrorCode);
  getPreviousTransition : double -> bool -> option (option double)
}.

(** The virtual functions of [TimeZone] that a calendar calls: the offset from
    GMT and the daylight offset of a time, which is in GMT or local; and the
    zone as a [BasicTimeZone], if it is one. *)
Class TimeZone := {
  getOffset : double -> bool -> UErrorCode -> option (Z * Z * UErrorCode);
  getBasicTimeZone : option BasicTimeZone
}.

Inductive UCalendarWallTimeOption :=
  | UCAL_WALLTIME_LAST
  | UCAL_WALLTIME_FIRST
  | UCAL_WALLTIME_NEXT_VALID.

#[export] Instance UCalendarWallTimeOption_eq_dec : EqDecision UCalendarWallTimeOption.
Proof. solve_decision. Defined.

(** [BasicTimeZone::kFormer] and [BasicTimeZone::kLatter] *)
Definition kFormer : Z := 4.
Definition kLatter : Z := 12.

Definition kOneDay : double := of_int Grego.U_MILLIS_PER_DAY.
Definition MIN_JULIAN : Z := -0x7F000000.
Definition MAX_JULIAN : Z := 0x7F000000.
Definition MIN_MILLIS : double := dmul (of_int (MIN_JULIAN - kEpochStartAsJulianDay)) kOneDay.
Definition MAX_MILLIS : double := dmul (of_int (MAX_JULIAN - kEpochStartAsJulianDay)) kOneDay.

(** [setTimeInMillis(millis, status)] *)
Definition setTimeInMillis (c : Calendar) (millis : double) (status : UErrorCode) : Calendar * UErrorCode :=
  if U_FAILURE status then (c, status)
  else
    let out_of_range := dlt MAX_MILLIS millis || dlt millis MIN_MILLIS in
    if out_of_range && negb c.(fLenient) then (c, U_ILLEGAL_ARGUMENT_ERROR)
    else
      let millis := if dlt MAX_MILLIS millis then MAX_MILLIS
                    else if dlt millis MIN_MILLIS then MIN_MILLIS else millis in
      let c := with_flags (with_time c millis) true false false true in
      (with_stamps (with_fields c (fun i => if bool_decide (i ∈ fields) then 0 else c.(fFields) i))
         (fun i => if bool_decide (i ∈ fields) then kUnset else c.(fStamp) i) c.(fNextStamp), status).

Section Operations.
Context {C : CalendarSystem} {Z0 : TimeZone}.
(** The options of the calendar for local times that a transition of the zone
    repeats or skips. *)
Context (fRepeatedWallTime fSkippedWallTime : UCalendarWallTimeOption).

(** ** From the time to the fields *)

(** [int32_t] fields of the time in the day *)
Definition set_time_fields (c : Calendar) (millisInDay rawOffset dstOffset : Z) : option Calendar :=
  let c := set_field c UCAL_MILLISECONDS_IN_DAY millisInDay in
  let! ms := millisInDay %! 1000 in
  let c := set_field c UCAL_MILLISECOND ms in
  let! seconds := millisInDay /! 1000 in
  let! s := seconds %! 60 in
  let c := set_field c UCAL_SECOND s in
  let! minutes := seconds /! 60 in
  let! m := minutes %! 60 in
  let c := set_field c UCAL_MINUTE m in
  let! hours := minutes /! 60 in
  let c := set_field c UCAL_HOUR_OF_DAY hours in
  let! ampm := hours /! 12 in
  let c := set_field c UCAL_AM_PM ampm in
  let! h := hours %! 12 in
  let c := set_field c UCAL_HOUR h in
  let c := set_field c UCAL_ZONE_OFFSET rawOffset in
  Some (set_field c UCAL_DST_OFFSET dstOffset).

Definition computeFields (c : Calendar) (ec : UErrorCode) : option (Calendar * UErrorCode) :=
  if U_FAILURE ec then Some (c, ec)
  else
    let localMillis := c.(fTime) in
    let! '(rawOffset, dstOffset, ec) := getOffset localMillis false ec in
    let! offset := rawOffset +! dstOffset in
    let localMillis := dadd localMillis (of_int offset) in
    let! days := to_int32 (ClockMath.floorDivide_double localMillis kOneDay) in
    let! '(c, ec) := computeDateFields c days ec in
    let! millisInDay := to_int32 (dsub localMillis (dmul (of_int days) kOneDay)) in
    let! c := set_time_fields c millisInDay rawOffset dstOffset in
    Some (c, ec).

(** ** From the fields to the time *)

Definition getImmediatePreviousZoneTransition (base : double) (status : UErrorCode) :
    option (option double * UErrorCode) :=
  match getBasicTimeZone with
  | Some btz =>
      let! trans := btz.(getPreviousTransition) base true in
      match trans with
      | Some t => Some (Some t, status)
      | None => Some (None, U_INTERNAL_PROGRAM_ERROR)
      end
  | None => Some (None, U_UNSUPPORTED_ERROR)
  end.

(** Assertions, which are compiled in only where [U_DEBUG] is set; by default it is not. *)
Definition U_DEBUG : bool := false.
Definition U_ASSERT (exp : bool) : option unit := if U_DEBUG && negb exp then None else Some tt.

(** The assertion states the opposite of what the comment above it says, so in a
    debug build [UCAL_WALLTIME_FIRST] aborts for a zone that is no
    [BasicTimeZone], unless its offset fell by more than six hours. *)
Definition computeZoneOffset (millis : double) (millisInDay : Z) (ec : UErrorCode) :
    option (Z * UErrorCode) :=
  let wall := dadd millis (of_int millisInDay) in
  match getBasicTimeZone with
  | Some btz =>
      let duplicatedTimeOpt :=
        if bool_decide (fRepeatedWallTime = UCAL_WALLTIME_FIRST) then kFormer else kLatter in
      let nonExistingTimeOpt :=
        if bool_decide (fSkippedWallTime = UCAL_WALLTIME_FIRST) then kLatter else kFormer in
      let! '(raw, dst, ec) := btz.(getOffsetFromLocal) wall nonExistingTimeOpt duplicatedTimeOpt ec in
      let! offset := raw +! dst in Some (offset, ec)
  | None =>
      let! '(rawOffset, dstOffset, ec) := getOffset wall true ec in
      let! '(rawOffset, dstOffset, sawRecentNegativeShift, ec) :=
        (if bool_decide (fRepeatedWallTime = UCAL_WALLTIME_FIRST) then
           let! offset := rawOffset +! dstOffset in
           let tgmt := dsub wall (of_int offset) in
           let! '(tmpRaw, tmpDst, ec) := getOffset (dsub tgmt (of_int (6 * 60 * 60 * 1000))) false ec in
           let! offsetDelta := (rawOffset +! dstOffset) -! (tmpRaw +! tmpDst) in
           let! _ := U_ASSERT (offsetDelta <? -6 * 60 * 60 * 1000) in
           if offsetDelta <? 0 then
             let! '(rawOffset, dstOffset, ec) := getOffset (dadd wall (of_int offsetDelta)) true ec in
             Some (rawOffset, dstOffset, true, ec)
           else Some (rawOffset, dstOffset, false, ec)
         else Some (rawOffset, dstOffset, false, ec)) in
      let! '(rawOffset, dstOffset, ec) :=
        (if negb sawRecentNegativeShift && bool_decide (fSkippedWallTime = UCAL_WALLTIME_FIRST) then
           let! offset := rawOffset +! dstOffset in
           getOffset (dsub wall (of_int offset)) false ec
         else Some (rawOffset, dstOffset, ec)) in
      let! offset := rawOffset +! dstOffset in Some (offset, ec)
  end.

(** The GMT time of a local time, from the offset of the zone.  A strict
    calendar rejects skipped times, the option [UCAL_WALLTIME_NEXT_VALID] moves
    them to the transition. *)
Definition zone_time (c : Calendar) (millis : double) (millisInDay : Z) (status : UErrorCode) :
    option (double * UErrorCode) :=
  let! '(zoneOffset, status) := computeZoneOffset millis millisInDay status in
  let tmpTime := dsub (dadd millis (of_int millisInDay)) (of_int zoneOffset) in
  if negb c.(fLenient) || bool_decide (fSkippedWallTime = UCAL_WALLTIME_NEXT_VALID) then
    let! '(raw, dst, status) := getOffset tmpTime false status in
    if U_SUCCESS status then
      let! offset := raw +! dst in
      if negb (zoneOffset =? offset) then
        if negb c.(fLenient) then Some (of_int 0, U_ILLEGAL_ARGUMENT_ERROR)
        else
          let! '(transition, status) := getImmediatePreviousZoneTransition tmpTime status in
          Some (match transition with
                | Some t => if U_SUCCESS status then t else of_int 0
                | None => of_int 0
                end, status)
      else Some (tmpTime, status)
    else Some (of_int 0, status)
  else Some (tmpTime, status).

Definition computeTime (c : Calendar) (status : UErrorCode) : option (Calendar * UErrorCode) :=
  let! status := if negb c.(fLenient) then validateFields c status else Some status in
  if negb c.(fLenient) && U_FAILURE status then Some (c, status)
  else
    let! '(julianDay, c) := computeJulianDay c in
    let! millis := Grego.julianDayToMillis julianDay in
    let! millisInDay :=
      (if (c.(fStamp) UCAL_MILLISECONDS_IN_DAY >=? kMinimumUserStamp) &&
          (newestStamp c UCAL_AM_PM UCAL_MILLISECOND kUnset <=? c.(fStamp) UCAL_MILLISECONDS_IN_DAY)
       then Some (internalGet c UCAL_MILLISECONDS_IN_DAY)
       else computeMillisInDay c) in
    let! '(t, status) :=
      (if (c.(fStamp) UCAL_ZONE_OFFSET >=? kMinimumUserStamp) ||
          (c.(fStamp) UCAL_DST_OFFSET >=? kMinimumUserStamp) then
         let! offset := internalGet c UCAL_ZONE_OFFSET +! internalGet c UCAL_DST_OFFSET in
         Some (dsub (dadd millis (of_int millisInDay)) (of_int offset), status)
       else zone_time c millis millisInDay status) in
    Some (if U_SUCCESS status then with_time c t else c, status).

Definition updateTime (c : Calendar) (status : UErrorCode) : option (Calendar * UErrorCode) :=
  let! '(c, status) := computeTime c status in
  if U_FAILURE status then Some (c, status)
  else
    Some (with_flags c true
            (if c.(fLenient) || negb c.(fAreAllFieldsSet) then false else c.(fAreFieldsSet))
            c.(fAreAllFieldsSet) false, status).

(** ** The operations of the user *)

Definition complete (c : Calendar) (status : UErrorCode) : option (Calendar * UErrorCode) :=
  let! '(c, status) := if negb c.(fIsTimeSet) then updateTime c status else Some (c, status) in
  if negb c.(fIsTimeSet) && U_FAILURE status then Some (c, status)
  else if negb c.(fAreFieldsSet) then
    let! '(c, status) := computeFields c status in
    if U_FAILURE status then Some (c, status)
    else Some (with_flags c c.(fIsTimeSet) true true c.(fAreFieldsVirtuallySet), status)
  else Some (c, status).

(** [get(field, status)]: the value and the calendar, whose fields it completes *)
Definition get (c : Calendar) (field : Z) (status : UErrorCode) : option (Z * Calendar * UErrorCode) :=
  let! '(c, status) := if U_SUCCESS status then complete c status else Some (c, status) in
  Some (if U_SUCCESS status then c.(fFields) field else 0, c, status).

Definition getTimeInMillis (c : Calendar) (status : UErrorCode) : option (double * Calendar * UErrorCode) :=
  if U_FAILURE status then Some (of_int 0, c, status)
  else
    let! '(c, status) := if negb c.(fIsTimeSet) then updateTime c status else Some (c, status) in
    if U_FAILURE status then Some (of_int 0, c, status) else Some (c.(fTime), c, status).

Definition set (c : Calendar) (field value : Z) : option Calendar :=
  let! '(c, _) := if c.(fAreFieldsVirtuallySet) then computeFields c U_ZERO_ERROR
                  else Some (c, U_ZERO_ERROR) in
  Some (set_stamped c field value).

(** [clear(field)] *)
Definition clear_field (c : Calendar) (field : Z) : option Calendar :=
  let! '(c, _) := if c.(fAreFieldsVirtuallySet) then computeFields c U_ZERO_ERROR
                  else Some (c, U_ZERO_ERROR) in
  Some (clear_stamped c field).

(** [set(year, month, date)] *)
Definition set_date (c : Calendar) (year month date : Z) : option Calendar :=
  let! c := set c UCAL_YEAR year in
  let! c := set c UCAL_MONTH month in
  set c UCAL_DATE date.
End Operations.

(** ** What the conversions promise *)

Section Facts.
Context {C : CalendarSystem} {L : MonthLayout} {lo hi : Z}.
Context {I : Implements C L lo hi} {B : WeekBounds L lo hi}.
Context {Z0 : TimeZone} (repeated skipped : UCalendarWallTimeOption).

(** At the time [t] the zone has the offset [raw + dst], and finds it again
    from the local time: [t] is neither repeated nor skipped. *)
Record regular_time (t raw dst : Z) : Prop := {
  rt_gmt : getOffset (of_int t) false U_ZERO_ERROR = Some (raw, dst, U_ZERO_ERROR);
  rt_bound : is_int32 (raw + dst);
  rt_basic btz a b : getBasicTimeZone = Some btz ->
    exists raw' dst', btz.(getOffsetFromLocal) (of_int (t + (raw + dst))) a b U_ZERO_ERROR =
      Some (raw', dst', U_ZERO_ERROR) /\ raw' + dst' = raw + dst;
  rt_local : getBasicTimeZone = None ->
    exists raw' dst', getOffset (of_int (t + (raw + dst))) true U_ZERO_ERROR = Some (raw', dst', U_ZERO_ERROR) /\
      raw' + dst' = raw + dst;
  rt_before : getBasicTimeZone = None ->
    exists raw' dst', getOffset (of_int (t - 6 * 60 * 60 * 1000)) false U_ZERO_ERROR =
      Some (raw', dst', U_ZERO_ERROR) /\ is_int32 (raw' + dst') /\
      0 <= (raw + dst) - (raw' + dst') <= INT32_MAX
}.

(** The fields of the time of the day [mid] milliseconds after midnight. *)
Record time_fields (c' : Calendar) (mid raw dst : Z) : Prop := {
  tf_millis : c'.(fFields) UCAL_MILLISECONDS_IN_DAY = mid;
  tf_hour_of_day : c'.(fFields) UCAL_HOUR_OF_DAY = mid / 3600000;
  tf_am_pm : c'.(fFields) UCAL_AM_PM = mid / 43200000;
  tf_hour : c'.(fFields) UCAL_HOUR = mid / 3600000 mod 12;
  tf_minute : c'.(fFields) UCAL_MINUTE = mid / 60000 mod 60;
  tf_second : c'.(fFields) UCAL_SECOND = mid / 1000 mod 60;
  tf_millisecond : c'.(fFields) UCAL_MILLISECOND = mid mod 1000;
  tf_zone : c'.(fFields) UCAL_ZONE_OFFSET = raw;
  tf_dst : c'.(fFields) UCAL_DST_OFFSET = dst
}.

Lemma set_time_fields_spec c mid raw dst :
  0 <= mid < 86400000 ->
  exists f', set_time_fields c mid raw dst = Some (with_fields c f') /\
    time_fields (with_fields c f') mid raw dst /\
    forall f, is_time_field f = false -> f' f = c.(fFields) f.
Proof.
  intros Hmid. unfold set_time_fields. icalc.
  assert (mid / 1000 / 60 = mid / 60000) as E1 by dlia. rewrite !E1.
  assert (mid / 60000 / 60 = mid / 3600000) as E2 by dlia. rewrite !E2.
  assert (mid / 3600000 / 12 = mid / 43200000) as E3 by dlia. icalc.
  eexists. split; [unfold set_field; cbn [with_fields fFields]; done|].
  split; [constructor; try done; cbn; lia|].
  intros f Hf. rewrite !fset_ne; try done; intros ->; vm_compute in Hf; discriminate.
Qed.

(** The fields that an addition of months sets. *)
Definition set_by_month (f : Z) : bool :=
  (f =? UCAL_MONTH) || (f =? UCAL_DATE) || (f =? UCAL_MILLISECONDS_IN_DAY).

(** When the library has set all fields but these, the date decides. *)
Lemma resolve_internal c' :
  (forall f, is_field f -> set_by_month f = false -> c'.(fStamp) f = kInternallySet) ->
  kInternallySet <= c'.(fStamp) UCAL_DATE ->
  resolveFields c' kDatePrecedence = UCAL_DAY_OF_MONTH.
Proof.
  intros Hst Hdate. unfold resolveFields, kDatePrecedence. cbn [resolve_groups].
  rewrite (Z.eqb_refl UCAL_FIELD_COUNT), (resolve_lines_take _ _ _ _ _ _ (c'.(fStamp) UCAL_DATE));
    [|done| |unfold kInternallySet, kUnset in *; lia].
  2:{ unfold kInternallySet in Hdate. change UCAL_DAY_OF_MONTH with UCAL_DATE. cbn [line_stamp]. rewrite (proj2 (Z.eqb_neq _ kUnset)) by (unfold kUnset; lia).
      by rewrite Z.gtb_ltb, (proj2 (Z.ltb_lt _ _)) by (unfold kUnset; lia). }
  match goal with |- context [resolve_lines _ ?ls _ _] => set (lines := ls) end.
  assert (Hall : forallb (fun line => forallb (fun f => (f <? UCAL_FIELD_COUNT) || (f >=? kResolveRemap)) line &&
    forallb (fun f => f <? kResolveRemap) (tail line) && forallb (fun f => (0 <=? f) && ((f =? UCAL_DATE) || negb (set_by_month f))) line) lines = true) by reflexivity.
  rewrite forallb_forall in Hall. setoid_rewrite <- list_elem_of_In in Hall.
  rewrite resolve_lines_old; [done|unfold kInternallySet, kUnset in *; lia|..]; intros line f Hline Hf; specialize (Hall line Hline);
    rewrite !andb_true_iff, !forallb_forall in Hall; setoid_rewrite <- list_elem_of_In in Hall;
    destruct Hall as [[Ha Hb] Hp].
  - intros Hlt. specialize (Ha f Hf). specialize (Hp f Hf).
    rewrite orb_true_iff, Z.ltb_lt, Z.geb_le in Ha.
    rewrite andb_true_iff, orb_true_iff, Z.leb_le, Z.eqb_eq, negb_true_iff in Hp. destruct Hp as [Hp1 [->|Hp2]]; [done|].
    rewrite Hst; [done|unfold is_field; lia|done].
  - apply Z.ltb_lt, Hb, Hf.
Qed.

(** The day of a month and a date, in the year of the other fields. *)
Lemma computeJulianDay_month c2 s :
  (forall f, is_field f -> set_by_month f = false -> c2.(fStamp) f = kInternallySet) ->
  kInternallySet <= c2.(fStamp) UCAL_MONTH -> kInternallySet <= c2.(fStamp) UCAL_DATE ->
  handleComputeMonthStart (c2.(fFields) UCAL_EXTENDED_YEAR) (c2.(fFields) UCAL_MONTH) = Some s ->
  is_int32 (s + c2.(fFields) UCAL_DATE) ->
  computeJulianDay c2 =
    Some (s + c2.(fFields) UCAL_DATE, internalSet c2 UCAL_EXTENDED_YEAR (c2.(fFields) UCAL_EXTENDED_YEAR)).
Proof.
  intros Hst Hm Hd Hs Hint. unfold computeJulianDay.
  rewrite (Hst UCAL_JULIAN_DAY) by (done || (vm_compute; intuition congruence)).
  cbn [kInternallySet kMinimumUserStamp Z.geb Z.compare Pos.compare Pos.compare_cont andb].
  rewrite (resolve_internal c2 Hst Hd). change (UCAL_DAY_OF_MONTH =? UCAL_FIELD_COUNT) with false. cbv iota.
  unfold handleComputeJulianDay.
  rewrite (extended_year_ok (lo:=lo) (hi:=hi)) by (by rewrite !Hst by (done || (vm_compute; intuition congruence))).
  cbn [obind]. eval_eqb.
  assert (Hget : forall i v, kInternallySet <= fStamp c2 i -> internalGet_default c2 i v = fFields c2 i).
  { intros i v Hi. unfold internalGet_default, kInternallySet, kUnset in *. by rewrite Z.gtb_ltb, (proj2 (Z.ltb_lt _ _)) by lia. }
  rewrite Hget by (rewrite Hst by (done || (vm_compute; intuition congruence)); done).
  set (c3 := internalSet c2 UCAL_EXTENDED_YEAR _).
  assert (Hset : forall i, kInternallySet <= fStamp c2 i -> isSet c3 i = true).
  { intros i Hi. unfold isSet, c3, internalSet. cbn [with_stamps fStamp fAreFieldsVirtuallySet]. unfold fset.
    case_match; [apply orb_true_r|]. unfold kUnset, kInternallySet in *. rewrite (proj2 (Z.eqb_neq _ _)) by lia. apply orb_true_r. }
  rewrite !Hset by done.
  change (internalGet c3 UCAL_MONTH) with (fFields c2 UCAL_MONTH).
  change (internalGet_default c3 UCAL_DAY_OF_MONTH 1) with (internalGet_default c2 UCAL_DATE 1).
  rewrite Hget, Hs by done. cbn [obind]. unfold int. by rewrite iadd_ok.
Qed.

Context (c : Calendar) (Hc : weeks_ok c).
Context (t raw dst : Z) (Ht : Z.abs t < 2 ^ 51) (Hz : regular_time t raw dst).

(** The local day of the time, as a Julian day, and the millisecond in it. *)
Definition local_day : Z := (t + (raw + dst)) / 86400000 + kEpochStartAsJulianDay.
Definition local_millis : Z := (t + (raw + dst)) mod 86400000.

Context (Hday : start (lo + 1) 0 < local_day <= start (hi - 1) 0).

Lemma local_day_bounds : -2147483648 + 2500000 <= local_day <= 2147483647 - 40000.
Proof.
  pose proof (days_bounds (lo:=lo) (hi:=hi)) as Hb. unfold INT32_MIN, INT32_MAX in Hb.
  assert (lo + 1 < hi - 1) by (apply Z.lt_nge; intros Hle; apply start_years in Hle; lia).
  pose proof (start_years lo (lo + 1) ltac:(lia)). pose proof (start_years (hi - 1) hi ltac:(lia)). lia.
Qed.

Lemma computeFields_spec :
  c.(fTime) = of_int t ->
  exists c' y m d yw,
    computeFields c U_ZERO_ERROR = Some (c', U_ZERO_ERROR) /\
    date_computed c c' local_day y m d yw /\ time_fields c' local_millis raw dst /\
    lo < y /\ y + 1 < hi /\ y - 1 <= yw <= y + 1.
Proof.
  intros Htime. pose proof local_day_bounds as Hld. unfold local_day, local_millis, kEpochStartAsJulianDay in *.
  destruct Hz as [Hg Hb _ _ _]. unfold is_int32, INT32_MIN, INT32_MAX in Hb.
  unfold computeFields. cbn [U_FAILURE UErrorCode_value Z.ltb Z.compare]. rewrite Htime, Hg. cbn [obind].
  unfold int. replace (iadd _ _) with (Some (raw + dst)) by (symmetry; apply iadd_ok; unfold is_int32, INT32_MIN, INT32_MAX; lia).
  cbn [obind]. rewrite dadd_int by lia. set (x := t + (raw + dst)) in *.
  assert (Hx : Z.abs x < 2 ^ 52) by (unfold x; lia). clearbody x.
  unfold ClockMath.floorDivide_double, kOneDay, Grego.U_MILLIS_PER_DAY.
  pose proof (ClockMath.mul_div_abs x 86400000 ltac:(lia)).
  assert (Z.abs (x / 86400000) < 2 ^ 31) by dlia.
  rewrite uprv_floor_ddiv, to_int32_int by (dlia || ibound). cbn [obind].
  destruct (computeDateFields_spec (C := C) c Hc (x / 86400000 + 2440588) Hday)
    as (c' & y & m & d & yw & Hcf & Hdc & Hr).
  unfold kEpochStartAsJulianDay in Hcf. rewrite Z.add_simpl_r in Hcf. rewrite Hcf. cbn [obind].
  rewrite dmul_int, dsub_int by dlia.
  replace (x - x / 86400000 * 86400000) with (x mod 86400000) by dlia.
  pose proof (Z.mod_pos_bound x 86400000 ltac:(lia)) as Hmod.
  rewrite to_int32_int by ibound. cbn [obind].
  destruct (set_time_fields_spec c' (x mod 86400000) raw dst Hmod) as (f' & Hs & Htf & Hf).
  rewrite Hs. cbn [obind]. exists (with_fields c' f'), y, m, d, yw.
  split; [done|]. split; [by apply date_computed_time|]. done.
Qed.

Lemma is_time_field_field f : is_time_field f = true -> is_field f.
Proof.
  unfold is_time_field, is_field, UCAL_FIELD_COUNT, UCAL_AM_PM, UCAL_DST_OFFSET, UCAL_MILLISECONDS_IN_DAY.
  rewrite orb_true_iff, andb_true_iff, !Z.leb_le, Z.eqb_eq. lia.
Qed.

(** The time of the day from fields that the library has set. *)
Lemma computeMillisInDay_spec c' mid :
  (forall f, is_time_field f = true -> c'.(fStamp) f = kInternallySet) -> 0 <= mid < 86400000 ->
  time_fields c' mid raw dst -> computeMillisInDay c' = Some mid.
Proof.
  intros Hst Hmid [_ Hh _ _ Hm Hs Hms _ _]. unfold computeMillisInDay.
  rewrite !Hst by reflexivity. cbn [Z.gtb Z.compare Pos.compare Pos.compare_cont Z.eqb
    kInternallySet kUnset Pos.eqb negb]. unfold internalGet. rewrite Hh, Hm, Hs, Hms.
  assert (0 <= mid / 3600000 < 24) by dlia. assert (0 <= mid / 60000 mod 60 < 60) by dlia.
  assert (0 <= mid / 1000 mod 60 < 60) by dlia. assert (0 <= mid mod 1000 < 1000) by dlia.
  icalc. f_equal. dlia.
Qed.

Lemma computeZoneOffset_spec millis mid :
  millis + mid = t + (raw + dst) ->
  Z.abs millis < 2 ^ 52 -> 0 <= mid < 86400000 ->
  computeZoneOffset repeated skipped (of_int millis) mid U_ZERO_ERROR = Some (raw + dst, U_ZERO_ERROR).
Proof.
  intros Hsum Hm Hmid. destruct Hz as [Hg Hb Hbasic Hlocal Hbefore].
  unfold is_int32, INT32_MIN, INT32_MAX in Hb. unfold computeZoneOffset.
  rewrite dadd_int, Hsum by lia. destruct getBasicTimeZone as [btz|] eqn:E.
  - destruct (Hbasic btz (if bool_decide (skipped = UCAL_WALLTIME_FIRST) then kLatter else kFormer)
      (if bool_decide (repeated = UCAL_WALLTIME_FIRST) then kFormer else kLatter) eq_refl) as (r & d & Hr & Hrd).
    rewrite Hr. cbn [obind]. unfold int. rewrite iadd_ok by (rewrite Hrd; ibound). cbn [obind]. by rewrite Hrd.
  - destruct (Hlocal eq_refl) as (r & d & Hr & Hrd). rewrite Hr. cbn [obind].
    destruct (Hbefore eq_refl) as (r6 & d6 & Hr6 & Hb6 & Hge). unfold is_int32, INT32_MIN, INT32_MAX in Hb6, Hge.
    unfold int. rewrite (iadd_ok r d) by (rewrite Hrd; ibound). cbn [obind].
    rewrite Hrd, dsub_int by lia. replace (t + (raw + dst) - (raw + dst)) with t by lia.
    rewrite dsub_int, Hr6 by lia. cbn [obind]. rewrite (iadd_ok r6 d6), isub_ok by ibound. cbn [obind]. unfold U_ASSERT. cbn [U_DEBUG andb obind].
    rewrite (proj2 (Z.ltb_ge _ _)) by lia.
    destruct (bool_decide (repeated = UCAL_WALLTIME_FIRST)), (bool_decide (skipped = UCAL_WALLTIME_FIRST));
      cbn [obind negb andb]; rewrite iadd_ok by (rewrite Hrd; ibound); cbn [obind];
      rewrite Hrd, ?dsub_int, ?Z.add_simpl_r, ?Hg by lia; cbn [obind];
      rewrite ?iadd_ok by ibound; done.
Qed.

(** The time of a local day and time of the day. *)
Lemma computeTime_local c' c2 :
  (if negb c'.(fLenient) then validateFields c' U_ZERO_ERROR else Some U_ZERO_ERROR) = Some U_ZERO_ERROR ->
  computeJulianDay c' = Some (local_day, c2) ->
  (if (c2.(fStamp) UCAL_MILLISECONDS_IN_DAY >=? kMinimumUserStamp) &&
      (newestStamp c2 UCAL_AM_PM UCAL_MILLISECOND kUnset <=? c2.(fStamp) UCAL_MILLISECONDS_IN_DAY)
   then Some (internalGet c2 UCAL_MILLISECONDS_IN_DAY) else computeMillisInDay c2) = Some local_millis ->
  c2.(fStamp) UCAL_ZONE_OFFSET = kInternallySet -> c2.(fStamp) UCAL_DST_OFFSET = kInternallySet ->
  computeTime repeated skipped c' U_ZERO_ERROR = Some (with_time c2 (of_int t), U_ZERO_ERROR).
Proof.
  intros Hval Hjd Hmid2 Hzone Hdst. pose proof local_day_bounds as Hld.
  pose proof (Z.mod_pos_bound (t + (raw + dst)) 86400000 ltac:(lia)) as Hmid. fold local_millis in Hmid.
  unfold computeTime. rewrite Hval. cbn [obind U_FAILURE UErrorCode_value Z.ltb Z.compare]. rewrite andb_false_r.
  rewrite Hjd. cbn [obind].
  unfold Grego.julianDayToMillis. unfold local_day, Grego.kEpochStartAsJulianDay, kEpochStartAsJulianDay in *.
  unfold int. rewrite isub_ok by ibound. cbn [obind]. rewrite Z.add_simpl_r, Hmid2. cbn [obind].
  rewrite Hzone, Hdst. cbn [kInternallySet kMinimumUserStamp Z.geb Z.compare Pos.compare Pos.compare_cont andb orb].
  pose proof (ClockMath.mul_div_abs (t + (raw + dst)) 86400000 ltac:(lia)).
  pose proof (rt_bound _ _ _ Hz) as Hb. unfold is_int32, INT32_MIN, INT32_MAX in Hb.
  unfold Grego.U_MILLIS_PER_DAY. rewrite dmul_int by lia.
  set (millis := (t + (raw + dst)) / 86400000 * 86400000) in *.
  assert (Hsum : millis + local_millis = t + (raw + dst)) by (unfold millis, local_millis; dlia).
  unfold zone_time. rewrite computeZoneOffset_spec by (done || lia). cbn [obind].
  rewrite dadd_int, Hsum, dsub_int, Z.add_simpl_r by lia.
  rewrite (rt_gmt _ _ _ Hz). cbn [obind U_SUCCESS UErrorCode_value Z.leb Z.compare].
  rewrite iadd_ok by ibound. cbn [obind]. rewrite Z.eqb_refl. cbn [negb].
  by destruct (negb (fLenient c2) || _).
Qed.

Lemma computeTime_spec c' y m d yw :
  date_computed c c' local_day y m d yw -> time_fields c' local_millis raw dst ->
  lo < y -> y + 1 < hi -> y - 1 <= yw <= y + 1 ->
  exists c'', computeTime repeated skipped c' U_ZERO_ERROR = Some (c'', U_ZERO_ERROR) /\ c''.(fTime) = of_int t.
Proof.
  intros Hdc Htf Hlo Hhi Hyw. pose proof (dc_stamps _ _ _ _ _ _ _ Hdc) as Hst.
  pose proof (Z.mod_pos_bound (t + (raw + dst)) 86400000 ltac:(lia)) as Hmid. fold local_millis in Hmid.
  set (c2 := internalSet c' UCAL_EXTENDED_YEAR y).
  assert (Hst2 : forall f, is_field f -> fStamp c2 f = kInternallySet).
  { intros f Hf. cbn. unfold fset. case_match; [done|by apply Hst]. }
  rewrite (computeTime_local c' c2).
  - eexists. by split.
  - destruct (negb (fLenient c')); [|done].
    unfold validateFields. assert (Hf : forall f, f ∈ fields -> is_field f) by (intros f; apply elem_of_fields).
    revert Hf. induction fields as [|f l IH]; intros Hf; [done|]. cbn [foldl obind].
    rewrite Hst by (apply Hf; by left). cbn. apply IH. intros g Hg. apply Hf. by right.
  - unfold computeJulianDay. rewrite (Hst UCAL_JULIAN_DAY) by (vm_compute; intuition congruence).
    cbn [kInternallySet kMinimumUserStamp Z.geb Z.compare Pos.compare Pos.compare_cont andb].
    rewrite (resolve_internal c' ltac:(auto) ltac:(by rewrite Hst)). eval_eqb.
    by rewrite (handleComputeJulianDay_inverse (C := C) c Hc c' local_day y m d yw UCAL_DAY_OF_MONTH)
      by (done || by left).
  - rewrite Hst2 by (vm_compute; intuition congruence).
    apply computeMillisInDay_spec; [intros f Hf; apply Hst2, is_time_field_field, Hf|done|].
    destruct Htf. by constructor.
  - apply Hst2. by vm_compute.
  - apply Hst2. by vm_compute.
Qed.

Lemma MAX_MILLIS_int : MAX_MILLIS = of_int ((MAX_JULIAN - kEpochStartAsJulianDay) * 86400000).
Proof. vm_compute. reflexivity. Qed.
Lemma MIN_MILLIS_int : MIN_MILLIS = of_int ((MIN_JULIAN - kEpochStartAsJulianDay) * 86400000).
Proof. vm_compute. reflexivity. Qed.

(** The calendar after [setTimeInMillis]. *)
Definition at_time : Calendar := fst (setTimeInMillis c (of_int t) U_ZERO_ERROR).

Lemma at_time_eq :
  exists f s, at_time = with_stamps (with_fields (with_flags (with_time c (of_int t)) true false false true) f) s c.(fNextStamp).
Proof.
  unfold at_time, setTimeInMillis. cbn [U_FAILURE UErrorCode_value Z.ltb Z.compare].
  rewrite MAX_MILLIS_int, MIN_MILLIS_int, !ClockMath.dlt_int.
  rewrite (proj2 (Z.ltb_ge _ t)), (proj2 (Z.ltb_ge t _))
    by (unfold MAX_JULIAN, MIN_JULIAN, kEpochStartAsJulianDay; lia).
  cbn [orb andb fst]. eauto.
Qed.

Lemma date_computed_flags c0 c' jd y m d yw b1 b2 :
  date_computed c0 c' jd y m d yw ->
  date_computed c0 (with_flags c' c'.(fIsTimeSet) b1 b2 c'.(fAreFieldsVirtuallySet)) jd y m d yw.
Proof. intros []. by constructor. Qed.
End Facts.

Section Claims.
Context {C : CalendarSystem} {L : MonthLayout} {lo hi : Z}.
Context {I : Implements C L lo hi} {B : WeekBounds L lo hi}.
Context {Z0 : TimeZone} (repeated skipped : UCalendarWallTimeOption).

(** The time is found again from its fields. *)
Lemma time_found c t raw dst :
  weeks_ok c -> Z.abs t < 2 ^ 51 -> regular_time t raw dst ->
  start (lo + 1) 0 < local_day t raw dst <= start (hi - 1) 0 ->
  let c0 := at_time c t in
  exists c1 y m d yw,
    (forall field, get repeated skipped c0 field U_ZERO_ERROR = Some (c1.(fFields) field, c1, U_ZERO_ERROR)) /\
    date_computed c0 c1 (local_day t raw dst) y m d yw /\ time_fields c1 (local_millis t raw dst) raw dst /\
    exists c2, computeTime repeated skipped c1 U_ZERO_ERROR = Some (c2, U_ZERO_ERROR) /\ c2.(fTime) = of_int t.
Proof.
  intros Hc Ht Hz Hday c0. destruct (at_time_eq c t Ht) as (f & s & E). fold c0 in E.
  assert (Hc0 : weeks_ok c0) by (rewrite E; exact Hc).
  destruct (computeFields_spec c0 Hc0 t raw dst Ht Hz Hday) as (c1 & y & m & d & yw & Hcf & Hdc & Htf & Hlo & Hhi & Hyw);
    [by rewrite E|].
  exists (with_flags c1 c1.(fIsTimeSet) true true c1.(fAreFieldsVirtuallySet)), y, m, d, yw.
  assert (Hdc' := date_computed_flags _ _ _ _ _ _ _ true true Hdc).
  assert (Htf' : time_fields (with_flags c1 c1.(fIsTimeSet) true true c1.(fAreFieldsVirtuallySet)) (local_millis t raw dst) raw dst)
    by (destruct Htf; by constructor).
  split; [|split; [done|split; [done|]]].
  - intros field. unfold get, complete. cbn [U_SUCCESS UErrorCode_value Z.leb Z.compare].
    assert (H1 : fIsTimeSet c0 = true) by (by rewrite E). assert (H2 : fAreFieldsSet c0 = false) by (by rewrite E).
    rewrite H1. cbn [negb obind andb]. rewrite H1, H2. cbn [negb obind andb]. by rewrite Hcf.
  - by apply (computeTime_spec (Z0:=Z0) repeated skipped c0 Hc0 t raw dst Ht Hz Hday _ y m d yw).
Qed.

(** C3: For any calendar system that implements its calendar and any zone, in a build
    without assertions, at a whole number of milliseconds of less than 2^51, in
    the years of the calendar, at which the zone is regular: it gives an offset
    for the time, and the same offset for the local time; a zone that is no
    [BasicTimeZone] also has no greater offset six hours before.  After
    [setTimeInMillis], [get] gives the fields of the local day and of the local
    time of the day, and from these fields [computeTime] finds the time again, for
    a lenient and for a strict calendar and with every option for wall times. *)
Theorem time_roundtrip c t raw dst :
  weeks_ok c -> Z.abs t < 2 ^ 51 -> regular_time t raw dst ->
  start (lo + 1) 0 < local_day t raw dst <= start (hi - 1) 0 ->
  let c0 := at_time c t in
  exists c1 y m d yw,
    (forall field, get repeated skipped c0 field U_ZERO_ERROR = Some (c1.(fFields) field, c1, U_ZERO_ERROR)) /\
    date_computed c0 c1 (local_day t raw dst) y m d yw /\ time_fields c1 (local_millis t raw dst) raw dst /\
    exists c2, computeTime repeated skipped c1 U_ZERO_ERROR = Some (c2, U_ZERO_ERROR) /\ c2.(fTime) = of_int t.
Proof. apply time_found. Qed.

(** Setting the MONTH after [setTimeInMillis] keeps the year and the day of
    the month, and a day past the end of the new month counts on into the next:
    the day is [d] days after the start of the month [m']. *)
Theorem set_month_keeps_day c t raw dst m' :
  weeks_ok c -> Z.abs t < 2 ^ 51 -> regular_time t raw dst -> kMinimumUserStamp <= c.(fNextStamp) <= STAMP_MAX ->
  start (lo + 1) 0 < local_day t raw dst <= start (hi - 1) 0 ->
  exists c1 y m d yw,
    date_computed (at_time c t) c1 (local_day t raw dst) y m d yw /\
    (has_month y m' = true ->
     exists c2 c3, set (at_time c t) UCAL_MONTH m' = Some c2 /\
       (forall f, f <> UCAL_MONTH -> c2.(fFields) f = c1.(fFields) f) /\
       c2.(fIsTimeSet) = false /\ computeJulianDay c2 = Some (start y m' + d, c3)).
Proof.
  intros Hc Ht Hz Hstamp Hday. set (c0 := at_time c t). destruct (at_time_eq c t Ht) as (f & s & E). fold c0 in E.
  assert (Hc0 : weeks_ok c0) by (rewrite E; exact Hc).
  destruct (computeFields_spec c0 Hc0 t raw dst Ht Hz Hday) as (c1 & y & m & d & yw & Hcf & Hdc & Htf & Hlo & Hhi & Hyw);
    [by rewrite E|].
  exists c1, y, m, d, yw. split; [done|]. intros Hhas.
  destruct Hdc as [Hv _ Hy _ Hd _ _ _ _ _ _ _ _ _ _ Hst (Hfd & Hmd & Hnext & _)].
  assert (Hok : stamps_ok c1).
  { unfold stamps_ok. replace (fNextStamp c1) with (fNextStamp c) by (by rewrite Hnext, E).
    split; [done|]. unfold kMinimumUserStamp in *. split.
    - intros i Hi. rewrite Hst by done. unfold kInternallySet. lia.
    - intros i j Hi Hj. rewrite !Hst by done. unfold kInternallySet. lia. }
  pose proof (set_stamped_newest c1 UCAL_MONTH m' Hok ltac:(vm_compute; intuition congruence))
    as (_ & Hm' & Hother & Hnew & Hlt & Hord).
  unfold set. replace (fAreFieldsVirtuallySet c0) with true by (by rewrite E).
  rewrite Hcf. cbn [obind]. set (c2 := set_stamped c1 UCAL_MONTH m') in *.
  assert (Hst2 : forall i, is_field i -> i <> UCAL_MONTH -> fStamp c2 i = kInternallySet).
  { intros i Hi Hne. apply (proj1 Hord i); [done|]. by apply Hst. }
  exists c2. eexists. split; [done|]. split; [done|]. split; [done|].
  clearbody c2. unfold kMinimumUserStamp in Hnew.
  assert (Hst2' : forall f, is_field f -> set_by_month f = false -> fStamp c2 f = kInternallySet).
  { intros g Hg Hn. apply Hst2; [done|]. intros ->. by vm_compute in Hn. }
  pose proof (days_bounds (lo:=lo) (hi:=hi)) as Hb. unfold INT32_MIN, INT32_MAX in Hb.
  pose proof (start_years lo y ltac:(lia)). pose proof (start_years (y + 1) hi ltac:(lia)).
  pose proof (start_0_le y m' Hhas). pose proof (start_year y m' Hhas). pose proof (length_pos y m' Hhas).
  pose proof (date_in_year y m d Hv). pose proof (start_0_le y m (proj1 Hv)). destruct Hv as [_ [Hd1 _]].
  pose proof (year_length_bounds (lo:=lo) (hi:=hi) y ltac:(lia)).
  assert (fFields c2 UCAL_DATE = d) as Hd2 by (rewrite Hother by done; exact Hd).
  rewrite (computeJulianDay_month c2 (start y m')); rewrite ?Hd2; [done|done|..].
  - unfold kInternallySet. lia.
  - by rewrite (Hst2 UCAL_DATE) by (done || (vm_compute; intuition congruence)).
  - rewrite Hm', Hother, Hy by done. apply (month_start_ok (lo:=lo) (hi:=hi)); [lia|done].
  - unfold is_int32, INT32_MIN, INT32_MAX. lia.
Qed.
End Claims.

(** ** A zone with a constant offset as a witness *)

Definition fixed_zone (offset : Z) : TimeZone :=
  {| getOffset := fun _ _ ec => Some (offset, 0, ec); getBasicTimeZone := None |}.

Lemma fixed_zone_regular offset t :
  Z.abs offset <= 43200000 -> regular_time (Z0 := fixed_zone offset) t offset 0.
Proof.
  intros Ho. constructor; cbn; try done.
  - unfold is_int32, INT32_MIN, INT32_MAX. lia.
  - intros _. by exists offset, 0.
  - intros _. exists offset, 0. unfold is_int32, INT32_MIN, INT32_MAX. split; [done|lia].
Qed.

(** 2016-01-01T00:00:00Z, one hour east of Greenwich *)
Definition sample_time : Z := 1451606400000.

Lemma time_roundtrip_witness :
  let c := calendar_with [] in
  let Z0 := fixed_zone 3600000 in
  weeks_ok c /\ Z.abs sample_time < 2 ^ 51 /\ regular_time (Z0 := Z0) sample_time 3600000 0 /\
  @start coptic_layout (CEFacts.lo + 1) 0 < local_day sample_time 3600000 0 <= @start coptic_layout (CEFacts.hi - 1) 0 /\
  let c0 := at_time c sample_time in
  exists c1 y m d yw,
    (forall field, get (C := CopticCalendar.system) (Z0 := Z0) UCAL_WALLTIME_LAST UCAL_WALLTIME_LAST c0 field U_ZERO_ERROR =
       Some (c1.(fFields) field, c1, U_ZERO_ERROR)) /\
    date_computed (L := coptic_layout) c0 c1 (local_day sample_time 3600000 0) y m d yw /\
    time_fields c1 (local_millis sample_time 3600000 0) 3600000 0 /\
    exists c2, computeTime (C := CopticCalendar.system) (Z0 := Z0) UCAL_WALLTIME_LAST UCAL_WALLTIME_LAST c1 U_ZERO_ERROR =
      Some (c2, U_ZERO_ERROR) /\ c2.(fTime) = of_int sample_time.
Proof.
  intros c Z0.
  assert (H1 : weeks_ok c) by (vm_compute; intuition discriminate).
  assert (H2 : Z.abs sample_time < 2 ^ 51) by (vm_compute; done).
  assert (H3 : regular_time (Z0 := Z0) sample_time 3600000 0) by (apply fixed_zone_regular; lia).
  assert (H4 : @start coptic_layout (CEFacts.lo + 1) 0 < local_day sample_time 3600000 0 <= @start coptic_layout (CEFacts.hi - 1) 0)
    by (vm_compute; intuition discriminate).
  split; [exact H1|split; [exact H2|split; [exact H3|split; [exact H4|]]]].
  exact (time_roundtrip (I := CopticCalendar.coptic_implements) (B := coptic_weeks) UCAL_WALLTIME_LAST
    UCAL_WALLTIME_LAST c sample_time 3600000 0 H1 H2 H3 H4).
Defined.

Lemma set_month_keeps_day_witness :
  let c := calendar_with [] in
  let Z0 := fixed_zone 3600000 in
  weeks_ok c /\ Z.abs sample_time < 2 ^ 51 /\ regular_time (Z0 := Z0) sample_time 3600000 0 /\
  kMinimumUserStamp <= c.(fNextStamp) <= STAMP_MAX /\
  @start coptic_layout (CEFacts.lo + 1) 0 < local_day sample_time 3600000 0 <= @start coptic_layout (CEFacts.hi - 1) 0 /\
  exists c1 y m d yw,
    date_computed (L := coptic_layout) (at_time c sample_time) c1 (local_day sample_time 3600000 0) y m d yw /\
    (@has_month coptic_layout y 12 = true ->
     exists c2 c3, set (C := CopticCalendar.system) (Z0 := Z0) (at_time c sample_time) UCAL_MONTH 12 = Some c2 /\
       (forall f, f <> UCAL_MONTH -> c2.(fFields) f = c1.(fFields) f) /\
       c2.(fIsTimeSet) = false /\
       computeJulianDay (C := CopticCalendar.system) c2 = Some (@start coptic_layout y 12 + d, c3)).
Proof.
  intros c Z0.
  assert (H1 : weeks_ok c) by (vm_compute; intuition discriminate).
  assert (H2 : Z.abs sample_time < 2 ^ 51) by (vm_compute; done).
  assert (H3 : regular_time (Z0 := Z0) sample_time 3600000 0) by (apply fixed_zone_regular; lia).
  assert (H4 : kMinimumUserStamp <= c.(fNextStamp) <= STAMP_MAX) by (vm_compute; intuition discriminate).
  assert (H5 : @start coptic_layout (CEFacts.lo + 1) 0 < local_day sample_time 3600000 0 <= @start coptic_layout (CEFacts.hi - 1) 0)
    by (vm_compute; intuition discriminate).
  split; [exact H1|split; [exact H2|split; [exact H3|split; [exact H4|split; [exact H5|]]]]].
  exact (set_month_keeps_day (I := CopticCalendar.coptic_implements) (B := coptic_weeks) c sample_time 3600000 0 12
    H1 H2 H3 H4 H5).
Defined.
