(* ===== verification/CalendarArithmetic.v ===== *)
(** * Arithmetic on fields (i18n/calendar.cpp)

    [add], [roll] and [fieldDifference], and the actual limits of a field they
    rely on.  A limit is found by trying values on a clone of the calendar,
    with the virtual function [add], which is a parameter here; [addAt] and
    [rollAt] close the recursion.  A clone is the calendar itself, since values
    are not shared; only the Gregorian fields, which are computed before they
    are used, are not cloned.  The failure to allocate it is not modelled. *)
From S2P Require Import Prelude Int32 Double Grego Calendar CalendarSystem CECalendar CopticCalendar CalendarFields CalendarDays CalendarTime.
From stdpp Require Import strings.
Local Open Scope Z_scope.

Definition setLenient (c : Calendar) (lenient : bool) : Calendar :=
  mkCalendar c.(fFields) c.(fStamp) c.(fNextStamp) c.(fIsTimeSet) c.(fAreFieldsSet)
    c.(fAreAllFieldsSet) c.(fAreFieldsVirtuallySet) c.(fTime) lenient c.(fFirstDayOfWeek)
    c.(fMinimalDaysInFirstWeek) c.(fGregorianYear) c.(fGregorianMonth) c.(fGregorianDayOfMonth)
    c.(fGregorianDayOfYear).

Definition kOneMinute : Z := 60000.
Definition kOneSecond : Z := 1000.
Definition kOneWeek : double := dmul (of_int 7) kOneDay.

(** The state and the status that an operation leaves. *)
Definition State : Type := Calendar * UErrorCode.

Section Operations.
Context {C : CalendarSystem} {Z0 : TimeZone}.
Context (fRepeatedWallTime fSkippedWallTime : UCalendarWallTimeOption).
(** [getType()], the name of the calendar, and the virtual function [add] *)
Context (getType : string).
Context (vadd : Calendar -> Z -> Z -> UErrorCode -> option State).

#[local] Abbreviation get := (get fRepeatedWallTime fSkippedWallTime).
#[local] Abbreviation complete := (complete fRepeatedWallTime fSkippedWallTime).
#[local] Abbreviation getTimeInMillis := (getTimeInMillis fRepeatedWallTime fSkippedWallTime).

(** ** Actual limits *)

(** [set(field, getGreatestMinimum(field))] *)
Definition set_greatest_minimum (c : Calendar) (field : Z) : option Calendar :=
  let! v := getGreatestMinimum c field in set c field v.

(** The case of YEAR_WOY falls through to that of MONTH. *)
Definition prepareGetActual (c : Calendar) (field : Z) (isMinimum : bool) (status : UErrorCode) : option State :=
  let! c := set c UCAL_MILLISECONDS_IN_DAY 0 in
  let! '(c, status) :=
    (if bool_decide (field ∈ [UCAL_YEAR; UCAL_EXTENDED_YEAR]) then
       let! c := set_greatest_minimum c UCAL_DAY_OF_YEAR in Some (c, status)
     else if field =? UCAL_YEAR_WOY then
       let! c := set_greatest_minimum c UCAL_WEEK_OF_YEAR in
       let! c := set_greatest_minimum c UCAL_DATE in Some (c, status)
     else if field =? UCAL_MONTH then
       let! c := set_greatest_minimum c UCAL_DATE in Some (c, status)
     else if field =? UCAL_DAY_OF_WEEK_IN_MONTH then
       let! c := set c UCAL_DATE 1 in
       let! '(dow, c, status) := get c UCAL_DAY_OF_WEEK status in
       let! c := set c UCAL_DAY_OF_WEEK dow in Some (c, status)
     else if bool_decide (field ∈ [UCAL_WEEK_OF_MONTH; UCAL_WEEK_OF_YEAR]) then
       let dow := c.(fFirstDayOfWeek) in
       let! dow :=
         (if isMinimum then
            let! dow := (dow +! 6) %! 7 in
            if dow <? UCAL_SUNDAY then dow +! 7 else Some dow
          else Some dow) in
       let! c := set c UCAL_DAY_OF_WEEK dow in Some (c, status)
     else Some (c, status)) in
  let! c := set_greatest_minimum c field in
  Some (c, status).

(** [do { startValue += delta; work->add(field, delta, status); ... }
     while (startValue != endValue);] *)
Fixpoint actual_loop (fuel : nat) (work : Calendar) (field delta startValue endValue result : Z)
    (status : UErrorCode) : option (Z * UErrorCode) :=
  match fuel with
  | O => None
  | S fuel' =>
      let! startValue := startValue +! delta in
      let! '(work, status) := vadd work field delta status in
      let! '(v, work, status) := get work field status in
      if negb (v =? startValue) || U_FAILURE status then Some (result, status)
      else if startValue =? endValue then Some (startValue, status)
      else actual_loop fuel' work field delta startValue endValue startValue status
  end.

Definition getActualHelper (c : Calendar) (field startValue endValue : Z) (status : UErrorCode) :
    option (Z * UErrorCode) :=
  if startValue =? endValue then Some (startValue, status)
  else
    let delta := if endValue >? startValue then 1 else -1 in
    if U_FAILURE status then Some (startValue, status)
    else
      let! '(work, status) := complete c status in
      let work := setLenient work true in
      let! '(work, status) := prepareGetActual work field (delta <? 0) status in
      let! work := set work field startValue in
      let! '(v, work, status) := get work field status in
      if (negb (v =? startValue) && negb (field =? UCAL_WEEK_OF_MONTH) && (delta >? 0)) || U_FAILURE status
      then Some (startValue, status)
      else actual_loop (Z.to_nat (Z.abs (endValue - startValue))) work field delta startValue endValue
             startValue status.

Definition getActualMaximum (c : Calendar) (field : Z) (status : UErrorCode) : option (Z * UErrorCode) :=
  if field =? UCAL_DATE then
    if U_FAILURE status then Some (0, status)
    else
      let cal := setLenient c true in
      let! '(cal, status) := prepareGetActual cal field false status in
      let! '(year, cal, status) := get cal UCAL_EXTENDED_YEAR status in
      let! '(month, cal, status) := get cal UCAL_MONTH status in
      let! result := handleGetMonthLength year month in
      Some (result, status)
  else if field =? UCAL_DAY_OF_YEAR then
    if U_FAILURE status then Some (0, status)
    else
      let cal := setLenient c true in
      let! '(cal, status) := prepareGetActual cal field false status in
      let! '(year, cal, status) := get cal UCAL_EXTENDED_YEAR status in
      let! result := handleGetYearLength year in
      Some (result, status)
  else if bool_decide (field ∈ [UCAL_DAY_OF_WEEK; UCAL_AM_PM; UCAL_HOUR; UCAL_HOUR_OF_DAY; UCAL_MINUTE;
      UCAL_SECOND; UCAL_MILLISECOND; UCAL_ZONE_OFFSET; UCAL_DST_OFFSET; UCAL_DOW_LOCAL;
      UCAL_JULIAN_DAY; UCAL_MILLISECONDS_IN_DAY]) then
    let! result := getMaximum c field in Some (result, status)
  else
    let! startValue := getLeastMaximum c field in
    let! endValue := getMaximum c field in
    getActualHelper c field startValue endValue status.

(** [do { work->set(field, fieldValue); ... fieldValue--; } while (fieldValue >= endValue);] *)
Fixpoint minimum_loop (fuel : nat) (work : Calendar) (field fieldValue endValue result : Z)
    (status : UErrorCode) : option (Z * UErrorCode) :=
  match fuel with
  | O => None
  | S fuel' =>
      let! work := set work field fieldValue in
      let! '(v, work, status) := get work field status in
      if negb (v =? fieldValue) then Some (result, status)
      else
        let! next := fieldValue -! 1 in
        if next >=? endValue then minimum_loop fuel' work field next endValue fieldValue status
        else Some (fieldValue, status)
  end.

Definition getActualMinimum (c : Calendar) (field : Z) (status : UErrorCode) : option (Z * UErrorCode) :=
  let! fieldValue := getGreatestMinimum c field in
  let! endValue := getMinimum c field in
  if fieldValue =? endValue then Some (fieldValue, status)
  else
    let work := setLenient c true in
    let! '(result, status) :=
      minimum_loop (Z.to_nat (Z.abs (fieldValue - endValue) + 1)) work field fieldValue endValue fieldValue status in
    Some (if U_FAILURE status then 0 else result, status).

Definition pinField (c : Calendar) (field : Z) (status : UErrorCode) : option State :=
  let! '(max, status) := getActualMaximum c field status in
  let! '(min, status) := getActualMinimum c field status in
  if c.(fFields) field >? max then let! c := set c field max in Some (c, status)
  else if c.(fFields) field <? min then let! c := set c field min in Some (c, status)
  else Some (c, status).

(** ** add *)

(** The calendars whose era 0 counts the years backwards. *)
Definition backwards_type : bool :=
  bool_decide (getType ∈ ["gregorian"; "roc"; "coptic"]%string).

(** The change of the time that brings the time of the day back to
    [prevWallTime], after an addition that moved it across a transition. *)
Definition keep_wall_time (c : Calendar) (prevOffset prevWallTime : Z) (status : UErrorCode) : option State :=
  let! '(newWallTime, c, status) := get c UCAL_MILLISECONDS_IN_DAY status in
  if negb (newWallTime =? prevWallTime) then
    let t := c.(fTime) in
    let! '(dst, c, status) := get c UCAL_DST_OFFSET status in
    let! '(zone, c, status) := get c UCAL_ZONE_OFFSET status in
    let! newOffset := dst +! zone in
    if negb (newOffset =? prevOffset) then
      let! adjAmount := prevOffset -! newOffset in
      let! adjAmount :=
        (if adjAmount >=? 0 then adjAmount %! 86400000
         else let! r := (0 -! adjAmount) %! 86400000 in 0 -! r) in
      let! '(newWallTime, c, status) :=
        (if negb (adjAmount =? 0) then
           let '(c, status) := setTimeInMillis c (dadd t (of_int adjAmount)) status in
           get c UCAL_MILLISECONDS_IN_DAY status
         else Some (newWallTime, c, status)) in
      if negb (newWallTime =? prevWallTime) then
        match fSkippedWallTime with
        | UCAL_WALLTIME_FIRST =>
            Some (if adjAmount >? 0 then setTimeInMillis c t status else (c, status))
        | UCAL_WALLTIME_LAST =>
            Some (if adjAmount <? 0 then setTimeInMillis c t status else (c, status))
        | UCAL_WALLTIME_NEXT_VALID =>
            let tmpT := if adjAmount >? 0 then c.(fTime) else t in
            let! '(transition, status) := getImmediatePreviousZoneTransition tmpT status in
            Some (match transition with
                  | Some immediatePrevTrans =>
                      if U_SUCCESS status then setTimeInMillis c immediatePrevTrans status else (c, status)
                  | None => (c, status)
                  end)
        end
      else Some (c, status)
    else Some (c, status)
  else Some (c, status).

(** The addition of [delta] milliseconds. *)
Definition add_millis (c : Calendar) (delta : double) (keepWallTimeInvariant : bool) (status : UErrorCode) :
    option State :=
  let! '(prevOffset, prevWallTime, c, status) :=
    (if keepWallTimeInvariant then
       let! '(dst, c, status) := get c UCAL_DST_OFFSET status in
       let! '(zone, c, status) := get c UCAL_ZONE_OFFSET status in
       let! prevOffset := dst +! zone in
       let! '(prevWallTime, c, status) := get c UCAL_MILLISECONDS_IN_DAY status in
       Some (prevOffset, prevWallTime, c, status)
     else Some (0, 0, c, status)) in
  let! '(t, c, status) := getTimeInMillis c status in
  let '(c, status) := setTimeInMillis c (dadd t delta) status in
  if keepWallTimeInvariant then keep_wall_time c prevOffset prevWallTime status else Some (c, status).

(** The addition to a field of a year or to the month. *)
Definition add_pinned (c : Calendar) (field amount : Z) (status : UErrorCode) : option State :=
  let oldLenient := c.(fLenient) in
  let c := setLenient c true in
  let! '(v, c, status) := get c field status in
  let! v := v +! amount in
  let! c := set c field v in
  let! '(c, status) := pinField c UCAL_DAY_OF_MONTH status in
  if negb oldLenient then
    let! '(c, status) := complete c status in Some (setLenient c oldLenient, status)
  else Some (c, status).

Definition add (c : Calendar) (field amount : Z) (status : UErrorCode) : option State :=
  if amount =? 0 then Some (c, status)
  else
    let delta := of_int amount in
    if field =? UCAL_ERA then
      let! '(era, c, status) := get c UCAL_ERA status in
      let! era := era +! amount in
      let! c := set c field era in
      pinField c UCAL_ERA status
    else if bool_decide (field ∈ [UCAL_YEAR; UCAL_YEAR_WOY]) then
      let! '(era, c, status) := get c UCAL_ERA status in
      let! amount := if (era =? 0) && backwards_type then 0 -! amount else Some amount in
      add_pinned c field amount status
    else if bool_decide (field ∈ [UCAL_EXTENDED_YEAR; UCAL_MONTH]) then add_pinned c field amount status
    else if bool_decide (field ∈ [UCAL_WEEK_OF_YEAR; UCAL_WEEK_OF_MONTH; UCAL_DAY_OF_WEEK_IN_MONTH]) then
      add_millis c (dmul delta kOneWeek) true status
    else if field =? UCAL_AM_PM then add_millis c (dmul delta (of_int (12 * kOneHour))) true status
    else if bool_decide (field ∈ [UCAL_DAY_OF_MONTH; UCAL_DAY_OF_YEAR; UCAL_DAY_OF_WEEK; UCAL_DOW_LOCAL;
                                  UCAL_JULIAN_DAY]) then
      add_millis c (dmul delta kOneDay) true status
    else if bool_decide (field ∈ [UCAL_HOUR_OF_DAY; UCAL_HOUR]) then
      add_millis c (dmul delta (of_int kOneHour)) false status
    else if field =? UCAL_MINUTE then add_millis c (dmul delta (of_int kOneMinute)) false status
    else if field =? UCAL_SECOND then add_millis c (dmul delta (of_int kOneSecond)) false status
    else if bool_decide (field ∈ [UCAL_MILLISECOND; UCAL_MILLISECONDS_IN_DAY]) then
      add_millis c delta false status
    else Some (c, U_ILLEGAL_ARGUMENT_ERROR).

(** ** roll *)

(** [value % gap], at least 0 *)
Definition mod_gap (value : I32) (gap : Z) : I32 :=
  let! v := value %! gap in if v <? 0 then v +! gap else Some v.

(** The remainder of a time by a period, at least 0. *)
Definition fmod_period (t period : double) : double :=
  let newtime := Grego.uprv_fmod t period in
  if dlt newtime (of_int 0) then dadd newtime period else newtime.

Definition roll_value (c : Calendar) (field amount : Z) (status : UErrorCode) : option State :=
  let! '(min, status) := getActualMinimum c field status in
  let! '(max, status) := getActualMaximum c field status in
  let! gap := (max -! min) +! 1 in
  let! value := internalGet c field +! amount in
  let! value := mod_gap (value -! min) gap in
  let! value := value +! min in
  let! c := set c field value in
  Some (c, status).

Definition roll_hour (c : Calendar) (field amount : Z) (status : UErrorCode) : option State :=
  let! '(start, c, status) := getTimeInMillis c status in
  let oldHour := internalGet c field in
  let! max := getMaximum c field in
  let! gap := max +! 1 in
  let! newHour := mod_gap (oldHour +! amount) gap in
  let! millis := kOneHour *! (newHour -! oldHour) in
  Some (setTimeInMillis c (dadd start (of_int millis)) status).

Definition roll_month (c : Calendar) (amount : Z) (status : UErrorCode) : option State :=
  let! '(max, status) := getActualMaximum c UCAL_MONTH status in
  let! gap := max +! 1 in
  let! mon := mod_gap (internalGet c UCAL_MONTH +! amount) gap in
  let! c := set c UCAL_MONTH mon in
  pinField c UCAL_DAY_OF_MONTH status.

Definition roll_year (c : Calendar) (field amount : Z) (status : UErrorCode) : option State :=
  let! '(era, c, status) := get c UCAL_ERA status in
  let era0WithYearsThatGoBackwards := (era =? 0) && backwards_type in
  let! amount := if era0WithYearsThatGoBackwards then 0 -! amount else Some amount in
  let! newYear := internalGet c field +! amount in
  let! '(newYear, status) :=
    (if (era >? 0) || (newYear >=? 1) then
       let! '(maxYear, status) := getActualMaximum c field status in
       if maxYear <? 32768 then
         if newYear <? 1 then
           let! r := (0 -! newYear) %! maxYear in
           let! newYear := maxYear -! r in Some (newYear, status)
         else if newYear >? maxYear then
           let! newYear := ((newYear -! 1) %! maxYear) +! 1 in Some (newYear, status)
         else Some (newYear, status)
       else Some (if newYear <? 1 then 1 else newYear, status)
     else Some (if era0WithYearsThatGoBackwards then 1 else newYear, status)) in
  let! c := set c field newYear in
  let! '(c, status) := pinField c UCAL_MONTH status in
  pinField c UCAL_DAY_OF_MONTH status.

(** The day of a period (a month or a year) after [amount] weeks: the weeks
    wrap in the block of whole weeks that covers the period, where the first
    partial week counts only with enough days, and the result is moved into the
    period.  [day] is the day of the period, [len] its length. *)
Definition roll_week (c : Calendar) (day len amount : Z) : I32 :=
  let! dow := internalGet c UCAL_DAY_OF_WEEK -! c.(fFirstDayOfWeek) in
  let! dow := if dow <? 0 then dow +! 7 else Some dow in
  let! fdm := (dow -! day +! 1) %! 7 in
  let! fdm := if fdm <? 0 then fdm +! 7 else Some fdm in
  let! days := 7 -! fdm in
  let! start := if days <? c.(fMinimalDaysInFirstWeek) then 8 -! fdm else 1 -! fdm in
  let! ldm := (len -! day +! dow) %! 7 in
  let! limit := len +! 7 -! ldm in
  let! gap := limit -! start in
  let! value := (day +! amount *! 7 -! start) %! gap in
  let! value := if value <? 0 then value +! gap else Some value in
  let! value := value +! start in
  let value := if value <? 1 then 1 else value in
  Some (if value >? len then len else value).

Definition roll_week_of_month (c : Calendar) (amount : Z) (status : UErrorCode) : option State :=
  let! '(monthLen, status) := getActualMaximum c UCAL_DAY_OF_MONTH status in
  let! day := roll_week c (internalGet c UCAL_DAY_OF_MONTH) monthLen amount in
  let! c := set c UCAL_DAY_OF_MONTH day in
  Some (c, status).

Definition roll_week_of_year (c : Calendar) (amount : Z) (status : UErrorCode) : option State :=
  let! '(yearLen, status) := getActualMaximum c UCAL_DAY_OF_YEAR status in
  let! day := roll_week c (internalGet c UCAL_DAY_OF_YEAR) yearLen amount in
  let! c := set c UCAL_DAY_OF_YEAR day in
  let! c := clear_field c UCAL_MONTH in
  Some (c, status).

Definition roll_day_of_year (c : Calendar) (amount : Z) (status : UErrorCode) : option State :=
  let delta := dmul (of_int amount) kOneDay in
  let! day := internalGet c UCAL_DAY_OF_YEAR -! 1 in
  let min2 := dsub c.(fTime) (dmul (of_int day) kOneDay) in
  let! '(yearLength, status) := getActualMaximum c UCAL_DAY_OF_YEAR status in
  let oneYear := dmul (of_int yearLength) kOneDay in
  let newtime := fmod_period (dsub (dadd c.(fTime) delta) min2) oneYear in
  Some (setTimeInMillis c (dadd newtime min2) status).

Definition roll_day_of_week (c : Calendar) (field amount : Z) (status : UErrorCode) : option State :=
  let delta := dmul (of_int amount) kOneDay in
  let! leadDays := internalGet c field -! (if field =? UCAL_DAY_OF_WEEK then c.(fFirstDayOfWeek) else 1) in
  let! leadDays := if leadDays <? 0 then leadDays +! 7 else Some leadDays in
  let min2 := dsub c.(fTime) (dmul (of_int leadDays) kOneDay) in
  let newtime := fmod_period (dsub (dadd c.(fTime) delta) min2) kOneWeek in
  Some (setTimeInMillis c (dadd newtime min2) status).

Definition roll_day_of_week_in_month (c : Calendar) (amount : Z) (status : UErrorCode) : option State :=
  let delta := dmul (of_int amount) kOneWeek in
  let! preWeeks := (internalGet c UCAL_DAY_OF_MONTH -! 1) /! 7 in
  let! '(max, status) := getActualMaximum c UCAL_DAY_OF_MONTH status in
  let! postWeeks := (max -! internalGet c UCAL_DAY_OF_MONTH) /! 7 in
  let min2 := dsub c.(fTime) (dmul (of_int preWeeks) kOneWeek) in
  let! weeks := preWeeks +! postWeeks +! 1 in
  let gap2 := dmul kOneWeek (of_int weeks) in
  let newtime := fmod_period (dsub (dadd c.(fTime) delta) min2) gap2 in
  Some (setTimeInMillis c (dadd newtime min2) status).

Definition roll (c : Calendar) (field amount : Z) (status : UErrorCode) : option State :=
  if amount =? 0 then Some (c, status)
  else
    let! '(c, status) := complete c status in
    if U_FAILURE status then Some (c, status)
    else if bool_decide (field ∈ [UCAL_DAY_OF_MONTH; UCAL_AM_PM; UCAL_MINUTE; UCAL_SECOND; UCAL_MILLISECOND;
                                  UCAL_MILLISECONDS_IN_DAY; UCAL_ERA]) then roll_value c field amount status
    else if bool_decide (field ∈ [UCAL_HOUR; UCAL_HOUR_OF_DAY]) then roll_hour c field amount status
    else if field =? UCAL_MONTH then roll_month c amount status
    else if bool_decide (field ∈ [UCAL_YEAR; UCAL_YEAR_WOY]) then roll_year c field amount status
    else if field =? UCAL_EXTENDED_YEAR then
      let! v := internalGet c field +! amount in
      let! c := set c field v in
      let! '(c, status) := pinField c UCAL_MONTH status in
      pinField c UCAL_DAY_OF_MONTH status
    else if field =? UCAL_WEEK_OF_MONTH then roll_week_of_month c amount status
    else if field =? UCAL_WEEK_OF_YEAR then roll_week_of_year c amount status
    else if field =? UCAL_DAY_OF_YEAR then roll_day_of_year c amount status
    else if bool_decide (field ∈ [UCAL_DAY_OF_WEEK; UCAL_DOW_LOCAL]) then roll_day_of_week c field amount status
    else if field =? UCAL_DAY_OF_WEEK_IN_MONTH then roll_day_of_week_in_month c amount status
    else if field =? UCAL_JULIAN_DAY then
      let! v := internalGet c field +! amount in
      let! c := set c field v in Some (c, status)
    else Some (c, U_ILLEGAL_ARGUMENT_ERROR).

(** ** fieldDifference *)

(** The calendar [max] units of the field after the time [startMs], and its time. *)
Definition probe (c : Calendar) (startMs : double) (field max : Z) (ec : UErrorCode) :
    option (double * Calendar * UErrorCode) :=
  let '(c, ec) := setTimeInMillis c startMs ec in
  let! '(c, ec) := vadd c field max ec in
  getTimeInMillis c ec.

(** [max <<= 1]: there is no result outside [int32_t]; the shift of a negative
    number is the product. *)
Definition double_step (max : Z) : option Z := max *! 2.

(** A search stops at a difference or leaves a range [min, max] that contains
    it; [later] is [>] of times forward, [<] backward. *)
Inductive search : Type :=
  | Found (difference : Z)
  | Between (min max : Z).

Section Search.
Context (startMs targetMs : double) (field : Z).
Context (forward : bool).

Definition past (ms : double) : bool := if forward then dlt targetMs ms else dlt ms targetMs.

(** [while (U_SUCCESS(ec)) { ... }], from [max] 1 or -1 *)
Fixpoint widen (fuel : nat) (c : Calendar) (min max : Z) (ec : UErrorCode) :
    option (search * Calendar * UErrorCode) :=
  if U_FAILURE ec then Some (Between min max, c, ec)
  else
    match fuel with
    | O => None
    | S fuel' =>
        let! '(ms, c, ec) := probe c startMs field max ec in
        if deq ms targetMs then Some (Found max, c, ec)
        else if past ms then Some (Between min max, c, ec)
        else if forward then
          if max <? INT32_MAX then
            let min := max in
            let! max := double_step max in
            widen fuel' c min (if max <? 0 then INT32_MAX else max) ec
          else widen fuel' c min max U_ILLEGAL_ARGUMENT_ERROR
        else
          let min := max in
          let! max := double_step max in
          widen fuel' c min max (if max =? 0 then U_ILLEGAL_ARGUMENT_ERROR else ec)
    end.

(** [while ((max - min) > 1 && U_SUCCESS(ec))], or [(min - max) > 1] *)
Fixpoint narrow (fuel : nat) (c : Calendar) (min max : Z) (ec : UErrorCode) :
    option (search * Calendar * UErrorCode) :=
  let! width := if forward then max -! min else min -! max in
  if (width >? 1) && U_SUCCESS ec then
    match fuel with
    | O => None
    | S fuel' =>
        let! t := min +! (max -! min) /! 2 in
        let! '(ms, c, ec) := probe c startMs field t ec in
        if deq ms targetMs then Some (Found t, c, ec)
        else if past ms then narrow fuel' c min t ec
        else narrow fuel' c t max ec
    end
  else Some (Between min max, c, ec).

(** The two searches, and the end point. *)
Definition difference (c : Calendar) (ec : UErrorCode) : option (Z * Calendar * UErrorCode) :=
  let! '(r, c, ec) := widen 34 c 0 (if forward then 1 else -1) ec in
  match r with
  | Found n => Some (n, c, ec)
  | Between min max =>
      let! '(r, c, ec) := narrow 32 c min max ec in
      match r with
      | Found n => Some (n, c, ec)
      | Between min _ =>
          let '(c, ec) := setTimeInMillis c startMs ec in
          let! '(c, ec) := vadd c field min ec in
          Some (if U_FAILURE ec then 0 else min, c, ec)
      end
  end.
End Search.

Definition fieldDifference (c : Calendar) (targetMs : double) (field : Z) (ec : UErrorCode) :
    option (Z * Calendar * UErrorCode) :=
  if U_FAILURE ec then Some (0, c, ec)
  else
    let! '(startMs, c, ec) := getTimeInMillis c ec in
    if dlt startMs targetMs then difference startMs targetMs field true c ec
    else if dlt targetMs startMs then difference startMs targetMs field false c ec
    else
      let '(c, ec) := setTimeInMillis c startMs ec in
      let! '(c, ec) := vadd c field 0 ec in
      Some (0, c, ec).
End Operations.

(** The function [add] of a calendar that does not override it.  Only the limits
    of ERA, where they vary, need a depth above 1. *)
Section AddAt.
Context {C : CalendarSystem} {Z0 : TimeZone}.
Context (fRepeatedWallTime fSkippedWallTime : UCalendarWallTimeOption) (getType : string).

Fixpoint addAt (depth : nat) (c : Calendar) (field amount : Z) (status : UErrorCode) : option State :=
  match depth with
  | O => None
  | S d => add fRepeatedWallTime fSkippedWallTime getType (addAt d) c field amount status
  end.
End AddAt.

(** ** Differences of times *)

Section Difference.
Context {C : CalendarSystem} {Z0 : TimeZone}.
Context (repeated skipped : UCalendarWallTimeOption).
Context (vadd : Calendar -> Z -> Z -> UErrorCode -> option State).
Context (field s T : Z) (forward : bool) (g : Z -> Z).

(** Numbers of units in the direction of the search. *)
Definition signed (k : Z) : Z := if forward then k else - k.

(** The last step that the doubling reaches: the next leaves [int32_t]. *)
Definition last_doubling : Z := if forward then 30 else 31.
Definition farthest : Z := 2 ^ last_doubling.

Lemma farthest_value : farthest = if forward then 2 ^ 30 else 2 ^ 31.
Proof. unfold farthest, last_doubling. by destruct forward. Qed.

(** What is left to the target after [k] units. *)
Definition left_over (k : Z) : Z := signed (T - g (signed k)).

Context (Hadd : forall c k, 0 <= k <= farthest ->
  exists c', (let '(c, ec) := setTimeInMillis c (of_int s) U_ZERO_ERROR in vadd c field (signed k) ec) =
    Some (c', U_ZERO_ERROR) /\ c'.(fTime) = of_int (g (signed k)) /\ c'.(fIsTimeSet) = true).
Context (Hmono : forall k, left_over (k + 1) < left_over k).

Lemma Hprobe c k :
  0 <= k <= farthest ->
  exists c', probe repeated skipped vadd c (of_int s) field (signed k) U_ZERO_ERROR =
    Some (of_int (g (signed k)), c', U_ZERO_ERROR) /\ c'.(fTime) = of_int (g (signed k)) /\ c'.(fIsTimeSet) = true.
Proof.
  intros Hk. destruct (Hadd c k Hk) as (c' & Hc' & Ht & Hs). exists c'. split; [|done].
  unfold probe. destruct (setTimeInMillis c (of_int s) U_ZERO_ERROR) as [c1 ec]. rewrite Hc'. cbn [obind].
  unfold getTimeInMillis. cbn [U_FAILURE UErrorCode_value Z.ltb Z.compare]. rewrite Hs. cbn [negb obind].
  by rewrite Ht.
Qed.

Lemma found_spec k : deq (of_int (g (signed k))) (of_int T) = (left_over k =? 0).
Proof.
  rewrite deq_int. unfold left_over, signed. apply eq_iff_eq_true. rewrite !Z.eqb_eq. destruct forward; lia.
Qed.

Lemma past_spec k : past (of_int T) forward (of_int (g (signed k))) = (left_over k <? 0).
Proof.
  unfold past, left_over, signed. apply eq_iff_eq_true.
  destruct forward; rewrite ClockMath.dlt_int, !Z.ltb_lt; lia.
Qed.

(** What a search returns, its calendar at the last time it tried; it has no
    result when the doubling leaves [int32_t]. *)
Inductive search_result (last : Z) : option (search * Calendar * UErrorCode) -> Prop :=
  | sr_found k c : 0 < k <= farthest -> left_over k = 0 -> c.(fTime) = of_int (g (signed k)) -> c.(fIsTimeSet) = true ->
      search_result last (Some (Found (signed k), c, U_ZERO_ERROR))
  | sr_between a b c : 0 <= a < b -> b <= farthest -> b <= a + last -> left_over b < 0 < left_over a ->
      search_result last (Some (Between (signed a) (signed b), c, U_ZERO_ERROR))
  | sr_too_far : 0 < left_over farthest -> search_result last None.

Lemma signed_width a b :
  0 <= a <= b -> b <= farthest -> b - a < 2 ^ 31 ->
  (if forward then signed b -! signed a else signed a -! signed b) = Some (b - a).
Proof.
  rewrite farthest_value. unfold signed, int. intros. destruct forward; cbv iota in *; rewrite isub_ok by ibound; f_equal; lia.
Qed.

Lemma signed_middle a b :
  0 <= a <= b -> b <= farthest -> b - a < 2 ^ 31 ->
  signed a +! (signed b -! signed a) /! 2 = Some (signed (a + (b - a) / 2)).
Proof.
  rewrite farthest_value. unfold signed, int. intros. destruct forward; cbv iota in *.
  - rewrite isub_ok by ibound. rewrite idiv_nonneg by (unfold INT32_MAX; lia).
    rewrite iadd_ok by (unfold is_int32, INT32_MIN, INT32_MAX; dlia). done.
  - rewrite isub_ok by ibound. rewrite idiv_ok by (lia || ibound).
    rewrite iadd_ok by (unfold is_int32, INT32_MIN, INT32_MAX; dlia). f_equal. dlia.
Qed.

Lemma narrow_spec fuel c a b :
  0 <= a < b -> b <= farthest -> b - a < 2 ^ 31 -> b - a <= 2 ^ Z.of_nat fuel -> left_over b < 0 < left_over a ->
  search_result 1 (narrow repeated skipped vadd (of_int s) (of_int T) field forward fuel c (signed a) (signed b) U_ZERO_ERROR).
Proof.
  revert c a b. induction fuel as [|fuel IH]; intros c a b Ha Hb Hw Hf Hl; cbn [narrow];
    rewrite signed_width by lia; cbn [obind]; rewrite Z.gtb_ltb.
  - change (2 ^ Z.of_nat 0) with 1 in Hf. rewrite (proj2 (Z.ltb_ge _ _)) by lia. cbn [andb]. by apply sr_between; lia.
  - destruct (Z.ltb_spec 1 (b - a)); cbn [andb U_SUCCESS UErrorCode_value Z.leb Z.compare];
      [|by apply sr_between; lia].
    set (m := a + (b - a) / 2). assert (Hm : a < m < b) by (unfold m; dlia).
    rewrite signed_middle by lia. fold m.
    cbn [obind]. destruct (Hprobe c m ltac:(lia)) as (c' & -> & Ht & Hs). cbn [obind].
    rewrite found_spec, past_spec. destruct (Z.eqb_spec (left_over m) 0); [by apply sr_found; try lia|].
    rewrite Nat2Z.inj_succ, Z.pow_succ_r in Hf by lia.
    destruct (Z.ltb_spec (left_over m) 0); apply IH; try lia; unfold m; dlia.
Qed.

(** The range of the search after [i] doublings. *)
Definition near_end (i : Z) : Z := if i =? 0 then 0 else 2 ^ (i - 1).
Definition far_end (i : Z) : Z := 2 ^ i.

Lemma far_end_range i : 0 <= i <= last_doubling -> near_end i < far_end i <= farthest /\ 0 <= near_end i /\ far_end i - near_end i <= 2 ^ 30.
Proof.
  intros Hi. unfold near_end, far_end. split; [split; [|apply Z.pow_le_mono_r; lia]|].
  - destruct (Z.eqb_spec i 0) as [->|]; [done|]. apply Z.pow_lt_mono_r; lia.
  - destruct (Z.eqb_spec i 0) as [->|]; [done|]. split; [lia|].
    replace (2 ^ i) with (2 * 2 ^ (i - 1)) by (rewrite <- Z.pow_succ_r by lia; f_equal; lia).
    assert (2 ^ (i - 1) <= 2 ^ 30); [|lia]. apply Z.pow_le_mono_r; unfold last_doubling in Hi; destruct forward; lia.
Qed.

(** The next range, or none after the last doubling. *)
Lemma double_step_spec i :
  0 <= i <= last_doubling ->
  double_step (signed (far_end i)) = if i =? last_doubling then None else Some (signed (far_end (i + 1))).
Proof.
  unfold double_step, signed, far_end, last_doubling, int. intros Hi.
  assert (H : all_below 32 (fun i => bool_decide (imul (Some (2 ^ i)) (Some 2) = if 30 <=? i then None else Some (2 ^ (i + 1))) &&
    bool_decide (imul (Some (- 2 ^ i)) (Some 2) = if i =? 31 then None else Some (- 2 ^ (i + 1)))) = true) by (vm_compute; done).
  assert (Hi' : 0 <= i < 32) by (destruct forward; cbv iota in Hi; lia).
  pose proof (all_below_spec _ _ H i Hi') as Hf. cbv beta in Hf. apply andb_true_iff in Hf as [H1%bool_decide_eq_true H2%bool_decide_eq_true].
  destruct forward; [|done]. rewrite H1. destruct (Z.leb_spec 30 i), (Z.eqb_spec i 30); (done || lia).
Qed.

Lemma widen_spec fuel c i :
  0 <= i <= last_doubling -> last_doubling - i < Z.of_nat fuel -> 0 < left_over (near_end i) ->
  search_result (2 ^ 30)
    (widen repeated skipped vadd (of_int s) (of_int T) field forward fuel c (signed (near_end i)) (signed (far_end i)) U_ZERO_ERROR).
Proof.
  revert c i. induction fuel as [|fuel IH]; intros c i Hi Hf Hl; [lia|].
  destruct (far_end_range i Hi) as (Hr1 & Hr2 & Hr3).
  cbn [widen U_FAILURE UErrorCode_value Z.ltb Z.compare].
  destruct (Hprobe c (far_end i) ltac:(lia)) as (c' & -> & Ht & Hs). cbn [obind].
  rewrite found_spec, past_spec.
  destruct (Z.eqb_spec (left_over (far_end i)) 0); [by apply sr_found; try lia|].
  destruct (Z.ltb_spec (left_over (far_end i)) 0); [apply sr_between; lia|].
  rewrite double_step_spec by done. pose proof farthest_value as Hfv.
  assert (Hmax : forward = true -> signed (far_end i) < INT32_MAX) by (intros E; rewrite E in Hfv; unfold signed, INT32_MAX; rewrite E; cbv iota in *; lia).
  destruct (Z.eqb_spec i last_doubling) as [->|Hne].
  - assert (0 < left_over farthest) by (unfold far_end in *; unfold farthest; lia).
    destruct forward; [rewrite (proj2 (Z.ltb_lt _ _)) by auto|]; by apply sr_too_far.
  - assert (Hgo : search_result (2 ^ 30) (widen repeated skipped vadd (of_int s) (of_int T) field forward fuel c'
       (signed (near_end (i + 1))) (signed (far_end (i + 1))) U_ZERO_ERROR)).
    { apply IH; [lia|lia|]. unfold near_end. rewrite (proj2 (Z.eqb_neq _ _)), Z.add_simpl_r by lia. unfold far_end in *. lia. }
    assert (Hn : near_end (i + 1) = far_end i) by (unfold near_end; rewrite (proj2 (Z.eqb_neq _ _)), Z.add_simpl_r by lia; done).
    rewrite Hn in Hgo. pose proof (far_end_range (i + 1) ltac:(lia)) as (Hr4 & _). cbn [obind].
    assert (Hpos : 0 < far_end (i + 1)) by lia. clear -Hgo Hpos Hmax. unfold signed in *. destruct forward.
    + rewrite (proj2 (Z.ltb_lt _ _)), (proj2 (Z.ltb_ge _ _)) by (lia || auto). exact Hgo.
    + rewrite (proj2 (Z.eqb_neq _ _)) by lia. exact Hgo.
Qed.

Lemma left_over_mono j k : j <= k -> left_over k <= left_over j.
Proof.
  intros H. replace k with (j + (k - j)) by lia.
  apply (natlike_ind (fun d => left_over (j + d) <= left_over j)); [by rewrite Z.add_0_r| |lia].
  intros d Hd IH. rewrite Z.add_succ_r. unfold Z.succ. pose proof (Hmono (j + d)). lia.
Qed.

(** The number of whole units up to the target, unless the doubling overflows
    before it finds a range with the target. *)
Lemma difference_spec c :
  0 < left_over 0 ->
  if 0 <? left_over farthest then
    difference repeated skipped vadd (of_int s) (of_int T) field forward c U_ZERO_ERROR = None
  else
    exists n c', difference repeated skipped vadd (of_int s) (of_int T) field forward c U_ZERO_ERROR =
      Some (signed n, c', U_ZERO_ERROR) /\
      0 <= n <= farthest /\ left_over (n + 1) < 0 <= left_over n /\
      c'.(fTime) = of_int (g (signed n)) /\ c'.(fIsTimeSet) = true.
Proof.
  intros H0. unfold difference.
  assert (Hinit : signed (near_end 0) = 0 /\ signed (far_end 0) = (if forward then 1 else -1))
    by (unfold signed, near_end, far_end; destruct forward; done).
  destruct Hinit as [E0 E1]. pose proof (widen_spec 34 c 0 ltac:(unfold last_doubling; destruct forward; lia) ltac:(unfold last_doubling; destruct forward; lia) H0) as Hw.
  rewrite E0, E1 in Hw. set (r := widen _ _ _ _ _ _ _ _ _ _ _ _) in *. clearbody r.
  destruct Hw as [k c1 Hk Hl Ht Hs|a b c1 Ha Hb Hd Hl|Hl]; cbn [obind].
  - pose proof (left_over_mono k farthest ltac:(lia)). rewrite (proj2 (Z.ltb_ge _ _)) by lia.
    exists k, c1. pose proof (Hmono k). split; [done|]. split; [lia|]. split; [lia|done].
  - pose proof (left_over_mono b farthest ltac:(lia)). rewrite (proj2 (Z.ltb_ge _ _)) by lia.
    pose proof (narrow_spec 32 c1 a b Ha Hb ltac:(lia) ltac:(change (2 ^ Z.of_nat 32) with 4294967296; lia) Hl) as Hn.
    set (r := narrow _ _ _ _ _ _ _ _ _ _ _ _) in *. clearbody r.
    destruct Hn as [k c2 Hk Hl2 Ht Hs|a2 b2 c2 Ha2 Hb2 Hd2 Hl2|Hl2]; cbn [obind].
    + exists k, c2. pose proof (Hmono k). split; [done|]. split; [lia|]. split; [lia|done].
    + assert (b2 = a2 + 1) as -> by lia.
      destruct (Hadd c2 a2 ltac:(lia)) as (c3 & Hc3 & Ht & Hs).
      destruct (setTimeInMillis c2 (of_int s) U_ZERO_ERROR) as [c4 ec4]. rewrite Hc3. cbn [obind].
      exists a2, c3. split; [done|]. split; [lia|]. split; [lia|done].
    + lia.
  - by rewrite (proj2 (Z.ltb_lt _ _)) by lia.
Qed.
End Difference.

(** The fields that count milliseconds, and their units. *)
Definition unit_of (field : Z) : option Z :=
  if bool_decide (field ∈ [UCAL_HOUR_OF_DAY; UCAL_HOUR]) then Some kOneHour
  else if field =? UCAL_MINUTE then Some kOneMinute
  else if field =? UCAL_SECOND then Some kOneSecond
  else if bool_decide (field ∈ [UCAL_MILLISECOND; UCAL_MILLISECONDS_IN_DAY]) then Some 1
  else None.

Section Times.
Context {C : CalendarSystem} {Z0 : TimeZone}.
Context (repeated skipped : UCalendarWallTimeOption) (getType : string) (depth : nat).

Lemma setTimeInMillis_set c t :
  Z.abs t < 2 ^ 53 ->
  exists c', setTimeInMillis c (of_int t) U_ZERO_ERROR = (c', U_ZERO_ERROR) /\
    c'.(fTime) = of_int t /\ c'.(fIsTimeSet) = true.
Proof.
  intros Ht. unfold setTimeInMillis. cbn [U_FAILURE UErrorCode_value Z.ltb Z.compare].
  rewrite MAX_MILLIS_int, MIN_MILLIS_int, !ClockMath.dlt_int.
  rewrite (proj2 (Z.ltb_ge _ t)), (proj2 (Z.ltb_ge t _))
    by (unfold MAX_JULIAN, MIN_JULIAN, kEpochStartAsJulianDay; lia).
  cbn [orb andb]. eexists. split; [done|]. by split.
Qed.

Lemma add_millis_time c t delta :
  c.(fTime) = of_int t -> c.(fIsTimeSet) = true -> Z.abs (t + delta) < 2 ^ 53 ->
  exists c', add_millis repeated skipped c (of_int delta) false U_ZERO_ERROR = Some (c', U_ZERO_ERROR) /\
    c'.(fTime) = of_int (t + delta) /\ c'.(fIsTimeSet) = true.
Proof.
  intros Ht Hs Hd. unfold add_millis. cbn [obind]. unfold getTimeInMillis.
  cbn [U_FAILURE UErrorCode_value Z.ltb Z.compare]. rewrite Hs. cbn [negb obind].
  cbn [U_FAILURE UErrorCode_value Z.ltb Z.compare]. cbn [obind].
  rewrite Ht, dadd_int by done. destruct (setTimeInMillis_set c (t + delta) Hd) as (c' & -> & ?). by exists c'.
Qed.

Lemma unit_of_cases field unit :
  unit_of field = Some unit ->
  (forall vadd c n status, n <> 0 ->
     add repeated skipped getType vadd c field n status =
     add_millis repeated skipped c (if unit =? 1 then of_int n else dmul (of_int n) (of_int unit)) false status) /\
  1 <= unit <= 3600000.
Proof.
  unfold unit_of, kOneHour, kOneMinute, kOneSecond. intros H.
  assert (Hf : In field [UCAL_HOUR_OF_DAY; UCAL_HOUR; UCAL_MINUTE; UCAL_SECOND; UCAL_MILLISECOND; UCAL_MILLISECONDS_IN_DAY]).
  { clear -H. destruct (bool_decide _) eqn:E in H; [apply bool_decide_eq_true, list_elem_of_In in E; cbn in *; tauto|].
    destruct (Z.eqb_spec field UCAL_MINUTE) as [->|]; [cbn; tauto|].
    destruct (Z.eqb_spec field UCAL_SECOND) as [->|]; [cbn; tauto|]. clear E.
    destruct (bool_decide _) eqn:E in H; [apply bool_decide_eq_true, list_elem_of_In in E; cbn in *; tauto|done]. }
  split; [|repeat case_match; simplify_eq; lia].
  intros vadd c n status Hn. unfold add. rewrite (proj2 (Z.eqb_neq n 0)) by done. cbn [In] in Hf.
  destruct_or! Hf; try done; subst field; vm_compute in H; injection H as <-; cbn [Z.eqb Pos.eqb bool_decide];
    unfold kOneHour, kOneMinute, kOneSecond; repeat rewrite bool_decide_eq_false_2 by (rewrite list_elem_of_In; cbn; intuition discriminate);
    rewrite ?bool_decide_eq_true_2 by (rewrite list_elem_of_In; cbn; tauto); eval_eqb;
    done.
Qed.

#[local] Abbreviation vadd := (addAt repeated skipped getType (S depth)).

(** Adding units to a time. *)
Lemma add_units c field unit s n :
  unit_of field = Some unit -> Z.abs s <= 10 ^ 15 -> Z.abs n <= 2 ^ 31 ->
  exists c', (let '(c, ec) := setTimeInMillis c (of_int s) U_ZERO_ERROR in vadd c field n ec) = Some (c', U_ZERO_ERROR) /\
    c'.(fTime) = of_int (s + n * unit) /\ c'.(fIsTimeSet) = true.
Proof.
  intros Hu Hs Hn. destruct (unit_of_cases field unit Hu) as [Hadd Hunit].
  destruct (setTimeInMillis_set c s ltac:(lia)) as (c1 & -> & Ht & Hset).
  cbn [addAt]. destruct (Z.eq_dec n 0) as [->|Hne].
  - exists c1. rewrite Z.add_0_r. done.
  - rewrite Hadd by done. replace (if unit =? 1 then _ else _) with (of_int (n * unit)).
    + apply add_millis_time; [done..|nia].
    + destruct (Z.eqb_spec unit 1) as [->|]; [by rewrite Z.mul_1_r|]. by rewrite dmul_int by nia.
Qed.

(** C34: [fieldDifference] for a field that counts hours, minutes, seconds or
    milliseconds, from a time within 10^15 ms: up to 2^30 units forward and 2^31
    backward it returns the number of whole units from the time of the calendar
    to the target, towards zero, and moves the calendar by it; the bisection does
    not overflow.  Beyond that the doubling [max <<= 1] leaves [int32_t] before
    the code tests for it, so the code has no defined result; the error it means
    to report for a difference that is no [int32_t] is never reached without that
    overflow. *)
Theorem fieldDifference_time c s T field unit :
  unit_of field = Some unit -> c.(fTime) = of_int s -> c.(fIsTimeSet) = true ->
  Z.abs s <= 10 ^ 15 ->
  let q := Z.quot (T - s) unit in
  if (- 2 ^ 31 * unit <=? T - s) && (T - s <=? 2 ^ 30 * unit) then
    exists c', fieldDifference repeated skipped vadd c (of_int T) field U_ZERO_ERROR = Some (q, c', U_ZERO_ERROR) /\
      c'.(fTime) = of_int (s + q * unit)
  else fieldDifference repeated skipped vadd c (of_int T) field U_ZERO_ERROR = None.
Proof.
  intros Hu Ht Hset Hs q. destruct (unit_of_cases field unit Hu) as [_ Hunit].
  unfold fieldDifference. cbn [U_FAILURE UErrorCode_value Z.ltb Z.compare].
  unfold getTimeInMillis. cbn [U_FAILURE UErrorCode_value Z.ltb Z.compare]. rewrite Hset. cbn [negb obind].
  cbn [U_FAILURE UErrorCode_value Z.ltb Z.compare]. cbn [obind]. rewrite Ht, !ClockMath.dlt_int.
  assert (Hspec : forall forward, 0 < signed forward (T - s) ->
    if 0 <? signed forward (T - (s + signed forward (farthest forward) * unit)) then
      difference repeated skipped vadd (of_int s) (of_int T) field forward c U_ZERO_ERROR = None
    else
      exists n c', difference repeated skipped vadd (of_int s) (of_int T) field forward c U_ZERO_ERROR =
        Some (signed forward n, c', U_ZERO_ERROR) /\
        0 <= n <= farthest forward /\
        signed forward (T - (s + signed forward (n + 1) * unit)) < 0 <= signed forward (T - (s + signed forward n * unit)) /\
        c'.(fTime) = of_int (s + signed forward n * unit) /\ c'.(fIsTimeSet) = true).
  { intros forward H0.
    apply (difference_spec repeated skipped vadd field s T forward (fun k => s + k * unit)).
    - intros c1 k Hk. apply add_units; [done..|]. rewrite farthest_value in Hk. unfold signed. destruct forward; cbv iota in *; lia.
    - intros k. unfold left_over, signed. destruct forward; cbv iota beta; nia.
    - unfold left_over. replace (s + signed forward 0 * unit) with s; [done|]. unfold signed. destruct forward; cbv iota; lia. }
  assert (Hq : forall forward n, 0 <= n -> 0 <= signed forward (T - (s + signed forward n * unit)) ->
    signed forward (T - (s + signed forward (n + 1) * unit)) < 0 -> q = signed forward n).
  { intros forward n Hn H1 H2. unfold q. destruct forward; unfold signed in *; cbv iota in *.
    - rewrite Z.quot_div_nonneg by lia. symmetry. apply (Z.div_unique_pos _ _ _ (T - s - n * unit)); lia.
    - replace (T - s) with (- (s - T)) by lia. rewrite Z.quot_opp_l, Z.quot_div_nonneg by lia. f_equal.
      symmetry. apply (Z.div_unique_pos _ _ _ (s - T - n * unit)); lia. }
  destruct (Z.ltb_spec s T); [|destruct (Z.ltb_spec T s)].
  - specialize (Hspec true ltac:(cbn; lia)). rewrite (farthest_value true) in Hspec. cbv iota beta in Hspec. unfold signed in Hspec at 1 2. cbv iota in Hspec.
    rewrite (proj2 (Z.leb_le (- 2 ^ 31 * unit) _)) by lia. cbn [andb].
    destruct (Z.ltb_spec 0 (T - (s + 2 ^ 30 * unit))).
    + rewrite (proj2 (Z.leb_gt _ _)) by lia. done.
    + rewrite (proj2 (Z.leb_le _ _)) by lia. destruct Hspec as (n & c' & Hd & Hn & [Hl1 Hl2] & Ht' & _).
      rewrite (Hq true n) by (done || (unfold signed; cbv iota; lia)). by exists c'.
  - specialize (Hspec false ltac:(cbn; lia)). rewrite (farthest_value false) in Hspec. cbv iota beta in Hspec. unfold signed in Hspec at 1 2. cbv iota in Hspec.
    rewrite (proj2 (Z.leb_le (T - s) _)) by lia. rewrite andb_true_r.
    destruct (Z.ltb_spec 0 (- (T - (s + - 2 ^ 31 * unit)))).
    + rewrite (proj2 (Z.leb_gt _ _)) by lia. done.
    + rewrite (proj2 (Z.leb_le _ _)) by lia. destruct Hspec as (n & c' & Hd & Hn & [Hl1 Hl2] & Ht' & _).
      rewrite (Hq false n) by (done || (unfold signed; cbv iota; lia)). by exists c'.
  - assert (T = s) as -> by lia. rewrite (proj2 (Z.leb_le _ _)), (proj2 (Z.leb_le _ _)) by lia. cbn [andb].
    destruct (add_units c field unit s 0 Hu Hs ltac:(lia)) as (c' & Hc' & Ht' & _).
    destruct (setTimeInMillis c (of_int s) U_ZERO_ERROR) as [c1 ec1]. rewrite Hc'. cbn [obind].
    exists c'. assert (q = 0) as -> by (unfold q; rewrite Z.sub_diag; apply Z.quot_0_l; lia). done.
Qed.
End Times.

(** A calendar at a time. *)
Definition calendar_at (t : Z) : Calendar := fst (setTimeInMillis (calendar_with []) (of_int t) U_ZERO_ERROR).

(** One day, one hour, one minute and 1.5 seconds later. *)
Lemma fieldDifference_time_witness :
  let c := calendar_at sample_time in
  let T := sample_time + 90061500 in
  unit_of UCAL_SECOND = Some 1000 /\ c.(fTime) = of_int sample_time /\ c.(fIsTimeSet) = true /\
  Z.abs sample_time <= 10 ^ 15 /\
  exists c', fieldDifference (C := CopticCalendar.system) (Z0 := fixed_zone 3600000) UCAL_WALLTIME_LAST UCAL_WALLTIME_LAST
    (addAt (C := CopticCalendar.system) (Z0 := fixed_zone 3600000) UCAL_WALLTIME_LAST UCAL_WALLTIME_LAST "coptic" 1)
    c (of_int T) UCAL_SECOND U_ZERO_ERROR = Some (90061, c', U_ZERO_ERROR) /\
    c'.(fTime) = of_int (sample_time + 90061 * 1000).
Proof.
  intros c T. assert (Ht : c.(fTime) = of_int sample_time) by (vm_compute; reflexivity).
  assert (Hs : c.(fIsTimeSet) = true) by (vm_compute; reflexivity).
  assert (H1 : unit_of UCAL_SECOND = Some 1000) by reflexivity.
  assert (H2 : Z.abs sample_time <= 10 ^ 15) by (vm_compute; discriminate).
  split; [exact H1|split; [exact Ht|split; [exact Hs|split; [exact H2|]]]].
  exact (fieldDifference_time (C := CopticCalendar.system) (Z0 := fixed_zone 3600000) UCAL_WALLTIME_LAST
    UCAL_WALLTIME_LAST "coptic" 0 c sample_time T UCAL_SECOND 1000 H1 Ht Hs H2).
Defined.
