(* ===== verification/CalendarAdd.v ===== *)
(** * Adding days and months (i18n/calendar.cpp)

    What [add] of CalendarArithmetic.v does to the date and the time of the day:
    adding days keeps the time of the day across a change of the offset of the
    zone, adding months keeps the day of the month or takes the last one.
    [fresh] describes a calendar after [setTimeInMillis], [edited] one whose
    computed fields have been changed by [set]. *)
From S2P Require Import Prelude Int32 Double Grego Calendar CalendarSystem CECalendar CopticCalendar CalendarFields CalendarDays CalendarTime CalendarArithmetic.
From stdpp Require Import strings.
Local Open Scope Z_scope.

(** ** Adding days *)

Section Days.
Context {C : CalendarSystem} {L : MonthLayout} {lo hi : Z}.
Context {I : Implements C L lo hi} {B : WeekBounds L lo hi}.
Context {Z0 : TimeZone} (repeated skipped : UCalendarWallTimeOption) (getType : string) (depth : nat).

(** A time in range at which the zone has the offset [raw + dst] and that is
    neither repeated nor skipped. *)
Record known_time (t raw dst : Z) : Prop := {
  kt_range : Z.abs t < 2 ^ 51;
  kt_regular : regular_time t raw dst;
  kt_day : start (lo + 1) 0 < local_day t raw dst <= start (hi - 1) 0
}.

(** A calendar with a time, whose fields are not computed. *)
Record fresh (c : Calendar) (t : Z) : Prop := {
  fr_weeks : weeks_ok c;
  fr_time : c.(fTime) = of_int t;
  fr_time_set : c.(fIsTimeSet) = true;
  fr_fields_set : c.(fAreFieldsSet) = false
}.

Lemma setTimeInMillis_fresh c t :
  weeks_ok c -> Z.abs t < 2 ^ 53 ->
  exists c', setTimeInMillis c (of_int t) U_ZERO_ERROR = (c', U_ZERO_ERROR) /\ fresh c' t /\
    c'.(fNextStamp) = c.(fNextStamp) /\ c'.(fLenient) = c.(fLenient).
Proof.
  intros Hc Ht. unfold setTimeInMillis. cbn [U_FAILURE UErrorCode_value Z.ltb Z.compare].
  rewrite MAX_MILLIS_int, MIN_MILLIS_int, !ClockMath.dlt_int.
  rewrite (proj2 (Z.ltb_ge _ t)), (proj2 (Z.ltb_ge t _))
    by (unfold MAX_JULIAN, MIN_JULIAN, kEpochStartAsJulianDay; lia).
  cbn [orb andb]. eexists. split; [done|]. split; [by constructor|done].
Qed.

(** The fields of a fresh calendar. *)
Lemma get_fresh c t raw dst :
  fresh c t -> known_time t raw dst ->
  exists c1 y m d yw,
    (forall field, get repeated skipped c field U_ZERO_ERROR = Some (c1.(fFields) field, c1, U_ZERO_ERROR)) /\
    (forall field, get repeated skipped c1 field U_ZERO_ERROR = Some (c1.(fFields) field, c1, U_ZERO_ERROR)) /\
    complete repeated skipped c U_ZERO_ERROR = Some (c1, U_ZERO_ERROR) /\
    complete repeated skipped c1 U_ZERO_ERROR = Some (c1, U_ZERO_ERROR) /\
    date_computed c c1 (local_day t raw dst) y m d yw /\ time_fields c1 (local_millis t raw dst) raw dst /\
    lo < y /\ y + 1 < hi.
Proof.
  intros [Hc Ht Hs Hf] [Hr Hz Hday].
  destruct (computeFields_spec (Z0:=Z0) c Hc t raw dst Hr Hz Hday Ht) as (c1 & y & m & d & yw & Hcf & Hdc & Htf & Hlo & Hhi & Hyw).
  set (c2 := with_flags c1 c1.(fIsTimeSet) true true c1.(fAreFieldsVirtuallySet)).
  assert (Hdc' : date_computed c c2 (local_day t raw dst) y m d yw) by by apply date_computed_flags.
  assert (Htf' : time_fields c2 (local_millis t raw dst) raw dst) by (destruct Htf; by constructor).
  assert (Hs2 : fIsTimeSet c2 = true) by (destruct (dc_rest _ _ _ _ _ _ _ Hdc) as (_ & _ & _ & _ & _ & E & _); cbn; by rewrite E).
  assert (H1 : complete repeated skipped c U_ZERO_ERROR = Some (c2, U_ZERO_ERROR)).
  { unfold complete. rewrite Hs. cbn [negb obind andb]. rewrite Hs, Hf. cbn [negb obind andb]. by rewrite Hcf. }
  assert (H2 : complete repeated skipped c2 U_ZERO_ERROR = Some (c2, U_ZERO_ERROR)).
  { unfold complete. rewrite Hs2. cbn [negb obind andb]. by rewrite Hs2. }
  exists c2, y, m, d, yw. split; [|split; [|done]]; intros field; unfold get; cbn [U_SUCCESS UErrorCode_value Z.leb Z.compare];
    by rewrite ?H1, ?H2.
Qed.

Lemma known_offset t raw dst : known_time t raw dst -> is_int32 (raw + dst).
Proof. intros [_ Hz _]. apply Hz. Qed.

(** The offset fields of a completed calendar. *)
Lemma get_offset c1 mid raw dst :
  time_fields c1 mid raw dst -> is_int32 (raw + dst) ->
  (c1.(fFields) UCAL_DST_OFFSET +! c1.(fFields) UCAL_ZONE_OFFSET) = Some (raw + dst).
Proof.
  intros [] Hb. rewrite tf_zone, tf_dst. unfold int. rewrite iadd_ok by (rewrite Z.add_comm; done). f_equal. lia.
Qed.

(** The time that [keep_wall_time] finds from the time [n] days after a time
    with the offset [o]: that with the same time of the day. *)
Lemma keep_wall_time_spec c t n o raw1 dst1 raw2 dst2 :
  let t1 := t + n * 86400000 in
  let t2 := t1 + (o - (raw1 + dst1)) in
  fresh c t1 -> known_time t1 raw1 dst1 -> known_time t2 raw2 dst2 ->
  raw2 + dst2 = raw1 + dst1 -> Z.abs (o - (raw1 + dst1)) < 86400000 -> is_int32 o ->
  exists c', keep_wall_time repeated skipped c o ((t + o) mod 86400000) U_ZERO_ERROR = Some (c', U_ZERO_ERROR) /\
    c'.(fTime) = of_int t2.
Proof.
  intros t1 t2 Hf K1 K2 Ho Hsmall Hio. pose proof (known_offset _ _ _ K1) as Hio1.
  destruct (get_fresh c t1 raw1 dst1 Hf K1) as (c1 & y & m & d & yw & Hg & Hg' & _ & _ & Hdc & Htf & _).
  unfold keep_wall_time. rewrite Hg. cbn [obind]. rewrite (tf_millis _ _ _ _ Htf).
  assert (Htime : fTime c1 = of_int t1) by (destruct (dc_rest _ _ _ _ _ _ _ Hdc) as (_ & _ & _ & -> & _); apply Hf).
  assert (Hdiv : (t1 + (raw1 + dst1)) mod 86400000 = (t + o) mod 86400000 -> o = raw1 + dst1).
  { unfold t1. clear - Hsmall. intros. dlia. }
  unfold local_millis. destruct (Z.eqb_spec ((t1 + (raw1 + dst1)) mod 86400000) ((t + o) mod 86400000)) as [Heq|Hne].
  - exists c1. split; [done|]. rewrite Htime. f_equal. unfold t2. apply Hdiv in Heq. lia.
  - cbn [negb]. rewrite !Hg'. cbn [obind]. rewrite Hg'. cbn [obind]. rewrite (get_offset _ _ _ _ Htf) by done. cbn [obind].
    assert (raw1 + dst1 <> o) by (intros E; apply Hne; unfold t1; rewrite E; clear; dlia).
    rewrite (proj2 (Z.eqb_neq _ _)) by done. cbn [negb]. unfold int, is_int32, INT32_MIN, INT32_MAX in *.
    rewrite isub_ok by ibound. cbn [obind]. set (adj := o - (raw1 + dst1)) in *.
    replace (if adj >=? 0 then _ else _) with (Some adj).
    2:{ rewrite Z.geb_leb. destruct (Z.leb_spec 0 adj).
        - rewrite imod_nonneg by ibound. f_equal. rewrite Z.mod_small; lia.
        - rewrite isub_ok by ibound. rewrite imod_nonneg by ibound. cbn [obind]. rewrite Z.mod_small by lia.
          rewrite isub_ok by ibound. f_equal. lia. }
    cbn [obind]. rewrite (proj2 (Z.eqb_neq adj 0)) by (unfold adj; lia). cbn [negb]. rewrite Htime.
    destruct K1 as [Hr1 _ _]. rewrite dadd_int by lia. fold t2.
    assert (Hw : weeks_ok c1) by (destruct (dc_rest _ _ _ _ _ _ _ Hdc) as (E1 & E2 & _); unfold weeks_ok; rewrite E1, E2; apply Hf).
    destruct (setTimeInMillis_fresh c1 t2 Hw ltac:(unfold t2; lia)) as (c2 & -> & Hf2 & _).
    destruct (get_fresh c2 t2 raw2 dst2 Hf2 K2) as (c3 & y3 & m3 & d3 & yw3 & Hg3 & _ & _ & _ & Hdc3 & Htf3 & _).
    rewrite Hg3. cbn [obind]. rewrite (tf_millis _ _ _ _ Htf3).
    assert (local_millis t2 raw2 dst2 = (t + o) mod 86400000) as ->.
    { unfold local_millis, t2, t1, adj. rewrite Ho. clear. dlia. }
    rewrite Z.eqb_refl. cbn [negb]. exists c3. split; [done|].
    destruct (dc_rest _ _ _ _ _ _ _ Hdc3) as (_ & _ & _ & -> & _). apply Hf2.
Qed.

#[local] Abbreviation vadd := (addAt repeated skipped getType (S depth)).

(** Adding days keeps the time of the day: the result is [n] local days
    later, at the same local time, although the offset of the zone may have
    changed on the way. *)
Theorem add_days_keeps_wall_time c t n raw dst raw1 dst1 raw2 dst2 field :
  let t1 := t + n * 86400000 in
  let t2 := t1 + ((raw + dst) - (raw1 + dst1)) in
  fresh c t -> field ∈ [UCAL_DAY_OF_MONTH; UCAL_DAY_OF_YEAR; UCAL_DAY_OF_WEEK; UCAL_DOW_LOCAL; UCAL_JULIAN_DAY] ->
  known_time t raw dst -> known_time t1 raw1 dst1 -> known_time t2 raw2 dst2 ->
  raw2 + dst2 = raw1 + dst1 -> Z.abs ((raw + dst) - (raw1 + dst1)) < 86400000 ->
  exists c', vadd c field n U_ZERO_ERROR = Some (c', U_ZERO_ERROR) /\ c'.(fTime) = of_int t2 /\
    local_day t2 raw2 dst2 = local_day t raw dst + n /\ local_millis t2 raw2 dst2 = local_millis t raw dst.
Proof.
  intros t1 t2 Hf Hfield K K1 K2 Ho Hsmall.
  enough (exists c', vadd c field n U_ZERO_ERROR = Some (c', U_ZERO_ERROR) /\ c'.(fTime) = of_int t2) as (c' & Hc' & Ht').
  { exists c'. split; [done|]. split; [done|]. unfold local_day, local_millis, t2, t1. rewrite Ho. split; [dlia|].
    clear. dlia. }
  cbn [addAt]. unfold add. destruct (Z.eqb_spec n 0) as [->|Hn].
  - exists c. split; [done|]. rewrite (fr_time _ _ Hf). f_equal.
    pose proof (rt_gmt _ _ _ (kt_regular _ _ _ K)) as E. pose proof (rt_gmt _ _ _ (kt_regular _ _ _ K1)) as E1.
    unfold t2. replace t1 with t in * by (unfold t1; lia). rewrite E in E1. injection E1 as -> ->. lia.
  - match goal with |- exists c', ?e = _ /\ _ => assert (Hadd : e = add_millis repeated skipped c (dmul (of_int n) kOneDay) true U_ZERO_ERROR) end.
    { rewrite list_elem_of_In in Hfield. cbn [In] in Hfield. destruct_or! Hfield; try done; subst field;
        repeat rewrite bool_decide_eq_false_2 by (rewrite list_elem_of_In; cbn; intuition discriminate);
        rewrite bool_decide_eq_true_2 by (rewrite list_elem_of_In; cbn; tauto); eval_eqb; done. }
    rewrite Hadd. clear Hadd. unfold add_millis.
    destruct (get_fresh c t raw dst Hf K) as (c1 & y & m & d & yw & Hg & Hg' & _ & _ & Hdc & Htf & _).
    rewrite Hg. cbn [obind]. rewrite Hg'. cbn [obind]. rewrite (get_offset _ _ _ _ Htf) by by eapply known_offset.
    cbn [obind]. rewrite Hg'. cbn [obind]. rewrite (tf_millis _ _ _ _ Htf).
    destruct (dc_rest _ _ _ _ _ _ _ Hdc) as (E1 & E2 & _ & Et & _ & Es & _).
    unfold getTimeInMillis. cbn [U_FAILURE UErrorCode_value Z.ltb Z.compare].
    rewrite Es, (fr_time_set _ _ Hf). cbn [negb obind]. cbn [U_FAILURE UErrorCode_value Z.ltb Z.compare]. cbn [obind].
    rewrite Et, (fr_time _ _ Hf). pose proof (kt_range _ _ _ K). pose proof (kt_range _ _ _ K1).
    unfold kOneDay, Grego.U_MILLIS_PER_DAY. rewrite dmul_int, dadd_int by (unfold t1 in *; lia). fold t1.
    assert (Hw : weeks_ok c1) by (unfold weeks_ok; rewrite E1, E2; apply Hf).
    destruct (setTimeInMillis_fresh c1 t1 Hw ltac:(lia)) as (c2 & -> & Hf2 & _).
    apply (keep_wall_time_spec c2 t n (raw + dst) raw1 dst1 raw2 dst2); try done. by eapply known_offset.
Qed.
End Days.

(** ** Adding months *)

(** [c] is [c1], whose fields the library has set, after [set] of the fields of
    [l]. *)
Record edited (l : list Z) (c1 c : Calendar) : Prop := {
  ed_stamps : stamps_ok c;
  ed_fields f : f ∈ l -> is_field f;
  ed_same f : f ∉ l -> c.(fFields) f = c1.(fFields) f;
  ed_internal f : is_field f -> f ∉ l -> c.(fStamp) f = kInternallySet;
  ed_set f : f ∈ l -> kMinimumUserStamp <= c.(fStamp) f;
  ed_newest f g l' : l = f :: l' -> is_field g -> g <> f -> c.(fStamp) g < c.(fStamp) f;
  ed_weeks : c.(fFirstDayOfWeek) = c1.(fFirstDayOfWeek) /\ c.(fMinimalDaysInFirstWeek) = c1.(fMinimalDaysInFirstWeek);
  ed_virtual : c.(fAreFieldsVirtuallySet) = false;
  ed_time_set : c.(fIsTimeSet) = false;
  ed_fields_set : c.(fAreFieldsSet) = false
}.

Lemma set_stamped_rest c f v :
  let c' := set_stamped c f v in
  c'.(fFirstDayOfWeek) = c.(fFirstDayOfWeek) /\ c'.(fMinimalDaysInFirstWeek) = c.(fMinimalDaysInFirstWeek) /\
  c'.(fLenient) = c.(fLenient) /\ c'.(fAreFieldsVirtuallySet) = false /\ c'.(fIsTimeSet) = false /\
  c'.(fAreFieldsSet) = false.
Proof.
  unfold set_stamped. destruct (_ =? STAMP_MAX); [|done]. unfold recalculateStamp.
  by destruct (recalculate_loop _ _ _).
Qed.

(** The first [set] after the library has set the fields. *)
Lemma edit_first c1 f v :
  (forall g, is_field g -> c1.(fStamp) g = kInternallySet) -> kMinimumUserStamp <= c1.(fNextStamp) <= STAMP_MAX ->
  is_field f ->
  edited [f] c1 (set_stamped c1 f v) /\ (set_stamped c1 f v).(fFields) f = v.
Proof.
  intros Hst Hn Hf. assert (Hok : stamps_ok c1).
  { unfold stamps_ok, kMinimumUserStamp in *. split; [done|split].
    - intros i Hi. rewrite Hst by done. unfold kInternallySet. lia.
    - intros i j Hi Hj. rewrite !Hst by done. unfold kInternallySet. lia. }
  destruct (set_stamped_newest c1 f v Hok Hf) as (Hok' & Hv & Hother & Hnew & Hlt & Hz & _).
  destruct (set_stamped_rest c1 f v) as (? & ? & ? & ? & ? & ?). split; [|done]. constructor; try done.
  - intros g Hg. by apply list_elem_of_singleton in Hg as ->.
  - intros g Hg. apply Hother. intros ->. apply Hg. by left.
  - intros g Hg Hne. apply Hz; [|by apply Hst]. split; [done|]. intros ->. apply Hne. by left.
  - intros g Hg. apply list_elem_of_singleton in Hg as ->. done.
  - intros g h l' [= <- <-]. apply Hlt.
Qed.

(** Further calls. *)
Lemma edit_next l c1 c f v :
  edited l c1 c -> is_field f ->
  edited (f :: l) c1 (set_stamped c f v) /\ (set_stamped c f v).(fFields) f = v /\
  (forall g, g <> f -> (set_stamped c f v).(fFields) g = c.(fFields) g) /\
  (set_stamped c f v).(fLenient) = c.(fLenient).
Proof.
  intros [Hok Hfl Hsame Hint Hset Hnewest [Hw1 Hw2] Hvirt _ _] Hf.
  destruct (set_stamped_newest c f v Hok Hf) as (Hok' & Hv & Hother & Hnew & Hlt & Hz & Hord).
  destruct (set_stamped_rest c f v) as (E1 & E2 & E3 & E4 & E5 & E6).
  split; [|split; [done|split; [done|done]]].
  constructor; try done; try (split; congruence).
  - intros g Hg. rewrite elem_of_cons in Hg. destruct Hg as [->|]; auto.
  - intros g Hg. rewrite not_elem_of_cons in Hg. rewrite Hother by tauto. apply Hsame. tauto.
  - intros g Hg Hne. rewrite not_elem_of_cons in Hne. apply Hz; [tauto|]. apply Hint; tauto.
  - intros g Hg. destruct (Z.eq_dec g f) as [->|Hne]; [done|]. rewrite elem_of_cons in Hg. destruct Hg as [|Hg]; [done|].
    destruct (Hz g) as [H0 H1]; [by auto|]. specialize (Hset g Hg).
    destruct Hok' as (_ & Hpos & _). specialize (Hpos g (Hfl g Hg)).
    unfold kUnset, kInternallySet, kMinimumUserStamp in *. lia.
  - intros g h l' [= <- <-]. apply Hlt.
Qed.

Section Months.
Context {C : CalendarSystem} {L : MonthLayout} {lo hi : Z}.
Context {I : Implements C L lo hi} {B : WeekBounds L lo hi}.
Context {Z0 : TimeZone} (repeated skipped : UCalendarWallTimeOption) (getType : string) (depth : nat).

#[local] Abbreviation known_time := (known_time (lo:=lo) (hi:=hi)).

Lemma set_edited l c1 c f v : edited l c1 c -> set c f v = Some (set_stamped c f v).
Proof. intros H. unfold set. by rewrite (ed_virtual _ _ _ H). Qed.

(** A calendar whose fields are the date [y], [m], [d] of a local day and a time
    of the day, all set by the library. *)
Record at_date (c1 : Calendar) (jd mid y m d : Z) : Prop := {
  ad_weeks : weeks_ok c1;
  ad_valid : valid_date y m d;
  ad_day : start y m + d = jd;
  ad_range : lo < y /\ y + 1 < hi;
  ad_year : c1.(fFields) UCAL_EXTENDED_YEAR = y;
  ad_month : c1.(fFields) UCAL_MONTH = m;
  ad_dom : c1.(fFields) UCAL_DAY_OF_MONTH = d;
  ad_mid : 0 <= mid < 86400000;
  ad_time : exists raw dst, time_fields c1 mid raw dst;
  ad_stamps f : is_field f -> c1.(fStamp) f = kInternallySet
}.

(** The time of a calendar after edits of the month, the date and the time of
    the day. *)
Lemma updateTime_edited l c1 c jd mid y m d s t raw dst :
  at_date c1 jd mid y m d -> edited l c1 c -> (forall f, f ∈ l -> set_by_month f = true) ->
  (UCAL_MILLISECONDS_IN_DAY ∈ l -> c.(fFields) UCAL_MILLISECONDS_IN_DAY = local_millis t raw dst) ->
  (UCAL_MILLISECONDS_IN_DAY ∉ l -> mid = local_millis t raw dst) ->
  handleComputeMonthStart y (c.(fFields) UCAL_MONTH) = Some s ->
  s + c.(fFields) UCAL_DATE = local_day t raw dst ->
  known_time t raw dst -> c.(fLenient) = true ->
  exists c', updateTime repeated skipped c U_ZERO_ERROR = Some (c', U_ZERO_ERROR) /\ fresh c' t.
Proof.
  intros Hat Hed Hl Hms1 Hms2 Hs Hjd [Hr Hz Hday] Hlen.
  assert (Hint : forall f, is_field f -> set_by_month f = false -> fStamp c f = kInternallySet).
  { intros f Hf Hn. apply (ed_internal _ _ _ Hed); [done|]. intros Hin. apply Hl in Hin. congruence. }
  assert (Hge : forall f, is_field f -> kInternallySet <= fStamp c f).
  { intros f Hf. destruct (decide (f ∈ l)) as [Hin|Hout].
    - apply (ed_set _ _ _ Hed) in Hin. unfold kMinimumUserStamp, kInternallySet in *. lia.
    - rewrite (ed_internal _ _ _ Hed f Hf Hout). done. }
  assert (Hmid : 0 <= local_millis t raw dst < 86400000) by (unfold local_millis; dlia).
  assert (fFields c UCAL_EXTENDED_YEAR = y) as Hy.
  { rewrite (ed_same _ _ _ Hed); [apply Hat|]. intros Hin%Hl. by vm_compute in Hin. }
  set (c2 := internalSet c UCAL_EXTENDED_YEAR y).
  assert (Hst2 : forall f, f <> UCAL_EXTENDED_YEAR -> fStamp c2 f = fStamp c f) by (intros f Hf; cbn; by apply fset_ne).
  assert (Hf2 : forall f, f <> UCAL_EXTENDED_YEAR -> fFields c2 f = fFields c f) by (intros f Hf; cbn; by apply fset_ne).
  unfold updateTime. rewrite (computeTime_local (lo:=lo) (hi:=hi) repeated skipped t raw dst Hr Hz Hday c c2).
  - cbn [obind U_FAILURE UErrorCode_value Z.ltb Z.compare]. cbn [with_time fLenient c2 internalSet with_stamps set_field with_fields].
    rewrite Hlen. cbn [orb]. eexists. split; [done|]. constructor; cbn; try done.
    destruct (ed_weeks _ _ _ Hed) as [E1 E2]. unfold weeks_ok. cbn. rewrite E1, E2. apply Hat.
  - by rewrite Hlen.
  - pose proof (local_day_bounds (lo:=lo) (hi:=hi) t raw dst Hday) as Hb.
    rewrite (computeJulianDay_month (lo:=lo) (hi:=hi) c s), Hy, Hjd; try done.
    + apply Hge. by vm_compute.
    + apply Hge. by vm_compute.
    + by rewrite Hy.
    + rewrite Hjd. unfold is_int32, INT32_MIN, INT32_MAX. lia.
  - unfold internalGet. rewrite ?Hst2, ?Hf2 by done.
    destruct (decide (UCAL_MILLISECONDS_IN_DAY ∈ l)) as [Hin|Hout].
    + pose proof (ed_set _ _ _ Hed _ Hin) as Hms. rewrite Z.geb_leb, (proj2 (Z.leb_le _ _)) by done.
      assert (newestStamp c2 UCAL_AM_PM UCAL_MILLISECOND kUnset = kInternallySet) as ->.
      { unfold newestStamp. change (seqZ _ _) with [9; 10; 11; 12; 13; 14].
        cbn [foldl]. rewrite !Hst2 by done. by rewrite !Hint by (done || (vm_compute; intuition congruence)). }
      rewrite (proj2 (Z.leb_le _ _)) by (unfold kInternallySet, kMinimumUserStamp in *; lia). cbn [andb].
      by rewrite Hms1.
    + rewrite (ed_internal _ _ _ Hed UCAL_MILLISECONDS_IN_DAY ltac:(vm_compute; intuition congruence) Hout). cbn [kInternallySet kMinimumUserStamp Z.geb Z.compare Pos.compare Pos.compare_cont andb].
      assert (Htime_out : forall f, is_time_field f = true -> f ∉ l).
      { intros f Hf Hin. apply Hl in Hin as Hm. unfold set_by_month in Hm.
        rewrite !orb_true_iff, !Z.eqb_eq in Hm. destruct Hm as [[-> | ->] | ->]; by vm_compute in Hf. }
      rewrite <- Hms2 by done. destruct (ad_time _ _ _ _ _ _ Hat) as (r & ds & Htf).
      apply (computeMillisInDay_spec t r ds); [|apply Hat|].
      * intros f Hf. rewrite Hst2 by (intros ->; by vm_compute in Hf).
        apply (ed_internal _ _ _ Hed); [by apply is_time_field_field|by apply Htime_out].
      * assert (Hsame : forall f, is_time_field f = true -> fFields c2 f = fFields c1 f).
        { intros f Hf. rewrite Hf2 by (intros ->; by vm_compute in Hf). by apply (ed_same _ _ _ Hed), Htime_out. }
        destruct Htf. constructor; by rewrite Hsame.
  - rewrite Hst2 by done. by apply Hint.
  - rewrite Hst2 by done. by apply Hint.
Qed.

Lemma complete_updated c c' t :
  c.(fIsTimeSet) = false -> updateTime repeated skipped c U_ZERO_ERROR = Some (c', U_ZERO_ERROR) -> fresh c' t ->
  complete repeated skipped c U_ZERO_ERROR = complete repeated skipped c' U_ZERO_ERROR.
Proof.
  intros Hs Hu Hf. unfold complete. rewrite Hs, (fr_time_set _ _ Hf). cbn [negb]. rewrite Hu. cbn [obind].
  by rewrite (fr_time_set _ _ Hf).
Qed.

(** The first [set] after [complete]. *)
Lemma set_completed c t raw dst :
  fresh c t -> known_time t raw dst -> kMinimumUserStamp <= c.(fNextStamp) <= STAMP_MAX ->
  exists c1 y m d,
    (forall field, get repeated skipped c field U_ZERO_ERROR = Some (c1.(fFields) field, c1, U_ZERO_ERROR)) /\
    at_date c1 (local_day t raw dst) (local_millis t raw dst) y m d /\
    forall f v, is_field f -> exists c1',
      at_date c1' (local_day t raw dst) (local_millis t raw dst) y m d /\
      set c1 f v = Some (set_stamped c1' f v) /\ edited [f] c1' (set_stamped c1' f v) /\
      (set_stamped c1' f v).(fFields) f = v /\ (set_stamped c1' f v).(fLenient) = c.(fLenient).
Proof.
  intros Hf K Hnext. pose proof K as [Hr Hz Hday].
  destruct (get_fresh (lo:=lo) (hi:=hi) repeated skipped c t raw dst Hf K)
    as (c1 & y & m & d & yw & Hg & _ & _ & _ & Hdc & Htf & Hlo & Hhi).
  assert (Hmid : 0 <= local_millis t raw dst < 86400000) by (unfold local_millis; dlia).
  assert (Hat : forall c0 c1 yw, weeks_ok c0 -> date_computed c0 c1 (local_day t raw dst) y m d yw ->
    time_fields c1 (local_millis t raw dst) raw dst -> at_date c1 (local_day t raw dst) (local_millis t raw dst) y m d).
  { intros c2 c3 yw3 Hw Hd Htf3. destruct (dc_rest _ _ _ _ _ _ _ Hd) as (E1 & E2 & _).
    constructor; try apply Hd; try done; [unfold weeks_ok; by rewrite E1, E2|by exists raw, dst]. }
  destruct (dc_rest _ _ _ _ _ _ _ Hdc) as (E1 & E2 & E3 & E4 & E5 & E6 & E7).
  pose proof (fr_weeks _ _ Hf) as Hwc.
  exists c1, y, m, d. split; [done|]. split; [by apply (Hat c c1 yw)|]. intros f v Hff.
  assert (Hw1 : weeks_ok c1) by (unfold weeks_ok; by rewrite E1, E2).
  assert (Hcase : exists c1', set c1 f v = Some (set_stamped c1' f v) /\
    at_date c1' (local_day t raw dst) (local_millis t raw dst) y m d /\ fLenient c1' = fLenient c /\
    fNextStamp c1' = fNextStamp c).
  { unfold set. destruct (fAreFieldsVirtuallySet c1).
    - destruct (computeFields_spec c1 Hw1 t raw dst Hr Hz Hday) as (c2 & y2 & m2 & d2 & yw2 & Hcf & Hdc2 & Htf2 & _);
        [rewrite E4; apply Hf|].
      rewrite Hcf. cbn [obind]. exists c2. split; [done|].
      destruct (date_unique y2 m2 d2 y m d) as (-> & -> & ->); [apply Hdc2|apply Hdc| |].
      { rewrite (dc_day _ _ _ _ _ _ _ Hdc), (dc_day _ _ _ _ _ _ _ Hdc2). done. }
      destruct (dc_rest _ _ _ _ _ _ _ Hdc2) as (_ & _ & F3 & _ & F5 & _).
      split; [by apply (Hat c1 c2 yw2)|]. by rewrite F3, F5.
    - exists c1. split; [done|]. split; [by apply (Hat c c1 yw)|done]. }
  destruct Hcase as (c1' & Hset & Hat1 & Hlen & Hns). exists c1'. split; [done|]. split; [done|].
  destruct (edit_first c1' f v) as [He Hv]; [apply Hat1|by rewrite Hns|done|].
  split; [done|]. split; [done|]. by destruct (set_stamped_rest c1' f v) as (_ & _ & -> & _).
Qed.

Lemma edited_lenient l c1 c b : edited l c1 c -> edited l c1 (setLenient c b).
Proof. intros []. by constructor. Qed.

Context (Hgm : handleGetLimit UCAL_DAY_OF_MONTH UCAL_LIMIT_GREATEST_MINIMUM = Some 1).
Context (Hmin : handleGetLimit UCAL_DAY_OF_MONTH UCAL_LIMIT_MINIMUM = Some 1).
Context (vadd : Calendar -> Z -> Z -> UErrorCode -> option State).

Lemma day_limits c : getGreatestMinimum c UCAL_DATE = Some 1 /\ getMinimum c UCAL_DATE = Some 1.
Proof. by split. Qed.

(** The last day of the month that [set] has chosen. *)
Lemma month_maximum c1 c jd mid y m d y' m' tm raw dst :
  at_date c1 jd mid y m d -> edited [UCAL_MONTH] c1 c ->
  handleComputeMonthStart y (c.(fFields) UCAL_MONTH) = Some (start y' m') -> has_month y' m' = true ->
  known_time tm raw dst -> local_day tm raw dst = start y' m' + 1 -> local_millis tm raw dst = 0 ->
  getActualMaximum repeated skipped vadd c UCAL_DATE U_ZERO_ERROR = Some (CalendarSystem.length y' m', U_ZERO_ERROR).
Proof.
  intros Hat Hed Hs Hm' K Hday Hms. unfold getActualMaximum. eval_eqb.
  cbn [U_FAILURE UErrorCode_value Z.ltb Z.compare]. unfold prepareGetActual.
  apply (edited_lenient _ _ _ true) in Hed. set (c2 := setLenient c true) in *.
  assert (Hm2 : fFields c2 UCAL_MONTH = fFields c UCAL_MONTH) by done. assert (Hlen : fLenient c2 = true) by done.
  clearbody c2. rewrite (set_edited _ _ _ _ _ Hed). cbn [obind].
  destruct (edit_next _ _ _ UCAL_MILLISECONDS_IN_DAY 0 Hed ltac:(by vm_compute)) as (Hed3 & Hv3 & Ho3 & Hl3).
  set (c3 := set_stamped c2 UCAL_MILLISECONDS_IN_DAY 0) in *. clearbody c3.
  repeat rewrite bool_decide_eq_false_2 by (rewrite list_elem_of_In; cbn; intuition discriminate). eval_eqb.
  cbn [obind]. unfold set_greatest_minimum. rewrite (proj1 (day_limits c3)). cbn [obind].
  rewrite (set_edited _ _ _ _ _ Hed3). cbn [obind].
  destruct (edit_next _ _ _ UCAL_DATE 1 Hed3 ltac:(by vm_compute)) as (Hed4 & Hv4 & Ho4 & Hl4).
  set (c4 := set_stamped c3 UCAL_DATE 1) in *. clearbody c4.
  destruct (updateTime_edited _ c1 c4 jd mid y m d (start y' m') tm raw dst Hat Hed4) as (c5 & Hu & Hf5).
  - intros f Hf. rewrite !elem_of_cons in Hf. destruct Hf as [->|[->|[->|Hf]]]; [done..|]. by apply not_elem_of_nil in Hf.
  - intros _. rewrite Ho4, Hv3 by done. done.
  - intros Hout. exfalso. apply Hout. rewrite !elem_of_cons. auto.
  - by rewrite Ho4, Ho3, Hm2 by done.
  - rewrite Hv4. lia.
  - done.
  - congruence.
  - destruct (get_fresh (lo:=lo) (hi:=hi) repeated skipped c5 tm raw dst Hf5 K)
      as (c6 & y6 & m6 & d6 & yw6 & Hg & Hg' & _ & _ & Hdc & _ & Hlo & Hhi).
    assert (Hget : get repeated skipped c4 UCAL_EXTENDED_YEAR U_ZERO_ERROR =
                   Some (fFields c6 UCAL_EXTENDED_YEAR, c6, U_ZERO_ERROR)).
    { rewrite <- Hg. unfold get. cbn [U_SUCCESS UErrorCode_value Z.leb Z.compare].
      by rewrite (complete_updated c4 c5 tm (ed_time_set _ _ _ Hed4) Hu Hf5). }
    rewrite Hget. cbn [obind]. rewrite Hg'. cbn [obind].
    pose proof (length_pos y' m' Hm').
    destruct (date_unique y6 m6 d6 y' m' 1) as (-> & -> & _);
      [apply Hdc|split; [done|lia]|rewrite (dc_day _ _ _ _ _ _ _ Hdc); lia|].
    rewrite (dc_year _ _ _ _ _ _ _ Hdc), (dc_month _ _ _ _ _ _ _ Hdc).
    rewrite (month_length_ok (lo:=lo) (hi:=hi)) by (lia || done). done.
Qed.

Lemma fresh_lenient c t b : fresh c t -> fresh (setLenient c b) t.
Proof. intros []. by constructor. Qed.

(** [pinField] leaves the smaller of the day and the last day of the month. *)
Lemma pin_day c1 c jd mid y m d len :
  at_date c1 jd mid y m d -> edited [UCAL_MONTH] c1 c -> 1 <= len ->
  getActualMaximum repeated skipped vadd c UCAL_DATE U_ZERO_ERROR = Some (len, U_ZERO_ERROR) ->
  exists l c', pinField repeated skipped vadd c UCAL_DAY_OF_MONTH U_ZERO_ERROR = Some (c', U_ZERO_ERROR) /\
    edited l c1 c' /\ (forall f, f ∈ l -> f = UCAL_MONTH \/ f = UCAL_DATE) /\
    c'.(fFields) UCAL_MONTH = c.(fFields) UCAL_MONTH /\ c'.(fFields) UCAL_DATE = Z.min d len /\
    c'.(fLenient) = c.(fLenient).
Proof.
  intros Hat Hed Hlen Hmax. unfold pinField, getActualMinimum. change UCAL_DAY_OF_MONTH with UCAL_DATE.
  rewrite Hmax. cbn [obind]. rewrite (proj1 (day_limits c)), (proj2 (day_limits c)). cbn [obind Z.eqb Pos.eqb].
  assert (Hd : fFields c UCAL_DATE = d).
  { rewrite (ed_same _ _ _ Hed); [apply Hat|]. intros Hin%list_elem_of_singleton. discriminate. }
  rewrite Hd, Z.gtb_ltb. destruct (Z.ltb_spec len d).
  - rewrite (set_edited _ _ _ _ _ Hed). cbn [obind].
    destruct (edit_next _ _ _ UCAL_DATE len Hed ltac:(by vm_compute)) as (Hed2 & Hv & Ho & Hl).
    exists [UCAL_DATE; UCAL_MONTH], (set_stamped c UCAL_DATE len). split; [done|]. split; [done|].
    split; [intros f; rewrite elem_of_cons, list_elem_of_singleton; tauto|].
    split; [by apply Ho|]. split; [|done]. rewrite Hv. lia.
  - destruct (ad_valid _ _ _ _ _ _ Hat) as [_ Hd1]. rewrite (proj2 (Z.ltb_ge d 1)) by lia.
    exists [UCAL_MONTH], c. split; [done|]. split; [done|].
    split; [intros f; rewrite list_elem_of_singleton; tauto|]. split; [done|]. split; [lia|done].
Qed.

(** C33: [Calendar::add] of UCAL_MONTH keeps the day of the month, or takes the
    last day of a shorter month, and keeps the time of the day.  It is stated for
    a calendar system that implements its layout ([Implements]; the Hebrew
    calendar has an [add] of its own for months, which this is not), and for a
    zone that knows three times ([known_time]: within 2^51 ms, on a day of the
    years of the calendar, and neither skipped nor repeated there): the time of
    the calendar, midnight of the first day of the target month, which the code
    visits to find the length of the month, and the result.  So nothing is said
    when the zone skips or repeats the local time of the result.  The settings of
    the week are valid, the time is set and the fields are not yet computed
    ([fresh]), the stamps are in their range, and [m + n] is an [int32_t].  [y'],
    [m'] is the month that the calendar system computes for the month [m + n] of
    the year [y]; the zone may have other offsets there.  A strict calendar stays
    strict. *)
Theorem add_month_pins_day c t n raw dst :
  fresh c t -> known_time t raw dst -> kMinimumUserStamp <= c.(fNextStamp) <= STAMP_MAX -> n <> 0 ->
  exists y m d, valid_date y m d /\ start y m + d = local_day t raw dst /\
    forall y' m' tm rawm dstm t' raw' dst',
      is_int32 (m + n) -> handleComputeMonthStart y (m + n) = Some (start y' m') -> has_month y' m' = true ->
      known_time tm rawm dstm -> local_day tm rawm dstm = start y' m' + 1 -> local_millis tm rawm dstm = 0 ->
      known_time t' raw' dst' -> local_day t' raw' dst' = start y' m' + Z.min d (CalendarSystem.length y' m') ->
      local_millis t' raw' dst' = local_millis t raw dst ->
      exists c2 c3, add repeated skipped getType vadd c UCAL_MONTH n U_ZERO_ERROR = Some (c2, U_ZERO_ERROR) /\
        getTimeInMillis repeated skipped c2 U_ZERO_ERROR = Some (of_int t', c3, U_ZERO_ERROR) /\
        c2.(fLenient) = c.(fLenient).
Proof.
  intros Hf K Hnext Hn.
  destruct (set_completed (setLenient c true) t raw dst (fresh_lenient _ _ _ Hf) K Hnext)
    as (c1 & y & m & d & Hg & Hat & Hset).
  exists y, m, d. split; [apply Hat|]. split; [apply Hat|].
  intros y' m' tm rawm dstm t' raw' dst' Hint Hs Hm' Km Hdm Hmm K' Hd' Hms'.
  unfold add. rewrite (proj2 (Z.eqb_neq n 0)) by done. eval_eqb.
  repeat rewrite bool_decide_eq_false_2 by (rewrite list_elem_of_In; cbn; intuition discriminate).
  rewrite bool_decide_eq_true_2 by (rewrite list_elem_of_In; cbn; tauto).
  unfold add_pinned. rewrite Hg. cbn [obind]. rewrite (ad_month _ _ _ _ _ _ Hat). unfold int. rewrite iadd_ok by done.
  cbn [obind]. destruct (Hset UCAL_MONTH (m + n) ltac:(by vm_compute)) as (c1' & Hat' & -> & Hed & Hv & Hl).
  cbn [obind]. set (c2 := set_stamped c1' UCAL_MONTH (m + n)) in *. clearbody c2.
  assert (Hmax := month_maximum c1' c2 _ _ y m d y' m' tm rawm dstm Hat' Hed ltac:(by rewrite Hv) Hm' Km Hdm Hmm).
  assert (Hpos : 1 <= CalendarSystem.length y' m') by (pose proof (length_pos y' m' Hm'); lia).
  destruct (pin_day c1' c2 _ _ y m d _ Hat' Hed Hpos Hmax)
    as (l & c3 & -> & Hed3 & Hl3 & Hm3 & Hd3 & Hlen3).
  cbn [obind]. assert (Hlen : fLenient c3 = true) by (by rewrite Hlen3, Hl).
  destruct (updateTime_edited l c1' c3 _ _ y m d (start y' m') t' raw' dst' Hat' Hed3) as (c4 & Hu & Hf4).
  - intros f Hfl. by destruct (Hl3 f Hfl) as [-> | ->].
  - intros Hin. by destruct (Hl3 _ Hin).
  - done.
  - by rewrite Hm3, Hv.
  - rewrite Hd3. done.
  - done.
  - done.
  - destruct (fLenient c) eqn:E; cbn [negb].
    + exists c3, c4. split; [done|]. split; [|done]. unfold getTimeInMillis. cbn [U_FAILURE UErrorCode_value Z.ltb Z.compare].
      rewrite (ed_time_set _ _ _ Hed3). cbn [negb]. rewrite Hu. cbn [obind U_FAILURE UErrorCode_value Z.ltb Z.compare].
      by rewrite (fr_time _ _ Hf4).
    + rewrite (complete_updated c3 c4 t' (ed_time_set _ _ _ Hed3) Hu Hf4).
      destruct (get_fresh (lo:=lo) (hi:=hi) repeated skipped c4 t' raw' dst' Hf4 K')
        as (c5 & y5 & m5 & d5 & yw5 & _ & _ & Hcomp & _ & Hdc & _).
      rewrite Hcomp. cbn [obind]. eexists _, _. split; [done|].
      destruct (dc_rest _ _ _ _ _ _ _ Hdc) as (_ & _ & _ & E4 & _ & E6 & _).
      unfold getTimeInMillis. cbn [U_FAILURE UErrorCode_value Z.ltb Z.compare setLenient fIsTimeSet fTime fLenient].
      rewrite E6, (fr_time_set _ _ Hf4). cbn [negb obind U_FAILURE UErrorCode_value Z.ltb Z.compare setLenient fTime].
      rewrite E4, (fr_time _ _ Hf4). by split.
Qed.
End Months.

(** ** Witnesses *)

Lemma calendar_at_fresh t :
  Z.abs t < 2 ^ 53 -> fresh (calendar_at t) t /\ (calendar_at t).(fNextStamp) = kMinimumUserStamp.
Proof.
  intros Ht. destruct (setTimeInMillis_fresh (calendar_with []) t) as (c & E & Hf & Hn & _);
    [by vm_compute; intuition discriminate|done|].
  unfold calendar_at. rewrite E. split; [exact Hf|]. exact Hn.
Qed.

(** One hour east of Greenwich, two from 2016-03-27T01:00:00Z on. *)
Definition summer_start : Z := 1459040400000.
Definition summer_zone : TimeZone :=
  {| getOffset := fun t local ec =>
       Some (3600000, if dlt t (of_int (if local : bool then summer_start + 3600000 else summer_start)) then 0 else 3600000, ec);
     getBasicTimeZone := None |}.

Lemma summer_zone_regular t :
  Z.abs t < 2 ^ 51 -> t < summer_start \/ summer_start + 6 * 3600000 <= t ->
  regular_time (Z0 := summer_zone) t 3600000 (if t <? summer_start then 0 else 3600000).
Proof.
  unfold summer_start. intros Hr Ht. constructor; cbn [getOffset getBasicTimeZone summer_zone]; unfold summer_start;
    try done; rewrite ?ClockMath.dlt_int.
  - done.
  - unfold is_int32, INT32_MIN, INT32_MAX. case_match; lia.
  - intros _. rewrite ?ClockMath.dlt_int. eexists _, _. split; [done|].
    destruct (Z.ltb_spec t 1459040400000), (Z.ltb_spec (t + (3600000 + 0)) (1459040400000 + 3600000)),
      (Z.ltb_spec (t + (3600000 + 3600000)) (1459040400000 + 3600000)); lia.
  - intros _. rewrite ?ClockMath.dlt_int. eexists _, _. split; [done|]. unfold is_int32, INT32_MIN, INT32_MAX.
    destruct (Z.ltb_spec t 1459040400000), (Z.ltb_spec (t - 6 * 60 * 60 * 1000) 1459040400000); lia.
Qed.

Definition coptic_known (Z0 : TimeZone) (t raw dst : Z) : Prop :=
  known_time (L := coptic_layout) (lo := CEFacts.lo) (hi := CEFacts.hi) (Z0 := Z0) t raw dst.

(** From noon before the night of the change to noon. *)
Lemma add_days_keeps_wall_time_witness :
  let t := summer_start - 50400000 in
  let t1 := t + 1 * 86400000 in
  let t2 := t1 + ((3600000 + 0) - (3600000 + 3600000)) in
  let c := calendar_at t in
  fresh c t /\ UCAL_DATE ∈ [UCAL_DAY_OF_MONTH; UCAL_DAY_OF_YEAR; UCAL_DAY_OF_WEEK; UCAL_DOW_LOCAL; UCAL_JULIAN_DAY] /\
  coptic_known summer_zone t 3600000 0 /\ coptic_known summer_zone t1 3600000 3600000 /\
  coptic_known summer_zone t2 3600000 3600000 /\
  3600000 + 3600000 = 3600000 + 3600000 /\ Z.abs ((3600000 + 0) - (3600000 + 3600000)) < 86400000 /\
  exists c', addAt (C := CopticCalendar.system) (Z0 := summer_zone) UCAL_WALLTIME_LAST UCAL_WALLTIME_LAST "coptic" 1 c
    UCAL_DATE 1 U_ZERO_ERROR = Some (c', U_ZERO_ERROR) /\ c'.(fTime) = of_int t2 /\
    local_day t2 3600000 3600000 = local_day t 3600000 0 + 1 /\ local_millis t2 3600000 3600000 = local_millis t 3600000 0.
Proof.
  intros t t1 t2 c. assert (H1 : fresh c t) by (apply calendar_at_fresh; by vm_compute).
  assert (H2 : UCAL_DATE ∈ [UCAL_DAY_OF_MONTH; UCAL_DAY_OF_YEAR; UCAL_DAY_OF_WEEK; UCAL_DOW_LOCAL; UCAL_JULIAN_DAY]) by by left.
  assert (H3 : coptic_known summer_zone t 3600000 0).
  { constructor; [by vm_compute|apply (summer_zone_regular t); [by vm_compute|left; by vm_compute]|vm_compute; intuition discriminate]. }
  assert (H4 : coptic_known summer_zone t1 3600000 3600000).
  { constructor; [by vm_compute|apply (summer_zone_regular t1); [by vm_compute|right; vm_compute; discriminate]|vm_compute; intuition discriminate]. }
  assert (H5 : coptic_known summer_zone t2 3600000 3600000).
  { constructor; [by vm_compute|apply (summer_zone_regular t2); [by vm_compute|right; vm_compute; discriminate]|vm_compute; intuition discriminate]. }
  assert (H6 : Z.abs ((3600000 + 0) - (3600000 + 3600000)) < 86400000) by by vm_compute.
  split; [exact H1|split; [exact H2|split; [exact H3|split; [exact H4|split; [exact H5|split; [reflexivity|split; [exact H6|]]]]]]].
  exact (add_days_keeps_wall_time (I := CopticCalendar.coptic_implements) (B := coptic_weeks) UCAL_WALLTIME_LAST
    UCAL_WALLTIME_LAST "coptic" 0 c t 1 3600000 0 3600000 3600000 3600000 3600000 UCAL_DATE H1 H2 H3 H4 H5 eq_refl H6).
Defined.

(** From the last day of the twelfth month to the last of the five days of the
    thirteenth, at 10:00. *)
Definition local_ten (jd : Z) : Z := (jd - kEpochStartAsJulianDay) * 86400000 + 32400000.
Definition day_in (y m d : Z) : Z := @start coptic_layout y m + d.

Lemma add_month_pins_day_witness :
  let Z0 := fixed_zone 3600000 in
  let t := local_ten (day_in 1732 11 30) in
  let t' := local_ten (day_in 1732 12 5) in
  let c := calendar_at t in
  fresh c t /\ coptic_known Z0 t 3600000 0 /\ kMinimumUserStamp <= c.(fNextStamp) <= STAMP_MAX /\
  exists c2 c3, add (C := CopticCalendar.system) (Z0 := Z0) UCAL_WALLTIME_LAST UCAL_WALLTIME_LAST "coptic"
    (fun _ _ _ _ => None) c UCAL_MONTH 1 U_ZERO_ERROR = Some (c2, U_ZERO_ERROR) /\
    getTimeInMillis (C := CopticCalendar.system) (Z0 := Z0) UCAL_WALLTIME_LAST UCAL_WALLTIME_LAST c2 U_ZERO_ERROR =
      Some (of_int t', c3, U_ZERO_ERROR) /\ c2.(fLenient) = c.(fLenient).
Proof.
  intros Z0 t t' c. destruct (calendar_at_fresh t) as [H1 Hn]; [by vm_compute|].
  assert (Hk : forall x, Z.abs x < 2 ^ 51 -> @start coptic_layout (CEFacts.lo + 1) 0 < local_day x 3600000 0 <= @start coptic_layout (CEFacts.hi - 1) 0 ->
    coptic_known Z0 x 3600000 0) by (intros x Hx Hd; constructor; [done|apply fixed_zone_regular; lia|done]).
  assert (H2 : coptic_known Z0 t 3600000 0) by (apply Hk; vm_compute; intuition discriminate).
  assert (H3 : kMinimumUserStamp <= c.(fNextStamp) <= STAMP_MAX) by (unfold c; rewrite Hn; vm_compute; intuition discriminate).
  split; [exact H1|split; [exact H2|split; [exact H3|]]].
  destruct (add_month_pins_day (I := CopticCalendar.coptic_implements) (B := coptic_weeks) UCAL_WALLTIME_LAST UCAL_WALLTIME_LAST
    "coptic" eq_refl eq_refl (fun _ _ _ _ => None) c t 1 3600000 0 H1 H2 H3 ltac:(discriminate)) as (y & m & d & Hv & Hd & H).
  destruct (date_unique (L := coptic_layout) y m d 1732 11 30) as (-> & -> & ->); [exact Hv|vm_compute; intuition discriminate|etransitivity; [exact Hd|by vm_compute]|].
  apply (H 1732 12 (local_ten (day_in 1732 12 1) - 36000000) 3600000 0 t' 3600000 0);
    first [apply Hk; vm_compute; intuition discriminate|vm_compute; intuition discriminate|by vm_compute].
Defined.
