(* ===== verification/HebrewArithmetic.v ===== *)
(** * Adding and rolling months in the Hebrew calendar (i18n/hebrwcal.cpp)

    [HebrewCalendar] overrides [add] and [roll] for the month, since the month
    Adar I exists in leap years only.  [add_month] and [roll_month] compute the
    new month, [add] and [roll] are the functions around them.  The override of
    [validateField] is modelled, but [validateFields] of CalendarFields.v does
    not call it. *)
From S2P Require Import Prelude Int32 Double Grego Calendar CalendarSystem HebrewCalendar CalendarFields CalendarDays CalendarTime CalendarArithmetic.
From stdpp Require Import strings.
Local Open Scope Z_scope.

Module HebrewArithmetic.
Import HebrewCalendar HebrewFacts HebrewLayout.

(** The loop of [add] with a positive amount, from [month += amount] on: the
    month and the year.  A year takes at least 12 months. *)
Fixpoint forward_months (fuel : nat) (acrossAdar1 : bool) (month year : Z) : option (Z * Z) :=
  let! month :=
    (if acrossAdar1 && (month >=? ADAR_1) then
       let! leap := isLeapYear year in if negb leap then month +! 1 else Some month
     else Some month) in
  if month <=? ELUL then Some (month, year)
  else
    match fuel with
    | O => None
    | S fuel' =>
        let! month := month -! (ELUL +! 1) in
        let! year := year +! 1 in
        forward_months fuel' true month year
    end.

(** The loop with a negative amount or 0. *)
Fixpoint backward_months (fuel : nat) (acrossAdar1 : bool) (month year : Z) : option (Z * Z) :=
  let! month :=
    (if acrossAdar1 && (month <=? ADAR_1) then
       let! leap := isLeapYear year in if negb leap then month -! 1 else Some month
     else Some month) in
  if month >=? 0 then Some (month, year)
  else
    match fuel with
    | O => None
    | S fuel' =>
        let! month := month +! (ELUL +! 1) in
        let! year := year -! 1 in
        backward_months fuel' true month year
    end.

Definition add_month (amount month year : Z) : option (Z * Z) :=
  let fuel := Z.to_nat (Z.abs amount / 12 + 1) in
  if amount >? 0 then
    let acrossAdar1 := month <? ADAR_1 in
    let! month := month +! amount in
    forward_months fuel acrossAdar1 month year
  else
    let acrossAdar1 := month >? ADAR_1 in
    let! month := month +! amount in
    backward_months fuel acrossAdar1 month year.

Definition roll_month (amount month year : Z) : I32 :=
  let! leapYear := isLeapYear year in
  let! yearLength := monthsInYear year in
  let! newMonth := month +! amount %! yearLength in
  let! newMonth :=
    (if negb leapYear then
       if (amount >? 0) && (month <? ADAR_1) && (newMonth >=? ADAR_1) then newMonth +! 1
       else if (amount <? 0) && (month >? ADAR_1) && (newMonth <=? ADAR_1) then newMonth -! 1
       else Some newMonth
     else Some newMonth) in
  (newMonth +! 13) %! 13.

Section Operations.
Context {Z0 : TimeZone} (fRepeatedWallTime fSkippedWallTime : UCalendarWallTimeOption).

#[local] Existing Instance system.
#[local] Abbreviation get := (get fRepeatedWallTime fSkippedWallTime).

Definition add (vadd : Calendar -> Z -> Z -> UErrorCode -> option State) (c : Calendar) (field amount : Z)
    (status : UErrorCode) : option State :=
  if U_FAILURE status then Some (c, status)
  else if field =? UCAL_MONTH then
    let! '(month, c, status) := get c UCAL_MONTH status in
    let! '(year, c, status) := get c UCAL_YEAR status in
    let! '(month, year) := add_month amount month year in
    let! c := set c UCAL_MONTH month in
    let! c := set c UCAL_YEAR year in
    pinField fRepeatedWallTime fSkippedWallTime vadd c UCAL_DAY_OF_MONTH status
  else CalendarArithmetic.add fRepeatedWallTime fSkippedWallTime "hebrew" vadd c field amount status.

(** The function with its recursion through the actual limits closed. *)
Fixpoint addAt (depth : nat) (c : Calendar) (field amount : Z) (status : UErrorCode) : option State :=
  match depth with
  | O => None
  | S d => add (addAt d) c field amount status
  end.

Definition roll (vadd : Calendar -> Z -> Z -> UErrorCode -> option State) (c : Calendar) (field amount : Z)
    (status : UErrorCode) : option State :=
  if U_FAILURE status then Some (c, status)
  else if field =? UCAL_MONTH then
    let! '(month, c, status) := get c UCAL_MONTH status in
    let! '(year, c, status) := get c UCAL_YEAR status in
    let! newMonth := roll_month amount month year in
    let! c := set c UCAL_MONTH newMonth in
    pinField fRepeatedWallTime fSkippedWallTime vadd c UCAL_DAY_OF_MONTH status
  else CalendarArithmetic.roll fRepeatedWallTime fSkippedWallTime "hebrew" vadd c field amount status.

(** A month Adar I of a common year is not valid. *)
Definition validateField (c : Calendar) (field : Z) (status : UErrorCode) : option UErrorCode :=
  let! notAdar1 :=
    (if field =? UCAL_MONTH then
       let! year := handleGetExtendedYear c in
       let! leap := isLeapYear year in
       Some (leap || negb (internalGet c UCAL_MONTH =? ADAR_1))
     else Some true) in
  if negb notAdar1 then Some U_ILLEGAL_ARGUMENT_ERROR
  else CalendarFields.validateField c field status.
End Operations.

(** ** Counting months *)

(** The number of a month: those of the earlier years and those before it. *)
Definition month_number (y m : Z) : Z := months y + (if leap y || (m <? ADAR_1) then m else m - 1).

(** The month of a position in a year of 12 or 13 months. *)
Definition label (l : bool) (k : Z) : Z := if l || (k <? ADAR_1) then k else k + 1.

Definition year_ok (y : Z) : Prop := Z.abs y <= 178000000.

Lemma month_in_label (l : bool) k : 0 <= k < (if l then 13 else 12) -> month_in l (label l k) = true.
Proof.
  intros H. unfold month_in, label, ADAR_1. rewrite !andb_true_iff, !Z.leb_le, orb_true_iff, negb_true_iff, Z.eqb_neq.
  destruct l; cbn [orb]; [lia|]. destruct (Z.ltb_spec k 5); lia.
Qed.

Lemma month_number_label y k : month_number y (label (leap y) k) = months y + k.
Proof.
  unfold month_number, label, ADAR_1. destruct (leap y); cbn [orb]; [done|].
  destruct (Z.ltb_spec k 5); [by rewrite (proj2 (Z.ltb_lt _ _)) by lia|].
  rewrite (proj2 (Z.ltb_ge _ _)) by lia. lia.
Qed.

Lemma isLeapYear_ok y : year_ok y -> isLeapYear y = Some (leap y).
Proof. unfold year_ok. intros. apply hebrew_leap_spec. lia. Qed.

Lemma months_next_year y : months (y + 1) = months y + (if leap y then 13 else 12).
Proof. apply months_step. Qed.

(** The adjustment of the loop turns a position into the label of a month. *)
Lemma cross_forward y k :
  year_ok y -> 0 <= k <= 2147480000 ->
  (if (k >=? ADAR_1) then let! leap := isLeapYear y in if negb leap then k +! 1 else Some k else Some k)
  = Some (label (leap y) k).
Proof.
  unfold label. intros Hy Hk. rewrite Z.geb_leb. destruct (Z.leb_spec ADAR_1 k).
  - rewrite isLeapYear_ok by done. cbn [obind]. rewrite (proj2 (Z.ltb_ge _ _)) by done.
    destruct (leap y); cbn [negb orb]; [done|]. unfold int. rewrite iadd_ok by ibound. done.
  - rewrite (proj2 (Z.ltb_lt _ _)) by done. by rewrite orb_true_r.
Qed.

(** [month] counts positions, across Adar I. *)
Lemma forward_spec fuel k y n :
  months y + k = n -> 0 <= k <= 2147480000 -> k < 12 * (Z.of_nat fuel + 1) ->
  -178000000 <= y -> y + k / 12 <= 177999999 ->
  exists m' y', forward_months fuel true k y = Some (m', y') /\
    month_in (leap y') m' = true /\ month_number y' m' = n.
Proof.
  revert k y. induction fuel as [|fuel IH]; intros k y Hn Hk Hf Hlo Hhi; cbn [forward_months andb];
    rewrite cross_forward by (unfold year_ok; dlia); cbn [obind];
    assert (Hlabel : label (leap y) k <= ELUL <-> k < (if leap y then 13 else 12))
      by (unfold label, ELUL, ADAR_1; destruct (leap y); cbn [orb]; [lia|destruct (Z.ltb_spec k 5); lia]);
    destruct (Z.leb_spec (label (leap y) k) ELUL) as [Hle|Hgt].
  1, 3: exists (label (leap y) k), y; split; [done|]; split; [apply month_in_label; lia|]; rewrite month_number_label; lia.
  - destruct (leap y); lia.
  - assert (Hk' : label (leap y) k - 13 = k - (if leap y then 13 else 12)).
    { unfold label, ELUL, ADAR_1 in *. destruct (leap y); cbn [orb] in *; [lia|]. destruct (Z.ltb_spec k 5); lia. }
    unfold int. rewrite (iadd_ok ELUL 1) by (unfold is_int32, INT32_MIN, INT32_MAX, ELUL; lia). change (ELUL + 1) with 13.
    rewrite isub_ok by (rewrite Hk'; unfold is_int32, INT32_MIN, INT32_MAX; destruct (leap y); lia). cbn [obind].
    rewrite iadd_ok by (unfold is_int32, INT32_MIN, INT32_MAX; dlia). cbn [obind].
    rewrite Hk'. apply IH; rewrite ?months_next_year; destruct (leap y); try lia; dlia.
Qed.

Lemma cross_backward y month :
  year_ok y -> -2147480000 <= month <= 12 ->
  (if month <=? ADAR_1 then let! leap := isLeapYear y in if negb leap then month -! 1 else Some month else Some month)
  = Some (label (leap y) (if leap y then month else month - 1)).
Proof.
  unfold label. intros Hy Hk. destruct (Z.leb_spec month ADAR_1).
  - rewrite isLeapYear_ok by done. cbn [obind]. unfold ADAR_1 in *.
    destruct (leap y); cbn [negb orb]; [done|]. unfold int. rewrite isub_ok by ibound.
    by rewrite (proj2 (Z.ltb_lt _ _)) by lia.
  - unfold ADAR_1 in *. destruct (leap y); cbn [orb]; [done|]. rewrite (proj2 (Z.ltb_ge _ _)) by lia. f_equal. lia.
Qed.

(** [month] counts labels from the end of the year, across Adar I. *)
Lemma backward_spec fuel month y n :
  months y + (if leap y then month else month - 1) = n -> -2147480000 <= month <= 12 ->
  - month < 12 * Z.of_nat fuel -> y <= 178000000 -> -177999999 <= y + (month - 1) / 12 ->
  exists m' y', backward_months fuel true month y = Some (m', y') /\
    month_in (leap y') m' = true /\ month_number y' m' = n.
Proof.
  revert month y. induction fuel as [|fuel IH]; intros month y Hn Hk Hf Hhi Hlo; cbn [backward_months andb];
    rewrite cross_backward by (unfold year_ok; dlia); cbn [obind];
    set (k := if leap y then month else month - 1) in *;
    assert (Hlabel : 0 <= label (leap y) k <-> 0 <= k)
      by (unfold label, ADAR_1; destruct (leap y); cbn [orb]; [lia|destruct (Z.ltb_spec k 5); lia]);
    assert (Hneg : k < 0 -> label (leap y) k = k)
      by (unfold label, ADAR_1; intros; rewrite (proj2 (Z.ltb_lt k 5)) by lia; by rewrite orb_true_r);
    rewrite Z.geb_leb; destruct (Z.leb_spec 0 (label (leap y) k)) as [Hle|Hgt].
  1, 3: exists (label (leap y) k), y; split; [done|];
    split; [apply month_in_label; unfold k in *; destruct (leap y); lia|]; rewrite month_number_label; lia.
  - exfalso. unfold k in *. destruct (leap y); lia.
  - rewrite Hneg by lia. unfold int.
    rewrite (iadd_ok ELUL 1) by (unfold is_int32, INT32_MIN, INT32_MAX, ELUL; lia). change (ELUL + 1) with 13.
    rewrite iadd_ok by (unfold is_int32, INT32_MIN, INT32_MAX, k; destruct (leap y); lia). cbn [obind].
    rewrite isub_ok by (unfold is_int32, INT32_MIN, INT32_MAX; dlia). cbn [obind].
    pose proof (months_next_year (y - 1)) as Hm. replace (y - 1 + 1) with y in Hm by lia.
    apply IH; unfold k in *; destruct (leap y), (leap (y - 1)); try lia; dlia.
Qed.

Lemma month_in_cases l m : month_in l m = true -> 0 <= m <= 12 /\ (l = false -> m <> ADAR_1).
Proof.
  unfold month_in, ADAR_1. rewrite !andb_true_iff, !Z.leb_le, orb_true_iff, negb_true_iff, Z.eqb_neq.
  intros [[? ?] [->|]]; split; (lia || done).
Qed.

Lemma month_number_range y m :
  month_in (leap y) m = true -> months y <= month_number y m < months (y + 1).
Proof.
  intros [Hm Ha]%month_in_cases. rewrite months_next_year. unfold month_number, ADAR_1 in *.
  destruct (leap y); cbn [orb]; [lia|]. specialize (Ha eq_refl). destruct (Z.ltb_spec m 5); lia.
Qed.

Lemma months_mono y y' : y <= y' -> months y <= months y'.
Proof. unfold months. intros. dlia. Qed.

(** No two months have the same number. *)
Lemma month_number_inj y m y' m' :
  month_in (leap y) m = true -> month_in (leap y') m' = true -> month_number y m = month_number y' m' ->
  y = y' /\ m = m'.
Proof.
  intros H H' Heq. pose proof (month_number_range y m H). pose proof (month_number_range y' m' H').
  assert (y = y') as <-.
  { destruct (Z.lt_trichotomy y y') as [|[|]]; [|done|].
    - pose proof (months_mono (y + 1) y' ltac:(lia)). lia.
    - pose proof (months_mono (y' + 1) y ltac:(lia)). lia. }
  split; [done|]. apply month_in_cases in H as [_ Ha], H' as [_ Ha'].
  unfold month_number, ADAR_1 in *. destruct (leap y); cbn [orb] in Heq; [lia|].
  specialize (Ha eq_refl). specialize (Ha' eq_refl). destruct (Z.ltb_spec m 5), (Z.ltb_spec m' 5); lia.
Qed.

(** Adding to the month of a Hebrew date moves by that number of existing
    months, whether or not the years passed have an Adar I: the result is the
    only month with that number.  The loops end, without overflow. *)
Theorem hebrew_add_month y m n :
  Z.abs y <= 5000000 -> month_in (leap y) m = true -> Z.abs n <= 2000000000 ->
  exists m' y', add_month n m y = Some (m', y') /\ month_in (leap y') m' = true /\
    month_number y' m' = month_number y m + n /\
    forall y'' m'', month_in (leap y'') m'' = true -> month_number y'' m'' = month_number y m + n ->
      y'' = y' /\ m'' = m'.
Proof.
  intros Hy Hm Hn.
  enough (exists m' y', add_month n m y = Some (m', y') /\ month_in (leap y') m' = true /\
            month_number y' m' = month_number y m + n) as (m' & y' & Ha & Hin & Hnum).
  { exists m', y'. split; [done|]. split; [done|]. split; [done|]. intros y'' m'' Hin' Hnum'.
    apply month_number_inj; [done..|lia]. }
  apply month_in_cases in Hm as [Hm Hadar]. unfold add_month.
  set (fuel := Z.to_nat (Z.abs n / 12 + 1)). assert (Hfuel : Z.of_nat fuel = Z.abs n / 12 + 1) by (unfold fuel; dlia).
  clearbody fuel. unfold int. rewrite iadd_ok by ibound. cbn [obind]. rewrite !Z.gtb_ltb.
  assert (Hnum : month_number y m = months y + (if leap y || (m <? ADAR_1) then m else m - 1)) by done.
  destruct (Z.ltb_spec 0 n).
  - destruct (Z.ltb_spec m ADAR_1) as [Hbefore|Hafter]; unfold ADAR_1 in *.
    + apply forward_spec; [rewrite Hnum, orb_true_r; lia|lia|dlia..].
    + rewrite orb_false_r in Hnum. destruct fuel as [|fuel]; [dlia|]. cbn [forward_months andb obind].
      destruct (Z.leb_spec (m + n) ELUL) as [Hle|Hgt].
      * exists (m + n), y. split; [done|]. unfold ELUL in *. split.
        -- unfold month_in. rewrite !(proj2 (Z.leb_le _ _)) by lia. rewrite (proj2 (Z.eqb_neq _ _)) by lia. apply orb_true_r.
        -- rewrite Hnum. unfold month_number, ADAR_1. rewrite (proj2 (Z.ltb_ge (m + n) 5)) by lia.
           rewrite orb_false_r. destruct (leap y); lia.
      * unfold int. rewrite (iadd_ok ELUL 1) by (unfold is_int32, INT32_MIN, INT32_MAX, ELUL; lia). change (ELUL + 1) with 13.
        rewrite isub_ok by ibound. cbn [obind]. rewrite iadd_ok by ibound. cbn [obind]. unfold ELUL in *.
        apply forward_spec; rewrite ?months_next_year; [rewrite Hnum; destruct (leap y); lia|lia|dlia..].
  - destruct (Z.ltb_spec ADAR_1 m) as [Hafter|Hbefore]; unfold ADAR_1 in *.
    + rewrite (proj2 (Z.ltb_ge m 5)), orb_false_r in Hnum by lia.
      apply backward_spec; [rewrite Hnum; destruct (leap y); lia|lia|dlia..].
    + destruct fuel as [|fuel]; [dlia|]. cbn [backward_months andb obind].
      assert (Hnum' : month_number y m = months y + m).
      { rewrite Hnum. destruct (leap y) eqn:E; cbn [orb]; [done|]. specialize (Hadar eq_refl).
        by rewrite (proj2 (Z.ltb_lt m 5)) by lia. }
      rewrite Z.geb_leb. destruct (Z.leb_spec 0 (m + n)) as [Hle|Hgt].
      * exists (m + n), y. split; [done|]. rewrite Hnum'.
        assert (Hlt : leap y = true \/ m + n < 5) by (destruct (leap y); [by left|right; specialize (Hadar eq_refl); lia]).
        split.
        -- unfold month_in. rewrite !(proj2 (Z.leb_le _ _)) by lia. cbn [andb].
           destruct Hlt as [->|]; [done|]. rewrite (proj2 (Z.eqb_neq _ _)) by lia. apply orb_true_r.
        -- unfold month_number, ADAR_1. destruct Hlt as [->|]; [cbn [orb]; lia|].
           rewrite (proj2 (Z.ltb_lt _ _)), orb_true_r by lia. lia.
      * unfold int. rewrite (iadd_ok ELUL 1) by (unfold is_int32, INT32_MIN, INT32_MAX, ELUL; lia). change (ELUL + 1) with 13.
        rewrite iadd_ok by ibound. cbn [obind]. rewrite isub_ok by ibound. cbn [obind].
        pose proof (months_next_year (y - 1)) as Hmy. replace (y - 1 + 1) with y in Hmy by lia.
        apply backward_spec; rewrite ?Hnum'; destruct (leap (y - 1)); try lia; dlia.
Qed.

(** Five months after Tishri of the common year 5777 is Adar. *)
Lemma hebrew_add_month_witness :
  Z.abs 5777 <= 5000000 /\ month_in (leap 5777) 0 = true /\ Z.abs 5 <= 2000000000 /\
  exists m' y', add_month 5 0 5777 = Some (m', y') /\ month_in (leap y') m' = true /\
    month_number y' m' = month_number 5777 0 + 5 /\
    forall y'' m'', month_in (leap y'') m'' = true -> month_number y'' m'' = month_number 5777 0 + 5 ->
      y'' = y' /\ m'' = m'.
Proof.
  assert (H1 : Z.abs 5777 <= 5000000) by lia. assert (H2 : month_in (leap 5777) 0 = true) by (vm_compute; reflexivity).
  assert (H3 : Z.abs 5 <= 2000000000) by lia.
  split; [exact H1|split; [exact H2|split; [exact H3|]]]. exact (hebrew_add_month 5777 0 5 H1 H2 H3).
Defined.

(** ** Rolling *)

(** The position of a month in its year. *)
Definition position (l : bool) (m : Z) : Z := if l || (m <? ADAR_1) then m else m - 1.

(** Rolling the month wraps in the 12 or 13 months of the year, except in
    common years when the position passes the end of the year by six months or
    more, or the start by eight or more: the month that [% 13] gives is then
    one off, since the code does not step over Adar I again, and may be Adar I,
    which the year does not have. *)
Theorem hebrew_roll_month y m n :
  Z.abs y <= 5000000 -> month_in (leap y) m = true -> is_int32 n ->
  let p := position (leap y) m + Z.rem n (if leap y then 13 else 12) in
  roll_month n m y =
    Some (label (leap y) (p mod (if leap y then 13 else 12)) +
          (if leap y then 0 else if p <? -7 then 1 else if 16 <? p then -1 else 0)).
Proof.
  intros Hy [Hm Ha]%month_in_cases Hn p. unfold roll_month, monthsInYear.
  rewrite !isLeapYear_ok by (unfold year_ok; lia). cbn [obind]. unfold p, position, label, ADAR_1 in *. clear p.
  unfold int. rewrite imod_ok by (try done; destruct (leap y); lia).
  assert (Hsign : (0 < n -> 0 <= Z.rem n (if leap y then 13 else 12)) /\ (n < 0 -> Z.rem n (if leap y then 13 else 12) <= 0) /\
    (n = 0 -> Z.rem n (if leap y then 13 else 12) = 0) /\ Z.abs (Z.rem n (if leap y then 13 else 12)) < (if leap y then 13 else 12))
    by (destruct (leap y); dlia).
  set (r := Z.rem n _) in *. clearbody r. rewrite iadd_ok by (unfold is_int32, INT32_MIN, INT32_MAX; destruct (leap y); lia).
  cbn [obind]. rewrite !Z.gtb_ltb, Z.geb_leb. destruct (leap y); cbn [negb orb].
  - cbn [obind]. rewrite iadd_ok, imod_nonneg by (unfold is_int32, INT32_MIN, INT32_MAX; lia). f_equal. dlia.
  - specialize (Ha eq_refl).
    destruct (Z.ltb_spec 0 n), (Z.ltb_spec n 0), (Z.ltb_spec m 5), (Z.ltb_spec 5 m), (Z.leb_spec 5 (m + r)), (Z.leb_spec (m + r) 5);
      try lia; cbn [andb]; rewrite ?iadd_ok, ?isub_ok by (unfold is_int32, INT32_MIN, INT32_MAX; lia); cbn [obind];
      rewrite ?iadd_ok, ?imod_nonneg by (unfold is_int32, INT32_MIN, INT32_MAX; lia);
      f_equal; destruct (Z.ltb_spec (m - 1 + r) (-7)), (Z.ltb_spec 16 (m - 1 + r)), (Z.ltb_spec (m + r) (-7)), (Z.ltb_spec 16 (m + r));
      try lia; match goal with |- context [?a <? 5] => destruct (Z.ltb_spec a 5) end; dlia.
Qed.

(** Eight months from Tamuz on, in a common year: Adar I. *)
Lemma hebrew_roll_month_witness :
  Z.abs 5777 <= 5000000 /\ month_in (leap 5777) 10 = true /\ is_int32 8 /\ roll_month 8 10 5777 = Some ADAR_1.
Proof.
  assert (H1 : Z.abs 5777 <= 5000000) by lia. assert (H2 : month_in (leap 5777) 10 = true) by (vm_compute; reflexivity).
  assert (H3 : is_int32 8) by (unfold is_int32, INT32_MIN, INT32_MAX; lia).
  split; [exact H1|split; [exact H2|split; [exact H3|]]]. exact (hebrew_roll_month 5777 10 8 H1 H2 H3).
Defined.
End HebrewArithmetic.
