(* ===== verification/GregorianCalendar.v ===== *)
(** * The Gregorian calendar with its cutover (i18n/gregocal.cpp)

    The calendar is Julian before the cutover, by default 15 October 1582, and
    Gregorian from it on.  The object keeps two flags that
    [handleComputeMonthStart], although const, sets and reads:
    [fIsGregorian] tells which calendar the last month was computed in,
    [fInvertGregorian] asks for the other one.  The day of a month start and
    the new [fIsGregorian] are returned together; [last_month_start] finds the
    last month start that [Calendar::handleComputeJulianDay] asks for, which is
    the one that leaves its flag behind. *)
From S2P Require Import Prelude Int32 Double Grego Calendar CalendarSystem CalendarFields CalendarDays CalendarTime CalendarArithmetic.
From stdpp Require Import strings.
Local Open Scope Z_scope.

Module GregorianCalendar.
Import ClockMath.

Definition BC : Z := 0.
Definition AD : Z := 1.
Definition kEpochYear : Z := 1970.
Definition kJan1_1JulianDay : Z := 1721426.

Definition kNumDays : list Z := [0;31;59;90;120;151;181;212;243;273;304;334].
Definition kLeapNumDays : list Z := [0;31;60;91;121;152;182;213;244;274;305;335].
Definition kMonthLength : list Z := [31;28;31;30;31;30;31;31;30;31;30;31].
Definition kLeapMonthLength : list Z := [31;29;31;30;31;30;31;31;30;31;30;31].

Definition kGregorianCalendarLimits : list (list Z) :=
  [[0; 0; 1; 1]; (* ERA *)
   [1; 1; 140742; 144683]; (* YEAR *)
   [0; 0; 11; 11]; (* MONTH *)
   [1; 1; 52; 53]; (* WEEK_OF_YEAR *)
   N_A; (* WEEK_OF_MONTH *)
   [1; 1; 28; 31]; (* DAY_OF_MONTH *)
   [1; 1; 365; 366]; (* DAY_OF_YEAR *)
   N_A; (* DAY_OF_WEEK *)
   [-1; -1; 4; 5]; (* DAY_OF_WEEK_IN_MONTH *)
   N_A; N_A; N_A; N_A; N_A; N_A; N_A; N_A; (* AM_PM .. DST_OFFSET *)
   [-140742; -140742; 140742; 144683]; (* YEAR_WOY *)
   N_A; (* DOW_LOCAL *)
   [-140742; -140742; 140742; 144683]; (* EXTENDED_YEAR *)
   N_A; N_A; N_A; N_A]. (* JULIAN_DAY .. TIME_SEPARATOR *)

Record GregorianCalendar := mkGregorian {
  fGregorianCutover : double;
  fCutoverJulianDay : Z;
  fNormalizedGregorianCutover : double;
  fGregorianCutoverYear : Z;
  fIsGregorian : bool;
  fInvertGregorian : bool
}.

Definition kCutoverJulianDay : Z := 2299161.
Definition kPapalCutover : double :=
  dmul (dsub (of_int 2299161) (of_int kEpochStartAsJulianDay)) (of_int Grego.U_MILLIS_PER_DAY).

(** What every constructor sets. *)
Definition new : GregorianCalendar :=
  mkGregorian kPapalCutover kCutoverJulianDay kPapalCutover 1582 true false.

Definition with_is_gregorian (g : GregorianCalendar) (b : bool) : GregorianCalendar :=
  mkGregorian g.(fGregorianCutover) g.(fCutoverJulianDay) g.(fNormalizedGregorianCutover)
    g.(fGregorianCutoverYear) b g.(fInvertGregorian).
Definition with_invert (g : GregorianCalendar) (b : bool) : GregorianCalendar :=
  mkGregorian g.(fGregorianCutover) g.(fCutoverJulianDay) g.(fNormalizedGregorianCutover)
    g.(fGregorianCutoverYear) g.(fIsGregorian) b.

Definition operator_assign (this right : GregorianCalendar) : GregorianCalendar :=
  mkGregorian right.(fGregorianCutover) right.(fCutoverJulianDay) right.(fNormalizedGregorianCutover)
    right.(fGregorianCutoverYear) this.(fIsGregorian) this.(fInvertGregorian).

Definition handleGetLimit (field : Z) (limitType : ELimitType) : option Z :=
  limit_at kGregorianCalendarLimits field limitType.

(** ** Days, months and years *)

Definition isLeapYear (g : GregorianCalendar) (year : Z) : bool :=
  if year >=? g.(fGregorianCutoverYear)
  then (Z.land year 3 =? 0) && (negb (Z.rem year 100 =? 0) || (Z.rem year 400 =? 0))
  else Z.land year 3 =? 0.

Definition handleGetMonthLength (g : GregorianCalendar) (extendedYear month : Z) : I32 :=
  let! '(extendedYear, month) := adjust_month extendedYear month in
  aget (if isLeapYear g extendedYear then kLeapMonthLength else kMonthLength) month.

Definition handleGetYearLength (g : GregorianCalendar) (eyear : Z) : I32 :=
  Some (if isLeapYear g eyear then 366 else 365).

(** The day before the month, and the new [fIsGregorian]. *)
Definition month_start (g : GregorianCalendar) (eyear month : Z) : option (Z * bool) :=
  let! '(eyear, month) := adjust_month eyear month in
  let isLeap := Z.rem eyear 4 =? 0 in
  let! y := eyear -! 1 in
  let! julianDay := 365 *! y +! floorDivide y 4 +! (kJan1_1JulianDay -! 3) in
  let isGregorian := eyear >=? g.(fGregorianCutoverYear) in
  let isGregorian := if g.(fInvertGregorian) then negb isGregorian else isGregorian in
  let! '(isLeap, julianDay) :=
    (if isGregorian then
       let! gregShift := Grego.gregorianShift eyear in
       let! julianDay := julianDay +! gregShift in
       Some (isLeap && (negb (Z.rem eyear 100 =? 0) || (Z.rem eyear 400 =? 0)), julianDay)
     else Some (isLeap, julianDay)) in
  if negb (month =? 0) then
    let! days := aget (if isLeap then kLeapNumDays else kNumDays) month in
    let! julianDay := julianDay +! days in Some (julianDay, isGregorian)
  else Some (julianDay, isGregorian).

Definition handleComputeMonthStart (g : GregorianCalendar) (eyear month : Z) : I32 :=
  let! '(julianDay, _) := month_start g eyear month in Some julianDay.

(** The year, month, day and day of the year of a day before the cutover. *)
Definition julian_fields (julianDay : Z) : option (Z * Z * Z * Z) :=
  let! julianEpochDay := julianDay -! (kJan1_1JulianDay -! 2) in
  let! '(eyear, _) :=
    floorDivide_int (dadd (dmul (of_int 4) (of_int julianEpochDay)) (of_int 1464)) 1461 in
  let! y := eyear -! 1 in
  let! january1 := 365 *! y +! floorDivide y 4 in
  let! dayOfYear := julianEpochDay -! january1 in
  let isLeap := Z.land eyear 3 =? 0 in
  let march1 := if isLeap then 60 else 59 in
  let correction := if dayOfYear >=? march1 then (if isLeap then 1 else 2) else 0 in
  let! month := (12 *! (dayOfYear +! correction) +! 6) /! 367 in
  let! before := aget (if isLeap then kLeapNumDays else kNumDays) month in
  let! dayOfMonth := dayOfYear -! before +! 1 in
  let! dayOfYear := dayOfYear +! 1 in
  Some (eyear, month, dayOfMonth, dayOfYear).

Definition handleComputeFields (g : GregorianCalendar) (c : Calendar) (julianDay : Z) (status : UErrorCode) :
    option (Calendar * UErrorCode) :=
  if U_FAILURE status then Some (c, status)
  else
    let! '(eyear, month, dayOfMonth, dayOfYear) :=
      (if julianDay >=? g.(fCutoverJulianDay) then
         Some (c.(fGregorianYear), c.(fGregorianMonth), c.(fGregorianDayOfMonth), c.(fGregorianDayOfYear))
       else julian_fields julianDay) in
    let! dayOfYear :=
      (if (eyear =? g.(fGregorianCutoverYear)) && (julianDay >=? g.(fCutoverJulianDay)) then
         dayOfYear +! Grego.gregorianShift eyear
       else Some dayOfYear) in
    let! '(era, year) :=
      (if eyear <? 1 then let! y := 1 -! eyear in Some (BC, y) else Some (AD, eyear)) in
    Some (internalSets c [(UCAL_MONTH, month); (UCAL_DAY_OF_MONTH, dayOfMonth);
            (UCAL_DAY_OF_YEAR, dayOfYear); (UCAL_EXTENDED_YEAR, eyear); (UCAL_ERA, era); (UCAL_YEAR, year)],
          status).

(** ** The year of the fields *)

(** [Calendar::handleGetExtendedYearFromWeekFields] (i18n/calendar.cpp), with
    the functions of the subclass that it calls.  The start of the next year is
    computed whether it is used or not. *)
Definition base_extended_year_from_week_fields (computeMonthStart : Z -> Z -> I32)
    (leastMaximum : Z -> I32) (c : Calendar) (yearWoy woy : Z) : I32 :=
  let bestField := resolveFields c kDatePrecedence in
  let! dowLocal := getLocalDOW c in
  let! jan1Start := computeMonthStart yearWoy 0 in
  let! nextYear := yearWoy +! 1 in
  let! nextJan1Start := computeMonthStart nextYear 0 in
  let! first := first_dow c jan1Start in
  let jan1InPrevYear := 7 - first <? c.(fMinimalDaysInFirstWeek) in
  if bestField =? UCAL_WEEK_OF_YEAR then
    if woy =? 1 then
      if jan1InPrevYear then Some yearWoy
      else if dowLocal <? first then yearWoy -! 1 else Some yearWoy
    else
      let! least := leastMaximum bestField in
      if woy >=? least then
        let! jd := jan1Start +! (7 -! first) +! (woy -! 1) *! 7 +! dowLocal in
        let! jd := if negb jan1InPrevYear then jd -! 7 else Some jd in
        let! jd := jd +! 1 in
        if jd >=? nextJan1Start then yearWoy +! 1 else Some yearWoy
      else Some yearWoy
  else if bestField =? UCAL_DATE then
    let! least := (if internalGet c UCAL_MONTH =? 0 then leastMaximum UCAL_WEEK_OF_YEAR else Some 0) in
    if (internalGet c UCAL_MONTH =? 0) && (woy >=? least) then yearWoy +! 1
    else if woy =? 1 then
      if internalGet c UCAL_MONTH =? 0 then Some yearWoy else yearWoy -! 1
    else Some yearWoy
  else Some yearWoy.

Definition handleGetExtendedYearFromWeekFields (g : GregorianCalendar) (c : Calendar) (yearWoy woy : Z) : I32 :=
  let era := internalGet_default c UCAL_ERA AD in
  let! yearWoy := if era =? BC then 1 -! yearWoy else Some yearWoy in
  base_extended_year_from_week_fields (handleComputeMonthStart g)
    (fun f => handleGetLimit f UCAL_LIMIT_LEAST_MAXIMUM) c yearWoy woy.

Definition handleGetExtendedYear (g : GregorianCalendar) (c : Calendar) : I32 :=
  let yearField := UCAL_EXTENDED_YEAR in
  let yearField := if c.(fStamp) yearField <? c.(fStamp) UCAL_YEAR then UCAL_YEAR else yearField in
  let yearField := if c.(fStamp) yearField <? c.(fStamp) UCAL_YEAR_WOY then UCAL_YEAR_WOY else yearField in
  if yearField =? UCAL_EXTENDED_YEAR then Some (internalGet_default c UCAL_EXTENDED_YEAR kEpochYear)
  else if yearField =? UCAL_YEAR then
    let era := internalGet_default c UCAL_ERA AD in
    if era =? BC then 1 -! internalGet_default c UCAL_YEAR 1
    else Some (internalGet_default c UCAL_YEAR kEpochYear)
  else handleGetExtendedYearFromWeekFields g c (internalGet c UCAL_YEAR_WOY) (internalGet c UCAL_WEEK_OF_YEAR).

(** The functions that [Calendar] calls, but for [handleComputeJulianDay]. *)
Definition system (g : GregorianCalendar) : CalendarSystem := {|
  CalendarSystem.handleGetLimit := handleGetLimit;
  CalendarSystem.handleComputeMonthStart := handleComputeMonthStart g;
  CalendarSystem.handleGetMonthLength := handleGetMonthLength g;
  CalendarSystem.handleGetYearLength := handleGetYearLength g;
  CalendarSystem.handleComputeFields := handleComputeFields g;
  CalendarSystem.handleGetExtendedYear := handleGetExtendedYear g
|}.

(** ** From the fields to the day *)

(** The last year and month for which [Calendar::handleComputeJulianDay] asks. *)
Definition last_month_start (g : GregorianCalendar) (c : Calendar) (bestField : Z) : option (Z * Z) :=
  let useMonth := (bestField =? UCAL_DAY_OF_MONTH) || (bestField =? UCAL_WEEK_OF_MONTH) ||
                  (bestField =? UCAL_DAY_OF_WEEK_IN_MONTH) in
  let! eyear := handleGetExtendedYear g c in
  let year := if bestField =? UCAL_WEEK_OF_YEAR then internalGet_default c UCAL_YEAR_WOY eyear
              else eyear in
  let c := internalSet c UCAL_EXTENDED_YEAR year in
  let month := if isSet c UCAL_MONTH then internalGet c UCAL_MONTH else getDefaultMonthInYear year in
  if (bestField =? UCAL_WEEK_OF_YEAR) &&
     (negb (isSet c UCAL_YEAR_WOY) ||
      (negb (resolveFields c kYearPrecedence =? UCAL_YEAR_WOY) &&
       negb (c.(fStamp) UCAL_YEAR_WOY =? kInternallySet)))
  then
    let! next := year +! 1 in
    let woy := internalGet c UCAL_WEEK_OF_YEAR in
    if woy =? 1 then Some (next, 0)
    else
      let! leastMaximum := handleGetLimit UCAL_WEEK_OF_YEAR UCAL_LIMIT_LEAST_MAXIMUM in
      if woy >=? leastMaximum then
        let! julianDay := handleComputeMonthStart g year 0 in
        let! first := first_dow c julianDay in
        let! dowLocal := getLocalDOW c in
        let! date := 1 -! first +! dowLocal in
        let! testDate := if 7 - first <? c.(fMinimalDaysInFirstWeek) then date +! 7 else Some date in
        let! testDate := testDate +! 7 *! (woy -! 1) in
        let! testDay := julianDay +! testDate in
        let! nextJulianDay := handleComputeMonthStart g next 0 in
        if testDay >? nextJulianDay then let! previous := year -! 1 in Some (previous, 0)
        else Some (next, 0)
      else Some (next, 0)
  else Some (year, if useMonth then month else 0).

(** [Calendar::handleComputeJulianDay], which leaves [fIsGregorian] behind. *)
Definition base_julian_day (g : GregorianCalendar) (c : Calendar) (bestField : Z) :
    option (Z * Calendar * GregorianCalendar) :=
  let! '(jd, c') := CalendarFields.handleComputeJulianDay (C := system g) c bestField in
  let! '(year, month) := last_month_start g c bestField in
  let! '(_, isGregorian) := month_start g year month in
  Some (jd, c', with_is_gregorian g isGregorian).

(** The end of the override: in the Gregorian part of the cutover year, days of
    the year count from the Julian start of the year. *)
Definition adjust_in_cutover_year (bestField jd : Z) (c : Calendar) (g : GregorianCalendar) :
    option (Z * Calendar * GregorianCalendar) :=
  if g.(fIsGregorian) && (internalGet c UCAL_EXTENDED_YEAR =? g.(fGregorianCutoverYear)) then
    let! gregShift := Grego.gregorianShift (internalGet c UCAL_EXTENDED_YEAR) in
    if bestField =? UCAL_DAY_OF_YEAR then let! jd := jd -! gregShift in Some (jd, c, g)
    else if bestField =? UCAL_WEEK_OF_MONTH then let! jd := jd +! 14 in Some (jd, c, g)
    else Some (jd, c, g)
  else Some (jd, c, g).

Definition handleComputeJulianDay (g : GregorianCalendar) (c : Calendar) (bestField : Z) :
    option (Z * Calendar * GregorianCalendar) :=
  let g := with_invert g false in
  let! '(jd, c, g) := base_julian_day g c bestField in
  if (bestField =? UCAL_WEEK_OF_YEAR) &&
     (internalGet c UCAL_EXTENDED_YEAR =? g.(fGregorianCutoverYear)) && (jd >=? g.(fCutoverJulianDay))
  then base_julian_day (with_invert g true) c bestField
  else
    let! '(jd, c, g) :=
      (if negb (Bool.eqb g.(fIsGregorian) (jd >=? g.(fCutoverJulianDay)))
       then base_julian_day (with_invert g true) c bestField
       else Some (jd, c, g)) in
    adjust_in_cutover_year bestField jd c g.

(** [Calendar::computeJulianDay], which calls the override. *)
Definition computeJulianDay (g : GregorianCalendar) (c : Calendar) :
    option (Z * Calendar * GregorianCalendar) :=
  let bestStamp := newestStamp c UCAL_ERA UCAL_DAY_OF_WEEK_IN_MONTH kUnset in
  let bestStamp := newestStamp c UCAL_YEAR_WOY UCAL_EXTENDED_YEAR bestStamp in
  if (c.(fStamp) UCAL_JULIAN_DAY >=? kMinimumUserStamp) && (bestStamp <=? c.(fStamp) UCAL_JULIAN_DAY)
  then Some (internalGet c UCAL_JULIAN_DAY, c, g)
  else
    let bestField := resolveFields c kDatePrecedence in
    handleComputeJulianDay g c (if bestField =? UCAL_FIELD_COUNT then UCAL_DAY_OF_MONTH else bestField).

(** ** Helpers of the subclass *)

Definition monthLength_of_year (g : GregorianCalendar) (month year : Z) : I32 :=
  aget (if isLeapYear g year then kLeapMonthLength else kMonthLength) month.
Definition monthLength (g : GregorianCalendar) (c : Calendar) (month : Z) : I32 :=
  handleGetMonthLength g (internalGet c UCAL_EXTENDED_YEAR) month.
Definition yearLength (g : GregorianCalendar) (c : Calendar) : Z :=
  if isLeapYear g (internalGet c UCAL_YEAR) then 366 else 365.

Definition boundsCheck (g : GregorianCalendar) (c : Calendar) (value field : Z) : option bool :=
  let! min := getMinimum (C := system g) c field in
  if value >=? min then let! max := getMaximum (C := system g) c field in Some (value <=? max)
  else Some false.

(** The fields for which [boundsCheck] is asked, in this order. *)
Definition checked_fields : list Z :=
  filter (fun f => negb (f =? UCAL_DATE) && negb (f =? UCAL_DAY_OF_YEAR)) fields.

Definition validateFields (g : GregorianCalendar) (c : Calendar) : option bool :=
  let! ok := foldl (fun st field => let! ok := st in
    if ok && isSet c field then boundsCheck g c (internalGet c field) field else Some ok)
    (Some true) checked_fields in
  let! ok :=
    (if ok && isSet c UCAL_DATE then
       let date := internalGet c UCAL_DATE in
       let! min := getMinimum (C := system g) c UCAL_DATE in
       let! len := monthLength g c (internalGet c UCAL_MONTH) in
       Some (negb ((date <? min) || (date >? len)))
     else Some ok) in
  let ok := if ok && isSet c UCAL_DAY_OF_YEAR then
              let days := internalGet c UCAL_DAY_OF_YEAR in
              negb ((days <? 1) || (days >? yearLength g c))
            else ok in
  Some (ok && negb (isSet c UCAL_DAY_OF_WEEK_IN_MONTH && (0 =? internalGet c UCAL_DAY_OF_WEEK_IN_MONTH))).

(** The day before a year in the calendar asked for, and whether the year is a
    leap year. *)
Definition computeJulianDayOfYear (isGregorian : bool) (year : Z) : option (double * bool) :=
  let isLeap := Z.rem year 4 =? 0 in
  let! y := year -! 1 in
  let! q := floorDivide y 4 in
  let julianDay := dadd (dadd (dmul (of_int 365) (of_int y)) (of_int q)) (of_int (kJan1_1JulianDay - 3)) in
  if isGregorian then
    let! shift := Grego.gregorianShift year in
    Some (dadd julianDay (of_int shift), isLeap && (negb (Z.rem year 100 =? 0) || (Z.rem year 400 =? 0)))
  else Some (julianDay, isLeap).

Definition aggregateStamp (stamp_a stamp_b : Z) : Z :=
  if negb (stamp_a =? kUnset) && negb (stamp_b =? kUnset) then Z.max stamp_a stamp_b else kUnset.

Definition internalGetEra (c : Calendar) : Z := if isSet c UCAL_ERA then internalGet c UCAL_ERA else AD.

(** ** Rolling over the cutover *)

(** When the month of the computed fields contains the cutover: the day of the
    month without the missing days, the time of its first day and its length. *)
Definition cutover_month (g : GregorianCalendar) (c : Calendar) (field : Z) : option (option (Z * double * Z)) :=
  if (internalGet c UCAL_EXTENDED_YEAR =? g.(fGregorianCutoverYear)) &&
     ((field =? UCAL_DAY_OF_MONTH) || (field =? UCAL_WEEK_OF_MONTH))
  then
    let! max := monthLength g c (internalGet c UCAL_MONTH) in
    let t := c.(fTime) in
    let! cDayOfMonth := internalGet c UCAL_DAY_OF_MONTH -! (if dlt t g.(fGregorianCutover) then 0 else 10) in
    let! before := cDayOfMonth -! 1 in
    let cMonthStart := dsub t (dmul (of_int before) kOneDay) in
    if dlt cMonthStart g.(fGregorianCutover) then
      let! cMonthLen := max -! 10 in
      if dlt (dadd cMonthStart (dmul (of_int cMonthLen) kOneDay)) g.(fGregorianCutover) then Some None
      else Some (Some (cDayOfMonth, cMonthStart, cMonthLen))
    else Some None
  else Some None.

(** [roll] of DAY_OF_MONTH and of WEEK_OF_MONTH in that month. *)
Definition roll_day_in_cutover_month (c : Calendar) (cMonthStart : double) (cMonthLen amount : Z)
    (status : UErrorCode) : Calendar * UErrorCode :=
  let monthLen := dmul (of_int cMonthLen) kOneDay in
  let msIntoMonth := fmod_period (dadd (dsub c.(fTime) cMonthStart) (dmul (of_int amount) kOneDay)) monthLen in
  setTimeInMillis c (dadd cMonthStart msIntoMonth) status.

Definition roll_week_in_cutover_month (c : Calendar) (cDayOfMonth : Z) (cMonthStart : double)
    (cMonthLen amount : Z) (status : UErrorCode) : option State :=
  let! newDom := roll_week c cDayOfMonth cMonthLen amount in
  let! before := newDom -! 1 in
  Some (setTimeInMillis c (dadd cMonthStart (dmul (of_int before) kOneDay)) status).

(** [roll] of WEEK_OF_YEAR, from the computed fields; the last week is looked
    for when the sum leaves 1 to 52. *)
Definition roll_week_of_year {Z0 : TimeZone} (g : GregorianCalendar) (c : Calendar) (amount : Z) : option Calendar :=
  let woy := internalGet c UCAL_WEEK_OF_YEAR in
  let isoYear := internalGet c UCAL_YEAR_WOY in
  let isoDoy := internalGet c UCAL_DAY_OF_YEAR in
  let! isoDoy :=
    (if internalGet c UCAL_MONTH =? UCAL_JANUARY then
       if woy >=? 52 then isoDoy +! handleGetYearLength g isoYear else Some isoDoy
     else if woy =? 1 then
       let! previous := isoYear -! 1 in isoDoy -! handleGetYearLength g previous
     else Some isoDoy) in
  let! woy := woy +! amount in
  let! woy :=
    (if (woy <? 1) || (woy >? 52) then
       let! lastDoy := handleGetYearLength g isoYear in
       let! lastRelDow := (lastDoy -! isoDoy +! internalGet c UCAL_DAY_OF_WEEK -! c.(fFirstDayOfWeek)) %! 7 in
       let! lastRelDow := if lastRelDow <? 0 then lastRelDow +! 7 else Some lastRelDow in
       let! left := 6 -! lastRelDow in
       let! lastDoy := if left >=? c.(fMinimalDaysInFirstWeek) then lastDoy -! 7 else Some lastDoy in
       let! lastDow := lastRelDow +! 1 in
       let! lastWoy := weekNumber c lastDoy lastDoy lastDow in
       (woy +! lastWoy -! 1) %! lastWoy +! 1
     else Some woy) in
  let! c := set (C := system g) c UCAL_WEEK_OF_YEAR woy in
  set (C := system g) c UCAL_YEAR_WOY isoYear.

(** ** Changing the cutover *)

Section Zone.
Context {Z0 : TimeZone}.
Context (fRepeatedWallTime fSkippedWallTime : UCalendarWallTimeOption).

(** The year of the date is asked of a calendar with the default cutover, which
    is created here; [created] is that calendar, unless there is no memory for
    it, and the status after its constructor. *)
Definition setGregorianChange (g : GregorianCalendar) (created : option (Calendar * UErrorCode))
    (date : double) (status : UErrorCode) : option (GregorianCalendar * UErrorCode) :=
  if U_FAILURE status then Some (g, status)
  else
    let! cutoverDay := to_int32 (floorDivide_double date kOneDay) in
    let normalized := dmul (of_int cutoverDay) kOneDay in
    let! normalized :=
      (if (cutoverDay <? 0) && dlt (of_int 0) normalized
       then let! d := cutoverDay +! 1 in Some (dmul (of_int d) kOneDay) else Some normalized) in
    let g := mkGregorian date g.(fCutoverJulianDay) normalized g.(fGregorianCutoverYear)
               g.(fIsGregorian) g.(fInvertGregorian) in
    match created with
    | None => Some (g, U_MEMORY_ALLOCATION_ERROR)
    | Some (cal, status) =>
        if U_FAILURE status then Some (g, status)
        else
          let '(cal, status) := setTimeInMillis cal date status in
          let! '(year, cal, status) :=
            CalendarTime.get (C := system new) fRepeatedWallTime fSkippedWallTime cal UCAL_YEAR status in
          let! '(era, _, status) :=
            CalendarTime.get (C := system new) fRepeatedWallTime fSkippedWallTime cal UCAL_ERA status in
          let! year := if era =? BC then 1 -! year else Some year in
          Some (mkGregorian date cutoverDay normalized year g.(fIsGregorian) g.(fInvertGregorian), status)
    end.
End Zone.

End GregorianCalendar.

(** ** The two calendars *)

Module GregorianFacts.
Import ClockMath GregorianCalendar Gregorian.
Definition year_ok : Z -> Prop := GregoFacts.year_ok.

(** The day before a year, in the Julian and in the Gregorian calendar. *)
Definition j_before (y : Z) : Z := 365 * (y - 1) + (y - 1) / 4 + 1721423.
Definition g_before (y : Z) : Z := days_before_year y + 1721425.

Definition j_leap (y : Z) : bool := y mod 4 =? 0.

(** The days of the months before [m]. *)
Definition months_before (lp : bool) (m : Z) : Z :=
  nth (Z.to_nat m) [0;31;59;90;120;151;181;212;243;273;304;334] 0 + (if lp && (1 <? m) then 1 else 0).

Definition length_of_month (lp : bool) (m : Z) : Z :=
  if m =? 1 then if lp then 29 else 28 else if bool_decide (m ∈ [3; 5; 8; 10]) then 30 else 31.

(** The Julian day of a date in one of the calendars. *)
Definition day_in (gregorian : bool) (y m d : Z) : Z :=
  if gregorian then g_before y + months_before (leap y) m + d
  else j_before y + months_before (j_leap y) m + d.

Definition valid_in (gregorian : bool) (m d y : Z) : Prop :=
  0 <= m <= 11 /\ 1 <= d <= length_of_month (if gregorian then leap y else j_leap y) m.

Definition cutover_year : Z := 1582.

Lemma day_in_gregorian y m d : day_in true y m d = day_number (MkDate y m d) + 2440588.
Proof. unfold day_in, g_before, day_number, days_before_month, months_before. cbn [Gregorian.y Gregorian.m Gregorian.d]. lia. Qed.

Lemma land3 y : (Z.land y 3 =? 0) = (y mod 4 =? 0).
Proof. change 3 with (2 ^ 2 - 1). by rewrite land_low_mask by lia. Qed.

Lemma rem4 y : (Z.rem y 4 =? 0) = (y mod 4 =? 0).
Proof. apply eq_iff_eq_true. rewrite !Z.eqb_eq. dlia. Qed.

Lemma leap_rem y :
  (Z.rem y 4 =? 0) && (negb (Z.rem y 100 =? 0) || (Z.rem y 400 =? 0)) = leap y.
Proof.
  unfold leap. rewrite rem4. f_equal. f_equal; [f_equal|]; apply eq_iff_eq_true; rewrite !Z.eqb_eq; dlia.
Qed.

Lemma shift_spec y : year_ok y -> Grego.gregorianShift y = Some (g_before y - j_before y).
Proof.
  unfold year_ok, GregoFacts.year_ok. intros Hy. unfold Grego.gregorianShift. icalc.
  rewrite !floorDivide_ok by (done || ibound). icalc. f_equal.
  unfold g_before, j_before, days_before_year. lia.
Qed.

Lemma num_days lp m : 0 <= m <= 11 -> aget (if lp : bool then kLeapNumDays else kNumDays) m = Some (months_before lp m).
Proof. intros. unfold months_before. destruct lp; month_cases m; reflexivity. Qed.

Lemma months_before_range lp m : 0 <= m <= 11 -> 0 <= months_before lp m <= 335.
Proof. intros. unfold months_before. destruct lp; month_cases m; split; vm_compute; discriminate. Qed.

(** The start of a month: the Gregorian one from the cutover year on, unless it
    is inverted. *)
Lemma month_start_spec g y m :
  year_ok y -> 0 <= m <= 11 ->
  let b := if g.(fInvertGregorian) then negb (y >=? g.(fGregorianCutoverYear)) else y >=? g.(fGregorianCutoverYear) in
  month_start g y m = Some (day_in b y m 0, b).
Proof.
  intros Hy Hm b. unfold year_ok, GregoFacts.year_ok in Hy. unfold month_start. rewrite adjust_month_id by done. cbn [obind].
  icalc. rewrite floorDivide_ok by (done || ibound). unfold kJan1_1JulianDay. icalc.
  assert (Hj : 365 * (y - 1) + (y - 1) / 4 + (1721426 - 3) = j_before y) by (unfold j_before; lia).
  rewrite Hj. assert (Hjb : Z.abs (j_before y) <= 2130000000) by (unfold j_before; dlia). fold b.
  assert (H : (let! '(isLeap, julianDay) :=
    (if b then
       let! gregShift := Grego.gregorianShift y in
       let! julianDay := j_before y +! gregShift in
       Some ((Z.rem y 4 =? 0) && (negb (Z.rem y 100 =? 0) || (Z.rem y 400 =? 0)), julianDay)
     else Some (Z.rem y 4 =? 0, j_before y)) in Some (isLeap, julianDay)) =
    Some (if b then leap y else j_leap y, if b then g_before y else j_before y)).
  { destruct b; cbn [obind].
    - rewrite shift_spec by (unfold year_ok, GregoFacts.year_ok; lia). cbn [obind].
      rewrite iadd_ok by (unfold g_before, days_before_year, j_before in *; ibound). cbn [obind].
      rewrite leap_rem. do 2 f_equal. lia.
    - by rewrite rem4. }
  destruct (if b then _ else _) as [[lp jd]|]; [|done]. cbn [obind] in *. injection H as -> ->.
  assert (Hgb : Z.abs (if b then g_before y else j_before y) <= 2130000000)
    by (destruct b; [unfold g_before, days_before_year; dlia|done]).
  pose proof (months_before_range (if b then leap y else j_leap y) m Hm).
  destruct (Z.eqb_spec m 0) as [->|Hne]; cbn [negb].
  - assert (H0 : forall lp, months_before lp 0 = 0) by (intros lp; unfold months_before; by rewrite andb_false_r).
    unfold day_in. do 2 f_equal. destruct b; rewrite H0; lia.
  - rewrite num_days by done. cbn [obind]. rewrite iadd_ok by ibound. cbn [obind].
    unfold day_in. do 2 f_equal. destruct b; lia.
Qed.

Lemma computeMonthStart_spec g y m :
  year_ok y -> 0 <= m <= 11 ->
  handleComputeMonthStart g y m =
    Some (day_in (if g.(fInvertGregorian) then negb (y >=? g.(fGregorianCutoverYear))
                  else y >=? g.(fGregorianCutoverYear)) y m 0).
Proof. intros Hy Hm. unfold handleComputeMonthStart. by rewrite month_start_spec. Qed.

(** The fields of a day in the Julian calendar. *)
Lemma julian_month_spec lp doy :
  0 <= doy < (if lp : bool then 366 else 365) ->
  let m := GregoFacts.month_of lp doy in
  0 <= m <= 11 /\ months_before lp m <= doy < months_before lp m + length_of_month lp m.
Proof.
  intros Hd m. set (check := fun doy => let m := GregoFacts.month_of lp doy in
    (0 <=? m) && (m <=? 11) && (months_before lp m <=? doy) && (doy <? months_before lp m + length_of_month lp m)).
  assert (H : all_below (if lp then 366 else 365) check = true)
    by (unfold check, length_of_month; destruct lp; vm_compute; done).
  pose proof (all_below_spec _ _ H doy ltac:(lia)) as Hc. unfold check in Hc. fold m in Hc.
  rewrite !andb_true_iff, !Z.leb_le, Z.ltb_lt in Hc. lia.
Qed.

Lemma julian_fields_spec jd :
  Z.abs jd <= 2000000000 ->
  exists y m d, julian_fields jd = Some (y, m, d, jd - j_before y) /\ Z.abs y <= 5500000 /\
    valid_in false m d y /\ day_in false y m d = jd.
Proof.
  intros Hjd. unfold julian_fields, kJan1_1JulianDay. icalc. set (e := jd - (1721426 - 2)).
  rewrite dmul_int, dadd_int by (unfold e; lia).
  set (y := (4 * e + 1464) / 1461). assert (Hyr : Z.abs y <= 5500000) by (unfold y, e; dlia).
  rewrite floorDivide_int_ok by (fold y; unfold e; ibound || lia). cbn [obind]. fold y. icalc.
  rewrite floorDivide_ok by (done || ibound). icalc.
  assert (Hdoy : 0 <= e - (365 * (y - 1) + (y - 1) / 4) < (if j_leap y then 366 else 365)).
  { unfold j_leap. clear -y. destruct (Z.eqb_spec (y mod 4) 0) as [H|H]; unfold y in *; clearbody e; clear y; dlia. }
  assert (Hdoy' : e - (365 * (y - 1) + (y - 1) / 4) < 366) by (destruct (j_leap y); lia).
  rewrite isub_ok by ibound. cbn [obind].
  remember (e - (365 * (y - 1) + (y - 1) / 4)) as doy eqn:Edoy.
  rewrite land3. fold (j_leap y).
  pose proof (julian_month_spec (j_leap y) doy Hdoy) as [Hm Hb]. cbv zeta in Hm, Hb.
  unfold GregoFacts.month_of in Hm, Hb. cbv zeta in Hm, Hb.
  set (corr := if doy >=? _ then _ else _) in *.
  assert (0 <= corr <= 2) by (unfold corr; repeat case_match; lia).
  icalc. set (mo := (12 * (doy + corr) + 6) / 367) in *. rewrite num_days by done. cbn [obind].
  assert (Hl : 28 <= length_of_month (j_leap y) mo <= 31) by (unfold length_of_month; repeat case_match; lia).
  icalc. exists y, mo, (doy - months_before (j_leap y) mo + 1).
  assert (Hjb : jd - j_before y = doy + 1) by (rewrite Edoy; unfold e, j_before; lia).
  split; [by rewrite Hjb|]. split; [done|]. split; [unfold valid_in; lia|].
  unfold day_in. lia.
Qed.

(** ** From the fields to the day *)

(** The year of the fields, before and after [handleComputeJulianDay] stores it. *)
Definition names_year (c : Calendar) (y : Z) : Prop :=
  forall g, handleGetExtendedYear g c = Some y /\
    handleGetExtendedYear g (internalSet c UCAL_EXTENDED_YEAR y) = Some y.

Lemma isSet_internalSet c f f' v : isSet c f = true -> isSet (internalSet c f' v) f = true.
Proof.
  unfold isSet, internalSet. cbn [with_stamps set_field with_fields fStamp fAreFieldsVirtuallySet].
  intros [->|H]%orb_true_iff; [done|]. unfold fset. case_match; [apply orb_true_r|]. by rewrite H, orb_true_r.
Qed.

Lemma get_default_set c f v : isSet c f = true -> 0 < c.(fStamp) f -> internalGet_default c f v = c.(fFields) f.
Proof. intros _ H. unfold internalGet_default, kUnset. by rewrite Z.gtb_ltb, (proj2 (Z.ltb_lt _ _)). Qed.

(** The day that the month and a day of it, or the day of the year, denote in
    one pass: the calendar is the Gregorian one from the cutover year on, or
    before it when the calendars are exchanged. *)
Definition pass_gregorian (g : GregorianCalendar) (y m : Z) : bool :=
  xorb g.(fInvertGregorian) (y + m / 12 >=? g.(fGregorianCutoverYear)).

Lemma month_start_any g y m :
  year_ok y -> year_ok (y + m / 12) -> Z.abs m <= 1000000 ->
  month_start g y m =
    Some (day_in (pass_gregorian g y m) (y + m / 12) (m mod 12) 0, pass_gregorian g y m).
Proof.
  intros Hy Hy' Hm. unfold month_start.
  assert (adjust_month y m = adjust_month (y + m / 12) (m mod 12)) as ->.
  { rewrite (adjust_month_id (y + m / 12)) by dlia. destruct (decide (0 <= m <= 11)).
    - rewrite adjust_month_id by done. f_equal. f_equal; dlia.
    - unfold adjust_month. unfold year_ok, GregoFacts.year_ok in *.
      replace ((m <? 0) || (m >? 11)) with true by (symmetry; rewrite orb_true_iff, Z.gtb_ltb, !Z.ltb_lt; lia).
      rewrite floorDivide_int_ok by (unfold INT32_MAX; dlia). cbn [obind].
      rewrite iadd_ok by ibound. done. }
  pose proof (month_start_spec g (y + m / 12) (m mod 12) Hy' ltac:(dlia)) as H.
  unfold month_start, pass_gregorian in *. rewrite adjust_month_id in * by dlia. cbn [obind] in *.
  rewrite H. cbn zeta. by destruct (fInvertGregorian g).
Qed.

Lemma computeMonthStart_any g y m :
  year_ok y -> year_ok (y + m / 12) -> Z.abs m <= 1000000 ->
  handleComputeMonthStart g y m = Some (day_in (pass_gregorian g y m) (y + m / 12) (m mod 12) 0).
Proof. intros. unfold handleComputeMonthStart. by rewrite month_start_any. Qed.

Lemma day_in_bounds b y m : year_ok y -> 0 <= m <= 11 -> Z.abs (day_in b y m 0) <= 2130000000.
Proof.
  intros Hy Hm. unfold year_ok, GregoFacts.year_ok in Hy. unfold day_in.
  destruct b; [pose proof (months_before_range (leap y) m Hm)|pose proof (months_before_range (j_leap y) m Hm)];
    unfold g_before, days_before_year, j_before; dlia.
Qed.

Lemma day_in_plus b y m d : day_in b y m d = day_in b y m 0 + d.
Proof. unfold day_in. destruct b; lia. Qed.

Lemma pass_month g c y m d :
  handleGetExtendedYear g c = Some y -> year_ok y -> year_ok (y + m / 12) -> Z.abs m <= 1000000 ->
  Z.abs d <= 10000000 ->
  0 < c.(fStamp) UCAL_MONTH -> c.(fFields) UCAL_MONTH = m ->
  0 < c.(fStamp) UCAL_DAY_OF_MONTH -> c.(fFields) UCAL_DAY_OF_MONTH = d ->
  base_julian_day g c UCAL_DAY_OF_MONTH =
    Some (day_in (pass_gregorian g y m) (y + m / 12) (m mod 12) d, internalSet c UCAL_EXTENDED_YEAR y,
          with_is_gregorian g (pass_gregorian g y m)).
Proof.
  intros Hgy Hy Hy' Hm Hd Sm Fm Sd Fd. unfold base_julian_day, CalendarFields.handleComputeJulianDay, last_month_start.
  cbn [system CalendarSystem.handleGetExtendedYear CalendarSystem.handleComputeMonthStart].
  rewrite Hgy. cbn [obind]. eval_eqb. cbn [orb andb].
  assert (Hs : forall f, f <> UCAL_EXTENDED_YEAR -> 0 < c.(fStamp) f -> isSet (internalSet c UCAL_EXTENDED_YEAR y) f = true).
  { intros f _ Hf. apply isSet_internalSet. unfold isSet, kUnset.
    rewrite (proj2 (Z.eqb_neq _ 0)) by lia. apply orb_true_r. }
  rewrite !Hs by done.
  change (internalGet (internalSet c UCAL_EXTENDED_YEAR y) UCAL_MONTH) with (c.(fFields) UCAL_MONTH).
  change (internalGet_default (internalSet c UCAL_EXTENDED_YEAR y) UCAL_DAY_OF_MONTH 1)
    with (internalGet_default c UCAL_DAY_OF_MONTH 1).
  unfold internalGet_default, kUnset. rewrite Z.gtb_ltb, (proj2 (Z.ltb_lt _ _)), Fm, Fd by done.
  rewrite computeMonthStart_any by done. cbn [obind].
  pose proof (day_in_bounds (pass_gregorian g y m) (y + m / 12) (m mod 12) Hy' ltac:(dlia)).
  rewrite iadd_ok by ibound. cbn [obind]. rewrite month_start_any by done. cbn [obind].
  by rewrite <- day_in_plus.
Qed.

Lemma pass_day_of_year g c y n :
  handleGetExtendedYear g c = Some y -> year_ok y -> Z.abs n <= 10000000 ->
  c.(fFields) UCAL_DAY_OF_YEAR = n ->
  base_julian_day g c UCAL_DAY_OF_YEAR =
    Some (day_in (pass_gregorian g y 0) y 0 n, internalSet c UCAL_EXTENDED_YEAR y,
          with_is_gregorian g (pass_gregorian g y 0)).
Proof.
  intros Hgy Hy Hn Fn. unfold base_julian_day, CalendarFields.handleComputeJulianDay, last_month_start.
  cbn [system CalendarSystem.handleGetExtendedYear CalendarSystem.handleComputeMonthStart].
  rewrite Hgy. cbn [obind]. eval_eqb. cbn [orb andb].
  change (internalGet (internalSet c UCAL_EXTENDED_YEAR y) UCAL_DAY_OF_YEAR) with (c.(fFields) UCAL_DAY_OF_YEAR).
  assert (y + 0 / 12 = y) as E by apply Z.add_0_r.
  rewrite computeMonthStart_any, E by (rewrite ?E; done). change (0 mod 12) with 0. cbn [obind].
  pose proof (day_in_bounds (pass_gregorian g y 0) y 0 Hy ltac:(lia)). rewrite Fn.
  rewrite iadd_ok by ibound. cbn [obind]. rewrite month_start_any, E by (rewrite ?E; done). cbn [obind].
  by rewrite <- day_in_plus.
Qed.

(** The calendar a day is counted in, when [b] tells the calendar of the first
    pass and [day] the day in either calendar: the other one when the first
    pass has gone over the cutover. *)
Definition settle (g : GregorianCalendar) (b : bool) (day : bool -> Z) : bool :=
  if Bool.eqb b (day b >=? g.(fCutoverJulianDay)) then b else negb b.

Definition in_calendar (g : GregorianCalendar) (y m : Z) : bool := y + m / 12 >=? g.(fGregorianCutoverYear).

Lemma two_passes g c best b day y :
  best <> UCAL_WEEK_OF_YEAR ->
  base_julian_day (with_invert g false) c best =
    Some (day b, internalSet c UCAL_EXTENDED_YEAR y, with_is_gregorian (with_invert g false) b) ->
  (forall g', g' = with_invert (with_is_gregorian (with_invert g false) b) true ->
    base_julian_day g' (internalSet c UCAL_EXTENDED_YEAR y) best =
      Some (day (negb b), internalSet (internalSet c UCAL_EXTENDED_YEAR y) UCAL_EXTENDED_YEAR y,
            with_is_gregorian g' (negb b))) ->
  exists c' g', handleComputeJulianDay g c best = adjust_in_cutover_year best (day (settle g b day)) c' g' /\
    internalGet c' UCAL_EXTENDED_YEAR = y /\ g'.(fIsGregorian) = settle g b day /\
    g'.(fGregorianCutoverYear) = g.(fGregorianCutoverYear).
Proof.
  intros Hb H1 H2. unfold handleComputeJulianDay. rewrite H1. cbn [obind].
  rewrite (proj2 (Z.eqb_neq _ _) Hb). cbn [andb with_is_gregorian with_invert fIsGregorian fCutoverJulianDay].
  unfold settle. destruct (Bool.eqb b _) eqn:E; cbn [negb obind].
  - do 2 eexists. split; [reflexivity|]. split; [apply fset_eq|done].
  - rewrite (H2 _ eq_refl). cbn [obind]. do 2 eexists. split; [reflexivity|]. split; [apply fset_eq|done].
Qed.

Lemma julian_day_of_month g c y m d :
  names_year c y -> year_ok y -> year_ok (y + m / 12) -> Z.abs m <= 1000000 -> Z.abs d <= 10000000 ->
  0 < c.(fStamp) UCAL_MONTH -> c.(fFields) UCAL_MONTH = m ->
  0 < c.(fStamp) UCAL_DAY_OF_MONTH -> c.(fFields) UCAL_DAY_OF_MONTH = d ->
  let day b := day_in b (y + m / 12) (m mod 12) d in
  exists c' g', handleComputeJulianDay g c UCAL_DAY_OF_MONTH =
    Some (day (settle g (in_calendar g y m) day), c', g').
Proof.
  intros Hn Hy Hy' Hm Hd Sm Fm Sd Fd day.
  destruct (two_passes g c UCAL_DAY_OF_MONTH (in_calendar g y m) day y) as (c' & g' & -> & Hc & _); [done|..].
  - rewrite (pass_month _ c y m d) by (done || apply Hn). done.
  - intros g' ->. rewrite (pass_month _ _ y m d) by (done || apply Hn). done.
  - exists c', g'. unfold adjust_in_cutover_year. rewrite Hc, shift_spec by done. eval_eqb. by case_match.
Qed.

(** In the cutover year, days of the year count from its Julian start. *)
Definition year_start (g : GregorianCalendar) (y : Z) : Z :=
  if y <=? g.(fGregorianCutoverYear) then j_before y else g_before y.

Lemma day_in_january b y n : day_in b y 0 n = (if b then g_before y else j_before y) + n.
Proof.
  assert (H : forall lp, months_before lp 0 = 0) by (intros []; reflexivity).
  unfold day_in. rewrite !H. destruct b; lia.
Qed.

Lemma julian_day_of_year g c y n :
  names_year c y -> year_ok y -> Z.abs n <= 10000000 -> c.(fFields) UCAL_DAY_OF_YEAR = n ->
  let day b := day_in b y 0 n in
  exists c' g', handleComputeJulianDay g c UCAL_DAY_OF_YEAR =
    Some (if y =? g.(fGregorianCutoverYear) then j_before y + n else day (settle g (in_calendar g y 0) day), c', g').
Proof.
  intros Hn Hy Hn' Fn day.
  destruct (two_passes g c UCAL_DAY_OF_YEAR (in_calendar g y 0) day y) as (c' & g' & -> & Hc & Hg & Hcy); [done|..].
  - rewrite (pass_day_of_year _ c y n) by (done || apply Hn). done.
  - intros g' ->. rewrite (pass_day_of_year _ _ y n) by (done || apply Hn). done.
  - exists c', g'. unfold adjust_in_cutover_year. rewrite Hc, shift_spec, Hg, Hcy by done. eval_eqb. unfold day.
    pose proof (day_in_bounds false y 0 Hy ltac:(lia)) as Hjb. pose proof (day_in_bounds true y 0 Hy ltac:(lia)) as Hgb.
    rewrite day_in_january in Hjb, Hgb |- *. destruct (settle _ _ _), (Z.eqb_spec y (fGregorianCutoverYear g)); cbn [andb]; try done.
    assert (Z.abs (g_before y - j_before y) <= 100000) by (unfold g_before, j_before, days_before_year, year_ok, GregoFacts.year_ok in *; dlia).
    cbn [obind]. rewrite isub_ok by ibound. cbn [obind]. do 3 f_equal. lia.
Qed.

(** ** The fields of a day *)

(** The cutover that every constructor sets. *)
Definition default_cutover (g : GregorianCalendar) : Prop :=
  g.(fCutoverJulianDay) = kCutoverJulianDay /\ g.(fGregorianCutoverYear) = 1582.

(** The date fields as [handleComputeFields] sets them. *)
Record fields_are (g : GregorianCalendar) (c : Calendar) (jd y m d : Z) : Prop := {
  are_year : c.(fFields) UCAL_EXTENDED_YEAR = y;
  are_month : c.(fFields) UCAL_MONTH = m;
  are_day : c.(fFields) UCAL_DAY_OF_MONTH = d;
  are_day_of_year : c.(fFields) UCAL_DAY_OF_YEAR = jd - year_start g y;
  are_era_year : (c.(fFields) UCAL_ERA, c.(fFields) UCAL_YEAR) = if y <? 1 then (BC, 1 - y) else (AD, y);
  are_stamps f : is_date_field f = true -> c.(fStamp) f = kInternallySet
}.

Lemma month_length_of y m : month_length y m = length_of_month (leap y) m.
Proof. reflexivity. Qed.

(** On which side of the cutover a date of a year lies. *)
Lemma gregorian_year_from y m d :
  valid_in true m d y -> kCutoverJulianDay <= day_in true y m d -> 1582 <= y.
Proof.
  intros [Hm Hd] Hc. unfold kCutoverJulianDay in Hc. rewrite <- month_length_of in Hd.
  pose proof (GregoProperties.days_before_month_bounds y m Hm) as Hb.
  rewrite day_in_gregorian in Hc. unfold day_number in Hc. cbn [Gregorian.y Gregorian.m Gregorian.d] in Hc.
  assert (year_length y <= 366) by (unfold year_length; case_match; lia).
  unfold days_before_year in Hc. dlia.
Qed.

Lemma julian_year_to y m d :
  valid_in false m d y -> day_in false y m d < kCutoverJulianDay -> y <= 1582.
Proof.
  intros [Hm Hd] Hc. unfold kCutoverJulianDay, day_in, j_before in Hc.
  pose proof (months_before_range (j_leap y) m Hm). dlia.
Qed.

(** The year, month, day and day of the year before ERA and YEAR. *)
Lemma hybrid_fields g c c1 jd :
  default_cutover g -> Z.abs jd <= 2000000000 -> computeGregorianFields c jd = Some c1 ->
  exists y m d,
    (if jd >=? g.(fCutoverJulianDay) then
       Some (c1.(fGregorianYear), c1.(fGregorianMonth), c1.(fGregorianDayOfMonth), c1.(fGregorianDayOfYear))
     else julian_fields jd) =
      Some (y, m, d, jd - (if jd >=? g.(fCutoverJulianDay) then g_before y else j_before y)) /\
    Z.abs y <= 5500000 /\ valid_in (jd >=? g.(fCutoverJulianDay)) m d y /\
    day_in (jd >=? g.(fCutoverJulianDay)) y m d = jd /\
    (if jd >=? g.(fCutoverJulianDay) then 1582 <= y else y <= 1582).
Proof.
  intros [Hd _] Hjd Hc. rewrite Hd. rewrite Z.geb_leb. destruct (Z.leb_spec kCutoverJulianDay jd) as [Hg|Hg].
  - unfold computeGregorianFields in Hc. rewrite isub_ok in Hc by (unfold CalendarFields.kEpochStartAsJulianDay; ibound).
    cbn [obind] in Hc. unfold CalendarFields.kEpochStartAsJulianDay in Hc.
    destruct (GregoFacts.dayToFields_spec (jd - 2440588) ltac:(lia)) as (f & Hf & Hv & Heq & _ & Hdoy).
    rewrite Hf in Hc. injection Hc as <-. cbn [with_gregorian fGregorianYear fGregorianMonth fGregorianDayOfMonth fGregorianDayOfYear].
    exists f.(Grego.year), f.(Grego.month), f.(Grego.dom).
    assert (Hday : day_in true f.(Grego.year) f.(Grego.month) f.(Grego.dom) = jd) by (rewrite day_in_gregorian; lia).
    assert (Hvi : valid_in true f.(Grego.month) f.(Grego.dom) f.(Grego.year)) by exact Hv.
    pose proof (gregorian_year_from _ _ _ Hvi ltac:(lia)).
    split; [|split; [|done]].
    + rewrite Hdoy. do 2 f_equal. unfold day_number, days_before_month, g_before. cbn [Gregorian.y Gregorian.m Gregorian.d].
      rewrite andb_false_r. change (Z.to_nat 0) with 0%nat. cbn [nth]. lia.
    + destruct Hvi as [Hm Hdd]. unfold day_in, g_before, days_before_year in Hday.
      pose proof (months_before_range (leap (Grego.year f)) (Grego.month f) Hm). dlia.
  - destruct (julian_fields_spec jd Hjd) as (y & m & d & Hf & Hy & Hv & Hday).
    exists y, m, d. split; [done|]. split; [done|]. split; [done|]. split; [done|].
    apply (julian_year_to y m d); [done|lia].
Qed.

Lemma handleComputeFields_spec g c c1 jd :
  default_cutover g -> Z.abs jd <= 2000000000 -> computeGregorianFields c jd = Some c1 ->
  exists c2 y m d,
    handleComputeFields g c1 jd U_ZERO_ERROR = Some (c2, U_ZERO_ERROR) /\ Z.abs y <= 5500000 /\
    let b := jd >=? kCutoverJulianDay in
    valid_in b m d y /\ day_in b y m d = jd /\ (if b then 1582 <= y else y <= 1582) /\
    fields_are g c2 jd y m d /\ forall f, is_date_field f = false -> c2.(fStamp) f = c1.(fStamp) f.
Proof.
  intros Hg Hjd Hc. destruct (hybrid_fields g c c1 jd Hg Hjd Hc) as (y & m & d & Hf & Hy & Hv & Hday & Hside).
  unfold handleComputeFields. cbn [U_FAILURE]. rewrite Hf. cbn [obind].
  destruct Hg as [Hcd Hcy]. rewrite Hcd, Hcy in *. set (b := jd >=? kCutoverJulianDay) in *.
  assert (Hstart : year_start g y = if y =? 1582 then j_before y else if b then g_before y else j_before y).
  { unfold year_start. rewrite Hcy. destruct (Z.eqb_spec y 1582) as [->|Hne]; [done|].
    destruct b; [rewrite (proj2 (Z.leb_gt _ _)) by lia|rewrite (proj2 (Z.leb_le _ _)) by lia]; done. }
  assert (Hjb : Z.abs (jd - (if b then g_before y else j_before y)) <= 400).
  { destruct b; destruct Hv as [Hm Hd]; unfold day_in in Hday;
      [pose proof (months_before_range (leap y) m Hm)|pose proof (months_before_range (j_leap y) m Hm)];
      unfold length_of_month in Hd; repeat case_match; lia. }
  replace (if (y =? 1582) && b then _ else _) with (Some (jd - year_start g y)).
  2:{ rewrite Hstart. destruct (Z.eqb_spec y 1582) as [->|Hne]; [|done]. destruct b; [|done].
    cbn [andb]. rewrite shift_spec by (unfold year_ok, GregoFacts.year_ok; lia).
    assert (g_before 1582 - j_before 1582 = -10) as -> by reflexivity. rewrite iadd_ok by ibound.
    f_equal. assert (g_before 1582 = j_before 1582 - 10) as -> by reflexivity. lia. }
  cbn [obind]. exists (internalSets c1 [(UCAL_MONTH, m); (UCAL_DAY_OF_MONTH, d); (UCAL_DAY_OF_YEAR, jd - year_start g y);
    (UCAL_EXTENDED_YEAR, y); (UCAL_ERA, if y <? 1 then BC else AD); (UCAL_YEAR, if y <? 1 then 1 - y else y)]), y, m, d.
  split; [destruct (y <? 1); [rewrite isub_ok by ibound|]; reflexivity|]. split; [done|]. cbv zeta.
  split; [done|]. split; [done|]. split; [done|]. split.
  - constructor; try done; [destruct (y <? 1); reflexivity|].
    intros f Hdf. unfold is_date_field in Hdf. rewrite !orb_true_iff, !Z.eqb_eq in Hdf. destruct_or! Hdf; subst f; reflexivity.
  - intros f Hdf. unfold is_date_field in Hdf. rewrite !orb_false_iff, !Z.eqb_neq in Hdf. destruct_and! Hdf.
    unfold internalSets, internalSet. cbn [foldl with_stamps set_field with_fields fStamp].
    by rewrite !fset_ne by done.
Qed.

(** Fields that the library has set name their year. *)
Lemma names_year_internal g c jd y m d :
  fields_are g c jd y m d -> c.(fStamp) UCAL_YEAR_WOY <= kInternallySet -> names_year c y.
Proof.
  intros [Hy _ _ _ _ Hs] Hw g'. pose proof (Hs UCAL_EXTENDED_YEAR eq_refl) as H1. pose proof (Hs UCAL_YEAR eq_refl) as H2.
  assert (Hall : forall c', c'.(fStamp) UCAL_EXTENDED_YEAR = kInternallySet -> c'.(fStamp) UCAL_YEAR = kInternallySet ->
    c'.(fStamp) UCAL_YEAR_WOY <= kInternallySet -> c'.(fFields) UCAL_EXTENDED_YEAR = y ->
    handleGetExtendedYear g' c' = Some y).
  { intros c' S1 S2 S3 Hext. unfold handleGetExtendedYear. rewrite S1, S2, Z.ltb_irrefl, S1.
    rewrite (proj2 (Z.ltb_ge _ _)) by done. rewrite (Z.eqb_refl UCAL_EXTENDED_YEAR). unfold internalGet_default. by rewrite S1, Hext. }
  split; [by apply Hall|]. apply Hall; [apply fset_eq|done|done|apply fset_eq].
Qed.

(** The override keeps a day in the calendar of its side of the cutover. *)
Lemma settle_side g y m d :
  default_cutover g -> 0 <= m <= 11 ->
  let day b := day_in b y m d in
  forall b, (day b >=? kCutoverJulianDay) = b -> (if b then 1582 <= y else y <= 1582) ->
  settle g (in_calendar g y m) day = b.
Proof.
  intros [Hcd Hcy] Hm day b Hb Hside. unfold settle, in_calendar.
  rewrite Hcd, Hcy, (Z.div_small m 12), Z.add_0_r by lia. destruct b.
  - rewrite Z.geb_leb, (proj2 (Z.leb_le _ _)) by done. by rewrite Hb.
  - destruct (decide (y = 1582)) as [->|].
    + change (1582 >=? 1582) with true. assert (day true = day false - 10) as ->.
      { unfold day, day_in. change (leap 1582) with false. change (j_leap 1582) with false.
        assert (g_before 1582 = j_before 1582 - 10) as -> by reflexivity. lia. }
      rewrite Z.geb_leb, Z.leb_gt in Hb. by rewrite Z.geb_leb, (proj2 (Z.leb_gt _ _)) by lia.
    + rewrite (Z.geb_leb y), (proj2 (Z.leb_gt _ _)) by lia. by rewrite Hb.
Qed.

(** C29: Within 2000000000 days of the epoch of Julian days, the fields of a day
    are its date in the Julian calendar before 15 October 1582 and in the
    Gregorian calendar from it on, with the day of the year counted from the
    Julian 1 January up to 1582; and from the month and its day, as from the day
    of the year, [handleComputeJulianDay] finds the day again. *)
Theorem gregorian_roundtrip g c jd :
  default_cutover g -> Z.abs jd <= 2000000000 -> c.(fStamp) UCAL_YEAR_WOY <= kInternallySet ->
  let b := jd >=? kCutoverJulianDay in
  exists c1 c2 y m d,
    computeGregorianFields c jd = Some c1 /\
    handleComputeFields g c1 jd U_ZERO_ERROR = Some (c2, U_ZERO_ERROR) /\
    valid_in b m d y /\ day_in b y m d = jd /\ fields_are g c2 jd y m d /\
    forall best, best ∈ [UCAL_DAY_OF_MONTH; UCAL_DAY_OF_YEAR] ->
      exists c3 g3, handleComputeJulianDay g c2 best = Some (jd, c3, g3).
Proof.
  intros Hg Hjd Hw b.
  assert (Hc1 : exists c1, computeGregorianFields c jd = Some c1 /\ c1.(fStamp) = c.(fStamp)).
  { unfold computeGregorianFields, CalendarFields.kEpochStartAsJulianDay. rewrite isub_ok by ibound. cbn [obind].
    destruct (GregoFacts.dayToFields_spec (jd - 2440588) ltac:(lia)) as (f & -> & _). by eexists. }
  destruct Hc1 as (c1 & Hc1 & Hst).
  destruct (handleComputeFields_spec g c c1 jd Hg Hjd Hc1) as (c2 & y & m & d & Hf & Hy & Hv & Hday & Hside & Hare & Hrest).
  exists c1, c2, y, m, d. repeat (split; [done|]).
  assert (Hn : names_year c2 y) by (apply (names_year_internal g c2 jd y m d Hare); by rewrite Hrest, Hst).
  assert (Hyo : year_ok y) by (unfold year_ok, GregoFacts.year_ok; lia).
  destruct Hg as [Hcd Hcy], Hv as [Hm Hd]. fold b in Hd, Hday, Hside.
  assert (Hd' : 1 <= d <= 31) by (unfold length_of_month in Hd; repeat case_match; lia).
  intros best. rewrite !elem_of_cons, elem_of_nil. intros [->|[->|[]]].
  - destruct (julian_day_of_month g c2 y m d) as (c3 & g3 & ->); try done; try apply Hare; try lia;
      try (by rewrite (are_stamps _ _ _ _ _ _ Hare)); [rewrite (Z.div_small m 12), Z.add_0_r by lia; done|].
    rewrite (Z.div_small m 12), (Z.mod_small m 12), Z.add_0_r by lia.
    exists c3, g3. by rewrite (settle_side g y m d (conj Hcd Hcy) Hm b), Hday by (done || by rewrite Hday).
  - destruct (julian_day_of_year g c2 y (jd - year_start g y)) as (c3 & g3 & ->); try done; try apply Hare.
    { unfold year_start. rewrite Hcy. destruct b; unfold day_in in Hday.
      - pose proof (months_before_range (leap y) m Hm). destruct (Z.leb_spec y 1582); [|lia].
        assert (y = 1582) as -> by lia. change (g_before 1582) with (j_before 1582 - 10) in Hday. lia.
      - rewrite (proj2 (Z.leb_le _ _)) by done. pose proof (months_before_range (j_leap y) m Hm). lia. }
    exists c3, g3. unfold year_start. rewrite Hcy. destruct (Z.eqb_spec y 1582) as [->|].
    + change (1582 <=? 1582) with true. cbv iota. do 3 f_equal. lia.
    + assert (Hs : day_in b y 0 (jd - (if y <=? 1582 then j_before y else g_before y)) = jd).
      { rewrite day_in_january. destruct b; [rewrite (proj2 (Z.leb_gt _ _)) by lia|rewrite (proj2 (Z.leb_le _ _)) by lia]; lia. }
      by rewrite (settle_side g y 0 _ (conj Hcd Hcy) ltac:(lia) b), Hs by (done || by rewrite Hs).
Qed.

Lemma gregorian_roundtrip_witness :
  (default_cutover new /\ Z.abs 2299160 <= 2000000000 /\ (calendar_with []).(fStamp) UCAL_YEAR_WOY <= kInternallySet) /\
  let b := 2299160 >=? kCutoverJulianDay in
  exists c1 c2 y m d,
    computeGregorianFields (calendar_with []) 2299160 = Some c1 /\
    handleComputeFields new c1 2299160 U_ZERO_ERROR = Some (c2, U_ZERO_ERROR) /\
    valid_in b m d y /\ day_in b y m d = 2299160 /\ fields_are new c2 2299160 y m d /\
    forall best, best ∈ [UCAL_DAY_OF_MONTH; UCAL_DAY_OF_YEAR] ->
      exists c3 g3, handleComputeJulianDay new c2 best = Some (2299160, c3, g3).
Proof.
  split; [vm_compute; intuition discriminate|].
  apply (gregorian_roundtrip new (calendar_with []) 2299160); vm_compute; intuition discriminate.
Defined.

(** ** A date that has been set *)

Definition date_fields (y m d : Z) : Calendar :=
  calendar_with [(UCAL_YEAR, y); (UCAL_MONTH, m); (UCAL_DATE, d)].

Lemma date_fields_year y m d : names_year (date_fields y m d) y.
Proof. intros g. split; reflexivity. Qed.

Lemma date_fields_resolve g y m d :
  computeJulianDay g (date_fields y m d) = handleComputeJulianDay g (date_fields y m d) UCAL_DAY_OF_MONTH.
Proof.
  unfold computeJulianDay. assert (fStamp (date_fields y m d) UCAL_JULIAN_DAY = 0) as -> by reflexivity.
  assert (resolveFields (date_fields y m d) kDatePrecedence = UCAL_DAY_OF_MONTH) as -> by (vm_compute; reflexivity).
  done.
Qed.

(** C30: A lenient YEAR, MONTH and DATE, the month counted on from January and
    the date from the first of the month, denote the Gregorian day from 1582 on
    unless that is before the cutover, and the Julian day before 1582 unless
    that is from the cutover on; in that case the other calendar's.  Every date
    of the calendar so denotes its own day. *)
Theorem gregorian_set_date g y m d :
  default_cutover g -> Z.abs y <= 5000000 -> Z.abs m <= 1000000 -> Z.abs d <= 10000000 ->
  let day b := day_in b (y + m / 12) (m mod 12) d in
  exists jd c' g', computeJulianDay g (date_fields y m d) = Some (jd, c', g') /\
    jd = (if 1582 <=? y + m / 12
          then if kCutoverJulianDay <=? day true then day true else day false
          else if day false <? kCutoverJulianDay then day false else day true) /\
    forall b, valid_in b m d y -> (kCutoverJulianDay <=? day b) = b -> jd = day b.
Proof.
  intros Hg Hy Hm Hd day. assert (Hyo : year_ok y) by (unfold year_ok, GregoFacts.year_ok; lia).
  assert (Hyo' : year_ok (y + m / 12)) by (unfold year_ok, GregoFacts.year_ok; dlia).
  destruct (julian_day_of_month g (date_fields y m d) y m d (date_fields_year y m d) Hyo Hyo' Hm Hd
    eq_refl eq_refl eq_refl eq_refl) as (c' & g' & H).
  rewrite date_fields_resolve. exists (day (settle g (in_calendar g y m) day)), c', g'. split; [exact H|]. split.
  - destruct Hg as [Hcd Hcy]. unfold settle, in_calendar. rewrite Hcd, Hcy, !Z.geb_leb, Z.ltb_antisym.
    destruct (1582 <=? y + m / 12); [by destruct (_ <=? day true)|]. by destruct (_ <=? day false).
  - intros b Hv Hb. pose proof Hv as [Hm' _]. unfold day in *. rewrite (Z.mod_small m 12), (Z.div_small m 12), Z.add_0_r in * by lia.
    rewrite (settle_side g y m d Hg Hm' b); [done|by rewrite Z.geb_leb|].
    destruct b; [apply Z.leb_le in Hb; by apply (gregorian_year_from y m d)|].
    apply Z.leb_gt in Hb. by apply (julian_year_to y m d).
Qed.

Lemma gregorian_set_date_witness :
  (default_cutover new /\ Z.abs 1582 <= 5000000 /\ Z.abs 9 <= 1000000 /\ Z.abs 5 <= 10000000) /\
  let day b := day_in b (1582 + 9 / 12) (9 mod 12) 5 in
  exists jd c' g', computeJulianDay new (date_fields 1582 9 5) = Some (jd, c', g') /\
    jd = (if 1582 <=? 1582 + 9 / 12
          then if kCutoverJulianDay <=? day true then day true else day false
          else if day false <? kCutoverJulianDay then day false else day true) /\
    forall b, valid_in b 9 5 1582 -> (kCutoverJulianDay <=? day b) = b -> jd = day b.
Proof.
  split; [vm_compute; intuition discriminate|].
  apply (gregorian_set_date new 1582 9 5); vm_compute; intuition discriminate.
Defined.

(** ** Changing the cutover *)

(** [setGregorianChange] stores the day counted from 1970 where Julian days
    are compared with it: after it has been called with the default cutover
    itself, the calendar has the same cutover date and cutover year but is
    Gregorian from Julian day -141427 on, so that 4 October 1582 has become
    another day. *)
Theorem setGregorianChange_default_cutover :
  exists g, setGregorianChange (Z0 := fixed_zone 0) UCAL_WALLTIME_LAST UCAL_WALLTIME_LAST new
      (Some (calendar_with [], U_ZERO_ERROR)) kPapalCutover U_ZERO_ERROR = Some (g, U_ZERO_ERROR) /\
    deq g.(fGregorianCutover) new.(fGregorianCutover) = true /\
    g.(fGregorianCutoverYear) = new.(fGregorianCutoverYear) /\
    g.(fCutoverJulianDay) = new.(fCutoverJulianDay) - CalendarFields.kEpochStartAsJulianDay /\
    (forall y m d, 0 <= m <= 11 -> Z.abs y <= 5000000 -> Z.abs d <= 10000000 ->
       -141427 <= day_in false y m d -> -141427 <= day_in true y m d ->
       exists c' g', computeJulianDay g (date_fields y m d) = Some (day_in true y m d, c', g')) /\
    option_map (fun '(jd, _, _) => jd) (computeJulianDay new (date_fields 1582 9 4)) =
      Some (day_in false 1582 9 4) /\
    option_map (fun '(jd, _, _) => jd) (computeJulianDay g (date_fields 1582 9 4)) =
      Some (day_in false 1582 9 4 - 10).
Proof.
  eexists. split; [vm_compute; reflexivity|]. split; [vm_compute; reflexivity|].
  split; [reflexivity|]. split; [reflexivity|]. split; [|split; vm_compute; reflexivity].
  set (g := mkGregorian _ _ _ _ _ _). intros y m d Hm Hy Hd Hj Hgr.
  assert (Hyo : year_ok y) by (unfold year_ok, GregoFacts.year_ok; lia).
  assert (E : y + m / 12 = y) by (rewrite (Z.div_small m 12) by lia; lia).
  rewrite date_fields_resolve.
  destruct (julian_day_of_month g (date_fields y m d) y m d (date_fields_year y m d) Hyo ltac:(by rewrite E)
    ltac:(lia) Hd eq_refl eq_refl eq_refl eq_refl) as (c' & g' & ->).
  exists c', g'. rewrite E, (Z.mod_small m 12) by lia. unfold settle.
  change (fCutoverJulianDay g) with (-141427). destruct (in_calendar g y m);
    by rewrite Z.geb_leb, (proj2 (Z.leb_le _ _)) by done.
Qed.

(** When the second pass is needed, it no longer finds an EXTENDED_YEAR that was
    set after a YEAR: the first pass has stored it with an older stamp. *)
Example second_pass_takes_year :
  option_map (fun '(jd, _, _) => jd) (computeJulianDay new
    (calendar_with [(UCAL_EXTENDED_YEAR, 1582); (UCAL_MONTH, 9); (UCAL_DATE, 4)])) = Some (day_in false 1582 9 4) /\
  option_map (fun '(jd, _, _) => jd) (computeJulianDay new
    (calendar_with [(UCAL_YEAR, 2000); (UCAL_EXTENDED_YEAR, 1582); (UCAL_MONTH, 9); (UCAL_DATE, 4)])) =
    Some (day_in false 2000 9 4).
Proof. split; vm_compute; reflexivity. Qed.

End GregorianFacts.
