(* ===== verification/UString.v ===== *)
(** * String functions on arrays of code units (src/common/ustring.cpp)

    Measuring a NUL-terminated string and terminating the output of a function
    that writes into a buffer of the caller.  Such a function writes what fits,
    returns the full length, and tells in the error code how they compare. *)
From S2P Require Import Prelude Int32 Utf16.
Local Open Scope Z_scope.

(** The loop to the NUL; the fuel is the length of the array. *)
Fixpoint u_strlen_loop (fuel : nat) (s : list Z) (t : Z) : option Z :=
  match fuel with
  | O => None
  | S fuel' => c ← aget s t; if negb (c =? 0) then u_strlen_loop fuel' s (t + 1) else Some t
  end.

Definition u_strlen (s : list Z) : option Z := u_strlen_loop (List.length s) s 0.

(** [__TERMINATE_STRING]; a null [dest] is [None]. *)
Definition u_terminateUChars (dest : option (list Z)) (destCapacity length : Z) (errorCode : UErrorCode)
    : option (option (list Z) * UErrorCode) :=
  if U_SUCCESS errorCode then
    if length <? 0 then Some (dest, errorCode)
    else if length <? destCapacity then
      d ← dest;
      d ← aset d length 0;
      Some (Some d, if decide (errorCode = U_STRING_NOT_TERMINATED_WARNING) then U_ZERO_ERROR else errorCode)
    else if length =? destCapacity then Some (dest, U_STRING_NOT_TERMINATED_WARNING)
    else Some (dest, U_BUFFER_OVERFLOW_ERROR)
  else Some (dest, errorCode).

(** [if(i<destCapacity) dest[i]=v;] *)
Definition write (dest : option (list Z)) (destCapacity i v : Z) : option (option (list Z)) :=
  if i <? destCapacity then d ← dest; d ← aset d i v; Some (Some d) else Some dest.

(** [uprv_memmove(l+dst, l+src, n)] on the cells of one array. *)
Definition memmove {A} (l : list A) (dst src n : Z) : option (list A) :=
  if (0 <=? dst) && (0 <=? src) && (0 <=? n) &&
     (dst + n <=? Z.of_nat (List.length l)) && (src + n <=? Z.of_nat (List.length l)) then
    Some (take (Z.to_nat dst) l ++ take (Z.to_nat n) (drop (Z.to_nat src) l)
            ++ drop (Z.to_nat (dst + n)) l)
  else None.

(** ** What the functions do to a buffer *)

Definition capacity (dest : option (list Z)) : Z :=
  match dest with Some d => Z.of_nat (List.length d) | None => 0 end.

(** The buffer after the units [out] have been written as far as they fit. *)
Definition overlay (dest : option (list Z)) (out : list Z) : option (list Z) :=
  match dest with
  | Some d => Some (take (List.length d) out ++ drop (List.length out) d)
  | None => None
  end.

Lemma overlay_nil dest : overlay dest [] = dest.
Proof. destruct dest as [d|]; [|done]. cbn. by rewrite take_nil. Qed.

Lemma overlay_fits d out : (List.length out <= List.length d)%nat ->
  overlay (Some d) out = Some (out ++ drop (List.length out) d).
Proof. intros. cbn. by rewrite take_ge by lia. Qed.

Lemma write_overlay dest out v :
  write (overlay dest out) (capacity dest) (Z.of_nat (List.length out)) v =
    Some (overlay dest (out ++ [v])).
Proof.
  unfold write. destruct dest as [d|]; cbn [capacity]; [|by rewrite (proj2 (Z.ltb_ge _ _)) by lia].
  destruct (Z.ltb_spec (Z.of_nat (List.length out)) (Z.of_nat (List.length d))).
  - rewrite !overlay_fits by (rewrite ?length_app; simpl; lia). cbn [mbind option_bind].
    rewrite aset_nat by (rewrite length_app, length_drop; lia). cbn [mbind option_bind].
    destruct (lookup_lt_is_Some_2 d (List.length out)) as [x Hx]; [lia|].
    rewrite (drop_S _ _ _ Hx), insert_app_r_alt, Nat.sub_diag by lia. cbn.
    by rewrite <- app_assoc, length_app, Nat.add_comm.
  - cbn. rewrite take_app_le by lia. do 3 f_equal. rewrite !drop_ge; [done|..]; rewrite ?length_app; simpl; lia.
Qed.

Definition termination (capacity length : Z) (errorCode : UErrorCode) : UErrorCode :=
  if length <? capacity then
    if decide (errorCode = U_STRING_NOT_TERMINATED_WARNING) then U_ZERO_ERROR else errorCode
  else if length =? capacity then U_STRING_NOT_TERMINATED_WARNING else U_BUFFER_OVERFLOW_ERROR.

Lemma terminate_overlay dest out e : U_SUCCESS e = true ->
  u_terminateUChars (overlay dest out) (capacity dest) (Z.of_nat (List.length out)) e =
    Some (overlay dest (out ++ [0]), termination (capacity dest) (Z.of_nat (List.length out)) e).
Proof.
  intros He. unfold u_terminateUChars, termination. rewrite He.
  rewrite (proj2 (Z.ltb_ge _ 0)) by lia. pose proof (write_overlay dest out 0) as Hw. unfold write in Hw.
  destruct (Z.ltb_spec (Z.of_nat (List.length out)) (capacity dest)).
  - destruct (overlay dest out) as [d|]; [|done]. cbn [mbind option_bind] in *.
    destruct (aset d (Z.of_nat (List.length out)) 0) as [d'|]; [|done].
    cbn [mbind option_bind] in *. by injection Hw as <-.
  - injection Hw as ->. zcases; done.
Qed.

(** [memmove] opens a gap of [n] cells in front of the last cells in use. *)
Lemma memmove_gap {A} (a b r r' : list A) :
  exists g, List.length g = List.length r /\
    (if Z.of_nat (List.length a) <? Z.of_nat (List.length (a ++ b)) then
       memmove (a ++ b ++ r ++ r') (Z.of_nat (List.length a) + Z.of_nat (List.length r)) (Z.of_nat (List.length a))
         (Z.of_nat (List.length (a ++ b)) - Z.of_nat (List.length a))
     else Some (a ++ b ++ r ++ r')) = Some (a ++ g ++ b ++ r').
Proof.
  destruct (Z.ltb_spec (Z.of_nat (List.length a)) (Z.of_nat (List.length (a ++ b)))) as [Hb|Hb].
  - exists (take (List.length r) (b ++ r ++ r')). split; [rewrite length_take, !length_app; lia|].
    unfold memmove. rewrite !length_app in *. rewrite !(proj2 (Z.leb_le _ _)) by lia. cbn [andb].
    f_equal. rewrite !Z2Nat.inj_add, !Nat2Z.id by lia.
    replace (Z.to_nat (Z.of_nat (List.length a + List.length b) - Z.of_nat (List.length a)))
      with (List.length b) by lia.
    rewrite take_app_add, drop_app_length, take_app_length, <- app_assoc. f_equal. f_equal. f_equal.
    rewrite (app_assoc b), (app_assoc a), drop_app_length'; [done|]. rewrite !length_app. lia.
  - rewrite length_app in Hb. destruct b as [|x b]; [|simpl in *; lia]. by exists r.
Qed.
