(* ===== verification/Punycode.v ===== *)
(** * Punycode (src/common/punycode.cpp)

    The Bootstring encoding of a Unicode string in ASCII letters, digits and
    hyphens: the basic code points, a delimiter, and then for each other code
    point, in increasing order, how far the decoder has to advance before it
    inserts it. *)
From S2P Require Import Prelude Int32 Utf16 UString.
Local Open Scope Z_scope.

Module Punycode.

Definition BASE : Z := 36.
Definition TMIN : Z := 1.
Definition TMAX : Z := 26.
Definition SKEW : Z := 38.
Definition DAMP : Z := 700.
Definition INITIAL_BIAS : Z := 72.
Definition INITIAL_N : Z := 0x80.
Definition DELIMITER : Z := 0x2d.
Definition MAX_CP_COUNT : Z := 200.

Definition IS_BASIC (c : Z) : bool := c <? 0x80.
Definition IS_BASIC_UPPERCASE (c : Z) : bool := (0x41 <=? c) && (c <=? 0x5a).

Definition digitToBasic (digit : Z) (uppercase : bool) : Z :=
  if digit <? 26 then
    if uppercase then 0x41 + digit else 0x61 + digit
  else (0x30 - 26) + digit.

Definition basicToDigit : list Z :=
  [-1; -1; -1; -1; -1; -1; -1; -1; -1; -1; -1; -1; -1; -1; -1; -1;
   -1; -1; -1; -1; -1; -1; -1; -1; -1; -1; -1; -1; -1; -1; -1; -1;

   -1; -1; -1; -1; -1; -1; -1; -1; -1; -1; -1; -1; -1; -1; -1; -1;
   26; 27; 28; 29; 30; 31; 32; 33; 34; 35; -1; -1; -1; -1; -1; -1;

   -1;  0;  1;  2;  3;  4;  5;  6;  7;  8;  9; 10; 11; 12; 13; 14;
   15; 16; 17; 18; 19; 20; 21; 22; 23; 24; 25; -1; -1; -1; -1; -1;

   -1;  0;  1;  2;  3;  4;  5;  6;  7;  8;  9; 10; 11; 12; 13; 14;
   15; 16; 17; 18; 19; 20; 21; 22; 23; 24; 25; -1; -1; -1; -1; -1;

   -1; -1; -1; -1; -1; -1; -1; -1; -1; -1; -1; -1; -1; -1; -1; -1;
   -1; -1; -1; -1; -1; -1; -1; -1; -1; -1; -1; -1; -1; -1; -1; -1;

   -1; -1; -1; -1; -1; -1; -1; -1; -1; -1; -1; -1; -1; -1; -1; -1;
   -1; -1; -1; -1; -1; -1; -1; -1; -1; -1; -1; -1; -1; -1; -1; -1;

   -1; -1; -1; -1; -1; -1; -1; -1; -1; -1; -1; -1; -1; -1; -1; -1;
   -1; -1; -1; -1; -1; -1; -1; -1; -1; -1; -1; -1; -1; -1; -1; -1;

   -1; -1; -1; -1; -1; -1; -1; -1; -1; -1; -1; -1; -1; -1; -1; -1;
   -1; -1; -1; -1; -1; -1; -1; -1; -1; -1; -1; -1; -1; -1; -1; -1].

Definition asciiCaseMap (b : Z) (uppercase : bool) : Z :=
  if uppercase then
    if (0x61 <=? b) && (b <=? 0x7a) then b - (0x61 - 0x41) else b
  else
    if (0x41 <=? b) && (b <=? 0x5a) then b + (0x61 - 0x41) else b.

(** [for(count=0; delta>((BASE-TMIN)*TMAX)/2; count+=BASE) delta/=(BASE-TMIN);] *)
Fixpoint adaptBias_loop (fuel : nat) (delta count : Z) : option (Z * Z) :=
  if delta >? ((BASE - TMIN) * TMAX) / 2 then
    match fuel with
    | O => None
    | S fuel' =>
        let! delta := Some delta /! Some (BASE - TMIN) in
        let! count := Some count +! Some BASE in
        adaptBias_loop fuel' delta count
    end
  else Some (delta, count).

Definition adaptBias (delta length : Z) (firstTime : bool) : I32 :=
  let! delta := if firstTime then Some delta /! Some DAMP else Some delta /! Some 2 in
  let! delta := Some delta +! (Some delta /! Some length) in
  let! '(delta, count) := adaptBias_loop 5 delta 0 in
  Some count +! ((Some (BASE - TMIN + 1) *! Some delta) /! (Some delta +! Some SKEW)).

(** The threshold [t] of the digit with weight number [k / BASE]. *)
Definition threshold (k bias : Z) : Z :=
  let t := k - bias in
  if t <? TMIN then TMIN else if k >=? bias + TMAX then TMAX else t.

(** ** Encoding *)

(** The state while the source is read: [srcCPCount] is the length of
    [cpBuffer], of which the list has the cells that are written. *)
Record scan := mkScan {
  cpBuffer : list Z;
  sDest : option (list Z);
  sLength : Z;
  sError : UErrorCode
}.

Definition srcCPCount (st : scan) : Z := Z.of_nat (List.length st.(cpBuffer)).

Definition sFail (st : scan) (e : UErrorCode) : scan :=
  mkScan st.(cpBuffer) st.(sDest) st.(sLength) e.

Definition push (st : scan) (n : Z) : scan :=
  mkScan (st.(cpBuffer) ++ [n]) st.(sDest) st.(sLength) st.(sError).

(** The body of both loops over the source, from the test for a basic code
    point on; [more] tells whether there is a unit after [j] to look at. *)
Definition scan_unit (src : list Z) (caseFlags : option (list Z)) (destCapacity : Z)
    (more : bool) (st : scan) (c j : Z) : option (scan * Z) :=
  if IS_BASIC c then
    let st := push st 0 in
    dest ← (if st.(sLength) <? destCapacity then
              v ← match caseFlags with
                  | Some f => b ← aget f j; Some (asciiCaseMap c (negb (b =? 0)))
                  | None => Some c
                  end;
              write st.(sDest) destCapacity st.(sLength) v
            else Some st.(sDest));
    Some (mkScan st.(cpBuffer) dest (st.(sLength) + 1) st.(sError), j)
  else
    n ← match caseFlags with
        | Some f => b ← aget f j; Some (if negb (b =? 0) then INT32_MIN else 0)
        | None => Some 0
        end;
    if U16_IS_SINGLE c then Some (push st (Z.lor n c), j)
    else if U16_IS_LEAD c && more then
      c2 ← aget src (j + 1);
      if U16_IS_TRAIL c2
      then Some (push st (Z.lor n (U16_GET_SUPPLEMENTARY c c2)), j + 1)
      else Some (sFail st U_INVALID_CHAR_FOUND, j)
    else Some (sFail st U_INVALID_CHAR_FOUND, j).

(** [for(j=0; ; ++j)] up to the NUL; the fuel is the length of the array. *)
Fixpoint scan_terminated (fuel : nat) (src : list Z) (caseFlags : option (list Z))
    (destCapacity : Z) (st : scan) (j : Z) : option scan :=
  match fuel with
  | O => None
  | S fuel' =>
      c ← aget src j;
      if c =? 0 then Some st
      else if srcCPCount st =? MAX_CP_COUNT then Some (sFail st U_INDEX_OUTOFBOUNDS_ERROR)
      else
        '(st, j) ← scan_unit src caseFlags destCapacity true st c j;
        if U_FAILURE st.(sError) then Some st
        else scan_terminated fuel' src caseFlags destCapacity st (j + 1)
  end.

(** [for(j=0; j<srcLength; ++j)]; the fuel is [srcLength]. *)
Fixpoint scan_length (fuel : nat) (src : list Z) (srcLength : Z) (caseFlags : option (list Z))
    (destCapacity : Z) (st : scan) (j : Z) : option scan :=
  if j <? srcLength then
    match fuel with
    | O => None
    | S fuel' =>
        if srcCPCount st =? MAX_CP_COUNT then Some (sFail st U_INDEX_OUTOFBOUNDS_ERROR)
        else
          c ← aget src j;
          '(st, j) ← scan_unit src caseFlags destCapacity (j + 1 <? srcLength) st c j;
          if U_FAILURE st.(sError) then Some st
          else scan_length fuel' src srcLength caseFlags destCapacity st (j + 1)
    end
  else Some st.

(** The state of the main loop. *)
Record encoder := mkEncoder {
  eDest : option (list Z);
  eLength : Z;
  eDelta : Z;
  eBias : Z;
  handledCPCount : Z
}.

(** The smallest code point of the buffer that is at least [n]. *)
Fixpoint next_code_point (cps : list Z) (n m : Z) : Z :=
  match cps with
  | [] => m
  | cp :: cps' =>
      let q := Z.land cp 0x7fffffff in
      next_code_point cps' n (if (n <=? q) && (q <? m) then q else m)
  end.

Definition digits_fuel : nat := 12.

(** The generalized variable-length integer up to its last digit, which is
    returned. *)
Fixpoint encode_integer (fuel : nat) (destCapacity : Z) (dest : option (list Z)) (destLength q k bias : Z)
    : option (option (list Z) * Z * Z) :=
  match fuel with
  | O => None
  | S fuel' =>
      let t := threshold k bias in
      if q <? t then Some (dest, destLength, q)
      else
        dest ← write dest destCapacity destLength (digitToBasic (t + (q - t) mod (BASE - t)) false);
        encode_integer fuel' destCapacity dest (destLength + 1) ((q - t) / (BASE - t)) (k + BASE) bias
  end.

(** The pass over the buffer that encodes the code points equal to [n]. *)
Fixpoint encode_same (cps : list Z) (n basicLength destCapacity : Z) (st : encoder) : option encoder :=
  match cps with
  | [] => Some st
  | cp :: cps' =>
      let q := Z.land cp 0x7fffffff in
      if q <? n then
        let! delta := Some st.(eDelta) +! Some 1 in
        encode_same cps' n basicLength destCapacity
          (mkEncoder st.(eDest) st.(eLength) delta st.(eBias) st.(handledCPCount))
      else if q =? n then
        '(dest, destLength, q) ←
          encode_integer digits_fuel destCapacity st.(eDest) st.(eLength) st.(eDelta) BASE st.(eBias);
        dest ← write dest destCapacity destLength (digitToBasic q (cp <? 0));
        let! bias := adaptBias st.(eDelta) (st.(handledCPCount) + 1) (st.(handledCPCount) =? basicLength) in
        encode_same cps' n basicLength destCapacity
          (mkEncoder dest (destLength + 1) 0 bias (st.(handledCPCount) + 1))
      else encode_same cps' n basicLength destCapacity st
  end.

(** [for(handledCPCount=basicLength; handledCPCount<srcCPCount; )]; every round
    handles a code point, so the fuel is their number. *)
Fixpoint encode_loop (fuel : nat) (cps : list Z) (basicLength destCapacity n : Z) (st : encoder)
    : option (encoder * option UErrorCode) :=
  if st.(handledCPCount) <? Z.of_nat (List.length cps) then
    match fuel with
    | O => None
    | S fuel' =>
        let m := next_code_point cps n 0x7fffffff in
        let! room := (Some (0x7fffffff - MAX_CP_COUNT) -! Some st.(eDelta)) /! Some (st.(handledCPCount) + 1) in
        if m - n >? room then Some (st, Some U_INTERNAL_PROGRAM_ERROR)
        else
          let! delta := Some st.(eDelta) +! Some (m - n) *! Some (st.(handledCPCount) + 1) in
          st ← encode_same cps m basicLength destCapacity
                 (mkEncoder st.(eDest) st.(eLength) delta st.(eBias) st.(handledCPCount));
          let! delta := Some st.(eDelta) +! Some 1 in
          encode_loop fuel' cps basicLength destCapacity (m + 1)
            (mkEncoder st.(eDest) st.(eLength) delta st.(eBias) st.(handledCPCount))
    end
  else Some (st, None).

(** The returned length, the output buffer and the error code.  [src] and
    [dest] are [None] for null pointers, [pErrorCode] is never null. *)
Definition u_strToPunycode (src : option (list Z)) (srcLength : Z) (dest : option (list Z)) (destCapacity : Z)
    (caseFlags : option (list Z)) (errorCode : UErrorCode) : option (Z * option (list Z) * UErrorCode) :=
  if U_FAILURE errorCode then Some (0, dest, errorCode)
  else
    match src with
    | None => Some (0, dest, U_ILLEGAL_ARGUMENT_ERROR)
    | Some s =>
        if (srcLength <? -1) || (bool_decide (dest = None) && negb (destCapacity =? 0))
        then Some (0, dest, U_ILLEGAL_ARGUMENT_ERROR)
        else
          let st := mkScan [] dest 0 errorCode in
          st ← (if srcLength =? -1 then scan_terminated (List.length s) s caseFlags destCapacity st 0
                else scan_length (Z.to_nat srcLength) s srcLength caseFlags destCapacity st 0);
          if U_FAILURE st.(sError) then Some (0, st.(sDest), st.(sError))
          else
            let basicLength := st.(sLength) in
            '(dest, destLength) ←
              (if basicLength >? 0 then
                 dest ← write st.(sDest) destCapacity basicLength DELIMITER;
                 Some (dest, basicLength + 1)
               else Some (st.(sDest), basicLength));
            '(e, error) ← encode_loop (List.length st.(cpBuffer)) st.(cpBuffer) basicLength destCapacity INITIAL_N
                            (mkEncoder dest destLength 0 INITIAL_BIAS basicLength);
            match error with
            | Some error => Some (0, e.(eDest), error)
            | None =>
                '(dest, error) ← u_terminateUChars e.(eDest) destCapacity e.(eLength) st.(sError);
                Some (e.(eLength), dest, error)
            end
    end.

(** ** Decoding *)

(** The loop that looks backward for the last delimiter, from [j] on. *)
Fixpoint find_delimiter (src : list Z) (j : nat) : option Z :=
  match j with
  | O => Some 0
  | S j' =>
      c ← aget src (Z.of_nat j');
      if c =? DELIMITER then Some (Z.of_nat j') else find_delimiter src j'
  end.

(** The loop that copies the [j] basic code points, backward. *)
Fixpoint copy_basic (src : list Z) (destCapacity : Z) (j : nat)
    (dest : option (list Z)) (caseFlags : option (list Z))
    : option (option (list Z) * option (list Z) * option UErrorCode) :=
  match j with
  | O => Some (dest, caseFlags, None)
  | S j' =>
      let i := Z.of_nat j' in
      b ← aget src i;
      if negb (IS_BASIC b) then Some (dest, caseFlags, Some U_INVALID_CHAR_FOUND)
      else if i <? destCapacity then
        d ← dest;
        d ← aset d i b;
        caseFlags ← match caseFlags with
                    | Some f => f ← aset f i (if IS_BASIC_UPPERCASE b then 1 else 0); Some (Some f)
                    | None => Some None
                    end;
        copy_basic src destCapacity j' (Some d) caseFlags
      else copy_basic src destCapacity j' dest caseFlags
  end.

(** A generalized variable-length integer: the index after it and [i]
    increased by its value, or the error. *)
Fixpoint decode_integer (fuel : nat) (src : list Z) (srcLength inn i w k bias : Z)
    : option (UErrorCode + Z * Z) :=
  match fuel with
  | O => None
  | S fuel' =>
      if inn >=? srcLength then Some (inl U_ILLEGAL_CHAR_FOUND)
      else
        c ← aget src inn;
        digit ← aget basicToDigit (uint8 c);
        let inn := inn + 1 in
        if digit <? 0 then Some (inl U_INVALID_CHAR_FOUND)
        else
          let! room := (Some 0x7fffffff -! Some i) /! Some w in
          if digit >? room then Some (inl U_ILLEGAL_CHAR_FOUND)
          else
            let! i := Some i +! Some digit *! Some w in
            let t := threshold k bias in
            if digit <? t then Some (inr (inn, i))
            else
              let! room := Some 0x7fffffff /! Some (BASE - t) in
              if w >? room then Some (inl U_ILLEGAL_CHAR_FOUND)
              else
                let! w := Some w *! Some (BASE - t) in
                decode_integer fuel' src srcLength inn i w (k + BASE) bias
  end.

Record decoder := mkDecoder {
  dN : Z;
  dI : Z;
  dBias : Z;
  destLength : Z;
  destCPCount : Z;
  firstSupplementaryIndex : Z;
  dDest : option (list Z);
  dFlags : option (list Z)
}.

(** The index of the code unit at which the code point [i] of the output
    begins, and the new [firstSupplementaryIndex]. *)
Definition code_unit_index (d : list Z) (destLength i cpLength first : Z) : option (Z * Z) :=
  if i <=? first then
    if cpLength >? 1 then Some (i, i)
    else let! first := Some first +! Some 1 in Some (i, first)
  else
    codeUnitIndex ← U16_FWD_N d first destLength (i - first);
    Some (codeUnitIndex, first).

(** The insertion of [n] at position [i] of the output, where it fits;
    [last] is the last unit that was read. *)
Definition insert_code_point (destCapacity n i last : Z) (st : decoder) : option decoder :=
  let cpLength := U16_LENGTH n in
  let! newLength := Some st.(destLength) +! Some cpLength in
  '(first, dest, flags) ←
    match st.(dDest) with
    | Some d =>
        if newLength <=? destCapacity then
          '(at_, first) ← code_unit_index d st.(destLength) i cpLength st.(firstSupplementaryIndex);
          d ← (if at_ <? st.(destLength) then memmove d (at_ + cpLength) at_ (st.(destLength) - at_) else Some d);
          d ← (if cpLength =? 1 then aset d at_ (uint16 n)
               else d ← aset d at_ (U16_LEAD n); aset d (at_ + 1) (U16_TRAIL n));
          flags ← match st.(dFlags) with
                  | Some f =>
                      f ← (if at_ <? st.(destLength) then memmove f (at_ + cpLength) at_ (st.(destLength) - at_)
                           else Some f);
                      f ← aset f at_ (if IS_BASIC_UPPERCASE last then 1 else 0);
                      f ← (if cpLength =? 2 then aset f (at_ + 1) 0 else Some f);
                      Some (Some f)
                  | None => Some None
                  end;
          Some (first, Some d, flags)
        else Some (st.(firstSupplementaryIndex), st.(dDest), st.(dFlags))
    | None => Some (st.(firstSupplementaryIndex), st.(dDest), st.(dFlags))
    end;
  let! i := Some i +! Some 1 in
  Some (mkDecoder n i st.(dBias) newLength st.(destCPCount) first dest flags).

(** The rest of the loop body, after the integer has been added to [i]. *)
Definition advance (destCapacity i last : Z) (st : decoder) : option (UErrorCode + decoder) :=
  let! destCPCount := Some st.(destCPCount) +! Some 1 in
  let! delta := Some i -! Some st.(dI) in
  let! bias := adaptBias delta destCPCount (st.(dI) =? 0) in
  let! quotient := Some i /! Some destCPCount in
  let! room := Some 0x7fffffff -! Some st.(dN) in
  if quotient >? room then Some (inl U_ILLEGAL_CHAR_FOUND)
  else
    let! n := Some st.(dN) +! Some quotient in
    let! i := Some i %! Some destCPCount in
    if (n >? 0x10ffff) || U_IS_SURROGATE n then Some (inl U_ILLEGAL_CHAR_FOUND)
    else
      st ← insert_code_point destCapacity n i last
             (mkDecoder n i bias st.(destLength) destCPCount
                st.(firstSupplementaryIndex) st.(dDest) st.(dFlags));
      Some (inr st).

(** [for(in=...; in<srcLength; )]; every round reads a unit, so the fuel is
    the number of units that are left. *)
Fixpoint decode_loop (fuel : nat) (src : list Z) (srcLength destCapacity inn : Z) (st : decoder)
    : option (decoder * option UErrorCode) :=
  if inn <? srcLength then
    match fuel with
    | O => None
    | S fuel' =>
        r ← decode_integer digits_fuel src srcLength inn st.(dI) 1 BASE st.(dBias);
        match r with
        | inl e => Some (st, Some e)
        | inr (inn, i) =>
            last ← aget src (inn - 1);
            r ← advance destCapacity i last st;
            match r with
            | inl e => Some (st, Some e)
            | inr st => decode_loop fuel' src srcLength destCapacity inn st
            end
        end
    end
  else Some (st, None).

(** The returned length, the output buffer, the case flags and the error code. *)
Definition u_strFromPunycode (src : option (list Z)) (srcLength : Z) (dest : option (list Z)) (destCapacity : Z)
    (caseFlags : option (list Z)) (errorCode : UErrorCode)
    : option (Z * option (list Z) * option (list Z) * UErrorCode) :=
  if U_FAILURE errorCode then Some (0, dest, caseFlags, errorCode)
  else
    match src with
    | None => Some (0, dest, caseFlags, U_ILLEGAL_ARGUMENT_ERROR)
    | Some s =>
        if (srcLength <? -1) || (bool_decide (dest = None) && negb (destCapacity =? 0))
        then Some (0, dest, caseFlags, U_ILLEGAL_ARGUMENT_ERROR)
        else
          srcLength ← (if srcLength =? -1 then u_strlen s else Some srcLength);
          basicLength ← find_delimiter s (Z.to_nat srcLength);
          '(dest, caseFlags, error) ← copy_basic s destCapacity (Z.to_nat basicLength) dest caseFlags;
          match error with
          | Some error => Some (0, dest, caseFlags, error)
          | None =>
              let inn := if basicLength >? 0 then basicLength + 1 else 0 in
              '(st, error) ← decode_loop (Z.to_nat (srcLength - inn)) s srcLength destCapacity inn
                               (mkDecoder INITIAL_N 0 INITIAL_BIAS basicLength basicLength 1000000000
                                  dest caseFlags);
              match error with
              | Some error => Some (0, st.(dDest), st.(dFlags), error)
              | None =>
                  '(dest, error) ← u_terminateUChars st.(dDest) destCapacity st.(destLength) errorCode;
                  Some (st.(destLength), dest, st.(dFlags), error)
              end
          end
    end.

End Punycode.
