(* ===== verification/PunycodeDecoding.v ===== *)
(** * Decoding Punycode: the variable-length integers and the decoder
    (src/common/punycode.cpp)

    [adapt], [vli] and [next] say what the decoder computes: the bias, the
    digits of an integer, and the insertion of one code point into the list of
    those decoded so far.  [refines] relates the state of the source to that
    list: the buffer holds its UTF-16 form, if it fits. *)
From S2P Require Import Prelude Int32 Utf16 UString Punycode.
Import Punycode.
Local Open Scope Z_scope.

(** ** The bias *)

Definition adapt (delta length : Z) (firstTime : bool) : Z := default 0 (adaptBias delta length firstTime).

Lemma adaptBias_loop_spec fuel : forall delta count,
  0 <= delta -> delta <= 455 * 35 ^ Z.of_nat fuel -> delta <= INT32_MAX ->
  0 <= count <= 1000 - 36 * Z.of_nat fuel ->
  exists d c, adaptBias_loop fuel delta count = Some (d, c) /\ 0 <= d <= 455 /\
    count <= c <= count + 36 * Z.of_nat fuel.
Proof.
  induction fuel as [|fuel IH]; intros delta count Hd Hmax Hint Hc; cbn [adaptBias_loop];
    change ((BASE - TMIN) * TMAX / 2) with 455; rewrite Z.gtb_ltb;
    (destruct (Z.ltb_spec 455 delta); [|exists delta, count; split_and!; done || lia]).
  { simpl in Hmax. lia. }
  change (BASE - TMIN) with 35. change BASE with 36.
  rewrite Nat2Z.inj_succ, Z.pow_succ_r in Hmax by lia. icalc.
  destruct (IH (delta / 35) (count + 36)) as (d & c & -> & ? & ?);
    [dlia|dlia|dlia|lia|]. exists d, c. split_and!; done || lia.
Qed.

Lemma adaptBias_spec delta length b :
  0 <= delta <= INT32_MAX -> 1 <= length <= INT32_MAX ->
  adaptBias delta length b = Some (adapt delta length b) /\ 0 <= adapt delta length b <= 216.
Proof.
  intros Hd Hl. enough (exists r, adaptBias delta length b = Some r /\ 0 <= r <= 216) as (r & Hr & ?)
    by (unfold adapt; by rewrite Hr).
  unfold adaptBias, DAMP, BASE, TMIN, SKEW. unfold INT32_MAX in *.
  enough (H : forall d, 0 <= d <= 1073741823 -> exists r,
    (let! delta := Some d +! (Some d /! Some length) in
     let! '(delta, count) := adaptBias_loop 5 delta 0 in
     Some count +! ((Some (36 - 1 + 1) *! Some delta) /! (Some delta +! Some 38))) = Some r /\ 0 <= r <= 216).
  { destruct b.
    - rewrite (idiv_nonneg delta 700) by (unfold INT32_MAX; lia). apply H. dlia.
    - rewrite (idiv_nonneg delta 2) by (unfold INT32_MAX; lia). apply H. dlia. }
  intros d Hd'.
  assert (0 <= d / length <= 1073741823)
    by (split; [apply Z.div_pos; lia|]; apply Z.div_le_upper_bound; nia).
  icalc.
  destruct (adaptBias_loop_spec 5 (d + d / length) 0) as (e & c & -> & ? & ?);
    [lia|simpl; lia|unfold INT32_MAX; lia|simpl; lia|].
  cbn [obind]. change (36 - 1 + 1) with 36. change (Z.of_nat 5) with 5 in *.
  assert (0 <= 36 * e / (e + 38) <= 36)
    by (split; [apply Z.div_pos; lia|]; apply Z.div_le_upper_bound; lia).
  rewrite !imul_ok, !iadd_ok by ibound. rewrite idiv_nonneg by (unfold INT32_MAX; lia).
  rewrite iadd_ok by ibound. eexists. split; [done|lia].
Qed.

(** ** Variable-length integers *)

Lemma threshold_range k b : 1 <= threshold k b <= 26.
Proof.
  unfold threshold, TMIN, TMAX. rewrite Z.geb_leb. zcases; lia.
Qed.

Lemma digit_values u : is_uint8 u -> exists d, aget basicToDigit u = Some d /\ -1 <= d < 36.
Proof.
  intros Hu. pose proof (all_below_spec 256 (fun u => match aget basicToDigit u with
    Some d => (-1 <=? d) && (d <? 36) | None => false end) ltac:(vm_compute; reflexivity) u Hu) as H.
  cbn beta in H. destruct (aget basicToDigit u) as [d|]; [|done]. exists d. split; [done|lia].
Qed.

Lemma digit_roundtrip d up : 0 <= d < 36 ->
  aget basicToDigit (uint8 (digitToBasic d up)) = Some d.
Proof.
  intros Hd. pose proof (all_below_spec 36 (fun d => forallb (fun up =>
    match aget basicToDigit (uint8 (digitToBasic d up)) with Some x => x =? d | None => false end) [true; false])
    ltac:(vm_compute; reflexivity) d Hd) as H.
  cbn beta in H. rewrite forallb_forall in H. specialize (H up ltac:(destruct up; simpl; tauto)).
  destruct (aget _ _) as [x|]; [|done]. by apply Z.eqb_eq in H as ->.
Qed.

(** The characters of the encoded integers. *)
Definition is_digit_char (c : Z) : Prop := 0 <= c < 0x80 /\ c <> DELIMITER.

Lemma digitToBasic_char d up : 0 <= d < 36 -> is_digit_char (digitToBasic d up).
Proof.
  intros Hd. unfold is_digit_char, digitToBasic, DELIMITER. destruct up; zcases; lia.
Qed.

Fixpoint vli (fuel : nat) (q k bias : Z) (uppercase : bool) : list Z :=
  match fuel with
  | O => []
  | S fuel' =>
      let t := threshold k bias in
      if q <? t then [digitToBasic q uppercase]
      else digitToBasic (t + (q - t) mod (BASE - t)) false ::
           vli fuel' ((q - t) / (BASE - t)) (k + BASE) bias uppercase
  end.

Lemma vli_chars fuel : forall q k b up, 0 <= q -> Forall is_digit_char (vli fuel q k b up).
Proof.
  induction fuel as [|fuel IH]; intros q k b up Hq; [constructor|]. cbn [vli].
  pose proof (threshold_range k b). unfold BASE in *. destruct (Z.ltb_spec q (threshold k b)).
  - constructor; [|constructor]. apply digitToBasic_char. lia.
  - pose proof (Z.mod_pos_bound (q - threshold k b) (36 - threshold k b)).
    constructor; [apply digitToBasic_char; lia|]. apply IH. apply Z.div_pos; lia.
Qed.

(** The largest difference that an encoder of 200 code points produces. *)
Definition DELTA_MAX : Z := 250000000.

(** The weights of the digits of such a difference stay in the type. *)
Fixpoint weights_ok (fuel : nat) (w k bias : Z) : bool :=
  match fuel with
  | O => false
  | S fuel' =>
      let t := threshold k bias in
      if w * t >? DELTA_MAX then true
      else (w * (BASE - t) <=? INT32_MAX) && weights_ok fuel' (w * (BASE - t)) (k + BASE) bias
  end.

Lemma all_weights_ok b : 0 <= b <= 216 -> weights_ok digits_fuel 1 BASE b = true.
Proof. intros. apply (all_below_spec 217 (weights_ok digits_fuel 1 BASE)); [|lia]. by vm_compute. Qed.

Lemma drop_cons_aget (l : list Z) (n : nat) x r :
  drop n l = x :: r -> aget l (Z.of_nat n) = Some x /\ drop (S n) l = r /\ (n < List.length l)%nat.
Proof.
  intros Hd. assert (Hn : (n < List.length l)%nat).
  { destruct (decide (n < List.length l)%nat); [done|]. by rewrite drop_ge in Hd by lia. }
  destruct (lookup_lt_is_Some_2 l n Hn) as [y Hy]. rewrite (drop_S _ _ _ Hy) in Hd.
  injection Hd as -> ->. by rewrite aget_nat.
Qed.

Lemma div_ge a b c : 0 < b -> c * b <= a -> (c >? a / b) = false.
Proof. intros. rewrite Z.gtb_ltb. apply Z.ltb_ge. apply Z.div_le_lower_bound; lia. Qed.

Lemma decode_vli src b up rest : forall fuel (n : nat) i w k q,
  weights_ok fuel w k b = true -> 1 <= w -> 0 <= q -> w * q <= DELTA_MAX ->
  0 <= i -> i + w * q <= INT32_MAX -> w <= INT32_MAX ->
  drop n src = vli fuel q k b up ++ rest ->
  decode_integer fuel src (Z.of_nat (List.length src)) (Z.of_nat n) i w k b =
    Some (inr (Z.of_nat (n + List.length (vli fuel q k b up)), i + w * q)).
Proof.
  induction fuel as [|fuel IH]; intros n i w k q Hok Hw Hq Hmax Hi Hint Hwmax Hd; [done|].
  cbn [weights_ok vli decode_integer] in *. unfold INT32_MAX in *.
  pose proof (threshold_range k b) as Ht. set (t := threshold k b) in *.
  assert (Hstep : forall d cs, drop n src = digitToBasic d cs :: drop (S n) src -> 0 <= d < 36 -> d <= q ->
    (Z.of_nat n >=? Z.of_nat (List.length src)) = false /\
    aget src (Z.of_nat n) = Some (digitToBasic d cs) /\
    (d <? 0) = false /\ Some 2147483647 -! Some i = Some (2147483647 - i) /\
    (d >? (2147483647 - i) / w) = false /\ Some d *! Some w = Some (d * w) /\
    Some i +! Some (d * w) = Some (i + d * w)).
  { intros d cs Hdr Hd36 Hdq. apply drop_cons_aget in Hdr as (Hg & _ & Hn).
    assert (d * w <= w * q) by nia. unfold DELTA_MAX in *.
    split_and!; [rewrite Z.geb_leb; apply Z.leb_gt; lia|done|apply Z.ltb_ge; lia|
      apply isub_ok; ibound|apply div_ge; lia|apply imul_ok; ibound|apply iadd_ok; ibound]. }
  destruct (Z.ltb_spec q t) as [Hlt|Hge].
  - cbn [app List.length] in *. pose proof (drop_cons_aget _ _ _ _ Hd) as (_ & Hd' & _).
    rewrite <- Hd' in Hd. destruct (Hstep _ _ Hd) as (-> & -> & E1 & -> & E2 & E3 & E4); [lia|lia|].
    cbn [mbind option_bind]. rewrite digit_roundtrip by lia. cbn [mbind option_bind]. rewrite E1.
    rewrite idiv_nonneg by (unfold INT32_MAX; lia). cbn [obind]. rewrite E2, E3, E4. cbn [obind].
    rewrite (proj2 (Z.ltb_lt _ _)) by lia. do 3 f_equal; lia.
  - unfold BASE in *. pose proof (Z.mod_pos_bound (q - t) (36 - t) ltac:(lia)) as Hm.
    pose proof (Z.div_mod (q - t) (36 - t) ltac:(lia)) as Hdm.
    assert (0 <= (q - t) / (36 - t)) by (apply Z.div_pos; lia).
    set (d := t + (q - t) mod (36 - t)) in *. set (q' := (q - t) / (36 - t)) in *.
    cbn [app List.length] in *. pose proof (drop_cons_aget _ _ _ _ Hd) as (_ & Hd' & _).
    rewrite <- Hd' in Hd. destruct (Hstep _ _ Hd) as (-> & -> & E1 & -> & E2 & E3 & E4); [lia|nia|].
    cbn [mbind option_bind]. rewrite digit_roundtrip by lia. cbn [mbind option_bind]. rewrite E1.
    rewrite idiv_nonneg by (unfold INT32_MAX; lia). cbn [obind]. rewrite E2, E3, E4. cbn [obind].
    rewrite (proj2 (Z.ltb_ge d t)) by lia.
    rewrite Z.gtb_ltb, (proj2 (Z.ltb_ge _ _)) in Hok by nia.
    apply andb_true_iff in Hok as [Hw'%Z.leb_le Hok].
    rewrite idiv_nonneg by (unfold INT32_MAX; lia). cbn [obind]. rewrite div_ge by lia.
    assert (0 <= w * (36 - t)) by nia. rewrite imul_ok by ibound. cbn [obind].
    replace (Z.of_nat n + 1) with (Z.of_nat (S n)) by lia.
    assert (Hwq : w * (36 - t) * q' <= w * q) by nia.
    rewrite (IH (S n) _ _ _ q'); [|done|nia|done|lia|nia|nia|lia|done].
    do 3 f_equal; [lia|]. unfold d. nia.
Qed.

(** Any input: the integer is read within the source and within the type, or
    refused. *)
Lemma decode_integer_safe src b : forall fuel (n : nat) i w k,
  INT32_MAX < w * 10 ^ Z.of_nat fuel -> 1 <= w <= INT32_MAX -> 0 <= i <= INT32_MAX ->
  (exists e, decode_integer fuel src (Z.of_nat (List.length src)) (Z.of_nat n) i w k b = Some (inl e) /\
     (e = U_ILLEGAL_CHAR_FOUND \/ e = U_INVALID_CHAR_FOUND)) \/
  (exists m i', decode_integer fuel src (Z.of_nat (List.length src)) (Z.of_nat n) i w k b =
     Some (inr (Z.of_nat m, i')) /\ (n < m <= List.length src)%nat /\ i <= i' <= INT32_MAX).
Proof.
  induction fuel as [|fuel IH]; intros n i w k Hf Hw Hi; cbn [decode_integer].
  { simpl in Hf. lia. }
  pose proof (threshold_range k b) as Ht. set (t := threshold k b) in *.
  rewrite Nat2Z.inj_succ, Z.pow_succ_r in Hf by lia.
  rewrite Z.geb_leb. destruct (Z.leb_spec (Z.of_nat (List.length src)) (Z.of_nat n)); [left; eauto|].
  destruct (aget_is_Some src (Z.of_nat n)) as [c ->]; [lia|]. cbn [mbind option_bind].
  destruct (digit_values (uint8 c) (uint8_range c)) as (d & -> & Hd). cbn [mbind option_bind].
  destruct (Z.ltb_spec d 0); [left; eauto|]. unfold INT32_MAX in *. icalc.
  rewrite Z.gtb_ltb. destruct (Z.ltb_spec ((2147483647 - i) / w) d) as [|Hdw]; [left; eauto|].
  assert (Hdw' : d * w <= 2147483647 - i).
  { etransitivity; [apply Z.mul_le_mono_nonneg_r; [lia|exact Hdw]|].
    rewrite Z.mul_comm. apply Z.mul_div_le. lia. }
  assert (0 <= d * w) by nia. icalc.
  destruct (Z.ltb_spec d t).
  { right. exists (S n), (i + d * w). split_and!; [do 3 f_equal; lia|lia|lia|lia|lia]. }
  unfold BASE. rewrite idiv_nonneg by (unfold INT32_MAX; lia). cbn [obind].
  rewrite Z.gtb_ltb. destruct (Z.ltb_spec (2147483647 / (36 - t)) w) as [|Hwt]; [left; eauto|].
  assert (Hwt' : w * (36 - t) <= 2147483647).
  { etransitivity; [apply Z.mul_le_mono_nonneg_r; [lia|exact Hwt]|].
    rewrite Z.mul_comm. apply Z.mul_div_le. lia. }
  assert (0 <= w * (36 - t)) by nia. rewrite imul_ok by ibound. cbn [obind]. replace (Z.of_nat n + 1) with (Z.of_nat (S n)) by lia.
  destruct (IH (S n) (i + d * w) (w * (36 - t)) (k + 36)) as [(e & -> & He)|(m & i' & -> & ? & ?)];
    [nia|nia|lia|left; eauto|right].
  exists m, i'. split_and!; done || lia.
Qed.

(** ** Inserting a code point *)

Record dstate := mkState { aN : Z; aI : Z; aBias : Z; aOut : list Z }.

Definition count (o : list Z) : Z := Z.of_nat (List.length o).

(** What a decoded difference that takes [i] to [i'] does. *)
Definition next (a : dstate) (i' : Z) : dstate :=
  let len := count a.(aOut) + 1 in
  let n := a.(aN) + i' / len in
  mkState n (i' mod len + 1) (adapt (i' - a.(aI)) len (a.(aI) =? 0))
    (insert_at (Z.to_nat (i' mod len)) n a.(aOut)).

Definition wf (a : dstate) : Prop :=
  0x80 <= a.(aN) <= 0x10ffff /\ 0 <= a.(aI) <= count a.(aOut) /\ 0 <= a.(aBias) <= 216 /\
  Forall is_scalar a.(aOut).

Definition is_bmp (c : Z) : Prop := c < 0x10000.

(** [firstSupplementaryIndex] is what its name says, or very large. *)
Definition first_ok (first : Z) (o : list Z) : Prop :=
  (1000000000 <= first <= 1000000000 + count o /\ Forall is_bmp o) \/
  (exists p c r, o = p ++ c :: r /\ first = count p /\ Forall is_bmp p /\ 0x10000 <= c).

Lemma bmp_units o : Forall is_scalar o -> Forall is_bmp o -> utf16 o = o.
Proof.
  intros Hs Hb. apply utf16_bmp. apply Forall_forall. intros c Hc.
  rewrite Forall_forall in Hs, Hb. specialize (Hs c Hc). specialize (Hb c Hc).
  destruct Hs as [Hs _]. unfold is_code_point, is_bmp in *. lia.
Qed.

(** The split of the output at the position [i], as the source finds it. *)
Lemma code_unit_index_spec a b R i cpLength first :
  Forall is_scalar (a ++ b) -> count (a ++ b) < 1000000000 ->
  first_ok first (a ++ b) -> i = count a ->
  exists first', code_unit_index (utf16 (a ++ b) ++ R) (Z.of_nat (List.length (utf16 (a ++ b)))) i cpLength first =
      Some (Z.of_nat (List.length (utf16 a)), first') /\
    forall c, is_scalar c -> cpLength = U16_LENGTH c -> first_ok first' (a ++ c :: b).
Proof.
  intros Hs Hmax Hf ->. unfold code_unit_index.
  assert (Hlen : forall c, is_scalar c -> U16_LENGTH c = if c <? 0x10000 then 1 else 2).
  { intros c [Hc _]. apply U16_LENGTH_spec, Hc. }
  apply Forall_app in Hs as [Hsa Hsb]. unfold count in *. rewrite length_app in Hmax.
  destruct (Z.leb_spec (Z.of_nat (List.length a)) first) as [Hle|Hgt].
  - assert (Hba : Forall is_bmp a).
    { destruct Hf as [[_ Hb]|(p & c & r & He & -> & Hp & Hc)]; [by apply Forall_app in Hb as [? _]|].
      replace a with (take (List.length a) p); [by apply Forall_take|].
      transitivity (take (List.length a) (a ++ b)); [rewrite He, take_app_le by (unfold count in Hle; lia); done|].
      apply take_app_length. }
    rewrite bmp_units by done. rewrite Z.gtb_ltb. destruct (Z.ltb_spec 1 cpLength).
    + eexists. split; [done|]. intros c Hc ->. right. exists a, c, b. rewrite Hlen in * by done.
      split_and!; try done. destruct (Z.ltb_spec c 0x10000); lia.
    + rewrite iadd_ok.
      2:{ destruct Hf as [[Hf _]|(p & c & r & He & -> & _)].
          - unfold count in Hf. rewrite length_app in Hf. ibound.
          - apply (f_equal (@List.length Z)) in He. rewrite !length_app in He. simpl in He.
            unfold count in *. ibound. }
      eexists. split; [done|]. intros c Hc ->. rewrite Hlen in * by done.
      destruct (Z.ltb_spec c 0x10000) as [Hcb|]; [|lia].
      destruct Hf as [[Hf Hb]|(p & x & r & He & -> & Hp & Hx)].
      * left. unfold count in *. rewrite !length_app in *. simpl. split; [lia|].
        apply Forall_app in Hb as [_ Hb]. apply Forall_app. split; [done|]. by constructor.
      * right. assert (exists q, p = a ++ q /\ b = q ++ x :: r) as (q & -> & ->).
        { exists (drop (List.length a) p). unfold count in Hle.
          assert (Ha : take (List.length a) p = a).
          { rewrite <- (take_app_le p (x :: r)) by lia. rewrite <- He. apply take_app_length. }
          split; [by rewrite <- Ha at 1; rewrite take_drop|].
          assert (Hd : drop (List.length a) (a ++ b) = drop (List.length a) (p ++ x :: r)) by by rewrite He.
          rewrite drop_app_length, drop_app_le in Hd by lia. done. }
        exists (a ++ c :: q), x, r. rewrite <- app_assoc. split_and!; [done| |apply Forall_app in Hp as [? ?]|done].
        -- unfold count. rewrite !length_app. simpl. lia.
        -- apply Forall_app. split; [done|]. by constructor.
  - destruct Hf as [[Hf _]|(p & x & r & He & -> & Hp & Hx)]; [lia|]. unfold count in *.
    assert (exists q, a = p ++ x :: q /\ r = q ++ b) as (q & -> & ->).
    { exists (drop (S (List.length p)) a).
      assert (Ha : take (S (List.length p)) a = p ++ [x]).
      { rewrite <- (take_app_le a b) by lia. rewrite He.
        change (p ++ x :: r) with (p ++ [x] ++ r). rewrite app_assoc.
        rewrite take_app_length'; [done|]. rewrite length_app. simpl. lia. }
      split.
      - change (x :: drop (S (length p)) a) with ([x] ++ drop (S (length p)) a).
        by rewrite app_assoc, <- Ha, take_drop.
      - assert (Hd : drop (S (List.length p)) (a ++ b) = r).
        { rewrite He. change (p ++ x :: r) with (p ++ [x] ++ r). rewrite app_assoc.
          apply drop_app_length'. rewrite length_app. simpl. lia. }
        by rewrite drop_app_le in Hd by lia. }
    apply Forall_app in Hsa as [Hsp Hsq].
    exists (Z.of_nat (List.length p)). split.
    + replace (Z.of_nat (List.length (p ++ x :: q)) - Z.of_nat (List.length p))
        with (Z.of_nat (List.length (x :: q))) by (rewrite length_app; lia).
      rewrite <- (app_assoc p). rewrite !(utf16_app p), (bmp_units p) by done.
      change (x :: q ++ b) with ((x :: q) ++ b). rewrite utf16_app, <- !app_assoc.
      rewrite U16_FWD_N_spec; [done|done|]. rewrite !length_app. lia.
    + intros c Hc _. right. exists p, x, (q ++ c :: b). rewrite <- app_assoc. done.
Qed.

(** The buffers of the output, for the code points [o]. *)
Record holds (d0 f0 : option (list Z)) (o : list Z) (first : Z) (dest flags : option (list Z)) : Prop := {
  holds_dest : option_map (@List.length Z) dest = option_map (@List.length Z) d0;
  holds_flags : option_map (@List.length Z) flags = option_map (@List.length Z) f0;
  holds_output : Z.of_nat (List.length (utf16 o)) <= capacity d0 ->
                 dest = overlay d0 (utf16 o) /\ first_ok first o
}.

(** The buffer of the flags is as large as the one of the output. *)
Definition flags_fit (d0 f0 : option (list Z)) : Prop :=
  forall f, f0 = Some f -> capacity d0 <= Z.of_nat (List.length f).

(** The two buffers after the insertion: a gap is opened and filled. *)
Lemma fill_gap (a b r r' : list Z) c :
  is_scalar c -> Z.of_nat (List.length r) = U16_LENGTH c ->
  (d ← (if Z.of_nat (List.length a) <? Z.of_nat (List.length (a ++ b)) then
          memmove (a ++ b ++ r ++ r') (Z.of_nat (List.length a) + U16_LENGTH c) (Z.of_nat (List.length a))
            (Z.of_nat (List.length (a ++ b)) - Z.of_nat (List.length a))
        else Some (a ++ b ++ r ++ r'));
   if U16_LENGTH c =? 1 then aset d (Z.of_nat (List.length a)) (uint16 c)
   else d ← aset d (Z.of_nat (List.length a)) (U16_LEAD c);
        aset d (Z.of_nat (List.length a) + 1) (U16_TRAIL c)) = Some (a ++ units c ++ b ++ r').
Proof.
  intros Hc Hr. rewrite <- Hr at 1. destruct (memmove_gap a b r r') as (g & Hg & ->).
  cbn [mbind option_bind]. rewrite <- Hg in Hr.
  destruct Hc as [Hcp Hs]. assert (Hc : is_scalar c) by done. unfold is_code_point in Hcp.
  rewrite U16_LENGTH_spec in * by done.
  destruct (units_spec c Hc) as [(Hb & Hu & _)|(Hb & Hu)]; rewrite Hu.
  - rewrite (proj2 (Z.ltb_lt _ _)) in * by lia. cbn.
    destruct g as [|x [|y g]]; simpl in Hr; try lia.
    rewrite aset_nat by (rewrite length_app; simpl; lia).
    rewrite insert_app_r_alt, Nat.sub_diag, uint16_id by (unfold is_uint16; lia). done.
  - rewrite (proj2 (Z.ltb_ge _ _)) in * by lia. cbn.
    destruct g as [|x [|y [|z g]]]; simpl in Hr; try lia.
    rewrite aset_nat by (rewrite length_app; simpl; lia). cbn [mbind option_bind].
    rewrite insert_app_r_alt, Nat.sub_diag by lia. cbn.
    replace (Z.of_nat (List.length a) + 1) with (Z.of_nat (S (List.length a))) by lia.
    rewrite aset_nat by (rewrite length_app; simpl; lia).
    rewrite insert_app_r_alt by lia. by replace (S (List.length a) - List.length a)%nat with 1%nat by lia.
Qed.

Lemma fill_flags (f : list Z) (at_ n : nat) c last :
  is_scalar c -> (at_ <= n)%nat -> Z.of_nat n + U16_LENGTH c <= Z.of_nat (List.length f) ->
  exists f',
    (f ← (if Z.of_nat at_ <? Z.of_nat n then
            memmove f (Z.of_nat at_ + U16_LENGTH c) (Z.of_nat at_) (Z.of_nat n - Z.of_nat at_)
          else Some f);
     f ← aset f (Z.of_nat at_) last;
     f ← (if U16_LENGTH c =? 2 then aset f (Z.of_nat at_ + 1) 0 else Some f);
     Some (Some f)) = Some (Some f') /\ List.length f' = List.length f.
Proof.
  intros Hc Hat Hf. assert (HL : U16_LENGTH c = 1 \/ U16_LENGTH c = 2).
  { rewrite U16_LENGTH_spec by (destruct Hc; done). destruct (c <? 0x10000); tauto. }
  assert (exists g, (if Z.of_nat at_ <? Z.of_nat n then
      memmove f (Z.of_nat at_ + U16_LENGTH c) (Z.of_nat at_) (Z.of_nat n - Z.of_nat at_)
    else Some f) = Some g /\ List.length g = List.length f) as (g & -> & Hg).
  { destruct (Z.ltb_spec (Z.of_nat at_) (Z.of_nat n)); [|by exists f]. unfold memmove.
    rewrite !(proj2 (Z.leb_le _ _)) by lia. cbn [andb]. eexists. split; [done|].
    rewrite !length_app, !length_take, !length_drop. lia. }
  cbn [mbind option_bind]. rewrite aset_nat by lia. cbn [mbind option_bind].
  destruct HL as [-> | HL]; [eexists; split; [done|by rewrite length_insert]|].
  rewrite HL in *. cbn. replace (Z.of_nat at_ + 1) with (Z.of_nat (S at_)) by lia.
  rewrite aset_nat by (rewrite length_insert; lia). eexists. split; [done|]. by rewrite !length_insert.
Qed.

Lemma insert_code_point_spec d0 f0 a b c last st :
  Forall is_scalar (a ++ b) -> is_scalar c -> count (a ++ b) < 500000000 -> flags_fit d0 f0 ->
  st.(destLength) = Z.of_nat (List.length (utf16 (a ++ b))) ->
  holds d0 f0 (a ++ b) st.(firstSupplementaryIndex) st.(dDest) st.(dFlags) ->
  exists first dest flags,
    insert_code_point (capacity d0) c (count a) last st =
      Some (mkDecoder c (count a + 1) st.(dBias) (Z.of_nat (List.length (utf16 (a ++ c :: b))))
              st.(destCPCount) first dest flags) /\
    holds d0 f0 (a ++ c :: b) first dest flags.
Proof.
  intros Hs Hc Hmax Hff HL [Hd Hf Ho]. unfold insert_code_point.
  pose proof (utf16_length (a ++ b) Hs) as Hlen. unfold count in *.
  assert (Ha : Z.of_nat (List.length a) < 500000000) by (rewrite length_app in Hmax; lia).
  assert (Hlen' : st.(destLength) + U16_LENGTH c = Z.of_nat (List.length (utf16 (a ++ c :: b)))).
  { rewrite HL, !utf16_app, utf16_cons, !length_app, <- units_length by done. lia. }
  assert (Hcl : 1 <= U16_LENGTH c <= 2)
    by (rewrite U16_LENGTH_spec by (destruct Hc; done); destruct (c <? 0x10000); lia).
  rewrite iadd_ok, Hlen' by ibound. cbn [obind].
  set (L' := Z.of_nat (List.length (utf16 (a ++ c :: b)))) in *.
  enough (Hbuf : exists first dest flags,
    match st.(dDest) with
    | Some d =>
        if L' <=? capacity d0 then
          '(at_, first) ← code_unit_index d st.(destLength) (Z.of_nat (List.length a)) (U16_LENGTH c)
                            st.(firstSupplementaryIndex);
          d ← (if at_ <? st.(destLength) then
                 memmove d (at_ + U16_LENGTH c) at_ (st.(destLength) - at_) else Some d);
          d ← (if U16_LENGTH c =? 1 then aset d at_ (uint16 c)
               else d ← aset d at_ (U16_LEAD c); aset d (at_ + 1) (U16_TRAIL c));
          flags ← match st.(dFlags) with
                  | Some f =>
                      f ← (if at_ <? st.(destLength) then
                             memmove f (at_ + U16_LENGTH c) at_ (st.(destLength) - at_) else Some f);
                      f ← aset f at_ (if IS_BASIC_UPPERCASE last then 1 else 0);
                      f ← (if U16_LENGTH c =? 2 then aset f (at_ + 1) 0 else Some f);
                      Some (Some f)
                  | None => Some None
                  end;
          Some (first, Some d, flags)
        else Some (st.(firstSupplementaryIndex), st.(dDest), st.(dFlags))
    | None => Some (st.(firstSupplementaryIndex), st.(dDest), st.(dFlags))
    end = Some (first, dest, flags) /\ holds d0 f0 (a ++ c :: b) first dest flags).
  { destruct Hbuf as (first & dest & flags & -> & Hh). cbn [mbind option_bind].
    rewrite iadd_ok by ibound. cbn [obind]. by exists first, dest, flags. }
  destruct (dDest st) as [d|] eqn:Ed.
  2:{ do 3 eexists. split; [done|]. split; [done|done|]. subst L'. destruct d0 as [D|]; [done|].
      cbn. lia. }
  destruct d0 as [D|]; [|done]. cbn in Hd. injection Hd as Hd. cbn [capacity] in *.
  destruct (Z.leb_spec L' (Z.of_nat (List.length D))) as [Hfit|Hfit].
  2:{ do 3 eexists. split; [done|]. split; [cbn; by rewrite Hd|done|cbn; lia]. }
  destruct Ho as [Hod Hfirst]; [lia|]. rewrite overlay_fits in Hod by lia. injection Hod as Hod.
  destruct (code_unit_index_spec a b (drop (List.length (utf16 (a ++ b))) D)
    (Z.of_nat (List.length a)) (U16_LENGTH c) st.(firstSupplementaryIndex))
    as (first & Hcu & Hfo); [done|unfold count; lia|done|done|].
  rewrite <- Hod, <- HL in Hcu. rewrite Hcu. cbn [mbind option_bind].
  set (R := drop (List.length (utf16 (a ++ b))) D) in *.
  pose proof (fill_gap (utf16 a) (utf16 b) (take (Z.to_nat (U16_LENGTH c)) R)
    (drop (Z.to_nat (U16_LENGTH c)) R) c Hc) as Hfill.
  rewrite take_drop, <- (utf16_app a b), app_assoc, <- (utf16_app a b), <- Hod, <- HL in Hfill.
  assert (HR : (Z.to_nat (U16_LENGTH c) <= List.length R)%nat) by (unfold R; rewrite length_drop; lia).
  rewrite length_take in Hfill. specialize (Hfill ltac:(lia)).
  destruct (if _ <? destLength st then memmove d _ _ _ else Some d) as [d1|]; [|done].
  cbn [mbind option_bind] in Hfill |- *. rewrite Hfill. cbn [mbind option_bind].
  assert (Hflags : exists flags, match dFlags st with
    | Some f =>
        f ← (if Z.of_nat (List.length (utf16 a)) <? st.(destLength) then
               memmove f (Z.of_nat (List.length (utf16 a)) + U16_LENGTH c) (Z.of_nat (List.length (utf16 a)))
                 (st.(destLength) - Z.of_nat (List.length (utf16 a))) else Some f);
        f ← aset f (Z.of_nat (List.length (utf16 a))) (if IS_BASIC_UPPERCASE last then 1 else 0);
        f ← (if U16_LENGTH c =? 2 then aset f (Z.of_nat (List.length (utf16 a)) + 1) 0 else Some f);
        Some (Some f)
    | None => Some None end = Some flags /\ option_map (@List.length Z) flags = option_map (@List.length Z) f0).
  { destruct (dFlags st) as [f|]; [|by exists None]. destruct f0 as [F|]; [|done]. injection Hf as Hf.
    specialize (Hff F eq_refl). cbn [capacity] in Hff.
    destruct (fill_flags f (List.length (utf16 a)) (List.length (utf16 (a ++ b))) c
      (if IS_BASIC_UPPERCASE last then 1 else 0)) as (f' & Hf' & Hl'); [done| |lia|].
    { rewrite utf16_app, length_app. lia. }
    rewrite <- HL in Hf'. rewrite Hf'. exists (Some f'). split; [done|]. cbn. by rewrite Hl', Hf. }
  destruct Hflags as (flags & -> & Hfl). cbn [mbind option_bind].
  do 3 eexists. split; [done|]. split; [|done|].
  - cbn. f_equal. rewrite !length_app, length_drop. unfold R. rewrite length_drop.
    rewrite utf16_app, length_app in *. pose proof (units_length c Hc). lia.
  - intros _. split; [|by apply Hfo]. rewrite overlay_fits by lia. f_equal.
    rewrite utf16_app, utf16_cons, <- !app_assoc. do 3 f_equal. unfold R. rewrite drop_drop.
    f_equal. rewrite utf16_app, !length_app. pose proof (units_length c Hc). lia.
Qed.

(** ** One round of the decoder, and all of them *)

Section Decoder.
Context (d0 f0 : option (list Z)) (Hff : flags_fit d0 f0).

Record refines (st : decoder) (a : dstate) : Prop := {
  ref_n : st.(dN) = a.(aN);
  ref_i : st.(dI) = a.(aI);
  ref_bias : st.(dBias) = a.(aBias);
  ref_length : st.(destLength) = Z.of_nat (List.length (utf16 a.(aOut)));
  ref_count : st.(destCPCount) = count a.(aOut);
  ref_holds : holds d0 f0 a.(aOut) st.(firstSupplementaryIndex) st.(dDest) st.(dFlags)
}.

Lemma advance_spec st a i last :
  refines st a -> wf a -> a.(aI) <= i <= INT32_MAX -> count a.(aOut) < 499999999 ->
  (~ is_scalar (aN (next a i)) /\ advance (capacity d0) i last st = Some (inl U_ILLEGAL_CHAR_FOUND)) \/
  (is_scalar (aN (next a i)) /\ exists st', advance (capacity d0) i last st = Some (inr st') /\
     refines st' (next a i) /\ wf (next a i)).
Proof.
  intros [Hn Hi Hb HL Hcnt Hh] (HN & HI & HB & Hs) Hrange Hmax. unfold advance.
  set (len := count (aOut a) + 1). assert (1 <= len) by (unfold len, count; lia).
  rewrite Hcnt, Hi, Hn. unfold INT32_MAX in *.
  rewrite iadd_ok by (unfold len in *; ibound). fold len. rewrite isub_ok by ibound. cbn [obind].
  destruct (adaptBias_spec (i - aI a) len (aI a =? 0)) as (-> & Hbias);
    [unfold INT32_MAX; lia|unfold INT32_MAX; lia|]. cbn [obind].
  rewrite idiv_nonneg by (unfold INT32_MAX; lia). rewrite isub_ok by ibound. cbn [obind].
  assert (Hq : 0 <= i / len <= i)
    by (split; [apply Z.div_pos; lia|]; apply Z.div_le_upper_bound; nia).
  pose proof (Z.mod_pos_bound i len ltac:(lia)) as Hm.
  assert (HaN : aN (next a i) = aN a + i / len) by done.
  rewrite HaN. rewrite Z.gtb_ltb. destruct (Z.ltb_spec (2147483647 - aN a) (i / len)).
  { left. split; [|done]. unfold is_scalar, is_code_point. lia. }
  rewrite iadd_ok by ibound. rewrite imod_nonneg by (unfold INT32_MAX; lia). cbn [obind].
  assert (Hsc : ((aN a + i / len >? 0x10ffff) || U_IS_SURROGATE (aN a + i / len)) = true <->
                ~ is_scalar (aN a + i / len)).
  { rewrite Z.gtb_ltb. unfold is_scalar, is_code_point.
    destruct (Z.ltb_spec 0x10ffff (aN a + i / len)); cbn [orb]; [split; [lia|done]|].
    rewrite U_IS_SURROGATE_spec by lia. rewrite andb_true_iff, Z.leb_le, Z.ltb_lt. lia. }
  destruct (_ || _); [left; split; [by apply Hsc|done]|right].
  assert (Hc : is_scalar (aN a + i / len)) by (destruct (decide (is_scalar (aN a + i / len))); [done|by apply Hsc in n]).
  split; [done|]. clear Hsc. set (pos := Z.to_nat (i mod len)).
  assert (Hpos : (pos <= List.length (aOut a))%nat) by (unfold pos, len, count in *; lia).
  rewrite <- (take_drop pos (aOut a)) in Hs, HL, Hh.
  replace (i mod len) with (count (take pos (aOut a)))
    by (unfold count; rewrite length_take; unfold pos, len in *; lia).
  edestruct (insert_code_point_spec d0 f0) as (first & dest & flags & -> & Hh');
    [exact Hs|exact Hc| |exact Hff|exact HL|exact Hh|].
  { rewrite take_drop. lia. }
  cbn [mbind option_bind]. eexists. split; [done|].
  assert (Hins : insert_at pos (aN a + i / len) (aOut a) =
    take pos (aOut a) ++ (aN a + i / len) :: drop pos (aOut a)) by done.
  assert (Hposz : Z.of_nat (List.length (take pos (aOut a))) = i mod len)
    by (rewrite length_take; unfold pos, len, count in *; lia).
  split.
  - split; unfold next; cbn; fold len; fold pos; try done.
    + unfold count. lia.
    + unfold count. rewrite length_insert_at. unfold len, count. lia.
  - unfold wf, next. cbn. fold len. fold pos. destruct Hc as [Hc1 Hc2]. unfold is_code_point in Hc1.
    split_and!; [lia|lia|lia|unfold count at 1; rewrite length_insert_at; unfold len, count in *; lia|lia|lia|].
    rewrite Hins. apply Forall_app in Hs as [Hs1 Hs2]. apply Forall_app. split; [done|]. constructor; done.
Qed.

Lemma next_count a i : count (aOut (next a i)) = count (aOut a) + 1.
Proof. unfold count, next. cbn. rewrite length_insert_at. lia. Qed.

(** The encoded differences that take the decoder from one state to another. *)
Inductive steps : dstate -> list Z -> dstate -> Prop :=
  | steps_nil a : steps a [] a
  | steps_cons a delta up out a' :
      0 <= delta <= DELTA_MAX -> is_scalar (aN (next a (a.(aI) + delta))) ->
      steps (next a (a.(aI) + delta)) out a' ->
      steps a (vli digits_fuel delta BASE a.(aBias) up ++ out) a'.

Lemma vli_cons q k b up : exists c l, vli digits_fuel q k b up = c :: l.
Proof. unfold digits_fuel. cbn [vli]. destruct (_ <? _); eauto. Qed.

Lemma decode_loop_steps a out a' : steps a out a' -> forall src fuel (n : nat) st,
  refines st a -> wf a -> drop n src = out -> (List.length out <= fuel)%nat ->
  count a.(aOut) + Z.of_nat (List.length out) < 500000000 ->
  exists st', decode_loop fuel src (Z.of_nat (List.length src)) (capacity d0) (Z.of_nat n) st = Some (st', None) /\
    refines st' a' /\ wf a'.
Proof.
  induction 1 as [a|a delta up out a' Hd Hsc Hst IH]; intros src fuel n st Hr Hw Hdr Hf Hmax.
  - exists st. split_and!; [|done..]. assert (List.length src <= n)%nat.
    { destruct (decide (List.length src <= n)%nat); [done|]. apply (f_equal (@List.length Z)) in Hdr.
      rewrite length_drop in Hdr. simpl in Hdr. lia. }
    destruct fuel; cbn [decode_loop]; by rewrite (proj2 (Z.ltb_ge _ _)) by lia.
  - rewrite length_app in *. pose proof Hw as (HN & HI & HB & Hs). set (v := vli _ _ _ _ _) in *.
    assert (Hv : (0 < List.length v)%nat)
      by (destruct (vli_cons delta BASE (aBias a) up) as (c & l & Hv); subst v; rewrite Hv; simpl; lia).
    assert (Hn : (n + List.length v <= List.length src)%nat).
    { apply (f_equal (@List.length Z)) in Hdr. rewrite length_drop, length_app in Hdr. lia. }
    destruct fuel as [|fuel]; [lia|]. cbn [decode_loop].
    rewrite (proj2 (Z.ltb_lt _ _)) by lia. rewrite (ref_i _ _ Hr), (ref_bias _ _ Hr).
    rewrite (decode_vli src (aBias a) up out digits_fuel n (aI a) 1 BASE delta);
      [|by apply all_weights_ok|lia|lia|lia|lia|unfold count, DELTA_MAX, INT32_MAX in *; lia|unfold INT32_MAX; lia|done].
    fold v. rewrite Z.mul_1_l. cbn [mbind option_bind].
    replace (Z.of_nat (n + List.length v) - 1) with (Z.of_nat (n + List.length v - 1)) by lia.
    destruct (aget_is_Some src (Z.of_nat (n + List.length v - 1))) as [l ->]; [lia|]. cbn [mbind option_bind].
    destruct (advance_spec st a (aI a + delta) l Hr Hw) as [[? _]|(_ & st' & -> & Hr' & Hw')];
      [unfold count, DELTA_MAX, INT32_MAX in *; lia|lia|done|]. cbn [mbind option_bind].
    apply IH; [done|done| |lia|rewrite next_count; lia].
    rewrite <- drop_drop, Hdr. apply drop_app_length.
Qed.
End Decoder.

(** Whatever the source, the loop stays within the buffers and the type.  What
    it decodes is a list of scalar values that does not depend on the buffers. *)
Lemma decode_loop_safe src : forall fuel (n : nat) a,
  (List.length src - n <= fuel)%nat -> wf a ->
  count a.(aOut) + Z.of_nat (List.length src - n) < 499999999 ->
  exists a' error, wf a' /\ count a'.(aOut) <= count a.(aOut) + Z.of_nat (List.length src - n) /\
    (error = None \/ error = Some U_ILLEGAL_CHAR_FOUND \/ error = Some U_INVALID_CHAR_FOUND) /\
    forall d0 f0 st, flags_fit d0 f0 -> refines d0 f0 st a ->
      exists st', decode_loop fuel src (Z.of_nat (List.length src)) (capacity d0) (Z.of_nat n) st = Some (st', error) /\
        refines d0 f0 st' a'.
Proof.
  induction fuel as [|fuel IH]; intros n a Hf Hw Hmax; cbn [decode_loop];
    (destruct (Z.ltb_spec (Z.of_nat n) (Z.of_nat (List.length src)));
      [|exists a, None; split_and!; try done; [lia|tauto|]; intros d0 f0 st _ Hr; by exists st]); [lia|].
  pose proof Hw as (HN & HI & HB & Hs).
  destruct (decode_integer_safe src (aBias a) digits_fuel n (aI a) 1 BASE) as
    [(e & He & Herr)|(m & i' & He & Hm & Hi')];
    [vm_compute; done|unfold INT32_MAX; lia|unfold count, INT32_MAX in *; lia|..].
  { exists a, (Some e). split_and!; [done|lia|destruct Herr as [-> | ->]; tauto|]. intros d0 f0 st _ Hr. exists st.
    by rewrite (ref_i _ _ _ _ Hr), (ref_bias _ _ _ _ Hr), He. }
  destruct (aget_is_Some src (Z.of_nat m - 1)) as [l Hl]; [lia|].
  destruct (decide (is_scalar (aN (next a i')))) as [Hsc|Hsc].
  - assert (Hw' : wf (next a i')).
    { destruct (advance_spec None None ltac:(done) (mkDecoder (aN a) (aI a) (aBias a)
        (Z.of_nat (List.length (utf16 (aOut a)))) (count (aOut a)) 1000000000 None None) a i' l)
        as [[? _]|(_ & st' & _ & _ & ?)]; try done; [|unfold count in *; lia]. split; try done. split; try done.
      cbn. intros Hz. split; [done|]. left. pose proof (utf16_length _ Hs). unfold count.
      destruct (aOut a); [|simpl in *; lia]. split; [simpl; lia|done]. }
    destruct (IH m (next a i')) as (a' & error & ? & Hc & ? & Hall); [lia|done|rewrite next_count; lia|].
    rewrite next_count in Hc. exists a', error. split_and!; [done|lia|done|]. intros d0 f0 st Hff Hr.
    rewrite (ref_i _ _ _ _ Hr), (ref_bias _ _ _ _ Hr), He. cbn [mbind option_bind]. rewrite Hl.
    cbn [mbind option_bind].
    destruct (advance_spec d0 f0 Hff st a i' l Hr Hw) as [[? _]|(_ & st' & -> & Hr' & _)];
      [lia|lia|done|]. cbn [mbind option_bind]. by apply Hall.
  - exists a, (Some U_ILLEGAL_CHAR_FOUND). split_and!; [done|lia|tauto|]. intros d0 f0 st Hff Hr. exists st.
    rewrite (ref_i _ _ _ _ Hr), (ref_bias _ _ _ _ Hr), He. cbn [mbind option_bind]. rewrite Hl.
    cbn [mbind option_bind].
    by destruct (advance_spec d0 f0 Hff st a i' l Hr Hw) as [[_ ->]|(? & _)]; [lia|lia|..].
Qed.

(** ** The basic code points *)

Lemma find_delimiter_range src j : (j <= List.length src)%nat ->
  exists k, find_delimiter src j = Some (Z.of_nat k) /\ (k <= j)%nat /\ (k = 0 \/ k < j)%nat.
Proof.
  induction j as [|j IH]; intros Hj; cbn [find_delimiter]; [exists 0%nat; split_and!; done || lia|].
  destruct (aget_is_Some src (Z.of_nat j)) as [c ->]; [lia|]. cbn [mbind option_bind].
  destruct (c =? DELIMITER); [exists j; split_and!; done || lia|].
  destruct IH as (k & -> & ? & ?); [lia|]. exists k. split_and!; done || lia.
Qed.

Lemma find_delimiter_skip p r : Forall (fun c => c <> DELIMITER) r ->
  find_delimiter (p ++ r) (List.length p + List.length r) = find_delimiter (p ++ r) (List.length p).
Proof.
  induction r as [|c r IH] using rev_ind; intros Hr; [by rewrite Nat.add_0_r|].
  apply Forall_app in Hr as [Hr Hc]. apply (Forall_inv (P := fun c => c <> DELIMITER)) in Hc.
  rewrite length_app. simpl. replace (List.length p + (List.length r + 1))%nat with (S (List.length p + List.length r)) by lia.
  cbn [find_delimiter]. rewrite aget_nat, app_assoc, lookup_app_r, length_app, Nat.sub_diag by (rewrite length_app; lia).
  cbn [lookup list_lookup mbind option_bind]. rewrite (proj2 (Z.eqb_neq c DELIMITER) Hc).
  assert (Hext : forall j, (j <= List.length (p ++ r))%nat ->
    find_delimiter ((p ++ r) ++ [c]) j = find_delimiter (p ++ r) j).
  { clear IH. induction j as [|j IHj]; intros Hj; [done|]. cbn [find_delimiter].
    rewrite !aget_nat, lookup_app_l by lia. by rewrite IHj by lia. }
  rewrite !Hext by (rewrite length_app; lia). by apply IH.
Qed.

Definition is_basic (c : Z) : Prop := 0 <= c < 0x80.

Lemma copy_basic_spec src d0 f0 : is_string src -> flags_fit d0 f0 -> forall j dest flags,
  (j <= List.length src)%nat ->
  option_map (@List.length Z) dest = option_map (@List.length Z) d0 ->
  option_map (@List.length Z) flags = option_map (@List.length Z) f0 ->
  exists dest' flags', 
    copy_basic src (capacity d0) j dest flags =
      Some (dest', flags', if forallb IS_BASIC (take j src) then None else Some U_INVALID_CHAR_FOUND) /\
    option_map (@List.length Z) dest' = option_map (@List.length Z) d0 /\
    option_map (@List.length Z) flags' = option_map (@List.length Z) f0 /\
    (forallb IS_BASIC (take j src) = true -> dest' = overlay dest (take j src)).
Proof.
  intros Hsrc Hff. induction j as [|j IH]; intros dest flags Hj Hd Hf; cbn [copy_basic].
  { exists dest, flags. split_and!; try done. intros _. by rewrite overlay_nil. }
  destruct (lookup_lt_is_Some_2 src j Hj) as [b Hb]. rewrite aget_nat, Hb. cbn [mbind option_bind].
  rewrite (take_S_r _ _ _ Hb), forallb_app. cbn [forallb]. rewrite andb_true_r.
  destruct (IS_BASIC b) eqn:Eb; cbn [negb].
  2:{ rewrite andb_false_r. exists dest, flags. done. }
  rewrite andb_true_r. destruct (Z.ltb_spec (Z.of_nat j) (capacity d0)) as [Hlt|Hge].
  - destruct dest as [d|]; [|by destruct d0; [done|cbn in Hlt; lia]].
    destruct d0 as [D|]; [|done]. cbn in Hd. injection Hd as Hd. cbn [capacity] in *. cbn [mbind option_bind].
    rewrite aset_nat by lia. cbn [mbind option_bind].
    assert (exists flags', (match flags with
      | Some f => f ← aset f (Z.of_nat j) (if IS_BASIC_UPPERCASE b then 1 else 0); Some (Some f)
      | None => Some None end) = Some flags' /\
      option_map (@List.length Z) flags' = option_map (@List.length Z) f0) as (flags' & -> & Hf').
    { destruct flags as [f|]; [|by exists None]. destruct f0 as [F|]; [|done]. injection Hf as Hf.
      specialize (Hff F eq_refl). cbn in Hff. rewrite aset_nat by lia. cbn. eexists. split; [done|].
      cbn. by rewrite length_insert, Hf. }
    cbn [mbind option_bind].
    destruct (IH (Some (<[j:=b]> d)) flags') as (dest2 & flags2 & -> & Hd2 & Hf2 & Ho2);
      [lia|cbn; by rewrite length_insert, Hd|done|].
    exists dest2, flags2. split_and!; [done|done|done|]. intros Hall. rewrite (Ho2 Hall).
    rewrite !overlay_fits by (rewrite ?length_app, ?length_insert, length_take; simpl; lia).
    rewrite length_app, !length_take. simpl. rewrite Nat.min_l by lia.
    destruct (lookup_lt_is_Some_2 d j) as [x Hx]; [lia|].
    rewrite drop_insert_ge, Nat.sub_diag by lia. rewrite (drop_S _ _ _ Hx). cbn.
    by rewrite <- app_assoc, Nat.add_comm.
  - destruct (IH dest flags) as (dest2 & flags2 & -> & Hd2 & Hf2 & Ho2); [lia|done|done|].
    exists dest2, flags2. split_and!; [done|done|done|]. intros Hall. rewrite (Ho2 Hall).
    destruct dest as [d|]; [|done]. destruct d0 as [D|]; [|done]. cbn in Hd. injection Hd as Hd.
    cbn [capacity] in *. cbn. rewrite !take_app_le, !drop_ge; [done|..];
      rewrite ?length_app, ?length_take; simpl; lia.
Qed.

Lemma basics_scalar p : is_string p -> forallb IS_BASIC p = true -> Forall is_basic p.
Proof.
  intros Hs Hb. rewrite forallb_forall in Hb. apply Forall_forall. intros c Hc.
  unfold is_string in Hs. rewrite Forall_forall in Hs. specialize (Hs c Hc).
  apply list_elem_of_In, Hb in Hc. unfold IS_BASIC in Hc. apply Z.ltb_lt in Hc.
  unfold is_uint16, is_basic in *. lia.
Qed.

Lemma basic_scalars p : Forall is_basic p -> Forall is_scalar p /\ Forall is_bmp p /\ utf16 p = p.
Proof.
  intros H. assert (Forall is_scalar p /\ Forall is_bmp p) as [? ?].
  { split; (eapply Forall_impl; [exact H|]); unfold is_basic, is_scalar, is_code_point, is_bmp; lia. }
  split_and!; [done..|]. by apply bmp_units.
Qed.

(** The state in which the main loop starts. *)
Definition start (p : list Z) : dstate := mkState INITIAL_N 0 INITIAL_BIAS p.

Lemma start_wf p : Forall is_basic p -> wf (start p).
Proof.
  intros H. unfold wf, start, INITIAL_N, INITIAL_BIAS, count. cbn.
  split_and!; try lia. by apply basic_scalars.
Qed.

Lemma start_refines d0 f0 p flags dest :
  Forall is_basic p -> dest = overlay d0 p ->
  option_map (@List.length Z) flags = option_map (@List.length Z) f0 ->
  option_map (@List.length Z) dest = option_map (@List.length Z) d0 ->
  refines d0 f0 (mkDecoder INITIAL_N 0 INITIAL_BIAS (Z.of_nat (List.length p)) (Z.of_nat (List.length p))
    1000000000 dest flags) (start p).
Proof.
  intros Hp Hd Hf Hs. destruct (basic_scalars p Hp) as (Hsc & Hb & Hu).
  split; try done; [cbn [destLength]; change (aOut (start p)) with p; by rewrite Hu|].
  cbn [firstSupplementaryIndex dDest dFlags]. change (aOut (start p)) with p. split; [done|done|].
  rewrite Hu. intros _. split; [done|].
  left. unfold count. split; [lia|done].
Qed.

(** ** The decoder as a whole *)

Definition decoded_length (error : option UErrorCode) (s : list Z) : Z :=
  match error with None => Z.of_nat (List.length (utf16 s)) | Some _ => 0 end.

Definition decoded_error (d0 : option (list Z)) (error : option UErrorCode) (s : list Z) : UErrorCode :=
  match error with
  | None => termination (capacity d0) (Z.of_nat (List.length (utf16 s))) U_ZERO_ERROR
  | Some e => e
  end.

Lemma terminate_short dest cap len : capacity dest = cap -> 0 <= len ->
  exists dest', u_terminateUChars dest cap len U_ZERO_ERROR = Some (dest', termination cap len U_ZERO_ERROR) /\
    option_map (@List.length Z) dest' = option_map (@List.length Z) dest.
Proof.
  intros Hc Hl. unfold u_terminateUChars, termination. cbn [U_SUCCESS UErrorCode_value Z.leb].
  change (U_SUCCESS U_ZERO_ERROR) with true. cbn iota. rewrite (proj2 (Z.ltb_ge _ 0)) by lia.
  destruct (Z.ltb_spec len cap).
  - destruct dest as [d|]; cbn in Hc; [|lia]. cbn [mbind option_bind].
    replace len with (Z.of_nat (Z.to_nat len)) by lia. rewrite aset_nat by lia. cbn [mbind option_bind].
    eexists. split; [done|]. cbn. by rewrite length_insert.
  - exists dest. split; [|done]. by destruct (len =? cap).
Qed.

Lemma capacity_shape (dest d0 : option (list Z)) :
  option_map (@List.length Z) dest = option_map (@List.length Z) d0 -> capacity dest = capacity d0.
Proof. destruct dest, d0; try done. intros [= H]. cbn. by rewrite H. Qed.

Lemma decode_start src d0 f0 :
  u_strFromPunycode (Some src) (Z.of_nat (List.length src)) d0 (capacity d0) f0 U_ZERO_ERROR =
    k ← find_delimiter src (List.length src);
    '(dest, caseFlags, error) ← copy_basic src (capacity d0) (Z.to_nat k) d0 f0;
    match error with
    | Some error => Some (0, dest, caseFlags, error)
    | None =>
        let inn := if k >? 0 then k + 1 else 0 in
        '(st, error) ← decode_loop (Z.to_nat (Z.of_nat (List.length src) - inn)) src (Z.of_nat (List.length src))
                         (capacity d0) inn
                         (mkDecoder INITIAL_N 0 INITIAL_BIAS k k 1000000000 dest caseFlags);
        match error with
        | Some error => Some (0, st.(dDest), st.(dFlags), error)
        | None =>
            '(dest, error) ← u_terminateUChars st.(dDest) (capacity d0) st.(destLength) U_ZERO_ERROR;
            Some (st.(destLength), dest, st.(dFlags), error)
        end
    end.
Proof.
  unfold u_strFromPunycode. change (U_FAILURE U_ZERO_ERROR) with false. cbn iota.
  rewrite (proj2 (Z.ltb_ge _ _)) by lia. rewrite (proj2 (Z.eqb_neq _ (-1))) by lia.
  assert (bool_decide (d0 = None) && negb (capacity d0 =? 0) = false) as -> by (by destruct d0).
  cbn [orb mbind option_bind]. by rewrite Nat2Z.id.
Qed.

(** The decoder, when the main loop is known. *)
Lemma decode_from src (k n : nat) a error :
  is_string src -> Z.of_nat (List.length src) <= INT32_MAX ->
  find_delimiter src (List.length src) = Some (Z.of_nat k) -> (k <= List.length src)%nat ->
  forallb IS_BASIC (take k src) = true -> n = (if k =? 0 then 0 else S k)%nat ->
  (forall d0 f0 st, flags_fit d0 f0 -> refines d0 f0 st (start (take k src)) ->
     exists st', decode_loop (List.length src - n) src (Z.of_nat (List.length src)) (capacity d0) (Z.of_nat n) st =
       Some (st', error) /\ refines d0 f0 st' a) ->
  forall d0 f0, flags_fit d0 f0 -> exists dest flags,
    u_strFromPunycode (Some src) (Z.of_nat (List.length src)) d0 (capacity d0) f0 U_ZERO_ERROR =
      Some (decoded_length error (aOut a), dest, flags, decoded_error d0 error (aOut a)) /\
    option_map (@List.length Z) dest = option_map (@List.length Z) d0 /\
    option_map (@List.length Z) flags = option_map (@List.length Z) f0 /\
    (error = None -> Z.of_nat (List.length (utf16 (aOut a))) <= capacity d0 ->
       dest = overlay d0 (utf16 (aOut a) ++ [0])).
Proof.
  intros Hsrc Hmax Hk Hkl Eb Hn Hall d0 f0 Hff. rewrite decode_start, Hk. cbn [mbind option_bind].
  rewrite Nat2Z.id.
  pose proof (basics_scalar (take k src) ltac:(by apply Forall_take) Eb) as Hbas.
  destruct (copy_basic_spec src d0 f0 Hsrc Hff k d0 f0) as (dest & flags & Hcb & Hd & Hf & Ho); [lia|done|done|].
  rewrite Hcb, Eb. cbn [mbind option_bind]. cbn zeta.
  replace (if Z.of_nat k >? 0 then Z.of_nat k + 1 else 0) with (Z.of_nat n)
    by (subst n; destruct k; [done|]; cbn [Nat.eqb]; rewrite Z.gtb_ltb, (proj2 (Z.ltb_lt _ _)) by lia; lia).
  replace (Z.to_nat (Z.of_nat (List.length src) - Z.of_nat n)) with (List.length src - n)%nat by lia.
  pose proof (start_refines d0 f0 (take k src) flags dest Hbas (Ho Eb) Hf Hd) as Hr.
  rewrite length_take, Nat.min_l in Hr by lia.
  destruct (Hall d0 f0 _ Hff Hr) as (st & -> & Hr'). cbn [mbind option_bind].
  destruct Hr' as [_ _ _ HL _ [Hsd Hsf Hout]].
  destruct error as [e|].
  { exists st.(dDest), st.(dFlags). split_and!; done. }
  destruct (terminate_short (dDest st) (capacity d0) (destLength st)) as (dest' & Ht & Hs');
    [by apply capacity_shape|lia|].
  rewrite Ht. cbn [mbind option_bind]. exists dest', (dFlags st). cbn [decoded_length decoded_error].
  rewrite HL in *. split_and!; [done|by rewrite Hs'|done|]. intros _ Hfit.
  destruct (Hout Hfit) as [Hov _]. rewrite Hov in Ht. rewrite terminate_overlay in Ht by done. by injection Ht as <-.
Qed.

(** C20: decoding.  For any source that is given with its length, below
    499,999,999, u_strFromPunycode stays within its buffers
    and within [int32_t] and either reports an error of the source or decodes a
    list of scalar values: its output is well-formed UTF-16, terminated if there
    is room, its length and the errors of the source do not depend on the
    buffers. *)
Theorem punycode_decode_well_formed (src : list Z) :
  is_string src -> Z.of_nat (List.length src) < 499999999 ->
  exists (s : list Z) (error : option UErrorCode),
    Forall is_scalar s /\ code_points (utf16 s) = s /\
    (error = None \/ error = Some U_ILLEGAL_CHAR_FOUND \/ error = Some U_INVALID_CHAR_FOUND) /\
    forall d0 f0, flags_fit d0 f0 -> exists dest flags,
      u_strFromPunycode (Some src) (Z.of_nat (List.length src)) d0 (capacity d0) f0 U_ZERO_ERROR =
        Some (decoded_length error s, dest, flags, decoded_error d0 error s) /\
      option_map (@List.length Z) dest = option_map (@List.length Z) d0 /\
      option_map (@List.length Z) flags = option_map (@List.length Z) f0 /\
      (error = None -> Z.of_nat (List.length (utf16 s)) <= capacity d0 -> dest = overlay d0 (utf16 s ++ [0])).
Proof.
  intros Hsrc Hmax. destruct (find_delimiter_range src (List.length src)) as (k & Hk & Hkl & Hk0); [lia|].
  destruct (forallb IS_BASIC (take k src)) eqn:Eb.
  2:{ exists [], (Some U_INVALID_CHAR_FOUND). split_and!; [constructor|done|tauto|]. intros d0 f0 Hff.
      destruct (copy_basic_spec src d0 f0 Hsrc Hff k d0 f0) as (dest & flags & Hc & ? & ? & _); [lia|done|done|].
      rewrite decode_start, Hk. cbn [mbind option_bind]. rewrite Nat2Z.id, Hc, Eb. exists dest, flags. done. }
  pose proof (basics_scalar (take k src) ltac:(by apply Forall_take) Eb) as Hbas.
  set (n := (if k =? 0 then 0 else S k)%nat).
  assert (k <= n <= List.length src)%nat by (unfold n; destruct k; cbn [Nat.eqb]; lia).
  destruct (decode_loop_safe src (List.length src - n) n (start (take k src))) as
    (a & error & Hw & Hc & He & Hall); [lia|by apply start_wf|unfold count, start; cbn; rewrite length_take; lia|].
  exists (aOut a), error. split_and!; [apply Hw|apply code_points_utf16, Hw|done|].
  apply (decode_from src k n); (done || unfold INT32_MAX; lia).
Qed.

(** The source b-kva, in a buffer of five units *)
Lemma punycode_decode_well_formed_witness :
  is_string [98; 0x2d; 107; 118; 97] /\
  u_strFromPunycode (Some [98; 0x2d; 107; 118; 97]) 5 (Some [7; 7; 7; 7; 7]) 5 None U_ZERO_ERROR =
    Some (2, Some [98; 500; 0; 7; 7], None, U_ZERO_ERROR) /\
  exists s, Forall is_scalar s /\ code_points (utf16 s) = s /\ Z.of_nat (List.length (utf16 s)) = 2.
Proof.
  assert (Hs : is_string [98; 0x2d; 107; 118; 97]) by (repeat constructor; vm_compute; congruence).
  assert (Hl : Z.of_nat (List.length [98; 0x2d; 107; 118; 97]) < 499999999) by (vm_compute; reflexivity).
  assert (Hr : u_strFromPunycode (Some [98; 0x2d; 107; 118; 97]) 5 (Some [7; 7; 7; 7; 7]) 5 None U_ZERO_ERROR =
    Some (2, Some [98; 500; 0; 7; 7], None, U_ZERO_ERROR)) by (vm_compute; reflexivity).
  split; [exact Hs|split; [exact Hr|]].
  destruct (punycode_decode_well_formed [98; 0x2d; 107; 118; 97] Hs Hl) as (s & error & Hsc & Hc & _ & H).
  destruct (H (Some [7; 7; 7; 7; 7]) None) as (dest & flags & E & _ & _ & _); [discriminate|].
  change (capacity (Some [7; 7; 7; 7; 7])) with 5 in E. change (Z.of_nat (List.length [98; 0x2d; 107; 118; 97])) with 5 in E.
  rewrite Hr in E. exists s. split; [exact Hsc|split; [exact Hc|]].
  destruct error; [discriminate E|]. injection E as E _ _ _. symmetry. exact E.
Defined.
