(* ===== verification/PunycodeEncoding.v ===== *)
(** * Encoding Punycode, and the round trip (src/common/punycode.cpp)

    The encoder keeps the decoder in mind: between two emitted integers, delta
    is how far the decoder would have to go from where it stands to the current
    code point and position.  [encode_same_spec] states this invariant for one
    pass over the code points, [encode_loop_spec] for all of them; what is
    emitted leads the decoder of PunycodeDecoding.v through [steps] to the
    whole string. *)
From S2P Require Import Prelude Int32 Utf16 UString Punycode PunycodeDecoding.
Import Punycode.
Local Open Scope Z_scope.

(** ** Reading the source *)

(** What the buffer has for a code point, without case flags. *)
Definition entry (c : Z) : Z := if c <? 0x80 then 0 else c.

Definition basics (s : list Z) : list Z := filter (fun c => c < 0x80) s.

Definition scanned (d0 : option (list Z)) (s : list Z) (e : UErrorCode) : scan :=
  mkScan (map entry s) (overlay d0 (basics s)) (count (basics s)) e.

Lemma basics_snoc s c : basics (s ++ [c]) = basics s ++ (if c <? 0x80 then [c] else []).
Proof.
  unfold basics. rewrite filter_app. f_equal.
  destruct (Z.ltb_spec c 0x80); [by rewrite filter_cons_True, filter_nil|].
  by rewrite filter_cons_False, filter_nil by lia.
Qed.

Lemma basics_basic s : Forall is_scalar s -> Forall is_basic (basics s).
Proof.
  intros Hs. apply Forall_forall. intros c [Hc Hin]%list_elem_of_filter.
  rewrite Forall_forall in Hs. destruct (Hs c Hin) as [H _]. unfold is_code_point, is_basic in *. lia.
Qed.

(** The units of a code point are read in one round of either loop. *)
Lemma scan_unit_spec d0 pre c r more :
  is_scalar c -> (0x10000 <= c -> more = true) -> forall e,
  let src := utf16 pre ++ units c ++ r in
  let j := Z.of_nat (List.length (utf16 pre)) in
  exists u, aget src j = Some u /\ (u = 0 <-> c = 0) /\
    scan_unit src None (capacity d0) more (scanned d0 pre e) u j =
      Some (scanned d0 (pre ++ [c]) e, Z.of_nat (List.length (utf16 (pre ++ [c]))) - 1).
Proof.
  intros Hc Hmore e src j. unfold src, j. clear src j.
  assert (Hu16 : utf16 (pre ++ [c]) = utf16 pre ++ units c)
    by (rewrite utf16_app, utf16_cons; cbn; by rewrite app_nil_r).
  unfold scanned. rewrite basics_snoc, map_app, Hu16, length_app. cbn [map]. unfold count.
  pose proof Hc as [Hcp Hcs]. unfold is_code_point in Hcp. unfold scan_unit, IS_BASIC, entry.
  destruct (units_spec c Hc) as [(Hb & Hu & Hl & Ht)|(Hb & Hu)]; rewrite Hu.
  - exists c. rewrite aget_nat, lookup_app_r, Nat.sub_diag by lia. split; [done|]. split; [done|].
    destruct (Z.ltb_spec c 0x80).
    + cbn [push sLength sDest cpBuffer sError].
      assert (Hw : (if Z.of_nat (List.length (basics pre)) <? capacity d0 then
          v ← Some c; write (overlay d0 (basics pre)) (capacity d0) (Z.of_nat (List.length (basics pre))) v
        else Some (overlay d0 (basics pre))) = Some (overlay d0 (basics pre ++ [c]))).
      { pose proof (write_overlay d0 (basics pre) c) as Hw. unfold write in *. cbn [mbind option_bind].
        by destruct (_ <? _). }
      rewrite Hw. cbn [mbind option_bind]. rewrite length_app. simpl. do 3 f_equal; lia.
    + cbn [mbind option_bind]. unfold U16_IS_SINGLE.
      rewrite U_IS_SURROGATE_spec by lia.
      assert ((0xd800 <=? c) && (c <? 0xe000) = false) as -> by (zcases; cbn; lia).
      cbn [negb]. unfold push. cbn [sLength sDest cpBuffer sError]. rewrite Z.lor_0_l, app_nil_r.
      do 3 f_equal; simpl; lia.
  - destruct (U16_pair_supplementary c) as (Hl & Ht & Hg); [lia|].
    exists (U16_LEAD c). rewrite aget_nat, lookup_app_r, Nat.sub_diag by lia. split; [done|].
    rewrite U16_LEAD_eq in * by lia. split; [dlia|].
    rewrite (proj2 (Z.ltb_ge (c / 1024 + 0xd7c0) 0x80)) by dlia. rewrite (proj2 (Z.ltb_ge c 0x80)) by lia.
    cbn [mbind option_bind]. unfold U16_IS_SINGLE. rewrite U_IS_SURROGATE_spec by dlia.
    assert ((0xd800 <=? c / 1024 + 0xd7c0) && (c / 1024 + 0xd7c0 <? 0xe000) = true) as ->
      by (apply andb_true_intro; rewrite Z.leb_le, Z.ltb_lt; dlia).
    cbn [negb]. rewrite Hl, Hmore by lia. cbn [andb].
    replace (Z.of_nat (List.length (utf16 pre)) + 1) with (Z.of_nat (List.length (utf16 pre) + 1)) by lia.
    rewrite aget_nat, lookup_app_r by lia.
    replace (List.length (utf16 pre) + 1 - List.length (utf16 pre))%nat with 1%nat by lia.
    cbn [app lookup list_lookup mbind option_bind]. rewrite Ht. unfold push.
    cbn [sLength sDest cpBuffer sError]. rewrite Z.lor_0_l, Hg, app_nil_r. do 3 f_equal; simpl; lia.
Qed.

Lemma srcCPCount_scanned d0 s e : srcCPCount (scanned d0 s e) = count s.
Proof. unfold srcCPCount, scanned, count. cbn. by rewrite length_map. Qed.

Lemma utf16_snoc_length s c : is_scalar c ->
  (List.length (utf16 s) < List.length (utf16 (s ++ [c])))%nat.
Proof.
  intros Hc. rewrite utf16_app, length_app, utf16_cons. cbn [utf16 map concat]. rewrite app_nil_r.
  destruct (units_spec c Hc) as [(_ & -> & _)|(_ & ->)]; simpl; lia.
Qed.

Lemma scan_length_spec d0 e s : U_FAILURE e = false -> Forall is_scalar s -> count s <= 200 ->
  forall fuel pre suf, s = pre ++ suf -> (List.length suf <= fuel)%nat ->
  scan_length fuel (utf16 s) (count (utf16 s)) None (capacity d0) (scanned d0 pre e) (count (utf16 pre)) =
    Some (scanned d0 s e).
Proof.
  intros He Hs H200. induction fuel as [|fuel IH]; intros pre suf Hsuf Hf;
    (destruct suf as [|c suf]; [rewrite app_nil_r in Hsuf; subst pre; unfold scan_length; by rewrite Z.ltb_irrefl|]);
    simpl in Hf; [lia|].
  assert (Hc : is_scalar c) by (rewrite Hsuf in Hs; apply Forall_app in Hs as [_ Hs]; by apply Forall_cons in Hs as [? _]).
  assert (Hsrc : utf16 s = utf16 pre ++ units c ++ utf16 suf) by (rewrite Hsuf, utf16_app; done).
  assert (Hcount : (List.length s = List.length pre + S (List.length suf))%nat) by (rewrite Hsuf, length_app; done).
  cbn [scan_length]. unfold count at 1 2. unfold count in H200.
  assert (Hlen : (List.length (utf16 s) = List.length (utf16 pre) + List.length (units c) + List.length (utf16 suf))%nat)
    by (rewrite Hsrc, !length_app; lia).
  destruct (units_spec c Hc) as [(Hb & Hu & _)|(Hb & Hu)];
  (rewrite Hu in Hlen; simpl in Hlen;
   rewrite (proj2 (Z.ltb_lt _ _)) by lia; rewrite srcCPCount_scanned;
   rewrite (proj2 (Z.eqb_neq _ _)) by (unfold count, MAX_CP_COUNT; lia);
   destruct (scan_unit_spec d0 pre c (utf16 suf) (count (utf16 pre) + 1 <? count (utf16 s)) Hc ltac:(unfold count; intros; apply Z.ltb_lt; lia) e) as (u & Hg & _ & Hsu);
   rewrite <- Hsrc in Hg, Hsu; unfold count in *; rewrite Hg; cbn [mbind option_bind]; rewrite Hsu; cbn [mbind option_bind];
   cbn [sError scanned]; rewrite He, Z.sub_add;
   apply (IH (pre ++ [c]) suf); [by rewrite <- app_assoc|lia]).
Qed.

Lemma scan_terminated_spec d0 e s r : U_FAILURE e = false -> Forall is_scalar s -> count s <= 200 -> ~ In 0 s ->
  forall fuel pre suf, s = pre ++ suf -> (List.length suf < fuel)%nat ->
  scan_terminated fuel (utf16 s ++ 0 :: r) None (capacity d0) (scanned d0 pre e) (count (utf16 pre)) =
    Some (scanned d0 s e).
Proof.
  intros He Hs H200 H0. induction fuel as [|fuel IH]; intros pre suf Hsuf Hf; [lia|]. cbn [scan_terminated].
  destruct suf as [|c suf].
  { rewrite app_nil_r in Hsuf. subst pre. unfold count. rewrite aget_nat, lookup_app_r, Nat.sub_diag by lia. done. }
  assert (Hc : is_scalar c) by (rewrite Hsuf in Hs; apply Forall_app in Hs as [_ Hs]; by apply Forall_cons in Hs as [? _]).
  assert (Hsrc : utf16 s ++ 0 :: r = utf16 pre ++ units c ++ (utf16 suf ++ 0 :: r)).
  { rewrite Hsuf, utf16_app, utf16_cons. by rewrite <- !app_assoc. }
  assert (Hcount : (List.length s = List.length pre + S (List.length suf))%nat) by (rewrite Hsuf, length_app; done).
  destruct (scan_unit_spec d0 pre c (utf16 suf ++ 0 :: r) true Hc ltac:(done) e) as (u & Hg & Hu0 & Hsu).
  rewrite <- Hsrc in Hg, Hsu. unfold count in *. rewrite Hg. cbn [mbind option_bind].
  rewrite (proj2 (Z.eqb_neq u 0)).
  2:{ intros ->. apply H0. rewrite Hsuf. apply in_or_app. right. left. by apply Hu0. }
  rewrite srcCPCount_scanned, (proj2 (Z.eqb_neq _ _)) by (unfold count, MAX_CP_COUNT; lia).
  rewrite Hsu. cbn [mbind option_bind]. cbn [sError scanned]. rewrite He, Z.sub_add.
  apply (IH (pre ++ [c]) suf); [by rewrite <- app_assoc|simpl in Hf; lia].
Qed.

(** ** Emitting the integers *)

Lemma encode_integer_spec d0 up : forall fuel out q k b, 0 <= q < 10 ^ Z.of_nat fuel ->
  exists p q', encode_integer (S fuel) (capacity d0) (overlay d0 out) (count out) q k b =
      Some (overlay d0 (out ++ p), count (out ++ p), q') /\
    p ++ [digitToBasic q' up] = vli (S fuel) q k b up.
Proof.
  assert (Hdone : forall fuel out q k b, (q <? threshold k b) = true ->
    exists p q', encode_integer (S fuel) (capacity d0) (overlay d0 out) (count out) q k b =
        Some (overlay d0 (out ++ p), count (out ++ p), q') /\
      p ++ [digitToBasic q' up] = vli (S fuel) q k b up).
  { intros fuel out q k b Hq. exists [], q. cbn [encode_integer vli]. rewrite Hq, !app_nil_r. done. }
  induction fuel as [|fuel IH]; intros out q k b Hq; pose proof (threshold_range k b);
    (destruct (Z.ltb_spec q (threshold k b)) as [Hlt|Hge]; [by apply Hdone, Z.ltb_lt|]);
    [simpl in Hq; lia|].
  rewrite Nat2Z.inj_succ, Z.pow_succ_r in Hq by lia. unfold BASE in *.
  set (t := threshold k b) in *.
  assert (0 <= (q - t) / (36 - t) < 10 ^ Z.of_nat fuel).
  { split; [apply Z.div_pos; lia|]. apply Z.div_lt_upper_bound; [lia|]. nia. }
  set (x := digitToBasic (t + (q - t) mod (36 - t)) false).
  destruct (IH (out ++ [x]) ((q - t) / (36 - t)) (k + 36) b) as (p & q' & He & Hv); [done|].
  exists (x :: p), q'. change (encode_integer (S (S fuel)) (capacity d0) (overlay d0 out) (count out) q k b)
    with (if q <? t then Some (overlay d0 out, count out, q)
          else dest ← write (overlay d0 out) (capacity d0) (count out) x;
               encode_integer (S fuel) (capacity d0) dest (count out + 1) ((q - t) / (36 - t)) (k + 36) b).
  rewrite (proj2 (Z.ltb_ge q t)) by lia. rewrite write_overlay. cbn [mbind option_bind].
  replace (count out + 1) with (count (out ++ [x])) by (unfold count; rewrite length_app; simpl; lia).
  rewrite He, <- app_assoc. split; [done|]. cbn [app]. rewrite Hv.
  change (vli (S (S fuel)) q k b up) with (if q <? t then [digitToBasic q up]
    else x :: vli (S fuel) ((q - t) / (36 - t)) (k + 36) b up).
  by rewrite (proj2 (Z.ltb_ge q t)) by lia.
Qed.

(** An integer with its last digit, as [encode_same] emits it. *)
Lemma emit d0 out delta b up : 0 <= delta <= DELTA_MAX ->
  exists p q', encode_integer digits_fuel (capacity d0) (overlay d0 out) (count out) delta BASE b =
      Some (overlay d0 (out ++ p), count (out ++ p), q') /\
    write (overlay d0 (out ++ p)) (capacity d0) (count (out ++ p)) (digitToBasic q' up) =
      Some (overlay d0 (out ++ vli digits_fuel delta BASE b up)) /\
    count (out ++ p) + 1 = count (out ++ vli digits_fuel delta BASE b up).
Proof.
  intros Hd. destruct (encode_integer_spec d0 up 11 out delta BASE b) as (p & q' & He & Hv);
    [unfold DELTA_MAX in Hd; simpl; lia|].
  exists p, q'. split; [done|]. change digits_fuel with 12%nat. rewrite <- Hv, write_overlay, <- app_assoc.
  split; [done|]. unfold count. rewrite !length_app. simpl. lia.
Qed.

(** ** The code points that are handled *)

Definition upto (n : Z) (s : list Z) : list Z := filter (fun c => c <= n) s.
Definition below (n : Z) (s : list Z) : list Z := filter (fun c => c < n) s.

Lemma upto_below n s : upto n s = below (n + 1) s.
Proof. apply list_filter_iff. lia. Qed.

Lemma below_full n s : (List.length s <= List.length (below n s))%nat -> below n s = s.
Proof.
  induction s as [|c s IH]; [done|]. unfold below in *. intros H.
  destruct (decide (c < n)).
  - rewrite filter_cons_True in * by done. simpl in H. f_equal. apply IH. lia.
  - rewrite filter_cons_False in * by done. pose proof (length_filter (fun c => c < n) s). simpl in H. lia.
Qed.

Lemma below_upto_length n s : In n s -> (List.length (below n s) < List.length (upto n s))%nat.
Proof.
  assert (H : forall l, (List.length (below n l) <= List.length (upto n l))%nat).
  { induction l as [|c l IH]; [done|]. unfold below, upto in *. rewrite !filter_cons.
    repeat case_decide; simpl; lia. }
  intros (p & r & ->)%in_split. pose proof (H p). pose proof (H r). unfold below, upto in *.
  rewrite !filter_app, (filter_cons_True (fun c => c <= n)), (filter_cons_False (fun c => c < n)) by lia.
  rewrite !length_app. simpl. lia.
Qed.

Lemma masked c : is_scalar c -> Z.land (entry c) 0x7fffffff = entry c /\ (entry c <? 0) = false.
Proof.
  intros [Hc _]. unfold is_code_point, entry in *. change 0x7fffffff with (2 ^ 31 - 1).
  rewrite land_low_mask by lia. split; [apply Z.mod_small; destruct (c <? 0x80); lia|].
  apply Z.ltb_ge. destruct (c <? 0x80); lia.
Qed.

Lemma entry_cmp c n : is_scalar c -> 0x80 <= n ->
  (entry c <? n) = (c <? n) /\ (entry c =? n) = (c =? n) /\ (n <=? entry c) = (n <=? c).
Proof.
  intros [Hc _] Hn. unfold is_code_point, entry in *. destruct (Z.ltb_spec c 0x80); zcases; lia || done.
Qed.

Lemma next_code_point_spec s n : Forall is_scalar s -> 0x80 <= n -> forall m,
  let r := next_code_point (map entry s) n m in
  r <= m /\ (r = m \/ In r s /\ n <= r) /\ forall c, In c s -> n <= c -> r <= c.
Proof.
  intros Hs Hn. induction Hs as [|c s Hc Hs IH]; intros m; cbn [map next_code_point]; cbn zeta.
  { split_and!; [lia|by left|by intros ? []]. }
  destruct (masked c Hc) as [-> _]. destruct (entry_cmp c n Hc Hn) as (_ & _ & ->).
  destruct (Z.leb_spec n c) as [Hle|Hgt]; cbn [andb].
  - assert (entry c = c) as -> by (unfold entry; by rewrite (proj2 (Z.ltb_ge _ _)) by lia).
    destruct (Z.ltb_spec c m).
    + destruct (IH c) as (Hr & Ho & Hmin). split_and!; [lia| |].
      * right. destruct Ho as [Ho|[Ho ?]]; [rewrite Ho; split; [by left|lia]|split; [by right|done]].
      * intros x [->|Hx] Hnx; [done|by apply Hmin].
    + destruct (IH m) as (Hr & Ho & Hmin). split_and!; [done| |].
      * destruct Ho as [Ho|[Ho ?]]; [by left|right; split; [by right|done]].
      * intros x [->|Hx] Hnx; [lia|by apply Hmin].
  - destruct (IH m) as (Hr & Ho & Hmin). split_and!; [done| |].
    + destruct Ho as [Ho|[Ho ?]]; [by left|right; split; [by right|done]].
    + intros x [->|Hx] Hnx; [lia|by apply Hmin].
Qed.

(** ** The invariant of the encoder

    When [pre] has been passed for the code point [n] and [suf] is still to
    come, the decoder that has read all output holds the code points that are
    handled, and [delta] takes it from its state to [n] and the position. *)
Record tracks (n : Z) (pre suf : list Z) (basicLength delta : Z) (a : dstate) : Prop := {
  tr_out : a.(aOut) = upto n pre ++ below n suf;
  tr_n : a.(aN) <= n;
  tr_delta : delta = (n - a.(aN)) * (count a.(aOut) + 1) + count (upto n pre) - a.(aI);
  tr_pos : 0 <= delta;
  tr_first : (a.(aI) =? 0) = (count a.(aOut) =? basicLength);
  tr_basic : basicLength <= count a.(aOut);
  tr_wf : wf a
}.

Lemma upto_snoc n pre c : upto n (pre ++ [c]) = upto n pre ++ (if c <=? n then [c] else []).
Proof.
  unfold upto. rewrite filter_app. f_equal. destruct (Z.leb_spec c n).
  - by rewrite filter_cons_True, filter_nil.
  - by rewrite filter_cons_False, filter_nil by lia.
Qed.

Lemma below_cons n c suf : below n (c :: suf) = if c <? n then c :: below n suf else below n suf.
Proof.
  unfold below. destruct (Z.ltb_spec c n); [by rewrite filter_cons_True|by rewrite filter_cons_False by lia].
Qed.

(** A code point that is handled already, or will be handled later. *)
Lemma tracks_lower n pre c suf bl delta a :
  c < n -> tracks n pre (c :: suf) bl delta a -> tracks n (pre ++ [c]) suf bl (delta + 1) a.
Proof.
  intros Hc [Ho Hn Hd Hp Hf Hb Hw]. split; try done; [| |lia].
  - rewrite upto_snoc, (proj2 (Z.leb_le _ _)), <- app_assoc by lia. rewrite Ho, below_cons.
    by rewrite (proj2 (Z.ltb_lt _ _)) by lia.
  - rewrite upto_snoc, (proj2 (Z.leb_le _ _)) by lia. unfold count in *. rewrite length_app. simpl. lia.
Qed.

Lemma tracks_higher n pre c suf bl delta a :
  n < c -> tracks n pre (c :: suf) bl delta a -> tracks n (pre ++ [c]) suf bl delta a.
Proof.
  intros Hc [Ho Hn Hd Hp Hf Hb Hw].
  assert (Hu : upto n (pre ++ [c]) = upto n pre)
    by (rewrite upto_snoc, (proj2 (Z.leb_gt _ _)) by lia; apply app_nil_r).
  split; try done; rewrite Hu; [|done].
  rewrite Ho, below_cons. by rewrite (proj2 (Z.ltb_ge _ _)) by lia.
Qed.

(** The code point [n] itself: the decoder inserts it at its position. *)
Lemma tracks_emit n pre suf bl delta a :
  is_scalar n -> count (pre ++ n :: suf) <= 200 -> tracks n pre (n :: suf) bl delta a ->
  delta <= DELTA_MAX /\ is_scalar (aN (next a (aI a + delta))) /\
  aBias (next a (aI a + delta)) = adapt delta (count (aOut a) + 1) (count (aOut a) =? bl) /\
  tracks n (pre ++ [n]) suf bl 0 (next a (aI a + delta)).
Proof.
  intros Hn H200 [Ho Hle Hd Hp Hf Hb (HN & HI & HB & Hs)]. pose proof Hn as [Hcp _]. unfold is_code_point in Hcp.
  rewrite below_cons, Z.ltb_irrefl in Ho.
  assert (Hcnt : count (aOut a) <= 200 /\ count (upto n pre) <= count (aOut a)).
  { rewrite Ho. unfold count, upto, below in *. rewrite !length_app in *. simpl in H200.
    pose proof (length_filter (fun c => c <= n) pre). pose proof (length_filter (fun c => c < n) suf). lia. }
  assert (Hi : aI a + delta = (n - aN a) * (count (aOut a) + 1) + count (upto n pre)) by lia.
  assert (0 <= count (upto n pre)) by (unfold count; lia).
  unfold next. rewrite Hi.
  rewrite Z.div_add_l, Z.div_small, Z.add_0_r by lia.
  rewrite (Z.add_comm ((n - aN a) * _)), Z.mod_add, Z.mod_small by lia.
  replace (aN a + (n - aN a)) with n by lia.
  replace (count (upto n pre) + (n - aN a) * (count (aOut a) + 1) - aI a) with delta by lia.
  cbn [aN aBias aI aOut]. split_and!; [unfold DELTA_MAX; nia|done|by rewrite Hf|].
  assert (Hout : insert_at (Z.to_nat (count (upto n pre))) n (aOut a) = upto n (pre ++ [n]) ++ below n suf).
  { rewrite upto_snoc, Z.leb_refl, Ho, <- app_assoc. unfold insert_at, count. rewrite Nat2Z.id.
    by rewrite take_app_length, drop_app_length. }
  rewrite Hout in *. assert (Hc' : count (upto n (pre ++ [n]) ++ below n suf) = count (aOut a) + 1).
  { rewrite upto_snoc, Z.leb_refl, Ho. unfold count. rewrite !length_app. simpl. lia. }
  split; cbn [aN aBias aI aOut]; try done; [|rewrite Hc'; transitivity false; [apply Z.eqb_neq; lia|symmetry; apply Z.eqb_neq; lia]|rewrite Hc'; lia|].
  { rewrite Z.sub_diag, Z.mul_0_l, upto_snoc, Z.leb_refl. unfold count. rewrite length_app. simpl. lia. }
  split_and!; cbn [aN aBias aI aOut]; [lia|lia|lia|rewrite Hc'; lia| | |].
  1-2: (destruct (adaptBias_spec delta (count (aOut a) + 1) (aI a =? 0)); [unfold INT32_MAX; nia|unfold INT32_MAX, count in *; lia|lia]).
  rewrite Ho in Hs. apply Forall_app in Hs as [Hs1 Hs2]. rewrite upto_snoc, Z.leb_refl, <- app_assoc.
  apply Forall_app. split; [done|]. by constructor.
Qed.

Lemma encode_same_spec n bl : 0x80 <= n -> is_scalar n -> forall suf pre a delta,
  Forall is_scalar suf -> count (pre ++ suf) <= 200 -> tracks n pre suf bl delta a ->
  exists out a' delta', steps a out a' /\ tracks n (pre ++ suf) [] bl delta' a' /\
    forall d0 w, encode_same (map entry suf) n bl (capacity d0)
        (mkEncoder (overlay d0 w) (count w) delta (aBias a) (count (aOut a))) =
      Some (mkEncoder (overlay d0 (w ++ out)) (count (w ++ out)) delta' (aBias a') (count (aOut a'))).
Proof.
  intros Hn Hsn. induction suf as [|c suf IH]; intros pre a delta Hs H200 Ht.
  { exists [], a, delta. rewrite app_nil_r. split_and!; [constructor|done|]. intros d0 w. by rewrite app_nil_r. }
  apply Forall_cons in Hs as [Hc Hs]. destruct (masked c Hc) as [Hm Hpos]. destruct (entry_cmp c n Hc Hn) as (Hlt & Heq & _).
  assert (Hsnoc : count ((pre ++ [c]) ++ suf) <= 200) by by rewrite <- app_assoc.
  replace (pre ++ c :: suf) with ((pre ++ [c]) ++ suf) by by rewrite <- app_assoc.
  assert (Hcnt : count (aOut a) <= 200).
  { rewrite (tr_out _ _ _ _ _ _ Ht). unfold count, upto, below in *. rewrite !length_app in *.
    pose proof (length_filter (fun c => c <= n) pre). pose proof (length_filter (fun c => c < n) (c :: suf)). lia. }
  assert (Hdelta : delta <= DELTA_MAX).
  { pose proof (tr_delta _ _ _ _ _ _ Ht) as ->. destruct (tr_wf _ _ _ _ _ _ Ht) as (HN & HI & _).
    assert (count (upto n pre) <= count (aOut a)).
    { rewrite (tr_out _ _ _ _ _ _ Ht). unfold count. rewrite length_app. lia. }
    destruct Hsn as [Hcp _]. unfold is_code_point in Hcp. unfold DELTA_MAX, count in *. nia. }
  cbn [map encode_same]. rewrite Hm, Hlt, Heq, Hpos.
  destruct (Z.ltb_spec c n) as [Hcn|Hcn].
  { destruct (IH (pre ++ [c]) a (delta + 1)) as (out & a' & delta' & Hst & Ht' & He);
      [done|done|by apply tracks_lower|].
    exists out, a', delta'. split_and!; [done|done|]. intros d0 w. pose proof (tr_pos _ _ _ _ _ _ Ht).
    cbn [eDelta eDest eLength eBias handledCPCount]. rewrite iadd_ok by (unfold DELTA_MAX in *; ibound). cbn [obind]. apply He. }
  destruct (Z.eqb_spec c n) as [->|Hne].
  2:{ destruct (IH (pre ++ [c]) a delta) as (out & a' & delta' & Hst & Ht' & He);
        [done|done|apply tracks_higher; [lia|done]|]. exists out, a', delta'. split_and!; done. }
  destruct (tracks_emit n pre suf bl delta a Hsn H200 Ht) as (_ & Hsc & Hb & Ht').
  destruct (IH (pre ++ [n]) _ 0 Hs Hsnoc Ht') as (out & a' & delta' & Hst & Ht2 & He).
  pose proof (tr_pos _ _ _ _ _ _ Ht) as Hp.
  exists (vli digits_fuel delta BASE (aBias a) false ++ out), a', delta'. split_and!; [by constructor|done|].
  intros d0 w. cbn [eDelta eDest eLength eBias handledCPCount].
  destruct (emit d0 w delta (aBias a) false) as (p & q' & -> & Hw & Hl); [done|]. cbn [mbind option_bind].
  rewrite Hw. cbn [mbind option_bind].
  destruct (adaptBias_spec delta (count (aOut a) + 1) (count (aOut a) =? bl)) as [-> _];
    [unfold DELTA_MAX, INT32_MAX in *; lia|unfold count, INT32_MAX in *; lia|]. cbn [obind].
  rewrite Hl, <- Hb, <- (next_count a (aI a + delta)), (app_assoc w). apply He.
Qed.

Lemma steps_app a o a' : steps a o a' -> forall o' a'', steps a' o' a'' -> steps a (o ++ o') a''.
Proof.
  induction 1; intros o' a'' H'; [done|]. rewrite <- app_assoc. constructor; auto.
Qed.

Lemma below_same n m s : n <= m -> (forall c, In c s -> n <= c -> m <= c) -> below m s = below n s.
Proof.
  intros Hnm Hgap. induction s as [|c s IH]; [done|]. rewrite !below_cons.
  rewrite IH by (intros x Hx; apply Hgap; by right). specialize (Hgap c (or_introl eq_refl)).
  destruct (Z.ltb_spec c m), (Z.ltb_spec c n); lia || done.
Qed.

(** ** The whole encoder *)

Lemma tracks_next_round n m s bl delta a :
  n <= m -> (forall c, In c s -> n <= c -> m <= c) -> tracks n [] s bl delta a ->
  tracks m [] s bl (delta + (m - n) * (count (aOut a) + 1)) a.
Proof.
  intros Hnm Hgap [Ho Hn Hd Hp Hf Hb Hw].
  split; try done; [by rewrite Ho, (below_same n m)|lia|change (upto m []) with (@nil Z);
    change (upto n []) with (@nil Z) in Hd; lia|unfold count; nia].
Qed.

Lemma tracks_end_round m s bl delta a :
  tracks m s [] bl delta a -> tracks (m + 1) [] s bl (delta + 1) a.
Proof.
  intros [Ho Hn Hd Hp Hf Hb Hw]. change (below m []) with (@nil Z) in Ho. rewrite app_nil_r in Ho.
  split; try done; [by rewrite Ho, upto_below|lia|rewrite Ho in *; change (upto (m + 1) []) with (@nil Z);
    unfold count in *; simpl; lia|lia].
Qed.

Lemma encode_loop_spec s bl : Forall is_scalar s -> count s <= 200 -> forall fuel n a delta,
  0x80 <= n <= 0x110000 -> (List.length s - List.length (aOut a) <= fuel)%nat -> tracks n [] s bl delta a ->
  exists out a', steps a out a' /\ aOut a' = s /\
    forall d0 w, exists delta' bias' h',
      encode_loop fuel (map entry s) bl (capacity d0) n
        (mkEncoder (overlay d0 w) (count w) delta (aBias a) (count (aOut a))) =
      Some (mkEncoder (overlay d0 (w ++ out)) (count (w ++ out)) delta' bias' h', None).
Proof.
  intros Hs H200. induction fuel as [|fuel IH]; intros n a delta Hn Hf Ht;
    pose proof (tr_out _ _ _ _ _ _ Ht) as Ho; cbn [upto filter list_filter app] in Ho;
    change (upto n []) with (@nil Z) in Ho; cbn [app] in Ho;
    (assert (Hle : (List.length (aOut a) <= List.length s)%nat) by (rewrite Ho; apply length_filter));
    (destruct (decide (List.length (aOut a) < List.length s)%nat) as [Hlt|Hge];
     [|exists [], a; split_and!; [constructor|rewrite Ho; apply below_full; rewrite <- Ho; lia|];
       intros d0 w; unfold encode_loop; cbn [handledCPCount]; rewrite length_map; unfold count;
       rewrite (proj2 (Z.ltb_ge _ _)) by lia; rewrite app_nil_r; eauto]); [lia|].
  assert (Hex : exists c, In c s /\ n <= c).
  { destruct (decide (Forall (fun c => c < n) s)) as [Hall|Hnot].
    - exfalso. rewrite Ho in Hlt. enough (below n s = s) as Hbs by (rewrite Hbs in Hlt; lia).
      clear -Hall. induction Hall as [|c l Hc Hl IH]; [done|]. rewrite below_cons, IH.
      by rewrite (proj2 (Z.ltb_lt _ _)) by lia.
    - apply not_Forall_Exists in Hnot; [|intros c; apply _].
      apply list.Exists_exists in Hnot as (c & Hc & Hcn). exists c. split; [by apply list_elem_of_In|].
      cbn in Hcn. lia. }
  destruct (next_code_point_spec s n Hs ltac:(lia) 0x7fffffff) as (_ & Hm & Hmin).
  set (m := next_code_point (map entry s) n 0x7fffffff) in *.
  rewrite Forall_forall in Hs.
  destruct Hm as [Hm|[Hm Hnm]].
  { destruct Hex as (c & Hc & Hnc). specialize (Hmin c Hc Hnc).
    apply list_elem_of_In in Hc. destruct (Hs c Hc) as [Hcp _]. unfold is_code_point in Hcp. lia. }
  pose proof (Hs m ltac:(by apply list_elem_of_In)) as Hsm. rewrite <- Forall_forall in Hs.
  pose proof Hsm as [Hmcp _]. unfold is_code_point in Hmcp.
  pose proof (tracks_next_round n m s bl delta a Hnm Hmin Ht) as Htm.
  destruct (encode_same_spec m bl ltac:(lia) Hsm s [] a _ Hs H200 Htm) as (out & a' & delta' & Hst & Ht' & He).
  cbn [app] in Ht'. pose proof (tracks_end_round _ _ _ _ _ Ht') as Htn.
  pose proof (tr_out _ _ _ _ _ _ Ht') as Ho'. change (below m []) with (@nil Z) in Ho'. rewrite app_nil_r in Ho'.
  pose proof (below_upto_length m s Hm) as Hgrow. rewrite <- Ho' in Hgrow.
  rewrite (below_same n m) in Hgrow by done. rewrite <- Ho in Hgrow.
  destruct (IH (m + 1) a' (delta' + 1)) as (out' & a2 & Hst2 & Ho2 & He2); [lia|lia|done|].
  exists (out ++ out'), a2. split_and!; [by eapply steps_app|done|].
  intros d0 w. specialize (He d0 w). destruct (He2 d0 (w ++ out)) as (delta2 & bias2 & h2 & Hloop).
  exists delta2, bias2, h2. rewrite app_assoc, <- Hloop.
  assert (Hdm : delta + (m - n) * (count (aOut a) + 1) <= DELTA_MAX /\ 0 <= delta).
  { pose proof (tr_delta _ _ _ _ _ _ Htm) as Hd. pose proof (tr_pos _ _ _ _ _ _ Ht).
    destruct (tr_wf _ _ _ _ _ _ Ht) as (HN & HI & _). rewrite Hd. change (upto m []) with (@nil Z).
    unfold DELTA_MAX, count in *. simpl. nia. }
  assert (Hdm' : 0 <= delta' <= DELTA_MAX).
  { pose proof (tr_delta _ _ _ _ _ _ Ht') as Hd. pose proof (tr_pos _ _ _ _ _ _ Ht').
    destruct (tr_wf _ _ _ _ _ _ Ht') as (HN & HI & _). rewrite Ho' in *.
    assert (count (upto m s) <= 200) by (unfold count in *; pose proof (length_filter (fun c => c <= m) s); unfold upto in *; lia).
    unfold DELTA_MAX, count in *. nia. }
  assert (0 <= (m - n) * (count (aOut a) + 1)) by (unfold count; nia).
  unfold DELTA_MAX, count in *.
  cbn [encode_loop]. cbn [handledCPCount eDelta eDest eLength eBias]. rewrite length_map.
  rewrite (proj2 (Z.ltb_lt _ _)) by lia. change (next_code_point (map entry s) n 2147483647) with m.
  unfold MAX_CP_COUNT. rewrite isub_ok by ibound. rewrite idiv_nonneg by (unfold INT32_MAX; lia). cbn [obind].
  rewrite div_ge by lia. rewrite imul_ok, iadd_ok by ibound. cbn [obind].
  rewrite He. cbn [mbind option_bind handledCPCount eDelta eDest eLength eBias].
  rewrite iadd_ok by ibound. reflexivity.
Qed.

(** What the source writes for a string. *)
Definition delimited (b : list Z) : list Z := match b with [] => [] | _ => b ++ [DELIMITER] end.

Lemma steps_chars a out a' : steps a out a' -> Forall is_digit_char out.
Proof.
  induction 1 as [|a delta up out a' Hd _ _ IH]; [constructor|]. apply Forall_app. split; [|done].
  apply vli_chars. lia.
Qed.

Lemma vli_length fuel : forall q k b up, (List.length (vli fuel q k b up) <= fuel)%nat.
Proof. induction fuel as [|fuel IH]; intros; cbn [vli]; [simpl; lia|]. destruct (_ <? _); simpl; [lia|]. specialize (IH ((q - threshold k b) / (BASE - threshold k b)) (k + BASE) b up). lia. Qed.

Lemma steps_length a out a' : steps a out a' ->
  Z.of_nat (List.length out) <= 12 * (count (aOut a') - count (aOut a)).
Proof.
  induction 1 as [|a delta up out a' _ _ _ IH]; [simpl; lia|]. rewrite length_app.
  rewrite next_count in IH. pose proof (vli_length digits_fuel delta BASE (aBias a) up).
  unfold digits_fuel in *. lia.
Qed.

Lemma encode_spec s : Forall is_scalar s -> count s <= 200 ->
  exists out a, steps (start (basics s)) out a /\ aOut a = s /\
    forall d0 e, U_SUCCESS e = true ->
      let puny := delimited (basics s) ++ out in
      let r := Some (count puny, overlay d0 (puny ++ [0]), termination (capacity d0) (count puny) e) in
      u_strToPunycode (Some (utf16 s)) (count (utf16 s)) d0 (capacity d0) None e = r /\
      (~ In 0 s -> forall tail, u_strToPunycode (Some (utf16 s ++ 0 :: tail)) (-1) d0 (capacity d0) None e = r).
Proof.
  intros Hs H200. pose proof (basics_basic s Hs) as Hb.
  assert (Ht : tracks INITIAL_N [] s (count (basics s)) 0 (start (basics s))).
  { unfold start, INITIAL_N. split; cbn [aOut aN aI]; try done; try lia.
    by apply start_wf. }
  destruct (encode_loop_spec s (count (basics s)) Hs H200 (List.length s) INITIAL_N _ 0 ltac:(unfold INITIAL_N; lia)
    ltac:(lia) Ht) as (out & a & Hst & Ho & He).
  exists out, a. split_and!; [done|done|]. intros d0 e Hse puny r.
  assert (Hfe : U_FAILURE e = false) by by destruct e.
  assert (Htail : forall st, st = scanned d0 s e ->
    (if U_FAILURE st.(sError) then Some (0, st.(sDest), st.(sError))
     else
       '(dest, destLength) ←
         (if st.(sLength) >? 0 then
            dest ← write st.(sDest) (capacity d0) st.(sLength) DELIMITER;
            Some (dest, st.(sLength) + 1)
          else Some (st.(sDest), st.(sLength)));
       '(e', error) ← encode_loop (List.length st.(cpBuffer)) st.(cpBuffer) st.(sLength) (capacity d0) INITIAL_N
                       (mkEncoder dest destLength 0 INITIAL_BIAS st.(sLength));
       match error with
       | Some error => Some (0, e'.(eDest), error)
       | None =>
           '(dest, error) ← u_terminateUChars e'.(eDest) (capacity d0) e'.(eLength) st.(sError);
           Some (e'.(eLength), dest, error)
       end) = r).
  { intros st ->. cbn [scanned sError sDest sLength cpBuffer]. rewrite Hfe.
    assert (Hdel : (if count (basics s) >? 0 then
        dest ← write (overlay d0 (basics s)) (capacity d0) (count (basics s)) DELIMITER;
        Some (dest, count (basics s) + 1)
      else Some (overlay d0 (basics s), count (basics s))) =
      Some (overlay d0 (delimited (basics s)), count (delimited (basics s)))).
    { destruct (basics s) as [|x b] eqn:Eb; [done|]. rewrite Z.gtb_ltb, (proj2 (Z.ltb_lt _ _)) by (unfold count; simpl; lia).
      rewrite write_overlay. cbn [mbind option_bind delimited]. unfold count. rewrite length_app. simpl. do 2 f_equal. lia. }
    rewrite Hdel. cbn [mbind option_bind]. rewrite length_map.
    destruct (He d0 (delimited (basics s))) as (delta' & bias' & h' & Hloop). cbn [start aBias aOut] in Hloop.
    rewrite Hloop. cbn [mbind option_bind eDest eLength]. rewrite terminate_overlay by done. done. }
  unfold u_strToPunycode. rewrite Hfe.
  assert (Hnull : bool_decide (d0 = None) && negb (capacity d0 =? 0) = false) by (by destruct d0).
  assert (Hz : scanned d0 [] e = mkScan [] d0 0 e) by (unfold scanned; cbn [basics filter list_filter map]; change (basics []) with (@nil Z); by rewrite overlay_nil).
  rewrite Hnull. split.
  - rewrite (proj2 (Z.ltb_ge _ (-1))), (proj2 (Z.eqb_neq _ (-1))) by (unfold count; lia). cbn [orb].
    replace (Z.to_nat (count (utf16 s))) with (List.length (utf16 s)) by (unfold count; lia).
    pose proof (scan_length_spec d0 e s Hfe Hs H200 (List.length (utf16 s)) [] s eq_refl) as Hscan.
    rewrite Hz in Hscan. change (count (utf16 [])) with 0 in Hscan. rewrite Hscan by (apply (utf16_length s Hs)). cbn [mbind option_bind]. by apply Htail.
  - intros H0 tail. cbn [orb Z.ltb Z.compare Z.opp].
    change (-1 <? -1) with false. change (-1 =? -1) with true. cbn [orb].
    pose proof (scan_terminated_spec d0 e s tail Hfe Hs H200 H0 (List.length (utf16 s ++ 0 :: tail)) [] s eq_refl) as Hscan.
    rewrite Hz in Hscan. change (count (utf16 [])) with 0 in Hscan. rewrite Hscan by (rewrite length_app; simpl; pose proof (utf16_length s Hs); lia).
    cbn [mbind option_bind]. by apply Htail.
Qed.

Lemma find_delimiter_at src j : src !! j = Some DELIMITER -> find_delimiter src (S j) = Some (Z.of_nat j).
Proof. intros Hj. cbn [find_delimiter]. by rewrite aget_nat, Hj. Qed.

(** ** The round trip *)

(** C19: the round trip.  For every string of at most 200 scalar values there is
    one sequence of basic code points that u_strToPunycode writes, as far as the
    buffer has room, and whose length it returns; it computes without overflow
    and never gives up.  From that sequence u_strFromPunycode recovers the
    string. *)
Theorem punycode_roundtrip (s : list Z) :
  Forall is_scalar s -> count s <= 200 ->
  exists puny : list Z, Forall is_basic puny /\
    (forall d0,
       u_strToPunycode (Some (utf16 s)) (count (utf16 s)) d0 (capacity d0) None U_ZERO_ERROR =
         Some (count puny, overlay d0 (puny ++ [0]), termination (capacity d0) (count puny) U_ZERO_ERROR)) /\
    (forall d0 f0, flags_fit d0 f0 -> count (utf16 s) <= capacity d0 -> exists flags,
       u_strFromPunycode (Some puny) (count puny) d0 (capacity d0) f0 U_ZERO_ERROR =
         Some (count (utf16 s), overlay d0 (utf16 s ++ [0]), flags,
               termination (capacity d0) (count (utf16 s)) U_ZERO_ERROR)).
Proof.
  intros Hs H200. destruct (encode_spec s Hs H200) as (out & a & Hst & Ho & He).
  pose proof (basics_basic s Hs) as Hb. set (b := basics s) in *. pose proof (steps_chars _ _ _ Hst) as Hout.
  pose proof (steps_length _ _ _ Hst) as Hlen. rewrite Ho in Hlen. cbn [start aOut] in Hlen.
  assert (Hbl : count b <= 200).
  { unfold count, b, basics in *. pose proof (length_filter (fun c => c < 0x80) s). lia. }
  assert (Hbasic : Forall is_basic (delimited b ++ out)).
  { apply Forall_app. split.
    - destruct b; [constructor|]. apply Forall_app. split; [done|]. constructor; [unfold is_basic, DELIMITER; lia|done].
    - eapply Forall_impl; [exact Hout|]. intros c [Hc _]. exact Hc. }
  assert (Hl : count (delimited b ++ out) <= 3000).
  { unfold count in *. rewrite length_app. destruct b; cbn [delimited]; rewrite ?length_app; simpl in *; lia. }
  set (puny := delimited b ++ out) in *. exists puny. split_and!; [done|by intros d0; apply He|].
  assert (Hk : find_delimiter puny (List.length puny) = Some (Z.of_nat (List.length b))).
  { assert (Hnd : Forall (fun c => c <> DELIMITER) out) by (eapply Forall_impl; [exact Hout|]; by intros c [_ ?]).
    unfold puny. rewrite length_app, find_delimiter_skip by done. destruct b as [|x b']; [done|].
    change (delimited (x :: b')) with ((x :: b') ++ [DELIMITER]). rewrite length_app, Nat.add_comm.
    apply find_delimiter_at. rewrite <- app_assoc, lookup_app_r, Nat.sub_diag by lia. done. }
  assert (Htake : take (List.length b) puny = b).
  { unfold puny. destruct b; [done|]. cbn [delimited]. rewrite <- app_assoc. apply take_app_length. }
  set (n := (if List.length b =? 0 then 0 else S (List.length b))%nat).
  assert (Hdrop : drop n puny = out /\ (List.length puny - n = List.length out)%nat).
  { unfold puny, n. destruct b as [|x b']; [split; [done|simpl; lia]|]. cbn [List.length Nat.eqb delimited].
    rewrite <- (app_assoc (x :: b')). split.
    - rewrite app_assoc. apply drop_app_length'. rewrite length_app. simpl. lia.
    - rewrite !length_app. simpl. lia. }
  destruct Hdrop as [Hdrop Hfuel].
  intros d0 f0 Hff Hfit.
  destruct (decode_from puny (List.length b) n a None) with (d0 := d0) (f0 := f0)
    as (dest & flags & Hdec & _ & _ & Hd).
  - eapply Forall_impl; [exact Hbasic|]. unfold is_basic, is_uint16. lia.
  - unfold count, INT32_MAX in *. lia.
  - done.
  - unfold puny. destruct b; cbn [delimited]; rewrite ?length_app; simpl; lia.
  - rewrite Htake. apply forallb_forall. intros c Hc. apply list_elem_of_In in Hc.
    rewrite Forall_forall in Hb. specialize (Hb c Hc). unfold is_basic, IS_BASIC in *. apply Z.ltb_lt. lia.
  - done.
  - intros d1 f1 st Hff1 Hr. rewrite Htake in Hr. rewrite Hfuel.
    destruct (decode_loop_steps d1 f1 Hff1 _ _ _ Hst puny (List.length out) n st Hr) as (st' & Hdl & Hr' & _);
      [by apply start_wf|done|lia|unfold count in *; cbn [start aOut]; unfold puny in Hl; rewrite length_app in Hl; lia|].
    by exists st'.
  - done.
  - rewrite Ho in *. cbn [decoded_length decoded_error] in Hdec. exists flags. rewrite <- (Hd eq_refl Hfit). exact Hdec.
Qed.

(** Not a property: the Unicode string may be longer than its encoding. *)
Example punycode_shorter :
  u_strToPunycode (Some (utf16 (replicate 10 0x1f600))) 20 None 0 None U_ZERO_ERROR =
    Some (13, None, U_BUFFER_OVERFLOW_ERROR).
Proof. vm_compute. reflexivity. Qed.

(** After the delimiter only the low byte of a unit counts. *)
Example punycode_high_byte :
  u_strFromPunycode (Some [0x62; 0x2d; 0x6b; 0x76; 0x61]) 5 (Some [7; 7; 7]) 3 None U_ZERO_ERROR =
  u_strFromPunycode (Some [0x62; 0x2d; 0x16b; 0x4e76; 0x61]) 5 (Some [7; 7; 7]) 3 None U_ZERO_ERROR.
Proof. vm_compute. reflexivity. Qed.

Lemma punycode_roundtrip_witness :
  exists puny : list Z, Forall is_basic puny /\
    (forall d0,
       u_strToPunycode (Some (utf16 [98; 252; 0x1f600; 114])) (count (utf16 [98; 252; 0x1f600; 114]))
         d0 (capacity d0) None U_ZERO_ERROR =
         Some (count puny, overlay d0 (puny ++ [0]), termination (capacity d0) (count puny) U_ZERO_ERROR)) /\
    (forall d0 f0, flags_fit d0 f0 -> count (utf16 [98; 252; 0x1f600; 114]) <= capacity d0 -> exists flags,
       u_strFromPunycode (Some puny) (count puny) d0 (capacity d0) f0 U_ZERO_ERROR =
         Some (count (utf16 [98; 252; 0x1f600; 114]), overlay d0 (utf16 [98; 252; 0x1f600; 114] ++ [0]), flags,
               termination (capacity d0) (count (utf16 [98; 252; 0x1f600; 114])) U_ZERO_ERROR)).
Proof.
  apply (punycode_roundtrip [98; 252; 0x1f600; 114]).
  - repeat constructor; unfold is_code_point; lia.
  - unfold count. simpl. lia.
Defined.
