(* ===== verification/UArrSort.v ===== *)
(** * Sorting arrays (src/common/uarrsort.c)

    An array of items of one size is sorted with a comparator of the caller:
    by insertion with a binary search when the sort is to be stable or the
    array is short, and by quicksort otherwise, which recurs into the smaller
    part, loops on the larger one and leaves the short parts to the insertion
    sort.  A comparator may fail to be defined for some items, so it has an
    [I32] as its result; its laws are the class [Comparator]. *)
From S2P Require Import Prelude Int32 UString.
Local Open Scope Z_scope.

Module UArrSort.

Definition MIN_QSORT : Z := 9.
Definition STACK_ITEM_SIZE : Z := 200.

(** ** The comparators of the library *)

Definition uprv_uint16Comparator (left right : Z) : I32 := left -! right.
Definition uprv_int32Comparator (left right : Z) : I32 := left -! right.
Definition uprv_uint32Comparator (l r : Z) : I32 :=
  if l <? r then Some (-1) else if l =? r then Some 0 else Some 1.

Section Sort.
Context {A : Type} {alloc : Allocator Z}.
Context (cmp : A -> A -> I32) (itemSize : Z).

(** The item at [array+i*itemSize], where [array] points to the item [base] of
    the block. *)
Definition item (array : list A) (base i : Z) : option A :=
  let! _ := i *! itemSize in aget array (base + i).

(** ** Insertion sort using binary search *)

(** The binary search down to a small sub-array: its ends and whether an equal
    item has been met. *)
Fixpoint binary_loop (fuel : nat) (array : list A) (base : Z) (x : A) (start limit : Z) (found : bool) :
    option (Z * Z * bool) :=
  match fuel with
  | O => None
  | S fuel' =>
      let! width := limit -! start in
      if width >=? MIN_QSORT then
        let! i := (start +! limit) /! 2 in
        let! y := item array base i in
        let! diff := cmp x y in
        if diff =? 0 then let! start := i +! 1 in binary_loop fuel' array base x start limit true
        else if diff <? 0 then binary_loop fuel' array base x start i found
        else binary_loop fuel' array base x i limit found
      else Some (start, limit, found)
  end.

Fixpoint linear_loop (fuel : nat) (array : list A) (base : Z) (x : A) (start limit : Z) (found : bool) :
    option (Z * bool) :=
  match fuel with
  | O => None
  | S fuel' =>
      if start <? limit then
        let! y := item array base start in
        let! diff := cmp x y in
        if diff =? 0 then let! start := start +! 1 in linear_loop fuel' array base x start limit true
        else if diff <? 0 then Some (start, found)
        else let! start := start +! 1 in linear_loop fuel' array base x start limit found
      else Some (start, found)
  end.

Definition uprv_stableBinarySearch (array : list A) (base limit : Z) (x : A) : I32 :=
  let! '(start, limit, found) := binary_loop (S (Z.to_nat limit)) array base x 0 limit false in
  let! '(start, found) := linear_loop (S (Z.to_nat limit)) array base x start limit found in
  if found : bool then start -! 1 else Some (Z.lnot start).

(** One round of the insertion sort: the item [j] moves to its place. *)
Definition insert_item (array : list A) (base j : Z) : option (list A) :=
  let! x := item array base j in
  let! insertionPoint := uprv_stableBinarySearch array base j x in
  let! insertionPoint :=
    if insertionPoint <? 0 then Some (Z.lnot insertionPoint) else insertionPoint +! 1 in
  if insertionPoint <? j then
    let! _ := insertionPoint *! itemSize in
    let! _ := (j -! insertionPoint) *! itemSize in
    let! array := memmove array (base + insertionPoint + 1) (base + insertionPoint) (j - insertionPoint) in
    aset array (base + insertionPoint) x
  else Some array.

Fixpoint insertion_loop (fuel : nat) (array : list A) (base j length : Z) : option (list A) :=
  match fuel with
  | O => None
  | S fuel' =>
      if j <? length then
        let! array := insert_item array base j in
        let! j := j +! 1 in
        insertion_loop fuel' array base j length
      else Some array
  end.

Definition doInsertionSort (array : list A) (base length : Z) : option (list A) :=
  insertion_loop (S (Z.to_nat length)) array base 1 length.

(** [size] bytes for the intermediate items, on the stack when they fit. *)
Definition intermediate (size : Z) : bool :=
  (itemSize <=? STACK_ITEM_SIZE) || match uprv_malloc size with Some _ => true | None => false end.

Definition insertionSort (array : list A) (length : Z) (status : UErrorCode) : option (list A * UErrorCode) :=
  if intermediate itemSize then let! array := doInsertionSort array 0 length in Some (array, status)
  else Some (array, U_MEMORY_ALLOCATION_ERROR).

(** ** Quicksort *)

Fixpoint scan_left (fuel : nat) (array : list A) (x : A) (left : Z) : I32 :=
  match fuel with
  | O => None
  | S fuel' =>
      let! y := item array 0 left in
      let! diff := cmp y x in
      if diff <? 0 then let! left := left +! 1 in scan_left fuel' array x left else Some left
  end.

Fixpoint scan_right (fuel : nat) (array : list A) (x : A) (right : Z) : I32 :=
  match fuel with
  | O => None
  | S fuel' =>
      let! last := right -! 1 in
      let! y := item array 0 last in
      let! diff := cmp x y in
      if diff <? 0 then scan_right fuel' array x last else Some right
  end.

(** The swap of the items [left] and [right]. *)
Definition swap (array : list A) (left right : Z) : option (list A) :=
  let! w := item array 0 left in
  let! y := item array 0 right in
  let! array := aset array left y in
  aset array right w.

Fixpoint partition (fuel : nat) (array : list A) (x : A) (left right : Z) : option (list A * Z * Z) :=
  match fuel with
  | O => None
  | S fuel' =>
      let! left := scan_left (S (List.length array)) array x left in
      let! right := scan_right (S (List.length array)) array x right in
      if left <? right then
        let! right := right -! 1 in
        let! array := if left <? right then swap array left right else Some array in
        let! left := left +! 1 in
        if left <? right then partition fuel' array x left right else Some (array, left, right)
      else Some (array, left, right)
  end.

Fixpoint subQuickSort (fuel : nat) (array : list A) (start limit : Z) : option (list A) :=
  match fuel with
  | O => None
  | S fuel' =>
      let! short := start +! MIN_QSORT in
      if short >=? limit then
        let! _ := start *! itemSize in
        let! length := limit -! start in
        doInsertionSort array start length
      else
        let! middle := (start +! limit) /! 2 in
        let! x := item array 0 middle in
        let! '(array, lft, rgt) := partition fuel' array x start limit in
        let! lower := rgt -! start in
        let! upper := limit -! lft in
        let! '(array, start, limit) :=
          (if lower <? upper then
             let! last := rgt -! 1 in
             let! array := if start <? last then subQuickSort fuel' array start rgt else Some array in
             Some (array, lft, limit)
           else
             let! last := limit -! 1 in
             let! array := if lft <? last then subQuickSort fuel' array lft limit else Some array in
             Some (array, start, rgt)) in
        let! last := limit -! 1 in
        if start <? last then subQuickSort fuel' array start limit else Some array
  end.

Definition quickSort (array : list A) (length : Z) (status : UErrorCode) : option (list A * UErrorCode) :=
  let! size := 2 *! itemSize in
  if intermediate size then
    let! array := subQuickSort (S (Z.to_nat length)) array 0 length in Some (array, status)
  else Some (array, U_MEMORY_ALLOCATION_ERROR).

(** The array and the comparator are not null. *)
Definition uprv_sortArray (array : list A) (length : Z) (sortStable : bool) (status : UErrorCode) :
    option (list A * UErrorCode) :=
  if U_FAILURE status then Some (array, status)
  else if (length <? 0) || (itemSize <=? 0) then Some (array, U_ILLEGAL_ARGUMENT_ERROR)
  else if length <=? 1 then Some (array, status)
  else if (length <? MIN_QSORT) || sortStable then insertionSort array length status
  else quickSort array length status.

End Sort.

(** ** Comparators *)

(** The laws of a comparator on the items that satisfy [P]: its result is
    defined, exchanging the items exchanges its sign, and being less or equal is
    transitive. *)
Class Comparator {A} (cmp : A -> A -> I32) (P : A -> Prop) := {
  cmp_defined x y : P x -> P y -> exists d, cmp x y = Some d;
  cmp_opposite x y a b : P x -> P y -> cmp x y = Some a -> cmp y x = Some b -> Z.sgn b = - Z.sgn a;
  cmp_trans x y z a b c : P x -> P y -> P z ->
    cmp x y = Some a -> cmp y z = Some b -> cmp x z = Some c -> a <= 0 -> b <= 0 -> c <= 0
}.

Definition le {A} (cmp : A -> A -> I32) (x y : A) : Prop := exists d, cmp x y = Some d /\ d <= 0.

(** The items that compare as equal to [x]. *)
Definition same {A} (cmp : A -> A -> I32) (x y : A) : bool :=
  match cmp x y with Some d => d =? 0 | None => false end.

#[export] Instance uint16_comparator : Comparator uprv_uint16Comparator is_uint16.
Proof.
  assert (H : forall x y, is_uint16 x -> is_uint16 y -> uprv_uint16Comparator x y = Some (x - y)).
  { unfold is_uint16. intros. unfold uprv_uint16Comparator. apply isub_ok. ibound. }
  constructor.
  - intros x y Hx Hy. rewrite H by done. eauto.
  - intros x y a b Hx Hy. rewrite !H by done. intros [= <-] [= <-]. lia.
  - intros x y z a b c Hx Hy Hz. rewrite !H by done. intros [= <-] [= <-] [= <-]. lia.
Qed.

#[export] Instance uint32_comparator : Comparator uprv_uint32Comparator (fun _ => True).
Proof.
  constructor; unfold uprv_uint32Comparator.
  - intros x y _ _. repeat case_match; eauto.
  - intros x y a b _ _. zcases; intros [= <-] [= <-]; lia.
  - intros x y z a b c _ _ _. zcases; intros [= <-] [= <-] [= <-]; lia.
Qed.

(** The difference of two [int32_t] overflows when they are far apart; where it
    does not, the comparator is one. *)
#[export] Instance int32_comparator : Comparator uprv_int32Comparator (fun x => -2 ^ 30 <= x < 2 ^ 30).
Proof.
  assert (H : forall x y, -2 ^ 30 <= x < 2 ^ 30 -> -2 ^ 30 <= y < 2 ^ 30 -> uprv_int32Comparator x y = Some (x - y)).
  { intros. unfold uprv_int32Comparator. apply isub_ok. ibound. }
  constructor.
  - intros x y Hx Hy. rewrite H by done. eauto.
  - intros x y a b Hx Hy. rewrite !H by done. intros [= <-] [= <-]. lia.
  - intros x y z a b c Hx Hy Hz. rewrite !H by done. intros [= <-] [= <-] [= <-]. lia.
Qed.

Example int32_comparator_overflows : uprv_int32Comparator INT32_MIN 1 = None.
Proof. reflexivity. Qed.

Section Order.
Context {A : Type} {cmp : A -> A -> I32} {P : A -> Prop} {H : Comparator cmp P}.

Lemma le_refl x : P x -> le cmp x x.
Proof. intros Hx. destruct (cmp_defined x x Hx Hx) as [d Hd]. exists d. pose proof (cmp_opposite x x d d Hx Hx Hd Hd). split; [done|lia]. Qed.

Lemma le_trans x y z : P x -> P y -> P z -> le cmp x y -> le cmp y z -> le cmp x z.
Proof.
  intros Hx Hy Hz (a & Ha & La) (b & Hb & Lb). destruct (cmp_defined x z Hx Hz) as [c Hc].
  exists c. split; [done|]. by eapply (cmp_trans x y z a b c).
Qed.

(** What the code learns from a result. *)
Lemma cmp_spec x y : P x -> P y ->
  exists d, cmp x y = Some d /\ (d <= 0 <-> le cmp x y) /\ (0 <= d <-> le cmp y x) /\ same cmp x y = (d =? 0).
Proof.
  intros Hx Hy. destruct (cmp_defined x y Hx Hy) as [d Hd], (cmp_defined y x Hy Hx) as [e He].
  pose proof (cmp_opposite x y d e Hx Hy Hd He). exists d. split; [done|]. unfold le, same. rewrite Hd, He.
  split; [|split; [|done]]; split; intros; [eauto|by destruct_and?; destruct H1 as (? & [= <-] & ?)| |].
  - exists e. split; [done|lia].
  - destruct H1 as (? & [= <-] & ?). lia.
Qed.

Lemma le_total x y : P x -> P y -> le cmp x y \/ le cmp y x.
Proof. intros Hx Hy. destruct (cmp_spec x y Hx Hy) as (d & _ & H1 & H2 & _). rewrite <- H1, <- H2. lia. Qed.

Lemma same_le x y : P x -> P y -> same cmp x y = true <-> le cmp x y /\ le cmp y x.
Proof. intros Hx Hy. destruct (cmp_spec x y Hx Hy) as (d & _ & <- & <- & ->). rewrite Z.eqb_eq. lia. Qed.
End Order.

(** ** Insertion sort *)

Section Correctness.
Context {A : Type} {cmp : A -> A -> I32} {P : A -> Prop} {H : Comparator cmp P}.
Context {alloc : Allocator Z} (itemSize : Z).

(** The offsets of [n] items and the sums of two indexes fit an [int32_t]. *)
Definition fits (n : nat) : Prop :=
  0 < itemSize /\ Z.of_nat n * itemSize <= INT32_MAX /\ 2 * Z.of_nat n + MIN_QSORT <= INT32_MAX.

Lemma fits_le n m : fits n -> (m <= n)%nat -> fits m.
Proof. unfold fits. intros (H1 & H2 & H3) Hm. split; [done|]. split; nia. Qed.

Lemma fits_mul n k : fits n -> 0 <= k <= Z.of_nat n -> k *! itemSize = Some (k * itemSize).
Proof. unfold fits. intros (H1 & H2 & _) Hk. apply imul_ok. unfold is_int32, INT32_MIN, INT32_MAX in *. nia. Qed.

Lemma fits_int n k : fits n -> -1 <= k <= 2 * Z.of_nat n + 9 -> is_int32 k.
Proof. unfold fits, is_int32, INT32_MIN, MIN_QSORT. intros (_ & _ & H3) Hk. lia. Qed.

Lemma item_app (p l q : list A) (base i : Z) (k : nat) :
  fits (length p + length l) -> (k < length l)%nat -> base + i = Z.of_nat (length p + k) -> 0 <= base -> 0 <= i ->
  item itemSize (p ++ l ++ q) base i = l !! k.
Proof.
  intros Hf Hk Hi Hb Hi'. unfold item. rewrite (fits_mul _ _ Hf) by lia. cbn [obind].
  rewrite Hi, aget_nat, lookup_app_r by lia. rewrite lookup_app_l by lia. f_equal. lia.
Qed.

Section Search.
Context (p s r : list A) (x : A).
Context (Hfit : fits (length p + length s)) (Hs : StronglySorted (le cmp) s) (HP : Forall P s) (Hx : P x).

Lemma sorted_lookup i j y z : (i < j)%nat -> s !! i = Some y -> s !! j = Some z -> le cmp y z.
Proof.
  intros Hij Hi Hj. rewrite <- (take_drop_middle s j z Hj) in Hs. apply StronglySorted_app in Hs as (Hle & _).
  apply Hle; [|by left]. apply list_elem_of_lookup_2 with i. by rewrite lookup_take_lt.
Qed.

Lemma in_P i y : s !! i = Some y -> P y.
Proof. intros Hy. by eapply Forall_lookup_1. Qed.

(** What is known when the item is to be put after [start] items and before
    [limit]. *)
Record between (start limit : nat) (found : bool) : Prop := {
  bt_order : (start <= limit <= length s)%nat;
  bt_before i y : (i < start)%nat -> s !! i = Some y -> le cmp y x;
  bt_after i y : (limit <= i)%nat -> s !! i = Some y -> ~ le cmp y x;
  bt_found : found = existsb (same cmp x) (take start s)
}.

Lemma existsb_take_S start y : s !! start = Some y ->
  existsb (same cmp x) (take (S start) s) = existsb (same cmp x) (take start s) || same cmp x y.
Proof. intros Hy. rewrite (take_S_r _ _ _ Hy), existsb_app. cbn. by rewrite orb_false_r. Qed.

Lemma none_same n : (forall i y, (i < n)%nat -> s !! i = Some y -> ~ le cmp x y) -> existsb (same cmp x) (take n s) = false.
Proof.
  intros Hn. apply not_true_iff_false. rewrite existsb_exists. intros (y & Hin & Hsame).
  apply list_elem_of_In, list_elem_of_lookup in Hin as [i Hi]. apply lookup_take_Some in Hi as [Hi Hlt].
  apply (same_le x y Hx (in_P _ _ Hi)) in Hsame as [Hxy _]. by apply (Hn i y).
Qed.

(** The item at [i] of the binary search, where [diff] is positive. *)
Lemma between_above start limit found i y :
  between start limit found -> (start <= i < limit)%nat -> s !! i = Some y -> ~ le cmp x y ->
  between i limit found.
Proof.
  intros [Ho Hb Ha Hf] Hi Hy Hlt.
  assert (Hyx : le cmp y x) by (destruct (le_total y x (in_P _ _ Hy) Hx); tauto).
  assert (Hall : forall j z, (j < i)%nat -> s !! j = Some z -> le cmp z x /\ ~ le cmp x z).
  { intros j z Hj Hz. pose proof (sorted_lookup j i z y Hj Hz Hy). split; [|intros Hxz]; [|apply Hlt];
      (eapply le_trans; [..|done|done]; eauto using in_P). }
  constructor; [lia| | |].
  - intros j z Hj Hz. by apply (Hall j z).
  - exact Ha.
  - rewrite Hf, !none_same; [done|..]; intros j z Hj Hz; destruct (Hall j z) as [_ Hn]; (done || lia).
Qed.

Lemma between_equal start limit found i y :
  between start limit found -> (start <= i < limit)%nat -> s !! i = Some y -> same cmp x y = true ->
  between (S i) limit true.
Proof.
  intros [Ho Hb Ha Hf] Hi Hy Hsame. pose proof Hsame as [Hxy Hyx]%(same_le x y Hx (in_P _ _ Hy)).
  constructor; [lia| |exact Ha|by rewrite (existsb_take_S _ _ Hy), Hsame, orb_true_r].
  intros j z Hj Hz. destruct (decide (j = i)) as [->|]; [by simplify_eq|].
  eapply (le_trans z y x); eauto using in_P. eapply (sorted_lookup j i); eauto. lia.
Qed.

Lemma between_below start limit found i y :
  between start limit found -> (start <= i < limit)%nat -> s !! i = Some y -> ~ le cmp y x ->
  between start i found.
Proof.
  intros [Ho Hb Ha Hf] Hi Hy Hlt. constructor; [lia|done| |done].
  intros j z Hj Hz Hzx. destruct (decide (j = i)) as [->|]; [by simplify_eq|].
  apply Hlt. eapply (le_trans y z x); eauto using in_P. eapply (sorted_lookup i j); eauto. lia.
Qed.

#[local] Abbreviation array := (p ++ s ++ r).
#[local] Abbreviation base := (Z.of_nat (length p)).

Lemma item_search i y : s !! i = Some y -> item itemSize array base (Z.of_nat i) = Some y.
Proof. intros Hy. pose proof (lookup_lt_Some _ _ _ Hy). by rewrite (item_app _ _ _ _ _ i) by (done || lia). Qed.

Lemma binary_loop_spec fuel start limit found :
  between start limit found -> (limit - start < fuel)%nat ->
  exists start' limit' found', binary_loop cmp itemSize fuel array base x (Z.of_nat start) (Z.of_nat limit) found =
    Some (Z.of_nat start', Z.of_nat limit', found') /\ between start' limit' found' /\ (limit' <= limit)%nat.
Proof.
  revert start limit found. induction fuel as [|fuel IH]; intros start limit found Hbt Hfuel; [lia|].
  pose proof (bt_order _ _ _ Hbt) as Ho. cbn [binary_loop].
  rewrite isub_ok by (apply (fits_int _ _ Hfit); lia). cbn [obind]. rewrite Z.geb_leb. unfold MIN_QSORT.
  destruct (Z.leb_spec 9 (Z.of_nat limit - Z.of_nat start)) as [Hw|Hw]; [|by exists start, limit, found].
  rewrite iadd_ok by (apply (fits_int _ _ Hfit); lia).
  rewrite idiv_ok by (done || (apply (fits_int _ _ Hfit); lia)). cbn [obind].
  set (i := ((start + limit) / 2)%nat).
  assert (Hi : Z.quot (Z.of_nat start + Z.of_nat limit) 2 = Z.of_nat i) by (unfold i; rewrite Nat2Z.inj_div; dlia).
  assert (Hir : (start < i < limit)%nat) by (unfold i; split; [apply Nat.div_le_lower_bound|apply Nat.Div0.div_lt_upper_bound]; lia).
  rewrite Hi. destruct (lookup_lt_is_Some_2 s i) as [y Hy]; [lia|]. rewrite (item_search i y Hy). cbn [obind].
  destruct (cmp_spec x y Hx (in_P _ _ Hy)) as (d & -> & Hxy & Hyx & Hsame). cbn [obind].
  destruct (Z.eqb_spec d 0) as [->|Hd].
  - rewrite iadd_ok by (apply (fits_int _ _ Hfit); lia). cbn [obind].
    replace (Z.of_nat i + 1) with (Z.of_nat (S i)) by lia.
    apply IH; [eapply (between_equal _ _ _ i y); eauto; lia|lia].
  - destruct (Z.ltb_spec d 0).
    + destruct (IH start i found) as (s' & l' & f' & E & Hb & Hl).
      { eapply between_below; eauto; [lia|]. rewrite <- Hyx. lia. } { lia. }
      exists s', l', f'. split; [exact E|]. split; [done|lia].
    + apply IH; [|lia]. eapply between_above; eauto; [lia|]. rewrite <- Hxy. lia.
Qed.

Lemma linear_loop_spec fuel start limit found :
  between start limit found -> (limit - start < fuel)%nat ->
  exists k, linear_loop cmp itemSize fuel array base x (Z.of_nat start) (Z.of_nat limit) found =
    Some (Z.of_nat k, existsb (same cmp x) (take k s)) /\ between k k (existsb (same cmp x) (take k s)) /\ (k <= limit)%nat.
Proof.
  revert start found. induction fuel as [|fuel IH]; intros start found Hbt Hfuel; [lia|].
  pose proof (bt_order _ _ _ Hbt) as Ho. cbn [linear_loop].
  destruct (Z.ltb_spec (Z.of_nat start) (Z.of_nat limit)) as [Hlt|Hge].
  2:{ assert (start = limit) as <- by lia. exists start. rewrite <- (bt_found _ _ _ Hbt). done. }
  destruct (lookup_lt_is_Some_2 s start) as [y Hy]; [lia|]. rewrite (item_search start y Hy). cbn [obind].
  destruct (cmp_spec x y Hx (in_P _ _ Hy)) as (d & -> & Hxy & Hyx & Hsame). cbn [obind].
  assert (Hnext : Z.of_nat start +! 1 = Some (Z.of_nat (S start))).
  { unfold int. rewrite iadd_ok by (apply (fits_int _ _ Hfit); lia). f_equal. lia. }
  destruct (Z.eqb_spec d 0) as [->|Hd]; [|destruct (Z.ltb_spec d 0)].
  - rewrite Hnext. cbn [obind]. apply IH; [eapply (between_equal _ _ _ start y); eauto; lia|lia].
  - exists start. rewrite <- (bt_found _ _ _ Hbt). split; [done|]. split; [|lia].
    eapply between_below; eauto; [lia|]. rewrite <- Hyx. lia.
  - rewrite Hnext. cbn [obind]. apply IH; [|lia].
    constructor; [lia| |exact (bt_after _ _ _ Hbt)|].
    + intros j z Hj Hz. destruct (decide (j = start)) as [->|].
      * simplify_eq. apply Hyx. lia.
      * apply (bt_before _ _ _ Hbt j); [lia|done].
    + rewrite (existsb_take_S _ _ Hy). rewrite Hsame, orb_false_r. apply (bt_found _ _ _ Hbt).
Qed.

(** The place of the item: after the last item that is not greater. *)
Lemma stableBinarySearch_spec :
  exists k, between k k (existsb (same cmp x) (take k s)) /\
    uprv_stableBinarySearch cmp itemSize array base (Z.of_nat (length s)) x =
      Some (if existsb (same cmp x) (take k s) then Z.of_nat k - 1 else Z.lnot (Z.of_nat k)).
Proof.
  assert (Hbt : between 0 (length s) false).
  { constructor; [lia|intros; lia| |done]. intros i y Hi Hy. apply lookup_lt_Some in Hy. lia. }
  unfold uprv_stableBinarySearch.
  destruct (binary_loop_spec (S (Z.to_nat (Z.of_nat (length s)))) _ _ _ Hbt) as (s' & l' & f' & E & Hb & Hl); [lia|].
  change (Z.of_nat 0) with 0 in E. rewrite E. cbn [obind].
  destruct (linear_loop_spec (S (Z.to_nat (Z.of_nat l'))) _ _ _ Hb) as (k & E' & Hk & Hkl); [lia|].
  rewrite E'. cbn [obind]. exists k. split; [done|]. pose proof (bt_order _ _ _ Hk).
  case_match; [|done]. by rewrite isub_ok by (apply (fits_int _ _ Hfit); lia).
Qed.
End Search.

(** ** One round and the whole insertion sort *)

(** The same items, sorted, with equal items in the order they had. *)
Record stably_sorted (l l' : list A) : Prop := {
  ss_perm : l' ≡ₚ l;
  ss_sorted : StronglySorted (le cmp) l';
  ss_stable z : P z -> filter (fun y => same cmp z y = true) l' = filter (fun y => same cmp z y = true) l
}.

Lemma filter_none (Q : A -> Prop) `{!forall x, Decision (Q x)} l : (forall y, y ∈ l -> ~ Q y) -> filter Q l = [].
Proof.
  induction l as [|y l IH]; intros Hl; [done|]. rewrite filter_cons_False by (apply Hl; by left).
  apply IH. intros z Hz. apply Hl. by right.
Qed.

Lemma insert_stable s x k :
  Forall P s -> P x -> StronglySorted (le cmp) s -> between s x k k (existsb (same cmp x) (take k s)) ->
  stably_sorted (s ++ [x]) (insert_at k x s).
Proof.
  intros HP Hx Hs [Ho Hb Ha _]. pose proof (take_drop k s) as Hsplit.
  assert (H1 : Forall (fun y => P y /\ le cmp y x) (take k s)).
  { apply Forall_forall. intros y [i [Hi Hlt]%lookup_take_Some]%list_elem_of_lookup.
    split; [by eapply Forall_lookup_1|by eapply Hb]. }
  assert (H2 : Forall (fun y => P y /\ ~ le cmp y x) (drop k s)).
  { apply Forall_forall. intros y [i Hi]%list_elem_of_lookup. rewrite lookup_drop in Hi.
    split; [by eapply Forall_lookup_1|eapply (Ha _ y); [|exact Hi]; lia]. }
  rewrite Forall_forall in H1, H2. constructor.
  - rewrite insert_at_Permutation. by rewrite Permutation_app_comm.
  - unfold insert_at. rewrite <- Hsplit in Hs. apply StronglySorted_app in Hs as (Hle & Hs1 & Hs2).
    apply StronglySorted_app. split; [|split; [done|constructor; [done|]]].
    + intros y z Hy [->|Hz]%elem_of_cons; [by apply H1|by apply Hle].
    + apply Forall_forall. intros y Hy. destruct (H2 y Hy) as [HPy Hn]. by destruct (le_total x y Hx HPy).
  - intros z Hz. unfold insert_at. rewrite <- Hsplit at 3. rewrite !filter_app, filter_cons, <- app_assoc. f_equal.
    destruct (decide (same cmp z x = true)) as [[Hzx Hxz]%same_le|Hzx]; [|done|done|].
    + assert (filter (fun y => same cmp z y = true) (drop k s) = []) as ->; [|by rewrite filter_cons_True by by apply same_le].
      apply filter_none. intros y Hy [Hzy Hyz]%same_le; [|done|by apply H2]. destruct (H2 y Hy) as [HPy Hn].
      apply Hn. by apply (le_trans y z x).
    + by rewrite filter_cons_False, app_nil_r by done.
Qed.

Lemma insert_item_spec p s x r :
  fits (length p + S (length s)) -> Forall P s -> P x -> StronglySorted (le cmp) s ->
  exists k, insert_item cmp itemSize (p ++ s ++ x :: r) (Z.of_nat (length p)) (Z.of_nat (length s)) =
      Some (p ++ insert_at k x s ++ r) /\ stably_sorted (s ++ [x]) (insert_at k x s).
Proof.
  intros Hfit HP Hx Hs. unfold insert_item.
  assert (Hfs : fits (length p + length s)) by (apply (fits_le _ _ Hfit); lia).
  assert (item itemSize (p ++ s ++ x :: r) (Z.of_nat (length p)) (Z.of_nat (length s)) = Some x) as ->.
  { replace (p ++ s ++ x :: r) with (p ++ (s ++ [x]) ++ r) by (by rewrite <- !app_assoc).
    rewrite (item_app p (s ++ [x]) r _ _ (length s)) by (rewrite ?length_app; simpl; (lia || (apply (fits_le _ _ Hfit); lia))).
    by rewrite lookup_app_r, Nat.sub_diag by lia. }
  cbn [obind].
  destruct (stableBinarySearch_spec p s (x :: r) x Hfs Hs HP Hx) as (k & Hk & ->). cbn [obind].
  pose proof (bt_order _ _ _ _ _ Hk) as Hko.
  exists k. split; [|by apply insert_stable].
  set (r0 := if existsb _ _ then _ else _).
  assert ((if r0 <? 0 then Some (Z.lnot r0) else r0 +! 1) = Some (Z.of_nat k)) as ->.
  { unfold r0. destruct (existsb _ _) eqn:Ex.
    - assert (k <> 0%nat) by (intros ->; by rewrite take_0 in Ex).
      rewrite (proj2 (Z.ltb_ge _ _)) by lia. unfold int. rewrite iadd_ok by (apply (fits_int _ _ Hfs); lia). f_equal. lia.
    - by rewrite (proj2 (Z.ltb_lt _ _)), Z.lnot_involutive by (unfold Z.lnot; lia). }
  cbn [obind]. destruct (Z.ltb_spec (Z.of_nat k) (Z.of_nat (length s))) as [Hlt|Hge].
  2:{ assert (k = length s) as -> by lia. unfold insert_at. by rewrite take_ge, drop_ge, <- app_assoc by lia. }
  rewrite (fits_mul _ _ Hfs) by lia. cbn [obind]. rewrite isub_ok by (apply (fits_int _ _ Hfs); lia).
  rewrite (fits_mul _ _ Hfs) by lia. cbn [obind].
  destruct (memmove_gap (p ++ take k s) (drop k s) [x] r) as (g & Hg & Hm).
  rewrite !length_app, length_take, length_drop, (Nat.min_l k) in Hm by lia. simpl (length [x]) in *.
  rewrite (proj2 (Z.ltb_lt _ _)) in Hm by lia.
  replace (p ++ s ++ x :: r) with ((p ++ take k s) ++ drop k s ++ [x] ++ r)
    by (rewrite <- app_assoc; f_equal; rewrite app_assoc, take_drop; done).
  replace (memmove _ _ _ _) with (Some ((p ++ take k s) ++ g ++ drop k s ++ r))
    by (rewrite <- Hm; f_equal; lia).
  destruct g as [|w [|? ?]]; try done. cbn [obind]. rewrite <- Nat2Z.inj_add, aset_nat
    by (rewrite !length_app, length_take; simpl; lia).
  rewrite insert_app_r_alt by (rewrite length_app, length_take; lia).
  rewrite length_app, length_take, Nat.min_l, Nat.sub_diag by lia. unfold insert_at. by rewrite <- !app_assoc.
Qed.

Lemma insertion_loop_spec fuel p s r q :
  fits (length p + (length s + length r)) -> Forall P (s ++ r) -> StronglySorted (le cmp) s -> (length r < fuel)%nat ->
  exists l, insertion_loop cmp itemSize fuel (p ++ s ++ r ++ q) (Z.of_nat (length p)) (Z.of_nat (length s))
      (Z.of_nat (length s + length r)) = Some (p ++ l ++ q) /\ stably_sorted (s ++ r) l.
Proof.
  revert s r. induction fuel as [|fuel IH]; intros s r Hfit HP Hs Hfuel; [lia|]. cbn [insertion_loop].
  destruct r as [|x r].
  - rewrite (proj2 (Z.ltb_ge _ _)) by (simpl; lia). exists s. by rewrite app_nil_r.
  - rewrite (proj2 (Z.ltb_lt _ _)) by (simpl; lia). simpl length in Hfit, Hfuel |- *.
    apply Forall_app in HP as [HPs [HPx HPr]%Forall_cons].
    destruct (insert_item_spec p s x (r ++ q)) as (k & E & Hst); [apply (fits_le _ _ Hfit); lia|done..|].
    rewrite <- app_comm_cons, E. cbn [obind]. rewrite iadd_ok by (apply (fits_int _ _ Hfit); lia). cbn [obind].
    destruct Hst as [Hperm Hsorted Hstable].
    assert (Hl : length (insert_at k x s) = S (length s)) by apply length_insert_at.
    destruct (IH (insert_at k x s) r) as (l & E' & [Hp' Hs' Hst']).
    + apply (fits_le _ _ Hfit). lia.
    + rewrite Hperm, <- app_assoc. apply Forall_app. split; [done|]. by constructor.
    + done.
    + lia.
    + exists l. rewrite Hl in E'. replace (Z.of_nat (length s) + 1) with (Z.of_nat (S (length s))) by lia.
      replace (length s + S (length r))%nat with (S (length s) + length r)%nat by lia. split; [exact E'|].
      constructor; [|done|].
      * rewrite Hp', Hperm, <- app_assoc. done.
      * intros z Hz. rewrite Hst', filter_app, Hstable, <- filter_app, <- app_assoc by done. done.
Qed.

Lemma doInsertionSort_spec p l q :
  fits (length p + length l) -> Forall P l ->
  exists l', doInsertionSort cmp itemSize (p ++ l ++ q) (Z.of_nat (length p)) (Z.of_nat (length l)) =
      Some (p ++ l' ++ q) /\ stably_sorted l l'.
Proof.
  intros Hfit HP. unfold doInsertionSort. destruct l as [|x l].
  - exists []. split; [done|]. by constructor; [|constructor|].
  - destruct (insertion_loop_spec (S (Z.to_nat (Z.of_nat (length (x :: l))))) p [x] l q) as (l' & E & Hst);
      [done..|by repeat constructor|simpl; lia|]. eauto.
Qed.

(** ** Partition *)

Section Partition.
Context (p q : list A) (x : A) (Hx : P x).
#[local] Abbreviation array l := (p ++ l ++ q).
#[local] Abbreviation at_ i := (Z.of_nat (length p + i)).

Lemma item_at l i y : fits (length p + length l) -> l !! i = Some y -> item itemSize (array l) 0 (at_ i) = Some y.
Proof. intros Hf Hy. pose proof (lookup_lt_Some _ _ _ Hy). by rewrite (item_app _ _ _ _ _ i) by (done || lia). Qed.

Lemma aset_segment l i y : (i < length l)%nat -> aset (array l) (at_ i) y = Some (array (<[i := y]> l)).
Proof.
  intros Hi. rewrite aset_nat by (rewrite !length_app; lia). rewrite insert_app_r, insert_app_l by done. done.
Qed.

Lemma scan_left_spec fuel l i k y :
  fits (length p + length l) -> Forall P l -> (i <= k)%nat -> l !! k = Some y -> le cmp x y -> (k - i < fuel)%nat ->
  exists i', scan_left cmp itemSize fuel (array l) x (at_ i) = Some (at_ i') /\ (i <= i' <= k)%nat /\
    (forall j z, (i <= j < i')%nat -> l !! j = Some z -> ~ le cmp x z) /\
    (forall z, l !! i' = Some z -> le cmp x z).
Proof.
  intros Hfit HP Hik Hk Hxy. revert i Hik. induction fuel as [|fuel IH]; intros i Hik Hfuel; [lia|]. cbn [scan_left].
  pose proof (lookup_lt_Some _ _ _ Hk). destruct (lookup_lt_is_Some_2 l i) as [z Hz]; [lia|].
  assert (HPz : P z) by by eapply Forall_lookup_1.
  rewrite (item_at l i z Hfit Hz). cbn [obind]. destruct (cmp_spec z x HPz Hx) as (d & -> & Hzx & Hxz & _). cbn [obind].
  destruct (Z.ltb_spec d 0).
  - assert (i <> k) by (intros ->; simplify_eq; apply Hxz in Hxy; lia).
    rewrite iadd_ok by (apply (fits_int _ _ Hfit); lia). cbn [obind].
    replace (at_ i + 1) with (at_ (S i)) by lia.
    destruct (IH (S i)) as (i' & -> & Hi' & Hbelow & Hstop); [lia|lia|]. exists i'. split; [done|]. split; [lia|].
    split; [|done]. intros j w Hj Hw. destruct (decide (j = i)) as [->|]; [|apply (Hbelow j); [lia|done]].
    simplify_eq. rewrite <- Hxz. lia.
  - exists i. split; [done|]. split; [lia|]. split; [lia|]. intros w Hw. simplify_eq. apply Hxz. lia.
Qed.

Lemma scan_right_spec fuel l k j y :
  fits (length p + length l) -> Forall P l -> (k < j <= length l)%nat -> l !! k = Some y -> le cmp y x -> (j - k <= fuel)%nat ->
  exists j', scan_right cmp itemSize fuel (array l) x (at_ j) = Some (at_ j') /\ (k < j' <= j)%nat /\
    (forall i z, (j' <= i < j)%nat -> l !! i = Some z -> ~ le cmp z x) /\
    (forall z, l !! (j' - 1)%nat = Some z -> le cmp z x).
Proof.
  intros Hfit HP Hkj Hk Hyx. revert j Hkj. induction fuel as [|fuel IH]; intros j Hkj Hfuel; [lia|]. cbn [scan_right].
  rewrite isub_ok by (apply (fits_int _ _ Hfit); lia). cbn [obind].
  destruct (lookup_lt_is_Some_2 l (j - 1)%nat) as [z Hz]; [lia|].
  assert (HPz : P z) by by eapply Forall_lookup_1.
  replace (at_ j - 1) with (at_ (j - 1)%nat) by lia.
  rewrite (item_at l _ z Hfit Hz). cbn [obind]. destruct (cmp_spec x z Hx HPz) as (d & -> & Hxz & Hzx & _). cbn [obind].
  destruct (Z.ltb_spec d 0).
  - assert (j - 1 <> k)%nat by (intros E; rewrite E in Hz; simplify_eq; apply Hzx in Hyx; lia).
    destruct (IH (j - 1)%nat) as (j' & -> & Hj' & Habove & Hstop); [lia|lia|]. exists j'. split; [done|]. split; [lia|].
    split; [|done]. intros i w Hi Hw. destruct (decide (i = (j - 1)%nat)) as [->|]; [|apply (Habove i); [lia|done]].
    simplify_eq. rewrite <- Hzx. lia.
  - exists j. split; [done|]. split; [lia|]. split; [lia|]. intros w Hw. simplify_eq. apply Hzx. lia.
Qed.

Lemma swap_spec l i j y z :
  fits (length p + length l) -> l !! i = Some y -> l !! j = Some z ->
  swap itemSize (array l) (at_ i) (at_ j) = Some (array (<[j := y]> (<[i := z]> l))).
Proof.
  intros Hfit Hy Hz. unfold swap. rewrite (item_at l i y), (item_at l j z) by done. cbn [obind].
  pose proof (lookup_lt_Some _ _ _ Hy). pose proof (lookup_lt_Some _ _ _ Hz).
  rewrite aset_segment by done. cbn [obind]. by rewrite aset_segment by (by rewrite length_insert).
Qed.

(** What the partition has reached: the items below [i] are not greater than
    [x], those from [j] on not less. *)
Record parted (l : list A) (i j : nat) : Prop := {
  pt_below k y : (k < i)%nat -> l !! k = Some y -> le cmp y x;
  pt_above k y : (j <= k)%nat -> l !! k = Some y -> le cmp x y
}.

(** The scans end within the items: at the middle item in the first round and
    at what the last round has exchanged later. *)
Definition guarded (l : list A) (i j : nat) : Prop :=
  (exists k y, (i <= k < length l)%nat /\ l !! k = Some y /\ le cmp x y) /\
  (exists k y, (k < j <= length l)%nat /\ l !! k = Some y /\ le cmp y x).

(** The exchange of two items on the wrong sides. *)
Lemma parted_swap l i1 j1 y z :
  (i1 < j1)%nat -> parted l i1 (S j1) -> l !! i1 = Some y -> l !! j1 = Some z -> le cmp x y -> le cmp z x ->
  let l' := <[j1 := y]> (<[i1 := z]> l) in
  parted l' (S i1) j1 /\ l' !! i1 = Some z /\ l' !! j1 = Some y /\ l' ≡ₚ l.
Proof.
  intros Hij [Hb Ha] Hy Hz Hxy Hzx l'.
  pose proof (lookup_lt_Some _ _ _ Hy). pose proof (lookup_lt_Some _ _ _ Hz).
  assert (Hi : l' !! i1 = Some z) by (unfold l'; rewrite list_lookup_insert_ne, list_lookup_insert_eq by lia; done).
  assert (Hj : l' !! j1 = Some y) by (unfold l'; rewrite list_lookup_insert_eq by (rewrite length_insert; lia); done).
  assert (Hne : forall k, k <> i1 -> k <> j1 -> l' !! k = l !! k)
    by (intros k Hk1 Hk2; unfold l'; by rewrite !list_lookup_insert_ne by lia).
  split; [|split; [done|split; [done|by apply Permutation_insert_swap]]]. constructor.
  - intros k w Hk Hw. destruct (decide (k = i1)) as [->|]; [by simplify_eq|].
    rewrite Hne in Hw by lia. apply (Hb k); [lia|done].
  - intros k w Hk Hw. destruct (decide (k = j1)) as [->|]; [by simplify_eq|].
    rewrite Hne in Hw by lia. apply (Ha k); [lia|done].
Qed.

(** Where the scans stop. *)
Lemma scans_meet l i j i1 j1 :
  Forall P l -> (i1 < length l)%nat -> (i <= i1)%nat -> (j1 <= j)%nat -> (i < j)%nat -> parted l i j ->
  (forall k z, (i <= k < i1)%nat -> l !! k = Some z -> ~ le cmp x z) ->
  (forall k z, (j1 <= k < j)%nat -> l !! k = Some z -> ~ le cmp z x) ->
  parted l i1 j1 /\ (i1 <= j1)%nat.
Proof.
  intros HP Hl Hi Hj Hij [Hb Ha] Hlow Hhigh.
  assert (HPl : forall k z, l !! k = Some z -> P z) by (intros; by eapply Forall_lookup_1).
  assert (Hpt : parted l i1 j1).
  { constructor; intros k z Hk Hz.
    - destruct (decide (k < i)%nat); [by apply (Hb k)|]. destruct (le_total z x (HPl _ _ Hz) Hx); [done|].
      exfalso. apply (Hlow k z); (lia || done).
    - destruct (decide (j <= k)%nat); [by apply (Ha k)|]. destruct (le_total z x (HPl _ _ Hz) Hx); [|done].
      exfalso. apply (Hhigh k z); (lia || done). }
  split; [done|]. apply Nat.le_ngt. intros Hlt.
  destruct (lookup_lt_is_Some_2 l j1) as [z Hz]; [lia|].
  destruct (decide (j1 < i)%nat).
  - apply (Hhigh j1 z); [lia|done|]. by apply (Hb j1).
  - apply (Hlow j1 z); [lia|done|]. by apply (pt_above _ _ _ Hpt j1).
Qed.

Lemma partition_spec fuel l i j :
  fits (length p + length l) -> Forall P l -> (i < j <= length l)%nat -> parted l i j -> guarded l i j ->
  (j - i <= fuel)%nat ->
  exists l' i' j', partition cmp itemSize fuel (array l) x (at_ i) (at_ j) = Some (array l', at_ i', at_ j') /\
    l' ≡ₚ l /\ parted l' i' j' /\ (i <= i' <= length l)%nat /\ (j' <= j)%nat /\ (j' <= i' <= S j')%nat /\
    ((exists k y, (i <= k < j)%nat /\ l !! k = Some y /\ le cmp x y /\ le cmp y x) -> (i < i')%nat /\ (j' < j)%nat).
Proof.
  revert l i j. induction fuel as [|fuel IH]; intros l i j Hfit HP Hij Hpt [Hg1 Hg2] Hfuel; [lia|].
  destruct Hg1 as (k1 & y1 & Hk1 & Hy1 & Hle1), Hg2 as (k2 & y2 & Hk2 & Hy2 & Hle2). cbn [partition].
  assert (Hlen : (length l <= length (array l))%nat) by (rewrite !length_app; lia).
  destruct (scan_left_spec (S (length (array l))) l i k1 y1) as (i1 & -> & Hi1 & Hlow & Hstop1); [done..|lia|done|done|lia|].
  cbn [obind].
  destruct (scan_right_spec (S (length (array l))) l k2 j y2) as (j1 & -> & Hj1 & Hhigh & Hstop2); [done..|lia|done|done|lia|].
  cbn [obind].
  destruct (scans_meet l i j i1 j1) as [Hpt1 Hmeet]; [done|lia|lia|lia|lia|done..|].
  assert (Hprogress : (exists k y, (i <= k < j)%nat /\ l !! k = Some y /\ le cmp x y /\ le cmp y x) -> (i1 < j1)%nat).
  { intros (k & y & Hk & Hy & Hxy & Hyx). apply Nat.lt_nge. intros Hle. destruct (decide (k < i1)%nat).
    - by apply (Hlow k y); (lia || done). - by apply (Hhigh k y); (lia || done). }
  destruct (Z.ltb_spec (at_ i1) (at_ j1)) as [Hlt|Hge].
  2:{ assert (i1 = j1) as <- by lia. exists l, i1, i1. split; [done|]. split; [done|]. split; [done|]. do 3 (split; [lia|]). intros Hmid%Hprogress. lia. }
  rewrite isub_ok by (apply (fits_int _ _ Hfit); lia). cbn [obind].
  replace (at_ j1 - 1) with (at_ (j1 - 1)%nat) by lia.
  destruct (lookup_lt_is_Some_2 l i1) as [y Hy]; [lia|]. destruct (lookup_lt_is_Some_2 l (j1 - 1)%nat) as [z Hz]; [lia|].
  pose proof (Hstop1 y Hy) as Hxy. pose proof (Hstop2 z Hz) as Hzx.
  destruct (Z.ltb_spec (at_ i1) (at_ (j1 - 1)%nat)) as [Hlt'|Hge'].
  - rewrite (swap_spec l i1 (j1 - 1) y z) by done. cbn [obind].
    rewrite iadd_ok by (apply (fits_int _ _ Hfit); lia). cbn [obind].
    replace (at_ i1 + 1) with (at_ (S i1)) by lia.
    destruct (parted_swap l i1 (j1 - 1) y z) as (Hpt' & Hi' & Hj' & Hperm); [lia|by replace (S (j1 - 1)) with j1 by lia|done..|].
    set (l' := <[_ := y]> _) in *. assert (Hl' : length l' = length l) by (unfold l'; by rewrite !length_insert).
    destruct (Z.ltb_spec (at_ (S i1)) (at_ (j1 - 1)%nat)) as [Hgo|Hend].
    + destruct (IH l' (S i1) (j1 - 1)%nat) as (l2 & i2 & j2 & E & Hp2 & Hpt2 & Hb1 & Hb2 & Hb3 & _).
      * by rewrite Hl'. * by rewrite Hperm. * lia. * done.
      * split; [exists (j1 - 1)%nat, y|exists i1, z]; (split; [lia|done]).
      * lia.
      * exists l2, i2, j2. split; [exact E|]. split; [by rewrite Hp2|]. split; [done|]. rewrite Hl' in Hb1.
        do 3 (split; [lia|]). intros _. lia.
    + exists l', (S i1), (j1 - 1)%nat. split; [done|]. split; [done|]. split; [done|]. do 3 (split; [lia|]). intros _. lia.
  - cbn [obind]. rewrite iadd_ok by (apply (fits_int _ _ Hfit); lia). cbn [obind].
    replace (at_ i1 + 1) with (at_ (S i1)) by lia. rewrite (proj2 (Z.ltb_ge _ _)) by lia.
    assert (j1 = S i1) as -> by lia. replace (S i1 - 1)%nat with i1 in * by lia. simplify_eq.
    exists l, (S i1), i1. split; [done|]. split; [done|]. split; [|do 3 (split; [lia|]); intros _; lia].
    constructor; intros k w Hk Hw; (destruct (decide (k = i1)) as [->|]; [by simplify_eq|]).
    + apply (pt_below _ _ _ Hpt1 k); [lia|done].
    + apply (pt_above _ _ _ Hpt1 k); [lia|done].
Qed.
End Partition.

(** ** Quicksort *)

(** The parts of a partitioned list may be sorted apart. *)
Lemma sorted_parts x l i j a b :
  P x -> Forall P l -> parted x l i j -> (j <= i <= S j)%nat -> (i <= length l)%nat ->
  a ≡ₚ take j l -> b ≡ₚ drop i l -> StronglySorted (le cmp) a -> StronglySorted (le cmp) b ->
  let m := take (i - j) (drop j l) in
  a ++ m ++ b ≡ₚ l /\ StronglySorted (le cmp) (a ++ m ++ b).
Proof.
  intros Hx HP [Hb Ha] Hij Hi Hpa Hpb Hsa Hsb m.
  assert (Hl : take j l ++ m ++ drop i l = l).
  { unfold m. rewrite <- (take_drop j l) at 4. f_equal. rewrite <- (take_drop (i - j) (drop j l)) at 2.
    rewrite drop_drop. do 2 f_equal. lia. }
  split; [by rewrite Hpa, Hpb, Hl|].
  assert (H1 : forall y, y ∈ a -> P y /\ le cmp y x).
  { intros y Hy. rewrite Hpa in Hy. apply list_elem_of_lookup in Hy as [k [Hk Hlt]%lookup_take_Some].
    split; [by eapply Forall_lookup_1|]. apply (Hb k); [lia|done]. }
  assert (H3 : forall y, y ∈ b -> P y /\ le cmp x y).
  { intros y Hy. rewrite Hpb in Hy. apply list_elem_of_lookup in Hy as [k Hk]. rewrite lookup_drop in Hk.
    split; [by eapply Forall_lookup_1|]. apply (Ha (i + k)%nat); [lia|done]. }
  assert (H2 : forall y, y ∈ m -> P y /\ le cmp y x /\ le cmp x y).
  { intros y Hy. apply list_elem_of_lookup in Hy as [k [Hk Hlt]%lookup_take_Some]. rewrite lookup_drop in Hk.
    split; [by eapply Forall_lookup_1|]. split; [apply (Hb (j + k)%nat)|apply (Ha (j + k)%nat)]; (lia || done). }
  assert (Htr : forall y z, P y -> P z -> le cmp y x -> le cmp x z -> le cmp y z) by (intros; by eapply (le_trans y x z)).
  apply StronglySorted_app. split; [|split; [done|apply StronglySorted_app; split; [|split; [|done]]]].
  - intros y z Hy%H1 [Hz%H2|Hz%H3]%elem_of_app; apply Htr; tauto.
  - intros y z Hy%H2 Hz%H3. apply Htr; tauto.
  - assert (length m <= 1)%nat by (unfold m; rewrite length_take; lia).
    destruct m as [|y [|? ?]]; [constructor|by repeat constructor|simpl in *; lia].
Qed.

Lemma sorted_short (l : list A) : (length l <= 1)%nat -> StronglySorted (le cmp) l.
Proof. destruct l as [|y [|? ?]]; simpl; intros; [constructor|by repeat constructor|lia]. Qed.

(** A part is sorted unless it has at most one item. *)
Definition sort_part (fuel : nat) (array : list A) (start limit : Z) : option (list A) :=
  if start <? limit - 1 then subQuickSort cmp itemSize fuel array start limit else Some array.

Definition sorts_part (p q l : list A) (r : option (list A)) : Prop :=
  exists l', r = Some (p ++ l' ++ q) /\ l' ≡ₚ l /\ StronglySorted (le cmp) l'.

Lemma subQuickSort_spec fuel p l q :
  fits (length p + length l) -> Forall P l -> (length l < fuel)%nat ->
  sorts_part p q l (subQuickSort cmp itemSize fuel (p ++ l ++ q) (Z.of_nat (length p)) (Z.of_nat (length p + length l))).
Proof.
  revert p l q. induction fuel as [|fuel IH]; intros p l q Hfit HP Hfuel; [lia|].
  assert (Hpart : forall p' l' q', (length l' < length l)%nat -> fits (length p' + length l') -> Forall P l' ->
    sorts_part p' q' l' (sort_part fuel (p' ++ l' ++ q') (Z.of_nat (length p')) (Z.of_nat (length p' + length l')))).
  { intros p' l' q' Hl' Hf' HP'. unfold sort_part. case_match eqn:E; [apply IH; [done|done|lia]|].
    apply Z.ltb_ge in E. exists l'. split; [done|]. split; [done|]. apply sorted_short. lia. }
  cbn [subQuickSort]. unfold MIN_QSORT. rewrite iadd_ok by (apply (fits_int _ _ Hfit); lia). cbn [obind].
  rewrite Z.geb_leb. destruct (Z.leb_spec (Z.of_nat (length p + length l)) (Z.of_nat (length p) + 9)) as [Hs|Hs].
  { rewrite (fits_mul _ _ Hfit) by lia. cbn [obind]. rewrite isub_ok by (apply (fits_int _ _ Hfit); lia). cbn [obind].
    replace (Z.of_nat (length p + length l) - Z.of_nat (length p)) with (Z.of_nat (length l)) by lia.
    destruct (doInsertionSort_spec p l q Hfit HP) as (l' & -> & [Hperm Hsort _]). by exists l'. }
  rewrite iadd_ok by (apply (fits_int _ _ Hfit); lia). rewrite idiv_ok by (done || (apply (fits_int _ _ Hfit); lia)).
  cbn [obind]. set (mid := (length l / 2)%nat).
  assert (Hmid : (mid < length l)%nat) by (apply Nat.Div0.div_lt_upper_bound; lia).
  assert (Hmid2 : (2 * mid <= length l < 2 * mid + 2)%nat)
    by (pose proof (Nat.div_mod_eq (length l) 2); pose proof (Nat.mod_upper_bound (length l) 2); unfold mid; lia).
  assert (Z.quot (Z.of_nat (length p) + Z.of_nat (length p + length l)) 2 = Z.of_nat (length p + mid)) as ->
    by (clearbody mid; dlia).
  destruct (lookup_lt_is_Some_2 l mid Hmid) as [x Hx]. rewrite (item_at p q l mid x Hfit Hx). cbn [obind].
  assert (HPx : P x) by by eapply Forall_lookup_1.
  destruct (partition_spec p q x HPx fuel l 0 (length l)) as (l1 & i & j & Hpar & Hperm & Hpt & Hi & Hj & Hij & Hgo);
    [done|done|lia| | |lia|].
  { constructor; intros k y Hk Hy; [lia|]. apply lookup_lt_Some in Hy. lia. }
  { split; exists mid, x; (split; [lia|split; [done|by apply le_refl]]). }
  rewrite Nat.add_0_r in Hpar. rewrite Hpar. clear Hpar. cbn [obind].
  destruct Hgo as [Hi0 Hjl]; [exists mid, x; repeat (split; [lia || done|]); split; by apply le_refl|].
  assert (Hl1 : length l1 = length l) by by rewrite Hperm.
  assert (HP1 : Forall P l1) by by rewrite Hperm.
  rewrite !isub_ok by (apply (fits_int _ _ Hfit); lia). cbn [obind].
  set (m := take (i - j) (drop j l1)).
  assert (Hm : length m = (i - j)%nat) by (unfold m; rewrite length_take, length_drop; lia).
  assert (Hla : length (take j l1) = j) by (rewrite length_take; lia).
  assert (Hlb : length (drop i l1) = (length l - i)%nat) by (rewrite length_drop; lia).
  assert (Hsplit : l1 = take j l1 ++ m ++ drop i l1).
  { unfold m. rewrite <- (take_drop j l1) at 1. f_equal. rewrite <- (take_drop (i - j) (drop j l1)) at 1.
    rewrite drop_drop. do 2 f_equal. lia. }
  assert (HPa : Forall P (take j l1)) by by apply Forall_take. assert (HPb : Forall P (drop i l1)) by by apply Forall_drop.
  assert (Harr : p ++ l1 ++ q = p ++ take j l1 ++ m ++ drop i l1 ++ q)
    by (transitivity (p ++ (take j l1 ++ m ++ drop i l1) ++ q); [by rewrite <- Hsplit|by rewrite <- !app_assoc]).
  assert (Hfa : fits (length p + length (take j l1))) by (apply (fits_le _ _ Hfit); lia).
  destruct (Z.ltb_spec (Z.of_nat (length p + j) - Z.of_nat (length p)) (Z.of_nat (length p + length l) - Z.of_nat (length p + i))).
  - destruct (Hpart p (take j l1) (m ++ drop i l1 ++ q)) as (a & Ea & Hpa & Hsa); [lia|done|done|].
    assert (Hal : length a = j) by (by rewrite Hpa).
    destruct (Hpart (p ++ a ++ m) (drop i l1) q) as (b & Eb & Hpb & Hsb);
      [lia|rewrite !length_app; apply (fits_le _ _ Hfit); lia|done|].
    destruct (sorted_parts x l1 i j a b) as [Hp' Hs']; try done; try lia.
    rewrite ?isub_ok by (apply (fits_int _ _ Hfit); lia). cbn [obind].
    unfold sort_part in Ea. rewrite Hla in Ea. rewrite Harr, Ea. cbn [obind].
    rewrite ?isub_ok by (apply (fits_int _ _ Hfit); lia). cbn [obind].
    unfold sort_part in Eb. rewrite <- !app_assoc, !length_app, Hal, Hm, Hlb in Eb.
    replace (length p + (j + (i - j)))%nat with (length p + i)%nat in Eb by lia.
    replace (length p + i + (length l - i))%nat with (length p + length l)%nat in Eb by lia. rewrite Eb.
    exists (a ++ m ++ b). split; [by rewrite <- !app_assoc|]. split; [by rewrite <- Hperm|done].
  - destruct (Hpart (p ++ take j l1 ++ m) (drop i l1) q) as (b & Eb & Hpb & Hsb);
      [lia|rewrite !length_app; apply (fits_le _ _ Hfit); lia|done|].
    destruct (Hpart p (take j l1) (m ++ b ++ q)) as (a & Ea & Hpa & Hsa); [lia|done|done|].
    destruct (sorted_parts x l1 i j a b) as [Hp' Hs']; try done; try lia.
    rewrite ?isub_ok by (apply (fits_int _ _ Hfit); lia). cbn [obind].
    unfold sort_part in Eb. rewrite <- !app_assoc, !length_app, Hla, Hm, Hlb in Eb.
    replace (length p + (j + (i - j)))%nat with (length p + i)%nat in Eb by lia.
    replace (length p + i + (length l - i))%nat with (length p + length l)%nat in Eb by lia.
    rewrite Harr, Eb. cbn [obind].
    rewrite ?isub_ok by (apply (fits_int _ _ Hfit); lia). cbn [obind].
    unfold sort_part in Ea. rewrite Hla in Ea. rewrite Ea.
    exists (a ++ m ++ b). split; [by rewrite <- !app_assoc|]. split; [by rewrite <- Hperm|done].
Qed.

(** ** What the functions promise *)

(** The first [n] items are sorted, in a stable way when asked for; the others
    are kept. *)
Record sorted_array (stable : bool) (array : list A) (n : nat) (array' : list A) : Prop := {
  sa_rest : drop n array' = drop n array;
  sa_perm : take n array' ≡ₚ take n array;
  sa_sorted : StronglySorted (le cmp) (take n array');
  sa_stable z : stable = true -> P z ->
    filter (fun y => same cmp z y = true) (take n array') = filter (fun y => same cmp z y = true) (take n array)
}.

Lemma sorted_array_app stable l q l' :
  l' ≡ₚ l -> StronglySorted (le cmp) l' ->
  (stable = true -> forall z, P z -> filter (fun y => same cmp z y = true) l' = filter (fun y => same cmp z y = true) l) ->
  sorted_array stable (l ++ q) (length l) (l' ++ q).
Proof.
  intros Hp Hs Hf. assert (Hl : length l' = length l) by by rewrite Hp.
  constructor; rewrite ?take_app_length, ?drop_app_length; rewrite <- Hl; rewrite ?take_app_length, ?drop_app_length; try done.
  intros z Hst Hz. by apply Hf.
Qed.

Lemma sorted_short_array stable array n : (n <= 1)%nat -> sorted_array stable array n array.
Proof. intros Hn. constructor; try done. apply sorted_short. rewrite length_take. lia. Qed.

Lemma sortArray_spec (array : list A) (n : nat) (stable : bool) (status : UErrorCode) :
  U_SUCCESS status = true -> (n <= length array)%nat -> fits n -> 2 * itemSize <= INT32_MAX -> Forall P (take n array) ->
  exists array' status', uprv_sortArray cmp itemSize array (Z.of_nat n) stable status = Some (array', status') /\
    ((status' = status /\ sorted_array stable array n array') \/
     (status' = U_MEMORY_ALLOCATION_ERROR /\ array' = array /\ STACK_ITEM_SIZE < itemSize)).
Proof.
  intros Hst Hn Hfit H2 HP. unfold uprv_sortArray. rewrite U_FAILURE_SUCCESS, Hst. cbn [negb].
  pose proof Hfit as (Hpos & _). rewrite (proj2 (Z.ltb_ge _ 0)), (proj2 (Z.leb_gt itemSize 0)) by lia. cbn [orb].
  destruct (Z.leb_spec (Z.of_nat n) 1).
  { exists array, status. split; [done|]. left. split; [done|]. apply sorted_short_array. lia. }
  rewrite <- (take_drop n array). set (l := take n array) in *. set (q := drop n array).
  assert (Hl : length l = n) by (unfold l; rewrite length_take; lia). clearbody l q. subst n.
  assert (Hmem : forall size, intermediate itemSize size = false -> STACK_ITEM_SIZE < itemSize).
  { intros size [Hs _]%orb_false_iff. by apply Z.leb_gt in Hs. }
  destruct (_ || stable) eqn:Ealg.
  - unfold insertionSort. destruct (intermediate itemSize itemSize) eqn:Ei; [|eauto 10].
    destruct (doInsertionSort_spec [] l q) as (l' & E & [Hp Hs Hf]); [done|done|]. cbn [app length] in E.
    change (Z.of_nat 0) with 0 in E. rewrite E. cbn [obind]. do 2 eexists. split; [reflexivity|]. left. split; [done|]. apply sorted_array_app; auto.
  - apply orb_false_iff in Ealg as [_ ->]. unfold quickSort.
    rewrite imul_ok by (unfold is_int32, INT32_MIN, INT32_MAX in *; lia). cbn [obind].
    destruct (intermediate itemSize _) eqn:Ei; [|eauto 10].
    destruct (subQuickSort_spec (S (Z.to_nat (Z.of_nat (length l)))) [] l q) as (l' & E & Hp & Hs); [done|done|lia|].
    cbn [app length Nat.add] in E. change (Z.of_nat 0) with 0 in E. rewrite E. cbn [obind].
    do 2 eexists. split; [reflexivity|]. left. split; [done|]. by apply sorted_array_app.
Qed.
End Correctness.

(** C21: [uprv_sortArray] sorts the first items of an array with any comparator
    that orders them, keeps the items after them, keeps the order of equal
    items when the sort is to be stable, and ends without leaving the array or
    overflowing; it fails only when it cannot allocate a large intermediate
    item, and then leaves the array alone. *)
Theorem sortArray_correct {A} (cmp : A -> A -> I32) (P : A -> Prop) {H : Comparator cmp P} {alloc : Allocator Z}
    (itemSize : Z) (array : list A) (n : nat) (stable : bool) (status : UErrorCode) :
  U_SUCCESS status = true -> (n <= length array)%nat -> fits itemSize n -> 2 * itemSize <= INT32_MAX ->
  Forall P (take n array) ->
  exists array' status', uprv_sortArray cmp itemSize array (Z.of_nat n) stable status = Some (array', status') /\
    ((status' = status /\ sorted_array (cmp := cmp) (P := P) stable array n array') \/
     (status' = U_MEMORY_ALLOCATION_ERROR /\ array' = array /\ STACK_ITEM_SIZE < itemSize)).
Proof. apply sortArray_spec. Qed.

(** Twelve unsigned numbers, of which ten are sorted. *)
Definition sample : list Z := [5; 4294967295; 3; 9; 1; 1; 2; 8; 7; 4; 6; 0].

Lemma sortArray_correct_witness :
  (U_SUCCESS U_ZERO_ERROR = true /\ (10 <= length sample)%nat /\ fits 4 10 /\ 2 * 4 <= INT32_MAX /\
   Forall (fun _ => True) (take 10 sample)) /\
  exists array' status',
    uprv_sortArray (alloc := zero_allocator) uprv_uint32Comparator 4 sample (Z.of_nat 10) false U_ZERO_ERROR =
      Some (array', status') /\
    ((status' = U_ZERO_ERROR /\
      sorted_array (cmp := uprv_uint32Comparator) (P := fun _ => True) false sample 10 array') \/
     (status' = U_MEMORY_ALLOCATION_ERROR /\ array' = sample /\ STACK_ITEM_SIZE < 4)).
Proof.
  assert (H1 : fits 4 10) by (vm_compute; intuition discriminate).
  assert (H2 : Forall (fun _ => True) (take 10 sample)) by by apply Forall_forall.
  split; [split; [reflexivity|split; [vm_compute; lia|split; [exact H1|split; [vm_compute; discriminate|exact H2]]]]|].
  apply (sortArray_correct (alloc := zero_allocator) uprv_uint32Comparator (fun _ => True) 4 sample 10 false U_ZERO_ERROR);
    [reflexivity|vm_compute; lia|exact H1|vm_compute; discriminate|exact H2].
Defined.

End UArrSort.
