(* ===== verification/UVectorSort.v ===== *)
(** * Sorting a UVector (src/common/uvector.cpp)

    [sorti], [sort] and [sortWithUComparator] hand the elements to
    [uprv_sortArray], with the comparator for integers, the comparator of the
    caller, and the comparator of the caller in a stable sort. *)
From S2P Require Import Prelude Int32 UVector UArrSort.
Local Open Scope Z_scope.

Module UVectorSort.
Import UVector UArrSort.

Section Definitions.
Context {A : Type} `{EqDecision A} {alloc : Allocator Z}.

(** [sizeof(UElement)] *)
Definition element_size : Z := 8.

Definition sortComparator (compare : UElement A -> UElement A -> I32) (left right : UElement A) : I32 :=
  compare left right.

Definition sortiComparator (left right : UElement A) : I32 :=
  let! e1 := integer left in
  let! e2 := integer right in
  Some (if e1 <? e2 then -1 else if e1 =? e2 then 0 else 1).

Definition sort_elements (v : UVector A) (cmp : UElement A -> UElement A -> I32) (stable : bool) (ec : UErrorCode) :
    option (UVector A * UErrorCode) :=
  if U_SUCCESS ec then
    let! '(elements, ec) := uprv_sortArray cmp element_size v.(elements) v.(count) stable ec in
    Some (set_elements v elements, ec)
  else Some (v, ec).

Definition sorti (v : UVector A) (ec : UErrorCode) : option (UVector A * UErrorCode) :=
  sort_elements v sortiComparator false ec.
Definition sort (v : UVector A) (compare : UElement A -> UElement A -> I32) (ec : UErrorCode) :
    option (UVector A * UErrorCode) :=
  sort_elements v (sortComparator compare) false ec.
Definition sortWithUComparator (v : UVector A) (compare : UElement A -> UElement A -> I32) (ec : UErrorCode) :
    option (UVector A * UErrorCode) :=
  sort_elements v compare true ec.
End Definitions.

(** ** Correctness *)

Definition is_integer {A} (e : UElement A) : Prop := exists n, integer e = Some n.

#[export] Instance sorti_comparator {A} : Comparator (sortiComparator (A := A)) is_integer.
Proof.
  constructor.
  - intros x y [a Ha] [b Hb]. unfold sortiComparator. rewrite Ha, Hb. cbn [obind]. eauto.
  - intros x y d e [a Ha] [b Hb]. unfold sortiComparator. rewrite Ha, Hb. cbn [obind].
    zcases; intros [= <-] [= <-]; lia.
  - intros x y z d e f [a Ha] [b Hb] [c Hc]. unfold sortiComparator. rewrite Ha, Hb, Hc. cbn [obind].
    zcases; intros [= <-] [= <-] [= <-]; lia.
Qed.

Section Correctness.
Context {A : Type} `{EqDecision A} {alloc : Allocator Z}.
Context (cmp : UElement A -> UElement A -> I32) {P : UElement A -> Prop} {H : Comparator cmp P}.

(** The cells of a vector fit the offsets of the sort. *)
Lemma fits_count (v : UVector A) : wf v -> fits element_size (Z.to_nat (count v)).
Proof.
  intros [Hc Hl Hm]. unfold fits, element_size, MIN_QSORT, MAX_CELLS, INT32_MAX in *.
  change (2147483647 / 8) with 268435455 in *. lia.
Qed.

(** What a sort of a vector promises. *)
Record vector_sorted (stable : bool) (v v' : UVector A) : Prop := {
  vs_wf : wf v';
  vs_rest : v' = set_elements v v'.(elements);
  vs_perm : contents v' ≡ₚ contents v;
  vs_sorted : StronglySorted (le cmp) (contents v');
  vs_stable z : stable = true -> P z ->
    filter (fun y => same cmp z y = true) (contents v') = filter (fun y => same cmp z y = true) (contents v)
}.

Lemma sort_elements_spec (v : UVector A) (stable : bool) ec :
  U_SUCCESS ec = true -> wf v -> Forall P (contents v) ->
  exists v', sort_elements v cmp stable ec = Some (v', ec) /\ vector_sorted stable v v'.
Proof.
  intros Hec Hwf HP. unfold sort_elements. rewrite Hec. pose proof Hwf as [Hc Hl Hm].
  destruct (sortArray_spec (cmp := cmp) (P := P) element_size (elements v) (Z.to_nat (count v)) stable ec)
    as (e & ec' & E & Hres); [done|lia|by apply fits_count|done|done|].
  rewrite Z2Nat.id in E by lia. rewrite E. cbn [obind].
  destruct Hres as [[-> [Hrest Hperm Hsort Hst]]|(_ & _ & Hbig)]; [|unfold STACK_ITEM_SIZE, element_size in Hbig; lia].
  exists (set_elements v e). split; [done|].
  assert (Hlen : length e = length (elements v)).
  { rewrite <- (take_drop (Z.to_nat (count v)) e), <- (take_drop (Z.to_nat (count v)) (elements v)), !length_app.
    by rewrite Hrest, Hperm. }
  constructor; try done. constructor; cbn; [done|by rewrite Hlen|done].
Qed.
End Correctness.

(** The order of the values. *)
Definition integer_le {A} (x y : UElement A) : Prop := exists a b, integer x = Some a /\ integer y = Some b /\ a <= b.

Lemma sorti_by_value {A} (x y : UElement A) : le sortiComparator x y -> integer_le x y.
Proof.
  intros (d & Hd & Hle). unfold sortiComparator in Hd. unfold integer_le. destruct (integer x) as [a|], (integer y) as [b|]; try done.
  cbn [obind] in Hd. exists a, b. split; [done|]. split; [done|]. revert Hd. zcases; intros [= <-]; lia.
Qed.

Lemma sorted_by_value {A} (l : list (UElement A)) : StronglySorted (le sortiComparator) l -> StronglySorted integer_le l.
Proof. induction 1 as [|x l Hl IH Hx]; constructor; [done|]. eapply Forall_impl; [exact Hx|apply sorti_by_value]. Qed.

(** C22: [sorti] sorts a vector of integers into the order of their values, [sort]
    any vector by its comparator and [sortWithUComparator] by its comparator
    and keeping the order of equal elements, for a comparator that orders the
    elements; the vector stays well-formed with the same elements, keeps its
    other members and deletes nothing, and the error code stays as it is. *)
Theorem uvector_sort_correct {A} `{EqDecision A} {alloc : Allocator Z} (v : UVector A)
    (compare : UElement A -> UElement A -> I32) (P : UElement A -> Prop) {C : Comparator compare P} ec :
  U_SUCCESS ec = true -> wf v ->
  (Forall is_integer (contents v) ->
    exists v', sorti v ec = Some (v', ec) /\ StronglySorted integer_le (contents v') /\
    vector_sorted sortiComparator (P := is_integer) false v v') /\
  (Forall P (contents v) ->
    (exists v', sort v compare ec = Some (v', ec) /\ vector_sorted compare (P := P) false v v') /\
    exists v', sortWithUComparator v compare ec = Some (v', ec) /\ vector_sorted compare (P := P) true v v').
Proof.
  intros Hec Hwf. split; [|split].
  - intros Hi. destruct (sort_elements_spec sortiComparator v false ec Hec Hwf Hi) as (v' & E & Hs). exists v'. split; [done|]. split; [|done].
    by apply sorted_by_value, Hs.
  - by apply (sort_elements_spec (sortComparator compare)).
  - by apply (sort_elements_spec compare).
Qed.

(** A vector of three integers in a block of four. *)
Definition sample : UVector nat :=
  mk 3 4 [Integer 7; Null; Integer (-2); Integer 0] false None [].

Lemma uvector_sort_correct_witness :
  (U_SUCCESS U_ZERO_ERROR = true /\ wf sample /\ Forall is_integer (contents sample)) /\
  (exists v', sorti (alloc := zero_allocator) sample U_ZERO_ERROR = Some (v', U_ZERO_ERROR) /\
     contents v' = [Integer (-2); Null; Integer 7] /\ StronglySorted integer_le (contents v') /\
     vector_sorted sortiComparator (P := is_integer) false sample v') /\
  (exists v', sort (alloc := zero_allocator) sample sortiComparator U_ZERO_ERROR = Some (v', U_ZERO_ERROR) /\
     vector_sorted sortiComparator (P := is_integer) false sample v') /\
  exists v', sortWithUComparator (alloc := zero_allocator) sample sortiComparator U_ZERO_ERROR =
      Some (v', U_ZERO_ERROR) /\
    vector_sorted sortiComparator (P := is_integer) true sample v'.
Proof.
  assert (Hwf : wf sample) by (constructor; vm_compute; intuition discriminate).
  assert (Hi : Forall is_integer (contents sample)) by (repeat constructor; eexists; reflexivity).
  split; [split; [reflexivity|split; [exact Hwf|exact Hi]]|].
  destruct (uvector_sort_correct (alloc := zero_allocator) sample sortiComparator is_integer U_ZERO_ERROR eq_refl Hwf)
    as [H1 H2].
  split; [|exact (H2 Hi)]. destruct (H1 Hi) as (v' & E & Hs & Hv). exists v'. split; [exact E|]. split; [|split; [exact Hs|exact Hv]].
  vm_compute in E. injection E as <-. reflexivity.
Defined.
End UVectorSort.
