(* ===== verification/UHash.v ===== *)
(** * The hash table (src/common/uhash.c)

    All elements are in one array; collisions are resolved by double hashing: a
    slot is searched from [hashcode % length] in steps of a second hash.  The
    keys and values are the tokens of UVector.v; the object of a [Pointer]
    stands for its address.  A slot that has never been used is EMPTY, one
    whose element has been removed is DELETED; both have negative hash codes.
    The table may own keys and values through deleters; the model records what
    is handed to a deleter, in order, in the ghost field [freed].

    A function that returns a pointer to an element returns the index of the
    element here, [None] inside the result being NULL.  U_ASSERT does nothing
    in a release build. *)
From S2P Require Import Prelude Int32 UVector UString.
Local Open Scope Z_scope.

Module UHash.
Import UVector.

Definition PRIMES : list Z :=
  [13; 31; 61; 127; 251; 509; 1021; 2039; 4093; 8191; 16381; 32749;
   65521; 131071; 262139; 524287; 1048573; 2097143; 4194301; 8388593;
   16777213; 33554393; 67108859; 134217689; 268435399; 536870909;
   1073741789; 2147483647].

Definition PRIMES_LENGTH : Z := 28.
Definition DEFAULT_PRIME_INDEX : Z := 3.

(** A [float] between 0 and 1, [significand / 2 ^ scale]. *)
Record float := mkfloat { significand : Z; scale : Z }.

#[export] Instance float_eq_dec : EqDecision float.
Proof. solve_decision. Defined.

Inductive UHashResizePolicy := U_GROW | U_GROW_AND_SHRINK | U_FIXED.

(** [0.0F], [0.1F], [0.5F] and [1.0F]: [0.1F] is the float nearest to 1/10. *)
Definition RESIZE_POLICY_RATIO_TABLE (policy : UHashResizePolicy) : float * float :=
  match policy with
  | U_GROW => (mkfloat 0 0, mkfloat 1 1)
  | U_GROW_AND_SHRINK => (mkfloat 13421773 27, mkfloat 1 1)
  | U_FIXED => (mkfloat 0 0, mkfloat 1 0)
  end.

(** [m], not negative, rounded to 24 significant bits, ties to even. *)
Definition round_float (m : Z) : Z :=
  if Z.log2 m <? 24 then m
  else
    let b := 2 ^ (Z.log2 m - 23) in
    let q := m / b in
    let r := m mod b in
    (if (2 * r <? b) || ((2 * r =? b) && Z.even q) then q else q + 1) * b.

(** [(int32_t)(length * ratio)] *)
Definition water_mark (length : Z) (ratio : float) : I32 :=
  checked (round_float (round_float length * ratio.(significand)) / 2 ^ ratio.(scale)).

Definition HASH_DELETED : Z := INT32_MIN.
Definition HASH_EMPTY : Z := HASH_DELETED + 1.
Definition IS_EMPTY_OR_DELETED (x : Z) : bool := x <? 0.

Definition HINT_KEY_POINTER : Z := 1.
Definition HINT_VALUE_POINTER : Z := 2.

(** A pointer to a function: pointers are compared by their addresses. *)
Record fnptr (T : Type) := mkfn { address : Z; code : T }.
Arguments mkfn {T} _ _. Arguments address {T} _. Arguments code {T} _.

Section Table.
Context {A : Type} `{EqDecision A}.

Definition UHashTok : Type := UElement A.
Definition emptytok : UHashTok := Null.

Record UHashElement := mkElement { hashcode : Z; value : UHashTok; key : UHashTok }.

Record UHashtable := mkTable {
  elements : list UHashElement;
  keyHasher : UHashTok -> Z;
  keyComparator : fnptr (UHashTok -> UHashTok -> bool);
  valueComparator : option (fnptr (UHashTok -> UHashTok -> bool));
  keyDeleter : bool;
  valueDeleter : bool;
  count : Z;
  length : Z;
  highWaterMark : Z;
  lowWaterMark : Z;
  highWaterRatio : float;
  lowWaterRatio : float;
  primeIndex : Z;
  freed : list UHashTok
}.

Context {alloc : Allocator UHashElement}.

Definition set_elements (h : UHashtable) (e : list UHashElement) (count : Z) : UHashtable :=
  mkTable e h.(keyHasher) h.(keyComparator) h.(valueComparator) h.(keyDeleter) h.(valueDeleter)
    count h.(length) h.(highWaterMark) h.(lowWaterMark) h.(highWaterRatio) h.(lowWaterRatio) h.(primeIndex) h.(freed).
Definition set_freed (h : UHashtable) (l : list UHashTok) : UHashtable :=
  mkTable h.(elements) h.(keyHasher) h.(keyComparator) h.(valueComparator) h.(keyDeleter) h.(valueDeleter)
    h.(count) h.(length) h.(highWaterMark) h.(lowWaterMark) h.(highWaterRatio) h.(lowWaterRatio) h.(primeIndex) l.
Definition set_block (h : UHashtable) (e : list UHashElement) (len idx : Z) : UHashtable :=
  mkTable e h.(keyHasher) h.(keyComparator) h.(valueComparator) h.(keyDeleter) h.(valueDeleter)
    h.(count) len h.(highWaterMark) h.(lowWaterMark) h.(highWaterRatio) h.(lowWaterRatio) idx h.(freed).
Definition set_marks (h : UHashtable) (high low : Z) : UHashtable :=
  mkTable h.(elements) h.(keyHasher) h.(keyComparator) h.(valueComparator) h.(keyDeleter) h.(valueDeleter)
    h.(count) h.(length) high low h.(highWaterRatio) h.(lowWaterRatio) h.(primeIndex) h.(freed).

(** [if (deleter != NULL && condition) deleter(tok);] *)
Definition free_if (deleter condition : bool) (tok : UHashTok) (h : UHashtable) : UHashtable :=
  if deleter && condition then set_freed h (h.(freed) ++ [tok]) else h.

Definition HASH_DELETE_KEY_VALUE (h : UHashtable) (k v : UHashTok) : UHashtable :=
  let h := free_if h.(keyDeleter) (pointer_nonnull k) k h in
  free_if h.(valueDeleter) (pointer_nonnull v) v h.

(** ** Elements *)

(** The hints say which member of a token is copied; a token is copied whole
    here. *)
Definition _uhash_setElement (h : UHashtable) (i hashcode : Z) (k v : UHashTok) : option (UHashTok * UHashtable) :=
  let! e := aget h.(elements) i in
  let oldValue := e.(value) in
  let h := free_if h.(keyDeleter) (pointer_nonnull e.(key) && negb (bool_decide (e.(key) = k))) e.(key) h in
  let h := free_if h.(valueDeleter) (pointer_nonnull oldValue && negb (bool_decide (oldValue = v))) oldValue h in
  let oldValue := if h.(valueDeleter) then Null else oldValue in
  let! elements := aset h.(elements) i (mkElement hashcode v k) in
  Some (oldValue, set_elements h elements h.(count)).

Definition _uhash_internalRemoveElement (h : UHashtable) (i : Z) : option (UHashTok * UHashtable) :=
  let! n := h.(count) -! 1 in
  _uhash_setElement (set_elements h h.(elements) n) i HASH_DELETED emptytok emptytok.

(** ** Searching *)

(** The loop from [theIndex]; gives the last slot visited and its hash code, the
    first DELETED slot met, and whether the key has been found there. *)
Fixpoint find_loop (fuel : nat) (h : UHashtable) (k : UHashTok) (code0 startIndex theIndex firstDeleted jump : Z) :
    option (bool * Z * Z * Z) :=
  match fuel with
  | O => None
  | S fuel' =>
      let! e := aget h.(elements) theIndex in
      let tableHash := e.(hashcode) in
      if (tableHash =? code0) && h.(keyComparator).(code) k e.(key) then Some (true, theIndex, tableHash, firstDeleted)
      else if negb (tableHash =? code0) && (tableHash =? HASH_EMPTY) then Some (false, theIndex, tableHash, firstDeleted)
      else
        let firstDeleted :=
          if negb (tableHash =? code0) && IS_EMPTY_OR_DELETED tableHash && (firstDeleted <? 0)
          then theIndex else firstDeleted in
        let! jump := (if jump =? 0 then code0 %! (h.(length) -! 1) +! 1 else Some jump) in
        let! theIndex := (theIndex +! jump) %! h.(length) in
        if negb (theIndex =? startIndex)
        then find_loop fuel' h k code0 startIndex theIndex firstDeleted jump
        else Some (false, theIndex, tableHash, firstDeleted)
  end.

Definition _uhash_find (h : UHashtable) (k : UHashTok) (code0 : Z) : option (option Z) :=
  let code0 := Z.land code0 0x7FFFFFFF in
  let! startIndex := Z.lxor code0 0x4000000 %! h.(length) in
  let! '(found, theIndex, tableHash, firstDeleted) :=
    find_loop (Z.to_nat h.(length)) h k code0 startIndex startIndex (-1) 0 in
  if found : bool then Some (Some theIndex)
  else if firstDeleted >=? 0 then Some (Some firstDeleted)
  else if negb (tableHash =? HASH_EMPTY) then Some None
  else Some (Some theIndex).

(** ** Allocation *)

Definition empty_element : UHashElement := mkElement HASH_EMPTY Null Null.

Definition _uhash_allocate (h : UHashtable) (idx : Z) (status : UErrorCode) : option (UHashtable * UErrorCode) :=
  if U_FAILURE status then Some (h, status)
  else
    let! len := aget PRIMES idx in
    match uprv_malloc len with
    | None => Some (set_block h [] len idx, U_MEMORY_ALLOCATION_ERROR)
    | Some block =>
        let h := set_block h (map (fun _ => empty_element) block) len idx in
        let h := set_elements h h.(elements) 0 in
        let! low := water_mark len h.(lowWaterRatio) in
        let! high := water_mark len h.(highWaterRatio) in
        Some (set_marks h high low, status)
    end.

Fixpoint rehash_loop (n : nat) (old : list UHashElement) (h : UHashtable) : option UHashtable :=
  match n with
  | O => Some h
  | S i =>
      let! o := aget old (Z.of_nat i) in
      if negb (IS_EMPTY_OR_DELETED o.(hashcode)) then
        let! slot := _uhash_find h o.(key) o.(hashcode) in
        let! e := slot in
        let! elements := aset h.(elements) e o in
        let! n := h.(count) +! 1 in
        rehash_loop i old (set_elements h elements n)
      else rehash_loop i old h
  end.

Definition _uhash_rehash (h : UHashtable) (status : UErrorCode) : option (UHashtable * UErrorCode) :=
  let old := h.(elements) in
  let oldLength := h.(length) in
  let newPrimeIndex :=
    if h.(count) >? h.(highWaterMark) then
      if h.(primeIndex) + 1 >=? PRIMES_LENGTH then None else Some (h.(primeIndex) + 1)
    else if h.(count) <? h.(lowWaterMark) then
      if h.(primeIndex) - 1 <? 0 then None else Some (h.(primeIndex) - 1)
    else None in
  match newPrimeIndex with
  | None => Some (h, status)
  | Some idx =>
      let! '(h, status) := _uhash_allocate h idx status in
      if U_FAILURE status then Some (set_block h old oldLength h.(primeIndex), status)
      else
        let! h := rehash_loop (Z.to_nat oldLength) old h in
        Some (h, status)
  end.

(** ** Removing and putting *)

Definition _uhash_remove (h : UHashtable) (k : UHashTok) : option (UHashTok * UHashtable) :=
  let! slot := _uhash_find h k (h.(keyHasher) k) in
  let! i := slot in
  let! e := aget h.(elements) i in
  if negb (IS_EMPTY_OR_DELETED e.(hashcode)) then
    let! '(result, h) := _uhash_internalRemoveElement h i in
    if h.(count) <? h.(lowWaterMark) then
      let! '(h, _) := _uhash_rehash h U_ZERO_ERROR in Some (result, h)
    else Some (result, h)
  else Some (emptytok, h).

Definition put_err (h : UHashtable) (k v : UHashTok) (status : UErrorCode) :
    option (UHashTok * UHashtable * UErrorCode) :=
  Some (emptytok, HASH_DELETE_KEY_VALUE h k v, status).

(** The end of [_uhash_put]: there is no error yet and the table has been resized. *)
Definition put_store (h : UHashtable) (k v : UHashTok) (status : UErrorCode) :
    option (UHashTok * UHashtable * UErrorCode) :=
  let code0 := h.(keyHasher) k in
  let! slot := _uhash_find h k code0 in
  let! i := slot in
  let! e := aget h.(elements) i in
  let! n := (if IS_EMPTY_OR_DELETED e.(hashcode) then h.(count) +! 1 else Some h.(count)) in
  if IS_EMPTY_OR_DELETED e.(hashcode) && (n =? h.(length)) then
    put_err (set_elements h h.(elements) (n - 1)) k v U_MEMORY_ALLOCATION_ERROR
  else
    let! '(result, h) := _uhash_setElement (set_elements h h.(elements) n) i (Z.land code0 0x7FFFFFFF) k v in
    Some (result, h, status).

Definition _uhash_put (h : UHashtable) (k v : UHashTok) (hint : Z) (status : UErrorCode) :
    option (UHashTok * UHashtable * UErrorCode) :=
  if U_FAILURE status then put_err h k v status
  else if negb (Z.land hint HINT_VALUE_POINTER =? 0) && negb (pointer_nonnull v) then
    let! '(result, h) := _uhash_remove h k in Some (result, h, status)
  else
    let! '(h, status) :=
      (if h.(count) >? h.(highWaterMark) then _uhash_rehash h status else Some (h, status)) in
    if U_FAILURE status then put_err h k v status else put_store h k v status.

(** ** Opening and closing *)

Definition _uhash_internalSetResizePolicy (h : UHashtable) (policy : UHashResizePolicy) : UHashtable :=
  let '(low, high) := RESIZE_POLICY_RATIO_TABLE policy in
  mkTable h.(elements) h.(keyHasher) h.(keyComparator) h.(valueComparator) h.(keyDeleter) h.(valueDeleter)
    h.(count) h.(length) h.(highWaterMark) h.(lowWaterMark) high low h.(primeIndex) h.(freed).

(** The members that are not assigned are those of [block], the memory given. *)
Definition _uhash_init (block : UHashtable) (keyHash : UHashTok -> Z) (keyComp : fnptr (UHashTok -> UHashTok -> bool))
    (valueComp : option (fnptr (UHashTok -> UHashTok -> bool))) (idx : Z) (status : UErrorCode) :
    option (option UHashtable * UErrorCode) :=
  if U_FAILURE status then Some (None, status)
  else
    let h := mkTable block.(elements) keyHash keyComp valueComp false false block.(count) block.(length)
      block.(highWaterMark) block.(lowWaterMark) block.(highWaterRatio) block.(lowWaterRatio) block.(primeIndex) [] in
    let h := _uhash_internalSetResizePolicy h U_GROW in
    let! '(h, status) := _uhash_allocate h idx status in
    Some (if U_FAILURE status then None else Some h, status).

Definition uhash_init block keyHash keyComp valueComp status :=
  _uhash_init block keyHash keyComp valueComp DEFAULT_PRIME_INDEX status.

(** [block] is the memory that [uprv_malloc] gives for the table itself. *)
Definition _uhash_create (block : option UHashtable) keyHash keyComp valueComp (idx : Z) (status : UErrorCode) :
    option (option UHashtable * UErrorCode) :=
  if U_FAILURE status then Some (None, status)
  else match block with
  | None => Some (None, U_MEMORY_ALLOCATION_ERROR)
  | Some b => _uhash_init b keyHash keyComp valueComp idx status
  end.

Definition uhash_open block keyHash keyComp valueComp status :=
  _uhash_create block keyHash keyComp valueComp DEFAULT_PRIME_INDEX status.

Fixpoint size_loop (fuel : nat) (size i : Z) : option Z :=
  match fuel with
  | O => None
  | S fuel' =>
      if i <? PRIMES_LENGTH - 1 then
        let! p := aget PRIMES i in
        if p <? size then size_loop fuel' size (i + 1) else Some i
      else Some i
  end.

Definition uhash_openSize block keyHash keyComp valueComp (size : Z) (status : UErrorCode) :
    option (option UHashtable * UErrorCode) :=
  let! i := size_loop (S (Z.to_nat PRIMES_LENGTH)) size 0 in
  _uhash_create block keyHash keyComp valueComp i status.

(** The setters give back the old function. *)
Definition uhash_setKeyHasher (h : UHashtable) (fn : UHashTok -> Z) : (UHashTok -> Z) * UHashtable :=
  (h.(keyHasher), mkTable h.(elements) fn h.(keyComparator) h.(valueComparator) h.(keyDeleter) h.(valueDeleter)
    h.(count) h.(length) h.(highWaterMark) h.(lowWaterMark) h.(highWaterRatio) h.(lowWaterRatio) h.(primeIndex) h.(freed)).
Definition uhash_setKeyComparator (h : UHashtable) (fn : fnptr (UHashTok -> UHashTok -> bool)) :
    fnptr (UHashTok -> UHashTok -> bool) * UHashtable :=
  (h.(keyComparator), mkTable h.(elements) h.(keyHasher) fn h.(valueComparator) h.(keyDeleter) h.(valueDeleter)
    h.(count) h.(length) h.(highWaterMark) h.(lowWaterMark) h.(highWaterRatio) h.(lowWaterRatio) h.(primeIndex) h.(freed)).
Definition uhash_setValueComparator (h : UHashtable) (fn : option (fnptr (UHashTok -> UHashTok -> bool))) :
    option (fnptr (UHashTok -> UHashTok -> bool)) * UHashtable :=
  (h.(valueComparator), mkTable h.(elements) h.(keyHasher) h.(keyComparator) fn h.(keyDeleter) h.(valueDeleter)
    h.(count) h.(length) h.(highWaterMark) h.(lowWaterMark) h.(highWaterRatio) h.(lowWaterRatio) h.(primeIndex) h.(freed)).

(** Here, whether there is a deleter; it is an argument of the owner. *)
Definition uhash_setKeyDeleter (h : UHashtable) (b : bool) : UHashtable :=
  mkTable h.(elements) h.(keyHasher) h.(keyComparator) h.(valueComparator) b h.(valueDeleter)
    h.(count) h.(length) h.(highWaterMark) h.(lowWaterMark) h.(highWaterRatio) h.(lowWaterRatio) h.(primeIndex) h.(freed).
Definition uhash_setValueDeleter (h : UHashtable) (b : bool) : UHashtable :=
  mkTable h.(elements) h.(keyHasher) h.(keyComparator) h.(valueComparator) h.(keyDeleter) b
    h.(count) h.(length) h.(highWaterMark) h.(lowWaterMark) h.(highWaterRatio) h.(lowWaterRatio) h.(primeIndex) h.(freed).

Definition uhash_setResizePolicy (h : UHashtable) (policy : UHashResizePolicy) : option UHashtable :=
  let h := _uhash_internalSetResizePolicy h policy in
  let! low := water_mark h.(length) h.(lowWaterRatio) in
  let! high := water_mark h.(length) h.(highWaterRatio) in
  let! '(h, _) := _uhash_rehash (set_marks h high low) U_ZERO_ERROR in
  Some h.

(** ** Reading *)

Definition uhash_count (h : UHashtable) : Z := h.(count).

(** [tok.pointer]; the bytes of an integer do not fill a pointer *)
Definition pointer (tok : UHashTok) : option UHashTok :=
  match tok with Integer _ => None | _ => Some tok end.

Definition find_value (h : UHashtable) (k : UHashTok) : option UHashTok :=
  let! slot := _uhash_find h k (h.(keyHasher) k) in
  let! i := slot in
  let! e := aget h.(elements) i in
  Some e.(value).

Definition uhash_get (h : UHashtable) (k : UHashTok) : option UHashTok :=
  let! v := find_value h k in pointer v.
Definition uhash_iget (h : UHashtable) (k : Z) : option UHashTok :=
  let! v := find_value h (Integer k) in pointer v.
Definition uhash_geti (h : UHashtable) (k : UHashTok) : option Z :=
  let! v := find_value h k in integer v.
Definition uhash_igeti (h : UHashtable) (k : Z) : option Z :=
  let! v := find_value h (Integer k) in integer v.

Definition uhash_find (h : UHashtable) (k : UHashTok) : option (option Z) :=
  let! slot := _uhash_find h k (h.(keyHasher) k) in
  let! i := slot in
  let! e := aget h.(elements) i in
  Some (if IS_EMPTY_OR_DELETED e.(hashcode) then None else Some i).

(** The next element after [pos], from the loop to the end of the array. *)
Fixpoint next_loop (fuel : nat) (h : UHashtable) (i : Z) : option (option Z) :=
  match fuel with
  | O => None
  | S fuel' =>
      if i <? h.(length) then
        let! e := aget h.(elements) i in
        if negb (IS_EMPTY_OR_DELETED e.(hashcode)) then Some (Some i) else next_loop fuel' h (i + 1)
      else Some None
  end.

Definition UHASH_FIRST : Z := -1.

Definition uhash_nextElement (h : UHashtable) (pos : Z) : option (option Z) :=
  next_loop (S (Z.to_nat (h.(length) - pos))) h (pos + 1).

(** ** Writing *)

Definition uhash_put (h : UHashtable) (k v : UHashTok) (status : UErrorCode) :=
  let! '(r, h, status) := _uhash_put h k v (Z.lor HINT_KEY_POINTER HINT_VALUE_POINTER) status in
  let! p := pointer r in Some (p, h, status).
Definition uhash_iput (h : UHashtable) (k : Z) (v : UHashTok) (status : UErrorCode) :=
  let! '(r, h, status) := _uhash_put h (Integer k) v HINT_VALUE_POINTER status in
  let! p := pointer r in Some (p, h, status).
Definition uhash_puti (h : UHashtable) (k : UHashTok) (v : Z) (status : UErrorCode) :=
  let! '(r, h, status) := _uhash_put h k (Integer v) HINT_KEY_POINTER status in
  let! n := integer r in Some (n, h, status).
Definition uhash_iputi (h : UHashtable) (k v : Z) (status : UErrorCode) :=
  let! '(r, h, status) := _uhash_put h (Integer k) (Integer v) 0 status in
  let! n := integer r in Some (n, h, status).

Definition uhash_remove (h : UHashtable) (k : UHashTok) :=
  let! '(r, h) := _uhash_remove h k in let! p := pointer r in Some (p, h).
Definition uhash_iremove (h : UHashtable) (k : Z) :=
  let! '(r, h) := _uhash_remove h (Integer k) in let! p := pointer r in Some (p, h).
Definition uhash_removei (h : UHashtable) (k : UHashTok) :=
  let! '(r, h) := _uhash_remove h k in let! n := integer r in Some (n, h).
Definition uhash_iremovei (h : UHashtable) (k : Z) :=
  let! '(r, h) := _uhash_remove h (Integer k) in let! n := integer r in Some (n, h).

(** The result, [tok.pointer], is not projected: [uhash_removeAll] ignores it. *)
Definition uhash_removeElement (h : UHashtable) (i : Z) : option (UHashTok * UHashtable) :=
  let! e := aget h.(elements) i in
  if negb (IS_EMPTY_OR_DELETED e.(hashcode)) then _uhash_internalRemoveElement h i else Some (Null, h).

Fixpoint removeAll_loop (fuel : nat) (h : UHashtable) (pos : Z) : option UHashtable :=
  match fuel with
  | O => None
  | S fuel' =>
      let! next := uhash_nextElement h pos in
      match next with
      | None => Some h
      | Some i => let! '(_, h) := uhash_removeElement h i in removeAll_loop fuel' h i
      end
  end.

Definition uhash_removeAll (h : UHashtable) : option UHashtable :=
  if negb (h.(count) =? 0) then removeAll_loop (S (Z.to_nat h.(length))) h UHASH_FIRST else Some h.

(** Closing hands the remaining keys and values to the deleters. *)
Fixpoint close_loop (fuel : nat) (h : UHashtable) (pos : Z) : option UHashtable :=
  match fuel with
  | O => None
  | S fuel' =>
      let! next := uhash_nextElement h pos in
      match next with
      | None => Some h
      | Some i =>
          let! e := aget h.(elements) i in
          close_loop fuel' (HASH_DELETE_KEY_VALUE h e.(key) e.(value)) i
      end
  end.

Definition uhash_close (h : UHashtable) : option UHashtable :=
  let! h := (if h.(keyDeleter) || h.(valueDeleter)
             then close_loop (S (Z.to_nat h.(length))) h UHASH_FIRST else Some h) in
  Some (set_elements h [] h.(count)).

(** ** Comparing tables *)

(** The rounds of [uhash_equals]: the element after [pos] of the first table is
    looked up in the second. *)
Fixpoint equals_loop (rounds : nat) (h1 h2 : UHashtable) (cmp : UHashTok -> UHashTok -> bool) (pos : Z) : option bool :=
  match rounds with
  | O => Some true
  | S rounds' =>
      let! next := uhash_nextElement h1 pos in
      let! i := next in
      let! elem1 := aget h1.(elements) i in
      let! val2 := find_value h2 elem1.(key) in
      if cmp elem1.(value) val2 then equals_loop rounds' h1 h2 cmp i else Some false
  end.

(** [hash1] and [hash2] are different tables. *)
Definition uhash_equals (hash1 hash2 : UHashtable) : option bool :=
  match hash1.(valueComparator), hash2.(valueComparator) with
  | Some cmp1, Some cmp2 =>
      if negb (hash1.(keyComparator).(address) =? hash2.(keyComparator).(address)) ||
         negb (cmp1.(address) =? cmp2.(address)) then Some false
      else if negb (hash1.(count) =? hash2.(count)) then Some false
      else equals_loop (Z.to_nat hash1.(count)) hash1 hash2 cmp1.(code) UHASH_FIRST
  | _, _ => Some false
  end.

End Table.

(** ** Keys *)

Section Keys.
Context {A : Type}.

(** [key.integer] of a key that is an integer *)
Definition uhash_hashLong (k : UHashTok (A := A)) : Z := default 0 (integer k).
Definition uhash_compareLong (k1 k2 : UHashTok (A := A)) : bool := default 0 (integer k1) =? default 0 (integer k2).
End Keys.

(** The hash of a string of [len] units (STRING_HASH in src/common/ustring.cpp):
    a string of 64 units or more is sampled. *)
Fixpoint hash_loop (fuel : nat) (s : list Z) (p inc len hash : Z) : option Z :=
  match fuel with
  | O => None
  | S fuel' =>
      if p <? len then
        let! c := aget s p in
        hash_loop fuel' s (p + inc) inc len (uint32 (hash * 37 + c))
      else Some hash
  end.

Definition ustr_hashUCharsN (s : list Z) (len : Z) : option Z :=
  let! inc := (len -! 32) /! 32 +! 1 in
  let! hash := hash_loop (S (Z.to_nat len)) s 0 inc len 0 in
  Some (int32 hash).

(** Keys that are pointers to NUL-terminated strings. *)
Definition uhash_hashUChars (k : UHashTok (A := list Z)) : option Z :=
  match k with
  | Null => Some 0
  | Pointer s => let! len := u_strlen s in ustr_hashUCharsN s len
  | Integer _ => None
  end.

Fixpoint compare_loop (p1 p2 : list Z) : option bool :=
  match p1, p2 with
  | c1 :: p1', c2 :: p2' =>
      if negb (c1 =? 0) && (c1 =? c2) then compare_loop p1' p2' else Some (c1 =? c2)
  | _, _ => None
  end.

Definition uhash_compareUChars (k1 k2 : UHashTok (A := list Z)) : option bool :=
  match k1, k2 with
  | Null, Null => Some true
  | Null, Pointer _ | Pointer _, Null => Some false
  | Pointer p1, Pointer p2 => compare_loop p1 p2
  | _, _ => None
  end.

End UHash.
