(* ===== verification/UHashTable.v ===== *)
(** * The invariant of the hash table

    The slots of a hash code are an arithmetic progression modulo a prime, so
    that a search visits every slot once ([Probe]); what a search finds
    ([Find]); the invariant of a table, [table_ok], and the writes that keep it;
    resizing. *)
From S2P Require Import Prelude Int32 UVector UHash.
From Stdlib Require Import Znumtheory.
Local Open Scope Z_scope.

Module UHashTable.
Import UVector UHash.

(** ** Table sizes *)

(** No divisor up to the square root. *)
Fixpoint no_divisor (fuel : nat) (d p : Z) : bool :=
  match fuel with
  | O => p <? d * d
  | S fuel' => if p <? d * d then true else negb (p mod d =? 0) && no_divisor fuel' (d + 1) p
  end.

Lemma no_divisor_spec fuel d p :
  no_divisor fuel d p = true -> 2 <= d -> forall q, d <= q -> q * q <= p -> p mod q <> 0.
Proof.
  revert d. induction fuel as [|fuel IH]; intros d Hd H2 q Hq Hqq; cbn [no_divisor] in Hd.
  - apply Z.ltb_lt in Hd. nia.
  - destruct (Z.ltb_spec p (d * d)); [nia|]. apply andb_true_iff in Hd as [Hm Hd].
    rewrite negb_true_iff, Z.eqb_neq in Hm. destruct (decide (q = d)) as [->|]; [done|].
    apply (IH (d + 1)); (done || lia).
Qed.

(** A number that has no divisor up to its square root has no common divisor
    with a smaller one. *)
Lemma no_divisor_gcd p j :
  no_divisor (Z.to_nat 32768) 2 p = true -> 1 <= j < p -> Z.gcd j p = 1.
Proof.
  intros Hp Hj. pose proof (no_divisor_spec _ _ _ Hp ltac:(lia)) as H.
  pose proof (Z.gcd_nonneg j p). destruct (Z.gcd_divide_l j p) as [a Ha], (Z.gcd_divide_r j p) as [b Hb].
  set (g := Z.gcd j p) in *. clearbody g. destruct (decide (g = 1)) as [|Hg]; [done|exfalso].
  assert (g <> 0) by (intros ->; lia). assert (2 <= g) by lia.
  assert (g < p) by (apply Z.le_lt_trans with j; [|lia]; apply Z.divide_pos_le; [lia|by exists a]).
  assert (2 <= b) by nia.
  destruct (Z.le_ge_cases g b).
  - apply (H g); [lia|nia|]. rewrite Hb. apply Z_mod_mult.
  - apply (H b); [lia|nia|]. rewrite Hb, Z.mul_comm. apply Z_mod_mult.
Qed.

(** The lengths for which all arithmetic stays in [int32_t]: all but the last. *)
Definition table_length (n : Z) : Prop :=
  13 <= n <= 1073741789 /\ forall j, 1 <= j < n -> Z.gcd j n = 1.

Lemma primes_lengths i n : 0 <= i <= 26 -> aget PRIMES i = Some n -> table_length n.
Proof.
  intros Hi Hn.
  assert (H : forallb (fun p => no_divisor (Z.to_nat 32768) 2 p && (13 <=? p) && (p <=? 1073741789)) (take 27 PRIMES) = true)
    by (vm_compute; reflexivity).
  rewrite forallb_forall in H. specialize (H n). rewrite !andb_true_iff, !Z.leb_le in H.
  destruct H as [[Hp Hlo] Hhi].
  { apply list_elem_of_In, list_elem_of_lookup. exists (Z.to_nat i). rewrite lookup_take_lt by lia.
    revert Hn. unfold aget. by rewrite (proj2 (Z.leb_le _ _)) by lia. }
  split; [lia|]. intros j Hj. by apply no_divisor_gcd.
Qed.

(** ** The slots of a hash code *)

Section Probe.
Context (n c : Z) (Hn : table_length n) (Hc : 0 <= c < 2 ^ 31).

Definition home : Z := Z.lxor c 0x4000000 mod n.
Definition jump_of : Z := c mod (n - 1) + 1.
Definition probe (t : Z) : Z := (home + t * jump_of) mod n.

Lemma jump_range : 1 <= jump_of < n.
Proof. destruct Hn as [Hr _]. unfold jump_of. pose proof (Z.mod_pos_bound c (n - 1) ltac:(lia)). lia. Qed.

Lemma probe_range t : 0 <= probe t < n.
Proof. destruct Hn as [Hr _]. apply Z.mod_pos_bound. lia. Qed.

Lemma probe_0 : probe 0 = home.
Proof. destruct Hn as [Hr _]. unfold probe, home. rewrite Z.add_0_r. apply Zmod_mod. Qed.

Lemma probe_next t : probe (t + 1) = (probe t + jump_of) mod n.
Proof. unfold probe. rewrite Zplus_mod_idemp_l. f_equal. lia. Qed.

(** The first [n] slots are all different, and they are all slots. *)
Lemma probe_inj t t' : 0 <= t < n -> 0 <= t' < n -> probe t = probe t' -> t = t'.
Proof.
  destruct Hn as [Hr Hg]. intros Ht Ht' Heq. pose proof jump_range.
  assert (Hd : (n | jump_of * (t - t'))).
  { unfold probe in Heq. apply Z.mod_divide; [lia|].
    replace (jump_of * (t - t')) with ((home + t * jump_of) - (home + t' * jump_of)) by lia.
    rewrite Zminus_mod, Heq, Z.sub_diag. apply Zmod_0_l. }
  apply Z.gauss in Hd as [q Hq]; [|rewrite Z.gcd_comm; by apply Hg].
  assert (q = 0) by nia. lia.
Qed.

Lemma probe_surj i : 0 <= i < n -> exists t, 0 <= t < n /\ probe t = i.
Proof.
  destruct Hn as [Hr Hg]. intros Hi. pose proof jump_range.
  destruct (Z.gcd_bezout jump_of n 1 (Hg _ H)) as (u & v & Huv).
  exists (((i - home) * u) mod n). split; [apply Z.mod_pos_bound; lia|].
  unfold probe. rewrite <- Zplus_mod_idemp_r, Zmult_mod_idemp_l, Zplus_mod_idemp_r.
  assert (E : u * jump_of = 1 - v * n) by lia.
  replace (home + (i - home) * u * jump_of) with (i + (- ((i - home) * v)) * n)
    by (transitivity (home + (i - home) * (u * jump_of)); [rewrite E; ring|ring]).
  rewrite Z_mod_plus_full. by apply Z.mod_small.
Qed.
End Probe.

(** ** The search *)

(** The laws of a hash function and a comparator for the keys in [K]. *)
Class KeyLaws {A} (hasher : UHashTok (A := A) -> Z) (cmp : UHashTok (A := A) -> UHashTok (A := A) -> bool)
    (K : UHashTok (A := A) -> Prop) := {
  key_refl k : K k -> cmp k k = true;
  key_sym k k' : K k -> K k' -> cmp k k' = true -> cmp k' k = true;
  key_trans k k' k'' : K k -> K k' -> K k'' -> cmp k k' = true -> cmp k' k'' = true -> cmp k k'' = true;
  key_hash k k' : K k -> K k' -> cmp k k' = true -> Z.land (hasher k) 0x7FFFFFFF = Z.land (hasher k') 0x7FFFFFFF
}.

(** The hash code that is stored with a key. *)
Definition code_of {A} (hasher : UHashTok (A := A) -> Z) (k : UHashTok (A := A)) : Z := Z.land (hasher k) 0x7FFFFFFF.

Lemma code_of_range {A} (hasher : UHashTok (A := A) -> Z) k : 0 <= code_of hasher k < 2 ^ 31.
Proof. unfold code_of. change 0x7FFFFFFF with (2 ^ 31 - 1). rewrite land_low_mask by lia. apply Z.mod_pos_bound. lia. Qed.

Definition live {A} (e : UHashElement (A := A)) : Prop := 0 <= e.(hashcode).

Section Find.
Context {A : Type} `{EqDecision A}.
Implicit Types h : UHashtable (A := A).
Context (h : UHashtable (A := A)) (k : UHashTok (A := A)) (c : Z).
Context (Hn : table_length (length h)) (Hlen : Z.of_nat (List.length (elements h)) = length h) (Hc : 0 <= c < 2 ^ 31).

#[local] Abbreviation n := (length h).
#[local] Abbreviation slot t := (probe n c t).

Definition matches (e : UHashElement (A := A)) : Prop := e.(hashcode) = c /\ code (keyComparator h) k e.(key) = true.

(** What the search has passed before the step [t]. *)
Definition passed (t : Z) : Prop :=
  forall t' e, 0 <= t' < t -> aget (elements h) (slot t') = Some e -> e.(hashcode) <> HASH_EMPTY /\ ~ matches e.

(** The first DELETED slot before the step [t]. *)
Definition first_deleted (t fd : Z) : Prop :=
  (fd = -1 /\ forall t' e, 0 <= t' < t -> aget (elements h) (slot t') = Some e -> live e) \/
  (exists td e, 0 <= td < t /\ fd = slot td /\ aget (elements h) (slot td) = Some e /\ ~ live e).

Lemma slot_element t : exists e, aget (elements h) (slot t) = Some e.
Proof. apply aget_is_Some. rewrite Hlen. apply probe_range, Hn. Qed.

(** Where the search ends. *)
Inductive outcome : bool -> Z -> Z -> Z -> Prop :=
| found_match t e fd : 0 <= t < n -> passed t -> aget (elements h) (slot t) = Some e -> matches e ->
    outcome true (slot t) e.(hashcode) fd
| found_empty t e fd : 0 <= t < n -> passed t -> aget (elements h) (slot t) = Some e -> e.(hashcode) = HASH_EMPTY ->
    first_deleted t fd -> outcome false (slot t) HASH_EMPTY fd
| found_nothing i code fd : passed n -> code <> HASH_EMPTY -> first_deleted n fd -> outcome false i code fd.

Lemma next_jump jump : jump = 0 \/ jump = jump_of n c ->
  (if jump =? 0 then c %! (n -! 1) +! 1 else Some jump) = Some (jump_of n c) :> option Z.
Proof.
  pose proof Hn as [Hr _]. pose proof (jump_range n c Hn) as Hjr. intros [->| ->].
  - rewrite Z.eqb_refl. unfold int. rewrite isub_ok, imod_ok by ibound.
    unfold jump_of in *. rewrite Z.rem_mod_nonneg by lia. by rewrite iadd_ok by ibound.
  - by rewrite (proj2 (Z.eqb_neq _ _)) by lia.
Qed.

Lemma next_slot t : 0 <= t < n -> (slot t +! jump_of n c) %! n = Some (slot (t + 1)).
Proof.
  pose proof Hn as [Hr _]. pose proof (jump_range n c Hn) as Hjr. pose proof (probe_range n c Hn t) as Hpr.
  unfold int. rewrite iadd_ok, imod_ok by ibound. by rewrite Z.rem_mod_nonneg, probe_next by lia.
Qed.

(** The search goes on after the step [t]. *)
Lemma passed_next t e :
  passed t -> aget (elements h) (slot t) = Some e -> e.(hashcode) <> HASH_EMPTY -> ~ matches e -> passed (t + 1).
Proof.
  intros Hp He H1 H2 t' e' Ht' He'. destruct (decide (t' = t)) as [->|]; [by simplify_eq|].
  apply (Hp t'); (lia || done).
Qed.

Lemma first_deleted_next t e fd :
  0 <= t -> aget (elements h) (slot t) = Some e -> first_deleted t fd ->
  first_deleted (t + 1) (if IS_EMPTY_OR_DELETED e.(hashcode) && (fd <? 0) then slot t else fd).
Proof.
  intros Ht He Hfd. unfold IS_EMPTY_OR_DELETED. destruct Hfd as [[-> Hall]|(td & e' & Htd & -> & He' & Hd)].
  - destruct (Z.ltb_spec (hashcode e) 0) as [Hneg|Hpos]; cbn [andb].
    + right. exists t, e. split; [lia|]. split; [done|]. split; [done|]. unfold live. lia.
    + left. split; [done|]. intros t' e'' Ht' He''. destruct (decide (t' = t)) as [->|]; [by simplify_eq|].
      apply (Hall t'); (lia || done).
  - pose proof (probe_range n c Hn td). rewrite (proj2 (Z.ltb_ge (slot td) 0)), andb_false_r by lia.
    right. exists td, e'. split; [lia|done].
Qed.

Lemma find_loop_spec fuel t fd jump :
  0 <= t < n -> n - t <= Z.of_nat fuel -> passed t -> first_deleted t fd -> jump = 0 \/ jump = jump_of n c ->
  exists b i code fd', find_loop fuel h k c (home n c) (slot t) fd jump = Some (b, i, code, fd') /\ outcome b i code fd'.
Proof.
  revert t fd jump. induction fuel as [|fuel IH]; intros t fd jump Ht Hfuel Hpass Hfd Hjump; [lia|].
  cbn [find_loop]. destruct (slot_element t) as [e He]. rewrite He. cbn [obind].
  assert (Hgo : e.(hashcode) <> HASH_EMPTY -> ~ matches e ->
    exists b i code fd',
      (let! jump := (if jump =? 0 then c %! (n -! 1) +! 1 else Some jump) in
       let! theIndex := (slot t +! jump) %! n in
       if negb (theIndex =? home n c)
       then find_loop fuel h k c (home n c) theIndex
              (if IS_EMPTY_OR_DELETED e.(hashcode) && (fd <? 0) then slot t else fd) jump
       else Some (false, theIndex, e.(hashcode), if IS_EMPTY_OR_DELETED e.(hashcode) && (fd <? 0) then slot t else fd)) =
        Some (b, i, code, fd') /\ outcome b i code fd').
  { intros Hne Hnm. rewrite next_jump by done. cbn [obind]. rewrite next_slot by done. cbn [obind].
    pose proof (passed_next t e Hpass He Hne Hnm) as Hp'. pose proof (first_deleted_next t e fd ltac:(lia) He Hfd) as Hfd'.
    rewrite <- (probe_0 n c Hn). destruct (Z.eqb_spec (slot (t + 1)) (slot 0)) as [Heq|Hneq]; cbn [negb].
    - assert (t + 1 = n) as Hend.
      { destruct (Z.lt_ge_cases (t + 1) n); [|lia]. pose proof (probe_inj n c Hn (t + 1) 0). lia. }
      do 4 eexists. split; [reflexivity|]. rewrite Hend in *. by apply found_nothing.
    - assert (t + 1 <> n).
      { intros Hend. apply Hneq. rewrite Hend. unfold probe. rewrite Z.mul_0_l, Z.add_0_r, Z.mul_comm. apply Z_mod_plus_full. }
      rewrite (probe_0 n c Hn). apply IH; [lia|lia|done|done|by right]. }
  assert (Hempty : (hashcode e =? HASH_EMPTY) = true -> hashcode e <> c) by (rewrite Z.eqb_eq; intros ->; unfold HASH_EMPTY, HASH_DELETED, INT32_MIN; lia).
  destruct (Z.eqb_spec (hashcode e) c) as [Hec|Hec]; cbn [andb negb].
  - destruct (code (keyComparator h) k (key e)) eqn:Hcmp.
    { do 4 eexists. split; [reflexivity|]. eapply found_match; eauto. by split. }
    assert (IS_EMPTY_OR_DELETED (hashcode e) = false) as Hlive by (apply Z.ltb_ge; lia). rewrite Hlive in Hgo. apply Hgo.
    + rewrite <- Z.eqb_eq. intros He0. by apply Hempty.
    + intros [_ Hm]. congruence.
  - destruct (Z.eqb_spec (hashcode e) HASH_EMPTY) as [Hem|Hne].
    + do 4 eexists. split; [reflexivity|]. rewrite Hem. by eapply found_empty.
    + apply Hgo; [done|]. by intros [? _].
Qed.

(** The result of the search. *)
Inductive find_result : option Z -> Prop :=
| result_match t e : 0 <= t < n -> passed t -> aget (elements h) (slot t) = Some e -> matches e ->
    find_result (Some (slot t))
| result_free t e : 0 <= t < n -> passed t -> aget (elements h) (slot t) = Some e -> ~ live e ->
    (e.(hashcode) = HASH_EMPTY \/ passed n \/
     exists t' e', t < t' < n /\ passed t' /\ aget (elements h) (slot t') = Some e' /\ e'.(hashcode) = HASH_EMPTY) ->
    find_result (Some (slot t))
| result_full : passed n -> (forall t e, 0 <= t < n -> aget (elements h) (slot t) = Some e -> live e) -> find_result None.

Lemma table_find_spec code0 : Z.land code0 0x7FFFFFFF = c -> exists r, _uhash_find h k code0 = Some r /\ find_result r.
Proof.
  intros Hcode. unfold _uhash_find. rewrite Hcode. pose proof Hn as [Hr _].
  assert (Hx : 0 <= Z.lxor c 0x4000000 < 2 ^ 31).
  { assert (0 <= Z.lxor c 0x4000000) by (apply Z.lxor_nonneg; split; lia). split; [done|].
    destruct (Z.eq_dec (Z.lxor c 0x4000000) 0) as [->|]; [lia|]. apply Z.log2_lt_pow2; [lia|].
    eapply Z.le_lt_trans; [apply Z.log2_lxor; lia|]. apply Z.max_lub_lt; [|reflexivity].
    destruct (Z.eq_dec c 0) as [->|]; [reflexivity|]. apply Z.log2_lt_pow2; lia. }
  unfold int. rewrite imod_ok by ibound. cbn [obind]. rewrite Z.rem_mod_nonneg by lia.
  change (Z.lxor c 67108864 mod n) with (home n c).
  destruct (find_loop_spec (Z.to_nat n) 0 (-1) 0) as (b & i & code & fd & E & Hout); [lia|lia|intros t' e' Ht'; lia| |by left|].
  { left. split; [done|]. intros t' e' Ht'. lia. }
  rewrite (probe_0 n c Hn) in E. rewrite E.
  cbn [obind]. pose proof Hout as Hout'. destruct Hout as [t e fd Ht Hp He Hm|t e fd Ht Hp He Hem Hfd|i code fd Hp Hne Hfd].
  - eexists. split; [reflexivity|]. by eapply result_match.
  - destruct Hfd as [[-> Hall]|(td & e' & Htd & -> & He' & Hd)].
    + cbn [Z.geb Z.compare]. rewrite Z.eqb_refl. cbn [negb]. eexists. split; [reflexivity|].
      eapply result_free; eauto. unfold live. rewrite Hem. unfold HASH_EMPTY, HASH_DELETED, INT32_MIN. lia.
    + rewrite Z.geb_leb, (proj2 (Z.leb_le _ _)) by apply probe_range, Hn. eexists. split; [reflexivity|].
      eapply result_free; [lia| |exact He'|done|]; [intros t' e'' Ht'; apply Hp; lia|].
      right. right. exists t, e. split; [lia|done].
  - destruct Hfd as [[-> Hall]|(td & e' & Htd & -> & He' & Hd)].
    + cbn [Z.geb Z.compare]. rewrite (proj2 (Z.eqb_neq _ _)) by done. eexists. split; [reflexivity|]. by apply result_full.
    + rewrite Z.geb_leb, (proj2 (Z.leb_le _ _)) by apply probe_range, Hn. eexists. split; [reflexivity|].
      eapply result_free; [lia| |exact He'|done|by right; left]. intros t' e'' Ht'. apply Hp. lia.
Qed.
End Find.

(** ** Well-formed tables *)

Section Invariant.
Context {A : Type} `{EqDecision A} (K : UHashTok (A := A) -> Prop).
Implicit Types h : UHashtable (A := A).
Implicit Types e : UHashElement (A := A).

(** The key and the value of a used slot, and of all used slots. *)
Definition entry (e : UHashElement (A := A)) : option (UHashTok (A := A) * UHashTok (A := A)) :=
  if 0 <=? e.(hashcode) then Some (e.(key), e.(value)) else None.
Definition entries (h : UHashtable (A := A)) : list (UHashTok (A := A) * UHashTok (A := A)) := omap entry h.(elements).

#[local] Abbreviation same_key h := (code (keyComparator h)).
#[local] Abbreviation code_in h := (code_of (keyHasher h)).

Record table_ok h : Prop := {
  ok_laws : KeyLaws (keyHasher h) (same_key h) K;
  ok_length : table_length (length h);
  ok_elements : Z.of_nat (List.length (elements h)) = length h;
  ok_free i e : aget (elements h) i = Some e -> ~ live e ->
    e.(key) = Null /\ e.(value) = Null /\ (e.(hashcode) = HASH_EMPTY \/ e.(hashcode) = HASH_DELETED);
  ok_live i e : aget (elements h) i = Some e -> live e -> K e.(key) /\ e.(hashcode) = code_in h e.(key);
  ok_reach t e : 0 <= t < length h ->
    forall c, aget (elements h) (probe (length h) c t) = Some e -> live e -> e.(hashcode) = c ->
    forall t' e', 0 <= t' < t -> aget (elements h) (probe (length h) c t') = Some e' -> e'.(hashcode) <> HASH_EMPTY;
  ok_unique i j e e' : aget (elements h) i = Some e -> aget (elements h) j = Some e' -> live e -> live e' ->
    same_key h e.(key) e'.(key) = true -> i = j;
  ok_count : count h = Z.of_nat (List.length (entries h));
  ok_room : count h < length h
}.

(** The parts of a table that the invariant is about. *)
Lemma table_ok_ext h h' :
  table_ok h -> elements h' = elements h -> keyHasher h' = keyHasher h -> keyComparator h' = keyComparator h ->
  length h' = length h -> count h' = count h -> table_ok h'.
Proof.
  intros [H1 H2 H3 H4 H5 H6 H7 H8 H9] He Hh Hc Hl Hn.
  constructor; unfold entries in *; rewrite ?He, ?Hh, ?Hc, ?Hl, ?Hn; done.
Qed.

Lemma entries_all_live (l : list (UHashElement (A := A))) :
  Forall live l -> List.length (omap entry l) = List.length l.
Proof.
  induction 1 as [|e l He _ IH]; [done|]. unfold live in He. cbn. unfold entry at 1.
  rewrite (proj2 (Z.leb_le _ _)) by done. cbn. by rewrite IH.
Qed.

Lemma entry_elem (l : list (UHashElement (A := A))) p :
  p ∈ omap entry l <-> exists i e, l !! i = Some e /\ live e /\ p = (e.(key), e.(value)).
Proof.
  rewrite list_elem_of_omap. split.
  - intros (e & [i Hi]%list_elem_of_lookup & He). exists i, e. split; [done|]. unfold entry, live in *.
    destruct (Z.leb_spec 0 (hashcode e)); [|done]. by injection He as <-.
  - intros (i & e & Hi & He & ->). exists e. split; [by eapply list_elem_of_lookup_2|].
    unfold entry, live in *. by rewrite (proj2 (Z.leb_le _ _)).
Qed.

(** *** Finding a key *)

Section Finding.
Context h (Hok : table_ok h) (k : UHashTok (A := A)) (Hk : K k).
#[local] Abbreviation n := (length h).
#[local] Abbreviation c := (code_in h k).

Lemma find_ok : exists r, _uhash_find h k (keyHasher h k) = Some r /\ find_result h k c r.
Proof. destruct Hok. by apply table_find_spec; [|done|apply code_of_range|]. Qed.

Lemma find_present i e :
  aget (elements h) i = Some e -> live e -> same_key h k e.(key) = true ->
  _uhash_find h k (keyHasher h k) = Some (Some i).
Proof.
  intros He Hl Hcmp. destruct find_ok as (r & -> & Hr). destruct Hok as [Hlaws Hn Hlen _ Hlive Hreach Huniq _ _].
  destruct (Hlive i e He Hl) as [HKe Hce].
  assert (Hec : hashcode e = c) by (rewrite Hce; symmetry; by apply (key_hash (KeyLaws := Hlaws))).
  assert (Hi : 0 <= i < n) by (rewrite <- Hlen; by apply aget_Some in He).
  destruct (probe_surj n c Hn i Hi) as (ti & Hti & Hpi).
  assert (Hm : matches h k c e) by by split.
  assert (Hnot : forall t, passed h k c t -> t <= ti).
  { intros t Hp. apply Z.le_ngt. intros Hlt. rewrite <- Hpi in He. by apply (Hp ti e ltac:(lia) He). }
  destruct Hr as [t e' Ht Hp He' Hm'|t e' Ht Hp He' Hnl Hend|Hp _].
  - do 2 f_equal. destruct Hm' as [Hc' Hk'].
    assert (live e') by (unfold live; rewrite Hc'; pose proof (code_of_range (keyHasher h) k); lia).
    destruct (Hlive _ _ He' H) as [HKe' _]. symmetry. apply (Huniq i _ e e' He He' Hl H).
    apply (key_trans (KeyLaws := Hlaws) _ k); try done. by apply (key_sym (KeyLaws := Hlaws)).
  - exfalso. rewrite <- Hpi in He.
    assert (Hempty : forall t0 e0, 0 <= t0 < n -> passed h k c t0 -> aget (elements h) (probe n c t0) = Some e0 ->
      e0.(hashcode) = HASH_EMPTY -> False).
    { intros t0 e0 Ht0 Hp0 He0 Hem. destruct (decide (t0 = ti)) as [->|].
      - simplify_eq. unfold live in Hl. rewrite Hem in Hl. unfold HASH_EMPTY, HASH_DELETED, INT32_MIN in Hl. lia.
      - pose proof (Hnot t0 Hp0). by apply (Hreach ti e Hti c He Hl Hec t0 e0 ltac:(lia) He0). }
    destruct Hend as [Hem|[Hpn|(t' & e0 & Ht' & Hp' & He0 & Hem)]].
    + by apply (Hempty t e').
    + pose proof (Hnot n Hpn). lia.
    + by apply (Hempty t' e0 ltac:(lia)).
  - pose proof (Hnot n Hp). lia.
Qed.

Lemma find_absent :
  (forall i e, aget (elements h) i = Some e -> live e -> same_key h k e.(key) = false) ->
  exists t e, 0 <= t < n /\ _uhash_find h k (keyHasher h k) = Some (Some (probe n c t)) /\
    aget (elements h) (probe n c t) = Some e /\ ~ live e /\
    forall t' e', 0 <= t' < t -> aget (elements h) (probe n c t') = Some e' -> e'.(hashcode) <> HASH_EMPTY.
Proof.
  intros Hno. destruct find_ok as (r & -> & Hr). destruct Hok as [Hlaws Hn Hlen _ Hlive Hreach Huniq Hcount Hroom].
  destruct Hr as [t e Ht Hp He [Hc Hm]|t e Ht Hp He Hnl _|Hp Hall].
  - exfalso. rewrite (Hno _ e He) in Hm; [done|]. unfold live. rewrite Hc. pose proof (code_of_range (keyHasher h) k). lia.
  - exists t, e. split; [done|]. split; [done|]. split; [done|]. split; [done|]. intros t' e' Ht' He'. by apply (Hp t').
  - exfalso. rewrite Hcount in Hroom. unfold entries in Hroom. rewrite entries_all_live in Hroom; [lia|].
    apply Forall_lookup_2. intros i e Hi. pose proof (lookup_lt_Some _ _ _ Hi).
    destruct (probe_surj n c Hn (Z.of_nat i)) as (t & Ht & Hpt); [lia|].
    apply (Hall t e Ht). by rewrite Hpt, aget_nat.
Qed.
End Finding.

(** *** Writing a slot *)

(** The entries of the other slots. *)
Definition others (l : list (UHashElement (A := A))) (i : nat) : list (UHashTok (A := A) * UHashTok (A := A)) :=
  omap entry (take i l) ++ omap entry (drop (S i) l).

Lemma entries_at l i e : l !! i = Some e -> omap entry l ≡ₚ option_list (entry e) ++ others l i.
Proof.
  intros Hi. rewrite <- (take_drop_middle l i e Hi) at 1. rewrite omap_app. cbn. unfold others.
  destruct (entry e); cbn; [|done]. by rewrite Permutation_middle.
Qed.

Lemma entries_insert l i e : (i < List.length l)%nat -> omap entry (<[i := e]> l) ≡ₚ option_list (entry e) ++ others l i.
Proof.
  intros Hi. rewrite insert_take_drop by done. rewrite omap_app. cbn. unfold others.
  destruct (entry e); cbn; [|done]. by rewrite Permutation_middle.
Qed.

Lemma entry_live e : live e -> entry e = Some (e.(key), e.(value)).
Proof. unfold live, entry. intros He. by rewrite (proj2 (Z.leb_le _ _)). Qed.

Lemma entry_free e : ~ live e -> entry e = None.
Proof. unfold live, entry. intros He. by rewrite (proj2 (Z.leb_gt _ _)) by lia. Qed.

Lemma others_elem l i p :
  p ∈ others l i -> exists j e, j <> i /\ l !! j = Some e /\ live e /\ p = (e.(key), e.(value)).
Proof.
  unfold others. rewrite elem_of_app, !entry_elem. intros [(j & e & Hj & He & ->)|(j & e & Hj & He & ->)].
  - apply lookup_take_Some in Hj as [Hj Hlt]. exists j, e. repeat (split; [done || lia|]). done.
  - rewrite lookup_drop in Hj. exists (S i + j)%nat, e. repeat (split; [done || lia|]). done.
Qed.

Lemma aget_insert (l : list (UHashElement (A := A))) (i : nat) (j : Z) e :
  (i < List.length l)%nat -> aget (<[i := e]> l) j = if j =? Z.of_nat i then Some e else aget l j.
Proof.
  intros Hi. unfold aget. destruct (Z.eqb_spec j (Z.of_nat i)) as [->|Hne].
  - by rewrite (proj2 (Z.leb_le _ _)), Nat2Z.id, list_lookup_insert_eq by lia.
  - destruct (Z.leb_spec 0 j); [|done]. by rewrite list_lookup_insert_ne by lia.
Qed.

(** A new element in the slot [i], with the key [k] that no other slot has. *)
Lemma write_ok h (i : nat) t e0 k v n' :
  table_ok h -> K k -> elements h !! i = Some e0 -> 0 <= t < length h ->
  probe (length h) (code_in h k) t = Z.of_nat i ->
  (forall t' e', 0 <= t' < t -> aget (elements h) (probe (length h) (code_in h k) t') = Some e' -> e'.(hashcode) <> HASH_EMPTY) ->
  (forall j e, j <> Z.of_nat i -> aget (elements h) j = Some e -> live e -> same_key h k e.(key) = false) ->
  n' = count h + (if 0 <=? e0.(hashcode) then 0 else 1) -> n' < length h ->
  table_ok (set_elements h (<[i := mkElement (code_in h k) v k]> (elements h)) n').
Proof.
  intros Hok Hk Hi Ht Hp Hpass Hother Hcount Hroom. pose proof (lookup_lt_Some _ _ _ Hi) as Hil.
  destruct Hok as [Hlaws Hn Hlen Hfree Hlive Hreach Huniq Hcnt Hrm].
  pose proof (code_of_range (keyHasher h) k) as Hcr.
  assert (Hel : live (mkElement (code_in h k) v k)) by (unfold live; cbn; lia).
  constructor; cbn [set_elements elements keyHasher keyComparator length count]; try done.
  - by rewrite length_insert.
  - intros j e. rewrite aget_insert by done. destruct (j =? Z.of_nat i); [intros [= <-]; tauto|apply Hfree].
  - intros j e. rewrite aget_insert by done. destruct (j =? Z.of_nat i); [intros [= <-] _; done|apply Hlive].
  - intros s e Hs c. rewrite aget_insert by done. intros He Hl Hec s' e' Hs'. rewrite aget_insert by done.
    destruct (Z.eqb_spec (probe (length h) c s') (Z.of_nat i)) as [Heq|Hne].
    + intros [= <-]. cbn. unfold HASH_EMPTY, HASH_DELETED, INT32_MIN. lia.
    + destruct (Z.eqb_spec (probe (length h) c s) (Z.of_nat i)) as [Heq|Hne'].
      * injection He as <-. cbn in Hec. subst c. assert (s = t) as -> by (apply (probe_inj (length h) (code_in h k)); (done || lia)).
        by apply Hpass.
      * by apply (Hreach s e).
  - intros j j' e e'. rewrite !aget_insert by done.
    destruct (Z.eqb_spec j (Z.of_nat i)) as [->|Hj], (Z.eqb_spec j' (Z.of_nat i)) as [->|Hj']; [done|..].
    + intros [= <-] He' _ Hl'. cbn. by rewrite (Hother j' e').
    + intros He [= <-] Hl _. cbn. intros Hcmp. apply (key_sym (KeyLaws := Hlaws)) in Hcmp; [|by apply (Hlive j)|done].
      by rewrite (Hother j e) in Hcmp.
    + apply Huniq.
  - unfold entries. cbn. rewrite entries_insert by done. rewrite (entry_live _ Hel). cbn.
    rewrite Hcount, Hcnt. unfold entries. rewrite (entries_at _ _ _ Hi), length_app. unfold entry, live.
    destruct (Z.leb_spec 0 (hashcode e0)); cbn; lia.
Qed.

(** The element of a used slot is removed. *)
Lemma erase_ok h (i : nat) e0 :
  table_ok h -> elements h !! i = Some e0 -> live e0 ->
  table_ok (set_elements h (<[i := mkElement HASH_DELETED Null Null]> (elements h)) (count h - 1)).
Proof.
  intros Hok Hi Hl0. pose proof (lookup_lt_Some _ _ _ Hi) as Hil.
  destruct Hok as [Hlaws Hn Hlen Hfree Hlive Hreach Huniq Hcnt Hrm].
  assert (Hdel : ~ live (mkElement HASH_DELETED Null Null : UHashElement (A := A))) by (unfold live; cbn; unfold HASH_DELETED, INT32_MIN; lia).
  constructor; cbn [set_elements elements keyHasher keyComparator length count]; try done.
  - by rewrite length_insert.
  - intros j e. rewrite aget_insert by done. destruct (j =? Z.of_nat i); [intros [= <-]; cbn; tauto|apply Hfree].
  - intros j e. rewrite aget_insert by done. destruct (j =? Z.of_nat i); [by intros [= <-]|apply Hlive].
  - intros s e Hs c. rewrite aget_insert by done. intros He Hl Hec s' e' Hs'. rewrite aget_insert by done.
    destruct (Z.eqb_spec (probe (length h) c s') (Z.of_nat i)); [by intros [= <-]|].
    destruct (Z.eqb_spec (probe (length h) c s) (Z.of_nat i)); [by injection He as <-|]. by apply (Hreach s e).
  - intros j j' e e'. rewrite !aget_insert by done.
    destruct (j =? Z.of_nat i); [by intros [= <-]|]. destruct (j' =? Z.of_nat i); [by intros _ [= <-]|]. apply Huniq.
  - unfold entries. cbn. rewrite entries_insert, (entry_free _ Hdel) by done. cbn.
    rewrite Hcnt. unfold entries. rewrite (entries_at _ _ _ Hi), (entry_live _ Hl0). cbn. lia.
  - cbn. lia.
Qed.

(** ** Resizing *)

Lemma policy_marks idx policy :
  0 <= idx <= 26 ->
  let '(low, high) := RESIZE_POLICY_RATIO_TABLE policy in
  exists n lo hi, aget PRIMES idx = Some n /\ water_mark n low = Some lo /\ water_mark n high = Some hi /\
    (0 < idx -> exists p, aget PRIMES (idx - 1) = Some p /\ lo <= p) /\
    (idx < 26 -> exists p, aget PRIMES (idx + 1) = Some p /\ n < p) /\
    (idx = 26 -> 2 ^ 28 <= hi) /\
    (policy <> U_FIXED -> hi + 1 < n).
Proof.
  intros Hidx. set (check := fun i =>
    let '(low, high) := RESIZE_POLICY_RATIO_TABLE policy in
    match aget PRIMES i with
    | Some n => match water_mark n low, water_mark n high with
      | Some lo, Some hi =>
          match aget PRIMES (i - 1) with Some p => lo <=? p | None => i =? 0 end &&
          match aget PRIMES (i + 1) with Some p => n <? p | None => false end &&
          ((i <? 26) || (2 ^ 28 <=? hi)) &&
          (match policy with U_FIXED => true | _ => hi + 1 <? n end)
      | _, _ => false end
    | None => false end).
  assert (H : all_below 27 check = true) by (unfold check; destruct policy; vm_compute; reflexivity).
  pose proof (all_below_spec _ _ H idx ltac:(lia)) as Hc. unfold check in Hc. clear H check.
  destruct (RESIZE_POLICY_RATIO_TABLE policy) as [low high].
  destruct (aget PRIMES idx) as [n|] eqn:En; [|done].
  destruct (water_mark n low) as [lo|] eqn:El; [|done]. destruct (water_mark n high) as [hi|] eqn:Eh; [|done].
  rewrite !andb_true_iff in Hc. destruct Hc as [[[H1 H2] H3] H4].
  exists n, lo, hi. do 3 (split; [done|]). split; [|split; [|split]].
  - intros Hpos. destruct (aget PRIMES (idx - 1)) as [p|]; [|apply Z.eqb_eq in H1; lia]. exists p. by apply Z.leb_le in H1.
  - intros Hlt. destruct (aget PRIMES (idx + 1)) as [p|]; [|done]. exists p. by apply Z.ltb_lt in H2.
  - intros ->. by apply Z.leb_le in H3.
  - intros Hpol. destruct policy; [by apply Z.ltb_lt in H4..|done].
Qed.

(** The size, the marks and the ratios belong together. *)
Record sized h : Prop := {
  sz_index : 0 <= primeIndex h <= 26;
  sz_length : aget PRIMES (primeIndex h) = Some (length h);
  sz_policy : exists policy, RESIZE_POLICY_RATIO_TABLE policy = (lowWaterRatio h, highWaterRatio h);
  sz_low : water_mark (length h) (lowWaterRatio h) = Some (lowWaterMark h);
  sz_high : water_mark (length h) (highWaterRatio h) = Some (highWaterMark h)
}.

(** What resizing does not touch. *)
Record same_owner h h' : Prop := {
  so_hasher : keyHasher h' = keyHasher h;
  so_comparator : keyComparator h' = keyComparator h;
  so_values : valueComparator h' = valueComparator h;
  so_deleters : keyDeleter h' = keyDeleter h /\ valueDeleter h' = valueDeleter h;
  so_freed : freed h' = freed h;
  so_ratios : lowWaterRatio h' = lowWaterRatio h /\ highWaterRatio h' = highWaterRatio h
}.

#[export] Instance same_owner_refl : Reflexive same_owner.
Proof. by constructor. Qed.

Lemma find_code h k a b : Z.land a 0x7FFFFFFF = Z.land b 0x7FFFFFFF -> _uhash_find h k a = _uhash_find h k b.
Proof. intros E. unfold _uhash_find. by rewrite E. Qed.

Lemma code_of_code (hasher : UHashTok (A := A) -> Z) k : Z.land (code_of hasher k) 0x7FFFFFFF = Z.land (hasher k) 0x7FFFFFFF.
Proof. unfold code_of. by rewrite <- Z.land_assoc. Qed.

Lemma rehash_loop_spec (old : list (UHashElement (A := A))) (m : nat) h :
  table_ok h -> (m <= List.length old)%nat ->
  (forall i e, old !! i = Some e -> live e -> K e.(key) /\ e.(hashcode) = code_in h e.(key)) ->
  (forall i j e e', old !! i = Some e -> old !! j = Some e' -> live e -> live e' ->
     same_key h e.(key) e'.(key) = true -> i = j) ->
  entries h ≡ₚ omap entry (drop m old) -> Z.of_nat (List.length (omap entry old)) < length h ->
  exists h', rehash_loop m old h = Some h' /\ table_ok h' /\ entries h' ≡ₚ omap entry old /\
    h' = set_elements h (elements h') (count h').
Proof.
  revert h. induction m as [|m IH]; intros h Hok Hm Hlive Huniq Hent Hroom; cbn [rehash_loop].
  { exists h. split; [done|]. split; [done|]. split; [by rewrite Hent|]. by destruct h. }
  destruct (lookup_lt_is_Some_2 old m) as [o Ho]; [lia|]. rewrite aget_nat, Ho. cbn [obind].
  pose proof (drop_S _ _ _ Ho) as Hdrop. unfold IS_EMPTY_OR_DELETED.
  destruct (Z.ltb_spec (hashcode o) 0) as [Hneg|Hpos]; cbn [negb].
  { apply IH; [done|lia|done|done| |done]. rewrite Hent, Hdrop. cbn. by rewrite entry_free by (unfold live; lia). }
  destruct (Hlive m o Ho Hpos) as [HKo Hco].
  assert (Habs : forall i e, aget (elements h) i = Some e -> live e -> same_key h (key o) (key e) = false).
  { intros i e Hi He. apply not_true_iff_false. intros Hcmp.
    assert (Hin : (key e, value e) ∈ omap entry (drop (S m) old)).
    { rewrite <- Hent. apply entry_elem. pose proof (aget_Some _ _ _ Hi). exists (Z.to_nat i), e. split; [|done].
      rewrite <- aget_nat, Z2Nat.id by lia. done. }
    apply entry_elem in Hin as (j & e' & Hj & He' & [= Hk _]). rewrite lookup_drop in Hj. rewrite Hk in Hcmp.
    pose proof (Huniq m _ o e' Ho Hj Hpos He' Hcmp). lia. }
  destruct (find_absent h Hok (key o) Habs) as (t & e & Ht & Hfind & He & Hnl & Hpass).
  rewrite (find_code h (key o) (hashcode o) (keyHasher h (key o))), Hfind by (rewrite Hco; apply code_of_code).
  cbn [obind]. pose proof (aget_Some _ _ _ He) as Hrange. set (i := Z.to_nat (probe (length h) (code_in h (key o)) t)).
  assert (Hi : probe (length h) (code_in h (key o)) t = Z.of_nat i) by (unfold i; lia).
  rewrite Hi in *. rewrite aget_nat in He. rewrite aset_nat by lia. cbn [obind].
  assert (Hcnt : count h = Z.of_nat (List.length (omap entry (drop (S m) old)))).
  { rewrite (ok_count _ Hok). by rewrite Hent. }
  assert (Hsplit : (List.length (omap entry (drop m old)) <= List.length (omap entry old))%nat).
  { rewrite <- (take_drop m old) at 2. rewrite omap_app, length_app. lia. }
  rewrite Hdrop in Hsplit. cbn in Hsplit. rewrite (entry_live o Hpos) in Hsplit. cbn in Hsplit.
  pose proof (ok_length _ Hok) as [Hlr _].
  unfold int. rewrite iadd_ok by ibound. cbn [obind].
  assert (Ho' : o = mkElement (code_in h (key o)) (value o) (key o)) by (rewrite <- Hco; by destruct o).
  destruct (IH (set_elements h (<[i := o]> (elements h)) (count h + 1))) as (h' & E & Hok' & Hent' & Hset).
  - rewrite Ho'. cbn [key value]. apply (write_ok h i t e); try done; cbn.
    + intros j e' _ Hj Hl'. by apply (Habs j).
    + unfold live in Hnl. by rewrite (proj2 (Z.leb_gt _ _)) by lia.
    + lia.
  - lia.
  - done.
  - done.
  - unfold entries in *. cbn. rewrite entries_insert by lia. rewrite Hdrop. cbn. rewrite (entry_live o Hpos). cbn.
    rewrite <- Hent, (entries_at _ _ _ He), (entry_free e Hnl). done.
  - done.
  - exists h'. split; [exact E|]. split; [done|]. split; [done|]. by rewrite Hset.
Qed.

Lemma lookup_map {X Y} (f : X -> Y) (l : list X) i : map f l !! i = match l !! i with Some x => Some (f x) | None => None end.
Proof. exact (list_lookup_fmap f l i). Qed.

(** An empty table of any of the sizes. *)
Lemma empty_ok h (block : list (UHashElement (A := A))) idx n :
  KeyLaws (keyHasher h) (same_key h) K -> 0 <= idx <= 26 -> aget PRIMES idx = Some n ->
  elements h = map (fun _ => empty_element) block -> Z.of_nat (List.length block) = n -> length h = n -> count h = 0 ->
  table_ok h /\ entries h = [].
Proof.
  intros Hlaws Hidx Hn He Hb Hl Hc. pose proof (primes_lengths idx n Hidx Hn) as Hlen.
  assert (Hnl : ~ live (empty_element : UHashElement (A := A))) by (unfold live; cbn; unfold HASH_EMPTY, HASH_DELETED, INT32_MIN; lia).
  assert (Hall : forall i e, aget (elements h) i = Some e -> e = empty_element).
  { intros i e Hi. rewrite He in Hi. unfold aget in Hi. destruct (0 <=? i); [|done].
    rewrite lookup_map in Hi. destruct (block !! Z.to_nat i); [by injection Hi|done]. }
  assert (Hent : entries h = []).
  { unfold entries. rewrite He. clear -Hnl. induction block as [|x b IH]; [done|]. cbn. rewrite entry_free by done. by rewrite IH. }
  split; [|done]. constructor; rewrite ?Hl; try done.
  - rewrite He, length_map. done.
  - intros i e ->%Hall _. cbn. tauto.
  - intros i e ->%Hall Hlv. done.
  - intros t e Ht c ->%Hall Hlv. done.
  - intros i j e e' ->%Hall _ Hlv. done.
  - by rewrite Hc, Hent.
  - rewrite Hc. destruct Hlen. lia.
Qed.

Context {alloc : Allocator (UHashElement (A := A))}.

(** The allocator has failed for the size of a table. *)
Definition allocation_failed : Prop := exists n, 0 < n /\ uprv_malloc (alloc := alloc) n = None.

(** What resizing promises: the entries and all that is not the size are kept;
    when the allocator fails the array is kept also. *)
Definition resized h h' (status status' : UErrorCode) : Prop :=
  table_ok h' /\ entries h' ≡ₚ entries h /\ same_owner h h' /\
    ((status' = status /\ sized h' /\ (count h > highWaterMark h -> length h < length h') /\
      (count h <= highWaterMark h -> lowWaterMark h <= count h -> h' = h)) \/
     (status' = U_MEMORY_ALLOCATION_ERROR /\ allocation_failed)).

(** Moving to the array of another size. *)
Lemma move_spec h status policy idx p :
  table_ok h -> U_SUCCESS status = true -> RESIZE_POLICY_RATIO_TABLE policy = (lowWaterRatio h, highWaterRatio h) ->
  0 <= idx <= 26 -> aget PRIMES idx = Some p -> count h < p ->
    (count h > highWaterMark h -> length h < p) -> (count h <= highWaterMark h -> count h < lowWaterMark h) ->
    exists h' status',
    (let! '(h1, status) := _uhash_allocate h idx status in
      if U_FAILURE status then Some (set_block h1 (elements h) (length h) (primeIndex h1), status)
      else let! h1 := rehash_loop (Z.to_nat (length h)) (elements h) h1 in Some (h1, status)) = Some (h', status') /\
    resized h h' status status'.
Proof.
  intros Hok Hst Hpol Hi Hp Hroom Hgrow Hshrink. unfold _uhash_allocate.
  rewrite U_FAILURE_SUCCESS, Hst. cbn [negb]. rewrite Hp. cbn [obind].
  pose proof (primes_lengths idx p Hi Hp) as [Hpr _].
  destruct (uprv_malloc p) as [block|] eqn:Ealloc.
  2:{ cbn [obind]. change (U_FAILURE U_MEMORY_ALLOCATION_ERROR) with true. cbv iota.
      do 2 eexists. split; [reflexivity|]. split; [by apply (table_ok_ext h)|]. split; [done|].
      split; [by constructor|]. right. split; [done|]. exists p. split; [lia|done]. }
  pose proof (policy_marks idx policy Hi) as Hm. rewrite Hpol in Hm.
  destruct Hm as (n & lo & hi & Hn & Hlo & Hhi & _). rewrite Hp in Hn. injection Hn as <-.
  cbn [set_block set_elements lowWaterRatio highWaterRatio]. rewrite Hlo, Hhi. cbn [obind].
  rewrite U_FAILURE_SUCCESS, Hst. cbn [negb].
  set (h1 := set_marks _ hi lo).
  assert (Hlb : Z.of_nat (List.length block) = p) by (rewrite (uprv_malloc_length _ _ Ealloc); lia).
  destruct (empty_ok h1 block idx p) as [Hok1 Hent1]; try done; [apply Hok|].
  pose proof (ok_elements _ Hok) as Hel.
  destruct (rehash_loop_spec (elements h) (Z.to_nat (length h)) h1) as (h' & E & Hok' & Hent' & Hset).
  - done.
  - lia.
  - intros i e Hi' Hl. apply (ok_live h Hok (Z.of_nat i)); [by rewrite aget_nat|done].
  - intros i j e e' Hi' Hj' Hl Hl' Hcmp. apply Nat2Z.inj. by apply (ok_unique h Hok _ _ e e'); rewrite ?aget_nat.
  - rewrite Hent1, drop_ge by lia. done.
  - change (omap entry (elements h)) with (entries h). rewrite <- (ok_count h Hok). done.
  - rewrite E. cbn [obind]. exists h', status. split; [done|]. split; [done|]. split; [done|].
    rewrite Hset. split; [by constructor|]. left. split; [done|]. split; [|split].
    + constructor; try done. by exists policy.
    + exact Hgrow.
    + intros Hc1 Hc2. pose proof (Hshrink Hc1). lia.
Qed.

(** Resizing keeps the entries; when it cannot allocate the new array, the table
    keeps the old one, but then its size index is that of the other size. *)
Lemma rehash_spec h status :
  table_ok h -> sized h -> U_SUCCESS status = true -> (count h > highWaterMark h -> count h < 2 ^ 28) ->
  exists h' status', _uhash_rehash h status = Some (h', status') /\
    resized h h' status status'.
Proof.
  intros Hok Hsz Hst Hbig. unfold _uhash_rehash. pose proof Hsz as [Hidx Hlen (policy & Hpol) Hlow Hhigh].
  pose proof (policy_marks (primeIndex h) policy Hidx) as Hm. rewrite Hpol in Hm.
  destruct Hm as (n & lo & hi & Hn & Hlo & Hhi & Hprev & Hnext & Hlast & _). rewrite Hlen in Hn. injection Hn as <-.
  rewrite Hlow in Hlo. injection Hlo as <-. rewrite Hhigh in Hhi. injection Hhi as <-.
  rewrite Z.gtb_ltb.
  assert (Hstay : (count h > highWaterMark h -> False) -> exists h' status',
    Some (h, status) = Some (h', status') /\ resized h h' status status').
  { intros Hno. exists h, status. do 4 (split; [done|]). left. split; [done|]. split; [done|].
    split; [intros Hc; by apply Hno in Hc|done]. }
  pose proof (ok_room h Hok) as Hr. pose proof (ok_count h Hok) as Hcn.
  destruct (Z.ltb_spec (highWaterMark h) (count h)) as [Hgt|Hle].
  - assert (primeIndex h <> 26) by (intros E; pose proof (Hlast E); specialize (Hbig ltac:(lia)); lia).
    unfold PRIMES_LENGTH. rewrite Z.geb_leb, (proj2 (Z.leb_gt _ _)) by lia.
    destruct (Hnext ltac:(lia)) as (p & Hp & Hlt). apply (move_spec h status policy _ p); [done|done|done|lia|done|lia|lia|lia].
  - destruct (Z.ltb_spec (count h) (lowWaterMark h)) as [Hlt|Hge]; [|by apply Hstay; lia].
    destruct (Z.ltb_spec (primeIndex h - 1) 0); [by apply Hstay; lia|].
    destruct (Hprev ltac:(lia)) as (p & Hp & Hlop). apply (move_spec h status policy _ p); [done|done|done|lia|done|lia|lia|lia].
Qed.

End Invariant.
End UHashTable.
