(* ===== verification/UHashMap.v ===== *)
(** * The hash table as a map

    The operations of UHash.v on a table with the invariant of UHashTable.v: each
    of them does to the entries what the operation of a finite map does to an
    association list, and hands to the deleters what the map gives up. *)
From S2P Require Import Prelude Int32 UVector UHash UHashTable.
Local Open Scope Z_scope.

Module UHashMap.
Import UVector UHash UHashTable.

(** ** Association lists *)

Section Map.
Context {A : Type} `{EqDecision A}.
#[local] Abbreviation tok := (UHashTok (A := A)).
Implicit Types m : list (tok * tok).

(** The first key that equals [k] and its value; the empty token twice when there
    is none. *)
Definition m_entry (cmp : tok -> tok -> bool) (k : tok) m : tok * tok :=
  match List.find (fun p => cmp k p.1) m with Some p => p | None => (emptytok, emptytok) end.
Definition m_get (cmp : tok -> tok -> bool) (k : tok) m : tok := (m_entry cmp k m).2.
Definition m_remove (cmp : tok -> tok -> bool) (k : tok) m : list (tok * tok) :=
  List.filter (fun p => negb (cmp k p.1)) m.
Definition m_put (cmp : tok -> tok -> bool) (k v : tok) m : list (tok * tok) := (k, v) :: m_remove cmp k m.

#[export] Instance m_remove_perm cmp k : Proper ((≡ₚ) ==> (≡ₚ)) (m_remove cmp k).
Proof.
  intros m m' Hm. unfold m_remove.
  induction Hm as [|p m m' _ IH|p q m|m m' m'' _ IH _ IH']; cbn [List.filter]; [done| | |by rewrite IH].
  - destruct (negb _); by rewrite ?IH.
  - do 2 destruct (negb _); done || apply Permutation_swap.
Qed.

Lemma m_remove_absent cmp k m : (forall p, p ∈ m -> cmp k p.1 = false) -> m_remove cmp k m = m.
Proof.
  induction m as [|p m IH]; intros Hno; [done|]. unfold m_remove. cbn. rewrite (Hno p) by apply list_elem_of_here. cbn.
  f_equal. apply IH. intros q Hq. apply Hno. by apply list_elem_of_further.
Qed.
(** *** Ownership *)

(** What is handed to the deleters when the entry [p] is overwritten by [k] and [v]. *)
Definition key_released (kd : bool) (p : tok * tok) (k : tok) : list tok :=
  if kd && (pointer_nonnull p.1 && negb (bool_decide (p.1 = k))) then [p.1] else [].
Definition value_released (vd : bool) (p : tok * tok) (v : tok) : list tok :=
  if vd && (pointer_nonnull p.2 && negb (bool_decide (p.2 = v))) then [p.2] else [].
Definition released (kd vd : bool) (p : tok * tok) (k v : tok) : list tok := key_released kd p k ++ value_released vd p v.

(** The value an operation gives back: the table keeps it when it owns the values. *)
Definition given_back (vd : bool) (v : tok) : tok := if vd then Null else v.

(** What goes to the deleters when a key and a value cannot be stored. *)
Definition refused (kd vd : bool) (k v : tok) : list tok :=
  (if kd && pointer_nonnull k then [k] else []) ++ (if vd && pointer_nonnull v then [v] else []).

(** What the deleters get for a list of entries. *)
Definition all_released (kd vd : bool) (l : list (tok * tok)) : list tok := concat (map (fun p => released kd vd p Null Null) l).

End Map.

(** ** One operation *)

Section Operations.
Context {A : Type} `{EqDecision A} {alloc : Allocator (UHashElement (A := A))} (K : UHashTok (A := A) -> Prop).
Implicit Types h : UHashtable (A := A).

#[local] Abbreviation tok := (UHashTok (A := A)).
#[local] Abbreviation same_key h := (code (keyComparator h)).
#[local] Abbreviation code_in h := (code_of (keyHasher h)).
#[local] Abbreviation get h k := (m_get (same_key h) k (entries h)).

(** The slot [i] that a search for [k] gives, with its element [e]. *)
Record slot_of h (k : tok) (i : nat) (e : UHashElement (A := A)) : Prop := {
  sl_find : _uhash_find h k (keyHasher h k) = Some (Some (Z.of_nat i));
  sl_element : elements h !! i = Some e;
  sl_probe : exists t, 0 <= t < length h /\ probe (length h) (code_in h k) t = Z.of_nat i /\
    forall t' e', 0 <= t' < t -> aget (elements h) (probe (length h) (code_in h k) t') = Some e' -> e'.(hashcode) <> HASH_EMPTY;
  sl_key : live e -> same_key h k e.(key) = true;
  sl_others j e' : j <> i -> elements h !! j = Some e' -> live e' -> same_key h k e'.(key) = false
}.

Lemma find_slot h k : table_ok K h -> K k -> exists i e, slot_of h k i e.
Proof.
  intros Hok Hk. destruct (List.find (fun p => same_key h k p.1) (entries h)) as [p|] eqn:Hf.
  - apply List.find_some in Hf as [Hin Hcmp]. apply list_elem_of_In, entry_elem in Hin as (i & e & Hi & Hl & ->). cbn in Hcmp.
    exists i, e. assert (Hz : aget (elements h) (Z.of_nat i) = Some e) by by rewrite aget_nat.
    destruct (ok_live K h Hok _ e Hz Hl) as [HKe Hce].
    assert (Hc : hashcode e = code_in h k) by (rewrite Hce; symmetry; by apply (key_hash (KeyLaws := ok_laws K h Hok))).
    constructor; [by apply (find_present K h Hok k Hk _ e)|done| |done|].
    + pose proof (lookup_lt_Some _ _ _ Hi). pose proof (ok_elements K h Hok).
      destruct (probe_surj (length h) (code_in h k) (ok_length K h Hok) (Z.of_nat i) ltac:(lia)) as (t & Ht & Hp).
      exists t. split; [done|]. split; [done|]. intros t' e' Ht'. apply (ok_reach K h Hok t e Ht); [by rewrite Hp|done|done|done].
    + intros j e' Hj He' Hl'. apply not_true_iff_false. intros Hcmp'. apply Hj, Nat2Z.inj.
      apply (ok_unique K h Hok _ _ e' e); rewrite ?aget_nat; try done. destruct (ok_live K h Hok (Z.of_nat j) e') as [HK' _]; [by rewrite aget_nat|done|].
      pose proof (ok_laws K h Hok). apply (key_trans (K := K) (hasher := keyHasher h) _ k); try done. by apply (key_sym (K := K) (hasher := keyHasher h)).
  - assert (Habs : forall i e, aget (elements h) i = Some e -> live e -> same_key h k e.(key) = false).
    { intros i e Hi Hl. apply (List.find_none _ _ Hf (key e, value e)), list_elem_of_In, entry_elem.
      pose proof (aget_Some _ _ _ Hi). exists (Z.to_nat i), e. rewrite <- aget_nat, Z2Nat.id by lia. done. }
    destruct (find_absent K h Hok k Habs) as (t & e & Ht & Hfind & He & Hnl & Hpass).
    pose proof (aget_Some _ _ _ He) as Hrange. exists (Z.to_nat (probe (length h) (code_in h k) t)), e.
    assert (Hz : Z.of_nat (Z.to_nat (probe (length h) (code_in h k) t)) = probe (length h) (code_in h k) t) by lia.
    constructor; rewrite ?Hz; try done.
    + by rewrite <- aget_nat, Hz.
    + by exists t.
    + intros j e' _ Hj. apply (Habs (Z.of_nat j)). by rewrite aget_nat.
Qed.

Section Slot.
Context h (Hok : table_ok K h) (k : tok) (Hk : K k) (i : nat) e (Hs : slot_of h k i e).

Lemma slot_others p : p ∈ others (elements h) i -> same_key h k p.1 = false.
Proof. intros (j & e' & Hj & He' & Hl & ->)%others_elem. by apply (sl_others _ _ _ _ Hs j). Qed.

Lemma slot_entries : entries h ≡ₚ option_list (entry e) ++ others (elements h) i.
Proof. apply entries_at, Hs. Qed.

Lemma slot_entry m : m ≡ₚ entries h -> m_entry (same_key h) k m = (e.(key), e.(value)).
Proof.
  intros Hm. unfold m_entry. pose proof (sl_element _ _ _ _ Hs) as He.
  destruct (List.find (fun p => same_key h k p.1) m) as [p|] eqn:Hf.
  - apply List.find_some in Hf as [Hin Hcmp]. apply list_elem_of_In in Hin. rewrite Hm, slot_entries in Hin.
    apply elem_of_app in Hin as [Hin|Hin]; [|by rewrite slot_others in Hcmp].
    destruct (entry e) eqn:Hent; [|by apply elem_of_nil in Hin]. apply list_elem_of_singleton in Hin as ->.
    unfold entry in Hent. destruct (0 <=? hashcode e); [|done]. by injection Hent as <-.
  - destruct (decide (0 <= hashcode e)) as [Hl|Hl].
    + assert (Hin : (key e, value e) ∈ m) by (rewrite Hm, slot_entries, (entry_live _ Hl); apply list_elem_of_here).
      apply list_elem_of_In in Hin. apply (List.find_none _ _ Hf) in Hin. cbn in Hin. by rewrite (sl_key _ _ _ _ Hs Hl) in Hin.
    + by destruct (ok_free K h Hok (Z.of_nat i) e) as (-> & -> & _); [by rewrite aget_nat|done|].
Qed.

Lemma slot_value : get h k = e.(value).
Proof. unfold m_get. by rewrite slot_entry. Qed.

Lemma slot_remove : m_remove (same_key h) k (entries h) ≡ₚ others (elements h) i.
Proof.
  rewrite slot_entries. unfold m_remove. rewrite List.filter_app.
  change (List.filter (fun p => negb (same_key h k p.1)) (others (elements h) i)) with (m_remove (same_key h) k (others (elements h) i)).
  rewrite m_remove_absent by apply slot_others.
  destruct (decide (0 <= hashcode e)) as [Hl|Hl].
  - rewrite (entry_live _ Hl). cbn. by rewrite (sl_key _ _ _ _ Hs Hl).
  - by rewrite (entry_free _ Hl).
Qed.
End Slot.

(** What a search finds does not depend on the order of the entries. *)
Lemma entry_perm h k m : table_ok K h -> K k -> m ≡ₚ entries h -> m_entry (same_key h) k m = m_entry (same_key h) k (entries h).
Proof.
  intros Hok Hk Hm. destruct (find_slot h k Hok Hk) as (i & e & Hs).
  by rewrite !(slot_entry h Hok k i e Hs).
Qed.

Lemma find_value_ok h k : table_ok K h -> K k -> find_value h k = Some (get h k).
Proof.
  intros Hok Hk. destruct (find_slot h k Hok Hk) as (i & e & Hs). unfold find_value.
  rewrite (sl_find _ _ _ _ Hs). cbn [obind]. rewrite aget_nat, (sl_element _ _ _ _ Hs). cbn [obind].
  by rewrite (slot_value h Hok k i e Hs).
Qed.

(** ** Writing *)

Lemma free_if_eq (b c : bool) t h : free_if b c t h = set_freed h (freed h ++ if b && c then [t] else []).
Proof. unfold free_if. destruct (b && c); [done|]. rewrite app_nil_r. by destruct h. Qed.

Lemma set_element_spec h (i : nat) e c k v :
  elements h !! i = Some e ->
  _uhash_setElement h (Z.of_nat i) c k v =
    Some (given_back (valueDeleter h) e.(value),
          set_freed (set_elements h (<[i := mkElement c v k]> (elements h)) (count h)) (freed h ++ released (keyDeleter h) (valueDeleter h) (e.(key), e.(value)) k v)).
Proof.
  intros Hi. pose proof (lookup_lt_Some _ _ _ Hi). unfold _uhash_setElement. rewrite aget_nat, Hi. cbn [obind].
  rewrite !free_if_eq. cbn. rewrite aset_nat by done. cbn [obind]. by rewrite <- app_assoc.
Qed.

Lemma table_ok_freed h l : table_ok K h -> table_ok K (set_freed h l).
Proof. intros Hok. by apply (table_ok_ext K h). Qed.

(** The table [h'], with the entries [m], in the place of [h]. *)
Record becomes h (m : list (tok * tok)) h' : Prop := {
  bc_ok : table_ok K h';
  bc_entries : entries h' ≡ₚ m;
  bc_hasher : keyHasher h' = keyHasher h;
  bc_comparator : keyComparator h' = keyComparator h;
  bc_values : valueComparator h' = valueComparator h;
  bc_deleters : keyDeleter h' = keyDeleter h /\ valueDeleter h' = valueDeleter h;
  bc_ratios : lowWaterRatio h' = lowWaterRatio h /\ highWaterRatio h' = highWaterRatio h;
  bc_sized : ~ allocation_failed (A := A) -> sized h'
}.

Lemma internal_remove_spec h (i : nat) e :
  table_ok K h -> elements h !! i = Some e -> live e ->
  exists h', _uhash_internalRemoveElement h (Z.of_nat i) = Some (given_back (valueDeleter h) e.(value), h') /\
    table_ok K h' /\ h' = set_freed (set_elements h (<[i := mkElement HASH_DELETED Null Null]> (elements h)) (count h - 1))
      (freed h ++ released (keyDeleter h) (valueDeleter h) (e.(key), e.(value)) Null Null).
Proof.
  intros Hok Hi Hl. unfold _uhash_internalRemoveElement.
  pose proof (ok_count K h Hok). pose proof (ok_room K h Hok). destruct (ok_length K h Hok) as [Hr _].
  unfold int. rewrite isub_ok by ibound. cbn [obind]. unfold emptytok.
  rewrite (set_element_spec _ i e) by done. eexists. split; [reflexivity|]. split; [|done].
  apply table_ok_freed. by apply (erase_ok K h i e).
Qed.

Lemma sized_ext h h' :
  sized h -> length h' = length h -> primeIndex h' = primeIndex h -> lowWaterRatio h' = lowWaterRatio h ->
  highWaterRatio h' = highWaterRatio h -> lowWaterMark h' = lowWaterMark h -> highWaterMark h' = highWaterMark h -> sized h'.
Proof.
  intros [H1 H2 H3 H4 H5] El Ep Elr Ehr Elm Ehm. constructor; rewrite ?El, ?Ep, ?Elr, ?Ehr, ?Elm, ?Ehm; done.
Qed.

Lemma remove_entries h (i : nat) e k :
  table_ok K h -> slot_of h k i e -> live e -> K k ->
  omap entry (<[i := mkElement HASH_DELETED Null Null]> (elements h)) ≡ₚ m_remove (same_key h) k (entries h).
Proof.
  intros Hok Hs Hl Hk. rewrite (slot_remove h k i e Hs).
  rewrite entries_insert by (eapply lookup_lt_Some, Hs). by rewrite entry_free by (unfold live; cbn; unfold HASH_DELETED, INT32_MIN; lia).
Qed.

Lemma becomes_trans h m h1 m' h2 : becomes h m h1 -> becomes h1 m' h2 -> becomes h m' h2.
Proof.
  intros [_ _ R1 R2 R3 [R4 R4'] [R5 R5'] _] [S1 S2 S3 S4 S5 [S6 S6'] [S7 S7'] S8]. constructor; by rewrite ?S3, ?S4, ?S5, ?S6, ?S6', ?S7, ?S7'.
Qed.

Lemma becomes_perm h m m' h' : becomes h m h' -> m ≡ₚ m' -> becomes h m' h'.
Proof. intros [B1 B2 B3 B4 B5 B6 B7 B8] Hm. constructor; try done. by rewrite B2. Qed.

Lemma rehash_becomes h status :
  table_ok K h -> sized h -> U_SUCCESS status = true -> count h < 2 ^ 28 ->
  exists h' status', _uhash_rehash h status = Some (h', status') /\ becomes h (entries h) h' /\ freed h' = freed h /\
    ((status' = status /\ sized h' /\ (count h > highWaterMark h -> length h < length h')) \/
     (status' = U_MEMORY_ALLOCATION_ERROR /\ allocation_failed (A := A))).
Proof.
  intros Hok Hsz Hst Hbig. destruct (rehash_spec K h status Hok Hsz Hst ltac:(lia)) as (h' & st & E & Hok' & Hent & Hown & Hcase).
  destruct Hown as [O1 O2 O3 O4 O5 O6]. exists h', st. split; [done|]. split; [|split; [done|]].
  - constructor; try done. intros Hnf. by destruct Hcase as [(_ & Hsz2 & _)|[_ Hf]].
  - destruct Hcase as [(E1 & E2 & E3 & _)|[E1 E2]]; [by left|by right].
Qed.

(** The tokens that go to the deleters when the key [k] is removed. *)
Lemma remove_spec h k :
  table_ok K h -> sized h -> K k -> count h <= 2 ^ 28 ->
  exists h', _uhash_remove h k = Some (given_back (valueDeleter h) (get h k), h') /\ becomes h (m_remove (same_key h) k (entries h)) h' /\
    freed h' = freed h ++ released (keyDeleter h) (valueDeleter h) (m_entry (same_key h) k (entries h)) Null Null.
Proof.
  intros Hok Hsz Hk Hbig. destruct (find_slot h k Hok Hk) as (i & e & Hs). unfold _uhash_remove.
  rewrite (sl_find _ _ _ _ Hs). cbn [obind]. rewrite aget_nat, (sl_element _ _ _ _ Hs). cbn [obind].
  rewrite (slot_value h Hok k i e Hs), (slot_entry h Hok k i e Hs (entries h)) by done. unfold IS_EMPTY_OR_DELETED.
  destruct (Z.ltb_spec (hashcode e) 0) as [Hneg|Hpos]; cbn [negb].
  { exists h. assert (Hnl : ~ live e) by (unfold live; lia).
    destruct (ok_free K h Hok (Z.of_nat i) e) as (-> & -> & _); [rewrite aget_nat; apply Hs|done|].
    split; [unfold given_back, emptytok; by destruct (valueDeleter h)|]. split.
    - constructor; try done. rewrite (slot_remove h k i e Hs), (slot_entries h k i e Hs). by rewrite entry_free.
    - unfold released, key_released, value_released. cbn. by rewrite !andb_false_r, app_nil_r. }
  destruct (internal_remove_spec h i e Hok (sl_element _ _ _ _ Hs) Hpos) as (h1 & E & Hok1 & Hh1). rewrite E. cbn [obind].
  assert (Hent : entries h1 ≡ₚ m_remove (same_key h) k (entries h)) by (rewrite Hh1; by apply (remove_entries h i e k)).
  assert (Hsz1 : sized h1) by (rewrite Hh1; by apply (sized_ext h)).
  assert (Hkeep : becomes h (m_remove (same_key h) k (entries h)) h1) by (rewrite Hh1 in *; by constructor).
  assert (Hfr : freed h1 = freed h ++ released (keyDeleter h) (valueDeleter h) (e.(key), e.(value)) Null Null) by by rewrite Hh1.
  destruct (Z.ltb_spec (count h1) (lowWaterMark h1)) as [Hlow|Hlow].
  - destruct (rehash_becomes h1 U_ZERO_ERROR Hok1 Hsz1 eq_refl) as (h2 & st & E2 & Hbec & Hfr2 & _); [rewrite Hh1; cbn; lia|].
    rewrite E2. cbn [obind]. exists h2. split; [reflexivity|]. split; [|by rewrite Hfr2].
    by apply (becomes_perm _ (entries h1)); [apply (becomes_trans _ _ _ _ _ Hkeep)|].
  - exists h1. done.
Qed.

(** *** Putting *)

(** The table cannot be resized. *)
Definition fixed h : Prop := (lowWaterRatio h, highWaterRatio h) = RESIZE_POLICY_RATIO_TABLE U_FIXED.

(** With another resize policy there is room for an entry below the mark. *)
Lemma sized_room h : sized h -> ~ fixed h -> highWaterMark h + 1 < length h.
Proof.
  intros [Hidx Hlen (policy & Hpol) Hlow Hhigh] Hfix.
  pose proof (policy_marks (primeIndex h) policy Hidx) as Hm. unfold fixed in Hfix. rewrite <- Hpol in Hfix.
  rewrite Hpol in Hm. destruct Hm as (n & lo & hi & Hn & Hlo & Hhi & _ & _ & _ & Hroom).
  rewrite Hlen in Hn. injection Hn as <-. rewrite Hhigh in Hhi. injection Hhi as <-.
  apply Hroom. intros ->. by apply Hfix.
Qed.

Lemma delete_key_value_eq h k v : HASH_DELETE_KEY_VALUE h k v = set_freed h (freed h ++ refused (keyDeleter h) (valueDeleter h) k v).
Proof. unfold HASH_DELETE_KEY_VALUE, refused. rewrite !free_if_eq. cbn. by rewrite <- app_assoc. Qed.

(** What a call of [_uhash_put] that stores something does. *)
Inductive stored h (k v : tok) (status : UErrorCode) : tok -> UHashtable (A := A) -> UErrorCode -> Prop :=
| stored_ok h' :
    becomes h (m_put (same_key h) k v (entries h)) h' ->
    freed h' = freed h ++ released (keyDeleter h) (valueDeleter h) (m_entry (same_key h) k (entries h)) k v ->
    stored h k v status (given_back (valueDeleter h) (get h k)) h' status
| stored_error h' :
    becomes h (entries h) h' -> freed h' = freed h ++ refused (keyDeleter h) (valueDeleter h) k v ->
    allocation_failed (A := A) \/ fixed h ->
    stored h k v status Null h' U_MEMORY_ALLOCATION_ERROR.

Lemma becomes_refl h : table_ok K h -> sized h -> becomes h (entries h) h.
Proof. by constructor. Qed.

Lemma becomes_freed h m h' l : becomes h m h' -> becomes h m (set_freed h' l).
Proof.
  intros [B1 B2 B3 B4 B5 B6 B7 B8]. constructor; try done; [by apply table_ok_freed|].
  intros Hnf. apply (sized_ext h'); [by apply B8|done..].
Qed.

(** The element of a slot is overwritten. *)
Lemma becomes_write h k v (i : nat) e n :
  table_ok K h -> (~ allocation_failed (A := A) -> sized h) -> K k -> slot_of h k i e ->
  n = count h + (if 0 <=? e.(hashcode) then 0 else 1) -> n < length h ->
  becomes h (m_put (same_key h) k v (entries h)) (set_elements h (<[i := mkElement (code_in h k) v k]> (elements h)) n).
Proof.
  intros Hok Hsz Hk Hs Hn Hroom. destruct (sl_probe _ _ _ _ Hs) as (t & Ht & Hp & Hpass).
  constructor; try done.
  - apply (write_ok K h i t e); try done; [apply Hs|]. intros j e' Hj He' Hl'. pose proof (aget_Some _ _ _ He').
    apply (sl_others _ _ _ _ Hs (Z.to_nat j)); [lia| |done]. rewrite <- aget_nat, Z2Nat.id by lia. done.
  - unfold m_put. rewrite (slot_remove h k i e Hs). change (entries _) with (omap entry (<[i := mkElement (code_in h k) v k]> (elements h))).
    rewrite entries_insert by (eapply lookup_lt_Some, Hs). rewrite entry_live; [done|].
    unfold live. cbn. pose proof (code_of_range (keyHasher h) k). lia.
  - intros Hnf. apply (sized_ext h); [by apply Hsz|done..].
Qed.

Lemma store_spec h k v status :
  table_ok K h -> (~ allocation_failed (A := A) -> sized h) -> K k ->
  (~ fixed h -> count h + 1 < length h) ->
  exists r h' status', put_store h k v status = Some (r, h', status') /\ stored h k v status r h' status'.
Proof.
  intros Hok Hsz Hk Hroom. destruct (find_slot h k Hok Hk) as (i & e & Hs). unfold put_store.
  pose proof (ok_room K h Hok) as Hr. destruct (ok_length K h Hok) as [Hlr _]. pose proof (ok_count K h Hok) as Hcn.
  rewrite (sl_find _ _ _ _ Hs). cbn [obind]. rewrite aget_nat, (sl_element _ _ _ _ Hs). cbn [obind].
  set (n := count h + (if 0 <=? e.(hashcode) then 0 else 1)).
  assert (Hn : (if IS_EMPTY_OR_DELETED (hashcode e) return option Z then count h +! 1 else Some (count h)) = Some n).
  { unfold IS_EMPTY_OR_DELETED, n. rewrite Z.leb_antisym. destruct (Z.ltb_spec (hashcode e) 0); cbn [negb].
    - unfold int. by rewrite iadd_ok by ibound.
    - by rewrite Z.add_0_r. }
  rewrite Hn. cbn [obind].
  destruct (IS_EMPTY_OR_DELETED (hashcode e) && (n =? length h)) eqn:Hfull.
  - apply andb_true_iff in Hfull as [Hemp Hnl%Z.eqb_eq]. apply Z.ltb_lt in Hemp.
    unfold n in Hnl. rewrite (proj2 (Z.leb_gt _ _)) in Hnl by lia.
    assert (Hback : set_elements h (elements h) (n - 1) = h).
    { unfold n. rewrite (proj2 (Z.leb_gt 0 (hashcode e))) by lia. rewrite Z.add_simpl_r. by destruct h. }
    unfold put_err. rewrite Hback, delete_key_value_eq. do 3 eexists. split; [reflexivity|].
    apply stored_error; [|done|right; unfold fixed in *; destruct (decide ((lowWaterRatio h, highWaterRatio h) = RESIZE_POLICY_RATIO_TABLE U_FIXED)) as [|Hnf]; [done|specialize (Hroom Hnf); lia]].
    apply becomes_freed. by constructor.
  - assert (Hnl : n < length h).
    { unfold n in *. unfold IS_EMPTY_OR_DELETED in Hfull. rewrite Z.leb_antisym in *. destruct (Z.ltb_spec (hashcode e) 0); cbn [negb andb] in *; [|lia].
      apply Z.eqb_neq in Hfull. lia. }
    rewrite (set_element_spec _ i e) by exact (sl_element _ _ _ _ Hs). cbn [obind]. do 3 eexists. split; [reflexivity|].
    replace (given_back _ (value e)) with (given_back (valueDeleter h) (get h k)) by by rewrite (slot_value h Hok k i e Hs).
    apply stored_ok.
    + apply becomes_freed. apply (becomes_write h k v i e n); try done.
    + by rewrite (slot_entry h Hok k i e Hs (entries h)).
Qed.

Lemma put_spec h k v hint status :
  table_ok K h -> sized h -> K k -> U_SUCCESS status = true -> count h < 2 ^ 28 ->
  negb (Z.land hint HINT_VALUE_POINTER =? 0) && negb (pointer_nonnull v) = false ->
  exists r h' status', _uhash_put h k v hint status = Some (r, h', status') /\ stored h k v status r h' status'.
Proof.
  intros Hok Hsz Hk Hst Hbig Hv. unfold _uhash_put. rewrite U_FAILURE_SUCCESS, Hst, Hv. cbn [negb].
  pose proof (ok_room K h Hok) as Hr.
  rewrite Z.gtb_ltb. destruct (Z.ltb_spec (highWaterMark h) (count h)) as [Hgt|Hle]; cbn [obind].
  2:{ rewrite U_FAILURE_SUCCESS, Hst. cbn [negb]. apply store_spec; try done. intros Hnf. pose proof (sized_room h Hsz Hnf). lia. }
  destruct (rehash_becomes h status Hok Hsz Hst Hbig) as (h1 & st & E & Hb & Hfr & Hcase). rewrite E. cbn [obind].
  destruct Hcase as [(-> & Hsz1 & Hlen)|[-> Hfail]].
  - rewrite U_FAILURE_SUCCESS, Hst. cbn [negb].
    pose proof (ok_count K h Hok) as Hc. pose proof Hb as [B1 B2 _ B4 _ [B6 B6'] [B7 B7'] _].
    pose proof (ok_count K h1 B1) as Hc1. rewrite B2 in Hc1.
    destruct (store_spec h1 k v status) as (r & h' & st' & E' & Hs); try done; [specialize (Hlen ltac:(lia)); lia|].
    exists r, h', st'. split; [exact E'|].
    assert (Hent : m_entry (same_key h1) k (entries h1) = m_entry (same_key h) k (entries h)) by (rewrite B4; by apply entry_perm).
    destruct Hs as [h' Hb' Hfr'|h' Hb' Hfr' Hwhy].
    + replace (given_back (valueDeleter h1) _) with (given_back (valueDeleter h) (get h k)) by (unfold given_back, m_get; by rewrite B6', Hent). apply stored_ok.
      * apply (becomes_perm _ (m_put (same_key h1) k v (entries h1))); [by apply (becomes_trans _ _ _ _ _ Hb)|].
        rewrite B4. unfold m_put. by rewrite B2.
      * rewrite Hfr', Hfr, Hent. unfold released, key_released, value_released. by rewrite B6, B6'.
    + apply stored_error; [|rewrite Hfr', Hfr; unfold refused; by rewrite B6, B6'|unfold fixed in *; by rewrite B7, B7' in Hwhy].
      by apply (becomes_perm _ (entries h1)); [apply (becomes_trans _ _ _ _ _ Hb)|].
  - change (U_FAILURE U_MEMORY_ALLOCATION_ERROR) with true. cbv iota. unfold put_err. rewrite delete_key_value_eq.
    do 3 eexists. split; [reflexivity|]. apply stored_error; [by apply becomes_freed| |by left].
    destruct Hb as [_ _ _ _ _ [B6 B6'] _ _]. cbn. rewrite Hfr. unfold refused. by rewrite B6, B6'.
Qed.

(** ** Enumerating *)

(** The entries of the slots after [pos]. *)
Definition after h (pos : Z) : list (tok * tok) := omap entry (drop (Z.to_nat (pos + 1)) (elements h)).

Lemma after_all h pos : (forall i e, i <= pos -> aget (elements h) i = Some e -> ~ live e) -> entries h = after h pos.
Proof.
  intros Hno. unfold entries, after. rewrite <- (take_drop (Z.to_nat (pos + 1)) (elements h)) at 1. rewrite omap_app.
  replace (omap entry (take (Z.to_nat (pos + 1)) (elements h))) with (@nil (tok * tok)); [done|].
  destruct (omap entry (take _ _)) as [|p l] eqn:E; [done|exfalso].
  assert (Hp : p ∈ omap entry (take (Z.to_nat (pos + 1)) (elements h))) by (rewrite E; apply list_elem_of_here).
  apply entry_elem in Hp as (i & e & Hi & Hl & _).
  apply lookup_take_Some in Hi as [Hi Hlt]. apply (Hno (Z.of_nat i) e); [lia|by rewrite aget_nat|done].
Qed.

Lemma after_end h pos : Z.of_nat (List.length (elements h)) <= pos + 1 -> after h pos = [].
Proof. intros Hlen. unfold after. by rewrite drop_ge by lia. Qed.

Lemma after_step h pos e :
  -1 <= pos -> aget (elements h) (pos + 1) = Some e -> after h pos = option_list (entry e) ++ after h (pos + 1).
Proof.
  intros Hpos He. unfold after.
  assert (Hi : elements h !! Z.to_nat (pos + 1) = Some e) by (rewrite <- aget_nat, Z2Nat.id by lia; done).
  rewrite (drop_S _ _ _ Hi). replace (Z.to_nat (pos + 1 + 1)) with (S (Z.to_nat (pos + 1))) by lia.
  cbn. by destruct (entry e).
Qed.

Definition next_result h (pos : Z) (r : option Z) : Prop :=
  match r with
  | None => after h pos = []
  | Some j => exists e, pos < j /\ aget (elements h) j = Some e /\ live e /\ after h pos = (e.(key), e.(value)) :: after h j /\
      forall i e', pos < i < j -> aget (elements h) i = Some e' -> ~ live e'
  end.

Lemma next_loop_spec h fuel pos :
  Z.of_nat (List.length (elements h)) = length h -> -1 <= pos -> length h - pos <= Z.of_nat fuel -> (0 < fuel)%nat ->
  exists r, next_loop fuel h (pos + 1) = Some r /\ next_result h pos r.
Proof.
  intros Hlen. revert pos. induction fuel as [|fuel IH]; intros pos Hpos Hfuel Hf; [lia|]. cbn [next_loop].
  destruct (Z.ltb_spec (pos + 1) (length h)) as [Hlt|Hge].
  2:{ exists None. split; [done|]. apply after_end. lia. }
  destruct (aget_is_Some (elements h) (pos + 1)) as [e He]; [lia|]. rewrite He. cbn [obind].
  pose proof (after_step h pos e Hpos He) as Hstep. unfold IS_EMPTY_OR_DELETED.
  destruct (Z.ltb_spec (hashcode e) 0) as [Hneg|Hpos']; cbn [negb].
  - destruct (IH (pos + 1)) as (r & E & Hr); [lia..|]. exists r. split; [exact E|].
    assert (Hnl : ~ live e) by (unfold live; lia). rewrite (entry_free _ Hnl) in Hstep. cbn in Hstep.
    destruct r as [j|]; cbn in *; [|by rewrite Hstep]. destruct Hr as (e' & Hj & He' & Hl' & Haft & Hno).
    exists e'. split; [lia|]. do 2 (split; [done|]). split; [by rewrite Hstep|].
    intros i e0 Hi He0. destruct (decide (i = pos + 1)) as [->|]; [by simplify_eq|]. apply (Hno i); [lia|done].
  - exists (Some (pos + 1)). split; [done|]. exists e. rewrite (entry_live _ Hpos') in Hstep.
    split; [lia|]. do 3 (split; [done|]). intros i e' Hi. lia.
Qed.

Lemma next_element_spec h pos :
  Z.of_nat (List.length (elements h)) = length h -> -1 <= pos ->
  exists r, uhash_nextElement h pos = Some r /\ next_result h pos r.
Proof. intros Hlen Hpos. apply next_loop_spec; lia. Qed.

(** *** Removing everything *)

Lemma table_removeAll_loop_spec h fuel pos :
  table_ok K h -> sized h -> -1 <= pos -> length h - pos <= Z.of_nat fuel -> (0 < fuel)%nat ->
  (forall i e, i <= pos -> aget (elements h) i = Some e -> ~ live e) ->
  exists h', removeAll_loop fuel h pos = Some h' /\ becomes h [] h' /\ freed h' = freed h ++ all_released (keyDeleter h) (valueDeleter h) (entries h).
Proof.
  revert h pos. induction fuel as [|fuel IH]; intros h pos Hok Hsz Hpos Hfuel Hf Hno; [lia|]. cbn [removeAll_loop].
  pose proof (ok_elements K h Hok) as Hlen. pose proof (after_all h pos Hno) as Hent.
  destruct (next_element_spec h pos Hlen Hpos) as (r & E & Hr). rewrite E. cbn [obind].
  destruct r as [j|]; cbn in Hr.
  2:{ exists h. split; [done|]. rewrite Hent, Hr. split; [constructor; try done; by rewrite Hent, Hr|by rewrite app_nil_r]. }
  destruct Hr as (e & Hj & He & Hl & Haft & Hbetween). pose proof (aget_Some _ _ _ He) as Hjr.
  unfold uhash_removeElement. rewrite He. cbn [obind]. unfold IS_EMPTY_OR_DELETED. rewrite (proj2 (Z.ltb_ge _ _)) by done. cbn [negb].
  assert (Hi : elements h !! Z.to_nat j = Some e) by (rewrite <- aget_nat, Z2Nat.id by lia; done).
  destruct (internal_remove_spec h (Z.to_nat j) e Hok Hi Hl) as (h1 & E1 & Hok1 & Hh1). rewrite Z2Nat.id in E1 by lia. rewrite E1. cbn [obind].
  assert (Hno1 : forall i e, i <= j -> aget (elements h1) i = Some e -> ~ live e).
  { rewrite Hh1. cbn. intros i e' Hij. rewrite aget_insert by lia. rewrite Z2Nat.id by lia.
    destruct (Z.eqb_spec i j) as [->|]; [intros [= <-]; unfold live; cbn; unfold HASH_DELETED, INT32_MIN; lia|].
    intros He'. destruct (Z.le_gt_cases i pos); [by apply (Hno i)|apply (Hbetween i); [lia|done]]. }
  assert (Hent1 : entries h1 = after h j).
  { rewrite (after_all h1 j Hno1), Hh1. unfold after. cbn. by rewrite drop_insert_lt by lia. }
  destruct (IH h1 j) as (h' & E' & Hb & Hfr); [done|by rewrite Hh1; apply (sized_ext h)|lia|rewrite Hh1; cbn; lia|lia|done|].
  exists h'. split; [exact E'|]. split.
  - apply (becomes_trans h (entries h1) h1); [|done]. rewrite Hh1 in *. constructor; try done. intros _. by apply (sized_ext h).
  - rewrite Hfr, Hent, Haft, Hent1, Hh1. unfold all_released. cbn. by rewrite <- app_assoc.
Qed.

Lemma table_removeAll_spec h :
  table_ok K h -> sized h ->
  exists h', uhash_removeAll h = Some h' /\ becomes h [] h' /\ freed h' = freed h ++ all_released (keyDeleter h) (valueDeleter h) (entries h).
Proof.
  intros Hok Hsz. unfold uhash_removeAll. pose proof (ok_count K h Hok) as Hc. destruct (ok_length K h Hok) as [Hlr _].
  destruct (Z.eqb_spec (count h) 0) as [H0|Hn0]; cbn [negb].
  - exists h. assert (Hnil : entries h = []) by (destruct (entries h); [done|cbn in Hc; lia]).
    split; [done|]. rewrite Hnil, app_nil_r. split; [constructor; try done; by rewrite Hnil|done].
  - apply table_removeAll_loop_spec; try done; unfold UHASH_FIRST; [lia|lia|].
    intros i e Hi He. pose proof (aget_Some _ _ _ He). lia.
Qed.

(** *** The resize policy *)

Lemma set_policy_spec h policy :
  table_ok K h -> sized h -> count h < 2 ^ 28 ->
  exists hi lo h', uhash_setResizePolicy h policy = Some h' /\
    becomes (set_marks (_uhash_internalSetResizePolicy h policy) hi lo) (entries h) h' /\ freed h' = freed h.
Proof.
  intros Hok Hsz Hbig. unfold uhash_setResizePolicy, _uhash_internalSetResizePolicy.
  pose proof (policy_marks (primeIndex h) policy (sz_index h Hsz)) as Hm.
  destruct (RESIZE_POLICY_RATIO_TABLE policy) as [low high] eqn:Hpol.
  destruct Hm as (n & lo & hi & Hn & Hlo & Hhi & _). rewrite (sz_length h Hsz) in Hn. injection Hn as <-.
  cbn [length lowWaterRatio highWaterRatio]. rewrite Hlo, Hhi. cbn [obind].
  set (h1 := set_marks _ hi lo).
  assert (Hok1 : table_ok K h1) by by apply (table_ok_ext K h).
  assert (Hsz1 : sized h1) by (destruct Hsz; constructor; try done; by exists policy).
  destruct (rehash_becomes h1 U_ZERO_ERROR Hok1 Hsz1 eq_refl Hbig) as (h' & st & E & Hb & Hfr & _).
  rewrite E. cbn [obind]. exists hi, lo, h'. done.
Qed.

(** *** Opening *)

Lemma init_spec block keyHash keyComp valueComp idx :
  KeyLaws keyHash (code keyComp) K -> 0 <= idx <= 26 -> ~ allocation_failed (A := A) ->
  exists h, _uhash_init block keyHash keyComp valueComp idx U_ZERO_ERROR = Some (Some h, U_ZERO_ERROR) /\
    table_ok K h /\ sized h /\ ~ fixed h /\ entries h = [] /\ freed h = [] /\
    keyHasher h = keyHash /\ keyComparator h = keyComp /\ valueComparator h = valueComp /\
    keyDeleter h = false /\ valueDeleter h = false.
Proof.
  intros Hlaws Hidx Hnf. unfold _uhash_init. change (U_FAILURE U_ZERO_ERROR) with false. cbv iota zeta.
  unfold _uhash_allocate. change (U_FAILURE U_ZERO_ERROR) with false. cbv iota.
  pose proof (policy_marks idx U_GROW Hidx) as Hm. cbn in Hm. destruct Hm as (n & lo & hi & Hn & Hlo & Hhi & _).
  rewrite Hn. cbn [obind]. pose proof (primes_lengths idx n Hidx Hn) as [Hnr _].
  destruct (uprv_malloc n) as [elems|] eqn:Ealloc; [|exfalso; apply Hnf; exists n; split; [lia|done]].
  cbn [_uhash_internalSetResizePolicy RESIZE_POLICY_RATIO_TABLE set_block set_elements lowWaterRatio highWaterRatio].
  rewrite Hlo, Hhi. cbn [obind]. change (U_FAILURE U_ZERO_ERROR) with false. cbv iota.
  eexists. split; [reflexivity|]. set (h := set_marks _ _ _).
  assert (Hlb : Z.of_nat (List.length elems) = n) by (rewrite (uprv_malloc_length _ _ Ealloc); lia).
  destruct (empty_ok K h elems idx n) as [Hok Hent]; try done.
  split; [done|]. split; [constructor; [done|done|by exists U_GROW|exact Hlo|exact Hhi]|]. split; [done|]. split; [done|]. repeat split.
Qed.

Lemma table_size_loop_spec fuel size i :
  size <= 1073741789 -> 0 <= i <= 26 -> 27 - i <= Z.of_nat fuel ->
  exists j, size_loop fuel size i = Some j /\ 0 <= j <= 26.
Proof.
  intros Hsize. revert i. induction fuel as [|fuel IH]; intros i Hi Hfuel; [lia|]. cbn [size_loop].
  unfold PRIMES_LENGTH. rewrite (proj2 (Z.ltb_lt _ _)) by lia.
  destruct (aget_is_Some PRIMES i) as [p Hp]; [change (Z.of_nat (List.length PRIMES)) with 28; lia|].
  rewrite Hp. cbn [obind]. destruct (Z.ltb_spec p size); [|by exists i].
  destruct (decide (i = 26)) as [->|]; [injection Hp as <-; lia|]. apply IH; lia.
Qed.

End Operations.
End UHashMap.
