(* ===== verification/UHashRun.v ===== *)
(** * Runs of the hash table

    Sequences of calls on one table against the same calls on a map: the results
    are the same, and what the deleters have been given is what the map gave up.
    Then what a table that owns its keys and values does with them, what
    [uhash_equals] compares, and what happens when memory runs out. *)
From S2P Require Import Prelude Int32 UVector UString UHash UHashTable UHashMap.
Local Open Scope Z_scope.

Module UHashRun.
Import UVector UHash UHashTable UHashMap.

Section Runs.
Context {A : Type} `{EqDecision A} {alloc : Allocator (UHashElement (A := A))} (K : UHashTok (A := A) -> Prop).
Implicit Types h : UHashtable (A := A).

#[local] Abbreviation tok := (UHashTok (A := A)).
#[local] Abbreviation same_key h := (code (keyComparator h)).
#[local] Abbreviation code_in h := (code_of (keyHasher h)).
#[local] Abbreviation get h k := (m_get (same_key h) k (entries h)).

(** ** Calls *)

(** The calls of the functions of uhash.h on a table. *)
Inductive op :=
| Put (k v : tok) | Iput (k : Z) (v : tok) | Puti (k : tok) (v : Z) | Iputi (k v : Z)
| Get (k : tok) | Iget (k : Z) | Geti (k : tok) | Igeti (k : Z) | Contains (k : tok)
| Remove (k : tok) | Iremove (k : Z) | Removei (k : tok) | Iremovei (k : Z)
| Count | RemoveAll | SetResizePolicy (policy : UHashResizePolicy).

(** What a call returns. *)
Inductive out := Token (t : tok) | Number (n : Z) | Nothing.

Definition op_key (o : op) : option tok :=
  match o with
  | Put k _ | Puti k _ | Get k | Geti k | Contains k | Remove k | Removei k => Some k
  | Iput k _ | Iputi k _ | Iget k | Igeti k | Iremove k | Iremovei k => Some (Integer k)
  | Count | RemoveAll | SetResizePolicy _ => None
  end.

(** Keys that the hash function is for, and tables that can be resized. *)
Definition op_ok (o : op) : Prop :=
  match op_key o with Some k => K k | None => o <> SetResizePolicy U_FIXED end.

Definition step h (o : op) : option (out * UHashtable) :=
  match o with
  | Put k v => let! '(r, h, _) := uhash_put h k v U_ZERO_ERROR in Some (Token r, h)
  | Iput k v => let! '(r, h, _) := uhash_iput h k v U_ZERO_ERROR in Some (Token r, h)
  | Puti k v => let! '(r, h, _) := uhash_puti h k v U_ZERO_ERROR in Some (Number r, h)
  | Iputi k v => let! '(r, h, _) := uhash_iputi h k v U_ZERO_ERROR in Some (Number r, h)
  | Get k => let! r := uhash_get h k in Some (Token r, h)
  | Iget k => let! r := uhash_iget h k in Some (Token r, h)
  | Geti k => let! r := uhash_geti h k in Some (Number r, h)
  | Igeti k => let! r := uhash_igeti h k in Some (Number r, h)
  | Contains k => let! r := uhash_find h k in Some (Number (match r with Some _ => 1 | None => 0 end), h)
  | Remove k => let! '(r, h) := uhash_remove h k in Some (Token r, h)
  | Iremove k => let! '(r, h) := uhash_iremove h k in Some (Token r, h)
  | Removei k => let! '(r, h) := uhash_removei h k in Some (Number r, h)
  | Iremovei k => let! '(r, h) := uhash_iremovei h k in Some (Number r, h)
  | Count => Some (Number (uhash_count h), h)
  | RemoveAll => let! h := uhash_removeAll h in Some (Nothing, h)
  | SetResizePolicy policy => let! h := uhash_setResizePolicy h policy in Some (Nothing, h)
  end.

Fixpoint run h (ops : list op) : option (list out * UHashtable) :=
  match ops with
  | [] => Some ([], h)
  | o :: ops' => let! '(r, h) := step h o in let! '(rs, h) := run h ops' in Some (r :: rs, h)
  end.

(** The same calls on a map: the entries and what the deleters have been given.
    No call is an error. *)
Section Abstract.
Context (kd vd : bool) (cmp : tok -> tok -> bool).

Definition as_pointer (t : tok) : option out := let! p := pointer t in Some (Token p).
Definition as_integer (t : tok) : option out := let! n := integer t in Some (Number n).

Definition s_remove (k : tok) (s : list (tok * tok) * list tok) (result : tok -> option out) :=
  let! r := result (given_back vd (m_get cmp k s.1)) in
  Some (r, (m_remove cmp k s.1, s.2 ++ released kd vd (m_entry cmp k s.1) Null Null)).
Definition s_put (k v : tok) (s : list (tok * tok) * list tok) (result : tok -> option out) :=
  let! r := result (given_back vd (m_get cmp k s.1)) in
  Some (r, (m_put cmp k v s.1, s.2 ++ released kd vd (m_entry cmp k s.1) k v)).
Definition s_store (k v : tok) s result := if pointer_nonnull v then s_put k v s result else s_remove k s result.

Definition s_step (s : list (tok * tok) * list tok) (o : op) : option (out * (list (tok * tok) * list tok)) :=
  match o with
  | Put k v => s_store k v s as_pointer
  | Iput k v => s_store (Integer k) v s as_pointer
  | Puti k v => s_put k (Integer v) s as_integer
  | Iputi k v => s_put (Integer k) (Integer v) s as_integer
  | Get k => let! r := as_pointer (m_get cmp k s.1) in Some (r, s)
  | Iget k => let! r := as_pointer (m_get cmp (Integer k) s.1) in Some (r, s)
  | Geti k => let! r := as_integer (m_get cmp k s.1) in Some (r, s)
  | Igeti k => let! r := as_integer (m_get cmp (Integer k) s.1) in Some (r, s)
  | Contains k => Some (Number (if List.existsb (fun p => cmp k p.1) s.1 then 1 else 0), s)
  | Remove k => s_remove k s as_pointer
  | Iremove k => s_remove (Integer k) s as_pointer
  | Removei k => s_remove k s as_integer
  | Iremovei k => s_remove (Integer k) s as_integer
  | Count => Some (Number (Z.of_nat (List.length s.1)), s)
  | RemoveAll => Some (Nothing, ([], s.2 ++ all_released kd vd s.1))
  | SetResizePolicy _ => Some (Nothing, s)
  end.

Fixpoint s_run (s : list (tok * tok) * list tok) (ops : list op) : option (list out * (list (tok * tok) * list tok)) :=
  match ops with
  | [] => Some ([], s)
  | o :: ops' => let! '(r, s) := s_step s o in let! '(rs, s) := s_run s ops' in Some (r :: rs, s)
  end.
End Abstract.

(** *** One call *)

Section Refinement.
Context (kd vd : bool) (cmp : tok -> tok -> bool) (Hnf : ~ allocation_failed (A := A)).

Record related h (s : list (tok * tok) * list tok) : Prop := {
  rl_ok : table_ok K h;
  rl_sized : sized h;
  rl_policy : ~ fixed h;
  rl_entries : entries h ≡ₚ s.1;
  rl_freed : freed h ≡ₚ s.2;
  rl_key : same_key h = cmp;
  rl_owner : keyDeleter h = kd /\ valueDeleter h = vd
}.

(** Both fail, or both give the same result and related states. *)
Definition refines (x : option (out * UHashtable)) (y : option (out * (list (tok * tok) * list tok))) : Prop :=
  match x, y with
  | Some (r, h'), Some (r', s') => r = r' /\ related h' s'
  | None, None => True
  | _, _ => False
  end.

Lemma becomes_related h m h' f :
  ~ fixed h -> same_key h = cmp -> keyDeleter h = kd /\ valueDeleter h = vd -> becomes K h m h' -> freed h' ≡ₚ f -> related h' (m, f).
Proof.
  intros Hpol Hkey Hown [B1 B2 B3 B4 B5 [B6 B6'] [B7 B7'] B8] Hf. constructor; cbn; try done.
  - by apply B8.
  - unfold fixed. by rewrite B7, B7'.
  - by rewrite B4.
  - by rewrite B6, B6'.
Qed.

Lemma related_perm h m m' f : related h (m, f) -> m ≡ₚ m' -> related h (m', f).
Proof. intros [R1 R2 R3 R4 R5 R6 R7] Hm. constructor; try done. cbn in *. by rewrite R4. Qed.

Section Step.
Context h (s : list (tok * tok) * list tok) (HR : related h s) (Hbig : Z.of_nat (List.length s.1) < 2 ^ 28).

Lemma related_count : count h = Z.of_nat (List.length s.1).
Proof. destruct HR as [Hok _ _ He _ _ _]. rewrite (ok_count K h Hok). by rewrite He. Qed.

Lemma related_entry k : K k -> m_entry (same_key h) k (entries h) = m_entry cmp k s.1.
Proof. intros Hk. destruct HR as [Hok _ _ He _ Hc _]. rewrite <- (entry_perm K h k s.1) by done. by rewrite Hc. Qed.

Lemma related_get k : K k -> get h k = m_get cmp k s.1.
Proof. intros Hk. unfold m_get. by rewrite related_entry. Qed.

Lemma remove_refines k result :
  K k ->
  refines (let! '(r, h) := _uhash_remove h k in let! r := result r in Some (r, h)) (s_remove kd vd cmp k s result).
Proof.
  intros Hk. pose proof HR as [Hok Hsz Hpol He Hf Hc [Hkd Hvd]]. pose proof related_count.
  destruct (remove_spec K h k Hok Hsz Hk ltac:(lia)) as (h' & E & Hb & Hfr). rewrite E. cbn [obind]. unfold s_remove.
  rewrite related_get, Hvd by done. destruct (result _) as [r|]; cbn; [|done]. split; [done|].
  apply (related_perm _ (m_remove (same_key h) k (entries h))); [|by rewrite Hc, He].
  apply (becomes_related h); [done|done|done|done|]. by rewrite Hfr, Hf, related_entry, Hkd, Hvd.
Qed.

Lemma put_refines k v hint result :
  K k -> negb (Z.land hint HINT_VALUE_POINTER =? 0) && negb (pointer_nonnull v) = false ->
  refines (let! '(r, h, _) := _uhash_put h k v hint U_ZERO_ERROR in let! r := result r in Some (r, h))
    (s_put kd vd cmp k v s result).
Proof.
  intros Hk Hv. pose proof HR as [Hok Hsz Hpol He Hf Hc [Hkd Hvd]]. pose proof related_count.
  destruct (put_spec K h k v hint U_ZERO_ERROR Hok Hsz Hk eq_refl ltac:(lia) Hv) as (r & h' & st & E & Hs). rewrite E. cbn [obind].
  unfold s_put. destruct Hs as [h' Hb Hfr|h' Hb Hfr [Hno|Hfix]]; [|done..].
  rewrite related_get, Hvd by done. destruct (result _) as [r|]; cbn; [|done]. split; [done|].
  apply (related_perm _ (m_put (same_key h) k v (entries h))); [|unfold m_put; by rewrite Hc, He].
  apply (becomes_related h); [done|done|done|done|]. by rewrite Hfr, Hf, related_entry, Hkd, Hvd.
Qed.

Lemma store_refines k v hint result :
  K k -> Z.land hint HINT_VALUE_POINTER <> 0 ->
  refines (let! '(r, h, _) := _uhash_put h k v hint U_ZERO_ERROR in let! r := result r in Some (r, h))
    (s_store kd vd cmp k v s result).
Proof.
  intros Hk Hh. unfold s_store. destruct (pointer_nonnull v) eqn:Hv; [apply put_refines; [done|by rewrite Hv, andb_false_r]|].
  pose proof (remove_refines k result Hk) as Hr. unfold _uhash_put. change (U_FAILURE U_ZERO_ERROR) with false. cbv iota.
  rewrite Hv, (proj2 (Z.eqb_neq _ _) Hh). cbn [negb andb]. destruct (_uhash_remove h k) as [[r h']|]; exact Hr.
Qed.

Lemma get_refines k (result : tok -> option out) :
  K k -> refines (let! v := find_value h k in let! r := result v in Some (r, h)) (let! r := result (m_get cmp k s.1) in Some (r, s)).
Proof.
  intros Hk. pose proof HR as [Hok _ _ _ _ _ _]. rewrite (find_value_ok K h k Hok Hk), related_get by done. cbn [obind].
  by destruct (result _).
Qed.
Lemma contains_refines k :
  K k ->
  refines (let! r := uhash_find h k in Some (Number (match r with Some _ => 1 | None => 0 end), h))
    (Some (Number (if List.existsb (fun p => cmp k p.1) s.1 then 1 else 0), s)).
Proof.
  intros Hk. pose proof HR as [Hok _ _ He _ Hc _]. destruct (find_slot K h k Hok Hk) as (i & e & Hs).
  unfold uhash_find. rewrite (sl_find _ _ _ _ Hs). cbn [obind]. rewrite aget_nat, (sl_element _ _ _ _ Hs). cbn [obind].
  assert (Hex : List.existsb (fun p => cmp k p.1) s.1 = negb (IS_EMPTY_OR_DELETED (hashcode e))).
  { unfold IS_EMPTY_OR_DELETED. destruct (Z.ltb_spec (hashcode e) 0) as [Hneg|Hpos]; cbn [negb].
    - apply not_true_iff_false. intros (p & Hin & Hp)%List.existsb_exists. apply list_elem_of_In in Hin.
      rewrite <- He, (slot_entries h k i e Hs), entry_free in Hin by (unfold live; lia).
      pose proof (slot_others h k i e Hs p Hin) as Hfalse. rewrite Hc in Hfalse. congruence.
    - apply List.existsb_exists. exists (key e, value e). split.
      + apply list_elem_of_In. rewrite <- He, (slot_entries h k i e Hs), (entry_live e Hpos). apply list_elem_of_here.
      + rewrite <- Hc. by apply (sl_key _ _ _ _ Hs). }
  rewrite Hex. cbn. split; [|done]. by destruct (IS_EMPTY_OR_DELETED (hashcode e)).
Qed.

(** A call of the interface is a call of the function it wraps, with the result
    read as a pointer or as an integer. *)
Ltac wraps L :=
  let Hr := fresh in
  pose proof L as Hr;
  match type of Hr with
  | refines ?x _ => match goal with |- refines ?g _ => replace g with x; [exact Hr|clear Hr] end
  end;
  unfold as_pointer, as_integer, uhash_put, uhash_iput, uhash_puti, uhash_iputi, uhash_get, uhash_iget, uhash_geti, uhash_igeti,
    uhash_remove, uhash_iremove, uhash_removei, uhash_iremovei;
  match goal with
  | |- obind ?X _ = _ => destruct X as [t|]; [|done]; repeat (let u := fresh in destruct t as [t u]); cbn [obind]
  end;
  match goal with |- context [obind ?X _] => lazymatch X with obind _ _ => fail | _ => by destruct X end end.

Lemma step_refines o : op_ok o -> refines (step h o) (s_step kd vd cmp s o).
Proof.
  intros Ho. pose proof HR as [Hok Hsz Hpol He Hf Hc [Hkd Hvd]]. pose proof related_count as Hn.
  destruct o as [k v|k v|k v|k v|k|k|k|k|k|k|k|k|k| | |policy]; unfold op_ok in Ho; cbn in Ho; cbn [step s_step].
  - wraps (store_refines k v (Z.lor HINT_KEY_POINTER HINT_VALUE_POINTER) as_pointer Ho ltac:(by vm_compute)).
  - wraps (store_refines (Integer k) v HINT_VALUE_POINTER as_pointer Ho ltac:(by vm_compute)).
  - wraps (put_refines k (Integer v) HINT_KEY_POINTER as_integer Ho eq_refl).
  - wraps (put_refines (Integer k) (Integer v) 0 as_integer Ho eq_refl).
  - wraps (get_refines k as_pointer Ho).
  - wraps (get_refines (Integer k) as_pointer Ho).
  - wraps (get_refines k as_integer Ho).
  - wraps (get_refines (Integer k) as_integer Ho).
  - by apply contains_refines.
  - wraps (remove_refines k as_pointer Ho).
  - wraps (remove_refines (Integer k) as_pointer Ho).
  - wraps (remove_refines k as_integer Ho).
  - wraps (remove_refines (Integer k) as_integer Ho).
  - cbn. split; [|done]. unfold uhash_count. by rewrite Hn.
  - destruct (table_removeAll_spec K h Hok Hsz) as (h' & E & Hb & Hfr). rewrite E. cbn. split; [done|].
    apply (becomes_related h); [done|done|done|done|]. rewrite Hfr, Hf, Hkd, Hvd. unfold all_released. by rewrite He.
  - destruct (set_policy_spec K h policy Hok Hsz ltac:(lia)) as (hi & lo & h' & E & Hb & Hfr). rewrite E. cbn. split; [done|].
    destruct s as [m f]. apply (related_perm _ (entries h)); [|done].
    apply (becomes_related _ _ _ f) in Hb; [done| | | |by rewrite Hfr].
    + unfold fixed, _uhash_internalSetResizePolicy. destruct policy; [done..|]. by destruct Ho.
    + unfold _uhash_internalSetResizePolicy. by destruct (RESIZE_POLICY_RATIO_TABLE policy).
    + unfold _uhash_internalSetResizePolicy. by destruct (RESIZE_POLICY_RATIO_TABLE policy).
Qed.

End Step.

(** *** A run *)

Lemma s_step_length s o r s' :
  s_step kd vd cmp s o = Some (r, s') -> Z.of_nat (List.length s'.1) <= Z.of_nat (List.length s.1) + 1.
Proof.
  assert (Hrm : forall k, (List.length (m_remove cmp k s.1) <= List.length s.1)%nat) by (intros; apply List.filter_length_le).
  assert (Hr : forall k f r s', s_remove kd vd cmp k s f = Some (r, s') -> Z.of_nat (List.length s'.1) <= Z.of_nat (List.length s.1) + 1).
  { intros k f r0 s0. unfold s_remove. destruct (f _); [|done]. intros [= _ <-]. cbn. pose proof (Hrm k). lia. }
  assert (Hp : forall k v f r s', s_put kd vd cmp k v s f = Some (r, s') -> Z.of_nat (List.length s'.1) <= Z.of_nat (List.length s.1) + 1).
  { intros k v f r0 s0. unfold s_put. destruct (f _); [|done]. intros [= _ <-]. cbn. pose proof (Hrm k). lia. }
  assert (Hg : forall x r s', (let! r := x in Some (r, s)) = Some (r : out, s') -> Z.of_nat (List.length s'.1) <= Z.of_nat (List.length s.1) + 1).
  { intros [x|] r0 s0; [|done]. intros [= _ <-]. lia. }
  destruct o; cbn [s_step]; unfold s_store; try destruct (pointer_nonnull _); eauto; intros [= _ <-]; cbn; lia.
Qed.

Lemma run_refines ops h s :
  related h s -> Forall op_ok ops -> Z.of_nat (List.length s.1) + Z.of_nat (List.length ops) <= 2 ^ 28 ->
  match run h ops, s_run kd vd cmp s ops with
  | Some (rs, h'), Some (rs', s') => rs = rs' /\ related h' s'
  | None, None => True
  | _, _ => False
  end.
Proof.
  revert h s. induction ops as [|o ops IH]; intros h s HR Hops Hbig; [done|]. cbn [run s_run]. cbn [List.length] in Hbig.
  apply Forall_cons in Hops as [Ho Hops].
  pose proof (step_refines h s HR ltac:(lia) o Ho) as Hs. pose proof (s_step_length s o) as Hl. unfold refines in Hs.
  destruct (step h o) as [[r h1]|], (s_step kd vd cmp s o) as [[r' s1]|]; try done. destruct Hs as [<- HR1]. cbn [obind].
  specialize (Hl r s1 eq_refl). specialize (IH h1 s1 HR1 Hops ltac:(lia)).
  destruct (run h1 ops) as [[rs h']|], (s_run kd vd cmp s1 ops) as [[rs' s']|]; try done. cbn. by destruct IH as [<- ?].
Qed.
End Refinement.

(** ** A table that owns its keys and values *)

(** The pointers in a list of entries. *)
Definition owned (l : list (tok * tok)) : list tok := concat (map (fun p => List.filter pointer_nonnull [p.1; p.2]) l).

#[local] Instance owned_perm : Proper ((≡ₚ) ==> (≡ₚ)) owned.
Proof.
  intros l l' Hl. unfold owned. induction Hl as [|p l l' _ IH|p q l|l l' l'' _ IH _ IH']; cbn [map concat]; [done|by rewrite IH| |by rewrite IH].
  rewrite !app_assoc. by rewrite (Permutation_app_comm (List.filter _ [q.1; q.2])).
Qed.

Lemma owned_app l l' : owned (l ++ l') = owned l ++ owned l'.
Proof. unfold owned. by rewrite map_app, concat_app. Qed.

Lemma refused_owned k v : refused true true k v = owned [(k, v)].
Proof. unfold refused, owned. cbn. by destruct (pointer_nonnull k), (pointer_nonnull v). Qed.

Lemma owned_nonnull t l : t ∈ owned l -> pointer_nonnull t = true.
Proof.
  unfold owned. intros Ht. apply list_elem_of_In, List.in_concat in Ht as (x & Hx & Ht).
  apply List.in_map_iff in Hx as (p & <- & _). by apply List.filter_In in Ht as [_ ?].
Qed.

(** An entry gives up the pointers that are not the new ones. *)
Lemma released_owned (p : tok * tok) k v :
  k ∉ owned [p] -> v ∉ owned [p] -> released true true p k v = owned [p].
Proof.
  destruct p as [k0 v0]. unfold released, key_released, value_released, owned. cbn. intros Hk Hv.
  assert (Hne : forall (t : tok) (l : list tok), t ∉ l -> forall u, u ∈ l -> bool_decide (u = t) = false).
  { intros t l Ht u Hu. apply bool_decide_eq_false_2. by intros ->. }
  destruct (pointer_nonnull k0), (pointer_nonnull v0); cbn in *; try done;
    rewrite ?(Hne _ _ Hk), ?(Hne _ _ Hv); try done; repeat first [apply list_elem_of_here | apply list_elem_of_further].
Qed.

Lemma released_all_owned l : all_released true true l = owned l.
Proof.
  assert (Hnull : forall p, Null ∉ owned [p]) by (intros p Hp%owned_nonnull; done).
  unfold all_released. induction l as [|p l IH]; [done|]. cbn [map concat]. rewrite IH, released_owned by done.
  by rewrite <- (owned_app [p] l).
Qed.

(** The entry of a key and the others. *)
Lemma entry_split h k :
  table_ok K h -> K k ->
  owned (entries h) ≡ₚ owned [m_entry (same_key h) k (entries h)] ++ owned (m_remove (same_key h) k (entries h)).
Proof.
  intros Hok Hk. destruct (find_slot K h k Hok Hk) as (i & e & Hs).
  rewrite (slot_entry K h Hok k i e Hs (entries h)), (slot_remove h k i e Hs), (slot_entries h k i e Hs), owned_app by done.
  apply Permutation_app; [|done]. destruct (decide (0 <= hashcode e)) as [Hl|Hl]; [by rewrite (entry_live _ Hl)|].
  destruct (ok_free K h Hok (Z.of_nat i) e) as (-> & -> & _); [rewrite aget_nat; apply Hs|done|]. by rewrite (entry_free _ Hl).
Qed.

(** The calls of a client that keeps only pointers in its table. *)
Definition owner_op (o : op) : Prop :=
  match o with
  | Put _ (Pointer _) => True
  | Get _ | Contains _ | Remove _ | Count | RemoveAll | SetResizePolicy _ => True
  | _ => False
  end.

(** The pointers that a call gives to the table. *)
Definition given (o : op) : list tok := match o with Put k v => owned [(k, v)] | _ => [] end.

(** What the table has been given is in the table or has gone to the deleters. *)
Lemma owner_step cmp h s o r s' :
  related true true cmp h s -> op_ok o -> owner_op o -> NoDup (s.2 ++ owned s.1 ++ given o) ->
  s_step true true cmp s o = Some (r, s') -> s'.2 ++ owned s'.1 ≡ₚ s.2 ++ owned s.1 ++ given o.
Proof.
  intros HR Ho Hown Hnd. pose proof HR as [Hok _ _ He _ Hc _].
  assert (Hsplit : forall k, K k -> owned s.1 ≡ₚ owned [m_entry cmp k s.1] ++ owned (m_remove cmp k s.1)).
  { intros k Hk. rewrite <- (related_entry true true cmp h s HR k Hk), <- He, <- Hc. by apply entry_split. }
  assert (Hnull : forall p, Null ∉ owned [p]) by (intros p Hp%owned_nonnull; done).
  destruct o as [k v| | | |k| | | |k|k| | | | | |policy]; try done; unfold op_ok in Ho; cbn in Ho; cbn [s_step given];
    rewrite ?app_nil_r.
  - assert (Hvn : pointer_nonnull v = true) by by destruct v.
    unfold s_store. rewrite Hvn. unfold s_put. destruct (as_pointer _); [|done]. intros [= _ <-]. cbn [fst snd].
    cbn [given] in Hnd. rewrite (Hsplit k Ho) in Hnd. rewrite (Hsplit k Ho).
    assert (Hfresh : forall t, t ∈ owned [(k, v)] -> t ∉ owned [m_entry cmp k s.1]).
    { intros t Ht Ht'. apply NoDup_app in Hnd as (_ & _ & Hnd). apply NoDup_app in Hnd as (_ & Hno & _).
      apply (Hno t); [apply elem_of_app; by left|done]. }
    rewrite released_owned; [| |].
    + unfold m_put. change ((k, v) :: m_remove cmp k s.1) with ([(k, v)] ++ m_remove cmp k s.1). rewrite owned_app.
      rewrite <- !app_assoc. do 2 (apply Permutation_app; [done|]). apply Permutation_app_comm.
    + destruct (pointer_nonnull k) eqn:Hkn; [|by intros Hin%owned_nonnull; congruence]. apply Hfresh. unfold owned. cbn. rewrite Hkn. apply list_elem_of_here.
    + apply Hfresh. unfold owned. cbn. rewrite Hvn. destruct (pointer_nonnull k); [apply list_elem_of_further|]; apply list_elem_of_here.
  - unfold as_pointer. destruct (pointer _); [|done]. by intros [= _ <-].
  - by intros [= _ <-].
  - unfold s_remove. destruct (as_pointer _); [|done]. intros [= _ <-]. cbn [fst snd]. rewrite released_owned by done.
    rewrite (Hsplit k Ho). by rewrite <- app_assoc.
  - by intros [= _ <-].
  - intros [= _ <-]. cbn. by rewrite released_all_owned, app_nil_r.
  - by intros [= _ <-].
Qed.

(** Such a client never reads an integer as a pointer. *)
Definition pointers (l : list (tok * tok)) : Prop := forall p, p ∈ l -> pointer p.2 <> None.

Lemma m_remove_elem cmp k m (p : tok * tok) : p ∈ m_remove cmp k m -> p ∈ m.
Proof. unfold m_remove. intros Hp%list_elem_of_In%List.filter_In. apply list_elem_of_In, Hp. Qed.

Lemma m_get_pointer cmp k m : pointers m -> pointer (m_get cmp k m) <> None.
Proof.
  intros Hm. unfold m_get, m_entry. destruct (List.find _ m) as [p|] eqn:Hf; [|done].
  apply Hm, list_elem_of_In. by apply List.find_some in Hf as [Hin _].
Qed.

Lemma owner_step_total cmp (s : list (tok * tok) * list tok) o :
  owner_op o -> pointers s.1 -> exists r s', s_step true true cmp s o = Some (r, s') /\ pointers s'.1.
Proof.
  intros Ho Hp. assert (Hrm : forall k, pointers (m_remove cmp k s.1)) by (intros k p Hin%m_remove_elem; by apply Hp).
  destruct o as [k v| | | |k| | | |k|k| | | | | |policy]; try done; cbn [s_step].
  - destruct v as [|v|]; [done| |done]. do 2 eexists. split; [reflexivity|]. cbn. intros p [->|Hin]%elem_of_cons; [done|by apply (Hrm k)].
  - pose proof (m_get_pointer cmp k s.1 Hp). unfold as_pointer. destruct (pointer _); [|done]. do 2 eexists. by split.
  - do 2 eexists. by split.
  - do 2 eexists. split; [reflexivity|]. apply Hrm.
  - do 2 eexists. by split.
  - do 2 eexists. split; [reflexivity|]. intros p Hin. by apply elem_of_nil in Hin.
  - do 2 eexists. by split.
Qed.

Lemma owner_run_total cmp ops (s : list (tok * tok) * list tok) :
  Forall owner_op ops -> pointers s.1 -> exists rs s', s_run true true cmp s ops = Some (rs, s').
Proof.
  revert s. induction ops as [|o ops IH]; intros s Ho Hp; cbn [s_run]; [by do 2 eexists|].
  apply Forall_cons in Ho as [Ho Hos]. destruct (owner_step_total cmp s o Ho Hp) as (r & s1 & -> & Hp1). cbn [obind].
  destruct (IH s1 Hos Hp1) as (rs & s' & ->). by do 2 eexists.
Qed.

Lemma owner_run cmp h s ops rs s' :
  ~ allocation_failed (A := A) -> related true true cmp h s -> Forall (op_ok) ops -> Forall owner_op ops ->
  Z.of_nat (List.length s.1) + Z.of_nat (List.length ops) <= 2 ^ 28 ->
  NoDup (s.2 ++ owned s.1 ++ concat (map given ops)) ->
  s_run true true cmp s ops = Some (rs, s') -> s'.2 ++ owned s'.1 ≡ₚ s.2 ++ owned s.1 ++ concat (map given ops).
Proof.
  intros Hnf. revert h s rs. induction ops as [|o ops IH]; intros h s rs HR Hops Hown Hbig Hnd; cbn [s_run map concat] in *.
  { intros [= _ <-]. by rewrite app_nil_r. }
  apply Forall_cons in Hops as [Ho Hops]. apply Forall_cons in Hown as [Hw Hown]. cbn [List.length] in Hbig.
  pose proof (step_refines true true cmp Hnf h s HR ltac:(lia) o Ho) as Hs. pose proof (s_step_length true true cmp s o) as Hl.
  destruct (s_step true true cmp s o) as [[r s1]|] eqn:E; [|done]. cbn [obind].
  destruct (step h o) as [[r' h1]|]; [|done]. destruct Hs as [_ HR1]. specialize (Hl r s1 eq_refl).
  assert (Hstep : s1.2 ++ owned s1.1 ≡ₚ s.2 ++ owned s.1 ++ given o).
  { apply (owner_step cmp h s o r s1); try done. rewrite !app_assoc in Hnd. apply NoDup_app in Hnd as [Hnd _]. by rewrite <- app_assoc in Hnd. }
  destruct (s_run true true cmp s1 ops) as [[rs1 s2]|] eqn:E1; [|done]. cbn [obind]. intros [= _ <-].
  assert (Hall : s1.2 ++ owned s1.1 ++ concat (map given ops) ≡ₚ s.2 ++ owned s.1 ++ given o ++ concat (map given ops)).
  { rewrite !app_assoc. rewrite !app_assoc in Hstep. by rewrite Hstep. }
  rewrite <- Hall. apply (IH h1 s1 rs1); try done; [lia|]. by rewrite Hall.
Qed.

(** *** Closing *)

Lemma close_loop_spec h fuel pos :
  Z.of_nat (List.length (elements h)) = length h -> -1 <= pos -> length h - pos <= Z.of_nat fuel -> (0 < fuel)%nat ->
  exists h', close_loop fuel h pos = Some h' /\
    h' = set_freed h (freed h ++ concat (map (fun p => refused (keyDeleter h) (valueDeleter h) p.1 p.2) (after h pos))).
Proof.
  revert h pos. induction fuel as [|fuel IH]; intros h pos Hlen Hpos Hfuel Hf; [lia|]. cbn [close_loop].
  destruct (next_element_spec h pos Hlen Hpos) as (r & E & Hr). rewrite E. cbn [obind].
  destruct r as [j|]; cbn in Hr.
  2:{ eexists. split; [reflexivity|]. rewrite Hr, app_nil_r. by destruct h. }
  destruct Hr as (e & Hj & He & Hl & Haft & _). pose proof (aget_Some _ _ _ He). rewrite He. cbn [obind].
  rewrite delete_key_value_eq, Haft.
  destruct (IH (set_freed h (freed h ++ refused (keyDeleter h) (valueDeleter h) (key e) (value e))) j) as (h' & E' & ->); [done|lia|cbn; lia|lia|].
  rewrite E'. eexists. split; [reflexivity|]. cbn. by rewrite <- app_assoc.
Qed.

Lemma close_spec h :
  table_ok K h -> keyDeleter h = true -> valueDeleter h = true ->
  exists h', uhash_close h = Some h' /\ freed h' = freed h ++ owned (entries h).
Proof.
  intros Hok Hk Hv. unfold uhash_close. rewrite Hk. cbn [orb].
  pose proof (ok_elements K h Hok) as Hlen. destruct (ok_length K h Hok) as [Hlr _].
  destruct (close_loop_spec h (S (Z.to_nat (length h))) UHASH_FIRST Hlen) as (h' & E & ->); [unfold UHASH_FIRST; lia..|].
  rewrite E. cbn [obind]. eexists. split; [reflexivity|]. cbn. f_equal. rewrite <- (after_all h).
  2:{ intros i e Hi He. pose proof (aget_Some _ _ _ He). unfold UHASH_FIRST in Hi. lia. }
  unfold owned. f_equal. apply map_ext. intros [k v]. rewrite Hk, Hv, refused_owned. unfold owned. cbn. by rewrite app_nil_r.
Qed.

(** ** Comparing tables *)

Lemma m_get_elem h k q :
  table_ok K h -> K k -> q ∈ entries h -> same_key h k q.1 = true -> get h k = q.2.
Proof.
  intros Hok Hk Hq Hc. destruct (find_slot K h k Hok Hk) as (i & e & Hs). rewrite (slot_value K h Hok k i e Hs).
  rewrite (slot_entries h k i e Hs) in Hq. apply elem_of_app in Hq as [Hq|Hq].
  - unfold entry in Hq. destruct (0 <=? hashcode e); [|by apply elem_of_nil in Hq]. by apply list_elem_of_singleton in Hq as ->.
  - by rewrite (slot_others h k i e Hs q Hq) in Hc.
Qed.

Lemma entries_keys h p : table_ok K h -> p ∈ entries h -> K p.1.
Proof. intros Hok (i & e & Hi & Hl & ->)%entry_elem. apply (ok_live K h Hok (Z.of_nat i) e); [by rewrite aget_nat|done]. Qed.

Lemma table_equals_loop_spec h1 h2 cmp l pos :
  table_ok K h1 -> table_ok K h2 -> -1 <= pos -> after h1 pos = l ->
  equals_loop (List.length l) h1 h2 cmp pos = Some (forallb (fun p => cmp p.2 (get h2 p.1)) l).
Proof.
  intros Hok1 Hok2. revert pos. induction l as [|p l IH]; intros pos Hpos Hl; cbn [List.length equals_loop forallb]; [done|].
  destruct (next_element_spec h1 pos (ok_elements K h1 Hok1) Hpos) as (r & E & Hr). rewrite E. cbn [obind].
  destruct r as [j|]; cbn in Hr; [|congruence]. destruct Hr as (e & Hj & He & Hlive & Haft & _). cbn [obind].
  rewrite He. cbn [obind]. rewrite Haft in Hl. injection Hl as <- Hl. cbn [fst snd].
  rewrite (find_value_ok K h2 (key e) Hok2) by (by apply (ok_live K h1 Hok1 j e)). cbn [obind].
  destruct (cmp _ _); [|done]. apply IH; [lia|done].
Qed.

Lemma table_equals_spec h1 h2 c :
  table_ok K h1 -> table_ok K h2 -> keyComparator h1 = keyComparator h2 ->
  valueComparator h1 = Some c -> valueComparator h2 = Some c ->
  uhash_equals h1 h2 = Some ((count h1 =? count h2) && forallb (fun p => code c p.2 (get h2 p.1)) (entries h1)).
Proof.
  intros Hok1 Hok2 Hk H1 H2. unfold uhash_equals. rewrite H1, H2, Hk, !Z.eqb_refl. cbn [negb orb].
  destruct (count h1 =? count h2); cbn [negb andb]; [|done].
  rewrite (after_all h1 UHASH_FIRST).
  - rewrite <- (table_equals_loop_spec h1 h2 (code c) (after h1 UHASH_FIRST) UHASH_FIRST) by done. f_equal.
    rewrite (ok_count K h1 Hok1), <- (after_all h1 UHASH_FIRST); [lia|].
    intros i e Hi He. pose proof (aget_Some _ _ _ He). unfold UHASH_FIRST in Hi. lia.
  - intros i e Hi He. pose proof (aget_Some _ _ _ He). unfold UHASH_FIRST in Hi. lia.
Qed.

(** ** Results *)

(** A new table, and what its owner sets. *)
Definition with_deleters (kd vd : bool) h := uhash_setValueDeleter (uhash_setKeyDeleter h kd) vd.

Lemma opened_related block keyHash keyComp valueComp size kd vd :
  KeyLaws keyHash (code keyComp) K -> ~ allocation_failed (A := A) -> size <= 1073741789 ->
  exists h, uhash_openSize (Some block) keyHash keyComp valueComp size U_ZERO_ERROR = Some (Some h, U_ZERO_ERROR) /\
    related kd vd (code keyComp) (with_deleters kd vd h) ([], []).
Proof.
  intros Hlaws Hnf Hsize. unfold uhash_openSize. destruct (table_size_loop_spec (S (Z.to_nat PRIMES_LENGTH)) size 0) as (i & E & Hi); [done|lia|unfold PRIMES_LENGTH; lia|].
  rewrite E. cbn [obind]. unfold _uhash_create. change (U_FAILURE U_ZERO_ERROR) with false. cbv iota.
  destruct (init_spec K block keyHash keyComp valueComp i Hlaws Hi Hnf) as (h & E1 & Hok & Hsz & Hpol & Hent & Hfr & Hkh & Hkc & Hvc & _).
  exists h. split; [done|]. constructor; try done.
  - by apply (table_ok_ext K h).
  - by apply (sized_ext h).
  - change (entries _) with (entries h). by rewrite Hent.
  - cbn. by rewrite Hfr.
  - cbn. by rewrite Hkc.
Qed.

(** C23: the hash table is a map.  On a table opened for at most 1073741789
    entries, with any deleters, when no allocation fails, every sequence of at
    most 2^28 calls (put, get, find, remove, removeAll, count, setResizePolicy,
    with pointers or integers) on keys that satisfy the laws of the hash function
    ([KeyLaws]), and with resize policies other than [U_FIXED], returns what the
    same calls on an association list return; at the end the table has the
    entries of the list, and the deleters have been given what the list gave up.
    Both stop at a call that asks for an integer where a pointer is stored, or
    for a pointer where an integer is.  In the list, a put of a NULL pointer
    removes the key, and a put of the integer 0 stores it: so does the code,
    although uhash.h says of [uhash_puti] and [uhash_iputi] that the value 0
    removes the key. *)
Theorem uhash_run_correct block keyHash keyComp valueComp size kd vd ops :
  KeyLaws keyHash (code keyComp) K -> ~ allocation_failed (A := A) -> size <= 1073741789 ->
  Forall op_ok ops -> Z.of_nat (List.length ops) <= 2 ^ 28 ->
  exists h, uhash_openSize (Some block) keyHash keyComp valueComp size U_ZERO_ERROR = Some (Some h, U_ZERO_ERROR) /\
    match run (with_deleters kd vd h) ops, s_run kd vd (code keyComp) ([], []) ops with
    | Some (rs, h'), Some (rs', (m, f)) => rs = rs' /\ entries h' ≡ₚ m /\ freed h' ≡ₚ f
    | None, None => True
    | _, _ => False
    end.
Proof.
  intros Hlaws Hnf Hsize Hops Hn.
  destruct (opened_related block keyHash keyComp valueComp size kd vd Hlaws Hnf Hsize) as (h & E & HR). exists h. split; [done|].
  pose proof (run_refines kd vd (code keyComp) Hnf ops _ _ HR Hops ltac:(cbn; lia)) as Hr.
  destruct (run _ _) as [[rs h']|], (s_run _ _ _ _ _) as [[rs' [m f]]|]; try done. destruct Hr as [-> HR']. split; [done|]. split; apply HR'.
Qed.

(** C24: a table that owns its keys and its values loses none and frees none twice,
    as long as no allocation fails.  The calls are at most 2^28 of put, get, find,
    remove, removeAll, count and setResizePolicy (other than [U_FIXED]) with
    pointers ([owner_op]), on a table opened for at most 1073741789 entries and
    keys that satisfy the laws of the hash function; they put each pointer into
    the table at most once, and no NULL value, with which a put does not delete
    the key it is given.  At every time each pointer that was put is in one place:
    in the table or among those the deleters have been given; closing the table
    gives the rest to the deleters. *)
Theorem uhash_owned_once block keyHash keyComp valueComp size ops :
  KeyLaws keyHash (code keyComp) K -> ~ allocation_failed (A := A) -> size <= 1073741789 ->
  Forall op_ok ops -> Forall owner_op ops -> Z.of_nat (List.length ops) <= 2 ^ 28 ->
  NoDup (concat (map given ops)) ->
  exists h rs h' h'',
    uhash_openSize (Some block) keyHash keyComp valueComp size U_ZERO_ERROR = Some (Some h, U_ZERO_ERROR) /\
    run (with_deleters true true h) ops = Some (rs, h') /\ freed h' ++ owned (entries h') ≡ₚ concat (map given ops) /\
    uhash_close h' = Some h'' /\ freed h'' ≡ₚ concat (map given ops).
Proof.
  intros Hlaws Hnf Hsize Hops Hown Hn Hnd.
  destruct (opened_related block keyHash keyComp valueComp size true true Hlaws Hnf Hsize) as (h & E & HR).
  pose proof (run_refines true true (code keyComp) Hnf ops _ _ HR Hops ltac:(cbn; lia)) as Hr.
  destruct (owner_run_total (code keyComp) ops ([], []) Hown) as (rs' & s' & Es); [intros p Hp; by apply elem_of_nil in Hp|].
  pose proof (owner_run (code keyComp) _ _ ops rs' s' Hnf HR Hops Hown ltac:(cbn; lia) Hnd Es) as Hgiven.
  rewrite Es in Hr. destruct (run _ _) as [[rs h']|] eqn:Er; [|done]. destruct Hr as [-> HR'].
  assert (Hall : freed h' ++ owned (entries h') ≡ₚ concat (map given ops)).
  { by rewrite (rl_freed _ _ _ _ _ HR'), (rl_entries _ _ _ _ _ HR'). }
  destruct (rl_owner _ _ _ _ _ HR') as [Hk Hv]. destruct (close_spec h' (rl_ok _ _ _ _ _ HR') Hk Hv) as (h'' & Ec & Hfr).
  exists h, rs', h', h''. do 4 (split; [done|]). by rewrite Hfr.
Qed.

(** [uhash_equals] compares what it promises when no value of the first table
    compares equal to the empty token: it always answers, and says that the
    tables are equal exactly when they have equally many entries and every key
    of the first is in the second with an equal value. *)
Theorem uhash_equals_correct h1 h2 c :
  table_ok K h1 -> table_ok K h2 -> keyComparator h1 = keyComparator h2 ->
  valueComparator h1 = Some c -> valueComparator h2 = Some c ->
  (forall p, p ∈ entries h1 -> code c p.2 emptytok = false) ->
  exists b, uhash_equals h1 h2 = Some b /\
    (b = true <-> List.length (entries h1) = List.length (entries h2) /\
      forall p, p ∈ entries h1 -> exists q, q ∈ entries h2 /\ same_key h2 p.1 q.1 = true /\ code c p.2 q.2 = true).
Proof.
  intros Hok1 Hok2 Hk H1 H2 Hempty. eexists. split; [by apply table_equals_spec|].
  rewrite andb_true_iff, Z.eqb_eq, (ok_count K h1 Hok1), (ok_count K h2 Hok2), forallb_forall.
  assert (Hp : forall p, p ∈ entries h1 -> code c p.2 (get h2 p.1) = true <->
    exists q, q ∈ entries h2 /\ same_key h2 p.1 q.1 = true /\ code c p.2 q.2 = true).
  { intros p Hin. split.
    - intros Hc. unfold m_get, m_entry in Hc. destruct (List.find _ (entries h2)) as [q|] eqn:Hf; [|by rewrite Hempty in Hc].
      apply List.find_some in Hf as [Hq Hcmp]. exists q. split; [by apply list_elem_of_In|done].
    - intros (q & Hq & Hcmp & Hc). by rewrite (m_get_elem h2 p.1 q Hok2 (entries_keys h1 p Hok1 Hin) Hq Hcmp). }
  split; intros [Hl Hall]; (split; [lia|]); intros p Hin.
  - apply Hp; [done|]. by apply Hall, list_elem_of_In.
  - apply list_elem_of_In in Hin. apply Hp; [done|]. by apply Hall.
Qed.

End Runs.

(** ** Keys *)

(** Keys that are integers. *)
Definition long_key {A} (k : UHashTok (A := A)) : Prop := exists n, k = Integer n.

#[export] Instance long_laws {A} : KeyLaws (A := A) uhash_hashLong uhash_compareLong long_key.
Proof.
  constructor; unfold uhash_compareLong, uhash_hashLong.
  - intros k _. apply Z.eqb_refl.
  - intros k k' _ _. by rewrite !Z.eqb_eq.
  - intros k k' k'' _ _ _. rewrite !Z.eqb_eq. congruence.
  - intros k k' _ _. rewrite Z.eqb_eq. by intros ->.
Qed.

(** Keys that are pointers to NUL-terminated strings. *)
Definition string_key (k : UHashTok (A := list Z)) : Prop :=
  exists s t, k = Pointer (s ++ 0 :: t) /\ Forall (fun c => c <> 0) s /\ Z.of_nat (List.length s) < 2 ^ 31.

Definition hash_string (k : UHashTok (A := list Z)) : Z := default 0 (uhash_hashUChars k).
Definition compare_strings (k k' : UHashTok (A := list Z)) : bool := default false (uhash_compareUChars k k').

(** The strings are compared up to their ends. *)
Lemma compare_loop_spec s t s' t' :
  Forall (fun c => c <> 0) s -> Forall (fun c => c <> 0) s' ->
  compare_loop (s ++ 0 :: t) (s' ++ 0 :: t') = Some (bool_decide (s = s')).
Proof.
  intros Hs. revert s'. induction Hs as [|c s Hc Hs IH]; intros s' Hs'; destruct Hs' as [|c' s' Hc' Hs']; cbn [compare_loop app].
  - by rewrite bool_decide_eq_true_2.
  - rewrite bool_decide_eq_false_2 by done. rewrite Z.eqb_refl. cbn [negb andb]. f_equal. by apply Z.eqb_neq.
  - rewrite (proj2 (Z.eqb_neq _ _) Hc). cbn [negb andb]. by rewrite bool_decide_eq_false_2.
  - rewrite (proj2 (Z.eqb_neq _ _) Hc). cbn [negb andb]. destruct (Z.eqb_spec c c') as [->|Hne].
    + rewrite IH by done. f_equal. apply bool_decide_ext. split; [by intros ->|by intros [= ->]].
    + rewrite bool_decide_eq_false_2; [done|]. by intros [= ? _].
Qed.

(** The hash code depends on the units before the end only. *)
Lemma hash_loop_prefix fuel s t p inc len hash :
  0 <= p -> 0 < inc -> len <= Z.of_nat (List.length s) ->
  hash_loop fuel (s ++ t) p inc len hash = hash_loop fuel s p inc len hash.
Proof.
  revert p hash. induction fuel as [|fuel IH]; intros p hash Hp Hinc Hlen; cbn [hash_loop]; [done|].
  destruct (Z.ltb_spec p len); [|done]. unfold aget. rewrite (proj2 (Z.leb_le _ _)) by lia. rewrite lookup_app_l by lia.
  destruct (s !! Z.to_nat p); cbn; [|done]. apply IH; lia.
Qed.

Lemma strlen_loop_spec fuel s t i :
  Forall (fun c => c <> 0) s -> 0 <= i <= Z.of_nat (List.length s) -> Z.of_nat (List.length s) < i + Z.of_nat fuel ->
  u_strlen_loop fuel (s ++ 0 :: t) i = Some (Z.of_nat (List.length s)).
Proof.
  intros Hs. revert i. induction fuel as [|fuel IH]; intros i Hi Hf; [lia|]. cbn [u_strlen_loop].
  unfold aget. rewrite (proj2 (Z.leb_le _ _)) by lia. destruct (decide (i = Z.of_nat (List.length s))) as [->|].
  - by rewrite Nat2Z.id, list_lookup_middle.
  - rewrite lookup_app_l by lia. destruct (lookup_lt_is_Some_2 s (Z.to_nat i)) as [c Hc]; [lia|]. rewrite Hc. cbn.
    rewrite (proj2 (Z.eqb_neq c 0)) by (by apply (Forall_lookup_1 _ _ _ _ Hs Hc)). cbn. apply IH; lia.
Qed.

Lemma hash_string_spec s t :
  Forall (fun c => c <> 0) s -> Z.of_nat (List.length s) < 2 ^ 31 ->
  uhash_hashUChars (Pointer (s ++ 0 :: t)) = ustr_hashUCharsN (s ++ 0 :: t) (Z.of_nat (List.length s)).
Proof.
  intros Hs Hlen. cbn. unfold u_strlen. rewrite strlen_loop_spec by (done || (rewrite ?length_app; cbn; lia)). cbn.
  reflexivity.
Qed.

Lemma hashUCharsN_prefix s t :
  Z.of_nat (List.length s) < 2 ^ 31 ->
  ustr_hashUCharsN (s ++ t) (Z.of_nat (List.length s)) = ustr_hashUCharsN s (Z.of_nat (List.length s)).
Proof.
  intros Hlen. unfold ustr_hashUCharsN. destruct (decide (s = [])) as [->|Hne]; [done|].
  assert (Hpos : (0 < List.length s)%nat) by (by destruct s; [|cbn; lia]).
  set (n := Z.of_nat (List.length s)) in *. unfold int. rewrite isub_ok, idiv_ok by ibound.
  assert (Hq : 0 <= Z.quot (n - 32) 32 < 2 ^ 30) by (Z.to_euclidean_division_equations; lia).
  rewrite iadd_ok by ibound. cbn [obind]. by rewrite hash_loop_prefix by lia.
Qed.

#[export] Instance string_laws : KeyLaws hash_string compare_strings string_key.
Proof.
  constructor.
  - intros k (s & t & -> & Hs & _). unfold compare_strings. cbn. rewrite compare_loop_spec by done. cbn. by apply bool_decide_eq_true_2.
  - intros k k' (s & t & -> & Hs & _) (s' & t' & -> & Hs' & _). unfold compare_strings. cbn. rewrite !compare_loop_spec by done.
    cbn. rewrite !bool_decide_eq_true. by intros ->.
  - intros k k' k'' (s & t & -> & Hs & _) (s' & t' & -> & Hs' & _) (s'' & t'' & -> & Hs'' & _).
    unfold compare_strings. cbn. rewrite !compare_loop_spec by done. cbn. rewrite !bool_decide_eq_true. congruence.
  - intros k k' (s & t & -> & Hs & Hl) (s' & t' & -> & Hs' & Hl'). unfold compare_strings, hash_string. cbn.
    rewrite compare_loop_spec by done. cbn. rewrite bool_decide_eq_true. intros <-.
    change (uhash_hashUChars _) with (uhash_hashUChars (Pointer (s ++ 0 :: t))).
    pose proof (hash_string_spec s t Hs Hl) as E. pose proof (hash_string_spec s t' Hs Hl) as E'. cbn in E, E'.
    rewrite E, E'. by rewrite !hashUCharsN_prefix.
Qed.

(** ** Examples *)

#[local] Ltac all_ops t := repeat (apply Forall_cons_2; [t|]); apply Forall_nil_2.

Section Examples.
Context {A : Type} `{EqDecision A}.

(** An allocator that always has memory, and one that has none left. *)
Program Definition memory : Allocator (UHashElement (A := A)) := {| fresh n := Some (replicate (Z.to_nat n) empty_element) |}.
Next Obligation. intros n l [= <-]. rewrite length_replicate. lia. Qed.
Program Definition no_memory : Allocator (UHashElement (A := A)) := {| fresh n := None |}.
Next Obligation. done. Qed.

Lemma memory_never_fails : ~ allocation_failed (alloc := memory).
Proof. intros (n & Hn & E). unfold uprv_malloc in E. by rewrite (proj2 (Z.ltb_lt _ _) Hn) in E. Qed.

Definition any_block : UHashtable (A := A) :=
  mkTable [] (fun _ => 0) (mkfn 0 (fun _ _ => false)) None false false 0 0 0 0 (mkfloat 0 0) (mkfloat 0 0) 0 [].

(** A table from integers to integers, after some calls. *)
Definition long_table (ops : list op) : option (UHashtable (A := A)) :=
  let! '(h, _) := uhash_openSize (alloc := memory) (Some any_block) uhash_hashLong (mkfn 1 uhash_compareLong) (Some (mkfn 1 uhash_compareLong)) 20 U_ZERO_ERROR in
  let! h := h in
  let! '(_, h) := run (alloc := memory) (with_deleters false false h) ops in
  Some h.

Lemma long_table_ok ops h :
  Forall (op_ok long_key) ops -> Z.of_nat (List.length ops) <= 2 ^ 28 -> long_table ops = Some h -> table_ok long_key h.
Proof.
  intros Hops Hn. unfold long_table.
  destruct (opened_related (alloc := memory) long_key any_block uhash_hashLong (mkfn 1 uhash_compareLong) (Some (mkfn 1 uhash_compareLong)) 20 false false)
    as (h0 & E & HR); [apply long_laws|apply memory_never_fails|lia|]. rewrite E. cbn [obind].
  pose proof (run_refines (alloc := memory) long_key false false _ memory_never_fails ops _ _ HR Hops ltac:(cbn; lia)) as Hr.
  destruct (run _ _) as [[rs h']|]; [|done]. destruct (s_run _ _ _ _ _) as [[rs' s']|]; [|done]. cbn [obind]. intros [= <-].
  destruct Hr as [_ HR']. apply HR'.
Qed.

Definition puts (from len : nat) : list (op (A := A)) := map (fun i => Iputi (Z.of_nat i) 7) (seq from len).
Definition removes (from len : nat) : list (op (A := A)) := map (fun i => Iremovei (Z.of_nat i)) (seq from len).
End Examples.

(** Tables with different keys whose values are zero are equal to [uhash_equals]. *)
Example equals_zero_values :
  (let! h1 := long_table (A := unit) [Iputi 1 0] in let! h2 := long_table [Iputi 2 0] in uhash_equals h1 h2) = Some true.
Proof. vm_compute. reflexivity. Qed.

(** A put of NULL into a table that owns its keys leaves the key to nobody. *)
Example put_null_keeps_key :
  (let! h := long_table (A := unit) [] in
   let! '(_, h, _) := uhash_put (alloc := memory) (with_deleters true true h) (Pointer tt) Null U_ZERO_ERROR in
   Some (entries h, freed h)) = Some ([], []).
Proof. vm_compute. reflexivity. Qed.

(** A table that runs out of memory while it shrinks keeps its entries but
    records the size of the smaller array; when it has to grow later, it
    allocates an array that is too small for its entries and dereferences NULL.
    Here it holds 4 entries in 61 slots when it has failed to shrink twice; it is
    then given 31 slots for its 32nd entry. *)
Theorem failed_shrink_breaks_growth :
  match long_table (A := unit) (puts 0 20 ++ [SetResizePolicy U_GROW_AND_SHRINK]) with
  | Some h =>
      match run (alloc := no_memory) h (removes 0 16) with
      | Some (_, h') =>
          count h' = 4 /\ length h' = 61 /\ primeIndex h' = 0 /\ List.length (entries h') = 4%nat /\
          run (alloc := memory) h' (puts 20 27) <> None /\ run (alloc := memory) h' (puts 20 28) = None
      | None => False
      end
  | None => False
  end.
Proof. vm_compute. repeat split. discriminate. Qed.

Lemma uhash_run_correct_witness :
  let ops := [Iputi 3 30; Iputi 16 40; Igeti 3; Iputi 3 31; Igeti 3; Iremovei 16; Count; Igeti 16] in
  exists h, uhash_openSize (alloc := memory) (Some (any_block (A := unit))) uhash_hashLong (mkfn 1 uhash_compareLong) None 20 U_ZERO_ERROR =
      Some (Some h, U_ZERO_ERROR) /\
    match run (alloc := memory) (with_deleters false false h) ops, s_run false false uhash_compareLong ([], []) ops with
    | Some (rs, h'), Some (rs', (m, f)) => rs = rs' /\ entries h' ≡ₚ m /\ freed h' ≡ₚ f
    | None, None => True
    | _, _ => False
    end.
Proof.
  intros ops. apply (uhash_run_correct (alloc := memory) long_key any_block uhash_hashLong (mkfn 1 uhash_compareLong) None 20 false false ops).
  - apply long_laws.
  - apply memory_never_fails.
  - vm_compute; discriminate.
  - unfold ops. all_ops ltac:(first [done | by eexists]).
  - vm_compute; discriminate.
Defined.

Lemma uhash_owned_once_witness :
  let ops := [Put (Pointer [104; 0; 1]) (Pointer [1; 0]); Put (Pointer [104; 0; 2]) (Pointer [2; 0]); Get (Pointer [104; 0]);
    Put (Pointer [105; 0]) (Pointer [3; 0]); Remove (Pointer [105; 0])] in
  exists h rs h' h'',
    uhash_openSize (alloc := memory) (Some any_block) hash_string (mkfn 1 compare_strings) None 20 U_ZERO_ERROR = Some (Some h, U_ZERO_ERROR) /\
    run (alloc := memory) (with_deleters true true h) ops = Some (rs, h') /\ freed h' ++ owned (entries h') ≡ₚ concat (map given ops) /\
    uhash_close h' = Some h'' /\ freed h'' ≡ₚ concat (map given ops).
Proof.
  intros ops. apply (uhash_owned_once (alloc := memory) string_key any_block hash_string (mkfn 1 compare_strings) None 20 ops).
  - apply string_laws.
  - apply memory_never_fails.
  - vm_compute; discriminate.
  - assert (Hh : forall t, string_key (Pointer (104 :: 0 :: t))) by (intros t; exists [104], t; split; [done|split; [by repeat constructor|done]]).
    assert (Hi : forall t, string_key (Pointer (105 :: 0 :: t))) by (intros t; exists [105], t; split; [done|split; [by repeat constructor|done]]).
    unfold ops. all_ops ltac:(first [apply Hh | apply Hi]).
  - unfold ops. all_ops ltac:(done).
  - vm_compute; discriminate.
  - apply (bool_decide_eq_true_1 _). vm_compute. reflexivity.
Defined.

#[local] Abbreviation table1 := (long_table (A := unit) [Iputi 1 5; Iputi 14 6]).
#[local] Abbreviation table2 := (long_table (A := unit) [Iputi 14 6; Iputi 1 5]).

Lemma table1_ok : exists h, table1 = Some h /\ table_ok long_key h /\
  keyComparator h = mkfn 1 uhash_compareLong /\ valueComparator h = Some (mkfn 1 uhash_compareLong) /\
  entries h = [(Integer 1, Integer 5); (Integer 14, Integer 6)].
Proof.
  destruct table1 as [h|] eqn:E; [|vm_compute in E; discriminate]. exists h. split; [done|].
  split; [refine (long_table_ok _ h _ _ E); [all_ops ltac:(by eexists)|cbn; lia]|].
  vm_compute in E. injection E as <-. repeat split.
Qed.

Lemma table2_ok : exists h, table2 = Some h /\ table_ok long_key h /\
  keyComparator h = mkfn 1 uhash_compareLong /\ valueComparator h = Some (mkfn 1 uhash_compareLong).
Proof.
  destruct table2 as [h|] eqn:E; [|vm_compute in E; discriminate]. exists h. split; [done|].
  split; [refine (long_table_ok _ h _ _ E); [all_ops ltac:(by eexists)|cbn; lia]|].
  vm_compute in E. injection E as <-. repeat split.
Qed.

Lemma uhash_equals_correct_witness :
  match table1, table2 with
  | Some h1, Some h2 =>
      exists b, uhash_equals h1 h2 = Some b /\
        (b = true <-> List.length (entries h1) = List.length (entries h2) /\
          forall p, p ∈ entries h1 -> exists q, q ∈ entries h2 /\ code (keyComparator h2) p.1 q.1 = true /\ uhash_compareLong p.2 q.2 = true)
  | _, _ => False
  end.
Proof.
  destruct table1_ok as (h1 & -> & Hok1 & Hk1 & Hv1 & He1), table2_ok as (h2 & -> & Hok2 & Hk2 & Hv2).
  destruct (uhash_equals_correct long_key h1 h2 (mkfn 1 uhash_compareLong) Hok1 Hok2) as (b & Hb); [by rewrite Hk1, Hk2|done|done| |].
  - rewrite He1. apply Forall_forall. by repeat constructor.
  - by exists b.
Defined.

End UHashRun.
