(* ===== verification/TimeZoneRules.v ===== *)
(** * Rules of time zones (src/i18n/dtrule.cpp, tzrule.cpp, tztrans.cpp)

    A [DateTimeRule] is a day of the year and a time of the day; an
    [AnnualTimeZoneRule] says that a zone changes to an offset at that time in
    every year of an interval.  A rule is compared with a reference: the day is
    defined on the Gregorian dates of Grego.v, and the next and the previous
    start are the least and the greatest start after and before a time.

    Times are doubles, milliseconds since 1970.  An output parameter that is set
    only when the function returns TRUE is an option here; the outer option is
    for arithmetic that overflows. *)
From S2P Require Import Prelude Int32 Double Grego.
Local Open Scope Z_scope.

Module TimeZoneRules.
Import Grego.

(** ** Date and time rules *)

Inductive DateRuleType := DOM | DOW | DOW_GEQ_DOM | DOW_LEQ_DOM.
Inductive TimeRuleType := WALL_TIME | STANDARD_TIME | UTC_TIME.

#[export] Instance DateRuleType_eq_dec : EqDecision DateRuleType.
Proof. solve_decision. Defined.
#[export] Instance TimeRuleType_eq_dec : EqDecision TimeRuleType.
Proof. solve_decision. Defined.

Record DateTimeRule := MkDateTimeRule {
  fMonth : Z;
  fDayOfMonth : Z;
  fDayOfWeek : Z;
  fWeekInMonth : Z;
  fMillisInDay : Z;
  fDateRuleType : DateRuleType;
  fTimeRuleType : TimeRuleType
}.

(** The constructors: a day of a month, a weekday in a month, and a weekday on
    or after or before a day. *)
Definition new_dom (month dayOfMonth millisInDay : Z) (timeType : TimeRuleType) : DateTimeRule :=
  MkDateTimeRule month dayOfMonth 0 0 millisInDay DOM timeType.
Definition new_dow (month weekInMonth dayOfWeek millisInDay : Z) (timeType : TimeRuleType) : DateTimeRule :=
  MkDateTimeRule month 0 dayOfWeek weekInMonth millisInDay DOW timeType.
Definition new_dow_dom (month dayOfMonth dayOfWeek : Z) (after : bool) (millisInDay : Z) (timeType : TimeRuleType) : DateTimeRule :=
  MkDateTimeRule month dayOfMonth dayOfWeek 0 millisInDay (if after then DOW_GEQ_DOM else DOW_LEQ_DOM) timeType.

(** [operator==] of two rules *)
Definition rule_eq (r that : DateTimeRule) : bool :=
  (r.(fMonth) =? that.(fMonth)) && (r.(fDayOfMonth) =? that.(fDayOfMonth)) &&
  (r.(fDayOfWeek) =? that.(fDayOfWeek)) && (r.(fWeekInMonth) =? that.(fWeekInMonth)) &&
  (r.(fMillisInDay) =? that.(fMillisInDay)) && bool_decide (r.(fDateRuleType) = that.(fDateRuleType)) &&
  bool_decide (r.(fTimeRuleType) = that.(fTimeRuleType)).

(** ** Time zone rules *)

Record TimeZoneRule := MkTimeZoneRule { fName : list Z; fRawOffset : Z; fDSTSavings : Z }.

Record AnnualTimeZoneRule := MkAnnual {
  annual : TimeZoneRule;
  fDateTimeRule : DateTimeRule;
  fStartYear : Z;
  fEndYear : Z
}.

(** A rule that a transition refers to: an [InitialTimeZoneRule] adds nothing to
    a [TimeZoneRule]. *)
Inductive AnyRule := Initial (r : TimeZoneRule) | Annual (r : AnnualTimeZoneRule).

Definition base_rule (r : AnyRule) : TimeZoneRule := match r with Initial r => r | Annual a => a.(annual) end.

Definition MAX_YEAR : Z := 0x7FFFFFFF.

(** [TimeZoneRule::isEquivalentTo] of rules of the same class *)
Definition base_isEquivalentTo (r other : TimeZoneRule) : bool :=
  (r.(fRawOffset) =? other.(fRawOffset)) && (r.(fDSTSavings) =? other.(fDSTSavings)).

Definition isEquivalentTo (r other : AnyRule) : bool :=
  match r, other with
  | Initial r, Initial other => base_isEquivalentTo r other
  | Annual r, Annual other =>
      base_isEquivalentTo r.(annual) other.(annual) && rule_eq r.(fDateTimeRule) other.(fDateTimeRule) &&
      (r.(fStartYear) =? other.(fStartYear)) && (r.(fEndYear) =? other.(fEndYear))
  | _, _ => false
  end.

(** *** The start in a year *)

(** The day of the rule, in days since 1970. *)
Definition ruleDay (r : DateTimeRule) (year : Z) : option double :=
  if bool_decide (r.(fDateRuleType) = DOM) then fieldsToDay year r.(fMonth) r.(fDayOfMonth)
  else
    let! '(day, after) :=
      (if bool_decide (r.(fDateRuleType) = DOW) then
         if r.(fWeekInMonth) >? 0 then
           let! d := fieldsToDay year r.(fMonth) 1 in
           let! weeks := 7 *! (r.(fWeekInMonth) -! 1) in
           Some (dadd d (of_int weeks), true)
         else
           let! len := monthLength year r.(fMonth) in
           let! d := fieldsToDay year r.(fMonth) len in
           let! weeks := 7 *! (r.(fWeekInMonth) +! 1) in
           Some (dadd d (of_int weeks), false)
       else
         let leq := bool_decide (r.(fDateRuleType) = DOW_LEQ_DOM) in
         let dom := if leq && (r.(fMonth) =? 1) && (r.(fDayOfMonth) =? 29) && negb (isLeapYear year)
                    then r.(fDayOfMonth) - 1 else r.(fDayOfMonth) in
         let! d := fieldsToDay year r.(fMonth) dom in
         Some (d, negb leq)) in
    let! dow := dayOfWeek day in
    let! delta := r.(fDayOfWeek) -! dow in
    let! delta := (if after : bool then (if delta <? 0 then delta +! 7 else Some delta)
                   else (if delta >? 0 then delta -! 7 else Some delta)) in
    Some (dadd day (of_int delta)).

Definition getStartInYear (r : AnnualTimeZoneRule) (year prevRawOffset prevDSTSavings : Z) : option (option double) :=
  if (year <? r.(fStartYear)) || (year >? r.(fEndYear)) then Some None
  else
    let rule := r.(fDateTimeRule) in
    let! day := ruleDay rule year in
    let result := dadd (dmul day (of_int U_MILLIS_PER_DAY)) (of_int rule.(fMillisInDay)) in
    let result := if bool_decide (rule.(fTimeRuleType) <> UTC_TIME) then dsub result (of_int prevRawOffset) else result in
    let result := if bool_decide (rule.(fTimeRuleType) = WALL_TIME) then dsub result (of_int prevDSTSavings) else result in
    Some (Some result).

Definition getFirstStart (r : AnnualTimeZoneRule) (prevRawOffset prevDSTSavings : Z) : option (option double) :=
  getStartInYear r r.(fStartYear) prevRawOffset prevDSTSavings.

Definition getFinalStart (r : AnnualTimeZoneRule) (prevRawOffset prevDSTSavings : Z) : option (option double) :=
  if r.(fEndYear) =? MAX_YEAR then Some None else getStartInYear r r.(fEndYear) prevRawOffset prevDSTSavings.

Definition getNextStart (r : AnnualTimeZoneRule) (base : double) (prevRawOffset prevDSTSavings : Z) (inclusive : bool) :
    option (option double) :=
  let! '(f, _) := timeToFields base in
  if f.(year) <? r.(fStartYear) then getFirstStart r prevRawOffset prevDSTSavings
  else
    let! tmp := getStartInYear r f.(year) prevRawOffset prevDSTSavings in
    match tmp with
    | Some tmp =>
        if dlt tmp base || (negb inclusive && deq tmp base) then
          let! y := f.(year) +! 1 in getStartInYear r y prevRawOffset prevDSTSavings
        else Some (Some tmp)
    | None => Some None
    end.

Definition getPreviousStart (r : AnnualTimeZoneRule) (base : double) (prevRawOffset prevDSTSavings : Z) (inclusive : bool) :
    option (option double) :=
  let! '(f, _) := timeToFields base in
  if f.(year) >? r.(fEndYear) then getFinalStart r prevRawOffset prevDSTSavings
  else
    let! tmp := getStartInYear r f.(year) prevRawOffset prevDSTSavings in
    match tmp with
    | Some tmp =>
        if dlt base tmp || (negb inclusive && deq tmp base) then
          let! y := f.(year) -! 1 in getStartInYear r y prevRawOffset prevDSTSavings
        else Some (Some tmp)
    | None => Some None
    end.

(** ** Transitions *)

Record TimeZoneTransition := MkTransition { tz_fTime : double; fFrom : option AnyRule; fTo : option AnyRule }.

(** The rules are cloned. *)
Definition new_transition (time : double) (from to : AnyRule) : TimeZoneTransition := MkTransition time (Some from) (Some to).
Definition setTime (t : TimeZoneTransition) (time : double) : TimeZoneTransition := MkTransition time t.(fFrom) t.(fTo).
Definition setFrom (t : TimeZoneTransition) (from : AnyRule) : TimeZoneTransition := MkTransition t.(tz_fTime) (Some from) t.(fTo).
Definition setTo (t : TimeZoneTransition) (to : AnyRule) : TimeZoneTransition := MkTransition t.(tz_fTime) t.(fFrom) (Some to).

End TimeZoneRules.

(** ** The days of the rules *)

Module RuleDays.
Import Grego Gregorian GregoFacts TimeZoneRules.

(** The first day from [D] on, and the last day up to [D], with the weekday [w]. *)
Definition weekday_from (D w : Z) : Z := D + (w - weekday D) mod 7.
Definition weekday_upto (D w : Z) : Z := D - (weekday D - w) mod 7.

(** Days with the same weekday are whole weeks apart. *)
Lemma weekday_period D D' : weekday D = weekday D' <-> (D' - D) mod 7 = 0.
Proof. unfold weekday. split; dlia. Qed.

Lemma weekday_from_spec D w : 1 <= w <= 7 ->
  weekday (weekday_from D w) = w /\ D <= weekday_from D w < D + 7 /\ forall D', D <= D' -> weekday D' = w -> weekday_from D w <= D'.
Proof.
  intros Hw. assert (H1 : weekday (weekday_from D w) = w) by (unfold weekday_from, weekday; dlia).
  assert (H2 : D <= weekday_from D w < D + 7) by (unfold weekday_from; dlia).
  split; [done|]. split; [done|]. intros D' Hd Hw'. rewrite <- H1 in Hw'. apply weekday_period in Hw'. dlia.
Qed.

Lemma weekday_upto_spec D w : 1 <= w <= 7 ->
  weekday (weekday_upto D w) = w /\ D - 7 < weekday_upto D w <= D /\ forall D', D' <= D -> weekday D' = w -> D' <= weekday_upto D w.
Proof.
  intros Hw. assert (H1 : weekday (weekday_upto D w) = w) by (unfold weekday_upto, weekday; dlia).
  assert (H2 : D - 7 < weekday_upto D w <= D) by (unfold weekday_upto; dlia).
  split; [done|]. split; [done|]. intros D' Hd Hw'. rewrite <- H1 in Hw'. apply weekday_period in Hw'. dlia.
Qed.

(** The days before the month [m] of the year [y]. *)
Definition month_start (y m : Z) : Z := day_number (MkDate y m 1).

(** The day of the rule in the year [y], in days since 1970. *)
Definition rule_day (r : DateTimeRule) (y : Z) : Z :=
  let first := month_start y r.(fMonth) in
  let len := month_length y r.(fMonth) in
  match r.(fDateRuleType) with
  | DOM => first + r.(fDayOfMonth) - 1
  | DOW => if 0 <? r.(fWeekInMonth) then weekday_from first r.(fDayOfWeek) + 7 * (r.(fWeekInMonth) - 1)
           else weekday_upto (first + len - 1) r.(fDayOfWeek) + 7 * (r.(fWeekInMonth) + 1)
  | DOW_GEQ_DOM => weekday_from (first + r.(fDayOfMonth) - 1) r.(fDayOfWeek)
  | DOW_LEQ_DOM => weekday_upto (first + Z.min r.(fDayOfMonth) len - 1) r.(fDayOfWeek)
  end.

(** Rules of a calendar year: the days are those of the months in leap years. *)
Record rule_ok (r : DateTimeRule) : Prop := {
  ro_month : 0 <= r.(fMonth) <= 11;
  ro_day : r.(fDateRuleType) <> DOW -> 1 <= r.(fDayOfMonth) <= month_length 2000 r.(fMonth);
  ro_weeks : r.(fDateRuleType) = DOW -> -5 <= r.(fWeekInMonth) <= 5;
  ro_dow : r.(fDateRuleType) <> DOM -> 1 <= r.(fDayOfWeek) <= 7
}.

Lemma dayOfWeek_spec D : Z.abs D <= 10000000000 -> dayOfWeek (of_int D) = Some (weekday D).
Proof.
  intros HD. unfold dayOfWeek, UCAL_THURSDAY, UCAL_SATURDAY. rewrite dadd_int by lia.
  rewrite ClockMath.floorDivide_int_ok by dlia. cbn [obind]. f_equal. unfold weekday. destruct (Z.eqb_spec ((D + 5) mod 7) 0); dlia.
Qed.

(** A month is as long as in a leap year, but February may be a day shorter. *)
Lemma month_length_2000 y m : 0 <= m <= 11 ->
  month_length y m = month_length 2000 m - (if (m =? 1) && negb (leap y) then 1 else 0).
Proof. intros Hm. unfold month_length. change (leap 2000) with true. month_cases m; cbn; destruct (leap y); reflexivity. Qed.

Lemma month_start_bound y m : year_ok y -> 0 <= m <= 11 -> Z.abs (month_start y m) <= 2200000000.
Proof.
  intros Hy Hm. apply GregoProperties.day_number_range; [done|]. unfold valid. cbn. pose proof (month_length_range y m). lia.
Qed.

Lemma fieldsToDay_start y m d :
  year_ok y -> 0 <= m <= 11 -> -1000000 <= d <= 1000000 -> fieldsToDay y m d = Some (of_int (month_start y m + d - 1)).
Proof. intros Hy Hm Hd. rewrite fieldsToDay_spec by done. do 2 f_equal. unfold month_start, day_number. cbn. lia. Qed.

Lemma ruleDay_spec r y : rule_ok r -> year_ok y -> ruleDay r y = Some (of_int (rule_day r y)).
Proof.
  intros [Hm Hd Hn Hw] Hy. unfold ruleDay, rule_day. pose proof (month_start_bound y _ Hy Hm) as Hb.
  pose proof (month_length_range y (fMonth r)) as Hl. pose proof (month_length_range 2000 (fMonth r)) as Hl'.
  assert (Hfrom : forall D w, Z.abs D <= 3000000000 -> 1 <= w <= 7 ->
    (let! dow := dayOfWeek (of_int D) in
     let! delta := w -! dow in
     let! delta := (if delta <? 0 then delta +! 7 else Some delta) in Some (dadd (of_int D) (of_int delta))) =
    Some (of_int (weekday_from D w))).
  { intros D w HD HDw. rewrite dayOfWeek_spec by lia. cbn [obind]. unfold weekday_from.
    assert (1 <= weekday D <= 7) by (unfold weekday; dlia). icalc.
    destruct (Z.ltb_spec (w - weekday D) 0); icalc; rewrite dadd_int by lia; do 2 f_equal; dlia. }
  assert (Hupto : forall D w, Z.abs D <= 3000000000 -> 1 <= w <= 7 ->
    (let! dow := dayOfWeek (of_int D) in
     let! delta := w -! dow in
     let! delta := (if delta >? 0 then delta -! 7 else Some delta) in Some (dadd (of_int D) (of_int delta))) =
    Some (of_int (weekday_upto D w))).
  { intros D w HD HDw. rewrite dayOfWeek_spec by lia. cbn [obind]. unfold weekday_upto.
    assert (1 <= weekday D <= 7) by (unfold weekday; dlia). icalc. rewrite Z.gtb_ltb.
    destruct (Z.ltb_spec 0 (w - weekday D)); icalc; rewrite dadd_int by lia; do 2 f_equal; dlia. }
  destruct (fDateRuleType r) eqn:Ht.
  - specialize (Hd ltac:(done)). rewrite bool_decide_eq_true_2 by done. by rewrite fieldsToDay_start by (done || lia).
  - rewrite bool_decide_eq_false_2, bool_decide_eq_true_2 by done. specialize (Hn eq_refl). rewrite Z.gtb_ltb.
    destruct (Z.ltb_spec 0 (fWeekInMonth r)).
    + rewrite fieldsToDay_start by (done || lia). cbn [obind]. icalc. rewrite dadd_int by lia.
      rewrite Hfrom by (lia || by apply Hw). do 2 f_equal. unfold weekday_from, weekday. dlia.
    + rewrite monthLength_spec by done. cbn [obind]. rewrite fieldsToDay_start by (done || lia). cbn [obind]. icalc. rewrite dadd_int by lia.
      rewrite Hupto by (lia || by apply Hw). do 2 f_equal. unfold weekday_upto, weekday. dlia.
  - rewrite !bool_decide_eq_false_2 by done. cbn [andb]. rewrite fieldsToDay_start by (done || (specialize (Hd ltac:(done)); lia)). cbn [obind negb].
    rewrite Hfrom by ((specialize (Hd ltac:(done)); lia) || by apply Hw). do 2 f_equal.
  - rewrite bool_decide_eq_false_2, bool_decide_eq_false_2, bool_decide_eq_true_2 by done. specialize (Hd ltac:(done)). cbn [andb].
    rewrite isLeapYear_spec. rewrite (month_length_2000 y) in * by done.
    set (dom := if (fMonth r =? 1) && _ && _ then _ else _).
    assert (Hdom : dom = Z.min (fDayOfMonth r) (month_length 2000 (fMonth r) - (if (fMonth r =? 1) && negb (leap y) then 1 else 0))).
    { unfold dom. destruct (Z.eqb_spec (fMonth r) 1) as [Em|]; cbn [andb]; [|lia]. rewrite Em in *. change (month_length 2000 1) with 29 in *.
      destruct (Z.eqb_spec (fDayOfMonth r) 29), (leap y); cbn [andb negb]; lia. }
    rewrite fieldsToDay_start by (done || lia). cbn [obind negb]. rewrite Hupto by (lia || by apply Hw). by rewrite Hdom.
Qed.

(** *** Starts *)

(** The milliseconds from GMT to the time in which the rule is expressed. *)
Definition rule_offset (r : DateTimeRule) (raw savings : Z) : Z :=
  match r.(fTimeRuleType) with WALL_TIME => raw + savings | STANDARD_TIME => raw | UTC_TIME => 0 end.

(** The time of the rule in the year [y]. *)
Definition rule_time (r : DateTimeRule) (raw savings y : Z) : Z :=
  rule_day r y * U_MILLIS_PER_DAY + r.(fMillisInDay) - rule_offset r raw savings.

(** The years whose milliseconds are exact doubles. *)
Definition ms_year (y : Z) : Prop := -130000 <= y <= 130000.

Lemma ms_year_ok y : ms_year y -> year_ok y.
Proof. unfold ms_year, year_ok. lia. Qed.

Lemma month_start_near y m : 0 <= m <= 11 -> days_before_year y - 719162 <= month_start y m <= days_before_year y - 719162 + 336.
Proof.
  intros Hm. unfold month_start, day_number. cbn [Gregorian.y Gregorian.m Gregorian.d].
  assert (0 <= days_before_month y m <= 335); [|lia].
  unfold days_before_month. destruct (leap y); month_cases m; split; vm_compute; discriminate.
Qed.

Lemma rule_day_near r y : rule_ok r -> Z.abs (rule_day r y - month_start y (fMonth r)) <= 70.
Proof.
  intros [Hm Hd Hn Hw]. unfold rule_day.
  pose proof (month_length_range y (fMonth r)) as Hl. pose proof (month_length_range 2000 (fMonth r)) as Hl'.
  destruct (fDateRuleType r) eqn:Ht; try (specialize (Hd ltac:(done))); try (specialize (Hw ltac:(done))); try (specialize (Hn ltac:(done))).
  - lia.
  - case_match; unfold weekday_from, weekday_upto; dlia.
  - unfold weekday_from. dlia.
  - unfold weekday_upto. dlia.
Qed.

Lemma rule_day_bound r y : rule_ok r -> ms_year y -> Z.abs (rule_day r y) <= 93000000.
Proof.
  intros Hr Hy. pose proof (rule_day_near r y Hr). pose proof (month_start_near y (fMonth r) (ro_month r Hr)). unfold ms_year, days_before_year in *. dlia.
Qed.

Lemma getStartInYear_spec r raw savings y :
  rule_ok r.(fDateTimeRule) -> ms_year y -> Z.abs r.(fDateTimeRule).(fMillisInDay) <= 86400000 -> is_int32 raw -> is_int32 savings ->
  getStartInYear r y raw savings =
    Some (if (r.(fStartYear) <=? y) && (y <=? r.(fEndYear)) then Some (of_int (rule_time r.(fDateTimeRule) raw savings y)) else None).
Proof.
  intros Hr Hy Hms Hraw Hsav. unfold getStartInYear, is_int32, INT32_MIN, INT32_MAX in *. rewrite Z.gtb_ltb, !Z.leb_antisym.
  destruct (y <? fStartYear r); cbn [orb andb negb]; [done|]. destruct (fEndYear r <? y); cbn [negb]; [done|].
  rewrite ruleDay_spec by (done || by apply ms_year_ok). cbn [obind]. pose proof (rule_day_bound _ _ Hr Hy). unfold rule_time, U_MILLIS_PER_DAY, rule_offset.
  rewrite dmul_int, dadd_int by lia. destruct (fTimeRuleType (fDateTimeRule r));
    repeat first [rewrite bool_decide_eq_true_2 by done | rewrite bool_decide_eq_false_2 by (intros Hx; by try apply Hx)];
    rewrite ?dsub_int by lia; do 3 f_equal; lia.
Qed.


(** ** The next and the previous start *)

(** The time [x] is in the calendar year [y]. *)
Definition in_year (y x : Z) : Prop := month_start y 0 * U_MILLIS_PER_DAY <= x < month_start (y + 1) 0 * U_MILLIS_PER_DAY.

Lemma month_start_0 y : month_start y 0 = days_before_year y - 719162.
Proof.
  unfold month_start, day_number. cbn [Gregorian.y Gregorian.m Gregorian.d].
  assert (days_before_month y 0 = 0) as -> by (unfold days_before_month; by rewrite andb_false_r). lia.
Qed.

Lemma first_day_le y y' : y <= y' -> month_start y 0 <= month_start y' 0.
Proof. intros Hy. rewrite !month_start_0. unfold days_before_year. dlia. Qed.

Lemma in_year_unique y y' x : in_year y x -> in_year y' x -> y = y'.
Proof.
  unfold in_year, U_MILLIS_PER_DAY. intros H H'. destruct (Z.lt_trichotomy y y') as [Hlt|[->|Hlt]]; [|done|].
  - pose proof (first_day_le (y + 1) y' ltac:(lia)). lia.
  - pose proof (first_day_le (y' + 1) y ltac:(lia)). lia.
Qed.

Lemma in_year_order y y' x x' : in_year y x -> in_year y' x' -> y < y' -> x < x'.
Proof. unfold in_year, U_MILLIS_PER_DAY. intros H H' Hlt. pose proof (first_day_le (y + 1) y' ltac:(lia)). lia. Qed.

(** The year of a day, from its date. *)
Lemma day_in_year t : valid t -> month_start t.(y) 0 <= day_number t < month_start (t.(y) + 1) 0.
Proof.
  intros [Hm Hd]. rewrite !month_start_0, days_before_year_step. unfold day_number.
  pose proof (GregoProperties.days_before_month_bounds (Gregorian.y t) (Gregorian.m t) Hm). lia.
Qed.

Lemma timeToFields_year t y :
  ms_year y -> in_year y t -> exists f mid, timeToFields (of_int t) = Some (f, mid) /\ f.(year) = y.
Proof.
  intros Hy Ht. assert (Hb : Z.abs t < 2 ^ 52).
  { unfold in_year, ms_year, U_MILLIS_PER_DAY in *. rewrite !month_start_0 in Ht. unfold days_before_year in Ht. dlia. }
  destruct (GregoProperties.timeToFields_correct t Hb) as (f & mid & E & Hv & Hm & Heq & _). exists f, mid. split; [done|].
  apply (in_year_unique _ _ t); [|done]. pose proof (day_in_year _ Hv) as Hd. cbn [Gregorian.y] in Hd.
  unfold in_year, U_MILLIS_PER_DAY in *. lia.
Qed.

(** Rules from February to November stay within their year. *)
Lemma rule_inside r raw savings y :
  rule_ok r -> 1 <= r.(fMonth) <= 10 -> 0 <= r.(fMillisInDay) <= 86400000 -> Z.abs (rule_offset r raw savings) <= 1000000000 ->
  in_year y (rule_time r raw savings y).
Proof.
  intros Hr Hm Hms Hoff. pose proof (ro_month r Hr) as Hm0. unfold in_year, rule_time, U_MILLIS_PER_DAY.
  assert (Hday : month_start y 0 + 20 <= rule_day r y <= month_start y 0 + 345).
  { destruct Hr as [_ Hd Hn Hw]. unfold rule_day.
    pose proof (month_length_range y (fMonth r)) as Hl. pose proof (month_length_range 2000 (fMonth r)) as Hl'.
    assert (Hs : month_start y 0 + 31 <= month_start y (fMonth r) <= month_start y 0 + 305).
    { rewrite month_start_0. unfold month_start, day_number. cbn [Gregorian.y Gregorian.m Gregorian.d].
      assert (31 <= days_before_month y (fMonth r) <= 305); [|lia].
      clear - Hm. revert Hm. generalize (fMonth r). intros m Hm. unfold days_before_month.
      destruct (leap y); month_cases m; try lia; split; vm_compute; discriminate. }
    destruct (fDateRuleType r) eqn:Ht; try (specialize (Hd ltac:(done))); try (specialize (Hw ltac:(done))); try (specialize (Hn ltac:(done))).
    - lia.
    - case_match; unfold weekday_from, weekday_upto; dlia.
    - unfold weekday_from. dlia.
    - unfold weekday_upto. dlia. }
  rewrite !month_start_0 in *. rewrite days_before_year_step in *. unfold year_length. destruct (leap y); lia.
Qed.

(** A rule whose time is in the year it belongs to. *)
Section Annual.
Context (r : AnnualTimeZoneRule) (raw savings : Z).
Context (Hr : rule_ok r.(fDateTimeRule)) (Hms : Z.abs r.(fDateTimeRule).(fMillisInDay) <= 86400000).
Context (Hraw : is_int32 raw) (Hsav : is_int32 savings).
Context (Hstart : ms_year r.(fStartYear)) (Hend : r.(fEndYear) = MAX_YEAR).

#[local] Abbreviation at_year := (rule_time r.(fDateTimeRule) raw savings).

Lemma start_in_year y : ms_year y -> r.(fStartYear) <= y -> getStartInYear r y raw savings = Some (Some (of_int (at_year y))).
Proof.
  intros Hy Hs. rewrite getStartInYear_spec by done. rewrite Hend. unfold MAX_YEAR, ms_year in *.
  by rewrite !(proj2 (Z.leb_le _ _)) by lia.
Qed.

(** The first start after a time (from it on when [inclusive]). *)
Definition next_start (t y : Z) (inclusive : bool) : Z :=
  if y <? r.(fStartYear) then at_year r.(fStartYear)
  else if (at_year y <? t) || (negb inclusive && (at_year y =? t)) then at_year (y + 1) else at_year y.

Lemma getNextStart_spec t y inclusive :
  ms_year y -> ms_year (y + 1) -> in_year y t ->
  getNextStart r (of_int t) raw savings inclusive = Some (Some (of_int (next_start t y inclusive))).
Proof.
  intros Hy Hy1 Ht. unfold getNextStart, next_start. destruct (timeToFields_year t y Hy Ht) as (f & mid & E & Hfy). rewrite E. cbn [obind]. rewrite Hfy.
  destruct (Z.ltb_spec y (fStartYear r)); [apply start_in_year; [done|lia]|].
  rewrite start_in_year by (done || lia). cbn [obind]. rewrite ClockMath.dlt_int, deq_int.
  destruct (_ || _); [|done]. unfold ms_year in Hy. icalc. apply start_in_year; [done|lia].
Qed.

(** The last start before a time. *)
Definition previous_start (t y : Z) (inclusive : bool) : option Z :=
  if y <? r.(fStartYear) then None
  else if (t <? at_year y) || (negb inclusive && (at_year y =? t))
  then if y - 1 <? r.(fStartYear) then None else Some (at_year (y - 1)) else Some (at_year y).

Lemma getPreviousStart_spec t y inclusive :
  ms_year y -> ms_year (y - 1) -> in_year y t ->
  getPreviousStart r (of_int t) raw savings inclusive = Some (option_map of_int (previous_start t y inclusive)).
Proof.
  intros Hy Hy1 Ht. unfold getPreviousStart, previous_start. destruct (timeToFields_year t y Hy Ht) as (f & mid & E & Hfy). rewrite E. cbn [obind]. rewrite Hfy.
  rewrite Hend, Z.gtb_ltb. unfold ms_year in Hy, Hy1. rewrite (proj2 (Z.ltb_ge _ _)) by (unfold MAX_YEAR; lia).
  rewrite getStartInYear_spec by done. rewrite Hend, (proj2 (Z.leb_le y MAX_YEAR)), andb_true_r, Z.leb_antisym by (unfold MAX_YEAR; lia).
  destruct (Z.ltb_spec y (fStartYear r)); cbn [negb obind option_map]; [done|]. rewrite ClockMath.dlt_int, deq_int.
  destruct (_ || _); [|done]. icalc. rewrite getStartInYear_spec by done.
  rewrite Hend, (proj2 (Z.leb_le (y - 1) MAX_YEAR)), andb_true_r, Z.leb_antisym by (unfold MAX_YEAR; lia).
  by destruct (y - 1 <? fStartYear r).
Qed.

Context (Hinside : forall y, ms_year y -> in_year y (at_year y)).

Lemma at_year_mono y y' : ms_year y -> ms_year y' -> y < y' -> at_year y < at_year y'.
Proof. intros Hy Hy' Hlt. by apply (in_year_order y y'); [apply Hinside..|]. Qed.

(** [next_start] is the least start after [t]. *)
Lemma next_start_least t y inclusive :
  ms_year y -> ms_year (y + 1) -> in_year y t ->
  let n := next_start t y inclusive in
  (exists y', r.(fStartYear) <= y' /\ y <= y' <= Z.max (y + 1) r.(fStartYear) /\ n = at_year y') /\ (if inclusive then t <= n else t < n) /\
  forall y', ms_year y' -> r.(fStartYear) <= y' -> (if inclusive then t <= at_year y' else t < at_year y') -> n <= at_year y'.
Proof.
  intros Hy Hy1 Ht n. unfold n, next_start.
  assert (Hle : forall y1 y2, ms_year y1 -> ms_year y2 -> y1 <= y2 -> at_year y1 <= at_year y2).
  { intros y1 y2 H1 H2 H12. destruct (decide (y1 = y2)) as [->|]; [done|]. pose proof (at_year_mono y1 y2 H1 H2). lia. }
  assert (Hbefore : forall y', ms_year y' -> y' < y -> at_year y' < t) by (intros y' Hy' Hlt; by apply (in_year_order y' y); [apply Hinside|..]).
  assert (Hafter : forall y', ms_year y' -> y < y' -> t < at_year y') by (intros y' Hy' Hlt; by apply (in_year_order y y'); [|apply Hinside|]).
  destruct (Z.ltb_spec y (fStartYear r)) as [Hlt|Hge].
  - split; [exists (fStartYear r); split; [lia|split; [lia|done]]|]. split; [pose proof (Hafter _ Hstart Hlt); destruct inclusive; lia|].
    intros y' Hy' Hs _. by apply Hle.
  - destruct ((at_year y <? t) || (negb inclusive && (at_year y =? t))) eqn:Hc.
    + split; [exists (y + 1); split; [lia|split; [lia|done]]|]. split; [pose proof (Hafter _ Hy1); destruct inclusive; lia|].
      intros y' Hy' Hs Ht'. apply Hle; [done|done|]. destruct (Z.lt_trichotomy y' y) as [H|[->|H]]; [|exfalso|lia].
      * pose proof (Hbefore y' Hy' H). destruct inclusive; lia.
      * rewrite orb_true_iff, andb_true_iff, Z.ltb_lt, Z.eqb_eq in Hc. destruct inclusive; cbn in Hc; destruct Hc as [|[]]; (lia || done).
    + rewrite orb_false_iff, andb_false_iff, Z.ltb_ge, Z.eqb_neq in Hc.
      split; [exists y; split; [lia|split; [lia|done]]|]. split; [destruct inclusive; cbn in Hc; destruct Hc as [? []]; (lia || done)|].
      intros y' Hy' Hs Ht'. apply Hle; [done|done|]. destruct (Z.lt_ge_cases y' y) as [H|]; [|lia].
      pose proof (Hbefore y' Hy' H). destruct inclusive; lia.
Qed.
End Annual.

End RuleDays.
