(* ===== verification/SimpleTimeZone.v ===== *)
(** * Zones with yearly rules (src/i18n/simpletz.cpp)

    A [SimpleTimeZone] has an offset from GMT and at most two rules, the start
    and the end of daylight saving time in every year.  The rules are given in
    an encoded form, which [decodeStartRule] and [decodeEndRule] check and
    decode.  [getOffset] finds the offset of a date by comparing it with the
    rules; [getNextTransition] and [getPreviousTransition] use rule objects that
    are made when they are needed first and kept until a setter runs.

    An [int8_t] is a [Z] between -128 and 127, a [TimeMode] a [Z], since the code
    checks its range.  [new] does not fail here.  The zone of the calendars of
    CalendarTime.v, [TimeZone], is instantiated at the end. *)
From S2P Require Import Prelude Int32 Double Grego CalendarTime TimeZoneRules.
Local Open Scope Z_scope.

Module SimpleTimeZone.
Import Grego TimeZoneRules.

Definition WALL_TIME : Z := 0.
Definition STANDARD_TIME : Z := 1.
Definition UTC_TIME : Z := 2.

Inductive EMode := DOM_MODE | DOW_IN_MONTH_MODE | DOW_GE_DOM_MODE | DOW_LE_DOM_MODE.

#[export] Instance EMode_eq_dec : EqDecision EMode.
Proof. solve_decision. Defined.

Definition STATICMONTHLENGTH : list Z := [31; 29; 31; 30; 31; 30; 31; 31; 30; 31; 30; 31].
Definition DST_STR : list Z := [0x28; 0x44; 0x53; 0x54; 0x29].
Definition STD_STR : list Z := [0x28; 0x53; 0x54; 0x44; 0x29].
Definition U_MILLIS_PER_HOUR : Z := 3600000.
Definition UCAL_JANUARY : Z := 0.
Definition UCAL_DECEMBER : Z := 11.
Definition BC : Z := 0.
Definition AD : Z := 1.

Record SimpleTimeZone := MkZone {
  id : list Z;
  startMonth : Z; startDay : Z; startDayOfWeek : Z;
  startTime : Z;
  startTimeMode : Z; endTimeMode : Z;
  endMonth : Z; endDay : Z; endDayOfWeek : Z;
  endTime : Z;
  startYear : Z;
  rawOffset : Z;
  useDaylight : bool;
  startMode : EMode; endMode : EMode;
  dstSavings : Z;
  transitionRulesInitialized : bool;
  initialRule : option TimeZoneRule;
  firstTransition : option TimeZoneTransition;
  stdRule : option AnnualTimeZoneRule;
  dstRule : option AnnualTimeZoneRule
}.

(** The members that a setter assigns. *)
Definition with_start (z : SimpleTimeZone) (month day dayOfWeek time timeMode : Z) (mode : EMode) (use : bool) (savings : Z) : SimpleTimeZone :=
  MkZone z.(id) month day dayOfWeek time timeMode z.(endTimeMode) z.(endMonth) z.(endDay) z.(endDayOfWeek) z.(endTime)
    z.(startYear) z.(rawOffset) use mode z.(endMode) savings
    z.(transitionRulesInitialized) z.(initialRule) z.(firstTransition) z.(stdRule) z.(dstRule).
Definition with_end (z : SimpleTimeZone) (month day dayOfWeek time timeMode : Z) (mode : EMode) (use : bool) (savings : Z) : SimpleTimeZone :=
  MkZone z.(id) z.(startMonth) z.(startDay) z.(startDayOfWeek) z.(startTime) z.(startTimeMode) timeMode month day dayOfWeek time
    z.(startYear) z.(rawOffset) use z.(startMode) mode savings
    z.(transitionRulesInitialized) z.(initialRule) z.(firstTransition) z.(stdRule) z.(dstRule).
Definition with_offsets (z : SimpleTimeZone) (year raw savings : Z) : SimpleTimeZone :=
  MkZone z.(id) z.(startMonth) z.(startDay) z.(startDayOfWeek) z.(startTime) z.(startTimeMode) z.(endTimeMode)
    z.(endMonth) z.(endDay) z.(endDayOfWeek) z.(endTime) year raw z.(useDaylight) z.(startMode) z.(endMode) savings
    z.(transitionRulesInitialized) z.(initialRule) z.(firstTransition) z.(stdRule) z.(dstRule).
Definition with_rules (z : SimpleTimeZone) (init : bool) (ir : option TimeZoneRule) (ft : option TimeZoneTransition)
    (std dst : option AnnualTimeZoneRule) : SimpleTimeZone :=
  MkZone z.(id) z.(startMonth) z.(startDay) z.(startDayOfWeek) z.(startTime) z.(startTimeMode) z.(endTimeMode)
    z.(endMonth) z.(endDay) z.(endDayOfWeek) z.(endTime) z.(startYear) z.(rawOffset) z.(useDaylight) z.(startMode) z.(endMode)
    z.(dstSavings) init ir ft std dst.

(** [TimeZone::setID], which knows nothing of the rules. *)
Definition setID (z : SimpleTimeZone) (ID : list Z) : SimpleTimeZone :=
  MkZone ID z.(startMonth) z.(startDay) z.(startDayOfWeek) z.(startTime) z.(startTimeMode) z.(endTimeMode) z.(endMonth) z.(endDay)
    z.(endDayOfWeek) z.(endTime) z.(startYear) z.(rawOffset) z.(useDaylight) z.(startMode) z.(endMode) z.(dstSavings)
    z.(transitionRulesInitialized) z.(initialRule) z.(firstTransition) z.(stdRule) z.(dstRule).

(** [transitionRulesInitialized = FALSE;] *)
Definition forget (z : SimpleTimeZone) : SimpleTimeZone :=
  with_rules z false z.(initialRule) z.(firstTransition) z.(stdRule) z.(dstRule).

Definition clearTransitionRules (z : SimpleTimeZone) : SimpleTimeZone := with_rules z false None None None None.
Definition deleteTransitionRules (z : SimpleTimeZone) : SimpleTimeZone := clearTransitionRules z.

(** ** Rules *)

(** The checks that both decoders make of a month, a day, a weekday, a time and
    a time mode: the decoded day, weekday and mode, and the status. *)
Definition decode_rule (month day dayOfWeek time timeMode : Z) (mode : EMode) (status : UErrorCode) :
    option (Z * Z * EMode * UErrorCode) :=
  if (month <? UCAL_JANUARY) || (month >? UCAL_DECEMBER) then Some (day, dayOfWeek, mode, U_ILLEGAL_ARGUMENT_ERROR)
  else if (time <? 0) || (time >? U_MILLIS_PER_DAY) || (timeMode <? WALL_TIME) || (timeMode >? UTC_TIME)
  then Some (day, dayOfWeek, mode, U_ILLEGAL_ARGUMENT_ERROR)
  else
    let '(day, dayOfWeek, mode) :=
      if dayOfWeek =? 0 then (day, dayOfWeek, DOM_MODE)
      else if dayOfWeek >? 0 then (day, dayOfWeek, DOW_IN_MONTH_MODE)
      else if day >? 0 then (day, int8 (- dayOfWeek), DOW_GE_DOM_MODE)
      else (int8 (- day), int8 (- dayOfWeek), DOW_LE_DOM_MODE) in
    if negb (bool_decide (mode = DOM_MODE)) && (dayOfWeek >? UCAL_SATURDAY) then Some (day, dayOfWeek, mode, U_ILLEGAL_ARGUMENT_ERROR)
    else if bool_decide (mode = DOW_IN_MONTH_MODE) then
      Some (day, dayOfWeek, mode, if (day <? -5) || (day >? 5) then U_ILLEGAL_ARGUMENT_ERROR else status)
    else
      let! len := aget STATICMONTHLENGTH month in
      Some (day, dayOfWeek, mode, if (day <? 1) || (day >? len) then U_ILLEGAL_ARGUMENT_ERROR else status).

(** [useDaylight], and the savings when there are none yet *)
Definition daylight (z : SimpleTimeZone) : bool * Z :=
  let use := negb (z.(startDay) =? 0) && negb (z.(endDay) =? 0) in
  (use, if use && (z.(dstSavings) =? 0) then U_MILLIS_PER_HOUR else z.(dstSavings)).

Definition decodeStartRule (z : SimpleTimeZone) (status : UErrorCode) : option (SimpleTimeZone * UErrorCode) :=
  if U_FAILURE status then Some (z, status)
  else
    let '(use, savings) := daylight z in
    let! '(day, dow, mode, status) :=
      (if negb (z.(startDay) =? 0)
       then decode_rule z.(startMonth) z.(startDay) z.(startDayOfWeek) z.(startTime) z.(startTimeMode) z.(startMode) status
       else Some (z.(startDay), z.(startDayOfWeek), z.(startMode), status)) in
    Some (with_start z z.(startMonth) day dow z.(startTime) z.(startTimeMode) mode use savings, status).

Definition decodeEndRule (z : SimpleTimeZone) (status : UErrorCode) : option (SimpleTimeZone * UErrorCode) :=
  if U_FAILURE status then Some (z, status)
  else
    let '(use, savings) := daylight z in
    let! '(day, dow, mode, status) :=
      (if negb (z.(endDay) =? 0)
       then decode_rule z.(endMonth) z.(endDay) z.(endDayOfWeek) z.(endTime) z.(endTimeMode) z.(endMode) status
       else Some (z.(endDay), z.(endDayOfWeek), z.(endMode), status)) in
    Some (with_end z z.(endMonth) day dow z.(endTime) z.(endTimeMode) mode use savings, status).

Definition decodeRules (z : SimpleTimeZone) (status : UErrorCode) : option (SimpleTimeZone * UErrorCode) :=
  let! '(z, status) := decodeStartRule z status in decodeEndRule z status.

(** ** Construction *)

Definition new (rawOffsetGMT : Z) (ID : list Z) : SimpleTimeZone :=
  MkZone ID 0 0 0 0 WALL_TIME WALL_TIME 0 0 0 0 0 rawOffsetGMT false DOM_MODE DOM_MODE U_MILLIS_PER_HOUR
    false None None None None.

(** [construct], for the three constructors with rules.  [useDaylight] of the new
    object is [garbage] until it is assigned. *)
Definition new_rules (garbage : bool) (ID : list Z) (rawOffsetGMT
      savingsStartMonth savingsStartDay savingsStartDayOfWeek savingsStartTime savingsStartTimeMode
      savingsEndMonth savingsEndDay savingsEndDayOfWeek savingsEndTime savingsEndTimeMode savingsDST : Z)
    (status : UErrorCode) : option (SimpleTimeZone * UErrorCode) :=
  let z := MkZone ID savingsStartMonth savingsStartDay savingsStartDayOfWeek savingsStartTime savingsStartTimeMode savingsEndTimeMode
    savingsEndMonth savingsEndDay savingsEndDayOfWeek savingsEndTime 0 rawOffsetGMT garbage DOM_MODE DOM_MODE savingsDST
    false None None None None in
  let! '(z, status) := decodeRules z status in
  Some (z, if savingsDST <=? 0 then U_ILLEGAL_ARGUMENT_ERROR else status).

(** [operator=] of two different objects, with [TimeZone::operator=] *)
Definition operator_assign (z right : SimpleTimeZone) : SimpleTimeZone :=
  clearTransitionRules (MkZone right.(id) right.(startMonth) right.(startDay) right.(startDayOfWeek) right.(startTime)
    right.(startTimeMode) right.(endTimeMode) right.(endMonth) right.(endDay) right.(endDayOfWeek) right.(endTime)
    right.(startYear) right.(rawOffset) right.(useDaylight) right.(startMode) right.(endMode) right.(dstSavings)
    z.(transitionRulesInitialized) z.(initialRule) z.(firstTransition) z.(stdRule) z.(dstRule)).

(** ** Setters *)

Definition setStartYear (z : SimpleTimeZone) (year : Z) : SimpleTimeZone :=
  forget (with_offsets z year z.(rawOffset) z.(dstSavings)).

Definition setStartRule (z : SimpleTimeZone) (month dayOfWeekInMonth dayOfWeek time mode : Z) (status : UErrorCode) :
    option (SimpleTimeZone * UErrorCode) :=
  let z := with_start z (int8 month) (int8 dayOfWeekInMonth) (int8 dayOfWeek) time mode z.(startMode) z.(useDaylight) z.(dstSavings) in
  let! '(z, status) := decodeStartRule z status in
  Some (forget z, status).

Definition setStartRule_dom (z : SimpleTimeZone) (month dayOfMonth time mode : Z) (status : UErrorCode) :=
  setStartRule z month dayOfMonth 0 time mode status.

Definition setStartRule_dow (z : SimpleTimeZone) (month dayOfMonth dayOfWeek time mode : Z) (after : bool) (status : UErrorCode) :
    option (SimpleTimeZone * UErrorCode) :=
  let! day := (if after then Some dayOfMonth else 0 -! dayOfMonth) in
  let! dow := 0 -! dayOfWeek in
  setStartRule z month day dow time mode status.

Definition setEndRule (z : SimpleTimeZone) (month dayOfWeekInMonth dayOfWeek time mode : Z) (status : UErrorCode) :
    option (SimpleTimeZone * UErrorCode) :=
  let z := with_end z (int8 month) (int8 dayOfWeekInMonth) (int8 dayOfWeek) time mode z.(endMode) z.(useDaylight) z.(dstSavings) in
  let! '(z, status) := decodeEndRule z status in
  Some (forget z, status).

Definition setEndRule_dom (z : SimpleTimeZone) (month dayOfMonth time mode : Z) (status : UErrorCode) :=
  setEndRule z month dayOfMonth 0 time mode status.

Definition setEndRule_dow (z : SimpleTimeZone) (month dayOfMonth dayOfWeek time mode : Z) (after : bool) (status : UErrorCode) :
    option (SimpleTimeZone * UErrorCode) :=
  let! day := (if after then Some dayOfMonth else 0 -! dayOfMonth) in
  let! dow := 0 -! dayOfWeek in
  setEndRule z month day dow time mode status.

Definition setRawOffset (z : SimpleTimeZone) (offsetMillis : Z) : SimpleTimeZone :=
  forget (with_offsets z z.(startYear) offsetMillis z.(dstSavings)).

Definition setDSTSavings (z : SimpleTimeZone) (millisSavedDuringDST : Z) (status : UErrorCode) : SimpleTimeZone * UErrorCode :=
  if millisSavedDuringDST <=? 0 then (forget z, U_ILLEGAL_ARGUMENT_ERROR)
  else (forget (with_offsets z z.(startYear) z.(rawOffset) millisSavedDuringDST), status).

Definition getRawOffset (z : SimpleTimeZone) : Z := z.(rawOffset).
Definition getDSTSavings (z : SimpleTimeZone) : Z := z.(dstSavings).
Definition useDaylightTime (z : SimpleTimeZone) : bool := z.(useDaylight).

Definition hasSameRules (z that : SimpleTimeZone) : bool :=
  (z.(rawOffset) =? that.(rawOffset)) && Bool.eqb z.(useDaylight) that.(useDaylight) &&
  (negb z.(useDaylight) ||
   ((z.(dstSavings) =? that.(dstSavings)) && bool_decide (z.(startMode) = that.(startMode)) &&
    (z.(startMonth) =? that.(startMonth)) && (z.(startDay) =? that.(startDay)) &&
    (z.(startDayOfWeek) =? that.(startDayOfWeek)) && (z.(startTime) =? that.(startTime)) &&
    (z.(startTimeMode) =? that.(startTimeMode)) && bool_decide (z.(endMode) = that.(endMode)) &&
    (z.(endMonth) =? that.(endMonth)) && (z.(endDay) =? that.(endDay)) &&
    (z.(endDayOfWeek) =? that.(endDayOfWeek)) && (z.(endTime) =? that.(endTime)) &&
    (z.(endTimeMode) =? that.(endTimeMode)) && (z.(startYear) =? that.(startYear)))).

(** ** The offset of a date *)

(** The two loops that carry the milliseconds into the date: the month, the day
    of the month, the weekday and the milliseconds. *)
Fixpoint carry_forward (fuel : nat) (month monthLen dayOfMonth dayOfWeek millis : Z) : option (Z * Z * Z * Z) :=
  match fuel with
  | O => None
  | S fuel' =>
      if millis >=? U_MILLIS_PER_DAY then
        let dayOfMonth := int8 (dayOfMonth + 1) in
        let dayOfWeek := int8 (1 + Z.rem dayOfWeek 7) in
        if dayOfMonth >? monthLen
        then carry_forward fuel' (int8 (month + 1)) monthLen 1 dayOfWeek (millis - U_MILLIS_PER_DAY)
        else carry_forward fuel' month monthLen dayOfMonth dayOfWeek (millis - U_MILLIS_PER_DAY)
      else Some (month, dayOfMonth, dayOfWeek, millis)
  end.

Fixpoint carry_back (fuel : nat) (month prevMonthLen dayOfMonth dayOfWeek millis : Z) : option (Z * Z * Z * Z) :=
  match fuel with
  | O => None
  | S fuel' =>
      if millis <? 0 then
        let dayOfMonth := int8 (dayOfMonth - 1) in
        let dayOfWeek := int8 (1 + Z.rem (dayOfWeek + 5) 7) in
        if dayOfMonth <? 1
        then carry_back fuel' (int8 (month - 1)) prevMonthLen prevMonthLen dayOfWeek (millis + U_MILLIS_PER_DAY)
        else carry_back fuel' month prevMonthLen dayOfMonth dayOfWeek (millis + U_MILLIS_PER_DAY)
      else Some (month, dayOfMonth, dayOfWeek, millis)
  end.

(** The day of the month of a rule, from the weekday of a date of the month. *)
Definition rule_day_of_month (mode : EMode) (ruleDay ruleDayOfWeek monthLen dayOfMonth dayOfWeek : Z) : Z :=
  match mode with
  | DOM_MODE => ruleDay
  | DOW_IN_MONTH_MODE =>
      if ruleDay >? 0
      then 1 + (ruleDay - 1) * 7 + Z.rem (7 + ruleDayOfWeek - (dayOfWeek - dayOfMonth + 1)) 7
      else monthLen + (ruleDay + 1) * 7 - Z.rem (7 + (dayOfWeek + monthLen - dayOfMonth) - ruleDayOfWeek) 7
  | DOW_GE_DOM_MODE => ruleDay + Z.rem (49 + ruleDayOfWeek - ruleDay - dayOfWeek + dayOfMonth) 7
  | DOW_LE_DOM_MODE => ruleDay - Z.rem (49 - ruleDayOfWeek + ruleDay + dayOfWeek - dayOfMonth) 7
  end.

Definition compareToRule (month monthLen prevMonthLen dayOfMonth dayOfWeek millis millisDelta : Z)
    (ruleMode : EMode) (ruleMonth ruleDayOfWeek ruleDay ruleMillis : Z) : option Z :=
  let! millis := millis +! millisDelta in
  let! '(month, dayOfMonth, dayOfWeek, millis) := carry_forward 32 month monthLen dayOfMonth dayOfWeek millis in
  let! '(month, dayOfMonth, dayOfWeek, millis) := carry_back 32 month prevMonthLen dayOfMonth dayOfWeek millis in
  if month <? ruleMonth then Some (-1)
  else if month >? ruleMonth then Some 1
  else
    let ruleDay := if ruleDay >? monthLen then monthLen else ruleDay in
    let ruleDayOfMonth := rule_day_of_month ruleMode ruleDay ruleDayOfWeek monthLen dayOfMonth dayOfWeek in
    if dayOfMonth <? ruleDayOfMonth then Some (-1)
    else if dayOfMonth >? ruleDayOfMonth then Some 1
    else if millis <? ruleMillis then Some (-1)
    else if millis >? ruleMillis then Some 1
    else Some 0.

(** What is added to the milliseconds of a date in local standard time before
    they are compared with the time of the start and of the end. *)
Definition startDelta (z : SimpleTimeZone) : I32 := if z.(startTimeMode) =? UTC_TIME then 0 -! z.(rawOffset) else Some 0.
Definition endDelta (z : SimpleTimeZone) : I32 :=
  if z.(endTimeMode) =? WALL_TIME then Some z.(dstSavings) else if z.(endTimeMode) =? UTC_TIME then 0 -! z.(rawOffset) else Some 0.

(** [getOffset] with ten arguments *)
Definition getOffset_lengths (z : SimpleTimeZone) (era year month day dayOfWeek millis monthLength prevMonthLength : Z) (status : UErrorCode) :
    option (Z * UErrorCode) :=
  if U_FAILURE status then Some (0, status)
  else if (negb (era =? AD) && negb (era =? BC)) || (month <? UCAL_JANUARY) || (month >? UCAL_DECEMBER) ||
    (day <? 1) || (day >? monthLength) || (dayOfWeek <? UCAL_SUNDAY) || (dayOfWeek >? UCAL_SATURDAY) ||
    (millis <? 0) || (millis >=? U_MILLIS_PER_DAY) || (monthLength <? 28) || (monthLength >? 31) ||
    (prevMonthLength <? 28) || (prevMonthLength >? 31)
  then Some (-1, U_ILLEGAL_ARGUMENT_ERROR)
  else
    let result := z.(rawOffset) in
    if negb z.(useDaylight) || (year <? z.(startYear)) || negb (era =? AD) then Some (result, status)
    else
      let southern := z.(startMonth) >? z.(endMonth) in
      let! delta := startDelta z in
      let! startCompare := compareToRule (int8 month) (int8 monthLength) (int8 prevMonthLength) (int8 day) (int8 dayOfWeek)
        millis delta z.(startMode) z.(startMonth) z.(startDayOfWeek) z.(startDay) z.(startTime) in
      let! endCompare :=
        (if negb (Bool.eqb southern (startCompare >=? 0)) then
           let! delta := endDelta z in
           compareToRule (int8 month) (int8 monthLength) (int8 prevMonthLength) (int8 day) (int8 dayOfWeek)
             millis delta z.(endMode) z.(endMonth) z.(endDayOfWeek) z.(endDay) z.(endTime)
         else Some 0) in
      let! result :=
        (if (negb southern && ((startCompare >=? 0) && (endCompare <? 0))) || (southern && ((startCompare >=? 0) || (endCompare <? 0)))
         then result +! z.(dstSavings) else Some result) in
      Some (result, status).

(** [getOffset] with eight arguments *)
Definition getOffset_length (z : SimpleTimeZone) (era year month day dayOfWeek millis : Z) (status : UErrorCode) : option (Z * UErrorCode) :=
  if (month <? UCAL_JANUARY) || (month >? UCAL_DECEMBER) then Some (-1, U_ILLEGAL_ARGUMENT_ERROR)
  else
    let! len := monthLength year month in
    let! prev := previousMonthLength year month in
    getOffset_lengths z era year month day dayOfWeek millis len prev status.

(** [getOffset] with seven arguments *)
Definition getOffset_fields (z : SimpleTimeZone) (era year month day dayOfWeek millis : Z) (status : UErrorCode) : option (Z * UErrorCode) :=
  if (month <? UCAL_JANUARY) || (month >? UCAL_DECEMBER) then Some (0, U_ILLEGAL_ARGUMENT_ERROR)
  else getOffset_length z era year month day dayOfWeek millis status.

(** The daylight offset of a local date: the lines that [getOffsetFromLocal] and
    [TimeZone::getOffset] repeat. *)
Definition savings_at (z : SimpleTimeZone) (date : double) (status : UErrorCode) : option (Z * UErrorCode) :=
  let day := uprv_floor (ddiv date (of_int U_MILLIS_PER_DAY)) in
  let! millis := to_int32 (dsub date (dmul day (of_int U_MILLIS_PER_DAY))) in
  let! f := dayToFields day in
  let! '(offset, status) := getOffset_length z AD f.(year) f.(month) f.(dom) (uint8 f.(dow)) millis status in
  let! savings := offset -! z.(rawOffset) in
  Some (savings, status).

(** [TimeZone::getOffset(date, local, rawOffset, dstOffset, ec)] of timezone.cpp;
    when [ec] is a failure the offsets are not assigned, and are 0 here. *)
Definition getOffset (z : SimpleTimeZone) (date : double) (local : bool) (ec : UErrorCode) : option (Z * Z * UErrorCode) :=
  if U_FAILURE ec then Some (0, 0, ec)
  else
    let date := if local then date else dadd date (of_int z.(rawOffset)) in
    let! '(dstOffset, ec) := savings_at z date ec in
    if negb local || (dstOffset =? 0) then Some (z.(rawOffset), dstOffset, ec)
    else
      let! '(dstOffset, ec) := savings_at z (dsub date (of_int dstOffset)) ec in
      Some (z.(rawOffset), dstOffset, ec).

(** [BasicTimeZone::kStandard] and the masks *)
Definition kStandard : Z := 1.
Definition kDaylight : Z := 3.
Definition kStdDstMask : Z := kDaylight.
Definition kFormerLatterMask : Z := kLatter.

Definition getOffsetFromLocal (z : SimpleTimeZone) (date : double) (nonExistingTimeOpt duplicatedTimeOpt : Z) (status : UErrorCode) :
    option (Z * Z * UErrorCode) :=
  if U_FAILURE status then Some (0, 0, status)
  else
    let! '(savingsDST, status) := savings_at z date status in
    if U_FAILURE status then Some (z.(rawOffset), savingsDST, status)
    else
      let recalc :=
        if savingsDST >? 0 then
          (Z.land nonExistingTimeOpt kStdDstMask =? kStandard) ||
          (negb (Z.land nonExistingTimeOpt kStdDstMask =? kDaylight) && negb (Z.land nonExistingTimeOpt kFormerLatterMask =? kLatter))
        else
          (Z.land duplicatedTimeOpt kStdDstMask =? kDaylight) ||
          (negb (Z.land duplicatedTimeOpt kStdDstMask =? kStandard) && (Z.land duplicatedTimeOpt kFormerLatterMask =? kFormer)) in
      if recalc then
        let! '(savingsDST, status) := savings_at z (dsub date (of_int z.(dstSavings))) status in
        Some (z.(rawOffset), savingsDST, status)
      else Some (z.(rawOffset), savingsDST, status).

(** ** Transitions *)

Definition time_rule_type (mode : Z) : TimeRuleType :=
  if mode =? STANDARD_TIME then TimeZoneRules.STANDARD_TIME
  else if mode =? UTC_TIME then TimeZoneRules.UTC_TIME else TimeZoneRules.WALL_TIME.

(** The [DateTimeRule] of a decoded rule *)
Definition date_time_rule (mode : EMode) (month day dayOfWeek time timeMode : Z) : DateTimeRule :=
  let t := time_rule_type timeMode in
  match mode with
  | DOM_MODE => new_dom month day time t
  | DOW_IN_MONTH_MODE => new_dow month day dayOfWeek time t
  | DOW_GE_DOM_MODE => new_dow_dom month day dayOfWeek true time t
  | DOW_LE_DOM_MODE => new_dow_dom month day dayOfWeek false time t
  end.

Definition initTransitionRules (z : SimpleTimeZone) (status : UErrorCode) : option (SimpleTimeZone * UErrorCode) :=
  if U_FAILURE status then Some (z, status)
  else if z.(transitionRulesInitialized) then Some (z, status)
  else
    let z := deleteTransitionRules z in
    let tzid := z.(id) in
    if z.(useDaylight) then
      let dst := MkAnnual (MkTimeZoneRule (tzid ++ DST_STR) (getRawOffset z) (getDSTSavings z))
        (date_time_rule z.(startMode) z.(startMonth) z.(startDay) z.(startDayOfWeek) z.(startTime) z.(startTimeMode)) z.(startYear) MAX_YEAR in
      let! firstDstStart := getFirstStart dst (getRawOffset z) 0 in
      let! firstDstStart := firstDstStart in
      let std := MkAnnual (MkTimeZoneRule (tzid ++ STD_STR) (getRawOffset z) 0)
        (date_time_rule z.(endMode) z.(endMonth) z.(endDay) z.(endDayOfWeek) z.(endTime) z.(endTimeMode)) z.(startYear) MAX_YEAR in
      let! firstStdStart := getFirstStart std (getRawOffset z) dst.(annual).(fDSTSavings) in
      let! firstStdStart := firstStdStart in
      let '(initial, first) :=
        if dlt firstStdStart firstDstStart then
          let r := MkTimeZoneRule (tzid ++ DST_STR) (getRawOffset z) dst.(annual).(fDSTSavings) in
          (r, new_transition firstStdStart (Initial r) (Annual std))
        else
          let r := MkTimeZoneRule (tzid ++ STD_STR) (getRawOffset z) 0 in
          (r, new_transition firstDstStart (Initial r) (Annual dst)) in
      Some (with_rules z true (Some initial) (Some first) (Some std) (Some dst), status)
    else
      let initial := MkTimeZoneRule tzid (getRawOffset z) 0 in
      Some (with_rules z true (Some initial) z.(firstTransition) z.(stdRule) z.(dstRule), status).

(** One thread at a time holds the lock. *)
Definition checkTransitionRules (z : SimpleTimeZone) (status : UErrorCode) : option (SimpleTimeZone * UErrorCode) :=
  if U_FAILURE status then Some (z, status)
  else if negb z.(transitionRulesInitialized) then initTransitionRules z status else Some (z, status).

(** The result of a search for a transition: whether there is one, the output
    parameter, and the zone with its rules. *)
Definition getNextTransition (z : SimpleTimeZone) (base : double) (inclusive : bool) (result : TimeZoneTransition) :
    option (bool * TimeZoneTransition * SimpleTimeZone) :=
  if negb z.(useDaylight) then Some (false, result, z)
  else
    let! '(z, status) := checkTransitionRules z U_ZERO_ERROR in
    if U_FAILURE status then Some (false, result, z)
    else
      let! first := z.(firstTransition) in
      let! std := z.(stdRule) in
      let! dst := z.(dstRule) in
      let result := if dlt base first.(tz_fTime) || (inclusive && deq base first.(tz_fTime)) then first else result in
      let! stdDate := getNextStart std base dst.(annual).(fRawOffset) dst.(annual).(fDSTSavings) inclusive in
      let! dstDate := getNextStart dst base std.(annual).(fRawOffset) std.(annual).(fDSTSavings) inclusive in
      let to_std t := Some (true, setTo (setFrom (setTime result t) (Annual dst)) (Annual std), z) in
      let to_dst t := Some (true, setTo (setFrom (setTime result t) (Annual std)) (Annual dst), z) in
      match stdDate, dstDate with
      | Some s, Some d => if dlt s d then to_std s else if dlt d s then to_dst d else Some (false, result, z)
      | Some s, None => to_std s
      | None, Some d => to_dst d
      | None, None => Some (false, result, z)
      end.

Definition getPreviousTransition (z : SimpleTimeZone) (base : double) (inclusive : bool) (result : TimeZoneTransition) :
    option (bool * TimeZoneTransition * SimpleTimeZone) :=
  if negb z.(useDaylight) then Some (false, result, z)
  else
    let! '(z, status) := checkTransitionRules z U_ZERO_ERROR in
    if U_FAILURE status then Some (false, result, z)
    else
      let! first := z.(firstTransition) in
      let! std := z.(stdRule) in
      let! dst := z.(dstRule) in
      if dlt base first.(tz_fTime) || (negb inclusive && deq base first.(tz_fTime)) then Some (false, result, z)
      else
        let! stdDate := getPreviousStart std base dst.(annual).(fRawOffset) dst.(annual).(fDSTSavings) inclusive in
        let! dstDate := getPreviousStart dst base std.(annual).(fRawOffset) std.(annual).(fDSTSavings) inclusive in
        let to_std t := Some (true, setTo (setFrom (setTime result t) (Annual dst)) (Annual std), z) in
        let to_dst t := Some (true, setTo (setFrom (setTime result t) (Annual std)) (Annual dst), z) in
        match stdDate, dstDate with
        | Some s, Some d => if dlt d s then to_std s else if dlt s d then to_dst d else Some (false, result, z)
        | Some s, None => to_std s
        | None, Some d => to_dst d
        | None, None => Some (false, result, z)
        end.

Definition countTransitionRules (z : SimpleTimeZone) : Z := if z.(useDaylight) then 2 else 0.

(** The initial rule and at most [trscount] of the rules *)
Definition getTimeZoneRules (z : SimpleTimeZone) (trscount : Z) (status : UErrorCode) :
    option (option (option TimeZoneRule * list AnnualTimeZoneRule) * SimpleTimeZone * UErrorCode) :=
  if U_FAILURE status then Some (None, z, status)
  else
    let! '(z, status) := checkTransitionRules z status in
    if U_FAILURE status then Some (None, z, status)
    else
      let! rules :=
        (match z.(stdRule) with
         | None => Some []
         | Some std =>
             let! dst := (if 1 <? trscount then match z.(dstRule) with Some d => Some [d] | None => None end else Some []) in
             Some ((if 0 <? trscount then [std] else []) ++ dst)
         end) in
      Some (Some (z.(initialRule), rules), z, status).

(** ** The zone of a calendar *)

Definition a_transition : TimeZoneTransition := MkTransition (of_int 0) None None.

(** [getPreviousTransition] as the calendar calls it *)
Definition previous_time (z : SimpleTimeZone) (base : double) (inclusive : bool) : option (option double) :=
  let! '(found, t, _) := getPreviousTransition z base inclusive a_transition in
  Some (if found : bool then Some t.(tz_fTime) else None).

Definition zone (z : SimpleTimeZone) : TimeZone :=
  {| CalendarTime.getOffset := getOffset z;
     getBasicTimeZone := Some {| CalendarTime.getOffsetFromLocal := getOffsetFromLocal z;
                                 CalendarTime.getPreviousTransition := previous_time z |} |}.

End SimpleTimeZone.
