(* ===== verification/SimpleTimeZoneOffset.v ===== *)
(** * The offsets of a SimpleTimeZone

    What [compareToRule] compares, and from it the offset of every time: the zone
    is in daylight saving time from the start to the end of each year, or, in
    the southern hemisphere, until the end and from the start on. *)
From S2P Require Import Prelude Int32 Double Grego CalendarTime TimeZoneRules SimpleTimeZone.
Local Open Scope Z_scope.

Module SimpleTimeZoneOffset.
Import Grego Gregorian GregoFacts TimeZoneRules RuleDays SimpleTimeZone.

(** ** Decoded rules *)

(** The forms of rules after decoding. *)
Record decoded (mode : EMode) (month day dow time timeMode : Z) : Prop := {
  de_month : 0 <= month <= 11;
  de_time : 0 <= time <= 86400000;
  de_time_mode : 0 <= timeMode <= 2;
  de_day : mode <> DOW_IN_MONTH_MODE -> 1 <= day <= month_length 2000 month;
  de_weeks : mode = DOW_IN_MONTH_MODE -> -5 <= day <= 5;
  de_dow : mode <> DOM_MODE -> 1 <= dow <= 7
}.

(** The day of a decoded rule is that of its rule object. *)
Definition rule_of (mode : EMode) (month day dow : Z) : DateTimeRule := date_time_rule mode month day dow 0 WALL_TIME.

Lemma rule_day_time mode month day dow time timeMode y :
  rule_day (date_time_rule mode month day dow time timeMode) y = rule_day (rule_of mode month day dow) y.
Proof. unfold rule_of, rule_day. destruct mode; cbn [date_time_rule new_dom new_dow new_dow_dom fDateRuleType fDayOfMonth fWeekInMonth fDayOfWeek fMonth]; reflexivity. Qed.

Lemma decoded_rule_ok mode month day dow time timeMode time' timeMode' :
  decoded mode month day dow time timeMode -> rule_ok (date_time_rule mode month day dow time' timeMode').
Proof. intros [Hm Ht Htm Hd Hw Hdow]. destruct mode; constructor; cbn; try done; intros _; by first [apply Hd | apply Hw | apply Hdow]. Qed.

(** The day of the rule is in its month. *)
Definition in_month (mode : EMode) (month day dow y : Z) : Prop :=
  month_start y month <= rule_day (rule_of mode month day dow) y < month_start y month + month_length y month.

(** The comparison may carry the date into the next month, or the month before,
    with the length of the old month; the rule must not depend on it. *)
Definition steady (mode : EMode) (day delta : Z) : Prop :=
  match mode with
  | DOW_IN_MONTH_MODE => 0 < day \/ (0 <= delta /\ -3 <= day)
  | _ => 0 <= delta \/ day <= 28
  end.

(** ** The carry *)

(** A date of the year [y] before and after it is carried by a day. *)
Inductive carried (y m d : Z) : Z -> Z -> Z -> Prop :=
| same_month d' : 1 <= d' <= month_length y m -> carried y m d m d' (d' - d)
| next_month : d = month_length y m -> carried y m d (m + 1) 1 1
| previous_month : d = 1 -> carried y m d (m - 1) (if 0 <? m then month_length y (m - 1) else 31) (-1).

Lemma weekday_succ D : 1 + Z.rem (weekday D) 7 = weekday (D + 1).
Proof. unfold weekday. dlia. Qed.

Lemma weekday_pred D : 1 + Z.rem (weekday D + 5) 7 = weekday (D - 1).
Proof. unfold weekday. dlia. Qed.

Lemma weekday_range D : 1 <= weekday D <= 7.
Proof. unfold weekday. dlia. Qed.

Lemma int8_small x : -128 <= x <= 127 -> int8 x = x.
Proof. unfold int8. intros. dlia. Qed.

Definition previous_length (y m : Z) : Z := if 0 <? m then month_length y (m - 1) else 31.

Lemma carry_forward_stop fuel m len d w x : x < 86400000 -> carry_forward (S fuel) m len d w x = Some (m, d, w, x).
Proof. intros Hx. cbn [carry_forward]. unfold U_MILLIS_PER_DAY. by rewrite Z.geb_leb, (proj2 (Z.leb_gt _ _)) by lia. Qed.

Lemma carry_forward_day fuel m len d w x :
  86400000 <= x < 172800000 -> -1 <= m <= 12 -> 0 <= d <= 31 -> 0 <= w <= 8 ->
  carry_forward (S (S fuel)) m len d w x =
    Some (if len <? d + 1 then (m + 1, 1, 1 + Z.rem w 7, x - 86400000) else (m, d + 1, 1 + Z.rem w 7, x - 86400000)).
Proof.
  intros Hx Hm Hd Hw. remember (S fuel) as f. cbn [carry_forward]. subst f. unfold U_MILLIS_PER_DAY.
  rewrite Z.geb_leb, (proj2 (Z.leb_le _ _)), Z.gtb_ltb by lia. rewrite !int8_small by dlia.
  destruct (len <? d + 1); by rewrite carry_forward_stop by lia.
Qed.

Lemma carry_back_stop fuel m len d w x : 0 <= x -> carry_back (S fuel) m len d w x = Some (m, d, w, x).
Proof. intros Hx. cbn [carry_back]. by rewrite (proj2 (Z.ltb_ge _ _)) by lia. Qed.

Lemma carry_back_day fuel m len d w x :
  -86400000 <= x < 0 -> -1 <= m <= 12 -> 0 <= d <= 31 -> 0 <= w <= 8 ->
  carry_back (S (S fuel)) m len d w x =
    Some (if d - 1 <? 1 then (m - 1, len, 1 + Z.rem (w + 5) 7, x + 86400000) else (m, d - 1, 1 + Z.rem (w + 5) 7, x + 86400000)).
Proof.
  intros Hx Hm Hd Hw. remember (S fuel) as f. cbn [carry_back]. subst f. unfold U_MILLIS_PER_DAY.
  rewrite (proj2 (Z.ltb_lt _ _)) by lia. rewrite !int8_small by dlia.
  destruct (d - 1 <? 1); by rewrite carry_back_stop by lia.
Qed.

Lemma carry_spec y m d millis delta :
  valid (MkDate y m d) -> 0 <= millis < 86400000 -> -86400000 <= delta <= 86400000 ->
  let D := day_number (MkDate y m d) in
  let x := millis + delta in
  exists m' d' k, carried y m d m' d' k /\ k = x / 86400000 /\
    (let! '(month, dayOfMonth, dayOfWeek, millis) := carry_forward 32 m (month_length y m) d (weekday D) x in
     carry_back 32 month (previous_length y m) dayOfMonth dayOfWeek millis) =
    Some (m', d', weekday (D + k), x mod 86400000).
Proof.
  intros [Hm Hd] Hmi Hde D x. cbn [Gregorian.m Gregorian.d Gregorian.y] in *. pose proof (weekday_range D) as Hw.
  pose proof (month_length_range y m) as Hl. change U_MILLIS_PER_DAY with 86400000 in *.
  pose proof (weekday_range (D + 1)). pose proof (weekday_range (D - 1)).
  assert (Hpl : 28 <= previous_length y m <= 31) by (unfold previous_length; pose proof (month_length_range y (m - 1)); case_match; lia).
  change 32%nat with (S (S 30)).
  destruct (Z.lt_ge_cases x 0) as [Hneg|Hpos].
  - assert (Hk : x / 86400000 = -1) by (unfold x in *; dlia). rewrite Hk, carry_forward_stop by lia. cbn [obind].
    rewrite carry_back_day, weekday_pred by (unfold x in *; lia). replace (x mod 86400000) with (x + 86400000) by (unfold x in *; dlia).
    destruct (Z.ltb_spec (d - 1) 1).
    + exists (m - 1), (previous_length y m), (-1). split; [by apply previous_month; lia|done].
    + exists m, (d - 1), (-1). split; [replace (-1) with (d - 1 - d) by lia; apply same_month; lia|done].
  - destruct (Z.lt_ge_cases x 86400000) as [Hlt|Hge].
    + assert (Hk : x / 86400000 = 0) by dlia. rewrite Hk, carry_forward_stop by lia. cbn [obind]. rewrite carry_back_stop by lia.
      exists m, d, 0. split; [replace 0 with (d - d) by lia; apply same_month; lia|]. split; [done|]. rewrite Z.add_0_r. do 2 f_equal. dlia.
    + assert (Hk : x / 86400000 = 1) by (unfold x in *; dlia). rewrite Hk.
      rewrite carry_forward_day, weekday_succ by (unfold x in *; lia). replace (x mod 86400000) with (x - 86400000) by (unfold x in *; dlia).
      destruct (Z.ltb_spec (month_length y m) (d + 1)); cbn [obind]; rewrite carry_back_stop by lia.
      * exists (m + 1), 1, 1. split; [apply next_month; lia|done].
      * exists m, (d + 1), 1. split; [replace 1 with (d + 1 - d) at 2 by lia; apply same_month; lia|done].
Qed.

(** ** The day of a rule *)

Lemma rem_mod7 a b t : 0 <= a -> a = b + 7 * t -> Z.rem a 7 = b mod 7.
Proof. intros Ha ->. rewrite Z.rem_mod_nonneg by lia. rewrite Z.mul_comm. apply Z_mod_plus_full. Qed.

Lemma weekday_eq D : exists q, weekday D = D + 5 + 7 * q.
Proof. exists (- ((D + 4) / 7)). unfold weekday. dlia. Qed.

(** The day of the month, computed from a date of the month. *)
Lemma computed_day mode month day dow time timeMode y D d len :
  decoded mode month day dow time timeMode -> in_month mode month day dow y ->
  D = month_start y month + d - 1 -> 1 <= d <= 31 -> 28 <= len <= 31 ->
  (len = month_length y month /\ d <= len) \/ (mode = DOW_IN_MONTH_MODE /\ 0 < day) \/ (mode <> DOW_IN_MONTH_MODE /\ day <= 28) ->
  rule_day_of_month mode (if len <? day then len else day) dow len d (weekday D) =
    rule_day (rule_of mode month day dow) y - month_start y month + 1.
Proof.
  intros [Hm _ _ Hd Hn Hw] Hin HD Hdr Hlen Hcase. unfold in_month, rule_of, rule_day in *. pose proof (month_length_range y month) as Hl.
  pose proof (month_length_2000 y month Hm).
  pose proof (weekday_range D). destruct (weekday_eq D) as [qd Hqd], (weekday_eq (month_start y month)) as [qf Hqf].
  destruct mode; cbn [date_time_rule new_dom new_dow new_dow_dom fDateRuleType fDayOfMonth fWeekInMonth fDayOfWeek fMonth rule_day_of_month] in *;
    try (specialize (Hd ltac:(done))); try (specialize (Hn ltac:(done))); try (specialize (Hw ltac:(done))).
  - destruct (Z.ltb_spec len day); destruct Hcase as [[-> Hdl]|[[]|[]]]; (lia || done).
  - rewrite Z.gtb_ltb. destruct (Z.ltb_spec len day); [lia|].
    destruct (Z.ltb_spec 0 day).
    + unfold weekday_from. rewrite (rem_mod7 _ (dow - weekday (month_start y month)) (1 + qf - qd)) by lia. lia.
    + destruct Hcase as [[-> Hdl]|[[]|[]]]; [|lia|done]. unfold weekday_upto.
      destruct (weekday_eq (month_start y month + month_length y month - 1)) as [ql Hql].
      rewrite (rem_mod7 _ (weekday (month_start y month + month_length y month - 1) - dow) (1 + qd - ql)) by lia. lia.
  - destruct (Z.ltb_spec len day).
    + exfalso. destruct Hcase as [[-> Hdl]|[[]|[]]]; [|done|lia]. pose proof (weekday_from_spec (month_start y month + day - 1) dow Hw). lia.
    + unfold weekday_from. destruct (weekday_eq (month_start y month + day - 1)) as [ql Hql].
      rewrite (rem_mod7 _ (dow - weekday (month_start y month + day - 1)) (7 + ql - qd)) by lia. lia.
  - destruct Hcase as [[-> Hdl]|[[]|[]]]; [|done|].
    + replace (if month_length y month <? day then month_length y month else day) with (Z.min day (month_length y month))
        by (destruct (Z.ltb_spec (month_length y month) day); lia).
      set (b := Z.min _ _) in *. assert (1 <= b <= 31) by lia. unfold weekday_upto.
      destruct (weekday_eq (month_start y month + b - 1)) as [ql Hql].
      rewrite (rem_mod7 _ (weekday (month_start y month + b - 1) - dow) (7 + qd - ql)) by lia. lia.
    + rewrite (Z.min_l day) in * by lia. destruct (Z.ltb_spec len day); [lia|]. unfold weekday_upto.
      destruct (weekday_eq (month_start y month + day - 1)) as [ql Hql].
      rewrite (rem_mod7 _ (weekday (month_start y month + day - 1) - dow) (7 + qd - ql)) by lia. lia.
Qed.

(** The first day of the month is compared alike with the length of the month before. *)
Lemma computed_first mode month day dow time timeMode y D len delta :
  decoded mode month day dow time timeMode -> in_month mode month day dow y -> steady mode day delta -> 0 <= delta ->
  D = month_start y month -> 28 <= len <= 31 ->
  let K := rule_day_of_month mode (if len <? day then len else day) dow len 1 (weekday D) in
  1 <= K /\ (K = 1 <-> rule_day (rule_of mode month day dow) y = month_start y month).
Proof.
  intros Hdec Hin Hst Hdelta HD Hlen K. subst K. pose proof Hdec as [Hm _ _ Hd Hn Hw]. pose proof (month_length_range y month) as Hl.
  pose proof (month_length_2000 y month Hm) as Hl2.
  destruct (decide ((mode = DOW_IN_MONTH_MODE /\ 0 < day) \/ (mode <> DOW_IN_MONTH_MODE /\ day <= 28))) as [Hc|Hc].
  { rewrite (computed_day mode month day dow time timeMode y) by (done || lia || tauto). unfold in_month in Hin. lia. }
  unfold in_month, rule_of, rule_day in *.
  destruct mode; cbn [date_time_rule new_dom new_dow new_dow_dom fDateRuleType fDayOfMonth fWeekInMonth fDayOfWeek fMonth rule_day_of_month steady] in *;
    try (specialize (Hd ltac:(done))); try (specialize (Hn ltac:(done))); try (specialize (Hw ltac:(done))).
  - destruct (Z.ltb_spec len day); intuition lia.
  - rewrite Z.gtb_ltb. destruct (Z.ltb_spec len day); [lia|]. destruct (Z.ltb_spec 0 day); [tauto|].
    destruct Hst as [|[_ Hst]]; [lia|]. pose proof (weekday_range D). unfold weekday_upto in *. split; [dlia|]. split; intros; [dlia|]. exfalso. dlia.
  - assert (28 < day) by (destruct (Z.lt_ge_cases 28 day); [done|exfalso; apply Hc; right; split; [done|lia]]).
    pose proof (weekday_from_spec (month_start y month + day - 1) dow Hw). pose proof (weekday_range D).
    destruct (Z.ltb_spec len day); (split; [dlia|]; split; intros; exfalso; dlia).
  - assert (28 < day) by (destruct (Z.lt_ge_cases 28 day); [done|exfalso; apply Hc; right; split; [done|lia]]).
    pose proof (weekday_upto_spec (month_start y month + Z.min day (month_length y month) - 1) dow Hw). pose proof (weekday_range D).
    destruct (Z.ltb_spec len day); (split; [dlia|]; split; intros; exfalso; dlia).
Qed.

(** ** Comparing a date with a rule *)

Lemma month_start_next y m : 0 <= m < 11 -> month_start y (m + 1) = month_start y m + month_length y m.
Proof.
  intros Hm. unfold month_start, day_number. cbn [Gregorian.y Gregorian.m Gregorian.d]. rewrite days_before_month_step by lia. lia.
Qed.

Lemma month_start_december y : month_start y 11 + month_length y 11 = month_start (y + 1) 0.
Proof.
  rewrite month_start_0, days_before_year_step. pose proof (days_before_december y). unfold month_start, day_number.
  cbn [Gregorian.y Gregorian.m Gregorian.d]. lia.
Qed.

Lemma month_start_later y m m' : 0 <= m < m' -> m' <= 11 -> month_start y m + month_length y m <= month_start y m'.
Proof.
  intros Hm Hm'. pose proof (GregoProperties.days_before_month_later y m m' ltac:(lia) ltac:(lia)).
  unfold month_start, day_number. cbn [Gregorian.y Gregorian.m Gregorian.d]. lia.
Qed.

Lemma day_number_start y m d : day_number (MkDate y m d) = month_start y m + d - 1.
Proof. unfold month_start, day_number. cbn [Gregorian.y Gregorian.m Gregorian.d]. lia. Qed.

(** The comparisons of the months, the days and the milliseconds, when they
    order the days [D] and [R]. *)
Lemma decide_compare m' month d' K D R xm time :
  0 <= xm < 86400000 -> 0 <= time <= 86400000 ->
  (m' < month -> D < R) -> (month < m' -> R < D) -> (m' = month -> (d' < K <-> D < R) /\ (K < d' <-> R < D)) ->
  exists c, (if m' <? month then Some (-1) else if month <? m' then Some 1
     else if d' <? K then Some (-1) else if K <? d' then Some 1
     else if xm <? time then Some (-1) else if time <? xm then Some 1 else Some 0) = Some c /\
    (0 <= c <-> R * 86400000 + time <= D * 86400000 + xm).
Proof.
  intros Hx Ht Hlt Hgt Heq. destruct (Z.ltb_spec m' month); [exists (-1); split; [done|]; specialize (Hlt ltac:(done)); split; lia|].
  destruct (Z.ltb_spec month m'); [exists 1; split; [done|]; specialize (Hgt ltac:(done)); split; lia|].
  destruct (Heq ltac:(lia)) as [H1 H2].
  destruct (Z.ltb_spec d' K); [exists (-1); split; [done|]; assert (D < R) by tauto; split; lia|].
  destruct (Z.ltb_spec K d'); [exists 1; split; [done|]; assert (R < D) by tauto; split; lia|].
  assert (D = R) as -> by (destruct (Z.lt_trichotomy D R) as [|[|]]; [exfalso; apply H1 in H5; lia|done|exfalso; apply H2 in H5; lia]).
  destruct (Z.ltb_spec xm time); [exists (-1); split; [done|]; split; lia|].
  destruct (Z.ltb_spec time xm); [exists 1; split; [done|]; split; lia|]. exists 0. split; [done|]. split; lia.
Qed.

(** The comparison after the carry. *)
Lemma compareToRule_after m len plen d w millis delta mode month dow day time m' d' w' x :
  is_int32 (millis + delta) ->
  (let! '(m1, d1, w1, x1) := carry_forward 32 m len d w (millis + delta) in carry_back 32 m1 plen d1 w1 x1) = Some (m', d', w', x) ->
  compareToRule m len plen d w millis delta mode month dow day time =
    (let K := rule_day_of_month mode (if len <? day then len else day) dow len d' w' in
     if m' <? month then Some (-1) else if month <? m' then Some 1
     else if d' <? K then Some (-1) else if K <? d' then Some 1
     else if x <? time then Some (-1) else if time <? x then Some 1 else Some 0).
Proof.
  unfold compareToRule. generalize carry_forward carry_back 32%nat. intros cf cb n Hi E. rewrite iadd_ok by done. cbn [obind].
  destruct (cf n m len d w (millis + delta)) as [[[[m1 d1] w1] x1]|]; [|discriminate]. cbn [obind] in E |- *. rewrite E. cbn [obind].
  by rewrite !Z.gtb_ltb.
Qed.

(** The result of [compareToRule] tells whether the date, with the milliseconds
    added, is before the rule of its year or not. *)
Lemma compare_spec mode month day dow time timeMode y m d millis delta :
  decoded mode month day dow time timeMode -> in_month mode month day dow y -> steady mode day delta ->
  valid (MkDate y m d) -> 0 <= millis < 86400000 -> -86400000 <= delta <= 86400000 ->
  exists c, compareToRule m (month_length y m) (previous_length y m) d (weekday (day_number (MkDate y m d))) millis delta
      mode month dow day time = Some c /\
    (0 <= c <-> rule_day (rule_of mode month day dow) y * 86400000 + time <= day_number (MkDate y m d) * 86400000 + millis + delta).
Proof.
  intros Hdec Hin Hst Hv Hmi Hde. pose proof Hdec as [Hmo Hti _ Hday _ _]. destruct Hv as [Hm Hd]. cbn [Gregorian.m Gregorian.d Gregorian.y] in Hm, Hd.
  destruct (carry_spec y m d millis delta) as (m' & d' & k & Hc & Hk & E); [by split|done|done|].
  erewrite compareToRule_after; [|unfold is_int32, INT32_MIN, INT32_MAX; lia|exact E]. cbv zeta. clear E.
  pose proof (day_number_start y m d) as HD. remember (day_number (MkDate y m d)) as D eqn:ED. clear ED.
  assert (Hx : (D + k) * 86400000 + (millis + delta) mod 86400000 = D * 86400000 + millis + delta)
    by (pose proof (Z.div_mod (millis + delta) 86400000 ltac:(lia)); lia).
  rewrite <- Hx. clear Hx.
  pose proof (month_length_range y m) as Hl. pose proof (month_length_range y month) as Hlr. pose proof Hin as Hin'. unfold in_month in Hin'.
  apply decide_compare; [apply Z.mod_pos_bound; lia|done|..]; destruct Hc as [d' Hd'|Hd'|Hd']; intros Hmm.
  - pose proof (month_start_later y m month ltac:(lia) ltac:(lia)). lia.
  - destruct (decide (m + 1 = month)) as [|Hne]; [lia|]. pose proof (month_start_later y (m + 1) month ltac:(lia) ltac:(lia)).
    pose proof (month_start_next y m ltac:(lia)). pose proof (month_length_range y (m + 1)). lia.
  - destruct (decide (m = month)) as [->|Hne]; [lia|]. pose proof (month_start_later y m month ltac:(lia) ltac:(lia)). lia.
  - pose proof (month_start_later y month m ltac:(lia) ltac:(lia)). lia.
  - destruct (decide (m = month)) as [->|Hne]; [lia|]. pose proof (month_start_later y month m ltac:(lia) ltac:(lia)). lia.
  - pose proof (month_start_later y month m ltac:(lia) ltac:(lia)).
    assert (month_start y month + month_length y month <= month_start y m - 1).
    { pose proof (month_start_later y month (m - 1) ltac:(lia) ltac:(lia)). pose proof (month_start_next y (m - 1) ltac:(lia)) as Hn.
      rewrite Z.sub_add in Hn. pose proof (month_length_range y (m - 1)). lia. }
    lia.
  - subst month. rewrite (computed_day mode m day dow time timeMode y) by (done || lia || (left; lia)). lia.
  - assert (0 <= delta) by (destruct (Z.lt_ge_cases delta 0); [exfalso; dlia|done]).
    pose proof (month_start_next y m ltac:(lia)) as Hn. rewrite Hmm in Hn.
    destruct (computed_first mode month day dow time timeMode y (D + 1) (month_length y m) delta) as [HK1 HK2]; [done..|lia|lia|].
    lia.
  - assert (delta < 0) by (destruct (Z.lt_ge_cases delta 0); [done|exfalso; dlia]).
    pose proof (month_start_next y (m - 1) ltac:(lia)) as Hn. rewrite Z.sub_add, Hmm in Hn.
    rewrite (proj2 (Z.ltb_lt 0 m)), Hmm by lia.
    rewrite (computed_day mode month day dow time timeMode y); [lia|done|done|lia|lia|lia|].
    right. unfold steady in Hst. destruct mode; [right|left|right|right]; split; (done || lia).
Qed.

(** ** The offset of a time *)

Definition start_delta (z : SimpleTimeZone) : Z := if z.(startTimeMode) =? 2 then - z.(rawOffset) else 0.
Definition end_delta (z : SimpleTimeZone) : Z :=
  if z.(endTimeMode) =? 0 then z.(dstSavings) else if z.(endTimeMode) =? 2 then - z.(rawOffset) else 0.

(** The start and the end of daylight saving time in the year [y], in
    milliseconds of local standard time. *)
Definition start_at (z : SimpleTimeZone) (y : Z) : Z :=
  rule_day (rule_of z.(startMode) z.(startMonth) z.(startDay) z.(startDayOfWeek)) y * 86400000 + z.(startTime) - start_delta z.
Definition end_at (z : SimpleTimeZone) (y : Z) : Z :=
  rule_day (rule_of z.(endMode) z.(endMonth) z.(endDay) z.(endDayOfWeek)) y * 86400000 + z.(endTime) - end_delta z.

(** Daylight saving time is in effect at the local standard time [x] of the year [y]. *)
Definition in_daylight (z : SimpleTimeZone) (y x : Z) : bool :=
  z.(useDaylight) && (z.(startYear) <=? y) &&
  (if z.(endMonth) <? z.(startMonth) then (start_at z y <=? x) || (x <? end_at z y) else (start_at z y <=? x) && (x <? end_at z y)).

(** A zone with decoded rules, offsets of at most a day, and rules that fall into
    their months in the year [y]. *)
Record zone_ok (z : SimpleTimeZone) (y : Z) : Prop := {
  zo_start : decoded z.(startMode) z.(startMonth) z.(startDay) z.(startDayOfWeek) z.(startTime) z.(startTimeMode);
  zo_end : decoded z.(endMode) z.(endMonth) z.(endDay) z.(endDayOfWeek) z.(endTime) z.(endTimeMode);
  zo_raw : Z.abs z.(rawOffset) <= 86400000;
  zo_savings : 0 < z.(dstSavings) <= 86400000;
  zo_start_steady : steady z.(startMode) z.(startDay) (start_delta z);
  zo_end_steady : steady z.(endMode) z.(endDay) (end_delta z);
  zo_start_in : in_month z.(startMode) z.(startMonth) z.(startDay) z.(startDayOfWeek) y;
  zo_end_in : in_month z.(endMode) z.(endMonth) z.(endDay) z.(endDayOfWeek) y
}.

Lemma startDelta_spec z y : zone_ok z y -> startDelta z = Some (start_delta z) /\ Z.abs (start_delta z) <= 86400000.
Proof.
  intros [_ _ Hr _ _ _ _ _]. unfold startDelta, start_delta, UTC_TIME. destruct (startTimeMode z =? 2); icalc; (split; [done|lia]).
Qed.

Lemma endDelta_spec z y : zone_ok z y -> endDelta z = Some (end_delta z) /\ Z.abs (end_delta z) <= 86400000.
Proof.
  intros [_ _ Hr Hs _ _ _ _]. unfold endDelta, end_delta, UTC_TIME, WALL_TIME.
  destruct (endTimeMode z =? 0); [split; [done|lia]|]. destruct (endTimeMode z =? 2); icalc; (split; [done|lia]).
Qed.

Lemma getOffset_lengths_spec z y m d millis :
  zone_ok z y -> valid (MkDate y m d) -> 0 <= millis < 86400000 ->
  let D := day_number (MkDate y m d) in
  getOffset_lengths z AD y m d (weekday D) millis (month_length y m) (previous_length y m) U_ZERO_ERROR =
    Some (z.(rawOffset) + (if in_daylight z y (D * 86400000 + millis) then z.(dstSavings) else 0), U_ZERO_ERROR).
Proof.
  intros Hz Hv Hmi D. pose proof (startDelta_spec z y Hz) as [Hsd Hsb]. pose proof (endDelta_spec z y Hz) as [Hed Heb].
  pose proof Hz as [Hs He Hr Hsv Hss Hes Hsi Hei]. pose proof Hv as [Hm Hd]. cbn [Gregorian.m Gregorian.d Gregorian.y] in Hm, Hd.
  pose proof (month_length_range y m) as Hl. pose proof (weekday_range D) as Hw.
  assert (Hpl : 28 <= previous_length y m <= 31) by (unfold previous_length; pose proof (month_length_range y (m - 1)); case_match; lia).
  unfold getOffset_lengths, UCAL_JANUARY, UCAL_DECEMBER, UCAL_SUNDAY, UCAL_SATURDAY, U_MILLIS_PER_DAY. cbn [U_FAILURE].
  rewrite !Z.gtb_ltb, Z.geb_leb. change (AD =? AD) with true.
  rewrite !(proj2 (Z.ltb_ge _ _)), (proj2 (Z.leb_gt _ _)) by lia. cbn [negb andb orb].
  rewrite !int8_small by lia. unfold in_daylight. destruct (useDaylight z); cbn [negb andb orb]; [|by rewrite Z.add_0_r].
  rewrite Z.leb_antisym. destruct (Z.ltb_spec y (startYear z)); cbn [negb andb orb]; [by rewrite Z.add_0_r|].
  rewrite Hsd. cbn [obind]. unfold D in *. clear D.
  destruct (compare_spec _ _ _ _ _ _ y m d millis (start_delta z) Hs Hsi Hss Hv Hmi ltac:(lia)) as (c & -> & Hc). cbn [obind].
  destruct (compare_spec _ _ _ _ _ _ y m d millis (end_delta z) He Hei Hes Hv Hmi ltac:(lia)) as (c' & Hc' & Hce). rewrite Hed. cbn [obind]. rewrite Hc'.
  set (D := day_number _) in *.
  assert (Hse : (start_at z y <=? D * 86400000 + millis) = (0 <=? c)) by (apply eq_true_iff_eq; rewrite !Z.leb_le; unfold start_at; lia).
  assert (Hee : (D * 86400000 + millis <? end_at z y) = (c' <? 0)) by (apply eq_true_iff_eq; rewrite !Z.ltb_lt; unfold end_at; lia).
  rewrite Hse, Hee, Z.geb_leb.
  destruct (endMonth z <? startMonth z), (0 <=? c); cbn [Bool.eqb negb andb orb obind]; try destruct (c' <? 0); cbn [negb andb orb obind]; icalc;
    rewrite ?Z.add_0_r; done.
Qed.

Lemma getOffset_length_spec z y m d millis :
  zone_ok z y -> year_ok y -> valid (MkDate y m d) -> 0 <= millis < 86400000 ->
  let D := day_number (MkDate y m d) in
  getOffset_length z AD y m d (weekday D) millis U_ZERO_ERROR =
    Some (z.(rawOffset) + (if in_daylight z y (D * 86400000 + millis) then z.(dstSavings) else 0), U_ZERO_ERROR).
Proof.
  intros Hz Hy Hv Hmi D. pose proof Hv as [Hm _]. cbn [Gregorian.m] in Hm. unfold year_ok in Hy.
  unfold getOffset_length, UCAL_JANUARY, UCAL_DECEMBER. rewrite Z.gtb_ltb, !(proj2 (Z.ltb_ge _ _)) by lia. cbn [orb].
  rewrite monthLength_spec by done. cbn [obind].
  assert (previousMonthLength y m = Some (previous_length y m)) as ->; [|by apply getOffset_lengths_spec].
  unfold previousMonthLength, previous_length. rewrite Z.gtb_ltb. destruct (Z.ltb_spec 0 m); [|done]. icalc. apply monthLength_spec. lia.
Qed.

Lemma in_year_bound y x : ms_year y -> in_year y x -> Z.abs x < 2 ^ 52.
Proof. intros Hy. unfold in_year, ms_year, U_MILLIS_PER_DAY in *. rewrite !month_start_0. unfold days_before_year. intros. dlia. Qed.

Lemma savings_at_spec z y x :
  zone_ok z y -> ms_year y -> in_year y x ->
  savings_at z (of_int x) U_ZERO_ERROR = Some (if in_daylight z y x then z.(dstSavings) else 0, U_ZERO_ERROR).
Proof.
  intros Hz Hy Hx. pose proof (in_year_bound y x Hy Hx) as Hb. unfold savings_at, U_MILLIS_PER_DAY.
  rewrite uprv_floor_ddiv by lia. cbv zeta. pose proof (Z.div_mod x 86400000 ltac:(lia)) as Hdm. pose proof (Z.mod_pos_bound x 86400000 ltac:(lia)).
  rewrite dmul_int, dsub_int by lia. replace (x - x / 86400000 * 86400000) with (x mod 86400000) by lia.
  rewrite to_int32_int by ibound. cbn [obind].
  destruct (dayToFields_spec (x / 86400000) ltac:(lia)) as (f & -> & Hv & Heq & Hdow & _). cbn [obind].
  pose proof (weekday_range (x / 86400000)).
  assert (Hfy : f.(year) = y).
  { apply (in_year_unique _ _ x); [|done]. pose proof (day_in_year _ Hv) as Hd. cbn [Gregorian.y] in Hd. unfold in_year, U_MILLIS_PER_DAY in *. lia. }
  assert (uint8 f.(dow) = weekday (x / 86400000)) as -> by (rewrite Hdow; unfold uint8; rewrite Z.mod_small; lia).
  rewrite <- Heq at 1. rewrite Hfy in *. rewrite getOffset_length_spec by (done || by apply ms_year_ok). cbn [obind].
  rewrite Heq. replace (x / 86400000 * 86400000 + x mod 86400000) with x by lia.
  pose proof Hz as [_ _ Hr Hs _ _ _ _]. destruct (in_daylight z y x); icalc; do 2 f_equal; lia.
Qed.

(** C5: [getOffset] of a zone with two decoded rules, a raw offset of at most a
    day and savings above 0 up to a day returns the raw offset, and the savings
    exactly when the local standard time is between the start and the end of
    daylight saving time of its year, or outside them in the southern hemisphere.
    The conditions: the year is within 130,000 years; the days of both rules are
    in their months that year ([in_month]); and the rules are [steady]: a rule
    for the n-th weekday has n > 0, or n >= -3 and a time base that does not
    carry the date back into the month before, and any other rule a day up to 28
    or such a time base.  Zones that are not steady exist for which the code goes
    wrong: the example [carried_month_length] below. *)
Theorem getOffset_correct z y t :
  zone_ok z y -> ms_year y -> in_year y (t + z.(rawOffset)) ->
  getOffset z (of_int t) false U_ZERO_ERROR =
    Some (z.(rawOffset), if in_daylight z y (t + z.(rawOffset)) then z.(dstSavings) else 0, U_ZERO_ERROR).
Proof.
  intros Hz Hy Hx. pose proof (in_year_bound _ _ Hy Hx). unfold getOffset. cbn [U_FAILURE].
  rewrite dadd_int by lia. by rewrite (savings_at_spec z y).
Qed.

(** Five hours west of Greenwich, an hour of savings from the second Sunday of
    March to the first Sunday of November at 2:00 *)
Definition sample_zone : SimpleTimeZone :=
  MkZone [] 2 2 1 7200000 WALL_TIME WALL_TIME 10 1 1 7200000 2000 (-18000000) true DOW_IN_MONTH_MODE DOW_IN_MONTH_MODE 3600000
    false None None None None.

Lemma sample_decoded : decoded DOW_IN_MONTH_MODE 2 2 1 7200000 0 /\ decoded DOW_IN_MONTH_MODE 10 1 1 7200000 0.
Proof. split; constructor; (done || lia). Qed.

Lemma sample_zone_ok : zone_ok sample_zone 2016.
Proof.
  destruct sample_decoded. constructor; try done; cbn [sample_zone dstSavings rawOffset startMode endMode startDay endDay];
    try lia; try (by left); split; vm_compute; done.
Qed.

(** A rule that is not [steady]: daylight saving time from the last Sunday of
    September, 1:00 of UTC, twelve hours east of Greenwich.  On Sunday 1 October
    2017, from 0:00 to 12:00, the last Sunday is counted from a month of 31 days. *)
Definition unsteady_zone : SimpleTimeZone :=
  MkZone [] 8 (-1) 1 3600000 UTC_TIME UTC_TIME 2 1 1 3600000 2000 43200000 true DOW_IN_MONTH_MODE DOW_IN_MONTH_MODE 3600000
    false None None None None.

Example carried_month_length :
  forallb (in_daylight unsteady_zone 2017) [1506772800000 - 1 + 43200000; 1506772800000 + 43200000; 1506816000000 + 43200000] = true /\
  getOffset unsteady_zone (of_int (1506772800000 - 1)) false U_ZERO_ERROR = Some (43200000, 3600000, U_ZERO_ERROR) /\
  getOffset unsteady_zone (of_int 1506772800000) false U_ZERO_ERROR = Some (43200000, 0, U_ZERO_ERROR) /\
  getOffset unsteady_zone (of_int 1506816000000) false U_ZERO_ERROR = Some (43200000, 3600000, U_ZERO_ERROR).
Proof. split; [|split; [|split]]; vm_compute; reflexivity. Qed.

Lemma getOffset_correct_witness :
  zone_ok sample_zone 2016 /\ ms_year 2016 /\ in_year 2016 (1467331200000 + sample_zone.(rawOffset)) /\
  getOffset sample_zone (of_int 1467331200000) false U_ZERO_ERROR = Some (-18000000, 3600000, U_ZERO_ERROR).
Proof.
  assert (H1 : ms_year 2016) by (unfold ms_year; lia).
  assert (H2 : in_year 2016 (1467331200000 + sample_zone.(rawOffset))) by (split; vm_compute; done).
  split; [exact sample_zone_ok|split; [exact H1|split; [exact H2|]]].
  exact (getOffset_correct sample_zone 2016 1467331200000 sample_zone_ok H1 H2).
Defined.

End SimpleTimeZoneOffset.
