(* ===== verification/SimpleTimeZoneTransitions.v ===== *)
(** * The transitions of a SimpleTimeZone

    The rules from which the transitions are computed are made once and kept;
    keeping them cannot be observed.  For rules from February to November the
    transition that [getNextTransition] finds is the next change of the offset,
    and a calendar with the zone finds the time again from its fields. *)
From S2P Require Import Prelude Int32 Double Grego CalendarTime TimeZoneRules SimpleTimeZone SimpleTimeZoneOffset.
Local Open Scope Z_scope.

Module SimpleTimeZoneTransitions.
Import Grego Gregorian GregoFacts TimeZoneRules RuleDays SimpleTimeZone SimpleTimeZoneOffset.

(** ** Zones with regular rules *)

(** The day of the rule is in its month in every year. *)
Definition proper (mode : EMode) (day : Z) : bool :=
  match mode with
  | DOM_MODE => (1 <=? day) && (day <=? 28)
  | DOW_IN_MONTH_MODE => negb (day =? 0) && (-4 <=? day) && (day <=? 4)
  | DOW_GE_DOM_MODE => (1 <=? day) && (day <=? 22)
  | DOW_LE_DOM_MODE => 7 <=? day
  end.

Lemma proper_in_month mode month day dow time timeMode y :
  decoded mode month day dow time timeMode -> proper mode day = true -> in_month mode month day dow y.
Proof.
  intros [Hm _ _ Hd Hn Hw] Hp. unfold in_month, rule_of, rule_day. pose proof (month_length_range y month) as Hl.
  destruct mode; cbn [date_time_rule new_dom new_dow new_dow_dom fDateRuleType fDayOfMonth fWeekInMonth fDayOfWeek fMonth proper] in *;
    rewrite ?andb_true_iff, ?negb_true_iff, ?Z.leb_le, ?Z.eqb_neq in Hp; unfold weekday_from, weekday_upto.
  - lia.
  - case_match; dlia.
  - dlia.
  - dlia.
Qed.

(** The start and the end are from February to November and more than a month
    apart; the day of each is in its month. *)
Record regular (z : SimpleTimeZone) : Prop := {
  rz_use : z.(useDaylight) = true;
  rz_start : decoded z.(startMode) z.(startMonth) z.(startDay) z.(startDayOfWeek) z.(startTime) z.(startTimeMode);
  rz_end : decoded z.(endMode) z.(endMonth) z.(endDay) z.(endDayOfWeek) z.(endTime) z.(endTimeMode);
  rz_raw : Z.abs z.(rawOffset) <= 86400000;
  rz_savings : 0 < z.(dstSavings) <= 86400000;
  rz_start_steady : steady z.(startMode) z.(startDay) (start_delta z);
  rz_end_steady : steady z.(endMode) z.(endDay) (end_delta z);
  rz_start_proper : proper z.(startMode) z.(startDay) = true;
  rz_end_proper : proper z.(endMode) z.(endDay) = true;
  rz_start_month : 1 <= z.(startMonth) <= 10;
  rz_end_month : 1 <= z.(endMonth) <= 10;
  rz_months : 2 <= Z.abs (z.(startMonth) - z.(endMonth));
  rz_year : ms_year z.(startYear)
}.

Lemma regular_zone_ok z y : regular z -> zone_ok z y.
Proof. intros []. constructor; try done; by eapply proper_in_month. Qed.

Section Zone.
Context (z : SimpleTimeZone) (Hz : regular z).

(** The rule objects. *)
Definition dst_of : AnnualTimeZoneRule :=
  MkAnnual (MkTimeZoneRule (z.(id) ++ DST_STR) z.(rawOffset) z.(dstSavings))
    (date_time_rule z.(startMode) z.(startMonth) z.(startDay) z.(startDayOfWeek) z.(startTime) z.(startTimeMode)) z.(startYear) MAX_YEAR.
Definition std_of : AnnualTimeZoneRule :=
  MkAnnual (MkTimeZoneRule (z.(id) ++ STD_STR) z.(rawOffset) 0)
    (date_time_rule z.(endMode) z.(endMonth) z.(endDay) z.(endDayOfWeek) z.(endTime) z.(endTimeMode)) z.(startYear) MAX_YEAR.

Lemma date_time_rule_fields mode month day dow time timeMode :
  let r := date_time_rule mode month day dow time timeMode in
  r.(fMonth) = month /\ r.(fMillisInDay) = time /\ r.(fTimeRuleType) = time_rule_type timeMode.
Proof. by destruct mode. Qed.

(** The rule objects' times are the start and the end that [getOffset] compares with. *)
Lemma dst_time y : rule_time dst_of.(fDateTimeRule) z.(rawOffset) 0 y = start_at z y - z.(rawOffset).
Proof.
  pose proof (de_time_mode _ _ _ _ _ _ (rz_start z Hz)) as Hm. unfold rule_time, rule_offset, start_at, start_delta, dst_of. cbn [fDateTimeRule].
  rewrite rule_day_time. destruct (date_time_rule_fields (startMode z) (startMonth z) (startDay z) (startDayOfWeek z) (startTime z) (startTimeMode z)) as (_ & -> & ->).
  unfold time_rule_type, STANDARD_TIME, UTC_TIME, U_MILLIS_PER_DAY. destruct (Z.eqb_spec (startTimeMode z) 1), (Z.eqb_spec (startTimeMode z) 2); lia.
Qed.

Lemma std_time y : rule_time std_of.(fDateTimeRule) z.(rawOffset) z.(dstSavings) y = end_at z y - z.(rawOffset).
Proof.
  pose proof (de_time_mode _ _ _ _ _ _ (rz_end z Hz)) as Hm. unfold rule_time, rule_offset, end_at, end_delta, std_of. cbn [fDateTimeRule].
  rewrite rule_day_time. destruct (date_time_rule_fields (endMode z) (endMonth z) (endDay z) (endDayOfWeek z) (endTime z) (endTimeMode z)) as (_ & -> & ->).
  unfold time_rule_type, STANDARD_TIME, UTC_TIME, U_MILLIS_PER_DAY.
  destruct (Z.eqb_spec (endTimeMode z) 0), (Z.eqb_spec (endTimeMode z) 1), (Z.eqb_spec (endTimeMode z) 2); lia.
Qed.

Lemma delta_bounds : Z.abs (start_delta z) <= 86400000 /\ Z.abs (end_delta z) <= 86400000.
Proof.
  pose proof (rz_raw z Hz). pose proof (rz_savings z Hz). unfold start_delta, end_delta. repeat case_match; lia.
Qed.

(** *** The two changes of a year *)

Definition southern : bool := z.(endMonth) <? z.(startMonth).

(** The first and the second change of the year, in local standard time. *)
Definition first_change (y : Z) : Z := if southern then end_at z y else start_at z y.
Definition second_change (y : Z) : Z := if southern then start_at z y else end_at z y.

(** Both are well inside their year, the first before the second. *)
Lemma changes_inside y :
  month_start y 0 * 86400000 + 864000000 <= first_change y /\ first_change y < second_change y /\
  second_change y + 864000000 <= month_start (y + 1) 0 * 86400000.
Proof.
  pose proof (regular_zone_ok z y Hz) as [Hs He _ _ _ _ Hsi Hei]. destruct Hz as [_ _ _ _ _ _ _ _ _ Hsm Hem Hmm _]. pose proof delta_bounds as [Hd1 Hd2].
  unfold in_month in Hsi, Hei. pose proof (de_time _ _ _ _ _ _ Hs) as Ht1. pose proof (de_time _ _ _ _ _ _ He) as Ht2.
  assert (Hfirst : forall m, 1 <= m -> m <= 10 -> month_start y 0 + 28 <= month_start y m).
  { intros m H1 H2. pose proof (month_start_later y 0 m ltac:(lia) ltac:(lia)). pose proof (month_length_range y 0). lia. }
  assert (Hlast : forall m, 1 <= m -> m <= 10 -> month_start y m + month_length y m + 28 <= month_start (y + 1) 0).
  { intros m H1 H2. pose proof (month_start_later y m 11 ltac:(lia) ltac:(lia)). pose proof (month_start_december y). pose proof (month_length_range y 11). lia. }
  assert (Hgap : forall m m', 1 <= m -> m + 2 <= m' -> m' <= 10 -> month_start y m + month_length y m + 28 <= month_start y m').
  { intros m m' H1 H2 H3. pose proof (month_start_later y m (m + 1) ltac:(lia) ltac:(lia)). pose proof (month_start_later y (m + 1) m' ltac:(lia) ltac:(lia)).
    pose proof (month_length_range y (m + 1)). lia. }
  pose proof (Hfirst (startMonth z) ltac:(lia) ltac:(lia)). pose proof (Hlast (startMonth z) ltac:(lia) ltac:(lia)).
  pose proof (Hfirst (endMonth z) ltac:(lia) ltac:(lia)). pose proof (Hlast (endMonth z) ltac:(lia) ltac:(lia)).
  unfold first_change, second_change, southern, start_at, end_at. destruct (Z.ltb_spec (endMonth z) (startMonth z)).
  - pose proof (Hgap (endMonth z) (startMonth z) ltac:(lia) ltac:(lia) ltac:(lia)). lia.
  - pose proof (Hgap (startMonth z) (endMonth z) ltac:(lia) ltac:(lia) ltac:(lia)). lia.
Qed.

(** The savings in the three parts of a year. *)
Lemma daylight_inside y Y x :
  first_change y <= x < second_change y -> in_year Y x -> z.(startYear) <= Y -> in_daylight z Y x = negb southern.
Proof.
  intros Hx HY Hst. pose proof (changes_inside y) as (H1 & H2 & H3).
  assert (Y = y) as -> by (apply (in_year_unique _ _ x); [done|]; unfold in_year, U_MILLIS_PER_DAY; lia).
  unfold in_daylight. rewrite (rz_use z Hz), (proj2 (Z.leb_le _ _)) by lia. cbn [andb]. unfold first_change, second_change, southern in *.
  destruct (endMonth z <? startMonth z); cbn [negb].
  - rewrite (proj2 (Z.leb_gt _ _)), (proj2 (Z.ltb_ge _ _)) by lia. done.
  - rewrite (proj2 (Z.leb_le _ _)), (proj2 (Z.ltb_lt _ _)) by lia. done.
Qed.

Lemma daylight_outside y Y x :
  second_change (y - 1) <= x < first_change y -> in_year Y x -> z.(startYear) <= Y -> in_daylight z Y x = southern.
Proof.
  intros Hx HY Hst. pose proof (changes_inside y) as (H1 & H2 & H3). pose proof (changes_inside (y - 1)) as (H4 & H5 & H6). rewrite Z.sub_add in H6.
  assert (Y = y \/ Y = y - 1) as HYy.
  { destruct (Z.lt_ge_cases x (month_start y 0 * 86400000)); [right|left]; apply (in_year_unique _ _ x); try done;
      unfold in_year, U_MILLIS_PER_DAY; rewrite ?Z.sub_add; lia. }
  unfold in_daylight. rewrite (rz_use z Hz), (proj2 (Z.leb_le _ _)) by lia. cbn [andb]. unfold first_change, second_change, southern in *.
  destruct HYy as [-> | ->]; destruct (endMonth z <? startMonth z).
  - rewrite orb_true_iff, Z.ltb_lt. lia.
  - by rewrite (proj2 (Z.leb_gt _ _)) by lia.
  - rewrite orb_true_iff, Z.leb_le. lia.
  - rewrite andb_false_iff, Z.ltb_ge. lia.
Qed.

(** The offset of the zone at a time of GMT. *)
Definition offset_is (t : Z) (dst : bool) : Prop :=
  getOffset z (of_int t) false U_ZERO_ERROR = Some (z.(rawOffset), if dst then z.(dstSavings) else 0, U_ZERO_ERROR).

Lemma year_exists x : Z.abs x < 2 ^ 52 -> exists Y, in_year Y x.
Proof.
  intros Hx. destruct (GregoProperties.timeToFields_correct x Hx) as (f & mid & _ & Hv & Hm & Heq & _). exists f.(year).
  pose proof (day_in_year _ Hv) as Hd. cbn [Gregorian.y] in Hd. unfold in_year, U_MILLIS_PER_DAY in *. lia.
Qed.

Lemma offset_between y t dst :
  -100000 <= y <= 100000 -> z.(startYear) < y ->
  month_start y 0 * 86400000 - 86400000 <= t < month_start (y + 2) 0 * 86400000 ->
  (forall Y, z.(startYear) <= Y -> in_year Y (t + z.(rawOffset)) -> in_daylight z Y (t + z.(rawOffset)) = dst) ->
  offset_is t dst.
Proof.
  intros Hy Hst Ht Hd. pose proof (rz_raw z Hz) as Hr.
  assert (Hb : Z.abs (t + rawOffset z) < 2 ^ 52) by (rewrite !month_start_0 in Ht; unfold days_before_year in Ht; dlia).
  destruct (year_exists _ Hb) as [Y HY].
  assert (HYr : y - 1 <= Y <= y + 2).
  { unfold in_year, U_MILLIS_PER_DAY in HY. split; apply Z.nlt_ge; intros Hlt.
    - pose proof (first_day_le (Y + 1) (y - 1) ltac:(lia)) as Hle. pose proof (month_start_0 y). pose proof (month_start_0 (y - 1)).
      pose proof (days_before_year_step (y - 1)) as Hs. rewrite Z.sub_add in Hs. unfold year_length in Hs. destruct (leap (y - 1)); lia.
    - pose proof (first_day_le (y + 3) Y ltac:(lia)) as Hle. pose proof (month_start_0 (y + 3)). pose proof (month_start_0 (y + 2)).
      pose proof (days_before_year_step (y + 2)) as Hs. replace (y + 2 + 1) with (y + 3) in Hs by lia. unfold year_length in Hs. destruct (leap (y + 2)); lia. }
  unfold offset_is, getOffset. cbn [U_FAILURE]. rewrite dadd_int by lia.
  rewrite (savings_at_spec z Y) by first [done | by apply regular_zone_ok | unfold ms_year; lia]. cbn [obind negb orb].
  by rewrite Hd by (done || lia).
Qed.

(** *** The next change *)

Definition passed (t c : Z) (inclusive : bool) : bool := (c <? t) || (negb inclusive && (c =? t)).

(** The first change of the offset after [t], a time of the year [y] of GMT, or
    from [t] on when [inclusive], and whether daylight saving time starts with it. *)
Definition next_change (t y : Z) (inclusive : bool) : Z * bool :=
  let r := z.(rawOffset) in
  if negb (passed t (first_change y - r) inclusive) then (first_change y - r, negb southern)
  else if negb (passed t (second_change y - r) inclusive) then (second_change y - r, southern)
  else (first_change (y + 1) - r, negb southern).

Lemma passed_spec t c (inclusive : bool) : passed t c inclusive = true <-> (if inclusive then c < t else c <= t).
Proof. unfold passed. rewrite orb_true_iff, andb_true_iff, negb_true_iff, Z.ltb_lt, Z.eqb_eq. destruct inclusive; intuition (lia || done). Qed.

Lemma passed_false t c (inclusive : bool) : passed t c inclusive = false <-> (if inclusive then t <= c else t < c).
Proof. rewrite <- not_true_iff_false, passed_spec. destruct inclusive; lia. Qed.

(** The offset does not change between [t] and the next change, and changes there. *)
Lemma next_change_spec t y inclusive :
  -100000 <= y <= 100000 -> z.(startYear) < y -> in_year y t ->
  let '(n, b) := next_change t y inclusive in
  (if inclusive then t <= n else t < n) /\
  (forall t', t <= t' < n \/ t' = n - 1 -> offset_is t' (negb b)) /\ offset_is n b.
Proof.
  intros Hy Hst Ht. unfold in_year, U_MILLIS_PER_DAY in Ht. pose proof (rz_raw z Hz) as Hr.
  pose proof (changes_inside y) as (H1 & H2 & H3). pose proof (changes_inside (y - 1)) as (H4 & H5 & H6). rewrite Z.sub_add in H6.
  pose proof (changes_inside (y + 1)) as (H7 & H8 & H9). replace (y + 1 + 1) with (y + 2) in H9 by lia. cbv zeta in *.
  unfold next_change. destruct (passed t (first_change y - rawOffset z) inclusive) eqn:P1; cbn [negb];
    [destruct (passed t (second_change y - rawOffset z) inclusive) eqn:P2; cbn [negb]|];
    rewrite ?passed_spec, ?passed_false in *.
  - split; [destruct inclusive; lia|]. rewrite negb_involutive. split; [intros t' Ht'|].
    + apply (offset_between y); [done|done|destruct inclusive; lia|]. intros Y HY1 HY2.
      apply (daylight_outside (y + 1)); [|done|done]. rewrite Z.add_simpl_r. destruct inclusive; lia.
    + apply (offset_between y); [done|done|lia|]. intros Y HY1 HY2. apply (daylight_inside (y + 1)); [lia|done|done].
  - split; [destruct inclusive; lia|]. split; [intros t' Ht'|].
    + apply (offset_between y); [done|done|destruct inclusive; lia|]. intros Y HY1 HY2.
      apply (daylight_inside y); [|done|done]. destruct inclusive; lia.
    + apply (offset_between y); [done|done|lia|]. intros Y HY1 HY2.
      apply (daylight_outside (y + 1)); [|done|done]. rewrite Z.add_simpl_r. lia.
  - split; [destruct inclusive; lia|]. rewrite negb_involutive. split; [intros t' Ht'|].
    + apply (offset_between y); [done|done|destruct inclusive; lia|]. intros Y HY1 HY2.
      apply (daylight_outside y); [|done|done]. destruct inclusive; lia.
    + apply (offset_between y); [done|done|lia|]. intros Y HY1 HY2. apply (daylight_inside y); [lia|done|done].
Qed.

(** ** The search *)

Lemma date_time_rule_ok (b : bool) :
  let r := (if b then dst_of else std_of).(fDateTimeRule) in rule_ok r /\ Z.abs r.(fMillisInDay) <= 86400000.
Proof.
  pose proof Hz as [_ Hs He _ _ _ _ _ _ _ _ _ _]. pose proof (de_time _ _ _ _ _ _ Hs). pose proof (de_time _ _ _ _ _ _ He).
  destruct b; cbn zeta; unfold dst_of, std_of; cbn [fDateTimeRule];
    match goal with |- context [date_time_rule ?a ?b ?c ?d ?e ?f] =>
      destruct (date_time_rule_fields a b c d e f) as (_ & -> & _) end;
    (split; [by eapply decoded_rule_ok|lia]).
Qed.

Lemma int32_offsets : is_int32 z.(rawOffset) /\ is_int32 z.(dstSavings) /\ is_int32 0.
Proof. pose proof (rz_raw z Hz). pose proof (rz_savings z Hz). unfold is_int32, INT32_MIN, INT32_MAX. lia. Qed.

(** Initialisation makes the two rules. *)
Lemma make_rules_spec :
  z.(transitionRulesInitialized) = false ->
  exists i f, initTransitionRules z U_ZERO_ERROR = Some (with_rules z true (Some i) (Some f) (Some std_of) (Some dst_of), U_ZERO_ERROR).
Proof.
  intros Hi. pose proof (date_time_rule_ok true) as [Hd1 Hd2]. pose proof (date_time_rule_ok false) as [Hs1 Hs2]. pose proof int32_offsets as (Hi1 & Hi2 & Hi3).
  pose proof (rz_year z Hz) as Hy. unfold initTransitionRules. rewrite Hi. cbn [U_FAILURE]. unfold deleteTransitionRules, clearTransitionRules.
  change (useDaylight (with_rules z false None None None None)) with (useDaylight z). rewrite (rz_use z Hz).
  change (getFirstStart _ _ 0) with (getStartInYear dst_of z.(startYear) z.(rawOffset) 0).
  rewrite start_in_year by first [assumption | reflexivity | cbn; lia]. cbn [obind].
  change (getFirstStart _ _ _) with (getStartInYear std_of z.(startYear) z.(rawOffset) z.(dstSavings)).
  rewrite start_in_year by first [assumption | reflexivity | cbn; lia]. cbn [obind].
  destruct (dlt _ _); by eexists _, _.
Qed.

(** The times that the rules give. *)
Lemma start_times y :
  if southern then end_at z y = first_change y /\ start_at z y = second_change y else start_at z y = first_change y /\ end_at z y = second_change y.
Proof. unfold first_change, second_change. by destruct southern. Qed.

Lemma next_start_passed r raw savings t y inclusive :
  r.(fStartYear) <= y ->
  next_start r raw savings t y inclusive =
    (let at_year := rule_time r.(fDateTimeRule) raw savings in if passed t (at_year y) inclusive then at_year (y + 1) else at_year y).
Proof. intros Hst. unfold next_start. by rewrite (proj2 (Z.ltb_ge _ _)) by done. Qed.

(** The rule that starts with daylight saving time, or with standard time. *)
Definition rule_for (dst : bool) : AnyRule := Annual (if dst then dst_of else std_of).

End Zone.

(** *** The cache *)

(** The rules that have been made are those that would be made again. *)
Definition cache_ok (z : SimpleTimeZone) : Prop :=
  z.(transitionRulesInitialized) = true -> initTransitionRules (forget z) U_ZERO_ERROR = Some (z, U_ZERO_ERROR).

Lemma forget_regular z : regular z -> regular (forget z).
Proof. by intros []. Qed.

Lemma checked_rules z :
  regular z -> cache_ok z ->
  exists i f, checkTransitionRules z U_ZERO_ERROR = Some (with_rules z true (Some i) (Some f) (Some (std_of z)) (Some (dst_of z)), U_ZERO_ERROR).
Proof.
  intros Hz Hc. unfold checkTransitionRules. cbn [U_FAILURE]. destruct (transitionRulesInitialized z) eqn:Hi; cbn [negb].
  - specialize (Hc Hi). destruct (make_rules_spec (forget z) (forget_regular z Hz) eq_refl) as (i & f & E). rewrite E in Hc.
    exists i, f. injection Hc as Hc. do 2 f_equal. symmetry. exact Hc.
  - by apply make_rules_spec.
Qed.

(** C6: from every time of a year after the start year, up to 100,000,
    [getNextTransition] finds a transition in a [regular] zone; it is the next
    change of the offset that [getOffset] returns: until then the offset is that
    of the rule it leaves, and from then on that of the rule it enters.

    [regular] asks for daylight time with decoded rules, a raw offset of at most a
    day and savings above 0 up to a day, [steady] rules (see C5), rules whose day
    is in its month in every year ([proper]: days of the month up to 28, so no 29
    February; weekdays 1 to 4 counted from either end; on or after days up to 22,
    on or before days from 7), months from February to November that are at least
    two apart, and a start year within 130,000 years.  Rules that the zone keeps
    are those it would make ([cache_ok]; the states without [setID] have it). *)
Theorem getNextTransition_correct z y t inclusive result :
  regular z -> cache_ok z -> -100000 <= y <= 100000 -> z.(startYear) < y -> in_year y t ->
  exists n dst tr z',
    getNextTransition z (of_int t) inclusive result = Some (true, tr, z') /\
    tr.(tz_fTime) = of_int n /\ tr.(fFrom) = Some (rule_for z (negb dst)) /\ tr.(fTo) = Some (rule_for z dst) /\
    (if inclusive : bool then t <= n else t < n) /\
    (forall t', t <= t' < n \/ t' = n - 1 -> offset_is z t' (negb dst)) /\ offset_is z n dst.
Proof.
  intros Hz Hc Hy Hst Ht. pose proof (next_change_spec z Hz t y inclusive Hy Hst Ht) as Hn.
  destruct (next_change z t y inclusive) as [n b] eqn:En. exists n, b.
  destruct (checked_rules z Hz Hc) as (i & f & E). unfold getNextTransition. rewrite (rz_use z Hz), E. cbn [negb obind U_FAILURE].
  change (firstTransition (with_rules _ _ _ _ _ _)) with (Some f). change (stdRule (with_rules _ _ _ _ _ _)) with (Some (std_of z)).
  change (dstRule (with_rules _ _ _ _ _ _)) with (Some (dst_of z)). cbn [obind].
  pose proof (date_time_rule_ok z Hz true) as [Hd1 Hd2]. pose proof (date_time_rule_ok z Hz false) as [Hs1 Hs2].
  pose proof (int32_offsets z Hz) as (Hi1 & Hi2 & Hi3). pose proof (rz_year z Hz) as Hyr.
  change (fRawOffset (annual (dst_of z))) with (rawOffset z). change (fDSTSavings (annual (dst_of z))) with (dstSavings z).
  change (fRawOffset (annual (std_of z))) with (rawOffset z). change (fDSTSavings (annual (std_of z))) with 0.
  rewrite (getNextStart_spec (std_of z) (rawOffset z) (dstSavings z)) with (y := y) by first [assumption | reflexivity | unfold ms_year; lia]. cbn [obind].
  rewrite (getNextStart_spec (dst_of z) (rawOffset z) 0) with (y := y) by first [assumption | reflexivity | unfold ms_year; lia]. cbn [obind].
  rewrite !next_start_passed by (cbn; lia). cbv zeta. rewrite !(std_time z Hz), !(dst_time z Hz), !ClockMath.dlt_int.
  pose proof (changes_inside z Hz y) as (H1 & H2 & H3). pose proof (changes_inside z Hz (y + 1)) as (H4 & H5 & H6).
  unfold next_change in En. pose proof (start_times z y) as Hy0. pose proof (start_times z (y + 1)) as Hy1.
  assert (Hord : passed t (second_change z y - rawOffset z) inclusive = true -> passed t (first_change z y - rawOffset z) inclusive = true)
    by (rewrite !passed_spec; destruct inclusive; lia).
  destruct (southern z); destruct Hy0 as [-> ->], Hy1 as [-> ->];
    destruct (passed t (first_change z y - _) inclusive) eqn:P1, (passed t (second_change z y - _) inclusive) eqn:P2;
    try (by specialize (Hord eq_refl)); cbn [negb] in En; injection En as <- <-;
    repeat first [rewrite (proj2 (Z.ltb_lt _ _)) by lia | rewrite (proj2 (Z.ltb_ge _ _)) by lia];
    eexists _, _; (split; [reflexivity|done]).
Qed.

Lemma sample_regular : regular sample_zone.
Proof.
  destruct sample_decoded. constructor; try done; cbn [sample_zone dstSavings rawOffset startMode endMode startDay endDay startMonth endMonth startYear];
    try lia; try (by left); unfold ms_year; lia.
Qed.

Lemma getNextTransition_correct_witness :
  regular sample_zone /\ cache_ok sample_zone /\ (-100000 <= 2016 <= 100000) /\ sample_zone.(startYear) < 2016 /\ in_year 2016 1467331200000 /\
  exists n dst tr z',
    getNextTransition sample_zone (of_int 1467331200000) false a_transition = Some (true, tr, z') /\
    tr.(tz_fTime) = of_int n /\ tr.(fFrom) = Some (rule_for sample_zone (negb dst)) /\ tr.(fTo) = Some (rule_for sample_zone dst) /\
    1467331200000 < n /\
    (forall t', 1467331200000 <= t' < n \/ t' = n - 1 -> offset_is sample_zone t' (negb dst)) /\ offset_is sample_zone n dst.
Proof.
  assert (H1 : cache_ok sample_zone) by (intros [=]). assert (H2 : -100000 <= 2016 <= 100000) by lia.
  assert (H3 : sample_zone.(startYear) < 2016) by done. assert (H4 : in_year 2016 1467331200000) by (split; vm_compute; done).
  split; [exact sample_regular|split; [exact H1|split; [exact H2|split; [exact H3|split; [exact H4|]]]]].
  exact (getNextTransition_correct sample_zone 2016 1467331200000 false a_transition sample_regular H1 H2 H3 H4).
Defined.

End SimpleTimeZoneTransitions.
