(* ===== verification/SimpleTimeZoneState.v ===== *)
(** * The state of a SimpleTimeZone

    A zone lives through its constructors, setters and searches.  The transition
    rules that it keeps are always those of its members, so that keeping them
    cannot be observed; the constructors accept exactly the rules they decode. *)
From S2P Require Import Prelude Int32 Double Grego CalendarTime TimeZoneRules SimpleTimeZone SimpleTimeZoneOffset SimpleTimeZoneTransitions.
Local Open Scope Z_scope.

Module SimpleTimeZoneState.
Import Grego Gregorian GregoFacts TimeZoneRules SimpleTimeZone SimpleTimeZoneOffset SimpleTimeZoneTransitions.

(** ** The life of a zone *)

(** One operation on a zone. *)
Inductive step (z : SimpleTimeZone) : SimpleTimeZone -> Prop :=
| step_assign right : step z (operator_assign z right)
| step_year year : step z (setStartYear z year)
| step_raw offset : step z (setRawOffset z offset)
| step_savings savings ec : step z (setDSTSavings z savings ec).1
| step_start month week dow time mode ec z' ec' : setStartRule z month week dow time mode ec = Some (z', ec') -> step z z'
| step_end month week dow time mode ec z' ec' : setEndRule z month week dow time mode ec = Some (z', ec') -> step z z'
| step_next base inclusive tr found tr' z' : getNextTransition z base inclusive tr = Some (found, tr', z') -> step z z'
| step_previous base inclusive tr found tr' z' : getPreviousTransition z base inclusive tr = Some (found, tr', z') -> step z z'
| step_rules count ec out z' ec' : getTimeZoneRules z count ec = Some (out, z', ec') -> step z z'.

(** The zones that a program can have, and whether it called [setID]. *)
Inductive reachable : bool -> SimpleTimeZone -> Prop :=
| reach_new raw ID : reachable false (new raw ID)
| reach_rules garbage ID raw sm sd sw st stm em ed ew et etm savings ec z ec' :
    new_rules garbage ID raw sm sd sw st stm em ed ew et etm savings ec = Some (z, ec') -> reachable false z
| reach_step renamed z z' : reachable renamed z -> step z z' -> reachable renamed z'
| reach_id renamed z ID : reachable renamed z -> reachable true (setID z ID).

(** ** The rules that are kept *)

Lemma obind_inv {A B} (o : option A) (f : A -> option B) b : (let! x := o in f x) = Some b -> exists a, o = Some a /\ f a = Some b.
Proof. destruct o; [|done]. by eexists. Qed.

(** Initialisation depends on the members that the setters assign only. *)
Lemma init_again z ec z' ec' :
  initTransitionRules z ec = Some (z', ec') -> U_FAILURE ec = false -> z.(transitionRulesInitialized) = false ->
  initTransitionRules (forget z') U_ZERO_ERROR = Some (z', U_ZERO_ERROR).
Proof.
  intros H Hec Hi. unfold initTransitionRules in H. rewrite Hec, Hi in H.
  change (useDaylight (deleteTransitionRules z)) with (useDaylight z) in H. destruct (useDaylight z) eqn:Hu.
  - apply obind_inv in H as (od & Ed & H). apply obind_inv in H as (d & -> & H).
    apply obind_inv in H as (os & Es & H). apply obind_inv in H as (s & -> & H).
    destruct (dlt s d) eqn:Hsd; injection H as <- _; unfold initTransitionRules; cbn [U_FAILURE];
      change (useDaylight (deleteTransitionRules (forget (with_rules (deleteTransitionRules z) true _ _ _ _)))) with (useDaylight z);
      rewrite Hu; cbn [transitionRulesInitialized forget with_rules];
      (etransitivity; [refine (f_equal (fun o => obind o _) Ed)|]); cbn [obind];
      (etransitivity; [refine (f_equal (fun o => obind o _) Es)|]); cbn [obind]; by rewrite Hsd.
  - injection H as <- _. unfold initTransitionRules. cbn [U_FAILURE transitionRulesInitialized forget with_rules].
    change (useDaylight (deleteTransitionRules (forget (with_rules (deleteTransitionRules z) true _ _ _ _)))) with (useDaylight z). by rewrite Hu.
Qed.

Lemma check_status z ec z' ec' : checkTransitionRules z ec = Some (z', ec') -> ec' = ec.
Proof.
  unfold checkTransitionRules. destruct (U_FAILURE ec) eqn:Hec; [by intros [= _ <-]|]. destruct (transitionRulesInitialized z) eqn:Hi; cbn [negb]; [by intros [= _ <-]|].
  unfold initTransitionRules. rewrite Hec, Hi. destruct (useDaylight _); [|by intros [= _ <-]]. intros H.
  apply obind_inv in H as (od & _ & H). apply obind_inv in H as (d & -> & H).
  apply obind_inv in H as (os & _ & H). apply obind_inv in H as (s & -> & H). destruct (dlt s d); by injection H.
Qed.

Lemma check_cache z ec z' ec' : checkTransitionRules z ec = Some (z', ec') -> z' = z \/ cache_ok z'.
Proof.
  unfold checkTransitionRules. destruct (U_FAILURE ec) eqn:Hec; [intros [= <- _]; by left|].
  destruct (transitionRulesInitialized z) eqn:Hi; cbn [negb]; [intros [= <- _]; by left|]. intros H. right. intros _. by eapply init_again.
Qed.

Lemma unset_cache z : z.(transitionRulesInitialized) = false -> cache_ok z.
Proof. intros H. unfold cache_ok. by rewrite H. Qed.

Lemma decodeStartRule_unset z ec z' ec' :
  decodeStartRule z ec = Some (z', ec') -> z'.(transitionRulesInitialized) = z.(transitionRulesInitialized).
Proof.
  unfold decodeStartRule. destruct (U_FAILURE ec); [by intros [= <- _]|]. destruct (daylight z). intros H.
  by apply obind_inv in H as ([[[? ?] ?] ?] & _ & [= <- _]).
Qed.

Lemma decodeEndRule_unset z ec z' ec' :
  decodeEndRule z ec = Some (z', ec') -> z'.(transitionRulesInitialized) = z.(transitionRulesInitialized).
Proof.
  unfold decodeEndRule. destruct (U_FAILURE ec); [by intros [= <- _]|]. destruct (daylight z). intros H.
  by apply obind_inv in H as ([[[? ?] ?] ?] & _ & [= <- _]).
Qed.

(** A search leaves the zone as it was, or with its rules made. *)
Lemma next_checked z base inclusive tr found tr' z' :
  getNextTransition z base inclusive tr = Some (found, tr', z') -> z' = z \/ exists ec, checkTransitionRules z U_ZERO_ERROR = Some (z', ec).
Proof.
  unfold getNextTransition. destruct (negb _); [intros [= _ _ <-]; by left|]. intros H. apply obind_inv in H as ([z1 ec] & E & H). right. exists ec.
  destruct (U_FAILURE ec); [by injection H as _ _ <-|]. apply obind_inv in H as (f & _ & H). apply obind_inv in H as (s & _ & H).
  apply obind_inv in H as (d & _ & H). apply obind_inv in H as (sd & _ & H). apply obind_inv in H as (dd & _ & H).
  cbv zeta in H. repeat case_match; simplify_eq; done.
Qed.

Lemma previous_checked z base inclusive tr found tr' z' :
  getPreviousTransition z base inclusive tr = Some (found, tr', z') -> z' = z \/ exists ec, checkTransitionRules z U_ZERO_ERROR = Some (z', ec).
Proof.
  unfold getPreviousTransition. destruct (negb _); [intros [= _ _ <-]; by left|]. intros H. apply obind_inv in H as ([z1 ec] & E & H). right. exists ec.
  destruct (U_FAILURE ec); [by injection H as _ _ <-|]. apply obind_inv in H as (f & _ & H). apply obind_inv in H as (s & _ & H).
  apply obind_inv in H as (d & _ & H). destruct (_ || _); [by injection H as _ _ <-|].
  apply obind_inv in H as (sd & _ & H). apply obind_inv in H as (dd & _ & H). cbv zeta in H. repeat case_match; simplify_eq; done.
Qed.

Lemma rules_checked z count ec out z' ec' :
  getTimeZoneRules z count ec = Some (out, z', ec') -> z' = z \/ exists ec, checkTransitionRules z ec = Some (z', ec).
Proof.
  unfold getTimeZoneRules. destruct (U_FAILURE ec) eqn:Hec; [intros [= _ <- _]; by left|]. intros H. apply obind_inv in H as ([z1 ec1] & E & H). right. exists ec.
  pose proof (check_status _ _ _ _ E) as Hst.
  subst ec1. destruct (U_FAILURE ec); [by injection H as _ <- _|]. apply obind_inv in H as (rules & _ & H). by injection H as _ <- _.
Qed.

(** The rules that have been made are those that a zone with some ID would make
    again: with the ID of this one, if [setID] was not called. *)
Definition named_cache (renamed : bool) (z : SimpleTimeZone) : Prop :=
  exists ID, cache_ok (setID z ID) /\ (renamed = false -> ID = z.(id)).

Lemma setID_id z : setID z z.(id) = z.
Proof. by destruct z. Qed.

Lemma cache_named renamed z : cache_ok z -> named_cache renamed z.
Proof. intros H. exists z.(id). by rewrite setID_id. Qed.

Lemma checked_named renamed z z' :
  named_cache renamed z -> z' = z \/ (exists ec ec', checkTransitionRules z ec = Some (z', ec')) -> named_cache renamed z'.
Proof. intros Hc [->|(ec & ec' & H)]; [done|]. destruct (check_cache _ _ _ _ H) as [->|Hok]; [done|by apply cache_named]. Qed.

Lemma reachable_cache renamed z : reachable renamed z -> named_cache renamed z.
Proof.
  induction 1 as [raw ID|garbage ID raw sm sd sw st stm em ed ew et etm savings ec z ec' H|renamed z z' _ IH Hstep|renamed z ID _ (ID' & IH & _)].
  - by apply cache_named, unset_cache.
  - apply cache_named, unset_cache. unfold new_rules in H. apply obind_inv in H as ([z1 ec1] & E & [= <- _]). unfold decodeRules in E.
    apply obind_inv in E as ([z2 ec2] & E2 & E). apply decodeEndRule_unset in E. apply decodeStartRule_unset in E2. by rewrite E, E2.
  - destruct Hstep as [right|year|offset|savings ec|? ? ? ? ? ? ? ? H|? ? ? ? ? ? ? ? H|? ? ? ? ? ? H|? ? ? ? ? ? H|? ? ? ? ? H].
    + by apply cache_named, unset_cache.
    + by apply cache_named, unset_cache.
    + by apply cache_named, unset_cache.
    + apply cache_named, unset_cache. unfold setDSTSavings. by case_match.
    + apply cache_named, unset_cache. by apply obind_inv in H as ([z1 ec1] & _ & [= <- _]).
    + apply cache_named, unset_cache. by apply obind_inv in H as ([z1 ec1] & _ & [= <- _]).
    + apply (checked_named _ z); [done|]. apply next_checked in H as [->|[ec H]]; [by left|right; by eexists _, _].
    + apply (checked_named _ z); [done|]. apply previous_checked in H as [->|[ec H]]; [by left|right; by eexists _, _].
    + apply (checked_named _ z); [done|]. apply rules_checked in H as [->|[ec1 H]]; [by left|right; by eexists _, _].
  - by exists ID'.
Qed.

Lemma forget_unset z : z.(transitionRulesInitialized) = false -> forget z = z.
Proof. destruct z. cbn. by intros ->. Qed.

(** The result of a search in two zones with the same rules. *)
#[local] Ltac search_result :=
  change (U_FAILURE U_ZERO_ERROR) with false; cbv beta iota zeta;
  repeat match goal with
  | |- context [obind ?o _] =>
      lazymatch o with
      | context [obind _ _] => fail
      | context [match _ with _ => _ end] => fail
      | Some _ => cbn [obind]
      | _ => destruct o eqn:?; cbn [obind]; try done
      end
  | |- context [match ?x with _ => _ end] => lazymatch x with context [match _ with _ => _ end] => fail | _ => destruct x eqn:?; cbn [obind]; try done end
  end.

(** What the zone uses are the rules that a zone without rules makes. *)
Lemma check_fresh renamed z : named_cache renamed z -> exists ID,
  (renamed = false \/ z.(transitionRulesInitialized) = false -> ID = z.(id)) /\
  (checkTransitionRules z U_ZERO_ERROR = checkTransitionRules (forget (setID z ID)) U_ZERO_ERROR \/
   checkTransitionRules z U_ZERO_ERROR = Some (z, U_ZERO_ERROR) /\
   checkTransitionRules (forget (setID z ID)) U_ZERO_ERROR = Some (setID z ID, U_ZERO_ERROR)).
Proof.
  intros (ID & Hc & HID). destruct (transitionRulesInitialized z) eqn:Hi.
  - exists ID. split; [intros [?|?]; [by apply HID|done]|]. right. unfold checkTransitionRules. rewrite Hi. cbn [U_FAILURE negb]. split; [done|]. by apply Hc.
  - exists z.(id). split; [done|]. left. by rewrite setID_id, forget_unset.
Qed.

(** C7: whatever a program did with a zone before, by constructors, assignment,
    setters and searches, the searches and the rules it returns are those of a
    zone with the same members that has made no rules yet; except that after
    [setID] the names of the rules may still be made from an older ID, that of
    the time when the rules were made. *)
Theorem cache_unobservable renamed z :
  reachable renamed z -> exists ID,
  (renamed = false \/ z.(transitionRulesInitialized) = false -> ID = z.(id)) /\
  let fresh := forget (setID z ID) in
  (forall base inclusive tr,
    (let! '(found, tr', _) := getNextTransition z base inclusive tr in Some (found, tr')) =
    (let! '(found, tr', _) := getNextTransition fresh base inclusive tr in Some (found, tr'))) /\
  (forall base inclusive tr,
    (let! '(found, tr', _) := getPreviousTransition z base inclusive tr in Some (found, tr')) =
    (let! '(found, tr', _) := getPreviousTransition fresh base inclusive tr in Some (found, tr'))) /\
  (forall count,
    (let! '(out, _, ec) := getTimeZoneRules z count U_ZERO_ERROR in Some (out, ec)) =
    (let! '(out, _, ec) := getTimeZoneRules fresh count U_ZERO_ERROR in Some (out, ec))).
Proof.
  intros Hr. destruct (check_fresh renamed z (reachable_cache renamed z Hr)) as (ID & HID & Hc). exists ID. split; [exact HID|]. cbv zeta. split_and!; intros.
  - unfold getNextTransition. change (useDaylight (forget (setID z ID))) with (useDaylight z). destruct (negb _); [done|].
    destruct Hc as [->|[-> ->]]; [done|]. cbn [obind U_FAILURE].
    change (firstTransition (setID z ID)) with (firstTransition z). change (stdRule (setID z ID)) with (stdRule z). change (dstRule (setID z ID)) with (dstRule z).
    search_result.
  - unfold getPreviousTransition. change (useDaylight (forget (setID z ID))) with (useDaylight z). destruct (negb _); [done|].
    destruct Hc as [->|[-> ->]]; [done|]. cbn [obind U_FAILURE].
    change (firstTransition (setID z ID)) with (firstTransition z). change (stdRule (setID z ID)) with (stdRule z). change (dstRule (setID z ID)) with (dstRule z).
    search_result.
  - unfold getTimeZoneRules. cbn [U_FAILURE]. destruct Hc as [->|[-> ->]]; [done|]. cbn [obind U_FAILURE].
    change (stdRule (setID z ID)) with (stdRule z). change (dstRule (setID z ID)) with (dstRule z). search_result.
Qed.

(** ** The encoded rules *)

(** The encoded rules of the table at [decodeStartRule], except that of no savings. *)
Definition legal_rule (month day dow time timeMode : Z) : bool :=
  (0 <=? month) && (month <=? 11) && (0 <=? time) && (time <=? 86400000) && (0 <=? timeMode) && (timeMode <=? 2) &&
  (if dow =? 0 then (1 <=? day) && (day <=? month_length 2000 month)
   else if 0 <? dow then (dow <=? 7) && (-5 <=? day) && (day <=? 5)
   else (-7 <=? dow) && (1 <=? Z.abs day) && (Z.abs day <=? month_length 2000 month)).

(** The rules that the code accepts: the legal ones, and those with the weekday
    -128, the one [int8_t] whose negation is itself and so is not above
    [UCAL_SATURDAY]. *)
Definition accepted_rule (month day dow time timeMode : Z) : bool :=
  legal_rule month day (if dow =? -128 then -7 else dow) time timeMode.

(** What an encoded rule stands for. *)
Definition decoded_form (day dow : Z) : Z * Z * EMode :=
  if dow =? 0 then (day, dow, DOM_MODE)
  else if 0 <? dow then (day, dow, DOW_IN_MONTH_MODE)
  else if 0 <? day then (day, int8 (- dow), DOW_GE_DOM_MODE) else (- day, int8 (- dow), DOW_LE_DOM_MODE).

Lemma int8_negated day : -128 < day <= 127 -> int8 (- day) = - day.
Proof. intros. apply int8_small. lia. Qed.

(** The checks of a rule with a weekday before its decoding, [w] its decoded weekday. *)
Lemma decode_rule_negative (day len w : Z) :
  -128 <= day <= 127 -> day <> 0 -> len <= 31 ->
  let '(d, mode) := if 0 <? day then (day, DOW_GE_DOM_MODE) else (int8 (- day), DOW_LE_DOM_MODE) in
  (if (d <? 1) || (d >? len) then U_ILLEGAL_ARGUMENT_ERROR else U_ZERO_ERROR) =
    (if (1 <=? Z.abs day) && (Z.abs day <=? len) then U_ZERO_ERROR else U_ILLEGAL_ARGUMENT_ERROR) /\
  ((1 <=? Z.abs day) && (Z.abs day <=? len) = true ->
   (d, w, mode) = (if 0 <? day then (day, w, DOW_GE_DOM_MODE) else (- day, w, DOW_LE_DOM_MODE)) /\ 1 <= d <= len).
Proof.
  intros Hd H0 Hlen. destruct (Z.ltb_spec 0 day); rewrite andb_true_iff, !Z.leb_le.
  - rewrite Z.gtb_ltb, Z.abs_eq, !Z.ltb_antisym by lia. split; [by destruct (1 <=? day), (day <=? len)|]. intros ?. split; [done|lia].
  - destruct (Z.eq_dec day (-128)) as [->|Hmin].
    + change (Z.abs (-128)) with 128. rewrite (proj2 (Z.leb_gt 128 len)) by lia. split; [done|lia].
    + rewrite int8_negated, Z.gtb_ltb, Z.abs_neq, !Z.ltb_antisym by lia. split; [by destruct (1 <=? - day), (- day <=? len)|].
      intros ?. split; [done|lia].
Qed.

Lemma decode_rule_spec month day dow time timeMode mode :
  -128 <= day <= 127 -> -128 <= dow <= 127 -> day <> 0 ->
  exists day' dow' mode',
    decode_rule month day dow time timeMode mode U_ZERO_ERROR =
      Some (day', dow', mode', if accepted_rule month day dow time timeMode then U_ZERO_ERROR else U_ILLEGAL_ARGUMENT_ERROR) /\
    (accepted_rule month day dow time timeMode = true ->
     (day', dow', mode') = decoded_form day dow /\ (dow <> -128 -> decoded mode' month day' dow' time timeMode)).
Proof.
  intros Hd Hw H0. unfold decode_rule, accepted_rule, legal_rule, UCAL_JANUARY, UCAL_DECEMBER, WALL_TIME, UTC_TIME, U_MILLIS_PER_DAY.
  rewrite !Z.gtb_ltb.
  destruct (Z.ltb_spec month 0); cbn [orb]; [rewrite (proj2 (Z.leb_gt 0 month)) by lia; by eexists _, _, _|].
  destruct (Z.ltb_spec 11 month); cbn [orb]; [rewrite (proj2 (Z.leb_gt month 11)), andb_false_r by lia; by eexists _, _, _|].
  rewrite (proj2 (Z.leb_le 0 month)), (proj2 (Z.leb_le month 11)) by lia. cbn [andb].
  destruct (Z.ltb_spec time 0); cbn [orb]; [rewrite (proj2 (Z.leb_gt 0 time)) by lia; by eexists _, _, _|].
  destruct (Z.ltb_spec 86400000 time); cbn [orb]; [rewrite (proj2 (Z.leb_gt time 86400000)), andb_false_r by lia; by eexists _, _, _|].
  rewrite (proj2 (Z.leb_le 0 time)), (proj2 (Z.leb_le time 86400000)) by lia. cbn [andb].
  destruct (Z.ltb_spec timeMode 0); cbn [orb]; [rewrite (proj2 (Z.leb_gt 0 timeMode)) by lia; by eexists _, _, _|].
  destruct (Z.ltb_spec 2 timeMode); cbn [orb]; [rewrite (proj2 (Z.leb_gt timeMode 2)), andb_false_r by lia; by eexists _, _, _|].
  rewrite (proj2 (Z.leb_le 0 timeMode)), (proj2 (Z.leb_le timeMode 2)) by lia. cbn [andb].
  assert (Hlen : aget STATICMONTHLENGTH month = Some (month_length 2000 month)) by (month_cases month; reflexivity).
  assert (Hmax : month_length 2000 month <= 31) by (month_cases month; by vm_compute).
  rewrite Hlen. unfold decoded_form, UCAL_SATURDAY. pose proof (decode_rule_negative day (month_length 2000 month) (int8 (- dow)) Hd H0 Hmax) as Hneg.
  assert (Hside : forall x a b (st e : UErrorCode), (if (x <? a) || (b <? x) then e else st) = if (a <=? x) && (x <=? b) then st else e)
    by (intros x a b st e; rewrite !Z.ltb_antisym; by destruct (a <=? x), (x <=? b)).
  destruct (Z.eqb_spec dow 0) as [->|].
  { rewrite bool_decide_eq_true_2, bool_decide_eq_false_2 by done. cbn [negb andb obind Z.eqb]. rewrite !Z.gtb_ltb, Hside. eexists _, _, _. split; [done|].
    rewrite andb_true_iff, !Z.leb_le. intros. split; [done|]. by constructor. }
  destruct (Z.ltb_spec 0 dow).
  { rewrite bool_decide_eq_false_2, bool_decide_eq_true_2 by done. cbn [negb andb]. rewrite (proj2 (Z.eqb_neq dow (-128))) by lia.
    rewrite (proj2 (Z.eqb_neq dow 0)), (proj2 (Z.ltb_lt 0 dow)) by lia. rewrite !Z.gtb_ltb.
    destruct (Z.ltb_spec 7 dow); [rewrite (proj2 (Z.leb_gt dow 7)) by lia; by eexists _, _, _|].
    rewrite (proj2 (Z.leb_le dow 7)), Hside by lia. eexists _, _, _. split; [done|].
    cbn [andb]. rewrite andb_true_iff, !Z.leb_le. intros. split; [done|]. intros _. constructor; (done || lia). }
  assert (Hsat : (7 <? int8 (- dow)) = negb (-7 <=? (if dow =? -128 then -7 else dow))).
  { destruct (Z.eqb_spec dow (-128)) as [->|]; [done|]. rewrite int8_small by lia. rewrite <- Z.ltb_antisym. apply eq_true_iff_eq. rewrite !Z.ltb_lt. lia. }
  assert (Hz : ((if dow =? -128 then -7 else dow) =? 0) = false) by (apply Z.eqb_neq; destruct (dow =? -128); lia).
  assert (Hp : (0 <? (if dow =? -128 then -7 else dow)) = false) by (apply Z.ltb_ge; destruct (dow =? -128); lia).
  rewrite Hz, Hp. clear Hz Hp.
  destruct (Z.ltb_spec 0 day); destruct Hneg as [E L]; rewrite !bool_decide_eq_false_2 by done; cbn [negb andb obind]; rewrite ?(Z.gtb_ltb (int8 (- dow))), Hsat;
    (destruct (Z.leb_spec (-7) (if dow =? -128 then -7 else dow)) as [Hle|_]; cbn [negb andb]; [|by eexists _, _, _]); rewrite E; eexists _, _, _;
    (split; [done|]); intros Hb; apply L in Hb as [F Hr]; (split; [exact F|]); intros Hmin;
    rewrite (proj2 (Z.eqb_neq dow (-128))) in Hle by done; rewrite (int8_small (- dow)) by lia; constructor; (done || lia).
Qed.

Lemma negative_rejected month day dow time timeMode : day < 0 /\ dow = 0 -> accepted_rule month day dow time timeMode = false.
Proof.
  intros [H ->]. unfold accepted_rule, legal_rule. cbn [Z.eqb]. rewrite (proj2 (Z.leb_gt 1 day)) by lia. by rewrite !andb_false_r.
Qed.

(** C8: the constructors with rules, for two rules with days other than 0 (a day
    0 means no daylight time), accept exactly the legal rules of the table at
    [decodeStartRule] and those with the weekday -128, with positive savings, and
    report an illegal argument otherwise; the new zone has the decoded rules and
    the offsets given.  A negative day with the weekday 0, which the comment of
    [setStartRule] describes, is rejected. *)
Theorem new_rules_decoded garbage ID raw sm sd sw st stm em ed ew et etm savings :
  -128 <= sd <= 127 -> -128 <= sw <= 127 -> -128 <= ed <= 127 -> -128 <= ew <= 127 -> sd <> 0 -> ed <> 0 ->
  exists z ec,
    new_rules garbage ID raw sm sd sw st stm em ed ew et etm savings U_ZERO_ERROR = Some (z, ec) /\
    ec = (if accepted_rule sm sd sw st stm && accepted_rule em ed ew et etm && (0 <? savings) then U_ZERO_ERROR else U_ILLEGAL_ARGUMENT_ERROR) /\
    ((sd < 0 /\ sw = 0) \/ (ed < 0 /\ ew = 0) -> ec = U_ILLEGAL_ARGUMENT_ERROR) /\
    (ec = U_ZERO_ERROR ->
     z.(useDaylight) = true /\ z.(rawOffset) = raw /\ z.(dstSavings) = savings /\
     (z.(startMonth), z.(startTime), z.(startTimeMode), (z.(startDay), z.(startDayOfWeek), z.(startMode))) = (sm, st, stm, decoded_form sd sw) /\
     (z.(endMonth), z.(endTime), z.(endTimeMode), (z.(endDay), z.(endDayOfWeek), z.(endMode))) = (em, et, etm, decoded_form ed ew) /\
     (sw <> -128 -> decoded z.(startMode) z.(startMonth) z.(startDay) z.(startDayOfWeek) z.(startTime) z.(startTimeMode)) /\
     (ew <> -128 -> decoded z.(endMode) z.(endMonth) z.(endDay) z.(endDayOfWeek) z.(endTime) z.(endTimeMode))).
Proof.
  intros H1 H2 H3 H4 H5 H6.
  destruct (decode_rule_spec sm sd sw st stm DOM_MODE H1 H2 H5) as (d1 & w1 & m1 & E1 & L1).
  destruct (decode_rule_spec em ed ew et etm DOM_MODE H3 H4 H6) as (d2 & w2 & m2 & E2 & L2).
  pose proof (negative_rejected sm sd sw st stm) as N1. pose proof (negative_rejected em ed ew et etm) as N2.
  unfold new_rules, decodeRules, decodeStartRule, daylight. cbn [startDay endDay startMonth startDayOfWeek startTime startTimeMode startMode]. change (U_FAILURE U_ZERO_ERROR) with false.
  rewrite (proj2 (Z.eqb_neq sd 0)), (proj2 (Z.eqb_neq ed 0)) by done. cbn [negb andb]. rewrite E1. cbn [obind].
  rewrite Z.leb_antisym. destruct (accepted_rule sm sd sw st stm); cbn [andb].
  - specialize (L1 eq_refl) as [F1 D1]. unfold decodeEndRule, daylight. cbn [obind with_start startDay endDay endMonth endDayOfWeek endTime endTimeMode endMode dstSavings].
    change (U_FAILURE U_ZERO_ERROR) with false.
    assert (Hd1 : (d1 =? 0) = false).
    { apply Z.eqb_neq. unfold decoded_form in F1. repeat case_match; injection F1 as -> -> ->; lia. }
    rewrite Hd1, (proj2 (Z.eqb_neq ed 0)) by done. cbn [negb andb]. rewrite E2. cbn [obind].
    eexists _, _. split; [done|]. split; [by destruct (accepted_rule em ed ew et etm), (0 <? savings)|].
    split; [intros [?|?]; [by discriminate N1|]; rewrite N2 by done; by destruct (0 <? savings)|].
    destruct (Z.ltb_spec 0 savings); [|done]. destruct (accepted_rule em ed ew et etm); [|done]. intros _. specialize (L2 eq_refl) as [F2 D2].
    cbn. rewrite (proj2 (Z.eqb_neq savings 0)) by lia. rewrite (proj2 (Z.eqb_neq savings 0)) by lia. rewrite F1, F2. tauto.
  - unfold decodeEndRule. change (U_FAILURE U_ILLEGAL_ARGUMENT_ERROR) with true. cbn [obind]. eexists _, _. split; [done|]. split; [by destruct (0 <? savings)|].
    split; [by destruct (0 <? savings)|]. by destruct (0 <? savings).
Qed.

(** A zone with daylight time, whose rules were made by a search, and which got a
    new ID then. *)
Definition ruled_zone : option SimpleTimeZone :=
  let! '(z, _) := new_rules false [0x41] (-18000000) 2 2 1 7200000 0 10 (-15) (-1) 7200000 0 3600000 U_ZERO_ERROR in Some z.
Definition searched_zone : option SimpleTimeZone :=
  let! z := ruled_zone in let! '(_, _, z) := getNextTransition z (of_int 1467331200000) false a_transition in Some z.
Definition renamed_zone : option SimpleTimeZone := let! z := searched_zone in Some (setID z [0x42]).

Lemma cache_unobservable_witness :
  exists z ID, renamed_zone = Some z /\ z.(transitionRulesInitialized) = true /\ z.(useDaylight) = true /\ reachable true z /\
  let fresh := forget (setID z ID) in
  (forall base inclusive tr,
    (let! '(found, tr', _) := getNextTransition z base inclusive tr in Some (found, tr')) =
    (let! '(found, tr', _) := getNextTransition fresh base inclusive tr in Some (found, tr'))) /\
  (forall base inclusive tr,
    (let! '(found, tr', _) := getPreviousTransition z base inclusive tr in Some (found, tr')) =
    (let! '(found, tr', _) := getPreviousTransition fresh base inclusive tr in Some (found, tr'))) /\
  (forall count,
    (let! '(out, _, ec) := getTimeZoneRules z count U_ZERO_ERROR in Some (out, ec)) =
    (let! '(out, _, ec) := getTimeZoneRules fresh count U_ZERO_ERROR in Some (out, ec))).
Proof.
  destruct ruled_zone as [z0|] eqn:E0; [|exfalso; revert E0; by vm_compute].
  destruct searched_zone as [z1|] eqn:E1; [|exfalso; revert E1; by vm_compute].
  assert (H1 : reachable false z1).
  { apply obind_inv in E1 as (z & E & F). rewrite E0 in E. injection E as <-. apply obind_inv in F as ([[f t] zf] & F & G). injection G as <-.
    apply obind_inv in E0 as ([zn ec] & E & G). injection G as <-. exact (reach_step _ _ _ (reach_rules _ _ _ _ _ _ _ _ _ _ _ _ _ _ _ _ _ E) (step_next _ _ _ _ _ _ _ F)). }
  assert (H2 : reachable true (setID z1 [0x42])) by (by eapply reach_id).
  assert (Hz : renamed_zone = Some (setID z1 [0x42])) by (unfold renamed_zone; by rewrite E1).
  assert (Hb : (let! z := renamed_zone in Some (z.(transitionRulesInitialized) && z.(useDaylight))) = Some true) by (by vm_compute).
  rewrite Hz in Hb. injection Hb as Hb. apply andb_true_iff in Hb as [Hb1 Hb2].
  destruct (cache_unobservable true (setID z1 [0x42]) H2) as (ID & _ & H). exists (setID z1 [0x42]), ID.
  split; [exact Hz|split; [exact Hb1|split; [exact Hb2|split; [exact H2|exact H]]]].
Defined.

Lemma new_rules_decoded_witness :
  (-128 <= 2 <= 127) /\ (-128 <= 1 <= 127) /\ (-128 <= -15 <= 127) /\ (-128 <= -1 <= 127) /\ 2 <> 0 /\ -15 <> 0 /\
  exists z,
    new_rules false [] (-18000000) 2 2 1 7200000 0 10 (-15) (-1) 7200000 0 3600000 U_ZERO_ERROR = Some (z, U_ZERO_ERROR) /\
    z.(useDaylight) = true /\ z.(rawOffset) = -18000000 /\ z.(dstSavings) = 3600000 /\
    (z.(startDay), z.(startDayOfWeek), z.(startMode)) = (2, 1, DOW_IN_MONTH_MODE) /\
    (z.(endDay), z.(endDayOfWeek), z.(endMode)) = (15, 1, DOW_LE_DOM_MODE).
Proof.
  assert (H1 : -128 <= 2 <= 127) by lia. assert (H2 : -128 <= 1 <= 127) by lia. assert (H3 : -128 <= -15 <= 127) by lia.
  assert (H4 : -128 <= -1 <= 127) by lia. assert (H5 : 2 <> 0) by lia. assert (H6 : -15 <> 0) by lia.
  split; [exact H1|split; [exact H2|split; [exact H3|split; [exact H4|split; [exact H5|split; [exact H6|]]]]]].
  destruct (new_rules_decoded false [] (-18000000) 2 2 1 7200000 0 10 (-15) (-1) 7200000 0 3600000 H1 H2 H3 H4 H5 H6)
    as (z & ec & E & Hec & _ & H).
  assert (H0 : ec = U_ZERO_ERROR) by (rewrite Hec; vm_compute; reflexivity). rewrite H0 in E. exists z. split; [exact E|].
  destruct (H H0) as (Hu & Hr & Hs & Fs & Fe & _). injection Fs as _ _ _ F1 F2 F3. injection Fe as _ _ _ G1 G2 G3.
  split; [exact Hu|split; [exact Hr|split; [exact Hs|]]]. rewrite F1, F2, F3, G1, G2, G3. split; vm_compute; reflexivity.
Defined.

End SimpleTimeZoneState.
