(* ===== verification/SimpleTimeZoneCalendar.v ===== *)
(** * Calendars with a SimpleTimeZone

    A zone with yearly rules gives the calendars what they rely on: away from its
    changes, the offset of a time is found again from the local time. *)
From S2P Require Import Prelude Int32 Double Grego Calendar CalendarSystem CECalendar CopticCalendar CalendarFields CalendarDays CalendarTime TimeZoneRules SimpleTimeZone SimpleTimeZoneOffset SimpleTimeZoneTransitions.
Local Open Scope Z_scope.

Module SimpleTimeZoneCalendar.
Import Grego Gregorian GregoFacts TimeZoneRules RuleDays SimpleTimeZone SimpleTimeZoneOffset.

(** Daylight saving time is in effect, or not, at the local standard time [x]. *)
Definition daylight_is (z : SimpleTimeZone) (x : Z) (dst : bool) : Prop :=
  exists y, zone_ok z y /\ ms_year y /\ in_year y x /\ in_daylight z y x = dst.

Lemma savings_is z x dst : daylight_is z x dst ->
  savings_at z (of_int x) U_ZERO_ERROR = Some (if dst then z.(dstSavings) else 0, U_ZERO_ERROR) /\
  Z.abs x < 2 ^ 52 /\ Z.abs z.(rawOffset) <= 86400000 /\ 0 < z.(dstSavings) <= 86400000.
Proof.
  intros (y & Hz & Hy & Hx & <-). split; [by apply savings_at_spec|]. split; [by apply (in_year_bound y)|]. by destruct Hz.
Qed.

(** The zone has the same savings at the time, and earlier and later by the
    savings: the local time is neither skipped nor repeated. *)
Lemma zone_regular_time z t dst :
  let x := t + z.(rawOffset) in
  daylight_is z x dst -> daylight_is z (x - z.(dstSavings)) dst -> daylight_is z (x + z.(dstSavings)) dst ->
  regular_time (Z0 := zone z) t z.(rawOffset) (if dst then z.(dstSavings) else 0).
Proof.
  intros x H0 Hm Hp. apply savings_is in H0 as (E0 & B0 & Hr & Hs), Hm as (Em & Bm & _), Hp as (Ep & Bp & _). constructor.
  - cbn. unfold getOffset. change (U_FAILURE U_ZERO_ERROR) with false. cbv iota. rewrite dadd_int by lia. fold x. by rewrite E0.
  - unfold is_int32, INT32_MIN, INT32_MAX. destruct dst; lia.
  - intros btz a b [= <-]. cbn. exists z.(rawOffset), (if dst then z.(dstSavings) else 0). split; [|done].
    unfold getOffsetFromLocal. change (U_FAILURE U_ZERO_ERROR) with false. cbv iota. destruct dst.
    + replace (t + (rawOffset z + dstSavings z)) with (x + dstSavings z) by lia. rewrite Ep. cbn [obind]. change (U_FAILURE U_ZERO_ERROR) with false. cbv iota zeta.
      rewrite dsub_int by lia. replace (x + dstSavings z - dstSavings z) with x by lia. rewrite E0. by case_match.
    + replace (t + (rawOffset z + 0)) with x by lia. rewrite E0. cbn [obind]. change (U_FAILURE U_ZERO_ERROR) with false. cbv iota zeta.
      rewrite dsub_int by lia. rewrite Em. by case_match.
  - intros [=].
  - intros [=].
Qed.

Section Claims.
Context {C : CalendarSystem} {L : MonthLayout} {lo hi : Z}.
Context {I : Implements C L lo hi} {B : WeekBounds L lo hi}.
Context (repeated skipped : UCalendarWallTimeOption).

(** C9: a calendar with a zone of yearly rules, at a time within 2^51 ms whose
    local day is among the years of the calendar system, and such that daylight
    saving time is in effect (or not) at the time, and earlier and later by the
    savings, shows the fields of the local day and time of the day, with the
    savings when daylight saving time is in effect; it finds the time again from
    them.  In the years of these three times the zone has the conditions of C5
    ([zone_ok] in [daylight_is]: decoded and steady rules in their months); the
    settings of the week are valid ([weeks_ok]). *)
Theorem zone_time_roundtrip (c : Calendar) (z : SimpleTimeZone) (t : Z) (dst : bool) :
  weeks_ok c -> Z.abs t < 2 ^ 51 ->
  let x := t + z.(rawOffset) in
  let savings := if dst then z.(dstSavings) else 0 in
  daylight_is z x dst -> daylight_is z (x - z.(dstSavings)) dst -> daylight_is z (x + z.(dstSavings)) dst ->
  start (lo + 1) 0 < local_day t z.(rawOffset) savings <= start (hi - 1) 0 ->
  let c0 := at_time c t in
  exists c1 y m d yw,
    (forall field, get (Z0 := zone z) repeated skipped c0 field U_ZERO_ERROR = Some (c1.(fFields) field, c1, U_ZERO_ERROR)) /\
    date_computed c0 c1 (local_day t z.(rawOffset) savings) y m d yw /\
    time_fields c1 (local_millis t z.(rawOffset) savings) z.(rawOffset) savings /\
    exists c2, computeTime (Z0 := zone z) repeated skipped c1 U_ZERO_ERROR = Some (c2, U_ZERO_ERROR) /\ c2.(fTime) = of_int t.
Proof. intros Hc Ht x savings H0 Hm Hp Hday. apply time_found; [done|done|by apply zone_regular_time|done]. Qed.
End Claims.

(** 1 July 2016 on the Coptic calendar, in summer *)
Lemma zone_time_roundtrip_witness :
  let c := calendar_with [] in
  let z := sample_zone in
  let t := 1467331200000 in
  weeks_ok c /\ Z.abs t < 2 ^ 51 /\
  daylight_is z (t + z.(rawOffset)) true /\ daylight_is z (t + z.(rawOffset) - z.(dstSavings)) true /\
  daylight_is z (t + z.(rawOffset) + z.(dstSavings)) true /\
  @start coptic_layout (CEFacts.lo + 1) 0 < local_day t z.(rawOffset) z.(dstSavings) <= @start coptic_layout (CEFacts.hi - 1) 0 /\
  let c0 := at_time c t in
  exists c1 y m d yw,
    (forall field, get (C := CopticCalendar.system) (Z0 := zone z) UCAL_WALLTIME_LAST UCAL_WALLTIME_LAST c0 field U_ZERO_ERROR =
       Some (c1.(fFields) field, c1, U_ZERO_ERROR)) /\
    date_computed (L := coptic_layout) c0 c1 (local_day t z.(rawOffset) z.(dstSavings)) y m d yw /\
    time_fields c1 (local_millis t z.(rawOffset) z.(dstSavings)) z.(rawOffset) z.(dstSavings) /\
    exists c2, computeTime (C := CopticCalendar.system) (Z0 := zone z) UCAL_WALLTIME_LAST UCAL_WALLTIME_LAST c1 U_ZERO_ERROR =
      Some (c2, U_ZERO_ERROR) /\ c2.(fTime) = of_int t.
Proof.
  intros c z t.
  assert (H1 : weeks_ok c) by (vm_compute; intuition discriminate).
  assert (H2 : Z.abs t < 2 ^ 51) by (vm_compute; done).
  assert (Hd : forall x, month_start 2016 0 * 86400000 <= x < month_start 2017 0 * 86400000 -> in_daylight z 2016 x = true -> daylight_is z x true)
    by (intros x Hx Hdl; exists 2016; split; [exact sample_zone_ok|split; [unfold ms_year; lia|split; [exact Hx|exact Hdl]]]).
  assert (H3 : daylight_is z (t + z.(rawOffset)) true) by (apply Hd; vm_compute; intuition discriminate).
  assert (H4 : daylight_is z (t + z.(rawOffset) - z.(dstSavings)) true) by (apply Hd; vm_compute; intuition discriminate).
  assert (H5 : daylight_is z (t + z.(rawOffset) + z.(dstSavings)) true) by (apply Hd; vm_compute; intuition discriminate).
  assert (H6 : @start coptic_layout (CEFacts.lo + 1) 0 < local_day t z.(rawOffset) z.(dstSavings) <= @start coptic_layout (CEFacts.hi - 1) 0)
    by (vm_compute; intuition discriminate).
  split; [exact H1|split; [exact H2|split; [exact H3|split; [exact H4|split; [exact H5|split; [exact H6|]]]]]].
  exact (zone_time_roundtrip (I := CopticCalendar.coptic_implements) (B := coptic_weeks) UCAL_WALLTIME_LAST
    UCAL_WALLTIME_LAST c z t true H1 H2 H3 H4 H5 H6).
Defined.

End SimpleTimeZoneCalendar.
