(* ===== verification/Utf8.v ===== *)
(** * UTF-8: the macros of src/common/unicode/utf8.h and utf_impl.c

    A UTF-8 string is the list of its bytes, which need not be well-formed.  The
    reference is [decode]: a legal sequence stands for its code point; anything
    else is an error that takes the lead byte and the trail bytes after it, at
    most as many as the lead byte announces. *)
From S2P Require Import Prelude Int32 Utf16.
Local Open Scope Z_scope.

(** ** Macros *)

Definition U8_COUNT_TRAIL_BYTES (leadByte : Z) : Z :=
  let b := uint8 leadByte in
  if b <? 0xf0 then Z.b2z (b >=? 0xc0) + Z.b2z (b >=? 0xe0)
  else if b <? 0xfe then 3 + Z.b2z (b >=? 0xf8) + Z.b2z (b >=? 0xfc) else 0.

Definition U8_MASK_LEAD_BYTE (leadByte countTrailBytes : Z) : Z := Z.land leadByte (Z.shiftl 1 (6 - countTrailBytes) - 1).
Definition U8_IS_SINGLE (c : Z) : bool := Z.land c 0x80 =? 0.
Definition U8_IS_LEAD (c : Z) : bool := uint8 (c - 0xc0) <? 0x3e.
Definition U8_IS_TRAIL (c : Z) : bool := Z.land c 0xc0 =? 0x80.

Definition U8_LENGTH (c : Z) : Z :=
  let c := uint32 c in
  if c <=? 0x7f then 1
  else if c <=? 0x7ff then 2
  else if c <=? 0xd7ff then 3
  else if (c <=? 0xdfff) || (c >? 0x10ffff) then 0
  else if c <=? 0xffff then 3 else 4.

Definition U_SENTINEL : Z := -1.
Definition UTF8_ERROR_VALUE_1 : Z := 0x15.
Definition UTF8_ERROR_VALUE_2 : Z := 0x9f.
Definition UTF_ERROR_VALUE : Z := 0xffff.

Definition U_IS_UNICODE_NONCHAR (c : Z) : bool :=
  (c >=? 0xfdd0) && ((uint32 c <=? 0xfdef) || (Z.land c 0xfffe =? 0xfffe)) && (uint32 c <=? 0x10ffff).

(** ** utf_impl.c *)

Definition utf8_minLegal : list Z := [0; 0x80; 0x800; 0x10000].
Definition utf8_errorValue : list Z := [UTF8_ERROR_VALUE_1; UTF8_ERROR_VALUE_2; UTF_ERROR_VALUE; 0x10ffff; 0x3ffffff; 0x7fffffff].

Definition errorValue (count strict : Z) : option Z :=
  if strict >=? 0 then aget utf8_errorValue count
  else if strict =? -3 then Some 0xfffd else Some U_SENTINEL.

(** [trail=s[i]-0x80;] *)
Definition trail_at (s : list Z) (i : Z) : option Z := b ← aget s i; Some (uint8 (b - 0x80)).

(** The loop that skips trail bytes up to the end, at most [count]. *)
Fixpoint skip_trails (count : nat) (s : list Z) (i : Z) : option Z :=
  match count with
  | O => Some i
  | S count' => b ← aget s i; if U8_IS_TRAIL b then skip_trails count' s (i + 1) else Some i
  end.

(** The cases 1, 2 and 3 of the switch, each of which goes on with the one before:
    [Some (Some _)] returns, [Some None] breaks. *)
Definition safe_case1 (s : list Z) (i c count strict : Z) : option (option (Z * Z)) :=
  trail ← trail_at s i;
  let c := Z.lor (Z.shiftl c 6) trail in
  if trail >? 0x3f then Some None
  else
    minimum ← aget utf8_minLegal count;
    Some (if (c >=? minimum) && ((strict <=? 0) || negb (U_IS_UNICODE_NONCHAR c)) then Some (c, i + 1) else None).

Definition safe_case2 (s : list Z) (i c count strict : Z) : option (option (Z * Z)) :=
  trail ← trail_at s i;
  let c := Z.lor (Z.shiftl c 6) trail in
  if ((Z.land c 0xffe0 =? 0x360) && negb (strict =? -2)) || (trail >? 0x3f) then Some None
  else safe_case1 s (i + 1) c count strict.

Definition safe_case3 (s : list Z) (i c count strict : Z) : option (option (Z * Z)) :=
  trail ← trail_at s i;
  let c := Z.lor (Z.shiftl c 6) trail in
  if (c >=? 0x110) || (trail >? 0x3f) then Some None
  else safe_case2 s (i + 1) c count strict.

(** The code point after the lead byte [c], and the index after it.  The sum
    [i+count] comes first, so the later increments of [i] do not overflow. *)
Definition utf8_nextCharSafeBody (s : list Z) (i length c strict : Z) : option (Z * Z) :=
  let count := U8_COUNT_TRAIL_BYTES c in
  let! last := i +! count in
  '(r, count) ←
    (if (last <=? length) || (length <? 0) then
       let c := U8_MASK_LEAD_BYTE c count in
       r ← (if count =? 3 then safe_case3 s i c count strict
            else if count =? 2 then safe_case2 s i c count strict
            else if count =? 1 then safe_case1 s i c count strict else Some None);
       Some (r, count)
     else Some (None, uint8 (length - i)));
  match r with
  | Some r => Some r
  | None =>
      i' ← skip_trails (Z.to_nat count) s i;
      c ← errorValue (i' - i) strict;
      Some (c, i')
  end.

(** [U8_NEXT] and [U8_NEXT_OR_FFFD], which differ in [strict]. *)
Definition U8_NEXT_strict (s : list Z) (i length strict : Z) : option (Z * Z) :=
  c ← aget s i;
  let! i := i +! 1 in
  if c >=? 0x80 then
    three ← (if (0xe0 <? c) && (c <=? 0xec) then
               let! next := i +! 1 in
               if (next <? length) || (length <? 0) then
                 t1 ← trail_at s i;
                 if t1 <=? 0x3f then t2 ← trail_at s next; Some (if t2 <=? 0x3f then Some (t1, t2) else None) else Some None
               else Some None
             else Some None);
    match three with
    | Some (t1, t2) => let! i := i +! 2 in Some (uint16 (Z.lor (Z.lor (Z.shiftl c 12) (Z.shiftl t1 6)) t2), i)
    | None =>
        two ← (if (c <? 0xe0) && (c >=? 0xc2) && negb (i =? length) then t1 ← trail_at s i; Some (if t1 <=? 0x3f then Some t1 else None)
               else Some None);
        match two with
        | Some t1 => let! i := i +! 1 in Some (Z.lor (Z.shiftl (Z.land c 0x1f) 6) t1, i)
        | None => utf8_nextCharSafeBody s i length c strict
        end
    end
  else Some (c, i).

Definition U8_NEXT (s : list Z) (i length : Z) : option (Z * Z) := U8_NEXT_strict s i length (-1).
Definition U8_NEXT_OR_FFFD (s : list Z) (i length : Z) : option (Z * Z) := U8_NEXT_strict s i length (-3).

(** ** The reference decoder *)

Definition is_trail (b : Z) : bool := (0x80 <=? b) && (b <? 0xc0).

(** The number of trail bytes that a lead byte announces. *)
Definition trail_count (b : Z) : nat :=
  if b <? 0xc0 then 0 else if b <? 0xe0 then 1 else if b <? 0xf0 then 2 else if b <? 0xf8 then 3
  else if b <? 0xfc then 4 else if b <? 0xfe then 5 else 0.

(** The value of a sequence with one to three trail bytes, and the least legal value. *)
Definition sequence_value (b : Z) (ts : list Z) : Z :=
  match ts with
  | [t1] => (b - 0xc0) * 64 + (t1 - 0x80)
  | [t1; t2] => (b - 0xe0) * 4096 + (t1 - 0x80) * 64 + (t2 - 0x80)
  | [t1; t2; t3] => (b - 0xf0) * 262144 + (t1 - 0x80) * 4096 + (t2 - 0x80) * 64 + (t3 - 0x80)
  | _ => -1
  end.
Definition least_value (n : nat) : Z := match n with 1%nat => 0x80 | 2%nat => 0x800 | _ => 0x10000 end.

Fixpoint leading_trails (n : nat) (s : list Z) : nat :=
  match n, s with
  | S n', t :: s' => if is_trail t then S (leading_trails n' s') else 0
  | _, _ => 0
  end.

(** The first code point of [b :: r], or an error, and the number of bytes after [b]. *)
Definition first_char (b : Z) (r : list Z) : option Z * nat :=
  if b <? 0x80 then (Some b, 0%nat)
  else
    let n := trail_count b in
    let ts := take n r in
    let c := sequence_value b ts in
    if (List.length ts =? n)%nat && forallb is_trail ts && (least_value n <=? c) && bool_decide (is_scalar c) then (Some c, n)
    else (None, leading_trails n r).

Fixpoint decode_fuel (fuel : nat) (s : list Z) : list (option Z) :=
  match fuel, s with
  | S fuel', b :: r => let '(c, k) := first_char b r in c :: decode_fuel fuel' (drop k r)
  | _, _ => []
  end.

Definition decode (s : list Z) : list (option Z) := decode_fuel (List.length s) s.

(** The bytes of a scalar value. *)
Definition encode (c : Z) : list Z :=
  if c <? 0x80 then [c]
  else if c <? 0x800 then [0xc0 + c / 64; 0x80 + c mod 64]
  else if c <? 0x10000 then [0xe0 + c / 4096; 0x80 + c / 64 mod 64; 0x80 + c mod 64]
  else [0xf0 + c / 262144; 0x80 + c / 4096 mod 64; 0x80 + c / 64 mod 64; 0x80 + c mod 64].

Definition utf8 (s : list Z) : list Z := concat (map encode s).

Lemma decode_fuel_enough n m s : (List.length s <= n)%nat -> (List.length s <= m)%nat -> decode_fuel n s = decode_fuel m s.
Proof.
  revert m s. induction n as [|n IH]; intros m s Hn Hm; destruct s as [|b r]; try (by destruct m); [simpl in Hn; lia|].
  destruct m as [|m]; [simpl in Hm; lia|]. cbn [decode_fuel List.length] in *. destruct (first_char b r) as [c k].
  f_equal. apply IH; rewrite length_drop; lia.
Qed.

Lemma decode_nil : decode [] = [].
Proof. done. Qed.

Lemma decode_cons b r : decode (b :: r) = let '(c, k) := first_char b r in c :: decode (drop k r).
Proof.
  unfold decode. cbn [List.length decode_fuel]. destruct (first_char b r) as [c k]. f_equal. apply decode_fuel_enough; [|done].
  rewrite length_drop. lia.
Qed.

