(* ===== verification/Utf8Decoding.v ===== *)
(** * The UTF-8 macros against the reference decoder *)
From S2P Require Import Prelude Int32 Utf16 Utf8.
Local Open Scope Z_scope.

Definition is_bytes (s : list Z) : Prop := Forall is_uint8 s.

(** ** Bytes *)

Lemma U8_COUNT_TRAIL_BYTES_spec b : is_uint8 b -> U8_COUNT_TRAIL_BYTES b = Z.of_nat (trail_count b).
Proof.
  intros Hb. apply Z.eqb_eq. revert b Hb.
  refine (all_below_spec 256 (fun b => U8_COUNT_TRAIL_BYTES b =? Z.of_nat (trail_count b)) _). vm_compute. reflexivity.
Qed.

Lemma U8_IS_TRAIL_spec b : is_uint8 b -> U8_IS_TRAIL b = is_trail b.
Proof.
  intros Hb. apply eqb_prop. revert b Hb.
  refine (all_below_spec 256 (fun b => Bool.eqb (U8_IS_TRAIL b) (is_trail b)) _). vm_compute. reflexivity.
Qed.

Lemma trail_small b : is_uint8 b -> (uint8 (b - 0x80) >? 0x3f) = negb (is_trail b).
Proof.
  intros Hb. apply eqb_prop. revert b Hb.
  refine (all_below_spec 256 (fun b => Bool.eqb (uint8 (b - 0x80) >? 0x3f) (negb (is_trail b))) _). vm_compute. reflexivity.
Qed.

Lemma trail_value b : is_trail b = true -> uint8 (b - 0x80) = b - 0x80 /\ 0 <= b - 0x80 < 64.
Proof. unfold is_trail, uint8. rewrite andb_true_iff, Z.leb_le, Z.ltb_lt. intros. rewrite Z.mod_small; lia. Qed.

Lemma shift6 c t : 0 <= t < 64 -> Z.lor (Z.shiftl c 6) t = c * 64 + t.
Proof. intros. rewrite Z.shiftl_mul_pow2 by lia. by rewrite (lor_fields c t 6) by (cbn; lia). Qed.

Lemma three_bits b t1 t2 : 0 <= t1 < 64 -> 0 <= t2 < 64 -> Z.lor (Z.lor (Z.shiftl b 12) (Z.shiftl t1 6)) t2 = b * 4096 + t1 * 64 + t2.
Proof.
  intros H1 H2. replace (Z.lor (Z.shiftl b 12) (Z.shiftl t1 6)) with (Z.shiftl (b * 64 + t1) 6).
  - rewrite shift6 by done. lia.
  - rewrite !Z.shiftl_mul_pow2 by lia. change (2 ^ 12) with 4096. change (2 ^ 6) with 64.
    replace (b * 4096) with (b * 2 ^ 12) by lia. rewrite (lor_fields b (t1 * 64) 12) by (cbn; lia). lia.
Qed.

Lemma mask_lead b n : (n <= 3)%nat -> U8_MASK_LEAD_BYTE b (Z.of_nat n) = b mod 2 ^ (6 - Z.of_nat n).
Proof. intros Hn. unfold U8_MASK_LEAD_BYTE. rewrite Z.shiftl_1_l. apply land_low_mask. lia. Qed.

Lemma trail_count_cases b : is_uint8 b -> 0x80 <= b ->
  (trail_count b = 0%nat) \/ (trail_count b = 1%nat /\ 0xc0 <= b < 0xe0) \/ (trail_count b = 2%nat /\ 0xe0 <= b < 0xf0) \/
  (trail_count b = 3%nat /\ 0xf0 <= b < 0xf8) \/ (4 <= trail_count b <= 5)%nat.
Proof. unfold is_uint8, trail_count. intros. repeat case_match; rewrite ?Z.ltb_lt, ?Z.ltb_ge in *; lia. Qed.

Lemma trail_count_range b : (trail_count b <= 5)%nat.
Proof. unfold trail_count. repeat case_match; lia. Qed.

Lemma leading_trails_le n s : (leading_trails n s <= n)%nat /\ (leading_trails n s <= List.length s)%nat.
Proof.
  revert s. induction n as [|n IH]; intros s; [split; cbn; lia|]. destruct s as [|t s]; cbn; [lia|].
  destruct (is_trail t); [|lia]. specialize (IH s). lia.
Qed.

(** Skipping reads to the first byte that is no trail byte. *)
Lemma skip_trails_spec n s : forall i : nat,
  is_bytes s -> (n <= List.length (drop i s))%nat \/ (leading_trails n (drop i s) < List.length (drop i s))%nat ->
  skip_trails n s (Z.of_nat i) = Some (Z.of_nat (i + leading_trails n (drop i s))).
Proof.
  induction n as [|n IH]; intros i Hs Hn; [cbn; f_equal; lia|]. cbn [skip_trails].
  destruct (drop i s) as [|t r] eqn:Hd; [cbn in Hn; lia|]. cbn [leading_trails List.length] in *.
  assert (Ht : s !! i = Some t) by (rewrite <- (Nat.add_0_r i), <- lookup_drop, Hd; done).
  rewrite aget_nat, Ht. cbn [mbind option_bind]. rewrite U8_IS_TRAIL_spec by (by eapply Forall_lookup_1).
  destruct (is_trail t) eqn:Htt; [|do 2 f_equal; lia].
  assert (Hd' : drop (S i) s = r) by (replace (S i) with (i + 1)%nat by lia; by rewrite <- drop_drop, Hd).
  replace (Z.of_nat i + 1) with (Z.of_nat (S i)) by lia. rewrite IH, Hd'; [do 2 f_equal; lia|done|].
  rewrite Hd'. lia.
Qed.

(** ** Encoding and decoding *)

Lemma is_trail_low x : is_trail (0x80 + x mod 64) = true.
Proof. unfold is_trail. rewrite andb_true_iff, Z.leb_le, Z.ltb_lt. dlia. Qed.

Lemma scalar_range c : is_scalar c -> 0 <= c < 0x110000.
Proof. intros [Hc _]. exact Hc. Qed.

(** The bytes of a scalar value are one legal sequence. *)
Lemma encode_first c r : is_scalar c ->
  exists b ts, encode c = b :: ts /\ first_char b (ts ++ r) = (Some c, List.length ts).
Proof.
  intros Hc. pose proof (scalar_range c Hc) as Hr. unfold encode, first_char.
  destruct (Z.ltb_spec c 0x80); [|destruct (Z.ltb_spec c 0x800); [|destruct (Z.ltb_spec c 0x10000)]].
  - exists c, []. rewrite (proj2 (Z.ltb_lt _ _)) by lia. done.
  - eexists _, _. split; [done|]. rewrite (proj2 (Z.ltb_ge _ 0x80)) by dlia.
    replace (trail_count _) with 1%nat by (unfold trail_count; rewrite (proj2 (Z.ltb_ge _ 0xc0)), (proj2 (Z.ltb_lt _ 0xe0)) by dlia; done).
    cbn [app take List.length forallb sequence_value least_value]. rewrite !is_trail_low.
    replace ((0xc0 + c / 64 - 0xc0) * 64 + (0x80 + c mod 64 - 0x80)) with c by dlia.
    rewrite (proj2 (Z.leb_le _ _)), bool_decide_eq_true_2 by (done || lia). done.
  - eexists _, _. split; [done|]. rewrite (proj2 (Z.ltb_ge _ 0x80)) by dlia.
    replace (trail_count _) with 2%nat by (unfold trail_count; rewrite (proj2 (Z.ltb_ge _ 0xc0)), (proj2 (Z.ltb_ge _ 0xe0)), (proj2 (Z.ltb_lt _ 0xf0)) by dlia; done).
    cbn [app take List.length forallb sequence_value least_value]. rewrite !is_trail_low.
    replace ((0xe0 + c / 4096 - 0xe0) * 4096 + (0x80 + c / 64 mod 64 - 0x80) * 64 + (0x80 + c mod 64 - 0x80)) with c by dlia.
    rewrite (proj2 (Z.leb_le _ _)), bool_decide_eq_true_2 by (done || lia). done.
  - eexists _, _. split; [done|]. rewrite (proj2 (Z.ltb_ge _ 0x80)) by dlia.
    replace (trail_count _) with 3%nat by (unfold trail_count; rewrite (proj2 (Z.ltb_ge _ 0xc0)), (proj2 (Z.ltb_ge _ 0xe0)), (proj2 (Z.ltb_ge _ 0xf0)), (proj2 (Z.ltb_lt _ 0xf8)) by dlia; done).
    cbn [app take List.length forallb sequence_value least_value]. rewrite !is_trail_low.
    replace ((0xf0 + c / 262144 - 0xf0) * 262144 + (0x80 + c / 4096 mod 64 - 0x80) * 4096 + (0x80 + c / 64 mod 64 - 0x80) * 64 + (0x80 + c mod 64 - 0x80)) with c by dlia.
    rewrite (proj2 (Z.leb_le _ _)), bool_decide_eq_true_2 by (done || lia). done.
Qed.

Lemma decode_encode c r : is_scalar c -> decode (encode c ++ r) = Some c :: decode r.
Proof.
  intros Hc. destruct (encode_first c r Hc) as (b & ts & -> & E). cbn [app]. by rewrite decode_cons, E, drop_app_length.
Qed.

Lemma decode_utf8 t r : Forall is_scalar t -> decode (utf8 t ++ r) = map Some t ++ decode r.
Proof.
  induction 1 as [|c t Hc Ht IH]; [done|]. unfold utf8 in *. cbn [map concat app]. rewrite <- app_assoc, decode_encode by done. by rewrite IH.
Qed.

(** A code point is only read from its bytes. *)
Lemma first_char_encode b r c k : is_uint8 b -> first_char b r = (Some c, k) -> is_scalar c /\ b :: take k r = encode c.
Proof.
  intros Hb. unfold first_char. destruct (Z.ltb_spec b 0x80) as [Hlt|Hge].
  { intros [= <- <-]. unfold is_uint8 in Hb. unfold is_scalar, is_code_point. split; [lia|]. unfold encode. by rewrite (proj2 (Z.ltb_lt _ _)). }
  destruct (_ && _) eqn:E; [|done]. intros [= <- <-]. rewrite !andb_true_iff, Nat.eqb_eq, Z.leb_le, bool_decide_eq_true in E.
  destruct E as [[[El Et] Em] Ec]. split; [done|]. pose proof (scalar_range _ Ec) as Hr. unfold encode.
  assert (Htv : forall t, is_trail t = true -> 0x80 <= t < 0xc0) by (intros t; unfold is_trail; rewrite andb_true_iff, Z.leb_le, Z.ltb_lt; lia).
  destruct (trail_count_cases b Hb Hge) as [Hn|[[Hn Hbr]|[[Hn Hbr]|[[Hn Hbr]|Hn]]]].
  - rewrite Hn in *. destruct (take 0 r); [cbn in Hr; lia|done].
  - rewrite Hn in *. destruct (take 1 r) as [|t1 [|]]; try done. cbn [sequence_value least_value forallb] in *. rewrite andb_true_r in Et.
    apply Htv in Et. rewrite (proj2 (Z.ltb_ge _ 0x80)), (proj2 (Z.ltb_lt _ 0x800)) by lia. f_equal; [dlia|]. f_equal. dlia.
  - rewrite Hn in *. destruct (take 2 r) as [|t1 [|t2 [|]]]; try done. cbn [sequence_value least_value forallb] in *. rewrite andb_true_r, andb_true_iff in Et.
    destruct Et as [E1%Htv E2%Htv]. rewrite (proj2 (Z.ltb_ge _ 0x80)), (proj2 (Z.ltb_ge _ 0x800)), (proj2 (Z.ltb_lt _ 0x10000)) by lia.
    f_equal; [dlia|]. f_equal; [dlia|]. f_equal. dlia.
  - rewrite Hn in *. destruct (take 3 r) as [|t1 [|t2 [|t3 [|]]]]; try done. cbn [sequence_value least_value forallb] in *. rewrite andb_true_r, !andb_true_iff in Et.
    destruct Et as [E1%Htv [E2%Htv E3%Htv]]. rewrite (proj2 (Z.ltb_ge _ 0x80)), (proj2 (Z.ltb_ge _ 0x800)), (proj2 (Z.ltb_ge _ 0x10000)) by lia.
    f_equal; [dlia|]. f_equal; [dlia|]. f_equal; [dlia|]. f_equal. dlia.
  - assert (sequence_value b (take (trail_count b) r) = -1).
    { destruct (take (trail_count b) r) as [|? [|? [|? [|]]]]; try done; cbn in El; lia. }
    lia.
Qed.

(** ** The next code point *)

Section Next.
Context (s : list Z) (i : nat) (b : Z) (r : list Z).
Context (Hs : is_bytes s) (Hd : drop i s = b :: r) (Hb : 0x80 <= b).

Lemma lead_byte : is_uint8 b.
Proof. apply (Forall_lookup_1 is_uint8 s i); [done|]. by rewrite <- (Nat.add_0_r i), <- lookup_drop, Hd. Qed.

Lemma rest_bytes : is_bytes r.
Proof. assert (H : is_bytes (drop i s)) by (by apply Forall_drop). rewrite Hd in H. by inversion H. Qed.

Lemma lead_get : aget s (Z.of_nat i) = Some b.
Proof. by rewrite aget_nat, <- (Nat.add_0_r i), <- lookup_drop, Hd. Qed.

Lemma rest_get j : aget s (Z.of_nat (i + 1 + j)) = r !! j.
Proof. rewrite aget_nat, <- Nat.add_assoc, <- lookup_drop, Hd. done. Qed.

Lemma rest_drop : drop (i + 1) s = r.
Proof. by rewrite <- drop_drop, Hd. Qed.

(** The bytes that are read are there, as when a NUL ends the string. *)
Definition readable : Prop :=
  (trail_count b <= List.length r)%nat \/ (leading_trails (trail_count b) r < List.length r)%nat.

Lemma trail_read j t : r !! j = Some t -> trail_at s (Z.of_nat (i + 1 + j)) = Some (uint8 (t - 0x80)) /\ is_uint8 t.
Proof. intros Ht. unfold trail_at. rewrite rest_get, Ht. split; [done|]. eapply Forall_lookup_1; [apply rest_bytes|done]. Qed.

Lemma scalar_test c : 0 <= c < 0x110000 -> bool_decide (is_scalar c) = negb ((0xd800 <=? c) && (c <? 0xe000)).
Proof.
  intros Hc. unfold is_scalar, is_code_point. case_bool_decide as H; symmetry; rewrite ?negb_true_iff, ?negb_false_iff, ?andb_true_iff, ?andb_false_iff,
    ?Z.leb_le, ?Z.ltb_lt, ?Z.leb_gt, ?Z.ltb_ge; lia.
Qed.

Lemma surrogate_prefix c : 0 <= c < 65536 -> (Z.land c 0xffe0 =? 0x360) = (0x360 <=? c) && (c <? 0x380).
Proof.
  intros Hc. change 0xffe0 with (Z.shiftl (Z.ones 11) 5). rewrite land_high_mask by (cbn; lia). change (2 ^ 5) with 32. zcases; cbn; dlia.
Qed.

Context (strict : Z) (Hstrict : strict = -1 \/ strict = -3).

Lemma strict_facts : (strict =? -2) = false /\ (strict <=? 0) = true /\ (strict >=? 0) = false.
Proof. destruct Hstrict as [-> | ->]; done. Qed.

(** The last step: the value is complete. *)
Lemma safe_case1_spec j c n t :
  r !! j = Some t -> is_trail t = true -> (1 <= n <= 3)%nat ->
  safe_case1 s (Z.of_nat (i + 1 + j)) c (Z.of_nat n) strict =
    Some (if least_value n <=? c * 64 + (t - 0x80) then Some (c * 64 + (t - 0x80), Z.of_nat (i + 2 + j)) else None).
Proof.
  intros Hj Ht Hn. destruct (trail_read j t Hj) as [Hr Hu]. unfold safe_case1. rewrite Hr. cbn [mbind option_bind].
  rewrite trail_small, Ht by done. destruct (trail_value t Ht) as [-> Hv]. rewrite shift6 by done. cbn [negb].
  assert (aget utf8_minLegal (Z.of_nat n) = Some (least_value n)) as -> by (destruct n as [|[|[|[|]]]]; (lia || done)). cbn [mbind option_bind].
  destruct strict_facts as (_ & -> & _). cbn [orb]. rewrite andb_true_r, Z.geb_leb. case_match; [|done]. do 3 f_equal. lia.
Qed.

Lemma safe_case_stop (f : Z -> option (option (Z * Z))) j t :
  r !! j = Some t -> is_trail t = false ->
  (trail ← trail_at s (Z.of_nat (i + 1 + j)); if trail >? 0x3f then Some None else f trail) = Some None.
Proof.
  intros Hj Ht. destruct (trail_read j t Hj) as [-> Hu]. cbn [mbind option_bind]. by rewrite trail_small, Ht by done.
Qed.

Lemma first_char_test n ts :
  trail_count b = n -> take n r = ts ->
  first_char b r = if (List.length ts =? n)%nat && forallb is_trail ts && (least_value n <=? sequence_value b ts) &&
    bool_decide (is_scalar (sequence_value b ts)) then (Some (sequence_value b ts), n) else (None, leading_trails n r).
Proof. intros <- <-. unfold first_char. by rewrite (proj2 (Z.ltb_ge _ _)) by done. Qed.

Lemma not_enough n : readable -> trail_count b = S n -> exists t r', r = t :: r'.
Proof. unfold readable. intros H Hn. rewrite Hn in H. destruct r as [|t r']; [cbn in H; lia|by eexists _, _]. Qed.

(** The switch on the number of trail bytes. *)
Definition safe_switch (c : Z) : option (option (Z * Z)) :=
  let count := Z.of_nat (trail_count b) in
  if count =? 3 then safe_case3 s (Z.of_nat (i + 1)) c count strict
  else if count =? 2 then safe_case2 s (Z.of_nat (i + 1)) c count strict
  else if count =? 1 then safe_case1 s (Z.of_nat (i + 1)) c count strict else Some None.

Definition read_result : option (Z * Z) :=
  match first_char b r with (Some c, k) => Some (c, Z.of_nat (i + 1 + k)) | (None, _) => None end.

Lemma safe_one : readable -> trail_count b = 1%nat -> 0xc0 <= b < 0xe0 -> safe_switch (b mod 32) = Some read_result.
Proof.
  intros Hrd Hn Hbr. unfold safe_switch, read_result. rewrite Hn. change (Z.of_nat 1 =? 3) with false. change (Z.of_nat 1 =? 2) with false. change (Z.of_nat 1 =? 1) with true. cbv iota zeta.
  destruct (not_enough 0 Hrd Hn) as (t & r' & Er). rewrite (first_char_test 1 [t]) by (done || by rewrite Er).
  assert (Hj : r !! 0%nat = Some t) by (by rewrite Er). replace (i + 1)%nat with (i + 1 + 0)%nat by lia.
  cbn [List.length Nat.eqb forallb andb sequence_value]. rewrite andb_true_r. destruct (is_trail t) eqn:Ht; cbn [andb].
  - change 1 with (Z.of_nat 1). rewrite (safe_case1_spec 0 _ 1 t) by (done || lia). destruct (trail_value t Ht) as [_ Hv].
    replace (b mod 32 * 64 + (t - 128)) with ((b - 0xc0) * 64 + (t - 0x80)) by dlia.
    destruct (Z.leb_spec (least_value 1) ((b - 0xc0) * 64 + (t - 0x80))); cbn [andb]; [|done].
    rewrite scalar_test by (cbn in *; lia). rewrite (proj2 (Z.leb_gt 0xd800 _)) by lia. cbn [andb negb]. do 3 f_equal. lia.
  - unfold safe_case1. apply (safe_case_stop _ 0 t Hj Ht).
Qed.

(** The two last steps: the value is complete, and no surrogate. *)
Lemma safe_case2_spec j c n t1 :
  r !! j = Some t1 -> (is_trail t1 = true -> is_Some (r !! S j)) -> (2 <= n <= 3)%nat -> 0 <= c < 0x110 ->
  safe_case2 s (Z.of_nat (i + 1 + j)) c (Z.of_nat n) strict =
    Some (match r !! S j with
          | Some t2 =>
              let v := (c * 64 + (t1 - 0x80)) * 64 + (t2 - 0x80) in
              if is_trail t1 && is_trail t2 && (least_value n <=? v) && bool_decide (is_scalar v) then Some (v, Z.of_nat (i + 3 + j)) else None
          | None => None end).
Proof.
  intros Hj Hnext Hn Hc. unfold safe_case2. destruct (trail_read j t1 Hj) as [-> Hu1]. cbn [mbind option_bind]. rewrite trail_small by done.
  destruct (is_trail t1) eqn:Ht1; cbn [negb andb]; [|rewrite orb_true_r; by destruct (r !! S j)].
  destruct (trail_value t1 Ht1) as [-> Hr1]. rewrite shift6, orb_false_r by done. destruct strict_facts as (-> & _ & _). cbn [negb]. rewrite andb_true_r.
  rewrite surrogate_prefix by dlia. set (m := c * 64 + (t1 - 0x80)). destruct (Hnext eq_refl) as [t2 Hj2]. rewrite Hj2. cbv zeta.
  replace (Z.of_nat (i + 1 + j) + 1) with (Z.of_nat (i + 1 + S j)) by lia. destruct (is_trail t2) eqn:Ht2; cbn [andb].
  - rewrite (safe_case1_spec (S j) m n t2) by (done || lia). destruct (trail_value t2 Ht2) as [_ Hr2]. rewrite scalar_test by (unfold m; lia).
    replace ((0xd800 <=? m * 64 + (t2 - 0x80)) && (m * 64 + (t2 - 0x80) <? 0xe000)) with ((0x360 <=? m) && (m <? 0x380))
      by (apply eq_true_iff_eq; rewrite !andb_true_iff, !Z.leb_le, !Z.ltb_lt; lia).
    replace (i + 2 + S j)%nat with (i + 3 + j)%nat by lia.
    destruct (least_value n <=? m * 64 + (t2 - 0x80)), ((0x360 <=? m) && (m <? 0x380)); done.
  - destruct (_ && _); [done|]. unfold safe_case1. apply (safe_case_stop _ (S j) t2 Hj2 Ht2).
Qed.

Lemma readable_next t1 r' n : readable -> trail_count b = S (S n) -> r = t1 :: r' -> is_trail t1 = true -> exists t2 r'', r' = t2 :: r''.
Proof.
  unfold readable. intros H Hn Er Ht. rewrite Hn, Er in H. destruct r' as [|t2 r'']; [|by eexists _, _].
  cbn [leading_trails List.length] in H. rewrite Ht in H. lia.
Qed.

Lemma safe_two : readable -> trail_count b = 2%nat -> 0xe0 <= b < 0xf0 -> safe_switch (b mod 16) = Some read_result.
Proof.
  intros Hrd Hn Hbr. unfold safe_switch, read_result. rewrite Hn. change (Z.of_nat 2 =? 3) with false. change (Z.of_nat 2 =? 2) with true. cbv iota zeta.
  destruct (not_enough 1 Hrd Hn) as (t1 & r' & Er). replace (i + 1)%nat with (i + 1 + 0)%nat by lia. rewrite (safe_case2_spec 0 _ 2 t1).
  2: by rewrite Er. 2: intros Ht; destruct (readable_next t1 r' 0 Hrd Hn Er Ht) as (t2 & r'' & ->); by rewrite Er. 2: lia. 2: dlia.
  rewrite Er. destruct r' as [|t2 r'']; cbn [lookup list_lookup].
  - rewrite <- Er, (first_char_test 2 [t1]) by (done || by rewrite Er). done.
  - rewrite <- Er, (first_char_test 2 [t1; t2]) by (done || by rewrite Er). cbn [List.length Nat.eqb forallb andb sequence_value]. rewrite andb_true_r.
    replace ((b mod 16 * 64 + (t1 - 0x80)) * 64 + (t2 - 0x80)) with ((b - 0xe0) * 4096 + (t1 - 0x80) * 64 + (t2 - 0x80)) by dlia.
    destruct (_ && _); [|done]. do 3 f_equal. lia.
Qed.

Lemma safe_three : readable -> trail_count b = 3%nat -> 0xf0 <= b < 0xf8 -> safe_switch (b mod 8) = Some read_result.
Proof.
  intros Hrd Hn Hbr. unfold safe_switch, read_result. rewrite Hn. change (Z.of_nat 3 =? 3) with true. cbv iota zeta.
  destruct (not_enough 2 Hrd Hn) as (t1 & r' & Er). assert (Hj : r !! 0%nat = Some t1) by (by rewrite Er).
  replace (i + 1)%nat with (i + 1 + 0)%nat by lia. unfold safe_case3. destruct (trail_read 0 t1 Hj) as [-> Hu1]. cbn [mbind option_bind].
  rewrite trail_small by done. destruct (is_trail t1) eqn:Ht1; cbn [negb].
  2:{ rewrite orb_true_r, (first_char_test 3 (t1 :: take 2 r')) by (done || by rewrite Er). cbn [forallb]. rewrite Ht1. cbn [andb]. by rewrite andb_false_r. }
  destruct (trail_value t1 Ht1) as [-> Hr1]. rewrite shift6, orb_false_r, Z.geb_leb by done. set (m := b mod 8 * 64 + (t1 - 0x80)).
  assert (Hm : m = (b - 0xf0) * 64 + (t1 - 0x80)) by (unfold m; dlia). destruct (readable_next t1 r' 1 Hrd Hn Er Ht1) as (t2 & r'' & ->).
  assert (Hrest : r'' <> [] \/ (is_trail t2 = false)).
  { destruct r'' as [|t3 r3]; [right|by left]. unfold readable in Hrd. rewrite Hn, Er in Hrd. cbn [leading_trails List.length] in Hrd.
    rewrite Ht1 in Hrd. destruct (is_trail t2); [lia|done]. }
  destruct (Z.leb_spec 0x110 m) as [Hbig|Hsmall].
  - destruct r'' as [|t3 r3].
    + rewrite (first_char_test 3 [t1; t2]) by (done || by rewrite Er). done.
    + rewrite (first_char_test 3 [t1; t2; t3]) by (done || by rewrite Er). cbn [List.length Nat.eqb forallb andb sequence_value]. rewrite Ht1, andb_true_r. cbn [andb].
      destruct (is_trail t2) eqn:Ht2; [|done]. destruct (is_trail t3) eqn:Ht3; [|done]. cbn [andb].
      destruct (trail_value t2 Ht2) as [_ Hr2], (trail_value t3 Ht3) as [_ Hr3].
      rewrite bool_decide_eq_false_2, andb_false_r; [done|]. intros Hsc%scalar_range. lia.
  - replace (Z.of_nat (i + 1 + 0) + 1) with (Z.of_nat (i + 1 + 1)) by lia. change 3 with (Z.of_nat 3). rewrite (safe_case2_spec 1 m 3 t2).
    2: by rewrite Er. 2: intros Ht2; rewrite Er; destruct Hrest as [Hr3|Hr3]; [by destruct r''|congruence]. 2: lia. 2: unfold m; dlia.
    rewrite Er. destruct r'' as [|t3 r3]; cbn [lookup list_lookup].
    + rewrite <- Er, (first_char_test 3 [t1; t2]) by (done || by rewrite Er). done.
    + rewrite <- Er, (first_char_test 3 [t1; t2; t3]) by (done || by rewrite Er). cbn [List.length Nat.eqb forallb andb sequence_value]. rewrite Ht1, andb_true_r. cbn [andb].
      replace ((m * 64 + (t2 - 0x80)) * 64 + (t3 - 0x80)) with ((b - 0xf0) * 262144 + (t1 - 0x80) * 4096 + (t2 - 0x80) * 64 + (t3 - 0x80)) by lia.
      destruct (_ && _); [|done]. do 3 f_equal. lia.
Qed.

(** What the functions return for an illegal sequence. *)
Definition error_char : Z := if strict =? -3 then 0xfffd else -1.
Definition next_result : Z * Z :=
  let '(c, k) := first_char b r in (default error_char c, Z.of_nat (i + 1 + k)).

Lemma errorValue_spec n : errorValue n strict = Some error_char.
Proof. unfold errorValue, error_char. destruct strict_facts as (_ & _ & ->). by destruct (strict =? -3). Qed.

Lemma sequence_long ts : (4 <= List.length ts)%nat -> sequence_value b ts = -1.
Proof. destruct ts as [|? [|? [|? [|]]]]; cbn; (lia || done). Qed.

Lemma first_char_none : (trail_count b = 0 \/ 4 <= trail_count b)%nat -> first_char b r = (None, leading_trails (trail_count b) r).
Proof.
  intros Hn. rewrite (first_char_test (trail_count b) (take (trail_count b) r)) by done. destruct (_ && _) eqn:E; [exfalso|done].
  rewrite !andb_true_iff, Nat.eqb_eq, bool_decide_eq_true in E. destruct E as [[[El _] _] Hsc]. apply scalar_range in Hsc.
  destruct Hn as [Hn|Hn]; [rewrite Hn, take_0 in Hsc; unfold sequence_value in Hsc; lia|]. rewrite sequence_long in Hsc by lia. lia.
Qed.

Lemma switch_spec : readable -> safe_switch (U8_MASK_LEAD_BYTE b (Z.of_nat (trail_count b))) = Some read_result.
Proof.
  intros Hrd. destruct (trail_count_cases b lead_byte Hb) as [Hn|[[Hn Hbr]|[[Hn Hbr]|[[Hn Hbr]|Hn]]]].
  2: rewrite Hn, mask_lead by lia; by apply safe_one. 2: rewrite Hn, mask_lead by lia; by apply safe_two. 2: rewrite Hn, mask_lead by lia; by apply safe_three.
  - unfold safe_switch, read_result. rewrite first_char_none by lia. by rewrite Hn.
  - unfold safe_switch, read_result. rewrite first_char_none, !(proj2 (Z.eqb_neq _ _)) by lia. done.
Qed.

Lemma leading_trails_more n m l : (List.length l <= n)%nat -> (List.length l <= m)%nat -> leading_trails n l = leading_trails m l.
Proof.
  revert m l. induction n as [|n IH]; intros m l Hn Hm; destruct l as [|t l]; try (by destruct m); cbn in *; [lia|].
  destruct m as [|m]; [lia|]. cbn. destruct (is_trail t); [|done]. f_equal. apply IH; lia.
Qed.

Lemma first_char_error : read_result = None -> first_char b r = (None, leading_trails (trail_count b) r).
Proof.
  unfold read_result, first_char. rewrite (proj2 (Z.ltb_ge _ _)) by done. by destruct (_ && _).
Qed.

Lemma length_rest : (List.length s = i + 1 + List.length r)%nat.
Proof. pose proof (f_equal List.length Hd) as H. rewrite length_drop in H. cbn in H. lia. Qed.

(** *** [utf8_nextCharSafeBody] *)
Lemma utf8_nextCharSafeBody_spec length : Z.of_nat i + 6 <= INT32_MAX ->
  length = Z.of_nat (List.length s) \/ (length < 0 /\ readable) ->
  utf8_nextCharSafeBody s (Z.of_nat (i + 1)) length b strict = Some next_result.
Proof.
  intros Hmax Hlen. pose proof length_rest as Hl. pose proof lead_byte as Hlb.
  assert (Hrest : is_bytes s) by done. unfold utf8_nextCharSafeBody. rewrite U8_COUNT_TRAIL_BYTES_spec by done.
  pose proof (trail_count_range b) as Hcount. unfold int. rewrite iadd_ok by ibound. cbn [obind].
  assert (Hskip : forall n : nat, (n <= List.length r)%nat \/ (leading_trails n r < List.length r)%nat ->
    skip_trails n s (Z.of_nat (i + 1)) = Some (Z.of_nat (i + 1 + leading_trails n r))).
  { intros n Hn. rewrite skip_trails_spec by (done || by rewrite rest_drop). by rewrite rest_drop. }
  destruct ((Z.of_nat (i + 1) + Z.of_nat (trail_count b) <=? length) || (length <? 0)) eqn:E.
  - assert (Hrd : readable).
    { destruct Hlen as [->|[_ H]]; [|done]. left. apply orb_true_iff in E as [E|E]; [apply Z.leb_le in E|apply Z.ltb_lt in E]; lia. }
    fold (safe_switch (U8_MASK_LEAD_BYTE b (Z.of_nat (trail_count b)))). rewrite switch_spec by done. cbn [mbind option_bind].
    unfold next_result. destruct read_result as [[c i']|] eqn:Er.
    + unfold read_result in Er. destruct (first_char b r) as [[c'|] k]; [|done]. by injection Er as <- <-.
    + rewrite (first_char_error Er), Nat2Z.id, Hskip by done. cbn [mbind option_bind]. by rewrite errorValue_spec.
  - rewrite orb_false_iff, Z.leb_gt, Z.ltb_ge in E. destruct Hlen as [->|[? _]]; [|lia].
    assert (Hk : (List.length r < trail_count b)%nat) by lia. pose proof (trail_count_cases b Hlb Hb) as Hcases.
    replace (uint8 _) with (Z.of_nat (List.length r)) by (unfold uint8; rewrite Z.mod_small; lia). cbn [mbind option_bind].
    rewrite Nat2Z.id, Hskip by lia. cbn [mbind option_bind]. rewrite errorValue_spec. unfold next_result.
    rewrite first_char_error.
    + rewrite (leading_trails_more (trail_count b) (List.length r)) by lia. done.
    + unfold read_result. rewrite (first_char_test (trail_count b) r) by (done || (apply take_ge; lia)).
      rewrite (proj2 (Nat.eqb_neq _ _)) by lia. done.
Qed.

Lemma list_cases {A} (l : list A) : l = [] \/ exists x l', l = x :: l'.
Proof. destruct l; [by left|right; by eexists _, _]. Qed.

(** *** The sequences handled inline *)

(** The bits of U+1000..U+CFFF; the upper bits of the lead byte are cut off. *)
Lemma inline_three t1 t2 : 0xe0 < b <= 0xec -> is_trail t1 = true -> is_trail t2 = true -> take 2 r = [t1; t2] ->
  first_char b r = (Some (uint16 (Z.lor (Z.lor (Z.shiftl b 12) (Z.shiftl (uint8 (t1 - 0x80)) 6)) (uint8 (t2 - 0x80)))), 2%nat).
Proof.
  intros Hbr H1 H2 Ht. destruct (trail_value t1 H1) as [-> Hr1], (trail_value t2 H2) as [-> Hr2].
  rewrite (first_char_test 2 [t1; t2]) by
    (done || (unfold trail_count; rewrite !(proj2 (Z.ltb_ge _ _)), (proj2 (Z.ltb_lt _ _)) by lia; done)).
  assert (E : uint16 (Z.lor (Z.lor (Z.shiftl b 12) (Z.shiftl (t1 - 0x80) 6)) (t2 - 0x80)) = (b - 0xe0) * 4096 + (t1 - 0x80) * 64 + (t2 - 0x80)).
  { rewrite three_bits by done. unfold uint16. dlia. }
  rewrite E. cbn [List.length Nat.eqb forallb sequence_value least_value]. rewrite H1, H2, (proj2 (Z.leb_le _ _)), scalar_test by lia.
  cbn [andb]. replace ((0xd800 <=? _) && _) with false; [done|]. symmetry. apply andb_false_iff. rewrite Z.leb_gt, Z.ltb_ge. lia.
Qed.

Lemma inline_two t1 : 0xc2 <= b < 0xe0 -> is_trail t1 = true -> take 1 r = [t1] ->
  first_char b r = (Some (Z.lor (Z.shiftl (Z.land b 0x1f) 6) (uint8 (t1 - 0x80))), 1%nat).
Proof.
  intros Hbr H1 Ht. destruct (trail_value t1 H1) as [-> Hr1].
  rewrite (first_char_test 1 [t1]) by (done || (unfold trail_count; rewrite (proj2 (Z.ltb_ge _ _)), (proj2 (Z.ltb_lt _ _)) by lia; done)).
  change 0x1f with (2 ^ 5 - 1). rewrite land_low_mask, shift6 by (done || lia). change (2 ^ 5) with 32.
  cbn [List.length Nat.eqb forallb sequence_value least_value]. replace ((b - 0xc0) * 64 + (t1 - 0x80)) with (b mod 32 * 64 + (t1 - 0x80)) by dlia.
  rewrite H1, (proj2 (Z.leb_le _ _)), scalar_test by dlia. cbn [andb].
  replace ((0xd800 <=? _) && _) with false; [done|]. symmetry. apply andb_false_iff. rewrite Z.leb_gt. left. dlia.
Qed.

Lemma trail_test t : is_uint8 t -> (uint8 (t - 0x80) <=? 0x3f) = is_trail t.
Proof. intros Ht. pose proof (trail_small t Ht) as H. rewrite Z.gtb_ltb, Z.ltb_antisym in H. destruct (is_trail t), (uint8 _ <=? 0x3f); done. Qed.

(** [U8_NEXT], at a lead byte. *)
Lemma U8_NEXT_lead length : Z.of_nat i + 6 <= INT32_MAX ->
  length = Z.of_nat (List.length s) \/ (length < 0 /\ (trail_count b <> 0%nat -> r <> []) /\ readable) ->
  U8_NEXT_strict s (Z.of_nat i) length strict = Some next_result.
Proof.
  intros Hmax Hlen. pose proof length_rest as Hl. unfold U8_NEXT_strict. rewrite lead_get. cbn [mbind option_bind].
  unfold int. rewrite iadd_ok by ibound. cbn [obind]. rewrite Z.geb_leb, (proj2 (Z.leb_le _ _)) by done. replace (Z.of_nat i + 1) with (Z.of_nat (i + 1 + 0)) by lia.
  assert (Hbody : utf8_nextCharSafeBody s (Z.of_nat (i + 1 + 0)) length b strict = Some next_result).
  { rewrite Nat.add_0_r. apply utf8_nextCharSafeBody_spec; [done|tauto]. }
  set (three := if (0xe0 <? b) && (b <=? 0xec) then _ else Some None).
  assert (H3 : three = Some None \/ exists t1 t2, three = Some (Some (uint8 (t1 - 0x80), uint8 (t2 - 0x80))) /\ 0xe0 < b <= 0xec /\
    is_trail t1 = true /\ is_trail t2 = true /\ take 2 r = [t1; t2]).
  { unfold three. destruct (Z.ltb_spec 0xe0 b), (Z.leb_spec b 0xec); cbn [andb]; try (by left).
    assert (Hn : trail_count b = 2%nat) by (unfold trail_count; rewrite !(proj2 (Z.ltb_ge _ _)), (proj2 (Z.ltb_lt _ _)) by lia; done).
    rewrite iadd_ok by ibound. cbn [obind]. destruct ((Z.of_nat (i + 1 + 0) + 1 <? length) || (length <? 0)) eqn:E; [|by left].
    destruct (list_cases r) as [Er|(t1 & r' & Er)].
    { exfalso. destruct Hlen as [->|(? & Hne & _)]; [|rewrite Hn in Hne; by apply Hne]. rewrite Er in Hl. cbn in Hl. rewrite orb_true_iff, !Z.ltb_lt in E. lia. }
    destruct (trail_read 0 t1) as [-> Hu1]; [by rewrite Er|]. cbn [mbind option_bind]. rewrite trail_test by done.
    destruct (is_trail t1) eqn:Ht1; [|by left]. replace (Z.of_nat (i + 1 + 0) + 1) with (Z.of_nat (i + 1 + 1)) by lia.
    destruct (list_cases r') as [Er'|(t2 & r'' & Er')]; rewrite Er' in Er.
    { exfalso. destruct Hlen as [->|(? & _ & Hrd)].
      - rewrite Er in Hl. cbn in Hl. rewrite orb_true_iff, !Z.ltb_lt in E. lia.
      - unfold readable in Hrd. rewrite Hn, Er in Hrd. cbn in Hrd. rewrite Ht1 in Hrd. lia. }
    destruct (trail_read 1 t2) as [-> Hu2]; [by rewrite Er|]. cbn [mbind option_bind]. rewrite trail_test by done.
    destruct (is_trail t2) eqn:Ht2; [right|by left]. exists t1, t2. by rewrite Er. }
  destruct H3 as [->|(t1 & t2 & -> & Hbr & Ht1 & Ht2 & Ht)]; cbn [mbind option_bind].
  2:{ rewrite iadd_ok by ibound. cbn [obind]. unfold next_result. rewrite (inline_three t1 t2) by done. cbn [default]. do 2 f_equal. lia. }
  set (two := if (b <? 0xe0) && (b >=? 0xc2) && _ then _ else Some None).
  assert (H2 : two = Some None \/ exists t1, two = Some (Some (uint8 (t1 - 0x80))) /\ 0xc2 <= b < 0xe0 /\ is_trail t1 = true /\ take 1 r = [t1]).
  { unfold two. rewrite Z.geb_leb. destruct (Z.ltb_spec b 0xe0), (Z.leb_spec 0xc2 b); cbn [andb]; try (by left).
    assert (Hn : trail_count b = 1%nat) by (unfold trail_count; rewrite (proj2 (Z.ltb_ge _ _)), (proj2 (Z.ltb_lt _ _)) by lia; done).
    destruct (Z.eqb_spec (Z.of_nat (i + 1 + 0)) length) as [|Hne]; [by left|]. destruct (list_cases r) as [Er|(t1 & r' & Er)].
    { exfalso. destruct Hlen as [->|(? & Hnn & _)]; [rewrite Er in Hl; cbn in Hl; lia|rewrite Hn in Hnn; by apply Hnn]. }
    cbn [negb]. destruct (trail_read 0 t1) as [-> Hu1]; [by rewrite Er|]. cbn [mbind option_bind]. rewrite trail_test by done.
    destruct (is_trail t1) eqn:Ht1; [right|by left]. exists t1. by rewrite Er. }
  destruct H2 as [->|(t1 & -> & Hbr & Ht1 & Ht)]; cbn [mbind option_bind]; [done|].
  rewrite iadd_ok by ibound. cbn [obind]. unfold next_result. rewrite (inline_two t1) by done. cbn [default]. do 2 f_equal. lia.
Qed.
End Next.

(** ** Iteration *)

(** [while(i<length) { U8_NEXT(s, i, length, c); ... }] *)
Fixpoint u8_loop (fuel : nat) (s : list Z) (i length strict : Z) : option (list Z) :=
  if i <? length then
    match fuel with
    | O => None
    | S fuel' => '(c, i) ← U8_NEXT_strict s i length strict; cs ← u8_loop fuel' s i length strict; Some (c :: cs)
    end
  else Some [].

Lemma U8_NEXT_single s (i : nat) b r length strict : drop i s = b :: r -> b < 0x80 -> Z.of_nat i < INT32_MAX ->
  U8_NEXT_strict s (Z.of_nat i) length strict = Some (b, Z.of_nat (i + 1)).
Proof.
  intros Hd Hb Hi. unfold U8_NEXT_strict. rewrite (lead_get s i b r Hd). cbn [mbind option_bind]. unfold int. rewrite iadd_ok by ibound. cbn [obind]. rewrite Z.geb_leb, (proj2 (Z.leb_gt _ _)) by done.
  do 2 f_equal. lia.
Qed.

Lemma first_char_le b r : (snd (first_char b r) <= List.length r)%nat.
Proof.
  unfold first_char. destruct (b <? 0x80); [cbn; lia|]. destruct (_ && _) eqn:E; cbn [snd]; [|apply leading_trails_le].
  rewrite !andb_true_iff, Nat.eqb_eq, length_take in E. lia.
Qed.

(** One step of the iteration. *)
Lemma U8_NEXT_step s (i : nat) b r strict : is_bytes s -> strict = -1 \/ strict = -3 -> drop i s = b :: r ->
  Z.of_nat (List.length s) <= INT32_MAX - 5 ->
  let '(c, k) := first_char b r in
  U8_NEXT_strict s (Z.of_nat i) (Z.of_nat (List.length s)) strict = Some (default (error_char strict) c, Z.of_nat (i + 1 + k)).
Proof.
  intros Hs Hstrict Hd Hmax. pose proof (length_rest s i b r Hd) as Hl. destruct (Z.ltb_spec b 0x80) as [Hlt|Hge].
  - rewrite (U8_NEXT_single s i b r) by (done || lia). unfold first_char. rewrite (proj2 (Z.ltb_lt _ _)) by done. cbn. do 2 f_equal. lia.
  - rewrite (U8_NEXT_lead s i b r Hs Hd Hge strict Hstrict) by (lia || by left). unfold next_result. by destruct (first_char b r).
Qed.

Lemma u8_loop_spec s strict : is_bytes s -> strict = -1 \/ strict = -3 -> Z.of_nat (List.length s) <= INT32_MAX - 5 -> forall fuel (i : nat),
  (i <= List.length s)%nat -> (List.length s - i <= fuel)%nat ->
  u8_loop fuel s (Z.of_nat i) (Z.of_nat (List.length s)) strict = Some (map (default (error_char strict)) (decode (drop i s))).
Proof.
  intros Hs Hstrict Hmax. induction fuel as [|fuel IH]; intros i Hi Hf; cbn [u8_loop];
    (destruct (Z.ltb_spec (Z.of_nat i) (Z.of_nat (List.length s))) as [Hlt|]; [|by rewrite drop_ge by lia]); [lia|].
  destruct (lookup_lt_is_Some_2 s i) as [b Hb]; [lia|]. pose proof (drop_S _ _ _ Hb) as Hd. pose proof (U8_NEXT_step s i b _ strict Hs Hstrict Hd Hmax) as Hn.
  pose proof (first_char_le b (drop (S i) s)) as Hk. rewrite length_drop in Hk. rewrite Hd, decode_cons.
  destruct (first_char b (drop (S i) s)) as [c k]. cbn [snd] in Hk. rewrite Hn. cbn [mbind option_bind]. rewrite IH by lia. cbn [mbind option_bind map].
  replace (drop (i + 1 + k) s) with (drop k (drop (S i) s)) by (rewrite drop_drop; f_equal; lia). done.
Qed.

(** A last byte from 0xfc on, near the end of [int32_t]. *)
Lemma U8_NEXT_overflow (u : list Z) b length strict : INT32_MAX - 5 < Z.of_nat (S (List.length u)) -> Z.of_nat (S (List.length u)) <= INT32_MAX -> 0xfc <= b < 0xfe ->
  U8_NEXT_strict (u ++ [b]) (Z.of_nat (List.length u)) length strict = None.
Proof.
  intros Hlo Hhi Hb. unfold U8_NEXT_strict. rewrite aget_nat, list_lookup_middle by done. cbn [mbind option_bind]. unfold int. rewrite iadd_ok by ibound. cbn [obind].
  rewrite !Z.geb_leb, (proj2 (Z.leb_le 0x80 b)), (proj2 (Z.leb_gt b 0xec)), andb_false_r by lia. cbn [mbind option_bind]. rewrite (proj2 (Z.ltb_ge b 0xe0)) by lia. cbn [andb mbind option_bind].
  unfold utf8_nextCharSafeBody. rewrite U8_COUNT_TRAIL_BYTES_spec by (unfold is_uint8; lia).
  assert (trail_count b = 5%nat) as -> by (unfold trail_count; rewrite !(proj2 (Z.ltb_ge _ _)), (proj2 (Z.ltb_lt _ _)) by lia; done).
  unfold int, iadd. cbn [obind]. unfold checked, in_int32. rewrite (proj2 (Z.leb_gt _ INT32_MAX)), andb_false_r by lia. done.
Qed.

(** C18: reading any bytes, at most INT32_MAX - 5 of them, with [U8_NEXT]
    ([U8_NEXT_OR_FFFD]) up to their length gives what the reference decoder
    reads, with -1 (U+FFFD) for each ill-formed sequence, without reading past
    the end and without overflow of an index; text in UTF-8 is read back.  The
    bound is exact: with more bytes the sum of the index and the number of trail
    bytes of a last byte from 0xfc on leaves [int32_t]. *)
Theorem utf8_iteration s strict : is_bytes s -> strict = -1 \/ strict = -3 -> Z.of_nat (List.length s) <= INT32_MAX - 5 ->
  u8_loop (List.length s) s 0 (Z.of_nat (List.length s)) strict = Some (map (default (error_char strict)) (decode s)) /\
  (forall t, Forall is_scalar t -> s = utf8 t -> u8_loop (List.length s) s 0 (Z.of_nat (List.length s)) strict = Some t) /\
  (forall (u : list Z) b length, INT32_MAX - 5 < Z.of_nat (S (List.length u)) -> Z.of_nat (S (List.length u)) <= INT32_MAX -> 0xfc <= b < 0xfe ->
     U8_NEXT_strict (u ++ [b]) (Z.of_nat (List.length u)) length strict = None).
Proof.
  intros Hs Hstrict Hmax. pose proof (u8_loop_spec s strict Hs Hstrict Hmax (List.length s) 0 ltac:(lia) ltac:(lia)) as H.
  change (Z.of_nat 0) with 0 in H. rewrite drop_0 in H. split; [done|]. split; [|intros; by apply U8_NEXT_overflow]. intros t Ht ->. rewrite H. f_equal.
  pose proof (decode_utf8 t [] Ht) as Hd. rewrite !app_nil_r in Hd. rewrite Hd, map_map. apply map_id.
Qed.

Lemma utf8_iteration_witness :
  let s := [0x41; 0xe2; 0x82; 0xac; 0xf0; 0x9f; 0x98; 0xed; 0xa0; 0x80; 0xf4; 0x8f; 0xbf; 0xbf; 0xc3] in
  u8_loop 15 s 0 15 (-1) = Some [0x41; 0x20ac; -1; -1; 0x10ffff; -1] /\ u8_loop 15 s 0 15 (-3) = Some [0x41; 0x20ac; 0xfffd; 0xfffd; 0x10ffff; 0xfffd].
Proof.
  cbv zeta. set (s := [_; _; _; _; _; _; _; _; _; _; _; _; _; _; _]). split.
  - etrans; [refine (proj1 (utf8_iteration s (-1) _ _ _)); [repeat constructor; done|by left|vm_compute; done]|]. vm_compute. reflexivity.
  - etrans; [refine (proj1 (utf8_iteration s (-3) _ _ _)); [repeat constructor; done|by right|vm_compute; done]|]. vm_compute. reflexivity.
Defined.
