(* ===== verification/UStrTrns.v ===== *)
(** * Conversion of strings between the Unicode encoding forms
      (src/common/ustrtrns.cpp)

    A conversion fills the buffer of the caller, then goes on to count the units
    that do not fit.  A source has a length, or ends with a NUL (the length -1);
    the loops of the two cases differ in how they find the end and in the
    function for sequences that are not handled inline, a [Reader].  A null
    pointer is [None]. *)
From S2P Require Import Prelude Int32 Utf16 UString Utf8.
Local Open Scope Z_scope.

(** The variables of a conversion: the indexes [pSrc] and [pDest], the buffer,
    [reqLength] and [numSubstitutions]. *)
Record Conv := MkConv { pSrc : Z; pDest : Z; buffer : option (list Z); reqLength : Z; numSubstitutions : Z }.

(** A loop ends, or returns from the function with [U_INVALID_CHAR_FOUND]. *)
Inductive Result := Done (st : Conv) | Invalid (st : Conv).

(** [*pDest++=u;] *)
Definition put (st : Conv) (u : Z) : option Conv :=
  d ← st.(buffer);
  d ← aset d st.(pDest) u;
  Some (MkConv st.(pSrc) (st.(pDest) + 1) (Some d) st.(reqLength) st.(numSubstitutions)).

Definition put_all (st : Conv) (us : list Z) : option Conv := foldl (fun o u => st ← o; put st u) (Some st) us.

Definition move (st : Conv) (i : Z) : Conv := MkConv i st.(pDest) st.(buffer) st.(reqLength) st.(numSubstitutions).
Definition require (st : Conv) (n : Z) : Conv := MkConv st.(pSrc) st.(pDest) st.(buffer) n st.(numSubstitutions).

(** [if(ch<0 && (++numSubstitutions, ch = subchar) < 0)]: the code point to
    write, or none. *)
Definition substitute (st : Conv) (ch subchar : Z) : option (Conv * option Z) :=
  if ch <? 0 then
    let! n := st.(numSubstitutions) +! 1 in
    Some (MkConv st.(pSrc) st.(pDest) st.(buffer) st.(reqLength) n, if subchar <? 0 then None else Some subchar)
  else Some (st, Some ch).

(** The results of a function: the buffer, [*pDestLength] and
    [*pNumSubstitutions] where they are assigned, and the error code. *)
Record Converted := MkConverted { c_dest : option (list Z); c_length : option Z; c_substitutions : option Z; c_code : UErrorCode }.

Definition bad_arguments (src dest : option (list Z)) (srcLength destCapacity subchar : Z) : bool :=
  (bool_decide (src = None) && negb (srcLength =? 0)) || (srcLength <? -1) || (destCapacity <? 0) ||
  (bool_decide (dest = None) && (destCapacity >? 0)) || (subchar >? 0x10ffff) || U_IS_SURROGATE subchar.

(** The end of every conversion. *)
Definition finish (r : Result) (destCapacity : Z) (code : UErrorCode) : option Converted :=
  match r with
  | Done st =>
      let! n := st.(reqLength) +! st.(pDest) in
      '(dest, code) ← u_terminateUChars st.(buffer) destCapacity n code;
      Some (MkConverted dest (Some n) (Some st.(numSubstitutions)) code)
  | Invalid st => Some (MkConverted st.(buffer) None (Some 0) U_INVALID_CHAR_FOUND)
  end.

(** ** From UTF-8 *)

Definition terminated_case1 (s : list Z) (i c : Z) : option (bool * Z * Z) :=
  trail ← trail_at s i; Some (trail >? 0x3f, Z.lor (Z.shiftl c 6) trail, i + 1).
Definition terminated_case2 (s : list Z) (i c : Z) : option (bool * Z * Z) :=
  trail ← trail_at s i;
  if trail >? 0x3f then Some (true, c, i + 1) else terminated_case1 s (i + 1) (Z.lor (Z.shiftl c 6) trail).
Definition terminated_case3 (s : list Z) (i c : Z) : option (bool * Z * Z) :=
  trail ← trail_at s i;
  let c := Z.lor (Z.shiftl c 6) trail in
  if (trail >? 0x3f) || (c >=? 0x110) then Some (true, c, i + 1) else terminated_case2 s (i + 1) c.

(** [illegal || c<utf8_minLegal[count] || U_IS_SURROGATE(c)] *)
Definition is_illegal (illegal : bool) (c count : Z) : option bool :=
  if illegal then Some true else minimum ← aget utf8_minLegal count; Some ((c <? minimum) || U_IS_SURROGATE c).

Definition utf8_nextCharSafeBodyTerminated (s : list Z) (i c : Z) : option (Z * Z) :=
  let count := U8_COUNT_TRAIL_BYTES c in
  let c := U8_MASK_LEAD_BYTE c count in
  if count =? 0 then Some (U_SENTINEL, i)
  else
    '(illegal, c, i') ←
      (if count =? 3 then terminated_case3 s i c
       else if count =? 2 then terminated_case2 s i c
       else if count =? 1 then terminated_case1 s i c else Some (true, c, i));
    illegal ← is_illegal illegal c count;
    if illegal : bool then i' ← skip_trails (Z.to_nat count) s i; Some (U_SENTINEL, i') else Some (c, i').

(** [c=(c<<6)|(trail&0x3f); illegal|=(trail&0xc0)^0x80;] *)
Definition pointer_case1 (s : list Z) (i c illegal : Z) : option (Z * Z * Z) :=
  trail ← aget s i;
  Some (Z.lor illegal (Z.lxor (Z.land trail 0xc0) 0x80), Z.lor (Z.shiftl c 6) (Z.land trail 0x3f), i + 1).
Definition pointer_case2 (s : list Z) (i c illegal : Z) : option (Z * Z * Z) :=
  '(illegal, c, i) ← pointer_case1 s i c illegal; pointer_case1 s i c illegal.
Definition pointer_case3 (s : list Z) (i c : Z) : option (Z * Z * Z) :=
  trail ← aget s i;
  let c := Z.lor (Z.shiftl c 6) (Z.land trail 0x3f) in
  if c <? 0x110 then pointer_case2 s (i + 1) c (Z.lxor (Z.land trail 0xc0) 0x80) else Some (1, c, i + 1).

(** The same loop, up to [limit]. *)
Fixpoint skip_trails_limit (count : nat) (s : list Z) (i limit : Z) : option Z :=
  match count with
  | O => Some i
  | S count' =>
      if i <? limit then b ← aget s i; if U8_IS_TRAIL b then skip_trails_limit count' s (i + 1) limit else Some i else Some i
  end.

Definition utf8_nextCharSafeBodyPointer (s : list Z) (i limit c : Z) : option (Z * Z) :=
  let count := U8_COUNT_TRAIL_BYTES c in
  if (limit - i >=? count) && (count =? 0) then Some (U_SENTINEL, i)
  else
    '(illegal, c, i') ←
      (if limit - i >=? count then
         let c := U8_MASK_LEAD_BYTE c count in
         if count =? 3 then pointer_case3 s i c
         else if count =? 2 then pointer_case2 s i c 0
         else if count =? 1 then pointer_case1 s i c 0 else Some (1, c, i)
       else Some (1, c, i));
    illegal ← is_illegal (negb (illegal =? 0)) c count;
    if illegal : bool then i' ← skip_trails_limit (Z.to_nat count) s i limit; Some (U_SENTINEL, i') else Some (c, i').

(** U+1000..U+CFFF and U+0080..U+07FF, handled inline; with a limit the code
    tests how many bytes are left. *)
Definition bytes_left (limit : option Z) (i n : Z) : bool := match limit with Some l => l - i >=? n | None => true end.

Definition inline_char (s : list Z) (limit : option Z) (i ch : Z) : option (option (Z * Z)) :=
  if ch >? 0xe0 then
    if (ch <=? 0xec) && bytes_left limit i 3 then
      t1 ← trail_at s (i + 1);
      if t1 <=? 0x3f then
        t2 ← trail_at s (i + 2);
        Some (if t2 <=? 0x3f then Some (uint16 (Z.lor (Z.lor (Z.shiftl ch 12) (Z.shiftl t1 6)) t2), i + 3) else None)
      else Some None
    else Some None
  else if ch <? 0xe0 then
    if (ch >=? 0xc2) && bytes_left limit i 2 then
      t1 ← trail_at s (i + 1);
      Some (if t1 <=? 0x3f then Some (uint16 (Z.lor (Z.shiftl (Z.land ch 0x1f) 6) t1), i + 2) else None)
    else Some None
  else Some None.

Record Reader := MkReader {
  next_byte : Z -> option (option Z);
  next_inline : Z -> Z -> option (option (Z * Z));
  next_body : Z -> Z -> option (Z * Z)
}.

Definition nul_reader (s : list Z) : Reader := {|
  next_byte i := ch ← aget s i; Some (if ch =? 0 then None else Some ch);
  next_inline := inline_char s None;
  next_body := utf8_nextCharSafeBodyTerminated s |}.

Definition limit_reader (s : list Z) (limit : Z) : Reader := {|
  next_byte i := if i <? limit then ch ← aget s i; Some (Some ch) else Some None;
  next_inline := inline_char s (Some limit);
  next_body i c := utf8_nextCharSafeBodyPointer s i limit c |}.

(** The loops that write, until the source ends or the buffer is full. *)
Fixpoint write_utf16 (fuel : nat) (rd : Reader) (pDestLimit subchar : Z) (st : Conv) : option Result :=
  match fuel with
  | O => None
  | S fuel' =>
      next ← rd.(next_byte) st.(pSrc);
      match next with
      | None => Some (Done st)
      | Some ch =>
          if negb (st.(pDest) <? pDestLimit) then Some (Done st)
          else if ch <=? 0x7f then st ← put st (uint16 ch); write_utf16 fuel' rd pDestLimit subchar (move st (st.(pSrc) + 1))
          else
            inline ← rd.(next_inline) st.(pSrc) ch;
            match inline with
            | Some (u, i) => st ← put st u; write_utf16 fuel' rd pDestLimit subchar (move st i)
            | None =>
                '(ch, i) ← rd.(next_body) (st.(pSrc) + 1) ch;
                '(st, ch) ← substitute (move st i) ch subchar;
                match ch with
                | None => Some (Invalid st)
                | Some ch =>
                    if ch <=? 0xffff then st ← put st (uint16 ch); write_utf16 fuel' rd pDestLimit subchar st
                    else
                      st ← put st (U16_LEAD ch);
                      if st.(pDest) <? pDestLimit then st ← put st (U16_TRAIL ch); write_utf16 fuel' rd pDestLimit subchar st
                      else let! n := st.(reqLength) +! 1 in Some (Done (require st n))
                end
            end
      end
  end.

(** The loops that count the rest. *)
Fixpoint count_utf16 (fuel : nat) (rd : Reader) (subchar : Z) (st : Conv) : option Result :=
  match fuel with
  | O => None
  | S fuel' =>
      next ← rd.(next_byte) st.(pSrc);
      match next with
      | None => Some (Done st)
      | Some ch =>
          if ch <=? 0x7f then let! n := st.(reqLength) +! 1 in count_utf16 fuel' rd subchar (move (require st n) (st.(pSrc) + 1))
          else
            inline ← rd.(next_inline) st.(pSrc) ch;
            match inline with
            | Some (_, i) => let! n := st.(reqLength) +! 1 in count_utf16 fuel' rd subchar (move (require st n) i)
            | None =>
                '(ch, i) ← rd.(next_body) (st.(pSrc) + 1) ch;
                '(st, ch) ← substitute (move st i) ch subchar;
                match ch with
                | None => Some (Invalid st)
                | Some ch => let! n := st.(reqLength) +! U16_LENGTH ch in count_utf16 fuel' rd subchar (require st n)
                end
            end
      end
  end.

(** The faster loop without tests for the ends: [count] steps of at most three
    bytes and one unit each. *)
Fixpoint fast_utf16 (fuel : nat) (s : list Z) (limit subchar count : Z) (st : Conv) : option Result :=
  match fuel with
  | O => None
  | S fuel' =>
      let continue st := if count - 1 >? 0 then fast_utf16 fuel' s limit subchar (count - 1) st else Some (Done st) in
      ch ← aget s st.(pSrc);
      if ch <=? 0x7f then st ← put st (uint16 ch); continue (move st (st.(pSrc) + 1))
      else
        inline ← inline_char s None st.(pSrc) ch;
        match inline with
        | Some (u, i) => st ← put st u; continue (move st i)
        | None =>
            let adjust := (ch >=? 0xf0) || (subchar >? 0xffff) in
            let count := if adjust then count - 1 else count in
            if adjust && (count =? 0) then Some (Done st)
            else
              let continue st := if count - 1 >? 0 then fast_utf16 fuel' s limit subchar (count - 1) st else Some (Done st) in
              '(ch, i) ← utf8_nextCharSafeBodyPointer s (st.(pSrc) + 1) limit ch;
              '(st, ch) ← substitute (move st i) ch subchar;
              match ch with
              | None => Some (Invalid st)
              | Some ch =>
                  if ch <=? 0xffff then st ← put st (uint16 ch); continue st
                  else st ← put st (U16_LEAD ch); st ← put st (U16_TRAIL ch); continue st
              end
        end
  end.

(** [count], while it is at least 3; the fuel is the length of the source. *)
Fixpoint fast_utf16_rounds (fuel : nat) (s : list Z) (limit pDestLimit subchar : Z) (st : Conv) : option Result :=
  let count := Z.min (pDestLimit - st.(pDest)) (Z.quot (limit - st.(pSrc)) 3) in
  if count <? 3 then Some (Done st)
  else
    match fuel with
    | O => None
    | S fuel' =>
        r ← fast_utf16 (Z.to_nat count) s limit subchar count st;
        match r with Done st => fast_utf16_rounds fuel' s limit pDestLimit subchar st | Invalid st => Some (Invalid st) end
    end.

(** Two loops in sequence. *)
Definition and_then (r : option Result) (f : Conv -> option Result) : option Result :=
  r ← r; match r with Done st => f st | Invalid st => Some (Invalid st) end.

Definition u_strFromUTF8WithSub (dest : option (list Z)) (destCapacity : Z) (src : option (list Z)) (srcLength subchar : Z)
    (code : UErrorCode) : option Converted :=
  if U_FAILURE code then Some (MkConverted dest None None code)
  else if bad_arguments src dest srcLength destCapacity subchar then Some (MkConverted dest None None U_ILLEGAL_ARGUMENT_ERROR)
  else
    let s := default [] src in
    let fuel := S (List.length s) in
    let st := MkConv 0 0 dest 0 0 in
    r ← (if srcLength <? 0 then
           let rd := nul_reader s in
           and_then (write_utf16 fuel rd destCapacity subchar st) (count_utf16 fuel rd subchar)
         else
           let rd := limit_reader s srcLength in
           and_then (and_then (fast_utf16_rounds fuel s srcLength destCapacity subchar st) (write_utf16 fuel rd destCapacity subchar))
             (count_utf16 fuel rd subchar));
    finish r destCapacity code.

Definition u_strFromUTF8 (dest : option (list Z)) (destCapacity : Z) (src : option (list Z)) (srcLength : Z) (code : UErrorCode) :=
  u_strFromUTF8WithSub dest destCapacity src srcLength U_SENTINEL code.

(** ** The reference *)

(** The code points that are written for the decoded ones, up to the first error
    when there is no substitution; the number of substitutions; whether it
    comes to the end. *)
Fixpoint transcode (subchar : Z) (items : list (option Z)) : list Z * Z * bool :=
  match items with
  | [] => ([], 0, true)
  | Some c :: items => let '(out, n, ok) := transcode subchar items in (c :: out, n, ok)
  | None :: items =>
      if subchar <? 0 then ([], 0, false) else let '(out, n, ok) := transcode subchar items in (subchar :: out, n + 1, ok)
  end.

Definition transcoded (subchar : Z) (items : list (option Z)) : list Z := fst (fst (transcode subchar items)).

(** What a conversion gives, for a valid buffer: the units as far as they fit and
    a NUL, their full number and the code of [u_terminateUChars]; or an error,
    with what precedes it in the buffer. *)
Definition converted (dest : option (list Z)) (enc : list Z -> list Z) (subchar : Z) (items : list (option Z)) (code : UErrorCode) : Converted :=
  let '(out, n, ok) := transcode subchar items in
  let us := enc out in
  let length := Z.of_nat (List.length us) in
  if ok then MkConverted (overlay dest (us ++ [0])) (Some length) (Some n) (termination (capacity dest) length code)
  else MkConverted (overlay dest us) None (Some 0) U_INVALID_CHAR_FOUND.

(** The same where sequences of units are not split: [written] is what the buffer
    gets of [all], and a NUL follows if all fits and there is room. *)
Definition converted_whole (dest : option (list Z)) (written all : list Z -> list Z) (subchar : Z) (items : list (option Z))
    (code : UErrorCode) : Converted :=
  let '(cs, n, ok) := transcode subchar items in
  let cap := capacity dest in
  let length := Z.of_nat (List.length (all cs)) in
  if ok then
    MkConverted (overlay dest (if length <? cap then written cs ++ [0] else written cs)) (Some length) (Some n) (termination cap length code)
  else MkConverted (overlay dest (written cs)) None (Some 0) U_INVALID_CHAR_FOUND.
