(* ===== verification/UStrTrnsRest.v ===== *)
(** * What the rest of a conversion gives

    The loops of the conversions go from state to state, each a function of what
    has been consumed, of the code points written so far and of the number of
    substitutions.  [rest_ok] says that a computation from such a state gives
    what the reference gives for the items that are left; it is proved backwards,
    one item at a time. *)
From S2P Require Import Prelude Int32 Utf16 UString Utf8 Utf8Decoding UStrTrns.
Local Open Scope Z_scope.

#[local] Abbreviation len l := (Z.of_nat (List.length l)).

Lemma cap_nonneg dest : 0 <= capacity dest.
Proof. unfold capacity. destruct dest; lia. Qed.

(** Units that do not fit leave the buffer alone. *)
Lemma overlay_full dest out out' : capacity dest <= len out -> overlay dest (out ++ out') = overlay dest out.
Proof.
  intros Hc. unfold overlay. destruct dest as [d|]; [|done]. cbn [capacity] in Hc. rewrite take_app_le by lia.
  rewrite !drop_ge; [done|..]; rewrite ?length_app; lia.
Qed.

(** Writing units that fit. *)
Lemma put_all_overlay dest us : forall i out q n, len (out ++ us) <= capacity dest ->
  put_all (MkConv i (len out) (overlay dest out) q n) us = Some (MkConv i (len (out ++ us)) (overlay dest (out ++ us)) q n).
Proof.
  unfold put_all. induction us as [|u us IH]; intros i out q n Hc; [by rewrite !app_nil_r|]. cbn [foldl mbind option_bind].
  assert (Hp : put (MkConv i (len out) (overlay dest out) q n) u = Some (MkConv i (len (out ++ [u])) (overlay dest (out ++ [u])) q n)).
  { unfold put. cbn [buffer pDest pSrc reqLength numSubstitutions]. pose proof (write_overlay dest out u) as Hw. unfold write in Hw.
    rewrite length_app in Hc. cbn [List.length] in Hc. rewrite (proj2 (Z.ltb_lt _ _)) in Hw by lia.
    destruct (overlay dest out) as [d|]; [|done]. cbn [mbind option_bind] in *. destruct (aset d _ u) as [d'|]; [|done].
    cbn [mbind option_bind] in *. injection Hw as <-. rewrite length_app. cbn [List.length]. do 2 f_equal. lia. }
  rewrite Hp. replace (out ++ u :: us) with ((out ++ [u]) ++ us) in * by (by rewrite <- app_assoc). by apply IH.
Qed.

Lemma put_single st u : put st u = put_all st [u].
Proof. done. Qed.

Lemma and_then_assoc r f g : and_then (and_then r f) g = and_then r (fun st => and_then (f st) g).
Proof. by destruct r as [[st|st]|]. Qed.

(** The states of one conversion: [enc] is what a code point adds to the output
    [out], [size] the number that is returned for it. *)
Class States (state : nat -> list Z -> Z -> Conv) (size : list Z -> Z) (buf : list Z -> option (list Z)) : Prop := {
  state_pSrc i out n : pSrc (state i out n) = Z.of_nat i;
  state_buffer i out n : buffer (state i out n) = buf out;
  state_substitutions i out n : numSubstitutions (state i out n) = n;
  state_move i j out n : move (state i out n) (Z.of_nat j) = state j out n;
  state_substitute i out n n' :
    MkConv (Z.of_nat i) (pDest (state i out n)) (buf out) (reqLength (state i out n)) n' = state i out n';
  state_size i out n : pDest (state i out n) + reqLength (state i out n) = size out;
  size_mono out out' : size out <= size (out ++ out')
}.

Section Rest.
Context (state : nat -> list Z -> Z -> Conv) (size : list Z -> Z) (buf : list Z -> option (list Z)).
Context `{Hst : !States state size buf} (enc : Z -> list Z) (subchar : Z) (Hsub : subchar < 0 \/ is_scalar subchar).

Definition rest_ok (out : list Z) (n : Z) (items : list (option Z)) (r : option Result) : Prop :=
  let '(cs, n', ok) := transcode subchar items in
  let out' := out ++ concat (map enc cs) in
  size out' <= INT32_MAX ->
  if ok then exists i, r = Some (Done (state i out' (n + n')))
  else exists st, r = Some (Invalid st) /\ st.(buffer) = buf out'.

Lemma rest_done i out n : rest_ok out n [] (Some (Done (state i out n))).
Proof. unfold rest_ok. cbn. intros _. exists i. by rewrite app_nil_r, Z.add_0_r. Qed.

Lemma rest_char c out n items r : rest_ok (out ++ enc c) n items r -> rest_ok out n (Some c :: items) r.
Proof.
  unfold rest_ok. cbn [transcode]. destruct (transcode subchar items) as [[out' n'] ok]. cbn [map concat]. by rewrite app_assoc.
Qed.

Lemma rest_substitute out n items r : subchar >= 0 -> rest_ok (out ++ enc subchar) (n + 1) items r -> rest_ok out n (None :: items) r.
Proof.
  unfold rest_ok. intros Hs. cbn [transcode]. rewrite (proj2 (Z.ltb_ge _ _)) by lia.
  destruct (transcode subchar items) as [[out' n'] ok]. cbn [map concat]. rewrite app_assoc. by replace (n + 1 + n') with (n + (n' + 1)) by lia.
Qed.

Lemma rest_invalid out n items st : subchar < 0 -> st.(buffer) = buf out -> rest_ok out n (None :: items) (Some (Invalid st)).
Proof. unfold rest_ok. intros Hs Hb. cbn [transcode]. rewrite (proj2 (Z.ltb_lt _ _)) by lia. intros _. exists st. by rewrite app_nil_r. Qed.

(** Only results without overflow matter. *)
Lemma rest_bound out n items r : (size out <= INT32_MAX -> rest_ok out n items r) -> rest_ok out n items r.
Proof.
  unfold rest_ok. destruct (transcode subchar items) as [[out' n'] ok]. intros H Hl. apply H; [|done].
  pose proof (size_mono out (concat (map enc out'))). lia.
Qed.

(** The code point that is written for the next one, if any. *)
Lemma substitute_at c i (j : nat) out n items :
  (forall c', c = Some c' -> is_scalar c') -> 0 <= n -> n + 1 <= INT32_MAX ->
  (exists x n', substitute (move (state i out n) (Z.of_nat j)) (default (-1) c) subchar = Some (state j out n', Some x) /\
     is_scalar x /\ (c = Some x \/ x = subchar) /\ n <= n' <= n + 1 /\ (forall r, rest_ok (out ++ enc x) n' items r -> rest_ok out n (c :: items) r)) \/
  (exists st, substitute (move (state i out n) (Z.of_nat j)) (default (-1) c) subchar = Some (st, None) /\
     rest_ok out n (c :: items) (Some (Invalid st))).
Proof.
  intros Hc Hn Hmax. rewrite state_move. unfold substitute. destruct c as [c|]; cbn [from_option].
  - left. change (id c) with c. pose proof (Hc c eq_refl) as Hsc. rewrite (proj2 (Z.ltb_ge _ _)) by (pose proof (scalar_range c Hsc); lia).
    exists c, n. split_and!; try (done || lia || apply rest_char). by left.
  - change (-1 <? 0) with true. cbv iota. rewrite state_substitutions. rewrite iadd_ok by ibound. cbn [obind].
    rewrite state_pSrc, state_buffer, state_substitute. destruct (Z.ltb_spec subchar 0) as [Hneg|Hpos].
    + right. eexists. split; [done|]. apply rest_invalid; [done|]. apply state_buffer.
    + left. exists subchar, (n + 1). split_and!; [done|by destruct Hsub; [lia|]|by right|lia..|]. intros r. apply rest_substitute. lia.
Qed.

(** The end of a conversion whose loops are right. *)
Lemma rest_finish items r destCapacity code :
  rest_ok [] 0 items r -> size (concat (map enc (transcoded subchar items))) <= INT32_MAX -> (forall out, 0 <= size out) ->
  (r ← r; finish r destCapacity code) =
    let '(cs, n, ok) := transcode subchar items in
    let out := concat (map enc cs) in
    if ok then
      '(dest, code) ← u_terminateUChars (buf out) destCapacity (size out) code;
      Some (MkConverted dest (Some (size out)) (Some n) code)
    else Some (MkConverted (buf out) None (Some 0) U_INVALID_CHAR_FOUND).
Proof.
  unfold rest_ok, transcoded. destruct (transcode subchar items) as [[cs n] ok]. cbn [app fst]. intros Hr Hmax Hpos. specialize (Hr Hmax). destruct ok.
  - destruct Hr as [i ->]. cbn [mbind option_bind finish]. pose proof (state_size i (concat (map enc cs)) (0 + n)) as Hsz.
    specialize (Hpos (concat (map enc cs))). rewrite Z.add_comm in Hsz.
    rewrite iadd_ok by (rewrite Hsz; ibound). cbn [obind]. by rewrite Hsz, state_buffer, state_substitutions, Z.add_0_l.
  - destruct Hr as [st [-> Hb]]. cbn [mbind option_bind finish]. by rewrite Hb.
Qed.
End Rest.

(** A conversion that fills the buffer with all units that fit. *)
Lemma overlay_finish state dest enc subchar items r code :
  States state (fun out => len out) (overlay dest) -> U_SUCCESS code = true ->
  rest_ok state (fun out => len out) (overlay dest) enc subchar [] 0 items r ->
  len (concat (map enc (transcoded subchar items))) <= INT32_MAX ->
  (r ← r; finish r (capacity dest) code) = Some (converted dest (fun cs => concat (map enc cs)) subchar items code).
Proof.
  intros Hst Hc Hr Hmax. rewrite (rest_finish state _ _ enc subchar items r) by (done || lia). unfold converted.
  destruct (transcode subchar items) as [[cs n] ok]. destruct ok; [|done]. by rewrite terminate_overlay.
Qed.

Lemma concat_single {A} (l : list A) : concat (map (fun c => [c]) l) = l.
Proof. induction l as [|x l IH]; [done|]. cbn. by rewrite IH. Qed.

(** A conversion that does not split sequences. *)
Lemma whole_finish state dest written all subchar items r code :
  States state (fun cs => len (all cs)) (fun cs => overlay dest (written cs)) -> U_SUCCESS code = true ->
  (forall cs, len (all cs) <= capacity dest -> written cs = all cs) ->
  rest_ok state (fun cs => len (all cs)) (fun cs => overlay dest (written cs)) (fun c => [c]) subchar [] 0 items r ->
  len (all (transcoded subchar items)) <= INT32_MAX ->
  (r ← r; finish r (capacity dest) code) = Some (converted_whole dest written all subchar items code).
Proof.
  intros Hst Hc Hall Hr Hmax. rewrite (rest_finish state _ _ (fun c => [c]) subchar items r) by (done || rewrite ?concat_single; lia).
  unfold converted_whole. destruct (transcode subchar items) as [[cs n] ok]. rewrite concat_single. destruct ok; [|done].
  destruct (Z.leb_spec (len (all cs)) (capacity dest)) as [Hle|Hgt].
  - rewrite Hall, terminate_overlay by done. cbn [mbind option_bind]. destruct (Z.ltb_spec (len (all cs)) (capacity dest)); [done|].
    by rewrite overlay_full by lia.
  - rewrite (proj2 (Z.ltb_ge _ _)) by lia. unfold u_terminateUChars, termination. rewrite Hc, (proj2 (Z.ltb_ge _ 0)), (proj2 (Z.ltb_ge _ _)) by lia.
    by rewrite (proj2 (Z.eqb_neq _ _)) by lia.
Qed.

(** Nothing to substitute. *)
Lemma transcode_some subchar cs : transcode subchar (map Some cs) = (cs, 0, true).
Proof. induction cs as [|c cs IH]; [done|]. cbn [map transcode]. by rewrite IH. Qed.

(** ** The arguments *)

Lemma negative_not_surrogate c : INT32_MIN <= c < 0 -> U_IS_SURROGATE c = false.
Proof.
  intros Hc. unfold U_IS_SURROGATE. apply Z.eqb_neq. intros He. apply (f_equal (fun x => Z.testbit x 31)) in He.
  rewrite Z.land_spec in He. replace (Z.testbit c 31) with true in He; [done|]. symmetry. apply Z.testbit_true; [lia|].
  unfold INT32_MIN in Hc. change (2 ^ 31) with 2147483648. dlia.
Qed.

(** A code point to substitute, or none. *)
Definition substitute_char (subchar : Z) : Prop := INT32_MIN <= subchar < 0 \/ is_scalar subchar.

Lemma substitute_char_cases subchar : substitute_char subchar -> subchar < 0 \/ is_scalar subchar.
Proof. intros [[_ ?]|?]; [by left|by right]. Qed.

Lemma good_arguments dest s srcLength subchar :
  -1 <= srcLength -> substitute_char subchar -> bad_arguments (Some s) dest srcLength (capacity dest) subchar = false.
Proof.
  intros Hl Hsub. unfold bad_arguments. rewrite (bool_decide_eq_false_2 (Some s = None)) by done. cbn [andb orb].
  rewrite (proj2 (Z.ltb_ge srcLength _)), (proj2 (Z.ltb_ge (capacity dest) 0)) by (try apply cap_nonneg; lia). cbn [orb].
  replace (bool_decide (dest = None) && (capacity dest >? 0)) with false by (by destruct dest). cbn [orb]. apply orb_false_iff.
  destruct Hsub as [Hneg|Hsc].
  - split; [|by apply negative_not_surrogate]. rewrite Z.gtb_ltb, Z.ltb_ge. lia.
  - pose proof (scalar_range _ Hsc) as Hr. rewrite Z.gtb_ltb, Z.ltb_ge. split; [lia|]. rewrite U_IS_SURROGATE_spec by done.
    destruct Hsc as [_ Hns]. apply andb_false_iff. rewrite Z.leb_gt, Z.ltb_ge. lia.
Qed.

Lemma success_no_failure code : U_SUCCESS code = true -> U_FAILURE code = false.
Proof. unfold U_FAILURE, U_SUCCESS. by destruct code. Qed.
