(* ===== verification/UStrTrnsFromUtf8.v ===== *)
(** * The conversion from UTF-8 against the reference decoder *)
From S2P Require Import Prelude Int32 Utf16 UString Utf8 Utf8Decoding UStrTrns.
Local Open Scope Z_scope.

Lemma pointer_bits t : is_uint8 t ->
  (Z.lxor (Z.land t 0xc0) 0x80 =? 0) = is_trail t /\ 0 <= Z.land t 0x3f < 64 /\ (is_trail t = true -> Z.land t 0x3f = t - 0x80).
Proof.
  intros Ht. assert (H : (Bool.eqb (Z.lxor (Z.land t 0xc0) 0x80 =? 0) (is_trail t) && (0 <=? Z.land t 0x3f) && (Z.land t 0x3f <? 64) &&
    (negb (is_trail t) || (Z.land t 0x3f =? t - 0x80))) = true).
  { revert t Ht. refine (all_below_spec 256 _ _). vm_compute. reflexivity. }
  rewrite !andb_true_iff, Z.leb_le, Z.ltb_lt, orb_true_iff, Z.eqb_eq in H. destruct H as [[[H1%eqb_prop H2] H3] H4].
  split_and!; try done. intros Ht'. rewrite Ht' in H4. by destruct H4.
Qed.

Lemma lor_zero a b : (Z.lor a b =? 0) = (a =? 0) && (b =? 0).
Proof. apply eq_true_iff_eq. rewrite andb_true_iff, !Z.eqb_eq. apply Z.lor_eq_0_iff. Qed.

(** ** The functions for one code point *)

Section Body.
Context (s : list Z) (i : nat) (b : Z) (r : list Z).
Context (Hs : is_bytes s) (Hd : drop i s = b :: r) (Hb : 0x80 <= b).

#[local] Abbreviation n := (trail_count b).
#[local] Abbreviation ts := (take (trail_count b) r).

(** What the functions return. *)
Definition body_result : Z * Z := let '(c, k) := first_char b r in (default (-1) c, Z.of_nat (i + 1 + k)).

(** The result, from what a switch finds. *)
Definition switch_ok (illegal : bool) (v i' : Z) : Prop :=
  if illegal then (List.length ts =? n)%nat && forallb is_trail ts && bool_decide (is_scalar (sequence_value b ts)) = false
  else (1 <= n <= 3)%nat /\ List.length ts = n /\ forallb is_trail ts = true /\ v = sequence_value b ts /\ 0 <= v < 0x110000 /\
    i' = Z.of_nat (i + 1 + n).

Lemma first_char_switch :
  first_char b r = if (List.length ts =? n)%nat && forallb is_trail ts && (least_value n <=? sequence_value b ts) &&
    bool_decide (is_scalar (sequence_value b ts)) then (Some (sequence_value b ts), n) else (None, leading_trails n r).
Proof. by apply first_char_test. Qed.

Lemma switch_result illegal v i' (skip : option Z) :
  switch_ok illegal v i' -> skip = Some (Z.of_nat (i + 1 + leading_trails n r)) ->
  (il ← is_illegal illegal v (Z.of_nat n);
   if il : bool then i' ← skip; Some (U_SENTINEL, i') else Some (v, i')) = Some body_result.
Proof.
  intros Hok ->. unfold body_result. rewrite first_char_switch. unfold switch_ok in Hok. destruct illegal.
  - unfold is_illegal. cbn [mbind option_bind]. match goal with |- context [if ?c then (Some _, _) else _] => destruct c eqn:E end; [|done].
    rewrite !andb_true_iff in E. destruct E as [[[El Et] _] Ec]. by rewrite El, Et, Ec in Hok.
  - destruct Hok as (Hn & Hl & Ht & -> & Hv & ->). rewrite Hl, Nat.eqb_refl, Ht, scalar_test by done. cbn [andb]. unfold is_illegal.
    assert (aget utf8_minLegal (Z.of_nat n) = Some (least_value n)) as -> by (destruct n as [|[|[|[|]]]]; (lia || done)). cbn [mbind option_bind].
    rewrite U_IS_SURROGATE_spec by done. rewrite (Z.leb_antisym (sequence_value b ts) (least_value n)).
    destruct (sequence_value b ts <? least_value n); cbn [negb orb andb]; [done|]. by destruct (_ && _).
Qed.

Lemma skip_rest m : (m <= List.length r)%nat \/ (leading_trails m r < List.length r)%nat ->
  skip_trails m s (Z.of_nat (i + 1)) = Some (Z.of_nat (i + 1 + leading_trails m r)).
Proof. intros Hm. rewrite skip_trails_spec by (done || by rewrite (rest_drop s i b r)). by rewrite (rest_drop s i b r). Qed.

(** Sequences of five and six bytes are not legal. *)
Lemma long_illegal : (4 <= n)%nat ->
  (List.length ts =? n)%nat && forallb is_trail ts && bool_decide (is_scalar (sequence_value b ts)) = false.
Proof.
  intros Hn. destruct (Nat.eqb_spec (List.length ts) n) as [El|]; [|done]. rewrite (sequence_long b) by lia. by rewrite andb_false_r.
Qed.

(** *** Up to a NUL *)

Lemma terminated_case1_spec j c t : r !! j = Some t ->
  terminated_case1 s (Z.of_nat (i + 1 + j)) c = Some (negb (is_trail t), Z.lor (Z.shiftl c 6) (uint8 (t - 0x80)), Z.of_nat (i + 2 + j)).
Proof.
  intros Hj. destruct (trail_read s i b r Hs Hd j t Hj) as [Hr Hu]. unfold terminated_case1. rewrite Hr. cbn [mbind option_bind].
  rewrite trail_small by done. do 3 f_equal. lia.
Qed.

Lemma terminated_case2_spec j c t1 : r !! j = Some t1 -> (is_trail t1 = true -> is_Some (r !! S j)) ->
  exists il v i', terminated_case2 s (Z.of_nat (i + 1 + j)) c = Some (il, v, i') /\
    if il then (if is_trail t1 then match r !! S j with Some t2 => is_trail t2 = false | None => False end else True)
    else exists t2, r !! S j = Some t2 /\ is_trail t1 = true /\ is_trail t2 = true /\
      v = (c * 64 + (t1 - 0x80)) * 64 + (t2 - 0x80) /\ i' = Z.of_nat (i + 3 + j).
Proof.
  intros Hj Hnext. destruct (trail_read s i b r Hs Hd j t1 Hj) as [Hr Hu]. unfold terminated_case2. rewrite Hr. cbn [mbind option_bind].
  rewrite trail_small by done. destruct (is_trail t1) eqn:H1; cbn [negb]; [|by eexists _, _, _].
  destruct (trail_value t1 H1) as [-> Hv1]. rewrite shift6 by done. destruct (Hnext eq_refl) as [t2 Hj2].
  replace (Z.of_nat (i + 1 + j) + 1) with (Z.of_nat (i + 1 + S j)) by lia. rewrite (terminated_case1_spec (S j) _ t2) by done.
  eexists _, _, _. split; [done|]. rewrite Hj2. destruct (is_trail t2) eqn:H2; cbn [negb]; [|done].
  destruct (trail_value t2 H2) as [-> Hv2]. rewrite shift6 by done. exists t2. split_and!; try done. lia.
Qed.

Lemma terminated_case3_spec : readable b r -> n = 3%nat -> 0xf0 <= b < 0xf8 ->
  exists il v i', terminated_case3 s (Z.of_nat (i + 1 + 0)) (b mod 8) = Some (il, v, i') /\ switch_ok il v i'.
Proof.
  intros Hrd Hn Hbr. unfold switch_ok. rewrite Hn. destruct (not_enough s i b r Hd 2 Hrd Hn) as (t1 & r' & Er).
  destruct (trail_read s i b r Hs Hd 0 t1) as [Hr1 Hu1]; [by rewrite Er|]. unfold terminated_case3. rewrite Hr1. cbn [mbind option_bind].
  rewrite trail_small by done. destruct (is_trail t1) eqn:H1; cbn [negb orb].
  2:{ eexists _, _, _. split; [done|]. rewrite Er. cbn [take forallb]. rewrite ?take_0, H1. by rewrite andb_false_r. }
  destruct (trail_value t1 H1) as [-> Hv1]. rewrite shift6, Z.geb_leb by done. set (m := b mod 8 * 64 + (t1 - 0x80)).
  assert (Hm : m = (b - 0xf0) * 64 + (t1 - 0x80)) by (unfold m; dlia). clearbody m.
  destruct (readable_next b r t1 r' 1 Hrd Hn Er H1) as (t2 & r'' & ->).
  assert (Hrest : is_trail t2 = true -> exists t3 r3, r'' = t3 :: r3).
  { intros H2. destruct r'' as [|t3 r3]; [|by eexists _, _]. exfalso. unfold readable in Hrd. rewrite Hn, Er in Hrd.
    cbn [leading_trails List.length] in Hrd. rewrite H1, H2 in Hrd. lia. }
  rewrite Er. destruct (Z.leb_spec 0x110 m) as [Hbig|Hsmall].
  { eexists _, _, _. split; [done|]. destruct r'' as [|t3 r3]; [done|]. cbn [take List.length Nat.eqb forallb andb sequence_value]. rewrite ?take_0.
    destruct (is_trail t2) eqn:H2; [|by rewrite andb_false_r]. destruct (is_trail t3) eqn:H3; [|by rewrite andb_false_r].
    rewrite H1. cbn [andb]. destruct (trail_value t2 H2), (trail_value t3 H3). apply bool_decide_eq_false_2. intros Hsc%scalar_range. lia. }
  replace (Z.of_nat (i + 1 + 0) + 1) with (Z.of_nat (i + 1 + 1)) by lia.
  destruct (terminated_case2_spec 1 m t2) as (il & v & i' & -> & Hil); [by rewrite Er|..].
  { intros H2. destruct (Hrest H2) as (t3 & r3 & ->). by rewrite Er. }
  eexists _, _, _. split; [done|]. rewrite Er in Hil. cbn [lookup list_lookup] in Hil. destruct il.
  - destruct r'' as [|t3 r3]; [done|]. cbn [take List.length Nat.eqb forallb andb lookup list_lookup] in *. rewrite ?take_0. rewrite H1. cbn [andb].
    destruct (is_trail t2); [by rewrite Hil|done].
  - destruct Hil as (t3 & Hj3 & H2 & H3 & -> & ->). destruct r'' as [|t3' r3]; [done|]. injection Hj3 as ->.
    cbn [take List.length forallb sequence_value]. rewrite ?take_0. rewrite H1, H2, H3. destruct (trail_value t2 H2) as [_ Hv2], (trail_value t3 H3) as [_ Hv3].
    split_and!; try done; lia.
Qed.

Lemma terminated_spec : readable b r -> utf8_nextCharSafeBodyTerminated s (Z.of_nat (i + 1)) b = Some body_result.
Proof.
  intros Hrd. pose proof (lead_byte s i b r Hs Hd) as Hlb. unfold utf8_nextCharSafeBodyTerminated. rewrite U8_COUNT_TRAIL_BYTES_spec by done.
  destruct (Z.eqb_spec (Z.of_nat n) 0) as [H0|H0].
  { unfold body_result. rewrite (first_char_none b r Hb) by lia. replace n with 0%nat by lia. cbn. do 2 f_equal. lia. }
  assert (H : exists il v i', (if Z.of_nat n =? 3 then terminated_case3 s (Z.of_nat (i + 1)) (U8_MASK_LEAD_BYTE b (Z.of_nat n))
      else if Z.of_nat n =? 2 then terminated_case2 s (Z.of_nat (i + 1)) (U8_MASK_LEAD_BYTE b (Z.of_nat n))
      else if Z.of_nat n =? 1 then terminated_case1 s (Z.of_nat (i + 1)) (U8_MASK_LEAD_BYTE b (Z.of_nat n))
      else Some (true, U8_MASK_LEAD_BYTE b (Z.of_nat n), Z.of_nat (i + 1))) = Some (il, v, i') /\ switch_ok il v i').
  2:{ destruct H as (il & v & i' & -> & Hok). cbn [mbind option_bind]. rewrite Nat2Z.id. apply switch_result; [done|]. by apply skip_rest. }
  unfold switch_ok. destruct (trail_count_cases b Hlb Hb) as [Hn|[[Hn Hbr]|[[Hn Hbr]|[[Hn Hbr]|Hn]]]]; [lia|..].
  - rewrite Hn. cbn [Z.of_nat Pos.of_succ_nat Z.eqb Pos.eqb]. rewrite (mask_lead b 1) by lia.
    destruct (not_enough s i b r Hd 0 Hrd Hn) as (t & r' & Er). replace (i + 1)%nat with (i + 1 + 0)%nat by lia.
    rewrite (terminated_case1_spec 0 _ t) by (by rewrite Er). rewrite Er. cbn [take List.length forallb sequence_value]. rewrite ?take_0. rewrite andb_true_r.
    eexists _, _, _. split; [done|]. destruct (is_trail t) eqn:Ht; cbn [negb]; [|done].
    destruct (trail_value t Ht) as [-> Hv]. rewrite shift6 by done. change (2 ^ (6 - Z.of_nat 1)) with 32. split_and!; try done; try lia; dlia.
  - rewrite Hn. cbn [Z.of_nat Pos.of_succ_nat Pos.succ Z.eqb Pos.eqb]. rewrite (mask_lead b 2) by lia.
    destruct (not_enough s i b r Hd 1 Hrd Hn) as (t1 & r' & Er). replace (i + 1)%nat with (i + 1 + 0)%nat by lia.
    destruct (terminated_case2_spec 0 (b mod 2 ^ (6 - Z.of_nat 2)) t1) as (il & v & i' & -> & Hil); [by rewrite Er|..].
    { intros Ht. destruct (readable_next b r t1 r' 0 Hrd Hn Er Ht) as (t2 & r'' & ->). by rewrite Er. }
    eexists _, _, _. split; [done|]. rewrite Er in *. cbn [lookup list_lookup] in Hil. destruct il.
    + destruct (is_trail t1) eqn:H1.
      * destruct r' as [|t2 r'']; [done|]. cbn [lookup list_lookup] in Hil. cbn [take List.length forallb]. rewrite ?take_0. rewrite H1, Hil. done.
      * destruct r' as [|t2 r'']; cbn [take List.length forallb]; rewrite H1; done.
    + destruct Hil as (t2 & Hj2 & H1 & H2 & -> & ->). destruct r' as [|t2' r'']; [done|]. injection Hj2 as ->.
      cbn [take List.length forallb sequence_value]. rewrite ?take_0. rewrite H1, H2. destruct (trail_value t1 H1) as [_ Hv1], (trail_value t2 H2) as [_ Hv2].
      change (2 ^ (6 - Z.of_nat 2)) with 16. split_and!; try done; try lia; dlia.
  - rewrite Hn. cbn [Z.of_nat Pos.of_succ_nat Pos.succ Z.eqb Pos.eqb]. rewrite (mask_lead b 3) by lia. change (2 ^ (6 - Z.of_nat 3)) with 8.
    destruct (terminated_case3_spec Hrd Hn Hbr) as (il & v & i' & E & Hok). exists il, v, i'. unfold switch_ok in Hok.
    rewrite Hn in Hok. rewrite Nat.add_0_r in E. by rewrite E.
  - rewrite !(proj2 (Z.eqb_neq (Z.of_nat n) _)) by lia. eexists _, _, _. split; [done|]. apply long_illegal. lia.
Qed.

(** *** Up to a limit *)

#[local] Abbreviation limit := (Z.of_nat (List.length s)).

Lemma skip_trails_limit_spec m : forall j : nat, (i + 1 + j <= List.length s)%nat ->
  skip_trails_limit m s (Z.of_nat (i + 1 + j)) limit = Some (Z.of_nat (i + 1 + j + leading_trails m (drop j r))).
Proof.
  induction m as [|m IH]; intros j Hj; [cbn; f_equal; lia|]. cbn [skip_trails_limit].
  pose proof (length_rest s i b r Hd) as Hl. destruct (Z.ltb_spec (Z.of_nat (i + 1 + j)) limit) as [Hlt|Hge].
  - destruct (lookup_lt_is_Some_2 r j) as [t Hj']; [lia|]. rewrite (rest_get s i b r Hd), Hj'. cbn [mbind option_bind].
    rewrite U8_IS_TRAIL_spec by (eapply Forall_lookup_1; [by eapply rest_bytes|done]). rewrite (drop_S _ _ _ Hj'). cbn [leading_trails].
    destruct (is_trail t); [|do 2 f_equal; lia]. replace (Z.of_nat (i + 1 + j) + 1) with (Z.of_nat (i + 1 + S j)) by lia.
    rewrite IH by lia. do 2 f_equal. lia.
  - rewrite drop_ge by lia. cbn [leading_trails]. do 2 f_equal. lia.
Qed.

Lemma pointer_case1_spec j c il t : r !! j = Some t ->
  pointer_case1 s (Z.of_nat (i + 1 + j)) c il =
    Some (Z.lor il (Z.lxor (Z.land t 0xc0) 0x80), c * 64 + Z.land t 0x3f, Z.of_nat (i + 2 + j)) /\ is_uint8 t.
Proof.
  intros Hj. destruct (trail_read s i b r Hs Hd j t Hj) as [_ Hu]. split; [|done]. unfold pointer_case1.
  rewrite (rest_get s i b r Hd), Hj. cbn [mbind option_bind]. rewrite shift6 by apply (pointer_bits t Hu). do 3 f_equal. lia.
Qed.

Lemma pointer_case2_spec j c il t1 t2 : r !! j = Some t1 -> r !! S j = Some t2 ->
  exists il' v, pointer_case2 s (Z.of_nat (i + 1 + j)) c il = Some (il', v, Z.of_nat (i + 3 + j)) /\
    (il' =? 0) = (il =? 0) && (is_trail t1 && is_trail t2) /\ 
    (is_trail t1 = true -> is_trail t2 = true -> v = (c * 64 + (t1 - 0x80)) * 64 + (t2 - 0x80)).
Proof.
  intros Hj1 Hj2. unfold pointer_case2. destruct (pointer_case1_spec j c il t1 Hj1) as [-> Hu1]. cbn [mbind option_bind].
  replace (i + 2 + j)%nat with (i + 1 + S j)%nat by lia. edestruct (pointer_case1_spec (S j)) as [-> Hu2]; [done|].
  destruct (pointer_bits t1 Hu1) as (E1 & _ & V1), (pointer_bits t2 Hu2) as (E2 & _ & V2). eexists _, _. split; [|split].
  - do 3 f_equal. lia.
  - by rewrite !lor_zero, E1, E2, andb_assoc.
  - intros H1 H2. by rewrite V1, V2.
Qed.

Lemma pointer_case3_spec t1 t2 t3 r' : n = 3%nat -> 0xf0 <= b < 0xf8 -> r = t1 :: t2 :: t3 :: r' ->
  exists il v i', pointer_case3 s (Z.of_nat (i + 1 + 0)) (b mod 8) = Some (il, v, i') /\ switch_ok (negb (il =? 0)) v i'.
Proof.
  intros Hn Hbr Er. destruct (trail_read s i b r Hs Hd 0 t1) as [_ Hu1]; [by rewrite Er|]. unfold pointer_case3.
  rewrite (rest_get s i b r Hd 0), Er. cbn [lookup list_lookup mbind option_bind].
  destruct (pointer_bits t1 Hu1) as (E1 & Hr1 & V1). rewrite shift6 by done. unfold switch_ok. rewrite Hn, Er.
  cbn [take List.length Nat.eqb forallb andb sequence_value]. rewrite take_0. cbn [List.length Nat.eqb forallb andb].
  destruct (Z.ltb_spec (b mod 8 * 64 + Z.land t1 0x3f) 0x110) as [Hsmall|Hbig].
  - replace (Z.of_nat (i + 1 + 0) + 1) with (Z.of_nat (i + 1 + 1)) by lia.
    destruct (pointer_case2_spec 1 (b mod 8 * 64 + Z.land t1 0x3f) (Z.lxor (Z.land t1 0xc0) 0x80) t2 t3) as (il & v & -> & Eil & Ev); [by rewrite Er..|].
    eexists _, _, _. split; [done|]. rewrite Eil, E1. destruct (is_trail t1) eqn:H1, (is_trail t2) eqn:H2, (is_trail t3) eqn:H3; try done.
    cbn [negb andb]. rewrite Ev by done. rewrite V1 in * by done. destruct (trail_value t2 H2) as [_ Hv2], (trail_value t3 H3) as [_ Hv3].
    split_and!; try done; try lia; dlia.
  - eexists _, _, _. split; [done|]. cbn [Z.eqb negb]. destruct (is_trail t1) eqn:H1, (is_trail t2) eqn:H2, (is_trail t3) eqn:H3; try done.
    rewrite V1 in * by done. destruct (trail_value t2 H2) as [_ Hv2], (trail_value t3 H3) as [_ Hv3].
    apply bool_decide_eq_false_2. intros Hsc%scalar_range. dlia.
Qed.

Lemma pointer_switch : (n <> 0)%nat -> (n <= List.length r)%nat ->
  let c := U8_MASK_LEAD_BYTE b (Z.of_nat n) in
  exists il v i', (if Z.of_nat n =? 3 then pointer_case3 s (Z.of_nat (i + 1)) c
      else if Z.of_nat n =? 2 then pointer_case2 s (Z.of_nat (i + 1)) c 0
      else if Z.of_nat n =? 1 then pointer_case1 s (Z.of_nat (i + 1)) c 0
      else Some (1, c, Z.of_nat (i + 1))) = Some (il, v, i') /\ switch_ok (negb (il =? 0)) v i'.
Proof.
  intros H0 Hlen. cbv zeta. pose proof (lead_byte s i b r Hs Hd) as Hlb. replace (i + 1)%nat with (i + 1 + 0)%nat by lia.
  destruct (trail_count_cases b Hlb Hb) as [Hn|[[Hn Hbr]|[[Hn Hbr]|[[Hn Hbr]|Hn]]]]; [lia|..].
  - unfold switch_ok. rewrite Hn. cbn [Z.of_nat Pos.of_succ_nat Z.eqb Pos.eqb]. rewrite (mask_lead b 1) by lia. change (2 ^ (6 - Z.of_nat 1)) with 32.
    destruct (list_cases r) as [Er|(t1 & r' & Er)]; [rewrite Er in Hlen; cbn in Hlen; lia|].
    destruct (pointer_case1_spec 0 (b mod 32) 0 t1) as [-> Hu1]; [by rewrite Er|]. eexists _, _, _. split; [done|].
    destruct (pointer_bits t1 Hu1) as (E1 & Hr1 & V1). rewrite Z.lor_0_l, E1, Er. cbn [take List.length forallb sequence_value]. rewrite take_0, andb_true_r.
    destruct (is_trail t1) eqn:H1; [|done]. cbn [negb]. rewrite V1 in * by done. split_and!; try done; try lia; dlia.
  - unfold switch_ok. rewrite Hn. cbn [Z.of_nat Pos.of_succ_nat Pos.succ Z.eqb Pos.eqb]. rewrite (mask_lead b 2) by lia. change (2 ^ (6 - Z.of_nat 2)) with 16.
    destruct (list_cases r) as [Er|(t1 & r' & Er)]; [rewrite Er in Hlen; cbn in Hlen; lia|].
    destruct (list_cases r') as [Er'|(t2 & r'' & Er')]; rewrite Er' in Er; [rewrite Er in Hlen; cbn in Hlen; lia|].
    destruct (pointer_case2_spec 0 (b mod 16) 0 t1 t2) as (il & v & -> & Eil & Ev); [by rewrite Er..|]. eexists _, _, _. split; [done|].
    rewrite Eil, Er. cbn [take List.length forallb sequence_value Z.eqb andb]. rewrite take_0, andb_true_r.
    destruct (is_trail t1) eqn:H1, (is_trail t2) eqn:H2; try done. cbn [negb andb]. rewrite Ev by done.
    destruct (trail_value t1 H1) as [_ Hv1], (trail_value t2 H2) as [_ Hv2]. split_and!; try done; try lia; dlia.
  - rewrite Hn. change (Z.of_nat 3 =? 3) with true. cbv iota. rewrite (mask_lead b 3) by lia. change (2 ^ (6 - Z.of_nat 3)) with 8.
    destruct (list_cases r) as [Er|(t1 & r' & Er)]; [rewrite Er in Hlen; cbn in Hlen; lia|].
    destruct (list_cases r') as [Er'|(t2 & r'' & Er')]; rewrite Er' in Er; [rewrite Er in Hlen; cbn in Hlen; lia|].
    destruct (list_cases r'') as [Er''|(t3 & r3 & Er'')]; rewrite Er'' in Er; [rewrite Er in Hlen; cbn in Hlen; lia|].
    by apply (pointer_case3_spec t1 t2 t3 r3).
  - rewrite !(proj2 (Z.eqb_neq (Z.of_nat n) _)) by lia. eexists _, _, _. split; [done|]. apply long_illegal. lia.
Qed.

Lemma pointer_spec : utf8_nextCharSafeBodyPointer s (Z.of_nat (i + 1)) limit b = Some body_result.
Proof.
  pose proof (lead_byte s i b r Hs Hd) as Hlb. pose proof (length_rest s i b r Hd) as Hl. unfold utf8_nextCharSafeBodyPointer.
  rewrite U8_COUNT_TRAIL_BYTES_spec by done. rewrite Z.geb_leb.
  assert (Hskip : skip_trails_limit n s (Z.of_nat (i + 1)) limit = Some (Z.of_nat (i + 1 + leading_trails n r))).
  { pose proof (skip_trails_limit_spec n 0) as H. rewrite drop_0, Nat.add_0_r in H. apply H. lia. }
  destruct (Z.leb_spec (Z.of_nat n) (limit - Z.of_nat (i + 1))) as [Hle|Hgt]; cbn [andb].
  - destruct (Z.eqb_spec (Z.of_nat n) 0) as [H0|H0].
    { unfold body_result. rewrite (first_char_none b r Hb) by lia. replace n with 0%nat by lia. cbn. do 2 f_equal. lia. }
    destruct pointer_switch as (il & v & i' & -> & Hok); [lia..|]. cbn [mbind option_bind]. rewrite Nat2Z.id. by apply switch_result.
  - cbn [mbind option_bind]. rewrite Nat2Z.id. change (negb (1 =? 0)) with true. apply switch_result; [|done]. unfold switch_ok.
    rewrite (proj2 (Nat.eqb_neq _ _)); [done|]. rewrite length_take. lia.
Qed.

(** *** Inline *)

Lemma inline_char_spec (lim : option Z) : lim = Some limit \/ lim = None /\ (readable b r \/ (2 <= List.length r)%nat) ->
  inline_char s lim (Z.of_nat i) b = Some None \/
  exists u k, inline_char s lim (Z.of_nat i) b = Some (Some (u, Z.of_nat (i + 1 + k))) /\ first_char b r = (Some u, k) /\ u <= 0xffff.
Proof.
  intros Hlim. pose proof (length_rest s i b r Hd) as Hl. unfold inline_char. set (left := bytes_left lim (Z.of_nat i)).
  assert (Hleft : forall m, left m = true -> (1 <= m)%Z -> (m - 1 <= Z.of_nat (List.length r)) \/ readable b r \/ (2 <= List.length r)%nat).
  { intros m. unfold left, bytes_left. destruct Hlim as [->|[-> Hr]]; [|by right]. rewrite Z.geb_leb, Z.leb_le. left. lia. }
  replace (Z.of_nat i + 1) with (Z.of_nat (i + 1 + 0)) by lia. replace (Z.of_nat i + 2) with (Z.of_nat (i + 1 + 1)) by lia. rewrite Z.gtb_ltb.
  destruct (Z.ltb_spec 0xe0 b).
  - destruct (Z.leb_spec b 0xec); cbn [andb]; [|by left]. destruct (left 3) eqn:E3; [|by left]. specialize (Hleft 3 E3 ltac:(lia)).
    assert (Hn : n = 2%nat) by (unfold trail_count; rewrite !(proj2 (Z.ltb_ge _ _)), (proj2 (Z.ltb_lt _ _)) by lia; done).
    destruct (list_cases r) as [Er|(t1 & r' & Er)].
    { exfalso. unfold readable in Hleft. rewrite Hn, Er in Hleft. cbn in Hleft. lia. }
    destruct (trail_read s i b r Hs Hd 0 t1) as [-> Hu1]; [by rewrite Er|]. cbn [mbind option_bind]. rewrite trail_test by done.
    destruct (is_trail t1) eqn:Ht1; [|by left].
    destruct (list_cases r') as [Er'|(t2 & r'' & Er')]; rewrite Er' in Er.
    { exfalso. unfold readable in Hleft. rewrite Hn, Er in Hleft. cbn in Hleft. rewrite Ht1 in Hleft. lia. }
    destruct (trail_read s i b r Hs Hd 1 t2) as [-> Hu2]; [by rewrite Er|]. cbn [mbind option_bind]. rewrite trail_test by done.
    destruct (is_trail t2) eqn:Ht2; [right|by left]. eexists _, 2%nat. split; [do 3 f_equal; lia|].
    rewrite (inline_three b r Hb t1 t2) by (done || lia || by rewrite Er). split; [done|].
    match goal with |- uint16 ?x <= _ => pose proof (uint16_range x) as Hu end. unfold is_uint16 in Hu. lia.
  - destruct (Z.ltb_spec b 0xe0); [|by left]. rewrite Z.geb_leb. destruct (Z.leb_spec 0xc2 b); cbn [andb]; [|by left].
    destruct (left 2) eqn:E2; [|by left]. specialize (Hleft 2 E2 ltac:(lia)).
    assert (Hn : n = 1%nat) by (unfold trail_count; rewrite (proj2 (Z.ltb_ge _ _)), (proj2 (Z.ltb_lt _ _)) by lia; done).
    destruct (list_cases r) as [Er|(t1 & r' & Er)].
    { exfalso. unfold readable in Hleft. rewrite Hn, Er in Hleft. cbn in Hleft. lia. }
    destruct (trail_read s i b r Hs Hd 0 t1) as [-> Hu1]; [by rewrite Er|]. cbn [mbind option_bind]. rewrite trail_test by done.
    destruct (is_trail t1) eqn:Ht1; [right|by left].
    rewrite (inline_two b r Hb t1) by (done || lia || by rewrite Er). destruct (trail_value t1 Ht1) as [-> Hv1].
    change 0x1f with (2 ^ 5 - 1). rewrite land_low_mask, shift6 by (done || lia). change (2 ^ 5) with 32.
    rewrite uint16_id by (unfold is_uint16; dlia). eexists _, 1%nat. split; [do 3 f_equal; lia|]. split; [done|]. dlia.
Qed.
End Body.

(** ** A NUL after the bytes *)

Lemma leading_trails_nul m r rest : leading_trails m (r ++ 0 :: rest) = leading_trails m r.
Proof.
  revert r. induction m as [|m IH]; intros r; [done|]. destruct r as [|t r]; [done|]. cbn [app leading_trails].
  destruct (is_trail t); [|done]. by rewrite IH.
Qed.

Lemma readable_nul b r rest : readable b (r ++ 0 :: rest).
Proof.
  right. rewrite leading_trails_nul, length_app. cbn [List.length]. pose proof (leading_trails_le (trail_count b) r). lia.
Qed.

Lemma first_char_nul b r rest : first_char b (r ++ 0 :: rest) = first_char b r.
Proof.
  unfold first_char. destruct (b <? 0x80); [done|]. rewrite leading_trails_nul.
  destruct (Nat.leb_spec (trail_count b) (List.length r)) as [Hle|Hgt]; [by rewrite take_app_le|].
  rewrite (take_ge r) by lia. rewrite (proj2 (Nat.eqb_neq (List.length r) _)) by lia. cbn [andb].
  rewrite take_app_ge by lia. destruct (trail_count b - List.length r)%nat as [|m] eqn:E; [lia|]. cbn [take].
  rewrite forallb_app. cbn [forallb]. change (is_trail 0) with false. by rewrite !andb_false_r.
Qed.
