(* ===== verification/UStrTrnsLoops.v ===== *)
(** * The loops of the conversion to UTF-16

    The state of a conversion is a function of what it has consumed and of the
    units it stands for so far; each loop goes from such a state to another. *)
From S2P Require Import Prelude Int32 Utf16 UString Utf8 Utf8Decoding UStrTrns UStrTrnsRest UStrTrnsFromUtf8.
Local Open Scope Z_scope.

(** What a loop needs of a [Reader] for the bytes [t]. *)
Class Reads (rd : Reader) (t : list Z) : Prop := {
  reads_byte (i : nat) : (i <= List.length t)%nat -> rd.(next_byte) (Z.of_nat i) = Some (t !! i);
  reads_inline (i : nat) b r : drop i t = b :: r -> 0x80 <= b ->
    rd.(next_inline) (Z.of_nat i) b = Some None \/
    exists u k, rd.(next_inline) (Z.of_nat i) b = Some (Some (u, Z.of_nat (i + 1 + k))) /\ first_char b r = (Some u, k) /\ u <= 0xffff;
  reads_body (i : nat) b r : drop i t = b :: r -> 0x80 <= b ->
    rd.(next_body) (Z.of_nat (i + 1)) b = Some (body_result i b r)
}.

Section Loops.
Context (dest : option (list Z)).

#[local] Abbreviation cap := (capacity dest).
#[local] Abbreviation len l := (Z.of_nat (List.length l)).

(** The bytes up to [i] have been consumed, with [n] substitutions; they stand
    for the units [out]. *)
Definition conv_at (i : nat) (out : list Z) (n : Z) : Conv :=
  MkConv (Z.of_nat i) (Z.min cap (len out)) (overlay dest out) (len out - Z.min cap (len out)) n.

#[local] Instance conv_states : States conv_at (fun out => len out) (overlay dest).
Proof. split; intros; try done; [cbn; lia|]. rewrite length_app. lia. Qed.

Context (subchar : Z) (t : list Z).
Context (Ht : is_bytes t) (Hsub : subchar < 0 \/ is_scalar subchar).

#[local] Abbreviation rest_ok := (UStrTrnsRest.rest_ok conv_at (fun out => len out) (overlay dest) units subchar).

(** ** Steps *)

Lemma put_at i out n u : len out < cap -> put (conv_at i out n) u = Some (conv_at i (out ++ [u]) n).
Proof.
  intros Hc. unfold put, conv_at. cbn [buffer pDest pSrc reqLength numSubstitutions]. rewrite Z.min_r by lia. pose proof (write_overlay dest out u) as Hw. unfold write in Hw.
  rewrite (proj2 (Z.ltb_lt _ _)) in Hw by done. destruct (overlay dest out) as [d|]; [|done]. cbn [mbind option_bind] in *.
  destruct (aset d _ u) as [d'|]; [|done]. cbn [mbind option_bind] in *. injection Hw as <-. rewrite length_app. cbn [List.length].
  do 2 f_equal; lia.
Qed.

(** Units that do not fit are counted. *)
Lemma require_at i out n us : cap <= len out ->
  require (conv_at i out n) (len out - Z.min cap (len out) + len us) = conv_at i (out ++ us) n.
Proof.
  intros Hc. unfold require, conv_at. cbn [buffer pDest pSrc reqLength numSubstitutions]. rewrite overlay_full by done. rewrite length_app.
  f_equal; lia.
Qed.

Lemma pSrc_at i out n : pSrc (conv_at i out n) = Z.of_nat i.
Proof. done. Qed.

Lemma move_at i j out n : move (conv_at i out n) (Z.of_nat j) = conv_at j out n.
Proof. done. Qed.

Lemma units_bmp c : is_scalar c -> c <= 0xffff -> units c = [c] /\ uint16 c = c.
Proof.
  intros Hc Hb. destruct (units_spec c Hc) as [(_ & -> & _)|[? _]]; [|lia]. split; [done|]. apply uint16_id. pose proof (scalar_range c Hc).
  unfold is_uint16. lia.
Qed.

Lemma units_supplementary c : is_scalar c -> 0xffff < c -> units c = [U16_LEAD c; U16_TRAIL c].
Proof. intros Hc Hb. by destruct (units_spec c Hc) as [(? & _)|(_ & ->)]; [lia|]. Qed.

Lemma first_char_single b r : b <= 0x7f -> first_char b r = (Some b, 0%nat).
Proof. intros. unfold first_char. by rewrite (proj2 (Z.ltb_lt _ _)) by lia. Qed.

Lemma first_char_trails b r : (snd (first_char b r) <= trail_count b)%nat.
Proof.
  unfold first_char. destruct (Z.ltb_spec b 0x80); [cbn; lia|]. destruct (_ && _); cbn [snd]; [lia|]. apply leading_trails_le.
Qed.

Lemma first_char_bmp b r c k : is_uint8 b -> b < 0xf0 -> first_char b r = (Some c, k) -> c <= 0xffff.
Proof.
  intros Hb Hlt Hf. destruct (first_char_encode b r c k Hb Hf) as [Hsc He]. pose proof (scalar_range c Hsc).
  destruct (Z.leb_spec c 0xffff); [done|]. exfalso. unfold encode in He. rewrite !(proj2 (Z.ltb_ge _ _)) in He by lia.
  injection He as -> _. dlia.
Qed.

Lemma first_char_short b r c k : is_uint8 b -> c <= 0xffff -> first_char b r = (Some c, k) -> (k <= 2)%nat.
Proof.
  intros Hb Hc Hf. pose proof (first_char_le b r) as Hk. rewrite Hf in Hk. cbn [snd] in Hk.
  destruct (first_char_encode b r c k Hb Hf) as [_ He]. apply (f_equal List.length) in He. cbn [List.length] in He. rewrite length_take in He.
  unfold encode in He. rewrite (proj2 (Z.ltb_lt c 0x10000)) in He by lia. repeat case_match; cbn [List.length] in He; lia.
Qed.

Lemma trail_count_le b : (trail_count b <= 5)%nat /\ (b < 0xf0 -> (trail_count b <= 2)%nat).
Proof. unfold trail_count. repeat case_match; rewrite ?Z.ltb_lt, ?Z.ltb_ge in *; lia. Qed.

(** What is left after the first code point. *)
Lemma drop_next i b r : drop i t = b :: r ->
  let '(c, k) := first_char b r in
  drop (i + 1 + k) t = drop k r /\ (i + 1 + k <= List.length t)%nat /\ (forall c', c = Some c' -> is_scalar c') /\ decode (drop i t) = c :: decode (drop (i + 1 + k) t).
Proof.
  intros Hd. pose proof (first_char_le b r) as Hk. pose proof (length_rest t i b r Hd) as Hl. pose proof (decode_cons b r) as Hdec.
  pose proof (first_char_encode b r) as Henc. destruct (first_char b r) as [c k] eqn:E. cbn [snd] in Hk. 
  assert (Hdrop : drop (i + 1 + k) t = drop k r) by (by rewrite <- drop_drop, (rest_drop t i b r)).
  split_and!; [done|lia| |by rewrite Hd, Hdec, Hdrop]. intros c' ->. eapply Henc; [|done]. by eapply lead_byte.
Qed.

Context (Hlen : len t <= INT32_MAX).

Section Readers.
Context (rd : Reader) `{Hrd : !Reads rd t}.

(** *** Counting *)
Lemma count_spec fuel : forall i out n, (List.length t - i < fuel)%nat -> (i <= List.length t)%nat -> 0 <= n <= Z.of_nat i ->
  (i = List.length t \/ cap <= len out) ->
  rest_ok out n (decode (drop i t)) (count_utf16 fuel rd subchar (conv_at i out n)).
Proof.
  induction fuel as [|fuel IH]; intros i out n Hf Hi Hn Hfull; [lia|]. cbn [count_utf16]. change (pSrc (conv_at i out n)) with (Z.of_nat i).
  rewrite reads_byte by done. cbn [mbind option_bind]. destruct (t !! i) as [b|] eqn:Hb.
  2:{ apply lookup_ge_None in Hb. rewrite drop_ge by done. eapply rest_done. }
  pose proof (lookup_lt_Some _ _ _ Hb) as Hlt. destruct Hfull as [?|Hfull]; [lia|]. pose proof (drop_S _ _ _ Hb) as Hd.
  pose proof (drop_next i b _ Hd) as Hnext. change (reqLength (conv_at i out n)) with (len out - Z.min cap (len out)).
  assert (Hcount : forall j x n', (i < j <= List.length t)%nat -> is_scalar x -> 0 <= n' <= Z.of_nat j ->
    rest_ok (out ++ units x) n' (decode (drop j t))
      (let! m := (len out - Z.min cap (len out)) +! U16_LENGTH x in count_utf16 fuel rd subchar (require (conv_at j out n') m))).
  { intros j x n' Hj Hx Hn'. eapply rest_bound; [apply _|]. intros Hmax. rewrite <- units_length by done. rewrite length_app in Hmax.
    pose proof (cap_nonneg dest). rewrite iadd_ok by ibound. cbn [obind]. rewrite require_at by done. apply IH; rewrite ?length_app; lia. }
  destruct (Z.leb_spec b 0x7f) as [Hs|Hs].
  { rewrite (first_char_single b _ Hs) in Hnext. destruct Hnext as (_ & Hj & Hsc & ->). apply rest_char.
    replace (Z.of_nat i + 1) with (Z.of_nat (i + 1 + 0)) by lia. specialize (Hcount (i + 1 + 0)%nat b n ltac:(lia) (Hsc b eq_refl) ltac:(lia)).
    replace (U16_LENGTH b) with 1 in Hcount; [exact Hcount|]. pose proof (scalar_range b (Hsc b eq_refl)). rewrite U16_LENGTH_spec by lia.
    by rewrite (proj2 (Z.ltb_lt _ _)) by lia. }
  destruct (reads_inline i b _ Hd ltac:(lia)) as [->|(u & k & -> & Hf1 & Hu)]; cbn [mbind option_bind].
  - replace (Z.of_nat i + 1) with (Z.of_nat (i + 1)) by lia. rewrite (reads_body i b _ Hd) by lia. unfold body_result.
    destruct (first_char b (drop (S i) t)) as [c k]. destruct Hnext as (_ & Hj & Hsc & ->). cbn [mbind option_bind].
    destruct (substitute_at conv_at _ _ units subchar Hsub c i (i + 1 + k) out n (decode (drop (i + 1 + k) t)) Hsc) as [(x & n' & -> & Hx & Hor & Hn' & Hr)|(st & -> & Hr)];
      [lia..| |exact Hr]. cbn [mbind option_bind]. apply Hr. apply Hcount; (done || lia).
  - rewrite Hf1 in Hnext. destruct Hnext as (_ & Hj & Hsc & ->). apply rest_char.
    specialize (Hcount (i + 1 + k)%nat u n ltac:(lia) (Hsc u eq_refl) ltac:(lia)).
    replace (U16_LENGTH u) with 1 in Hcount; [exact Hcount|]. pose proof (scalar_range u (Hsc u eq_refl)). rewrite U16_LENGTH_spec by lia.
    by rewrite (proj2 (Z.ltb_lt _ _)) by lia.
Qed.

(** *** Writing *)
Lemma write_spec K :
  (forall i out n, (i <= List.length t)%nat -> 0 <= n <= Z.of_nat i -> i = List.length t \/ cap <= len out ->
     rest_ok out n (decode (drop i t)) (K (conv_at i out n))) ->
  forall fuel i out n, (List.length t - i < fuel)%nat -> (i <= List.length t)%nat -> 0 <= n <= Z.of_nat i ->
  rest_ok out n (decode (drop i t)) (and_then (write_utf16 fuel rd cap subchar (conv_at i out n)) K).
Proof.
  intros HK. induction fuel as [|fuel IH]; intros i out n Hf Hi Hn; [lia|]. cbn [write_utf16].
  change (pSrc (conv_at i out n)) with (Z.of_nat i). change (pDest (conv_at i out n)) with (Z.min cap (len out)).
  rewrite reads_byte by done. cbn [mbind option_bind]. destruct (t !! i) as [b|] eqn:Hb.
  2:{ apply lookup_ge_None in Hb. apply HK; (done || lia). }
  pose proof (lookup_lt_Some _ _ _ Hb) as Hlt. destruct (Z.ltb_spec (Z.min cap (len out)) cap) as [Hroom|Hfull]; cbn [negb].
  2:{ apply HK; (done || lia). }
  pose proof (drop_S _ _ _ Hb) as Hd. pose proof (drop_next i b _ Hd) as Hnext.
  destruct (Z.leb_spec b 0x7f) as [Hs|Hs].
  { rewrite (first_char_single b _ Hs) in Hnext. destruct Hnext as (_ & Hj & Hsc & ->). apply rest_char.
    destruct (units_bmp b) as [-> ->]; [by apply Hsc|lia|]. rewrite put_at by lia. cbn [mbind option_bind].
    rewrite pSrc_at. replace (Z.of_nat i + 1) with (Z.of_nat (i + 1 + 0)) by lia. apply IH; lia. }
  destruct (reads_inline i b _ Hd ltac:(lia)) as [->|(u & k & -> & Hf1 & Hu)]; cbn [mbind option_bind].
  - replace (Z.of_nat i + 1) with (Z.of_nat (i + 1)) by lia. rewrite (reads_body i b _ Hd) by lia. unfold body_result.
    destruct (first_char b (drop (S i) t)) as [c k]. destruct Hnext as (_ & Hj & Hsc & ->). cbn [mbind option_bind].
    destruct (substitute_at conv_at _ _ units subchar Hsub c i (i + 1 + k) out n (decode (drop (i + 1 + k) t)) Hsc) as [(x & n' & -> & Hx & Hor & Hn' & Hr)|(st & -> & Hr)];
      [lia..| |exact Hr]. cbn [mbind option_bind]. apply Hr. destruct (Z.leb_spec x 0xffff) as [Hx16|Hx16].
    + destruct (units_bmp x Hx Hx16) as [-> ->]. rewrite put_at by lia. cbn [mbind option_bind]. apply IH; lia.
    + rewrite (units_supplementary x Hx Hx16). rewrite put_at by lia. cbn [mbind option_bind].
      change (pDest (conv_at (i + 1 + k) (out ++ [U16_LEAD x]) n')) with (Z.min cap (len (out ++ [U16_LEAD x]))).
      change ([U16_LEAD x; U16_TRAIL x]) with ([U16_LEAD x] ++ [U16_TRAIL x]). rewrite app_assoc.
      destruct (Z.ltb_spec (Z.min cap (len (out ++ [U16_LEAD x]))) cap) as [Hroom2|Hfull].
      * rewrite put_at by lia. cbn [mbind option_bind]. apply IH; lia.
      * eapply rest_bound; [apply _|]. intros Hmax. rewrite length_app in Hmax. cbn [List.length] in Hmax. pose proof (cap_nonneg dest).
        change (reqLength (conv_at (i + 1 + k) (out ++ [U16_LEAD x]) n')) with (len (out ++ [U16_LEAD x]) - Z.min cap (len (out ++ [U16_LEAD x]))).
        rewrite iadd_ok by ibound. cbn [obind]. change 1 with (len [U16_TRAIL x]). rewrite require_at by lia.
        apply HK; rewrite ?length_app in *; cbn [List.length] in *; lia.
  - rewrite Hf1 in Hnext. destruct Hnext as (_ & Hj & Hsc & ->). apply rest_char.
    destruct (units_bmp u) as [-> _]; [by apply Hsc|done|]. rewrite put_at by lia. cbn [mbind option_bind]. apply IH; lia.
Qed.
End Readers.

(** ** The faster loop *)

Section Fast.
Context (Hinline : forall (i : nat) b r, drop i t = b :: r -> 0x80 <= b -> (2 <= List.length r)%nat ->
  inline_char t None (Z.of_nat i) b = Some None \/
  exists u k, inline_char t None (Z.of_nat i) b = Some (Some (u, Z.of_nat (i + 1 + k))) /\ first_char b r = (Some u, k) /\ u <= 0xffff).
Context (Hbody : forall (i : nat) b r, drop i t = b :: r -> 0x80 <= b ->
  utf8_nextCharSafeBodyPointer t (Z.of_nat (i + 1)) (len t) b = Some (body_result i b r)).

(** The steps that are counted leave room for what they read and write. *)
Lemma fast_spec K i0 :
  (forall i out n, (i0 < i <= List.length t)%nat -> 0 <= n <= Z.of_nat i -> rest_ok out n (decode (drop i t)) (K (conv_at i out n))) ->
  forall fuel i out n count, 1 <= count <= Z.of_nat fuel -> count <= cap - len out -> 3 * count <= len t - Z.of_nat i ->
  (i0 < i)%nat \/ (i0 = i /\ 2 <= count) -> 0 <= n <= Z.of_nat i ->
  rest_ok out n (decode (drop i t)) (and_then (fast_utf16 fuel t (len t) subchar count (conv_at i out n)) K).
Proof.
  intros HK. induction fuel as [|fuel IH]; intros i out n count Hf Hroom Hsrc Hi0 Hn; [lia|]. cbn [fast_utf16].
  change (pSrc (conv_at i out n)) with (Z.of_nat i). destruct (lookup_lt_is_Some_2 t i) as [b Hb]; [lia|].
  rewrite aget_nat, Hb. cbn [mbind option_bind]. pose proof (drop_S _ _ _ Hb) as Hd. pose proof (drop_next i b _ Hd) as Hnext.
  assert (Hcont : forall count' j out' n', (i < j <= List.length t)%nat -> count' <= count -> count' - 1 <= cap - len out' ->
    3 * (count' - 1) <= len t - Z.of_nat j -> 0 <= n' <= Z.of_nat j ->
    rest_ok out' n' (decode (drop j t)) (and_then (if count' - 1 >? 0 then fast_utf16 fuel t (len t) subchar (count' - 1) (conv_at j out' n')
      else Some (Done (conv_at j out' n'))) K)).
  { intros count' j out' n' Hj Hc Hr Hs Hn'. rewrite Z.gtb_ltb. destruct (Z.ltb_spec 0 (count' - 1)); [apply IH; lia|]. apply HK; lia. }
  destruct (Z.leb_spec b 0x7f) as [Hs|Hs].
  { rewrite (first_char_single b _ Hs) in Hnext. destruct Hnext as (_ & Hj & Hsc & ->). apply rest_char.
    destruct (units_bmp b) as [-> ->]; [by apply Hsc|lia|]. rewrite put_at by lia. cbn [mbind option_bind].
    rewrite pSrc_at. replace (Z.of_nat i + 1) with (Z.of_nat (i + 1 + 0)) by lia. rewrite move_at. apply Hcont; rewrite ?length_app; cbn [List.length]; lia. }
  destruct (Hinline i b _ Hd) as [->|(u & k & -> & Hf1 & Hu)]; [lia|rewrite length_drop; lia|..]; cbn [mbind option_bind].
  - replace (Z.of_nat i + 1) with (Z.of_nat (i + 1)) by lia. rewrite (Hbody i b _ Hd) by lia. unfold body_result.
    pose proof (first_char_trails b (drop (S i) t)) as Hk. assert (Hlb : is_uint8 b) by (by eapply lead_byte).
    pose proof (trail_count_le b) as Hcases.
    pose proof (first_char_bmp b (drop (S i) t)) as Hbmp.
    destruct (first_char b (drop (S i) t)) as [c k]. cbn [snd] in Hk. destruct Hnext as (_ & Hj & Hsc & Edec). cbn [mbind option_bind].
    set (adjust := (b >=? 0xf0) || (subchar >? 0xffff)). set (count' := if adjust then count - 1 else count).
    assert (Hcount' : (count' = count - 1 /\ adjust = true) \/ (count' = count /\ adjust = false /\ b < 0xf0 /\ subchar <= 0xffff)).
    { unfold count', adjust. destruct (_ || _) eqn:E; [by left|right]. rewrite orb_false_iff, Z.geb_leb, Z.leb_gt, Z.gtb_ltb, Z.ltb_ge in E. done. }
    clearbody count' adjust. destruct (adjust && (count' =? 0)) eqn:E.
    { apply andb_true_iff in E as [_ E%Z.eqb_eq]. unfold and_then. cbn [mbind option_bind].
      apply HK; lia. }
    rewrite Edec.
    destruct (substitute_at conv_at _ _ units subchar Hsub c i (i + 1 + k) out n (decode (drop (i + 1 + k) t)) Hsc) as [(x & n' & -> & Hx & Hor & Hn' & Hr)|(st & -> & Hr)];
      [lia..| |exact Hr]. cbn [mbind option_bind]. apply Hr. destruct (Z.leb_spec x 0xffff) as [Hx16|Hx16].
    + destruct (units_bmp x Hx Hx16) as [-> ->]. rewrite put_at by lia. cbn [mbind option_bind].
      apply Hcont; rewrite ?length_app; cbn [List.length]; lia.
    + rewrite (units_supplementary x Hx Hx16). destruct Hcount' as [[-> ->]|(_ & _ & Hb0 & Hsub0)].
      * cbn [andb] in E. apply Z.eqb_neq in E. rewrite put_at by lia. cbn [mbind option_bind].
        rewrite put_at by (rewrite length_app; cbn [List.length]; lia). cbn [mbind option_bind]. rewrite <- app_assoc.
        apply Hcont; rewrite ?length_app; cbn [List.length app]; lia.
      * exfalso. destruct Hor as [->| ->]; [|lia]. specialize (Hbmp x k Hlb Hb0 eq_refl). lia.
  - pose proof (first_char_short b (drop (S i) t) u k ltac:(by eapply lead_byte) Hu Hf1) as Hk. rewrite Hf1 in Hnext.
    destruct Hnext as (_ & Hj & Hsc & ->). apply rest_char.
    destruct (units_bmp u) as [-> _]; [by apply Hsc|done|]. rewrite put_at by lia. cbn [mbind option_bind]. rewrite move_at.
    apply Hcont; rewrite ?length_app; cbn [List.length]; lia.
Qed.

Lemma rounds_spec K :
  (forall i out n, (i <= List.length t)%nat -> 0 <= n <= Z.of_nat i -> rest_ok out n (decode (drop i t)) (K (conv_at i out n))) ->
  forall fuel i out n, (List.length t - i < fuel)%nat -> (i <= List.length t)%nat -> 0 <= n <= Z.of_nat i ->
  rest_ok out n (decode (drop i t)) (and_then (fast_utf16_rounds fuel t (len t) cap subchar (conv_at i out n)) K).
Proof.
  intros HK. induction fuel as [|fuel IH]; intros i out n Hf Hi Hn; [lia|]. cbn [fast_utf16_rounds]. rewrite pSrc_at.
  change (pDest (conv_at i out n)) with (Z.min cap (len out)). set (count := Z.min _ _). destruct (Z.ltb_spec count 3) as [Hs|Hc]; [by apply HK|].
  fold (and_then (fast_utf16 (Z.to_nat count) t (len t) subchar count (conv_at i out n)) (fast_utf16_rounds fuel t (len t) cap subchar)).
  rewrite and_then_assoc. assert (Hsrc : 3 * ((len t - Z.of_nat i) / 3) <= len t - Z.of_nat i) by dlia.
  assert (Hq : Z.quot (len t - Z.of_nat i) 3 = (len t - Z.of_nat i) / 3) by (apply Z.quot_div_nonneg; lia).
  apply (fast_spec _ i); try (unfold count in *; lia). intros j out' n' Hj Hn'. apply IH; lia.
Qed.
End Fast.
End Loops.

#[export] Existing Instance conv_states.

(** ** Readers *)

#[export] Instance limit_reads t : is_bytes t -> Reads (limit_reader t (Z.of_nat (List.length t))) t.
Proof.
  intros Ht. split; cbn [next_byte next_inline next_body limit_reader].
  - intros i Hi. destruct (Z.ltb_spec (Z.of_nat i) (Z.of_nat (List.length t))) as [Hlt|Hge].
    + destruct (lookup_lt_is_Some_2 t i) as [b Hb]; [lia|]. by rewrite aget_nat, Hb.
    + by rewrite lookup_ge_None_2 by lia.
  - intros i b r Hd Hb. apply inline_char_spec; try done. by left.
  - intros i b r Hd Hb. by apply pointer_spec.
Qed.

Lemma nul_reads t rest : is_bytes (t ++ 0 :: rest) -> Forall (fun b => b <> 0) t -> Reads (nul_reader (t ++ 0 :: rest)) t.
Proof.
  intros Ht Hnz. assert (Hdrop : forall i b r, drop i t = b :: r -> drop i (t ++ 0 :: rest) = b :: r ++ 0 :: rest).
  { intros i b r Hd. pose proof (length_rest t i b r Hd). rewrite drop_app_le by lia. by rewrite Hd. }
  split; cbn [next_byte next_inline next_body nul_reader].
  - intros i Hi. rewrite aget_nat. destruct (decide (i = List.length t)) as [->|].
    + rewrite list_lookup_middle by done. cbn. by rewrite lookup_ge_None_2.
    + destruct (lookup_lt_is_Some_2 t i) as [b Hb]; [lia|]. rewrite lookup_app_l, Hb by lia. cbn.
      rewrite (proj2 (Z.eqb_neq b 0)); [done|]. by apply (Forall_lookup_1 _ _ _ _ Hnz Hb).
  - intros i b r Hd Hb. rewrite <- (first_char_nul b r rest). apply inline_char_spec; try done; [by apply Hdrop|].
    right. split; [done|]. left. apply readable_nul.
  - intros i b r Hd Hb. rewrite (terminated_spec _ i b (r ++ 0 :: rest)); [|done|by apply Hdrop|done|apply readable_nul].
    unfold body_result. by rewrite first_char_nul.
Qed.

(** ** The conversion *)

Lemma conv_start dest : MkConv 0 0 dest 0 0 = conv_at dest 0 [] 0.
Proof. unfold conv_at. rewrite overlay_nil. cbn [List.length]. pose proof (cap_nonneg dest). f_equal; lia. Qed.

Section FromUtf8.
Context (dest : option (list Z)) (t rest : list Z) (subchar : Z) (code : UErrorCode).
Context (Hlen : Z.of_nat (List.length t) <= INT32_MAX) (Hsub : substitute_char subchar) (Hcode : U_SUCCESS code = true).
Context (Hmax : Z.of_nat (List.length (utf16 (transcoded subchar (decode t)))) <= INT32_MAX).

Lemma from_utf8_limit : is_bytes t ->
  u_strFromUTF8WithSub dest (capacity dest) (Some t) (Z.of_nat (List.length t)) subchar code = Some (converted dest utf16 subchar (decode t) code).
Proof.
  intros Ht. pose proof (substitute_char_cases subchar Hsub) as Hsub'. unfold u_strFromUTF8WithSub. rewrite success_no_failure, good_arguments by (done || lia).
  change (default [] (Some t)) with t. rewrite (proj2 (Z.ltb_ge _ 0)) by lia. apply (overlay_finish (conv_at dest)); try (done || apply _).
  rewrite conv_start, and_then_assoc. rewrite <- (drop_0 t) at 1. pose proof (limit_reads t Ht) as Hrd. apply rounds_spec; try (done || lia).
  - intros i b r Hd Hb Hr. apply inline_char_spec; try done. right. split; [done|]. by right.
  - intros i b r Hd Hb. by apply pointer_spec.
  - intros i out n Hi Hn. apply write_spec; try (done || lia). intros. apply count_spec; (done || lia).
Qed.

Lemma from_utf8_nul : is_bytes (t ++ 0 :: rest) -> Forall (fun b => b <> 0) t ->
  u_strFromUTF8WithSub dest (capacity dest) (Some (t ++ 0 :: rest)) (-1) subchar code = Some (converted dest utf16 subchar (decode t) code).
Proof.
  intros Hs Hnz. assert (Ht : is_bytes t) by (by apply Forall_app in Hs as [? _]). pose proof (substitute_char_cases subchar Hsub) as Hsub'.
  unfold u_strFromUTF8WithSub. rewrite success_no_failure, good_arguments by (done || lia). change (default [] (Some (t ++ 0 :: rest))) with (t ++ 0 :: rest).
  change (-1 <? 0) with true. cbv iota. apply (overlay_finish (conv_at dest)); try (done || apply _).
  rewrite conv_start. rewrite <- (drop_0 t) at 1. pose proof (nul_reads t rest Hs Hnz) as Hrd.
  apply write_spec; try (done || rewrite ?length_app; lia). intros. apply count_spec; (done || rewrite ?length_app; lia).
Qed.
End FromUtf8.
