(* ===== verification/UStrTrnsToUtf8.v ===== *)
(** * Conversion to UTF-8 (src/common/ustrtrns.cpp)

    [u_strToUTF8WithSub], with the variables and results of the other direction.
    A code point whose bytes do not fit ends the output: the loops that write
    stop there, and the rest is counted. *)
From S2P Require Import Prelude Int32 Utf16 UString Utf8 UStrTrns.
Local Open Scope Z_scope.

Definition two_bytes (ch : Z) : list Z := [uint8 (Z.lor (Z.shiftr ch 6) 0xc0); uint8 (Z.lor (Z.land ch 0x3f) 0x80)].
Definition three_bytes (ch : Z) : list Z :=
  [uint8 (Z.lor (Z.shiftr ch 12) 0xe0); uint8 (Z.lor (Z.land (Z.shiftr ch 6) 0x3f) 0x80); uint8 (Z.lor (Z.land ch 0x3f) 0x80)].
Definition four_bytes (ch : Z) : list Z :=
  [uint8 (Z.lor (Z.shiftr ch 18) 0xf0); uint8 (Z.lor (Z.land (Z.shiftr ch 12) 0x3f) 0x80);
   uint8 (Z.lor (Z.land (Z.shiftr ch 6) 0x3f) 0x80); uint8 (Z.lor (Z.land ch 0x3f) 0x80)].

Definition _appendUTF8 (st : Conv) (c : Z) : option Conv :=
  if c <=? 0x7f then put_all st [uint8 c]
  else if c <=? 0x7ff then put_all st (two_bytes c)
  else if c <=? 0xffff then put_all st (three_bytes c)
  else put_all st (four_bytes c).

(** How the loops find the next unit, and whether the one at an index is a trail
    surrogate. *)
Record Reader16 := MkReader16 {
  next_unit : Z -> option (option Z);
  next_trail : Z -> option (option Z)
}.

Definition trail_unit (s : list Z) (i : Z) : option (option Z) := ch2 ← aget s i; Some (if U16_IS_TRAIL ch2 then Some ch2 else None).

Definition nul_reader16 (s : list Z) : Reader16 := {|
  next_unit i := ch ← aget s i; Some (if ch =? 0 then None else Some ch);
  next_trail := trail_unit s |}.

Definition limit_reader16 (s : list Z) (limit : Z) : Reader16 := {|
  next_unit i := if i <? limit then ch ← aget s i; Some (Some ch) else Some None;
  next_trail i := if i <? limit then trail_unit s i else Some None |}.

(** A surrogate that is no part of a pair: [ch=subchar], or an error. *)
Definition substitute_unpaired (st : Conv) (subchar : Z) : option (Conv * option Z) :=
  if subchar >=? 0 then
    let! n := st.(numSubstitutions) +! 1 in Some (MkConv st.(pSrc) st.(pDest) st.(buffer) st.(reqLength) n, Some subchar)
  else Some (st, None).

(** The loops that write. *)
Fixpoint write_utf8 (fuel : nat) (rd : Reader16) (pDestLimit subchar : Z) (st : Conv) : option Result :=
  match fuel with
  | O => None
  | S fuel' =>
      next ← rd.(next_unit) st.(pSrc);
      match next with
      | None => Some (Done st)
      | Some ch =>
          let st := move st (st.(pSrc) + 1) in
          if ch <=? 0x7f then
            if st.(pDest) <? pDestLimit then st ← put st (uint8 ch); write_utf8 fuel' rd pDestLimit subchar st
            else Some (Done (require st 1))
          else if ch <=? 0x7ff then
            if pDestLimit - st.(pDest) >=? 2 then st ← put_all st (two_bytes ch); write_utf8 fuel' rd pDestLimit subchar st
            else Some (Done (require st 2))
          else if (ch <=? 0xd7ff) || (ch >=? 0xe000) then
            if pDestLimit - st.(pDest) >=? 3 then st ← put_all st (three_bytes ch); write_utf8 fuel' rd pDestLimit subchar st
            else Some (Done (require st 3))
          else
            trail ← (if U16_IS_SURROGATE_LEAD ch then rd.(next_trail) st.(pSrc) else Some None);
            '(st, ch) ← (match trail with
                        | Some ch2 => Some (move st (st.(pSrc) + 1), Some (uint32 (U16_GET_SUPPLEMENTARY ch ch2)))
                        | None => substitute_unpaired st subchar
                        end);
            match ch with
            | None => Some (Invalid st)
            | Some ch =>
                let length := U8_LENGTH ch in
                if pDestLimit - st.(pDest) >=? length then st ← _appendUTF8 st ch; write_utf8 fuel' rd pDestLimit subchar st
                else Some (Done (require st length))
            end
      end
  end.

(** The loops that count the rest. *)
Fixpoint count_utf8 (fuel : nat) (rd : Reader16) (subchar : Z) (st : Conv) : option Result :=
  match fuel with
  | O => None
  | S fuel' =>
      next ← rd.(next_unit) st.(pSrc);
      match next with
      | None => Some (Done st)
      | Some ch =>
          let st := move st (st.(pSrc) + 1) in
          let add st n := let! n := st.(reqLength) +! n in count_utf8 fuel' rd subchar (require st n) in
          if ch <=? 0x7f then add st 1
          else if ch <=? 0x7ff then add st 2
          else if negb (U_IS_SURROGATE ch) then add st 3
          else
            trail ← (if U16_IS_SURROGATE_LEAD ch then rd.(next_trail) st.(pSrc) else Some None);
            match trail with
            | Some _ => add (move st (st.(pSrc) + 1)) 4
            | None =>
                if subchar >=? 0 then
                  let! r := st.(reqLength) +! U8_LENGTH subchar in
                  let! n := st.(numSubstitutions) +! 1 in
                  count_utf8 fuel' rd subchar (MkConv st.(pSrc) st.(pDest) st.(buffer) r n)
                else Some (Invalid st)
            end
      end
  end.

(** The faster loop: [count] steps of one unit and at most three bytes each. *)
Fixpoint fast_utf8 (fuel : nat) (s : list Z) (subchar count : Z) (st : Conv) : option Result :=
  match fuel with
  | O => None
  | S fuel' =>
      let continue count st := if count - 1 >? 0 then fast_utf8 fuel' s subchar (count - 1) st else Some (Done st) in
      ch ← aget s st.(pSrc);
      let i := st.(pSrc) + 1 in
      if ch <=? 0x7f then st ← put (move st i) (uint8 ch); continue count st
      else if ch <=? 0x7ff then st ← put_all (move st i) (two_bytes ch); continue count st
      else if (ch <=? 0xd7ff) || (ch >=? 0xe000) then st ← put_all (move st i) (three_bytes ch); continue count st
      else if count - 1 =? 0 then Some (Done st)
      else
        trail ← (if U16_IS_SURROGATE_LEAD ch then trail_unit s i else Some None);
        match trail with
        | Some ch2 => st ← put_all (move st (i + 1)) (four_bytes (uint32 (U16_GET_SUPPLEMENTARY ch ch2))); continue (count - 1) st
        | None =>
            '(st, ch) ← substitute_unpaired (move st i) subchar;
            match ch with
            | None => Some (Invalid st)
            | Some ch => st ← _appendUTF8 st ch; continue (count - 1) st
            end
        end
  end.

Fixpoint fast_utf8_rounds (fuel : nat) (s : list Z) (limit pDestLimit subchar : Z) (st : Conv) : option Result :=
  let count := Z.min (Z.quot (pDestLimit - st.(pDest)) 3) (limit - st.(pSrc)) in
  if count <? 3 then Some (Done st)
  else
    match fuel with
    | O => None
    | S fuel' =>
        r ← fast_utf8 (Z.to_nat count) s subchar count st;
        match r with Done st => fast_utf8_rounds fuel' s limit pDestLimit subchar st | Invalid st => Some (Invalid st) end
    end.

(** [u_terminateChars] is the same macro as [u_terminateUChars]. *)
Definition u_strToUTF8WithSub (dest : option (list Z)) (destCapacity : Z) (pSrc : option (list Z)) (srcLength subchar : Z)
    (code : UErrorCode) : option Converted :=
  if U_FAILURE code then Some (MkConverted dest None None code)
  else if bad_arguments pSrc dest srcLength destCapacity subchar then Some (MkConverted dest None None U_ILLEGAL_ARGUMENT_ERROR)
  else
    let s := default [] pSrc in
    let fuel := S (List.length s) in
    let st := MkConv 0 0 dest 0 0 in
    r ← (if srcLength =? -1 then
           let rd := nul_reader16 s in
           and_then (write_utf8 fuel rd destCapacity subchar st) (count_utf8 fuel rd subchar)
         else
           let rd := limit_reader16 s srcLength in
           and_then (and_then (fast_utf8_rounds fuel s srcLength destCapacity subchar st) (write_utf8 fuel rd destCapacity subchar))
             (count_utf8 fuel rd subchar));
    finish r destCapacity code.

Definition u_strToUTF8 (dest : option (list Z)) (destCapacity : Z) (pSrc : option (list Z)) (srcLength : Z) (code : UErrorCode) :=
  u_strToUTF8WithSub dest destCapacity pSrc srcLength U_SENTINEL code.

(** ** The reference *)

(** The code points of 16-bit units; an unpaired surrogate is an error. *)
Definition scalar_item (c : Z) : option Z := if bool_decide (is_scalar c) then Some c else None.
Definition items16 (s : list Z) : list (option Z) := map scalar_item (code_points s).

(** The code points, or units, whose bytes all fit. *)
Fixpoint fit (enc : Z -> list Z) (cap : Z) (cs : list Z) : list Z :=
  match cs with
  | [] => []
  | c :: cs => let n := Z.of_nat (List.length (enc c)) in if n <=? cap then c :: fit enc (cap - n) cs else []
  end.

Definition bytes_of (enc : Z -> list Z) (cs : list Z) : list Z := concat (map enc cs).

(** What a conversion to bytes gives. *)
Definition converted_bytes (enc : Z -> list Z) (dest : option (list Z)) : Z -> list (option Z) -> UErrorCode -> Converted :=
  converted_whole dest (fun cs => bytes_of enc (fit enc (capacity dest) cs)) (bytes_of enc).
