(* ===== verification/UStrTrnsFit.v ===== *)
(** * Output of whole sequences of bytes

    A conversion to bytes writes the bytes of a code point, or of a unit, only if
    all of them fit; the first ones that do not end the output. *)
From S2P Require Import Prelude Int32 Utf16 UString Utf8 UStrTrns UStrTrnsRest UStrTrnsToUtf8.
Local Open Scope Z_scope.

#[local] Abbreviation len l := (Z.of_nat (List.length l)).

Section Fit.
Context (enc : Z -> list Z) (Henc : forall c, 1 <= len (enc c) <= 4).
#[local] Abbreviation all := (bytes_of enc).

Lemma bytes_app cs ds : all (cs ++ ds) = all cs ++ all ds.
Proof. unfold bytes_of. by rewrite map_app, concat_app. Qed.

Lemma bytes_single c : all [c] = enc c.
Proof. unfold bytes_of. cbn. by rewrite app_nil_r. Qed.

Lemma snoc_length cs c : len (all (cs ++ [c])) = len (all cs) + len (enc c).
Proof. rewrite bytes_app, bytes_single, length_app. lia. Qed.

Lemma bytes_cons c cs : all (c :: cs) = enc c ++ all cs.
Proof. done. Qed.

(** ** What fits *)

Lemma fit_all cap cs : len (all cs) <= cap -> fit enc cap cs = cs.
Proof.
  revert cap. induction cs as [|c cs IH]; intros cap H; [done|]. cbn [fit]. rewrite bytes_cons, length_app in H.
  rewrite (proj2 (Z.leb_le _ _)) by lia. f_equal. apply IH. lia.
Qed.

Lemma fit_over cap cs ds : cap < len (all cs) -> fit enc cap (cs ++ ds) = fit enc cap cs.
Proof.
  revert cap. induction cs as [|c cs IH]; intros cap H.
  - destruct ds as [|d ds]; [done|]. cbn [app fit]. pose proof (Henc d). cbn in H. by rewrite (proj2 (Z.leb_gt _ _)) by lia.
  - cbn [app fit]. rewrite bytes_cons, length_app in H. destruct (_ <=? cap); [|done]. f_equal. apply IH. lia.
Qed.

Lemma fit_break cap cs c : len (all cs) <= cap < len (all (cs ++ [c])) -> fit enc cap (cs ++ [c]) = cs.
Proof.
  revert cap. induction cs as [|d cs IH]; intros cap H; cbn [app fit].
  - cbn [app] in H. rewrite bytes_single in H. by rewrite (proj2 (Z.leb_gt _ _)) by lia.
  - change ((d :: cs) ++ [c]) with (d :: cs ++ [c]) in H. rewrite !bytes_cons, !length_app in H. rewrite (proj2 (Z.leb_le _ _)) by lia. f_equal. apply IH. lia.
Qed.

Lemma fit_length cap cs : 0 <= cap -> len (all (fit enc cap cs)) <= len (all cs) /\ len (all (fit enc cap cs)) <= cap.
Proof.
  revert cap. induction cs as [|c cs IH]; intros cap H; [cbn; lia|]. cbn [fit]. rewrite bytes_cons.
  destruct (Z.leb_spec (len (enc c)) cap); [|cbn; lia]. rewrite bytes_cons, !length_app. destruct (IH (cap - len (enc c))); lia.
Qed.

(** ** States *)

Context (dest : option (list Z)).
#[local] Abbreviation cap := (capacity dest).

Definition fit_at (i : nat) (cs : list Z) (n : Z) : Conv :=
  MkConv (Z.of_nat i) (len (all (fit enc cap cs))) (overlay dest (all (fit enc cap cs))) (len (all cs) - len (all (fit enc cap cs))) n.

#[local] Instance fit_states : States fit_at (fun cs => len (all cs)) (fun cs => overlay dest (all (fit enc cap cs))).
Proof. split; intros; try done; [cbn; lia|]. rewrite bytes_app, length_app. lia. Qed.

Lemma fit_start : MkConv 0 0 dest 0 0 = fit_at 0 [] 0.
Proof. unfold fit_at. cbn. by rewrite overlay_nil. Qed.

Lemma put_all_at i cs n c : len (all (cs ++ [c])) <= cap -> put_all (fit_at i cs n) (enc c) = Some (fit_at i (cs ++ [c]) n).
Proof.
  intros Hc. unfold fit_at. rewrite !fit_all; [|done|rewrite snoc_length in Hc; lia]. rewrite !bytes_app, bytes_single in *.
  rewrite put_all_overlay by done. do 2 f_equal. lia.
Qed.

Lemma break_at i cs n c m : len (all cs) <= cap < len (all (cs ++ [c])) -> m = len (enc c) ->
  require (fit_at i cs n) m = fit_at i (cs ++ [c]) n.
Proof.
  intros Hc ->. unfold fit_at, require. cbn [pSrc pDest buffer numSubstitutions]. rewrite fit_break, fit_all, snoc_length by lia.
  f_equal. lia.
Qed.

Lemma require_over i cs n c m : cap < len (all cs) -> m = len (all cs) - len (all (fit enc cap cs)) + len (enc c) ->
  require (fit_at i cs n) m = fit_at i (cs ++ [c]) n.
Proof.
  intros Hc ->. unfold fit_at, require. cbn [pSrc pDest buffer numSubstitutions]. rewrite fit_over, snoc_length by done.
  f_equal. lia.
Qed.

Lemma pDest_at i cs n : len (all cs) <= cap -> pDest (fit_at i cs n) = len (all cs).
Proof. intros Hc. cbn. by rewrite fit_all. Qed.

Lemma bytes_finish subchar items r code :
  U_SUCCESS code = true ->
  rest_ok fit_at (fun cs => len (all cs)) (fun cs => overlay dest (all (fit enc cap cs))) (fun c => [c]) subchar [] 0 items r ->
  len (all (transcoded subchar items)) <= INT32_MAX ->
  (r ← r; finish r cap code) = Some (converted_bytes enc dest subchar items code).
Proof. intros Hc. apply whole_finish; [apply _|done|]. intros cs Hle. by rewrite fit_all. Qed.
End Fit.

#[export] Existing Instance fit_states.
