(* ===== verification/UStrTrnsToUtf8Loops.v ===== *)
(** * The loops of the conversion to UTF-8 *)
From S2P Require Import Prelude Int32 Utf16 UString Utf8 Utf8Decoding UStrTrns UStrTrnsRest UStrTrnsToUtf8 UStrTrnsFit.
Local Open Scope Z_scope.

#[local] Abbreviation len l := (Z.of_nat (List.length l)).

(** ** The bytes of a code point *)

Lemma lead_bits x h n : 0 <= n -> 0 <= x < 2 ^ n -> 0 <= h -> h * 2 ^ n + x < 256 -> uint8 (Z.lor x (h * 2 ^ n)) = h * 2 ^ n + x.
Proof. intros Hn Hx Hh Hlt. rewrite Z.lor_comm, lor_fields by done. unfold uint8. apply Z.mod_small. pose proof (Z.pow_nonneg 2 n). nia. Qed.

Lemma trail_bits x : uint8 (Z.lor (Z.land x 0x3f) 0x80) = 0x80 + x mod 64.
Proof.
  change 0x3f with (2 ^ 6 - 1). rewrite land_low_mask by lia. change (2 ^ 6) with 64.
  change 0x80 with (2 * 2 ^ 6) at 1. rewrite lead_bits; cbn; dlia.
Qed.

Lemma two_bytes_spec c : 0x80 <= c <= 0x7ff -> two_bytes c = encode c.
Proof.
  intros Hc. unfold two_bytes, encode. rewrite (proj2 (Z.ltb_ge _ 0x80)), (proj2 (Z.ltb_lt _ 0x800)), trail_bits by lia.
  rewrite Z.shiftr_div_pow2 by lia. change (2 ^ 6) with 64. change 0xc0 with (6 * 2 ^ 5) at 1. by rewrite lead_bits by (cbn; dlia).
Qed.

Lemma three_bytes_spec c : 0x800 <= c <= 0xffff -> three_bytes c = encode c.
Proof.
  intros Hc. unfold three_bytes, encode. rewrite !(proj2 (Z.ltb_ge _ _)), (proj2 (Z.ltb_lt _ 0x10000)), !trail_bits by lia.
  rewrite !Z.shiftr_div_pow2 by lia. change (2 ^ 6) with 64. change (2 ^ 12) with 4096.
  change 0xe0 with (14 * 2 ^ 4) at 1. by rewrite lead_bits by (cbn; dlia).
Qed.

Lemma four_bytes_spec c : 0x10000 <= c < 0x110000 -> four_bytes c = encode c.
Proof.
  intros Hc. unfold four_bytes, encode. rewrite !(proj2 (Z.ltb_ge _ _)), !trail_bits by lia.
  rewrite !Z.shiftr_div_pow2 by lia. change (2 ^ 6) with 64. change (2 ^ 12) with 4096. change (2 ^ 18) with 262144.
  change 0xf0 with (30 * 2 ^ 3) at 1. by rewrite lead_bits by (cbn; dlia).
Qed.

Lemma utf8_encode_length c : 1 <= len (encode c) <= 4.
Proof. unfold encode. repeat case_match; cbn; lia. Qed.

Lemma U8_LENGTH_spec c : is_scalar c -> U8_LENGTH c = len (encode c).
Proof.
  intros Hsc. pose proof (scalar_range c Hsc) as Hc. unfold U8_LENGTH, encode, uint32. rewrite Z.mod_small by lia. destruct Hsc as [_ Hns].
  destruct (Z.leb_spec c 0x7f); [by rewrite (proj2 (Z.ltb_lt _ _)) by lia|].
  destruct (Z.leb_spec c 0x7ff); [rewrite (proj2 (Z.ltb_ge _ _)), (proj2 (Z.ltb_lt _ _)) by lia; done|].
  rewrite (proj2 (Z.ltb_ge c 0x80)), (proj2 (Z.ltb_ge c 0x800)) by lia.
  destruct (Z.leb_spec c 0xd7ff); [by rewrite (proj2 (Z.ltb_lt _ _)) by lia|].
  destruct (Z.leb_spec c 0xdfff); [lia|]. rewrite Z.gtb_ltb, (proj2 (Z.ltb_ge 0x10ffff c)) by lia. cbn [orb].
  destruct (Z.leb_spec c 0xffff), (Z.ltb_spec c 0x10000); (lia || done).
Qed.

(** ** Units *)

(** The first code point of [ch :: r], or an error, and the number of units after [ch]. *)
Definition first_item (ch : Z) (r : list Z) : option Z * nat :=
  if negb (U_IS_SURROGATE ch) then (Some ch, 0%nat)
  else match r with
       | t :: _ => if U16_IS_SURROGATE_LEAD ch && U16_IS_TRAIL t then (Some (U16_GET_SUPPLEMENTARY ch t), 1%nat) else (None, 0%nat)
       | [] => (None, 0%nat)
       end.

Lemma surrogate_bounds ch : is_uint16 ch -> U_IS_SURROGATE ch = (0xd800 <=? ch) && (ch <? 0xe000).
Proof. intros Hc. unfold is_uint16 in Hc. apply U_IS_SURROGATE_spec. lia. Qed.

Lemma scalar_unit ch : is_uint16 ch -> scalar_item ch = if U_IS_SURROGATE ch then None else Some ch.
Proof.
  intros Hc. rewrite surrogate_bounds by done. unfold scalar_item, is_scalar, is_code_point. unfold is_uint16 in Hc.
  destruct (Z.leb_spec 0xd800 ch), (Z.ltb_spec ch 0xe000); cbn [andb]; case_bool_decide; (done || lia).
Qed.

Lemma pair_scalar ch t : is_uint16 ch -> is_uint16 t -> U16_IS_LEAD ch = true -> U16_IS_TRAIL t = true ->
  is_scalar (U16_GET_SUPPLEMENTARY ch t) /\ 0x10000 <= U16_GET_SUPPLEMENTARY ch t.
Proof.
  intros Hc Ht Hl Htt. unfold is_uint16 in *. rewrite U16_IS_LEAD_spec in Hl by lia. rewrite U16_IS_TRAIL_spec in Htt by lia.
  rewrite andb_true_iff, Z.leb_le, Z.ltb_lt in Hl, Htt. rewrite U16_GET_SUPPLEMENTARY_eq by lia. unfold is_scalar, is_code_point. lia.
Qed.

Lemma items16_cons ch r : is_string (ch :: r) ->
  let '(c, k) := first_item ch r in
  items16 (ch :: r) = c :: items16 (drop k r) /\ (k <= List.length r)%nat /\ (forall c', c = Some c' -> is_scalar c').
Proof.
  intros Hs. inversion Hs as [|? ? Hc Hr]; subst. unfold items16, first_item. rewrite code_points_cons.
  assert (Hns : U_IS_SURROGATE ch = false -> is_scalar ch).
  { rewrite surrogate_bounds by done. unfold is_uint16, is_scalar, is_code_point in *. rewrite andb_false_iff, Z.leb_gt, Z.ltb_ge. lia. }
  assert (Hlead : U16_IS_LEAD ch = U_IS_SURROGATE ch && U16_IS_SURROGATE_LEAD ch).
  { rewrite surrogate_bounds by done. unfold is_uint16 in Hc. rewrite U16_IS_LEAD_spec by lia.
    destruct (Z.leb_spec 0xd800 ch); cbn [andb]; [|done]. destruct (Z.ltb_spec ch 0xe000); cbn [andb].
    - by rewrite U16_IS_SURROGATE_LEAD_spec by lia.
    - by rewrite (proj2 (Z.ltb_ge _ _)) by lia. }
  destruct (U_IS_SURROGATE ch) eqn:Hsur; cbn [negb andb] in *.
  - destruct r as [|t r].
    { cbn [map]. rewrite scalar_unit, Hsur by done. split_and!; (done || lia). }
    rewrite Hlead. destruct (U16_IS_SURROGATE_LEAD ch && U16_IS_TRAIL t) eqn:E; cbn [map drop].
    2:{ rewrite scalar_unit, Hsur by done. split_and!; (done || cbn; lia). }
    apply andb_true_iff in E as [El Et]. inversion Hr as [|? ? Ht Hr']; subst. destruct (pair_scalar ch t Hc Ht) as [Hsc _]; [congruence|done|].
    unfold scalar_item at 1. rewrite bool_decide_eq_true_2 by done. split_and!; [done|cbn; lia|]. by intros ? [= <-].
  - assert (Hnl : code_points (ch :: r) = ch :: code_points r) by (rewrite code_points_cons, Hlead; by destruct r).
    rewrite code_points_cons in Hnl. rewrite Hnl. cbn [map]. rewrite scalar_unit, Hsur by done. split_and!; [done|lia|].
    intros ? [= <-]. by apply Hns.
Qed.

(** A surrogate, and the trail surrogate after it if it starts a pair. *)
Definition pair_trail (ch : Z) (r : list Z) : option Z :=
  if U16_IS_SURROGATE_LEAD ch then match r with t :: _ => if U16_IS_TRAIL t then Some t else None | [] => None end else None.

Lemma first_item_surrogate ch r : U_IS_SURROGATE ch = true ->
  first_item ch r = match pair_trail ch r with Some t => (Some (U16_GET_SUPPLEMENTARY ch t), 1%nat) | None => (None, 0%nat) end.
Proof. intros Hs. unfold first_item, pair_trail. rewrite Hs. cbn [negb]. destruct r as [|t r], (U16_IS_SURROGATE_LEAD ch); cbn; try done. by destruct (U16_IS_TRAIL t). Qed.

Lemma pair_supplementary ch r t : is_string (ch :: r) -> U_IS_SURROGATE ch = true -> pair_trail ch r = Some t ->
  0x10000 <= U16_GET_SUPPLEMENTARY ch t.
Proof.
  intros Hs Hsur Hp. inversion Hs as [|? ? Hc Hs']; subst. unfold pair_trail in Hp. destruct (U16_IS_SURROGATE_LEAD ch) eqn:El; [|done].
  destruct r as [|t' r]; [done|]. destruct (U16_IS_TRAIL t') eqn:Et; [|done]. injection Hp as ->. inversion Hs' as [|? ? Ht _]; subst.
  apply (pair_scalar ch t Hc Ht); [|done]. rewrite surrogate_bounds, andb_true_iff, Z.leb_le, Z.ltb_lt in Hsur by done.
  rewrite U16_IS_SURROGATE_LEAD_spec in El by done. rewrite U16_IS_LEAD_spec by lia. by rewrite El, (proj2 (Z.leb_le _ _)) by lia.
Qed.

(** What a loop needs of a [Reader16] for the units [t]. *)
Class Reads16 (rd : Reader16) (t : list Z) : Prop := {
  reads_unit (i : nat) : (i <= List.length t)%nat -> rd.(next_unit) (Z.of_nat i) = Some (t !! i);
  reads_trail (i : nat) ch r : drop i t = ch :: r ->
    (if U16_IS_SURROGATE_LEAD ch then rd.(next_trail) (Z.of_nat (i + 1)) else Some None) = Some (pair_trail ch r)
}.

Section Loops.
Context (dest : option (list Z)) (subchar : Z) (t : list Z).
Context (Ht : is_string t) (Hsub : subchar < 0 \/ is_scalar subchar) (Hlen : len t <= INT32_MAX).

#[local] Abbreviation cap := (capacity dest).
#[local] Abbreviation all := (bytes_of encode).
#[local] Abbreviation utf8_at := (fit_at encode dest).
#[local] Abbreviation rest_ok :=
  (UStrTrnsRest.rest_ok utf8_at (fun cs => len (all cs)) (fun cs => overlay dest (all (fit encode cap cs))) (fun c => [c]) subchar).

Lemma item_char c cs n items r : rest_ok (cs ++ [c]) n items r -> rest_ok cs n (Some c :: items) r.
Proof. apply (rest_char utf8_at _ _ (fun c => [c])). Qed.

Lemma item_substitute cs n items r : subchar >= 0 -> rest_ok (cs ++ [subchar]) (n + 1) items r -> rest_ok cs n (None :: items) r.
Proof. apply (rest_substitute utf8_at _ _ (fun c => [c])). Qed.

Lemma append_at i cs n c : is_scalar c -> len (all (cs ++ [c])) <= cap -> _appendUTF8 (utf8_at i cs n) c = Some (utf8_at i (cs ++ [c]) n).
Proof.
  intros Hsc Hc. rewrite <- (put_all_at encode) by done. unfold _appendUTF8. pose proof (scalar_range c Hsc) as Hr.
  destruct (Z.leb_spec c 0x7f); [|destruct (Z.leb_spec c 0x7ff); [|destruct (Z.leb_spec c 0xffff)]]; f_equal.
  - unfold encode. rewrite (proj2 (Z.ltb_lt _ _)) by lia. unfold uint8. by rewrite Z.mod_small by lia.
  - apply two_bytes_spec. lia.
  - apply three_bytes_spec. lia.
  - apply four_bytes_spec. lia.
Qed.

(** *** One item *)

Lemma unpaired_at i cs n : 0 <= n -> n + 1 <= INT32_MAX ->
  (subchar < 0 /\ substitute_unpaired (utf8_at i cs n) subchar = Some (utf8_at i cs n, None)) \/
  (is_scalar subchar /\ substitute_unpaired (utf8_at i cs n) subchar = Some (utf8_at i cs (n + 1), Some subchar)).
Proof.
  intros Hn Hmax. unfold substitute_unpaired. rewrite Z.geb_leb. destruct (Z.leb_spec 0 subchar) as [H0|H0]; [right|by left].
  split; [by destruct Hsub; [lia|]|]. rewrite state_substitutions, iadd_ok by ibound. done.
Qed.

(** A unit that is no surrogate. *)
Lemma bmp_item i ch r : drop i t = ch :: r -> U_IS_SURROGATE ch = false ->
  is_scalar ch /\ items16 (drop i t) = Some ch :: items16 (drop (i + 1) t) /\ (i + 1 <= List.length t)%nat.
Proof.
  intros Hd Hns. assert (Hs : is_string (ch :: r)) by (rewrite <- Hd; by apply Forall_drop). pose proof (items16_cons ch r Hs) as Hi.
  pose proof (length_rest t i ch r Hd). unfold first_item in Hi. rewrite Hns in Hi. cbn [negb] in Hi. destruct Hi as (Hi & _ & Hsc).
  rewrite Hd, Hi, (rest_drop t i ch r Hd). split_and!; [by apply Hsc|done|lia].
Qed.

(** A surrogate: a pair, or what is written for it. *)
Definition surrogate_char (ch : Z) (trail : option Z) (st : Conv) : option (Conv * option Z) :=
  match trail with
  | Some ch2 => Some (move st (st.(pSrc) + 1), Some (uint32 (U16_GET_SUPPLEMENTARY ch ch2)))
  | None => substitute_unpaired st subchar
  end.

Lemma surrogate_item i ch r cs n : drop i t = ch :: r -> U_IS_SURROGATE ch = true -> 0 <= n <= Z.of_nat i ->
  (exists x n' (j : nat), surrogate_char ch (pair_trail ch r) (utf8_at (i + 1) cs n) = Some (utf8_at j cs n', Some x) /\
     is_scalar x /\ (i < j <= List.length t)%nat /\ (Z.of_nat j - Z.of_nat i <= 2) /\ 0 <= n' <= Z.of_nat j /\
     (forall r, rest_ok (cs ++ [x]) n' (items16 (drop j t)) r -> rest_ok cs n (items16 (drop i t)) r)) \/
  (exists st, surrogate_char ch (pair_trail ch r) (utf8_at (i + 1) cs n) = Some (st, None) /\
     rest_ok cs n (items16 (drop i t)) (Some (Invalid st))).
Proof.
  intros Hd Hsur Hn. assert (Hs : is_string (ch :: r)) by (rewrite <- Hd; by apply Forall_drop). pose proof (items16_cons ch r Hs) as Hi.
  pose proof (length_rest t i ch r Hd) as Hl. rewrite first_item_surrogate in Hi by done. unfold surrogate_char.
  destruct (pair_trail ch r) as [t2|].
  - destruct Hi as (Hi & Hk & Hsc). specialize (Hsc _ eq_refl). pose proof (scalar_range _ Hsc). left.
    exists (U16_GET_SUPPLEMENTARY ch t2), n, (i + 2)%nat. rewrite state_pSrc.
    replace (Z.of_nat (i + 1) + 1) with (Z.of_nat (i + 2)) by lia. rewrite state_move. unfold uint32. rewrite Z.mod_small by lia.
    split_and!; try (done || lia). intros r'. rewrite Hd, Hi.
    replace (drop 1 r) with (drop (i + 2) t) by (rewrite <- (rest_drop t i ch r Hd), drop_drop; f_equal; lia). apply item_char.
  - destruct Hi as (Hi & _ & _). rewrite Hd, Hi. cbn [drop]. rewrite <- (rest_drop t i ch r Hd).
    destruct (unpaired_at (i + 1) cs n) as [[Hneg ->]|[Hsc ->]]; [lia..| |].
    + right. eexists. split; [done|]. by apply rest_invalid.
    + left. exists subchar, (n + 1), (i + 1)%nat. split_and!; try (done || lia). intros r'. apply item_substitute.
      pose proof (scalar_range _ Hsc). lia.
Qed.

Lemma unit_at i ch r : drop i t = ch :: r -> is_uint16 ch.
Proof. intros Hd. assert (Hs : is_string (ch :: r)) by (rewrite <- Hd; by apply Forall_drop). by inversion Hs. Qed.

(** The ranges of the loops, for a unit that is no surrogate. *)
Lemma unit_cases i ch r : drop i t = ch :: r -> U_IS_SURROGATE ch = false ->
  (ch <= 0x7f /\ encode ch = [uint8 ch]) \/ (0x7f < ch <= 0x7ff /\ encode ch = two_bytes ch /\ len (encode ch) = 2) \/
  (0x7ff < ch /\ encode ch = three_bytes ch /\ len (encode ch) = 3).
Proof.
  intros Hd Hns. pose proof (unit_at i ch r Hd) as Hu. unfold is_uint16 in Hu.
  destruct (Z.leb_spec ch 0x7f); [left|destruct (Z.leb_spec ch 0x7ff); right; [left|right]].
  - split; [done|]. unfold encode. rewrite (proj2 (Z.ltb_lt _ _)) by lia. unfold uint8. by rewrite Z.mod_small by lia.
  - rewrite <- two_bytes_spec by lia. done.
  - rewrite <- three_bytes_spec by lia. done.
Qed.

Lemma not_surrogate_test ch : is_uint16 ch -> (ch <=? 0xd7ff) || (ch >=? 0xe000) = negb (U_IS_SURROGATE ch).
Proof.
  intros Hc. rewrite surrogate_bounds by done. rewrite Z.geb_leb, negb_andb, <- Z.ltb_antisym, <- Z.leb_antisym. f_equal.
  apply eq_true_iff_eq. rewrite Z.leb_le, Z.ltb_lt. lia.
Qed.

Lemma bmp_not_surrogate ch : is_uint16 ch -> ch <= 0x7ff -> U_IS_SURROGATE ch = false.
Proof. intros Hc Hb. rewrite surrogate_bounds by done. by rewrite (proj2 (Z.leb_gt _ _)) by lia. Qed.

Section Readers.
Context (rd : Reader16) `{Hrd : !Reads16 rd t}.

Lemma count_utf8_spec fuel : forall i cs n, (List.length t - i < fuel)%nat -> (i <= List.length t)%nat -> 0 <= n <= Z.of_nat i ->
  (i = List.length t \/ cap < len (all cs)) ->
  rest_ok cs n (items16 (drop i t)) (count_utf8 fuel rd subchar (utf8_at i cs n)).
Proof.
  induction fuel as [|fuel IH]; intros i cs n Hf Hi Hn Hover; [lia|]. cbn [count_utf8]. rewrite state_pSrc.
  rewrite reads_unit by done. cbn [mbind option_bind]. destruct (t !! i) as [ch|] eqn:Hch.
  2:{ apply lookup_ge_None in Hch. rewrite drop_ge by done. apply (rest_done utf8_at). }
  pose proof (lookup_lt_Some _ _ _ Hch) as Hlt. destruct Hover as [?|Hover]; [lia|]. pose proof (drop_S _ _ _ Hch) as Hd.
  pose proof (unit_at i ch _ Hd) as Hu. replace (Z.of_nat i + 1) with (Z.of_nat (i + 1)) by lia. rewrite state_move.
  assert (Hadd : forall j c n' m, (i < j <= List.length t)%nat -> is_scalar c -> 0 <= n' <= Z.of_nat j -> m = len (encode c) ->
    rest_ok (cs ++ [c]) n' (items16 (drop j t))
      (let! m := (len (all cs) - len (all (fit encode cap cs))) +! m in count_utf8 fuel rd subchar (require (utf8_at j cs n') m))).
  { intros j c n' m Hj Hc Hn' ->. eapply rest_bound; [apply _|]. intros Hmax. rewrite snoc_length in Hmax.
    pose proof (fit_length encode cap cs (cap_nonneg dest)). pose proof (utf8_encode_length c). rewrite iadd_ok by ibound. cbn [obind].
    rewrite (require_over encode utf8_encode_length dest j cs n' c) by done. apply IH; try lia. right. rewrite snoc_length. lia. }
  change (reqLength (utf8_at ?j ?cs ?n)) with (len (all cs) - len (all (fit encode cap cs))).
  assert (Hbmp : forall m, U_IS_SURROGATE ch = false -> m = len (encode ch) -> rest_ok cs n (items16 (drop i t))
      (let! m := (len (all cs) - len (all (fit encode cap cs))) +! m in count_utf8 fuel rd subchar (require (utf8_at (i + 1) cs n) m))).
  { intros m Hns Hm. destruct (bmp_item i ch _ Hd Hns) as (Hsc & -> & Hj). apply item_char. apply Hadd; (done || lia). }
  pose proof (unit_cases i ch _ Hd) as Hbc.
  destruct (Z.leb_spec ch 0x7f).
  { pose proof (bmp_not_surrogate ch Hu ltac:(lia)) as Hns. apply Hbmp; [done|]. destruct (Hbc Hns) as [[_ ->]|[?|?]]; (done || lia). }
  destruct (Z.leb_spec ch 0x7ff).
  { pose proof (bmp_not_surrogate ch Hu ltac:(lia)) as Hns. apply Hbmp; [done|]. destruct (Hbc Hns) as [?|[(_ & _ & ->)|?]]; (done || lia). }
  destruct (U_IS_SURROGATE ch) eqn:Hsur; cbn [negb].
  2:{ apply Hbmp; [done|]. destruct (Hbc eq_refl) as [?|[?|(_ & _ & ->)]]; (done || lia). }
  rewrite state_pSrc, (reads_trail i ch _ Hd). cbn [mbind option_bind].
  assert (Hs : is_string (ch :: drop (S i) t)) by (rewrite <- Hd; by apply Forall_drop). pose proof (items16_cons ch _ Hs) as Hit.
  rewrite first_item_surrogate in Hit by done. destruct (pair_trail ch (drop (S i) t)) as [t2|] eqn:Hp.
  - destruct Hit as (Hit & Hk & Hsc). specialize (Hsc _ eq_refl). rewrite length_drop in Hk. rewrite Hd, Hit. apply item_char.
    replace (drop 1 (drop (S i) t)) with (drop (i + 2) t) by (rewrite drop_drop; f_equal; lia).
    replace (Z.of_nat (i + 1) + 1) with (Z.of_nat (i + 2)) by lia. rewrite state_move. apply Hadd; try (done || lia).
    pose proof (pair_supplementary ch _ t2 Hs Hsur Hp). unfold encode. by rewrite !(proj2 (Z.ltb_ge _ _)) by lia.
  - destruct Hit as (Hit & _ & _). rewrite Hd, Hit, drop_0. replace (drop (S i) t) with (drop (i + 1) t) by (f_equal; lia).
    rewrite Z.geb_leb. destruct (Z.leb_spec 0 subchar) as [Hpos|Hneg]; [|by eapply rest_invalid].
    destruct Hsub as [?|Hsc]; [lia|]. apply item_substitute; [lia|]. rewrite U8_LENGTH_spec by done.
    specialize (Hadd (i + 1)%nat subchar (n + 1) (len (encode subchar)) ltac:(lia) Hsc ltac:(lia) eq_refl).
    change (numSubstitutions (utf8_at (i + 1) cs n)) with n.
    assert (E : (n +! 1) = Some (n + 1)) by (apply iadd_ok; ibound). rewrite E. exact Hadd.
Qed.

Lemma write_utf8_spec K :
  (forall i cs n, (i <= List.length t)%nat -> 0 <= n <= Z.of_nat i -> i = List.length t \/ cap < len (all cs) ->
     rest_ok cs n (items16 (drop i t)) (K (utf8_at i cs n))) ->
  forall fuel i cs n, (List.length t - i < fuel)%nat -> (i <= List.length t)%nat -> 0 <= n <= Z.of_nat i -> len (all cs) <= cap ->
  rest_ok cs n (items16 (drop i t)) (and_then (write_utf8 fuel rd cap subchar (utf8_at i cs n)) K).
Proof.
  intros HK. induction fuel as [|fuel IH]; intros i cs n Hf Hi Hn Hfit; [lia|]. cbn [write_utf8]. rewrite state_pSrc.
  rewrite reads_unit by done. cbn [mbind option_bind]. destruct (t !! i) as [ch|] eqn:Hch.
  2:{ apply lookup_ge_None in Hch. apply HK; (done || lia). }
  pose proof (lookup_lt_Some _ _ _ Hch) as Hlt. pose proof (drop_S _ _ _ Hch) as Hd.
  pose proof (unit_at i ch _ Hd) as Hu. replace (Z.of_nat i + 1) with (Z.of_nat (i + 1)) by lia. rewrite state_move, !pDest_at by done.
  assert (Hstep : forall (fits : bool) (w : option Conv) m j c n', (i < j <= List.length t)%nat -> 0 <= n' <= Z.of_nat j -> m = len (encode c) ->
    (fits = true <-> m <= cap - len (all cs)) -> (len (all (cs ++ [c])) <= cap -> w = Some (utf8_at j (cs ++ [c]) n')) ->
    rest_ok (cs ++ [c]) n' (items16 (drop j t))
      (and_then (if fits then st ← w; write_utf8 fuel rd cap subchar st else Some (Done (require (utf8_at j cs n') m))) K)).
  { intros fits w m j c n' Hj Hn' -> Hiff Hw. rewrite snoc_length in Hw. destruct fits.
    - destruct Hiff as [Hle _]. specialize (Hle eq_refl). rewrite Hw by lia. cbn [mbind option_bind].
      apply IH; try lia. rewrite snoc_length. lia.
    - assert (cap < len (all cs) + len (encode c)) by (apply Z.nle_gt; intros Hle; destruct Hiff as [_ Hiff]; specialize (Hiff ltac:(lia)); done).
      rewrite (break_at encode dest j cs n' c) by (done || rewrite ?snoc_length; lia). cbn [and_then mbind option_bind]. apply HK; try lia.
      right. rewrite snoc_length. lia. }
  assert (Hbmp : forall (fits : bool) w m, U_IS_SURROGATE ch = false -> m = len (encode ch) -> (fits = true <-> m <= cap - len (all cs)) ->
    (len (all (cs ++ [ch])) <= cap -> w = put_all (utf8_at (i + 1) cs n) (encode ch)) ->
    rest_ok cs n (items16 (drop i t))
      (and_then (if fits then st ← w; write_utf8 fuel rd cap subchar st else Some (Done (require (utf8_at (i + 1) cs n) m))) K)).
  { intros fits w m Hns Hm Hiff Hw. destruct (bmp_item i ch _ Hd Hns) as (Hsc & -> & Hj). apply item_char. apply Hstep; try (done || lia).
    intros Hle. rewrite Hw by done. by apply put_all_at. }
  pose proof (unit_cases i ch _ Hd) as Hbc.
  destruct (Z.leb_spec ch 0x7f).
  { pose proof (bmp_not_surrogate ch Hu ltac:(lia)) as Hns. destruct (Hbc Hns) as [[_ Ee]|[?|?]]; [|lia..].
    apply Hbmp; rewrite ?Ee; try done. rewrite Z.ltb_lt. lia. }
  destruct (Z.leb_spec ch 0x7ff).
  { pose proof (bmp_not_surrogate ch Hu ltac:(lia)) as Hns. destruct (Hbc Hns) as [?|[(_ & Ee & El)|?]]; [lia| |lia].
    apply Hbmp; rewrite ?El, ?Ee; try done. by rewrite Z.geb_leb, Z.leb_le. }
  rewrite not_surrogate_test by done. destruct (U_IS_SURROGATE ch) eqn:Hsur; cbn [negb].
  2:{ destruct (Hbc eq_refl) as [?|[?|(_ & Ee & El)]]; [lia..|]. apply Hbmp; rewrite ?El, ?Ee; try done. by rewrite Z.geb_leb, Z.leb_le. }
  rewrite state_pSrc, (reads_trail i ch _ Hd). cbn [mbind option_bind]. 
  change (match pair_trail ch (drop (S i) t) with
          | Some ch2 => Some (move (utf8_at (i + 1) cs n) (Z.of_nat (i + 1) + 1), Some (uint32 (U16_GET_SUPPLEMENTARY ch ch2)))
          | None => substitute_unpaired (utf8_at (i + 1) cs n) subchar end)
    with (surrogate_char ch (pair_trail ch (drop (S i) t)) (utf8_at (i + 1) cs n)).
  destruct (surrogate_item i ch _ cs n Hd Hsur Hn) as [(x & n' & j & -> & Hx & Hj & _ & Hn' & Hr)|(st & -> & Hr)]; [|exact Hr].
  cbn [mbind option_bind]. rewrite pDest_at, U8_LENGTH_spec by done. apply Hr. apply Hstep; try done.
  - by rewrite Z.geb_leb, Z.leb_le.
  - intros. by apply append_at.
Qed.
End Readers.

(** *** The faster loop *)

Lemma four_bytes_pair i ch r t2 : drop i t = ch :: r -> U_IS_SURROGATE ch = true -> pair_trail ch r = Some t2 ->
  four_bytes (uint32 (U16_GET_SUPPLEMENTARY ch t2)) = encode (U16_GET_SUPPLEMENTARY ch t2) /\
  items16 (drop i t) = Some (U16_GET_SUPPLEMENTARY ch t2) :: items16 (drop (i + 2) t) /\ (i + 2 <= List.length t)%nat.
Proof.
  intros Hd Hsur Hp. assert (Hs : is_string (ch :: r)) by (rewrite <- Hd; by apply Forall_drop). pose proof (items16_cons ch r Hs) as Hit.
  pose proof (length_rest t i ch r Hd) as Hl. rewrite first_item_surrogate, Hp in Hit by done. destruct Hit as (Hit & Hk & Hsc).
  specialize (Hsc _ eq_refl). pose proof (scalar_range _ Hsc). pose proof (pair_supplementary ch r t2 Hs Hsur Hp).
  unfold uint32. rewrite Z.mod_small by lia. split_and!; [apply four_bytes_spec; lia| |lia]. rewrite Hd, Hit. do 2 f_equal.
  rewrite <- (rest_drop t i ch r Hd), drop_drop. f_equal. lia.
Qed.

(** The steps that are counted leave room for what they write. *)
Lemma fast_utf8_spec K i0 :
  (forall i cs n, (i0 < i <= List.length t)%nat -> 0 <= n <= Z.of_nat i -> len (all cs) <= cap -> rest_ok cs n (items16 (drop i t)) (K (utf8_at i cs n))) ->
  forall fuel i cs n count, 1 <= count <= Z.of_nat fuel -> 3 * count <= cap - len (all cs) -> count <= len t - Z.of_nat i ->
  (i0 < i)%nat \/ (i0 = i /\ 2 <= count) -> 0 <= n <= Z.of_nat i ->
  rest_ok cs n (items16 (drop i t)) (and_then (fast_utf8 fuel t subchar count (utf8_at i cs n)) K).
Proof.
  intros HK. induction fuel as [|fuel IH]; intros i cs n count Hf Hroom Hsrc Hi0 Hn; [lia|]. cbn [fast_utf8]. rewrite state_pSrc.
  destruct (lookup_lt_is_Some_2 t i) as [ch Hch]; [lia|]. rewrite aget_nat, Hch. cbn [mbind option_bind]. pose proof (drop_S _ _ _ Hch) as Hd.
  pose proof (unit_at i ch _ Hd) as Hu. replace (Z.of_nat i + 1) with (Z.of_nat (i + 1)) by lia. rewrite state_move.
  assert (Hcont : forall count' j c n' w, (i < j <= List.length t)%nat -> Z.of_nat j - Z.of_nat i <= count - count' + 1 -> count' <= count ->
    len (encode c) <= 3 * (count - count' + 1) -> 0 <= n' <= Z.of_nat j ->
    (len (all (cs ++ [c])) <= cap -> w = Some (utf8_at j (cs ++ [c]) n')) -> 1 <= count' ->
    rest_ok (cs ++ [c]) n' (items16 (drop j t)) (and_then (st ← w; if count' - 1 >? 0 then fast_utf8 fuel t subchar (count' - 1) st
      else Some (Done st)) K)).
  { intros count' j c n' w Hj Hr Hc Hs Hn' Hw Hc1. rewrite snoc_length in Hw. rewrite Hw by lia. cbn [mbind option_bind]. rewrite Z.gtb_ltb.
    destruct (Z.ltb_spec 0 (count' - 1)); [apply IH|apply HK]; rewrite ?snoc_length; lia. }
  assert (Hbmp : forall w, U_IS_SURROGATE ch = false -> len (encode ch) <= 3 -> w = put_all (utf8_at (i + 1) cs n) (encode ch) ->
    rest_ok cs n (items16 (drop i t)) (and_then (st ← w; if count - 1 >? 0 then fast_utf8 fuel t subchar (count - 1) st
      else Some (Done st)) K)).
  { intros w Hns Hm ->. destruct (bmp_item i ch _ Hd Hns) as (Hsc & -> & Hj). apply item_char. apply Hcont; try (done || lia). apply put_all_at. }
  pose proof (unit_cases i ch _ Hd) as Hbc.
  destruct (Z.leb_spec ch 0x7f).
  { pose proof (bmp_not_surrogate ch Hu ltac:(lia)) as Hns. destruct (Hbc Hns) as [[_ Ee]|[?|?]]; [|lia..]. apply Hbmp; rewrite ?Ee; (done || cbn; lia). }
  destruct (Z.leb_spec ch 0x7ff).
  { pose proof (bmp_not_surrogate ch Hu ltac:(lia)) as Hns. destruct (Hbc Hns) as [?|[(_ & Ee & El)|?]]; [lia| |lia]. apply Hbmp; rewrite ?El, ?Ee; (done || lia). }
  rewrite not_surrogate_test by done. destruct (U_IS_SURROGATE ch) eqn:Hsur; cbn [negb].
  2:{ destruct (Hbc eq_refl) as [?|[?|(_ & Ee & El)]]; [lia..|]. apply Hbmp; rewrite ?El, ?Ee; (done || lia). }
  destruct (Z.eqb_spec (count - 1) 0) as [Hc1|Hc1]; [apply HK; lia|].
  assert (Htr : (if U16_IS_SURROGATE_LEAD ch then trail_unit t (Z.of_nat (i + 1)) else Some None) = Some (pair_trail ch (drop (S i) t))).
  { unfold pair_trail, trail_unit. destruct (U16_IS_SURROGATE_LEAD ch); [|done]. destruct (lookup_lt_is_Some_2 t (i + 1)) as [c2 Hc2]; [lia|].
    rewrite aget_nat, Hc2. replace (S i) with (i + 1)%nat by lia. by rewrite (drop_S _ _ _ Hc2). }
  rewrite Htr. cbn [mbind option_bind]. destruct (pair_trail ch (drop (S i) t)) as [t2|] eqn:Hp.
  - destruct (four_bytes_pair i ch _ t2 Hd Hsur Hp) as (-> & -> & Hj). apply item_char. replace (Z.of_nat (i + 1) + 1) with (Z.of_nat (i + 2)) by lia.
    pose proof (utf8_encode_length (U16_GET_SUPPLEMENTARY ch t2)). rewrite state_move. apply Hcont; try lia. apply put_all_at.
  - pose proof (surrogate_item i ch _ cs n Hd Hsur Hn) as Hitem. rewrite Hp in Hitem. unfold surrogate_char in Hitem.
    destruct Hitem as [(x & n' & j & -> & Hx & Hj & Hj2 & Hn' & Hr)|(st & -> & Hr)]; [|exact Hr].
    cbn [mbind option_bind]. apply Hr. pose proof (utf8_encode_length x). apply Hcont; try lia. by apply append_at.
Qed.

Lemma utf8_rounds_spec K :
  (forall i cs n, (i <= List.length t)%nat -> 0 <= n <= Z.of_nat i -> len (all cs) <= cap -> rest_ok cs n (items16 (drop i t)) (K (utf8_at i cs n))) ->
  forall fuel i cs n, (List.length t - i < fuel)%nat -> (i <= List.length t)%nat -> 0 <= n <= Z.of_nat i -> len (all cs) <= cap ->
  rest_ok cs n (items16 (drop i t)) (and_then (fast_utf8_rounds fuel t (len t) cap subchar (utf8_at i cs n)) K).
Proof.
  intros HK. induction fuel as [|fuel IH]; intros i cs n Hf Hi Hn Hfit; [lia|]. cbn [fast_utf8_rounds]. rewrite state_pSrc, pDest_at by done.
  set (count := Z.min _ _). destruct (Z.ltb_spec count 3) as [Hs|Hc]; [by apply HK|].
  fold (and_then (fast_utf8 (Z.to_nat count) t subchar count (utf8_at i cs n)) (fast_utf8_rounds fuel t (len t) cap subchar)).
  rewrite and_then_assoc. assert (Hroom : 3 * ((cap - len (all cs)) / 3) <= cap - len (all cs)) by dlia.
  assert (Hq : Z.quot (cap - len (all cs)) 3 = (cap - len (all cs)) / 3) by (apply Z.quot_div_nonneg; lia).
  apply (fast_utf8_spec _ i); try (unfold count in *; lia). intros j cs' n' Hj Hn' Hfit'. apply IH; lia.
Qed.
End Loops.

