(* ===== verification/UStrTrnsProperties.v ===== *)
(** * Conversion to UTF-8 and back *)
From S2P Require Import Prelude Int32 Utf16 UString Utf8 Utf8Decoding UStrTrns UStrTrnsRest UStrTrnsFromUtf8 UStrTrnsLoops UStrTrnsToUtf8 UStrTrnsFit UStrTrnsToUtf8Loops.
Local Open Scope Z_scope.

#[local] Abbreviation len l := (Z.of_nat (List.length l)).

(** ** Readers *)

Lemma limit_reads16 t : Reads16 (limit_reader16 t (len t)) t.
Proof.
  split; cbn [next_unit next_trail limit_reader16].
  - intros i Hi. destruct (Z.ltb_spec (Z.of_nat i) (len t)) as [Hlt|Hge].
    + destruct (lookup_lt_is_Some_2 t i) as [b Hb]; [lia|]. by rewrite aget_nat, Hb.
    + by rewrite lookup_ge_None_2 by lia.
  - intros i ch r Hd. pose proof (length_rest t i ch r Hd) as Hl. unfold pair_trail, trail_unit. destruct (U16_IS_SURROGATE_LEAD ch); [|done].
    rewrite aget_nat, <- (Nat.add_0_r (i + 1)), <- lookup_drop, (rest_drop t i ch r Hd). destruct r as [|c2 r]; cbn [List.length] in Hl.
    + by rewrite (proj2 (Z.ltb_ge _ _)) by lia.
    + by rewrite (proj2 (Z.ltb_lt _ _)) by lia.
Qed.

Lemma nul_reads16 t rest : Forall (fun c => c <> 0) t -> Reads16 (nul_reader16 (t ++ 0 :: rest)) t.
Proof.
  intros Hnz. split; cbn [next_unit next_trail nul_reader16].
  - intros i Hi. rewrite aget_nat. destruct (decide (i = List.length t)) as [->|].
    + rewrite list_lookup_middle by done. cbn. by rewrite lookup_ge_None_2.
    + destruct (lookup_lt_is_Some_2 t i) as [b Hb]; [lia|]. rewrite lookup_app_l, Hb by lia. cbn.
      rewrite (proj2 (Z.eqb_neq b 0)); [done|]. by apply (Forall_lookup_1 _ _ _ _ Hnz Hb).
  - intros i ch r Hd. pose proof (length_rest t i ch r Hd) as Hl. unfold pair_trail, trail_unit. destruct (U16_IS_SURROGATE_LEAD ch); [|done].
    assert (Hd' : drop (i + 1) (t ++ 0 :: rest) = r ++ 0 :: rest) by (rewrite drop_app_le by lia; by rewrite (rest_drop t i ch r Hd)).
    rewrite aget_nat, <- (Nat.add_0_r (i + 1)), <- lookup_drop, Hd'. by destruct r.
Qed.

(** ** Conversion to UTF-8 *)

Section ToUtf8.
Context (dest : option (list Z)) (t rest : list Z) (subchar : Z) (code : UErrorCode).
Context (Ht : is_string t) (Hlen : len t <= INT32_MAX) (Hsub : substitute_char subchar) (Hcode : U_SUCCESS code = true).
Context (Hmax : len (utf8 (transcoded subchar (items16 t))) <= INT32_MAX).

Lemma to_utf8_limit : u_strToUTF8WithSub dest (capacity dest) (Some t) (len t) subchar code = Some (converted_bytes encode dest subchar (items16 t) code).
Proof.
  pose proof (substitute_char_cases subchar Hsub) as Hsub'. pose proof (cap_nonneg dest). unfold u_strToUTF8WithSub. rewrite success_no_failure, good_arguments by (done || lia).
  change (default [] (Some t)) with t. rewrite (proj2 (Z.eqb_neq _ (-1))) by lia. apply bytes_finish; [done| |done].
  rewrite (fit_start encode), and_then_assoc. rewrite <- (drop_0 t) at 1. pose proof (limit_reads16 t) as Hrd. apply utf8_rounds_spec; try (done || cbn; lia).
  intros i cs n Hi Hn Hfit. apply write_utf8_spec; try (done || lia). intros. apply count_utf8_spec; (done || lia).
Qed.

Lemma to_utf8_nul : Forall (fun c => c <> 0) t ->
  u_strToUTF8WithSub dest (capacity dest) (Some (t ++ 0 :: rest)) (-1) subchar code = Some (converted_bytes encode dest subchar (items16 t) code).
Proof.
  intros Hnz. pose proof (substitute_char_cases subchar Hsub) as Hsub'. pose proof (cap_nonneg dest). unfold u_strToUTF8WithSub. rewrite success_no_failure, good_arguments by (done || lia).
  change (default [] (Some (t ++ 0 :: rest))) with (t ++ 0 :: rest). change (-1 =? -1) with true. cbv iota. apply bytes_finish; [done| |done].
  rewrite (fit_start encode). rewrite <- (drop_0 t) at 1. pose proof (nul_reads16 t rest Hnz) as Hrd. 
  apply write_utf8_spec; try (done || rewrite ?length_app; cbn; lia). intros. apply count_utf8_spec; (done || rewrite ?length_app; lia).
Qed.
End ToUtf8.

(** ** The theorems *)

(** C10: conversion from UTF-8.  For any bytes, whether their length is given or a NUL
    ends them, and for any buffer, [u_strFromUTF8WithSub] reads what the
    reference decoder reads, never past the end: it writes the UTF-16 form of
    the code points as far as they fit, with the substitution character for
    each ill-formed sequence, and returns the full length, the number of
    substitutions, and the code for a buffer that is terminated, just full or too
    small; with no substitution character it stops at the first ill-formed
    sequence with [U_INVALID_CHAR_FOUND]. *)
Theorem from_utf8_correct dest t rest subchar code :
  is_bytes (t ++ 0 :: rest) -> Z.of_nat (List.length t) <= INT32_MAX -> substitute_char subchar -> U_SUCCESS code = true ->
  Z.of_nat (List.length (utf16 (transcoded subchar (decode t)))) <= INT32_MAX ->
  u_strFromUTF8WithSub dest (capacity dest) (Some t) (Z.of_nat (List.length t)) subchar code = Some (converted dest utf16 subchar (decode t) code) /\
  (Forall (fun b => b <> 0) t ->
     u_strFromUTF8WithSub dest (capacity dest) (Some (t ++ 0 :: rest)) (-1) subchar code = Some (converted dest utf16 subchar (decode t) code)).
Proof.
  intros Hs Hlen Hsub Hcode Hmax. split; [|intros Hnz; by apply from_utf8_nul]. apply from_utf8_limit; try done. by apply Forall_app in Hs as [? _].
Qed.

Lemma from_utf8_correct_witness :
  let t := [0x41; 0xc3; 0xa9; 0xe2; 0x82; 0xac; 0xf0; 0x9f; 0x98; 0x80; 0xe1; 0x80; 0xff; 0x42] in
  let dest := Some (repeat 0x7e 9) in
  u_strFromUTF8WithSub dest 9 (Some t) 14 0xfffd U_ZERO_ERROR =
    Some (MkConverted (Some [0x41; 0xe9; 0x20ac; 0xd83d; 0xde00; 0xfffd; 0xfffd; 0x42; 0]) (Some 8) (Some 2) U_ZERO_ERROR) /\
  u_strFromUTF8WithSub dest 9 (Some (t ++ [0; 0x43])) (-1) 0xfffd U_ZERO_ERROR =
    u_strFromUTF8WithSub dest 9 (Some t) 14 0xfffd U_ZERO_ERROR /\
  u_strFromUTF8WithSub (Some (repeat 0x7e 4)) 4 (Some t) 14 0x1f600 U_ZERO_ERROR =
    Some (MkConverted (Some [0x41; 0xe9; 0x20ac; 0xd83d]) (Some 10) (Some 2) U_BUFFER_OVERFLOW_ERROR) /\
  u_strFromUTF8WithSub dest 9 (Some t) 14 (-1) U_ZERO_ERROR =
    Some (MkConverted (Some [0x41; 0xe9; 0x20ac; 0xd83d; 0xde00; 0x7e; 0x7e; 0x7e; 0x7e]) None (Some 0) U_INVALID_CHAR_FOUND).
Proof.
  assert (Hs : is_bytes ([0x41; 0xc3; 0xa9; 0xe2; 0x82; 0xac; 0xf0; 0x9f; 0x98; 0x80; 0xe1; 0x80; 0xff; 0x42] ++ 0 :: [0x43])).
  { repeat constructor; done. }
  assert (Hsub : forall c, 0xe000 <= c < 0x110000 -> substitute_char c) by (intros c Hc; right; unfold is_scalar, is_code_point; lia).
  assert (Hneg : substitute_char (-1)) by (left; done).
  cbv zeta. split_and!.
  - etrans; [refine (proj1 (from_utf8_correct (Some (repeat 0x7e 9)) _ [0x43] 0xfffd U_ZERO_ERROR Hs _ (Hsub _ _) eq_refl _)); vm_compute; (done || lia)|].
    vm_compute. reflexivity.
  - etrans; [refine (proj2 (from_utf8_correct (Some (repeat 0x7e 9)) _ [0x43] 0xfffd U_ZERO_ERROR Hs _ (Hsub _ _) eq_refl _) _); [vm_compute; (done || lia)..|]; repeat constructor; done|].
    vm_compute. reflexivity.
  - etrans; [refine (proj1 (from_utf8_correct (Some (repeat 0x7e 4)) _ [0x43] 0x1f600 U_ZERO_ERROR Hs _ (Hsub _ _) eq_refl _)); vm_compute; (done || lia)|].
    vm_compute. reflexivity.
  - etrans; [refine (proj1 (from_utf8_correct (Some (repeat 0x7e 9)) _ [0x43] (-1) U_ZERO_ERROR Hs _ Hneg eq_refl _)); vm_compute; (done || lia)|].
    vm_compute. reflexivity.
Defined.

(** C11: conversion to UTF-8.  For any 16-bit units, whether their length is given or a
    NUL ends them, and for any buffer, [u_strToUTF8WithSub] writes the UTF-8
    form of the code points, with the substitution character for each unpaired
    surrogate, and never a part of a sequence: the first one that does not fit
    ends the output, and the rest is counted.  It returns the full length, the
    number of substitutions and the code for how that fits; with no substitution
    character it stops at the first unpaired surrogate with
    [U_INVALID_CHAR_FOUND]. *)
Theorem to_utf8_correct dest t rest subchar code :
  is_string t -> len t <= INT32_MAX -> substitute_char subchar -> U_SUCCESS code = true ->
  len (utf8 (transcoded subchar (items16 t))) <= INT32_MAX ->
  u_strToUTF8WithSub dest (capacity dest) (Some t) (len t) subchar code = Some (converted_bytes encode dest subchar (items16 t) code) /\
  (Forall (fun c => c <> 0) t ->
     u_strToUTF8WithSub dest (capacity dest) (Some (t ++ 0 :: rest)) (-1) subchar code = Some (converted_bytes encode dest subchar (items16 t) code)).
Proof. intros Ht Hlen Hsub Hcode Hmax. split; [by apply to_utf8_limit|intros Hnz; by apply to_utf8_nul]. Qed.

Lemma to_utf8_correct_witness :
  let t := [0x41; 0xe9; 0x20ac; 0xd83d; 0xde00; 0xd800; 0x42] in
  u_strToUTF8WithSub (Some (repeat 0x7e 16)) 16 (Some t) 7 0xfffd U_ZERO_ERROR =
    Some (MkConverted (Some [0x41; 0xc3; 0xa9; 0xe2; 0x82; 0xac; 0xf0; 0x9f; 0x98; 0x80; 0xef; 0xbf; 0xbd; 0x42; 0; 0x7e]) (Some 14) (Some 1) U_ZERO_ERROR) /\
  u_strToUTF8WithSub (Some (repeat 0x7e 5)) 5 (Some (t ++ [0; 0x43])) (-1) 0x3f U_ZERO_ERROR =
    Some (MkConverted (Some [0x41; 0xc3; 0xa9; 0x7e; 0x7e]) (Some 12) (Some 1) U_BUFFER_OVERFLOW_ERROR) /\
  u_strToUTF8WithSub None 0 (Some t) 7 (-1) U_ZERO_ERROR = Some (MkConverted None None (Some 0) U_INVALID_CHAR_FOUND).
Proof.
  assert (Ht : is_string [0x41; 0xe9; 0x20ac; 0xd83d; 0xde00; 0xd800; 0x42]) by (repeat constructor; done).
  assert (H1 : substitute_char 0xfffd) by (right; unfold is_scalar, is_code_point; lia).
  assert (H2 : substitute_char 0x3f) by (right; unfold is_scalar, is_code_point; lia).
  assert (Hneg : substitute_char (-1)) by (left; done).
  cbv zeta. split_and!.
  - etrans; [refine (proj1 (to_utf8_correct (Some (repeat 0x7e 16)) _ [] 0xfffd U_ZERO_ERROR Ht _ H1 eq_refl _)); vm_compute; (done || lia)|].
    vm_compute. reflexivity.
  - etrans; [refine (proj2 (to_utf8_correct (Some (repeat 0x7e 5)) _ [0x43] 0x3f U_ZERO_ERROR Ht _ H2 eq_refl _) _); [vm_compute; (done || lia)..|]; repeat constructor; done|].
    vm_compute. reflexivity.
  - etrans; [refine (proj1 (to_utf8_correct None _ [] (-1) U_ZERO_ERROR Ht _ Hneg eq_refl _)); vm_compute; (done || lia)|].
    vm_compute. reflexivity.
Defined.

(** ** Round trip *)

Lemma items16_utf16 cs : Forall is_scalar cs -> items16 (utf16 cs) = map Some cs.
Proof.
  intros Hcs. unfold items16. rewrite code_points_utf16 by done. induction Hcs as [|c cs Hc Hcs IH]; [done|]. cbn [map]. rewrite IH.
  unfold scalar_item. by rewrite bool_decide_eq_true_2.
Qed.

Lemma decode_utf8_all cs : Forall is_scalar cs -> decode (utf8 cs) = map Some cs.
Proof. intros Hcs. pose proof (decode_utf8 cs [] Hcs) as H. by rewrite !app_nil_r in H. Qed.

Lemma encode_bytes c : is_scalar c -> Forall (fun b => is_uint8 b /\ (b = 0 -> c = 0)) (encode c).
Proof.
  intros Hc%scalar_range. unfold encode, is_uint8. repeat case_match; rewrite ?Z.ltb_lt, ?Z.ltb_ge in *; repeat constructor; dlia.
Qed.

Lemma utf8_bytes cs : Forall is_scalar cs -> is_bytes (utf8 cs) /\ (Forall (fun c => c <> 0) cs -> Forall (fun b => b <> 0) (utf8 cs)).
Proof.
  intros Hcs. unfold is_bytes. induction Hcs as [|c cs Hc Hcs [IHb IHn]]; [done|]. change (utf8 (c :: cs)) with (encode c ++ utf8 cs).
  pose proof (encode_bytes c Hc) as He. split.
  - apply Forall_app. split; [|done]. by eapply Forall_impl; [exact He|intros b [? _]].
  - intros Hn. inversion Hn as [|? ? Hc0 Hn']; subst. apply Forall_app. split; [|by apply IHn].
    eapply Forall_impl; [exact He|]. intros b [_ Hb] ->. by apply Hc0, Hb.
Qed.

Lemma utf16_units cs : Forall is_scalar cs -> is_string (utf16 cs).
Proof.
  unfold is_string. induction 1 as [|c cs Hc Hcs IH]; [done|]. rewrite utf16_cons. apply Forall_app. split; [|done].
  destruct (units_spec c Hc) as [(Hb & -> & _)|(Hb & ->)]; pose proof (scalar_range c Hc).
  - repeat constructor; unfold is_uint16; lia.
  - unfold U16_LEAD, U16_TRAIL. repeat constructor; apply uint16_range.
Qed.

Lemma utf16_shorter cs : Forall is_scalar cs -> len (utf16 cs) <= len (utf8 cs).
Proof.
  induction 1 as [|c cs Hc Hcs IH]; [done|]. rewrite utf16_cons. change (utf8 (c :: cs)) with (encode c ++ utf8 cs). rewrite !length_app.
  enough (len (units c) <= len (encode c)) by lia. unfold encode. destruct (units_spec c Hc) as [(Hb & -> & _)|(Hb & ->)].
  - repeat case_match; cbn; lia.
  - rewrite !(proj2 (Z.ltb_ge _ _)) by lia. cbn. lia.
Qed.

(** C12: well-formed text survives the conversion to UTF-8 and back, through buffers
    that hold it, whether the bytes are passed with their length or, for text
    without U+0000, as the NUL-terminated buffer. *)
Theorem utf8_roundtrip cs d8 d16 :
  Forall is_scalar cs -> is_bytes d8 -> len (utf8 cs) < len d8 -> len (utf16 cs) < capacity d16 -> len (utf8 cs) <= INT32_MAX ->
  exists rest,
    u_strToUTF8 (Some d8) (len d8) (Some (utf16 cs)) (len (utf16 cs)) U_ZERO_ERROR =
      Some (MkConverted (Some (utf8 cs ++ 0 :: rest)) (Some (len (utf8 cs))) (Some 0) U_ZERO_ERROR) /\
    u_strFromUTF8 d16 (capacity d16) (Some (utf8 cs)) (len (utf8 cs)) U_ZERO_ERROR =
      Some (MkConverted (overlay d16 (utf16 cs ++ [0])) (Some (len (utf16 cs))) (Some 0) U_ZERO_ERROR) /\
    (Forall (fun c => c <> 0) cs ->
       u_strFromUTF8 d16 (capacity d16) (Some (utf8 cs ++ 0 :: rest)) (-1) U_ZERO_ERROR =
         Some (MkConverted (overlay d16 (utf16 cs ++ [0])) (Some (len (utf16 cs))) (Some 0) U_ZERO_ERROR)).
Proof.
  intros Hcs Hd8 H8 H16 Hmax. destruct (utf8_bytes cs Hcs) as [Hb Hnz]. pose proof (utf16_shorter cs Hcs) as Hshort.
  assert (Hsent : substitute_char U_SENTINEL) by (left; done). exists (drop (S (List.length (utf8 cs))) d8).
  assert (Hconv : converted d16 utf16 U_SENTINEL (decode (utf8 cs)) U_ZERO_ERROR =
    MkConverted (overlay d16 (utf16 cs ++ [0])) (Some (len (utf16 cs))) (Some 0) U_ZERO_ERROR).
  { unfold converted. rewrite decode_utf8_all, transcode_some by done. unfold termination. by rewrite (proj2 (Z.ltb_lt _ _)) by done. }
  assert (Htr : transcoded U_SENTINEL (decode (utf8 cs)) = cs) by (unfold transcoded; by rewrite decode_utf8_all, transcode_some).
  unfold u_strToUTF8, u_strFromUTF8. split_and!.
  - pose proof (to_utf8_limit (Some d8) (utf16 cs) U_SENTINEL U_ZERO_ERROR (utf16_units cs Hcs)) as H. cbn [capacity] in H.
    unfold transcoded in H. rewrite items16_utf16, transcode_some in H by done. rewrite H by (done || cbn [fst]; lia). unfold converted_bytes, converted_whole.
    rewrite transcode_some. cbn [capacity]. change (bytes_of encode) with utf8. rewrite fit_all by (change (bytes_of encode) with utf8; lia). rewrite (proj2 (Z.ltb_lt _ _)) by lia. unfold termination. rewrite (proj2 (Z.ltb_lt _ _)) by lia.
    rewrite overlay_fits by (rewrite length_app; cbn; lia). rewrite length_app, <- app_assoc, Nat.add_1_r. done.
  - rewrite from_utf8_limit by (done || rewrite ?Htr; lia). by rewrite Hconv.
  - intros Hn. assert (Hall : is_bytes (utf8 cs ++ 0 :: drop (S (List.length (utf8 cs))) d8)).
    { apply Forall_app. split; [done|]. constructor; [done|by apply Forall_drop]. }
    rewrite from_utf8_nul; [by rewrite Hconv|lia|done|done|rewrite Htr; lia|done|by apply Hnz].
Qed.

Lemma utf8_roundtrip_witness :
  exists rest,
    u_strToUTF8 (Some (repeat 0x7e 16)) 16 (Some [0x41; 0x20ac; 0xd83d; 0xde00]) 4 U_ZERO_ERROR =
      Some (MkConverted (Some ([0x41; 0xe2; 0x82; 0xac; 0xf0; 0x9f; 0x98; 0x80] ++ 0 :: rest)) (Some 8) (Some 0) U_ZERO_ERROR) /\
    u_strFromUTF8 (Some (repeat 0x7e 6)) 6 (Some [0x41; 0xe2; 0x82; 0xac; 0xf0; 0x9f; 0x98; 0x80]) 8 U_ZERO_ERROR =
      Some (MkConverted (Some [0x41; 0x20ac; 0xd83d; 0xde00; 0; 0x7e]) (Some 4) (Some 0) U_ZERO_ERROR).
Proof.
  assert (Hcs : Forall is_scalar [0x41; 0x20ac; 0x1f600]) by (repeat constructor; (done || lia)).
  assert (Hd : is_bytes (repeat 0x7e 16)) by (repeat constructor; done).
  destruct (utf8_roundtrip [0x41; 0x20ac; 0x1f600] (repeat 0x7e 16) (Some (repeat 0x7e 6)) Hcs Hd) as (rest & H1 & H2 & _); [vm_compute; (done || lia)..|].
  exists rest. split; [exact H1|]. etrans; [exact H2|]. vm_compute. reflexivity.
Defined.
