(* ===== verification/UStrTrnsUtf32.v ===== *)
(** * Conversion from and to UTF-32 (src/common/ustrtrns.cpp)

    Both functions first copy the start of a NUL-terminated string that needs no
    conversion and look for its end; one loop with a limit then does the rest,
    writing or counting each code point. *)
From S2P Require Import Prelude Int32 Utf16 UString Utf8 UStrTrns UStrTrnsToUtf8.
Local Open Scope Z_scope.

(** [if(pDest<destLimit) *pDest++=u; else ++reqLength;] *)
Definition put_or_count (st : Conv) (destLimit u : Z) : option Conv :=
  if st.(pDest) <? destLimit then put st u else let! n := st.(reqLength) +! 1 in Some (require st n).

(** The simple loop, while [simple] holds: the state and the code point it stops at. *)
Fixpoint copy_simple (fuel : nat) (simple : Z -> bool) (cast : Z -> Z) (s : list Z) (destLimit : Z) (st : Conv) : option (Conv * Z) :=
  match fuel with
  | O => None
  | S fuel' =>
      ch ← aget s st.(pSrc);
      if negb (ch =? 0) && simple ch then
        st ← put_or_count (move st (st.(pSrc) + 1)) destLimit (cast ch);
        copy_simple fuel' simple cast s destLimit st
      else Some (st, ch)
  end.

(** [srcLimit=src; if(ch!=0) { while( *++srcLimit != 0) {} }] *)
Definition find_limit (s : list Z) (src ch : Z) : option Z :=
  if negb (ch =? 0) then u_strlen_loop (List.length s) s (src + 1) else Some src.

(** ** To UTF-32 *)

Fixpoint to_utf32_loop (fuel : nat) (s : list Z) (srcLimit destLimit subchar : Z) (st : Conv) : option Result :=
  match fuel with
  | O => None
  | S fuel' =>
      if st.(pSrc) <? srcLimit then
        ch ← aget s st.(pSrc);
        let st := move st (st.(pSrc) + 1) in
        '(st, ch) ←
          (if negb (U_IS_SURROGATE ch) then Some (st, Some ch)
           else
             trail ← (if U16_IS_SURROGATE_LEAD ch && (st.(pSrc) <? srcLimit) then trail_unit s st.(pSrc) else Some None);
             match trail with
             | Some ch2 => Some (move st (st.(pSrc) + 1), Some (U16_GET_SUPPLEMENTARY ch ch2))
             | None => substitute_unpaired st subchar
             end);
        match ch with
        | None => Some (Invalid st)
        | Some ch => st ← put_or_count st destLimit ch; to_utf32_loop fuel' s srcLimit destLimit subchar st
        end
      else Some (Done st)
  end.

Definition u_strToUTF32WithSub (dest : option (list Z)) (destCapacity : Z) (src : option (list Z)) (srcLength subchar : Z)
    (code : UErrorCode) : option Converted :=
  if U_FAILURE code then Some (MkConverted dest None None code)
  else if bad_arguments src dest srcLength destCapacity subchar then Some (MkConverted dest None None U_ILLEGAL_ARGUMENT_ERROR)
  else
    let s := default [] src in
    let fuel := S (List.length s) in
    let st := MkConv 0 0 dest 0 0 in
    '(st, srcLimit) ←
      (if srcLength <? 0 then
         '(st, ch) ← copy_simple fuel (fun ch => negb (U_IS_SURROGATE ch)) id s destCapacity st;
         srcLimit ← find_limit s st.(pSrc) ch;
         Some (st, srcLimit)
       else Some (st, srcLength));
    r ← to_utf32_loop fuel s srcLimit destCapacity subchar st;
    finish r destCapacity code.

Definition u_strToUTF32 (dest : option (list Z)) (destCapacity : Z) (src : option (list Z)) (srcLength : Z) (code : UErrorCode) :=
  u_strToUTF32WithSub dest destCapacity src srcLength U_SENTINEL code.

(** ** From UTF-32 *)

Definition is_bmp_scalar (ch : Z) : bool := (uint32 ch <? 0xd800) || ((0xe000 <=? ch) && (ch <=? 0xffff)).

(** One pass of the inner loop: the code point is written or counted, or it is no
    scalar value. *)
Definition write_scalar (st : Conv) (destLimit ch : Z) : option (option Conv) :=
  if is_bmp_scalar ch then st ← put_or_count st destLimit (uint16 ch); Some (Some st)
  else if (0x10000 <=? ch) && (ch <=? 0x10ffff) then
    if bool_decide (st.(buffer) <> None) && (st.(pDest) + 2 <=? destLimit) then
      st ← put st (U16_LEAD ch);
      st ← put st (U16_TRAIL ch);
      Some (Some st)
    else let! n := st.(reqLength) +! 2 in Some (Some (require st n))
  else Some None.

Fixpoint from_utf32_loop (fuel : nat) (s : list Z) (srcLimit destLimit subchar : Z) (st : Conv) : option Result :=
  match fuel with
  | O => None
  | S fuel' =>
      if st.(pSrc) <? srcLimit then
        ch ← aget s st.(pSrc);
        let st := move st (st.(pSrc) + 1) in
        written ← write_scalar st destLimit ch;
        match written with
        | Some st => from_utf32_loop fuel' s srcLimit destLimit subchar st
        | None =>
            if subchar <? 0 then Some (Invalid st)
            else
              let! n := st.(numSubstitutions) +! 1 in
              written ← write_scalar (MkConv st.(pSrc) st.(pDest) st.(buffer) st.(reqLength) n) destLimit subchar;
              st ← written;
              from_utf32_loop fuel' s srcLimit destLimit subchar st
        end
      else Some (Done st)
  end.

Definition u_strFromUTF32WithSub (dest : option (list Z)) (destCapacity : Z) (src : option (list Z)) (srcLength subchar : Z)
    (code : UErrorCode) : option Converted :=
  if U_FAILURE code then Some (MkConverted dest None None code)
  else if bad_arguments src dest srcLength destCapacity subchar then Some (MkConverted dest None None U_ILLEGAL_ARGUMENT_ERROR)
  else
    let s := default [] src in
    let fuel := S (List.length s) in
    let st := MkConv 0 0 dest 0 0 in
    '(st, srcLimit) ←
      (if srcLength <? 0 then
         '(st, ch) ← copy_simple fuel is_bmp_scalar uint16 s destCapacity st;
         srcLimit ← find_limit s st.(pSrc) ch;
         Some (st, srcLimit)
       else Some (st, srcLength));
    r ← from_utf32_loop fuel s srcLimit destCapacity subchar st;
    finish r destCapacity code.

Definition u_strFromUTF32 (dest : option (list Z)) (destCapacity : Z) (src : option (list Z)) (srcLength : Z) (code : UErrorCode) :=
  u_strFromUTF32WithSub dest destCapacity src srcLength U_SENTINEL code.

(** ** The reference *)

(** The units that are written: a pair that does not fit is left out, and what
    follows it may still be written. *)
Definition place_one (cap : Z) (out : list Z) (c : Z) : list Z :=
  if Z.of_nat (List.length out) + U16_LENGTH c <=? cap then out ++ units c else out.
Definition place (cap : Z) (cs : list Z) : list Z := foldl (place_one cap) [] cs.

Definition converted_from_utf32 (dest : option (list Z)) : Z -> list (option Z) -> UErrorCode -> Converted :=
  converted_whole dest (place (capacity dest)) utf16.

(** The code points of 32-bit units. *)
Definition items32 (s : list Z) : list (option Z) := map scalar_item s.

(** A pair does not fit, and the code point after it is written in its place. *)
Example utf32_gap :
  u_strFromUTF32 (Some [0; 0]) 2 (Some [0x61; 0x1f600; 0x62]) 3 U_ZERO_ERROR =
    Some (MkConverted (Some [0x61; 0x62]) (Some 4) (Some 0) U_BUFFER_OVERFLOW_ERROR).
Proof. vm_compute. reflexivity. Qed.
