(* ===== verification/UStrTrnsUtf32Loops.v ===== *)
(** * The loops of the conversions from and to UTF-32 *)
From S2P Require Import Prelude Int32 Utf16 UString Utf8 Utf8Decoding UStrTrns UStrTrnsRest UStrTrnsLoops UStrTrnsToUtf8 UStrTrnsToUtf8Loops UStrTrnsUtf32.
Local Open Scope Z_scope.

#[local] Abbreviation len l := (Z.of_nat (List.length l)).

(** ** The start of a NUL-terminated string *)

Section Start.
Context (t rest : list Z) (Hnz : Forall (fun c => c <> 0) t).

Lemma nul_get i : (i <= List.length t)%nat -> (t ++ 0 :: rest) !! i = Some (default 0 (t !! i)) /\ ((i < List.length t)%nat <-> default 0 (t !! i) <> 0).
Proof.
  intros Hi. destruct (decide (i = List.length t)) as [->|].
  - rewrite list_lookup_middle, lookup_ge_None_2 by done. cbn. split; [done|]. split; [lia|done].
  - destruct (lookup_lt_is_Some_2 t i) as [b Hb]; [lia|]. rewrite lookup_app_l, Hb by lia. cbn. split; [done|]. split; [|lia].
    intros _. by apply (Forall_lookup_1 _ _ _ _ Hnz Hb).
Qed.

Lemma u_strlen_loop_nul fuel : forall i : nat, (i <= List.length t)%nat -> (List.length t - i < fuel)%nat ->
  u_strlen_loop fuel (t ++ 0 :: rest) (Z.of_nat i) = Some (len t).
Proof.
  induction fuel as [|fuel IH]; intros i Hi Hf; [lia|]. cbn [u_strlen_loop]. destruct (nul_get i Hi) as [Hg Hz]. rewrite aget_nat, Hg. cbn [mbind option_bind].
  destruct (Z.eqb_spec (default 0 (t !! i)) 0) as [E|E]; cbn [negb].
  - f_equal. assert (~ (i < List.length t)%nat) by tauto. lia.
  - replace (Z.of_nat i + 1) with (Z.of_nat (S i)) by lia. apply Hz in E. apply IH; lia.
Qed.

Lemma find_limit_nul i : (i <= List.length t)%nat -> find_limit (t ++ 0 :: rest) (Z.of_nat i) (default 0 (t !! i)) = Some (len t).
Proof.
  intros Hi. unfold find_limit. destruct (nul_get i Hi) as [_ Hz]. destruct (Z.eqb_spec (default 0 (t !! i)) 0) as [E|E]; cbn [negb].
  - f_equal. assert (~ (i < List.length t)%nat) by tauto. lia.
  - replace (Z.of_nat i + 1) with (Z.of_nat (S i)) by lia. apply Hz in E. apply u_strlen_loop_nul; [lia|]. rewrite length_app. lia.
Qed.

Context (state : nat -> list Z -> Z -> Conv) (size : list Z -> Z) (buf : list Z -> option (list Z)) `{Hst : !States state size buf}.
Context (enc : Z -> list Z) (subchar cap : Z) (items : list Z -> list (option Z)) (simple : Z -> bool) (cast : Z -> Z).
Context (Hitems : forall i ch r, drop i t = ch :: r -> simple ch = true -> items (drop i t) = Some ch :: items (drop (i + 1) t)).
Context (Hput : forall i j ch out n, t !! j = Some ch -> simple ch = true -> size (out ++ enc ch) <= INT32_MAX ->
  put_or_count (state i out n) cap (cast ch) = Some (state i (out ++ enc ch) n)).

Lemma copy_simple_spec (K : Conv -> Z -> option Result) :
  (forall i out, (i <= List.length t)%nat -> rest_ok state size buf enc subchar out 0 (items (drop i t)) (K (state i out 0) (default 0 (t !! i)))) ->
  forall fuel i out, (List.length t - i < fuel)%nat -> (i <= List.length t)%nat ->
  rest_ok state size buf enc subchar out 0 (items (drop i t))
    ('(st, ch) ← copy_simple fuel simple cast (t ++ 0 :: rest) cap (state i out 0); K st ch).
Proof.
  intros HK. induction fuel as [|fuel IH]; intros i out Hf Hi; [lia|]. cbn [copy_simple]. rewrite state_pSrc, aget_nat.
  destruct (nul_get i Hi) as [-> Hz]. cbn [mbind option_bind]. destruct (Z.eqb_spec (default 0 (t !! i)) 0) as [E|E]; cbn [negb andb]; [by apply HK|].
  destruct (simple (default 0 (t !! i))) eqn:Hs; [|by apply HK]. apply Hz in E. destruct (lookup_lt_is_Some_2 t i E) as [ch Hch]. rewrite Hch in *.
  change (default 0 (Some ch)) with ch in *. pose proof (drop_S _ _ _ Hch) as Hd. rewrite (Hitems i ch _ Hd Hs). apply rest_char.
  eapply rest_bound; [done|]. intros Hmax. replace (Z.of_nat i + 1) with (Z.of_nat (i + 1)) by lia. rewrite state_move.
  rewrite (Hput (i + 1) i ch) by done. cbn [mbind option_bind]. apply IH; lia.
Qed.
End Start.

(** ** To UTF-32 *)

Section ToUtf32.
Context (dest : option (list Z)).
#[local] Abbreviation cap := (capacity dest).

Lemma put_or_count_at i out n u : len out + 1 <= INT32_MAX -> put_or_count (conv_at dest i out n) cap u = Some (conv_at dest i (out ++ [u]) n).
Proof.
  intros Hmax. unfold put_or_count. change (pDest (conv_at dest i out n)) with (Z.min cap (len out)). pose proof (cap_nonneg dest).
  destruct (Z.ltb_spec (Z.min cap (len out)) cap); [apply put_at; lia|].
  change (reqLength (conv_at dest i out n)) with (len out - Z.min cap (len out)). rewrite iadd_ok by ibound. cbn [obind].
  change 1 with (len [u]). by rewrite require_at by lia.
Qed.

Context (subchar : Z) (t rest : list Z).
Context (Ht : is_string t) (Hsub : subchar < 0 \/ is_scalar subchar) (Hlen : len t <= INT32_MAX).
#[local] Abbreviation rest_ok := (UStrTrnsRest.rest_ok (conv_at dest) (fun out => len out) (overlay dest) (fun c => [c]) subchar).


Lemma point_char c out n items r : rest_ok (out ++ [c]) n items r -> rest_ok out n (Some c :: items) r.
Proof. apply (rest_char (conv_at dest) _ _ (fun c => [c])). Qed.

(** The array has the units [t], and maybe more. *)
Context (s : list Z) (Hs : forall i, (i < List.length t)%nat -> s !! i = t !! i).

Lemma to_utf32_loop_spec fuel : forall i out n, (List.length t - i < fuel)%nat -> (i <= List.length t)%nat -> 0 <= n <= Z.of_nat i ->
  rest_ok out n (items16 (drop i t)) (to_utf32_loop fuel s (len t) cap subchar (conv_at dest i out n)).
Proof.
  induction fuel as [|fuel IH]; intros i out n Hf Hi Hn; [lia|]. cbn [to_utf32_loop]. rewrite state_pSrc.
  destruct (Z.ltb_spec (Z.of_nat i) (len t)) as [Hlt|Hge].
  2:{ rewrite drop_ge by lia. eapply rest_done. }
  destruct (lookup_lt_is_Some_2 t i) as [ch Hch]; [lia|]. rewrite aget_nat, Hs, Hch by lia. cbn [mbind option_bind].
  pose proof (drop_S _ _ _ Hch) as Hd. replace (Z.of_nat i + 1) with (Z.of_nat (i + 1)) by lia. rewrite state_move.
  assert (Hstep : forall x j n', (i < j <= List.length t)%nat -> 0 <= n' <= Z.of_nat j ->
    rest_ok (out ++ [x]) n' (items16 (drop j t)) (st ← put_or_count (conv_at dest j out n') cap x; to_utf32_loop fuel s (len t) cap subchar st)).
  { intros x j n' Hj Hn'. eapply rest_bound; [apply _|]. intros Hmax. rewrite length_app in Hmax. cbn [List.length] in Hmax.
    rewrite put_or_count_at by lia. cbn [mbind option_bind]. apply IH; rewrite ?length_app; cbn [List.length]; lia. }
  destruct (U_IS_SURROGATE ch) eqn:Hsur; cbn [negb mbind option_bind].
  2:{ destruct (bmp_item t Ht i ch _ Hd Hsur) as (_ & -> & Hj). apply point_char. apply Hstep; lia. }
  assert (Htr : (if U16_IS_SURROGATE_LEAD ch && (Z.of_nat (i + 1) <? len t) then trail_unit s (Z.of_nat (i + 1)) else Some None) =
    Some (pair_trail ch (drop (S i) t))).
  { unfold pair_trail, trail_unit. destruct (U16_IS_SURROGATE_LEAD ch); cbn [andb]; [|done]. replace (S i) with (i + 1)%nat by lia.
    destruct (Z.ltb_spec (Z.of_nat (i + 1)) (len t)) as [Hlt2|Hge2]; [|by rewrite drop_ge by lia].
    destruct (lookup_lt_is_Some_2 t (i + 1)) as [c2 Hc2]; [lia|]. rewrite aget_nat, Hs, Hc2 by lia. by rewrite (drop_S _ _ _ Hc2). }
  rewrite state_pSrc, Htr. cbn [mbind option_bind]. destruct (pair_trail ch (drop (S i) t)) as [t2|] eqn:Hp; cbn [mbind option_bind].
  - destruct (four_bytes_pair t Ht i ch _ t2 Hd Hsur Hp) as (_ & -> & Hj). apply point_char.
    replace (Z.of_nat (i + 1) + 1) with (Z.of_nat (i + 2)) by lia. rewrite state_move. apply Hstep; lia.
  - pose proof (items16_cons ch (drop (S i) t)) as Hit. rewrite <- Hd in Hit. specialize (Hit ltac:(by apply Forall_drop)).
    rewrite first_item_surrogate, Hp in Hit by done. destruct Hit as (-> & _ & _). rewrite drop_0. replace (S i) with (i + 1)%nat by lia.
    unfold substitute_unpaired. rewrite Z.geb_leb. destruct (Z.leb_spec 0 subchar) as [Hpos|Hneg]; [|by eapply rest_invalid; [..|done]].
    rewrite state_substitutions, iadd_ok by ibound. cbn [obind mbind option_bind]. rewrite state_pSrc, state_buffer, state_substitute.
    apply (rest_substitute (conv_at dest) _ _ (fun c => [c])); [lia|]. apply Hstep; lia.
Qed.
End ToUtf32.

Lemma transcoded_length subchar items : (List.length (transcoded subchar items) <= List.length items)%nat.
Proof.
  unfold transcoded. induction items as [|[c|] items IH]; [done| |]; cbn [transcode List.length].
  - destruct (transcode subchar items) as [[cs n] ok]. cbn in *. lia.
  - destruct (subchar <? 0); [cbn; lia|]. destruct (transcode subchar items) as [[cs n] ok]. cbn in *. lia.
Qed.

Lemma items16_length t : is_string t -> (List.length (items16 t) <= List.length t)%nat.
Proof.
  remember (List.length t) as m eqn:Hm. revert t Hm. induction m as [m IH] using lt_wf_ind. intros t -> Ht.
  destruct t as [|ch r]; [done|]. pose proof (items16_cons ch r Ht) as Hi. destruct (first_item ch r) as [c k]. destruct Hi as (-> & Hk & _).
  cbn [List.length] in *. inversion Ht; subst. specialize (IH (List.length (drop k r)) ltac:(rewrite length_drop; lia) _ eq_refl ltac:(by apply Forall_drop)).
  rewrite length_drop in IH. lia.
Qed.

Lemma converted_single dest subchar items code :
  converted dest (fun cs => concat (map (fun c => [c]) cs)) subchar items code = converted dest id subchar items code.
Proof. unfold converted. destruct (transcode subchar items) as [[cs n] ok]. by rewrite concat_single. Qed.

Lemma to_utf32_bound subchar t : is_string t -> len t <= INT32_MAX ->
  len (concat (map (fun c => [c]) (transcoded subchar (items16 t)))) <= INT32_MAX.
Proof. intros Ht Hlen. rewrite concat_single. pose proof (transcoded_length subchar (items16 t)). pose proof (items16_length t Ht). lia. Qed.

(** The main part, after what a conversion does first. *)
Lemma first_part {A} (o : option (Conv * Z)) (g : Conv -> Z -> option Z) (h : Conv -> Z -> option Result) (f : Result -> option A) :
  ('(st, l) ← ('(st, ch) ← o; l ← g st ch; Some (st, l)); r ← h st l; f r) =
  (r ← ('(st, ch) ← o; l ← g st ch; h st l); f r).
Proof. destruct o as [[st ch]|]; [|done]. cbn [mbind option_bind]. by destruct (g st ch). Qed.

Section ToUtf32Whole.
Context (dest : option (list Z)) (t rest : list Z) (subchar : Z) (code : UErrorCode).
Context (Ht : is_string t) (Hlen : len t <= INT32_MAX) (Hsub : substitute_char subchar) (Hcode : U_SUCCESS code = true).

Lemma to_utf32_limit : u_strToUTF32WithSub dest (capacity dest) (Some t) (len t) subchar code = Some (converted dest id subchar (items16 t) code).
Proof.
  pose proof (substitute_char_cases subchar Hsub) as Hsub'. unfold u_strToUTF32WithSub. rewrite success_no_failure, good_arguments by (done || lia).
  change (default [] (Some t)) with t. rewrite (proj2 (Z.ltb_ge _ 0)) by lia. cbn [mbind option_bind]. rewrite <- converted_single.
  apply (overlay_finish (conv_at dest)); try (done || apply _ || by apply to_utf32_bound). rewrite conv_start. rewrite <- (drop_0 t) at 1.
  apply to_utf32_loop_spec; (done || cbn; lia).
Qed.

Lemma to_utf32_nul : Forall (fun c => c <> 0) t ->
  u_strToUTF32WithSub dest (capacity dest) (Some (t ++ 0 :: rest)) (-1) subchar code = Some (converted dest id subchar (items16 t) code).
Proof.
  intros Hnz. pose proof (substitute_char_cases subchar Hsub) as Hsub'. unfold u_strToUTF32WithSub. rewrite success_no_failure, good_arguments by (done || lia).
  change (default [] (Some (t ++ 0 :: rest))) with (t ++ 0 :: rest). change (-1 <? 0) with true. cbv iota. rewrite conv_start, <- converted_single.
  rewrite (first_part _ (fun st ch => find_limit (t ++ 0 :: rest) (pSrc st) ch)).
  set (fuel := S (List.length (t ++ 0 :: rest))). assert (Hf : (List.length t < fuel)%nat) by (unfold fuel; rewrite length_app; lia). clearbody fuel.
  apply (overlay_finish (conv_at dest)); try (done || apply _ || by apply to_utf32_bound). rewrite <- (drop_0 t) at 1.
  apply (copy_simple_spec t rest Hnz (conv_at dest) (fun out => len out) (overlay dest) (fun c => [c]) subchar (capacity dest) items16
    (fun ch => negb (U_IS_SURROGATE ch)) id); try lia.
  - intros i ch r Hd Hs. apply negb_true_iff in Hs. by apply (bmp_item t Ht i ch r Hd).
  - intros i j ch out n _ _ Hmax. apply put_or_count_at. rewrite length_app in Hmax. cbn in Hmax. lia.
  - intros i out Hi. rewrite state_pSrc, find_limit_nul by done. cbn [mbind option_bind].
    apply to_utf32_loop_spec; try (done || lia). intros j Hj. by rewrite lookup_app_l.
Qed.
End ToUtf32Whole.

(** ** From UTF-32 *)

Lemma place_snoc cap cs c : place cap (cs ++ [c]) = place_one cap (place cap cs) c.
Proof. unfold place. by rewrite foldl_app. Qed.

Lemma units_size c : len (units c) = U16_LENGTH c.
Proof. unfold units, U16_APPEND_UNSAFE, U16_LENGTH. by destruct (uint32 c <=? 0xffff). Qed.

Lemma utf16_snoc cs c : utf16 (cs ++ [c]) = utf16 cs ++ units c.
Proof. rewrite utf16_app. unfold utf16 at 2. cbn. by rewrite app_nil_r. Qed.

Lemma place_all cap cs : len (utf16 cs) <= cap -> place cap cs = utf16 cs.
Proof.
  induction cs as [|c cs IH] using rev_ind; [done|]. rewrite utf16_snoc, length_app, place_snoc. intros Hle.
  rewrite IH by lia. unfold place_one. rewrite <- units_size. by rewrite (proj2 (Z.leb_le _ _)) by lia.
Qed.

Lemma place_bounds cap cs : 0 <= cap -> len (place cap cs) <= cap /\ len (place cap cs) <= len (utf16 cs).
Proof.
  intros Hcap. induction cs as [|c cs IH] using rev_ind; [cbn; lia|]. rewrite utf16_snoc, length_app, place_snoc.
  unfold place_one. rewrite <- units_size. destruct (Z.leb_spec (len (place cap cs) + len (units c)) cap); [|lia].
  rewrite length_app. lia.
Qed.

Section FromUtf32.
Context (dest : option (list Z)).
#[local] Abbreviation cap := (capacity dest).

Definition utf32_at (i : nat) (cs : list Z) (n : Z) : Conv :=
  MkConv (Z.of_nat i) (len (place cap cs)) (overlay dest (place cap cs)) (len (utf16 cs) - len (place cap cs)) n.

#[local] Instance utf32_states : States utf32_at (fun cs => len (utf16 cs)) (fun cs => overlay dest (place cap cs)).
Proof. split; intros; try done; [cbn; lia|]. rewrite utf16_app, length_app. lia. Qed.

Lemma is_bmp_scalar_spec ch : is_int32 ch -> is_bmp_scalar ch = bool_decide (is_scalar ch) && (ch <=? 0xffff).
Proof.
  intros Hc. unfold is_int32 in Hc. unfold is_bmp_scalar, is_scalar, is_code_point, uint32. apply eq_true_iff_eq.
  rewrite orb_true_iff, !andb_true_iff, Z.ltb_lt, !Z.leb_le, bool_decide_eq_true. dlia.
Qed.

(** Writing or counting a code point. *)
Lemma place_bmp i cs n c : is_scalar c -> c <= 0xffff -> len (utf16 (cs ++ [c])) <= INT32_MAX ->
  put_or_count (utf32_at i cs n) cap c = Some (utf32_at i (cs ++ [c]) n).
Proof.
  intros Hc Hb Hmax. destruct (place_bounds cap cs (cap_nonneg dest)). destruct (units_bmp c Hc Hb) as [Hu _].
  pose proof (utf16_snoc cs c) as Hlast. rewrite Hu in Hlast.
  rewrite Hlast, length_app in Hmax. cbn [List.length] in Hmax. unfold utf32_at. rewrite place_snoc. unfold place_one. rewrite <- units_size, Hu.
  unfold put_or_count. cbn [pDest reqLength List.length]. destruct (Z.ltb_spec (len (place cap cs)) cap).
  - rewrite (proj2 (Z.leb_le _ _)) by lia. rewrite put_single, put_all_overlay by (rewrite length_app; cbn; lia). rewrite Hlast, !length_app. cbn [List.length].
    do 2 f_equal; lia.
  - rewrite (proj2 (Z.leb_gt _ _)) by lia. rewrite iadd_ok by ibound. cbn [obind]. unfold require. cbn [pSrc pDest buffer numSubstitutions].
    rewrite Hlast, length_app. cbn [List.length]. do 2 f_equal. lia.
Qed.

Lemma write_scalar_at i cs n c : is_scalar c -> len (utf16 (cs ++ [c])) <= INT32_MAX ->
  write_scalar (utf32_at i cs n) cap c = Some (Some (utf32_at i (cs ++ [c]) n)).
Proof.
  intros Hc Hmax. pose proof (scalar_range c Hc) as Hr. unfold write_scalar. rewrite is_bmp_scalar_spec, bool_decide_eq_true_2 by first [done | ibound].
  cbn [andb]. destruct (Z.leb_spec c 0xffff) as [Hb|Hb].
  { destruct (units_bmp c Hc Hb) as [_ ->]. by rewrite place_bmp. }
  rewrite (proj2 (Z.leb_le 0x10000 c)), (proj2 (Z.leb_le c 0x10ffff)) by lia. cbn [andb]. pose proof (cap_nonneg dest) as Hcap.
  destruct (place_bounds cap cs Hcap). pose proof (units_supplementary c Hc Hb) as Hu.
  pose proof (utf16_snoc cs c) as Hlast.
  rewrite Hlast, length_app, Hu in Hmax. cbn [List.length] in Hmax.
  replace (bool_decide (buffer (utf32_at i cs n) <> None) && (pDest (utf32_at i cs n) + 2 <=? cap)) with (len (place cap cs) + 2 <=? cap).
  2:{ cbn [utf32_at buffer pDest]. destruct dest as [d|]; cbn [overlay]; [by rewrite bool_decide_eq_true_2|]. cbn [capacity].
      rewrite bool_decide_eq_false_2 by (by intros H2). cbn [andb]. apply Z.leb_gt. lia. }
  unfold utf32_at. rewrite place_snoc. unfold place_one. rewrite <- units_size, Hlast, Hu. cbn [List.length].
  change (Z.of_nat 2) with 2. destruct (Z.leb_spec (len (place cap cs) + 2) cap).
  - rewrite put_single, put_all_overlay by (rewrite length_app; cbn; lia). cbn [mbind option_bind].
    rewrite put_single, put_all_overlay by (rewrite !length_app; cbn; lia). cbn [mbind option_bind]. rewrite <- app_assoc, !length_app. cbn [List.length app].
    do 3 f_equal. lia.
  - cbn [reqLength]. rewrite iadd_ok by ibound. cbn [obind]. unfold require. cbn [pSrc pDest buffer numSubstitutions].
    rewrite length_app. cbn [List.length]. do 3 f_equal. lia.
Qed.

Lemma write_scalar_none st ch : is_int32 ch -> ~ is_scalar ch -> write_scalar st cap ch = Some None.
Proof.
  intros Hc Hns. unfold write_scalar. rewrite is_bmp_scalar_spec, bool_decide_eq_false_2 by done. cbn [andb].
  destruct (Z.leb_spec 0x10000 ch), (Z.leb_spec ch 0x10ffff); cbn [andb]; try done. exfalso. apply Hns. unfold is_scalar, is_code_point. lia.
Qed.

Context (subchar : Z) (t : list Z).
Context (Ht : Forall is_int32 t) (Hsub : subchar < 0 \/ is_scalar subchar) (Hlen : len t <= INT32_MAX).
#[local] Abbreviation rest_ok :=
  (UStrTrnsRest.rest_ok utf32_at (fun cs => len (utf16 cs)) (fun cs => overlay dest (place cap cs)) (fun c => [c]) subchar).

Lemma items32_cons i ch r : drop i t = ch :: r -> items32 (drop i t) = scalar_item ch :: items32 (drop (i + 1) t).
Proof. intros Hd. by rewrite Hd, (rest_drop t i ch r Hd). Qed.

Context (s : list Z) (Hs : forall i, (i < List.length t)%nat -> s !! i = t !! i).

Lemma from_utf32_loop_spec fuel : forall i cs n, (List.length t - i < fuel)%nat -> (i <= List.length t)%nat -> 0 <= n <= Z.of_nat i ->
  rest_ok cs n (items32 (drop i t)) (from_utf32_loop fuel s (len t) cap subchar (utf32_at i cs n)).
Proof.
  induction fuel as [|fuel IH]; intros i cs n Hf Hi Hn; [lia|]. cbn [from_utf32_loop]. rewrite state_pSrc.
  destruct (Z.ltb_spec (Z.of_nat i) (len t)) as [Hlt|Hge].
  2:{ rewrite drop_ge by lia. eapply rest_done. }
  destruct (lookup_lt_is_Some_2 t i) as [ch Hch]; [lia|]. rewrite aget_nat, Hs, Hch by lia. cbn [mbind option_bind].
  rewrite (items32_cons i ch _ (drop_S _ _ _ Hch)). replace (Z.of_nat i + 1) with (Z.of_nat (i + 1)) by lia. rewrite state_move.
  unfold scalar_item. case_bool_decide as Hsc.
  - apply (rest_char utf32_at _ _ (fun c => [c])). eapply rest_bound; [apply _|]. intros Hmax. rewrite write_scalar_at by done.
    cbn [mbind option_bind]. apply IH; lia.
  - rewrite write_scalar_none by (done || by apply (Forall_lookup_1 _ _ _ _ Ht Hch)). cbn [mbind option_bind].
    destruct (Z.ltb_spec subchar 0) as [Hneg|Hpos]; [by eapply rest_invalid; [..|done]|]. destruct Hsub as [?|Hsub']; [lia|].
    apply (rest_substitute utf32_at _ _ (fun c => [c])); [lia|]. eapply rest_bound; [apply _|]. intros Hmax.
    rewrite state_substitutions, iadd_ok by ibound. cbn [obind]. change (MkConv _ _ _ _ (n + 1)) with (utf32_at (i + 1) cs (n + 1)).
    rewrite write_scalar_at by done.
    cbn [mbind option_bind]. apply IH; lia.
Qed.
End FromUtf32.

#[export] Existing Instance utf32_states.

Section FromUtf32Whole.
Context (dest : option (list Z)) (t rest : list Z) (subchar : Z) (code : UErrorCode).
Context (Ht : Forall is_int32 t) (Hlen : len t <= INT32_MAX) (Hsub : substitute_char subchar) (Hcode : U_SUCCESS code = true).
Context (Hmax : len (utf16 (transcoded subchar (items32 t))) <= INT32_MAX).

Lemma utf32_start : MkConv 0 0 dest 0 0 = utf32_at dest 0 [] 0.
Proof. unfold utf32_at. cbn. by rewrite overlay_nil. Qed.

Lemma from_utf32_limit :
  u_strFromUTF32WithSub dest (capacity dest) (Some t) (len t) subchar code = Some (converted_from_utf32 dest subchar (items32 t) code).
Proof.
  pose proof (substitute_char_cases subchar Hsub) as Hsub'. unfold u_strFromUTF32WithSub. rewrite success_no_failure, good_arguments by (done || lia).
  change (default [] (Some t)) with t. rewrite (proj2 (Z.ltb_ge _ 0)) by lia. cbn [mbind option_bind].
  apply (whole_finish (utf32_at dest)); [apply _|done|intros; by apply place_all| |done]. rewrite utf32_start. rewrite <- (drop_0 t) at 1.
  apply from_utf32_loop_spec; (done || cbn; lia).
Qed.

Lemma from_utf32_nul : Forall (fun c => c <> 0) t ->
  u_strFromUTF32WithSub dest (capacity dest) (Some (t ++ 0 :: rest)) (-1) subchar code = Some (converted_from_utf32 dest subchar (items32 t) code).
Proof.
  intros Hnz. pose proof (substitute_char_cases subchar Hsub) as Hsub'. unfold u_strFromUTF32WithSub. rewrite success_no_failure, good_arguments by (done || lia).
  change (default [] (Some (t ++ 0 :: rest))) with (t ++ 0 :: rest). change (-1 <? 0) with true. cbv iota. rewrite utf32_start.
  rewrite (first_part _ (fun st ch => find_limit (t ++ 0 :: rest) (pSrc st) ch)).
  set (fuel := S (List.length (t ++ 0 :: rest))). assert (Hf : (List.length t < fuel)%nat) by (unfold fuel; rewrite length_app; lia). clearbody fuel.
  apply (whole_finish (utf32_at dest)); [apply _|done|intros; by apply place_all| |done]. rewrite <- (drop_0 t) at 1.
  apply (copy_simple_spec t rest Hnz (utf32_at dest) (fun cs => len (utf16 cs)) (fun cs => overlay dest (place (capacity dest) cs)) (fun c => [c]) subchar
    (capacity dest) items32 is_bmp_scalar uint16); try lia.
  - intros i ch r Hd Hs. rewrite (items32_cons t i ch r Hd). f_equal. assert (Hc : is_int32 ch) by (assert (H : Forall is_int32 (ch :: r)) by (rewrite <- Hd; by apply Forall_drop); by inversion H).
    rewrite is_bmp_scalar_spec, andb_true_iff in Hs by done. destruct Hs as [Hs _]. unfold scalar_item. by rewrite Hs.
  - intros i j ch out n Hj Hs Hout. assert (Hc : is_int32 ch) by (by apply (Forall_lookup_1 _ _ _ _ Ht Hj)).
    rewrite is_bmp_scalar_spec, andb_true_iff, bool_decide_eq_true, Z.leb_le in Hs by done. destruct Hs as [Hsc Hb].
    destruct (units_bmp ch Hsc Hb) as [_ ->]. by apply place_bmp.
  - intros i cs Hi. rewrite state_pSrc, find_limit_nul by done. cbn [mbind option_bind].
    apply from_utf32_loop_spec; try (done || lia). intros j Hj. by rewrite lookup_app_l.
Qed.
End FromUtf32Whole.
