(* ===== verification/UStrTrnsUtf32Properties.v ===== *)
(** * Conversion from and to UTF-32 *)
From S2P Require Import Prelude Int32 Utf16 UString Utf8 Utf8Decoding UStrTrns UStrTrnsRest UStrTrnsToUtf8 UStrTrnsUtf32 UStrTrnsUtf32Loops.
Local Open Scope Z_scope.

#[local] Abbreviation len l := (Z.of_nat (List.length l)).

(** C14: conversion to UTF-32.  For any 16-bit units, whether their length is given or
    a NUL ends them, [u_strToUTF32WithSub] writes the code points as far as they
    fit, with the substitution character for each unpaired surrogate, and
    returns their full number, the number of substitutions and the code for how
    that fits; with no substitution character it stops at the first unpaired
    surrogate with [U_INVALID_CHAR_FOUND]. *)
Theorem to_utf32_correct dest t rest subchar code :
  is_string t -> len t <= INT32_MAX -> substitute_char subchar -> U_SUCCESS code = true ->
  u_strToUTF32WithSub dest (capacity dest) (Some t) (len t) subchar code = Some (converted dest id subchar (items16 t) code) /\
  (Forall (fun c => c <> 0) t ->
     u_strToUTF32WithSub dest (capacity dest) (Some (t ++ 0 :: rest)) (-1) subchar code = Some (converted dest id subchar (items16 t) code)).
Proof. intros Ht Hlen Hsub Hcode. split; [by apply to_utf32_limit|intros Hnz; by apply to_utf32_nul]. Qed.

Lemma to_utf32_correct_witness :
  let t := [0x41; 0xd83d; 0xde00; 0xdc00; 0x42; 0xd800] in
  u_strToUTF32WithSub (Some (repeat 7 6)) 6 (Some t) 6 0xfffd U_ZERO_ERROR =
    Some (MkConverted (Some [0x41; 0x1f600; 0xfffd; 0x42; 0xfffd; 0]) (Some 5) (Some 2) U_ZERO_ERROR) /\
  u_strToUTF32WithSub (Some (repeat 7 2)) 2 (Some (t ++ [0; 0xde00])) (-1) 0xfffd U_ZERO_ERROR =
    Some (MkConverted (Some [0x41; 0x1f600]) (Some 5) (Some 2) U_BUFFER_OVERFLOW_ERROR) /\
  u_strToUTF32WithSub (Some (repeat 7 6)) 6 (Some t) 6 (-1) U_ZERO_ERROR =
    Some (MkConverted (Some [0x41; 0x1f600; 7; 7; 7; 7]) None (Some 0) U_INVALID_CHAR_FOUND).
Proof.
  assert (Ht : is_string [0x41; 0xd83d; 0xde00; 0xdc00; 0x42; 0xd800]) by (repeat constructor; done).
  assert (H1 : substitute_char 0xfffd) by (right; unfold is_scalar, is_code_point; lia). assert (H2 : substitute_char (-1)) by (left; done).
  cbv zeta. split_and!.
  - etrans; [refine (proj1 (to_utf32_correct (Some (repeat 7 6)) _ [] 0xfffd U_ZERO_ERROR Ht _ H1 eq_refl)); vm_compute; done|]. vm_compute. reflexivity.
  - etrans; [refine (proj2 (to_utf32_correct (Some (repeat 7 2)) _ [0xde00] 0xfffd U_ZERO_ERROR Ht _ H1 eq_refl) _); [vm_compute; done|repeat constructor; done]|].
    vm_compute. reflexivity.
  - etrans; [refine (proj1 (to_utf32_correct (Some (repeat 7 6)) _ [] (-1) U_ZERO_ERROR Ht _ H2 eq_refl)); vm_compute; done|]. vm_compute. reflexivity.
Defined.

(** C15: conversion from UTF-32.  For any 32-bit values, whether their length is given
    or a NUL ends them, [u_strFromUTF32WithSub] returns the full length of the
    UTF-16 form, with the substitution character for each value that is no
    scalar value, and the number of substitutions; if all fits the buffer holds
    it; otherwise it holds what is left when the pairs that do not fit are
    skipped.  With no substitution character it stops at the first such value with
    [U_INVALID_CHAR_FOUND]. *)
Theorem from_utf32_correct dest t rest subchar code :
  Forall is_int32 t -> len t <= INT32_MAX -> substitute_char subchar -> U_SUCCESS code = true ->
  len (utf16 (transcoded subchar (items32 t))) <= INT32_MAX ->
  u_strFromUTF32WithSub dest (capacity dest) (Some t) (len t) subchar code = Some (converted_from_utf32 dest subchar (items32 t) code) /\
  (Forall (fun c => c <> 0) t ->
     u_strFromUTF32WithSub dest (capacity dest) (Some (t ++ 0 :: rest)) (-1) subchar code = Some (converted_from_utf32 dest subchar (items32 t) code)) /\
  (forall cs, len (utf16 cs) <= capacity dest -> place (capacity dest) cs = utf16 cs).
Proof. intros Ht Hlen Hsub Hcode Hmax. split_and!; [by apply from_utf32_limit|intros Hnz; by apply from_utf32_nul|intros; by apply place_all]. Qed.

Lemma from_utf32_correct_witness :
  let t := [0x41; 0x1f600; 0xd800; -5; 0x42] in
  u_strFromUTF32WithSub (Some (repeat 7 7)) 7 (Some t) 5 0xfffd U_ZERO_ERROR =
    Some (MkConverted (Some [0x41; 0xd83d; 0xde00; 0xfffd; 0xfffd; 0x42; 0]) (Some 6) (Some 2) U_ZERO_ERROR) /\
  u_strFromUTF32WithSub (Some (repeat 7 2)) 2 (Some (t ++ [0; 0x43])) (-1) 0x3f U_ZERO_ERROR =
    Some (MkConverted (Some [0x41; 0x3f]) (Some 6) (Some 2) U_BUFFER_OVERFLOW_ERROR) /\
  u_strFromUTF32WithSub (Some (repeat 7 7)) 7 (Some t) 5 (-1) U_ZERO_ERROR =
    Some (MkConverted (Some [0x41; 0xd83d; 0xde00; 7; 7; 7; 7]) None (Some 0) U_INVALID_CHAR_FOUND).
Proof.
  assert (Ht : Forall is_int32 [0x41; 0x1f600; 0xd800; -5; 0x42]) by (repeat constructor; done).
  assert (H1 : substitute_char 0xfffd) by (right; unfold is_scalar, is_code_point; lia).
  assert (H2 : substitute_char 0x3f) by (right; unfold is_scalar, is_code_point; lia). assert (H3 : substitute_char (-1)) by (left; done).
  cbv zeta. split_and!.
  - etrans; [refine (proj1 (from_utf32_correct (Some (repeat 7 7)) _ [] 0xfffd U_ZERO_ERROR Ht _ H1 eq_refl _)); vm_compute; done|]. vm_compute. reflexivity.
  - etrans; [refine (proj1 (proj2 (from_utf32_correct (Some (repeat 7 2)) _ [0x43] 0x3f U_ZERO_ERROR Ht _ H2 eq_refl _)) _); [vm_compute; done..|repeat constructor; done]|].
    vm_compute. reflexivity.
  - etrans; [refine (proj1 (from_utf32_correct (Some (repeat 7 7)) _ [] (-1) U_ZERO_ERROR Ht _ H3 eq_refl _)); vm_compute; done|]. vm_compute. reflexivity.
Defined.
