(* ===== verification/UStrTrnsJava.v ===== *)
(** * Java's modified UTF-8 (src/common/ustrtrns.cpp)

    Each 16-bit unit has one to three bytes of its own, surrogates too, and U+0000
    has two; so any string of units has a form, without NULs. *)
From S2P Require Import Prelude Int32 Utf16 UString Utf8 UStrTrns UStrTrnsToUtf8.
Local Open Scope Z_scope.

(** [(src==NULL && srcLength!=0) || srcLength < -1 || (dest==NULL && destCapacity!=0) || destCapacity<0] *)
Definition bad_java_arguments (src dest : option (list Z)) (srcLength destCapacity : Z) : bool :=
  (bool_decide (src = None) && negb (srcLength =? 0)) || (srcLength <? -1) ||
  (bool_decide (dest = None) && negb (destCapacity =? 0)) || (destCapacity <? 0).

(** A loop that copies while [simple] holds and there is room: the state and the
    unit it stops at. *)
Fixpoint copy_ascii (fuel : nat) (simple : Z -> bool) (cast : Z -> Z) (s : list Z) (pDestLimit : Z) (st : Conv) : option (Conv * Z) :=
  match fuel with
  | O => None
  | S fuel' =>
      ch ← aget s st.(pSrc);
      if simple ch && (st.(pDest) <? pDestLimit) then
        st ← put st (cast ch);
        copy_ascii fuel' simple cast s pDestLimit (move st (st.(pSrc) + 1))
      else Some (st, ch)
  end.

(** The fast loop for ASCII, up to [pSrcLimit]. *)
Fixpoint run_ascii (fuel : nat) (simple : Z -> bool) (cast : Z -> Z) (s : list Z) (pSrcLimit : Z) (st : Conv) : option Conv :=
  match fuel with
  | O => None
  | S fuel' =>
      if st.(pSrc) <? pSrcLimit then
        ch ← aget s st.(pSrc);
        if simple ch : bool then
          st ← put st (cast ch);
          run_ascii fuel' simple cast s pSrcLimit (move st (st.(pSrc) + 1))
        else Some st
      else Some st
  end.

(** [if(count >= srcLength && srcLength > 0 && *pSrc <= 0x7f)]: the state, [count] and [srcLength]. *)
Definition ascii_part (fuel : nat) (simple : Z -> bool) (cast : Z -> Z) (s : list Z) (pSrcLimit pDestLimit : Z) (st : Conv)
    : option (Conv * Z * Z) :=
  let count := pDestLimit - st.(pDest) in
  let srcLength := pSrcLimit - st.(pSrc) in
  ascii ← (if (count >=? srcLength) && (srcLength >? 0) then ch ← aget s st.(pSrc); Some (ch <=? 0x7f) else Some false);
  if ascii : bool then
    st' ← run_ascii fuel simple cast s pSrcLimit st;
    let delta := st'.(pSrc) - st.(pSrc) in
    Some (st', count - delta, srcLength - delta)
  else Some (st, count, srcLength).

Definition is_ascii (ch : Z) : bool := ch <=? 0x7f.

(** ** From modified UTF-8 *)

(** U+0000..U+FFFF with three bytes and U+0000..U+07FF with two. *)
Definition java_inline (s : list Z) (limit : option Z) (i ch : Z) : option (option (Z * Z)) :=
  if ch >=? 0xe0 then
    if (ch <=? 0xef) && bytes_left limit i 3 then
      t1 ← trail_at s (i + 1);
      if t1 <=? 0x3f then
        t2 ← trail_at s (i + 2);
        Some (if t2 <=? 0x3f then Some (uint16 (Z.lor (Z.lor (Z.shiftl ch 12) (Z.shiftl t1 6)) t2), i + 3) else None)
      else Some None
    else Some None
  else
    if (ch >=? 0xc0) && bytes_left limit i 2 then
      t1 ← trail_at s (i + 1);
      Some (if t1 <=? 0x3f then Some (uint16 (Z.lor (Z.shiftl (Z.land ch 0x1f) 6) t1), i + 2) else None)
    else Some None.

(** The bytes of an error are skipped and counted as a substitution. *)
Definition skip_error (s : list Z) (limit : Z) (st : Conv) (ch : Z) : option Conv :=
  '(_, i) ← utf8_nextCharSafeBodyPointer s (st.(pSrc) + 1) limit ch;
  let! n := st.(numSubstitutions) +! 1 in
  Some (MkConv i st.(pDest) st.(buffer) st.(reqLength) n).

Fixpoint write_java (fuel : nat) (s : list Z) (pSrcLimit pDestLimit subchar : Z) (st : Conv) : option Result :=
  match fuel with
  | O => None
  | S fuel' =>
      if (st.(pSrc) <? pSrcLimit) && (st.(pDest) <? pDestLimit) then
        ch ← aget s st.(pSrc);
        if ch <=? 0x7f then st ← put st (uint16 ch); write_java fuel' s pSrcLimit pDestLimit subchar (move st (st.(pSrc) + 1))
        else
          inline ← java_inline s (Some pSrcLimit) st.(pSrc) ch;
          match inline with
          | Some (u, i) => st ← put st u; write_java fuel' s pSrcLimit pDestLimit subchar (move st i)
          | None =>
              if subchar <? 0 then Some (Invalid st)
              else
                st ← skip_error s pSrcLimit st ch;
                if subchar <=? 0xffff then st ← put st (uint16 subchar); write_java fuel' s pSrcLimit pDestLimit subchar st
                else
                  st ← put st (U16_LEAD subchar);
                  if st.(pDest) <? pDestLimit then st ← put st (U16_TRAIL subchar); write_java fuel' s pSrcLimit pDestLimit subchar st
                  else let! n := st.(reqLength) +! 1 in Some (Done (require st n))
          end
      else Some (Done st)
  end.

(** The last loop adds [U16_LENGTH(ch)], where [ch] is the lead byte. *)
Fixpoint count_java (fuel : nat) (s : list Z) (pSrcLimit subchar : Z) (st : Conv) : option Result :=
  match fuel with
  | O => None
  | S fuel' =>
      if st.(pSrc) <? pSrcLimit then
        ch ← aget s st.(pSrc);
        if ch <=? 0x7f then let! n := st.(reqLength) +! 1 in count_java fuel' s pSrcLimit subchar (move (require st n) (st.(pSrc) + 1))
        else
          inline ← java_inline s (Some pSrcLimit) st.(pSrc) ch;
          match inline with
          | Some (_, i) => let! n := st.(reqLength) +! 1 in count_java fuel' s pSrcLimit subchar (move (require st n) i)
          | None =>
              if subchar <? 0 then Some (Invalid st)
              else
                st ← skip_error s pSrcLimit st ch;
                let! n := st.(reqLength) +! U16_LENGTH ch in
                count_java fuel' s pSrcLimit subchar (require st n)
          end
      else Some (Done st)
  end.

Fixpoint fast_java (fuel : nat) (s : list Z) (pSrcLimit subchar count : Z) (st : Conv) : option Result :=
  match fuel with
  | O => None
  | S fuel' =>
      let continue count st := if count - 1 >? 0 then fast_java fuel' s pSrcLimit subchar (count - 1) st else Some (Done st) in
      ch ← aget s st.(pSrc);
      if ch <=? 0x7f then st ← put st (uint16 ch); continue count (move st (st.(pSrc) + 1))
      else
        inline ← java_inline s None st.(pSrc) ch;
        match inline with
        | Some (u, i) => st ← put st u; continue count (move st i)
        | None =>
            if subchar <? 0 then Some (Invalid st)
            else if (subchar >? 0xffff) && (count - 1 =? 0) then Some (Done st)
            else
              let count := if subchar >? 0xffff then count - 1 else count in
              st ← skip_error s pSrcLimit st ch;
              if subchar <=? 0xffff then st ← put st (uint16 subchar); continue count st
              else st ← put st (U16_LEAD subchar); st ← put st (U16_TRAIL subchar); continue count st
        end
  end.

Fixpoint fast_java_rounds (fuel : nat) (s : list Z) (pSrcLimit pDestLimit subchar : Z) (st : Conv) : option Result :=
  '(st, count, srcLength) ← ascii_part (S (List.length s)) is_ascii uint16 s pSrcLimit pDestLimit st;
  let count := Z.min count (Z.quot srcLength 3) in
  if count <? 3 then Some (Done st)
  else
    match fuel with
    | O => None
    | S fuel' =>
        r ← fast_java (Z.to_nat count) s pSrcLimit subchar count st;
        match r with Done st => fast_java_rounds fuel' s pSrcLimit pDestLimit subchar st | Invalid st => Some (Invalid st) end
    end.

Definition u_strFromJavaModifiedUTF8WithSub (dest : option (list Z)) (destCapacity : Z) (src : option (list Z)) (srcLength subchar : Z)
    (code : UErrorCode) : option Converted :=
  if U_FAILURE code then Some (MkConverted dest None None code)
  else if bad_java_arguments src dest srcLength destCapacity || (subchar >? 0x10ffff) || U_IS_SURROGATE subchar then
    Some (MkConverted dest None None U_ILLEGAL_ARGUMENT_ERROR)
  else
    let s := default [] src in
    let fuel := S (List.length s) in
    let st := MkConv 0 0 dest 0 0 in
    let rest st pSrcLimit :=
      r ← and_then (and_then (fast_java_rounds fuel s pSrcLimit destCapacity subchar st) (write_java fuel s pSrcLimit destCapacity subchar))
            (count_java fuel s pSrcLimit subchar);
      finish r destCapacity code in
    if srcLength <? 0 then
      '(st, ch) ← copy_ascii fuel (fun ch => negb (ch =? 0) && (ch <=? 0x7f)) uint16 s destCapacity st;
      if ch =? 0 then finish (Done st) destCapacity code
      else pSrcLimit ← u_strlen_loop fuel s st.(pSrc); rest st pSrcLimit
    else rest st srcLength.

(** ** To modified UTF-8 *)

Definition is_java_ascii (ch : Z) : bool := (ch <=? 0x7f) && negb (ch =? 0).

(** The bytes of a unit. *)
Definition java_bytes (ch : Z) : list Z := if is_java_ascii ch then [uint8 ch] else if ch <=? 0x7ff then two_bytes ch else three_bytes ch.

Fixpoint write_java_utf8 (fuel : nat) (s : list Z) (pSrcLimit pDestLimit : Z) (st : Conv) : option Conv :=
  match fuel with
  | O => None
  | S fuel' =>
      if st.(pSrc) <? pSrcLimit then
        ch ← aget s st.(pSrc);
        let st := move st (st.(pSrc) + 1) in
        if is_java_ascii ch then
          if st.(pDest) <? pDestLimit then st ← put st (uint8 ch); write_java_utf8 fuel' s pSrcLimit pDestLimit st
          else Some (require st 1)
        else if ch <=? 0x7ff then
          if pDestLimit - st.(pDest) >=? 2 then st ← put_all st (two_bytes ch); write_java_utf8 fuel' s pSrcLimit pDestLimit st
          else Some (require st 2)
        else if pDestLimit - st.(pDest) >=? 3 then st ← put_all st (three_bytes ch); write_java_utf8 fuel' s pSrcLimit pDestLimit st
        else Some (require st 3)
      else Some st
  end.

Fixpoint count_java_utf8 (fuel : nat) (s : list Z) (pSrcLimit : Z) (st : Conv) : option Conv :=
  match fuel with
  | O => None
  | S fuel' =>
      if st.(pSrc) <? pSrcLimit then
        ch ← aget s st.(pSrc);
        let size := if is_java_ascii ch then 1 else if ch <=? 0x7ff then 2 else 3 in
        let! n := st.(reqLength) +! size in
        count_java_utf8 fuel' s pSrcLimit (move (require st n) (st.(pSrc) + 1))
      else Some st
  end.

Fixpoint fast_java_utf8 (fuel : nat) (s : list Z) (count : Z) (st : Conv) : option Conv :=
  match fuel with
  | O => None
  | S fuel' =>
      ch ← aget s st.(pSrc);
      st ← put_all (move st (st.(pSrc) + 1)) (java_bytes ch);
      if count - 1 >? 0 then fast_java_utf8 fuel' s (count - 1) st else Some st
  end.

Fixpoint fast_java_utf8_rounds (fuel : nat) (s : list Z) (pSrcLimit pDestLimit : Z) (st : Conv) : option Conv :=
  '(st, count, srcLength) ← ascii_part (S (List.length s)) is_java_ascii uint8 s pSrcLimit pDestLimit st;
  let count := Z.min (Z.quot count 3) srcLength in
  if count <? 3 then Some st
  else
    match fuel with
    | O => None
    | S fuel' => st ← fast_java_utf8 (Z.to_nat count) s count st; fast_java_utf8_rounds fuel' s pSrcLimit pDestLimit st
    end.

Definition u_strToJavaModifiedUTF8 (dest : option (list Z)) (destCapacity : Z) (src : option (list Z)) (srcLength : Z)
    (code : UErrorCode) : option Converted :=
  if U_FAILURE code then Some (MkConverted dest None None code)
  else if bad_java_arguments src dest srcLength destCapacity then Some (MkConverted dest None None U_ILLEGAL_ARGUMENT_ERROR)
  else
    let s := default [] src in
    let fuel := S (List.length s) in
    let st := MkConv 0 0 dest 0 0 in
    let rest st pSrcLimit :=
      st ← fast_java_utf8_rounds fuel s pSrcLimit destCapacity st;
      st ← write_java_utf8 fuel s pSrcLimit destCapacity st;
      st ← count_java_utf8 fuel s pSrcLimit st;
      finish (Done st) destCapacity code in
    if srcLength =? -1 then
      '(st, ch) ← copy_ascii fuel is_java_ascii uint8 s destCapacity st;
      if ch =? 0 then finish (Done st) destCapacity code
      else pSrcLimit ← u_strlen_loop fuel s st.(pSrc); rest st pSrcLimit
    else rest st srcLength.

(** ** The reference *)

(** The unit at the start of [b :: r], or an error, and the number of bytes after [b]. *)
Definition java_first (b : Z) (r : list Z) : option Z * nat :=
  match r with
  | t1 :: t2 :: _ =>
      if b <? 0x80 then (Some b, 0%nat)
      else if (0xc0 <=? b) && (b <? 0xe0) && is_trail t1 then (Some ((b - 0xc0) * 64 + (t1 - 0x80)), 1%nat)
      else if (0xe0 <=? b) && (b <? 0xf0) && is_trail t1 && is_trail t2 then (Some ((b - 0xe0) * 4096 + (t1 - 0x80) * 64 + (t2 - 0x80)), 2%nat)
      else (None, leading_trails (trail_count b) r)
  | [t1] =>
      if b <? 0x80 then (Some b, 0%nat)
      else if (0xc0 <=? b) && (b <? 0xe0) && is_trail t1 then (Some ((b - 0xc0) * 64 + (t1 - 0x80)), 1%nat)
      else (None, leading_trails (trail_count b) r)
  | [] => if b <? 0x80 then (Some b, 0%nat) else (None, 0%nat)
  end.

Fixpoint java_decode_fuel (fuel : nat) (s : list Z) : list (option Z) :=
  match fuel, s with
  | S fuel', b :: r => let '(u, k) := java_first b r in u :: java_decode_fuel fuel' (drop k r)
  | _, _ => []
  end.
Definition java_decode (s : list Z) : list (option Z) := java_decode_fuel (List.length s) s.

(** Three code points of ordinary UTF-8, each an error of four bytes, let the fast
    loop read the byte after the end: it counts three bytes for each. *)
Example java_reads_past_the_end :
  let t := utf8 [0x1f600; 0x1f600; 0x1f600] in
  u_strFromJavaModifiedUTF8WithSub (Some (repeat 7 6)) 6 (Some t) 12 0xfffd U_ZERO_ERROR = None /\
  u_strFromJavaModifiedUTF8WithSub (Some (repeat 7 6)) 6 (Some (t ++ [0x41])) 12 0xfffd U_ZERO_ERROR =
    Some (MkConverted (Some [0xfffd; 0xfffd; 0xfffd; 0x41; 0; 7]) (Some 4) (Some 3) U_ZERO_ERROR).
Proof. vm_compute. done. Qed.

(** The length that is asked for is too small for a supplementary substitution character. *)
Example java_preflight_too_small :
  u_strFromJavaModifiedUTF8WithSub None 0 (Some [0x80]) 1 0x1f600 U_ZERO_ERROR =
    Some (MkConverted None (Some 1) (Some 1) U_BUFFER_OVERFLOW_ERROR) /\
  u_strFromJavaModifiedUTF8WithSub (Some (repeat 7 3)) 3 (Some [0x80]) 1 0x1f600 U_ZERO_ERROR =
    Some (MkConverted (Some [0xd83d; 0xde00; 0]) (Some 2) (Some 1) U_ZERO_ERROR).
Proof. vm_compute. done. Qed.
