(* ===== verification/UStrTrnsToJava.v ===== *)
(** * The conversion to Java's modified UTF-8 *)
From S2P Require Import Prelude Int32 Utf16 UString Utf8 Utf8Decoding UStrTrns UStrTrnsRest UStrTrnsToUtf8 UStrTrnsFit UStrTrnsToUtf8Loops UStrTrnsUtf32Loops UStrTrnsJava.
Local Open Scope Z_scope.

#[local] Abbreviation len l := (Z.of_nat (List.length l)).
#[local] Abbreviation all := (bytes_of java_bytes).

Lemma java_bytes_length c : 1 <= len (java_bytes c) <= 3.
Proof. unfold java_bytes. repeat case_match; cbn; lia. Qed.

Lemma java_bytes_size c : len (java_bytes c) = if is_java_ascii c then 1 else if c <=? 0x7ff then 2 else 3.
Proof. unfold java_bytes. by repeat case_match. Qed.

Section ToJava.
Context (dest : option (list Z)) (t s : list Z) (Hmax : len (all t) <= INT32_MAX).
Context (Hs : forall i, (i < List.length t)%nat -> s !! i = t !! i).
#[local] Abbreviation cap := (capacity dest).
#[local] Abbreviation java_at := (fit_at java_bytes dest).

(** The first [i] units are converted. *)
Definition done_at (i : nat) : Conv := java_at i (take i t) 0.

Lemma done_pSrc i : pSrc (done_at i) = Z.of_nat i.
Proof. done. Qed.

Lemma java_henc c : 1 <= len (java_bytes c) <= 4.
Proof. pose proof (java_bytes_length c). lia. Qed.

Lemma take_next i ch : t !! i = Some ch -> take (i + 1) t = take i t ++ [ch].
Proof. intros Hi. replace (i + 1)%nat with (S i) by lia. by apply take_S_r. Qed.

Lemma next_unit_at i : (i < List.length t)%nat -> exists ch, t !! i = Some ch /\ aget s (Z.of_nat i) = Some ch.
Proof. intros Hi. destruct (lookup_lt_is_Some_2 t i Hi) as [ch Hch]. exists ch. by rewrite aget_nat, Hs. Qed.

(** A unit whose bytes fit. *)
Lemma write_unit i ch : t !! i = Some ch -> len (all (take i t)) + len (java_bytes ch) <= cap ->
  put_all (java_at (i + 1) (take i t) 0) (java_bytes ch) = Some (done_at (i + 1)).
Proof. intros Hch Hc. unfold done_at. rewrite (take_next i ch Hch). apply put_all_at. by rewrite snoc_length. Qed.

Lemma bytes_le i : len (all (take i t)) <= len (all t).
Proof. rewrite <- (take_drop i t) at 2. rewrite bytes_app, length_app. lia. Qed.

Lemma bytes_next i ch : t !! i = Some ch -> len (all (take (i + 1) t)) = len (all (take i t)) + len (java_bytes ch).
Proof. intros Hch. by rewrite (take_next i ch Hch), snoc_length. Qed.

Lemma put_ascii i j ch : t !! i = Some ch -> is_java_ascii ch = true -> len (all (take i t)) < cap ->
  put (java_at j (take i t) 0) (uint8 ch) = Some (java_at j (take (i + 1) t) 0) /\ len (all (take (i + 1) t)) = len (all (take i t)) + 1.
Proof.
  intros Hch Ha Hc. assert (Hb : java_bytes ch = [uint8 ch]) by (unfold java_bytes; by rewrite Ha).
  rewrite (bytes_next i ch Hch), Hb. split; [|done]. rewrite put_single, <- Hb, (take_next i ch Hch).
  apply put_all_at. rewrite snoc_length, Hb. cbn. lia.
Qed.

(** ** ASCII *)

Lemma run_java_ascii fuel : forall i, (List.length t - i < fuel)%nat -> (i <= List.length t)%nat ->
  len (all (take i t)) + (len t - Z.of_nat i) <= cap ->
  exists j, run_ascii fuel is_java_ascii uint8 s (len t) (done_at i) = Some (done_at j) /\ (i <= j <= List.length t)%nat /\
    len (all (take j t)) = len (all (take i t)) + (Z.of_nat j - Z.of_nat i).
Proof.
  induction fuel as [|fuel IH]; intros i Hf Hi Hroom; [lia|]. cbn [run_ascii]. rewrite !done_pSrc.
  destruct (Z.ltb_spec (Z.of_nat i) (len t)) as [Hlt|Hge]; [|exists i; split; [done|lia]].
  destruct (next_unit_at i) as (ch & Hch & Hg); [lia|]. rewrite Hg. cbn [mbind option_bind].
  destruct (is_java_ascii ch) eqn:Ha; [|exists i; split; [done|lia]].
  destruct (put_ascii i i ch Hch Ha) as [Hp Hl]; [lia|]. unfold done_at at 1. rewrite Hp. cbn [mbind option_bind]. rewrite state_pSrc.
  replace (Z.of_nat i + 1) with (Z.of_nat (i + 1)) by lia. rewrite state_move. fold (done_at (i + 1)).
  destruct (IH (i + 1)%nat) as (j & -> & Hj & Hjl); [lia..|]. exists j. split; [done|lia].
Qed.

Lemma java_ascii_part fuel i : (List.length t < fuel)%nat -> (i <= List.length t)%nat -> len (all (take i t)) <= cap ->
  exists j, ascii_part fuel is_java_ascii uint8 s (len t) cap (done_at i) = Some (done_at j, cap - len (all (take j t)), len t - Z.of_nat j) /\
    (i <= j <= List.length t)%nat /\ len (all (take j t)) <= cap.
Proof.
  intros Hf Hi Hfit. unfold ascii_part. rewrite done_pSrc. change (pDest (done_at i)) with (pDest (java_at i (take i t) 0)). rewrite pDest_at by done.
  destruct ((cap - len (all (take i t)) >=? len t - Z.of_nat i) && (len t - Z.of_nat i >? 0)) eqn:E.
  2:{ exists i. split_and!; (done || lia). }
  rewrite andb_true_iff, Z.geb_leb, Z.gtb_ltb, Z.leb_le, Z.ltb_lt in E. destruct (next_unit_at i) as (ch & Hch & ->); [lia|]. cbn [mbind option_bind].
  destruct (ch <=? 0x7f); [|exists i; split_and!; (done || lia)].
  destruct (run_java_ascii fuel i) as (j & -> & Hj & Hjl); [lia..|]. cbn [mbind option_bind]. rewrite done_pSrc. exists j. split_and!; [|lia..].
  do 2 f_equal; [f_equal|]; lia.
Qed.

(** ** The loops *)

Lemma java_fast fuel : forall i count, 1 <= count <= Z.of_nat fuel -> 3 * count <= cap - len (all (take i t)) -> count <= len t - Z.of_nat i ->
  exists j, fast_java_utf8 fuel s count (done_at i) = Some (done_at j) /\ (i < j <= List.length t)%nat /\ len (all (take j t)) <= cap.
Proof.
  induction fuel as [|fuel IH]; intros i count Hf Hroom Hsrc; [lia|]. cbn [fast_java_utf8]. rewrite done_pSrc.
  destruct (next_unit_at i) as (ch & Hch & ->); [lia|]. cbn [mbind option_bind]. pose proof (java_bytes_length ch). pose proof (bytes_next i ch Hch) as Hn.
  replace (Z.of_nat i + 1) with (Z.of_nat (i + 1)) by lia. unfold done_at at 1. rewrite state_move, (write_unit i ch Hch) by lia.
  cbn [mbind option_bind]. rewrite Z.gtb_ltb. destruct (Z.ltb_spec 0 (count - 1)).
  - destruct (IH (i + 1)%nat (count - 1)) as (j & -> & Hj & Hfit); [lia..|]. exists j. split; [done|lia].
  - exists (i + 1)%nat. split; [done|lia].
Qed.

Lemma java_rounds fuel : forall i, (List.length t <= List.length s)%nat -> (List.length t - i < fuel)%nat -> (i <= List.length t)%nat -> len (all (take i t)) <= cap ->
  exists j, fast_java_utf8_rounds fuel s (len t) cap (done_at i) = Some (done_at j) /\ (i <= j <= List.length t)%nat /\ len (all (take j t)) <= cap.
Proof.
  induction fuel as [|fuel IH]; intros i Hls Hf Hi Hfit; [lia|]. cbn [fast_java_utf8_rounds].
  destruct (java_ascii_part (S (List.length s)) i) as (j & -> & Hj & Hjfit); [lia..|]. cbn [mbind option_bind].
  set (count := Z.min _ _). destruct (Z.ltb_spec count 3) as [Hs3|Hc]; [exists j; split; [done|lia]|].
  assert (Hroom : 3 * ((cap - len (all (take j t))) / 3) <= cap - len (all (take j t))) by dlia.
  assert (Hq : Z.quot (cap - len (all (take j t))) 3 = (cap - len (all (take j t))) / 3) by (apply Z.quot_div_nonneg; lia).
  destruct (java_fast (Z.to_nat count) j count) as (k & -> & Hk & Hkfit); [unfold count in *; lia..|]. cbn [mbind option_bind].
  destruct (IH k) as (m & -> & Hm & Hmfit); [lia..|]. exists m. split; [done|lia].
Qed.

Lemma java_write fuel : forall i, (List.length t - i < fuel)%nat -> (i <= List.length t)%nat -> len (all (take i t)) <= cap ->
  exists j, write_java_utf8 fuel s (len t) cap (done_at i) = Some (done_at j) /\ (i <= j <= List.length t)%nat /\
    (j = List.length t \/ cap < len (all (take j t))).
Proof.
  induction fuel as [|fuel IH]; intros i Hf Hi Hfit; [lia|]. cbn [write_java_utf8]. rewrite done_pSrc.
  destruct (Z.ltb_spec (Z.of_nat i) (len t)) as [Hlt|Hge]; [|exists i; split; [done|lia]].
  destruct (next_unit_at i) as (ch & Hch & ->); [lia|]. cbn [mbind option_bind]. replace (Z.of_nat i + 1) with (Z.of_nat (i + 1)) by lia.
  change (move (done_at i) (Z.of_nat (i + 1))) with (java_at (i + 1) (take i t) 0). rewrite !pDest_at by done. pose proof (bytes_next i ch Hch) as Hn. pose proof (java_bytes_size ch) as Hsz.
  assert (Hstep : forall (fits : bool) w m, m = len (java_bytes ch) -> (fits = true <-> len (all (take i t)) + m <= cap) ->
    w = put_all (java_at (i + 1) (take i t) 0) (java_bytes ch) ->
    exists j, (if fits then st ← w; write_java_utf8 fuel s (len t) cap st else Some (require (java_at (i + 1) (take i t) 0) m)) = Some (done_at j) /\
      (i <= j <= List.length t)%nat /\ (j = List.length t \/ cap < len (all (take j t)))).
  { intros fits w m -> Hiff ->. destruct fits.
    - rewrite (write_unit i ch Hch) by tauto. cbn [mbind option_bind]. assert (len (all (take i t)) + len (java_bytes ch) <= cap) by tauto.
      destruct (IH (i + 1)%nat) as (j & -> & Hj & Hend); [lia..|]. exists j. split; [done|lia].
    - assert (~ len (all (take i t)) + len (java_bytes ch) <= cap) by (intros Hle; by apply Hiff in Hle).
      exists (i + 1)%nat. rewrite (break_at java_bytes dest _ _ _ ch) by (done || rewrite ?snoc_length; lia). split_and!; [|lia..].
      unfold done_at. by rewrite (take_next i ch Hch). }
  destruct (is_java_ascii ch) eqn:Ha.
  { apply Hstep; [done| |unfold java_bytes; by rewrite Ha]. rewrite Z.ltb_lt. lia. }
  destruct (ch <=? 0x7ff) eqn:H2; (apply Hstep; [done| |unfold java_bytes; by rewrite Ha, H2]); rewrite Z.geb_leb, Z.leb_le; lia.
Qed.

Lemma java_count fuel : forall i, (List.length t - i < fuel)%nat -> (i <= List.length t)%nat -> i = List.length t \/ cap < len (all (take i t)) ->
  count_java_utf8 fuel s (len t) (done_at i) = Some (done_at (List.length t)).
Proof.
  induction fuel as [|fuel IH]; intros i Hf Hi Hover; [lia|]. cbn [count_java_utf8]. rewrite !done_pSrc.
  destruct (Z.ltb_spec (Z.of_nat i) (len t)) as [Hlt|Hge]; [|by replace i with (List.length t) by lia].
  destruct (next_unit_at i) as (ch & Hch & ->); [lia|]. cbn [mbind option_bind]. rewrite <- java_bytes_size.
  destruct Hover as [?|Hover]; [lia|]. pose proof (bytes_next i ch Hch) as Hn. pose proof (bytes_le (i + 1)). pose proof (java_bytes_length ch).
  pose proof (fit_length java_bytes cap (take i t) (cap_nonneg dest)).
  change (reqLength (done_at i)) with (len (all (take i t)) - len (all (fit java_bytes cap (take i t)))). rewrite iadd_ok by ibound. cbn [obind].
  unfold done_at at 1. rewrite (require_over java_bytes java_henc dest _ _ _ ch) by done. rewrite <- (take_next i ch Hch).
  replace (Z.of_nat i + 1) with (Z.of_nat (i + 1)) by lia. rewrite state_move. apply IH; lia.
Qed.

(** All units are converted or counted. *)
Lemma java_finish code : U_SUCCESS code = true -> finish (Done (done_at (List.length t))) cap code = Some (converted_bytes java_bytes dest U_SENTINEL (map Some t) code).
Proof.
  intros Hcode. rewrite <- (bytes_finish java_bytes dest U_SENTINEL (map Some t) (Some (Done (done_at (List.length t)))) code); [done|done|..].
  - unfold rest_ok. rewrite transcode_some. cbn [app]. intros _. exists (List.length t). unfold done_at. by rewrite firstn_all, concat_single.
  - unfold transcoded. by rewrite transcode_some.
Qed.

(** The main part. *)
Lemma java_rest fuel i code : (List.length t <= List.length s)%nat -> (List.length t < fuel)%nat -> (i <= List.length t)%nat -> len (all (take i t)) <= cap ->
  U_SUCCESS code = true ->
  (st ← fast_java_utf8_rounds fuel s (len t) cap (done_at i); st ← write_java_utf8 fuel s (len t) cap st;
   st ← count_java_utf8 fuel s (len t) st; finish (Done st) cap code) = Some (converted_bytes java_bytes dest U_SENTINEL (map Some t) code).
Proof.
  intros Hls Hf Hi Hfit Hcode. destruct (java_rounds fuel i) as (j & -> & Hj & Hjfit); [lia..|]. cbn [mbind option_bind].
  destruct (java_write fuel j) as (k & -> & Hk & Hend); [lia..|]. cbn [mbind option_bind]. rewrite java_count by (done || lia). cbn [mbind option_bind].
  by apply java_finish.
Qed.
End ToJava.

(** ** The conversion *)

Lemma copy_java_ascii dest t rest fuel : Forall (fun c => c <> 0) t -> forall i, (List.length t - i < fuel)%nat -> (i <= List.length t)%nat ->
  len (all (take i t)) <= capacity dest ->
  exists j, copy_ascii fuel is_java_ascii uint8 (t ++ 0 :: rest) (capacity dest) (done_at dest t i) = Some (done_at dest t j, default 0 (t !! j)) /\
    (j <= List.length t)%nat /\ len (all (take j t)) <= capacity dest.
Proof.
  intros Hnz. induction fuel as [|fuel IH]; intros i Hf Hi Hfit; [lia|]. cbn [copy_ascii]. rewrite !done_pSrc, aget_nat.
  destruct (nul_get t rest Hnz i Hi) as [-> Hz]. cbn [mbind option_bind]. change (pDest (done_at dest t i)) with (pDest (fit_at java_bytes dest i (take i t) 0)).
  rewrite pDest_at by done. destruct (is_java_ascii (default 0 (t !! i))) eqn:Ha; cbn [andb]; [|exists i; done].
  destruct (Z.ltb_spec (len (all (take i t))) (capacity dest)) as [Hroom|]; [|exists i; done].
  assert (E : default 0 (t !! i) <> 0) by (intros E; by rewrite E in Ha).
  apply Hz in E. destruct (lookup_lt_is_Some_2 t i E) as [ch Hch]. rewrite Hch in *. change (default 0 (Some ch)) with ch in *.
  destruct (put_ascii dest t i i ch Hch Ha Hroom) as [Hp Hl]. unfold done_at at 1. rewrite Hp. cbn [mbind option_bind]. rewrite state_pSrc.
  replace (Z.of_nat i + 1) with (Z.of_nat (i + 1)) by lia. rewrite state_move. fold (done_at dest t (i + 1)). apply IH; lia.
Qed.

Lemma good_java_arguments dest s srcLength : -1 <= srcLength -> bad_java_arguments (Some s) dest srcLength (capacity dest) = false.
Proof.
  intros Hl. unfold bad_java_arguments. rewrite (bool_decide_eq_false_2 (Some s = None)) by done. cbn [andb orb].
  rewrite (proj2 (Z.ltb_ge srcLength _)), (proj2 (Z.ltb_ge (capacity dest) 0)) by (try apply cap_nonneg; lia). by destruct dest.
Qed.

Section ToJavaWhole.
Context (dest : option (list Z)) (t rest : list Z) (code : UErrorCode).
Context (Hlen : len t <= INT32_MAX) (Hmax : len (all t) <= INT32_MAX) (Hcode : U_SUCCESS code = true).

Lemma to_java_limit :
  u_strToJavaModifiedUTF8 dest (capacity dest) (Some t) (len t) code = Some (converted_bytes java_bytes dest U_SENTINEL (map Some t) code).
Proof.
  unfold u_strToJavaModifiedUTF8. rewrite success_no_failure, good_java_arguments by (done || lia). change (default [] (Some t)) with t.
  rewrite (proj2 (Z.eqb_neq _ (-1))) by lia. rewrite (fit_start java_bytes). apply (java_rest dest t t Hmax ltac:(done) _ 0); try (done || cbn; lia).
  apply cap_nonneg.
Qed.

Lemma to_java_nul : Forall (fun c => c <> 0) t ->
  u_strToJavaModifiedUTF8 dest (capacity dest) (Some (t ++ 0 :: rest)) (-1) code = Some (converted_bytes java_bytes dest U_SENTINEL (map Some t) code).
Proof.
  intros Hnz. unfold u_strToJavaModifiedUTF8. rewrite success_no_failure, good_java_arguments by (done || lia).
  change (default [] (Some (t ++ 0 :: rest))) with (t ++ 0 :: rest). change (-1 =? -1) with true. cbv iota. rewrite (fit_start java_bytes).
  change (fit_at java_bytes dest 0 [] 0) with (done_at dest t 0).
  destruct (copy_java_ascii dest t rest (S (List.length (t ++ 0 :: rest))) Hnz 0) as (j & -> & Hj & Hfit);
    [rewrite length_app; lia|lia|apply cap_nonneg|]. cbn [mbind option_bind].
  destruct (nul_get t rest Hnz j Hj) as [_ Hz]. destruct (Z.eqb_spec (default 0 (t !! j)) 0) as [E|E].
  - replace j with (List.length t) in * by (assert (~ (j < List.length t)%nat) by tauto; lia). by apply java_finish.
  - rewrite done_pSrc, u_strlen_loop_nul by (done || rewrite ?length_app; lia). cbn [mbind option_bind].
    apply java_rest; try (done || rewrite ?length_app; lia). intros i Hi. by rewrite lookup_app_l.
Qed.
End ToJavaWhole.
