(* ===== verification/UStrTrnsFromJava.v ===== *)
(** * The conversion from Java's modified UTF-8

    It is right without a substitution character, and with one of a single unit
    when the bytes have no lead bytes of four-byte sequences; the examples of
    UStrTrnsJava show what happens otherwise. *)
From S2P Require Import Prelude Int32 Utf16 UString Utf8 Utf8Decoding UStrTrns UStrTrnsRest UStrTrnsFromUtf8 UStrTrnsLoops UStrTrnsUtf32Loops UStrTrnsJava UStrTrnsToJava.
Local Open Scope Z_scope.

#[local] Abbreviation len l := (Z.of_nat (List.length l)).

(** ** Reading below the limit *)

Lemma aget_app (t x : list Z) k : k < len t -> aget (t ++ x) k = aget t k.
Proof. intros Hk. unfold aget. destruct (Z.leb_spec 0 k); [|done]. by rewrite lookup_app_l by lia. Qed.

Lemma skip_trails_limit_app t x m : forall i, skip_trails_limit m (t ++ x) i (len t) = skip_trails_limit m t i (len t).
Proof.
  induction m as [|m IH]; intros i; [done|]. cbn [skip_trails_limit]. destruct (Z.ltb_spec i (len t)); [|done].
  rewrite aget_app by done. destruct (aget t i) as [b|]; [|done]. cbn [mbind option_bind]. by rewrite IH.
Qed.

Lemma pointer_case1_app t x i c il : i < len t -> pointer_case1 (t ++ x) i c il = pointer_case1 t i c il.
Proof. intros Hi. unfold pointer_case1. by rewrite aget_app. Qed.

Lemma pointer_case2_app t x i c il : i + 1 < len t -> pointer_case2 (t ++ x) i c il = pointer_case2 t i c il.
Proof.
  intros Hi. unfold pointer_case2. rewrite pointer_case1_app by lia. destruct (pointer_case1 t i c il) as [[[il' c'] i']|] eqn:E; [|done].
  cbn [mbind option_bind]. apply pointer_case1_app. unfold pointer_case1 in E. destruct (aget t i); [|done]. injection E as _ _ <-. done.
Qed.

Lemma pointer_body_app t x i b : utf8_nextCharSafeBodyPointer (t ++ x) i (len t) b = utf8_nextCharSafeBodyPointer t i (len t) b.
Proof.
  unfold utf8_nextCharSafeBodyPointer. cbv zeta. set (count := U8_COUNT_TRAIL_BYTES b). destruct ((len t - i >=? count) && (count =? 0)); [done|].
  set (sw := fun s : list Z => if len t - i >=? count then
     if count =? 3 then pointer_case3 s i (U8_MASK_LEAD_BYTE b count) else if count =? 2 then pointer_case2 s i (U8_MASK_LEAD_BYTE b count) 0
     else if count =? 1 then pointer_case1 s i (U8_MASK_LEAD_BYTE b count) 0 else Some (1, U8_MASK_LEAD_BYTE b count, i) else Some (1, b, i)).
  assert (H : sw (t ++ x) = sw t).
  { unfold sw. rewrite Z.geb_leb. destruct (Z.leb_spec count (len t - i)) as [Hle|]; [|done].
    destruct (Z.eqb_spec count 3) as [E3|]; [|destruct (Z.eqb_spec count 2); [apply pointer_case2_app; lia|destruct (Z.eqb_spec count 1); [apply pointer_case1_app; lia|done]]].
    unfold pointer_case3. rewrite aget_app by lia. destruct (aget t i) as [b1|]; [|done]. cbn [mbind option_bind].
    destruct (_ <? 0x110); [apply pointer_case2_app; lia|done]. }
  change (('(illegal, c, i') ← sw (t ++ x); il ← is_illegal (negb (illegal =? 0)) c count;
           if il : bool then i' ← skip_trails_limit (Z.to_nat count) (t ++ x) i (len t); Some (U_SENTINEL, i') else Some (c, i')) =
          ('(illegal, c, i') ← sw t; il ← is_illegal (negb (illegal =? 0)) c count;
           if il : bool then i' ← skip_trails_limit (Z.to_nat count) t i (len t); Some (U_SENTINEL, i') else Some (c, i'))).
  rewrite H. destruct (sw t) as [[[il c] i']|]; [|done]. cbn [mbind option_bind].
  destruct (is_illegal _ _ _) as [[]|]; [|done..]. cbn [mbind option_bind]. by rewrite skip_trails_limit_app.
Qed.

(** ** The reference decoder *)

Lemma java_decode_fuel_enough n m s : (List.length s <= n)%nat -> (List.length s <= m)%nat -> java_decode_fuel n s = java_decode_fuel m s.
Proof.
  revert m s. induction n as [|n IH]; intros m s Hn Hm; destruct s as [|b r]; try (by destruct m); [simpl in Hn; lia|].
  destruct m as [|m]; [simpl in Hm; lia|]. cbn [java_decode_fuel List.length] in *. destruct (java_first b r) as [u k].
  f_equal. apply IH; rewrite length_drop; lia.
Qed.

Lemma java_decode_cons b r : java_decode (b :: r) = let '(u, k) := java_first b r in u :: java_decode (drop k r).
Proof.
  unfold java_decode. cbn [List.length java_decode_fuel]. destruct (java_first b r) as [u k]. f_equal. apply java_decode_fuel_enough; [|done].
  rewrite length_drop. lia.
Qed.

Lemma java_first_le b r : is_uint8 b -> let '(u, k) := java_first b r in
  (k <= List.length r)%nat /\ (forall u', u = Some u' -> is_uint16 u' /\ (k <= 2)%nat) /\ (b < 0x80 -> u = Some b /\ k = 0%nat).
Proof.
  intros Hb. unfold java_first, is_uint16, is_uint8 in *. pose proof (leading_trails_le (trail_count b) r) as Hl.
  assert (Htv : forall t, is_trail t = true -> 0x80 <= t < 0xc0) by (intros t; unfold is_trail; rewrite andb_true_iff, Z.leb_le, Z.ltb_lt; lia).
  destruct r as [|t1 [|t2 r]].
  - destruct (Z.ltb_spec b 0x80); split_and!; try (cbn; lia); try done; intros ? [= <-]; lia.
  - destruct (Z.ltb_spec b 0x80); [split_and!; try (cbn; lia); try done; intros ? [= <-]; lia|].
    destruct (_ && _) eqn:E; [|split_and!; (done || lia)]. rewrite !andb_true_iff, Z.leb_le, Z.ltb_lt in E. destruct E as [E Ht%Htv].
    split_and!; [cbn; lia| |lia]. intros ? [= <-]. lia.
  - destruct (Z.ltb_spec b 0x80); [split_and!; try (cbn; lia); try done; intros ? [= <-]; lia|].
    destruct (_ && _) eqn:E.
    { rewrite !andb_true_iff, Z.leb_le, Z.ltb_lt in E. destruct E as [E Ht%Htv]. split_and!; [cbn; lia| |lia]. intros ? [= <-]. lia. }
    clear E. destruct (_ && _) eqn:E; [|split_and!; (done || lia)].
    rewrite !andb_true_iff, Z.leb_le, Z.ltb_lt in E. destruct E as [[E Ht1%Htv] Ht2%Htv]. split_and!; [cbn; lia| |lia]. intros ? [= <-]. lia.
Qed.

(** What is skipped for an error. *)
Lemma first_char_snd b r : 0x80 <= b -> snd (first_char b r) = leading_trails (trail_count b) r.
Proof.
  intros Hb. unfold first_char. rewrite (proj2 (Z.ltb_ge _ _)) by done. destruct (_ && _) eqn:E; cbn [snd]; [|done].
  rewrite !andb_true_iff, Nat.eqb_eq in E. destruct E as [[[El Ef] _] _]. revert r El Ef. induction (trail_count b) as [|n IH]; intros r El Ef; [done|].
  destruct r as [|t r]; [done|]. cbn in *. apply andb_true_iff in Ef as [-> Ef]. f_equal. apply IH; [by injection El|done].
Qed.

Lemma java_error b r k : is_uint8 b -> 0x80 <= b -> java_first b r = (None, k) -> k = snd (first_char b r).
Proof.
  intros Hu Hb Hj. rewrite first_char_snd by done. unfold java_first in Hj. rewrite (proj2 (Z.ltb_ge _ _)) in Hj by done.
  destruct r as [|t1 [|t2 r]]; repeat (destruct (_ && _) in Hj; try done); injection Hj as <-; try done. by destruct (trail_count b).
Qed.

(** ** Steps *)

Section FromJava.
Context (dest : option (list Z)) (subchar : Z) (t x : list Z).
Context (Ht : is_bytes t) (Hlen : len t <= INT32_MAX).
Context (Hsub : subchar < 0 \/ (is_scalar subchar /\ subchar <= 0xffff /\ Forall (fun b => b < 0xf0) t)).

#[local] Abbreviation cap := (capacity dest).
#[local] Abbreviation s := (t ++ x).
#[local] Abbreviation rest_ok := (UStrTrnsRest.rest_ok (conv_at dest) (fun out => len out) (overlay dest) (fun c => [c]) subchar).

Lemma byte_at i b r : drop i t = b :: r -> is_uint8 b /\ aget s (Z.of_nat i) = Some b /\ (i < List.length t)%nat.
Proof.
  intros Hd. assert (Hb : t !! i = Some b) by (by rewrite <- (Nat.add_0_r i), <- lookup_drop, Hd). pose proof (lookup_lt_Some _ _ _ Hb).
  split_and!; [by apply (Forall_lookup_1 _ _ _ _ Ht Hb)| |done]. by rewrite aget_nat, lookup_app_l.
Qed.

Lemma java_next i b r : drop i t = b :: r ->
  let '(u, k) := java_first b r in java_decode (drop i t) = u :: java_decode (drop (i + 1 + k) t) /\ (i + 1 + k <= List.length t)%nat.
Proof.
  intros Hd. destruct (byte_at i b r Hd) as (Hb & _ & _). pose proof (java_first_le b r Hb) as Hk. pose proof (java_decode_cons b r) as Hc.
  pose proof (length_rest t i b r Hd). destruct (java_first b r) as [u k]. destruct Hk as [Hk _]. split; [|lia].
  rewrite Hd, Hc. by rewrite <- drop_drop, (rest_drop t i b r Hd).
Qed.

Lemma java_trail i b r j t1 : drop i t = b :: r -> r !! j = Some t1 -> trail_at s (Z.of_nat (i + 1 + j)) = Some (uint8 (t1 - 0x80)) /\ is_uint8 t1.
Proof.
  intros Hd Hj. destruct (trail_read t i b r Ht Hd j t1 Hj) as [Hr Hu]. split; [|done]. rewrite <- Hr. unfold trail_at.
  pose proof (lookup_lt_Some _ _ _ Hj). pose proof (length_rest t i b r Hd). by rewrite aget_app by lia.
Qed.

Lemma java_inline_spec lim i b r : drop i t = b :: r -> 0x80 <= b -> lim = Some (len t) \/ lim = None /\ (2 <= List.length r)%nat ->
  java_inline s lim (Z.of_nat i) b = Some (match java_first b r with (Some u, k) => Some (u, Z.of_nat (i + 1 + k)) | (None, _) => None end).
Proof.
  intros Hd Hb Hlim. destruct (byte_at i b r Hd) as (Hu & _ & _). unfold is_uint8 in Hu. pose proof (length_rest t i b r Hd) as Hl. unfold java_inline.
  assert (Hleft : forall m : nat, (2 <= m <= 3)%nat -> bytes_left lim (Z.of_nat i) (Z.of_nat m) = (m - 1 <=? List.length r)%nat).
  { intros m Hm. apply eq_true_iff_eq. rewrite Nat.leb_le. unfold bytes_left. destruct Hlim as [->|[-> Hr]]; [rewrite Z.geb_leb, Z.leb_le; lia|split; [lia|done]]. }
  change 3 with (Z.of_nat 3) at 1. change 2 with (Z.of_nat 2) at 2. rewrite !Hleft by lia. rewrite !Z.geb_leb.
  replace (Z.of_nat i + 1) with (Z.of_nat (i + 1 + 0)) by lia. replace (Z.of_nat i + 2) with (Z.of_nat (i + 1 + 1)) by lia.
  unfold java_first. rewrite (proj2 (Z.ltb_ge b 0x80)) by lia. destruct (Z.leb_spec 0xe0 b).
  - rewrite !(proj2 (Z.ltb_ge b 0xe0)), !andb_false_r by lia. cbn [andb]. replace (b <=? 0xef) with (b <? 0xf0) by (apply eq_true_iff_eq; rewrite Z.leb_le, Z.ltb_lt; lia).
    destruct r as [|t1 [|t2 r]]; cbn [List.length Nat.sub Nat.leb]; rewrite ?andb_false_r; try done. rewrite andb_true_r.
    destruct (Z.ltb_spec b 0xf0); cbn [andb]; [|done]. destruct (java_trail i b (t1 :: t2 :: r) 0 t1 Hd eq_refl) as [-> Hu1]. cbn [mbind option_bind].
    rewrite trail_test by done. destruct (is_trail t1) eqn:H1; cbn [andb]; [|done].
    destruct (java_trail i b (t1 :: t2 :: r) 1 t2 Hd eq_refl) as [-> Hu2]. cbn [mbind option_bind]. rewrite trail_test by done.
    destruct (is_trail t2) eqn:H2; [|done]. do 3 f_equal; [|lia]. destruct (trail_value t1 H1) as [-> Hr1], (trail_value t2 H2) as [-> Hr2].
    rewrite three_bits by done. unfold uint16. dlia.
  - destruct (Z.leb_spec 0xc0 b); cbn [andb].
    + rewrite (proj2 (Z.ltb_lt b 0xe0)) by lia. destruct r as [|t1 r]; cbn [List.length Nat.sub Nat.leb]; [done|].
      destruct (java_trail i b (t1 :: r) 0 t1 Hd eq_refl) as [-> Hu1]. cbn [mbind option_bind]. rewrite trail_test by done.
      destruct (is_trail t1) eqn:H1; cbn [andb]; [|by destruct r]. destruct (trail_value t1 H1) as [-> Hr1].
      change 0x1f with (2 ^ 5 - 1). rewrite land_low_mask, shift6 by (done || lia). change (2 ^ 5) with 32.
      rewrite uint16_id by (unfold is_uint16; dlia). destruct r as [|t2 r]; do 3 f_equal; (lia || dlia).
    + destruct r as [|t1 [|t2 r]]; done.
Qed.

Lemma skip_error_at i b r k out n : drop i t = b :: r -> 0x80 <= b -> java_first b r = (None, k) -> 0 <= n -> n + 1 <= INT32_MAX ->
  skip_error s (len t) (conv_at dest i out n) b = Some (conv_at dest (i + 1 + k) out (n + 1)).
Proof.
  intros Hd Hb Hj Hn Hmax. destruct (byte_at i b r Hd) as (Hu & _ & _). pose proof (java_error b r k Hu Hb Hj) as Hk.
  unfold skip_error. rewrite pSrc_at. replace (Z.of_nat i + 1) with (Z.of_nat (i + 1)) by lia. rewrite pointer_body_app, (pointer_spec t i b r Ht Hd Hb).
  unfold body_result. destruct (first_char b r) as [c k']. cbn [snd] in Hk. subst k'. cbn [mbind option_bind].
  rewrite state_substitutions, iadd_ok by ibound. done.
Qed.

(** The bytes of an error, when there is something to substitute. *)
Lemma error_short i b r k : drop i t = b :: r -> 0x80 <= b -> java_first b r = (None, k) -> ~ subchar < 0 -> (k <= 2)%nat.
Proof.
  intros Hd Hb Hj Hs. destruct (byte_at i b r Hd) as (Hu & _ & Hi). destruct Hsub as [?|(_ & _ & Hlow)]; [lia|].
  assert (Hb2 : b < 0xf0). { rewrite <- (take_drop i t), Hd in Hlow. apply Forall_app in Hlow as [_ Hlow]. by inversion Hlow. }
  rewrite (java_error b r k Hu Hb Hj). pose proof (first_char_trails b r). pose proof (trail_count_le b). lia.
Qed.

Lemma unit_char u out n items r : rest_ok (out ++ [u]) n items r -> rest_ok out n (Some u :: items) r.
Proof. apply (rest_char (conv_at dest) _ _ (fun c => [c])). Qed.

(** The item for an error, when there is something to substitute. *)
Lemma error_item out n items r : ~ subchar < 0 -> rest_ok (out ++ [uint16 subchar]) (n + 1) items r -> rest_ok out n (None :: items) r.
Proof.
  intros Hs. destruct Hsub as [?|([Hc _] & Hb & _)]; [lia|]. unfold is_code_point in Hc. rewrite uint16_id by (unfold is_uint16; lia).
  apply (rest_substitute (conv_at dest) _ _ (fun c => [c])). lia.
Qed.

Lemma sub_small : ~ subchar < 0 -> (subchar <=? 0xffff) = true /\ (subchar >? 0xffff) = false.
Proof. intros Hs. destruct Hsub as [?|(_ & Hb & _)]; [lia|]. rewrite Z.gtb_ltb, Z.ltb_ge, Z.leb_le. done. Qed.

(** ** The loops *)

Lemma count_java_spec fuel : forall i out n, (List.length t - i < fuel)%nat -> (i <= List.length t)%nat -> 0 <= n <= Z.of_nat i ->
  (i = List.length t \/ cap <= len out) ->
  rest_ok out n (java_decode (drop i t)) (count_java fuel s (len t) subchar (conv_at dest i out n)).
Proof.
  induction fuel as [|fuel IH]; intros i out n Hf Hi Hn Hfull; [lia|]. cbn [count_java]. rewrite !pSrc_at.
  destruct (Z.ltb_spec (Z.of_nat i) (len t)) as [Hlt|Hge].
  2:{ rewrite drop_ge by lia. eapply rest_done. }
  destruct Hfull as [?|Hfull]; [lia|]. destruct (lookup_lt_is_Some_2 t i) as [b Hb]; [lia|]. pose proof (drop_S _ _ _ Hb) as Hd.
  destruct (byte_at i b _ Hd) as (Hu & -> & _). cbn [mbind option_bind]. pose proof (java_next i b _ Hd) as Hnext. pose proof (java_first_le b (drop (S i) t) Hu) as Hfst.
  change (reqLength (conv_at dest ?i out n)) with (len out - Z.min cap (len out)).
  assert (Hcount : forall j u n', (i < j <= List.length t)%nat -> 0 <= n' <= Z.of_nat j ->
    rest_ok (out ++ [u]) n' (java_decode (drop j t))
      (let! m := (len out - Z.min cap (len out)) +! 1 in count_java fuel s (len t) subchar (require (conv_at dest j out n') m))).
  { intros j u n' Hj Hn'. eapply rest_bound; [apply _|]. intros Hmax. rewrite length_app in Hmax. cbn [List.length] in Hmax. pose proof (cap_nonneg dest).
    rewrite iadd_ok by ibound. cbn [obind]. change 1 with (len [u]). rewrite require_at by done. apply IH; rewrite ?length_app; lia. }
  destruct (Z.leb_spec b 0x7f) as [Hs|Hs].
  { destruct (java_first b (drop (S i) t)) as [u k]. destruct Hfst as (_ & _ & Hlow). destruct (Hlow ltac:(lia)) as [-> ->]. destruct Hnext as [-> Hj].
    apply unit_char. replace (Z.of_nat i + 1) with (Z.of_nat (i + 1 + 0)) by lia. apply (Hcount (i + 1 + 0)%nat b n); lia. }
  rewrite (java_inline_spec _ i b _ Hd) by (lia || by left). cbn [mbind option_bind].
  destruct (java_first b (drop (S i) t)) as [[u|] k] eqn:Hj1; destruct Hnext as [-> Hj].
  - apply unit_char. apply (Hcount (i + 1 + k)%nat u n); lia.
  - destruct (Z.ltb_spec subchar 0) as [Hneg|Hpos]; [by eapply rest_invalid; [..|apply state_buffer]|].
    apply error_item; [lia|]. rewrite (skip_error_at i b _ k out n Hd) by (done || lia). cbn [mbind option_bind].
    replace (U16_LENGTH b) with 1; [apply Hcount; lia|]. unfold is_uint8 in Hu. rewrite U16_LENGTH_spec by lia. by rewrite (proj2 (Z.ltb_lt _ _)) by lia.
Qed.

Lemma write_java_spec K :
  (forall i out n, (i <= List.length t)%nat -> 0 <= n <= Z.of_nat i -> i = List.length t \/ cap <= len out ->
     rest_ok out n (java_decode (drop i t)) (K (conv_at dest i out n))) ->
  forall fuel i out n, (List.length t - i < fuel)%nat -> (i <= List.length t)%nat -> 0 <= n <= Z.of_nat i ->
  rest_ok out n (java_decode (drop i t)) (and_then (write_java fuel s (len t) cap subchar (conv_at dest i out n)) K).
Proof.
  intros HK. induction fuel as [|fuel IH]; intros i out n Hf Hi Hn; [lia|]. cbn [write_java]. rewrite !pSrc_at.
  change (pDest (conv_at dest i out n)) with (Z.min cap (len out)).
  destruct (Z.ltb_spec (Z.of_nat i) (len t)) as [Hlt|Hge]; [|apply HK; (done || lia)]. cbn [andb].
  destruct (Z.ltb_spec (Z.min cap (len out)) cap) as [Hroom|Hfull]; [|apply HK; (done || lia)].
  destruct (lookup_lt_is_Some_2 t i) as [b Hb]; [lia|]. pose proof (drop_S _ _ _ Hb) as Hd.
  destruct (byte_at i b _ Hd) as (Hu & -> & _). cbn [mbind option_bind]. pose proof (java_next i b _ Hd) as Hnext. pose proof (java_first_le b (drop (S i) t) Hu) as Hfst.
  destruct (Z.leb_spec b 0x7f) as [Hs|Hs].
  { destruct (java_first b (drop (S i) t)) as [u k]. destruct Hfst as (_ & _ & Hlow). destruct (Hlow ltac:(lia)) as [-> ->]. destruct Hnext as [-> Hj].
    apply unit_char. rewrite uint16_id by (unfold is_uint8, is_uint16 in *; lia). rewrite put_at by lia. cbn [mbind option_bind].
    rewrite pSrc_at. replace (Z.of_nat i + 1) with (Z.of_nat (i + 1 + 0)) by lia. rewrite move_at. apply IH; lia. }
  rewrite (java_inline_spec _ i b _ Hd) by (lia || by left). cbn [mbind option_bind].
  destruct (java_first b (drop (S i) t)) as [[u|] k] eqn:Hj1; destruct Hnext as [-> Hj].
  - apply unit_char. rewrite put_at by lia. cbn [mbind option_bind]. rewrite move_at. apply IH; lia.
  - destruct (Z.ltb_spec subchar 0) as [Hneg|Hpos]; [by eapply rest_invalid; [..|apply state_buffer]|].
    apply error_item; [lia|]. rewrite (skip_error_at i b _ k out n Hd) by (done || lia). cbn [mbind option_bind].
    destruct sub_small as [-> _]; [lia|]. rewrite put_at by lia. cbn [mbind option_bind]. apply IH; lia.
Qed.

(** *** The faster loop *)

Lemma fast_java_spec K i0 :
  (forall i out n, (i0 < i <= List.length t)%nat -> 0 <= n <= Z.of_nat i -> rest_ok out n (java_decode (drop i t)) (K (conv_at dest i out n))) ->
  forall fuel i out n count, 1 <= count <= Z.of_nat fuel -> count <= cap - len out -> 3 * count <= len t - Z.of_nat i ->
  (i0 <= i)%nat -> 0 <= n <= Z.of_nat i ->
  rest_ok out n (java_decode (drop i t)) (and_then (fast_java fuel s (len t) subchar count (conv_at dest i out n)) K).
Proof.
  intros HK. induction fuel as [|fuel IH]; intros i out n count Hf Hroom Hsrc Hi0 Hn; [lia|]. cbn [fast_java]. rewrite !pSrc_at.
  destruct (lookup_lt_is_Some_2 t i) as [b Hb]; [lia|]. pose proof (drop_S _ _ _ Hb) as Hd.
  destruct (byte_at i b _ Hd) as (Hu & -> & _). cbn [mbind option_bind]. pose proof (java_next i b _ Hd) as Hnext. pose proof (java_first_le b (drop (S i) t) Hu) as Hfst.
  assert (Hcont : forall j u n', (i < j <= List.length t)%nat -> Z.of_nat j - Z.of_nat i <= 3 -> 0 <= n' <= Z.of_nat j ->
    rest_ok (out ++ [u]) n' (java_decode (drop j t)) (and_then (if count - 1 >? 0 then fast_java fuel s (len t) subchar (count - 1) (conv_at dest j (out ++ [u]) n')
      else Some (Done (conv_at dest j (out ++ [u]) n'))) K)).
  { intros j u n' Hj Hj3 Hn'. rewrite Z.gtb_ltb. destruct (Z.ltb_spec 0 (count - 1)); [apply IH; rewrite ?length_app; cbn [List.length]; lia|]. apply HK; lia. }
  destruct (Z.leb_spec b 0x7f) as [Hs|Hs].
  { destruct (java_first b (drop (S i) t)) as [u k]. destruct Hfst as (_ & _ & Hlow). destruct (Hlow ltac:(lia)) as [-> ->]. destruct Hnext as [-> Hj].
    apply unit_char. rewrite uint16_id by (unfold is_uint8, is_uint16 in *; lia). rewrite put_at by lia. cbn [mbind option_bind].
    rewrite pSrc_at. replace (Z.of_nat i + 1) with (Z.of_nat (i + 1 + 0)) by lia. rewrite move_at. apply Hcont; lia. }
  rewrite (java_inline_spec _ i b _ Hd) by (lia || (right; split; [done|rewrite length_drop; lia])). cbn [mbind option_bind].
  destruct (java_first b (drop (S i) t)) as [[u|] k] eqn:Hj1; destruct Hnext as [-> Hj].
  - destruct Hfst as (_ & Hk & _). destruct (Hk u eq_refl) as [_ Hk2]. apply unit_char. rewrite put_at by lia. cbn [mbind option_bind]. rewrite move_at. apply Hcont; lia.
  - destruct (Z.ltb_spec subchar 0) as [Hneg|Hpos]; [by eapply rest_invalid; [..|apply state_buffer]|].
    pose proof (error_short i b _ k Hd ltac:(lia) Hj1 ltac:(lia)) as Hk2. apply error_item; [lia|]. destruct sub_small as [-> ->]; [lia|]. cbn [andb].
    rewrite (skip_error_at i b _ k out n Hd) by (done || lia). cbn [mbind option_bind]. rewrite put_at by lia. cbn [mbind option_bind]. apply Hcont; lia.
Qed.

(** An ASCII byte. *)
Lemma ascii_item i b r : drop i t = b :: r -> b <= 0x7f ->
  java_decode (drop i t) = Some b :: java_decode (drop (i + 1) t) /\ uint16 b = b /\ (i < List.length t)%nat.
Proof.
  intros Hd Hb. destruct (byte_at i b r Hd) as (Hu & _ & Hi). pose proof (java_next i b r Hd) as Hnext. pose proof (java_first_le b r Hu) as Hfst.
  destruct (java_first b r) as [u k]. destruct Hfst as (_ & _ & Hlow). destruct (Hlow ltac:(lia)) as [-> ->]. destruct Hnext as [-> _].
  rewrite Nat.add_0_r, uint16_id by (unfold is_uint8, is_uint16 in *; lia). done.
Qed.

Lemma run_ascii_spec fuel : forall i out n, (List.length t - i < fuel)%nat -> (i <= List.length t)%nat -> len out + (len t - Z.of_nat i) <= cap ->
  exists j out', run_ascii fuel is_ascii uint16 s (len t) (conv_at dest i out n) = Some (conv_at dest j out' n) /\
    (i <= j <= List.length t)%nat /\ len out' - len out = Z.of_nat j - Z.of_nat i /\
    (forall r, rest_ok out' n (java_decode (drop j t)) r -> rest_ok out n (java_decode (drop i t)) r).
Proof.
  induction fuel as [|fuel IH]; intros i out n Hf Hi Hroom; [lia|]. cbn [run_ascii]. rewrite !pSrc_at.
  destruct (Z.ltb_spec (Z.of_nat i) (len t)) as [Hlt|Hge]; [|exists i, out; split_and!; (done || lia)].
  destruct (lookup_lt_is_Some_2 t i) as [b Hb]; [lia|]. pose proof (drop_S _ _ _ Hb) as Hd. destruct (byte_at i b _ Hd) as (_ & -> & _). cbn [mbind option_bind].
  unfold is_ascii at 1. destruct (Z.leb_spec b 0x7f) as [Hs|Hs]; [|exists i, out; split_and!; (done || lia)].
  destruct (ascii_item i b _ Hd Hs) as (Hit & -> & _). rewrite put_at by lia. cbn [mbind option_bind]. rewrite pSrc_at.
  replace (Z.of_nat i + 1) with (Z.of_nat (i + 1)) by lia. rewrite move_at.
  destruct (IH (i + 1)%nat (out ++ [b]) n) as (j & out' & -> & Hj & Hl & Hr); [lia|lia|rewrite length_app; cbn [List.length]; lia|].
  rewrite length_app in Hl. cbn [List.length] in Hl. exists j, out'. split_and!; [done|lia..|]. intros r Hrest. rewrite Hit. apply unit_char. by apply Hr.
Qed.

Lemma ascii_part_spec fuel i out n : (List.length t < fuel)%nat -> (i <= List.length t)%nat ->
  exists j out', ascii_part fuel is_ascii uint16 s (len t) cap (conv_at dest i out n) = Some (conv_at dest j out' n, cap - Z.min cap (len out'), len t - Z.of_nat j) /\
    (i <= j <= List.length t)%nat /\ (forall r, rest_ok out' n (java_decode (drop j t)) r -> rest_ok out n (java_decode (drop i t)) r).
Proof.
  intros Hf Hi. unfold ascii_part. rewrite pSrc_at. change (pDest (conv_at dest i out n)) with (Z.min cap (len out)).
  destruct ((cap - Z.min cap (len out) >=? len t - Z.of_nat i) && (len t - Z.of_nat i >? 0)) eqn:E; [|exists i, out; split_and!; (done || lia)].
  rewrite andb_true_iff, Z.geb_leb, Z.gtb_ltb, Z.leb_le, Z.ltb_lt in E. destruct (lookup_lt_is_Some_2 t i) as [b Hb]; [lia|].
  destruct (byte_at i b _ (drop_S _ _ _ Hb)) as (_ & -> & _). cbn [mbind option_bind]. destruct (b <=? 0x7f); [|exists i, out; split_and!; (done || lia)].
  destruct (run_ascii_spec fuel i out n) as (j & out' & -> & Hj & Hl & Hr); [lia..|]. cbn [mbind option_bind]. rewrite pSrc_at.
  exists j, out'. split_and!; [|lia..|done]. do 2 f_equal; [f_equal|]; lia.
Qed.

Lemma java_rounds_spec K :
  (forall i out n, (i <= List.length t)%nat -> 0 <= n <= Z.of_nat i -> rest_ok out n (java_decode (drop i t)) (K (conv_at dest i out n))) ->
  forall fuel i out n, (List.length t - i < fuel)%nat -> (i <= List.length t)%nat -> 0 <= n <= Z.of_nat i ->
  rest_ok out n (java_decode (drop i t)) (and_then (fast_java_rounds fuel s (len t) cap subchar (conv_at dest i out n)) K).
Proof.
  intros HK. induction fuel as [|fuel IH]; intros i out n Hf Hi Hn; [lia|]. cbn [fast_java_rounds].
  destruct (ascii_part_spec (S (List.length s)) i out n) as (j & out' & -> & Hj & Hr); [rewrite length_app; lia|done|]. cbn [mbind option_bind]. apply Hr.
  set (count := Z.min _ _). destruct (Z.ltb_spec count 3) as [Hs|Hc]; [apply HK; lia|].
  fold (and_then (fast_java (Z.to_nat count) s (len t) subchar count (conv_at dest j out' n)) (fast_java_rounds fuel s (len t) cap subchar)).
  rewrite and_then_assoc. assert (Hsrc : 3 * ((len t - Z.of_nat j) / 3) <= len t - Z.of_nat j) by dlia.
  assert (Hq : Z.quot (len t - Z.of_nat j) 3 = (len t - Z.of_nat j) / 3) by (apply Z.quot_div_nonneg; lia).
  apply (fast_java_spec _ j); try (unfold count in *; lia). intros k out2 n2 Hk Hn2. apply IH; lia.
Qed.

(** ** The conversion *)

Lemma java_main fuel i out n : (List.length t < fuel)%nat -> (i <= List.length t)%nat -> 0 <= n <= Z.of_nat i ->
  rest_ok out n (java_decode (drop i t)) (and_then (and_then (fast_java_rounds fuel s (len t) cap subchar (conv_at dest i out n))
    (write_java fuel s (len t) cap subchar)) (count_java fuel s (len t) subchar)).
Proof.
  intros Hf Hi Hn. rewrite and_then_assoc. apply java_rounds_spec; try (done || lia). intros j out' n' Hj Hn'.
  apply write_java_spec; try (done || lia). intros. apply count_java_spec; (done || lia).
Qed.

Lemma copy_ascii_spec rest fuel : x = 0 :: rest -> Forall (fun b => b <> 0) t -> forall i out, (List.length t - i < fuel)%nat -> (i <= List.length t)%nat ->
  exists j out', copy_ascii fuel (fun ch => negb (ch =? 0) && (ch <=? 0x7f)) uint16 s cap (conv_at dest i out 0) = Some (conv_at dest j out' 0, default 0 (t !! j)) /\
    (j <= List.length t)%nat /\ (forall r, rest_ok out' 0 (java_decode (drop j t)) r -> rest_ok out 0 (java_decode (drop i t)) r).
Proof.
  intros Hx Hnz. induction fuel as [|fuel IH]; intros i out Hf Hi; [lia|]. cbn [copy_ascii]. rewrite !pSrc_at, aget_nat.
  destruct (nul_get t rest Hnz i Hi) as [Hg Hz]. rewrite <- Hx in Hg. rewrite Hg. cbn [mbind option_bind]. change (pDest (conv_at dest i out 0)) with (Z.min cap (len out)).
  destruct (negb (default 0 (t !! i) =? 0) && (default 0 (t !! i) <=? 0x7f) && (Z.min cap (len out) <? cap)) eqn:E; [|exists i, out; done].
  rewrite !andb_true_iff, negb_true_iff, Z.eqb_neq, Z.leb_le, Z.ltb_lt in E. destruct E as [[E Hs] Hroom]. apply Hz in E.
  destruct (lookup_lt_is_Some_2 t i E) as [b Hb]. rewrite Hb in Hs |- *. change (default 0 (Some b)) with b in *.
  destruct (ascii_item i b _ (drop_S _ _ _ Hb) Hs) as (Hit & -> & _). rewrite put_at by lia. cbn [mbind option_bind]. rewrite pSrc_at.
  replace (Z.of_nat i + 1) with (Z.of_nat (i + 1)) by lia. rewrite move_at.
  destruct (IH (i + 1)%nat (out ++ [b])) as (j & out' & -> & Hj & Hr); [lia..|]. exists j, out'. split_and!; [done|done|].
  intros r Hrest. rewrite Hit. apply unit_char. by apply Hr.
Qed.
End FromJava.

Lemma java_decode_length t : (List.length (java_decode t) <= List.length t)%nat.
Proof.
  unfold java_decode. enough (forall n s, (List.length (java_decode_fuel n s) <= n)%nat) by done.
  induction n as [|n IH]; intros s; [done|]. destruct s as [|b r]; [cbn; lia|]. cbn [java_decode_fuel]. destruct (java_first b r) as [u k]. cbn.
  specialize (IH (drop k r)). lia.
Qed.

(** The substitution character, if any, that the function handles for the bytes [t]. *)
Definition java_substitute (subchar : Z) (t : list Z) : Prop :=
  INT32_MIN <= subchar < 0 \/ is_scalar subchar /\ subchar <= 0xffff /\ Forall (fun b => b < 0xf0) t.

Section FromJavaWhole.
Context (dest : option (list Z)) (t rest : list Z) (subchar : Z) (code : UErrorCode).
Context (Ht : is_bytes t) (Hlen : len t <= INT32_MAX) (Hsub : java_substitute subchar t) (Hcode : U_SUCCESS code = true).

Lemma java_sub_cases : subchar < 0 \/ (is_scalar subchar /\ subchar <= 0xffff /\ Forall (fun b => b < 0xf0) t).
Proof. destruct Hsub as [[_ ?]|?]; [by left|by right]. Qed.

Lemma java_arguments_ok s srcLength : -1 <= srcLength ->
  bad_java_arguments (Some s) dest srcLength (capacity dest) || (subchar >? 0x10ffff) || U_IS_SURROGATE subchar = false.
Proof.
  intros Hl. rewrite good_java_arguments by done. cbn [orb].
  assert (Hsc : substitute_char subchar) by (destruct Hsub as [?|(? & _)]; [by left|by right]).
  pose proof (good_arguments dest [] 0 subchar ltac:(lia) Hsc) as Hg. unfold bad_arguments in Hg. rewrite !orb_false_iff in Hg.
  destruct Hg as [[_ ->] ->]. done.
Qed.

Lemma from_java_bound : len (concat (map (fun c => [c]) (transcoded subchar (java_decode t)))) <= INT32_MAX.
Proof. rewrite concat_single. pose proof (transcoded_length subchar (java_decode t)). pose proof (java_decode_length t). lia. Qed.

Lemma from_java_limit :
  u_strFromJavaModifiedUTF8WithSub dest (capacity dest) (Some t) (len t) subchar code = Some (converted dest id subchar (java_decode t) code).
Proof.
  pose proof java_sub_cases as Hsub'. unfold u_strFromJavaModifiedUTF8WithSub. rewrite success_no_failure, java_arguments_ok by (done || lia).
  change (default [] (Some t)) with t. rewrite (proj2 (Z.ltb_ge _ 0)) by lia. rewrite <- converted_single.
  apply (overlay_finish (conv_at dest)); [apply _|done| |apply from_java_bound]. rewrite conv_start. rewrite <- (drop_0 t) at 1.
  pose proof (java_main dest subchar t [] Ht Hlen Hsub' (S (List.length t)) 0 [] 0 ltac:(lia) ltac:(lia) ltac:(lia)) as H. by rewrite app_nil_r in H.
Qed.

Lemma from_java_nul : Forall (fun b => b <> 0) t ->
  u_strFromJavaModifiedUTF8WithSub dest (capacity dest) (Some (t ++ 0 :: rest)) (-1) subchar code = Some (converted dest id subchar (java_decode t) code).
Proof.
  intros Hnz. pose proof java_sub_cases as Hsub'. unfold u_strFromJavaModifiedUTF8WithSub. rewrite success_no_failure, java_arguments_ok by (done || lia).
  change (default [] (Some (t ++ 0 :: rest))) with (t ++ 0 :: rest). change (-1 <? 0) with true. cbv iota. rewrite conv_start, <- converted_single.
  set (fuel := S (List.length (t ++ 0 :: rest))). assert (Hf : (List.length t < fuel)%nat) by (unfold fuel; rewrite length_app; lia). clearbody fuel.
  destruct (copy_ascii_spec dest subchar t (0 :: rest) Ht rest fuel eq_refl Hnz 0 []) as (j & out & -> & Hj & Hr); [lia..|]. cbn [mbind option_bind].
  destruct (nul_get t rest Hnz j Hj) as [_ Hz]. destruct (Z.eqb_spec (default 0 (t !! j)) 0) as [E|E].
  - assert (~ (j < List.length t)%nat) by tauto. rewrite drop_ge in Hr by lia.
    change (finish (Done (conv_at dest j out 0)) (capacity dest) code) with (r ← Some (Done (conv_at dest j out 0)); finish r (capacity dest) code).
    apply (overlay_finish (conv_at dest)); [apply _|done| |apply from_java_bound]. rewrite drop_0 in Hr. apply Hr. eapply rest_done.
  - rewrite pSrc_at, u_strlen_loop_nul by (done || lia). cbn [mbind option_bind].
    apply (overlay_finish (conv_at dest)); [apply _|done| |apply from_java_bound]. rewrite drop_0 in Hr. apply Hr. apply java_main; (done || lia).
Qed.
End FromJavaWhole.
