(* ===== verification/UStrTrnsJavaProperties.v ===== *)
(** * Java's modified UTF-8: the theorems *)
From S2P Require Import Prelude Int32 Utf16 UString Utf8 Utf8Decoding UStrTrns UStrTrnsRest UStrTrnsToUtf8 UStrTrnsFit UStrTrnsToUtf8Loops UStrTrnsJava UStrTrnsToJava UStrTrnsFromJava.
Local Open Scope Z_scope.

#[local] Abbreviation len l := (Z.of_nat (List.length l)).
#[local] Abbreviation all := (bytes_of java_bytes).

(** C16: conversion from modified UTF-8.  With no substitution character, and with one of
    a single unit if no byte starts a four-byte sequence, the function reads for
    any bytes what the reference decoder reads, never past the end: it writes the
    units as far as they fit and returns their full number, the number of
    substitutions and the code for how that fits; or it stops at the first
    error with [U_INVALID_CHAR_FOUND]. *)
Theorem from_java_correct dest t rest subchar code :
  is_bytes t -> len t <= INT32_MAX -> java_substitute subchar t -> U_SUCCESS code = true ->
  u_strFromJavaModifiedUTF8WithSub dest (capacity dest) (Some t) (len t) subchar code = Some (converted dest id subchar (java_decode t) code) /\
  (Forall (fun b => b <> 0) t ->
     u_strFromJavaModifiedUTF8WithSub dest (capacity dest) (Some (t ++ 0 :: rest)) (-1) subchar code = Some (converted dest id subchar (java_decode t) code)).
Proof. intros Ht Hlen Hsub Hcode. split; [by apply from_java_limit|intros Hnz; by apply from_java_nul]. Qed.

Lemma from_java_correct_witness :
  let t := [0x41; 0x42; 0x43; 0xc0; 0x80; 0xed; 0xa0; 0x80; 0xe2; 0x82; 0x61; 0x80] in
  u_strFromJavaModifiedUTF8WithSub (Some (repeat 7 9)) 9 (Some t) 12 0xfffd U_ZERO_ERROR =
    Some (MkConverted (Some [0x41; 0x42; 0x43; 0; 0xd800; 0xfffd; 0x61; 0xfffd; 0]) (Some 8) (Some 2) U_ZERO_ERROR) /\
  u_strFromJavaModifiedUTF8WithSub (Some (repeat 7 2)) 2 (Some (t ++ [0; 0x80])) (-1) 0xfffd U_ZERO_ERROR =
    Some (MkConverted (Some [0x41; 0x42]) (Some 8) (Some 2) U_BUFFER_OVERFLOW_ERROR) /\
  u_strFromJavaModifiedUTF8WithSub (Some (repeat 7 6)) 6 (Some t) 12 (-1) U_ZERO_ERROR =
    Some (MkConverted (Some [0x41; 0x42; 0x43; 0; 0xd800; 7]) None (Some 0) U_INVALID_CHAR_FOUND).
Proof.
  cbv zeta. set (t := [0x41; _; _; _; _; _; _; _; _; _; _; _]). assert (Ht : is_bytes t) by (repeat constructor; done).
  assert (H1 : java_substitute 0xfffd t).
  { right. split_and!; [unfold is_scalar, is_code_point; lia|done|]. unfold t. repeat constructor; done. }
  assert (H2 : java_substitute (-1) t) by (left; done). split_and!.
  - etrans; [refine (proj1 (from_java_correct (Some (repeat 7 9)) t [] 0xfffd U_ZERO_ERROR Ht _ H1 eq_refl)); vm_compute; done|]. vm_compute. reflexivity.
  - etrans; [refine (proj2 (from_java_correct (Some (repeat 7 2)) t [0x80] 0xfffd U_ZERO_ERROR Ht _ H1 eq_refl) _); [vm_compute; done|repeat constructor; done]|].
    vm_compute. reflexivity.
  - etrans; [refine (proj1 (from_java_correct (Some (repeat 7 6)) t [] (-1) U_ZERO_ERROR Ht _ H2 eq_refl)); vm_compute; done|]. vm_compute. reflexivity.
Defined.

(** ** Round trip *)

(** The bytes of a unit are read back, and are no NULs. *)
Lemma java_bytes_first u r : is_uint16 u -> exists b ts, java_bytes u = b :: ts /\ java_first b (ts ++ r) = (Some u, List.length ts).
Proof.
  intros Hu. unfold is_uint16 in Hu. unfold java_bytes, is_java_ascii. destruct (Z.leb_spec u 0x7f) as [Hle|Hgt]; cbn [andb].
  - destruct (Z.eqb_spec u 0) as [->|Hnz]; cbn [negb].
    + eexists _, _. split; [done|]. by destruct r.
    + exists u, []. split; [unfold uint8; by rewrite Z.mod_small by lia|]. unfold java_first. rewrite (proj2 (Z.ltb_lt _ _)) by lia. by destruct r as [|? [|]].
  - destruct (Z.leb_spec u 0x7ff).
    + rewrite two_bytes_spec by lia. unfold encode. rewrite (proj2 (Z.ltb_ge _ 0x80)), (proj2 (Z.ltb_lt _ 0x800)) by lia. eexists _, _. split; [done|].
      unfold java_first. cbn [app List.length]. rewrite !is_trail_low. rewrite (proj2 (Z.ltb_ge (0xc0 + _) 0x80)) by dlia.
      rewrite (proj2 (Z.leb_le 0xc0 _)), (proj2 (Z.ltb_lt _ 0xe0)) by dlia. cbn [andb].
      replace ((0xc0 + u / 64 - 0xc0) * 64 + (0x80 + u mod 64 - 0x80)) with u by dlia. by destruct r.
    + rewrite three_bytes_spec by lia. unfold encode. rewrite !(proj2 (Z.ltb_ge u _)), (proj2 (Z.ltb_lt u 0x10000)) by lia. eexists _, _. split; [done|].
      unfold java_first. cbn [app List.length]. rewrite !is_trail_low. rewrite !(proj2 (Z.ltb_ge (0xe0 + _) _)) by dlia. rewrite andb_false_r. cbn [andb].
      rewrite (proj2 (Z.leb_le 0xe0 _)), (proj2 (Z.ltb_lt _ 0xf0)) by dlia. cbn [andb].
      replace ((0xe0 + u / 4096 - 0xe0) * 4096 + (0x80 + u / 64 mod 64 - 0x80) * 64 + (0x80 + u mod 64 - 0x80)) with u by dlia. done.
Qed.

Lemma java_decode_bytes t : is_string t -> java_decode (all t) = map Some t.
Proof.
  induction 1 as [|u t Hu Ht IH]; [done|]. rewrite bytes_cons. destruct (java_bytes_first u (all t) Hu) as (b & ts & -> & Hf).
  cbn [app map]. by rewrite java_decode_cons, Hf, drop_app_length, IH.
Qed.

Lemma java_bytes_range u : is_uint16 u -> Forall (fun b => is_uint8 b /\ b <> 0) (java_bytes u).
Proof.
  intros Hu. unfold is_uint16 in Hu. unfold java_bytes, is_java_ascii. destruct (Z.leb_spec u 0x7f); cbn [andb].
  - destruct (Z.eqb_spec u 0) as [->|]; cbn [negb]; [repeat constructor; done|]. unfold uint8, is_uint8. repeat constructor; rewrite Z.mod_small by lia; lia.
  - destruct (Z.leb_spec u 0x7ff); [rewrite two_bytes_spec by lia|rewrite three_bytes_spec by lia]; unfold encode, is_uint8;
      repeat case_match; rewrite ?Z.ltb_lt, ?Z.ltb_ge in *; repeat constructor; dlia.
Qed.

Lemma java_string_bytes t : is_string t -> is_bytes (all t) /\ Forall (fun b => b <> 0) (all t).
Proof.
  induction 1 as [|u t Hu Ht [IHb IHn]]; [split; by constructor|]. rewrite bytes_cons. pose proof (java_bytes_range u Hu) as Hr.
  unfold is_bytes in *. rewrite !Forall_app. split_and!; try done; (eapply Forall_impl; [exact Hr|]); by intros b [? ?].
Qed.

Lemma java_longer t : len t <= len (all t).
Proof. induction t as [|u t IH]; [done|]. rewrite bytes_cons, length_app. pose proof (java_bytes_length u). cbn [List.length]. lia. Qed.

(** C17: any string of 16-bit units, with unpaired surrogates and U+0000 as it may be,
    has a form in modified UTF-8 without NULs, and is read back from it, whether
    the bytes are passed with their length or as the NUL-terminated buffer. *)
Theorem java_roundtrip t d8 d16 :
  is_string t -> is_bytes d8 -> len (all t) < len d8 -> len t < capacity d16 -> len (all t) <= INT32_MAX ->
  exists rest,
    u_strToJavaModifiedUTF8 (Some d8) (len d8) (Some t) (len t) U_ZERO_ERROR =
      Some (MkConverted (Some (all t ++ 0 :: rest)) (Some (len (all t))) (Some 0) U_ZERO_ERROR) /\
    Forall (fun b => b <> 0) (all t) /\
    u_strFromJavaModifiedUTF8WithSub d16 (capacity d16) (Some (all t)) (len (all t)) U_SENTINEL U_ZERO_ERROR =
      Some (MkConverted (overlay d16 (t ++ [0])) (Some (len t)) (Some 0) U_ZERO_ERROR) /\
    u_strFromJavaModifiedUTF8WithSub d16 (capacity d16) (Some (all t ++ 0 :: rest)) (-1) U_SENTINEL U_ZERO_ERROR =
      Some (MkConverted (overlay d16 (t ++ [0])) (Some (len t)) (Some 0) U_ZERO_ERROR).
Proof.
  intros Ht Hd8 H8 H16 Hmax. destruct (java_string_bytes t Ht) as [Hb Hnz]. pose proof (java_longer t) as Hlong.
  assert (Hsub : java_substitute U_SENTINEL (all t)) by (left; done). exists (drop (S (List.length (all t))) d8).
  assert (Hconv : converted d16 id U_SENTINEL (java_decode (all t)) U_ZERO_ERROR = MkConverted (overlay d16 (t ++ [0])) (Some (len t)) (Some 0) U_ZERO_ERROR).
  { unfold converted. rewrite java_decode_bytes, transcode_some by done. unfold termination, id. by rewrite (proj2 (Z.ltb_lt _ _)) by done. }
  split_and!; [|done| |].
  - pose proof (to_java_limit (Some d8) t U_ZERO_ERROR Hmax eq_refl) as H. cbn [capacity] in H. etrans; [exact H|]. unfold converted_bytes, converted_whole.
    rewrite transcode_some. cbn [capacity]. rewrite fit_all, (proj2 (Z.ltb_lt _ _)) by lia. unfold termination. rewrite (proj2 (Z.ltb_lt _ _)) by lia.
    rewrite overlay_fits by (rewrite length_app; cbn; lia). rewrite length_app, <- app_assoc, Nat.add_1_r. done.
  - rewrite from_java_limit by done. by rewrite Hconv.
  - rewrite from_java_nul by done. by rewrite Hconv.
Qed.

Lemma java_roundtrip_witness :
  exists rest,
    u_strToJavaModifiedUTF8 (Some (repeat 0x7e 16)) 16 (Some [0x41; 0; 0xe9; 0xd83d; 0xdc00; 0xdc01]) 6 U_ZERO_ERROR =
      Some (MkConverted (Some ([0x41; 0xc0; 0x80; 0xc3; 0xa9; 0xed; 0xa0; 0xbd; 0xed; 0xb0; 0x80; 0xed; 0xb0; 0x81] ++ 0 :: rest)) (Some 14) (Some 0) U_ZERO_ERROR) /\
    u_strFromJavaModifiedUTF8WithSub (Some (repeat 0x7e 8)) 8
        (Some ([0x41; 0xc0; 0x80; 0xc3; 0xa9; 0xed; 0xa0; 0xbd; 0xed; 0xb0; 0x80; 0xed; 0xb0; 0x81] ++ 0 :: rest)) (-1) U_SENTINEL U_ZERO_ERROR =
      Some (MkConverted (Some [0x41; 0; 0xe9; 0xd83d; 0xdc00; 0xdc01; 0; 0x7e]) (Some 6) (Some 0) U_ZERO_ERROR).
Proof.
  assert (Ht : is_string [0x41; 0; 0xe9; 0xd83d; 0xdc00; 0xdc01]) by (repeat constructor; done).
  assert (Hd : is_bytes (repeat 0x7e 16)) by (repeat constructor; done).
  destruct (java_roundtrip [0x41; 0; 0xe9; 0xd83d; 0xdc00; 0xdc01] (repeat 0x7e 16) (Some (repeat 0x7e 8)) Ht Hd) as (rest & H1 & _ & _ & H2); [vm_compute; (done || lia)..|].
  exists rest. split; [exact H1|]. etrans; [exact H2|]. vm_compute. reflexivity.
Defined.
