(* ===== verification/UStrTrnsLenient.v ===== *)
(** * [u_strFromUTF8Lenient] (src/common/ustrtrns.cpp)

    It only looks at the lead bytes, and writes U+FFFD for a character that is
    truncated by the end of the string.  With a length, it needs a buffer of
    that size. *)
From S2P Require Import Prelude Int32 Utf16 UString Utf8 Utf8Decoding UStrTrns UStrTrnsRest UStrTrnsFromUtf8 UStrTrnsLoops UStrTrnsUtf32Loops.
Local Open Scope Z_scope.

Definition lenient_two (ch t1 : Z) : Z := uint16 (Z.shiftl ch 6 + t1 - 0x3080).
Definition lenient_three (ch t1 t2 : Z) : Z := uint16 (Z.shiftl ch 12 + Z.shiftl t1 6 + t2 - 0x2080).
Definition lenient_four (ch t1 t2 t3 : Z) : Z := Z.shiftl ch 18 + Z.shiftl t1 12 + Z.shiftl t2 6 + t3 - 0x3c82080.

(** ** NUL-terminated *)

(** The bytes after the lead byte [ch], if all are there before the NUL. *)
Definition lenient_trails (s : list Z) (i ch : Z) : option (option (list Z)) :=
  if ch <? 0xc0 then Some (Some [])
  else
    t1 ← aget s (i + 1);
    if t1 =? 0 then Some None
    else if ch <? 0xe0 then Some (Some [t1])
    else
      t2 ← aget s (i + 2);
      if t2 =? 0 then Some None
      else if ch <? 0xf0 then Some (Some [t1; t2])
      else
        t3 ← aget s (i + 3);
        Some (if t3 =? 0 then None else Some [t1; t2; t3]).

Fixpoint write_lenient (fuel : nat) (s : list Z) (pDestLimit : Z) (st : Conv) : option Conv :=
  match fuel with
  | O => None
  | S fuel' =>
      ch ← aget s st.(pSrc);
      if negb (ch =? 0) && (st.(pDest) <? pDestLimit) then
        trails ← lenient_trails s st.(pSrc) ch;
        match trails with
        | Some [] => st ← put st (uint16 ch); write_lenient fuel' s pDestLimit (move st (st.(pSrc) + 1))
        | Some [t1] => st ← put st (lenient_two ch t1); write_lenient fuel' s pDestLimit (move st (st.(pSrc) + 2))
        | Some [t1; t2] => st ← put st (lenient_three ch t1 t2); write_lenient fuel' s pDestLimit (move st (st.(pSrc) + 3))
        | Some [t1; t2; t3] =>
            let c := lenient_four ch t1 t2 t3 in
            st ← put (move st (st.(pSrc) + 4)) (U16_LEAD c);
            if st.(pDest) <? pDestLimit then st ← put st (U16_TRAIL c); write_lenient fuel' s pDestLimit st
            else Some (require st 1)
        | _ =>
            st ← put st 0xfffd;
            i ← u_strlen_loop (S (List.length s)) s (st.(pSrc) + 1);
            Some (move st i)
        end
      else Some st
  end.

Fixpoint count_lenient (fuel : nat) (s : list Z) (st : Conv) : option Conv :=
  match fuel with
  | O => None
  | S fuel' =>
      ch ← aget s st.(pSrc);
      if negb (ch =? 0) then
        trails ← lenient_trails s st.(pSrc) ch;
        match trails with
        | Some ts =>
            let units := if ch <? 0xf0 then 1 else 2 in
            let! n := st.(reqLength) +! units in
            count_lenient fuel' s (move (require st n) (st.(pSrc) + 1 + Z.of_nat (List.length ts)))
        | None => let! n := st.(reqLength) +! 1 in Some (require st n)
        end
      else Some st
  end.

(** ** With a length *)

(** One character, whose bytes are all there. *)
Definition lenient_char (s : list Z) (st : Conv) : option Conv :=
  let i := st.(pSrc) in
  ch ← aget s i;
  if ch <? 0xc0 then put (move st (i + 1)) (uint16 ch)
  else if ch <? 0xe0 then t1 ← aget s (i + 1); put (move st (i + 2)) (lenient_two ch t1)
  else if ch <? 0xf0 then t1 ← aget s (i + 1); t2 ← aget s (i + 2); put (move st (i + 3)) (lenient_three ch t1 t2)
  else
    t1 ← aget s (i + 1);
    t2 ← aget s (i + 2);
    t3 ← aget s (i + 3);
    let c := lenient_four ch t1 t2 t3 in
    st ← put (move st (i + 4)) (U16_LEAD c);
    put st (U16_TRAIL c).

(** The loop that can always access four bytes. *)
Fixpoint four_lenient (fuel : nat) (s : list Z) (limit : Z) (st : Conv) : option Conv :=
  match fuel with
  | O => None
  | S fuel' =>
      st ← lenient_char s st;
      if st.(pSrc) <? limit then four_lenient fuel' s limit st else Some st
  end.

(** The last bytes.  The code moves [pSrc] over a character of three or four bytes
    twice. *)
Fixpoint tail_lenient (fuel : nat) (s : list Z) (limit : Z) (st : Conv) : option Conv :=
  match fuel with
  | O => None
  | S fuel' =>
      let i := st.(pSrc) in
      if i <? limit then
        ch ← aget s i;
        let left := limit - (i + 1) in
        if ch <? 0xc0 then st ← put (move st (i + 1)) (uint16 ch); tail_lenient fuel' s limit st
        else if (ch <? 0xe0) && (left >? 0) then
          t1 ← aget s (i + 1); st ← put (move st (i + 2)) (lenient_two ch t1); tail_lenient fuel' s limit st
        else if (0xe0 <=? ch) && (ch <? 0xf0) && (left >=? 2) then
          t1 ← aget s (i + 1);
          t2 ← aget s (i + 2);
          st ← put (move st (i + 3 + 3)) (lenient_three ch t1 t2);
          tail_lenient fuel' s limit st
        else if (0xf0 <=? ch) && (left >=? 3) then
          t1 ← aget s (i + 1);
          t2 ← aget s (i + 2);
          t3 ← aget s (i + 3);
          let c := lenient_four ch t1 t2 t3 in
          st ← put (move st (i + 4 + 4)) (U16_LEAD c);
          st ← put st (U16_TRAIL c);
          tail_lenient fuel' s limit st
        else put (move st (i + 1)) 0xfffd
      else Some st
  end.

Definition u_strFromUTF8Lenient (dest : option (list Z)) (destCapacity : Z) (src : option (list Z)) (srcLength : Z) (code : UErrorCode)
    : option Converted :=
  if U_FAILURE code then Some (MkConverted dest None None code)
  else if (bool_decide (src = None) && negb (srcLength =? 0)) || (srcLength <? -1) || (destCapacity <? 0) ||
          (bool_decide (dest = None) && (destCapacity >? 0)) then
    Some (MkConverted dest None None U_ILLEGAL_ARGUMENT_ERROR)
  else
    let s := default [] src in
    let fuel := S (List.length s) in
    let st := MkConv 0 0 dest 0 0 in
    if srcLength <? 0 then
      st ← write_lenient fuel s destCapacity st;
      st ← count_lenient fuel s st;
      finish (Done st) destCapacity code
    else if destCapacity <? srcLength then Some (MkConverted dest (Some srcLength) None U_BUFFER_OVERFLOW_ERROR)
    else
      st ← (if srcLength >=? 4 then four_lenient fuel s (srcLength - 3) st else Some st);
      st ← tail_lenient fuel s srcLength st;
      finish (Done st) destCapacity code.

(** ** The reference *)

Fixpoint lenient (s : list Z) : list Z :=
  match s with
  | [] => []
  | b :: r =>
      if b <? 0xc0 then b :: lenient r
      else if b <? 0xe0 then match r with t1 :: r => lenient_two b t1 :: lenient r | _ => [0xfffd] end
      else if b <? 0xf0 then match r with t1 :: t2 :: r => lenient_three b t1 t2 :: lenient r | _ => [0xfffd] end
      else
        match r with
        | t1 :: t2 :: t3 :: r => let c := lenient_four b t1 t2 t3 in U16_LEAD c :: U16_TRAIL c :: lenient r
        | _ => [0xfffd]
        end
  end.

Example lenient_sample :
  u_strFromUTF8Lenient (Some (repeat 7 9)) 9 (Some [0x41; 0x80; 0xc3; 0xa9; 0xe2; 0x82; 0xac; 0xf0; 0x9f]) 9 U_ZERO_ERROR =
    Some (MkConverted (Some [0x41; 0x80; 0xe9; 0x20ac; 0xfffd; 0; 7; 7; 7]) (Some 5) (Some 0) U_ZERO_ERROR).
Proof. vm_compute. reflexivity. Qed.

(** ** Proofs *)

#[local] Abbreviation len l := (Z.of_nat (List.length l)).

#[local] Ltac decide_bounds :=
  repeat match goal with
  | |- context [?x <? ?y] => first [rewrite (proj2 (Z.ltb_lt x y)) by lia | rewrite (proj2 (Z.ltb_ge x y)) by lia]
  | |- context [?x <=? ?y] => first [rewrite (proj2 (Z.leb_le x y)) by lia | rewrite (proj2 (Z.leb_gt x y)) by lia]
  end.

(** The bytes after [b], if all are there. *)
Definition trails_of (b : Z) (r : list Z) : option (list Z) :=
  let n := if b <? 0xc0 then 0%nat else if b <? 0xe0 then 1%nat else if b <? 0xf0 then 2%nat else 3%nat in
  if (n <=? List.length r)%nat then Some (take n r) else None.

(** The units of a lead byte with its bytes. *)
Definition lenient_units (b : Z) (ts : list Z) : list Z :=
  match ts with
  | [] => [b]
  | [t1] => [lenient_two b t1]
  | [t1; t2] => [lenient_three b t1 t2]
  | [t1; t2; t3] => [U16_LEAD (lenient_four b t1 t2 t3); U16_TRAIL (lenient_four b t1 t2 t3)]
  | _ => []
  end.

Lemma lenient_cons b r : lenient (b :: r) =
  match trails_of b r with Some ts => lenient_units b ts ++ lenient (drop (List.length ts) r) | None => [0xfffd] end.
Proof.
  unfold trails_of. cbn [lenient]. destruct (b <? 0xc0); [done|].
  destruct (b <? 0xe0); [destruct r as [|t1 r]; [done|]; cbn; by rewrite ?take_0|].
  destruct (b <? 0xf0); [destruct r as [|t1 [|t2 r]]; [done..|]; cbn; by rewrite ?take_0|].
  destruct r as [|t1 [|t2 [|t3 r]]]; [done..|]. cbn. by rewrite ?take_0.
Qed.

Lemma trails_of_some b r ts : trails_of b r = Some ts ->
  ts = take (List.length ts) r /\ (List.length ts <= List.length r)%nat /\
  List.length ts = (if b <? 0xc0 then 0%nat else if b <? 0xe0 then 1%nat else if b <? 0xf0 then 2%nat else 3%nat).
Proof.
  unfold trails_of. set (n := if b <? 0xc0 then _ else _). destruct (Nat.leb_spec n (List.length r)); [|done]. intros [= <-].
  rewrite length_take, Nat.min_l by done. done.
Qed.

Lemma units_count b ts : (List.length ts <= 3)%nat -> (1 <= List.length (lenient_units b ts) <= List.length ts + 1)%nat /\
  List.length (lenient_units b ts) = if (List.length ts =? 3)%nat then 2%nat else 1%nat.
Proof. destruct ts as [|? [|? [|? [|]]]]; cbn; lia. Qed.

Lemma lenient_length t : (List.length (lenient t) <= List.length t)%nat.
Proof.
  remember (List.length t) as m eqn:Hm. revert t Hm. induction m as [m IH] using lt_wf_ind. intros t ->. destruct t as [|b r]; [done|].
  rewrite lenient_cons. destruct (trails_of b r) as [ts|] eqn:E; [|cbn; lia]. destruct (trails_of_some b r ts E) as (_ & Hl & Hn).
  rewrite length_app. specialize (IH (List.length (drop (List.length ts) r)) ltac:(rewrite length_drop; cbn; lia) _ eq_refl).
  destruct (units_count b ts) as [Hc _]; [rewrite Hn; repeat case_match; lia|]. rewrite length_drop in IH. cbn [List.length]. lia.
Qed.

Section Nul.
Context (dest : option (list Z)) (t rest : list Z) (Ht : is_bytes t) (Hnz : Forall (fun b => b <> 0) t) (Hlen : len t <= INT32_MAX).
#[local] Abbreviation cap := (capacity dest).
#[local] Abbreviation s := (t ++ 0 :: rest).

Lemma nul_at i b r j : drop i t = b :: r -> (j <= List.length r)%nat ->
  aget s (Z.of_nat (i + 1 + j)) = Some (default 0 (r !! j)) /\ ((j < List.length r)%nat <-> default 0 (r !! j) <> 0).
Proof.
  intros Hd Hj. pose proof (length_rest t i b r Hd) as Hl. destruct (nul_get t rest Hnz (i + 1 + j)) as [Hg Hz]; [lia|].
  rewrite aget_nat, Hg. rewrite <- (rest_drop t i b r Hd), lookup_drop. split; [done|]. rewrite length_drop. split; [intros H; apply Hz; lia|intros H; apply Hz in H; lia].
Qed.

Lemma lenient_trails_nul i b r : drop i t = b :: r -> lenient_trails s (Z.of_nat i) b = Some (trails_of b r).
Proof.
  intros Hd. unfold lenient_trails, trails_of. destruct (b <? 0xc0); [done|].
  replace (Z.of_nat i + 1) with (Z.of_nat (i + 1 + 0)) by lia. replace (Z.of_nat i + 2) with (Z.of_nat (i + 1 + 1)) by lia. replace (Z.of_nat i + 3) with (Z.of_nat (i + 1 + 2)) by lia.
  destruct (nul_at i b r 0 Hd) as [-> H0]; [lia|]. cbn [mbind option_bind]. destruct r as [|t1 r]; cbn [lookup list_lookup from_option List.length] in *.
  { cbn. by destruct (b <? 0xe0), (b <? 0xf0). }
  rewrite (proj2 (Z.eqb_neq _ _)) by (apply H0; lia). destruct (b <? 0xe0); [done|].
  destruct (nul_at i b (t1 :: r) 1 Hd) as [-> H1]; [cbn; lia|]. cbn [mbind option_bind]. destruct r as [|t2 r]; cbn [lookup list_lookup from_option List.length] in *.
  { cbn. by destruct (b <? 0xf0). }
  rewrite (proj2 (Z.eqb_neq _ _)) by (apply H1; lia). destruct (b <? 0xf0); [done|].
  destruct (nul_at i b (t1 :: t2 :: r) 2 Hd) as [-> H2]; [cbn; lia|]. cbn [mbind option_bind]. destruct r as [|t3 r]; cbn [lookup list_lookup from_option List.length] in *; [done|].
  by rewrite (proj2 (Z.eqb_neq _ _)) by (apply H2; lia).
Qed.

(** Moving over a character. *)
Lemma lenient_next i b r ts : drop i t = b :: r -> trails_of b r = Some ts ->
  lenient (drop i t) = lenient_units b ts ++ lenient (drop (i + 1 + List.length ts) t) /\ (i + 1 + List.length ts <= List.length t)%nat /\
  (List.length ts <= 3)%nat /\ ((List.length ts = 3)%nat <-> 0xf0 <= b) /\ (ts = [] -> uint16 b = b).
Proof.
  intros Hd Hts. destruct (trails_of_some b r ts Hts) as (_ & Hl & Hn). pose proof (length_rest t i b r Hd).
  assert (Hu : is_uint8 b) by (by eapply lead_byte). unfold is_uint8 in Hu. split_and!.
  - rewrite Hd, lenient_cons, Hts. by rewrite <- drop_drop, (rest_drop t i b r Hd).
  - lia.
  - rewrite Hn. repeat case_match; lia.
  - rewrite Hn. repeat case_match; rewrite ?Z.ltb_lt, ?Z.ltb_ge in *; lia.
  - intros _. apply uint16_id. unfold is_uint16. lia.
Qed.

Lemma lenient_truncated i b r : drop i t = b :: r -> trails_of b r = None -> lenient (drop i t) = [0xfffd].
Proof. intros Hd Hts. by rewrite Hd, lenient_cons, Hts. Qed.

Lemma write_lenient_nul fuel : forall i out, (List.length t - i < fuel)%nat -> (i <= List.length t)%nat ->
  exists j out', write_lenient fuel s cap (conv_at dest i out 0) = Some (conv_at dest j out' 0) /\ (j <= List.length t)%nat /\
    out' ++ lenient (drop j t) = out ++ lenient (drop i t) /\ (j = List.length t \/ cap <= len out').
Proof.
  induction fuel as [|fuel IH]; intros i out Hf Hi; [lia|]. cbn [write_lenient]. rewrite !pSrc_at, aget_nat.
  destruct (nul_get t rest Hnz i Hi) as [-> Hz]. cbn [mbind option_bind]. change (pDest (conv_at dest i out 0)) with (Z.min cap (len out)).
  destruct (Z.eqb_spec (default 0 (t !! i)) 0) as [E|E]; cbn [negb andb].
  { exists i, out. split_and!; [done..|]. assert (~ (i < List.length t)%nat) by tauto. lia. }
  apply Hz in E. destruct (lookup_lt_is_Some_2 t i E) as [b Hb]. rewrite Hb. change (default 0 (Some b)) with b. pose proof (drop_S _ _ _ Hb) as Hd.
  destruct (Z.ltb_spec (Z.min cap (len out)) cap) as [Hroom|Hfull]; [|exists i, out; split_and!; (done || lia)].
  rewrite (lenient_trails_nul i b _ Hd). cbn [mbind option_bind]. destruct (trails_of b (drop (S i) t)) as [ts|] eqn:Hts.
  2:{ rewrite (lenient_truncated i b _ Hd Hts), put_at by lia. cbn [mbind option_bind]. rewrite pSrc_at. replace (Z.of_nat i + 1) with (Z.of_nat (i + 1)) by lia.
      rewrite u_strlen_loop_nul by (done || rewrite ?length_app; lia). cbn [mbind option_bind]. rewrite move_at. exists (List.length t), (out ++ [0xfffd]).
      split_and!; [done|done| |by left]. by rewrite drop_all, <- app_assoc. }
  destruct (lenient_next i b _ ts Hd Hts) as (-> & Hj & Hts3 & Hsupp & Hone).
  assert (Hstep : forall out1 k, lenient_units b ts = out1 -> (k = 1 + List.length ts)%nat -> exists j out',
    write_lenient fuel s cap (conv_at dest (i + k) (out ++ out1) 0) = Some (conv_at dest j out' 0) /\ (j <= List.length t)%nat /\
    out' ++ lenient (drop j t) = out ++ lenient_units b ts ++ lenient (drop (i + 1 + List.length ts) t) /\ (j = List.length t \/ cap <= len out')).
  { intros out1 k <- ->. destruct (IH (i + (1 + List.length ts))%nat (out ++ lenient_units b ts)) as (j & out' & -> & Hjl & Heq & Hend); [lia..|].
    exists j, out'. split_and!; try done. by rewrite Heq, <- app_assoc, Nat.add_assoc. }
  destruct ts as [|t1 [|t2 [|t3 [|]]]]; cbn [List.length] in Hts3; [..|lia].
  - rewrite put_at by lia. cbn [mbind option_bind]. rewrite pSrc_at. replace (Z.of_nat i + 1) with (Z.of_nat (i + 1)) by lia. rewrite move_at, Hone by done. by apply Hstep.
  - rewrite put_at by lia. cbn [mbind option_bind]. rewrite pSrc_at. replace (Z.of_nat i + 2) with (Z.of_nat (i + 2)) by lia. rewrite move_at. by apply Hstep.
  - rewrite put_at by lia. cbn [mbind option_bind]. rewrite pSrc_at. replace (Z.of_nat i + 3) with (Z.of_nat (i + 3)) by lia. rewrite move_at. by apply Hstep.
  - replace (Z.of_nat i + 4) with (Z.of_nat (i + 4)) by lia. rewrite move_at, put_at by lia. cbn [mbind option_bind].
    set (lead := U16_LEAD _). set (trail := U16_TRAIL _). change (pDest (conv_at dest (i + 4) (out ++ [lead]) 0)) with (Z.min cap (len (out ++ [lead]))).
    destruct (Z.ltb_spec (Z.min cap (len (out ++ [lead]))) cap) as [Hroom2|Hfull].
    + rewrite put_at by lia. cbn [mbind option_bind]. rewrite <- app_assoc. by apply Hstep.
    + exists (i + 4)%nat, (out ++ [lead; trail]). split_and!; [|cbn [List.length] in Hj; lia| |right; rewrite length_app in *; cbn [List.length] in *; lia].
      * change [lead; trail] with ([lead] ++ [trail]). rewrite app_assoc, <- (require_at dest (i + 4) (out ++ [lead]) 0 [trail]) by lia. do 2 f_equal.
        rewrite length_app in *. cbn [List.length] in *. lia.
      * cbn [List.length]. replace (i + 1 + 3)%nat with (i + 4)%nat by lia. by rewrite <- app_assoc.
Qed.

Lemma count_lenient_nul fuel : forall i out, (List.length t - i < fuel)%nat -> (i <= List.length t)%nat -> (i = List.length t \/ cap <= len out) ->
  len (out ++ lenient (drop i t)) <= INT32_MAX ->
  exists j, count_lenient fuel s (conv_at dest i out 0) = Some (conv_at dest j (out ++ lenient (drop i t)) 0).
Proof.
  induction fuel as [|fuel IH]; intros i out Hf Hi Hover Hmax; [lia|]. cbn [count_lenient]. rewrite !pSrc_at, aget_nat. pose proof (cap_nonneg dest) as Hcap.
  destruct (nul_get t rest Hnz i Hi) as [-> Hz]. cbn [mbind option_bind]. change (reqLength (conv_at dest i out 0)) with (len out - Z.min cap (len out)).
  destruct (Z.eqb_spec (default 0 (t !! i)) 0) as [E|E]; cbn [negb].
  { exists i. assert (~ (i < List.length t)%nat) by tauto. rewrite drop_ge by lia. by rewrite app_nil_r. }
  apply Hz in E. destruct (lookup_lt_is_Some_2 t i E) as [b Hb]. rewrite Hb. change (default 0 (Some b)) with b. pose proof (drop_S _ _ _ Hb) as Hd.
  destruct Hover as [?|Hover]; [lia|]. rewrite (lenient_trails_nul i b _ Hd). cbn [mbind option_bind]. destruct (trails_of b (drop (S i) t)) as [ts|] eqn:Hts.
  - destruct (lenient_next i b _ ts Hd Hts) as (Heq & Hj & Hts3 & Hsupp & _). rewrite Heq in *. destruct (units_count b ts Hts3) as [_ Hcnt].
    assert (Hunits : (if b <? 0xf0 then 1 else 2) = len (lenient_units b ts)).
    { rewrite Hcnt. destruct (Z.ltb_spec b 0xf0), (Nat.eqb_spec (List.length ts) 3); lia. }
    rewrite app_assoc in Hmax. rewrite Hunits. rewrite !length_app in Hmax. rewrite iadd_ok by ibound. cbn [obind]. rewrite require_at by done.
    replace (Z.of_nat i + 1 + len ts) with (Z.of_nat (i + 1 + List.length ts)) by lia. rewrite move_at.
    destruct (IH (i + 1 + List.length ts)%nat (out ++ lenient_units b ts)) as (j & ->); [lia|lia|right; rewrite length_app; lia|rewrite !length_app; lia|].
    exists j. by rewrite <- app_assoc.
  - rewrite (lenient_truncated i b _ Hd Hts) in *. rewrite length_app in Hmax. cbn [List.length] in Hmax. rewrite iadd_ok by ibound. cbn [obind]. exists i.
    change 1 with (len [0xfffd]). by rewrite require_at.
Qed.
End Nul.

Section Limit.
Context (dest : option (list Z)) (t : list Z) (Ht : is_bytes t) (Hcap : len t <= capacity dest).

Lemma aget_rest i b r (k : nat) : drop i t = b :: r -> aget t (Z.of_nat (i + 1 + k)) = r !! k.
Proof. intros Hd. by rewrite aget_nat, <- lookup_drop, (rest_drop t i b r Hd). Qed.

Lemma aget_first i b r : drop i t = b :: r -> aget t (Z.of_nat i) = Some b.
Proof. intros Hd. by rewrite aget_nat, <- (Nat.add_0_r i), <- lookup_drop, Hd. Qed.

Lemma lenient_char_spec i out b r ts : drop i t = b :: r -> trails_of b r = Some ts -> len out <= Z.of_nat i ->
  lenient_char t (conv_at dest i out 0) = Some (conv_at dest (i + 1 + List.length ts) (out ++ lenient_units b ts) 0).
Proof.
  intros Hd Hts Ho. destruct (trails_of_some b r ts Hts) as (Htake & Hl & Hn). pose proof (length_rest t i b r Hd) as Hr.
  assert (Hu : is_uint8 b) by (by eapply lead_byte). unfold is_uint8 in Hu.
  unfold lenient_char. rewrite pSrc_at, (aget_first i b r Hd). cbn [mbind option_bind].
  replace (Z.of_nat i + 1) with (Z.of_nat (i + 1 + 0)) by lia. replace (Z.of_nat i + 2) with (Z.of_nat (i + 1 + 1)) by lia.
  replace (Z.of_nat i + 3) with (Z.of_nat (i + 1 + 2)) by lia. replace (Z.of_nat i + 4) with (Z.of_nat (i + 1 + 3)) by lia.
  rewrite !(aget_rest i b r _ Hd).
  destruct (Z.ltb_spec b 0xc0); [|destruct (Z.ltb_spec b 0xe0); [|destruct (Z.ltb_spec b 0xf0)]].
  all: destruct ts as [|t1 [|t2 [|t3 [|]]]]; cbn [List.length] in Hn; try lia; destruct r as [|r1 [|r2 [|r3 r]]]; cbn [List.length] in Hl, Hr; try lia;
    cbn in Htake; simplify_eq; cbn [lookup list_lookup mbind option_bind lenient_units List.length].
  all: rewrite ?move_at, ?put_at by lia; cbn [mbind option_bind]; try by rewrite ?uint16_id by (unfold is_uint16; lia).
  all: rewrite put_at by (rewrite length_app; cbn; lia); by rewrite <- app_assoc.
Qed.

(** A character whose bytes are all there moves the loops on. *)
Lemma lenient_fits i : (i + 4 <= List.length t)%nat -> exists b r ts, drop i t = b :: r /\ trails_of b r = Some ts /\ (List.length ts <= 3)%nat.
Proof.
  intros Hi. destruct (lookup_lt_is_Some_2 t i) as [b Hb]; [lia|]. pose proof (drop_S _ _ _ Hb) as Hd. exists b, (drop (S i) t). unfold trails_of.
  set (n := if b <? 0xc0 then _ else _). assert (n <= 3)%nat by (subst n; repeat case_match; lia). destruct (Nat.leb_spec n (List.length (drop (S i) t))) as [Hn|Hn]; rewrite length_drop in Hn.
  - exists (take n (drop (S i) t)). rewrite length_take, length_drop. split_and!; [done|done|lia].
  - lia.
Qed.

Lemma lenient_step i b r ts : drop i t = b :: r -> trails_of b r = Some ts ->
  lenient (drop i t) = lenient_units b ts ++ lenient (drop (i + 1 + List.length ts) t) /\ (i + 1 + List.length ts <= List.length t)%nat /\
  (List.length (lenient_units b ts) <= List.length ts + 1)%nat.
Proof.
  intros Hd Hts. destruct (trails_of_some b r ts Hts) as (_ & Hl & Hn). pose proof (length_rest t i b r Hd). split_and!.
  - rewrite Hd, lenient_cons, Hts. by rewrite <- drop_drop, (rest_drop t i b r Hd).
  - lia.
  - destruct (units_count b ts) as [? _]; [rewrite Hn; repeat case_match|]; lia.
Qed.

Lemma four_lenient_spec fuel : forall i out, (List.length t - i < fuel)%nat -> (i + 4 <= List.length t)%nat -> len out <= Z.of_nat i ->
  exists j out', four_lenient fuel t (len t - 3) (conv_at dest i out 0) = Some (conv_at dest j out' 0) /\ (j <= List.length t <= j + 3)%nat /\
    len out' <= Z.of_nat j /\ out' ++ lenient (drop j t) = out ++ lenient (drop i t).
Proof.
  induction fuel as [|fuel IH]; intros i out Hf Hi Ho; [lia|]. cbn [four_lenient]. destruct (lenient_fits i Hi) as (b & r & ts & Hd & Hts & Hts3).
  destruct (lenient_step i b r ts Hd Hts) as (-> & Hj & Hu). rewrite (lenient_char_spec i out b r ts Hd Hts Ho). cbn [mbind option_bind]. rewrite pSrc_at.
  assert (Ho' : len (out ++ lenient_units b ts) <= Z.of_nat (i + 1 + List.length ts)) by (rewrite length_app; lia).
  destruct (Z.ltb_spec (Z.of_nat (i + 1 + List.length ts)) (len t - 3)).
  - destruct (IH (i + 1 + List.length ts)%nat (out ++ lenient_units b ts)) as (j & out' & -> & Hjl & Hol & Heq); [lia..|done|]. exists j, out'. by rewrite Heq, <- app_assoc.
  - exists (i + 1 + List.length ts)%nat, (out ++ lenient_units b ts). rewrite <- app_assoc. split_and!; (done || lia).
Qed.

(** At most three bytes are left for the last loop, which thus takes at most one
    character of three bytes, and none of four. *)
Lemma tail_lenient_spec fuel : forall i out, (List.length t - i < fuel)%nat -> (i <= List.length t <= i + 3)%nat -> len out <= Z.of_nat i ->
  exists j, tail_lenient fuel t (len t) (conv_at dest i out 0) = Some (conv_at dest j (out ++ lenient (drop i t)) 0).
Proof.
  induction fuel as [|fuel IH]; intros i out Hf Hi Ho; [lia|]. cbn [tail_lenient]. rewrite !pSrc_at.
  destruct (Z.ltb_spec (Z.of_nat i) (len t)) as [Hlt|Hge]; [|exists i; rewrite drop_ge by lia; by rewrite app_nil_r].
  destruct (lookup_lt_is_Some_2 t i) as [b Hb]; [lia|]. pose proof (drop_S _ _ _ Hb) as Hd. set (r := drop (S i) t) in *. pose proof (length_rest t i b r Hd) as Hr.
  assert (Hu : is_uint8 b) by (by eapply lead_byte). unfold is_uint8 in Hu. rewrite (aget_first i b r Hd). cbn [mbind option_bind].
  rewrite Hd, lenient_cons. unfold trails_of.
  replace (Z.of_nat i + 1) with (Z.of_nat (i + 1 + 0)) by lia. replace (Z.of_nat i + 2) with (Z.of_nat (i + 1 + 1)) by lia.
  replace (Z.of_nat i + 3 + 3) with (Z.of_nat (i + 6)) by lia. rewrite !(aget_rest i b r _ Hd).
  assert (Hdrop : forall k, drop k r = drop (i + 1 + k) t) by (intros k; unfold r; rewrite drop_drop; f_equal; lia). clearbody r.
  assert (Hstep : forall k out1, (S k <= List.length t - i)%nat -> (List.length out1 <= S k)%nat -> exists j,
    tail_lenient fuel t (len t) (conv_at dest (i + 1 + k) (out ++ out1) 0) = Some (conv_at dest j (out ++ out1 ++ lenient (drop k r)) 0)).
  { intros k out1 Hk Hl. rewrite Hdrop. destruct (IH (i + 1 + k)%nat (out ++ out1)) as (j & ->); [lia..|rewrite length_app; lia|]. exists j. by rewrite <- app_assoc. }
  rewrite Z.gtb_ltb, !Z.geb_leb.
  destruct (Z.ltb_spec b 0xc0); [|destruct (Z.ltb_spec b 0xe0); [|destruct (Z.ltb_spec b 0xf0)]]; destruct r as [|t1 [|t2 [|]]]; cbn [List.length] in *; try lia.
  all: cbn [Nat.leb andb lookup list_lookup mbind option_bind take]; decide_bounds; cbn [andb].
  all: rewrite ?move_at, ?put_at by lia; cbn [mbind option_bind]; rewrite ?uint16_id by (unfold is_uint16; lia).
  1-3, 5-6: by (apply (Hstep _ _); cbn; lia).
  4: { destruct fuel as [|fuel]; [lia|]. exists (i + 6)%nat. cbn [tail_lenient]. rewrite pSrc_at, (proj2 (Z.ltb_ge _ _)) by lia. done. }
  all: by exists (i + 1 + 0)%nat.
Qed.
End Limit.

(** ** The theorem *)

Definition lenient_converted (dest : option (list Z)) (t : list Z) (code : UErrorCode) : Converted :=
  let n := len (lenient t) in MkConverted (overlay dest (lenient t ++ [0])) (Some n) (Some 0) (termination (capacity dest) n code).

Lemma lenient_finish dest j t code : U_SUCCESS code = true -> len (lenient t) <= INT32_MAX ->
  finish (Done (conv_at dest j (lenient t) 0)) (capacity dest) code = Some (lenient_converted dest t code).
Proof.
  intros Hc Hmax. pose proof (cap_nonneg dest). cbn [finish]. change (reqLength (conv_at dest j (lenient t) 0)) with (len (lenient t) - Z.min (capacity dest) (len (lenient t))).
  change (pDest (conv_at dest j (lenient t) 0)) with (Z.min (capacity dest) (len (lenient t))). rewrite iadd_ok by ibound. cbn [obind].
  replace (len (lenient t) - Z.min (capacity dest) (len (lenient t)) + Z.min (capacity dest) (len (lenient t))) with (len (lenient t)) by lia.
  change (buffer (conv_at dest j (lenient t) 0)) with (overlay dest (lenient t)). by rewrite terminate_overlay.
Qed.


Lemma lenient_encode c r : is_scalar c -> lenient (encode c ++ r) = units c ++ lenient r.
Proof.
  intros Hc. pose proof (scalar_range c Hc) as Hr. unfold encode.
  assert (Hsplit : forall b ts, trails_of b (ts ++ r) = Some ts -> lenient ((b :: ts) ++ r) = lenient_units b ts ++ lenient r).
  { intros b ts Hts. change ((b :: ts) ++ r) with (b :: (ts ++ r)). by rewrite lenient_cons, Hts, drop_app_length. }
  destruct (Z.ltb_spec c 0x80); [|destruct (Z.ltb_spec c 0x800); [|destruct (Z.ltb_spec c 0x10000)]].
  - rewrite Hsplit by (unfold trails_of; cbn [app List.length]; decide_bounds; reflexivity). cbn [lenient_units]. by destruct (units_bmp c Hc) as [-> _]; [lia|].
  - assert (0xc2 <= 0xc0 + c / 64 < 0xe0) by dlia. rewrite Hsplit by (unfold trails_of; cbn [app List.length]; decide_bounds; cbn; by rewrite take_0).
    destruct (units_bmp c Hc) as [-> Hu]; [lia|]. cbn [lenient_units]. unfold lenient_two. rewrite Z.shiftl_mul_pow2 by lia. rewrite <- Hu at 3. do 3 f_equal. dlia.
  - assert (0xe0 <= 0xe0 + c / 4096 < 0xf0) by dlia. rewrite Hsplit by (unfold trails_of; cbn [app List.length]; decide_bounds; cbn; by rewrite take_0).
    destruct (units_bmp c Hc) as [-> Hu]; [lia|]. cbn [lenient_units]. unfold lenient_three. rewrite !Z.shiftl_mul_pow2 by lia. do 2 f_equal. apply eq_sym. rewrite <- Hu.
    unfold uint16. dlia.
  - assert (0xf0 <= 0xf0 + c / 262144) by dlia. rewrite Hsplit by (unfold trails_of; cbn [app List.length]; decide_bounds; cbn; by rewrite take_0).
    rewrite units_supplementary by (done || lia). cbn [lenient_units]. unfold lenient_four. rewrite !Z.shiftl_mul_pow2 by lia.
    replace ((0xf0 + c / 262144) * 2 ^ 18 + (0x80 + c / 4096 mod 64) * 2 ^ 12 + (0x80 + c / 64 mod 64) * 2 ^ 6 + (0x80 + c mod 64) - 0x3c82080) with c by dlia. done.
Qed.

Lemma lenient_utf8 cs : Forall is_scalar cs -> lenient (utf8 cs) = utf16 cs.
Proof. induction 1 as [|c cs Hc Hcs IH]; [done|]. rewrite utf16_cons, <- IH. by apply lenient_encode. Qed.

(** C13: the lenient conversion from UTF-8.  For any bytes, well-formed or not, that a NUL
    ends, and any buffer, [u_strFromUTF8Lenient] writes as much as fits of what
    the lead bytes say, with U+FFFD for a character that the end truncates, and
    returns the full length; with a length it does the same in a buffer of at
    least that size, without a check of the buffer in its loops, and refuses a
    smaller one.  Well-formed UTF-8 is converted to its UTF-16 form. *)
Theorem lenient_correct dest t rest code :
  is_bytes t -> len t <= INT32_MAX -> U_SUCCESS code = true ->
  (Forall (fun b => b <> 0) t ->
     u_strFromUTF8Lenient dest (capacity dest) (Some (t ++ 0 :: rest)) (-1) code = Some (lenient_converted dest t code)) /\
  (len t <= capacity dest -> u_strFromUTF8Lenient dest (capacity dest) (Some t) (len t) code = Some (lenient_converted dest t code)) /\
  (capacity dest < len t ->
     u_strFromUTF8Lenient dest (capacity dest) (Some t) (len t) code = Some (MkConverted dest (Some (len t)) None U_BUFFER_OVERFLOW_ERROR)) /\
  (forall cs, Forall is_scalar cs -> lenient (utf8 cs) = utf16 cs).
Proof.
  intros Ht Hlen Hc. pose proof (cap_nonneg dest) as Hcap. pose proof (lenient_length t) as Hl. unfold u_strFromUTF8Lenient. rewrite (success_no_failure code Hc).
  assert (Hargs : forall s n, -1 <= n -> (bool_decide (Some (A := list Z) s = None) && negb (n =? 0)) || (n <? -1) || (capacity dest <? 0) ||
    (bool_decide (dest = None) && (capacity dest >? 0)) = false).
  { intros s n Hn. rewrite bool_decide_eq_false_2 by done. rewrite !(proj2 (Z.ltb_ge _ _)) by lia. cbn [andb orb]. destruct dest; [done|]. reflexivity. }
  rewrite !Hargs by lia. change (default [] (Some t)) with t. change (default [] (Some (t ++ 0 :: rest))) with (t ++ 0 :: rest). rewrite conv_start.
  split_and!; [intros Hnz|intros Hfit|intros Hfit|apply lenient_utf8].
  - change (-1 <? 0) with true. cbv iota. destruct (write_lenient_nul dest t rest Ht Hnz (S (List.length (t ++ 0 :: rest))) 0 []) as (j & out & -> & Hj & Heq & Hend);
      [rewrite length_app; lia|lia|]. cbn [mbind option_bind]. rewrite drop_0 in Heq. cbn [app] in Heq.
    destruct (count_lenient_nul dest t rest Ht Hnz (S (List.length (t ++ 0 :: rest))) j out) as (k & ->); [rewrite length_app; lia|lia|done|rewrite Heq; lia|].
    cbn [mbind option_bind]. rewrite Heq. apply lenient_finish; [done|lia].
  - rewrite !(proj2 (Z.ltb_ge _ _)) by lia. assert (Hfour : exists j out,
      (if len t >=? 4 then four_lenient (S (List.length t)) t (len t - 3) (conv_at dest 0 [] 0) else Some (conv_at dest 0 [] 0)) = Some (conv_at dest j out 0) /\
      (j <= List.length t <= j + 3)%nat /\ len out <= Z.of_nat j /\ out ++ lenient (drop j t) = lenient t).
    { rewrite Z.geb_leb. destruct (Z.leb_spec 4 (len t)); [|exists 0%nat, []; rewrite drop_0; split_and!; (done || lia)].
      destruct (four_lenient_spec dest t Ht Hfit (S (List.length t)) 0 []) as (j & out & E & Hj & Ho & Heq); [lia|lia|done|]. rewrite drop_0 in Heq. by exists j, out. }
    destruct Hfour as (j & out & -> & Hj & Ho & Heq). cbn [mbind option_bind].
    destruct (tail_lenient_spec dest t Ht Hfit (S (List.length t)) j out) as (k & ->); [lia..|]. cbn [mbind option_bind]. rewrite Heq. apply lenient_finish; [done|lia].
  - rewrite (proj2 (Z.ltb_ge _ 0)), (proj2 (Z.ltb_lt _ _)) by lia. done.
Qed.

Lemma lenient_correct_witness :
  let t := [0x41; 0x80; 0xc3; 0x41; 0xf0; 0x9f; 0x98; 0x80; 0xe2; 0x82] in
  u_strFromUTF8Lenient (Some (repeat 7 5)) 5 (Some (t ++ [0; 9])) (-1) U_ZERO_ERROR =
    Some (MkConverted (Some [0x41; 0x80; 0x81; 0xd83d; 0xde00]) (Some 6) (Some 0) U_BUFFER_OVERFLOW_ERROR) /\
  u_strFromUTF8Lenient (Some (repeat 7 10)) 10 (Some t) 10 U_ZERO_ERROR =
    Some (MkConverted (Some [0x41; 0x80; 0x81; 0xd83d; 0xde00; 0xfffd; 0; 7; 7; 7]) (Some 6) (Some 0) U_ZERO_ERROR) /\
  u_strFromUTF8Lenient (Some (repeat 7 9)) 9 (Some t) 10 U_ZERO_ERROR =
    Some (MkConverted (Some (repeat 7 9)) (Some 10) None U_BUFFER_OVERFLOW_ERROR) /\
  lenient (utf8 [0x41; 0xe9; 0x20ac; 0x1f600]) = [0x41; 0xe9; 0x20ac; 0xd83d; 0xde00].
Proof.
  assert (Ht : is_bytes [0x41; 0x80; 0xc3; 0x41; 0xf0; 0x9f; 0x98; 0x80; 0xe2; 0x82]) by (repeat constructor; done).
  assert (Hl : 10 <= INT32_MAX) by (vm_compute; done). cbv zeta. split_and!.
  - etrans; [refine (proj1 (lenient_correct (Some (repeat 7 5)) _ [9] U_ZERO_ERROR Ht Hl eq_refl) _); repeat constructor; done|]. vm_compute. reflexivity.
  - etrans; [refine (proj1 (proj2 (lenient_correct (Some (repeat 7 10)) _ [] U_ZERO_ERROR Ht Hl eq_refl)) _); vm_compute; done|]. vm_compute. reflexivity.
  - exact (proj1 (proj2 (proj2 (lenient_correct (Some (repeat 7 9)) _ [] U_ZERO_ERROR Ht Hl eq_refl))) eq_refl).
  - etrans; [refine (proj2 (proj2 (proj2 (lenient_correct None _ [] U_ZERO_ERROR Ht Hl eq_refl))) [0x41; 0xe9; 0x20ac; 0x1f600] _); repeat constructor; (done || lia)|]. vm_compute. reflexivity.
Defined.
